(* ===== verification/_CoqProject ===== *)
-Q . S2P
Prelude.v
Utf8.v
Btree.v
Block.v
Bio.v
FreeMap.v
Inode.v
InodeLayout.v
FileMap.v
InodeOps.v
InodeAlloc.v
InodeWrite.v
InodeProofs.v
Directory.v
File.v
Filesys.v
DirProofs.v
InodeLife.v
Memory.v
Palloc.v
Thread.v
Sync.v
SchedProofs.v
Machine.v
SchedTotal.v
TimerProofs.v
Pipe.v
Fd.v
Malloc.v
Pagedir.v
Log.v
Swap.v
Vm.v
Elf.v
Spaces.v
NewSpace.v
FrameTable.v
VmMem.v
VmDisk.v
VmInv.v
VmEvict.v
VmLoad.v
VmFault.v
VmDemo.v
VmClaims.v
ElfProofs.v
Loader.v
Adopt.v
LoaderStack.v
LoaderArgs.v
LoaderSetup.v
LoadProgram.v
LoadDemand.v
LoadClaims.v
Input.v
Keyboard.v
Vga.v
VgaProofs.v
Proc.v
Wait.v
Mkdisk.v
MkBuild.v
MkImage.v
Process.v
Syscall.v
UserMem.v
SysArgs.v
SysClaims.v
UserHeap.v
UserLib.v
Ports.v
Idt.v
Ide.v
IdeProofs.v
Paging.v
Serial.v
Timer.v
Fork.v
Start.v
Boot.v
