(* ===== verification/Prelude.v ===== *)
(** * The rxv6 kernel, modelled and verified

    rxv6 is a small Unix-like kernel for 32-bit x86, written in Rust (src/src/).  This library
    translates the kernel's own logic into executable Rocq definitions and proves what makes it
    correct.  The program's parts, from the bottom up, and the files that model them:

    - *Files on disk.*  [Block] (devices/block.rs: devices, roles, bounds checks), [Bio]
      (filesys/bio.rs: thirty cached sectors), [FreeMap] (filesys/free_map.rs: one bit per
      sector), [Inode] (filesys/inode.rs: the on-disk inode, open inodes, three levels of block
      pointers, byte reads and writes), [Directory], [File] and [Filesys]
      (filesys/directory.rs, file.rs, filesys.rs and the second half of free_map.rs), [Log]
      (filesys/log.rs).  [Utf8] is [core::str::from_utf8], which names go through.
      [Mkdisk] is the host tool tools/mkdisk that builds disk images.
      [InodeLayout], [FileMap], [InodeOps], [InodeAlloc], [InodeWrite], [InodeProofs],
      [InodeLife] and [DirProofs] hold the proofs; [MkBuild] and [MkImage] prove that the kernel
      reads the images the tool writes.
    - *Memory.*  [Memory] (mem/vaddr.rs, mem/bitmap.rs), [Palloc] (mem/palloc.rs: page runs),
      [Malloc] (mem/malloc.rs: the heap), [Pagedir] (userprog/pagedir.rs: page tables), [Swap]
      (vm/swap.rs).
    - *Demand paging.*  [Vm] (vm/page.rs, vm/frame.rs, userprog/exception.rs and the table of
      page tables in userprog/process.rs).  [Btree] is iteration over a [BTreeMap]; [Spaces],
      [FrameTable], [VmMem], [VmDisk], [VmInv], [VmEvict], [VmLoad], [VmFault] and [VmClaims]
      hold the proofs and [VmDemo] a machine on which they are instantiated.
    - *Program loading.*  [Elf] (headers, segments, the entries of the pages and the words of a
      command line, from userprog/process.rs) and [Loader] (the initial stack,
      [load_demand_paged], and [destroy] of userprog/pagedir.rs).  [ElfProofs], [NewSpace] (a
      directory that is not yet a process's), [Adopt] (a thread takes it over), [LoaderStack],
      [LoaderArgs], [LoaderSetup], [LoadProgram], [LoadDemand] and
      [LoadClaims] hold the proofs.
    - *Threads.*  [Thread] (thread/mod.rs, and the interrupt level of arch/idt.rs), [Sync]
      (sync/semaphore.rs, lock.rs, condvar.rs, the sleep list of devices/timer.rs, the external
      interrupt path).  [SchedProofs], [Machine], [SchedTotal] and [TimerProofs] hold the proofs,
      [Start] the start of the scheduler (start and idle of thread/mod.rs) and
      sync/interrupt_guard.rs.
    - *Processes and their I/O.*  [Pipe] (pipe.rs), [Fd] (the descriptor table of
      userprog/process.rs and the pipe call of userprog/syscall.rs), [Input]
      (devices/input.rs: the console's line discipline), [Keyboard] (devices/keyboard.rs), [Vga]
      and [VgaProofs] (devices/vga.rs: the screen and its escape sequences).  [Proc] is the
      registry of process states in userprog/process.rs and [Wait] interleaves its operations.
      [Process] (fork, exec, exit and the start of programs in userprog/process.rs) and [Syscall]
      (userprog/syscall.rs, with the kernel's accesses to user memory through the page tables)
      put the components together; [UserMem] and [SysArgs] hold the lemmas about
      user memory and arguments, [SysClaims] the theorems, and [Fork] what becomes
      of the parent's memory in [fork].  [Boot] is main.rs from the disks to the first process.
    - *User programs.*  [UserHeap] (the heap allocator of user/rxv6-user/src/lib.rs) and [UserLib]
      (the system call stubs of user/rxv6-user/src/syscall.rs, and their agreement with [Syscall]).

    - *Hardware.*  [Ports] (arch/port.rs), [Timer] (the interval timer and the calibration of
      devices/timer.rs), [Idt] (arch/idt.rs, arch/gdt.rs, userprog/tss.rs),
      [Paging] (mem/paging.rs), [Ide] (devices/ide.rs) and [Serial] (devices/serial.rs, console.rs,
      devices/shutdown.rs); [IdeProofs] shows that the disk driver implements [Block]'s devices.

    ** How code is modelled

    Kernel code is a function in the monad [M S A] below: from a component's state to a result
    and the new state, to a panic, to undefined behaviour (a raw pointer outside its object) or
    to [OutOfFuel].  The kernel is built with the dev profile, so overflow of [usize] and [i32]
    arithmetic, a failed [assert!] or [debug_assert!] and an index out of range are panics, and
    are written out as such.  Machine words are [Z] with their ranges ([in_u32], [in_i32]),
    casts are [as_u32] and [as_i32].  A [static mut] or a struct behind a pointer is a record
    that the operations thread through; raw memory is a function from addresses to bytes
    ([Memory.Mem]).  Each component's state is embedded in its clients' with [zoom].

    [wp m s Q] says that [m] runs from [s] to a result that satisfies [Q] (no panic, no
    undefined behaviour, enough fuel): theorems stated with it are total.  [wlp] is the partial
    version; it is used for the scheduler's invariant, where a call may end in a panic.

    Loops that are not bounded by a list have fuel, and the fuel is proved to be enough by the
    same [wp] theorems: the bytes asked for in [Inode.read_at] and [write_at] (a turn moves at
    least one), the number of sectors in [FreeMap.allocate], the pages of a pool in
    [Memory.scan_and_flip], the heap's size in units of a free block in [Malloc.first_fit], the
    bytes of the buffer in [Pipe.write], 129 in [Input.kill_loop] (a ring of 128 bytes), eight
    levels in [Sync.donate_loop], as the code has, the pages below the end of the program in
    [Loader.map_pages], 22 doublings and 10 refinements in [Timer.calibrate] (a tick holds fewer
    than 2^31 loops).

    A thread's kernel code stops when another thread is scheduled and goes on later.  [Thread]
    keeps what each thread still has to do as a stack of frames ([konts]), pushed by the
    operations that may switch and run by [Sync.resume].  [Machine.step] is the transition
    relation: calls of the running thread, resumption of suspended code, timer interrupts.
    Pipe reads and writes are modelled in segments between two waits.

    The driver behind [Block.BlockOps] is a parameter with the laws [Block.BlockLaws]: a read
    of an in-range sector returns the bytes last written to it.  [Block.RamDisk] is an instance, and
    [IdeProofs] proves that the IDE driver behaves so on a controller with the laws of the ATA
    standard ([IdeProofs.AtaLaws]; [IdeProofs.Sim] is an instance), as long as the error bits that a
    busy disk may show after a write command, which the standard leaves undefined and the driver
    reads, are not set ([IdeProofs.calm_run]); when they are, the write is lost
    ([IdeProofs.busy_status_drops_write]).  The waiting loop has as fuel the number of times a
    thread can yield, which the laws bound while a disk answers.

    ** What the theorems show

    - Files: [write_at] and [read_at] implement an array of bytes with a length, including holes,
      growth through all three pointer levels and a full disk; a write reads back; files and the
      free space do not interfere; executables are protected from writes; the buffer cache is
      transparent and writes through; sector allocation is first fit, sound and complete;
      adding a name to a directory makes exactly that name resolve.  An image written by
      tools/mkdisk is mounted by the boot code into a consistent file system that holds exactly
      its files.
    - Log: recovery is idempotent under crashes; but a commit moves no data, and a damaged
      header panics the kernel.
    - Memory: page runs and heap blocks handed out are unused, aligned and large enough, failure
      means there is no room; freeing gives back exactly what was taken; mapping a page changes
      one translation of one address space; a swapped page comes back intact.
    - Demand paging: the contents of a page ([VmInv.content]) are what its process sees, be they
      in a frame, in a swap slot, in the executable or zeros.  Eviction takes only unpinned frames
      and never leaves one mapped twice; faults on pages that can be provided are repaired, the
      stack grows, all other faults kill the process or panic.  Throughout, the contents of the
      page that is asked for are right, and a page changes only if it had no faithful backing
      store: eviction keeps every page that is dirty or equals what it would be reloaded from
      ([VmInv.harmless]; all pages, where [VmInv.sound] holds).  A page that was read back from
      swap is such an exception: evicted again before it is written, it is always lost.
    - Program loading: the bytes of the segments, the protection of the pages, the arguments on
      the stack and the heap break are what the file and the command line say, or memory was
      short and nothing has changed; other processes see nothing of it.  Arguments that take
      more than a page panic the kernel.
    - Fork: with enough free frames the child gets private copies of exactly the parent's pages,
      with the same protection; a page that the parent has in swap is lost, and the copies are
      taken for clean.
    - Threads: in every reachable state the ready list, the thread states, the running thread,
      its page directory and its kernel stack agree; yielding runs the thread of highest
      priority, first come first served; [Semaphore::up] wakes the right waiter when it is not
      preempted, and loses the wakeup whenever the waiter it wakes preempts it; sleepers wake on
      time; donation raises exactly the threads along the chain of locks, up to eight or to the
      first that is urgent enough; signals mark exactly the threads they should; the start of the
      scheduler hands over to the idle thread and comes back.
    - I/O: a pipe is a first-in first-out channel that blocks, ends and fails as it should;
      descriptors are allocated lowest first and pipe reference counts equal the descriptors of
      all processes; the console implements a line editor, and the keyboard turns a typist's
      scan codes into the line they spell; the screen is a terminal of 25 rows and 80 columns
      whatever bytes are written to it.
    - System calls: [write] to a device prints the bytes of the caller's memory and answers with
      their number, from the trap to the return; [read] from the terminal puts a line into the
      caller's memory and changes no other byte of any process;
      a killed process does not get back to user mode; user memory the checks let pass panics
      the kernel.
    - User programs: the library's heap hands out blocks that are apart, keeps the contents of the
      others and loses no byte when blocks are freed and merged; each of the 25 functions of
      the library gets the kernel to run the operation of its name on its own arguments, in their
      order, and the two sides agree on the layout of a file status.
    - Hardware: gates and segments decode to what they were made of, user programs can raise
      vector 0x80 only, the processor finds the kernel stack of the running thread; physical
      memory is mapped at [PHYS_BASE], out of reach of user programs; sequences of disk transfers
      read and write the sectors they name; the serial line carries the text that is printed;
      calibration ends and is accurate to one part in 512.
    - Parents and children: as long as [exit] is not preempted between its signals, every exit
      status is collected at most once, by the process's parent, and a parent that waits for any
      child is woken when one has exited; a preemption there leaves it asleep for ever.

    ** Not modelled

    The assembly stubs, the panic handler, and the order of the initialisers in main.rs.  Console output is
    modelled as the bytes printed by [Input], by the system calls and by
    [start_process]; statistics and other messages of the kernel are left out.  The buffer
    cache's and the log's locks are seen from one thread: their operations run without
    interleaving.  Demand paging and the system calls likewise run without preemption, and the
    growth of the kernel's own vectors and maps does not fail.  Reference counts of inodes and
    [u64] tick counters are unbounded integers.  In the user library
    the kernel's answer to [sbrk] is a parameter, and formatting is not modelled. *)
From stdpp Require Export base option list list_numbers gmap numbers strings.
From Stdlib Require Export ZArith Lia.
#[global] Open Scope Z_scope.

(** ** Outcomes of kernel code

    The kernel is built with the [dev] profile and [panic = "abort"]: arithmetic
    overflow, a failed [assert!] and an out-of-range index all stop the machine.
    [UB] marks a raw-pointer access outside the object it points into, and
    [OutOfFuel] a loop that the model's fuel did not cover. *)
Inductive outcome (S A : Type) : Type :=
| Ok (a : A) (s : S)
| Panic (why : string)
| UB (why : string)
| OutOfFuel.
Arguments Ok {S A} a s.
Arguments Panic {S A} why.
Arguments UB {S A} why.
Arguments OutOfFuel {S A}.

(** Kernel code over a state [S]. *)
Definition M (S A : Type) : Type := S -> outcome S A.

Definition ret {S A} (a : A) : M S A := fun s => Ok a s.

Definition bind {S A B} (m : M S A) (k : A -> M S B) : M S B :=
  fun s => match m s with
           | Ok a s' => k a s'
           | Panic w => Panic w
           | UB w => UB w
           | OutOfFuel => OutOfFuel
           end.

Definition gets {S A} (f : S -> A) : M S A := fun s => Ok (f s) s.
Definition modify {S} (f : S -> S) : M S unit := fun s => Ok tt (f s).
Definition panic {S A} (w : string) : M S A := fun _ => Panic w.
Definition ub {S A} (w : string) : M S A := fun _ => UB w.

Declare Scope rust_scope.
Delimit Scope rust_scope with rust.
Notation "'let!' x ':=' m 'in' k" := (bind m (fun x => k))
  (at level 10, x pattern, m at level 100, k at level 200,
   format "'[v' 'let!'  x  ':='  m  'in' '/' k ']'") : rust_scope.
Notation "m ;; k" := (bind m (fun _ => k))
  (at level 100, k at level 200, right associativity, format "'[v' m  ;; '/' k ']'") : rust_scope.
#[global] Open Scope rust_scope.

(** [assert!(b)] *)
Definition assert {S} (b : bool) (w : string) : M S unit :=
  if b then ret tt else panic w.

(** Running code of a component inside the state of its client. *)
Definition zoom {S T A} (proj : S -> T) (upd : T -> S -> S) (m : M T A) : M S A :=
  fun s => match m (proj s) with
           | Ok a t => Ok a (upd t s)
           | Panic w => Panic w
           | UB w => UB w
           | OutOfFuel => OutOfFuel
           end.

(** [for x in xs { body }] *)
Fixpoint for_each {S A} (xs : list A) (body : A -> M S unit) : M S unit :=
  match xs with
  | [] => ret tt
  | x :: xs' => body x ;; for_each xs' body
  end.

(** [for x in xs { body }] where the body may [return r]. *)
Fixpoint for_ret {S A R} (xs : list A) (body : A -> M S (option R)) : M S (option R) :=
  match xs with
  | [] => ret None
  | x :: xs' =>
      let! r := body x in
      match r with Some _ => ret r | None => for_ret xs' body end
  end.

(** The range [lo..hi]. *)
Definition range (lo hi : Z) : list Z := seqZ lo (hi - lo).

(** ** Machine integers ([usize] is 32 bits wide on i686) *)
Definition u32_lim : Z := 2 ^ 32.
Definition i32_max : Z := 2 ^ 31 - 1.
Definition i32_min : Z := - 2 ^ 31.

Definition in_u8 (x : Z) : Prop := 0 <= x < 256.
Definition in_u32 (x : Z) : Prop := 0 <= x < u32_lim.
Definition in_i32 (x : Z) : Prop := i32_min <= x <= i32_max.

Definition u32_add {S} (a b : Z) : M S Z :=
  if a + b <? u32_lim then ret (a + b) else panic "attempt to add with overflow".
Definition u32_sub {S} (a b : Z) : M S Z :=
  if b <=? a then ret (a - b) else panic "attempt to subtract with overflow".
Definition u32_mul {S} (a b : Z) : M S Z :=
  if a * b <? u32_lim then ret (a * b) else panic "attempt to multiply with overflow".
Definition i32_chk {S} (x : Z) (w : string) : M S Z :=
  if (i32_min <=? x) && (x <=? i32_max) then ret x else panic w.
Definition i32_add {S} (a b : Z) : M S Z := i32_chk (a + b) "attempt to add with overflow".
Definition i32_sub {S} (a b : Z) : M S Z := i32_chk (a - b) "attempt to subtract with overflow".
Definition i32_mul {S} (a b : Z) : M S Z := i32_chk (a * b) "attempt to multiply with overflow".

(** [x as u32] of a signed value and [x as i32] of an unsigned one. *)
Definition as_u32 (x : Z) : Z := x mod u32_lim.
Definition as_i32 (x : Z) : Z :=
  let y := x mod u32_lim in if y <? 2 ^ 31 then y else y - u32_lim.

(** [!mask] at a width. *)
Definition not_w (w mask : Z) : Z := Z.lxor (2 ^ w - 1) mask.

(** Bounds-checked indexing [l[i]]. *)
Definition index {S A} (l : list A) (i : Z) : M S A :=
  if i <? 0 then panic "index out of bounds"
  else match l !! Z.to_nat i with
       | Some x => ret x
       | None => panic "index out of bounds"
       end.

(** Bounds-checked update [l[i] = x]. *)
Definition index_set {S A} (l : list A) (i : Z) (x : A) : M S (list A) :=
  if (0 <=? i) && (i <? Z.of_nat (length l)) then ret (<[Z.to_nat i := x]> l)
  else panic "index out of bounds".

(** ** Little-endian words *)
Definition le_bytes (x : Z) : list Z :=
  [x mod 256; (x / 256) mod 256; (x / 65536) mod 256; (x / 16777216) mod 256].

Definition le_word (l : list Z) : Z :=
  match l with
  | b0 :: b1 :: b2 :: b3 :: _ => b0 + 256 * b1 + 65536 * b2 + 16777216 * b3
  | _ => 0
  end.

(** [l[off .. off+n]] and [l[off .. off + new.len()] = new], for in-range arguments. *)
Definition slice {A} (off n : Z) (l : list A) : list A :=
  take (Z.to_nat n) (drop (Z.to_nat off) l).
Definition splice {A} (off : Z) (new l : list A) : list A :=
  take (Z.to_nat off) l ++ new ++ drop (Z.to_nat off + length new) l.

(** The byte at offset [k], 0 past the end. *)
Definition byte_at (l : list Z) (k : Z) : Z := default 0 (l !! Z.to_nat k).

(** [buf.fill(0)] *)
Definition zeros (n : Z) : list Z := replicate (Z.to_nat n) 0.

(** ** Total correctness: [m] runs from [s] without stopping and ends in [Q]. *)
Definition wp {S A} (m : M S A) (s : S) (Q : A -> S -> Prop) : Prop :=
  match m s with Ok a s' => Q a s' | _ => False end.

Section wp.
Context {S : Type}.

Lemma wp_ret {A} (a : A) (s : S) (Q : A -> S -> Prop) : Q a s -> wp (ret a) s Q.
Proof. done. Qed.

Lemma wp_bind {A B} (m : M S A) (k : A -> M S B) (s : S) (Q : B -> S -> Prop) :
  wp m s (fun a s' => wp (k a) s' Q) -> wp (bind m k) s Q.
Proof. unfold wp, bind. by destruct (m s). Qed.

Lemma wp_bind_assoc {A B C} (m : M S A) (k : A -> M S B) (k' : B -> M S C) s (Q : C -> S -> Prop) :
  wp (bind (bind m k) k') s Q -> wp (bind m (fun a => bind (k a) k')) s Q.
Proof. unfold wp, bind. by destruct (m s). Qed.

Lemma wp_mono {A} (m : M S A) (s : S) (P Q : A -> S -> Prop) :
  wp m s P -> (forall a s', P a s' -> Q a s') -> wp m s Q.
Proof. unfold wp. destruct (m s); auto. Qed.

Lemma wp_ok {A} (m : M S A) (s : S) (Q : A -> S -> Prop) :
  wp m s Q <-> exists a s', m s = Ok a s' /\ Q a s'.
Proof.
  unfold wp. split; [|by intros (a & s' & -> & ?)].
  destruct (m s) as [a s'| | |]; [eauto|done..].
Qed.

Lemma wp_gets {A} (f : S -> A) (s : S) (Q : A -> S -> Prop) : Q (f s) s -> wp (gets f) s Q.
Proof. done. Qed.

Lemma wp_modify (f : S -> S) (s : S) (Q : unit -> S -> Prop) : Q tt (f s) -> wp (modify f) s Q.
Proof. done. Qed.

Lemma wp_assert (b : bool) w (s : S) (Q : unit -> S -> Prop) :
  b = true -> Q tt s -> wp (assert b w) s Q.
Proof. by intros ->. Qed.

Lemma wp_zoom {T A} (proj : S -> T) (upd : T -> S -> S) (m : M T A) (s : S) (Q : A -> S -> Prop) :
  wp m (proj s) (fun a t => Q a (upd t s)) -> wp (zoom proj upd m) s Q.
Proof. unfold wp, zoom. by destruct (m (proj s)). Qed.

Lemma wp_u32_add (a b : Z) (s : S) (Q : Z -> S -> Prop) :
  a + b < u32_lim -> Q (a + b) s -> wp (u32_add a b) s Q.
Proof. intros H HQ. unfold u32_add. by rewrite (proj2 (Z.ltb_lt _ _) H). Qed.

Lemma wp_u32_sub (a b : Z) (s : S) (Q : Z -> S -> Prop) :
  b <= a -> Q (a - b) s -> wp (u32_sub a b) s Q.
Proof. intros H HQ. unfold u32_sub. by rewrite (proj2 (Z.leb_le _ _) H). Qed.

Lemma wp_u32_mul (a b : Z) (s : S) (Q : Z -> S -> Prop) :
  a * b < u32_lim -> Q (a * b) s -> wp (u32_mul a b) s Q.
Proof. intros H HQ. unfold u32_mul. by rewrite (proj2 (Z.ltb_lt _ _) H). Qed.

Lemma wp_i32_chk (x : Z) w (s : S) (Q : Z -> S -> Prop) :
  in_i32 x -> Q x s -> wp (i32_chk x w) s Q.
Proof.
  intros [H1 H2] HQ. unfold i32_chk.
  by rewrite (proj2 (Z.leb_le _ _) H1), (proj2 (Z.leb_le _ _) H2).
Qed.

Lemma wp_i32_add (a b : Z) (s : S) (Q : Z -> S -> Prop) :
  in_i32 (a + b) -> Q (a + b) s -> wp (i32_add a b) s Q.
Proof. apply wp_i32_chk. Qed.

Lemma wp_i32_sub (a b : Z) (s : S) (Q : Z -> S -> Prop) :
  in_i32 (a - b) -> Q (a - b) s -> wp (i32_sub a b) s Q.
Proof. apply wp_i32_chk. Qed.

Lemma wp_i32_mul (a b : Z) (s : S) (Q : Z -> S -> Prop) :
  in_i32 (a * b) -> Q (a * b) s -> wp (i32_mul a b) s Q.
Proof. apply wp_i32_chk. Qed.

Lemma wp_index {A} (l : list A) (i : Z) x (s : S) (Q : A -> S -> Prop) :
  0 <= i -> l !! Z.to_nat i = Some x -> Q x s -> wp (index l i) s Q.
Proof.
  intros Hi Hx HQ. unfold index. by rewrite (proj2 (Z.ltb_ge _ _) Hi), Hx.
Qed.

Lemma wp_index_set {A} (l : list A) (i : Z) x (s : S) (Q : list A -> S -> Prop) :
  0 <= i < Z.of_nat (length l) -> Q (<[Z.to_nat i := x]> l) s -> wp (index_set l i x) s Q.
Proof.
  intros [H1 H2] HQ. unfold index_set.
  by rewrite (proj2 (Z.leb_le _ _) H1), (proj2 (Z.ltb_lt _ _) H2).
Qed.

(** Loop rule: an invariant indexed by the part of the list already traversed. *)
Lemma wp_for_each {A} (I : list A -> S -> Prop) (xs : list A) (body : A -> M S unit) s
    (Q : unit -> S -> Prop) :
  I [] s ->
  (forall pre x post s', xs = pre ++ x :: post -> I pre s' ->
     wp (body x) s' (fun _ s'' => I (pre ++ [x]) s'')) ->
  (forall s', I xs s' -> Q tt s') ->
  wp (for_each xs body) s Q.
Proof.
  intros H0 Hb HQ.
  assert (forall pre post s', xs = pre ++ post -> I pre s' ->
     wp (for_each post body) s' (fun _ s'' => I xs s'')) as H.
  { intros pre post; revert pre; induction post as [|x post IH]; intros pre s' -> HI.
    - by rewrite app_nil_r.
    - simpl. apply wp_bind. eapply wp_mono; [by eapply Hb|]. intros [] s'' HI'.
      apply (IH (pre ++ [x])); [by rewrite <- app_assoc|done]. }
  eapply wp_mono; [by eapply (H [] xs)|]. intros [] s' ?. by apply HQ.
Qed.

(** Loop rules over [lo..hi]: an invariant indexed by the next value. *)
Lemma range_cons lo hi : lo < hi -> range lo hi = lo :: range (lo + 1) hi.
Proof.
  intros H. unfold range. rewrite seqZ_cons by lia.
  by replace (Z.pred (hi - lo)) with (hi - (lo + 1)) by lia.
Qed.

Lemma range_nil lo hi : hi <= lo -> range lo hi = [].
Proof. intros H. unfold range. apply seqZ_nil. lia. Qed.

Lemma range_ind (P : Z -> Prop) lo hi :
  P hi -> (forall i, lo <= i < hi -> P (i + 1) -> P i) -> lo <= hi -> P lo.
Proof.
  intros Hb Hs Hle. remember (Z.to_nat (hi - lo)) as n eqn:Hn.
  revert lo Hs Hle Hn. induction n as [|n IH]; intros lo Hs Hle Hn.
  - by replace lo with hi by lia.
  - apply Hs; [lia|]. apply IH; [|lia..]. intros i Hi. apply Hs. lia.
Qed.

Lemma wp_for_range (I : Z -> S -> Prop) lo hi (body : Z -> M S unit) s (Q : unit -> S -> Prop) :
  lo <= hi -> I lo s ->
  (forall i s', lo <= i < hi -> I i s' -> wp (body i) s' (fun _ => I (i + 1))) ->
  (forall s', I hi s' -> Q tt s') ->
  wp (for_each (range lo hi) body) s Q.
Proof.
  intros Hle H0 Hb HQ.
  revert s H0 Hb.
  pattern lo. apply (range_ind _ lo hi); [|intros l Hl IH|done].
  - intros s HI _. rewrite range_nil by lia. by apply HQ.
  - intros s HI Hb. rewrite (range_cons l) by lia. apply wp_bind.
    eapply wp_mono; [apply Hb; [lia|done]|]. intros [] s' HI'. apply IH; [done|].
    intros i s'' Hi. apply Hb. lia.
Qed.

Lemma wp_for_ret_range {R} (I : Z -> S -> Prop) lo hi (body : Z -> M S (option R)) s
    (Q : option R -> S -> Prop) :
  lo <= hi -> I lo s ->
  (forall i s', lo <= i < hi -> I i s' ->
     wp (body i) s' (fun r s'' => match r with None => I (i + 1) s'' | Some _ => Q r s'' end)) ->
  (forall s', I hi s' -> Q None s') ->
  wp (for_ret (range lo hi) body) s Q.
Proof.
  intros Hle H0 Hb HQ. revert s H0 Hb.
  pattern lo. apply (range_ind _ lo hi); [|intros l Hl IH|done].
  - intros s HI _. rewrite range_nil by lia. by apply HQ.
  - intros s HI Hb. rewrite (range_cons l) by lia. apply wp_bind.
    eapply wp_mono; [apply Hb; [lia|done]|]. intros [r|] s' HI'; [by apply wp_ret|].
    apply IH; [done|]. intros i s'' Hi. apply Hb. lia.
Qed.

End wp.

(** ** Partial correctness: a panic halts the machine, so it leaves no state behind. *)
Definition wlp {S A} (m : M S A) (s : S) (Q : A -> S -> Prop) : Prop :=
  match m s with Ok a s' => Q a s' | _ => True end.

Section wlp.
Context {S : Type}.
Lemma wlp_ret {A} (a : A) (s : S) (Q : A -> S -> Prop) : Q a s -> wlp (ret a) s Q.
Proof. done. Qed.
Lemma wlp_bind {A B} (m : M S A) (k : A -> M S B) s (Q : B -> S -> Prop) :
  wlp m s (fun a s' => wlp (k a) s' Q) -> wlp (bind m k) s Q.
Proof. unfold wlp, bind. by destruct (m s). Qed.
Lemma wlp_mono {A} (m : M S A) s (P Q : A -> S -> Prop) :
  wlp m s P -> (forall a s', P a s' -> Q a s') -> wlp m s Q.
Proof. unfold wlp. destruct (m s); auto. Qed.
Lemma wlp_gets {A} (f : S -> A) s (Q : A -> S -> Prop) : Q (f s) s -> wlp (gets f) s Q.
Proof. done. Qed.
Lemma wlp_modify (f : S -> S) s (Q : unit -> S -> Prop) : Q tt (f s) -> wlp (modify f) s Q.
Proof. done. Qed.
Lemma wlp_assert (b : bool) w s (Q : unit -> S -> Prop) :
  (b = true -> Q tt s) -> wlp (assert b w) s Q.
Proof. destruct b; [intros H; by apply H|done]. Qed.
Lemma wlp_zoom {T A} (proj : S -> T) (upd : T -> S -> S) (m : M T A) s (Q : A -> S -> Prop) :
  wlp m (proj s) (fun a t => Q a (upd t s)) -> wlp (zoom proj upd m) s Q.
Proof. unfold wlp, zoom. by destruct (m (proj s)). Qed.
Lemma wlp_u32_add a b s (Q : Z -> S -> Prop) : Q (a + b) s -> wlp (u32_add a b) s Q.
Proof. unfold u32_add. by case_match. Qed.
Lemma wlp_u32_sub a b s (Q : Z -> S -> Prop) : Q (a - b) s -> wlp (u32_sub a b) s Q.
Proof. unfold u32_sub. by case_match. Qed.
Lemma wlp_i32_add a b s (Q : Z -> S -> Prop) : Q (a + b) s -> wlp (i32_add a b) s Q.
Proof. unfold i32_add, i32_chk. by case_match. Qed.
Lemma wp_wlp {A} (m : M S A) s (Q : A -> S -> Prop) : wp m s Q -> wlp m s Q.
Proof. unfold wp, wlp. by destruct (m s). Qed.
End wlp.

Lemma wp_wlp_conj {S A} (m : M S A) s (Q1 Q2 : A -> S -> Prop) :
  wp m s Q1 -> wlp m s Q2 -> wp m s (fun a s' => Q1 a s' /\ Q2 a s').
Proof. unfold wp, wlp. by destruct (m s). Qed.

(** One step of symbolic execution. *)
Ltac wp_step :=
  lazymatch goal with
  | |- wp (bind _ _) _ _ => apply wp_bind
  | |- wp (ret _) _ _ => apply wp_ret
  | |- wp (gets _) _ _ => apply wp_gets
  | |- wp (modify _) _ _ => apply wp_modify
  | |- wp (zoom _ _ _) _ _ => apply wp_zoom
  end.
Ltac wp_steps := repeat (wp_step; cbv beta).

(** Case analysis on the boolean tests of the code, as linear facts. *)
Ltac zbool :=
  repeat match goal with
  | H : context [Z.ltb ?a ?b] |- _ => destruct (Z.ltb_spec a b)
  | H : context [Z.leb ?a ?b] |- _ => destruct (Z.leb_spec a b)
  | H : context [Z.eqb ?a ?b] |- _ => destruct (Z.eqb_spec a b)
  | |- context [Z.ltb ?a ?b] => destruct (Z.ltb_spec a b)
  | |- context [Z.leb ?a ?b] => destruct (Z.leb_spec a b)
  | |- context [Z.eqb ?a ?b] => destruct (Z.eqb_spec a b)
  end.

(** ** Lemmas on bytes and words *)
Lemma le_bytes_length x : length (le_bytes x) = 4%nat.
Proof. done. Qed.

Lemma le_word_bytes x rest : in_u32 x -> le_word (le_bytes x ++ rest) = x.
Proof.
  unfold in_u32, u32_lim. intros H. simpl.
  Z.div_mod_to_equations. lia.
Qed.

Lemma le_bytes_u8 x : Forall in_u8 (le_bytes x).
Proof. unfold in_u8. repeat constructor; apply Z.mod_pos_bound; lia. Qed.

Lemma le_bytes_word l :
  length l = 4%nat -> Forall in_u8 l -> le_bytes (le_word l) = l.
Proof.
  destruct l as [|a [|b [|c [|d [|]]]]]; try done. intros _ H.
  repeat (apply Forall_cons in H as [? H]). unfold in_u8 in *. simpl. unfold le_bytes.
  assert ((a + 256 * b + 65536 * c + 16777216 * d) / 256 = b + 256 * c + 65536 * d) as E1
    by (symmetry; apply (Z.div_unique_pos _ _ _ a); lia).
  assert ((a + 256 * b + 65536 * c + 16777216 * d) / 65536 = c + 256 * d) as E2
    by (symmetry; apply (Z.div_unique_pos _ _ _ (a + 256 * b)); lia).
  assert ((a + 256 * b + 65536 * c + 16777216 * d) / 16777216 = d) as E3
    by (symmetry; apply (Z.div_unique_pos _ _ _ (a + 256 * b + 65536 * c)); lia).
  rewrite E1, E2, E3.
  f_equal; [|f_equal; [|f_equal; [|f_equal]]];
    symmetry;
    [eapply (Z.mod_unique_pos _ _ (b + 256 * c + 65536 * d))
    |eapply (Z.mod_unique_pos _ _ (c + 256 * d))
    |eapply (Z.mod_unique_pos _ _ d)
    |eapply (Z.mod_unique_pos _ _ 0)]; lia.
Qed.

Lemma as_i32_u32 x : in_i32 x -> as_i32 (as_u32 x) = x.
Proof.
  unfold in_i32, i32_min, i32_max, as_i32, as_u32, u32_lim. intros H.
  rewrite Z.mod_mod by lia.
  destruct (decide (0 <= x)).
  - rewrite Z.mod_small by lia. zbool; lia.
  - replace (x mod 2 ^ 32) with (x + 2 ^ 32); [zbool; lia|].
    apply (Z.mod_unique_pos _ _ (-1)); lia.
Qed.

Lemma as_u32_in x : in_u32 (as_u32 x).
Proof. unfold in_u32, as_u32. apply Z.mod_pos_bound. unfold u32_lim. lia. Qed.

Lemma as_u32_small x : 0 <= x < u32_lim -> as_u32 x = x.
Proof. apply Z.mod_small. Qed.
Lemma as_i32_small x : 0 <= x <= i32_max -> as_i32 x = x.
Proof.
  unfold as_i32, i32_max. intros H. rewrite Z.mod_small by (unfold u32_lim; lia). zbool; lia.
Qed.

(** ** Lemmas on lists *)
Lemma zeros_length n : length (zeros n) = Z.to_nat n.
Proof. apply length_replicate. Qed.

Lemma slice_length {A} off n (l : list A) :
  0 <= off -> 0 <= n -> off + n <= Z.of_nat (length l) -> length (slice off n l) = Z.to_nat n.
Proof. intros. unfold slice. rewrite length_take, length_drop. lia. Qed.

Lemma slice_nil {A} off (l : list A) : slice off 0 l = [].
Proof. done. Qed.

Lemma slice_split {A} off a b (l : list A) :
  0 <= off -> 0 <= a -> 0 <= b -> slice off (a + b) l = slice off a l ++ slice (off + a) b l.
Proof.
  intros Ho Ha Hb. unfold slice. rewrite !Z2Nat.inj_add by lia. rewrite <- drop_drop.
  rewrite <- (take_drop (Z.to_nat a) (take (Z.to_nat a + Z.to_nat b) (drop (Z.to_nat off) l))).
  rewrite take_take, Nat.min_l by lia. f_equal. by rewrite <- take_drop_commute.
Qed.

Lemma splice_length {A} off (new l : list A) :
  0 <= off -> off + Z.of_nat (length new) <= Z.of_nat (length l) ->
  length (splice off new l) = length l.
Proof.
  intros. unfold splice. rewrite !length_app, length_take, length_drop. lia.
Qed.

Lemma lookup_slice {A} off n (l : list A) i :
  (i < Z.to_nat n)%nat -> slice off n l !! i = l !! (Z.to_nat off + i)%nat.
Proof. intros. unfold slice. by rewrite lookup_take_lt, lookup_drop. Qed.

Lemma lookup_splice {A} off (new l : list A) i :
  0 <= off -> off + Z.of_nat (length new) <= Z.of_nat (length l) ->
  splice off new l !! i =
    (if decide ((i < Z.to_nat off)%nat) then l !! i
     else if decide ((i < Z.to_nat off + length new)%nat) then new !! (i - Z.to_nat off)%nat
     else l !! i).
Proof.
  intros H0 H1. unfold splice. repeat case_decide.
  - rewrite lookup_app_l by (rewrite length_take; lia). by rewrite lookup_take_lt.
  - rewrite lookup_app_r by (rewrite length_take; lia).
    rewrite length_take, Nat.min_l by lia. by rewrite lookup_app_l by lia.
  - rewrite lookup_app_r by (rewrite length_take; lia).
    rewrite length_take, Nat.min_l by lia. rewrite lookup_app_r by lia.
    rewrite lookup_drop. f_equal. lia.
Qed.

Lemma lookup_slice_splice {A} off (new l : list A) :
  0 <= off -> off + Z.of_nat (length new) <= Z.of_nat (length l) ->
  slice off (Z.of_nat (length new)) (splice off new l) = new.
Proof.
  intros H0 H1. unfold slice, splice.
  rewrite drop_app_length' by (rewrite length_take; lia).
  by rewrite take_app_length' by lia.
Qed.

Lemma Forall_splice {A} (P : A -> Prop) off (new l : list A) :
  Forall P new -> Forall P l -> Forall P (splice off new l).
Proof.
  intros Hn Hl. unfold splice.
  rewrite !Forall_app. auto using Forall_take, Forall_drop.
Qed.

Lemma Forall_slice {A} (P : A -> Prop) off n (l : list A) :
  Forall P l -> Forall P (slice off n l).
Proof. intros. unfold slice. auto using Forall_take, Forall_drop. Qed.

Lemma zeros_u8 n : Forall in_u8 (zeros n).
Proof. apply Forall_replicate. unfold in_u8. lia. Qed.

Lemma elem_of_range lo hi i : i ∈ range lo hi <-> lo <= i < hi.
Proof. unfold range. rewrite elem_of_seqZ. lia. Qed.

Lemma byte_at_splice off new l k :
  0 <= off -> 0 <= k -> off + Z.of_nat (length new) <= Z.of_nat (length l) ->
  byte_at (splice off new l) k =
    if decide (off <= k < off + Z.of_nat (length new)) then byte_at new (k - off)
    else byte_at l k.
Proof.
  intros Ho Hk Hl. unfold byte_at. rewrite lookup_splice by lia.
  repeat case_decide; try lia; try done; do 2 f_equal; lia.
Qed.

Lemma byte_at_slice off n l k :
  0 <= off -> 0 <= k < n -> byte_at (slice off n l) k = byte_at l (off + k).
Proof. intros. unfold byte_at. rewrite lookup_slice by lia. do 2 f_equal. lia. Qed.

Lemma byte_at_zeros n k : byte_at (zeros n) k = 0.
Proof.
  unfold byte_at, zeros. destruct (replicate _ _ !! _) eqn:E; [|done].
  by apply lookup_replicate in E as [-> _].
Qed.

Lemma byte_at_lookup l k : 0 <= k < Z.of_nat (length l) -> l !! Z.to_nat k = Some (byte_at l k).
Proof.
  intros Hk. unfold byte_at. destruct (lookup_lt_is_Some_2 l (Z.to_nat k)) as [x ->]; [lia|done].
Qed.

Lemma byte_at_insert (l : list Z) i j b :
  0 <= i < Z.of_nat (length l) -> 0 <= j ->
  byte_at (<[Z.to_nat i := b]> l) j = if decide (j = i) then b else byte_at l j.
Proof.
  intros Hi Hj. unfold byte_at. case_decide as E.
  - subst. rewrite list_lookup_insert_eq by lia. done.
  - rewrite list_lookup_insert_ne by lia. done.
Qed.

(** First index satisfying a test ([iter().position(..)], or a scan that stops at a hit). *)
Fixpoint find_index {A} (f : A -> bool) (l : list A) : option nat :=
  match l with
  | [] => None
  | x :: l' => if f x then Some 0%nat else S <$> find_index f l'
  end.

Lemma find_index_Some {A} (f : A -> bool) l i :
  find_index f l = Some i <->
  (exists x, l !! i = Some x /\ f x = true) /\
  (forall j y, (j < i)%nat -> l !! j = Some y -> f y = false).
Proof.
  revert i; induction l as [|x l IH]; intros i; simpl.
  - split; [done|]. intros [(y & ? & _) _]. by rewrite lookup_nil in *.
  - destruct (f x) eqn:Hx.
    + split.
      * intros [= <-]. split; [by exists x|]. lia.
      * intros [_ Hlt]. destruct i as [|i]; [done|].
        specialize (Hlt 0%nat x ltac:(lia) eq_refl). congruence.
    + split.
      * intros (i' & Hi' & ->)%fmap_Some. apply IH in Hi' as [(y & Hy & Hfy) Hlt].
        split; [by exists y|]. intros [|j] z Hj Hz; [by injection Hz as <-|].
        apply (Hlt j); [lia|done].
      * intros [(y & Hy & Hfy) Hlt]. destruct i as [|i]; [injection Hy as <-; congruence|].
        apply fmap_Some. exists i. split; [|done]. apply IH. split; [by exists y|].
        intros j z Hj Hz. apply (Hlt (S j)); [lia|done].
Qed.

Lemma find_index_None {A} (f : A -> bool) l :
  find_index f l = None <-> (forall i x, l !! i = Some x -> f x = false).
Proof.
  induction l as [|x l IH]; simpl.
  - split; [|done]. intros _ i x. by rewrite lookup_nil.
  - destruct (f x) eqn:Hx.
    + split; [done|]. intros H. specialize (H 0%nat x eq_refl). congruence.
    + rewrite fmap_None, IH. split; intros H.
      * intros [|i] y Hy; [by injection Hy as <-|]. by apply (H i).
      * intros i y Hy. by apply (H (S i)).
Qed.

Create HintDb kernel.
Create Rewrite HintDb kernel.
#[export] Hint Resolve le_bytes_u8 zeros_u8 Forall_splice Forall_slice as_u32_in : kernel.
#[export] Hint Rewrite @length_app @length_take @length_drop @length_insert @length_replicate
  zeros_length le_bytes_length : kernel.
