(* ===== verification/Utf8.v ===== *)
(** UTF-8 validity of byte strings, as decided by [core::str::from_utf8]. *)
From S2P Require Import Prelude.

Definition in_range (lo hi b : Z) : bool := (lo <=? b) && (b <=? hi).
Definition cont (b : Z) : bool := in_range 0x80 0xBF b.

(** The well-formed byte sequences of the Unicode standard: no overlong forms, no
    surrogates, nothing above U+10FFFF. *)
Fixpoint utf8_ok (l : list Z) : bool :=
  match l with
  | [] => true
  | b0 :: l0 =>
      if in_range 0 0x7F b0 then utf8_ok l0
      else match l0 with
      | [] => false
      | b1 :: l1 =>
          if in_range 0xC2 0xDF b0 then cont b1 && utf8_ok l1
          else match l1 with
          | [] => false
          | b2 :: l2 =>
              if b0 =? 0xE0 then in_range 0xA0 0xBF b1 && cont b2 && utf8_ok l2
              else if b0 =? 0xED then in_range 0x80 0x9F b1 && cont b2 && utf8_ok l2
              else if in_range 0xE1 0xEF b0 then cont b1 && cont b2 && utf8_ok l2
              else match l2 with
              | [] => false
              | b3 :: l3 =>
                  if b0 =? 0xF0 then
                    in_range 0x90 0xBF b1 && cont b2 && cont b3 && utf8_ok l3
                  else if b0 =? 0xF4 then
                    in_range 0x80 0x8F b1 && cont b2 && cont b3 && utf8_ok l3
                  else if in_range 0xF1 0xF3 b0 then
                    cont b1 && cont b2 && cont b3 && utf8_ok l3
                  else false
              end
          end
      end
  end.

(** [core::str::from_utf8(l).ok()] *)
Definition from_utf8 (l : list Z) : option (list Z) := if utf8_ok l then Some l else None.

Lemma utf8_ok_ascii l : Forall (fun b => 0 <= b < 128) l -> utf8_ok l = true.
Proof.
  induction 1 as [|b l Hb _ IH]; [done|]. simpl. unfold in_range.
  destruct (Z.leb_spec 0 b), (Z.leb_spec b 0x7F); simpl; (done || lia).
Qed.
