(* ===== verification/Btree.v ===== *)
(** [BTreeMap] of the [alloc] library as a finite map: iteration is in key order. *)
From stdpp Require Import sorting.
From S2P Require Import Prelude.

Definition key_le {A} (a b : Z * A) : Prop := fst a <= fst b.
#[export] Instance key_le_dec {A} : RelDecision (@key_le A) := fun a b => Z_le_dec (fst a) (fst b).
#[export] Instance key_le_total {A} : Total (@key_le A).
Proof. intros a b. unfold key_le. lia. Qed.
#[export] Instance key_le_trans {A} : Transitive (@key_le A).
Proof. intros a b c. unfold key_le. lia. Qed.

(** [BTreeMap::iter] *)
Definition btree_iter {A} (m : gmap Z A) : list (Z * A) := merge_sort key_le (map_to_list m).

Lemma elem_of_btree_iter {A} (m : gmap Z A) k x : (k, x) ∈ btree_iter m <-> m !! k = Some x.
Proof. unfold btree_iter. rewrite merge_sort_Permutation. apply elem_of_map_to_list. Qed.

Lemma btree_iter_sorted {A} (m : gmap Z A) : StronglySorted key_le (btree_iter m).
Proof. apply (StronglySorted_merge_sort _). Qed.

Lemma btree_iter_keys {A} (m : gmap Z A) : NoDup (btree_iter m).*1.
Proof.
  unfold btree_iter. rewrite (merge_sort_Permutation key_le (map_to_list m)). apply NoDup_fst_map_to_list.
Qed.

(** [iter().find(...)] returns the entry of the least key that satisfies the test. *)
Lemma find_sorted {A} (f : Z * A -> bool) (l : list (Z * A)) kx :
  StronglySorted key_le l -> List.find f l = Some kx ->
  kx ∈ l /\ f kx = true /\ forall ky, ky ∈ l -> f ky = true -> fst kx <= fst ky.
Proof.
  induction 1 as [|z l Hs IH Hz]; [done|]. simpl. destruct (f z) eqn:Ef.
  - intros [= ->]. split_and!; [by left|done|]. intros ky [->|Hin]%elem_of_cons _; [done|].
    rewrite Forall_forall in Hz. by apply Hz.
  - intros Hf. destruct (IH Hf) as (Hin & Hfx & Hle). split_and!; [by right|done|].
    intros ky [->|Hky]%elem_of_cons Hfy; [congruence|]. by apply Hle.
Qed.

Lemma find_none {A} (f : A -> bool) (l : list A) : List.find f l = None -> forall x, x ∈ l -> f x = false.
Proof. intros H x Hx. apply (List.find_none f l H). by apply list_elem_of_In. Qed.

(** Iteration of a small map, computed. *)
Example btree_iter_order : btree_iter (<[3 := true]> (<[200 := false]> (<[1 := true]> ∅))) = [(1, true); (3, true); (200, false)].
Proof. vm_compute. reflexivity. Qed.
