(* ===== verification/Block.v ===== *)
(** The block-device layer (src/devices/block.rs): the [BlockOps] driver trait, registered
    devices with their bounds checks, and the role table. *)
From S2P Require Import Prelude Utf8.

Definition BLOCK_SECTOR_SIZE : Z := 512.

(** A fresh zeroed sector buffer; the heap allocation behind it is not modelled. *)
Definition sector_buf : list Z := zeros BLOCK_SECTOR_SIZE.

Inductive BlockType : Set := Kernel | FileSys | Scratch | Swap | Raw | Foreign.

(** The trait a driver implements. [D] is the driver together with the medium it drives. *)
Class BlockOps (D : Type) := {
  ops_read : D -> Z -> list Z;
  ops_write : D -> Z -> list Z -> D;
}.

(** What the kernel relies on from a driver: a sector holds 512 bytes, and reads return
    what was last written there. *)
Class BlockLaws (D : Type) `{!BlockOps D} : Prop := {
  ops_read_length : forall d s, length (ops_read d s) = Z.to_nat BLOCK_SECTOR_SIZE;
  ops_read_bytes : forall d s, Forall in_u8 (ops_read d s);
  ops_read_write : forall d s b, length b = Z.to_nat BLOCK_SECTOR_SIZE -> Forall in_u8 b ->
    ops_read (ops_write d s b) s = b;
  ops_read_write_ne : forall d s t b, s <> t ->
    ops_read (ops_write d s b) t = ops_read d t;
}.

Record BlockDevice (D : Type) := mkDevice {
  dev_name : list Z;
  dev_type : BlockType;
  dev_size : Z;
  dev_ops : D;
  dev_read_cnt : Z;
  dev_write_cnt : Z;
}.
Arguments mkDevice {D}.
Arguments dev_name {D}.
Arguments dev_type {D}.
Arguments dev_size {D}.
Arguments dev_ops {D}.
Arguments dev_read_cnt {D}.
Arguments dev_write_cnt {D}.

(** [DEVICES] and [ROLES]. *)
Record Registry (D : Type) := mkRegistry {
  DEVICES : list (BlockDevice D);
  ROLES : list (option nat);
}.
Arguments mkRegistry {D}.
Arguments DEVICES {D}.
Arguments ROLES {D}.

Definition empty_registry {D} : Registry D := mkRegistry [] (replicate 4 None).

Section block.
Context {D : Type} `{!BlockOps D}.

(** [BlockDevice::read]; the 64-bit transfer counters are unbounded here. *)
Definition read (sector : Z) : M (BlockDevice D) (list Z) :=
  let! dev := gets id in
  assert (sector <? dev_size dev) "sector out of bounds" ;;
  modify (fun d => mkDevice (dev_name d) (dev_type d) (dev_size d) (dev_ops d)
                     (dev_read_cnt d + 1) (dev_write_cnt d)) ;;
  ret (ops_read (dev_ops dev) sector).

(** [BlockDevice::write] *)
Definition write (sector : Z) (buf : list Z) : M (BlockDevice D) unit :=
  let! dev := gets id in
  assert (sector <? dev_size dev) "sector out of bounds" ;;
  modify (fun d => mkDevice (dev_name d) (dev_type d) (dev_size d)
                     (ops_write (dev_ops d) sector buf)
                     (dev_read_cnt d) (dev_write_cnt d + 1)).

(** [BlockDevice::name_str]: the name up to the first NUL, if that is valid UTF-8. *)
Definition name_str (d : BlockDevice D) : list Z :=
  let len := default (length (dev_name d)) (find_index (Z.eqb 0) (dev_name d)) in
  default [63; 63; 63] (from_utf8 (take len (dev_name d))).

Definition role_index (role : BlockType) : option nat :=
  match role with
  | FileSys => Some 0%nat
  | Scratch => Some 1%nat
  | Swap => Some 2%nat
  | Raw => Some 3%nat
  | _ => None
  end.

(** [register]: the name is cut to 15 bytes and NUL-padded to 16. *)
Definition register (name : list Z) (block_type : BlockType) (size : Z) (ops : D)
    : M (Registry D) nat :=
  let len := Nat.min (length name) 15 in
  let name_buf := take len name ++ replicate (16 - len) 0 in
  let! r := gets id in
  let idx := length (DEVICES r) in
  modify (fun r => mkRegistry (DEVICES r ++ [mkDevice name_buf block_type size ops 0 0])
                     (ROLES r)) ;;
  ret idx.

(** [get_by_name]: the index of the first device with that name. *)
Definition get_by_name (name : list Z) : M (Registry D) (option nat) :=
  gets (fun r => find_index (fun d => bool_decide (name_str d = name)) (DEVICES r)).

(** [get_role]: the index of the device that plays [role], the stand-in for the
    [&'static mut BlockDevice] of the source. *)
Definition role_dev (role : BlockType) (r : Registry D) : option nat :=
  match role_index role with
  | None => None
  | Some ri =>
      match mjoin (ROLES r !! ri) with
      | None => None
      | Some idx => if decide (idx < length (DEVICES r))%nat then Some idx else None
      end
  end.

Definition get_role (role : BlockType) : M (Registry D) (option nat) := gets (role_dev role).

Definition set_role (role : BlockType) (dev_idx : nat) : M (Registry D) unit :=
  match role_index role with
  | Some ri => modify (fun r => mkRegistry (DEVICES r) (<[ri := Some dev_idx]> (ROLES r)))
  | None => ret tt
  end.

(** Running a device method on [DEVICES[idx]]. *)
Definition on_dev {A} (idx : nat) (m : M (BlockDevice D) A) : M (Registry D) A :=
  fun r => match DEVICES r !! idx with
           | None => Panic "index out of bounds"
           | Some d =>
               match m d with
               | Ok a d' => Ok a (mkRegistry (<[idx := d']> (DEVICES r)) (ROLES r))
               | Panic w => Panic w
               | UB w => UB w
               | OutOfFuel => OutOfFuel
               end
           end.

End block.

(** A driver over a sector map: sectors never written read as zeros. *)
Definition RamDisk : Type := gmap Z (list Z).

Definition sector_image (b : list Z) : list Z :=
  take 512 (((fun x => x mod 256) <$> b) ++ replicate 512 0).

#[export] Instance RamDisk_ops : BlockOps RamDisk := {
  ops_read d s := sector_image (default [] ((d : gmap Z (list Z)) !! s));
  ops_write d s b := <[s := b]> (d : gmap Z (list Z));
}.

Lemma sector_image_id b :
  length b = Z.to_nat BLOCK_SECTOR_SIZE -> Forall in_u8 b -> sector_image b = b.
Proof.
  intros Hl Hb. unfold sector_image.
  rewrite take_app_le, take_ge by (rewrite length_fmap, Hl; unfold BLOCK_SECTOR_SIZE; lia).
  etrans; [|apply list_fmap_id]. apply list_fmap_ext. intros i x Hx.
  apply Z.mod_small. exact (Forall_lookup_1 _ _ _ _ Hb Hx).
Qed.

#[export] Instance RamDisk_laws : BlockLaws RamDisk.
Proof.
  split; simpl.
  - intros d s. unfold sector_image. rewrite length_take, length_app, length_replicate.
    unfold BLOCK_SECTOR_SIZE. lia.
  - intros d s. unfold sector_image. apply Forall_take, Forall_app. split.
    + apply Forall_fmap, Forall_true. intros x. unfold in_u8. apply Z.mod_pos_bound. lia.
    + apply Forall_replicate. unfold in_u8. lia.
  - intros d s b Hl Hb. rewrite lookup_insert_eq. by apply sector_image_id.
  - intros d s t b Hne. by rewrite lookup_insert_ne.
Qed.
