(* ===== verification/Bio.v ===== *)
(** The buffer cache (src/filesys/bio.rs): thirty sector buffers with reference counts over
    the file-system device, and the proof that between operations it is transparent: clients
    see a plain array of sectors. *)
From S2P Require Import Prelude Utf8 Block.

Definition NBUF : Z := 30.
Definition B_VALID : Z := 0x1.
Definition B_DIRTY : Z := 0x2.

Record Buf := mkBuf {
  buf_flags : Z;
  buf_sector : Z;
  buf_refcnt : Z;
  buf_data : list Z;
}.

(** [lock] is true while the running thread holds the cache lock. *)
Record BCache := mkBCache {
  bc_lock : bool;
  bc_bufs : list Buf;
}.

Record BioState (D : Type) := mkBio {
  bio_reg : Registry D;
  bio_cache : BCache;
}.
Arguments mkBio {D}.
Arguments bio_reg {D}.
Arguments bio_cache {D}.

Definition valid (b : Buf) : bool := negb (Z.land (buf_flags b) B_VALID =? 0).
Definition dirty (b : Buf) : bool := negb (Z.land (buf_flags b) B_DIRTY =? 0).

Definition set_flags (f : Z) (b : Buf) : Buf :=
  mkBuf f (buf_sector b) (buf_refcnt b) (buf_data b).
Definition set_refcnt (r : Z) (b : Buf) : Buf :=
  mkBuf (buf_flags b) (buf_sector b) r (buf_data b).
Definition set_data (d : list Z) (b : Buf) : Buf :=
  mkBuf (buf_flags b) (buf_sector b) (buf_refcnt b) d.

Section bio.
Context {D : Type} `{!BlockOps D}.

Definition bufs (st : BioState D) : list Buf := bc_bufs (bio_cache st).
Definition with_bufs (bs : list Buf) (st : BioState D) : BioState D :=
  mkBio (bio_reg st) (mkBCache (bc_lock (bio_cache st)) bs).
Definition with_lock (l : bool) (st : BioState D) : BioState D :=
  mkBio (bio_reg st) (mkBCache l (bc_bufs (bio_cache st))).
Definition with_reg (r : Registry D) (st : BioState D) : BioState D :=
  mkBio r (bio_cache st).

(** [lock.acquire()] and [lock.release()], as one thread sees them. *)
Definition lock_acquire : M (BioState D) unit :=
  let! l := gets (fun st => bc_lock (bio_cache st)) in
  assert (negb l) "lock already held" ;;
  modify (with_lock true).
Definition lock_release : M (BioState D) unit :=
  let! l := gets (fun st => bc_lock (bio_cache st)) in
  assert l "lock not held by current thread" ;;
  modify (with_lock false).

(** The buffer behind a reference, and a store through it. *)
Definition get_buf (i : nat) : M (BioState D) Buf :=
  let! bs := gets bufs in
  match bs !! i with Some b => ret b | None => panic "index out of bounds" end.
Definition put_buf (i : nat) (b : Buf) : M (BioState D) unit :=
  modify (fun st => with_bufs (<[i := b]> (bufs st)) st).

Definition read_sector (sector : Z) (data : list Z) : M (BioState D) (list Z) :=
  let! dev := zoom bio_reg with_reg (get_role FileSys) in
  match dev with
  | Some idx => zoom bio_reg with_reg (on_dev idx (Block.read sector))
  | None => ret data
  end.

Definition write_sector (sector : Z) (data : list Z) : M (BioState D) unit :=
  let! dev := zoom bio_reg with_reg (get_role FileSys) in
  match dev with
  | Some idx => zoom bio_reg with_reg (on_dev idx (Block.write sector data))
  | None => ret tt
  end.

(** A fresh cache: every buffer empty, unreferenced and zeroed. *)
Definition init : M (BioState D) unit :=
  modify (fun st => mkBio (bio_reg st)
    (mkBCache false (replicate (Z.to_nat NBUF) (mkBuf 0 0 0 (zeros BLOCK_SECTOR_SIZE))))).

(** [bread]: the index of the buffer stands for the reference that is returned. *)
Definition bread (sector : Z) : M (BioState D) nat :=
  lock_acquire ;;
  let! bs := gets bufs in
  match find_index (fun b => (buf_sector b =? sector) && valid b) bs with
  | Some i =>
      let! b := get_buf i in
      let! r := u32_add (buf_refcnt b) 1 in
      put_buf i (set_refcnt r b) ;;
      lock_release ;;
      ret i
  | None =>
      match find_index (fun b => buf_refcnt b =? 0) bs with
      | Some i =>
          let! b := get_buf i in
          (if dirty b then
             write_sector (buf_sector b) (buf_data b) ;;
             put_buf i (set_flags (Z.land (buf_flags b) (not_w 32 B_DIRTY)) b)
           else ret tt) ;;
          let! b := get_buf i in
          put_buf i (mkBuf 0 sector 1 (buf_data b)) ;;
          let! data := read_sector sector (buf_data b) in
          put_buf i (mkBuf (Z.lor 0 B_VALID) sector 1 data) ;;
          lock_release ;;
          ret i
      | None => lock_release ;; panic "bio: no free buffers"
      end
  end.

Definition brelse (i : nat) : M (BioState D) unit :=
  lock_acquire ;;
  let! b := get_buf i in
  let! r := u32_sub (buf_refcnt b) 1 in
  put_buf i (set_refcnt r b) ;;
  lock_release.

Definition bwrite (i : nat) : M (BioState D) unit :=
  let! b := get_buf i in
  write_sector (buf_sector b) (buf_data b) ;;
  let! b := get_buf i in
  put_buf i (set_flags (Z.land (buf_flags b) (not_w 32 B_DIRTY)) b).

Definition sync_buf (i : nat) : M (BioState D) unit :=
  let! b := get_buf i in
  if Z.land (buf_flags b) (Z.lor B_VALID B_DIRTY) =? Z.lor B_VALID B_DIRTY then
    write_sector (buf_sector b) (buf_data b) ;;
    put_buf i (set_flags (Z.land (buf_flags b) (not_w 32 B_DIRTY)) b)
  else ret tt.

Definition sync : M (BioState D) unit :=
  lock_acquire ;;
  let! bs := gets bufs in
  for_each (seq 0 (length bs)) sync_buf ;;
  lock_release.

Definition binvalidate (sector : Z) : M (BioState D) unit :=
  lock_acquire ;;
  modify (fun st => with_bufs
    ((fun b => if buf_sector b =? sector then mkBuf 0 (buf_sector b) 0 (buf_data b) else b)
       <$> bufs st) st) ;;
  lock_release.

(** Reading and storing through the reference [bread] returned. *)
Definition buf_get (i : nat) : M (BioState D) (list Z) :=
  let! b := get_buf i in ret (buf_data b).
Definition buf_set (i : nat) (d : list Z) : M (BioState D) unit :=
  let! b := get_buf i in put_buf i (set_data d b).

End bio.

(** ** What clients rely on *)
Section spec.
Context {D : Type} `{!BlockOps D}.

(** The device playing the file-system role, its size, and the sectors it holds. *)
Definition fs_dev (st : BioState D) : option (BlockDevice D) :=
  role_dev FileSys (bio_reg st) ≫= fun i => DEVICES (bio_reg st) !! i.
Definition fs_size (st : BioState D) : Z := from_option dev_size 0 (fs_dev st).
Definition view (st : BioState D) (s : Z) : list Z :=
  from_option (fun d => ops_read (dev_ops d) s) [] (fs_dev st).

(** The cache invariant; [h] is the buffer the running operation holds, if any. *)
Record bio_ok (h : option nat) (st : BioState D) : Prop := {
  ok_lock : bc_lock (bio_cache st) = false;
  ok_len : length (bufs st) = Z.to_nat NBUF;
  ok_dev : is_Some (fs_dev st);
  ok_ref : forall i b, bufs st !! i = Some b ->
    buf_refcnt b = if decide (h = Some i) then 1 else 0;
  ok_flags : forall i b, bufs st !! i = Some b -> buf_flags b = 0 \/ buf_flags b = B_VALID;
  ok_data : forall i b, bufs st !! i = Some b -> valid b = true ->
    buf_data b = view st (buf_sector b);
  ok_uniq : forall i j b c, bufs st !! i = Some b -> bufs st !! j = Some c ->
    valid b = true -> valid c = true -> buf_sector b = buf_sector c -> i = j;
}.

(** Buffer [i] is the one held, and it caches sector [s]. *)
Definition holds (i : nat) (s : Z) (st : BioState D) : Prop :=
  exists b, bufs st !! i = Some b /\ buf_sector b = s /\ valid b = true.

(** Two states that show a client the same disk. *)
Definition same_disk (st st' : BioState D) : Prop :=
  fs_size st' = fs_size st /\ forall s, view st' s = view st s.

#[export] Instance same_disk_equiv : Equivalence same_disk.
Proof.
  split.
  - by intros st.
  - intros st st' [H1 H2]. split; [done|]. intros s. by rewrite H2.
  - intros a b c [H1 H2] [H3 H4]. split; [congruence|]. intros s. by rewrite H4, H2.
Qed.

#[export] Instance view_proper : Proper (same_disk ==> eq ==> eq) view.
Proof. intros st st' [_ H] s ? <-. by rewrite H. Qed.

#[export] Instance fs_size_proper : Proper (same_disk ==> eq) fs_size.
Proof. by intros st st' [H _]. Qed.

(** The state of the disk after sector [s] is overwritten with [d]. *)
Definition disk_upd (s : Z) (d : list Z) (st st' : BioState D) : Prop :=
  fs_size st' = fs_size st /\
  forall t, view st' t = if decide (t = s) then d else view st t.

Lemma fs_dev_with_bufs bs st : fs_dev (with_bufs bs st) = fs_dev st.
Proof. done. Qed.
Lemma view_with_bufs bs st s : view (with_bufs bs st) s = view st s.
Proof. done. Qed.

(** Device accesses through the role table. *)
Lemma role_dev_insert idx (d : BlockDevice D) r :
  role_dev FileSys r = Some idx ->
  role_dev FileSys (mkRegistry (<[idx := d]> (DEVICES r)) (ROLES r)) = Some idx.
Proof. unfold role_dev. simpl. by rewrite length_insert. Qed.

Lemma fs_dev_inv st d :
  fs_dev st = Some d ->
  exists idx, role_dev FileSys (bio_reg st) = Some idx /\ DEVICES (bio_reg st) !! idx = Some d.
Proof. unfold fs_dev. intros (idx & ? & ?)%bind_Some. by exists idx. Qed.

Lemma fs_dev_update st st' idx d d' :
  role_dev FileSys (bio_reg st) = Some idx -> DEVICES (bio_reg st) !! idx = Some d ->
  bio_reg st' = mkRegistry (<[idx := d']> (DEVICES (bio_reg st))) (ROLES (bio_reg st)) ->
  fs_dev st' = Some d'.
Proof.
  intros Hr Hd Heq. unfold fs_dev. rewrite Heq, (role_dev_insert _ d' _ Hr). simpl.
  apply list_lookup_insert_eq. by eapply lookup_lt_Some.
Qed.

Lemma wp_read_sector s d0 st (Q : list Z -> BioState D -> Prop) :
  is_Some (fs_dev st) -> s < fs_size st ->
  (forall st', bio_cache st' = bio_cache st -> same_disk st st' -> is_Some (fs_dev st') ->
     Q (view st s) st') ->
  wp (read_sector s d0) st Q.
Proof.
  intros [d Hd] Hs HQ. destruct (fs_dev_inv _ _ Hd) as (idx & Hr & Hi).
  unfold fs_size in Hs. rewrite Hd in Hs. simpl in Hs.
  unfold wp, read_sector, bind, zoom, get_role, gets, on_dev. rewrite Hr. simpl.
  rewrite Hi. unfold Block.read, bind, gets, id, assert.
  rewrite (proj2 (Z.ltb_lt _ _) Hs). simpl.
  assert (view st s = ops_read (dev_ops d) s) as <- by (unfold view; by rewrite Hd).
  match goal with |- Q _ ?st' =>
    pose proof (fs_dev_update st st' idx d _ Hr Hi eq_refl) as Hupd end.
  apply HQ; [done| |by rewrite Hupd].
  split; [unfold fs_size|intros t; unfold view]; by rewrite Hupd, Hd.
Qed.

Lemma wp_write_sector `{!BlockLaws D} s d st (Q : unit -> BioState D -> Prop) :
  is_Some (fs_dev st) -> s < fs_size st ->
  length d = Z.to_nat BLOCK_SECTOR_SIZE -> Forall in_u8 d ->
  (forall st', bio_cache st' = bio_cache st -> disk_upd s d st st' -> is_Some (fs_dev st') ->
     Q tt st') ->
  wp (write_sector s d) st Q.
Proof.
  intros [dv Hd] Hs Hl Hb HQ. destruct (fs_dev_inv _ _ Hd) as (idx & Hr & Hi).
  unfold fs_size in Hs. rewrite Hd in Hs. simpl in Hs.
  unfold wp, write_sector, bind, zoom, get_role, gets, on_dev. rewrite Hr. simpl.
  rewrite Hi. unfold Block.write, bind, gets, id, assert.
  rewrite (proj2 (Z.ltb_lt _ _) Hs). simpl.
  match goal with |- Q _ ?st' =>
    pose proof (fs_dev_update st st' idx dv _ Hr Hi eq_refl) as Hupd end.
  apply HQ; [done| |by rewrite Hupd].
  split; [unfold fs_size; by rewrite Hupd, Hd|].
  intros t. unfold view. rewrite Hupd, Hd. simpl. case_decide as Ht.
  - subst t. by apply ops_read_write.
  - by apply ops_read_write_ne.
Qed.


Lemma wp_lock_acquire st (Q : unit -> BioState D -> Prop) :
  bc_lock (bio_cache st) = false -> Q tt (with_lock true st) -> wp lock_acquire st Q.
Proof. intros Hl HQ. unfold wp, lock_acquire, bind, gets. by rewrite Hl. Qed.

Lemma wp_lock_release st (Q : unit -> BioState D -> Prop) :
  bc_lock (bio_cache st) = true -> Q tt (with_lock false st) -> wp lock_release st Q.
Proof. intros Hl HQ. unfold wp, lock_release, bind, gets. by rewrite Hl. Qed.

Lemma wp_get_buf i b st (Q : Buf -> BioState D -> Prop) :
  bufs st !! i = Some b -> Q b st -> wp (get_buf i) st Q.
Proof. intros Hb HQ. unfold wp, get_buf, bind, gets. by rewrite Hb. Qed.

(** Replacing one buffer keeps the invariant when the new one agrees with the disk. *)
Lemma bio_ok_update h h' st st' i b0 b :
  bio_ok h st -> bufs st !! i = Some b0 ->
  bio_cache st' = mkBCache false (<[i := b]> (bufs st)) ->
  is_Some (fs_dev st') ->
  (forall j c, j <> i -> bufs st !! j = Some c -> valid c = true ->
     view st' (buf_sector c) = view st (buf_sector c)) ->
  buf_refcnt b = (if decide (h' = Some i) then 1 else 0) ->
  (forall j, j <> i -> h' = Some j <-> h = Some j) ->
  (buf_flags b = 0 \/ buf_flags b = B_VALID) ->
  (valid b = true -> buf_data b = view st' (buf_sector b)) ->
  (valid b = true -> forall j c, j <> i -> bufs st !! j = Some c -> valid c = true ->
     buf_sector c <> buf_sector b) ->
  bio_ok h' st'.
Proof.
  intros [Hl Hn Hd Hr Hf Hv Hu] Hi Hc Hd' Hview Hrb Hh Hfb Hvb Hub.
  assert (i < length (bufs st))%nat as Hlt by by eapply lookup_lt_Some.
  assert (forall j c, bufs st' !! j = Some c ->
            (j = i /\ c = b) \/ (j <> i /\ bufs st !! j = Some c)) as Hlk.
  { intros j c. unfold bufs at 1. rewrite Hc. simpl.
    destruct (decide (j = i)) as [->|Hne].
    - rewrite list_lookup_insert_eq by done. intros [= <-]. by left.
    - rewrite list_lookup_insert_ne by done. by right. }
  split.
  - by rewrite Hc.
  - unfold bufs. rewrite Hc. simpl. by rewrite length_insert.
  - done.
  - intros j c [[-> ->]|[Hne Hj]]%Hlk; [done|]. rewrite (Hr _ _ Hj).
    destruct (Hh j Hne). repeat case_decide; tauto.
  - intros j c [[-> ->]|[Hne Hj]]%Hlk; [done|by eapply Hf].
  - intros j c [[-> ->]|[Hne Hj]]%Hlk Hval; [by apply Hvb|].
    rewrite (Hview j c) by done. by eapply Hv.
  - intros j k c c' [[-> ->]|[Hne Hj]]%Hlk [[-> ->]|[Hne' Hk]]%Hlk Hval Hval' Hs; [done|..].
    + by destruct (Hub Hval k c' Hne' Hk Hval').
    + by destruct (Hub Hval' j c Hne Hj Hval).
    + by eapply Hu.
Qed.

Lemma valid_flags b : (buf_flags b = 0 \/ buf_flags b = B_VALID) ->
  dirty b = false /\ (valid b = true <-> buf_flags b = B_VALID).
Proof. unfold dirty, valid. intros [->| ->]; done. Qed.

Lemma wp_bread s st (Q : nat -> BioState D -> Prop) :
  bio_ok None st -> s < fs_size st ->
  (forall i st', bio_ok (Some i) st' -> same_disk st st' -> holds i s st' -> Q i st') ->
  wp (bread s) st Q.
Proof.
  intros Hok Hs HQ. pose proof Hok as [Hl Hn Hd Hr Hf Hv Hu].
  unfold bread. apply wp_bind, wp_lock_acquire; [done|]. apply wp_bind, wp_gets.
  change (bufs (with_lock true st)) with (bufs st).
  destruct (find_index (fun b => (buf_sector b =? s) && valid b) (bufs st)) as [i|] eqn:Hhit.
  - apply find_index_Some in Hhit as [(b & Hb & [Hbs Hbv]%andb_prop) _].
    apply Z.eqb_eq in Hbs. pose proof (Hr _ _ Hb) as Hrb. simpl in Hrb.
    apply wp_bind. apply (wp_get_buf _ b); [done|]. apply wp_bind, wp_u32_add; [rewrite Hrb; done|].
    apply wp_bind, wp_modify, wp_bind, wp_lock_release; [done|]. apply wp_ret.
    apply HQ.
    + eapply (bio_ok_update None); try done; simpl.
      * by rewrite Hrb, decide_True.
      * intros j ?; split; congruence.
      * by eapply Hf.
      * intros Hval. by rewrite (Hv _ _ Hb Hval).
      * intros Hval j c Hne Hj Hc Heq. by apply Hne, (Hu _ _ _ _ Hj Hb).
    + by split.
    + exists (set_refcnt (buf_refcnt b + 1) b). split; [|done]. unfold bufs; simpl.
      apply list_lookup_insert_eq. by eapply lookup_lt_Some.
  - rewrite find_index_None in Hhit.
    destruct (find_index (fun b => buf_refcnt b =? 0) (bufs st)) as [i|] eqn:Hfree.
    2:{ exfalso. rewrite find_index_None in Hfree.
        destruct (lookup_lt_is_Some_2 (bufs st) 0) as [b Hb]; [rewrite Hn; unfold NBUF; lia|].
        specialize (Hfree _ _ Hb). rewrite (Hr _ _ Hb) in Hfree. done. }
    apply find_index_Some in Hfree as [(b & Hb & Hb0) _].
    apply wp_bind. apply (wp_get_buf _ b); [done|].
    destruct (valid_flags b (Hf _ _ Hb)) as [-> _]. apply wp_bind, wp_ret.
    apply wp_bind. apply (wp_get_buf _ b); [done|].
    apply wp_bind, wp_modify, wp_bind, wp_read_sector; [done|done|].
    intros st' Hc Hsd Hd'. apply wp_bind, wp_modify, wp_bind, wp_lock_release.
    { simpl. by rewrite Hc. }
    apply wp_ret. apply HQ.
    + eapply (bio_ok_update None _ _ _ i b (mkBuf _ s 1 (view st s))); try done; simpl.
      * unfold bufs. rewrite Hc. simpl. by rewrite list_insert_insert_eq.
      * intros j c _ _ _. apply Hsd.
      * by rewrite decide_True.
      * intros j ?; split; congruence.
      * by right.
      * intros _. symmetry. apply Hsd.
      * intros _ j c Hne Hj Hval Heq. specialize (Hhit j c Hj). simpl in Hhit.
        by rewrite Heq, Z.eqb_refl, Hval in Hhit.
    + done.
    + exists (mkBuf (Z.lor 0 B_VALID) s 1 (view st s)). split; [|done].
      unfold bufs; simpl. rewrite Hc. simpl.
      apply list_lookup_insert_eq. rewrite length_insert. by eapply lookup_lt_Some.
Qed.

Lemma wp_buf_get i s st (Q : list Z -> BioState D -> Prop) :
  bio_ok (Some i) st -> holds i s st -> Q (view st s) st -> wp (buf_get i) st Q.
Proof.
  intros Hok (b & Hb & <- & Hval) HQ. apply wp_bind. apply (wp_get_buf _ b); [done|].
  apply wp_ret. by rewrite (ok_data _ _ Hok _ _ Hb Hval).
Qed.

Lemma wp_brelse i st (Q : unit -> BioState D -> Prop) :
  bio_ok (Some i) st -> (i < length (bufs st))%nat ->
  (forall st', bio_ok None st' -> same_disk st st' -> Q tt st') ->
  wp (brelse i) st Q.
Proof.
  intros Hok [b Hb]%lookup_lt_is_Some_2 HQ. pose proof Hok as [Hl Hn Hd Hr Hf Hv Hu].
  pose proof (Hr _ _ Hb) as Hrb. rewrite decide_True in Hrb by done.
  unfold brelse. apply wp_bind, wp_lock_acquire; [done|].
  apply wp_bind. apply (wp_get_buf _ b); [done|].
  apply wp_bind, wp_u32_sub; [lia|]. apply wp_bind, wp_modify, wp_lock_release; [done|].
  apply HQ; [|by split].
  eapply (bio_ok_update (Some i)); try done; simpl.
  - by rewrite Hrb.
  - intros j Hne. split; congruence.
  - by eapply Hf.
  - intros Hval. by rewrite (Hv _ _ Hb Hval).
  - intros Hval j c Hne Hj Hc Heq. by apply Hne, (Hu _ _ _ _ Hj Hb).
Qed.

Lemma holds_lt i s st : holds i s st -> (i < length (bufs st))%nat.
Proof. intros (b & Hb & _). by eapply lookup_lt_Some. Qed.

(** Storing [d] through the reference and writing it back overwrites the sector. *)
Lemma wp_buf_write `{!BlockLaws D} i s d st (Q : unit -> BioState D -> Prop) :
  bio_ok (Some i) st -> holds i s st -> s < fs_size st ->
  length d = Z.to_nat BLOCK_SECTOR_SIZE -> Forall in_u8 d ->
  (forall st', bio_ok (Some i) st' -> disk_upd s d st st' -> holds i s st' -> Q tt st') ->
  wp (buf_set i d ;; bwrite i) st Q.
Proof.
  intros Hok (b & Hb & Hbs & Hval) Hs Hl Hd8 HQ. pose proof Hok as [Hlk Hn Hdv Hr Hf Hv Hu].
  pose proof (proj1 (proj2 (valid_flags b (Hf _ _ Hb))) Hval) as Hfl.
  assert (i < length (bufs st))%nat as Hlt by by eapply lookup_lt_Some.
  apply wp_bind, wp_bind. apply (wp_get_buf _ b); [done|]. apply wp_modify.
  apply wp_bind. apply (wp_get_buf _ (set_data d b)).
  { unfold bufs; simpl. by apply list_lookup_insert_eq. }
  simpl. rewrite Hbs. apply wp_bind, wp_write_sector; [done..|]. intros st' Hc Hdu Hd'.
  apply wp_bind. apply (wp_get_buf _ (set_data d b)).
  { unfold bufs; simpl. rewrite Hc. simpl. by apply list_lookup_insert_eq. }
  apply wp_modify. change (disk_upd s d st st') in Hdu.
  assert (bufs st' = <[i := set_data d b]> (bufs st)) as Hbufs by (unfold bufs; by rewrite Hc).
  apply HQ; [|exact Hdu|].
  - eapply (bio_ok_update (Some i) _ _ _ i b (mkBuf B_VALID s 1 d)); try done; simpl.
    + rewrite Hc. simpl. rewrite Hbufs, list_insert_insert_eq. unfold set_flags. simpl.
      rewrite Hbs, Hfl, Hlk, (Hr _ _ Hb), decide_True by done. done.
    + intros j c Hne Hj Hc'. unfold with_bufs, view at 1, fs_dev at 1. simpl.
      fold (fs_dev st'). fold (view st' (buf_sector c)). destruct Hdu as [_ ->].
      rewrite decide_False; [done|]. intros Heq. apply Hne, (Hu _ _ _ _ Hj Hb); congruence.
    + by rewrite decide_True.
    + by right.
    + intros _. unfold with_bufs, view, fs_dev. simpl.
      fold (fs_dev st'). fold (view st' s). destruct Hdu as [_ ->]. by rewrite decide_True.
    + intros _ j c Hne Hj Hc' Heq. apply Hne, (Hu _ _ _ _ Hj Hb); congruence.
  - exists (mkBuf B_VALID s 1 d). split; [|done].
    unfold bufs; simpl. rewrite Hc. simpl. rewrite list_insert_insert_eq.
    unfold set_flags. simpl. rewrite Hbs, Hfl, (Hr _ _ Hb), decide_True by done.
    by apply list_lookup_insert_eq.
Qed.

End spec.

(** ** The two access patterns of the inode layer *)
Section patterns.
Context {D : Type} `{!BlockOps D}.

(** [let buf = bread(s); .. read buf.data ..; brelse(buf)] *)
Definition read_through (s : Z) : M (BioState D) (list Z) :=
  let! i := bread s in
  let! d := buf_get i in
  brelse i ;;
  ret d.

(** [let buf = bread(s); .. buf.data updated by f ..; bwrite(buf); brelse(buf)] *)
Definition write_through (s : Z) (f : list Z -> list Z) : M (BioState D) unit :=
  let! i := bread s in
  let! d := buf_get i in
  buf_set i (f d) ;;
  bwrite i ;;
  brelse i.

Lemma wp_read_through s st (Q : list Z -> BioState D -> Prop) :
  bio_ok None st -> s < fs_size st ->
  (forall st', bio_ok None st' -> same_disk st st' -> Q (view st s) st') ->
  wp (read_through s) st Q.
Proof.
  intros Hok Hs HQ. apply wp_bind, wp_bread; [done..|]. intros i st1 Hok1 Hsd Hh.
  apply wp_bind. apply (wp_buf_get _ s); [done..|].
  apply wp_bind, wp_brelse; [done|by eapply holds_lt|]. intros st2 Hok2 Hsd2.
  apply wp_ret. rewrite (proj2 Hsd s). apply HQ; [done|]. by etrans.
Qed.

Lemma wp_write_through `{!BlockLaws D} s f st (Q : unit -> BioState D -> Prop) :
  bio_ok None st -> s < fs_size st ->
  length (f (view st s)) = Z.to_nat BLOCK_SECTOR_SIZE -> Forall in_u8 (f (view st s)) ->
  (forall st', bio_ok None st' -> disk_upd s (f (view st s)) st st' -> Q tt st') ->
  wp (write_through s f) st Q.
Proof.
  intros Hok Hs Hl Hb HQ. apply wp_bind, wp_bread; [done..|]. intros i st1 Hok1 Hsd Hh.
  apply wp_bind. apply (wp_buf_get _ s); [done..|]. rewrite (proj2 Hsd s).
  apply wp_bind_assoc, wp_bind, (wp_buf_write i s); [done|done| |done|done|].
  { by rewrite (proj1 Hsd). }
  intros st2 Hok2 Hdu Hh2. apply wp_brelse; [done|by eapply holds_lt|].
  intros st3 Hok3 Hsd3. apply HQ; [done|]. split.
  - by rewrite (proj1 Hsd3), (proj1 Hdu), (proj1 Hsd).
  - intros t. by rewrite (proj2 Hsd3), (proj2 Hdu), (proj2 Hsd).
Qed.

End patterns.

(** ** Refinement: the cache implements an array of sectors *)
Section refinement.
Context {D : Type} `{!BlockOps D}.

Inductive bio_op : Type :=
| OpRead (s : Z)
| OpWrite (s : Z) (d : list Z).

(** The specification: a total map from sectors to contents, no cache. *)
Definition store_step (o : bio_op) (m : Z -> list Z) : list (list Z) * (Z -> list Z) :=
  match o with
  | OpRead s => ([m s], m)
  | OpWrite s d => ([], fun t => if decide (t = s) then d else m t)
  end.
Fixpoint store_run (os : list bio_op) (m : Z -> list Z) : list (list Z) * (Z -> list Z) :=
  match os with
  | [] => ([], m)
  | o :: os' =>
      let '(r, m1) := store_step o m in
      let '(rs, m2) := store_run os' m1 in (r ++ rs, m2)
  end.

(** The same script through [bread]/[bwrite]/[brelse]. *)
Definition bio_step (o : bio_op) : M (BioState D) (list (list Z)) :=
  match o with
  | OpRead s => let! d := read_through s in ret [d]
  | OpWrite s d => write_through s (fun _ => d) ;; ret []
  end.
Fixpoint bio_run (os : list bio_op) : M (BioState D) (list (list Z)) :=
  match os with
  | [] => ret []
  | o :: os' => let! r := bio_step o in let! rs := bio_run os' in ret (r ++ rs)
  end.

Definition op_ok (sz : Z) (o : bio_op) : Prop :=
  match o with
  | OpRead s => s < sz
  | OpWrite s d => s < sz /\ length d = Z.to_nat BLOCK_SECTOR_SIZE /\ Forall in_u8 d
  end.

Lemma store_run_ext os m m' :
  (forall t, m t = m' t) ->
  fst (store_run os m) = fst (store_run os m') /\
  forall t, snd (store_run os m) t = snd (store_run os m') t.
Proof.
  revert m m'; induction os as [|o os IH]; intros m m' Hm; [done|].
  simpl. destruct o as [s|s d]; simpl.
  - destruct (IH m m' Hm) as [H1 H2].
    destruct (store_run os m), (store_run os m'); simpl in *. rewrite Hm. split; congruence.
  - destruct (IH (fun t => if decide (t = s) then d else m t)
                 (fun t => if decide (t = s) then d else m' t)) as [H1 H2].
    { intros t. by rewrite Hm. }
    repeat (destruct (store_run _ _)); simpl in *. split; congruence.
Qed.

End refinement.

(** C5: the buffer cache refines a plain array of sectors: any script of in-range sector
    reads and writes issued through bread/bwrite/brelse from a quiescent cache runs without
    panicking, returns exactly what the array returns, and leaves the device itself (not
    only the cache) holding the array's final contents. *)
Theorem bio_refines_store {D : Type} `{!BlockOps D, !BlockLaws D} (os : list bio_op)
    (st : BioState D) :
  bio_ok None st -> Forall (op_ok (fs_size st)) os ->
  wp (bio_run os) st (fun rs st' =>
    rs = fst (store_run os (view st)) /\
    (forall t, view st' t = snd (store_run os (view st)) t) /\
    fs_size st' = fs_size st /\ bio_ok None st').
Proof.
  revert st; induction os as [|o os IH]; intros st Hok Hops; [by apply wp_ret|].
  apply Forall_cons in Hops as [Ho Hos]. simpl.
  assert (wp (bio_step o) st (fun r st1 => r = fst (store_step o (view st)) /\
            (forall t, view st1 t = snd (store_step o (view st)) t) /\
            fs_size st1 = fs_size st /\ bio_ok None st1)) as Hstep.
  { destruct o as [s|s d]; simpl in *.
    - apply wp_bind, wp_read_through; [done..|]. intros st1 Hok1 [Hsz Hv]. by apply wp_ret.
    - destruct Ho as (? & ? & ?). apply wp_bind, wp_write_through; [done..|].
      intros st1 Hok1 [Hsz Hv]. by apply wp_ret. }
  apply wp_bind. eapply wp_mono; [exact Hstep|]. intros r st1 (-> & Hv & Hsz & Hok1).
  apply wp_bind. eapply wp_mono; [apply IH; [done|by rewrite Hsz]|].
  intros rs st2 (-> & Hv2 & Hsz2 & Hok2). apply wp_ret.
  destruct (store_run_ext os (view st1) (snd (store_step o (view st))) Hv) as [H1 H2].
  destruct (store_step o (view st)) as [r m1]. simpl in *.
  destruct (store_run os m1) as [rs' m2]; simpl in *. rewrite H1.
  split; [done|]. split; [intros t; by rewrite Hv2, H2|]. split; [congruence|done].
Qed.

(** A formatted RAM disk of eight sectors behind an empty cache. *)
Definition demo_dev : BlockDevice RamDisk := mkDevice [104; 100; 97; 0] Raw 8 ∅ 0 0.
Definition demo_bio : BioState RamDisk :=
  mkBio (mkRegistry [demo_dev] [Some 0%nat; None; None; None])
    (mkBCache false (replicate (Z.to_nat NBUF) (mkBuf 0 0 0 (zeros BLOCK_SECTOR_SIZE)))).

(** A cache as [init] leaves it is quiescent. *)
Lemma bio_ok_fresh {D : Type} `{!BlockOps D} (r : Registry D) :
  is_Some (fs_dev (mkBio r (mkBCache false []))) ->
  bio_ok None (mkBio r
    (mkBCache false (replicate (Z.to_nat NBUF) (mkBuf 0 0 0 (zeros BLOCK_SECTOR_SIZE))))).
Proof.
  intros Hd. split; try done; unfold bufs; cbn [bio_cache bc_bufs].
  - intros i b [-> _]%lookup_replicate. done.
  - intros i b [-> _]%lookup_replicate. by left.
  - intros i b [-> _]%lookup_replicate. done.
  - intros i j b c [-> _]%lookup_replicate. done.
Qed.

Lemma demo_bio_ok : bio_ok None demo_bio.
Proof. apply bio_ok_fresh. by eexists. Qed.

Definition demo_sector (x : Z) : list Z := replicate 512 x.

Lemma bio_refines_store_witness :
  wp (bio_run [OpWrite 3 (demo_sector 7); OpRead 3; OpRead 4]) demo_bio
    (fun rs st' => rs = [demo_sector 7; demo_sector 0] /\ view st' 3 = demo_sector 7).
Proof.
  eapply wp_mono.
  - apply (bio_refines_store [OpWrite 3 (demo_sector 7); OpRead 3; OpRead 4] demo_bio).
    + exact demo_bio_ok.
    + repeat constructor; done.
  - intros rs st' (-> & Hv & _). split; [by vm_compute|]. rewrite Hv. by vm_compute.
Defined.

(** When thirty operations hold thirty distinct buffers, reading a sector that is not
    cached stops the kernel instead of evicting a buffer in use; the cache never steals a
    referenced buffer. *)
Theorem bread_exhausted {D : Type} `{!BlockOps D} (s : Z) (st : BioState D) :
  bc_lock (bio_cache st) = false ->
  (forall i b, bufs st !! i = Some b -> 0 < buf_refcnt b) ->
  (forall i b, bufs st !! i = Some b -> buf_sector b <> s \/ valid b = false) ->
  bread s st = Panic "bio: no free buffers".
Proof.
  intros Hl Hr Hs. unfold bread, bind, lock_acquire, bind, gets. rewrite Hl. simpl.
  change (bufs (with_lock true st)) with (bufs st).
  rewrite (proj2 (find_index_None _ _)).
  2:{ intros i b Hb. destruct (Hs i b Hb) as [Hne|Hv]; [|by rewrite Hv, andb_false_r].
      by rewrite (proj2 (Z.eqb_neq _ _) Hne). }
  rewrite (proj2 (find_index_None _ _)); [done|].
  intros i b Hb. apply Z.eqb_neq. specialize (Hr i b Hb). lia.
Qed.

Definition busy_bio : BioState RamDisk :=
  mkBio (bio_reg demo_bio)
    (mkBCache false ((fun i => mkBuf B_VALID i 1 (demo_sector 0)) <$> seqZ 100 30)).

Lemma bread_exhausted_witness : bread 3 busy_bio = Panic "bio: no free buffers".
Proof.
  apply (bread_exhausted 3 busy_bio); [done|..];
    intros i b (x & -> & Hx)%list_lookup_fmap_Some; simpl; [lia|].
  left. apply lookup_seqZ in Hx as [-> _]. lia.
Defined.
