(* ===== verification/FreeMap.v ===== *)
(** The sector allocator (src/filesys/free_map.rs): one bit per sector, first fit from
    sector 2.  The operations that store the map in its inode are in Filesys.v. *)
From S2P Require Import Prelude.

(** [FREE_MAP], [SECTOR_COUNT] and [IN_FLUSH]. *)
Record FreeMap := mkFreeMap {
  FREE_MAP : list Z;
  SECTOR_COUNT : Z;
  IN_FLUSH : bool;
}.

Definition with_map (bm : list Z) (fm : FreeMap) : FreeMap :=
  mkFreeMap bm (SECTOR_COUNT fm) (IN_FLUSH fm).

(** The bit of [sector], false beyond the end of the map. *)
Definition used (bm : list Z) (sector : Z) : bool :=
  match bm !! Z.to_nat (sector / 8) with
  | None => false
  | Some byte => negb (Z.land byte (Z.shiftl 1 (sector mod 8)) =? 0)
  end.

Definition bit_get (sector : Z) : M FreeMap bool := gets (fun fm => used (FREE_MAP fm) sector).

Definition set_used (bm : list Z) (sector : Z) (val : bool) : list Z :=
  match bm !! Z.to_nat (sector / 8) with
  | None => bm
  | Some byte =>
      <[Z.to_nat (sector / 8) :=
          if val then Z.lor byte (Z.shiftl 1 (sector mod 8))
          else Z.land byte (not_w 8 (Z.shiftl 1 (sector mod 8)))]> bm
  end.

Definition bit_set (sector : Z) (val : bool) : M FreeMap unit :=
  modify (fun fm => with_map (set_used (FREE_MAP fm) sector val) fm).

Definition init (sector_count : Z) : M FreeMap unit :=
  let byte_count := (sector_count + 7) / 8 in
  modify (fun fm => mkFreeMap (zeros byte_count) sector_count (IN_FLUSH fm)) ;;
  bit_set 0 true ;;
  bit_set 1 true.

(** The [while] loop of [allocate]; every turn moves [start] forward, so [total] turns are
    enough. *)
Fixpoint alloc_loop (fuel : nat) (cnt total start : Z) : M FreeMap (option Z) :=
  match fuel with
  | O => fun _ => OutOfFuel
  | S fuel' =>
      let! stop := u32_add start cnt in
      if stop <=? total then
        let! hit := for_ret (range 0 cnt) (fun i =>
          let! s := u32_add start i in
          let! b := bit_get s in
          ret (if b then Some i else None)) in
        match hit with
        | Some i =>
            let! a := u32_add start i in
            let! start' := u32_add a 1 in
            alloc_loop fuel' cnt total start'
        | None =>
            for_each (range 0 cnt) (fun i =>
              let! s := u32_add start i in
              bit_set s true) ;;
            ret (Some start)
        end
      else ret None
  end.

Definition allocate (cnt : Z) : M FreeMap (option Z) :=
  let! total := gets SECTOR_COUNT in
  if cnt =? 0 then ret None
  else alloc_loop (S (Z.to_nat total)) cnt total 2.

Definition release (sector cnt : Z) : M FreeMap unit :=
  for_each (range 0 cnt) (fun i =>
    let! s := u32_add sector i in
    bit_set s false).

(** ** Bits *)
Lemma land_bit b k : 0 <= k -> negb (Z.land b (Z.shiftl 1 k) =? 0) = Z.testbit b k.
Proof.
  intros Hk. destruct (Z.testbit b k) eqn:Hb.
  - destruct (Z.eqb_spec (Z.land b (Z.shiftl 1 k)) 0) as [E|]; [|done].
    apply (f_equal (fun x => Z.testbit x k)) in E.
    by rewrite Z.land_spec, Z.shiftl_spec, Z.sub_diag, Hb, Z.testbit_0_l in E by lia.
  - apply negb_false_iff, Z.eqb_eq, Z.bits_inj'. intros n Hn.
    rewrite Z.land_spec, Z.testbit_0_l, Z.shiftl_spec by lia.
    destruct (decide (n = k)) as [->|Hne]; [by rewrite Hb|].
    replace (Z.testbit 1 (n - k)) with false; [by rewrite andb_false_r|].
    destruct (decide (0 <= n - k)); [|by rewrite Z.testbit_neg_r by lia].
    symmetry. change 1 with (2 ^ 0). apply Z.pow2_bits_false. lia.
Qed.

Lemma testbit_one n k : 0 <= n -> 0 <= k -> Z.testbit (Z.shiftl 1 k) n = bool_decide (n = k).
Proof.
  intros Hn Hk. rewrite Z.shiftl_spec by lia. case_bool_decide as H.
  - subst. by rewrite Z.sub_diag.
  - destruct (decide (0 <= n - k)); [|by rewrite Z.testbit_neg_r by lia].
    change 1 with (2 ^ 0). apply Z.pow2_bits_false. lia.
Qed.

Lemma testbit_not8 m n : 0 <= n < 8 -> Z.testbit (not_w 8 m) n = negb (Z.testbit m n).
Proof.
  intros Hn. unfold not_w. rewrite Z.lxor_spec.
  change (2 ^ 8 - 1) with (Z.ones 8). rewrite Z.ones_spec_low by lia. by destruct (Z.testbit m n).
Qed.

Lemma in_u8_lor a b : in_u8 a -> in_u8 b -> in_u8 (Z.lor a b).
Proof.
  unfold in_u8. intros [? ?] [? ?]. split; [by apply Z.lor_nonneg|].
  destruct (decide (Z.lor a b = 0)) as [->|Hne]; [lia|].
  apply (Z.log2_lt_cancel _ 256). rewrite Z.log2_lor by lia. change (Z.log2 256) with 8.
  apply Z.max_lub_lt.
  - destruct (decide (a = 0)) as [->|]; [done|]. apply Z.log2_lt_pow2; simpl; lia.
  - destruct (decide (b = 0)) as [->|]; [done|]. apply Z.log2_lt_pow2; simpl; lia.
Qed.

Lemma in_u8_land a b : in_u8 a -> in_u8 (Z.land a b).
Proof.
  unfold in_u8. intros [H1 H2]. split; [by apply Z.land_nonneg; left|].
  apply Z.le_lt_trans with a; [|done].
  apply Z.ldiff_le; [done|]. apply Z.bits_inj'. intros k Hk.
  rewrite Z.ldiff_spec, Z.land_spec, Z.testbit_0_l.
  by destruct (Z.testbit a k), (Z.testbit b k).
Qed.

Lemma set_used_length bm s v : length (set_used bm s v) = length bm.
Proof. unfold set_used. by destruct (_ !! _); rewrite ?length_insert. Qed.

Lemma set_used_u8 bm s v : Forall in_u8 bm -> Forall in_u8 (set_used bm s v).
Proof.
  intros H. unfold set_used. destruct (bm !! _) eqn:Hb; [|done].
  apply Forall_insert; [done|].
  pose proof (Forall_lookup_1 _ _ _ _ H Hb) as Hz. pose proof (Z.mod_pos_bound s 8).
  destruct v; [apply in_u8_lor|by apply in_u8_land]; [done|].
  unfold in_u8. rewrite Z.shiftl_1_l. split; [lia|].
  change 256 with (2 ^ 8). apply Z.pow_lt_mono_r; lia.
Qed.

(** Setting one bit changes that bit only. *)
Lemma used_set_used bm s t v :
  0 <= s -> 0 <= t -> s / 8 < Z.of_nat (length bm) ->
  used (set_used bm s v) t = if decide (t = s) then v else used bm t.
Proof.
  intros Hs Ht Hlen.
  assert (0 <= s / 8) by (apply Z.div_pos; lia). assert (0 <= t / 8) by (apply Z.div_pos; lia).
  pose proof (Z.mod_pos_bound s 8 ltac:(lia)). pose proof (Z.mod_pos_bound t 8 ltac:(lia)).
  destruct (lookup_lt_is_Some_2 bm (Z.to_nat (s / 8))) as [b Hb]; [lia|].
  unfold used, set_used. rewrite Hb.
  destruct (decide (t / 8 = s / 8)) as [Heq|Hne].
  - rewrite Heq, list_lookup_insert_eq, Hb by lia. rewrite !land_bit by lia.
    destruct (decide (t = s)) as [->|Hts].
    + destruct v; rewrite ?Z.lor_spec, ?Z.land_spec, ?testbit_not8, testbit_one by lia;
        rewrite bool_decide_true by done; [by rewrite orb_true_r|by rewrite andb_false_r].
    + assert (t mod 8 <> s mod 8).
      { intros E. apply Hts. rewrite (Z.div_mod t 8), (Z.div_mod s 8); lia. }
      destruct v; rewrite ?Z.lor_spec, ?Z.land_spec, ?testbit_not8, testbit_one by lia;
        rewrite bool_decide_false by done; [by rewrite orb_false_r|by rewrite andb_true_r].
  - rewrite list_lookup_insert_ne by lia. rewrite decide_False; [done|]. congruence.
Qed.

(** ** The allocator *)
Record fm_ok (fm : FreeMap) : Prop := {
  fm_len : length (FREE_MAP fm) = Z.to_nat ((SECTOR_COUNT fm + 7) / 8);
  fm_cnt : 2 <= SECTOR_COUNT fm < u32_lim;
  fm_u8 : Forall in_u8 (FREE_MAP fm);
}.

Definition is_used (fm : FreeMap) (s : Z) : bool := used (FREE_MAP fm) s.

(** [fm'] is [fm] with the sectors [lo..hi] set to [v]. *)
Definition marks (lo hi : Z) (v : bool) (fm fm' : FreeMap) : Prop :=
  fm_ok fm' /\ SECTOR_COUNT fm' = SECTOR_COUNT fm /\ IN_FLUSH fm' = IN_FLUSH fm /\
  forall t, 0 <= t -> is_used fm' t = if decide (lo <= t < hi) then v else is_used fm t.

Lemma fm_ok_bit_set fm s v :
  fm_ok fm -> fm_ok (with_map (set_used (FREE_MAP fm) s v) fm).
Proof.
  intros [Hl Hc H8]. split; simpl; [by rewrite set_used_length|done|by apply set_used_u8].
Qed.

Lemma sector_in_map fm s : fm_ok fm -> 0 <= s < SECTOR_COUNT fm ->
  s / 8 < Z.of_nat (length (FREE_MAP fm)).
Proof.
  intros [-> Hc _] Hs. rewrite Z2Nat.id; [|Z.div_mod_to_equations; lia].
  Z.div_mod_to_equations. lia.
Qed.

Lemma wp_mark_range fm start cnt v (Q : unit -> FreeMap -> Prop) :
  fm_ok fm -> 0 <= start -> 0 <= cnt -> start + cnt <= SECTOR_COUNT fm ->
  (forall fm', marks start (start + cnt) v fm fm' -> Q tt fm') ->
  wp (for_each (range 0 cnt) (fun i =>
        let! s := u32_add start i in bit_set s v)) fm Q.
Proof.
  intros Hok Hs Hc Hle HQ.
  apply (wp_for_range (fun i => marks start (start + i) v fm)); [done| | |apply HQ].
  - split; [done|]. split; [done|]. split; [done|]. intros t Ht. by rewrite decide_False by lia.
  - intros i fm' Hi (Hok' & Hct & Hfl & Hu). pose proof (fm_cnt _ Hok).
    apply wp_bind, wp_u32_add; [lia|]. apply wp_modify.
    split; [by apply fm_ok_bit_set|]. split; [done|]. split; [done|].
    intros t Ht. unfold is_used at 1. simpl.
    rewrite used_set_used by (try apply sector_in_map; try done; lia).
    destruct (decide (t = start + i)) as [->|Hne]; [by rewrite decide_True by lia|].
    fold (is_used fm' t). rewrite Hu by done. repeat case_decide; try done; lia.
Qed.

(** The scan stops at the first used sector of the window, if any. *)
Lemma wp_alloc_scan fm start cnt (Q : option Z -> FreeMap -> Prop) :
  0 <= cnt -> start + cnt < u32_lim ->
  (forall i, 0 <= i < cnt -> is_used fm (start + i) = true ->
     (forall j, 0 <= j < i -> is_used fm (start + j) = false) -> Q (Some i) fm) ->
  ((forall j, 0 <= j < cnt -> is_used fm (start + j) = false) -> Q None fm) ->
  wp (for_ret (range 0 cnt) (fun i =>
        let! s := u32_add start i in
        let! b := bit_get s in
        ret (if b then Some i else None))) fm Q.
Proof.
  intros Hc Hlim HS HN.
  apply (wp_for_ret_range (fun i fm' => fm' = fm /\
           forall j, 0 <= j < i -> is_used fm (start + j) = false)); [done|by split; [|lia]|..].
  - intros i fm' Hi [-> Hj]. apply wp_bind, wp_u32_add; [lia|]. apply wp_bind, wp_gets.
    apply wp_ret. fold (is_used fm (start + i)).
    destruct (is_used fm (start + i)) eqn:Hu; [by apply HS|].
    split; [done|]. intros j Hj'. destruct (decide (j = i)) as [->|]; [done|]. apply Hj. lia.
  - intros fm' [-> Hj]. by apply HN.
Qed.

(** What first fit returns. *)
Definition alloc_post (cnt : Z) (fm : FreeMap) (r : option Z) (fm' : FreeMap) : Prop :=
  match r with
  | Some s =>
      2 <= s /\ s + cnt <= SECTOR_COUNT fm /\ marks s (s + cnt) true fm fm' /\
      (forall t, s <= t < s + cnt -> is_used fm t = false) /\
      (forall s0, 2 <= s0 < s -> exists t, s0 <= t < s0 + cnt /\ is_used fm t = true)
  | None =>
      fm' = fm /\
      forall s0, 2 <= s0 -> s0 + cnt <= SECTOR_COUNT fm ->
        exists t, s0 <= t < s0 + cnt /\ is_used fm t = true
  end.

Lemma wp_alloc_loop fuel fm cnt start :
  fm_ok fm -> 0 < cnt -> SECTOR_COUNT fm + cnt < u32_lim ->
  2 <= start <= SECTOR_COUNT fm -> (Z.to_nat (SECTOR_COUNT fm - start) < fuel)%nat ->
  (forall s0, 2 <= s0 < start -> exists t, s0 <= t < s0 + cnt /\ is_used fm t = true) ->
  wp (alloc_loop fuel cnt (SECTOR_COUNT fm) start) fm (alloc_post cnt fm).
Proof.
  intros Hok Hc Hlim. revert start; induction fuel as [|fuel IH]; intros start Hs Hf Hpre; [lia|].
  simpl. apply wp_bind, wp_u32_add; [lia|].
  destruct (Z.leb_spec (start + cnt) (SECTOR_COUNT fm)) as [Hle|Hgt].
  - apply wp_bind, wp_alloc_scan; [lia..| |].
    + intros i Hi Hu Hj. pose proof (fm_cnt _ Hok). do 2 (apply wp_bind, wp_u32_add; [lia|]).
      apply IH; [lia..|]. intros s0 Hs0.
      destruct (decide (s0 < start)); [by apply Hpre; lia|].
      exists (start + i). split; [lia|done].
    + intros Hfree. apply wp_bind, wp_mark_range; [done|lia..|]. intros fm' Hm.
      apply wp_ret. simpl. split; [lia|]. split; [done|]. split; [done|]. split; [|done].
      intros t Ht. replace t with (start + (t - start)) by lia. apply Hfree. lia.
  - apply wp_ret. simpl. split; [done|]. intros s0 Hs0 Hle. apply Hpre. lia.
Qed.

Lemma wp_allocate fm cnt :
  fm_ok fm -> 0 < cnt -> SECTOR_COUNT fm + cnt < u32_lim ->
  wp (allocate cnt) fm (alloc_post cnt fm).
Proof.
  intros Hok Hc Hlim. apply wp_bind, wp_gets. rewrite (proj2 (Z.eqb_neq _ _)) by lia.
  pose proof (fm_cnt _ Hok). apply wp_alloc_loop; [done..|lia|lia|lia].
Qed.

(** The allocation of one sector, the only size the inode layer asks for. *)
Lemma wp_allocate1 fm (Q : option Z -> FreeMap -> Prop) :
  fm_ok fm -> SECTOR_COUNT fm + 1 < u32_lim ->
  (forall s fm', 2 <= s < SECTOR_COUNT fm -> is_used fm s = false ->
     marks s (s + 1) true fm fm' -> Q (Some s) fm') ->
  ((forall s, 2 <= s < SECTOR_COUNT fm -> is_used fm s = true) -> Q None fm) ->
  wp (allocate 1) fm Q.
Proof.
  intros Hok Hlim HS HN. eapply wp_mono; [by apply wp_allocate|]. intros [s|] fm'; simpl.
  - intros (H1 & H2 & Hm & Hu & _). apply HS; [lia|apply Hu; lia|done].
  - intros [-> Hall]. apply HN. intros s Hs. destruct (Hall s) as (t & Ht & Hu); [lia..|].
    by replace s with t by lia.
Qed.

Lemma wp_release fm s cnt (Q : unit -> FreeMap -> Prop) :
  fm_ok fm -> 0 <= s -> 0 <= cnt -> s + cnt <= SECTOR_COUNT fm ->
  (forall fm', marks s (s + cnt) false fm fm' -> Q tt fm') ->
  wp (release s cnt) fm Q.
Proof. intros. by apply wp_mark_range. Qed.

Lemma fm_ok_init n fl : 2 <= n < u32_lim ->
  wp (init n) (mkFreeMap [] 0 fl) (fun _ fm => fm_ok fm /\ SECTOR_COUNT fm = n /\
    forall t, 0 <= t -> is_used fm t = bool_decide (t < 2)).
Proof.
  intros Hn. unfold init. apply wp_bind, wp_modify. apply wp_bind, wp_modify. apply wp_modify.
  assert (fm_ok (mkFreeMap (zeros ((n + 7) / 8)) n fl)) as Hok.
  { split; simpl; [by rewrite zeros_length|done|apply zeros_u8]. }
  split; [by do 2 apply fm_ok_bit_set|]. split; [done|]. intros t Ht. unfold is_used. simpl.
  assert (0 / 8 < Z.of_nat (length (zeros ((n + 7) / 8)))) by (apply (sector_in_map _ 0 Hok); simpl; lia).
  assert (1 / 8 < Z.of_nat (length (zeros ((n + 7) / 8)))) by (apply (sector_in_map _ 1 Hok); simpl; lia).
  rewrite !used_set_used by (rewrite ?set_used_length; (done || lia)).
  destruct (decide (t = 1)) as [->|]; [done|]. destruct (decide (t = 0)) as [->|]; [done|].
  rewrite bool_decide_false by lia.
  unfold used, zeros. destruct (replicate _ 0 !! _) as [b|] eqn:Hb; [|done].
  apply lookup_replicate in Hb as [-> _]. by rewrite Z.land_0_l.
Qed.

(** The sector allocator is first fit, sound and complete.  A successful [allocate cnt]
    returns a run of [cnt] sectors inside [2, sector_count) that were all free, marks exactly
    those, and no lower run was free; it fails only when no run of [cnt] sectors is free, and
    then the map is unchanged.  The scan always terminates and never indexes outside the
    map. *)
Theorem allocate_first_fit (fm : FreeMap) (cnt : Z) :
  fm_ok fm -> 0 < cnt -> SECTOR_COUNT fm + cnt < u32_lim ->
  wp (allocate cnt) fm (fun r fm' => match r with
    | Some s =>
        2 <= s /\ s + cnt <= SECTOR_COUNT fm /\
        (forall t, 0 <= t -> is_used fm' t = bool_decide (s <= t < s + cnt) || is_used fm t) /\
        (forall t, s <= t < s + cnt -> is_used fm t = false) /\
        (forall s0, 2 <= s0 < s -> exists t, s0 <= t < s0 + cnt /\ is_used fm t = true)
    | None =>
        fm' = fm /\
        forall s0, 2 <= s0 -> s0 + cnt <= SECTOR_COUNT fm ->
          exists t, s0 <= t < s0 + cnt /\ is_used fm t = true
    end).
Proof.
  intros Hok Hc Hlim. eapply wp_mono; [by apply wp_allocate|]. intros [s|] fm'; [|done].
  intros (H1 & H2 & (_ & _ & _ & Hm) & Hf & Hl). split; [done|]. split; [done|]. split; [|done].
  intros t Ht. rewrite Hm by done. by case_decide; [rewrite bool_decide_true|rewrite bool_decide_false].
Qed.

(** Sectors 0..5, 8 and 9 of sixteen are in use. *)
Definition demo_fm : FreeMap := mkFreeMap [0x3F; 0x03] 16 false.

Lemma demo_fm_ok : fm_ok demo_fm.
Proof. split; [done|done|]. repeat constructor; done. Qed.

Lemma allocate_first_fit_witness :
  allocate 3 demo_fm = Ok (Some 10) (mkFreeMap [0x3F; 0x1F] 16 false) /\
  wp (allocate 3) demo_fm (fun r _ => is_Some r).
Proof.
  split; [by vm_compute|].
  eapply wp_mono.
  - apply (allocate_first_fit demo_fm 3); [exact demo_fm_ok|done|done].
  - intros [s|] fm'; [by eexists|].
    intros [_ H]. destruct (H 10) as (t & Ht & Hu); [done|done|]. exfalso.
    assert (t = 10 \/ t = 11 \/ t = 12) as [->|[->| ->]] by lia; by vm_compute in Hu.
Defined.
