(* ===== verification/Inode.v ===== *)
(** The inode layer (src/filesys/inode.rs): the on-disk inode, the table of open inodes,
    three-level block indexing, and byte-granular reads and writes.  Definitions only; the
    theorems are in InodeLayout.v, FileMap.v and InodeProofs.v. *)
From S2P Require Import Prelude Utf8 Block Bio FreeMap.

Definition FREE_MAP_SECTOR : Z := 0.
Definition ROOT_DIR_SECTOR : Z := 1.
Definition DIRECT_PTR_CNT : Z := 12.
Definition PTRS_PER_BLOCK : Z := 128.
Definition INODE_MAGIC : Z := 0x494e4f44.

Record InodeDisk := mkInodeDisk {
  direct_blocks : list Z;
  indirect_block : Z;
  doubly_indirect_block : Z;
  d_length : Z;
  write_end : Z;
  magic : Z;
  d_is_dir : Z;
  d_is_symlink : Z;
  padding : list Z;
}.

(** The [repr(C)] layout: sixteen little-endian words, the magic, two flag bytes, padding. *)
Definition to_bytes (d : InodeDisk) : list Z :=
  concat (le_bytes <$> direct_blocks d) ++
  le_bytes (indirect_block d) ++ le_bytes (doubly_indirect_block d) ++
  le_bytes (as_u32 (d_length d)) ++ le_bytes (as_u32 (write_end d)) ++
  le_bytes (magic d) ++ [d_is_dir d; d_is_symlink d] ++ padding d.

(** The [k]-th [u32] of a sector buffer. *)
Definition word_at (l : list Z) (k : Z) : Z := le_word (slice (4 * k) 4 l).
Definition set_word (k v : Z) (l : list Z) : list Z := splice (4 * k) (le_bytes v) l.

Definition of_bytes (l : list Z) : InodeDisk :=
  mkInodeDisk (word_at l <$> range 0 DIRECT_PTR_CNT) (word_at l 12) (word_at l 13)
    (as_i32 (word_at l 14)) (as_i32 (word_at l 15)) (word_at l 16)
    (byte_at l 68) (byte_at l 69) (drop 70 l).

Definition new_boxed : InodeDisk :=
  mkInodeDisk (zeros DIRECT_PTR_CNT) 0 0 0 0 INODE_MAGIC 0 0 (zeros 442).

Definition set_direct (l : list Z) (d : InodeDisk) : InodeDisk :=
  mkInodeDisk l (indirect_block d) (doubly_indirect_block d) (d_length d) (write_end d)
    (magic d) (d_is_dir d) (d_is_symlink d) (padding d).
Definition set_indirect (s : Z) (d : InodeDisk) : InodeDisk :=
  mkInodeDisk (direct_blocks d) s (doubly_indirect_block d) (d_length d) (write_end d)
    (magic d) (d_is_dir d) (d_is_symlink d) (padding d).
Definition set_doubly (s : Z) (d : InodeDisk) : InodeDisk :=
  mkInodeDisk (direct_blocks d) (indirect_block d) s (d_length d) (write_end d)
    (magic d) (d_is_dir d) (d_is_symlink d) (padding d).
Definition set_lengths (len we : Z) (d : InodeDisk) : InodeDisk :=
  mkInodeDisk (direct_blocks d) (indirect_block d) (doubly_indirect_block d) len we
    (magic d) (d_is_dir d) (d_is_symlink d) (padding d).
Definition set_is_dir (b : Z) (d : InodeDisk) : InodeDisk :=
  mkInodeDisk (direct_blocks d) (indirect_block d) (doubly_indirect_block d) (d_length d)
    (write_end d) (magic d) b (d_is_symlink d) (padding d).

(** The in-memory inode. *)
Record Inode := mkInode {
  i_sector : Z;
  i_open_cnt : Z;
  i_removed : bool;
  i_deny_write_cnt : Z;
  i_length : Z;
  i_is_dir : bool;
  i_is_symlink : bool;
}.
Definition set_open_cnt (n : Z) (i : Inode) : Inode :=
  mkInode (i_sector i) n (i_removed i) (i_deny_write_cnt i) (i_length i) (i_is_dir i)
    (i_is_symlink i).
Definition set_removed (i : Inode) : Inode :=
  mkInode (i_sector i) (i_open_cnt i) true (i_deny_write_cnt i) (i_length i) (i_is_dir i)
    (i_is_symlink i).
Definition set_deny (n : Z) (i : Inode) : Inode :=
  mkInode (i_sector i) (i_open_cnt i) (i_removed i) n (i_length i) (i_is_dir i)
    (i_is_symlink i).
Definition set_length (n : Z) (i : Inode) : Inode :=
  mkInode (i_sector i) (i_open_cnt i) (i_removed i) (i_deny_write_cnt i) n (i_is_dir i)
    (i_is_symlink i).

(** The file-system state: disk and cache, sector bitmap, [OPEN_INODES]. *)
Record FS (D : Type) := mkFS {
  fs_bio : BioState D;
  fs_fm : FreeMap;
  fs_inodes : gmap Z Inode;
}.
Arguments mkFS {D}.
Arguments fs_bio {D}.
Arguments fs_fm {D}.
Arguments fs_inodes {D}.

(** [bytes_to_sectors] *)
Definition bytes_to_sectors (bytes : Z) : Z :=
  if bytes <=? 0 then 0 else (bytes + BLOCK_SECTOR_SIZE - 1) / BLOCK_SECTOR_SIZE.

Section inode.
Context {D : Type} `{!BlockOps D}.

Definition with_bio (b : BioState D) (fs : FS D) : FS D := mkFS b (fs_fm fs) (fs_inodes fs).
Definition with_fm (f : FreeMap) (fs : FS D) : FS D := mkFS (fs_bio fs) f (fs_inodes fs).
Definition with_inodes (m : gmap Z Inode) (fs : FS D) : FS D :=
  mkFS (fs_bio fs) (fs_fm fs) m.
Definition bio {A} (m : M (BioState D) A) : M (FS D) A := zoom fs_bio with_bio m.
Definition free_map {A} (m : M FreeMap A) : M (FS D) A := zoom fs_fm with_fm m.

(** [inode::init]: a fresh buffer cache and no open inodes. *)
Definition init : M (FS D) unit :=
  bio Bio.init ;;
  modify (with_inodes ∅).

Definition read_inode_disk (sector : Z) : M (FS D) InodeDisk :=
  let! data := bio (read_through sector) in
  ret (of_bytes data).

Definition write_inode_disk (sector : Z) (disk : InodeDisk) : M (FS D) unit :=
  bio (write_through sector (fun _ => to_bytes disk)).

(** [let z = bread(s); z.data.fill(0); bwrite(z); brelse(z)] *)
Definition zero_sector (s : Z) : M (FS D) unit :=
  bio (write_through s (fun _ => zeros BLOCK_SECTOR_SIZE)).

(** [*ptrs.add(idx)] on a 512-byte buffer, for a load. *)
Definition ptr_read (data : list Z) (idx : Z) : M (FS D) Z :=
  if idx <? PTRS_PER_BLOCK then ret (word_at data idx)
  else ub "pointer past the end of a sector buffer".

Definition nonzero (s : Z) : option Z := if s =? 0 then None else Some s.

Definition get_block_sector_disk (disk : InodeDisk) (block_idx : Z) : M (FS D) (option Z) :=
  if block_idx <? DIRECT_PTR_CNT then
    let! s := index (direct_blocks disk) block_idx in
    ret (nonzero s)
  else if block_idx <? DIRECT_PTR_CNT + PTRS_PER_BLOCK then
    if indirect_block disk =? 0 then ret None
    else
      let idx := block_idx - DIRECT_PTR_CNT in
      let! data := bio (read_through (indirect_block disk)) in
      let! s := ptr_read data idx in
      ret (nonzero s)
  else
    if doubly_indirect_block disk =? 0 then ret None
    else
      let rel := block_idx - DIRECT_PTR_CNT - PTRS_PER_BLOCK in
      let outer_idx := rel / PTRS_PER_BLOCK in
      let inner_idx := rel mod PTRS_PER_BLOCK in
      let! data := bio (read_through (doubly_indirect_block disk)) in
      let! inner_sector := ptr_read data outer_idx in
      if inner_sector =? 0 then ret None
      else
        let! data2 := bio (read_through inner_sector) in
        let! s := ptr_read data2 inner_idx in
        ret (nonzero s).

(** [set_block_sector]: only direct blocks are recorded. *)
Definition set_block_sector (disk : InodeDisk) (block_idx sector : Z) : M (FS D) InodeDisk :=
  if block_idx <? DIRECT_PTR_CNT then
    let! l := index_set (direct_blocks disk) block_idx sector in
    ret (set_direct l disk)
  else ret disk.

(** [bread(s); *ptrs.add(idx) = v; bwrite; brelse] *)
Definition write_ptr (s idx v : Z) : M (FS D) unit :=
  if idx <? PTRS_PER_BLOCK then bio (write_through s (set_word idx v))
  else ub "pointer past the end of a sector buffer".

(** The inner block of entry [outer_idx] of the doubly indirect block, allocated and zeroed
    if missing; the outer buffer stays referenced across the allocation. *)
Definition inner_block (dbl outer_idx : Z) : M (FS D) (option Z) :=
  let! outer_buf := bio (bread dbl) in
  let! data := bio (buf_get outer_buf) in
  let! s := ptr_read data outer_idx in
  if s =? 0 then
    let! a := free_map (allocate 1) in
    match a with
    | None => bio (brelse outer_buf) ;; ret None
    | Some new_inner =>
        bio (buf_set outer_buf (set_word outer_idx new_inner data) ;; bwrite outer_buf) ;;
        bio (brelse outer_buf) ;;
        zero_sector new_inner ;;
        ret (Some new_inner)
    end
  else
    bio (brelse outer_buf) ;;
    ret (Some s).

(** [allocate_block_for]: the new data sector (or None when space runs out) and the
    updated inode. *)
Definition allocate_block_for (disk : InodeDisk) (block_idx : Z)
    : M (FS D) (option Z * InodeDisk) :=
  let! a := free_map (allocate 1) in
  match a with
  | None => ret (None, disk)
  | Some new_sector =>
      if block_idx <? DIRECT_PTR_CNT then
        let! l := index_set (direct_blocks disk) block_idx new_sector in
        ret (Some new_sector, set_direct l disk)
      else if block_idx <? DIRECT_PTR_CNT + PTRS_PER_BLOCK then
        let! r :=
          if indirect_block disk =? 0 then
            let! b := free_map (allocate 1) in
            match b with
            | None => ret None
            | Some ib => zero_sector ib ;; ret (Some (set_indirect ib disk))
            end
          else ret (Some disk) in
        match r with
        | None => ret (None, disk)
        | Some disk =>
            let idx := block_idx - DIRECT_PTR_CNT in
            write_ptr (indirect_block disk) idx new_sector ;;
            ret (Some new_sector, disk)
        end
      else
        let! r :=
          if doubly_indirect_block disk =? 0 then
            let! b := free_map (allocate 1) in
            match b with
            | None => ret None
            | Some db => zero_sector db ;; ret (Some (set_doubly db disk))
            end
          else ret (Some disk) in
        match r with
        | None => ret (None, disk)
        | Some disk =>
            let rel := block_idx - DIRECT_PTR_CNT - PTRS_PER_BLOCK in
            let outer_idx := rel / PTRS_PER_BLOCK in
            let inner_idx := rel mod PTRS_PER_BLOCK in
            let! inner := inner_block (doubly_indirect_block disk) outer_idx in
            match inner with
            | None => ret (None, disk)
            | Some inner_sector =>
                write_ptr inner_sector inner_idx new_sector ;;
                ret (Some new_sector, disk)
            end
        end
  end.

(** The loop of [create]: allocate, record and zero the initial blocks. *)
Fixpoint create_blocks (idxs : list Z) (disk : InodeDisk) : M (FS D) (option InodeDisk) :=
  match idxs with
  | [] => ret (Some disk)
  | i :: idxs' =>
      let! a := free_map (allocate 1) in
      match a with
      | None => ret None
      | Some s =>
          let! disk := set_block_sector disk i s in
          zero_sector s ;;
          create_blocks idxs' disk
      end
  end.

Definition create (sector len : Z) (is_dir : bool) : M (FS D) bool :=
  let disk := set_is_dir (if is_dir then 1 else 0) (set_lengths len len new_boxed) in
  let! r := create_blocks (range 0 (bytes_to_sectors len)) disk in
  match r with
  | None => ret false
  | Some disk => write_inode_disk sector disk ;; ret true
  end.

(** [open] always returns the in-memory inode. *)
Definition open (sector : Z) : M (FS D) (option Inode) :=
  let! m := gets fs_inodes in
  match m !! sector with
  | Some inode =>
      let! n := i32_add (i_open_cnt inode) 1 in
      let inode := set_open_cnt n inode in
      modify (fun fs => with_inodes (<[sector := inode]> (fs_inodes fs)) fs) ;;
      ret (Some inode)
  | None =>
      let! disk := read_inode_disk sector in
      let inode := mkInode sector 1 false 0 (d_length disk) (negb (d_is_dir disk =? 0))
                     (negb (d_is_symlink disk =? 0)) in
      modify (fun fs => with_inodes (<[sector := inode]> (fs_inodes fs)) fs) ;;
      ret (Some inode)
  end.

Definition reopen (sector : Z) : M (FS D) (option Inode) := open sector.

(** The deallocation shared by [close] and [truncate]: data blocks, then the indirect
    block, then the inner blocks and the doubly indirect block. *)
Definition free_blocks (disk : InodeDisk) (cnt : Z) : M (FS D) unit :=
  for_each (range 0 cnt) (fun i =>
    let! s := get_block_sector_disk disk i in
    match s with Some s => free_map (release s 1) | None => ret tt end) ;;
  (if indirect_block disk =? 0 then ret tt
   else free_map (release (indirect_block disk) 1)) ;;
  (if doubly_indirect_block disk =? 0 then ret tt
   else
     let! buf := bio (bread (doubly_indirect_block disk)) in
     let! data := bio (buf_get buf) in
     for_each (range 0 PTRS_PER_BLOCK) (fun j =>
       let! p := ptr_read data j in
       if p =? 0 then ret tt else free_map (release p 1)) ;;
     bio (brelse buf) ;;
     free_map (release (doubly_indirect_block disk) 1)).

Definition close (sector : Z) : M (FS D) unit :=
  let! m := gets fs_inodes in
  match m !! sector with
  | None => ret tt
  | Some entry =>
      let! n := i32_sub (i_open_cnt entry) 1 in
      let inode := set_open_cnt n entry in
      if n <=? 0 then
        modify (fun fs => with_inodes (delete sector (fs_inodes fs)) fs) ;;
        if i_removed inode then
          free_map (release (i_sector inode) 1) ;;
          let! disk := read_inode_disk (i_sector inode) in
          free_blocks disk (bytes_to_sectors (i_length inode))
        else ret tt
      else modify (fun fs => with_inodes (<[sector := inode]> (fs_inodes fs)) fs)
  end.

Definition remove (sector : Z) : M (FS D) unit :=
  modify (fun fs => with_inodes (alter set_removed sector (fs_inodes fs)) fs).

Definition length (sector : Z) : M (FS D) Z :=
  let! m := gets fs_inodes in
  match m !! sector with
  | Some inode => ret (i_length inode)
  | None => let! disk := read_inode_disk sector in ret (d_length disk)
  end.

Definition is_dir (sector : Z) : M (FS D) bool :=
  let! m := gets fs_inodes in
  match m !! sector with
  | Some inode => ret (i_is_dir inode)
  | None => let! disk := read_inode_disk sector in ret (negb (d_is_dir disk =? 0))
  end.

Definition truncate (sector : Z) : M (FS D) unit :=
  let! old_length := length sector in
  let cnt := bytes_to_sectors old_length in
  let! disk := read_inode_disk sector in
  free_blocks disk cnt ;;
  let! dir := is_dir sector in
  let new_disk := set_is_dir (if dir then 1 else 0) new_boxed in
  write_inode_disk sector new_disk ;;
  modify (fun fs => with_inodes (alter (set_length 0) sector (fs_inodes fs)) fs).

(** [buf[a .. a+n].copy_from_slice(new)] with its bounds check. *)
Definition copy_into (buf : list Z) (pos : Z) (new : list Z) : M (FS D) (list Z) :=
  assert (pos + Z.of_nat (List.length new) <=? Z.of_nat (List.length buf))
    "range end index out of range" ;;
  ret (splice pos new buf).

(** One round of the loop of [read_at]; every round reads at least one byte. *)
Fixpoint read_loop (fuel : nat) (disk : InodeDisk) (inode_length size : Z)
    (bytes_read off buf_pos : Z) (buf : list Z) : M (FS D) (Z * list Z) :=
  if (bytes_read <? size) && (off <? inode_length) then
    match fuel with
    | O => fun _ => OutOfFuel
    | S fuel' =>
        let sector_idx := as_u32 (Z.quot off BLOCK_SECTOR_SIZE) in
        let sector_ofs := as_u32 (Z.rem off BLOCK_SECTOR_SIZE) in
        let! remaining_in_inode := i32_sub inode_length off in
        let! remaining_wanted := i32_sub size bytes_read in
        let! room := u32_sub BLOCK_SECTOR_SIZE sector_ofs in
        let chunk_size :=
          Z.min room (Z.min (as_u32 remaining_in_inode) (as_u32 remaining_wanted)) in
        let! b := get_block_sector_disk disk sector_idx in
        let! buf :=
          match b with
          | Some data_sector =>
              let! data := bio (read_through data_sector) in
              copy_into buf buf_pos (slice sector_ofs chunk_size data)
          | None => copy_into buf buf_pos (zeros chunk_size)
          end in
        let! bytes_read := i32_add bytes_read (as_i32 chunk_size) in
        let! off := i32_add off (as_i32 chunk_size) in
        let! buf_pos := u32_add buf_pos chunk_size in
        read_loop fuel' disk inode_length size bytes_read off buf_pos buf
    end
  else ret (bytes_read, buf).

(** [read_at]: the byte count and the caller's buffer after the copy. *)
Definition read_at (sector : Z) (buf : list Z) (size offset : Z) : M (FS D) (Z * list Z) :=
  let! inode_length := length sector in
  if inode_length <=? offset then ret (0, buf)
  else
    let! disk := read_inode_disk sector in
    read_loop (Z.to_nat size) disk inode_length size 0 offset 0 buf.

Definition deny_write (sector : Z) : M (FS D) unit :=
  let! m := gets fs_inodes in
  match m !! sector with
  | None => ret tt
  | Some inode =>
      let! n := i32_add (i_deny_write_cnt inode) 1 in
      modify (fun fs => with_inodes (<[sector := set_deny n inode]> (fs_inodes fs)) fs)
  end.

Definition allow_write (sector : Z) : M (FS D) unit :=
  let! m := gets fs_inodes in
  match m !! sector with
  | None => ret tt
  | Some inode =>
      if 0 <? i_deny_write_cnt inode then
        let! n := i32_sub (i_deny_write_cnt inode) 1 in
        modify (fun fs => with_inodes (<[sector := set_deny n inode]> (fs_inodes fs)) fs)
      else ret tt
  end.

(** [&buf[pos .. pos+n]] with its bounds check. *)
Definition subslice (buf : list Z) (pos n : Z) : M (FS D) (list Z) :=
  assert (pos + n <=? Z.of_nat (List.length buf)) "range end index out of range" ;;
  ret (slice pos n buf).

(** The data sector of a block for a write, allocated and zeroed if missing. *)
Definition block_for_write (disk : InodeDisk) (sector_idx : Z)
    : M (FS D) (option Z * InodeDisk) :=
  let! b := get_block_sector_disk disk sector_idx in
  match b with
  | Some s => ret (Some s, disk)
  | None =>
      let! r := allocate_block_for disk sector_idx in
      let '(a, disk) := r in
      match a with
      | Some new_sec => zero_sector new_sec ;; ret (Some new_sec, disk)
      | None => ret (None, disk)
      end
  end.

(** The loop of [write_at]; it stops early when no block can be allocated. *)
Fixpoint write_loop (fuel : nat) (disk : InodeDisk) (buf : list Z) (size : Z)
    (bytes_written off buf_pos : Z) : M (FS D) (Z * InodeDisk) :=
  if bytes_written <? size then
    match fuel with
    | O => fun _ => OutOfFuel
    | S fuel' =>
        let sector_idx := as_u32 (Z.quot off BLOCK_SECTOR_SIZE) in
        let sector_ofs := as_u32 (Z.rem off BLOCK_SECTOR_SIZE) in
        let! remaining := i32_sub size bytes_written in
        let! room := u32_sub BLOCK_SECTOR_SIZE sector_ofs in
        let chunk_size := Z.min room (as_u32 remaining) in
        let! r := block_for_write disk sector_idx in
        let '(b, disk) := r in
        match b with
        | None => ret (bytes_written, disk)
        | Some data_sector =>
            let! new := subslice buf buf_pos chunk_size in
            bio (write_through data_sector (splice sector_ofs new)) ;;
            let! bytes_written := i32_add bytes_written (as_i32 chunk_size) in
            let! off := i32_add off (as_i32 chunk_size) in
            let! buf_pos := u32_add buf_pos chunk_size in
            write_loop fuel' disk buf size bytes_written off buf_pos
        end
    end
  else ret (bytes_written, disk).

Definition write_at (sector : Z) (buf : list Z) (size offset : Z) : M (FS D) Z :=
  let! m := gets fs_inodes in
  let denied := match m !! sector with
                | Some inode => 0 <? i_deny_write_cnt inode
                | None => false
                end in
  if denied then ret 0
  else
    let! disk := read_inode_disk sector in
    let! r := write_loop (Z.to_nat size) disk buf size 0 offset 0 in
    let '(bytes_written, disk) := r in
    let! new_end := i32_add offset bytes_written in
    let disk := if d_length disk <? new_end then set_lengths new_end new_end disk else disk in
    write_inode_disk sector disk ;;
    modify (fun fs => with_inodes (alter (set_length (d_length disk)) sector (fs_inodes fs)) fs) ;;
    ret bytes_written.

End inode.
