(* ===== verification/InodeLayout.v ===== *)
(** The on-disk format of an inode and of an index block: encoding and decoding are
    inverse, and storing one word changes that word only. *)
From S2P Require Import Prelude Utf8 Block Bio FreeMap Inode.

Record disk_wf (d : InodeDisk) : Prop := {
  wf_direct_len : List.length (direct_blocks d) = Z.to_nat DIRECT_PTR_CNT;
  wf_direct : Forall in_u32 (direct_blocks d);
  wf_indirect : in_u32 (indirect_block d);
  wf_doubly : in_u32 (doubly_indirect_block d);
  wf_length : in_i32 (d_length d);
  wf_write_end : in_i32 (write_end d);
  wf_magic : in_u32 (magic d);
  wf_dir : in_u8 (d_is_dir d);
  wf_sym : in_u8 (d_is_symlink d);
  wf_pad_len : List.length (padding d) = 442%nat;
  wf_pad : Forall in_u8 (padding d);
}.

(** The words of an inode, in order. *)
Definition disk_words (d : InodeDisk) : list Z :=
  direct_blocks d ++ [indirect_block d; doubly_indirect_block d; as_u32 (d_length d);
                      as_u32 (write_end d); magic d].

Lemma to_bytes_words d :
  to_bytes d = concat (le_bytes <$> disk_words d) ++ [d_is_dir d; d_is_symlink d] ++ padding d.
Proof.
  unfold to_bytes, disk_words. rewrite fmap_app, concat_app. simpl.
  by rewrite <- app_assoc.
Qed.

Lemma concat_le_bytes_length ws :
  List.length (concat (le_bytes <$> ws)) = (4 * List.length ws)%nat.
Proof. induction ws as [|w ws IH]; [done|]. cbn [fmap list_fmap concat]. rewrite length_app, IH. simpl. lia. Qed.

Lemma word_at_concat ws rest k w :
  Forall in_u32 ws -> ws !! k = Some w ->
  word_at (concat (le_bytes <$> ws) ++ rest) (Z.of_nat k) = w.
Proof.
  revert k; induction ws as [|w0 ws IH]; intros k Hws Hk; [done|].
  apply Forall_cons in Hws as [Hw0 Hws]. cbn [fmap list_fmap concat]. rewrite <- app_assoc.
  destruct k as [|k]; simpl in Hk.
  - injection Hk as ->. unfold word_at, slice.
    change (Z.to_nat (4 * Z.of_nat 0)) with 0%nat. rewrite drop_0.
    rewrite take_app_le by done. rewrite take_ge by done.
    rewrite <- (app_nil_r (le_bytes w)). by apply le_word_bytes.
  - rewrite <- (IH k Hws Hk). unfold word_at, slice. f_equal. f_equal.
    replace (Z.to_nat (4 * Z.of_nat (S k))) with (List.length (le_bytes w0) + Z.to_nat (4 * Z.of_nat k))%nat
      by (rewrite le_bytes_length; lia).
    by rewrite drop_app_add.
Qed.

Lemma disk_words_u32 d : disk_wf d -> Forall in_u32 (disk_words d).
Proof.
  intros []. unfold disk_words. apply Forall_app. split; [done|].
  rewrite !Forall_cons. auto 10 using as_u32_in.
Qed.

Lemma disk_words_length d : disk_wf d -> List.length (disk_words d) = 17%nat.
Proof. intros []. unfold disk_words. rewrite length_app, wf_direct_len0. done. Qed.

Lemma to_bytes_length d : disk_wf d -> List.length (to_bytes d) = Z.to_nat BLOCK_SECTOR_SIZE.
Proof.
  intros Hwf. rewrite to_bytes_words, !length_app, concat_le_bytes_length, disk_words_length by done.
  rewrite (wf_pad_len _ Hwf). done.
Qed.

Lemma concat_le_bytes_u8 ws : Forall in_u8 (concat (le_bytes <$> ws)).
Proof. induction ws; [done|]. cbn [fmap list_fmap concat]. apply Forall_app. auto using le_bytes_u8. Qed.

Lemma to_bytes_u8 d : disk_wf d -> Forall in_u8 (to_bytes d).
Proof.
  intros []. rewrite to_bytes_words. repeat (apply Forall_app; split); try done.
  - apply concat_le_bytes_u8.
  - rewrite !Forall_cons. auto.
Qed.

Lemma word_at_to_bytes d k w : disk_wf d -> disk_words d !! k = Some w ->
  word_at (to_bytes d) (Z.of_nat k) = w.
Proof.
  intros Hwf Hk. rewrite to_bytes_words. apply word_at_concat; [by apply disk_words_u32|done].
Qed.

Lemma disk_words_direct d k : disk_wf d -> (k < 12)%nat ->
  disk_words d !! k = direct_blocks d !! k.
Proof.
  intros [] Hk. unfold disk_words. apply lookup_app_l. rewrite wf_direct_len0.
  unfold DIRECT_PTR_CNT. lia.
Qed.

Lemma disk_words_tail d k : disk_wf d ->
  disk_words d !! (12 + k)%nat =
  [indirect_block d; doubly_indirect_block d; as_u32 (d_length d); as_u32 (write_end d);
   magic d] !! k.
Proof.
  intros []. unfold disk_words.
  rewrite lookup_app_r by (rewrite wf_direct_len0; unfold DIRECT_PTR_CNT; lia).
  rewrite wf_direct_len0. f_equal. unfold DIRECT_PTR_CNT. lia.
Qed.

(** Reading back a written inode gives the inode. *)
Lemma of_to_bytes d : disk_wf d -> of_bytes (to_bytes d) = d.
Proof.
  intros Hwf. unfold of_bytes.
  assert (word_at (to_bytes d) <$> range 0 DIRECT_PTR_CNT = direct_blocks d) as ->.
  { apply list_eq. intros k. rewrite list_lookup_fmap. unfold range, DIRECT_PTR_CNT.
    destruct (decide (k < 12)%nat) as [Hk|Hk].
    - rewrite lookup_seqZ_lt by lia. simpl.
      destruct (lookup_lt_is_Some_2 (direct_blocks d) k) as [w Hw].
      { rewrite (wf_direct_len _ Hwf). unfold DIRECT_PTR_CNT. lia. }
      rewrite Hw. f_equal. rewrite Z.add_0_l. apply word_at_to_bytes; [done|].
      by rewrite disk_words_direct.
    - rewrite lookup_seqZ_ge by lia. simpl. symmetry. apply lookup_ge_None.
      rewrite (wf_direct_len _ Hwf). unfold DIRECT_PTR_CNT. lia. }
  pose proof (fun k w H => word_at_to_bytes d (12 + k) w Hwf
    (eq_trans (disk_words_tail d k Hwf) H)) as Hw.
  rewrite (Hw 0%nat _ eq_refl : word_at _ 12 = _), (Hw 1%nat _ eq_refl : word_at _ 13 = _),
    (Hw 2%nat _ eq_refl : word_at _ 14 = _), (Hw 3%nat _ eq_refl : word_at _ 15 = _),
    (Hw 4%nat _ eq_refl : word_at _ 16 = _).
  rewrite !as_i32_u32 by apply Hwf.
  assert (forall k, to_bytes d !! (68 + k)%nat =
            ([d_is_dir d; d_is_symlink d] ++ padding d) !! k) as Htl.
  { intros k. rewrite to_bytes_words.
    rewrite lookup_app_r; rewrite concat_le_bytes_length, disk_words_length by done; [|lia].
    f_equal. lia. }
  unfold byte_at. rewrite (Htl 0%nat : to_bytes d !! Z.to_nat 68 = _),
    (Htl 1%nat : to_bytes d !! Z.to_nat 69 = _). simpl.
  assert (drop 70 (to_bytes d) = padding d) as ->.
  { rewrite to_bytes_words. rewrite app_assoc. apply drop_app_length'.
    rewrite length_app, concat_le_bytes_length, disk_words_length by done. done. }
  by destruct d.
Qed.

Lemma le_word_in_u32 l : Forall in_u8 l -> in_u32 (le_word l).
Proof.
  unfold in_u32, u32_lim, in_u8. intros H. destruct l as [|a [|b [|c [|d l]]]]; simpl; try lia.
  repeat (apply Forall_cons in H as [? H]). lia.
Qed.

Lemma word_at_u32 l k : Forall in_u8 l -> in_u32 (word_at l k).
Proof. intros. apply le_word_in_u32. auto with kernel. Qed.

Lemma as_i32_in x : in_i32 (as_i32 x).
Proof.
  unfold in_i32, as_i32, i32_min, i32_max, u32_lim.
  pose proof (Z.mod_pos_bound x (2 ^ 32)). zbool; lia.
Qed.

(** Whatever 512 bytes a sector holds decode to a well-formed record. *)
Lemma of_bytes_wf l :
  List.length l = Z.to_nat BLOCK_SECTOR_SIZE -> Forall in_u8 l -> disk_wf (of_bytes l).
Proof.
  intros Hl H8. unfold of_bytes.
  split; cbn -[range drop]; auto using word_at_u32, as_i32_in.
  - apply Forall_fmap, Forall_true. intros k. by apply word_at_u32.
  - unfold byte_at. destruct (l !! _) eqn:E; [by eapply Forall_lookup_1 in E|done].
  - unfold byte_at. destruct (l !! _) eqn:E; [by eapply Forall_lookup_1 in E|done].
  - rewrite length_drop, Hl. done.
  - by apply Forall_drop.
Qed.

(** ** Index blocks *)
Lemma set_word_length k v l : 0 <= k < PTRS_PER_BLOCK ->
  List.length l = Z.to_nat BLOCK_SECTOR_SIZE ->
  List.length (set_word k v l) = Z.to_nat BLOCK_SECTOR_SIZE.
Proof.
  unfold set_word, PTRS_PER_BLOCK, BLOCK_SECTOR_SIZE. intros Hk Hl.
  rewrite splice_length; [done|lia|]. rewrite le_bytes_length, Hl. lia.
Qed.

Lemma set_word_u8 k v l : Forall in_u8 l -> Forall in_u8 (set_word k v l).
Proof. intros. unfold set_word. auto with kernel. Qed.

Lemma word_at_set_word l k v j :
  0 <= k < PTRS_PER_BLOCK -> 0 <= j < PTRS_PER_BLOCK ->
  List.length l = Z.to_nat BLOCK_SECTOR_SIZE -> in_u32 v ->
  word_at (set_word k v l) j = if decide (j = k) then v else word_at l j.
Proof.
  unfold PTRS_PER_BLOCK, BLOCK_SECTOR_SIZE. intros Hk Hj Hl Hv.
  assert (4 * k + Z.of_nat (List.length (le_bytes v)) <= Z.of_nat (List.length l)) as Hin
    by (rewrite le_bytes_length, Hl; lia).
  unfold word_at, set_word. case_decide as Hjk.
  - subst j. change 4 with (Z.of_nat (List.length (le_bytes v))) at 2.
    rewrite lookup_slice_splice by (done || lia).
    rewrite <- (app_nil_r (le_bytes v)). by apply le_word_bytes.
  - f_equal. apply list_eq. intros i. destruct (decide (i < 4)%nat).
    + rewrite !lookup_slice by lia. rewrite lookup_splice by (done || lia).
      rewrite le_bytes_length. repeat case_decide; try done; lia.
    + rewrite !lookup_ge_None_2; [done|..]; unfold slice; rewrite length_take; lia.
Qed.

Lemma word_at_zeros k : word_at (zeros BLOCK_SECTOR_SIZE) k = 0.
Proof.
  unfold word_at, slice, zeros. rewrite drop_replicate, take_replicate.
  generalize (Z.to_nat 4 `min` (Z.to_nat BLOCK_SECTOR_SIZE - Z.to_nat (4 * k)))%nat.
  intros n. destruct n as [|[|[|[|n]]]]; done.
Qed.
