(* ===== verification/FileMap.v ===== *)
(** The block map of a file as a pure function of the disk: which sector each pointer slot of
    an inode names, the invariant that the slots of a file are distinct allocated sectors, and
    how linking one sector changes the map. *)
From S2P Require Import Prelude Utf8 Block Bio FreeMap Inode InodeLayout.

(** Blocks an inode can address: 12 direct, 128 indirect, 128 * 128 doubly indirect. *)
Definition MAX_BLOCKS : Z := DIRECT_PTR_CNT + PTRS_PER_BLOCK + PTRS_PER_BLOCK * PTRS_PER_BLOCK.

(** The pointer slots of an inode. *)
Inductive slot : Set := SData (k : Z) | SInd | SDbl | SInner (o : Z).
#[export] Instance slot_eq_dec : EqDecision slot.
Proof. solve_decision. Defined.

Definition slot_ok (sl : slot) : Prop :=
  match sl with
  | SData k => 0 <= k < MAX_BLOCKS
  | SInner o => 0 <= o < PTRS_PER_BLOCK
  | _ => True
  end.

Definition is_index (sl : slot) : Prop := match sl with SData _ => False | _ => True end.

(** The position of a doubly indirect block: its inner block and the word in it. *)
Definition dbl_outer (k : Z) : Z := (k - DIRECT_PTR_CNT - PTRS_PER_BLOCK) / PTRS_PER_BLOCK.
Definition dbl_inner (k : Z) : Z := (k - DIRECT_PTR_CNT - PTRS_PER_BLOCK) mod PTRS_PER_BLOCK.

(** The sector a slot names on disk [v] for inode [d]; 0 for none. *)
Definition inner_ptr (v : Z -> list Z) (d : InodeDisk) (o : Z) : Z :=
  if doubly_indirect_block d =? 0 then 0 else word_at (v (doubly_indirect_block d)) o.

Definition slot_ptr (v : Z -> list Z) (d : InodeDisk) (sl : slot) : Z :=
  match sl with
  | SInd => indirect_block d
  | SDbl => doubly_indirect_block d
  | SInner o => inner_ptr v d o
  | SData k =>
      if k <? DIRECT_PTR_CNT then byte_at (direct_blocks d) k
      else if k <? DIRECT_PTR_CNT + PTRS_PER_BLOCK then
        if indirect_block d =? 0 then 0 else word_at (v (indirect_block d)) (k - DIRECT_PTR_CNT)
      else
        if inner_ptr v d (dbl_outer k) =? 0 then 0
        else word_at (v (inner_ptr v d (dbl_outer k))) (dbl_inner k)
  end.

(** The file of inode [d], stored at sector [s], on a disk of [n] sectors with the
    allocation map [us]: every sector it names is allocated, inside the disk, not the inode
    sector, and named by one slot only. *)
Record file_ok (n : Z) (us : Z -> bool) (v : Z -> list Z) (s : Z) (d : InodeDisk) : Prop := {
  f_wf : disk_wf d;
  f_ptr : forall sl, slot_ok sl -> slot_ptr v d sl <> 0 ->
    2 <= slot_ptr v d sl < n /\ us (slot_ptr v d sl) = true /\ slot_ptr v d sl <> s;
  f_inj : forall a b, slot_ok a -> slot_ok b -> slot_ptr v d a <> 0 ->
    slot_ptr v d a = slot_ptr v d b -> a = b;
}.

(** [t] is an index block of the file, or any block of it. *)
Definition index_sector (v : Z -> list Z) (d : InodeDisk) (t : Z) : Prop :=
  exists sl, slot_ok sl /\ is_index sl /\ slot_ptr v d sl = t /\ t <> 0.
Definition file_sector (v : Z -> list Z) (d : InodeDisk) (t : Z) : Prop :=
  exists sl, slot_ok sl /\ slot_ptr v d sl = t /\ t <> 0.

(** The byte at offset [off]; unallocated blocks read as zeros. *)
Definition file_byte (v : Z -> list Z) (d : InodeDisk) (off : Z) : Z :=
  let s := slot_ptr v d (SData (off / BLOCK_SECTOR_SIZE)) in
  if s =? 0 then 0 else byte_at (v s) (off mod BLOCK_SECTOR_SIZE).

Ltac unfold_sizes :=
  unfold MAX_BLOCKS, dbl_outer, dbl_inner in *;
  unfold DIRECT_PTR_CNT, PTRS_PER_BLOCK, BLOCK_SECTOR_SIZE in *.

Lemma dbl_bounds k : DIRECT_PTR_CNT + PTRS_PER_BLOCK <= k < MAX_BLOCKS ->
  0 <= dbl_outer k < PTRS_PER_BLOCK /\ 0 <= dbl_inner k < PTRS_PER_BLOCK.
Proof. unfold_sizes. intros. Z.div_mod_to_equations. lia. Qed.

Lemma dbl_split k : k = DIRECT_PTR_CNT + PTRS_PER_BLOCK + PTRS_PER_BLOCK * dbl_outer k + dbl_inner k.
Proof. unfold_sizes. Z.div_mod_to_equations. lia. Qed.

(** Two inodes with the same pointers. *)
Definition same_ptrs (d d' : InodeDisk) : Prop :=
  direct_blocks d' = direct_blocks d /\ indirect_block d' = indirect_block d /\
  doubly_indirect_block d' = doubly_indirect_block d.

(** The map depends on the disk only through the index blocks. *)
Lemma slot_ptr_ext v v' d d' sl :
  same_ptrs d d' -> (forall t, index_sector v d t -> v' t = v t) -> slot_ok sl ->
  slot_ptr v' d' sl = slot_ptr v d sl.
Proof.
  intros (H1 & H2 & H3) Hv Hsl.
  assert (forall o, 0 <= o < PTRS_PER_BLOCK -> inner_ptr v' d' o = inner_ptr v d o) as Hin.
  { intros o Ho. unfold inner_ptr. rewrite H3.
    destruct (Z.eqb_spec (doubly_indirect_block d) 0); [done|]. rewrite Hv; [done|].
    by exists SDbl. }
  destruct sl as [k| | |o]; simpl; [|done|done|by apply Hin].
  rewrite H1, H2. destruct (Z.ltb_spec k DIRECT_PTR_CNT); [done|].
  destruct (Z.ltb_spec k (DIRECT_PTR_CNT + PTRS_PER_BLOCK)).
  - destruct (Z.eqb_spec (indirect_block d) 0); [done|]. rewrite Hv; [done|]. by exists SInd.
  - destruct (dbl_bounds k) as [Ho Hi]; [simpl in Hsl; lia|].
    rewrite (Hin _ Ho). destruct (Z.eqb_spec (inner_ptr v d (dbl_outer k)) 0); [done|].
    rewrite Hv; [done|]. by exists (SInner (dbl_outer k)).
Qed.

Lemma file_ok_ext n us us' v v' s d d' :
  file_ok n us v s d -> same_ptrs d d' -> disk_wf d' ->
  (forall t, index_sector v d t -> v' t = v t) ->
  (forall t, us t = true -> us' t = true) ->
  file_ok n us' v' s d'.
Proof.
  intros [Hw Hp Hi] Hsp Hw' Hv Hus. split; [done|..].
  - intros sl Hsl. rewrite (slot_ptr_ext v v' d d') by done. intros H.
    destruct (Hp sl Hsl H) as (? & ? & ?). auto.
  - intros a b Ha Hb. rewrite !(slot_ptr_ext v v' d d') by done. by apply Hi.
Qed.

(** The map after one slot was linked to [b]. *)
Definition linked (v v' : Z -> list Z) (d d' : InodeDisk) (sl0 : slot) (b : Z) : Prop :=
  forall sl, slot_ok sl ->
    slot_ptr v' d' sl = if decide (sl = sl0) then b else slot_ptr v d sl.

(** No slot of the file names [b]. *)
Definition fresh (v : Z -> list Z) (d : InodeDisk) (b : Z) : Prop :=
  forall sl, slot_ok sl -> slot_ptr v d sl <> b.

Lemma fresh_unused n us v s d b :
  file_ok n us v s d -> b <> 0 -> us b = false -> fresh v d b.
Proof.
  intros [_ Hp _] Hb Hu sl Hsl E. destruct (Hp sl Hsl) as (_ & H & _); congruence.
Qed.

Lemma fresh_linked v v' d d' sl0 b c :
  fresh v d c -> linked v v' d d' sl0 b -> b <> c -> fresh v' d' c.
Proof. intros Hf Hl Hne sl Hsl. rewrite (Hl sl Hsl). case_decide; [done|]. by apply Hf. Qed.

(** Linking a fresh sector keeps the invariant. *)
Lemma file_ok_link n us us' v v' s d d' sl0 b :
  file_ok n us v s d -> disk_wf d' -> slot_ok sl0 ->
  linked v v' d d' sl0 b ->
  2 <= b < n -> fresh v d b -> us' b = true -> b <> s ->
  (forall t, us t = true -> us' t = true) ->
  file_ok n us' v' s d'.
Proof.
  intros [Hw Hp Hi] Hw' Hs0 Hl Hb Hfresh Hu Hbs Hus. split; [done|..].
  - intros sl Hsl. rewrite (Hl sl Hsl). case_decide; [done|]. intros Hnz.
    destruct (Hp sl Hsl Hnz) as (? & ? & ?). auto.
  - intros a c Ha Hc. rewrite (Hl a Ha), (Hl c Hc). repeat case_decide; subst; try done.
    + intros _ E. by destruct (Hfresh c Hc).
    + intros _ E. by destruct (Hfresh a Ha).
    + by apply Hi.
Qed.

Lemma index_linked v v' d d' sl0 b t :
  linked v v' d d' sl0 b -> index_sector v' d' t -> index_sector v d t \/ t = b.
Proof.
  intros Hl (sl & Hsl & Hix & Hp & Ht). rewrite (Hl sl Hsl) in Hp. case_decide; [by right|].
  left. by exists sl.
Qed.

Lemma index_linked_data v v' d d' k b t :
  linked v v' d d' (SData k) b -> index_sector v' d' t -> index_sector v d t.
Proof.
  intros Hl (sl & Hsl & Hix & Hp & Ht). rewrite (Hl sl Hsl) in Hp.
  case_decide; [by subst|]. by exists sl.
Qed.

(** ** The four kinds of link *)

(** A direct pointer in the inode. *)
Lemma link_direct v d k b :
  0 <= k < DIRECT_PTR_CNT -> disk_wf d ->
  linked v v d (set_direct (<[Z.to_nat k := b]> (direct_blocks d)) d) (SData k) b.
Proof.
  intros Hk Hw sl Hsl. destruct sl as [k'| | |o]; simpl in *; try done.
  destruct (Z.ltb_spec k' DIRECT_PTR_CNT) as [Hlt|Hge].
  - unfold byte_at. case_decide as Hd.
    + injection Hd as ->. rewrite list_lookup_insert_eq; [done|].
      rewrite (wf_direct_len _ Hw). unfold_sizes. lia.
    + rewrite list_lookup_insert_ne; [done|]. intros E. apply Hd. f_equal. lia.
  - rewrite decide_False; [done|]. intros [= ->]. lia.
Qed.

(** An empty (zeroed) indirect block. *)
Lemma link_indirect v d b :
  indirect_block d = 0 -> v b = zeros BLOCK_SECTOR_SIZE ->
  linked v v d (set_indirect b d) SInd b.
Proof.
  intros H0 Hz sl Hsl. destruct sl as [k'| | |o]; simpl; try done.
  destruct (k' <? DIRECT_PTR_CNT); [done|].
  destruct (k' <? DIRECT_PTR_CNT + PTRS_PER_BLOCK); [|done].
  rewrite H0, Hz, word_at_zeros. by destruct (b =? 0).
Qed.

(** An empty doubly indirect block. *)
Lemma link_doubly v d b :
  doubly_indirect_block d = 0 -> v b = zeros BLOCK_SECTOR_SIZE ->
  linked v v d (set_doubly b d) SDbl b.
Proof.
  intros H0 Hz sl Hsl.
  assert (forall o, inner_ptr v (set_doubly b d) o = 0) as Hin.
  { intros o. unfold inner_ptr. simpl. rewrite Hz, word_at_zeros. by destruct (b =? 0). }
  assert (forall o, inner_ptr v d o = 0) as Hin0 by (intros o; unfold inner_ptr; by rewrite H0).
  destruct sl as [k'| | |o]; simpl; try done.
  - rewrite Hin, Hin0. done.
  - by rewrite Hin, Hin0.
Qed.

(** A word of the indirect block. *)
Lemma link_in_indirect n us v v' s d k b :
  file_ok n us v s d -> DIRECT_PTR_CNT <= k < DIRECT_PTR_CNT + PTRS_PER_BLOCK ->
  indirect_block d <> 0 ->
  List.length (v (indirect_block d)) = Z.to_nat BLOCK_SECTOR_SIZE -> in_u32 b ->
  (forall t, v' t = if decide (t = indirect_block d)
                    then set_word (k - DIRECT_PTR_CNT) b (v t) else v t) ->
  linked v v' d d (SData k) b.
Proof.
  intros [Hw Hp Hi] Hk Hnz Hlen Hb Hv' sl Hsl.
  assert (forall sl', slot_ok sl' -> sl' <> SInd -> slot_ptr v d sl' <> 0 ->
            slot_ptr v d sl' <> indirect_block d) as Hne.
  { intros sl' Hok Hd Hz E. apply Hd, Hi; done. }
  assert (forall o, 0 <= o < PTRS_PER_BLOCK -> inner_ptr v' d o = inner_ptr v d o) as Hin.
  { intros o Ho. unfold inner_ptr. destruct (Z.eqb_spec (doubly_indirect_block d) 0); [done|].
    rewrite Hv', decide_False; [done|]. by apply (Hne SDbl). }
  destruct sl as [k'| | |o]; simpl; [|done|done|by rewrite Hin].
  destruct (Z.ltb_spec k' DIRECT_PTR_CNT).
  { rewrite decide_False; [done|]. intros [= ->]. lia. }
  destruct (Z.ltb_spec k' (DIRECT_PTR_CNT + PTRS_PER_BLOCK)).
  - rewrite (proj2 (Z.eqb_neq _ _) Hnz), Hv', decide_True by done.
    rewrite word_at_set_word by (done || lia). repeat case_decide; try done.
    + by destruct H2; f_equal; lia.
    + exfalso. apply H1. injection H2 as ->. done.
  - rewrite decide_False by (intros [= ->]; lia).
    destruct (dbl_bounds k') as [Ho Hi']; [simpl in Hsl; lia|]. rewrite (Hin _ Ho).
    destruct (Z.eqb_spec (inner_ptr v d (dbl_outer k')) 0); [done|].
    rewrite Hv', decide_False; [done|]. by apply (Hne (SInner (dbl_outer k'))).
Qed.

(** A word of an inner block. *)
Lemma link_in_inner n us v v' s d k b :
  file_ok n us v s d -> DIRECT_PTR_CNT + PTRS_PER_BLOCK <= k < MAX_BLOCKS ->
  inner_ptr v d (dbl_outer k) <> 0 ->
  List.length (v (inner_ptr v d (dbl_outer k))) = Z.to_nat BLOCK_SECTOR_SIZE -> in_u32 b ->
  (forall t, v' t = if decide (t = inner_ptr v d (dbl_outer k))
                    then set_word (dbl_inner k) b (v t) else v t) ->
  linked v v' d d (SData k) b.
Proof.
  intros [Hw Hp Hi] Hk Hnz Hlen Hb Hv' sl Hsl. destruct (dbl_bounds k Hk) as [Hko Hki].
  set (ib := inner_ptr v d (dbl_outer k)) in *.
  assert (forall sl', slot_ok sl' -> sl' <> SInner (dbl_outer k) -> slot_ptr v d sl' <> 0 ->
            slot_ptr v d sl' <> ib) as Hne.
  { intros sl' Hok Hd Hz E. apply Hd, Hi; done. }
  assert (forall o, 0 <= o < PTRS_PER_BLOCK -> inner_ptr v' d o = inner_ptr v d o) as Hin.
  { intros o Ho. unfold inner_ptr. destruct (Z.eqb_spec (doubly_indirect_block d) 0); [done|].
    rewrite Hv', decide_False; [done|]. by apply (Hne SDbl). }
  destruct sl as [k'| | |o]; simpl; [|done|done|by rewrite Hin].
  destruct (Z.ltb_spec k' DIRECT_PTR_CNT).
  { rewrite decide_False; [done|]. intros [= ->]. unfold_sizes. lia. }
  destruct (Z.ltb_spec k' (DIRECT_PTR_CNT + PTRS_PER_BLOCK)).
  - rewrite decide_False by (intros [= ->]; lia).
    destruct (Z.eqb_spec (indirect_block d) 0); [done|].
    rewrite Hv', decide_False; [done|]. by apply (Hne SInd).
  - destruct (dbl_bounds k') as [Ho Hi']; [simpl in Hsl; lia|]. rewrite (Hin _ Ho).
    destruct (decide (dbl_outer k' = dbl_outer k)) as [Eo|Eo].
    + rewrite Eo. fold ib. rewrite (proj2 (Z.eqb_neq _ _) Hnz), Hv', decide_True by done.
      rewrite word_at_set_word by done. repeat case_decide; try done.
      * exfalso. apply H2. f_equal. rewrite (dbl_split k'), (dbl_split k). congruence.
      * exfalso. apply H1. by injection H2 as ->.
    + rewrite decide_False by (intros [= ->]; done).
      destruct (Z.eqb_spec (inner_ptr v d (dbl_outer k')) 0); [done|].
      rewrite Hv', decide_False; [done|].
      apply (Hne (SInner (dbl_outer k'))); [done|congruence|done].
Qed.

(** An empty inner block in a word of the doubly indirect block. *)
Lemma link_inner n us v v' s d o b :
  file_ok n us v s d -> 0 <= o < PTRS_PER_BLOCK -> doubly_indirect_block d <> 0 ->
  inner_ptr v d o = 0 ->
  List.length (v (doubly_indirect_block d)) = Z.to_nat BLOCK_SECTOR_SIZE -> in_u32 b ->
  (forall sl, slot_ok sl -> slot_ptr v d sl <> b) ->
  (forall t, v' t = if decide (t = b) then zeros BLOCK_SECTOR_SIZE
                    else if decide (t = doubly_indirect_block d)
                    then set_word o b (v t) else v t) ->
  linked v v' d d (SInner o) b.
Proof.
  intros [Hw Hp Hi] Ho Hnz H0 Hlen Hb Hfr Hv' sl Hsl.
  assert (doubly_indirect_block d <> b) as Hdb by by apply (Hfr SDbl).
  assert (forall sl', slot_ok sl' -> sl' <> SDbl -> slot_ptr v d sl' <> 0 ->
            v' (slot_ptr v d sl') = v (slot_ptr v d sl')) as Hsame.
  { intros sl' Hok Hd Hz. rewrite Hv', !decide_False; [done|..].
    - intros E. apply Hd, Hi; done.
    - by apply Hfr. }
  assert (forall o', 0 <= o' < PTRS_PER_BLOCK ->
            inner_ptr v' d o' = if decide (o' = o) then b else inner_ptr v d o') as Hin.
  { intros o' Ho'. unfold inner_ptr. rewrite (proj2 (Z.eqb_neq _ _) Hnz), Hv'.
    rewrite decide_False, decide_True by done. by rewrite word_at_set_word. }
  destruct sl as [k'| | |o']; simpl; [|done|done|].
  - destruct (Z.ltb_spec k' DIRECT_PTR_CNT); [done|].
    destruct (Z.ltb_spec k' (DIRECT_PTR_CNT + PTRS_PER_BLOCK)).
    + destruct (Z.eqb_spec (indirect_block d) 0); [done|]. f_equal.
      by apply (Hsame SInd).
    + destruct (dbl_bounds k') as [Hk' Hi']; [simpl in Hsl; lia|]. rewrite (Hin _ Hk').
      case_decide as Eo.
      * rewrite Eo, H0. simpl. destruct (Z.eqb_spec b 0); [done|].
        by rewrite Hv', decide_True, word_at_zeros.
      * destruct (Z.eqb_spec (inner_ptr v d (dbl_outer k')) 0); [done|]. f_equal.
        by apply (Hsame (SInner (dbl_outer k'))).
  - rewrite (Hin _ Hsl). repeat case_decide; congruence.
Qed.
