(* ===== verification/InodeOps.v ===== *)
(** Symbolic execution of the inode layer: each primitive step of src/filesys/inode.rs as a
    change of the abstract file-system state (sector contents, allocated sectors, open
    inodes), the buffer cache being invisible. *)
From Stdlib Require Import FunctionalExtensionality.
From S2P Require Import Prelude Utf8 Block Bio FreeMap Inode InodeLayout FileMap.

(** What a client of the inode layer can observe. *)
Record afs := mkAfs {
  a_v : Z -> list Z;
  a_u : Z -> bool;
  a_n : Z;
  a_in : gmap Z Inode;
}.

Definition vupd (t : Z) (d : list Z) (v : Z -> list Z) : Z -> list Z :=
  fun x => if decide (x = t) then d else v x.
Definition uadd (b : Z) (u : Z -> bool) : Z -> bool := fun t => bool_decide (t = b) || u t.
Definition udel (b : Z) (u : Z -> bool) : Z -> bool := fun t => negb (bool_decide (t = b)) && u t.

Definition a_write (t : Z) (d : list Z) (a : afs) : afs :=
  mkAfs (vupd t d (a_v a)) (a_u a) (a_n a) (a_in a).
Definition a_alloc (b : Z) (a : afs) : afs :=
  mkAfs (a_v a) (uadd b (a_u a)) (a_n a) (a_in a).
Definition a_free (b : Z) (a : afs) : afs :=
  mkAfs (a_v a) (udel b (a_u a)) (a_n a) (a_in a).
Definition a_set_inodes (m : gmap Z Inode) (a : afs) : afs :=
  mkAfs (a_v a) (a_u a) (a_n a) m.

(** No sector is left to allocate. *)
Definition a_full (a : afs) : Prop := forall s, 2 <= s < a_n a -> a_u a s = true.

Section ops.
Context {D : Type} `{!BlockOps D, !BlockLaws D}.

Definition abs (fs : FS D) : afs :=
  mkAfs (view (fs_bio fs)) (fun t => (0 <=? t) && is_used (fs_fm fs) t)
    (SECTOR_COUNT (fs_fm fs)) (fs_inodes fs).

(** The invariant between file-system calls. *)
Record fs_ok (fs : FS D) : Prop := {
  fso_bio : bio_ok None (fs_bio fs);
  fso_fm : fm_ok (fs_fm fs);
  fso_size : fs_size (fs_bio fs) = SECTOR_COUNT (fs_fm fs);
  fso_lim : SECTOR_COUNT (fs_fm fs) + 1 < u32_lim;
}.

Lemma view_length st t : is_Some (fs_dev st) ->
  List.length (view st t) = Z.to_nat BLOCK_SECTOR_SIZE.
Proof. intros [d Hd]. unfold view. rewrite Hd. simpl. apply ops_read_length. Qed.

Lemma view_u8 st t : is_Some (fs_dev st) -> Forall in_u8 (view st t).
Proof. intros [d Hd]. unfold view. rewrite Hd. simpl. apply ops_read_bytes. Qed.

Lemma abs_length fs t : fs_ok fs -> List.length (a_v (abs fs) t) = Z.to_nat BLOCK_SECTOR_SIZE.
Proof. intros [H _ _ _]. apply view_length, (ok_dev _ _ H). Qed.

Lemma abs_u8 fs t : fs_ok fs -> Forall in_u8 (a_v (abs fs) t).
Proof. intros [H _ _ _]. apply view_u8, (ok_dev _ _ H). Qed.

Lemma abs_same_disk fs st' :
  same_disk (fs_bio fs) st' -> abs (with_bio st' fs) = abs fs.
Proof.
  intros [_ Hv]. unfold abs. simpl. f_equal. apply functional_extensionality. exact Hv.
Qed.

Lemma fs_ok_same fs st' :
  fs_ok fs -> bio_ok None st' -> same_disk (fs_bio fs) st' -> fs_ok (with_bio st' fs).
Proof. intros [? ? Hsz ?] Hok [H _]. split; simpl; [done|done|congruence|done]. Qed.

Lemma abs_disk_upd fs st' t d :
  disk_upd t d (fs_bio fs) st' -> abs (with_bio st' fs) = a_write t d (abs fs).
Proof.
  intros [_ Hv]. unfold abs, a_write. simpl. f_equal. apply functional_extensionality. exact Hv.
Qed.

Lemma fs_ok_upd fs st' t d :
  fs_ok fs -> bio_ok None st' -> disk_upd t d (fs_bio fs) st' -> fs_ok (with_bio st' fs).
Proof. intros [? ? Hsz ?] Hok [H _]. split; simpl; [done|done|congruence|done]. Qed.

Lemma wp_read_sec t fs (Q : list Z -> FS D -> Prop) :
  fs_ok fs -> t < a_n (abs fs) ->
  (forall fs', fs_ok fs' -> abs fs' = abs fs -> Q (a_v (abs fs) t) fs') ->
  wp (bio (read_through t)) fs Q.
Proof.
  intros Hok Ht HQ. apply wp_zoom, wp_read_through.
  - apply Hok.
  - by rewrite (fso_size _ Hok).
  - intros st' Hst' Hsd. apply HQ; [by apply fs_ok_same|by apply abs_same_disk].
Qed.

Lemma wp_write_sec t f fs (Q : unit -> FS D -> Prop) :
  fs_ok fs -> t < a_n (abs fs) ->
  List.length (f (a_v (abs fs) t)) = Z.to_nat BLOCK_SECTOR_SIZE ->
  Forall in_u8 (f (a_v (abs fs) t)) ->
  (forall fs', fs_ok fs' -> abs fs' = a_write t (f (a_v (abs fs) t)) (abs fs) -> Q tt fs') ->
  wp (bio (write_through t f)) fs Q.
Proof.
  intros Hok Ht Hl H8 HQ. apply wp_zoom, wp_write_through; [apply Hok| |done|done|].
  - by rewrite (fso_size _ Hok).
  - intros st' Hst' Hdu. apply HQ; [by eapply fs_ok_upd|by apply abs_disk_upd].
Qed.

Lemma wp_zero_sector t fs (Q : unit -> FS D -> Prop) :
  fs_ok fs -> t < a_n (abs fs) ->
  (forall fs', fs_ok fs' -> abs fs' = a_write t (zeros BLOCK_SECTOR_SIZE) (abs fs) -> Q tt fs') ->
  wp (zero_sector t) fs Q.
Proof. intros Hok Ht HQ. apply wp_write_sec; [done..| |done]. apply zeros_u8. Qed.

Lemma abs_marks fs fm' b v :
  marks b (b + 1) v (fs_fm fs) fm' -> 0 <= b ->
  abs (with_fm fm' fs) = (if v then a_alloc b else a_free b) (abs fs).
Proof.
  intros (Hok & Hc & Hfl & Hm) Hb. unfold abs. simpl.
  assert ((fun t => (0 <=? t) && is_used fm' t) =
    (fun t => if decide (t = b) then v else (0 <=? t) && is_used (fs_fm fs) t)) as ->.
  { apply functional_extensionality. intros t. destruct (Z.leb_spec 0 t); simpl.
    - rewrite Hm by done. repeat case_decide; try done; lia.
    - rewrite decide_False by lia. done. }
  destruct v; unfold a_alloc, a_free; simpl; rewrite Hc; f_equal;
    apply functional_extensionality; intros t; unfold uadd, udel;
    by repeat case_decide; case_bool_decide.
Qed.

Lemma fs_ok_marks fs fm' lo hi v :
  fs_ok fs -> marks lo hi v (fs_fm fs) fm' -> fs_ok (with_fm fm' fs).
Proof.
  intros [? ? ? ?] (Hok & Hc & _). split; simpl; [done|done|congruence|]. by rewrite Hc.
Qed.

Lemma wp_alloc fs (Q : option Z -> FS D -> Prop) :
  fs_ok fs ->
  (forall b fs', fs_ok fs' -> 2 <= b < a_n (abs fs) -> a_u (abs fs) b = false ->
     abs fs' = a_alloc b (abs fs) -> Q (Some b) fs') ->
  (a_full (abs fs) -> Q None fs) ->
  wp (free_map (allocate 1)) fs Q.
Proof.
  intros Hok HS HN. apply wp_zoom, wp_allocate1; [apply Hok|apply Hok|..].
  - intros b fm' Hb Hu Hm. apply HS; [by eapply fs_ok_marks|done| |].
    + simpl. by rewrite Hu, andb_false_r.
    + apply (abs_marks fs fm' b true); [done|lia].
  - intros Hall. assert (with_fm (fs_fm fs) fs = fs) as -> by by destruct fs.
    apply HN. intros s Hs. simpl in *. rewrite Hall by done.
    by rewrite (proj2 (Z.leb_le 0 s)) by lia.
Qed.

Lemma wp_free fs b (Q : unit -> FS D -> Prop) :
  fs_ok fs -> 0 <= b < a_n (abs fs) ->
  (forall fs', fs_ok fs' -> abs fs' = a_free b (abs fs) -> fs_bio fs' = fs_bio fs -> Q tt fs') ->
  wp (free_map (release b 1)) fs Q.
Proof.
  intros Hok Hb HQ. simpl in Hb. apply wp_zoom, wp_release; [apply Hok|lia..|].
  intros fm' Hm. apply HQ; [by eapply fs_ok_marks| |done]. apply (abs_marks fs fm' b false); [done|lia].
Qed.

Lemma wp_ptr_read data idx fs (Q : Z -> FS D -> Prop) :
  idx < PTRS_PER_BLOCK -> Q (word_at data idx) fs -> wp (ptr_read data idx) fs Q.
Proof. intros H HQ. unfold ptr_read. by rewrite (proj2 (Z.ltb_lt _ _) H). Qed.

(** ** Block lookup *)
Definition fok (a : afs) (s : Z) (d : InodeDisk) : Prop := file_ok (a_n a) (a_u a) (a_v a) s d.

Lemma fok_lt a s d sl : fok a s d -> slot_ok sl -> slot_ptr (a_v a) d sl <> 0 ->
  2 <= slot_ptr (a_v a) d sl < a_n a.
Proof. intros H Hsl Hnz. by apply (f_ptr _ _ _ _ _ H). Qed.

(** The sectors the inode names are on the disk. *)
Record ranged (a : afs) (d : InodeDisk) : Prop := {
  rg_wf : disk_wf d;
  rg_lt : forall sl, slot_ok sl -> slot_ptr (a_v a) d sl <> 0 -> 2 <= slot_ptr (a_v a) d sl < a_n a;
}.

Lemma fok_ranged a s d : fok a s d -> ranged a d.
Proof. intros H. split; [apply H|]. intros. by eapply fok_lt. Qed.

(** [get_block_sector_disk] computes the block map. *)
Lemma wp_get_block_ranged fs d k (Q : option Z -> FS D -> Prop) :
  fs_ok fs -> ranged (abs fs) d -> 0 <= k < MAX_BLOCKS ->
  (forall fs', fs_ok fs' -> abs fs' = abs fs ->
     Q (nonzero (slot_ptr (a_v (abs fs)) d (SData k))) fs') ->
  wp (get_block_sector_disk d k) fs Q.
Proof.
  intros Hok Hf Hk HQ. unfold get_block_sector_disk.
  destruct Hf as [Hw Hlt]. unfold slot_ptr in HQ.
  destruct (Z.ltb_spec k DIRECT_PTR_CNT).
  { destruct (lookup_lt_is_Some_2 (direct_blocks d) (Z.to_nat k)) as [b Hb].
    { rewrite (wf_direct_len _ Hw). lia. }
    apply wp_bind. eapply wp_index; [lia|done|]. apply wp_ret.
    specialize (HQ fs Hok eq_refl). unfold byte_at in HQ. by rewrite Hb in HQ. }
  destruct (Z.ltb_spec k (DIRECT_PTR_CNT + PTRS_PER_BLOCK)).
  - destruct (Z.eqb_spec (indirect_block d) 0) as [Hz|Hz]; [by apply wp_ret, HQ|].
    apply wp_bind, wp_read_sec; [done|by apply (Hlt SInd)|].
    intros fs' Hok' Ha. apply wp_bind, wp_ptr_read; [lia|]. by apply wp_ret, HQ.
  - destruct (dbl_bounds k) as [Ho Hi]; [lia|].
    unfold inner_ptr in HQ. fold (dbl_outer k). fold (dbl_inner k).
    destruct (Z.eqb_spec (doubly_indirect_block d) 0) as [Hz|Hz]; [by apply wp_ret, HQ|].
    apply wp_bind, wp_read_sec; [done|by apply (Hlt SDbl)|].
    intros fs' Hok' Ha. apply wp_bind, wp_ptr_read; [lia|].
    pose proof (Hlt (SInner (dbl_outer k)) Ho) as Hil. simpl in Hil.
    unfold inner_ptr in Hil. rewrite (proj2 (Z.eqb_neq _ _) Hz) in Hil.
    destruct (Z.eqb_spec (word_at (a_v (abs fs) (doubly_indirect_block d)) (dbl_outer k)) 0) as [E|E].
    + by apply wp_ret, HQ.
    + apply wp_bind, wp_read_sec; [done|rewrite Ha; by apply Hil|].
      intros fs'' Hok'' Ha'. rewrite Ha. apply wp_bind, wp_ptr_read; [lia|].
      apply wp_ret, HQ; [done|congruence].
Qed.

Lemma wp_get_block fs s d k (Q : option Z -> FS D -> Prop) :
  fs_ok fs -> fok (abs fs) s d -> 0 <= k < MAX_BLOCKS ->
  (forall fs', fs_ok fs' -> abs fs' = abs fs ->
     Q (nonzero (slot_ptr (a_v (abs fs)) d (SData k))) fs') ->
  wp (get_block_sector_disk d k) fs Q.
Proof. intros Hok Hf. apply wp_get_block_ranged; [done|by eapply fok_ranged]. Qed.

(** The inner block of a doubly indirect entry. *)
Lemma wp_inner_block fs s d o (Q : option Z -> FS D -> Prop) :
  fs_ok fs -> fok (abs fs) s d -> 0 <= o < PTRS_PER_BLOCK -> doubly_indirect_block d <> 0 ->
  (forall fs', fs_ok fs' -> abs fs' = abs fs -> inner_ptr (a_v (abs fs)) d o <> 0 ->
     Q (Some (inner_ptr (a_v (abs fs)) d o)) fs') ->
  (forall b fs', fs_ok fs' -> inner_ptr (a_v (abs fs)) d o = 0 ->
     2 <= b < a_n (abs fs) -> a_u (abs fs) b = false ->
     abs fs' = a_write b (zeros BLOCK_SECTOR_SIZE)
       (a_write (doubly_indirect_block d)
          (set_word o b (a_v (abs fs) (doubly_indirect_block d))) (a_alloc b (abs fs))) ->
     Q (Some b) fs') ->
  (forall fs', fs_ok fs' -> abs fs' = abs fs -> a_full (abs fs) -> Q None fs') ->
  wp (inner_block (doubly_indirect_block d) o) fs Q.
Proof.
  intros Hok Hf Ho Hnz HQ1 HQ2 HQ3. unfold inner_block.
  unfold inner_ptr in HQ1, HQ2. rewrite (proj2 (Z.eqb_neq _ _) Hnz) in HQ1, HQ2.
  pose proof (fok_lt _ _ _ SDbl Hf I Hnz) as Hlt. simpl in Hlt.
  apply wp_bind, wp_zoom, wp_bread; [apply Hok|rewrite (fso_size _ Hok); lia|].
  intros i st1 Hok1 Hsd1 Hh1.
  apply wp_bind, wp_zoom, (wp_buf_get _ (doubly_indirect_block d)); [done|done|].
  simpl. rewrite (proj2 Hsd1). apply wp_bind, wp_ptr_read; [lia|].
  set (data := view (fs_bio fs) (doubly_indirect_block d)) in *.
  assert (forall fs1, fs_bio fs1 = st1 -> fs_fm fs1 = fs_fm fs -> fs_inodes fs1 = fs_inodes fs ->
    forall (P : unit -> FS D -> Prop),
    (forall fs', fs_ok fs' -> abs fs' = abs fs -> P tt fs') -> wp (bio (brelse i)) fs1 P) as Hrel.
  { intros fs1 E1 E2 E3 P HP. apply wp_zoom. rewrite E1. apply wp_brelse; [done|by eapply holds_lt|].
    intros st2 Hok2 Hsd2. assert (same_disk (fs_bio fs) st2) as Hsd by by etrans.
    assert (with_bio st2 fs1 = with_bio st2 fs) as ->
      by (unfold with_bio; by rewrite E2, E3).
    apply HP; [by apply fs_ok_same|by apply abs_same_disk]. }
  change (view (fs_bio fs) (doubly_indirect_block d)) with data in HQ1, HQ2.
  change (a_v (abs fs) (doubly_indirect_block d)) with data in HQ1, HQ2.
  destruct (Z.eqb_spec (word_at data o) 0) as [E|E].
  2:{ apply wp_bind, Hrel; [done..|]. intros fs' Hok' Ha. by apply wp_ret, HQ1. }
  apply wp_bind, wp_zoom, wp_allocate1; [apply Hok|apply Hok|..].
  2:{ intros Hall. apply wp_bind, Hrel; [done..|]. intros fs' Hok' Ha. apply wp_ret, HQ3; [done..|].
      intros t Ht. simpl in *. rewrite Hall by done. by rewrite (proj2 (Z.leb_le 0 t)) by lia. }
  intros b fm' Hb Hub Hm. simpl in Hb, Hub, Hm.
  assert (in_u32 b) by (pose proof (fso_lim _ Hok); unfold in_u32; lia).
  assert (is_Some (fs_dev (fs_bio fs))) as Hdev by exact (ok_dev _ _ (fso_bio _ Hok)).
  apply wp_bind, wp_zoom, (wp_buf_write i (doubly_indirect_block d)); [done|done| | | |].
  { simpl. rewrite (proj1 Hsd1), (fso_size _ Hok). lia. }
  { apply set_word_length; [done|]. by apply view_length. }
  { apply set_word_u8. by apply view_u8. }
  intros st2 Hok2 Hdu2 Hh2.
  apply wp_bind, wp_zoom, wp_brelse; [done|by eapply holds_lt|]. intros st3 Hok3 Hsd3.
  change (same_disk st2 st3) in Hsd3.
  change (disk_upd (doubly_indirect_block d) (set_word o b data) st1 st2) in Hdu2.
  set (fs3 := with_bio st3 _).
  assert (disk_upd (doubly_indirect_block d) (set_word o b data) (fs_bio fs) st3) as Hdu.
  { split; [by rewrite (proj1 Hsd3), (proj1 Hdu2), (proj1 Hsd1)|].
    intros t. by rewrite (proj2 Hsd3), (proj2 Hdu2), (proj2 Hsd1). }
  assert (fs3 = with_fm fm' (with_bio st3 fs)) as -> by done.
  assert (fs_ok (with_bio st3 fs)) as Hok3' by by eapply fs_ok_upd.
  assert (fs_ok (with_fm fm' (with_bio st3 fs))) as Hokf by by eapply fs_ok_marks.
  assert (abs (with_fm fm' (with_bio st3 fs)) =
    a_write (doubly_indirect_block d) (set_word o b data) (a_alloc b (abs fs))) as Habs.
  { rewrite (abs_marks (with_bio st3 fs) fm' b true) by (done || lia).
    by rewrite (abs_disk_upd _ _ _ _ Hdu). }
  apply wp_bind, wp_zero_sector; [done| |].
  { rewrite Habs. simpl. lia. }
  intros fs' Hok' Ha. apply wp_ret, HQ2; [done|done|done| |congruence].
  simpl. by rewrite Hub, andb_false_r.
Qed.

End ops.
