(* ===== verification/InodeAlloc.v ===== *)
(** Growing a file (src/filesys/inode.rs, [allocate_block_for]): the new data block, and the
    index blocks it needs, are linked without disturbing any other block of the disk. *)
From S2P Require Import Prelude Utf8 Block Bio FreeMap Inode InodeLayout FileMap InodeOps.

(** The fields of an inode other than its pointers. *)
Definition meta (d : InodeDisk) :=
  (d_length d, write_end d, magic d, d_is_dir d, d_is_symlink d, padding d).

(** [a', d'] extends the file [d] of [a]: allocated sectors stay allocated, new index blocks
    come from free space, and no allocated sector other than an index block of the file
    changes. *)
Record ext (a : afs) (d : InodeDisk) (a' : afs) (d' : InodeDisk) : Prop := {
  e_n : a_n a' = a_n a;
  e_in : a_in a' = a_in a;
  e_u : forall t, a_u a t = true -> a_u a' t = true;
  e_ix : forall t, index_sector (a_v a') d' t -> index_sector (a_v a) d t \/ a_u a t = false;
  e_v : forall t, a_u a t = true -> ~ index_sector (a_v a) d t -> a_v a' t = a_v a t;
  e_meta : meta d' = meta d;
}.

Lemma ext_refl a d : ext a d a d.
Proof. split; auto. Qed.

Lemma ext_trans a d a' d' a'' d'' : ext a d a' d' -> ext a' d' a'' d'' -> ext a d a'' d''.
Proof.
  intros [n1 i1 u1 x1 v1 m1] [n2 i2 u2 x2 v2 m2]. split; [congruence|congruence|auto|..].
  - intros t [Ht|Ht]%x2; [by apply x1|]. right. destruct (a_u a t) eqn:E; [|done].
    rewrite (u1 t E) in Ht. done.
  - intros t Hu Hx. rewrite v2; [by apply v1|by apply u1|].
    intros [?|?]%x1; congruence.
  - congruence.
Qed.

(** A link as an extension. *)
Lemma ext_link a d a' d' sl0 b :
  a_n a' = a_n a -> a_in a' = a_in a -> (forall t, a_u a t = true -> a_u a' t = true) ->
  linked (a_v a) (a_v a') d d' sl0 b -> (is_index sl0 -> a_u a b = false) ->
  (forall t, a_u a t = true -> ~ index_sector (a_v a) d t -> a_v a' t = a_v a t) ->
  meta d' = meta d -> ext a d a' d'.
Proof.
  intros Hn Hi Hu Hl Hix Hv Hm. split; try done. intros t (sl & Hsl & Hs & Hp & Ht).
  rewrite (Hl sl Hsl) in Hp. case_decide; subst; [right; by apply Hix|]. left. by exists sl.
Qed.

Lemma fok_link a s d a' d' sl0 b :
  fok a s d -> a_n a' = a_n a -> (forall t, a_u a t = true -> a_u a' t = true) ->
  disk_wf d' -> slot_ok sl0 -> linked (a_v a) (a_v a') d d' sl0 b ->
  2 <= b < a_n a -> fresh (a_v a) d b -> a_u a' b = true -> b <> s -> fok a' s d'.
Proof. unfold fok. intros. rewrite H0. by eapply file_ok_link. Qed.

Lemma uadd_mono b u t : u t = true -> uadd b u t = true.
Proof. unfold uadd. intros ->. by rewrite orb_true_r. Qed.
Lemma uadd_self b u : uadd b u b = true.
Proof. unfold uadd. by rewrite bool_decide_true. Qed.
Lemma uadd_false b u t : uadd b u t = false -> t <> b /\ u t = false.
Proof. unfold uadd. intros [H1 H2]%orb_false_elim. by apply bool_decide_eq_false in H1. Qed.

Lemma vupd_ne t d v x : x <> t -> vupd t d v x = v x.
Proof. intros. unfold vupd. by rewrite decide_False. Qed.
Lemma vupd_eq t d v : vupd t d v t = d.
Proof. unfold vupd. by rewrite decide_True. Qed.

(** Allocating a sector that is not yet linked. *)
Lemma alloc_unlinked a s d b :
  fok a s d -> 2 <= b < a_n a -> a_u a b = false ->
  fok (a_alloc b a) s d /\ ext a d (a_alloc b a) d /\ fresh (a_v a) d b.
Proof.
  intros Hf Hb Hu. split_and!.
  - eapply file_ok_ext; [exact Hf|done|apply Hf|done|]. intros t. apply uadd_mono.
  - split; simpl; auto using uadd_mono.
  - eapply fresh_unused; [exact Hf|lia|done].
Qed.

(** The map is unchanged by a write outside the index blocks. *)
Lemma slot_ptr_vupd v d t x sl :
  ~ index_sector v d t -> slot_ok sl -> slot_ptr (vupd t x v) d sl = slot_ptr v d sl.
Proof.
  intros Hx Hsl. apply slot_ptr_ext; [done| |done]. intros t' Ht'. apply vupd_ne.
  intros ->. done.
Qed.

Lemma fresh_not_index v d b : fresh v d b -> ~ index_sector v d b.
Proof. intros Hf (sl & Hsl & _ & Hp & _). by apply (Hf sl Hsl). Qed.

(** A fresh zeroed index block, linked from the inode. *)
Lemma new_index a s d d' sl0 b :
  fok a s d -> 2 <= b < a_n a -> a_u a b = false -> b <> s ->
  is_index sl0 -> slot_ok sl0 -> disk_wf d' -> meta d' = meta d ->
  (forall v, v b = zeros BLOCK_SECTOR_SIZE -> linked v v d d' sl0 b) ->
  let a' := a_write b (zeros BLOCK_SECTOR_SIZE) (a_alloc b a) in
  fok a' s d' /\ ext a d a' d' /\ linked (a_v a) (a_v a') d d' sl0 b.
Proof.
  intros Hf Hb Hu Hbs Hix Hsl Hw Hm Hl a'.
  destruct (alloc_unlinked _ _ _ _ Hf Hb Hu) as (_ & _ & Hfr).
  assert (linked (a_v a) (a_v a') d d' sl0 b) as Hl'.
  { intros sl Hok. simpl. rewrite (Hl (vupd b (zeros BLOCK_SECTOR_SIZE) (a_v a))) by
      (done || apply vupd_eq).
    by rewrite slot_ptr_vupd by (done || by apply fresh_not_index). }
  split_and!; [..|done].
  - eapply (fok_link a); try done; simpl; auto using uadd_mono, uadd_self.
  - eapply ext_link; try done; simpl; auto using uadd_mono.
    intros t Ht _. apply vupd_ne. intros ->. congruence.
Qed.

(** A data block linked from an index block. *)
Lemma link_word a s d k b ib w :
  fok a s d -> slot_ok (SData k) -> 2 <= b < a_n a -> fresh (a_v a) d b -> a_u a b = true ->
  b <> s -> index_sector (a_v a) d ib ->
  linked (a_v a) (vupd ib w (a_v a)) d d (SData k) b ->
  let a' := a_write ib w a in
  fok a' s d /\ ext a d a' d.
Proof.
  intros Hf Hk Hb Hfr Hu Hbs Hib Hl a'. split.
  - eapply (fok_link a); try done. apply Hf.
  - eapply ext_link; try done. intros t Ht Hx. apply vupd_ne. intros ->. done.
Qed.

Section alloc.
#[local] Opaque abs.
#[local] Arguments slot_ptr : simpl never.
Context {D : Type} `{!BlockOps D, !BlockLaws D}.

Lemma wp_write_ptr fs t idx w (Q : unit -> FS D -> Prop) :
  fs_ok fs -> t < a_n (abs fs) -> 0 <= idx < PTRS_PER_BLOCK ->
  (forall fs', fs_ok fs' -> abs fs' = a_write t (set_word idx w (a_v (abs fs) t)) (abs fs) ->
     Q tt fs') ->
  wp (write_ptr t idx w) fs Q.
Proof.
  intros Hok Ht Hidx HQ. unfold write_ptr. rewrite (proj2 (Z.ltb_lt _ _)) by lia.
  apply wp_write_sec; [done|done| |by apply set_word_u8, abs_u8|done].
  apply set_word_length; [done|by apply abs_length].
Qed.

(** What [allocate_block_for] establishes. *)
Definition alloc_block_post (a : afs) (s : Z) (d : InodeDisk) (k : Z)
    (r : option Z * InodeDisk) (fs' : FS D) : Prop :=
  fs_ok fs' /\ fok (abs fs') s r.2 /\ ext a d (abs fs') r.2 /\
  match r.1 with
  | Some b =>
      2 <= b < a_n a /\ a_u a b = false /\ a_u (abs fs') b = true /\
      forall k', slot_ok (SData k') -> slot_ptr (a_v (abs fs')) r.2 (SData k') =
        if decide (k' = k) then b else slot_ptr (a_v a) d (SData k')
  | None =>
      a_full (abs fs') /\
      forall k', slot_ok (SData k') ->
        slot_ptr (a_v (abs fs')) r.2 (SData k') = slot_ptr (a_v a) d (SData k')
  end.

Lemma in_u32_sector fs b : fs_ok fs -> 0 <= b < a_n (abs fs) -> in_u32 b.
Proof.
  intros Hok Hb. pose proof (fso_lim _ Hok) as Hl. unfold in_u32.
  change (SECTOR_COUNT (fs_fm fs)) with (a_n (abs fs)) in Hl. lia.
Qed.

Lemma disk_wf_set_indirect b d : disk_wf d -> in_u32 b -> disk_wf (set_indirect b d).
Proof. by intros [] ?. Qed.
Lemma disk_wf_set_doubly b d : disk_wf d -> in_u32 b -> disk_wf (set_doubly b d).
Proof. by intros [] ?. Qed.
Lemma disk_wf_set_direct k b d : disk_wf d -> in_u32 b ->
  disk_wf (set_direct (<[k := b]> (direct_blocks d)) d).
Proof.
  intros [] ?. split; simpl; try done; [by rewrite length_insert|by apply Forall_insert].
Qed.

(** The last link of an allocation: from index block [ib] to the data sector [b] that was
    allocated first. *)
Lemma finish_block a s d k b (fs : FS D) d1 ib idx (Q : unit -> FS D -> Prop) :
  fs_ok fs -> fok (abs fs) s d1 -> ext a d (abs fs) d1 -> slot_ok (SData k) ->
  2 <= b < a_n a -> a_u a b = false -> a_u (abs fs) b = true -> b <> s ->
  fresh (a_v (abs fs)) d1 b ->
  (forall k', slot_ok (SData k') ->
     slot_ptr (a_v (abs fs)) d1 (SData k') = slot_ptr (a_v a) d (SData k')) ->
  index_sector (a_v (abs fs)) d1 ib -> 0 <= idx < PTRS_PER_BLOCK ->
  linked (a_v (abs fs)) (vupd ib (set_word idx b (a_v (abs fs) ib)) (a_v (abs fs))) d1 d1
    (SData k) b ->
  (forall fs', alloc_block_post a s d k (Some b, d1) fs' -> Q tt fs') ->
  wp (write_ptr ib idx b) fs Q.
Proof.
  intros Hok Hf He Hk Hb Hu Hu' Hbs Hfr Hsl Hib Hidx Hl HQ.
  assert (2 <= ib < a_n (abs fs)) as Hlt.
  { destruct Hib as (sl & Hs & _ & <- & Hnz). by eapply fok_lt. }
  apply wp_write_ptr; [done|lia|done|]. intros fs' Hok' Ha. apply HQ.
  destruct (link_word (abs fs) s d1 k b ib (set_word idx b (a_v (abs fs) ib)) Hf Hk) as [Hf' He']; try done.
  { by rewrite (e_n _ _ _ _ He). }
  unfold alloc_block_post. cbn [fst snd]. rewrite Ha. split_and!; try done; try lia.
  - by eapply ext_trans.
  - intros k' Hk'. change (a_v (a_write ib ?w ?a)) with (vupd ib w (a_v a)). rewrite (Hl (SData k') Hk').
    destruct (decide (k' = k)) as [->|Hne]; [by rewrite decide_True|].
    rewrite decide_False by congruence. by apply Hsl.
Qed.

Lemma full_alloc a b : a_full a -> a_full (a_alloc b a).
Proof. intros H s Hs. simpl. apply uadd_mono. by apply H. Qed.

Lemma wp_allocate_block_for fs s d k :
  fs_ok fs -> fok (abs fs) s d -> slot_ok (SData k) -> a_u (abs fs) s = true ->
  wp (allocate_block_for d k) fs (alloc_block_post (abs fs) s d k).
Proof.
  intros Hok Hf Hk Hs. unfold allocate_block_for.
  pose proof (f_wf _ _ _ _ _ Hf) as Hw.
  apply wp_bind, wp_alloc; [done| |].
  2:{ intros Hfull. apply wp_ret. split_and!; simpl; try done. apply ext_refl. }
  intros b fs1 Hok1 Hb Hub Ha1.
  destruct (alloc_unlinked _ _ _ _ Hf Hb Hub) as (Hf1 & He1 & Hfr).
  rewrite <- Ha1 in Hf1, He1.
  assert (a_v (abs fs1) = a_v (abs fs)) as Hv1 by by rewrite Ha1.
  assert (a_n (abs fs1) = a_n (abs fs)) as Hn1 by by rewrite Ha1.
  assert (a_u (abs fs1) b = true) as Hub1 by (rewrite Ha1; apply uadd_self).
  assert (b <> s) as Hbs by congruence.
  assert (in_u32 b) as Hb32 by (eapply (in_u32_sector fs); [done|lia]).
  rewrite <- Hv1 in Hfr.
  destruct (Z.ltb_spec k DIRECT_PTR_CNT) as [Hkd|Hkd].
  { (* direct *)
    simpl in Hk. apply wp_bind, wp_index_set.
    { rewrite (wf_direct_len _ Hw). unfold DIRECT_PTR_CNT in *. lia. }
    apply wp_ret. set (d' := set_direct _ d).
    assert (linked (a_v (abs fs1)) (a_v (abs fs1)) d d' (SData k) b) as Hl.
    { by apply link_direct; [lia|]. }
    split_and!; simpl; try done; try lia.
    - eapply (fok_link (abs fs1)); try done; [by apply disk_wf_set_direct|exact Hk|rewrite Hn1; lia].
    - eapply ext_trans; [exact He1|]. by eapply ext_link.
    - split_and!; try done; try lia. intros k' Hk'. rewrite (Hl (SData k') Hk'). destruct (decide (k' = k)) as [->|Hne].
      + by rewrite decide_True.
      + rewrite decide_False by congruence. by rewrite Hv1. }
  assert (forall k', slot_ok (SData k') ->
    slot_ptr (a_v (abs fs1)) d (SData k') = slot_ptr (a_v (abs fs)) d (SData k')) as Hsl1
    by by rewrite Hv1.
  destruct (Z.ltb_spec k (DIRECT_PTR_CNT + PTRS_PER_BLOCK)) as [Hki|Hki].
  - (* indirect *)
    assert (forall fs2 d1, fs_ok fs2 -> fok (abs fs2) s d1 -> ext (abs fs) d (abs fs2) d1 ->
      indirect_block d1 <> 0 -> a_u (abs fs2) b = true -> fresh (a_v (abs fs2)) d1 b ->
      (forall k', slot_ok (SData k') ->
         slot_ptr (a_v (abs fs2)) d1 (SData k') = slot_ptr (a_v (abs fs)) d (SData k')) ->
      wp (write_ptr (indirect_block d1) (k - DIRECT_PTR_CNT) b ;; ret (Some b, d1)) fs2
        (alloc_block_post (abs fs) s d k)) as Hfin.
    { intros fs2 d1 Hok2 Hf2 He2 Hnz Hu2 Hfr2 Hsl2. apply wp_bind.
      eapply (finish_block (abs fs) s d k b fs2 d1); try done.
      - by exists SInd.
      - lia.
      - eapply link_in_indirect; try done; [by apply abs_length|].
        intros t. unfold vupd. by case_decide; subst. }
    destruct (Z.eqb_spec (indirect_block d) 0) as [Hz|Hz].
    + apply wp_bind, wp_bind, wp_alloc; [done| |].
      2:{ intros Hfull. do 2 apply wp_ret. split_and!; simpl; done. }
      intros ib fs2 Hok2 Hib Huib Ha2.
      assert (ib <> b /\ a_u (abs fs) ib = false) as [Hibb Hibu]
        by (apply uadd_false; by rewrite Ha1 in Huib).
      assert (2 <= ib < a_n (abs fs1)) as Hib' by done.
      apply wp_bind, wp_zero_sector; [done|rewrite Ha2; simpl; lia|]. intros fs3 Hok3 Ha3.
      do 2 apply wp_ret. rewrite Ha2 in Ha3.
      destruct (new_index (abs fs1) s d (set_indirect ib d) SInd ib) as (Hf3 & He3 & Hl3); try done.
      { congruence. }
      { apply disk_wf_set_indirect; [done|]. eapply (in_u32_sector fs1); [done|lia]. }
      { intros v Hv. by apply link_indirect. }
      rewrite <- Ha3 in Hf3, He3, Hl3. apply Hfin; try done.
      * by eapply ext_trans.
      * simpl. lia.
      * rewrite Ha3. simpl. apply uadd_mono. done.
      * eapply fresh_linked; [exact Hfr|exact Hl3|done].
      * intros k' Hk'. rewrite (Hl3 (SData k') Hk'). rewrite decide_False by done. by apply Hsl1.
    + apply wp_bind, wp_ret. by apply Hfin.
  - (* doubly indirect *)
    destruct (dbl_bounds k) as [Hko Hki']; [simpl in Hk; lia|].
    fold (dbl_outer k). fold (dbl_inner k).
    assert (forall fs2 d1, fs_ok fs2 -> fok (abs fs2) s d1 -> ext (abs fs) d (abs fs2) d1 ->
      doubly_indirect_block d1 <> 0 -> a_u (abs fs2) b = true -> fresh (a_v (abs fs2)) d1 b ->
      (forall k', slot_ok (SData k') ->
         slot_ptr (a_v (abs fs2)) d1 (SData k') = slot_ptr (a_v (abs fs)) d (SData k')) ->
      wp (let! inner := inner_block (doubly_indirect_block d1) (dbl_outer k) in
          match inner with
          | None => ret (None, d1)
          | Some inner_sector => write_ptr inner_sector (dbl_inner k) b ;; ret (Some b, d1)
          end) fs2 (alloc_block_post (abs fs) s d k)) as Hfin.
    { intros fs2 d1 Hok2 Hf2 He2 Hnz Hu2 Hfr2 Hsl2.
      apply wp_bind, (wp_inner_block fs2 s d1); [done..| | |].
      - intros fs3 Hok3 Ha3 Hin. apply wp_bind. rewrite <- Ha3 in *.
        eapply (finish_block (abs fs) s d k b fs3 d1); try done.
        + by exists (SInner (dbl_outer k)).
        + eapply link_in_inner; try done; [simpl in Hk; lia|by apply abs_length|].
          intros t. unfold vupd. by case_decide; subst.
      - intros ib fs3 Hok3 Hin Hib Huib Ha3. apply wp_bind.
        assert (in_u32 ib) as Hib32 by (eapply (in_u32_sector fs2); [done|lia]).
        destruct (alloc_unlinked _ _ _ _ Hf2 Hib Huib) as (_ & _ & Hfib).
        assert (ib <> b) as Hibb by congruence.
        assert (ib <> s) as Hibs.
        { intros ->. rewrite (e_u _ _ _ _ He2 s Hs) in Huib. done. }
        assert (linked (a_v (abs fs2)) (a_v (abs fs3)) d1 d1 (SInner (dbl_outer k)) ib) as Hl3.
        { rewrite Ha3. eapply link_inner; try done; [by apply abs_length|].
          intros t. simpl. unfold vupd. by repeat case_decide; subst. }
        assert (fok (abs fs3) s d1) as Hf3.
        { eapply (fok_link (abs fs2) s d1 _ _ (SInner (dbl_outer k)) ib); try done; [| |apply Hf2|..];
            rewrite Ha3; simpl; auto using uadd_mono, uadd_self. }
        assert (ext (abs fs2) d1 (abs fs3) d1) as He3.
        { eapply ext_link; try done; rewrite Ha3; simpl; auto using uadd_mono.
          intros t Ht Hx. rewrite !vupd_ne; [done|..].
          - intros ->. apply Hx. by exists SDbl.
          - intros ->. congruence. }
        assert (inner_ptr (a_v (abs fs3)) d1 (dbl_outer k) = ib) as Hip.
        { specialize (Hl3 (SInner (dbl_outer k)) Hko). by rewrite decide_True in Hl3. }
        rewrite <- Hip at 1.
        eapply (finish_block (abs fs) s d k b fs3 d1); try done.
        + by eapply ext_trans.
        + by apply (e_u _ _ _ _ He3).
        + by eapply fresh_linked.
        + intros k' Hk'. rewrite (Hl3 (SData k') Hk'), decide_False by done. by apply Hsl2.
        + exists (SInner (dbl_outer k)). split_and!; try done. rewrite Hip. lia.
        + eapply link_in_inner; try done; [simpl in Hk; lia|rewrite Hip; lia|by apply abs_length|].
          intros t. unfold vupd. by case_decide; subst.
      - intros fs3 Hok3 Ha3 Hfull. apply wp_ret. split_and!; simpl; try done; rewrite Ha3; try done. }
    destruct (Z.eqb_spec (doubly_indirect_block d) 0) as [Hz|Hz].
    + apply wp_bind, wp_bind, wp_alloc; [done| |].
      2:{ intros Hfull. do 2 apply wp_ret. split_and!; simpl; done. }
      intros ib fs2 Hok2 Hib Huib Ha2.
      assert (ib <> b /\ a_u (abs fs) ib = false) as [Hibb Hibu]
        by (apply uadd_false; by rewrite Ha1 in Huib).
      apply wp_bind, wp_zero_sector; [done|rewrite Ha2; simpl in *; lia|]. intros fs3 Hok3 Ha3.
      do 2 apply wp_ret. rewrite Ha2 in Ha3.
      destruct (new_index (abs fs1) s d (set_doubly ib d) SDbl ib) as (Hf3 & He3 & Hl3); try done.
      { congruence. }
      { apply disk_wf_set_doubly; [done|]. eapply (in_u32_sector fs1); [done|lia]. }
      { intros v Hv. by apply link_doubly. }
      rewrite <- Ha3 in Hf3, He3, Hl3. apply Hfin; try done.
      * by eapply ext_trans.
      * simpl. lia.
      * rewrite Ha3. simpl. apply uadd_mono. done.
      * eapply fresh_linked; [exact Hfr|exact Hl3|done].
      * intros k' Hk'. rewrite (Hl3 (SData k') Hk'). rewrite decide_False by done. by apply Hsl1.
    + apply wp_bind, wp_ret. by apply Hfin.
Qed.

End alloc.
