(* ===== verification/InodeWrite.v ===== *)
(** Reading and writing files (src/filesys/inode.rs, [read_at] and [write_at]): the loops over
    sectors implement a flat array of bytes, and a write disturbs nothing but its own file. *)
From S2P Require Import Prelude Utf8 Block Bio FreeMap Inode InodeLayout FileMap InodeOps InodeAlloc.

(** The largest file, in bytes; it is far below [i32::MAX]. *)
Definition MAX_BYTES : Z := MAX_BLOCKS * BLOCK_SECTOR_SIZE.

(** Byte [o] of the file [d]. *)
Definition fbyte (a : afs) (d : InodeDisk) (o : Z) : Z := file_byte (a_v a) d o.

(** [a', d'] comes from [a, d] by changes to the file only: allocated sectors stay allocated,
    new sectors of the file come from free space, and no allocated sector outside the file
    changes. *)
Record fext (a : afs) (d : InodeDisk) (a' : afs) (d' : InodeDisk) : Prop := {
  x_n : a_n a' = a_n a;
  x_in : a_in a' = a_in a;
  x_u : forall t, a_u a t = true -> a_u a' t = true;
  x_fs : forall t, file_sector (a_v a') d' t -> file_sector (a_v a) d t \/ a_u a t = false;
  x_v : forall t, a_u a t = true -> ~ file_sector (a_v a) d t -> a_v a' t = a_v a t;
  x_meta : meta d' = meta d;
}.

Lemma fext_refl a d : fext a d a d.
Proof. split; auto. Qed.

Lemma fext_trans a d a' d' a'' d'' : fext a d a' d' -> fext a' d' a'' d'' -> fext a d a'' d''.
Proof.
  intros [n1 i1 u1 x1 v1 m1] [n2 i2 u2 x2 v2 m2]. split; [congruence|congruence|auto|..].
  - intros t [Ht|Ht]%x2; [by apply x1|]. right. destruct (a_u a t) eqn:E; [|done].
    rewrite (u1 t E) in Ht. done.
  - intros t Hu Hx. rewrite v2; [by apply v1|by apply u1|].
    intros [?|?]%x1; congruence.
  - congruence.
Qed.

Lemma index_file v d t : index_sector v d t -> file_sector v d t.
Proof. intros (sl & ? & _ & ? & ?). by exists sl. Qed.

Lemma data_not_index a s d k :
  fok a s d -> slot_ok (SData k) -> slot_ptr (a_v a) d (SData k) <> 0 ->
  ~ index_sector (a_v a) d (slot_ptr (a_v a) d (SData k)).
Proof.
  intros Hf Hk Hnz (sl & Hsl & Hix & E & _).
  assert (sl = SData k) as -> by (apply (f_inj _ _ _ _ _ Hf); congruence). done.
Qed.

(** An extension that changes data slots only by adding free sectors. *)
Lemma ext_fext a d a' d' :
  ext a d a' d' ->
  (forall k, slot_ok (SData k) ->
     let p := slot_ptr (a_v a') d' (SData k) in
     p = slot_ptr (a_v a) d (SData k) \/ a_u a p = false) ->
  fext a d a' d'.
Proof.
  intros [Hn Hi Hu Hx Hv Hm] Hd. split; try done.
  - intros t (sl & Hsl & Hp & Ht). destruct sl as [k| | |o].
    + destruct (Hd k Hsl) as [E|E]; rewrite Hp in E; [|by right]. left. by exists (SData k).
    + destruct (Hx t) as [?|?]; [by exists SInd|left; by apply index_file|by right].
    + destruct (Hx t) as [?|?]; [by exists SDbl|left; by apply index_file|by right].
    + destruct (Hx t) as [?|?]; [by exists (SInner o)|left; by apply index_file|by right].
  - intros t Ht Hnf. apply Hv; [done|]. intros Hix. by apply Hnf, index_file.
Qed.

(** Bytes are unchanged where the data slot is unchanged. *)
Lemma ext_fbyte a s d a' d' o :
  fok a s d -> ext a d a' d' -> slot_ok (SData (o / BLOCK_SECTOR_SIZE)) ->
  slot_ptr (a_v a') d' (SData (o / BLOCK_SECTOR_SIZE)) =
    slot_ptr (a_v a) d (SData (o / BLOCK_SECTOR_SIZE)) ->
  fbyte a' d' o = fbyte a d o.
Proof.
  intros Hf He Hk E. unfold fbyte, file_byte. rewrite E.
  destruct (Z.eqb_spec (slot_ptr (a_v a) d (SData (o / BLOCK_SECTOR_SIZE))) 0) as [|Hnz]; [done|].
  rewrite (e_v _ _ _ _ He); [done| |by eapply data_not_index].
  by apply (f_ptr _ _ _ _ _ Hf).
Qed.

Lemma block_of_offset o : 0 <= o < MAX_BYTES -> slot_ok (SData (o / BLOCK_SECTOR_SIZE)).
Proof. unfold MAX_BYTES, slot_ok. unfold_sizes. intros. Z.div_mod_to_equations. lia. Qed.

(** The index arithmetic of the loops. *)
Lemma sector_arith off : 0 <= off < MAX_BYTES ->
  as_u32 (Z.quot off BLOCK_SECTOR_SIZE) = off / BLOCK_SECTOR_SIZE /\
  as_u32 (Z.rem off BLOCK_SECTOR_SIZE) = off mod BLOCK_SECTOR_SIZE.
Proof.
  unfold MAX_BYTES, as_u32, u32_lim. unfold_sizes. intros H.
  rewrite Z.quot_div_nonneg, Z.rem_mod_nonneg by lia.
  split; apply Z.mod_small; Z.div_mod_to_equations; lia.
Qed.

(** Two offsets in one block. *)
Lemma same_block o off c :
  0 <= off -> 0 <= c -> off mod BLOCK_SECTOR_SIZE + c <= BLOCK_SECTOR_SIZE ->
  off <= o < off + c ->
  o / BLOCK_SECTOR_SIZE = off / BLOCK_SECTOR_SIZE /\
  o mod BLOCK_SECTOR_SIZE = off mod BLOCK_SECTOR_SIZE + (o - off).
Proof. unfold BLOCK_SECTOR_SIZE. intros. Z.div_mod_to_equations. lia. Qed.

Section rw.
#[local] Opaque abs.
#[local] Arguments slot_ptr : simpl never.
Context {D : Type} `{!BlockOps D, !BlockLaws D}.

(** [block_for_write] adds the block if it is missing and changes no byte of the file. *)
Definition block_post (a : afs) (s : Z) (d : InodeDisk) (k : Z)
    (r : option Z * InodeDisk) (fs' : FS D) : Prop :=
  fs_ok fs' /\ fok (abs fs') s r.2 /\ fext a d (abs fs') r.2 /\
  (forall o, 0 <= o < MAX_BYTES -> fbyte (abs fs') r.2 o = fbyte a d o) /\
  match r.1 with
  | Some b => b <> 0 /\ slot_ptr (a_v (abs fs')) r.2 (SData k) = b
  | None => a_full (abs fs')
  end.

(** Zeroing the new block: still invisible. *)
Lemma zero_new_block a s d k b d' (fs : FS D) (Q : unit -> FS D -> Prop) :
  fok a s d -> slot_ok (SData k) -> slot_ptr (a_v a) d (SData k) = 0 ->
  alloc_block_post a s d k (Some b, d') fs ->
  (forall fs', block_post a s d k (Some b, d') fs' -> Q tt fs') ->
  wp (zero_sector b) fs Q.
Proof.
  intros Hf Hk H0 (Hok & Hf1 & He & Hb & Hub & Hub' & Hsl) HQ. cbn [fst snd] in *.
  assert (slot_ptr (a_v (abs fs)) d' (SData k) = b) as Hpb
    by (rewrite (Hsl k Hk); by rewrite decide_True).
  apply wp_zero_sector; [done|rewrite (e_n _ _ _ _ He); lia|]. intros fs' Hok' Ha'. apply HQ.
  assert (~ index_sector (a_v (abs fs)) d' b) as Hnx.
  { rewrite <- Hpb. eapply data_not_index; [done..|]. rewrite Hpb. lia. }
  assert (forall sl, slot_ok sl ->
    slot_ptr (a_v (abs fs')) d' sl = slot_ptr (a_v (abs fs)) d' sl) as Hsame.
  { intros sl Hs. rewrite Ha'. by apply slot_ptr_vupd. }
  assert (ext a d (abs fs') d') as He'.
  { destruct He as [Hn Hi Hu Hx Hv Hm]. rewrite Ha'. split; simpl; try done.
    - intros t (sl & Hs & Hix & Hp & Ht). apply Hx. exists sl. split_and!; try done.
      rewrite <- Hp. symmetry. by apply slot_ptr_vupd.
    - intros t Ht Hnix. rewrite vupd_ne; [by apply Hv|]. congruence. }
  unfold block_post. cbn [fst snd]. split_and!; [done|..|lia|by rewrite Hsame].
  - rewrite Ha'. eapply file_ok_ext; [exact Hf1|done|apply Hf1|..].
    + intros t Ht. simpl. apply vupd_ne. congruence.
    + done.
  - apply ext_fext; [done|]. intros k' Hk'. cbv zeta. rewrite Hsame, Hsl by done.
    case_decide; [by right|by left].
  - intros o Ho. pose proof (block_of_offset _ Ho) as Hbo.
    destruct (decide (o / BLOCK_SECTOR_SIZE = k)) as [E|E].
    + unfold fbyte, file_byte. rewrite E, H0, Hsame, Hpb by done. simpl.
      rewrite (proj2 (Z.eqb_neq b 0)) by lia. rewrite Ha'. simpl.
      by rewrite vupd_eq, byte_at_zeros.
    + eapply ext_fbyte; [done|done|done|]. rewrite Hsame, Hsl by done. by rewrite decide_False.
Qed.

Lemma wp_block_for_write fs s d k :
  fs_ok fs -> fok (abs fs) s d -> slot_ok (SData k) -> a_u (abs fs) s = true ->
  wp (block_for_write d k) fs (block_post (abs fs) s d k).
Proof.
  intros Hok Hf Hk Hs. unfold block_for_write.
  apply wp_bind, (wp_get_block fs s); [done|done|apply Hk|]. intros fs1 Hok1 Ha1.
  unfold nonzero. destruct (Z.eqb_spec (slot_ptr (a_v (abs fs)) d (SData k)) 0) as [E|E].
  2:{ apply wp_ret. unfold block_post. rewrite Ha1. split_and!; try done. apply fext_refl. }
  rewrite <- Ha1 in *.
  apply wp_bind. eapply wp_mono; [by apply (wp_allocate_block_for fs1 s)|].
  intros [[b|] d'] fs2 Hpost.
  - apply wp_bind. eapply zero_new_block; [exact Hf|exact Hk|done|exact Hpost|].
    intros fs' Hp. by apply wp_ret.
  - apply wp_ret. destruct Hpost as (Hok2 & Hf2 & He & Hfull & Hsl). cbn [fst snd] in *.
    unfold block_post. cbn [fst snd]. split_and!; try done.
    + apply ext_fext; [done|]. intros k' Hk'. left. by apply Hsl.
    + intros o Ho. pose proof (block_of_offset _ Ho) as Hbo. by eapply ext_fbyte; auto.
Qed.

(** One chunk stored in a data block. *)
Lemma wp_write_chunk fs s d off new (Q : unit -> FS D -> Prop) :
  fs_ok fs -> fok (abs fs) s d -> 0 <= off < MAX_BYTES ->
  slot_ptr (a_v (abs fs)) d (SData (off / BLOCK_SECTOR_SIZE)) <> 0 ->
  off mod BLOCK_SECTOR_SIZE + Z.of_nat (List.length new) <= BLOCK_SECTOR_SIZE ->
  Forall in_u8 new ->
  (forall fs', fs_ok fs' -> fok (abs fs') s d -> fext (abs fs) d (abs fs') d ->
     (forall o, 0 <= o < MAX_BYTES -> fbyte (abs fs') d o =
        if decide (off <= o < off + Z.of_nat (List.length new)) then byte_at new (o - off)
        else fbyte (abs fs) d o) -> Q tt fs') ->
  wp (bio (write_through (slot_ptr (a_v (abs fs)) d (SData (off / BLOCK_SECTOR_SIZE)))
        (splice (off mod BLOCK_SECTOR_SIZE) new))) fs Q.
Proof.
  intros Hok Hf Ho Hnz Hlen H8 HQ. set (b := slot_ptr _ _ _) in *.
  pose proof (block_of_offset _ Ho) as Hk.
  destruct (f_ptr _ _ _ _ _ Hf _ Hk Hnz) as (Hb & Hub & Hbs). fold b in Hb, Hub, Hbs.
  pose proof (Z.mod_pos_bound off BLOCK_SECTOR_SIZE ltac:(done)) as Hmod.
  pose proof (abs_length fs b Hok) as Hbl.
  assert (~ index_sector (a_v (abs fs)) d b) as Hnx by by eapply data_not_index.
  apply wp_write_sec; [done|lia|..].
  { rewrite splice_length; [done|lia|]. rewrite Hbl. lia. }
  { apply Forall_splice; [done|by apply abs_u8]. }
  intros fs' Hok' Ha'.
  assert (forall sl, slot_ok sl ->
    slot_ptr (a_v (abs fs')) d sl = slot_ptr (a_v (abs fs)) d sl) as Hsame.
  { intros sl Hs. rewrite Ha'. by apply slot_ptr_vupd. }
  assert (file_sector (a_v (abs fs)) d b) as Hfb by by exists (SData (off / BLOCK_SECTOR_SIZE)).
  apply HQ; [done|..].
  - rewrite Ha'. eapply file_ok_ext; [exact Hf|done|apply Hf| |done].
    intros t Ht. simpl. apply vupd_ne. congruence.
  - split; rewrite ?Ha'; simpl; try done.
    + intros t (sl & Hs & Hp & Ht). left. exists sl. split_and!; try done.
      rewrite <- Hp. symmetry. by apply slot_ptr_vupd.
    + intros t Ht Hnf. apply vupd_ne. congruence.
  - intros o Hor. pose proof (block_of_offset _ Hor) as Hko. unfold fbyte, file_byte.
    rewrite (Hsame _ Hko), Ha'. simpl. set (p := slot_ptr _ d (SData (o / _))).
    destruct (decide (o / BLOCK_SECTOR_SIZE = off / BLOCK_SECTOR_SIZE)) as [E|E].
    + assert (p = b) as -> by (unfold p, b; by rewrite E).
      rewrite (proj2 (Z.eqb_neq b 0)) by done. rewrite vupd_eq.
      pose proof (Z.mod_pos_bound o BLOCK_SECTOR_SIZE ltac:(done)).
      rewrite byte_at_splice by (rewrite ?Hbl; lia).
      pose proof (Z.div_mod o BLOCK_SECTOR_SIZE ltac:(done)).
      pose proof (Z.div_mod off BLOCK_SECTOR_SIZE ltac:(done)). rewrite E in *.
      repeat case_decide; try lia. f_equal. lia.
    + rewrite decide_False.
      2:{ intros Hin. apply E. eapply same_block; [..|exact Hin]; lia. }
      destruct (Z.eqb_spec p 0) as [|Hpz]; [done|]. rewrite vupd_ne; [done|].
      intros Epb. apply E. assert (SData (o / BLOCK_SECTOR_SIZE) = SData (off / BLOCK_SECTOR_SIZE)) as [= ?]; [|done].
      by apply (f_inj _ _ _ _ _ Hf).
Qed.

(** What the write loop has done when it stops: bytes [off .. off + n] of the file come from
    the buffer, the rest of the file is as before, and a short count means a full disk. *)
Definition write_post (a : afs) (s : Z) (d : InodeDisk) (buf : list Z) (size bw off : Z)
    (r : Z * InodeDisk) (fs' : FS D) : Prop :=
  fs_ok fs' /\ fok (abs fs') s r.2 /\ fext a d (abs fs') r.2 /\ bw <= r.1 <= size /\
  (r.1 < size -> a_full (abs fs')) /\
  (forall o, 0 <= o < MAX_BYTES -> fbyte (abs fs') r.2 o =
     if decide (off <= o < off + (r.1 - bw)) then byte_at buf (bw + (o - off))
     else fbyte a d o).

Lemma wp_write_loop fuel : forall fs s d buf size bw off,
  fs_ok fs -> fok (abs fs) s d -> a_u (abs fs) s = true -> Forall in_u8 buf ->
  0 <= bw <= size -> size <= Z.of_nat (List.length buf) -> 0 <= off ->
  off + (size - bw) <= MAX_BYTES -> size <= i32_max -> size - bw <= Z.of_nat fuel ->
  wp (write_loop fuel d buf size bw off bw) fs (write_post (abs fs) s d buf size bw off).
Proof.
  induction fuel as [|fuel IH]; intros fs s d buf size bw off Hok Hf Hs H8 Hbw Hbuf Hoff Hmax Hsz Hfuel;
    simpl; destruct (Z.ltb_spec bw size) as [Hlt|Hge]; [lia| | |].
  1, 3: apply wp_ret; unfold write_post; cbn [fst snd]; split_and!; try done; try lia;
    [apply fext_refl|]; intros o Ho; rewrite decide_False by lia; done.
  destruct (sector_arith off) as [Eq Er]; [lia|]. rewrite Eq, Er.
  pose proof (Z.mod_pos_bound off BLOCK_SECTOR_SIZE ltac:(done)) as Hmod.
  assert (0 <= off < MAX_BYTES) as Hof by lia.
  pose proof (block_of_offset _ Hof) as Hk.
  apply wp_bind, wp_i32_sub; [unfold in_i32, i32_min; lia|].
  apply wp_bind, wp_u32_sub; [lia|].
  rewrite (as_u32_small (size - bw)) by (unfold u32_lim, i32_max in *; lia).
  set (c := Z.min _ _). set (k := off / BLOCK_SECTOR_SIZE) in *.
  apply wp_bind. eapply wp_mono; [by apply (wp_block_for_write fs s)|].
  intros [[b|] d1] fs1 (Hok1 & Hf1 & Hx1 & Hb1 & Hr); cbn [fst snd] in *.
  2:{ apply wp_ret. unfold write_post; cbn [fst snd]; split_and!; try done; try lia.
      intros o Ho; rewrite decide_False by lia; by apply Hb1. }
  destruct Hr as [Hbz <-].
  assert (0 < c <= BLOCK_SECTOR_SIZE /\ c <= size - bw) as [Hc Hcs] by lia.
  assert (List.length (slice bw c buf) = Z.to_nat c) as Hcl by (apply slice_length; lia).
  assert (0 <= c <= i32_max) as Hc31 by (unfold i32_max, BLOCK_SECTOR_SIZE in *; lia).
  apply wp_bind. unfold subslice. apply wp_bind, wp_assert; [apply Z.leb_le; lia|]. apply wp_ret.
  apply wp_bind, (wp_write_chunk fs1 s); try done.
  { rewrite Hcl. lia. }
  { by apply Forall_slice. }
  intros fs2 Hok2 Hf2 Hx2 Hb2. rewrite Hcl, Z2Nat.id in Hb2 by lia.
  assert (off + c <= i32_max /\ bw + c <= i32_max) as [Ho31 Hbw31].
  { unfold MAX_BYTES, i32_max in *. unfold_sizes. lia. }
  rewrite (as_i32_small c) by done.
  do 2 (apply wp_bind, wp_i32_add; [unfold in_i32, i32_min; lia|]).
  apply wp_bind, wp_u32_add; [unfold u32_lim, i32_max in *; lia|].
  eapply wp_mono; [apply (IH fs2 s d1 buf size (bw + c) (off + c)); try done; try lia|].
  { by apply (x_u _ _ _ _ Hx2), (x_u _ _ _ _ Hx1). }
  intros [n d3] fs3 (Hok3 & Hf3 & Hx3 & Hn & Hfull & Hb3). cbn [fst snd] in *.
  unfold write_post. cbn [fst snd]. split_and!; try done; try lia.
  - eapply fext_trans; [exact Hx1|]. by eapply fext_trans.
  - intros o Ho. rewrite (Hb3 o Ho), (Hb2 o Ho), (Hb1 o Ho).
    repeat case_decide; try lia; try done.
    + f_equal. lia.
    + rewrite byte_at_slice by lia. done.
Qed.

End rw.
