(* ===== verification/InodeProofs.v ===== *)
(** The file interface of src/filesys/inode.rs: [read_at] and [write_at] as operations on an
    array of bytes with a length, isolation between files, and write protection. *)
From S2P Require Import Prelude Utf8 Block Bio FreeMap Inode InodeLayout FileMap InodeOps InodeAlloc InodeWrite.

(** The inode stored at [s], its length and its bytes. *)
Definition inode_of (a : afs) (s : Z) : InodeDisk := of_bytes (a_v a s).
Definition flen (a : afs) (s : Z) : Z := d_length (inode_of a s).
Definition contents (a : afs) (s o : Z) : Z := fbyte a (inode_of a s) o.

(** Sector [s] holds the inode of a file in good order; an open inode caches its length. *)
Record file_at (a : afs) (s : Z) : Prop := {
  fa_ok : fok a s (inode_of a s);
  fa_used : a_u a s = true;
  fa_range : 0 <= s < a_n a;
  fa_len : 0 <= flen a s <= MAX_BYTES;
  fa_cached : forall i, a_in a !! s = Some i -> i_length i = flen a s;
}.

(** Enough of it to read the file: its sectors may be marked free. *)
Record readable (a : afs) (s : Z) : Prop := {
  rd_ranged : ranged a (inode_of a s);
  rd_range : 0 <= s < a_n a;
  rd_len : 0 <= flen a s <= MAX_BYTES;
  rd_cached : forall i, a_in a !! s = Some i -> i_length i = flen a s;
}.

Lemma file_at_readable a s : file_at a s -> readable a s.
Proof. intros [A B C D E]. split; [by eapply fok_ranged|done..]. Qed.

(** Two files that share no sector. *)
Definition separate (a : afs) (s1 s2 : Z) : Prop :=
  s1 <> s2 /\ ~ file_sector (a_v a) (inode_of a s1) s2 /\
  ~ file_sector (a_v a) (inode_of a s2) s1 /\
  forall t, file_sector (a_v a) (inode_of a s1) t -> ~ file_sector (a_v a) (inode_of a s2) t.

Lemma file_sector_ext v v' d d' t :
  (forall sl, slot_ok sl -> slot_ptr v' d' sl = slot_ptr v d sl) ->
  file_sector v' d' t <-> file_sector v d t.
Proof. intros H. split; intros (sl & Hs & Hp & Ht); exists sl; rewrite ?H in *; auto. Qed.

Lemma sector_not_own a s d : fok a s d -> ~ file_sector (a_v a) d s.
Proof.
  intros Hf (sl & Hs & Hp & Ht). destruct (f_ptr _ _ _ _ _ Hf sl Hs) as (_ & _ & H); congruence.
Qed.

(** Storing the inode: the map and the bytes are those of the stored record. *)
Lemma store_inode a s d d2 :
  fok a s d -> same_ptrs d d2 -> disk_wf d2 ->
  let a' := a_write s (to_bytes d2) a in
  inode_of a' s = d2 /\ fok a' s d2 /\
  (forall t, file_sector (a_v a') d2 t <-> file_sector (a_v a) d t) /\
  (forall o, 0 <= o < MAX_BYTES -> fbyte a' d2 o = fbyte a d o).
Proof.
  intros Hf Hsp Hw a'.
  assert (forall t, t <> s -> a_v a' t = a_v a t) as Hv by (intros; by apply vupd_ne).
  assert (forall t, file_sector (a_v a) d t -> t <> s) as Hns
    by (intros t Ht ->; by eapply sector_not_own).
  assert (forall sl, slot_ok sl -> slot_ptr (a_v a') d2 sl = slot_ptr (a_v a) d sl) as Hsl.
  { intros sl Hs. apply slot_ptr_ext; try done. intros t Ht. by apply Hv, Hns, index_file. }
  split_and!.
  - unfold inode_of, a'. simpl. rewrite vupd_eq. by apply of_to_bytes.
  - eapply file_ok_ext; [exact Hf|done|done| |done].
    intros t Ht. by apply Hv, Hns, index_file.
  - intros t. by apply file_sector_ext.
  - intros o Ho. unfold fbyte, file_byte. pose proof (block_of_offset _ Ho) as Hk.
    rewrite (Hsl _ Hk). set (p := slot_ptr _ _ _).
    destruct (Z.eqb_spec p 0); [done|]. rewrite Hv; [done|]. apply Hns. by eexists (SData _).
Qed.

Section file.
#[local] Opaque abs.
#[local] Arguments slot_ptr : simpl never.
Context {D : Type} `{!BlockOps D, !BlockLaws D}.

Lemma wp_read_inode fs s (Q : InodeDisk -> FS D -> Prop) :
  fs_ok fs -> s < a_n (abs fs) ->
  (forall fs', fs_ok fs' -> abs fs' = abs fs -> Q (inode_of (abs fs) s) fs') ->
  wp (read_inode_disk s) fs Q.
Proof.
  intros Hok Hs HQ. apply wp_bind, wp_read_sec; [done|done|]. intros. by apply wp_ret, HQ.
Qed.

Lemma wp_write_inode fs s d (Q : unit -> FS D -> Prop) :
  fs_ok fs -> s < a_n (abs fs) -> disk_wf d ->
  (forall fs', fs_ok fs' -> abs fs' = a_write s (to_bytes d) (abs fs) -> Q tt fs') ->
  wp (write_inode_disk s d) fs Q.
Proof.
  intros Hok Hs Hd HQ. apply wp_write_sec; [done|done|by apply to_bytes_length|by apply to_bytes_u8|done].
Qed.

Lemma fs_ok_inodes fs m : fs_ok fs -> fs_ok (with_inodes m fs).
Proof. by intros []. Qed.

#[local] Transparent abs.
Lemma abs_inodes (fs : FS D) m : abs (with_inodes m fs) = a_set_inodes m (abs fs).
Proof. done. Qed.
Lemma abs_in (fs : FS D) : fs_inodes fs = a_in (abs fs).
Proof. done. Qed.
#[local] Opaque abs.

(** [length] returns the length on disk, cached or not. *)
Lemma wp_length_readable fs s (Q : Z -> FS D -> Prop) :
  fs_ok fs -> readable (abs fs) s ->
  (forall fs', fs_ok fs' -> abs fs' = abs fs -> Q (flen (abs fs) s) fs') ->
  wp (length s) fs Q.
Proof.
  intros Hok Hfa HQ. unfold length. apply wp_bind, wp_gets. rewrite abs_in.
  destruct (a_in (abs fs) !! s) as [i|] eqn:E.
  - apply wp_ret. rewrite (rd_cached _ _ Hfa i E). by apply HQ.
  - apply wp_bind, wp_read_inode; [done|apply Hfa|]. intros fs' Hok' Ha. by apply wp_ret, HQ.
Qed.

Lemma wp_length fs s (Q : Z -> FS D -> Prop) :
  fs_ok fs -> file_at (abs fs) s ->
  (forall fs', fs_ok fs' -> abs fs' = abs fs -> Q (flen (abs fs) s) fs') ->
  wp (length s) fs Q.
Proof. intros Hok Hfa. by apply wp_length_readable, file_at_readable. Qed.

(** [write_at] as an update of the byte array. *)
Record write_result (a : afs) (s : Z) (buf : list Z) (size offset n : Z) (a' : afs) : Prop := {
  wr_file : file_at a' s;
  wr_count : 0 <= n <= size;
  wr_short : n < size -> a_full a';
  wr_len : flen a' s = Z.max (flen a s) (offset + n);
  wr_bytes : forall o, 0 <= o < MAX_BYTES -> contents a' s o =
    if decide (offset <= o < offset + n) then byte_at buf (o - offset) else contents a s o;
  wr_used : forall t, a_u a t = true -> a_u a' t = true;
  wr_sectors : forall t, file_sector (a_v a') (inode_of a' s) t ->
    file_sector (a_v a) (inode_of a s) t \/ a_u a t = false;
  wr_frame : forall t, a_u a t = true -> t <> s -> ~ file_sector (a_v a) (inode_of a s) t ->
    a_v a' t = a_v a t;
  wr_n : a_n a' = a_n a;
  wr_inodes : a_in a' = alter (set_length (flen a' s)) s (a_in a);
}.

Definition deny_count (a : afs) (s : Z) : Z :=
  match a_in a !! s with Some i => i_deny_write_cnt i | None => 0 end.

(** The inode written at the end of [write_at]. *)
Lemma grown_inode d new_end :
  disk_wf d -> 0 <= new_end <= MAX_BYTES -> 0 <= d_length d <= MAX_BYTES ->
  let d' := if d_length d <? new_end then set_lengths new_end new_end d else d in
  same_ptrs d d' /\ disk_wf d' /\ d_length d' = Z.max (d_length d) new_end.
Proof.
  intros Hw Hn Hl d'.
  assert (in_i32 new_end) by (unfold in_i32, i32_min, i32_max, MAX_BYTES in *; unfold_sizes; lia).
  unfold d'. destruct (Z.ltb_spec (d_length d) new_end); split_and!; try done; simpl; try lia.
  by destruct Hw.
Qed.

Lemma wp_write_at fs s buf size offset :
  fs_ok fs -> file_at (abs fs) s -> deny_count (abs fs) s <= 0 -> Forall in_u8 buf ->
  0 <= size <= Z.of_nat (List.length buf) -> 0 <= offset -> offset + size <= MAX_BYTES ->
  wp (write_at s buf size offset) fs (fun n fs' =>
    fs_ok fs' /\ write_result (abs fs) s buf size offset n (abs fs')).
Proof.
  intros Hok Hfa Hden H8 Hsz Hoff Hmax. destruct Hfa as [Hf Hu Hr Hlen Hc]. unfold write_at.
  assert (MAX_BYTES <= i32_max) as Hmb by (unfold MAX_BYTES, i32_max; unfold_sizes; lia).
  apply wp_bind, wp_gets. rewrite abs_in. unfold deny_count in Hden.
  assert (match a_in (abs fs) !! s with Some i => 0 <? i_deny_write_cnt i | None => false end = false) as ->
    by (destruct (a_in (abs fs) !! s); [apply Z.ltb_ge; lia|done]).
  apply wp_bind, wp_read_inode; [done|apply Hr|]. intros fs1 Hok1 Ha1.
  apply wp_bind. eapply wp_mono.
  { apply (wp_write_loop (Z.to_nat size) fs1 s); rewrite ?Ha1; try done; lia. }
  rewrite Ha1. set (a := abs fs) in *. set (d := inode_of a s) in *.
  intros [n d1] fs2 (Hok2 & Hf2 & Hx & Hn & Hfull & Hb); cbn [fst snd] in *.
  pose proof (x_n _ _ _ _ Hx) as Hn2. pose proof (x_in _ _ _ _ Hx) as Hin2.
  assert (d_length d1 = flen a s) as Hlen1.
  { pose proof (x_meta _ _ _ _ Hx) as E. unfold meta in E. by injection E. }
  apply wp_bind, wp_i32_add; [unfold in_i32, i32_min; lia|].
  destruct (grown_inode d1 (offset + n)) as (Hsp & Hwf & Hl2); [apply Hf2|lia|lia|].
  set (d2 := if _ <? _ then _ else _) in *. cbv zeta.
  apply wp_bind, wp_write_inode; [done|rewrite Hn2; lia|done|]. intros fs3 Hok3 Ha3.
  destruct (store_inode _ s _ d2 Hf2 Hsp Hwf) as (Hi & Hf3 & Hfs3 & Hb3).
  apply wp_bind, wp_modify, wp_ret. rewrite abs_in, abs_inodes, Ha3. simpl. rewrite Hin2.
  split; [by apply fs_ok_inodes|].
  set (a' := a_set_inodes _ _).
  assert (inode_of a' s = d2) as Hia by exact Hi.
  assert (flen a' s = Z.max (flen a s) (offset + n)) as Hfl
    by (unfold flen at 1; rewrite Hia, Hl2, Hlen1; done).
  split; try done.
  - split; try done.
    + rewrite Hia. exact Hf3.
    + by apply (x_u _ _ _ _ Hx).
    + simpl. lia.
    + rewrite Hfl. lia.
    + intros i. rewrite Hfl. simpl. rewrite lookup_alter_eq, Hl2, Hlen1.
      destruct (a_in a !! s); intros [= <-]. done.
  - intros o Ho. unfold contents. rewrite Hia. change (fbyte a' d2 o) with
      (fbyte (a_write s (to_bytes d2) (abs fs2)) d2 o). rewrite Hb3, Hb by done.
    rewrite Z.sub_0_r. by repeat case_decide.
  - apply (x_u _ _ _ _ Hx).
  - intros t Ht. rewrite Hia in Ht. apply Hfs3 in Ht. by apply (x_fs _ _ _ _ Hx).
  - intros t Ht Hts Hnf. unfold a'. simpl. rewrite vupd_ne by done. by apply (x_v _ _ _ _ Hx).
  - unfold a' at 1. simpl. rewrite Hfl, Hl2, Hlen1. done.
Qed.

(** ** Reading *)
(** The bytes copied by one round of the read loop. *)
Definition chunk_of (a : afs) (d : InodeDisk) (off c : Z) : list Z :=
  match nonzero (slot_ptr (a_v a) d (SData (off / BLOCK_SECTOR_SIZE))) with
  | Some b => slice (off mod BLOCK_SECTOR_SIZE) c (a_v a b)
  | None => zeros c
  end.

Lemma chunk_of_spec (fs : FS D) d off c :
  fs_ok fs -> 0 <= off -> 0 <= c -> off mod BLOCK_SECTOR_SIZE + c <= BLOCK_SECTOR_SIZE ->
  List.length (chunk_of (abs fs) d off c) = Z.to_nat c /\
  forall k, 0 <= k < c -> byte_at (chunk_of (abs fs) d off c) k = fbyte (abs fs) d (off + k).
Proof.
  intros Hok Ho Hc Hb. unfold chunk_of, nonzero, fbyte, file_byte.
  pose proof (Z.mod_pos_bound off BLOCK_SECTOR_SIZE ltac:(done)).
  set (p := slot_ptr _ _ _). split.
  - destruct (Z.eqb_spec p 0); [apply zeros_length|]. apply slice_length; [lia..|].
    rewrite abs_length by done. unfold BLOCK_SECTOR_SIZE in *. lia.
  - intros k Hk. destruct (same_block (off + k) off c) as [E1 E2]; [lia..|]. rewrite E1, E2.
    fold p. destruct (Z.eqb_spec p 0); [apply byte_at_zeros|].
    rewrite byte_at_slice by lia. f_equal. lia.
Qed.

Definition read_post (a : afs) (d : InodeDisk) (buf : list Z) (len size br off : Z)
    (r : Z * list Z) (fs' : FS D) : Prop :=
  fs_ok fs' /\ abs fs' = a /\ r.1 = br + Z.max 0 (Z.min (size - br) (len - off)) /\
  List.length r.2 = List.length buf /\
  forall k, 0 <= k -> byte_at r.2 k =
    if decide (br <= k < r.1) then fbyte a d (off + (k - br)) else byte_at buf k.

Lemma wp_read_loop fuel : forall fs d len size br off buf,
  fs_ok fs -> ranged (abs fs) d -> 0 <= br <= size -> size <= Z.of_nat (List.length buf) ->
  size <= i32_max -> 0 <= off -> 0 <= len <= MAX_BYTES -> size - br <= Z.of_nat fuel ->
  wp (read_loop fuel d len size br off br buf) fs (read_post (abs fs) d buf len size br off).
Proof.
  induction fuel as [|fuel IH]; intros fs d len size br off buf Hok Hf Hbr Hbuf Hsz Hoff Hlen Hfuel;
    simpl; destruct ((br <? size) && (off <? len)) eqn:Eg.
  1: { apply andb_true_iff in Eg as [?%Z.ltb_lt ?]. lia. }
  1, 3: apply wp_ret; unfold read_post; cbn [fst snd];
    apply andb_false_iff in Eg as [?%Z.ltb_ge|?%Z.ltb_ge];
    split_and!; try done; try lia; intros k Hk; rewrite decide_False by lia; done.
  apply andb_true_iff in Eg as [Hlt%Z.ltb_lt Holt%Z.ltb_lt].
  assert (MAX_BYTES <= i32_max) as Hmb by (unfold MAX_BYTES, i32_max; unfold_sizes; lia).
  destruct (sector_arith off) as [Eq Er]; [lia|]. rewrite Eq, Er.
  pose proof (Z.mod_pos_bound off BLOCK_SECTOR_SIZE ltac:(done)) as Hmod.
  do 2 (apply wp_bind, wp_i32_sub; [unfold in_i32, i32_min; lia|]).
  apply wp_bind, wp_u32_sub; [lia|].
  rewrite !as_u32_small by (unfold u32_lim, i32_max in *; lia).
  set (c := Z.min _ _). assert (0 < c <= BLOCK_SECTOR_SIZE /\ c <= size - br /\ c <= len - off /\
    off mod BLOCK_SECTOR_SIZE + c <= BLOCK_SECTOR_SIZE) as (Hc & Hc1 & Hc2 & Hc3) by lia.
  assert (0 <= c <= i32_max) as Hc31 by (unfold i32_max, BLOCK_SECTOR_SIZE in *; lia).
  destruct (chunk_of_spec fs d off c Hok) as [Hcl Hcb]; [lia..|].
  apply wp_bind, wp_get_block_ranged; [done|done|apply block_of_offset; lia|]. intros fs1 Hok1 Ha1.
  apply wp_bind. apply (wp_mono _ _ (fun buf' fs' => fs_ok fs' /\ abs fs' = abs fs /\
    buf' = splice br (chunk_of (abs fs) d off c) buf)).
  { unfold chunk_of in Hcl |- *. unfold nonzero in *.
    destruct (Z.eqb_spec (slot_ptr (a_v (abs fs)) d (SData (off / BLOCK_SECTOR_SIZE))) 0) as [E|E].
    - unfold copy_into. apply wp_bind, wp_assert; [apply Z.leb_le; lia|]. by apply wp_ret.
    - apply wp_bind, wp_read_sec; [done|rewrite Ha1; apply (rg_lt _ _ Hf); [apply block_of_offset; lia|done]|].
      intros fs2 Hok2 Ha2. rewrite Ha1 in *. unfold copy_into.
      apply wp_bind, wp_assert; [apply Z.leb_le; lia|]. by apply wp_ret. }
  intros buf' fs2 (Hok2 & Ha2 & ->). rewrite (as_i32_small c) by done.
  do 2 (apply wp_bind, wp_i32_add; [unfold in_i32, i32_min; lia|]).
  apply wp_bind, wp_u32_add; [unfold u32_lim, i32_max in *; lia|].
  assert (List.length (splice br (chunk_of (abs fs) d off c) buf) = List.length buf) as Hsl
    by (apply splice_length; lia).
  eapply wp_mono; [apply (IH fs2 d len size (br + c) (off + c)); rewrite ?Ha2, ?Hsl; try done; lia|].
  rewrite Ha2. intros [n b3] fs3 (Hok3 & Ha3 & Hn & Hbl & Hb3). cbn [fst snd] in *.
  unfold read_post. cbn [fst snd]. split_and!; try done; try lia.
  intros k Hk. rewrite (Hb3 k Hk), byte_at_splice by lia. rewrite Hcl, Z2Nat.id by lia.
  repeat case_decide; try lia; rewrite ?Hcb by lia; f_equal; lia.
Qed.

Lemma contents_u8 (fs : FS D) s o : fs_ok fs -> in_u8 (contents (abs fs) s o).
Proof.
  intros Hok. unfold contents, fbyte, file_byte. destruct (_ =? 0); [done|].
  unfold byte_at. destruct (_ !! _) as [b|] eqn:E; [|done]. simpl.
  by eapply Forall_lookup_1, E; apply abs_u8.
Qed.

Lemma wp_read_readable fs s buf size offset :
  fs_ok fs -> readable (abs fs) s -> 0 <= size <= Z.of_nat (List.length buf) -> size <= i32_max ->
  0 <= offset ->
  wp (read_at s buf size offset) fs (fun r fs' =>
    fs_ok fs' /\ abs fs' = abs fs /\
    r.1 = Z.max 0 (Z.min size (flen (abs fs) s - offset)) /\
    List.length r.2 = List.length buf /\
    forall k, 0 <= k -> byte_at r.2 k =
      if decide (k < r.1) then contents (abs fs) s (offset + k) else byte_at buf k).
Proof.
  intros Hok Hfa Hsz Hmax Hoff. unfold read_at.
  apply wp_bind, wp_length_readable; [done|done|]. intros fs1 Hok1 Ha1. rewrite <- Ha1 in *.
  destruct (Z.leb_spec (flen (abs fs1) s) offset).
  { apply wp_ret. cbn [fst snd]. split_and!; try done; try lia.
    intros k Hk. rewrite decide_False by lia. done. }
  apply wp_bind, wp_read_inode; [done|apply Hfa|]. intros fs2 Hok2 Ha2. rewrite <- Ha2 in *.
  eapply wp_mono; [apply (wp_read_loop (Z.to_nat size) fs2); try done; try lia; apply Hfa|].
  intros [n b] fs3 (Hok3 & Ha3 & Hn & Hl & Hb). cbn [fst snd] in *.
  split_and!; try done; try lia. intros k Hk. rewrite (Hb k Hk).
  repeat case_decide; try lia; try done. unfold contents. f_equal. lia.
Qed.

Lemma wp_read_at fs s buf size offset :
  fs_ok fs -> file_at (abs fs) s -> 0 <= size <= Z.of_nat (List.length buf) -> size <= i32_max ->
  0 <= offset ->
  wp (read_at s buf size offset) fs (fun r fs' =>
    fs_ok fs' /\ abs fs' = abs fs /\
    r.1 = Z.max 0 (Z.min size (flen (abs fs) s - offset)) /\
    List.length r.2 = List.length buf /\
    forall k, 0 <= k -> byte_at r.2 k =
      if decide (k < r.1) then contents (abs fs) s (offset + k) else byte_at buf k).
Proof. intros Hok Hfa. by apply wp_read_readable, file_at_readable. Qed.

End file.

(** A file without blocks. *)
Definition no_blocks (d : InodeDisk) : Prop :=
  direct_blocks d = zeros DIRECT_PTR_CNT /\ indirect_block d = 0 /\ doubly_indirect_block d = 0.

Lemma no_blocks_ptr v d sl : no_blocks d -> slot_ptr v d sl = 0.
Proof.
  intros (Hd & Hi & Hb).
  assert (forall o, inner_ptr v d o = 0) as Hin by (intros o; unfold inner_ptr; by rewrite Hb).
  destruct sl as [k| | |o]; simpl; [|done|done|done].
  rewrite Hd, Hi, Hin. simpl. rewrite byte_at_zeros. by repeat case_match.
Qed.

Lemma no_blocks_ok a s d : no_blocks d -> disk_wf d -> fok a s d.
Proof. intros Hn Hw. by split; [done|..]; intros; rewrite no_blocks_ptr in *. Qed.

Lemma no_blocks_byte a d o : no_blocks d -> fbyte a d o = 0.
Proof. intros Hn. unfold fbyte, file_byte. by rewrite no_blocks_ptr. Qed.

Lemma new_boxed_wf : disk_wf new_boxed.
Proof.
  split; cbn [new_boxed direct_blocks indirect_block doubly_indirect_block d_length write_end
    magic d_is_dir d_is_symlink padding];
    try apply zeros_length; try (apply Forall_replicate); vm_compute; done.
Qed.

(** Two empty files, at sectors 4 and 5 of a sixteen-sector disk; file 4 is open. *)
Definition demo_fs : FS RamDisk :=
  mkFS (mkBio (mkRegistry [mkDevice [104; 100; 97; 0] Raw 16
                 (<[4 := to_bytes new_boxed]> (<[5 := to_bytes new_boxed]> ∅)) 0 0]
                [Some 0%nat; None; None; None])
          (mkBCache false (replicate (Z.to_nat NBUF) (mkBuf 0 0 0 (zeros BLOCK_SECTOR_SIZE)))))
       demo_fm (<[4 := mkInode 4 1 false 0 0 false false]> ∅).

Lemma demo_fs_ok : fs_ok demo_fs.
Proof. split; [|exact demo_fm_ok|done|done]. apply bio_ok_fresh. by eexists. Qed.

Lemma demo_inode s : s = 4 \/ s = 5 -> inode_of (abs demo_fs) s = new_boxed.
Proof. by intros [-> | ->]; vm_compute. Qed.

Lemma demo_file s : s = 4 \/ s = 5 -> file_at (abs demo_fs) s.
Proof.
  intros Hs. pose proof (demo_inode s Hs) as Hi. split.
  - rewrite Hi. apply no_blocks_ok; [done|exact new_boxed_wf].
  - by destruct Hs as [-> | ->].
  - by destruct Hs as [-> | ->].
  - unfold flen. rewrite Hi. done.
  - unfold flen. rewrite Hi. by destruct Hs as [-> | ->]; intros i [= <-].
Qed.

Lemma demo_separate : separate (abs demo_fs) 4 5.
Proof.
  assert (forall s t, s = 4 \/ s = 5 ->
    ~ file_sector (a_v (abs demo_fs)) (inode_of (abs demo_fs) s) t) as H.
  { intros s t Hs (sl & Hsl & Hp & Ht). rewrite (demo_inode s Hs), no_blocks_ptr in Hp; done. }
  split_and!; [done|..]; intros; apply H; auto.
Qed.

(** C1: a write to a file that is not write-protected updates exactly the bytes it was given.  On
    a consistent file system, for a buffer with at least [size] bytes and a non-negative offset
    with [offset + size] at most [MAX_BYTES], the 16,524 blocks an inode can address (beyond that the
    code leaves the sector it has read, and nothing is claimed), [write_at] always returns (no
    panic, no wild pointer, no endless loop); it reports [n] bytes, all of them unless the disk
    is full; afterwards bytes [offset .. offset+n] of the file are the buffer's, every other byte of the file is as
    before, the length on disk and in the open inode is the maximum of the old length and
    [offset + n], and no allocated sector outside the file has changed. *)
Theorem write_at_correct {D : Type} `{!BlockOps D, !BlockLaws D} (fs : FS D) (s : Z)
    (buf : list Z) (size offset : Z) :
  fs_ok fs -> file_at (abs fs) s -> deny_count (abs fs) s <= 0 -> Forall in_u8 buf ->
  0 <= size <= Z.of_nat (List.length buf) -> 0 <= offset -> offset + size <= MAX_BYTES ->
  wp (write_at s buf size offset) fs (fun n fs' =>
    fs_ok fs' /\ write_result (abs fs) s buf size offset n (abs fs')).
Proof. apply wp_write_at. Qed.

Lemma write_at_correct_witness :
  wp (write_at 4 [1; 2; 3] 3 600) demo_fs (fun n fs' =>
    0 <= n <= 3 /\ (n < 3 -> a_full (abs fs')) /\ flen (abs fs') 4 = Z.max 0 (600 + n)).
Proof.
  eapply wp_mono; [apply (write_at_correct demo_fs 4 [1; 2; 3] 3 600)|].
  - exact demo_fs_ok.
  - apply demo_file. auto.
  - done.
  - repeat constructor; done.
  - done.
  - done.
  - done.
  - intros n fs' [_ Hr]. split; [apply Hr|]. split; [apply Hr|].
    rewrite (wr_len _ _ _ _ _ _ _ Hr). unfold flen. by rewrite (demo_inode 4) by auto.
Defined.

(** C2: a read returns the bytes of the file.  [read_at] always returns; the count is the part
    of [offset .. offset+size] below the end of the file, those bytes of the caller's buffer
    are the file's (holes read as zeros), the rest of the buffer is untouched, and neither the
    disk nor any open inode changes. *)
Theorem read_at_correct {D : Type} `{!BlockOps D, !BlockLaws D} (fs : FS D) (s : Z)
    (buf : list Z) (size offset : Z) :
  fs_ok fs -> file_at (abs fs) s -> 0 <= size <= Z.of_nat (List.length buf) ->
  size <= i32_max -> 0 <= offset ->
  wp (read_at s buf size offset) fs (fun r fs' =>
    fs_ok fs' /\ abs fs' = abs fs /\
    r.1 = Z.max 0 (Z.min size (flen (abs fs) s - offset)) /\
    List.length r.2 = List.length buf /\
    forall k, 0 <= k -> byte_at r.2 k =
      if decide (k < r.1) then contents (abs fs) s (offset + k) else byte_at buf k).
Proof. apply wp_read_at. Qed.

Lemma read_at_correct_witness :
  wp (read_at 4 [9; 9] 2 0) demo_fs (fun r _ => r.1 = 0 /\ List.length r.2 = 2%nat).
Proof.
  eapply wp_mono; [apply (read_at_correct demo_fs 4 [9; 9] 2 0)|].
  - exact demo_fs_ok.
  - apply demo_file. auto.
  - done.
  - done.
  - done.
  - intros r fs' (_ & _ & Hn & Hl & _). split; [|done]. rewrite Hn.
    unfold flen. by rewrite (demo_inode 4) by auto.
Defined.

(** What was written is read back.  A [write_at] that reports [n] bytes, followed by a
    [read_at] of those [n] bytes at the same offset, returns [n] and fills the caller's buffer
    with the bytes that were written. *)
Theorem write_read_roundtrip {D : Type} `{!BlockOps D, !BlockLaws D} (fs : FS D) (s : Z)
    (buf out : list Z) (size offset : Z) :
  fs_ok fs -> file_at (abs fs) s -> deny_count (abs fs) s <= 0 -> Forall in_u8 buf ->
  0 <= size <= Z.of_nat (List.length buf) -> 0 <= offset -> offset + size <= MAX_BYTES ->
  List.length out = List.length buf ->
  wp (let! n := write_at s buf size offset in
      let! r := read_at s out n offset in
      ret (n, r)) fs (fun x _ =>
    let '(n, (m, got)) := x in
    m = n /\ take (Z.to_nat n) got = take (Z.to_nat n) buf /\
    drop (Z.to_nat n) got = drop (Z.to_nat n) out).
Proof.
  intros Hok Hfa Hd H8 Hsz Ho Hm Hl. apply wp_bind.
  eapply wp_mono; [by apply wp_write_at|]. intros n fs1 [Hok1 Hr].
  pose proof (wr_count _ _ _ _ _ _ _ Hr) as Hn. pose proof (wr_len _ _ _ _ _ _ _ Hr) as Hlen.
  apply wp_bind. eapply wp_mono.
  { apply (wp_read_at fs1 s out n offset); [done|apply Hr|lia| |done].
    unfold i32_max, MAX_BYTES in *. unfold_sizes. lia. }
  intros [m got] fs2 (_ & _ & Hmn & Hgl & Hb). cbn [fst snd] in *. apply wp_ret.
  assert (m = n) as -> by lia. split; [done|].
  assert (forall i : nat, (i < List.length buf)%nat -> got !! i =
    if decide (Z.of_nat i < n) then buf !! i else out !! i) as Hgot.
  { intros i Hi. pose proof (byte_at_lookup got (Z.of_nat i) ltac:(lia)) as E.
    rewrite Nat2Z.id in E. rewrite E, Hb by lia. case_decide.
    - rewrite (wr_bytes _ _ _ _ _ _ _ Hr) by lia. rewrite decide_True by lia.
      rewrite <- (Nat2Z.id i) at 2. rewrite (byte_at_lookup buf) by lia. do 2 f_equal. lia.
    - rewrite <- (Nat2Z.id i) at 2. by rewrite (byte_at_lookup out) by lia. }
  split; apply list_eq; intros i.
  - destruct (decide (i < Z.to_nat n)%nat).
    + rewrite !lookup_take_lt, Hgot by lia. by rewrite decide_True by lia.
    + rewrite !lookup_take_ge by lia. done.
  - rewrite !lookup_drop. destruct (decide (Z.to_nat n + i < List.length buf)%nat).
    + rewrite Hgot by lia. by rewrite decide_False by lia.
    + rewrite !lookup_ge_None_2 by lia. done.
Qed.

Lemma write_read_roundtrip_witness :
  wp (let! n := write_at 4 [7; 8; 9] 3 510 in
      let! r := read_at 4 [0; 0; 0] n 510 in ret (n, r)) demo_fs
    (fun x _ => x.2.1 = x.1).
Proof.
  eapply wp_mono; [apply (write_read_roundtrip demo_fs 4 [7; 8; 9] [0; 0; 0] 3 510)|].
  - exact demo_fs_ok.
  - apply demo_file. auto.
  - done.
  - repeat constructor; done.
  - done.
  - done.
  - done.
  - done.
  - by intros [n [m got]] fs' (-> & _).
Defined.

(** Files do not interfere.  Writing one file leaves every byte and the length of any other
    file as they were, keeps that file in good order, and keeps the two files separate. *)
Theorem write_at_isolated {D : Type} `{!BlockOps D, !BlockLaws D} (fs : FS D) (s1 s2 : Z)
    (buf : list Z) (size offset : Z) :
  fs_ok fs -> file_at (abs fs) s1 -> file_at (abs fs) s2 -> separate (abs fs) s1 s2 ->
  deny_count (abs fs) s1 <= 0 -> Forall in_u8 buf ->
  0 <= size <= Z.of_nat (List.length buf) -> 0 <= offset -> offset + size <= MAX_BYTES ->
  wp (write_at s1 buf size offset) fs (fun _ fs' =>
    file_at (abs fs') s2 /\ separate (abs fs') s1 s2 /\
    flen (abs fs') s2 = flen (abs fs) s2 /\
    forall o, 0 <= o < MAX_BYTES -> contents (abs fs') s2 o = contents (abs fs) s2 o).
Proof.
  intros Hok H1 H2 (Hne & Hn12 & Hn21 & Hdis) Hd H8 Hsz Ho Hm.
  eapply wp_mono; [by apply wp_write_at|]. intros n fs1 [_ [_ _ _ _ _ Hu Hsec Hfr Hn Hin]].
  set (a := abs fs) in *. set (a' := abs fs1) in *. destruct H2 as [Hf2 Hu2 Hr2 Hl2 Hc2].
  assert (inode_of a' s2 = inode_of a s2) as Hi by (unfold inode_of; f_equal; by apply Hfr).
  assert (forall t, file_sector (a_v a) (inode_of a s2) t -> a_v a' t = a_v a t) as Hv.
  { intros t Ht. apply Hfr.
    - destruct Ht as (sl & Hs & <- & Hnz). by apply (f_ptr _ _ _ _ _ Hf2).
    - intros ->. done.
    - intros Ht1. by apply (Hdis t). }
  assert (forall sl, slot_ok sl ->
    slot_ptr (a_v a') (inode_of a' s2) sl = slot_ptr (a_v a) (inode_of a s2) sl) as Hsl.
  { intros sl Hs. rewrite Hi. apply slot_ptr_ext; try done. intros t Ht. by apply Hv, index_file. }
  assert (flen a' s2 = flen a s2) as Hfl by (unfold flen; by rewrite Hi).
  split_and!; [split|..].
  - rewrite Hi. unfold fok. rewrite Hn. eapply file_ok_ext; [exact Hf2|done|apply Hf2| |done].
    intros t Ht. by apply Hv, index_file.
  - by apply Hu.
  - by rewrite Hn.
  - by rewrite Hfl.
  - rewrite Hfl, Hin. intros i. rewrite lookup_alter_ne by done. apply Hc2.
  - split_and!; [done|..].
    + intros [?|?]%Hsec; congruence.
    + rewrite file_sector_ext by exact Hsl. done.
    + intros t Ht. rewrite file_sector_ext by exact Hsl. apply Hsec in Ht as [Ht|Ht]; [by apply Hdis|].
      intros (sl & Hs & Hp & Hnz). destruct (f_ptr _ _ _ _ _ Hf2 sl Hs) as (_ & Hut & _); congruence.
  - done.
  - intros o Hor. unfold contents, fbyte, file_byte. rewrite Hsl by by apply block_of_offset.
    set (p := slot_ptr _ _ _). destruct (Z.eqb_spec p 0); [done|]. rewrite Hv; [done|].
    exists (SData (o / BLOCK_SECTOR_SIZE)). split_and!; [by apply block_of_offset|done|done].
Qed.

Lemma write_at_isolated_witness :
  wp (write_at 4 [1; 2; 3] 3 0) demo_fs (fun _ fs' =>
    flen (abs fs') 5 = 0 /\ contents (abs fs') 5 0 = contents (abs demo_fs) 5 0).
Proof.
  eapply wp_mono; [apply (write_at_isolated demo_fs 4 5 [1; 2; 3] 3 0)|].
  - exact demo_fs_ok.
  - apply demo_file. auto.
  - apply demo_file. auto.
  - exact demo_separate.
  - done.
  - repeat constructor; done.
  - done.
  - done.
  - done.
  - intros n fs' (_ & _ & Hl & Hb). split; [|by apply Hb].
    rewrite Hl. unfold flen. by rewrite (demo_inode 5) by auto.
Defined.

(** Write protection.  While an open inode's deny count is positive [write_at] writes
    nothing and returns 0; [deny_write] makes it so, and a matching [allow_write] gives back
    exactly the earlier state. *)
Theorem deny_write_protects {D : Type} `{!BlockOps D} (fs : FS D) (s : Z) (i : Inode)
    (buf : list Z) (size offset : Z) :
  fs_inodes fs !! s = Some i -> 0 <= i_deny_write_cnt i < i32_max ->
  exists fs', deny_write s fs = Ok tt fs' /\
    write_at s buf size offset fs' = Ok 0 fs' /\
    allow_write s fs' = Ok tt fs.
Proof.
  intros Hi Hc. unfold deny_write, bind, gets. rewrite Hi. unfold i32_add, i32_chk, ret, modify.
  assert ((i32_min <=? i_deny_write_cnt i + 1) && (i_deny_write_cnt i + 1 <=? i32_max) = true) as ->
    by (apply andb_true_iff; split; apply Z.leb_le; unfold i32_min; lia).
  eexists. split; [done|]. split.
  - unfold write_at, bind, gets. simpl. rewrite lookup_insert_eq. simpl.
    by rewrite (proj2 (Z.ltb_lt 0 _)) by lia.
  - unfold allow_write, bind, gets. simpl. rewrite lookup_insert_eq. simpl.
    rewrite (proj2 (Z.ltb_lt 0 _)) by lia. unfold i32_sub, i32_chk, ret, modify.
    replace (i_deny_write_cnt i + 1 - 1) with (i_deny_write_cnt i) by lia.
    assert ((i32_min <=? i_deny_write_cnt i) && (i_deny_write_cnt i <=? i32_max) = true) as ->
      by (apply andb_true_iff; split; apply Z.leb_le; unfold i32_min; lia).
    unfold with_inodes. simpl. rewrite insert_insert_eq, insert_id; [by destruct fs|].
    rewrite Hi. by destruct i.
Qed.

Lemma deny_write_protects_witness : exists fs', deny_write 4 demo_fs = Ok tt fs' /\
  write_at 4 [1] 1 0 fs' = Ok 0 fs' /\ allow_write 4 fs' = Ok tt demo_fs.
Proof.
  apply (deny_write_protects demo_fs 4 (mkInode 4 1 false 0 0 false false)); done.
Defined.
