(* ===== verification/Directory.v ===== *)
(** Directories (src/filesys/directory.rs): files whose data is an array of 20-byte entries. *)
From S2P Require Import Prelude Utf8 Block Bio FreeMap Inode InodeLayout FileMap InodeOps InodeAlloc InodeWrite InodeProofs.

Definition NAME_MAX : Z := 14.
Definition DIR_ENTRY_SIZE : Z := 20.

Record DirEntry := mkEntry {
  e_sector : Z;
  e_name : list Z;
  e_in_use : Z;
}.

Definition zeroed : DirEntry := mkEntry 0 (zeros (NAME_MAX + 1)) 0.

(** [self.name.iter().position(|&b| b == 0).unwrap_or(NAME_MAX + 1)] *)
Definition name_len (e : DirEntry) : nat :=
  default (Z.to_nat (NAME_MAX + 1)) (find_index (fun b => b =? 0) (e_name e)).

Definition name_matches (e : DirEntry) (name : list Z) : bool :=
  if e_in_use e =? 0 then false
  else
    let len := name_len e in
    if negb (bool_decide (len = List.length name)) then false
    else bool_decide (take len (e_name e) = name).

(** The [repr(C)] bytes of an entry. *)
Definition entry_to_bytes (e : DirEntry) : list Z :=
  le_bytes (e_sector e) ++ e_name e ++ [e_in_use e].
Definition bytes_to_entry (buf : list Z) : DirEntry :=
  mkEntry (le_word (slice 0 4 buf)) (slice 4 15 buf) (byte_at buf 19).

Definition make_entry (name : list Z) (sector : Z) : DirEntry :=
  let len := Nat.min (List.length name) (Z.to_nat NAME_MAX) in
  mkEntry sector (splice 0 (take len name) (zeros (NAME_MAX + 1))) 1.

Definition set_in_use (u : Z) (e : DirEntry) : DirEntry := mkEntry (e_sector e) (e_name e) u.

(** [b"."] and [b".."] *)
Definition dot_name : list Z := [46].
Definition dotdot_name : list Z := [46; 46].

Record Dir := mkDir { dir_sector : Z; dir_pos : Z }.

Section directory.
Context {D : Type} `{!BlockOps D}.

(** [Drop for Dir] and [close_dir]. *)
Definition close_dir (d : Dir) : M (FS D) unit := close (dir_sector d).

Definition open_root : M (FS D) (option Dir) :=
  let! i := Inode.open ROOT_DIR_SECTOR in
  ret (match i with Some _ => Some (mkDir ROOT_DIR_SECTOR 0) | None => None end).

Definition open (sector : Z) : M (FS D) (option Dir) :=
  let! i := Inode.open sector in
  ret (match i with Some _ => Some (mkDir sector 0) | None => None end).

Definition reopen (d : Dir) : M (FS D) (option Dir) :=
  let! i := Inode.reopen (dir_sector d) in
  ret (match i with Some _ => Some (mkDir (dir_sector d) 0) | None => None end).

Definition create (sector parent_sector : Z) : M (FS D) bool :=
  let initial_size := DIR_ENTRY_SIZE * 2 in
  let! ok := Inode.create sector initial_size true in
  if negb ok then ret false
  else
    let dot := mkEntry sector (splice 0 dot_name (zeros (NAME_MAX + 1))) 1 in
    let dotdot := mkEntry parent_sector (splice 0 dotdot_name (zeros (NAME_MAX + 1))) 1 in
    write_at sector (entry_to_bytes dot) DIR_ENTRY_SIZE 0 ;;
    write_at sector (entry_to_bytes dotdot) DIR_ENTRY_SIZE DIR_ENTRY_SIZE ;;
    ret true.

(** The loop [for i in 0..entry_count] that [lookup], [add], [remove] and [is_empty] share: it
    reads entry [i] and stops at a short read or when the body returns a result. *)
Fixpoint scan {R} (s : Z) (idxs : list Z) (body : Z -> DirEntry -> M (FS D) (option R))
    : M (FS D) (option R) :=
  match idxs with
  | [] => ret None
  | i :: idxs' =>
      let! offset := i32_mul i DIR_ENTRY_SIZE in
      let! r := read_at s (zeros DIR_ENTRY_SIZE) DIR_ENTRY_SIZE offset in
      let '(n, buf) := r in
      if n <? DIR_ENTRY_SIZE then ret None
      else
        let! x := body offset (bytes_to_entry buf) in
        match x with Some _ => ret x | None => scan s idxs' body end
  end.

Definition entry_count (s : Z) : M (FS D) Z :=
  let! len := length s in
  ret (Z.quot len DIR_ENTRY_SIZE).

Definition lookup (d : Dir) (name : list Z) : M (FS D) (option Z) :=
  let! cnt := entry_count (dir_sector d) in
  scan (dir_sector d) (range 0 cnt) (fun _ e =>
    ret (if name_matches e name then Some (e_sector e) else None)).

Definition add (d : Dir) (name : list Z) (inode_sector : Z) : M (FS D) bool :=
  let! dup := lookup d name in
  match dup with
  | Some _ => ret false
  | None =>
      if NAME_MAX <? Z.of_nat (List.length name) then ret false
      else
        let! cnt := entry_count (dir_sector d) in
        let! r := scan (dir_sector d) (range 0 cnt) (fun offset e =>
          if e_in_use e =? 0 then
            write_at (dir_sector d) (entry_to_bytes (make_entry name inode_sector))
              DIR_ENTRY_SIZE offset ;;
            ret (Some true)
          else ret None) in
        match r with
        | Some b => ret b
        | None =>
            let! offset := i32_mul cnt DIR_ENTRY_SIZE in
            let! n := write_at (dir_sector d) (entry_to_bytes (make_entry name inode_sector))
                        DIR_ENTRY_SIZE offset in
            ret (n =? DIR_ENTRY_SIZE)
        end
  end.

(** The names [is_empty] and [readdir] skip. *)
Definition is_dot (name : list Z) : bool :=
  bool_decide (name = dot_name) || bool_decide (name = dotdot_name).

Definition is_empty (d : Dir) : M (FS D) bool :=
  let! cnt := entry_count (dir_sector d) in
  let! r := scan (dir_sector d) (range 0 cnt) (fun _ e =>
    ret (if e_in_use e =? 0 then None
         else match from_utf8 (take (name_len e) (e_name e)) with
              | Some name => if is_dot name then None else Some false
              | None => None
              end)) in
  ret (default true r).

Definition remove (d : Dir) (name : list Z) : M (FS D) bool :=
  let! cnt := entry_count (dir_sector d) in
  let! r := scan (dir_sector d) (range 0 cnt) (fun offset e =>
    if name_matches e name then
      let! dir := is_dir (e_sector e) in
      let! refuse :=
        if dir then
          let! empty := is_empty (mkDir (e_sector e) 0) in
          ret (negb empty)
        else ret false in
      if refuse then ret (Some false)
      else
        Inode.remove (e_sector e) ;;
        write_at (dir_sector d) (entry_to_bytes (set_in_use 0 e)) DIR_ENTRY_SIZE offset ;;
        ret (Some true)
    else ret None) in
  ret (default false r).

(** The loop of [readdir]: the next name and the directory with its new position. *)
Fixpoint readdir_loop (fuel : nat) (d : Dir) (len : Z) : M (FS D) (option (list Z) * Dir) :=
  if len <=? dir_pos d then ret (None, d)
  else
    match fuel with
    | O => fun _ => OutOfFuel
    | S fuel' =>
        let! r := read_at (dir_sector d) (zeros DIR_ENTRY_SIZE) DIR_ENTRY_SIZE (dir_pos d) in
        let '(n, buf) := r in
        let! pos := i32_add (dir_pos d) DIR_ENTRY_SIZE in
        let d := mkDir (dir_sector d) pos in
        if n <? DIR_ENTRY_SIZE then ret (None, d)
        else
          let e := bytes_to_entry buf in
          if e_in_use e =? 0 then readdir_loop fuel' d len
          else
            match from_utf8 (take (name_len e) (e_name e)) with
            | None => ret (None, d)
            | Some name => if is_dot name then readdir_loop fuel' d len else ret (Some name, d)
            end
    end.

Definition readdir (d : Dir) : M (FS D) (option (list Z) * Dir) :=
  let! len := length (dir_sector d) in
  readdir_loop (Z.to_nat (len - dir_pos d)) d len.

End directory.
