(* ===== verification/File.v ===== *)
(** File handles (src/filesys/file.rs): an inode, a position, an access mode. *)
From S2P Require Import Prelude Utf8 Block Bio FreeMap Inode.

Definition MODE_RDONLY : Z := 0.
Definition MODE_WRONLY : Z := 1.
Definition MODE_RDWR : Z := 2.

Record File := mkFile {
  f_sector : Z;
  f_pos : Z;
  f_deny_write : bool;
  f_mode : Z;
}.

Section file.
Context {D : Type} `{!BlockOps D}.

Definition open_with_mode (sector mode : Z) : M (FS D) (option File) :=
  let! i := Inode.open sector in
  ret (match i with Some _ => Some (mkFile sector 0 false mode) | None => None end).

Definition open (sector : Z) : M (FS D) (option File) := open_with_mode sector MODE_RDWR.

(** [Drop for File] and [close_file]. *)
Definition close_file (f : File) : M (FS D) unit :=
  (if f_deny_write f then allow_write (f_sector f) else ret tt) ;;
  close (f_sector f).

Definition deny_write (f : File) : M (FS D) File :=
  Inode.deny_write (f_sector f) ;;
  ret (mkFile (f_sector f) (f_pos f) true (f_mode f)).

(** [read] and [write]: the count, the buffer, and the handle at its new position. *)
Definition read (f : File) (buf : list Z) (size : Z) : M (FS D) (Z * list Z * File) :=
  let! r := read_at (f_sector f) buf size (f_pos f) in
  let '(n, buf) := r in
  let! pos := i32_add (f_pos f) n in
  ret (n, buf, mkFile (f_sector f) pos (f_deny_write f) (f_mode f)).

Definition write (f : File) (buf : list Z) (size : Z) : M (FS D) (Z * File) :=
  let! n := write_at (f_sector f) buf size (f_pos f) in
  let! pos := i32_add (f_pos f) n in
  ret (n, mkFile (f_sector f) pos (f_deny_write f) (f_mode f)).

Definition seek (f : File) (pos : Z) : File :=
  mkFile (f_sector f) pos (f_deny_write f) (f_mode f).
Definition tell (f : File) : Z := f_pos f.
Definition file_length (f : File) : M (FS D) Z := length (f_sector f).

End file.
