(* ===== verification/Filesys.v ===== *)
(** Paths and whole files (src/filesys/filesys.rs), and the free map kept in its own inode (the
    second half of src/filesys/free_map.rs). *)
From S2P Require Import Prelude Utf8 Block Bio FreeMap Inode InodeLayout FileMap InodeOps InodeAlloc InodeWrite InodeProofs Directory File.

(** [path.split('/').filter(|s| !s.is_empty())] *)
Fixpoint split_parts (path acc : list Z) : list (list Z) :=
  match path with
  | [] => if bool_decide (acc = []) then [] else [acc]
  | c :: path' =>
      if c =? 47 then
        if bool_decide (acc = []) then split_parts path' [] else acc :: split_parts path' []
      else split_parts path' (acc ++ [c])
  end.

Section filesys.
Context {D : Type} `{!BlockOps D}.

(** The traversal of [resolve_path] below [dir]; a failing lookup closes the directory. *)
Fixpoint walk (dir : Dir) (parts : list (list Z)) : M (FS D) (option Dir) :=
  match parts with
  | [] => ret (Some dir)
  | part :: rest =>
      let! s := lookup dir part in
      match s with
      | None => close_dir dir ;; ret None
      | Some sector =>
          let! isd := is_dir sector in
          if negb isd then close_dir dir ;; ret None
          else
            close_dir dir ;;
            let! sub := Directory.open sector in
            match sub with
            | None => ret None
            | Some sub => walk sub rest
            end
      end
  end.

(** [resolve_path]; [cwd] is the running thread's [cwd_sector]. *)
Definition resolve_path (cwd : Z) (path : list Z) : M (FS D) (option (Dir * list Z)) :=
  match path with
  | [] => ret None
  | c :: _ =>
      let! dir := if c =? 47 then open_root else Directory.open cwd in
      match dir with
      | None => ret None
      | Some dir =>
          let parts := split_parts path [] in
          match List.rev parts with
          | [] => ret (Some (dir, []))
          | leaf :: front =>
              let! d := walk dir (List.rev front) in
              match d with
              | None => ret None
              | Some d => ret (Some (d, leaf))
              end
          end
      end
  end.

Definition create (cwd : Z) (path : list Z) (initial_size : Z) : M (FS D) bool :=
  let! r := resolve_path cwd path in
  match r with
  | None => ret false
  | Some (parent, name) =>
      if bool_decide (name = []) then close_dir parent ;; ret false
      else
        let! a := free_map (allocate 1) in
        match a with
        | None => close_dir parent ;; ret false
        | Some inode_sector =>
            let! ok := Inode.create inode_sector initial_size false in
            if negb ok then
              free_map (release inode_sector 1) ;;
              close_dir parent ;;
              ret false
            else
              let! ok := add parent name inode_sector in
              close_dir parent ;;
              if negb ok then
                Inode.remove inode_sector ;;
                close inode_sector ;;
                free_map (release inode_sector 1) ;;
                ret false
              else ret true
        end
  end.

Definition open (cwd : Z) (path : list Z) : M (FS D) (option File) :=
  let! r := resolve_path cwd path in
  match r with
  | None => ret None
  | Some (parent, name) =>
      if bool_decide (name = []) then close_dir parent ;; ret None
      else
        let! s := lookup parent name in
        close_dir parent ;;
        match s with
        | None => ret None
        | Some sector => File.open sector
        end
  end.

Definition remove (cwd : Z) (path : list Z) : M (FS D) bool :=
  let! r := resolve_path cwd path in
  match r with
  | None => ret false
  | Some (parent, name) =>
      if bool_decide (name = []) then close_dir parent ;; ret false
      else
        let! ok := Directory.remove parent name in
        close_dir parent ;;
        ret ok
  end.

Definition mkdir (cwd : Z) (path : list Z) : M (FS D) bool :=
  let! r := resolve_path cwd path in
  match r with
  | None => ret false
  | Some (parent, name) =>
      if bool_decide (name = []) then close_dir parent ;; ret false
      else
        let! a := free_map (allocate 1) in
        match a with
        | None => close_dir parent ;; ret false
        | Some inode_sector =>
            let! ok := Directory.create inode_sector (dir_sector parent) in
            if negb ok then
              free_map (release inode_sector 1) ;;
              close_dir parent ;;
              ret false
            else
              let! ok := add parent name inode_sector in
              if negb ok then
                Inode.remove inode_sector ;;
                close inode_sector ;;
                free_map (release inode_sector 1) ;;
                close_dir parent ;;
                ret false
              else close_dir parent ;; ret true
        end
  end.

Definition link (cwd : Z) (old_path new_path : list Z) : M (FS D) bool :=
  let! r := resolve_path cwd old_path in
  match r with
  | None => ret false
  | Some (parent, name) =>
      if bool_decide (name = []) then close_dir parent ;; ret false
      else
        let! s := lookup parent name in
        match s with
        | None => close_dir parent ;; ret false
        | Some sector =>
            close_dir parent ;;
            let! isd := is_dir sector in
            if isd then ret false
            else
              let! r := resolve_path cwd new_path in
              match r with
              | None => ret false
              | Some (new_parent, new_name) =>
                  if bool_decide (new_name = []) then close_dir new_parent ;; ret false
                  else
                    Inode.open sector ;;
                    let! ok := add new_parent new_name sector in
                    close_dir new_parent ;;
                    if negb ok then close sector ;; ret false else ret true
              end
        end
  end.

(** ** free_map.rs: [flush], [create], [open], [close] *)
Definition fm_flush : M (FS D) unit :=
  let! busy := gets (fun fs => IN_FLUSH (fs_fm fs)) in
  if busy then ret tt
  else
    free_map (modify (fun fm => mkFreeMap (FREE_MAP fm) (SECTOR_COUNT fm) true)) ;;
    let! data := gets (fun fs => FREE_MAP (fs_fm fs)) in
    write_at FREE_MAP_SECTOR data (Z.of_nat (List.length data)) 0 ;;
    free_map (modify (fun fm => mkFreeMap (FREE_MAP fm) (SECTOR_COUNT fm) false)).

Definition flush_if_safe : M (FS D) unit := fm_flush.

Definition fm_create : M (FS D) unit :=
  let! bm_size := gets (fun fs => Z.of_nat (List.length (FREE_MAP (fs_fm fs)))) in
  Inode.create FREE_MAP_SECTOR bm_size false ;;
  fm_flush.

Definition fm_open : M (FS D) unit :=
  Inode.open FREE_MAP_SECTOR ;;
  let! bm_size := gets (fun fs => Z.of_nat (List.length (FREE_MAP (fs_fm fs)))) in
  let! r := read_at FREE_MAP_SECTOR (zeros bm_size) bm_size 0 in
  let '(n, data) := r in
  if 0 <? n then
    free_map (modify (fun fm =>
      let copy_len := Z.min n (Z.of_nat (List.length (FREE_MAP fm))) in
      with_map (splice 0 (slice 0 copy_len data) (FREE_MAP fm)) fm))
  else ret tt.

Definition fm_close : M (FS D) unit :=
  fm_flush ;;
  close FREE_MAP_SECTOR.

(** The size of the FileSys device, or a panic when there is none. *)
Definition filesys_size (w : string) : M (FS D) Z :=
  fun fs => match fs_dev (fs_bio fs) with
            | Some d => Ok (dev_size d) fs
            | None => Panic w
            end.

Definition do_format : M (FS D) unit :=
  fm_create ;;
  Directory.create ROOT_DIR_SECTOR ROOT_DIR_SECTOR ;;
  fm_close ;;
  let! n := filesys_size "do_format: FileSys device disappeared" in
  free_map (FreeMap.init n) ;;
  fm_open.

Definition init (format : bool) : M (FS D) unit :=
  let! sector_count := filesys_size "filesys: no FileSys block device set" in
  Inode.init ;;
  free_map (FreeMap.init sector_count) ;;
  if format then do_format else fm_open.

End filesys.
