(* ===== verification/DirProofs.v ===== *)
(** Directories as finite maps: [lookup] finds the first live entry of a name, [add]
    changes exactly one slot. *)
From S2P Require Import Prelude Utf8 Block Bio FreeMap Inode InodeLayout FileMap InodeOps InodeAlloc InodeWrite InodeProofs Directory.

(** Entry [i] of directory [s], and the entries inside its length. *)
Definition entry_at (a : afs) (s i : Z) : DirEntry :=
  bytes_to_entry ((fun k => contents a s (DIR_ENTRY_SIZE * i + k)) <$> seqZ 0 DIR_ENTRY_SIZE).
Definition dir_count (a : afs) (s : Z) : Z := flen a s / DIR_ENTRY_SIZE.
Definition dir_entries (a : afs) (s : Z) : list DirEntry := entry_at a s <$> seqZ 0 (dir_count a s).

(** ** Entries and their bytes *)
Record entry_wf (e : DirEntry) : Prop := {
  ew_sector : in_u32 (e_sector e);
  ew_len : List.length (e_name e) = 15%nat;
  ew_name : Forall in_u8 (e_name e);
  ew_use : in_u8 (e_in_use e);
}.

Lemma entry_to_bytes_length e : entry_wf e -> List.length (entry_to_bytes e) = Z.to_nat DIR_ENTRY_SIZE.
Proof. intros []. unfold entry_to_bytes. rewrite !length_app, ew_len0. done. Qed.

Lemma entry_to_bytes_u8 e : entry_wf e -> Forall in_u8 (entry_to_bytes e).
Proof.
  intros []. unfold entry_to_bytes. rewrite !Forall_app. split_and!; [apply le_bytes_u8|done|].
  by apply Forall_singleton.
Qed.

(** Encoding and decoding an entry are inverse. *)
Lemma bytes_to_entry_to_bytes e : entry_wf e -> bytes_to_entry (entry_to_bytes e) = e.
Proof.
  intros []. unfold bytes_to_entry, entry_to_bytes, slice, byte_at.
  assert (drop (Z.to_nat 4) (le_bytes (e_sector e) ++ e_name e ++ [e_in_use e]) = e_name e ++ [e_in_use e]) as ->
    by done.
  change (Z.to_nat 15) with 15%nat. rewrite (take_app_length' (e_name e)) by done.
  change (Z.to_nat 0) with 0%nat. change (Z.to_nat 4) with 4%nat. rewrite drop_0.
  rewrite (take_app_length' (le_bytes _)) by done.
  pose proof (le_word_bytes (e_sector e) [] ew_sector0) as Hw. rewrite app_nil_r in Hw. rewrite Hw.
  rewrite app_assoc, lookup_app_r; rewrite length_app, ew_len0; simpl; [|lia]. by destruct e.
Qed.

Lemma entry_at_bytes a s i bs :
  List.length bs = Z.to_nat DIR_ENTRY_SIZE ->
  (forall k, 0 <= k < DIR_ENTRY_SIZE -> contents a s (DIR_ENTRY_SIZE * i + k) = byte_at bs k) ->
  entry_at a s i = bytes_to_entry bs.
Proof.
  intros Hl Hb. unfold entry_at. f_equal. apply list_eq. intros j. rewrite list_lookup_fmap.
  destruct (decide (j < 20)%nat) as [Hj|Hj].
  - rewrite lookup_seqZ_lt by (unfold DIR_ENTRY_SIZE; lia). simpl. rewrite Z.add_0_l, Hb by (unfold DIR_ENTRY_SIZE; lia).
    rewrite <- (Nat2Z.id j) at 2. symmetry. apply byte_at_lookup. rewrite Hl. unfold DIR_ENTRY_SIZE. lia.
  - rewrite lookup_seqZ_ge by (unfold DIR_ENTRY_SIZE; lia). simpl. symmetry. apply lookup_ge_None_2.
    rewrite Hl. unfold DIR_ENTRY_SIZE. lia.
Qed.

(** A name that can be stored: at most 14 bytes, none of them NUL. *)
Definition name_ok (name : list Z) : Prop :=
  Z.of_nat (List.length name) <= NAME_MAX /\ Forall (fun b => 0 < b < 256) name.

Lemma make_entry_name name s : name_ok name ->
  e_name (make_entry name s) = name ++ zeros (15 - Z.of_nat (List.length name)).
Proof.
  intros [Hl _]. unfold make_entry, NAME_MAX in *. cbn [e_name].
  rewrite Nat.min_l by lia. rewrite take_ge by lia. unfold splice. simpl (take _ _). simpl (_ ++ _).
  unfold zeros. rewrite drop_replicate. do 2 f_equal. lia.
Qed.

Lemma make_entry_wf name s : name_ok name -> in_u32 s -> entry_wf (make_entry name s).
Proof.
  intros Hn Hs. pose proof (make_entry_name name s Hn) as E. destruct Hn as [Hl Hb]. unfold NAME_MAX in Hl.
  split; [done|..|done]; rewrite E.
  - rewrite length_app, zeros_length. lia.
  - apply Forall_app. split; [|apply zeros_u8]. eapply Forall_impl; [exact Hb|]. unfold in_u8. lia.
Qed.

Lemma find_zero name n : Forall (fun b => 0 < b < 256) name -> 0 < n ->
  find_index (fun b => b =? 0) (name ++ zeros n) = Some (List.length name).
Proof.
  intros Hb Hn. induction Hb as [|b name Hb _ IH]; simpl.
  - unfold zeros. destruct (Z.to_nat n) eqn:E; [lia|done].
  - rewrite (proj2 (Z.eqb_neq b 0)) by lia. by rewrite IH.
Qed.

Lemma name_matches_make name s other : name_ok name ->
  name_matches (make_entry name s) other = bool_decide (other = name).
Proof.
  intros Hn. pose proof (make_entry_name name s Hn) as E. destruct Hn as [Hl Hb]. unfold NAME_MAX in Hl.
  unfold name_matches, name_len. rewrite E, find_zero by (done || lia). simpl.
  rewrite take_app_length. destruct (decide (other = name)) as [->|Hne].
  - by rewrite !bool_decide_true.
  - rewrite (bool_decide_false (other = name)) by done.
    case_bool_decide as Hlen; simpl; [|done]. by rewrite bool_decide_false by congruence.
Qed.

(** ** The scan *)
Section dir.
#[local] Opaque abs.
Context {D : Type} `{!BlockOps D, !BlockLaws D}.

Lemma MAX_i32 : MAX_BYTES <= i32_max.
Proof. unfold MAX_BYTES, i32_max. unfold_sizes. lia. Qed.

(** Reading one entry. *)
Lemma wp_read_entry fs s i (Q : Z * list Z -> FS D -> Prop) :
  fs_ok fs -> file_at (abs fs) s -> 0 <= i < dir_count (abs fs) s ->
  (forall buf fs', fs_ok fs' -> abs fs' = abs fs -> bytes_to_entry buf = entry_at (abs fs) s i ->
     Q (DIR_ENTRY_SIZE, buf) fs') ->
  wp (read_at s (zeros DIR_ENTRY_SIZE) DIR_ENTRY_SIZE (DIR_ENTRY_SIZE * i)) fs Q.
Proof.
  intros Hok Hfa Hi HQ. unfold dir_count, DIR_ENTRY_SIZE in *.
  assert (20 * i + 20 <= flen (abs fs) s) as Hlen by (Z.div_mod_to_equations; lia).
  eapply wp_mono.
  { apply (wp_read_at fs s); [done|done|by rewrite zeros_length|done|lia]. }
  intros [n buf] fs' (Hok' & Ha & Hn & Hl & Hb). cbn [fst snd] in *. rewrite zeros_length in Hl.
  assert (n = 20) as -> by lia. apply HQ; [done|done|]. symmetry. apply entry_at_bytes; [done|].
  intros k Hk. rewrite Hb by lia. by rewrite decide_True by (unfold DIR_ENTRY_SIZE in *; lia).
Qed.

Lemma wp_scan {R} (J : Z -> Prop) fs s lo (body : Z -> DirEntry -> M (FS D) (option R))
    (Q : option R -> FS D -> Prop) :
  fs_ok fs -> file_at (abs fs) s -> 0 <= lo <= dir_count (abs fs) s -> J lo ->
  (forall i fs', lo <= i < dir_count (abs fs) s -> J i -> fs_ok fs' -> abs fs' = abs fs ->
     wp (body (DIR_ENTRY_SIZE * i) (entry_at (abs fs) s i)) fs' (fun x fs'' =>
       match x with Some _ => Q x fs'' | None => fs_ok fs'' /\ abs fs'' = abs fs /\ J (i + 1) end)) ->
  (forall fs', fs_ok fs' -> abs fs' = abs fs -> J (dir_count (abs fs) s) -> Q None fs') ->
  wp (scan s (range lo (dir_count (abs fs) s)) body) fs Q.
Proof.
  intros Hok Hfa Hlo HJ Hb HN. set (a := abs fs) in *. set (n := dir_count a s) in *.
  assert (abs fs = a) as Ha by done. clearbody a.
  revert fs Hok Ha HJ Hb. pattern lo. apply (range_ind _ lo n); [|intros l Hl IH|lia].
  - intros fs Hok Ha HJ _. rewrite range_nil by lia. simpl. by apply wp_ret, HN.
  - intros fs Hok Ha HJ Hb. rewrite (range_cons l) by lia. simpl.
    pose proof (fa_len _ _ Hfa) as Hfl. pose proof MAX_i32 as Hm.
    assert (DIR_ENTRY_SIZE * l <= flen a s) as Hll.
    { unfold n, dir_count, DIR_ENTRY_SIZE in *. Z.div_mod_to_equations. lia. }
    apply wp_bind, wp_i32_mul; [unfold in_i32, i32_min, DIR_ENTRY_SIZE in *; lia|].
    rewrite (Z.mul_comm l). apply wp_bind, wp_read_entry; [done|by rewrite Ha|rewrite Ha; fold n; lia|].
    intros buf fs1 Hok1 Ha1 He. cbv beta iota. rewrite (proj2 (Z.ltb_ge _ _)) by lia. rewrite He, Ha.
    apply wp_bind. eapply wp_mono; [apply Hb; [lia|done|done|congruence]|].
    intros [r|] fs2; [by intros; apply wp_ret|]. intros (Hok2 & Ha2 & HJ2).
    apply IH; try done. intros i fs' Hi. apply Hb. lia.
Qed.

Lemma wp_entry_count fs s (Q : Z -> FS D -> Prop) :
  fs_ok fs -> file_at (abs fs) s ->
  (forall fs', fs_ok fs' -> abs fs' = abs fs -> Q (dir_count (abs fs) s) fs') ->
  wp (entry_count s) fs Q.
Proof.
  intros Hok Hfa HQ. unfold entry_count. apply wp_bind, wp_length; [done|done|]. intros fs' Hok' Ha.
  apply wp_ret. rewrite Z.quot_div_nonneg by (done || apply Hfa). by apply HQ.
Qed.

(** The live entry of a name: first match. *)
Definition finds (a : afs) (s : Z) (name : list Z) (r : option Z) : Prop :=
  match r with
  | None => forall i, 0 <= i < dir_count a s -> name_matches (entry_at a s i) name = false
  | Some t => exists i, 0 <= i < dir_count a s /\ name_matches (entry_at a s i) name = true /\
      t = e_sector (entry_at a s i) /\
      forall j, 0 <= j < i -> name_matches (entry_at a s j) name = false
  end.

Lemma wp_lookup fs d name (Q : option Z -> FS D -> Prop) :
  fs_ok fs -> file_at (abs fs) (dir_sector d) ->
  (forall r fs', fs_ok fs' -> abs fs' = abs fs -> finds (abs fs) (dir_sector d) name r -> Q r fs') ->
  wp (lookup d name) fs Q.
Proof.
  intros Hok Hfa HQ. unfold lookup. apply wp_bind, wp_entry_count; [done|done|].
  intros fs1 Hok1 Ha1. rewrite <- Ha1 in *. set (s := dir_sector d) in *.
  pose proof (fa_len _ _ Hfa) as Hfl.
  apply (wp_scan (fun i => forall j, 0 <= j < i -> name_matches (entry_at (abs fs1) s j) name = false));
    [done|done| |lia|..].
  - split; [lia|]. unfold dir_count. apply Z.div_pos; [lia|done].
  - intros i fs' Hi HJ Hok' Ha'. apply wp_ret.
    destruct (name_matches (entry_at (abs fs1) s i) name) eqn:E.
    + apply HQ; [done|done|]. exists i. by split_and!; try lia.
    + split_and!; [done|done|]. intros j Hj. destruct (decide (j = i)) as [->|]; [done|]. apply HJ. lia.
  - intros fs' Hok' Ha' HJ. by apply HQ.
Qed.
(** Slot [i] of the directory holds [e]; the others are as before. *)
Definition slot_upd (a : afs) (s i : Z) (e : DirEntry) (a' : afs) : Prop :=
  dir_count a' s = Z.max (dir_count a s) (i + 1) /\ entry_at a' s i = e /\
  forall j, 0 <= j < dir_count a s -> j <> i -> entry_at a' s j = entry_at a s j.

Lemma write_result_slot a s i e a' :
  entry_wf e -> 0 <= i <= dir_count a s -> flen a s <= MAX_BYTES ->
  DIR_ENTRY_SIZE * i + DIR_ENTRY_SIZE <= MAX_BYTES ->
  write_result a s (entry_to_bytes e) DIR_ENTRY_SIZE (DIR_ENTRY_SIZE * i) DIR_ENTRY_SIZE a' ->
  slot_upd a s i e a'.
Proof.
  intros He Hi Hfl Hm [Hfa _ _ Hlen Hb _ _ _ _ _]. unfold slot_upd. split_and!.
  - unfold dir_count. rewrite Hlen. unfold dir_count, DIR_ENTRY_SIZE in *. Z.div_mod_to_equations. lia.
  - rewrite <- (bytes_to_entry_to_bytes e He). apply entry_at_bytes; [by apply entry_to_bytes_length|].
    intros k Hk. rewrite Hb by (unfold DIR_ENTRY_SIZE in *; lia). rewrite decide_True by lia.
    f_equal. lia.
  - intros j Hj Hne. unfold entry_at. f_equal. apply list_fmap_ext. intros n k Hk.
    apply lookup_seqZ in Hk as [-> Hk].
    assert (DIR_ENTRY_SIZE * j + DIR_ENTRY_SIZE <= flen a s) as Hjl
      by (unfold dir_count, DIR_ENTRY_SIZE in *; Z.div_mod_to_equations; lia).
    rewrite Hb by (unfold DIR_ENTRY_SIZE in *; lia).
    rewrite decide_False by (unfold DIR_ENTRY_SIZE in *; lia). done.
Qed.

Lemma wp_write_entry fs s i e (Q : Z -> FS D -> Prop) :
  fs_ok fs -> file_at (abs fs) s -> deny_count (abs fs) s <= 0 -> entry_wf e ->
  0 <= i <= dir_count (abs fs) s -> DIR_ENTRY_SIZE * i + DIR_ENTRY_SIZE <= MAX_BYTES ->
  (forall n fs', fs_ok fs' -> file_at (abs fs') s ->
     (n = DIR_ENTRY_SIZE /\ slot_upd (abs fs) s i e (abs fs')) \/
     (n < DIR_ENTRY_SIZE /\ a_full (abs fs')) -> Q n fs') ->
  wp (write_at s (entry_to_bytes e) DIR_ENTRY_SIZE (DIR_ENTRY_SIZE * i)) fs Q.
Proof.
  intros Hok Hfa Hd He Hi Hm HQ. eapply wp_mono.
  { apply (wp_write_at fs s); [done|done|done|by apply entry_to_bytes_u8| | |done].
    - by rewrite entry_to_bytes_length.
    - unfold DIR_ENTRY_SIZE. lia. }
  intros n fs' [Hok' Hr]. apply HQ; [done|apply Hr|].
  pose proof (wr_count _ _ _ _ _ _ _ Hr). destruct (decide (n = DIR_ENTRY_SIZE)) as [->|].
  - left. split; [done|]. apply write_result_slot; try done. apply Hfa.
  - right. split; [lia|]. apply (wr_short _ _ _ _ _ _ _ Hr). lia.
Qed.

(** [add], up to running out of disk space. *)
Lemma wp_add fs d name sec (Q : bool -> FS D -> Prop) :
  fs_ok fs -> file_at (abs fs) (dir_sector d) -> deny_count (abs fs) (dir_sector d) <= 0 ->
  flen (abs fs) (dir_sector d) + DIR_ENTRY_SIZE <= MAX_BYTES ->
  Forall (fun b => 0 < b < 256) name -> in_u32 sec ->
  (forall r fs', fs_ok fs' -> abs fs' = abs fs -> finds (abs fs) (dir_sector d) name (Some r) -> Q false fs') ->
  (forall fs', fs_ok fs' -> abs fs' = abs fs -> NAME_MAX < Z.of_nat (List.length name) -> Q false fs') ->
  (forall b fs', fs_ok fs' -> file_at (abs fs') (dir_sector d) -> name_ok name ->
     finds (abs fs) (dir_sector d) name None -> a_full (abs fs') -> Q b fs') ->
  (forall i fs', fs_ok fs' -> file_at (abs fs') (dir_sector d) -> name_ok name ->
     finds (abs fs) (dir_sector d) name None -> 0 <= i <= dir_count (abs fs) (dir_sector d) ->
     (i < dir_count (abs fs) (dir_sector d) -> e_in_use (entry_at (abs fs) (dir_sector d) i) = 0) ->
     slot_upd (abs fs) (dir_sector d) i (make_entry name sec) (abs fs') -> Q true fs') ->
  wp (add d name sec) fs Q.
Proof.
  intros Hok Hfa Hd Hm Hn Hs Qdup Qlong Qfull Qok. unfold add.
  apply wp_bind, wp_lookup; [done|done|]. intros [r|] fs1 Hok1 Ha1 Hfind; [by apply wp_ret, (Qdup r)|].
  rewrite <- Ha1 in *. set (s := dir_sector d) in *.
  destruct (Z.ltb_spec NAME_MAX (Z.of_nat (List.length name))) as [Hl|Hl]; [by apply wp_ret, Qlong|].
  assert (name_ok name) as Hno by done. pose proof (make_entry_wf name sec Hno Hs) as Hwf.
  apply wp_bind, wp_entry_count; [done|done|]. intros fs2 Hok2 Ha2. rewrite <- Ha2 in *.
  pose proof (fa_len _ _ Hfa) as Hfl.
  assert (0 <= dir_count (abs fs2) s /\ DIR_ENTRY_SIZE * dir_count (abs fs2) s <= flen (abs fs2) s) as [Hc0 Hc1].
  { unfold dir_count, DIR_ENTRY_SIZE. Z.div_mod_to_equations. lia. }
  apply wp_bind. apply (wp_scan (fun _ => True)); try done.
  - intros i fs' Hi _ Hok' Ha'. rewrite <- Ha' in *.
    destruct (Z.eqb_spec (e_in_use (entry_at (abs fs') s i)) 0) as [E|E]; [|by apply wp_ret].
    apply wp_bind, wp_write_entry; try done; [lia|unfold DIR_ENTRY_SIZE in *; lia|].
    intros n fs3 Hok3 Hfa3 [[-> Hu]|[_ Hf]]; do 2 apply wp_ret.
    + apply (Qok i); try done; lia.
    + by apply Qfull.
  - intros fs' Hok' Ha' _. rewrite <- Ha' in *. pose proof MAX_i32.
    apply wp_bind, wp_i32_mul; [unfold in_i32, i32_min, DIR_ENTRY_SIZE in *; lia|].
    rewrite (Z.mul_comm (dir_count _ _)).
    apply wp_bind, wp_write_entry; try done; [lia|].
    intros n fs3 Hok3 Hfa3 [[-> Hu]|[Hn3 Hf]]; apply wp_ret.
    + apply (Qok (dir_count (abs fs') s)); try done; lia.
    + by apply Qfull.
Qed.

End dir.

(** A new entry in a free slot answers for its name and for no other. *)
Lemma finds_new a s i name sec a' :
  name_ok name -> finds a s name None -> 0 <= i <= dir_count a s ->
  (i < dir_count a s -> e_in_use (entry_at a s i) = 0) ->
  slot_upd a s i (make_entry name sec) a' -> finds a' s name (Some sec).
Proof.
  intros Hno Hf Hi Hfree (Hc & He & Ho). exists i. split; [lia|]. rewrite He, name_matches_make by done.
  split; [by apply bool_decide_true|]. split; [done|].
  intros j Hj. rewrite Ho by lia. apply Hf. lia.
Qed.

Lemma unused_no_match e name : e_in_use e = 0 -> name_matches e name = false.
Proof. intros H. unfold name_matches. by rewrite H. Qed.

Lemma finds_other a s i name sec a' other r :
  name_ok name -> 0 <= i <= dir_count a s ->
  (i < dir_count a s -> e_in_use (entry_at a s i) = 0) ->
  slot_upd a s i (make_entry name sec) a' -> other <> name -> finds a s other r -> finds a' s other r.
Proof.
  intros Hno Hi Hfree (Hc & He & Ho) Hne.
  assert (name_matches (entry_at a' s i) other = false) as Hni
    by (rewrite He, name_matches_make by done; by apply bool_decide_false).
  assert (forall j, 0 <= j < dir_count a s -> j <> i -> name_matches (entry_at a' s j) other =
    name_matches (entry_at a s j) other) as Hsame by (intros j Hj Hji; by rewrite Ho).
  destruct r as [t|]; unfold finds.
  - intros (j & Hj & Hm & -> & Hb).
    assert (j <> i) as Hji.
    { intros ->. rewrite unused_no_match in Hm; [done|]. apply Hfree. lia. }
    exists j. split; [lia|]. split; [by rewrite Hsame|]. split; [by rewrite Ho by lia|].
    intros j' Hj'. destruct (decide (j' = i)) as [->|]; [done|]. rewrite Hsame by lia. by apply Hb.
  - intros Hb j Hj. destruct (decide (j = i)) as [->|]; [done|]. rewrite Hsame by lia. apply Hb. lia.
Qed.

(** C6: a directory is a map from names to inodes.  Let the directory be an open or closed file of
    a consistent file system, not write-protected and with room for one more entry below the
    largest file size, and let the name have no NUL byte.  A name that is already there, or is
    longer than 14 bytes, is refused and the disk is unchanged, full or not.  Any other name is
    added, unless the disk runs out of space; then [lookup] of the name returns the new inode,
    and [lookup] of every other name returns what it returned before.  [add] never panics or
    loops. *)
Theorem add_then_lookup {D : Type} `{!BlockOps D, !BlockLaws D} (fs : FS D) (d : Dir)
    (name : list Z) (sec : Z) :
  fs_ok fs -> file_at (abs fs) (dir_sector d) -> deny_count (abs fs) (dir_sector d) <= 0 ->
  flen (abs fs) (dir_sector d) + DIR_ENTRY_SIZE <= MAX_BYTES ->
  Forall (fun b => 0 < b < 256) name -> in_u32 sec ->
  wp (let! old := lookup d name in
      let! ok := add d name sec in
      let! new := lookup d name in
      ret (old, ok, new)) fs (fun x fs' =>
    let '(old, ok, new) := x in
    ((is_Some old \/ NAME_MAX < Z.of_nat (List.length name)) /\ ok = false /\ new = old /\ abs fs' = abs fs) \/
    (old = None /\ Z.of_nat (List.length name) <= NAME_MAX /\
     (a_full (abs fs') \/
      (ok = true /\ new = Some sec /\
       forall other r, other <> name -> finds (abs fs) (dir_sector d) other r ->
         finds (abs fs') (dir_sector d) other r)))).
Proof.
  intros Hok Hfa Hd Hm Hn Hs. set (s := dir_sector d) in *.
  assert (forall a r r', finds a s name r -> finds a s name r' -> r = r') as Hfun.
  { intros a [x|] [y|]; unfold finds; try done.
    - intros (i & Hi & Hmi & -> & Hbi) (j & Hj & Hmj & -> & Hbj).
      destruct (Z.lt_trichotomy i j) as [?|[->|?]]; [|done|].
      + rewrite Hbj in Hmi by lia. done.
      + rewrite Hbi in Hmj by lia. done.
    - intros (i & Hi & Hmi & _) H. by rewrite H in Hmi.
    - intros H (i & Hi & Hmi & _). by rewrite H in Hmi. }
  apply wp_bind, wp_lookup; [done|done|]. intros old fs1 Hok1 Ha1 Hold. rewrite <- Ha1 in *.
  apply wp_bind, wp_add; try done.
  - intros r fs2 Hok2 Ha2 Hr. rewrite <- Ha2 in *. apply wp_bind, wp_lookup; [done|done|].
    intros new fs3 Hok3 Ha3 Hnew. apply wp_ret. left.
    rewrite (Hfun _ _ _ Hold Hr), (Hfun _ _ _ Hnew Hr). split_and!; try done. left. by eexists.
  - intros fs2 Hok2 Ha2 Hl. rewrite <- Ha2 in *. apply wp_bind, wp_lookup; [done|done|].
    intros new fs3 Hok3 Ha3 Hnew. apply wp_ret. left. split_and!; try done; [by right|].
    by apply (Hfun (abs fs2)).
  - intros b fs2 Hok2 Hfa2 Hno Hnone Hfull. apply wp_bind, wp_lookup; [done|done|].
    intros new fs3 Hok3 Ha3 _. apply wp_ret. right. split_and!; [by apply (Hfun (abs fs1))|apply Hno|].
    left. by rewrite Ha3.
  - intros i fs2 Hok2 Hfa2 Hno Hnone Hi Hfree Hu. apply wp_bind, wp_lookup; [done|done|].
    intros new fs3 Hok3 Ha3 Hnew. apply wp_ret. right. fold s in Hu, Hfree, Hnew, Hnone.
    assert (new = Some sec) as -> by (apply (Hfun (abs fs2)); [done|]; by eapply finds_new).
    split_and!; [by apply (Hfun (abs fs1))|apply Hno|right; split_and!; try done].
    intros other r Hne Hr. rewrite Ha3. by eapply finds_other.
Qed.

Lemma add_then_lookup_witness :
  wp (let! old := lookup (mkDir 4 0) [97] in
      let! ok := add (mkDir 4 0) [97] 9 in
      let! new := lookup (mkDir 4 0) [97] in
      ret (old, ok, new)) demo_fs (fun x fs' =>
    x.1.1 = None -> a_full (abs fs') \/ x.2 = Some 9).
Proof.
  eapply wp_mono; [apply (add_then_lookup demo_fs (mkDir 4 0) [97] 9)|].
  - exact demo_fs_ok.
  - apply (demo_file 4). by left.
  - done.
  - cbn [dir_sector]. unfold flen. rewrite (demo_inode 4) by auto. done.
  - repeat constructor; done.
  - done.
  - intros [[old ok] new] fs' [([H|H] & _)|(_ & _ & [H|(_ & -> & _)])] E; simpl in *; auto; [subst old; by destruct H|done].
Defined.

(** ** Removal *)
Lemma set_in_use_wf n e : entry_wf e -> in_u8 n -> entry_wf (set_in_use n e).
Proof. by intros [] ?. Qed.

Section removal.
#[local] Opaque abs.
Context {D : Type} `{!BlockOps D, !BlockLaws D}.

Lemma entry_at_wf (fs : FS D) s i : fs_ok fs -> entry_wf (entry_at (abs fs) s i).
Proof.
  intros Hok. unfold entry_at. set (l := _ <$> _).
  assert (Forall in_u8 l) as Hl by (apply Forall_fmap, Forall_true; intros; by apply contents_u8).
  assert (List.length l = 20%nat) as Hn by (unfold l; by rewrite length_fmap, length_seqZ).
  unfold bytes_to_entry. split; cbn [e_sector e_name e_in_use].
  - by apply le_word_in_u32, Forall_slice.
  - rewrite slice_length by lia. done.
  - by apply Forall_slice.
  - unfold byte_at. destruct (l !! _) eqn:E; [|done]. simpl. by eapply Forall_lookup_1, E.
Qed.

Lemma file_at_removed a s t : file_at a s -> file_at (a_set_inodes (alter set_removed t (a_in a)) a) s.
Proof.
  intros [F1 F2 F3 F4 F5]. split; try done. intros i. simpl. destruct (decide (s = t)) as [->|Hne].
  - rewrite lookup_alter_eq. intros (j & Hj & ->)%fmap_Some. simpl. by apply F5.
  - rewrite lookup_alter_ne by done. apply F5.
Qed.

(** [remove] of a name whose entry is not a directory. *)
Lemma wp_dir_remove fs d name t (Q : bool -> FS D -> Prop) :
  fs_ok fs -> file_at (abs fs) (dir_sector d) -> deny_count (abs fs) (dir_sector d) <= 0 ->
  finds (abs fs) (dir_sector d) name (Some t) -> t < a_n (abs fs) ->
  d_is_dir (inode_of (abs fs) t) = 0 ->
  (forall i, a_in (abs fs) !! t = Some i -> i_is_dir i = false) ->
  (forall i fs', fs_ok fs' -> 0 <= i < dir_count (abs fs) (dir_sector d) ->
     name_matches (entry_at (abs fs) (dir_sector d) i) name = true ->
     (a_full (abs fs') \/
      slot_upd (abs fs) (dir_sector d) i (set_in_use 0 (entry_at (abs fs) (dir_sector d) i)) (abs fs')) ->
     (forall j, a_in (abs fs) !! t = Some j -> option_map i_removed (a_in (abs fs') !! t) = Some true) ->
     Q true fs') ->
  wp (remove d name) fs Q.
Proof.
  intros Hok Hfa Hd Hfind Ht Hdir Hcd HQ. unfold remove. set (s := dir_sector d) in *.
  apply wp_bind, wp_entry_count; [done|done|]. intros fs1 Hok1 Ha1. rewrite <- Ha1 in *.
  destruct Hfind as (i & Hi & Hm & -> & Hbef). pose proof (fa_len _ _ Hfa) as Hfl.
  apply wp_bind. apply (wp_scan (fun k => k <= i)); [done|done|lia|lia|..].
  2:{ intros. lia. }
  intros k fs2 Hk HJ Hok2 Ha2. rewrite <- Ha2 in *. destruct (decide (k = i)) as [->|Hne].
  2:{ rewrite Hbef by lia. apply wp_ret. split_and!; [done|done|lia]. }
  rewrite Hm. set (e := entry_at (abs fs2) s i) in *. apply wp_bind.
  apply (wp_mono _ _ (fun b fs' => b = false /\ fs_ok fs' /\ abs fs' = abs fs2)).
  { unfold is_dir. apply wp_bind, wp_gets. rewrite abs_in. destruct (a_in (abs fs2) !! e_sector e) as [j|] eqn:E.
    - apply wp_ret. split_and!; [by apply Hcd|done|done].
    - apply wp_bind, wp_read_inode; [done|done|]. intros fs' Hok' Ha'. apply wp_ret. by rewrite Hdir. }
  intros b fs3 (-> & Hok3 & Ha3). apply wp_bind, wp_ret. cbv iota.
  apply wp_bind, wp_modify. set (fs4 := with_inodes _ fs3).
  assert (abs fs4 = a_set_inodes (alter set_removed (e_sector e) (a_in (abs fs2))) (abs fs2)) as Ha4
    by (unfold fs4; by rewrite abs_inodes, abs_in, Ha3).
  assert (forall x y, entry_at (abs fs4) x y = entry_at (abs fs2) x y) as Hen by (intros; by rewrite Ha4).
  assert (dir_count (abs fs4) s = dir_count (abs fs2) s) as Hdc by (by rewrite Ha4).
  assert (entry_wf (set_in_use 0 e)) as Hwf by (apply set_in_use_wf; [by apply entry_at_wf|done]).
  apply wp_bind. eapply wp_mono.
  { apply (wp_write_at fs4 s); [by apply fs_ok_inodes|rewrite Ha4; by apply file_at_removed| | | |unfold DIR_ENTRY_SIZE; lia|].
    - unfold deny_count in *. rewrite Ha4. cbn [a_in a_set_inodes]. destruct (decide (s = e_sector e)) as [Es|].
      + rewrite <- Es, lookup_alter_eq. by destruct (a_in (abs fs2) !! s).
      + by rewrite lookup_alter_ne.
    - by apply entry_to_bytes_u8.
    - by rewrite entry_to_bytes_length.
    - unfold dir_count, DIR_ENTRY_SIZE in *. Z.div_mod_to_equations. lia. }
  intros n fs5 [Hok5 Hr]. apply wp_ret. do 2 apply wp_ret. apply (HQ i); [done|done|done| |].
  - destruct (decide (n < DIR_ENTRY_SIZE)); [left; by apply (wr_short _ _ _ _ _ _ _ Hr)|right].
    pose proof (wr_count _ _ _ _ _ _ _ Hr). assert (n = DIR_ENTRY_SIZE) as -> by lia.
    apply write_result_slot in Hr; [|done|rewrite Hdc; lia| |].
    + destruct Hr as (H1 & H2 & H3). split_and!; [by rewrite H1, Hdc|done|].
      intros j Hj Hji. rewrite H3 by (try rewrite Hdc; done). apply Hen.
    + rewrite Ha4. apply Hfl.
    + unfold dir_count, DIR_ENTRY_SIZE in *. Z.div_mod_to_equations. lia.
  - intros j Hj. rewrite (wr_inodes _ _ _ _ _ _ _ Hr), Ha4. cbn [a_in a_set_inodes]. destruct (decide (s = e_sector e)) as [Es|Hns].
    + rewrite Es, !lookup_alter_eq, Hj. done.
    + rewrite lookup_alter_ne by done. rewrite lookup_alter_eq, Hj. done.
Qed.
End removal.

(** Names are unique in a directory: two live entries differ in their names. *)
Definition unique_name (a : afs) (s : Z) (name : list Z) : Prop :=
  forall i j, 0 <= i < dir_count a s -> 0 <= j < dir_count a s ->
    name_matches (entry_at a s i) name = true -> name_matches (entry_at a s j) name = true -> i = j.

Lemma name_matches_two e n1 n2 : name_matches e n1 = true -> name_matches e n2 = true -> n1 = n2.
Proof.
  unfold name_matches. destruct (e_in_use e =? 0); [done|].
  repeat case_bool_decide; simpl; try done. congruence.
Qed.

Lemma finds_cleared a s i a' name :
  0 <= i < dir_count a s -> name_matches (entry_at a s i) name = true -> unique_name a s name ->
  slot_upd a s i (set_in_use 0 (entry_at a s i)) a' ->
  finds a' s name None /\ forall other r, other <> name -> finds a s other r -> finds a' s other r.
Proof.
  intros Hi Hm Huq (Hc & He & Ho). assert (dir_count a' s = dir_count a s) as Hcc by lia.
  assert (forall n, name_matches (entry_at a' s i) n = false) as Hnone by (intros n; rewrite He; by apply unused_no_match).
  assert (forall j n, 0 <= j < dir_count a s -> j <> i -> name_matches (entry_at a' s j) n =
    name_matches (entry_at a s j) n) as Hsame by (intros j n Hj Hji; by rewrite Ho).
  split.
  - intros j Hj. rewrite Hcc in Hj. destruct (decide (j = i)) as [->|Hji]; [apply Hnone|]. rewrite Hsame by done.
    destruct (name_matches (entry_at a s j) name) eqn:E; [|done]. destruct Hji. by apply Huq.
  - intros other [t|] Hne; unfold finds; rewrite Hcc.
    + intros (j & Hj & Hmj & -> & Hb).
      assert (j <> i) as Hji by (intros ->; by apply Hne, (name_matches_two (entry_at a s i))).
      exists j. split_and!; [lia..|by rewrite Hsame|by rewrite Ho|].
      intros k Hk. destruct (decide (k = i)) as [->|]; [apply Hnone|]. rewrite Hsame by lia. by apply Hb.
    + intros Hb j Hj. destruct (decide (j = i)) as [->|]; [apply Hnone|]. rewrite Hsame by lia. by apply Hb.
Qed.

(** C10: removing a name.  In a directory where the name of a regular file occurs once, [remove] of
    that name returns true; unless the disk ran full, the name then resolves to nothing and every
    other name resolves as before; an inode that is open is marked removed, so that its sectors are
    given back when it is closed. *)
Theorem remove_then_lookup {D : Type} `{!BlockOps D, !BlockLaws D} (fs : FS D) (d : Dir)
    (name : list Z) (t : Z) :
  fs_ok fs -> file_at (abs fs) (dir_sector d) -> deny_count (abs fs) (dir_sector d) <= 0 ->
  unique_name (abs fs) (dir_sector d) name -> finds (abs fs) (dir_sector d) name (Some t) ->
  t < a_n (abs fs) -> d_is_dir (inode_of (abs fs) t) = 0 ->
  (forall i, a_in (abs fs) !! t = Some i -> i_is_dir i = false) ->
  wp (remove d name) fs (fun ok fs' => fs_ok fs' /\ ok = true /\
    (a_full (abs fs') \/
     finds (abs fs') (dir_sector d) name None /\
     forall other r, other <> name -> finds (abs fs) (dir_sector d) other r ->
       finds (abs fs') (dir_sector d) other r) /\
    (is_Some (a_in (abs fs) !! t) -> option_map i_removed (a_in (abs fs') !! t) = Some true)).
Proof.
  intros Hok Hfa Hd Huq Hf Ht Hdir Hc. eapply wp_dir_remove; [done..|].
  intros i fs' Hok' Hi Hm Hs Hr. split_and!; [done|done| |].
  - destruct Hs as [?|Hs]; [by left|right]. by eapply finds_cleared.
  - intros [j Hj]. by eapply Hr.
Qed.

(** A directory at sector 4 with one entry, [a], for the empty file at sector 5. *)
Definition demo_entry : DirEntry := make_entry [97] 5.
Definition demo_dir_inode : InodeDisk := set_direct (<[0%nat := 6]> (direct_blocks new_boxed)) (set_lengths 20 20 new_boxed).
Definition demo_dir_fs : FS RamDisk :=
  mkFS (mkBio (mkRegistry [mkDevice [104; 100; 97; 0] Raw 16
                 (<[4 := to_bytes demo_dir_inode]> (<[5 := to_bytes new_boxed]>
                    (<[6 := splice 0 (entry_to_bytes demo_entry) (zeros 512)]> ∅))) 0 0]
                [Some 0%nat; None; None; None])
          (mkBCache false (replicate (Z.to_nat NBUF) (mkBuf 0 0 0 (zeros BLOCK_SECTOR_SIZE)))))
       (mkFreeMap [0x7f; 0] 16 false) ∅.

Lemma demo_dir_fs_ok : fs_ok demo_dir_fs.
Proof.
  split; [apply bio_ok_fresh; by eexists| |done|done]. split; [done|done|]. repeat constructor; done.
Qed.

Lemma demo_dir_slots v sl : slot_ok sl -> slot_ptr v demo_dir_inode sl = if decide (sl = SData 0) then 6 else 0.
Proof.
  intros Hsl. unfold demo_dir_inode.
  rewrite (link_direct v (set_lengths 20 20 new_boxed) 0 6) by (done || by destruct new_boxed_wf; split).
  case_decide; [done|]. by apply no_blocks_ptr.
Qed.

Lemma demo_dir_file : file_at (abs demo_dir_fs) 4.
Proof.
  assert (inode_of (abs demo_dir_fs) 4 = demo_dir_inode) as Ei by by vm_compute.
  split; unfold flen; rewrite ?Ei; try done. split.
  - pose proof new_boxed_wf as []. unfold demo_dir_inode. split; try done. repeat constructor; done.
  - intros sl Hsl. rewrite demo_dir_slots by done. case_decide; [by vm_compute|done].
  - intros x y Hx Hy. rewrite !demo_dir_slots by done. repeat case_decide; congruence.
Qed.

Lemma remove_then_lookup_witness :
  wp (remove (mkDir 4 0) [97]) demo_dir_fs (fun ok _ => ok = true).
Proof.
  assert (dir_count (abs demo_dir_fs) 4 = 1) as Hc by by vm_compute.
  assert (entry_at (abs demo_dir_fs) 4 0 = demo_entry) as He by by vm_compute.
  eapply wp_mono; [apply (remove_then_lookup demo_dir_fs (mkDir 4 0) [97] 5)|].
  - exact demo_dir_fs_ok.
  - exact demo_dir_file.
  - done.
  - intros i j. cbn [dir_sector]. rewrite Hc. lia.
  - exists 0. cbn [dir_sector]. rewrite Hc, He. split_and!; [lia|lia|done|done|lia].
  - done.
  - by vm_compute.
  - done.
  - by intros ok fs' (_ & ? & _).
Defined.
