(* ===== verification/InodeLife.v ===== *)
(** The life of a file (src/filesys/inode.rs): [create], [open], [truncate], [remove] and [close]
    as changes of the set of allocated sectors. *)
From S2P Require Import Prelude Utf8 Block Bio FreeMap Inode InodeLayout FileMap InodeOps InodeAlloc InodeWrite InodeProofs.

(** ** Creation *)

(** After the first [i] turns of [create]'s loop: the direct slots below [i] name fresh zeroed
    sectors, no other slot names anything, and nothing else has been allocated. *)
Record creating (a0 : afs) (s : Z) (d0 : InodeDisk) (i : Z) (a : afs) (d : InodeDisk) : Prop := {
  cr_fok : fok a s d;
  cr_fext : fext a0 d0 a d;
  cr_data : forall k, 0 <= k < MAX_BLOCKS ->
    if decide (k < i)
    then slot_ptr (a_v a) d (SData k) <> 0 /\ a_v a (slot_ptr (a_v a) d (SData k)) = zeros BLOCK_SECTOR_SIZE
    else slot_ptr (a_v a) d (SData k) = 0;
  cr_ind : indirect_block d = 0;
  cr_dbl : doubly_indirect_block d = 0;
  cr_used : forall t, a_u a t = true -> a_u a0 t = true \/ file_sector (a_v a) d t;
}.

(** One more block. *)
Lemma creating_step a0 s d0 i a d b :
  creating a0 s d0 i a d -> 0 <= i < DIRECT_PTR_CNT -> 2 <= b < a_n a -> a_u a b = false -> b <> s -> in_u32 b ->
  creating a0 s d0 (i + 1) (a_write b (zeros BLOCK_SECTOR_SIZE) (a_alloc b a))
    (set_direct (<[Z.to_nat i := b]> (direct_blocks d)) d).
Proof.
  intros [Hf Hx Hd Hi0 Hd0 Hu] Hi Hb Hub Hbs Hb32.
  set (a' := a_write _ _ _). set (d' := set_direct _ _).
  destruct (alloc_unlinked _ _ _ _ Hf Hb Hub) as (_ & _ & Hfr).
  assert (disk_wf d') as Hw by (apply disk_wf_set_direct; [apply Hf|done]).
  assert (linked (a_v a) (a_v a') d d' (SData i) b) as Hl.
  { intros sl Hsl. subst d'. rewrite (link_direct (a_v a') d i b Hi (f_wf _ _ _ _ _ Hf) sl Hsl).
    case_decide; [done|]. subst a'. simpl. by rewrite slot_ptr_vupd by (done || by apply fresh_not_index). }
  assert (slot_ok (SData i)) as Hsi by (simpl; unfold_sizes; lia).
  assert (forall t, t <> b -> a_v a' t = a_v a t) as Hv by (intros; by apply vupd_ne).
  assert (forall k, 0 <= k < MAX_BLOCKS -> slot_ptr (a_v a) d (SData k) <> b) as Hne by (intros k Hk; by apply (Hfr (SData k))).
  assert (fext a d a' d') as Hx'.
  { split; try done; [intros t Ht; by apply uadd_mono| |].
    - intros t (sl & Hsl & Hp & Ht). rewrite (Hl sl Hsl) in Hp. case_decide; [right; by subst|left; by exists sl].
    - intros t Ht _. apply vupd_ne. intros ->. congruence. }
  split.
  - eapply (fok_link a); try done; simpl; auto using uadd_mono, uadd_self.
  - by eapply fext_trans.
  - intros k Hk. rewrite (Hl (SData k) Hk). specialize (Hd k Hk). destruct (decide (k = i)) as [->|Hki].
    + rewrite decide_True by lia. rewrite decide_True by done. split; [lia|]. simpl. apply vupd_eq.
    + rewrite (decide_False (P := SData k = SData i)) by congruence. repeat case_decide; try lia; try done.
      destruct Hd as [? Hz]. split; [done|]. rewrite Hv; [done|by apply Hne].
  - done.
  - done.
  - intros t Ht. simpl in Ht. unfold uadd in Ht. destruct (decide (t = b)) as [->|Hne'].
    + right. exists (SData i). rewrite (Hl _ Hsi), decide_True by done. split_and!; [done|done|lia].
    + rewrite bool_decide_false in Ht by done. destruct (Hu t Ht) as [?|(sl & Hsl & Hp & Hnz)]; [by left|right].
      exists sl. rewrite (Hl sl Hsl). split_and!; [done| |done]. case_decide as Es; [|done]. subst sl.
      specialize (Hd i Hsi). rewrite decide_False in Hd by lia. congruence.
Qed.

Section life.
#[local] Opaque abs.
#[local] Arguments slot_ptr : simpl never.
Context {D : Type} `{!BlockOps D, !BlockLaws D}.

Lemma wp_create_blocks a0 s d0 cnt : forall i fs d (Q : option InodeDisk -> FS D -> Prop),
  0 <= i <= cnt -> cnt <= DIRECT_PTR_CNT -> fs_ok fs -> creating a0 s d0 i (abs fs) d -> a_u a0 s = true ->
  (forall d' fs', fs_ok fs' -> creating a0 s d0 cnt (abs fs') d' -> Q (Some d') fs') ->
  (forall fs', fs_ok fs' -> a_full (abs fs') -> Q None fs') ->
  wp (create_blocks (range i cnt) d) fs Q.
Proof.
  intros i. pattern i. set (P := fun _ => _). intros fs d Q Hi.
  revert fs d Q Hi. change (P i). destruct (Z.le_gt_cases i cnt) as [Hle|]; [|intros ? ? ? ?; lia].
  apply (range_ind P i cnt); [|intros l Hl IH|done]; subst P; simpl.
  - intros fs d Q _ Hc Hok Hcr _ HS _. rewrite range_nil by lia. by apply wp_ret, HS.
  - intros fs d Q Hi Hc Hok Hcr Hs HS HN. rewrite range_cons by lia. simpl.
    apply wp_bind, wp_alloc; [done| |by intros; apply wp_ret, HN].
    intros b fs1 Hok1 Hb Hub Ha1. apply wp_bind. unfold set_block_sector.
    rewrite (proj2 (Z.ltb_lt _ _)) by lia. pose proof (cr_fok _ _ _ _ _ _ Hcr) as Hf.
    apply wp_bind, wp_index_set; [rewrite (wf_direct_len _ (f_wf _ _ _ _ _ Hf)); unfold_sizes; lia|].
    apply wp_ret. apply wp_bind, wp_zero_sector; [done|rewrite Ha1; simpl; lia|]. intros fs2 Hok2 Ha2.
    apply IH; try done; [lia|]. rewrite Ha2, Ha1. apply creating_step; try done; [lia| |].
    + intros ->. rewrite (x_u _ _ _ _ (cr_fext _ _ _ _ _ _ Hcr) s Hs) in Hub. done.
    + eapply in_u32_sector; [exact Hok|lia].
Qed.

(** A new file at [s]: [len] zero bytes, stored in sectors that were free; everything else that
    was allocated is as before. *)
Record created (a : afs) (s len : Z) (dir : bool) (a' : afs) : Prop := {
  cd_file : file_at a' s;
  cd_len : flen a' s = len;
  cd_dir : d_is_dir (inode_of a' s) = if dir then 1 else 0;
  cd_zero : forall o, 0 <= o < MAX_BYTES -> contents a' s o = 0;
  cd_fresh : forall t, file_sector (a_v a') (inode_of a' s) t -> a_u a t = false;
  cd_data : forall k, 0 <= k < MAX_BLOCKS ->
    slot_ptr (a_v a') (inode_of a' s) (SData k) <> 0 <-> k < bytes_to_sectors len;
  cd_used : forall t, a_u a' t = true <-> a_u a t = true \/ file_sector (a_v a') (inode_of a' s) t;
  cd_frame : forall t, a_u a t = true -> t <> s -> a_v a' t = a_v a t;
  cd_n : a_n a' = a_n a;
  cd_in : a_in a' = a_in a;
}.

Lemma bytes_to_sectors_bound len : 0 <= len <= DIRECT_PTR_CNT * BLOCK_SECTOR_SIZE ->
  0 <= bytes_to_sectors len <= DIRECT_PTR_CNT.
Proof.
  intros H. unfold bytes_to_sectors. unfold_sizes. destruct (Z.leb_spec len 0); [lia|].
  Z.div_mod_to_equations. lia.
Qed.

Lemma creating_created a s len (dir : bool) cnt (fs : FS D) d :
  let d0 := set_is_dir (if dir then 1 else 0) (set_lengths len len new_boxed) in
  0 <= len <= DIRECT_PTR_CNT * BLOCK_SECTOR_SIZE -> cnt = bytes_to_sectors len ->
  0 <= s < a_n a -> a_u a s = true -> a_in a !! s = None -> creating a s d0 cnt (abs fs) d ->
  created a s len dir (a_write s (to_bytes d) (abs fs)).
Proof.
  intros d0 Hlen -> Hs Hus Hin [Hf Hx Hd Hi0 Hd0 Hu].
  destruct (store_inode (abs fs) s d d) as (Ei & Hf' & Hsec & Hby); [done|by split_and!|apply Hf|].
  set (a' := a_write s (to_bytes d) (abs fs)) in *.
  assert (meta d = meta d0) as Hm by apply Hx. unfold meta in Hm. simpl in Hm.
  injection Hm as El Ewe _ Edir _ _.
  assert (forall t, ~ file_sector (a_v a) d0 t) as Hnone.
  { intros t (sl & Hsl & Hp & Ht). rewrite no_blocks_ptr in Hp; [done|]. by split_and!. }
  assert (forall t, file_sector (a_v (abs fs)) d t -> a_u a t = false) as Hfresh.
  { intros t [?|?]%(x_fs _ _ _ _ Hx); [|done]. by destruct (Hnone t). }
  assert (forall sl, slot_ok sl -> slot_ptr (a_v a') d sl = slot_ptr (a_v (abs fs)) d sl) as Hsl.
  { intros sl Hok. apply slot_ptr_ext; [by split_and!| |done]. intros t Ht. apply vupd_ne. intros ->.
    by eapply (sector_not_own (abs fs) s d), index_file. }
  pose proof (bytes_to_sectors_bound len Hlen) as Hcnt.
  split; rewrite ?Ei.
  - split; rewrite ?Ei; [done|by apply (x_u _ _ _ _ Hx)|simpl; by rewrite (x_n _ _ _ _ Hx)| |].
    + unfold flen. rewrite Ei, El. unfold MAX_BYTES. unfold_sizes. lia.
    + intros i Hi. simpl in Hi. rewrite (x_in _ _ _ _ Hx), Hin in Hi. done.
  - unfold flen. by rewrite Ei.
  - done.
  - intros o Ho. unfold contents. rewrite Ei, Hby by done. unfold fbyte, file_byte.
    specialize (Hd _ (block_of_offset _ Ho)). case_decide; [|by rewrite Hd].
    destruct Hd as [Hnz Hz]. rewrite (proj2 (Z.eqb_neq _ _) Hnz), Hz. apply byte_at_zeros.
  - intros t Ht%Hsec. by apply Hfresh.
  - intros k Hk. rewrite (Hsl (SData k) Hk). specialize (Hd k Hk). case_decide; [by destruct Hd|].
    rewrite Hd. split; [done|lia].
  - intros t. split.
    + intros [?|?]%Hu; [by left|right]. by apply Hsec.
    + intros [?|Ht%Hsec]; [by apply (x_u _ _ _ _ Hx)|]. destruct Ht as (sl & Hok & <- & Hnz).
      by apply (f_ptr _ _ _ _ _ Hf).
  - intros t Ht Hne. simpl. rewrite vupd_ne by done. apply (x_v _ _ _ _ Hx); [done|apply Hnone].
  - apply Hx.
  - apply Hx.
Qed.

Lemma wp_create fs s len dir (Q : bool -> FS D -> Prop) :
  fs_ok fs -> 0 <= len <= DIRECT_PTR_CNT * BLOCK_SECTOR_SIZE -> 0 <= s < a_n (abs fs) ->
  a_u (abs fs) s = true -> a_in (abs fs) !! s = None ->
  (forall fs', fs_ok fs' -> created (abs fs) s len dir (abs fs') -> Q true fs') ->
  (forall fs', fs_ok fs' -> a_full (abs fs') -> Q false fs') ->
  wp (create s len dir) fs Q.
Proof.
  intros Hok Hlen Hs Hus Hin HS HN. unfold create.
  set (d0 := set_is_dir _ _). pose proof (bytes_to_sectors_bound len Hlen) as Hcnt.
  assert (disk_wf d0) as Hw0.
  { pose proof new_boxed_wf as []. assert (in_i32 len) by (unfold in_i32, i32_min, i32_max; unfold_sizes; lia).
    split; try done. destruct dir; done. }
  assert (no_blocks d0) as Hnb by by split_and!.
  apply wp_bind. apply (wp_create_blocks (abs fs) s d0); try done; try lia.
  - split; [by apply no_blocks_ok|apply fext_refl| |done|done|by left].
    intros k Hk. rewrite decide_False by lia. by apply no_blocks_ptr.
  - intros d fs' Hok' Hcr. pose proof (cr_fok _ _ _ _ _ _ Hcr) as Hf. pose proof (cr_fext _ _ _ _ _ _ Hcr) as Hx.
    apply wp_bind, wp_write_inode; [done|rewrite (x_n _ _ _ _ Hx); lia|apply Hf|].
    intros fs2 Hok2 Ha2. apply wp_ret, HS; [done|]. rewrite Ha2. by eapply creating_created.
Qed.

(** ** Freeing *)

(** [a'] is [a] with the sectors of the slots in [P] given back, and nothing else changed. *)
Record freed (P : slot -> Prop) (a : afs) (d : InodeDisk) (a' : afs) : Prop := {
  fr_v : a_v a' = a_v a;
  fr_n : a_n a' = a_n a;
  fr_in : a_in a' = a_in a;
  fr_used : forall t, a_u a' t = true <-> a_u a t = true /\
    ~ exists sl, slot_ok sl /\ P sl /\ slot_ptr (a_v a) d sl = t /\ t <> 0;
}.

Lemma freed_none a d : freed (fun _ => False) a d a.
Proof. split; [done..|]. intros t. split; [|tauto]. intros Ht. split; [done|]. by intros (? & ? & [] & _). Qed.

Lemma freed_ext P P' a d a' : (forall sl, slot_ok sl -> P sl <-> P' sl) -> freed P a d a' -> freed P' a d a'.
Proof.
  intros HP [Hv Hn Hi Hu]. split; [done..|]. intros t. rewrite Hu. split; intros [? H]; (split; [done|]);
    intros (sl & Hok & Hsl%HP & ?); try done; apply H; by exists sl.
Qed.

(** Slots that name nothing. *)
Lemma freed_empty P P' a d a' :
  freed P a d a' -> (forall sl, slot_ok sl -> P sl -> P' sl) ->
  (forall sl, slot_ok sl -> P' sl -> P sl \/ slot_ptr (a_v a) d sl = 0) -> freed P' a d a'.
Proof.
  intros [Hv Hn Hi Hu] Hsub H0. split; [done..|]. intros t. rewrite Hu. split; intros [? H]; (split; [done|]).
  - intros (sl & Hok & Hp & E & Ht). destruct (H0 sl Hok Hp); [apply H; by exists sl|congruence].
  - intros (sl & Hok & Hp & ?). apply H. exists sl. eauto.
Qed.

(** A slot whose sector is released. *)
Lemma freed_one P a d a' sl0 :
  freed P a d a' -> slot_ok sl0 -> slot_ptr (a_v a) d sl0 <> 0 ->
  freed (fun sl => P sl \/ sl = sl0) a d (a_free (slot_ptr (a_v a) d sl0) a').
Proof.
  intros [Hv Hn Hi Hu] Hok0 Hnz. split; [done..|]. intros t. simpl. unfold udel.
  rewrite andb_true_iff, negb_true_iff, bool_decide_eq_false, Hu. split.
  - intros (Hne & Ht & H). split; [done|]. intros (sl & Hok & [?|Es] & E & ?); [apply H; by exists sl|].
    subst sl. congruence.
  - intros (Ht & H). split_and!; [|done|].
    + intros ->. apply H. exists sl0. tauto.
    + intros (sl & Hok & ? & ?). apply H. exists sl. tauto.
Qed.

(** Releasing the sector of one slot, if it names one. *)
Lemma wp_free_slot P a d sl0 fs (Q : unit -> FS D -> Prop) :
  ranged a d -> fs_ok fs -> freed P a d (abs fs) -> slot_ok sl0 -> slot_ptr (a_v a) d sl0 <> 0 ->
  (forall fs', fs_ok fs' -> fs_bio fs' = fs_bio fs ->
     freed (fun sl => P sl \/ sl = sl0) a d (abs fs') -> Q tt fs') ->
  wp (free_map (release (slot_ptr (a_v a) d sl0) 1)) fs Q.
Proof.
  intros Hr Hok Hf Hok0 Hnz HQ. pose proof (rg_lt _ _ Hr sl0 Hok0 Hnz).
  apply wp_free; [done|rewrite (fr_n _ _ _ _ Hf); lia|]. intros fs' Hok' Ha Hb. apply HQ; [done|done|].
  rewrite Ha. by apply freed_one.
Qed.

Lemma ranged_freed P a d a' : freed P a d a' -> ranged a d -> ranged a' d.
Proof. intros [Hv Hn _ _] [Hw Hlt]. split; [done|]. by rewrite Hv, Hn. Qed.

(** The data blocks below [cnt]. *)
Lemma wp_free_data a d cnt fs (Q : unit -> FS D -> Prop) :
  ranged a d -> fs_ok fs -> abs fs = a -> 0 <= cnt <= MAX_BLOCKS ->
  (forall fs', fs_ok fs' -> freed (fun sl => exists k, sl = SData k /\ k < cnt) a d (abs fs') -> Q tt fs') ->
  wp (for_each (range 0 cnt) (fun i =>
        let! s := get_block_sector_disk d i in
        match s with Some s => free_map (release s 1) | None => ret tt end)) fs Q.
Proof.
  intros Hr Hok Ha Hcnt HQ.
  apply (wp_for_range (fun i fs' => fs_ok fs' /\ freed (fun sl => exists k, sl = SData k /\ 0 <= k < i) a d (abs fs'))).
  - lia.
  - split; [done|]. rewrite Ha. eapply freed_ext; [|apply freed_none]. intros sl _. split; [done|].
    intros (k & _ & ?). lia.
  - intros i fs1 Hi [Hok1 Hf1]. assert (slot_ok (SData i)) as Hsi by (simpl; lia).
    apply wp_bind, wp_get_block_ranged; [done|by eapply ranged_freed|done|]. intros fs2 Hok2 Ha2.
    rewrite (fr_v _ _ _ _ Hf1). rewrite <- Ha2 in Hf1. unfold nonzero.
    destruct (Z.eqb_spec (slot_ptr (a_v a) d (SData i)) 0) as [E|E].
    + apply wp_ret. split; [done|]. eapply freed_empty; [exact Hf1|..].
      * intros sl _ (k & ? & ?). exists k. split; [done|lia].
      * intros sl _ (k & -> & ?). destruct (decide (k = i)) as [->|]; [by right|left]. exists k. split; [done|lia].
    + eapply wp_free_slot; [done|done|exact Hf1|done|done|]. intros fs3 Hok3 _ Hf3. split; [done|].
      eapply freed_ext; [|exact Hf3]. intros sl _. split.
      * intros [(k & ? & ?)|?]; [exists k|exists i]; (split; [done|lia]).
      * intros (k & -> & ?). destruct (decide (k = i)) as [->|]; [by right|left]. exists k. split; [done|lia].
  - intros fs' [Hok' Hf']. apply HQ; [done|]. eapply freed_ext; [|exact Hf'].
    intros sl Hsl. split; intros (k & -> & ?); exists k; simpl in Hsl; (split; [done|lia]).
Qed.

(** Free-map operations do not look at the buffer cache. *)
Lemma wp_free_map_bio {A} (m : M FreeMap A) st fs (Q : A -> FS D -> Prop) :
  wp (free_map m) fs (fun x fs' => Q x (with_bio st fs')) -> wp (free_map m) (with_bio st fs) Q.
Proof. unfold wp, free_map, zoom. simpl. by destruct (m (fs_fm fs)). Qed.

(** The inner blocks, read from a buffer that stays referenced. *)
Lemma wp_free_inner P a d fs st1 (Q : unit -> FS D -> Prop) :
  ranged a d -> doubly_indirect_block d <> 0 -> fs_ok fs -> freed P a d (abs fs) ->
  (forall fs', fs_ok fs' -> fs_bio fs' = fs_bio fs ->
     freed (fun sl => P sl \/ exists o, sl = SInner o) a d (abs fs') -> Q tt (with_bio st1 fs')) ->
  wp (for_each (range 0 PTRS_PER_BLOCK) (fun j =>
        let! p := ptr_read (a_v a (doubly_indirect_block d)) j in
        if p =? 0 then ret tt else free_map (release p 1))) (with_bio st1 fs) Q.
Proof.
  intros Hr Hd Hok Hf HQ.
  apply (wp_for_range (fun j fs1 => exists fs', fs1 = with_bio st1 fs' /\ fs_ok fs' /\ fs_bio fs' = fs_bio fs /\
    freed (fun sl => P sl \/ exists o, sl = SInner o /\ 0 <= o < j) a d (abs fs'))).
  - done.
  - exists fs. split_and!; try done. eapply freed_ext; [|exact Hf]. intros sl _. split; [by left|].
    intros [?|(o & _ & ?)]; [done|lia].
  - intros j fs1 Hj (fs' & -> & Hok' & Hb' & Hf'). apply wp_bind, wp_ptr_read; [lia|].
    assert (slot_ptr (a_v a) d (SInner j) = word_at (a_v a (doubly_indirect_block d)) j) as E
      by (unfold slot_ptr, inner_ptr; by rewrite (proj2 (Z.eqb_neq _ _) Hd)).
    rewrite <- E. destruct (Z.eqb_spec (slot_ptr (a_v a) d (SInner j)) 0) as [E0|E0].
    + apply wp_ret. exists fs'. split_and!; try done. eapply freed_empty; [exact Hf'|..].
      * intros sl _ [?|(o & ? & ?)]; [by left|right]. exists o. split; [done|lia].
      * intros sl _ [?|(o & -> & ?)]; [left; by left|]. destruct (decide (o = j)) as [->|]; [by right|].
        left. right. exists o. split; [done|lia].
    + apply wp_free_map_bio. eapply wp_free_slot; [done|done|exact Hf'|done|done|]. intros fs2 Hok2 Hb2 Hf2.
      exists fs2. split_and!; [done|done|congruence|]. eapply freed_ext; [|exact Hf2]. intros sl _. split.
      * intros [[?|(o & ? & ?)]|?]; [by left|right; exists o|right; exists j]; (split; [done|lia]).
      * intros [?|(o & -> & ?)]; [by left; left|]. destruct (decide (o = j)) as [->|]; [by right|].
        left. right. exists o. split; [done|lia].
  - intros fs1 (fs' & -> & Hok' & Hb' & Hf'). apply HQ; [done|done|]. eapply freed_ext; [|exact Hf'].
    intros sl Hsl. split; (intros [?|(o & Ho)]; [by left|right; exists o]); [by destruct Ho|]. subst sl. done.
Qed.

(** The slots whose sectors [free_blocks] gives back: all index blocks, and the data blocks below
    [cnt]. *)
Definition below (cnt : Z) (sl : slot) : Prop := match sl with SData k => k < cnt | _ => True end.

Lemma wp_free_blocks d cnt fs (Q : unit -> FS D -> Prop) :
  ranged (abs fs) d -> fs_ok fs -> 0 <= cnt <= MAX_BLOCKS ->
  (forall fs', fs_ok fs' -> freed (below cnt) (abs fs) d (abs fs') -> Q tt fs') ->
  wp (free_blocks d cnt) fs Q.
Proof.
  intros Hr Hok Hcnt HQ. unfold free_blocks. remember (abs fs) as a eqn:Ea. symmetry in Ea.
  apply wp_bind, (wp_free_data a d cnt); [done..|]. intros fs1 Hok1 Hf1.
  set (P1 := fun sl => _) in Hf1.
  apply wp_bind. apply (wp_mono _ _ (fun _ fs' => fs_ok fs' /\ freed (fun sl => P1 sl \/ sl = SInd) a d (abs fs'))).
  { destruct (Z.eqb_spec (indirect_block d) 0) as [E|E].
    - apply wp_ret. split; [done|]. eapply freed_empty; [exact Hf1|by left|].
      intros sl _ [?| ->]; [by left|by right].
    - change (indirect_block d) with (slot_ptr (a_v a) d SInd).
      eapply wp_free_slot; [done|done|exact Hf1|done|done|]. done. }
  intros [] fs2 [Hok2 Hf2]. set (P2 := fun sl => P1 sl \/ sl = SInd) in Hf2.
  destruct (Z.eqb_spec (doubly_indirect_block d) 0) as [E|E].
  { apply wp_ret, HQ; [done|]. eapply freed_empty; [exact Hf2|..].
    - intros sl _ [(k & -> & ?)| ->]; done.
    - intros [k| | |o] _ Hb; [left; left; by exists k|left; by right|by right|].
      right. unfold slot_ptr, inner_ptr. by rewrite E. }
  assert (2 <= doubly_indirect_block d < a_n a) as Hlt by by apply (rg_lt _ _ Hr SDbl).
  apply wp_bind, wp_zoom, wp_bread; [apply Hok2| |].
  { rewrite (fso_size _ Hok2). change (SECTOR_COUNT (fs_fm fs2)) with (a_n (abs fs2)). rewrite (fr_n _ _ _ _ Hf2). lia. }
  intros i st1 Hb1 Hsd1 Hh1. apply wp_bind, wp_zoom, (wp_buf_get _ (doubly_indirect_block d)); [done|done|].
  simpl. rewrite (proj2 Hsd1). change (view (fs_bio fs2)) with (a_v (abs fs2)). rewrite (fr_v _ _ _ _ Hf2).
  apply wp_bind. change (with_bio _ (with_bio st1 fs2)) with (with_bio st1 fs2).
  apply (wp_free_inner P2 a d fs2 st1); [done|done|done|done|]. intros fs3 Hok3 Hb3 Hf3.
  set (P3 := fun sl => _) in Hf3.
  apply wp_bind, wp_zoom, wp_brelse; [done|by eapply holds_lt|]. intros st2 Hb2 Hsd2.
  assert (same_disk (fs_bio fs3) st2) as Hsd by (rewrite Hb3; etrans; [exact Hsd1|exact Hsd2]).
  change (with_bio st2 (with_bio st1 fs3)) with (with_bio st2 fs3).
  change (doubly_indirect_block d) with (slot_ptr (a_v a) d SDbl).
  eapply (wp_free_slot P3); [done|by apply fs_ok_same|by rewrite abs_same_disk|done|done|].
  intros fs4 Hok4 _ Hf4. apply HQ; [done|]. eapply freed_ext; [|exact Hf4]. intros sl Hsl. split.
  - intros [[[(k & -> & ?)| ->]|(o & ->)]| ->]; done.
  - destruct sl as [k| | |o]; intros Hk; [left; left; left; by exists k|left; left; by right|by right|].
    left. right. by exists o.
Qed.

(** ** Opening and closing *)

(** What [open] puts in the table for a file that is not open. *)
Definition opened (a : afs) (s : Z) : Inode :=
  let d := inode_of a s in
  mkInode s 1 false 0 (d_length d) (negb (d_is_dir d =? 0)) (negb (d_is_symlink d =? 0)).

Lemma wp_open_new fs s (Q : option Inode -> FS D -> Prop) :
  fs_ok fs -> s < a_n (abs fs) -> a_in (abs fs) !! s = None ->
  (forall fs', fs_ok fs' -> abs fs' = a_set_inodes (<[s := opened (abs fs) s]> (a_in (abs fs))) (abs fs) ->
     Q (Some (opened (abs fs) s)) fs') ->
  wp (Inode.open s) fs Q.
Proof.
  intros Hok Hs Hin HQ. unfold Inode.open. apply wp_bind, wp_gets. rewrite abs_in, Hin.
  apply wp_bind, wp_read_inode; [done|done|]. intros fs1 Hok1 Ha1.
  apply wp_bind, wp_modify, wp_ret. apply HQ; [by apply fs_ok_inodes|].
  by rewrite abs_inodes, abs_in, Ha1.
Qed.

Lemma wp_remove fs s (Q : unit -> FS D -> Prop) :
  fs_ok fs ->
  (forall fs', fs_ok fs' -> abs fs' = a_set_inodes (alter set_removed s (a_in (abs fs))) (abs fs) -> Q tt fs') ->
  wp (Inode.remove s) fs Q.
Proof. intros Hok HQ. apply wp_modify, HQ; [by apply fs_ok_inodes|]. by rewrite abs_inodes, abs_in. Qed.

(** Closing the last reference to a removed file gives back its inode sector, its index blocks and
    its data blocks up to its length. *)
Record closed (a : afs) (s : Z) (a' : afs) : Prop := {
  cl_v : a_v a' = a_v a;
  cl_n : a_n a' = a_n a;
  cl_in : a_in a' = delete s (a_in a);
  cl_used : forall t, a_u a' t = true <-> a_u a t = true /\ t <> s /\
    ~ exists sl, slot_ok sl /\ below (bytes_to_sectors (flen a s)) sl /\
        slot_ptr (a_v a) (inode_of a s) sl = t /\ t <> 0;
}.

Lemma bytes_to_sectors_max len : 0 <= len <= MAX_BYTES -> 0 <= bytes_to_sectors len <= MAX_BLOCKS.
Proof.
  unfold MAX_BYTES, bytes_to_sectors. unfold_sizes. intros H. destruct (Z.leb_spec len 0); [lia|].
  Z.div_mod_to_equations. lia.
Qed.

Lemma wp_close_removed fs s i (Q : unit -> FS D -> Prop) :
  fs_ok fs -> file_at (abs fs) s -> a_in (abs fs) !! s = Some i ->
  i_sector i = s -> i_open_cnt i = 1 -> i_removed i = true ->
  (forall fs', fs_ok fs' -> closed (abs fs) s (abs fs') -> Q tt fs') ->
  wp (Inode.close s) fs Q.
Proof.
  intros Hok Hfa Hin Hsec Hcnt Hrem HQ. unfold Inode.close. apply wp_bind, wp_gets. rewrite abs_in, Hin.
  apply wp_bind, wp_i32_sub; [by rewrite Hcnt|]. rewrite Hcnt. simpl. rewrite Hrem, Hsec.
  rewrite (fa_cached _ _ Hfa i Hin). set (a := abs fs) in *.
  apply wp_bind, wp_modify. set (fs1 := with_inodes _ fs).
  assert (abs fs1 = a_set_inodes (delete s (a_in a)) a) as Ha1 by (unfold fs1; by rewrite abs_inodes, abs_in).
  pose proof (fa_range _ _ Hfa) as Hs.
  apply wp_bind, wp_free; [by apply fs_ok_inodes|rewrite Ha1; done|]. intros fs2 Hok2 Ha2 _.
  apply wp_bind, wp_read_inode; [done|rewrite Ha2, Ha1; simpl; lia|]. intros fs3 Hok3 Ha3.
  assert (inode_of (abs fs2) s = inode_of a s) as Ei by by rewrite Ha2, Ha1. rewrite Ei.
  apply wp_free_blocks; [|done|apply bytes_to_sectors_max, Hfa|].
  { destruct (fok_ranged _ _ _ (fa_ok _ _ Hfa)) as [Hw Hlt]. by rewrite Ha3, Ha2, Ha1. }
  intros fs4 Hok4 [Hv Hn Hi Hu]. rewrite Ha3, Ha2, Ha1 in *. apply HQ; [done|].
  split; [done..|]. intros t. rewrite Hu. simpl. unfold udel.
  rewrite andb_true_iff, negb_true_iff, bool_decide_eq_false. tauto.
Qed.

(** ** Truncation *)
Record truncated (a : afs) (s : Z) (a' : afs) : Prop := {
  tr_file : file_at a' s;
  tr_len : flen a' s = 0;
  tr_none : forall t, ~ file_sector (a_v a') (inode_of a' s) t;
  tr_dir : (d_is_dir (inode_of a' s) =? 0) = (d_is_dir (inode_of a s) =? 0);
  tr_used : forall t, a_u a' t = true <-> a_u a t = true /\
    ~ exists sl, slot_ok sl /\ below (bytes_to_sectors (flen a s)) sl /\
        slot_ptr (a_v a) (inode_of a s) sl = t /\ t <> 0;
  tr_frame : forall t, t <> s -> a_v a' t = a_v a t;
  tr_n : a_n a' = a_n a;
  tr_in : a_in a' = alter (set_length 0) s (a_in a);
}.

Lemma wp_truncate fs s (Q : unit -> FS D -> Prop) :
  fs_ok fs -> file_at (abs fs) s ->
  (forall i, a_in (abs fs) !! s = Some i -> i_is_dir i = negb (d_is_dir (inode_of (abs fs) s) =? 0)) ->
  (forall fs', fs_ok fs' -> truncated (abs fs) s (abs fs') -> Q tt fs') ->
  wp (truncate s) fs Q.
Proof.
  intros Hok Hfa Hdir HQ. unfold truncate. set (a := abs fs) in *. pose proof (fa_range _ _ Hfa) as Hs.
  apply wp_bind, wp_length; [done|done|]. intros fs1 Hok1 Ha1.
  apply wp_bind, wp_read_inode; [done|rewrite Ha1; fold a; lia|]. intros fs2 Hok2 Ha2. rewrite Ha1. fold a.
  apply wp_bind, wp_free_blocks; [|done|apply bytes_to_sectors_max, Hfa|].
  { rewrite Ha2, Ha1. exact (fok_ranged _ _ _ (fa_ok _ _ Hfa)). }
  intros fs3 Hok3 Hf3. rewrite Ha2, Ha1 in Hf3. fold a in Hf3.
  assert (inode_of (abs fs3) s = inode_of a s) as Ei by (unfold inode_of; by rewrite (fr_v _ _ _ _ Hf3)).
  apply wp_bind. apply (wp_mono _ _ (fun b fs' => fs_ok fs' /\ abs fs' = abs fs3 /\
    b = negb (d_is_dir (inode_of a s) =? 0))).
  { unfold is_dir. apply wp_bind, wp_gets. rewrite abs_in, (fr_in _ _ _ _ Hf3). destruct (a_in a !! s) as [i|] eqn:E.
    - apply wp_ret. split_and!; [done|done|by apply Hdir].
    - apply wp_bind, wp_read_inode; [done|rewrite (fr_n _ _ _ _ Hf3); lia|]. intros fs4 Hok4 Ha4.
      apply wp_ret. split_and!; [done|done|by rewrite Ei]. }
  intros b fs4 (Hok4 & Ha4 & ->). set (d' := set_is_dir _ new_boxed).
  assert (disk_wf d') as Hw.
  { pose proof new_boxed_wf as []. split; try done. by unfold d'; destruct (_ =? 0). }
  assert (no_blocks d') as Hnb by by split_and!.
  apply wp_bind, wp_write_inode; [done|rewrite Ha4, (fr_n _ _ _ _ Hf3); lia|done|]. intros fs5 Hok5 Ha5.
  apply wp_modify. apply HQ; [by apply fs_ok_inodes|]. rewrite abs_inodes, abs_in, Ha5, Ha4.
  assert (forall a0 m, inode_of (a_set_inodes m (a_write s (to_bytes d') a0)) s = d') as Ei'.
  { intros. unfold inode_of. simpl. rewrite vupd_eq. by apply of_to_bytes. }
  split; unfold flen; rewrite ?Ei'; simpl.
  - split; unfold flen; rewrite ?Ei'; simpl; [by apply no_blocks_ok| |by rewrite (fr_n _ _ _ _ Hf3)|done|].
    + apply (fr_used _ _ _ _ Hf3). split; [apply Hfa|]. intros (sl & Hsl & _ & E & Hnz).
      by apply (sector_not_own a s _ (fa_ok _ _ Hfa)); exists sl.
    + intros i. rewrite lookup_alter_eq. intros (j & ? & ->)%fmap_Some. done.
  - done.
  - intros t (sl & Hsl & Hp & Ht). by rewrite no_blocks_ptr in Hp.
  - by destruct (_ =? 0).
  - apply Hf3.
  - intros t Ht. rewrite vupd_ne by done. by rewrite (fr_v _ _ _ _ Hf3).
  - apply Hf3.
  - by rewrite (fr_in _ _ _ _ Hf3).
Qed.
End life.

(** C8: creating a file.  For a new file of up to twelve sectors at an allocated sector that is not
    open, [create] returns true unless the disk is full; the file then has the given length, is
    all zeros, is a directory exactly when asked, occupies sectors that were free, one per started
    512 bytes and no more, and every other sector that was allocated keeps its contents. *)
Theorem create_correct {D : Type} `{!BlockOps D, !BlockLaws D} (fs : FS D) (s len : Z) (dir : bool) :
  fs_ok fs -> 0 <= len <= DIRECT_PTR_CNT * BLOCK_SECTOR_SIZE -> 0 <= s < a_n (abs fs) ->
  a_u (abs fs) s = true -> a_in (abs fs) !! s = None ->
  wp (create s len dir) fs (fun ok fs' =>
    fs_ok fs' /\ if ok then created (abs fs) s len dir (abs fs') else a_full (abs fs')).
Proof. intros. by apply wp_create. Qed.

Lemma create_correct_witness :
  wp (create 5 600 false) demo_fs (fun ok fs' => ok = true -> flen (abs fs') 5 = 600).
Proof.
  eapply wp_mono; [apply (create_correct demo_fs 5 600 false)|].
  - exact demo_fs_ok.
  - done.
  - done.
  - done.
  - done.
  - intros [|] fs' [_ H]; [|done]. intros _. apply H.
Defined.

(** C9: truncating a file.  [truncate] leaves an empty file at the same sector, still a directory
    exactly when it was one; its index blocks and its data blocks up to its old length are free
    again, no other sector changes its state, and no sector but the inode's changes its
    contents. *)
Theorem truncate_correct {D : Type} `{!BlockOps D, !BlockLaws D} (fs : FS D) (s : Z) :
  fs_ok fs -> file_at (abs fs) s ->
  (forall i, a_in (abs fs) !! s = Some i -> i_is_dir i = negb (d_is_dir (inode_of (abs fs) s) =? 0)) ->
  wp (truncate s) fs (fun _ fs' => fs_ok fs' /\ truncated (abs fs) s (abs fs')).
Proof. intros. by apply wp_truncate. Qed.

Lemma truncate_correct_witness : wp (truncate 4) demo_fs (fun _ fs' => flen (abs fs') 4 = 0).
Proof.
  eapply wp_mono; [apply (truncate_correct demo_fs 4)|].
  - exact demo_fs_ok.
  - apply (demo_file 4). by left.
  - rewrite (demo_inode 4) by auto. by intros i [= <-].
  - intros [] fs' [_ H]. apply H.
Defined.

(** C7: a file's sectors come back.  On a consistent file system take an allocated sector whose
    inode is not open, and a length of at most 12 sectors, the direct blocks (for a longer one
    [create] drops the pointers to the other sectors).  Create a file there, open it, remove it
    and close it: unless the disk was full, the only sector whose state differs from before is
    the inode's own, which is now free; the sectors allocated for the file's contents are free
    again, all other allocated sectors still are and hold what they held, and the table of open
    inodes is what it was. *)
Theorem file_space_returned {D : Type} `{!BlockOps D, !BlockLaws D} (fs : FS D) (s len : Z) (dir : bool) :
  fs_ok fs -> 0 <= len <= DIRECT_PTR_CNT * BLOCK_SECTOR_SIZE -> 0 <= s < a_n (abs fs) ->
  a_u (abs fs) s = true -> a_in (abs fs) !! s = None ->
  wp (let! ok := create s len dir in
      if ok then
        Inode.open s ;;
        Inode.remove s ;;
        Inode.close s ;;
        ret true
      else ret false) fs (fun ok fs' =>
    fs_ok fs' /\
    if ok then
      (forall t, a_u (abs fs') t = true <-> a_u (abs fs) t = true /\ t <> s) /\
      (forall t, a_u (abs fs) t = true -> t <> s -> a_v (abs fs') t = a_v (abs fs) t) /\
      a_in (abs fs') = a_in (abs fs)
    else a_full (abs fs')).
Proof.
  intros Hok Hlen Hs Hus Hin. apply wp_bind, wp_create; try done.
  intros fs1 Hok1 Hc. cbv iota. pose proof Hc as [Hfa Hl _ _ Hfresh Hdata Hu Hfr Hn Hi].
  apply wp_bind, wp_open_new; [done|rewrite Hn; lia|by rewrite Hi|]. intros fs2 Hok2 Ha2.
  apply wp_bind, wp_remove; [done|]. intros fs3 Hok3 Ha3.
  set (i := opened (abs fs1) s) in *.
  assert (a_in (abs fs3) = <[s := set_removed i]> (a_in (abs fs1))) as Hin3.
  { rewrite Ha3, Ha2. simpl. by rewrite alter_insert_eq. }
  assert (a_v (abs fs3) = a_v (abs fs1)) as Hv3 by by rewrite Ha3, Ha2.
  assert (a_u (abs fs3) = a_u (abs fs1)) as Hu3 by by rewrite Ha3, Ha2.
  assert (a_n (abs fs3) = a_n (abs fs1)) as Hn3 by by rewrite Ha3, Ha2.
  assert (inode_of (abs fs3) s = inode_of (abs fs1) s) as Ei by (unfold inode_of; by rewrite Hv3).
  assert (file_at (abs fs3) s) as Hfa3.
  { destruct Hfa as [F1 F2 F3 F4 F5]. split; unfold flen, fok in *; rewrite ?Ei, ?Hv3, ?Hu3, ?Hn3; try done.
    rewrite Hin3. intros j. rewrite lookup_insert_eq. by intros [= <-]. }
  apply wp_bind. eapply wp_close_removed; [done|done|by rewrite Hin3, lookup_insert_eq|done|done|done|].
  intros fs4 Hok4 [Hv4 Hn4 Hi4 Hu4]. apply wp_ret. split_and!; [done|..].
  - intros t. rewrite Hu4. unfold flen. rewrite Hu3, Hv3, Ei, Hu. fold (flen (abs fs1) s). rewrite Hl. split.
    + intros ([?|(sl & Hsl & Hp & Ht)] & Hne & Hx); [done|]. destruct Hx. exists sl. split_and!; try done.
      destruct sl as [k| | |o]; [|done..]. simpl. apply (Hdata k Hsl). congruence.
    + intros [Ht Hne]. split_and!; [by left|done|]. intros (sl & Hsl & _ & Hp & Hz).
      rewrite (Hfresh t) in Ht; [done|]. by exists sl.
  - intros t Ht Hne. rewrite Hv4, Hv3. by apply Hfr.
  - rewrite Hi4, Hin3, delete_insert_eq, Hi. by apply delete_id.
Qed.

Lemma file_space_returned_witness :
  wp (let! ok := create 5 600 false in
      if ok then Inode.open 5 ;; Inode.remove 5 ;; Inode.close 5 ;; ret true else ret false) demo_fs (fun ok fs' =>
    ok = true -> a_u (abs fs') 5 = false).
Proof.
  eapply wp_mono; [apply (file_space_returned demo_fs 5 600 false)|].
  - exact demo_fs_ok.
  - done.
  - done.
  - done.
  - done.
  - intros [|] fs' [_ H]; [|done]. intros _. destruct H as [H _].
    destruct (a_u (abs fs') 5) eqn:E; [|done]. apply H in E as [_ []]. done.
Defined.
