(* ===== verification/Memory.v ===== *)
(** Kernel memory, addresses and in-memory bitmaps (src/mem/vaddr.rs, src/mem/bitmap.rs). *)
From S2P Require Import Prelude FreeMap.

(** Physical memory through the kernel's direct map: the byte at each virtual address. *)
Definition Mem : Type := Z -> Z.

Definition store (a b : Z) (m : Mem) : Mem := fun x => if decide (x = a) then b else m x.

(** [core::ptr::write_bytes(addr, b, n)] *)
Definition write_bytes (a b n : Z) (m : Mem) : Mem :=
  fun x => if decide (a <= x < a + n) then b else m x.

(** 32-bit words, little-endian. *)
Definition read_u32 (m : Mem) (a : Z) : Z := le_word [m a; m (a + 1); m (a + 2); m (a + 3)].
Definition write_u32 (a v : Z) (m : Mem) : Mem :=
  fun x => if decide (a <= x < a + 4) then byte_at (le_bytes v) (x - a) else m x.

Lemma read_write_u32 m a v : in_u32 v -> read_u32 (write_u32 a v m) a = v.
Proof.
  intros Hv. unfold read_u32, write_u32. repeat (case_decide; [|lia]).
  replace (a - a) with 0 by lia. replace (a + 1 - a) with 1 by lia.
  replace (a + 2 - a) with 2 by lia. replace (a + 3 - a) with 3 by lia.
  exact (le_word_bytes v [] Hv).
Qed.

Lemma read_u32_frame m m' a : (forall x, a <= x < a + 4 -> m' x = m x) -> read_u32 m' a = read_u32 m a.
Proof. intros H. unfold read_u32. rewrite !H by lia. done. Qed.

Lemma write_u32_frame m a v x : ~ (a <= x < a + 4) -> write_u32 a v m x = m x.
Proof. intros H. unfold write_u32. by rewrite decide_False. Qed.

Lemma read_write_u32_ne m a v b : b + 4 <= a \/ a + 4 <= b -> read_u32 (write_u32 a v m) b = read_u32 m b.
Proof. intros H. apply read_u32_frame. intros x Hx. apply write_u32_frame. lia. Qed.

(** ** vaddr.rs *)
Definition PGSIZE : Z := 4096.
Definition PGMASK : Z := 0xFFF.
Definition PHYS_BASE : Z := 0xC0000000.

Definition is_kernel_vaddr (addr : Z) : bool := PHYS_BASE <=? addr.

Definition ptov {S} (paddr : Z) : M S Z :=
  assert (paddr <? PHYS_BASE) "ptov: physical address too large" ;;
  u32_add paddr PHYS_BASE.

Definition vtop {S} (vaddr : Z) : M S Z :=
  assert (is_kernel_vaddr vaddr) "vtop: not a kernel virtual address" ;;
  u32_sub vaddr PHYS_BASE.

Definition pg_round_up {S} (addr : Z) : M S Z :=
  let! a := u32_add addr PGSIZE in
  let! a := u32_sub a 1 in
  ret (Z.land a (not_w 32 PGMASK)).

Definition pg_round_down (addr : Z) : Z := Z.land addr (not_w 32 PGMASK).
Definition pg_ofs (addr : Z) : Z := Z.land addr PGMASK.

Lemma wp_ptov {S} p (s : S) (Q : Z -> S -> Prop) :
  p + PHYS_BASE < u32_lim -> Q (p + PHYS_BASE) s -> wp (ptov p) s Q.
Proof.
  intros Hp HQ. apply wp_bind, wp_assert; [|by apply wp_u32_add].
  apply Z.ltb_lt. unfold PHYS_BASE, u32_lim in *. lia.
Qed.

Lemma wp_vtop {S} v (s : S) (Q : Z -> S -> Prop) :
  PHYS_BASE <= v -> Q (v - PHYS_BASE) s -> wp (vtop v) s Q.
Proof. intros Hv HQ. apply wp_bind, wp_assert; [by apply Z.leb_le|by apply wp_u32_sub]. Qed.

Lemma land_pgmask a : Z.land a PGMASK = a mod PGSIZE.
Proof. apply (Z.land_ones a 12). lia. Qed.

(** Clearing the low [k] bits of a word rounds it down. *)
Lemma land_not_ones a k : in_u32 a -> 0 <= k <= 32 -> Z.land a (not_w 32 (Z.ones k)) = a - a mod 2 ^ k.
Proof.
  unfold in_u32, u32_lim. intros Ha Hk.
  assert (0 < 2 ^ k) by (apply Z.pow_pos_nonneg; lia).
  replace (a - a mod 2 ^ k) with (Z.shiftl (Z.shiftr a k) k).
  2:{ rewrite Z.shiftl_mul_pow2, Z.shiftr_div_pow2 by lia.
      pose proof (Z.div_mod a (2 ^ k) ltac:(lia)). lia. }
  apply Z.bits_inj'. intros n Hn. unfold not_w. change (2 ^ 32 - 1) with (Z.ones 32).
  rewrite Z.land_spec, Z.lxor_spec, Z.shiftl_spec by lia. rewrite !Z.testbit_ones_nonneg by lia.
  destruct (Z.ltb_spec n k).
  { rewrite (Z.testbit_neg_r _ (n - k)) by lia. rewrite (proj2 (Z.ltb_lt n 32)) by lia. by rewrite andb_false_r. }
  rewrite Z.shiftr_spec by lia. replace (n - k + k) with n by lia. rewrite xorb_false_r.
  destruct (Z.ltb_spec n 32); [by rewrite andb_true_r|]. rewrite andb_false_r. symmetry.
  apply Z.bits_above_log2; [lia|]. destruct (decide (a = 0)) as [->|]; [simpl; lia|].
  assert (Z.log2 a < 32) by (apply Z.log2_lt_pow2; lia). lia.
Qed.

Lemma land_not_pgmask a : in_u32 a -> Z.land a (not_w 32 PGMASK) = a - a mod PGSIZE.
Proof. intros Ha. apply (land_not_ones a 12 Ha). lia. Qed.

Lemma wp_pg_round_up {S} a (s : S) (Q : Z -> S -> Prop) :
  0 <= a -> a + PGSIZE < u32_lim ->
  (forall r, a <= r < a + PGSIZE -> r mod PGSIZE = 0 -> Q r s) -> wp (pg_round_up a) s Q.
Proof.
  intros H0 Ha HQ. unfold pg_round_up. apply wp_bind, wp_u32_add; [done|].
  apply wp_bind, wp_u32_sub; [unfold PGSIZE; lia|]. apply wp_ret.
  rewrite land_not_pgmask by (unfold in_u32, PGSIZE in *; lia).
  apply HQ; unfold PGSIZE; Z.div_mod_to_equations; lia.
Qed.

(** ** bitmap.rs *)
Record Bitmap := mkBitmap { bits : Z; bit_cnt : Z }.

Definition byte_cnt (bit_cnt : Z) : Z := (bit_cnt + 7) / 8.

Definition create_in_buf (cnt buf buf_size : Z) : M Mem Bitmap :=
  let needed := byte_cnt cnt in
  assert (needed <=? buf_size) "bitmap buffer too small" ;;
  modify (write_bytes buf 0 needed) ;;
  ret (mkBitmap buf cnt).

Definition set (bm : Bitmap) (idx : Z) (value : bool) : M Mem unit :=
  assert (idx <? bit_cnt bm) "debug_assert: idx < self.bit_cnt" ;;
  let byte := bits bm + idx / 8 in
  let mask := Z.shiftl 1 (idx mod 8) in
  modify (fun m => store byte (if value then Z.lor (m byte) mask
                               else Z.land (m byte) (not_w 8 mask)) m).

Definition test (bm : Bitmap) (idx : Z) : M Mem bool :=
  assert (idx <? bit_cnt bm) "debug_assert: idx < self.bit_cnt" ;;
  let! byte := gets (fun m => m (bits bm + idx / 8)) in
  ret (negb (Z.land (Z.shiftr byte (idx mod 8)) 1 =? 0)).

Definition set_multiple (bm : Bitmap) (start cnt : Z) (value : bool) : M Mem unit :=
  let! stop := u32_add start cnt in
  for_each (range start stop) (fun i => set bm i value).

Definition all (bm : Bitmap) (start cnt : Z) (value : bool) : M Mem bool :=
  let! stop := u32_add start cnt in
  let! r := for_ret (range start stop) (fun i =>
    let! b := test bm i in
    ret (if bool_decide (b = value) then None else Some false)) in
  ret (default true r).

(** [while run < cnt && self.test(i + run) == value { run += 1 }] *)
Fixpoint run_loop (fuel : nat) (bm : Bitmap) (i cnt : Z) (value : bool) (run : Z) : M Mem Z :=
  if run <? cnt then
    match fuel with
    | O => fun _ => OutOfFuel
    | S fuel' =>
        let! k := u32_add i run in
        let! b := test bm k in
        if bool_decide (b = value) then run_loop fuel' bm i cnt value (run + 1) else ret run
    end
  else ret run.

(** The scan; [i] grows in every turn. *)
Fixpoint scan_loop (fuel : nat) (bm : Bitmap) (cnt : Z) (value : bool) (i : Z)
    : M Mem (option Z) :=
  match fuel with
  | O => fun _ => OutOfFuel
  | S fuel' =>
      let! stop := u32_add i cnt in
      if stop <=? bit_cnt bm then
        let! b := test bm i in
        if negb (bool_decide (b = value)) then
          let! i := u32_add i 1 in
          scan_loop fuel' bm cnt value i
        else
          let! run := run_loop (Z.to_nat cnt) bm i cnt value 1 in
          if cnt <=? run then
            set_multiple bm i cnt (negb value) ;;
            ret (Some i)
          else
            let! r := u32_add run 1 in
            let! i := u32_add i r in
            scan_loop fuel' bm cnt value i
      else ret None
  end.

Definition scan_and_flip (bm : Bitmap) (start cnt : Z) (value : bool) : M Mem (option Z) :=
  if cnt =? 0 then ret (Some start)
  else
    let! stop := u32_add start cnt in
    if bit_cnt bm <? stop then ret None
    else scan_loop (S (Z.to_nat (bit_cnt bm))) bm cnt value start.

(** *** What the bits say *)
Definition bit (bm : Bitmap) (m : Mem) (i : Z) : bool := Z.testbit (m (bits bm + i / 8)) (i mod 8).

(** [m'] differs from [m] only in bits [lo .. hi] of [bm], which are [v]. *)
Definition bits_upd (bm : Bitmap) (lo hi : Z) (v : bool) (m m' : Mem) : Prop :=
  (forall j, 0 <= j -> bit bm m' j = if decide (lo <= j < hi) then v else bit bm m j) /\
  (forall x, ~ (bits bm <= x < bits bm + byte_cnt (bit_cnt bm)) -> m' x = m x).

Lemma wp_test bm i m (Q : bool -> Mem -> Prop) :
  i < bit_cnt bm -> Q (bit bm m i) m -> wp (test bm i) m Q.
Proof.
  intros Hi HQ. unfold test. apply wp_bind, wp_assert; [by apply Z.ltb_lt|].
  apply wp_bind, wp_gets, wp_ret. unfold bit in HQ.
  assert (0 <= i mod 8) by (apply Z.mod_pos_bound; lia).
  change 1 with (Z.ones 1). rewrite Z.land_ones by lia. change (2 ^ 1) with 2.
  rewrite Z.testbit_odd in HQ.
  rewrite Zmod_odd. by destruct (Z.odd _).
Qed.

Lemma byte_in_buf i n : 0 <= i < n -> 0 <= i / 8 < byte_cnt n.
Proof. unfold byte_cnt. intros. Z.div_mod_to_equations. lia. Qed.

Lemma wp_set bm i v m (Q : unit -> Mem -> Prop) :
  0 <= i < bit_cnt bm -> (forall m', bits_upd bm i (i + 1) v m m' -> Q tt m') ->
  wp (set bm i v) m Q.
Proof.
  intros Hi HQ. unfold set. apply wp_bind, wp_assert; [apply Z.ltb_lt; lia|]. apply wp_modify, HQ.
  pose proof (byte_in_buf _ _ Hi) as Hb. pose proof (Z.mod_pos_bound i 8 ltac:(lia)). split.
  - intros j Hj. unfold bit, store. pose proof (Z.mod_pos_bound j 8 ltac:(lia)).
    destruct (decide (j / 8 = i / 8)) as [E|E].
    2:{ rewrite decide_False by lia. rewrite decide_False; [done|]. intros ?.
        assert (j = i) as -> by lia. done. }
    rewrite decide_True by lia. rewrite E.
    assert ((if decide (i <= j < i + 1) then v else Z.testbit (m (bits bm + i / 8)) (j mod 8)) =
            if decide (j mod 8 = i mod 8) then v else Z.testbit (m (bits bm + i / 8)) (j mod 8)) as ->.
    { repeat case_decide; try done.
      - assert (j = i) as -> by lia. done.
      - exfalso. Z.div_mod_to_equations. lia. }
    destruct v.
    + rewrite Z.lor_spec, testbit_one by lia. case_decide.
      * rewrite bool_decide_true by done. apply orb_true_r.
      * rewrite bool_decide_false by done. apply orb_false_r.
    + rewrite Z.land_spec, testbit_not8, testbit_one by lia. case_decide.
      * rewrite bool_decide_true by done. apply andb_false_r.
      * rewrite bool_decide_false by done. apply andb_true_r.
  - intros x Hx. unfold store. rewrite decide_False; [done|]. intros ->. lia.
Qed.

Lemma wp_set_multiple bm start cnt v m (Q : unit -> Mem -> Prop) :
  0 <= start -> 0 <= cnt -> start + cnt <= bit_cnt bm -> start + cnt < u32_lim ->
  (forall m', bits_upd bm start (start + cnt) v m m' -> Q tt m') ->
  wp (set_multiple bm start cnt v) m Q.
Proof.
  intros Hs Hc Hn Hl HQ. unfold set_multiple. apply wp_bind, wp_u32_add; [done|].
  apply (wp_for_range (fun i m' => bits_upd bm start i v m m')); [lia|..].
  - split; [|done]. intros j Hj. by rewrite decide_False by lia.
  - intros i m1 Hi [Hb Hf]. apply wp_set; [lia|]. intros m2 [Hb2 Hf2]. split.
    + intros j Hj. rewrite Hb2, Hb by done. repeat case_decide; try done; lia.
    + intros x Hx. rewrite Hf2, Hf; done.
  - intros m' Hm. by apply HQ.
Qed.

(** The run of equal bits found by the inner loop. *)
Lemma wp_run_loop fuel : forall bm i cnt value run m (Q : Z -> Mem -> Prop),
  0 <= i -> 0 <= run <= cnt -> i + cnt <= bit_cnt bm -> bit_cnt bm < u32_lim ->
  cnt - run <= Z.of_nat fuel ->
  (forall j, i <= j < i + run -> bit bm m j = value) ->
  (forall r, run <= r <= cnt -> (forall j, i <= j < i + r -> bit bm m j = value) ->
     (r < cnt -> bit bm m (i + r) <> value) -> Q r m) ->
  wp (run_loop fuel bm i cnt value run) m Q.
Proof.
  induction fuel as [|fuel IH]; intros bm i cnt value run m Q Hi Hr Hn Hl Hf Hv HQ; simpl;
    (destruct (Z.ltb_spec run cnt); [|apply wp_ret, HQ; [lia|done|lia]]); [lia|].
  apply wp_bind, wp_u32_add; [lia|]. apply wp_bind, wp_test; [lia|].
  case_bool_decide as E.
  - apply IH; try done; try lia.
    + intros j Hj. destruct (decide (j = i + run)) as [->|]; [done|]. apply Hv. lia.
    + intros r Hr'. apply HQ. lia.
  - apply wp_ret, HQ; [lia|done|done].
Qed.

(** First fit: the scan finds the lowest run and flips it, or there is none. *)
Definition no_run (bm : Bitmap) (m : Mem) (cnt : Z) (value : bool) (lo hi : Z) : Prop :=
  forall s, lo <= s < hi -> s + cnt <= bit_cnt bm ->
    exists t, s <= t < s + cnt /\ bit bm m t <> value.

Lemma wp_scan_loop fuel : forall bm cnt value start i m (Q : option Z -> Mem -> Prop),
  0 <= start <= i -> 0 < cnt -> bit_cnt bm + cnt + 1 < u32_lim -> i <= bit_cnt bm + 1 ->
  bit_cnt bm + 1 - i <= Z.of_nat fuel -> (0 < fuel)%nat ->
  no_run bm m cnt value start i ->
  (forall s m', i <= s -> s + cnt <= bit_cnt bm ->
     (forall t, s <= t < s + cnt -> bit bm m t = value) ->
     no_run bm m cnt value start s ->
     bits_upd bm s (s + cnt) (negb value) m m' -> Q (Some s) m') ->
  (no_run bm m cnt value start (bit_cnt bm) -> Q None m) ->
  wp (scan_loop fuel bm cnt value i) m Q.
Proof.
  induction fuel as [|fuel IH]; intros bm cnt value start i m Q Hst Hc Hl Hi Hf Hf0 Hno HS HN; [lia|].
  simpl. apply wp_bind, wp_u32_add; [lia|].
  destruct (Z.leb_spec (i + cnt) (bit_cnt bm)) as [Hle|Hgt].
  2:{ apply wp_ret, HN. intros s Hs Hsn. destruct (decide (s < i)); [apply Hno; lia|lia]. }
  apply wp_bind, wp_test; [lia|]. case_bool_decide as E; simpl.
  2:{ apply wp_bind, wp_u32_add; [lia|]. apply (IH _ _ _ start); try done; try lia.
      - intros s Hs Hsn. destruct (decide (s = i)) as [->|]; [exists i; split; [lia|done]|].
        apply Hno; lia.
      - intros s m' Hs. apply HS. lia. }
  apply wp_bind, wp_run_loop; try done; try lia.
  { intros j Hj. by replace j with i by lia. }
  intros r Hr Hrun Hstop. destruct (Z.leb_spec cnt r).
  - assert (r = cnt) as -> by lia. apply wp_bind, wp_set_multiple; [lia..|].
    intros m' Hm. apply wp_ret, HS; try done; lia.
  - do 2 (apply wp_bind, wp_u32_add; [lia|]). apply (IH _ _ _ start); try done; try lia.
    + intros s Hs Hsn. destruct (decide (s < i)); [apply Hno; lia|].
      exists (i + r). split; [|by apply Hstop]. lia.
    + intros s m' Hs. apply HS. lia.
Qed.

Lemma wp_scan_and_flip bm start cnt value m (Q : option Z -> Mem -> Prop) :
  0 <= start <= bit_cnt bm -> 0 < cnt -> bit_cnt bm + cnt + 1 < u32_lim ->
  (forall s m', start <= s -> s + cnt <= bit_cnt bm ->
     (forall t, s <= t < s + cnt -> bit bm m t = value) ->
     no_run bm m cnt value start s ->
     bits_upd bm s (s + cnt) (negb value) m m' -> Q (Some s) m') ->
  (no_run bm m cnt value start (bit_cnt bm) -> Q None m) ->
  wp (scan_and_flip bm start cnt value) m Q.
Proof.
  intros Hs Hc Hl HS HN. unfold scan_and_flip. rewrite (proj2 (Z.eqb_neq cnt 0)) by lia.
  apply wp_bind, wp_u32_add; [lia|]. destruct (Z.ltb_spec (bit_cnt bm) (start + cnt)).
  - apply wp_ret, HN. intros s ??. lia.
  - apply (wp_scan_loop _ _ _ _ start); try done; try lia. intros s ??. lia.
Qed.

Lemma wp_create_in_buf cnt buf size m (Q : Bitmap -> Mem -> Prop) :
  byte_cnt cnt <= size -> 0 <= cnt ->
  (forall m', (forall j, 0 <= j < cnt -> bit (mkBitmap buf cnt) m' j = false) ->
     (forall x, ~ (buf <= x < buf + byte_cnt cnt) -> m' x = m x) ->
     Q (mkBitmap buf cnt) m') ->
  wp (create_in_buf cnt buf size) m Q.
Proof.
  intros Hsz Hc HQ. unfold create_in_buf. apply wp_bind, wp_assert; [by apply Z.leb_le|].
  apply wp_bind, wp_modify, wp_ret, HQ.
  - intros j Hj. unfold bit, write_bytes. simpl. pose proof (byte_in_buf _ _ Hj).
    rewrite decide_True by lia. apply Z.testbit_0_l.
  - intros x Hx. unfold write_bytes. by rewrite decide_False.
Qed.
