(* ===== verification/Palloc.v ===== *)
(** The physical page allocator (src/mem/palloc.rs): two pools of pages, each with its bitmap
    stored in the memory in front of its pages. *)
From S2P Require Import Prelude FreeMap Memory.

Record Pool := mkPool { bitmap : Bitmap; base : Z }.

(** [KERNEL_POOL], [USER_POOL] and the memory they manage. *)
Record Palloc := mkPalloc {
  KERNEL_POOL : Pool;
  USER_POOL : Pool;
  p_mem : Mem;
}.
Definition with_mem (m : Mem) (st : Palloc) : Palloc := mkPalloc (KERNEL_POOL st) (USER_POOL st) m.
Definition on_mem {A} (m : M Mem A) : M Palloc A := zoom p_mem with_mem m.

(** [PallocFlags] *)
Definition ASSERT : Z := 1.
Definition ZERO : Z := 2.
Definition USER : Z := 4.
Definition contains (flags f : Z) : bool := Z.land flags f =? f.

(** What the boot code leaves behind: two variables and the address of the image's end. *)
Record BootInfo := mkBoot { init_ram_pages : Z; multiboot_info_phys : Z; _end : Z }.

Definition MAX_RAM_PAGES : Z := 64 * 1024 * 1024 / PGSIZE.

Definition detect_ram_pages (boot : BootInfo) : M Palloc Z :=
  let pages := init_ram_pages boot in
  if negb (pages =? 0) then ret (Z.min pages MAX_RAM_PAGES)
  else
    let mb_phys := multiboot_info_phys boot in
    if mb_phys =? 0 then ret MAX_RAM_PAGES
    else
      let! mb_virt := u32_add mb_phys PHYS_BASE in
      let! flags := gets (fun st => read_u32 (p_mem st) mb_virt) in
      let! pages :=
        if negb (Z.land flags 1 =? 0) then
          let! a := u32_add mb_virt 8 in
          let! mem_upper_kb := gets (fun st => read_u32 (p_mem st) a) in
          let! kb := u32_add 1024 mem_upper_kb in
          let! total_bytes := u32_mul kb 1024 in
          ret (total_bytes / PGSIZE)
        else ret MAX_RAM_PAGES in
      ret (Z.min pages MAX_RAM_PAGES).

Definition div_ceil (a b : Z) : Z := (a + b - 1) / b.

(** [init_pool]: the bitmap at the start of the region, the pages behind it. *)
Definition init_pool (start page_cnt : Z) : M Palloc Pool :=
  let bm_bytes := byte_cnt page_cnt in
  let bm_pages := div_ceil bm_bytes PGSIZE in
  let! bm := on_mem (create_in_buf page_cnt start (bm_pages * PGSIZE)) in
  ret (mkPool bm (start + bm_pages * PGSIZE)).

Definition init (boot : BootInfo) (user_page_limit : Z) : M Palloc unit :=
  let! ram_pages := detect_ram_pages boot in
  let! free_start := pg_round_up (_end boot) in
  let! ram_bytes := u32_mul ram_pages PGSIZE in
  let! ram_end := ptov ram_bytes in
  let! room := u32_sub ram_end free_start in
  let free_pages := room / PGSIZE in
  let user_pages := free_pages / 2 in
  let user_pages :=
    if (0 <? user_page_limit) && (user_page_limit <? user_pages) then user_page_limit
    else user_pages in
  let! kernel_pages := u32_sub free_pages user_pages in
  let kernel_start := free_start in
  let! kp := init_pool kernel_start kernel_pages in
  modify (fun st => mkPalloc kp (USER_POOL st) (p_mem st)) ;;
  let user_start :=
    kernel_start + (div_ceil (byte_cnt kernel_pages) PGSIZE * PGSIZE + kernel_pages * PGSIZE) in
  let! up := init_pool user_start user_pages in
  modify (fun st => mkPalloc (KERNEL_POOL st) up (p_mem st)).

(** [get_multiple]; the null pointer is 0. *)
Definition get_multiple (flags page_cnt : Z) : M Palloc Z :=
  if page_cnt =? 0 then ret 0
  else
    let! pool := gets (if contains flags USER then USER_POOL else KERNEL_POOL) in
    let! page_idx := on_mem (scan_and_flip (bitmap pool) 0 page_cnt false) in
    match page_idx with
    | Some idx =>
        let! ofs := u32_mul idx PGSIZE in
        let pages := base pool + ofs in
        (if contains flags ZERO then
           let! n := u32_mul page_cnt PGSIZE in
           on_mem (modify (write_bytes pages 0 n))
         else ret tt) ;;
        ret pages
    | None =>
        if contains flags ASSERT then panic "palloc_get: out of pages" else ret 0
    end.

Definition get_page (flags : Z) : M Palloc Z := get_multiple flags 1.

Definition free_multiple (pages page_cnt : Z) : M Palloc unit :=
  if (pages =? 0) || (page_cnt =? 0) then ret tt
  else
    let! kp := gets KERNEL_POOL in
    let! up := gets USER_POOL in
    let! bytes := u32_mul (bit_cnt (bitmap kp)) PGSIZE in
    let! kend := u32_add (base kp) bytes in
    let pool := if (base kp <=? pages) && (pages <? kend) then kp else up in
    let! ofs := u32_sub pages (base pool) in
    let page_idx := ofs / PGSIZE in
    on_mem (set_multiple (bitmap pool) page_idx page_cnt false).

Definition free_page (page : Z) : M Palloc unit := free_multiple page 1.

(** ** The contract *)

Definition pool_end (p : Pool) : Z := base p + bit_cnt (bitmap p) * PGSIZE.

(** The bitmap lies before the pages, which are page-aligned and inside the address space. *)
Record pool_ok (p : Pool) : Prop := {
  po_bits : 0 < bits (bitmap p);
  po_fit : bits (bitmap p) + byte_cnt (bit_cnt (bitmap p)) <= base p;
  po_cnt : 0 <= bit_cnt (bitmap p);
  po_align : base p mod PGSIZE = 0;
  po_end : pool_end p < u32_lim;
}.

(** The two pools are in order and do not overlap. *)
Record pa_ok (st : Palloc) : Prop := {
  pa_kernel : pool_ok (KERNEL_POOL st);
  pa_user : pool_ok (USER_POOL st);
  pa_disj : pool_end (KERNEL_POOL st) <= bits (bitmap (USER_POOL st));
}.

(** Page [a] of pool [p] is allocated. *)
Definition in_pool (p : Pool) (a : Z) : bool :=
  (base p <=? a) && (a <? pool_end p) && (a mod PGSIZE =? 0).
Definition page_bit (p : Pool) (m : Mem) (a : Z) : bool :=
  in_pool p a && bit (bitmap p) m ((a - base p) / PGSIZE).

(** The abstract state of the allocator: which pages are handed out. *)
Definition live (st : Palloc) (a : Z) : bool :=
  page_bit (KERNEL_POOL st) (p_mem st) a || page_bit (USER_POOL st) (p_mem st) a.

(** Addresses that belong to the allocator's own bitmaps. *)
Definition in_bitmaps (st : Palloc) (x : Z) : Prop :=
  bits (bitmap (KERNEL_POOL st)) <= x < base (KERNEL_POOL st) \/
  bits (bitmap (USER_POOL st)) <= x < base (USER_POOL st).

Definition pool_of (flags : Z) (st : Palloc) : Pool :=
  if contains flags USER then USER_POOL st else KERNEL_POOL st.

Lemma pool_of_ok flags st : pa_ok st -> pool_ok (pool_of flags st).
Proof. intros []. unfold pool_of. by destruct (contains flags USER). Qed.

Lemma bit_frame bm m m' j :
  (forall x, bits bm <= x < bits bm + byte_cnt (bit_cnt bm) -> m' x = m x) ->
  0 <= j < bit_cnt bm -> bit bm m' j = bit bm m j.
Proof.
  intros H Hj. unfold bit. rewrite H; [done|]. pose proof (byte_in_buf _ _ Hj). lia.
Qed.

Lemma byte_cnt_nonneg n : 0 <= n -> 0 <= byte_cnt n.
Proof. unfold byte_cnt. intros. apply Z.div_pos; lia. Qed.

Lemma page_index p a : pool_ok p -> in_pool p a = true ->
  0 <= (a - base p) / PGSIZE < bit_cnt (bitmap p) /\ a = base p + (a - base p) / PGSIZE * PGSIZE.
Proof.
  intros [_ _ _ Hal _]. unfold in_pool. rewrite !andb_true_iff, Z.leb_le, Z.ltb_lt, Z.eqb_eq.
  unfold pool_end, PGSIZE in *. intros [[? ?] ?]. Z.div_mod_to_equations. lia.
Qed.

(** A bitmap survives a change of memory outside it. *)
Lemma page_bit_frame p m m' a :
  pool_ok p -> (forall x, bits (bitmap p) <= x < base p -> m' x = m x) ->
  page_bit p m' a = page_bit p m a.
Proof.
  intros Hp H. unfold page_bit. destruct (in_pool p a) eqn:E; [|done]. simpl.
  apply bit_frame; [|by apply page_index]. intros x Hx. apply H.
  pose proof (po_fit _ Hp). lia.
Qed.

(** Marking a run of a bitmap marks exactly those pages. *)
Lemma page_bit_upd p m m' lo hi v a :
  pool_ok p -> bits_upd (bitmap p) lo hi v m m' -> 0 <= lo ->
  page_bit p m' a =
    if decide (in_pool p a = true /\ base p + lo * PGSIZE <= a < base p + hi * PGSIZE) then v
    else page_bit p m a.
Proof.
  intros Hp [Hb _] Hlo. unfold page_bit. destruct (in_pool p a) eqn:E.
  2:{ rewrite decide_False; [done|]. by intros [? _]. }
  simpl. destruct (page_index p a Hp E) as [Hi Ha]. rewrite Hb by lia.
  repeat case_decide; try done; exfalso; unfold PGSIZE in *; lia.
Qed.

Definition is_page (p : Z) (cnt a : Z) : bool :=
  (p <=? a) && (a <? p + cnt * PGSIZE) && (a mod PGSIZE =? 0).

(** The pages of a run of pool [p]. *)
Lemma in_run p i cnt a : pool_ok p -> 0 <= i -> 0 <= cnt -> i + cnt <= bit_cnt (bitmap p) ->
  is_page (base p + i * PGSIZE) cnt a = true <->
  in_pool p a = true /\ base p + i * PGSIZE <= a < base p + (i + cnt) * PGSIZE.
Proof.
  intros [_ _ _ Hal _] Hi Hc Hn. unfold is_page, in_pool, pool_end.
  rewrite !andb_true_iff, !Z.leb_le, !Z.ltb_lt, Z.eqb_eq. unfold PGSIZE in *.
  split; intros; split_and!; lia.
Qed.

(** Changing a run of the chosen pool: the pages of the run get [v], all others keep their
    status, and only that pool's bitmap memory changes. *)
Lemma live_upd st flags m' i cnt v :
  pa_ok st -> 0 <= i -> 0 <= cnt -> i + cnt <= bit_cnt (bitmap (pool_of flags st)) ->
  bits_upd (bitmap (pool_of flags st)) i (i + cnt) v (p_mem st) m' ->
  (forall a, live (with_mem m' st) a =
     if is_page (base (pool_of flags st) + i * PGSIZE) cnt a then v else live st a) /\
  (forall x, ~ in_bitmaps st x -> m' x = p_mem st x).
Proof.
  intros [Hk Hu Hd] Hi Hc Hn Hupd. set (p := pool_of flags st) in *.
  assert (pool_ok p) as Hp by (unfold p, pool_of; by destruct (contains flags USER)).
  pose proof (po_fit _ Hk) as Fk. pose proof (po_fit _ Hu) as Fu. pose proof (po_fit _ Hp) as Fp.
  pose proof (po_cnt _ Hk) as Ck. unfold pool_end in Hd.
  pose proof (byte_cnt_nonneg _ (po_cnt _ Hu)) as Bu. pose proof (byte_cnt_nonneg _ Ck) as Bk.
  assert (forall q a, pool_ok q -> in_pool q a = true -> base q <= a < pool_end q) as Hrng.
  { intros q a _. unfold in_pool. rewrite !andb_true_iff, Z.leb_le, Z.ltb_lt. lia. }
  split.
  - intros a. pose proof (in_run p i cnt a Hp Hi Hc Hn) as Hrun. unfold live. simpl.
    assert (page_bit p m' a = if is_page (base p + i * PGSIZE) cnt a then v
            else page_bit p (p_mem st) a) as Hthis.
    { rewrite (page_bit_upd p _ m' i (i + cnt) v a Hp Hupd Hi).
      destruct (is_page _ _ a) eqn:E; case_decide as Hc'; try done.
      - by destruct Hc'; apply Hrun.
      - apply Hrun in Hc'. congruence. }
    destruct Hupd as [_ Hfr].
    unfold p, pool_of in *. destruct (contains flags USER).
    + rewrite (page_bit_frame (KERNEL_POOL st) (p_mem st) m') by
        (done || intros; apply Hfr; unfold PGSIZE in *; lia).
      rewrite Hthis. destruct (is_page _ _ a) eqn:E; [|done].
      destruct (proj1 Hrun eq_refl) as [Hin _].
      assert (page_bit (KERNEL_POOL st) (p_mem st) a = false) as ->; [|by destruct v].
      unfold page_bit. destruct (in_pool (KERNEL_POOL st) a) eqn:E2; [|done].
      apply Hrng in E2, Hin; try done. unfold pool_end in *. lia.
    + rewrite (page_bit_frame (USER_POOL st) (p_mem st) m') by
        (done || intros; apply Hfr; unfold PGSIZE in *; lia).
      rewrite Hthis. destruct (is_page _ _ a) eqn:E; [|done].
      destruct (proj1 Hrun eq_refl) as [Hin _].
      assert (page_bit (USER_POOL st) (p_mem st) a = false) as ->; [|by destruct v].
      unfold page_bit. destruct (in_pool (USER_POOL st) a) eqn:E2; [|done].
      apply Hrng in E2, Hin; try done. unfold pool_end in *. lia.
  - intros x Hx. destruct Hupd as [_ Hfr]. apply Hfr. intros Hin. apply Hx.
    unfold in_bitmaps, p, pool_of in *. destruct (contains flags USER); [right|left]; lia.
Qed.

(** Which pages are live depends on the bitmaps only. *)
Lemma live_frame st st' :
  pa_ok st -> KERNEL_POOL st' = KERNEL_POOL st -> USER_POOL st' = USER_POOL st ->
  (forall x, in_bitmaps st x -> p_mem st' x = p_mem st x) -> forall a, live st' a = live st a.
Proof.
  intros [Hk Hu _] Ek Eu Hm a. unfold live. rewrite Ek, Eu.
  f_equal; apply page_bit_frame; try done; intros x Hx; apply Hm; [by left|by right].
Qed.

(** Zeroing live pages does not touch a bitmap. *)
Lemma live_zero st p n :
  pa_ok st -> (forall x, p <= x < p + n -> ~ in_bitmaps st x) ->
  forall a, live (with_mem (write_bytes p 0 n (p_mem st)) st) a = live st a.
Proof.
  intros Hok Hout. apply live_frame; try done. intros x Hx. simpl. unfold write_bytes.
  rewrite decide_False; [done|]. intros Hp. by apply (Hout x Hp).
Qed.

Lemma run_outside_bitmaps st flags i cnt x :
  pa_ok st -> 0 <= i -> 0 <= cnt -> i + cnt <= bit_cnt (bitmap (pool_of flags st)) ->
  base (pool_of flags st) + i * PGSIZE <= x <
    base (pool_of flags st) + i * PGSIZE + cnt * PGSIZE -> ~ in_bitmaps st x.
Proof.
  intros [Hk Hu Hd] Hi Hc Hn. pose proof (po_fit _ Hk). pose proof (po_fit _ Hu).
  pose proof (po_cnt _ Hk). pose proof (byte_cnt_nonneg _ (po_cnt _ Hk)). pose proof (byte_cnt_nonneg _ (po_cnt _ Hu)).
  unfold in_bitmaps, pool_of, pool_end, PGSIZE in *. destruct (contains flags USER); lia.
Qed.

(** What [get_multiple] promises for a pointer [p] to [cnt] pages. *)
Record got (flags cnt : Z) (st : Palloc) (p : Z) (st' : Palloc) : Prop := {
  got_ok : pa_ok st';
  got_pools : KERNEL_POOL st' = KERNEL_POOL st /\ USER_POOL st' = USER_POOL st;
  got_pos : 0 < p /\ p mod PGSIZE = 0;
  got_pool : base (pool_of flags st) <= p /\ p + cnt * PGSIZE <= pool_end (pool_of flags st);
  got_fresh : forall a, is_page p cnt a = true -> live st a = false;
  got_live : forall a, live st' a = is_page p cnt a || live st a;
  got_zero : contains flags ZERO = true -> forall x, p <= x < p + cnt * PGSIZE -> p_mem st' x = 0;
  got_frame : forall x, ~ in_bitmaps st x ->
    (contains flags ZERO = true -> ~ (p <= x < p + cnt * PGSIZE)) -> p_mem st' x = p_mem st x;
}.

(** No run of [cnt] free pages is left in the pool. *)
Definition exhausted (flags cnt : Z) (st : Palloc) : Prop :=
  forall p, base (pool_of flags st) <= p -> p mod PGSIZE = 0 ->
    p + cnt * PGSIZE <= pool_end (pool_of flags st) ->
    exists a, is_page p cnt a = true /\ live st a = true.

Lemma no_run_exhausted st flags cnt :
  pa_ok st -> 0 < cnt ->
  no_run (bitmap (pool_of flags st)) (p_mem st) cnt false 0 (bit_cnt (bitmap (pool_of flags st))) ->
  exhausted flags cnt st.
Proof.
  intros Hok Hc Hno p Hb Hal He. set (q := pool_of flags st) in *.
  pose proof (pool_of_ok flags _ Hok : pool_ok q) as Hq.
  pose proof (po_align _ Hq) as Hqa. unfold pool_end in He. set (i := (p - base q) / PGSIZE).
  assert (p = base q + i * PGSIZE) as Hp
    by (unfold i, PGSIZE in *; Z.div_mod_to_equations; lia).
  assert (0 <= i) as Hi0 by (unfold i, PGSIZE in *; Z.div_mod_to_equations; lia).
  destruct (Hno i) as (t & Ht & Hbit); [unfold PGSIZE in *; lia..|].
  exists (base q + t * PGSIZE).
  assert ((base q + t * PGSIZE) mod PGSIZE = 0) as Hta
    by (unfold PGSIZE in *; Z.div_mod_to_equations; lia).
  assert (in_pool q (base q + t * PGSIZE) = true) as Hin.
  { unfold in_pool, pool_end. rewrite !andb_true_iff, Z.leb_le, Z.ltb_lt, Z.eqb_eq.
    unfold PGSIZE in *. lia. }
  split.
  - unfold is_page. rewrite !andb_true_iff, Z.leb_le, Z.ltb_lt, Z.eqb_eq. unfold PGSIZE in *. lia.
  - assert (page_bit q (p_mem st) (base q + t * PGSIZE) = true) as Hpb.
    { unfold page_bit. rewrite Hin. simpl.
      replace ((base q + t * PGSIZE - base q) / PGSIZE) with t
        by (unfold PGSIZE; Z.div_mod_to_equations; lia).
      by apply not_false_iff_true. }
    unfold live, q, pool_of in *. destruct (contains flags USER); rewrite Hpb; [apply orb_true_r|done].
Qed.

(** A successful scan, up to the zeroing. *)
Lemma got_marked st flags i cnt m' :
  pa_ok st -> 0 <= i -> 0 < cnt -> i + cnt <= bit_cnt (bitmap (pool_of flags st)) ->
  (forall t, i <= t < i + cnt -> bit (bitmap (pool_of flags st)) (p_mem st) t = false) ->
  bits_upd (bitmap (pool_of flags st)) i (i + cnt) true (p_mem st) m' ->
  got (Z.land flags USER) cnt st (base (pool_of flags st) + i * PGSIZE) (with_mem m' st).
Proof.
  intros Hok Hi Hc Hn Hfree Hupd. set (q := pool_of flags st) in *.
  assert (pool_of (Z.land flags USER) st = q) as Eq.
  { unfold q, pool_of, contains. by rewrite <- Z.land_assoc, Z.land_diag. }
  assert (contains (Z.land flags USER) ZERO = false) as Ez.
  { unfold contains. rewrite <- Z.land_assoc. change (Z.land USER ZERO) with 0. by rewrite Z.land_0_r. }
  pose proof (pool_of_ok flags _ Hok : pool_ok q) as Hq.
  destruct (live_upd st flags m' i cnt true Hok Hi ltac:(lia) Hn Hupd) as [Hl Hfr]. fold q in Hl.
  split; rewrite ?Ez, ?Eq.
  - by destruct Hok.
  - done.
  - destruct Hq. unfold PGSIZE in *. pose proof (byte_cnt_nonneg _ po_cnt0).
    split; [lia|]. Z.div_mod_to_equations; lia.
  - unfold pool_end, PGSIZE in *. lia.
  - intros a Ha. apply (in_run q i cnt a Hq) in Ha as [Hin Hr]; [|lia..].
    assert (page_bit q (p_mem st) a = false) as Hpb.
    { unfold page_bit. rewrite Hin. simpl. destruct (page_index q a Hq Hin) as [? Ea].
      apply Hfree. unfold PGSIZE in *. lia. }
    assert (base q <= a < pool_end q) as Har by (unfold pool_end, PGSIZE in *; lia).
    destruct Hok as [Hk Hu Hd]. pose proof (po_fit _ Hu).
    pose proof (byte_cnt_nonneg _ (po_cnt _ Hu)). unfold live, q, pool_of in *.
    assert (forall p, pool_ok p -> ~ (base p <= a < pool_end p) -> page_bit p (p_mem st) a = false) as Hout.
    { intros p _ Hp. unfold page_bit, in_pool. apply andb_false_iff. left.
      apply andb_false_iff. left. apply andb_false_iff. rewrite Z.leb_gt, Z.ltb_ge. lia. }
    destruct (contains flags USER); rewrite Hpb, ?orb_false_r; [|simpl]; apply Hout; try done; lia.
  - intros a. rewrite Hl. by destruct (is_page _ _ a).
  - done.
  - intros x Hx _. by apply Hfr.
Qed.

Lemma get_multiple_spec (flags cnt : Z) (st : Palloc) :
  pa_ok st -> 0 < cnt < 2 ^ 20 ->
  match get_multiple flags cnt st with
  | Ok p st' => (p = 0 /\ st' = st /\ exhausted flags cnt st) \/ got flags cnt st p st'
  | Panic w => contains flags ASSERT = true /\ exhausted flags cnt st
  | _ => False
  end.
Proof.
  intros Hok Hc.
  set (q := pool_of flags st) in *. pose proof (pool_of_ok flags _ Hok : pool_ok q) as Hq. pose proof (po_end _ Hq) as He.
  assert (bit_cnt (bitmap q) * PGSIZE < u32_lim) as Hbl.
  { destruct Hq. pose proof (byte_cnt_nonneg _ po_cnt0). unfold pool_end in He. lia. }
  assert (wp (on_mem (scan_and_flip (bitmap q) 0 cnt false)) st (fun r st' =>
    match r with
    | Some i => 0 <= i /\ i + cnt <= bit_cnt (bitmap q) /\
        got (Z.land flags USER) cnt st (base q + i * PGSIZE) st' /\
        KERNEL_POOL st' = KERNEL_POOL st /\ USER_POOL st' = USER_POOL st
    | None => st' = st /\ exhausted flags cnt st end)) as Hscan.
  { apply wp_zoom, wp_scan_and_flip; [split; [done|apply Hq]|lia|unfold u32_lim, PGSIZE in *; lia|..].
    - intros i m' Hi Hn Hf _ Hu. split_and!; try done. apply got_marked; try done. lia.
    - intros Hno. split; [by destruct st|]. apply no_run_exhausted; [done|lia|done]. }
  unfold get_multiple. rewrite (proj2 (Z.eqb_neq cnt 0)) by lia.
  unfold bind at 1, gets. fold (pool_of flags) in *.
  replace ((if contains flags USER then USER_POOL else KERNEL_POOL) st) with q
    by (unfold q, pool_of; by destruct (contains flags USER)).
  apply wp_ok in Hscan as (r & st1 & E & Hr). unfold bind at 1. rewrite E.
  destruct r as [i|].
  2:{ destruct Hr as [-> Hex]. destruct (contains flags ASSERT); simpl; auto. }
  destruct Hr as (Hi & Hn & Hgot & Ek & Eu).
  unfold bind at 1, u32_mul. rewrite (proj2 (Z.ltb_lt _ _)) by (unfold PGSIZE in *; lia).
  unfold ret at 1. destruct Hgot as [Gok _ Gp Gpool Gfr Gl _ Gframe].
  assert (pool_of (Z.land flags USER) st = q) as Eq.
  { unfold q, pool_of, contains. by rewrite <- Z.land_assoc, Z.land_diag. }
  assert (contains (Z.land flags USER) ZERO = false) as Ez.
  { unfold contains. rewrite <- Z.land_assoc. change (Z.land USER ZERO) with 0. by rewrite Z.land_0_r. }
  rewrite Eq, Ez in *. destruct (contains flags ZERO) eqn:Hz.
  - unfold bind, on_mem, zoom, modify, u32_mul.
    rewrite (proj2 (Z.ltb_lt _ _)) by (unfold u32_lim, PGSIZE in *; lia). unfold ret. right.
    assert (forall x, base q + i * PGSIZE <= x < base q + i * PGSIZE + cnt * PGSIZE ->
      ~ in_bitmaps st1 x) as Hout.
    { intros x Hx. unfold in_bitmaps. rewrite Ek, Eu. apply (run_outside_bitmaps st flags i cnt); try done; lia. }
    pose proof (live_zero _ _ _ Gok Hout) as Hlz. split; rewrite ?Hz; fold q; try done.
    + by destruct Gok.
    + intros a. by rewrite Hlz, Gl.
    + intros _ x Hx. simpl. unfold write_bytes. by rewrite decide_True.
    + intros x Hx Hn'. simpl. unfold write_bytes. rewrite decide_False by auto. by apply Gframe.
  - right. simpl. split; rewrite ?Hz; fold q; done.
Qed.

(** Page allocation is sound and complete.  From a well-formed allocator, a request for
    [cnt] pages either returns a page-aligned run inside the requested pool of which no page
    was handed out, marks exactly those pages, zeroes them when asked to, and changes no byte
    outside the bitmaps and the zeroed pages; or it fails only when every run of [cnt] pages of
    the pool has a page in use, with a null pointer, or with a panic when ASSERT was given.
    It never runs forever or touches memory out of bounds. *)
Theorem get_multiple_correct (flags cnt : Z) (st : Palloc) :
  pa_ok st -> 0 < cnt < 2 ^ 20 ->
  match get_multiple flags cnt st with
  | Ok p st' => (p = 0 /\ st' = st /\ exhausted flags cnt st) \/ got flags cnt st p st'
  | Panic w => contains flags ASSERT = true /\ exhausted flags cnt st
  | _ => False
  end.
Proof. apply get_multiple_spec. Qed.

(** Two pools of four pages each, with pages 0 and 2 of the kernel pool in use. *)
Definition demo_pa : Palloc :=
  mkPalloc (mkPool (mkBitmap 0xC0100000 4) 0xC0101000) (mkPool (mkBitmap 0xC0105000 4) 0xC0106000)
    (fun x => if decide (x = 0xC0100000) then 5 else 0).

Lemma demo_pa_ok : pa_ok demo_pa.
Proof. by repeat split; vm_compute. Qed.

Lemma get_multiple_correct_witness :
  match get_multiple (USER + ZERO) 2 demo_pa with
  | Ok p st' => (p = 0 /\ st' = demo_pa /\ exhausted (USER + ZERO) 2 demo_pa) \/
                got (USER + ZERO) 2 demo_pa p st'
  | Panic w => contains (USER + ZERO) ASSERT = true /\ exhausted (USER + ZERO) 2 demo_pa
  | _ => False
  end.
Proof. apply (get_multiple_correct (USER + ZERO) 2 demo_pa); [exact demo_pa_ok|done]. Defined.

(** [free_multiple] finds the pool of a pointer from its address. *)
Lemma free_pool st flags i cnt :
  pa_ok st -> 0 <= i -> 0 < cnt -> i + cnt <= bit_cnt (bitmap (pool_of flags st)) ->
  (base (KERNEL_POOL st) <=? base (pool_of flags st) + i * PGSIZE) &&
    (base (pool_of flags st) + i * PGSIZE <? pool_end (KERNEL_POOL st)) =
  negb (contains flags USER).
Proof.
  intros [Hk Hu Hd] Hi Hc Hn. pose proof (po_fit _ Hu). pose proof (po_cnt _ Hk).
  pose proof (byte_cnt_nonneg _ (po_cnt _ Hu)).
  unfold pool_of, pool_end, PGSIZE in *. destruct (contains flags USER); simpl.
  - apply andb_false_iff. right. apply Z.ltb_ge. lia.
  - apply andb_true_iff. split; [apply Z.leb_le|apply Z.ltb_lt]; lia.
Qed.

Lemma wp_free_multiple (flags p cnt : Z) (st : Palloc) :
  pa_ok st -> 0 < cnt -> base (pool_of flags st) <= p -> p mod PGSIZE = 0 ->
  p + cnt * PGSIZE <= pool_end (pool_of flags st) ->
  wp (free_multiple p cnt) st (fun _ st' =>
    pa_ok st' /\ (forall a, live st' a = negb (is_page p cnt a) && live st a) /\
    (forall x, ~ in_bitmaps st x -> p_mem st' x = p_mem st x) /\
    KERNEL_POOL st' = KERNEL_POOL st /\ USER_POOL st' = USER_POOL st).
Proof.
  intros Hok Hc Hb Hal He. set (q := pool_of flags st) in *.
  pose proof (pool_of_ok flags _ Hok : pool_ok q) as Hq.
  pose proof (po_align _ Hq) as Hqa. set (i := (p - base q) / PGSIZE).
  assert (p = base q + i * PGSIZE /\ 0 <= i) as [Hp Hi]
    by (unfold i, PGSIZE in *; Z.div_mod_to_equations; lia).
  assert (i + cnt <= bit_cnt (bitmap q)) as Hn by (unfold pool_end, PGSIZE in *; lia).
  pose proof (po_bits _ Hq). pose proof (po_fit _ Hq). pose proof (po_end _ Hq).
  pose proof (byte_cnt_nonneg _ (po_cnt _ Hq)).
  pose proof (free_pool st flags i cnt Hok Hi Hc Hn) as Hfp. fold q in Hfp. rewrite <- Hp in Hfp.
  pose proof (pa_kernel _ Hok) as Hk. pose proof (po_end _ Hk). pose proof (po_bits _ Hk).
  pose proof (po_fit _ Hk). pose proof (byte_cnt_nonneg _ (po_cnt _ Hk)).
  unfold free_multiple. rewrite (proj2 (Z.eqb_neq p 0)), (proj2 (Z.eqb_neq cnt 0)) by lia. simpl.
  do 2 apply wp_bind, wp_gets.
  apply wp_bind, wp_u32_mul; [unfold pool_end in *; lia|].
  apply wp_bind, wp_u32_add; [done|].
  fold (pool_end (KERNEL_POOL st)). rewrite Hfp.
  assert ((if negb (contains flags USER) then KERNEL_POOL st else USER_POOL st) = q) as ->
    by (unfold q, pool_of; by destruct (contains flags USER)).
  apply wp_bind, wp_u32_sub; [done|]. cbv zeta. fold i.
  apply wp_zoom, wp_set_multiple; [lia|lia|lia|unfold pool_end, PGSIZE in *; lia|].
  intros m' Hupd. destruct (live_upd st flags m' i cnt false Hok Hi ltac:(lia) Hn Hupd) as [Hl Hfr].
  fold q in Hl. rewrite <- Hp in Hl. split_and!; [by destruct Hok| |done..].
  intros a. rewrite Hl. by destruct (is_page p cnt a).
Qed.

(** Freeing gives pages back.  [free_multiple p cnt], for a run of pages inside either
    pool, marks exactly those pages free (whatever pool they belong to), keeps the allocator
    well formed, and touches nothing but the bitmaps; in particular, freeing what
    [get_multiple] returned restores the earlier set of live pages. *)
Theorem free_multiple_correct (flags p cnt : Z) (st : Palloc) :
  pa_ok st -> 0 < cnt -> base (pool_of flags st) <= p -> p mod PGSIZE = 0 ->
  p + cnt * PGSIZE <= pool_end (pool_of flags st) ->
  wp (free_multiple p cnt) st (fun _ st' =>
    pa_ok st' /\ (forall a, live st' a = negb (is_page p cnt a) && live st a) /\
    (forall x, ~ in_bitmaps st x -> p_mem st' x = p_mem st x)).
Proof.
  intros Hok Hc Hb Hal He. eapply wp_mono; [by apply (wp_free_multiple flags)|].
  intros [] st' (? & ? & ? & _). done.
Qed.

Lemma free_multiple_correct_witness :
  wp (free_multiple 0xC0103000 1) demo_pa (fun _ st' => live st' 0xC0103000 = false /\
    live st' 0xC0101000 = true).
Proof.
  eapply wp_mono.
  - apply (free_multiple_correct 0 0xC0103000 1 demo_pa); [exact demo_pa_ok|done..].
  - intros [] st' (_ & Hl & _). rewrite !Hl. split; by vm_compute.
Defined.

(** ** Boot *)
Lemma wp_init_pool start cnt st (Q : Pool -> Palloc -> Prop) :
  0 <= cnt ->
  (forall m', (forall j, 0 <= j < cnt -> bit (mkBitmap start cnt) m' j = false) ->
     (forall x, ~ (start <= x < start + byte_cnt cnt) -> m' x = p_mem st x) ->
     Q (mkPool (mkBitmap start cnt) (start + div_ceil (byte_cnt cnt) PGSIZE * PGSIZE))
       (with_mem m' st)) ->
  wp (init_pool start cnt) st Q.
Proof.
  intros Hc HQ. unfold init_pool. apply wp_bind, wp_zoom, wp_create_in_buf; [|done|].
  - pose proof (byte_cnt_nonneg _ Hc). unfold div_ceil, PGSIZE. Z.div_mod_to_equations. lia.
  - intros m' Hb Hf. by apply wp_ret, HQ.
Qed.

(** The layout [init] chooses: [ram_end], and the pages of the two bitmaps. *)
Definition ram_end (ram_pages : Z) : Z := PHYS_BASE + ram_pages * PGSIZE.
Definition bitmap_pages (cnt : Z) : Z := div_ceil (byte_cnt cnt) PGSIZE.

Lemma bitmap_pages_pos n : 0 < n -> 0 < bitmap_pages n /\ byte_cnt n <= bitmap_pages n * PGSIZE.
Proof. unfold bitmap_pages, div_ceil, byte_cnt, PGSIZE. intros. Z.div_mod_to_equations. lia. Qed.

Lemma bitmap_pages_small n : n <= 32768 -> bitmap_pages n <= 2.
Proof. unfold bitmap_pages, div_ceil, byte_cnt, PGSIZE. intros. Z.div_mod_to_equations. lia. Qed.

(** A pool laid out by [init_pool] at a page boundary. *)
Definition pool_at (start cnt : Z) : Pool :=
  mkPool (mkBitmap start cnt) (start + bitmap_pages cnt * PGSIZE).

Lemma pool_at_ok start cnt :
  0 < start -> start mod PGSIZE = 0 -> 0 < cnt ->
  start + (bitmap_pages cnt + cnt) * PGSIZE < u32_lim -> pool_ok (pool_at start cnt).
Proof.
  intros Hs Hal Hc He. destruct (bitmap_pages_pos cnt Hc). unfold pool_at.
  split; unfold pool_end; simpl; try lia.
  rewrite Z.add_mod, Z_mod_mult, Hal by done. done.
Qed.

Lemma fresh_pools start nk nu m :
  0 < start -> start mod PGSIZE = 0 -> 0 < nk -> 0 < nu ->
  let us := start + (bitmap_pages nk * PGSIZE + nk * PGSIZE) in
  us + (bitmap_pages nu + nu) * PGSIZE < u32_lim ->
  (forall j, 0 <= j < nk -> bit (mkBitmap start nk) m j = false) ->
  (forall j, 0 <= j < nu -> bit (mkBitmap us nu) m j = false) ->
  let st := mkPalloc (pool_at start nk) (pool_at us nu) m in
  pa_ok st /\ forall a, live st a = false.
Proof.
  intros Hs Hal Hk Hu us He Hbk Hbu st.
  destruct (bitmap_pages_pos nk Hk). destruct (bitmap_pages_pos nu Hu).
  assert (us mod PGSIZE = 0) as Hua.
  { unfold us. rewrite <- Z.mul_add_distr_r, Z.add_mod, Z_mod_mult, Hal by done. done. }
  assert (pool_ok (pool_at start nk)) as Hpk
    by (apply pool_at_ok; try done; unfold us, PGSIZE in *; lia).
  assert (pool_ok (pool_at us nu)) as Hpu
    by (apply pool_at_ok; try done; unfold us, PGSIZE in *; lia).
  split; [split; try done; unfold pool_end; simpl; lia|].
  intros a. unfold live, page_bit. simpl. apply orb_false_iff.
  assert (forall p, pool_ok p ->
    (forall j, 0 <= j < bit_cnt (bitmap p) -> bit (bitmap p) m j = false) ->
    in_pool p a && bit (bitmap p) m ((a - base p) / PGSIZE) = false) as Hz; [|auto].
  intros p Hp Hb. destruct (in_pool p a) eqn:E; [|done]. apply Hb. by apply page_index.
Qed.

(** The split between the pools. *)
Lemma pool_split fp limit :
  2 <= fp -> 0 <= limit ->
  let nu := if (0 <? limit) && (limit <? fp / 2) then limit else fp / 2 in
  0 < nu <= fp / 2 /\ fp / 2 < fp.
Proof.
  intros Hf Hl nu. unfold nu.
  destruct (Z.ltb_spec 0 limit), (Z.ltb_spec limit (fp / 2)); simpl; Z.div_mod_to_equations; lia.
Qed.

(** C38: After [init], whatever the page limit, both pools are well formed and disjoint, start
    after the kernel image, and no page is live; the split covers all free pages.  The pages
    that hold the two bitmaps are not subtracted from the free pages, though, so the user pool
    always ends past the end of RAM, by exactly the size of the bitmaps. *)
Theorem init_pools (boot : BootInfo) (limit ram_pages : Z) (st : Palloc) :
  detect_ram_pages boot st = Ok ram_pages st -> 0 <= ram_pages <= MAX_RAM_PAGES ->
  PHYS_BASE <= _end boot -> _end boot + 3 * PGSIZE <= ram_end ram_pages -> 0 <= limit ->
  wp (init boot limit) st (fun _ st' =>
    let nk := bit_cnt (bitmap (KERNEL_POOL st')) in
    let nu := bit_cnt (bitmap (USER_POOL st')) in
    pa_ok st' /\ (forall a, live st' a = false) /\ 0 < nk /\ 0 < nu /\
    _end boot <= bits (bitmap (KERNEL_POOL st')) /\
    (nk + nu = (ram_end ram_pages - bits (bitmap (KERNEL_POOL st'))) / PGSIZE) /\
    pool_end (USER_POOL st') = ram_end ram_pages + (bitmap_pages nk + bitmap_pages nu) * PGSIZE).
Proof.
  intros Hd Hrp Hk He Hlim. unfold init. apply wp_bind. unfold wp at 1. rewrite Hd.
  assert (MAX_RAM_PAGES = 16384) as Hmax by done. unfold ram_end, PHYS_BASE in *.
  apply wp_bind, wp_pg_round_up; [lia|unfold u32_lim, PGSIZE in *; lia|]. intros fs Hfs Hal.
  apply wp_bind, wp_u32_mul; [unfold u32_lim, PGSIZE; lia|].
  unfold ptov. apply wp_bind, wp_bind, wp_assert;
    [apply Z.ltb_lt; unfold PHYS_BASE, PGSIZE; lia|].
  unfold PHYS_BASE. apply wp_u32_add; [unfold u32_lim, PGSIZE; lia|].
  apply wp_bind, wp_u32_sub; [unfold PGSIZE in *; lia|].
  set (re := ram_pages * PGSIZE + _). set (fp := (re - fs) / PGSIZE).
  assert (fp * PGSIZE = re - fs /\ 2 <= fp) as [Hfp Hfp2]
    by (unfold fp, re, PGSIZE in *; Z.div_mod_to_equations; lia).
  assert (fp <= 16384) as Hfp3 by (unfold re, PGSIZE in *; lia).
  destruct (pool_split fp limit Hfp2 Hlim) as [Hnu Hhalf].
  set (nu := if _ && _ then limit else fp / 2) in *.
  apply wp_bind, wp_u32_sub; [lia|]. set (nk := fp - nu).
  assert (0 < nk /\ nk + nu = fp) as [Hnk Hsum] by lia.
  destruct (bitmap_pages_pos nk Hnk) as [Bk Fk]. destruct (bitmap_pages_pos nu) as [Bu Fu]; [lia|].
  apply wp_bind, wp_init_pool; [lia|]. intros m1 Hm1 Fr1. apply wp_bind, wp_modify.
  apply wp_bind, wp_init_pool; [lia|]. intros m2 Hm2 Fr2. apply wp_modify.
  cbn [KERNEL_POOL USER_POOL p_mem bitmap base bit_cnt bits with_mem] in *.
  fold (bitmap_pages nk) (bitmap_pages nu) in *.
  assert (bitmap_pages nk <= 2 /\ bitmap_pages nu <= 2) as [? ?].
  { split; apply bitmap_pages_small; lia. }
  destruct (fresh_pools fs nk nu m2) as [Hok Hlive].
  1, 2, 3, 4: (done || lia).
  { unfold u32_lim, PGSIZE, re in *. lia. }
  { intros j Hj. rewrite <- (Hm1 j Hj). apply bit_frame; simpl; [|done].
    intros x Hx. apply Fr2. unfold PGSIZE in *. lia. }
  { done. }
  split_and!; try done; try lia.
  - rewrite Hsum. unfold fp, re. f_equal. lia.
  - unfold pool_end. cbn [base bitmap bit_cnt]. clearbody nu. subst nk.
    rewrite !Z.mul_add_distr_r. unfold re in Hfp. lia.
Qed.

(** 64 MB of RAM with a kernel image of 2 MB. *)
Definition demo_boot : BootInfo := mkBoot 16384 0 0xC0200123.

Lemma init_pools_witness :
  wp (init demo_boot 0) demo_pa (fun _ st' => pa_ok st' /\
    pool_end (USER_POOL st') > ram_end 16384).
Proof.
  eapply wp_mono.
  - apply (init_pools demo_boot 0 16384 demo_pa); [done|by vm_compute|by vm_compute|by vm_compute|done].
  - intros [] st' (Hok & _ & Hk & Hu & _ & _ & He). split; [done|]. rewrite He.
    destruct (bitmap_pages_pos _ Hk), (bitmap_pages_pos _ Hu). unfold PGSIZE. lia.
Defined.
