(* ===== verification/Thread.v ===== *)
(** The thread system (src/thread/mod.rs) and the interrupt level (src/arch/idt.rs).

    Kernel code of a thread stops at [schedule] and goes on when the thread is chosen again.
    What it still has to do is kept per thread as a stack of frames ([konts]): a function that
    calls [schedule] first pushes the rest of its body, and [schedule] makes another thread
    current.  Sync.v executes the frames. *)
From S2P Require Import Prelude Inode Memory.

Definition THREAD_MAGIC : Z := 0xcd6abf4b.
Definition PRI_MIN : Z := 0.
Definition PRI_DEFAULT : Z := 31.
Definition TIME_SLICE : Z := 4.
Definition TID_ERROR : Z := -1.

Inductive ThreadStatus : Set := Running | Ready | Blocked | Dying.
#[export] Instance ThreadStatus_eq_dec : EqDecision ThreadStatus.
Proof. solve_decision. Defined.

(** The thread control block; pointers are addresses, 0 for null. *)
Record Thread := mkThread {
  tid : Z;
  status : ThreadStatus;
  name : list Z;
  stack : Z;
  priority : Z;
  original_priority : Z;
  pagedir : Z;
  fd_table : Z;
  waiting_on_lock : Z;
  cwd_sector : Z;
  brk : Z;
  parent_tid : Z;
  killed : bool;
  pgid : Z;
  sig_pending : Z;
  sig_ignore : Z;
  magic : Z;
}.

Definition set_status (x : ThreadStatus) (t : Thread) : Thread :=
  mkThread (tid t) x (name t) (stack t) (priority t) (original_priority t) (pagedir t) (fd_table t)
    (waiting_on_lock t) (cwd_sector t) (brk t) (parent_tid t) (killed t) (pgid t) (sig_pending t)
    (sig_ignore t) (magic t).
Definition set_tid (x : Z) (t : Thread) : Thread :=
  mkThread x (status t) (name t) (stack t) (priority t) (original_priority t) (pagedir t) (fd_table t)
    (waiting_on_lock t) (cwd_sector t) (brk t) (parent_tid t) (killed t) (pgid t) (sig_pending t)
    (sig_ignore t) (magic t).
Definition set_stack (x : Z) (t : Thread) : Thread :=
  mkThread (tid t) (status t) (name t) x (priority t) (original_priority t) (pagedir t) (fd_table t)
    (waiting_on_lock t) (cwd_sector t) (brk t) (parent_tid t) (killed t) (pgid t) (sig_pending t)
    (sig_ignore t) (magic t).
Definition set_prio (p o : Z) (t : Thread) : Thread :=
  mkThread (tid t) (status t) (name t) (stack t) p o (pagedir t) (fd_table t)
    (waiting_on_lock t) (cwd_sector t) (brk t) (parent_tid t) (killed t) (pgid t) (sig_pending t)
    (sig_ignore t) (magic t).
Definition set_waiting (x : Z) (t : Thread) : Thread :=
  mkThread (tid t) (status t) (name t) (stack t) (priority t) (original_priority t) (pagedir t)
    (fd_table t) x (cwd_sector t) (brk t) (parent_tid t) (killed t) (pgid t) (sig_pending t)
    (sig_ignore t) (magic t).
Definition set_killed (t : Thread) : Thread :=
  mkThread (tid t) (status t) (name t) (stack t) (priority t) (original_priority t) (pagedir t)
    (fd_table t) (waiting_on_lock t) (cwd_sector t) (brk t) (parent_tid t) true (pgid t)
    (sig_pending t) (sig_ignore t) (magic t).
Definition set_group (par pg ign : Z) (t : Thread) : Thread :=
  mkThread (tid t) (status t) (name t) (stack t) (priority t) (original_priority t) (pagedir t)
    (fd_table t) (waiting_on_lock t) (cwd_sector t) (brk t) par (killed t) pg (sig_pending t) ign
    (magic t).

(** What a suspended thread still has to do. *)
Inductive frame : Set :=
| KBody                        (* the thread's own function *)
| KKernelThread                (* the entry point of a new thread *)
| KExit                        (* the [exit()] behind the thread's function *)
| KSetLevel (old : bool)       (* [intr_set_level(old)] *)
| KDown (s : Z) (old : bool)   (* the loop of [Semaphore::down] and its tail *)
| KUp (s : Z) (old : bool)     (* [self.value += 1; intr_set_level(old)] *)
| KAcquired (l : Z)            (* the tail of [Lock::acquire] *)
| KWaitDown (s : Z) (l : Z)    (* [waiter.down(); lock.acquire()] of [Condvar::wait] *)
| KAcquire (l : Z)             (* [lock.acquire()] *)
| KDropBox (s : Z)             (* the semaphore box dropped at the end of [Condvar::wait] *)
| KBroadcast (c : Z)           (* the loop of [Condvar::broadcast] *)
| KIret.                       (* return from an interrupt *)

(** The globals of thread/mod.rs and idt.rs, the CPU's interrupt flag ([level], true for On),
    page-directory register and TSS stack, and the suspended code. *)
Record Sched := mkSched {
  threads : gmap Z Thread;
  READY_LIST : list Z;
  ALL_LIST : list Z;
  IDLE_THREAD : Z;
  INITIAL_THREAD : Z;
  THREAD_TICKS : Z;
  NEXT_TID : Z;
  current : Z;
  level : bool;
  IN_EXTERNAL_INTR : bool;
  YIELD_ON_RETURN : bool;
  active_pd : Z;
  esp0 : Z;
  konts : gmap Z (list frame);
}.

Definition with_threads (x : gmap Z Thread) (k : Sched) : Sched :=
  mkSched x (READY_LIST k) (ALL_LIST k) (IDLE_THREAD k) (INITIAL_THREAD k) (THREAD_TICKS k)
    (NEXT_TID k) (current k) (level k) (IN_EXTERNAL_INTR k) (YIELD_ON_RETURN k) (active_pd k)
    (esp0 k) (konts k).
Definition with_ready (x : list Z) (k : Sched) : Sched :=
  mkSched (threads k) x (ALL_LIST k) (IDLE_THREAD k) (INITIAL_THREAD k) (THREAD_TICKS k)
    (NEXT_TID k) (current k) (level k) (IN_EXTERNAL_INTR k) (YIELD_ON_RETURN k) (active_pd k)
    (esp0 k) (konts k).
Definition with_all (x : list Z) (k : Sched) : Sched :=
  mkSched (threads k) (READY_LIST k) x (IDLE_THREAD k) (INITIAL_THREAD k) (THREAD_TICKS k)
    (NEXT_TID k) (current k) (level k) (IN_EXTERNAL_INTR k) (YIELD_ON_RETURN k) (active_pd k)
    (esp0 k) (konts k).
Definition with_idle (x : Z) (k : Sched) : Sched :=
  mkSched (threads k) (READY_LIST k) (ALL_LIST k) x (INITIAL_THREAD k) (THREAD_TICKS k)
    (NEXT_TID k) (current k) (level k) (IN_EXTERNAL_INTR k) (YIELD_ON_RETURN k) (active_pd k)
    (esp0 k) (konts k).
Definition with_initial (x : Z) (k : Sched) : Sched :=
  mkSched (threads k) (READY_LIST k) (ALL_LIST k) (IDLE_THREAD k) x (THREAD_TICKS k)
    (NEXT_TID k) (current k) (level k) (IN_EXTERNAL_INTR k) (YIELD_ON_RETURN k) (active_pd k)
    (esp0 k) (konts k).
Definition with_ticks (x : Z) (k : Sched) : Sched :=
  mkSched (threads k) (READY_LIST k) (ALL_LIST k) (IDLE_THREAD k) (INITIAL_THREAD k) x
    (NEXT_TID k) (current k) (level k) (IN_EXTERNAL_INTR k) (YIELD_ON_RETURN k) (active_pd k)
    (esp0 k) (konts k).
Definition with_next_tid (x : Z) (k : Sched) : Sched :=
  mkSched (threads k) (READY_LIST k) (ALL_LIST k) (IDLE_THREAD k) (INITIAL_THREAD k)
    (THREAD_TICKS k) x (current k) (level k) (IN_EXTERNAL_INTR k) (YIELD_ON_RETURN k)
    (active_pd k) (esp0 k) (konts k).
Definition with_level (x : bool) (k : Sched) : Sched :=
  mkSched (threads k) (READY_LIST k) (ALL_LIST k) (IDLE_THREAD k) (INITIAL_THREAD k)
    (THREAD_TICKS k) (NEXT_TID k) (current k) x (IN_EXTERNAL_INTR k) (YIELD_ON_RETURN k)
    (active_pd k) (esp0 k) (konts k).
Definition with_intr (i y : bool) (k : Sched) : Sched :=
  mkSched (threads k) (READY_LIST k) (ALL_LIST k) (IDLE_THREAD k) (INITIAL_THREAD k)
    (THREAD_TICKS k) (NEXT_TID k) (current k) (level k) i y (active_pd k) (esp0 k) (konts k).
Definition with_current (x : Z) (k : Sched) : Sched :=
  mkSched (threads k) (READY_LIST k) (ALL_LIST k) (IDLE_THREAD k) (INITIAL_THREAD k)
    (THREAD_TICKS k) (NEXT_TID k) x (level k) (IN_EXTERNAL_INTR k) (YIELD_ON_RETURN k)
    (active_pd k) (esp0 k) (konts k).
Definition with_mmu (pd sp : Z) (k : Sched) : Sched :=
  mkSched (threads k) (READY_LIST k) (ALL_LIST k) (IDLE_THREAD k) (INITIAL_THREAD k)
    (THREAD_TICKS k) (NEXT_TID k) (current k) (level k) (IN_EXTERNAL_INTR k) (YIELD_ON_RETURN k)
    pd sp (konts k).
Definition with_konts (x : gmap Z (list frame)) (k : Sched) : Sched :=
  mkSched (threads k) (READY_LIST k) (ALL_LIST k) (IDLE_THREAD k) (INITIAL_THREAD k)
    (THREAD_TICKS k) (NEXT_TID k) (current k) (level k) (IN_EXTERNAL_INTR k) (YIELD_ON_RETURN k)
    (active_pd k) (esp0 k) x.

(** [( *t )] for a thread pointer; a null or freed pointer is undefined behaviour. *)
Definition deref (t : Z) : M Sched Thread :=
  fun k => match threads k !! t with
           | Some th => Ok th k
           | None => UB "dangling thread pointer"
           end.
Definition upd_thread (t : Z) (f : Thread -> Thread) : M Sched unit :=
  deref t ;;
  modify (fun k => with_threads (alter f t (threads k)) k).

Definition running_thread : M Sched Z := gets current.

(** idt.rs *)
Definition intr_get_level : M Sched bool := gets level.
Definition intr_disable : M Sched bool :=
  let! old := gets level in modify (with_level false) ;; ret old.
Definition intr_enable : M Sched bool :=
  let! old := gets level in modify (with_level true) ;; ret old.
Definition intr_set_level (l : bool) : M Sched bool := if l then intr_enable else intr_disable.
Definition intr_yield_on_return : M Sched unit :=
  modify (fun k => with_intr (IN_EXTERNAL_INTR k) true k).
Definition intr_context : M Sched bool := gets IN_EXTERNAL_INTR.

(** The rest of the current function, for when the thread runs again. *)
Definition push_kont (f : frame) : M Sched unit :=
  modify (fun k => with_konts (<[current k := f :: default [] (konts k !! current k)]> (konts k)) k).

Definition allocate_tid : M Sched Z :=
  let! t := gets NEXT_TID in
  let! n := i32_add t 1 in
  modify (with_next_tid n) ;;
  ret t.

(** [init_thread]: [t.pgid = t.tid] reads the tid the page holds at that time. *)
Definition init_thread (t : Z) (nm : list Z) (pri : Z) (old : Thread) : Thread :=
  let len := Z.min (Z.of_nat (List.length nm)) 15 in
  mkThread (tid old) Blocked
    (<[Z.to_nat len := 0]> (splice 0 (take (Z.to_nat len) nm) (name old)))
    (t + PGSIZE) pri pri 0 0 0 ROOT_DIR_SECTOR 0 0 false (tid old) 0 0 THREAD_MAGIC.

(** A zeroed page seen as a thread. *)
Definition zero_thread : Thread :=
  mkThread 0 Running (zeros 16) 0 0 0 0 0 0 0 0 0 false 0 0 0 0.

(** [init]: the boot context, running on the page at [t], becomes thread "main". *)
Definition init (t : Z) (page : Thread) : M Sched unit :=
  modify (with_ready []) ;;
  modify (with_all []) ;;
  modify (with_current t) ;;
  modify (fun k => with_threads
    (<[t := set_status Running (init_thread t [109; 97; 105; 110] PRI_DEFAULT page)]> (threads k)) k) ;;
  let! id := allocate_tid in
  upd_thread t (set_tid id) ;;
  modify (with_initial t) ;;
  modify (fun k => with_konts (<[t := [KBody]]> (konts k)) k) ;;
  modify (fun k => with_all (ALL_LIST k ++ [t]) k).

(** [process::activate]: load the page directory (0: the kernel's own) and the TSS stack. *)
Definition activate : M Sched unit :=
  let! t := running_thread in
  let! th := deref t in
  modify (with_mmu (pagedir th) (t + PGSIZE)).

Definition schedule_tail (prev : Z) : M Sched unit :=
  let! cur := running_thread in
  upd_thread cur (set_status Running) ;;
  activate ;;
  if prev =? 0 then ret tt
  else
    let! p := deref prev in
    let! ini := gets INITIAL_THREAD in
    if bool_decide (status p = Dying) && negb (prev =? ini)
    then modify (fun k => with_konts (delete prev (konts k)) (with_threads (delete prev (threads k)) k))
    else ret tt.

(** The index loop of [next_thread_to_run] and [Semaphore::up]: first strict maximum. *)
Fixpoint best_loop (i : nat) (pris : list Z) (best_idx : nat) (best_pri : Z) : nat :=
  match pris with
  | [] => best_idx
  | pri :: rest =>
      if best_pri <? pri then best_loop (S i) rest i pri
      else best_loop (S i) rest best_idx best_pri
  end.
Definition best_index (pris : list Z) : nat := best_loop 0 pris 0 i32_min.

(** The priorities of a queue of thread pointers. *)
Fixpoint priorities (ts : list Z) : M Sched (list Z) :=
  match ts with
  | [] => ret []
  | t :: ts' =>
      let! th := deref t in
      let! rest := priorities ts' in
      ret (priority th :: rest)
  end.

(** [VecDeque::remove(i).unwrap()] *)
Definition remove_at {A} (i : nat) (l : list A) : list A := take i l ++ drop (S i) l.

Definition next_thread_to_run : M Sched Z :=
  let! ready := gets READY_LIST in
  match ready with
  | [] => gets IDLE_THREAD
  | _ =>
      let! pris := priorities ready in
      let best_idx := best_index pris in
      match ready !! best_idx with
      | None => panic "called `Option::unwrap()` on a `None` value"
      | Some t => modify (with_ready (remove_at best_idx ready)) ;; ret t
      end
  end.

Definition check_thread (t : Z) : M Sched unit :=
  assert (negb (t =? 0)) "schedule: null thread" ;;
  let! th := deref t in
  assert (magic th =? THREAD_MAGIC) "schedule: stack overflow detected".

(** [schedule]: [switch_threads] makes [next] the running thread, which then runs
    [schedule_tail] and goes on with its own frames. *)
Definition schedule : M Sched unit :=
  let! cur := running_thread in
  let! next := next_thread_to_run in
  let! l := intr_get_level in
  assert (negb l) "assertion failed: intr_get_level() == Off" ;;
  let! c := deref cur in
  assert (negb (bool_decide (status c = Running))) "assertion failed: status != Running" ;;
  check_thread next ;;
  modify (with_ticks 0) ;;
  if negb (cur =? next) then
    modify (with_current next) ;;
    schedule_tail cur
  else schedule_tail 0.

Definition yield_current : M Sched unit :=
  let! old_level := intr_disable in
  let! cur := running_thread in
  let! idle := gets IDLE_THREAD in
  upd_thread cur (set_status Ready) ;;
  (if negb (cur =? idle) then modify (fun k => with_ready (READY_LIST k ++ [cur]) k) else ret tt) ;;
  push_kont (KSetLevel old_level) ;;
  schedule.

Definition unblock (t : Z) : M Sched unit :=
  let! old_level := intr_disable in
  let! th := deref t in
  assert (bool_decide (status th = Blocked)) "assertion failed: status == Blocked" ;;
  upd_thread t (set_status Ready) ;;
  modify (fun k => with_ready (READY_LIST k ++ [t]) k) ;;
  let! ic := intr_context in
  if ic then intr_set_level old_level ;; ret tt
  else
    let! cur := running_thread in
    let! c := deref cur in
    if priority c <? priority th then
      intr_set_level old_level ;;
      yield_current
    else intr_set_level old_level ;; ret tt.

Definition block : M Sched unit :=
  let! l := intr_get_level in
  assert (negb l) "assertion failed: intr_get_level() == Off" ;;
  let! cur := running_thread in
  upd_thread cur (set_status Blocked) ;;
  schedule.

Definition exit : M Sched unit :=
  intr_disable ;;
  let! cur := running_thread in
  modify (fun k => with_all (List.filter (fun t => negb (t =? cur)) (ALL_LIST k)) k) ;;
  upd_thread cur (set_status Dying) ;;
  schedule.

(** [create]; [page] is what the page allocator returned (0 for none), zero-filled.  The
    frames at the top of the page are the new thread's [konts] entry. *)
Definition create (page : Z) (nm : list Z) (pri : Z) : M Sched Z :=
  if page =? 0 then ret TID_ERROR
  else
    let t := page in
    let! id := allocate_tid in
    let th := set_tid id (init_thread t nm pri zero_thread) in
    let sp := page + PGSIZE - 12 - 4 - 28 in
    modify (fun k => with_threads (<[t := set_stack sp th]> (threads k)) k) ;;
    modify (fun k => with_konts (<[t := [KKernelThread]]> (konts k)) k) ;;
    modify (fun k => with_all (ALL_LIST k ++ [t]) k) ;;
    unblock t ;;
    ret id.

Definition tick : M Sched unit :=
  let! n := gets THREAD_TICKS in
  let! n := u32_add n 1 in
  modify (with_ticks n) ;;
  if TIME_SLICE <=? n then intr_yield_on_return else ret tt.

Definition get_priority : M Sched Z :=
  let! t := running_thread in let! th := deref t in ret (priority th).

Definition yield_if_not_highest : M Sched unit :=
  let! old := intr_disable in
  let! cur_pri := get_priority in
  let! ready := gets READY_LIST in
  let! pris := priorities ready in
  let should_yield := existsb (fun p => cur_pri <? p) pris in
  intr_set_level old ;;
  if should_yield then yield_current else ret tt.

Definition set_priority (p : Z) : M Sched unit :=
  let! t := running_thread in
  upd_thread t (set_prio p p) ;;
  yield_if_not_highest.

Definition restore_priority : M Sched unit :=
  let! t := running_thread in
  upd_thread t (fun th => set_prio (original_priority th) (original_priority th) th).

(** ** Signals and process groups: scans of [ALL_LIST] *)
Definition SIGINT : Z := 2.
Definition SIGKILL : Z := 9.
Definition SIGCHLD : Z := 17.

Definition deliver_signal (t sig : Z) : M Sched unit :=
  let mask := Z.shiftl 1 sig in
  if sig =? SIGKILL then upd_thread t set_killed
  else
    let! th := deref t in
    if negb (Z.land (sig_ignore th) mask =? 0) then ret tt
    else if sig =? SIGCHLD then ret tt
    else upd_thread t set_killed.

(** [for &t in all_list().iter()] with a body that may stop the loop with a result. *)
Definition scan_all {R} (body : Z -> Thread -> M Sched (option R)) : M Sched (option R) :=
  let! l := gets ALL_LIST in
  for_ret l (fun t => let! th := deref t in body t th).

Definition send_signal (id sig : Z) : M Sched bool :=
  if (sig =? 0) || (31 <? sig) then ret false
  else
    let! old := intr_disable in
    let! r := scan_all (fun t th =>
      if (tid th =? id) && negb (pagedir th =? 0)
      then deliver_signal t sig ;; ret (Some true)
      else ret None) in
    intr_set_level old ;;
    ret (default false r).

Definition send_signal_pgid (pg sig : Z) : M Sched unit :=
  if (sig =? 0) || (31 <? sig) then ret tt
  else
    let! old := intr_disable in
    scan_all (R := unit) (fun t th =>
      (if negb (pagedir th =? 0) && (pgid th =? pg) then deliver_signal t sig else ret tt) ;;
      ret None) ;;
    intr_set_level old ;;
    ret tt.

Definition kill_thread (id : Z) : M Sched bool := send_signal id SIGKILL.

Definition set_thread_parent_info (child par pg ign : Z) : M Sched unit :=
  let! old := intr_disable in
  scan_all (fun t th =>
    if tid th =? child then upd_thread t (set_group par pg ign) ;; ret (Some tt) else ret None) ;;
  intr_set_level old ;;
  ret tt.

Definition get_pagedir_by_tid (id : Z) : M Sched Z :=
  let! r := scan_all (fun _ th => ret (if tid th =? id then Some (pagedir th) else None)) in
  ret (default 0 r).

Definition set_pgid (id pg : Z) : M Sched bool :=
  let! old := intr_disable in
  let! r := scan_all (fun t th =>
    if tid th =? id then
      upd_thread t (fun th => set_group (parent_tid th) (if pg =? 0 then id else pg) (sig_ignore th) th) ;;
      ret (Some true)
    else ret None) in
  intr_set_level old ;;
  ret (default false r).

Definition get_pgid (id : Z) : M Sched Z :=
  let! old := intr_disable in
  let! r := scan_all (fun _ th => ret (if tid th =? id then Some (pgid th) else None)) in
  intr_set_level old ;;
  ret (default (-1) r).

(** The accumulator of [foreground_pgid]: (fg_pgid, max_tid, init_tid). *)
Definition fg_step (acc : Z * Z * Z) (th : Thread) : Z * Z * Z :=
  let '(fg, mx, ini) := acc in
  if pagedir th =? 0 then acc
  else
    let ini := if parent_tid th =? 0 then tid th else ini in
    if (mx <? tid th) && negb (tid th =? ini) then (pgid th, tid th, ini) else (fg, mx, ini).

Fixpoint derefs (ts : list Z) : M Sched (list Thread) :=
  match ts with
  | [] => ret []
  | t :: ts' => let! th := deref t in let! rest := derefs ts' in ret (th :: rest)
  end.

Definition foreground_pgid : M Sched Z :=
  let! old := intr_disable in
  let! l := gets ALL_LIST in
  let! ths := derefs l in
  let '(fg, _, _) := fold_left fg_step ths (-1, -1, -1) in
  intr_set_level old ;;
  ret (if fg <? 0 then 0 else fg).

Definition kill_foreground : M Sched unit :=
  let! pg := foreground_pgid in
  if 0 <? pg then send_signal_pgid pg SIGINT else ret tt.
