(* ===== verification/Sync.v ===== *)
(** Semaphores, locks with priority donation, condition variables (src/sync/), the sleep queue
    (src/devices/timer.rs), the interrupt path (src/arch/idt.rs) and the machine that runs the
    suspended code of the current thread. *)
From S2P Require Import Prelude Inode Memory Thread.

Record Semaphore := mkSema { value : Z; waiters : list Z }.
Record SleepEntry := mkSleep { wakeup_tick : Z; thread : Z }.

(** Kernel objects by address.  A lock at address [l] has its semaphore at the same address;
    [holders] has the other field of each lock. *)
Record Kernel := mkKernel {
  sched : Sched;
  semas : gmap Z Semaphore;
  holders : gmap Z Z;
  conds : gmap Z (list Z);
  TICKS : Z;
  SLEEP_LIST : list SleepEntry;
}.
Definition with_sched (x : Sched) (k : Kernel) : Kernel :=
  mkKernel x (semas k) (holders k) (conds k) (TICKS k) (SLEEP_LIST k).
Definition with_semas (x : gmap Z Semaphore) (k : Kernel) : Kernel :=
  mkKernel (sched k) x (holders k) (conds k) (TICKS k) (SLEEP_LIST k).
Definition with_holders (x : gmap Z Z) (k : Kernel) : Kernel :=
  mkKernel (sched k) (semas k) x (conds k) (TICKS k) (SLEEP_LIST k).
Definition with_conds (x : gmap Z (list Z)) (k : Kernel) : Kernel :=
  mkKernel (sched k) (semas k) (holders k) x (TICKS k) (SLEEP_LIST k).
Definition with_timer (n : Z) (l : list SleepEntry) (k : Kernel) : Kernel :=
  mkKernel (sched k) (semas k) (holders k) (conds k) n l.

Definition sch {A} (m : M Sched A) : M Kernel A := zoom sched with_sched m.

Definition get_sema (s : Z) : M Kernel Semaphore :=
  fun k => match semas k !! s with Some x => Ok x k | None => UB "dangling semaphore" end.
Definition set_sema (s : Z) (x : Semaphore) : M Kernel unit :=
  modify (fun k => with_semas (<[s := x]> (semas k)) k).
Definition holder_raw (l : Z) : M Kernel Z :=
  fun k => match holders k !! l with Some x => Ok x k | None => UB "dangling lock" end.
Definition set_holder (l t : Z) : M Kernel unit :=
  modify (fun k => with_holders (<[l := t]> (holders k)) k).

(** ** semaphore.rs *)

(** [while self.value == 0 { push; block }; self.value -= 1; intr_set_level(old)] *)
Definition down_loop (s : Z) (old : bool) : M Kernel unit :=
  let! x := get_sema s in
  if value x =? 0 then
    let! cur := sch running_thread in
    set_sema s (mkSema (value x) (waiters x ++ [cur])) ;;
    sch (push_kont (KDown s old) ;; block)
  else
    let! v := u32_sub (value x) 1 in
    set_sema s (mkSema v (waiters x)) ;;
    sch (intr_set_level old) ;;
    ret tt.

Definition down (s : Z) : M Kernel unit :=
  let! old := sch intr_disable in
  down_loop s old.

Definition try_down (s : Z) : M Kernel bool :=
  let! old := sch intr_disable in
  let! x := get_sema s in
  let! success :=
    if 0 <? value x then
      let! v := u32_sub (value x) 1 in
      set_sema s (mkSema v (waiters x)) ;;
      ret true
    else ret false in
  sch (intr_set_level old) ;;
  ret success.

(** [self.value += 1; intr_set_level(old)] *)
Definition up_tail (s : Z) (old : bool) : M Kernel unit :=
  let! x := get_sema s in
  let! v := u32_add (value x) 1 in
  set_sema s (mkSema v (waiters x)) ;;
  sch (intr_set_level old) ;;
  ret tt.

Definition up (s : Z) : M Kernel unit :=
  let! old := sch intr_disable in
  let! x := get_sema s in
  match waiters x with
  | [] => up_tail s old
  | ws =>
      let! pris := sch (priorities ws) in
      let best_idx := best_index pris in
      match ws !! best_idx with
      | None => panic "called `Option::unwrap()` on a `None` value"
      | Some waiter =>
          set_sema s (mkSema (value x) (remove_at best_idx ws)) ;;
          sch (push_kont (KUp s old) ;; unblock waiter)
      end
  end.

(** ** Priority donation (thread/mod.rs, [donate_priority]) *)
Fixpoint donate_loop (n : nat) (target pri : Z) : M Kernel unit :=
  match n with
  | O => ret tt
  | S n' =>
      if target =? 0 then ret tt
      else
        let! th := sch (deref target) in
        if priority th <? pri then
          sch (upd_thread target (fun th => set_prio pri (original_priority th) th)) ;;
          let lock := waiting_on_lock th in
          if negb (lock =? 0) then
            let! h := holder_raw lock in
            donate_loop n' h pri
          else ret tt
        else ret tt
  end.
Definition donate_priority (holder pri : Z) : M Kernel unit := donate_loop 8 holder pri.

(** ** lock.rs *)
Definition held_by_current_thread (l : Z) : M Kernel bool :=
  let! h := holder_raw l in
  let! cur := sch running_thread in
  ret (h =? cur).

Definition acquire (l : Z) : M Kernel unit :=
  let! held := held_by_current_thread l in
  assert (negb held) "lock already held" ;;
  let! old := sch intr_disable in
  let! h := holder_raw l in
  (if negb (h =? 0) then
     let! my_pri := sch get_priority in
     let! cur := sch running_thread in
     sch (upd_thread cur (set_waiting l)) ;;
     donate_priority h my_pri
   else ret tt) ;;
  sch (intr_set_level old) ;;
  sch (push_kont (KAcquired l)) ;;
  down l.

(** The tail of [acquire], once [down] has returned. *)
Definition acquired (l : Z) : M Kernel unit :=
  let! cur := sch running_thread in
  sch (upd_thread cur (set_waiting 0)) ;;
  set_holder l cur.

Definition try_acquire (l : Z) : M Kernel bool :=
  let! ok := try_down l in
  if ok then
    let! cur := sch running_thread in
    set_holder l cur ;;
    ret true
  else ret false.

Definition release (l : Z) : M Kernel unit :=
  let! held := held_by_current_thread l in
  assert held "lock not held by current thread" ;;
  sch restore_priority ;;
  set_holder l 0 ;;
  up l.

(** ** condvar.rs *)
Definition get_cond (c : Z) : M Kernel (list Z) :=
  fun k => match conds k !! c with Some x => Ok x k | None => UB "dangling condvar" end.
Definition set_cond (c : Z) (x : list Z) : M Kernel unit :=
  modify (fun k => with_conds (<[c := x]> (conds k)) k).

(** [wait]; [box] is the address of the new semaphore. *)
Definition wait (c l box : Z) : M Kernel unit :=
  let! held := held_by_current_thread l in
  assert held "assertion failed: lock.held_by_current_thread()" ;;
  set_sema box (mkSema 0 []) ;;
  let! ws := get_cond c in
  set_cond c (ws ++ [box]) ;;
  sch (push_kont (KWaitDown box l)) ;;
  release l.

(** The scan of [signal] over the waiting threads' priorities. *)
Fixpoint signal_loop (i : nat) (ws : list Z) (best_idx : nat) (best_pri : Z) : M Kernel nat :=
  match ws with
  | [] => ret best_idx
  | s :: rest =>
      let! x := get_sema s in
      match waiters x with
      | [] => signal_loop (S i) rest best_idx best_pri
      | t :: _ =>
          let! th := sch (deref t) in
          if best_pri <? priority th then signal_loop (S i) rest i (priority th)
          else signal_loop (S i) rest best_idx best_pri
      end
  end.

Definition signal (c l : Z) : M Kernel unit :=
  let! held := held_by_current_thread l in
  assert held "assertion failed: lock.held_by_current_thread()" ;;
  let! ws := get_cond c in
  match ws with
  | [] => ret tt
  | [w] => set_cond c [] ;; up w
  | _ =>
      let! best_idx := signal_loop 0 ws 0 i32_min in
      match ws !! best_idx with
      | None => panic "called `Option::unwrap()` on a `None` value"
      | Some w => set_cond c (remove_at best_idx ws) ;; up w
      end
  end.

(** [while let Some(w) = self.waiters.pop_front() { up(w) }] *)
Definition broadcast_loop (c : Z) : M Kernel unit :=
  let! ws := get_cond c in
  match ws with
  | [] => ret tt
  | w :: rest =>
      set_cond c rest ;;
      sch (push_kont (KBroadcast c)) ;;
      up w
  end.

Definition broadcast (c l : Z) : M Kernel unit :=
  let! held := held_by_current_thread l in
  assert held "assertion failed: lock.held_by_current_thread()" ;;
  broadcast_loop c.

(** ** timer.rs *)
Definition ticks : M Kernel Z := gets TICKS.

Definition i64_add {S} (a b : Z) : M S Z :=
  if (- 2 ^ 63 <=? a + b) && (a + b <? 2 ^ 63) then ret (a + b)
  else panic "attempt to add with overflow".

Definition sleep_insert (e : SleepEntry) (l : list SleepEntry) : list SleepEntry :=
  let pos := default (List.length l)
               (find_index (fun x => wakeup_tick e <? wakeup_tick x) l) in
  take pos l ++ [e] ++ drop pos l.

Definition timer_sleep (n : Z) : M Kernel unit :=
  if n <=? 0 then ret tt
  else
    let! now := ticks in
    let! wakeup := i64_add now n in
    let! old := sch intr_disable in
    let! t := sch running_thread in
    modify (fun k => with_timer (TICKS k) (sleep_insert (mkSleep wakeup t) (SLEEP_LIST k)) k) ;;
    sch (push_kont (KSetLevel old) ;; block).

(** The [while let Some(first)] loop; each turn removes the head. *)
Fixpoint wake_loop (l : list SleepEntry) (now : Z) : M Kernel unit :=
  match l with
  | [] => ret tt
  | first :: rest =>
      if now <? wakeup_tick first then ret tt
      else
        modify (fun k => with_timer (TICKS k) rest k) ;;
        sch (unblock (thread first)) ;;
        wake_loop rest now
  end.

Definition wake_sleeping_threads : M Kernel unit :=
  let! now := gets TICKS in
  let! l := gets SLEEP_LIST in
  wake_loop l now.

Definition timer_interrupt : M Kernel unit :=
  let! n := gets TICKS in
  let! n := i64_add n 1 in
  modify (fun k => with_timer n (SLEEP_LIST k) k) ;;
  wake_sleeping_threads ;;
  sch tick.

(** ** The external-interrupt path of [intr_handler]: the CPU clears the interrupt flag on
    entry and restores it on return. *)
Definition external_interrupt (handler : M Kernel unit) : M Kernel unit :=
  sch (push_kont KIret) ;;
  sch (modify (with_level false)) ;;
  sch (modify (fun k => with_intr true (YIELD_ON_RETURN k) k)) ;;
  let! old_level := sch (intr_set_level false) in
  handler ;;
  sch (intr_set_level old_level) ;;
  sch (modify (fun k => with_intr false (YIELD_ON_RETURN k) k)) ;;
  let! y := sch (gets YIELD_ON_RETURN) in
  if y then
    sch (modify (fun k => with_intr (IN_EXTERNAL_INTR k) false k)) ;;
    sch yield_current
  else ret tt.

(** ** Running suspended code *)
Definition exec_frame (f : frame) : M Kernel unit :=
  match f with
  | KBody => ret tt
  | KKernelThread =>
      sch (intr_enable) ;;
      sch (push_kont KExit) ;;
      sch (push_kont KBody)
  | KExit => sch exit
  | KSetLevel old => sch (intr_set_level old) ;; ret tt
  | KDown s old => down_loop s old
  | KUp s old => up_tail s old
  | KAcquired l => acquired l
  | KWaitDown s l =>
      sch (push_kont (KDropBox s)) ;;
      sch (push_kont (KAcquire l)) ;;
      down s
  | KAcquire l => acquire l
  | KDropBox s => modify (fun k => with_semas (delete s (semas k)) k)
  | KBroadcast c => broadcast_loop c
  | KIret => sch (modify (with_level true))
  end.

(** The calls a thread's own code makes. *)
Inductive call : Set :=
| CDown (s : Z) | CUp (s : Z) | CTryDown (s : Z)
| CAcquire (l : Z) | CTryAcquire (l : Z) | CRelease (l : Z)
| CWait (c l box : Z) | CSignal (c l : Z) | CBroadcast (c l : Z)
| CYield | CSleep (n : Z) | CSetPriority (p : Z) | CExit
| CCreate (page : Z) (nm : list Z) (pri : Z).

Definition exec_call (c : call) : M Kernel unit :=
  match c with
  | CDown s => down s
  | CUp s => up s
  | CTryDown s => try_down s ;; ret tt
  | CAcquire l => acquire l
  | CTryAcquire l => try_acquire l ;; ret tt
  | CRelease l => release l
  | CWait c l box => wait c l box
  | CSignal c l => signal c l
  | CBroadcast c l => broadcast c l
  | CYield => sch yield_current
  | CSleep n => timer_sleep n
  | CSetPriority p => sch (set_priority p)
  | CExit => sch exit
  | CCreate page nm pri => sch (create page nm pri) ;; ret tt
  end.

(** The top frame of the running thread, and the state without it. *)
Definition top_frame (k : Kernel) : option frame :=
  match konts (sched k) !! current (sched k) with Some (f :: _) => Some f | _ => None end.
Definition pop_frame (k : Kernel) : Kernel :=
  with_sched (with_konts (alter (@tail frame) (current (sched k)) (konts (sched k))) (sched k)) k.

(** One step of the running thread's suspended code. *)
Definition resume : M Kernel unit :=
  fun k => match top_frame k with
           | Some KBody | None => Ok tt k
           | Some f => exec_frame f (pop_frame k)
           end.
