(* ===== verification/SchedProofs.v ===== *)
(** The scheduler: the choice of the next thread, and the invariant that the ready list, the
    thread states and the running thread agree, kept by every kernel operation. *)
From S2P Require Import Prelude Inode Memory Thread Sync.

Lemma wlp_i64_add {S} a b (s : S) (Q : Z -> S -> Prop) : Q (a + b) s -> wlp (i64_add a b) s Q.
Proof. unfold i64_add. by case_match. Qed.

Ltac wlp_step :=
  lazymatch goal with
  | |- wlp (bind _ _) _ _ => apply wlp_bind
  | |- wlp (ret _) _ _ => apply wlp_ret
  | |- wlp (gets _) _ _ => apply wlp_gets
  | |- wlp (modify _) _ _ => apply wlp_modify
  | |- wlp (u32_add _ _) _ _ => apply wlp_u32_add
  | |- wlp (u32_sub _ _) _ _ => apply wlp_u32_sub
  | |- wlp (i32_add _ _) _ _ => apply wlp_i32_add
  | |- wlp (i64_add _ _) _ _ => apply wlp_i64_add
  | |- wlp running_thread _ _ => apply wlp_gets
  | |- wlp intr_context _ _ => apply wlp_gets
  | |- wlp intr_get_level _ _ => apply wlp_gets
  end.
Ltac wlp_steps := repeat (wlp_step; cbv beta).

(** ** The choice of the next thread *)

(** [i] is the position of the first maximum of [l]. *)
Definition first_max (l : list Z) (i : nat) (p : Z) : Prop :=
  l !! i = Some p /\
  forall j q, l !! j = Some q -> q <= p /\ ((j < i)%nat -> q < p).

Lemma best_loop_spec pre rest bi bp :
  first_max pre bi bp -> exists p, first_max (pre ++ rest) (best_loop (List.length pre) rest bi bp) p.
Proof.
  revert pre bi bp; induction rest as [|x rest IH]; intros pre bi bp Hm; simpl.
  { rewrite app_nil_r. by exists bp. }
  assert (pre ++ x :: rest = (pre ++ [x]) ++ rest) as -> by by rewrite <- app_assoc.
  replace (S (List.length pre)) with (List.length (pre ++ [x])) by (rewrite length_app; simpl; lia).
  destruct Hm as [Hl Ha]. pose proof (lookup_lt_Some _ _ _ Hl) as Hlt.
  assert (forall j q, (pre ++ [x]) !! j = Some q -> pre !! j = Some q \/ (j = List.length pre /\ q = x)) as Hc.
  { intros j q [?|[? Hj]]%lookup_app_Some; [by left|]. right.
    destruct (j - List.length pre)%nat as [|n] eqn:E; simpl in Hj; [|by destruct n].
    injection Hj as <-. split; [lia|done]. }
  destruct (Z.ltb_spec bp x); apply IH; split.
  - rewrite lookup_app_r, Nat.sub_diag by lia. done.
  - intros j q [Hj|[-> ->]]%Hc; [|lia]. destruct (Ha j q Hj). lia.
  - by apply lookup_app_l_Some.
  - intros j q [Hj|[-> ->]]%Hc; [by apply Ha|]. lia.
Qed.

(** [best_index] is the first maximum of a non-empty list of priorities. *)
Lemma best_index_spec pris :
  pris <> [] -> Forall (fun p => i32_min <= p) pris ->
  exists p, first_max pris (best_index pris) p.
Proof.
  destruct pris as [|x rest]; [done|]. intros _ Hf. apply Forall_cons in Hf as [Hx _].
  assert (first_max [x] 0 x) as H1.
  { split; [done|]. intros [|j] q Hj; [injection Hj as <-; lia|by destruct j]. }
  unfold best_index. simpl. destruct (Z.ltb_spec i32_min x).
  - exact (best_loop_spec [x] rest 0 x H1).
  - assert (x = i32_min) as -> by lia. exact (best_loop_spec [i32_min] rest 0 _ H1).
Qed.

Lemma remove_at_spec {A} (l : list A) i x :
  l !! i = Some x -> exists l1 l2, l = l1 ++ x :: l2 /\ remove_at i l = l1 ++ l2 /\ List.length l1 = i.
Proof.
  intros H. exists (take i l), (drop (S i) l). pose proof (lookup_lt_Some _ _ _ H).
  split; [|split; [done|rewrite length_take; lia]]. by rewrite take_drop_middle.
Qed.

Lemma wlp_deref t k (Q : Thread -> Sched -> Prop) :
  (forall th, threads k !! t = Some th -> Q th k) -> wlp (deref t) k Q.
Proof. unfold wlp, deref. destruct (threads k !! t) eqn:E; auto. Qed.

Lemma wp_deref t k th (Q : Thread -> Sched -> Prop) :
  threads k !! t = Some th -> Q th k -> wp (deref t) k Q.
Proof. unfold wp, deref. by intros ->. Qed.

Lemma alter_insert_thread t (f : Thread -> Thread) (m : gmap Z Thread) th :
  m !! t = Some th -> alter f t m = <[t := f th]> m.
Proof.
  intros Ht. apply map_eq. intros x. destruct (decide (x = t)) as [->|].
  - rewrite lookup_alter_eq, lookup_insert_eq, Ht. done.
  - by rewrite lookup_alter_ne, lookup_insert_ne.
Qed.

Lemma wp_upd_thread t f k th (Q : unit -> Sched -> Prop) :
  threads k !! t = Some th -> Q tt (with_threads (<[t := f th]> (threads k)) k) ->
  wp (upd_thread t f) k Q.
Proof.
  intros Ht HQ. apply wp_bind. eapply wp_deref; [exact Ht|]. apply wp_modify.
  by rewrite (alter_insert_thread t f _ th Ht).
Qed.

Lemma wlp_upd_thread t f k (Q : unit -> Sched -> Prop) :
  (forall th, threads k !! t = Some th -> Q tt (with_threads (<[t := f th]> (threads k)) k)) ->
  wlp (upd_thread t f) k Q.
Proof.
  intros HQ. apply wlp_bind, wlp_deref. intros th Ht. apply wlp_modify.
  rewrite (alter_insert_thread t f _ th Ht). by apply HQ.
Qed.

Lemma wlp_priorities ts k (Q : list Z -> Sched -> Prop) :
  (forall pris, List.length pris = List.length ts ->
    (forall i t, ts !! i = Some t -> exists th, threads k !! t = Some th /\ pris !! i = Some (priority th)) ->
    Q pris k) -> wlp (priorities ts) k Q.
Proof.
  revert Q; induction ts as [|t ts IH]; intros Q HQ; simpl.
  { apply wlp_ret, HQ; [done|]. intros i t. by rewrite lookup_nil. }
  apply wlp_bind, wlp_deref. intros th Ht. apply wlp_bind, IH. intros pris Hl Hp.
  apply wlp_ret, HQ; [simpl; lia|]. intros [|i] t' Hi; simpl in *.
  - injection Hi as <-. by exists th.
  - by apply Hp.
Qed.

(** ** The invariant *)

Definition has_status (k : Sched) (t : Z) (s : ThreadStatus) : Prop :=
  exists th, threads k !! t = Some th /\ status th = s.

(** The ready list has exactly the Ready threads (the idle thread apart) without repetition,
    nothing but the current thread is Running, and a dead thread other than the boot thread and
    [x] is gone. *)
Record sched_inv (x : Z) (k : Sched) : Prop := {
  i_run : forall t, has_status k t Running -> t = current k;
  i_ready : forall t, t ∈ READY_LIST k -> has_status k t Ready;
  i_nodup : NoDup (READY_LIST k);
  i_listed : forall t, has_status k t Ready -> t ∈ READY_LIST k \/ t = IDLE_THREAD k;
  i_dying : forall t, has_status k t Dying -> t = INITIAL_THREAD k \/ t = x;
  i_all : forall t, t ∈ ALL_LIST k -> is_Some (threads k !! t);
  i_null : threads k !! 0 = None;
}.

(** The CPU runs the current thread with its page directory and kernel stack. *)
Record running (k : Sched) : Prop := {
  r_cur : exists th, threads k !! current k = Some th /\ status th = Running /\
            active_pd k = pagedir th;
  r_esp0 : esp0 k = current k + PGSIZE;
}.

(** The invariant of every state in which thread code runs. *)
Definition sched_ok (k : Sched) : Prop := sched_inv (INITIAL_THREAD k) k /\ running k.

Lemma has_status_insert k t th x s :
  has_status (with_threads (<[t := th]> (threads k)) k) x s <->
  if decide (x = t) then status th = s else has_status k x s.
Proof.
  unfold has_status. simpl. destruct (decide (x = t)) as [->|].
  - rewrite lookup_insert_eq. split; [by intros (? & [= <-] & ?)|by exists th].
  - by rewrite lookup_insert_ne.
Qed.

Lemma has_status_inj k t s s' : has_status k t s -> has_status k t s' -> s = s'.
Proof. intros (th & Ht & <-) (th' & Ht' & <-). congruence. Qed.

(** The next thread is on the ready list, or is the idle thread. *)
Lemma wlp_next k (Q : Z -> Sched -> Prop) :
  (forall t l1 l2, READY_LIST k = l1 ++ t :: l2 -> Q t (with_ready (l1 ++ l2) k)) ->
  (READY_LIST k = [] -> Q (IDLE_THREAD k) k) ->
  wlp next_thread_to_run k Q.
Proof.
  intros H1 H2. unfold next_thread_to_run. apply wlp_bind, wlp_gets.
  destruct (READY_LIST k) as [|t0 l] eqn:E; [by apply wlp_gets, H2|].
  rewrite <- E in *. apply wlp_bind, wlp_priorities. intros pris _ _. cbv zeta.
  destruct (READY_LIST k !! best_index pris) as [t|] eqn:Et; [|done].
  destruct (remove_at_spec _ _ _ Et) as (l1 & l2 & El & -> & _). wlp_steps. by apply H1.
Qed.

(** The switch to [next]: it is Running, nothing else changes. *)
Definition switched (k : Sched) (next : Z) (ready : list Z) (k' : Sched) : Prop :=
  current k' = next /\ READY_LIST k' = ready /\ IDLE_THREAD k' = IDLE_THREAD k /\
  INITIAL_THREAD k' = INITIAL_THREAD k /\ ALL_LIST k' = ALL_LIST k /\
  exists th, threads k !! next = Some th /\
    threads k' = <[next := set_status Running th]> (threads k).

Lemma switched_inv k next ready k' :
  sched_inv (current k) k -> ~ has_status k (current k) Running ->
  (exists l1 l2, READY_LIST k = l1 ++ next :: l2 /\ ready = l1 ++ l2) \/
    (READY_LIST k = [] /\ ready = [] /\ next = IDLE_THREAD k) ->
  switched k next ready k' ->
  sched_inv (current k) k' /\ has_status k' next Running.
Proof.
  intros [Hrun Hrd Hnd Hls Hdy Hall Hnull] Hcr Hnext (Ec & Er & Ei & En & Ea & th & Hth & Et).
  assert (forall t s, has_status k' t s <-> if decide (t = next) then s = Running else has_status k t s) as Hst.
  { intros t s. unfold has_status. rewrite Et. case_decide.
    - subst t. rewrite lookup_insert_eq. split; [by intros (? & [= <-] & <-)|intros ->; by eexists].
    - by rewrite lookup_insert_ne. }
  assert ((next ∉ ready) /\ NoDup ready /\ (forall t, t ∈ ready -> t ∈ READY_LIST k) /\
    (forall t, t ∈ READY_LIST k -> t <> next -> t ∈ ready)) as (Hni & Hnd' & Hsub & Hsup).
  { destruct Hnext as [(l1 & l2 & E & ->)|(E & -> & _)].
    - rewrite E in *. apply NoDup_app in Hnd as (Hn1 & Hd & [Hnn Hn2]%NoDup_cons).
      split_and!.
      + rewrite elem_of_app. intros [H|H]; [|done]. apply (Hd _ H). left.
      + apply NoDup_app. split_and!; [done| |done]. intros t Ht Ht2. apply (Hd t Ht). by right.
      + intros t. rewrite !elem_of_app, elem_of_cons. tauto.
      + intros t. rewrite !elem_of_app, elem_of_cons. tauto.
    - rewrite E. split_and!; [by apply not_elem_of_nil|constructor|done|by intros t ?%elem_of_nil]. }
  split; [split|]; rewrite ?Ec, ?Er, ?Ei, ?En, ?Ea.
  - intros t Hs%Hst. case_decide; [done|]. pose proof (Hrun t Hs) as ->. by destruct Hcr.
  - intros t Hin. apply Hst. rewrite decide_False by (intros ->; done). by apply Hrd, Hsub.
  - done.
  - intros t Hs%Hst. case_decide; [done|]. destruct (Hls t Hs); auto.
  - intros t Hs%Hst. case_decide; [done|]. auto.
  - intros t Hin. rewrite Et, lookup_insert_is_Some. destruct (decide (next = t)); auto.
  - rewrite Et, lookup_insert_ne by congruence. done.
  - apply Hst. by rewrite decide_True.
Qed.

(** Freeing the page of the thread that died. *)
Lemma sched_inv_delete k x kts :
  sched_inv x k -> has_status k x Dying -> x ∉ ALL_LIST k ->
  sched_inv (INITIAL_THREAD k) (with_konts kts (with_threads (delete x (threads k)) k)).
Proof.
  intros [Hrun Hrd Hnd Hls Hdy Hall Hnull] Hx Hna. set (k' := with_konts _ _).
  assert (forall t s, has_status k' t s <-> t <> x /\ has_status k t s) as Hst.
  { intros t s. unfold has_status. simpl. split.
    - intros (th & [? Hl]%lookup_delete_Some & ?). split; [congruence|by exists th].
    - intros (? & th & ? & ?). exists th. by rewrite lookup_delete_ne. }
  split; simpl.
  - intros t [_ Hs]%Hst. auto.
  - intros t Hin. apply Hst. split; [|auto]. intros ->.
    pose proof (has_status_inj _ _ _ _ Hx (Hrd _ Hin)). done.
  - done.
  - intros t [_ Hs]%Hst. auto.
  - intros t [Hne Hs]%Hst. destruct (Hdy t Hs); auto. done.
  - intros t Hin. rewrite lookup_delete_ne by (intros ->; done). auto.
  - by apply lookup_delete_None; right.
Qed.

Lemma sched_inv_weaken k x :
  sched_inv x k -> ~ has_status k x Dying \/ x = INITIAL_THREAD k -> sched_inv (INITIAL_THREAD k) k.
Proof.
  intros [Hrun Hrd Hnd Hls Hdy Hall Hnull] Hx. split; try done. intros t Hs.
  destruct (Hdy t Hs) as [?| ->]; [by left|]. destruct Hx as [?|?]; [done|by left].
Qed.

Lemma wlp_schedule k (Q : unit -> Sched -> Prop) :
  sched_inv (current k) k -> ~ has_status k (current k) Running ->
  (has_status k (current k) Dying -> current k ∉ ALL_LIST k) ->
  (forall k', sched_ok k' -> Q tt k') -> wlp schedule k Q.
Proof.
  intros Hinv Hcr Hdall HQ. unfold schedule. apply wlp_bind, wlp_gets.
  set (cur := current k) in *. apply wlp_bind.
  assert (forall next ready k1,
    (exists l1 l2, READY_LIST k = l1 ++ next :: l2 /\ ready = l1 ++ l2) \/
    (READY_LIST k = [] /\ ready = [] /\ next = IDLE_THREAD k) ->
    k1 = with_ready ready k ->
    wlp (let! l := intr_get_level in
         assert (negb l) "assertion failed: intr_get_level() == Off" ;;
         let! c := deref cur in
         assert (negb (bool_decide (status c = Running))) "assertion failed: status != Running" ;;
         check_thread next ;;
         modify (with_ticks 0) ;;
         if negb (cur =? next) then modify (with_current next) ;; schedule_tail cur
         else schedule_tail 0) k1 Q) as Hgo.
  2:{ apply wlp_next.
      - intros t l1 l2 E. eapply Hgo; [left; by exists l1, l2|done].
      - intros E. apply (Hgo _ []); [by right|]. destruct k; simpl in *. by subst. }
  intros next ready k1 Hnext ->. apply wlp_bind, wlp_gets, wlp_bind, wlp_assert. intros _.
  apply wlp_bind, wlp_deref. intros c Hc. apply wlp_bind, wlp_assert. intros _.
  apply wlp_bind. unfold check_thread. apply wlp_bind, wlp_assert. intros Hnz.
  apply wlp_bind, wlp_deref. intros nt Hnt. apply wlp_assert. intros _. apply wlp_bind, wlp_modify.
  assert (cur <> 0) as Hc0 by
    (intros E; rewrite E in Hc; simpl in Hc; rewrite (i_null _ _ Hinv) in Hc; done).
  assert (forall prev k2, threads k2 = threads k -> current k2 = next -> READY_LIST k2 = ready ->
    IDLE_THREAD k2 = IDLE_THREAD k -> INITIAL_THREAD k2 = INITIAL_THREAD k ->
    ALL_LIST k2 = ALL_LIST k -> prev = cur \/ (prev = 0 /\ cur = next) ->
    wlp (schedule_tail prev) k2 Q) as Htail.
  { intros prev k2 E1 E2 E3 E4 E5 E6 Hprev. unfold schedule_tail.
    apply wlp_bind, wlp_gets. rewrite E2. apply wlp_bind, wlp_upd_thread. intros th Hth.
    apply wlp_bind. unfold activate. apply wlp_bind, wlp_gets, wlp_bind, wlp_deref. intros th' Hth'.
    simpl in Hth'. rewrite E2, lookup_insert_eq in Hth'. injection Hth' as <-. apply wlp_modify.
    set (k3 := with_mmu _ _ _). rewrite E1 in Hth.
    destruct (switched_inv k next ready k3) as [Hi3 Hr3]; try done.
    { unfold switched. simpl. split_and!; try done. exists th. split; [done|]. by rewrite E1. }
    fold cur in Hi3.
    assert (running k3) as Hrk.
    { split; simpl; [|by rewrite E2]. exists (set_status Running th). by rewrite E2, lookup_insert_eq. }
    assert (forall s, prev <> next -> has_status k3 prev s -> has_status k prev s) as Hback.
    { intros s Hn (p & Hp & ?). simpl in Hp. rewrite lookup_insert_ne, E1 in Hp by done. by exists p. }
    destruct (Z.eqb_spec prev 0) as [Hpz|Hpz].
    { apply wlp_ret, HQ. split; [|done]. destruct Hprev as [Ep|[_ Ep]]; [congruence|].
      apply (sched_inv_weaken k3 cur); [done|]. left. intros Hd. rewrite Ep in Hd.
      pose proof (has_status_inj _ _ _ _ Hd Hr3). done. }
    destruct Hprev as [-> |[? _]]; [|done].
    apply wlp_bind, wlp_deref. intros p Hp. apply wlp_bind, wlp_gets.
    assert (bool_decide (status p = Dying) = true <-> has_status k3 cur Dying) as Hbd.
    { rewrite bool_decide_eq_true. split; [intros E; by exists p|].
      intros (p' & Hp' & <-). congruence. }
    destruct (bool_decide (status p = Dying)) eqn:Ed; simpl.
    2:{ apply wlp_ret, HQ. split; [|done]. apply (sched_inv_weaken k3 cur); [done|]. left.
        intros Hd%Hbd. congruence. }
    pose proof (proj1 Hbd eq_refl) as Hd3.
    destruct (Z.eqb_spec cur (INITIAL_THREAD k2)) as [Ei|Ei]; simpl.
    { apply wlp_ret, HQ. split; [|done]. apply (sched_inv_weaken k3 cur); [done|]. by right. }
    assert (cur <> next) as Hcn.
    { intros E. rewrite E in Hd3. pose proof (has_status_inj _ _ _ _ Hd3 Hr3). done. }
    apply wlp_modify, HQ. split.
    - apply (sched_inv_delete k3 cur); [done|done|]. simpl. rewrite E6. apply Hdall.
      by apply Hback.
    - destruct Hrk as [(th3 & H1 & H2 & H3) H4]. split; [|done]. exists th3. simpl in *.
      rewrite E2 in *. by rewrite lookup_delete_ne. }
  destruct (Z.eqb_spec cur next) as [Ecn|Ecn]; simpl.
  - apply Htail; try done. by right.
  - apply wlp_bind, wlp_modify. apply Htail; try done. by left.
Qed.

(** ** Each operation keeps the invariant *)

(** States that differ only in the interrupt flags, counters and suspended code. *)
Definition same_core (k k' : Sched) : Prop :=
  threads k' = threads k /\ READY_LIST k' = READY_LIST k /\ ALL_LIST k' = ALL_LIST k /\
  IDLE_THREAD k' = IDLE_THREAD k /\ INITIAL_THREAD k' = INITIAL_THREAD k /\
  current k' = current k /\ active_pd k' = active_pd k /\ esp0 k' = esp0 k.

#[export] Instance same_core_equiv : Equivalence same_core.
Proof.
  split; [by intros k|intros k k' H|intros k k' k'' H H']; unfold same_core in *;
    intuition congruence.
Qed.

#[export] Instance sched_ok_proper : Proper (same_core ==> iff) sched_ok.
Proof.
  assert (forall k k', same_core k k' -> sched_ok k -> sched_ok k') as H.
  { intros k k' (E1 & E2 & E3 & E4 & E5 & E6 & E7 & E8) [[] [? ?]].
    split; split; unfold has_status in *; rewrite ?E1, ?E2, ?E3, ?E4, ?E5, ?E6, ?E7, ?E8; done. }
  intros k k' Hk. split; apply H; [done|by symmetry].
Qed.

Lemma core_level b k : same_core (with_level b k) k.
Proof. done. Qed.

Lemma wlp_intr_disable k (Q : bool -> Sched -> Prop) :
  Q (level k) (with_level false k) -> wlp intr_disable k Q.
Proof. done. Qed.
Lemma wlp_set_level b k (Q : bool -> Sched -> Prop) :
  Q (level k) (with_level b k) -> wlp (intr_set_level b) k Q.
Proof. by destruct b. Qed.

(** Giving the running thread another state [s], and queueing it if it is Ready. *)
Lemma leave_running k s l :
  sched_ok k -> s <> Running ->
  (s = Ready -> current k ∈ l \/ current k = IDLE_THREAD k) ->
  (l = READY_LIST k \/ (s = Ready /\ l = READY_LIST k ++ [current k])) ->
  forall th, threads k !! current k = Some th ->
  let k' := with_ready l (with_threads (<[current k := set_status s th]> (threads k)) k) in
  sched_inv (current k) k' /\ ~ has_status k' (current k) Running.
Proof.
  intros [[Hrun Hrd Hnd Hls Hdy Hall Hnull] [(c & Hc & Hcs & _) _]] Hs Hsr Hl th Hth k'.
  assert (current k ∉ READY_LIST k) as Hni.
  { intros Hin. destruct (Hrd _ Hin) as (c' & Hc' & E). congruence. }
  assert (forall t x, has_status k' t x <-> if decide (t = current k) then s = x else has_status k t x) as Hst.
  { intros t x. change (has_status k' t x) with
      (has_status (with_threads (<[current k := set_status s th]> (threads k)) k) t x).
    by rewrite has_status_insert. }
  split; [split; simpl|].
  - intros t Ht%Hst. case_decide; [congruence|]. by apply Hrun.
  - intros t Hin. apply Hst. case_decide as E.
    + destruct Hl as [->|[-> _]]; [congruence|done].
    + apply Hrd. destruct Hl as [->|[_ ->]]; [done|]. apply elem_of_app in Hin as [?|Hin]; [done|].
      by apply list_elem_of_singleton in Hin.
  - destruct Hl as [->|[_ ->]]; [done|]. apply NoDup_app. split_and!; [done| |apply NoDup_singleton].
    intros t Ht Hin. apply list_elem_of_singleton in Hin. congruence.
  - intros t Ht%Hst. case_decide as E; [subst; by apply Hsr|].
    destruct (Hls t Ht) as [?|?]; [left|by right].
    destruct Hl as [->|[_ ->]]; [done|]. apply elem_of_app. by left.
  - intros t Ht%Hst. case_decide; [by right|]. destruct (Hdy t Ht); by left.
  - intros t Hin. rewrite lookup_insert_is_Some. destruct (decide (current k = t)); auto.
  - rewrite lookup_insert_ne; [done|]. congruence.
  - rewrite Hst, decide_True by done. done.
Qed.

Lemma sched_inv_core x k k' : same_core k k' -> sched_inv x k -> sched_inv x k'.
Proof.
  intros (E1 & E2 & E3 & E4 & E5 & E6 & E7 & E8) [].
  split; unfold has_status in *; rewrite ?E1, ?E2, ?E3, ?E4, ?E5, ?E6; done.
Qed.

(** The thread that was just put in another state is not Dying. *)
Ltac not_dying :=
  let t := fresh in let Ht := fresh in let Hs := fresh in
  intros (t & Ht & Hs); exfalso; simpl in Ht; rewrite lookup_insert_eq in Ht;
  by injection Ht as <-.

Lemma wlp_yield k (Q : unit -> Sched -> Prop) :
  sched_ok k -> (forall k', sched_ok k' -> Q tt k') -> wlp yield_current k Q.
Proof.
  intros Hok HQ. unfold yield_current. apply wlp_bind, wlp_intr_disable. wlp_steps.
  apply wlp_upd_thread. intros th Hth. simpl in Hth. apply wlp_bind.
  cbn [current IDLE_THREAD with_level with_threads].
  destruct (current k =? IDLE_THREAD k) eqn:E; [apply Z.eqb_eq in E|]; cbn [negb];
    wlp_steps; unfold push_kont; wlp_steps.
  - destruct (leave_running k Ready (READY_LIST k) Hok) with (th := th) as [Hi Hn]; auto.
    apply wlp_schedule; try done; simpl.
    + eapply sched_inv_core; [|exact Hi]. done.
    + not_dying.
  - destruct (leave_running k Ready (READY_LIST k ++ [current k]) Hok) with (th := th) as [Hi Hn]; auto.
    { intros _. left. apply elem_of_app. right. by apply list_elem_of_singleton. }
    apply wlp_schedule; try done; simpl.
    + eapply sched_inv_core; [|exact Hi]. done.
    + not_dying.
Qed.

Lemma wlp_block k (Q : unit -> Sched -> Prop) :
  sched_ok k -> (forall k', sched_ok k' -> Q tt k') -> wlp block k Q.
Proof.
  intros Hok HQ. unfold block. wlp_steps. apply wlp_assert. intros _. wlp_steps.
  apply wlp_upd_thread. intros th Hth.
  destruct (leave_running k Blocked (READY_LIST k) Hok) with (th := th) as [Hi Hn]; auto; try done.
  apply wlp_schedule; try done; simpl. not_dying.
Qed.

Lemma wlp_exit k (Q : unit -> Sched -> Prop) :
  sched_ok k -> (forall k', sched_ok k' -> Q tt k') -> wlp exit k Q.
Proof.
  intros Hok HQ. unfold exit. apply wlp_bind, wlp_intr_disable. wlp_steps. apply wlp_upd_thread.
  intros th Hth. simpl in Hth.
  destruct (leave_running k Dying (READY_LIST k) Hok) with (th := th) as [[Hrun Hrd Hnd Hls Hdy Hall Hnull] Hn];
    auto; try done.
  set (all' := List.filter _ _).
  assert (forall t, t ∈ all' -> t ∈ ALL_LIST k /\ t <> current k) as Hf.
  { intros t Ht. apply list_elem_of_In, filter_In in Ht as [Ht Hne]. split; [by apply list_elem_of_In|].
    intros ->. by rewrite Z.eqb_refl in Hne. }
  apply wlp_schedule; try done; simpl.
  - split; simpl in *; try done. intros t Ht. apply Hall. by apply Hf.
  - intros _ Ht. by apply Hf in Ht as [_ ?].
Qed.

(** [m] keeps the invariant [I], whatever it returns. *)
Definition keeps {S A} (I : S -> Prop) (m : M S A) : Prop :=
  forall s, I s -> wlp m s (fun _ s' => I s').

Section keeps.
Context {S : Type} (I : S -> Prop).
Lemma keeps_ret {A} (a : A) : keeps I (ret a).
Proof. by intros s H. Qed.
Lemma keeps_bind {A B} (m : M S A) (f : A -> M S B) :
  keeps I m -> (forall a, keeps I (f a)) -> keeps I (bind m f).
Proof. intros Hm Hf s Hs. apply wlp_bind. eapply wlp_mono; [by apply Hm|]. intros a s' H. by apply Hf. Qed.
Lemma keeps_gets {A} (f : S -> A) : keeps I (gets f).
Proof. by intros s H. Qed.
Lemma keeps_modify (f : S -> S) : (forall s, I s -> I (f s)) -> keeps I (modify f).
Proof. intros H s Hs. by apply H. Qed.
Lemma keeps_assert b w : keeps I (assert b w).
Proof. intros s Hs. by apply wlp_assert. Qed.
Lemma keeps_panic {A} w : keeps I (panic (A := A) w).
Proof. by intros s Hs. Qed.
Lemma keeps_if {A} (b : bool) (m1 m2 : M S A) : keeps I m1 -> keeps I m2 -> keeps I (if b then m1 else m2).
Proof. by destruct b. Qed.
Lemma keeps_u32_add a b : keeps I (u32_add a b).
Proof. intros s Hs. by apply wlp_u32_add. Qed.
Lemma keeps_u32_sub a b : keeps I (u32_sub a b).
Proof. intros s Hs. by apply wlp_u32_sub. Qed.
Lemma keeps_i32_add a b : keeps I (i32_add a b).
Proof. intros s Hs. by apply wlp_i32_add. Qed.
Lemma keeps_i64_add a b : keeps I (i64_add a b).
Proof. intros s Hs. by apply wlp_i64_add. Qed.
Lemma keeps_for_ret {A R} (xs : list A) (body : A -> M S (option R)) :
  (forall x, keeps I (body x)) -> keeps I (for_ret xs body).
Proof.
  intros Hb. induction xs as [|x xs IH]; simpl; [apply keeps_ret|].
  apply keeps_bind; [done|]. intros [r|]; [apply keeps_ret|done].
Qed.
Lemma keeps_zoom {T A} (J : T -> Prop) (proj : S -> T) (upd : T -> S -> S) (m : M T A) :
  (forall s, I s -> J (proj s)) -> (forall t s, J t -> I s -> I (upd t s)) ->
  keeps J m -> keeps I (zoom proj upd m).
Proof.
  intros H1 H2 Hm s Hs. apply wlp_zoom. eapply wlp_mono; [by apply Hm, H1|]. intros a t Ht. by apply H2.
Qed.
End keeps.

Create HintDb keeps.
#[export] Hint Resolve keeps_ret keeps_gets keeps_assert keeps_panic keeps_u32_add keeps_u32_sub
  keeps_i32_add keeps_i64_add : keeps.
Ltac keeps_go :=
  repeat (first
    [ lazymatch goal with
      | |- forall _, _ => intro
      | |- keeps _ (bind _ _) => apply keeps_bind
      | |- keeps _ (match _ with _ => _ end) => first [apply keeps_if | case_match; subst]
      | |- keeps _ (let _ := _ in _) => cbv zeta
      end
    | solve [eauto with keeps nocore] ]).

(** *** thread/mod.rs *)
Lemma keeps_core (f : Sched -> Sched) : (forall k, same_core (f k) k) -> keeps sched_ok (modify f).
Proof. intros H. apply keeps_modify. intros k Hk. by rewrite H. Qed.

Lemma keeps_deref t : keeps sched_ok (deref t).
Proof. intros k Hk. by apply wlp_deref. Qed.
Lemma keeps_intr_disable : keeps sched_ok intr_disable.
Proof. unfold intr_disable. keeps_go. by apply keeps_core. Qed.
Lemma keeps_intr_enable : keeps sched_ok intr_enable.
Proof. unfold intr_enable. keeps_go. by apply keeps_core. Qed.
#[export] Hint Resolve keeps_deref keeps_intr_disable keeps_intr_enable : keeps.
Lemma keeps_set_level b : keeps sched_ok (intr_set_level b).
Proof. destruct b; auto with keeps. Qed.
Lemma keeps_push f : keeps sched_ok (push_kont f).
Proof. by apply keeps_core. Qed.
Lemma keeps_running : keeps sched_ok running_thread.
Proof. apply keeps_gets. Qed.
Lemma keeps_context : keeps sched_ok intr_context.
Proof. apply keeps_gets. Qed.
Lemma keeps_get_level : keeps sched_ok intr_get_level.
Proof. apply keeps_gets. Qed.
Lemma keeps_priorities ts : keeps sched_ok (priorities ts).
Proof. induction ts; simpl; keeps_go. Qed.
Lemma keeps_yield : keeps sched_ok yield_current.
Proof. intros k Hk. by apply wlp_yield. Qed.
Lemma keeps_block : keeps sched_ok block.
Proof. intros k Hk. by apply wlp_block. Qed.
Lemma keeps_exit : keeps sched_ok exit.
Proof. intros k Hk. by apply wlp_exit. Qed.
#[export] Hint Resolve keeps_set_level keeps_push keeps_running keeps_context keeps_get_level
  keeps_priorities keeps_yield keeps_block keeps_exit : keeps.

(** Changing a field other than the state and the page directory. *)
Lemma keeps_field t f :
  (forall th, status (f th) = status th /\ pagedir (f th) = pagedir th) -> keeps sched_ok (upd_thread t f).
Proof.
  intros Hf k [[Hrun Hrd Hnd Hls Hdy Hall Hnull] [(c & Hc & Hcs & Hp) He]]. apply wlp_upd_thread.
  intros th Hth. set (k' := with_threads _ k).
  assert (forall x s, has_status k' x s <-> has_status k x s) as Hst.
  { intros x s. unfold k'. rewrite has_status_insert. case_decide; [|done]. subst x.
    rewrite (proj1 (Hf th)). split; [intros <-; by exists th|]. intros (th' & E & <-). congruence. }
  split; split; simpl; try done.
  - intros x Hx%Hst. by apply Hrun.
  - intros x Hx. apply Hst. by apply Hrd.
  - intros x Hx%Hst. by apply Hls.
  - intros x Hx%Hst. by apply Hdy.
  - intros x Hx. rewrite lookup_insert_is_Some. destruct (decide (t = x)); auto.
  - rewrite lookup_insert_ne; [done|]. intros ->. congruence.
  - destruct (decide (t = current k)) as [->|].
    + exists (f th). rewrite lookup_insert_eq. destruct (Hf th) as [-> ->].
      rewrite Hc in Hth. by injection Hth as <-.
    + exists c. by rewrite lookup_insert_ne.
Qed.

(** A Blocked thread joins the ready list. *)
Lemma make_ready k t th :
  sched_ok k -> threads k !! t = Some th -> status th = Blocked ->
  sched_ok (with_ready (READY_LIST k ++ [t])
    (with_threads (<[t := set_status Ready th]> (threads k)) k)).
Proof.
  intros [[Hrun Hrd Hnd Hls Hdy Hall Hnull] [(c & Hc & Hcs & Hp) He]] Hth Hb.
  set (k' := with_ready _ _).
  assert (t <> current k) as Htc by congruence.
  assert (forall x s, has_status k' x s <-> if decide (x = t) then s = Ready else has_status k x s) as Hst.
  { intros x s. change (has_status k' x s) with
      (has_status (with_threads (<[t := set_status Ready th]> (threads k)) k) x s).
    rewrite has_status_insert. case_decide; [|done]. simpl. split; congruence. }
  split; split; simpl; try done.
  - intros x Hx%Hst. case_decide; [done|]. by apply Hrun.
  - intros x Hx. apply Hst. case_decide; [done|]. apply elem_of_app in Hx as [Hx|Hx]; [by apply Hrd|].
    by apply list_elem_of_singleton in Hx.
  - apply NoDup_app. split_and!; [done| |apply NoDup_singleton]. intros x Hx ->%list_elem_of_singleton.
    destruct (Hrd _ Hx) as (th' & ? & ?). congruence.
  - intros x Hx%Hst. rewrite elem_of_app, list_elem_of_singleton.
    case_decide; [auto|]. destruct (Hls x Hx); auto.
  - intros x Hx%Hst. case_decide; [done|]. by apply Hdy.
  - intros x Hx. rewrite lookup_insert_is_Some. destruct (decide (t = x)); auto.
  - rewrite lookup_insert_ne; [done|]. intros ->. congruence.
  - exists c. by rewrite lookup_insert_ne.
Qed.

Lemma keeps_unblock t : keeps sched_ok (unblock t).
Proof.
  intros k Hk. unfold unblock. apply wlp_bind, wlp_intr_disable. apply wlp_bind, wlp_deref.
  intros th Hth. apply wlp_bind, wlp_assert. intros Hb%bool_decide_eq_true.
  apply wlp_bind, wlp_upd_thread. intros th' Hth'. simpl in *.
  rewrite Hth in Hth'. injection Hth' as <-. apply wlp_bind, wlp_modify.
  set (k1 := with_ready _ _).
  assert (sched_ok k1) as Hk1.
  { refine (proj1 (sched_ok_proper _ k1 _) (make_ready k t th Hk Hth Hb)). done. }
  clearbody k1. revert k1 Hk1.
  change (keeps sched_ok (let! ic := intr_context in
    if ic then intr_set_level (level k) ;; ret tt
    else let! cur := running_thread in let! c := deref cur in
         if priority c <? priority th then intr_set_level (level k) ;; yield_current
         else intr_set_level (level k) ;; ret tt)).
  keeps_go.
Qed.
#[export] Hint Resolve keeps_unblock : keeps.
