(* ===== verification/Machine.v ===== *)
(** The kernel as a state machine: every step of thread code, of suspended code and of the timer
    interrupt keeps the scheduler invariant. *)
From S2P Require Import Prelude Inode Memory Thread Sync SchedProofs.

Lemma keeps_get_priority : keeps sched_ok get_priority.
Proof. unfold get_priority. keeps_go. Qed.
#[export] Hint Resolve keeps_get_priority : keeps.

Lemma keeps_restore_priority : keeps sched_ok restore_priority.
Proof. unfold restore_priority. keeps_go. by apply keeps_field. Qed.
Lemma keeps_yield_if : keeps sched_ok yield_if_not_highest.
Proof. unfold yield_if_not_highest. keeps_go. Qed.
#[export] Hint Resolve keeps_yield_if keeps_restore_priority : keeps.
Lemma keeps_set_priority p : keeps sched_ok (set_priority p).
Proof. unfold set_priority. keeps_go. by apply keeps_field. Qed.
Lemma keeps_yield_flag : keeps sched_ok intr_yield_on_return.
Proof. by apply keeps_core. Qed.
#[export] Hint Resolve keeps_set_priority keeps_yield_flag : keeps.
Lemma keeps_tick : keeps sched_ok tick.
Proof. unfold tick. keeps_go; by apply keeps_core. Qed.
#[export] Hint Resolve keeps_tick : keeps.

(** A new thread on a fresh page. *)
Lemma insert_thread k t th kt n :
  sched_ok k -> threads k !! t = None -> t <> 0 -> status th = Blocked ->
  sched_ok (with_all (ALL_LIST k ++ [t])
    (with_konts kt (with_threads (<[t := th]> (threads k)) (with_next_tid n k)))).
Proof.
  intros [[Hrun Hrd Hnd Hls Hdy Hall Hnull] [(c & Hc & Hcs & Hp) He]] Hf Hz Hb.
  set (k' := with_all _ _).
  assert (t <> current k) as Htc by congruence.
  assert (forall x s, s <> Blocked -> has_status k' x s <-> has_status k x s) as Hst.
  { intros x s Hs. change (has_status k' x s) with
      (has_status (with_threads (<[t := th]> (threads k)) k) x s).
    rewrite has_status_insert. case_decide; [|done]. subst x. split; [congruence|].
    intros (th' & ? & _). congruence. }
  split; split; simpl; try done.
  - intros x Hx%Hst; [|done]. by apply Hrun.
  - intros x Hx. apply Hst; [done|]. by apply Hrd.
  - intros x Hx%Hst; [|done]. by apply Hls.
  - intros x Hx%Hst; [|done]. by apply Hdy.
  - intros x Hx. rewrite lookup_insert_is_Some. destruct (decide (t = x)) as [|Hne]; [by left|]. right.
    split; [done|]. apply Hall. apply elem_of_app in Hx as [Hx|Hx]; [done|].
    apply list_elem_of_singleton in Hx. congruence.
  - by rewrite lookup_insert_ne.
  - exists c. by rewrite lookup_insert_ne.
Qed.

Lemma create_keeps page nm pri k :
  sched_ok k -> threads k !! page = None -> wlp (create page nm pri) k (fun _ k' => sched_ok k').
Proof.
  intros Hk Hf. unfold create. destruct (Z.eqb_spec page 0) as [|Hz]; [done|]. apply wlp_bind.
  unfold allocate_tid. wlp_steps. set (k1 := with_all _ _).
  assert (sched_ok k1) as Hk1 by
    (refine (insert_thread k page _ _ (NEXT_TID k + 1) Hk Hf Hz _); done).
  eapply wlp_mono; [by apply keeps_unblock|]. done.
Qed.

(** *** Signals *)
Lemma keeps_deliver t sig : keeps sched_ok (deliver_signal t sig).
Proof. unfold deliver_signal. keeps_go; by apply keeps_field. Qed.
#[export] Hint Resolve keeps_deliver : keeps.
Lemma keeps_scan {R} (body : Z -> Thread -> M Sched (option R)) :
  (forall t th, keeps sched_ok (body t th)) -> keeps sched_ok (scan_all body).
Proof. intros Hb. unfold scan_all. keeps_go. apply keeps_for_ret. keeps_go. Qed.
Lemma keeps_send id sig : keeps sched_ok (send_signal id sig).
Proof. unfold send_signal. keeps_go. apply keeps_scan. keeps_go. Qed.
Lemma keeps_send_pgid pg sig : keeps sched_ok (send_signal_pgid pg sig).
Proof. unfold send_signal_pgid. keeps_go. apply keeps_scan. keeps_go. Qed.

(** *** src/sync/ and timer.rs *)
Definition kernel_ok (k : Kernel) : Prop := sched_ok (sched k).

Lemma keeps_sch {A} (m : M Sched A) : keeps sched_ok m -> keeps kernel_ok (sch m).
Proof. apply keeps_zoom; [done|]. by intros t s Ht Hs. Qed.
#[export] Hint Resolve keeps_sch : keeps.

Lemma keeps_get_sema s : keeps kernel_ok (get_sema s).
Proof. intros k Hk. unfold wlp, get_sema. by destruct (semas k !! s). Qed.
Lemma keeps_set_sema s x : keeps kernel_ok (set_sema s x).
Proof. by apply keeps_modify. Qed.
Lemma keeps_holder_raw l : keeps kernel_ok (holder_raw l).
Proof. intros k Hk. unfold wlp, holder_raw. by destruct (holders k !! l). Qed.
Lemma keeps_set_holder l t : keeps kernel_ok (set_holder l t).
Proof. by apply keeps_modify. Qed.
Lemma keeps_get_cond c : keeps kernel_ok (get_cond c).
Proof. intros k Hk. unfold wlp, get_cond. by destruct (conds k !! c). Qed.
Lemma keeps_set_cond c x : keeps kernel_ok (set_cond c x).
Proof. by apply keeps_modify. Qed.
#[export] Hint Resolve keeps_get_sema keeps_set_sema keeps_holder_raw keeps_set_holder
  keeps_get_cond keeps_set_cond : keeps.

Lemma keeps_down_loop s old : keeps kernel_ok (down_loop s old).
Proof. unfold down_loop. keeps_go. apply keeps_sch. keeps_go. Qed.
Lemma keeps_up_tail s old : keeps kernel_ok (up_tail s old).
Proof. unfold up_tail. keeps_go. Qed.
#[export] Hint Resolve keeps_down_loop keeps_up_tail : keeps.
Lemma keeps_down s : keeps kernel_ok (down s).
Proof. unfold down. keeps_go. Qed.
Lemma keeps_try_down s : keeps kernel_ok (try_down s).
Proof. unfold try_down. keeps_go. Qed.
Lemma keeps_up s : keeps kernel_ok (up s).
Proof. unfold up. keeps_go. apply keeps_sch. keeps_go. Qed.
#[export] Hint Resolve keeps_down keeps_try_down keeps_up : keeps.

Lemma keeps_donate n t p : keeps kernel_ok (donate_loop n t p).
Proof.
  revert t; induction n as [|n IH]; intros t; simpl; keeps_go. by apply keeps_sch, keeps_field.
Qed.
Lemma keeps_held l : keeps kernel_ok (held_by_current_thread l).
Proof. unfold held_by_current_thread. keeps_go. Qed.
#[export] Hint Resolve keeps_donate keeps_held : keeps.
Lemma keeps_donation h p : keeps kernel_ok (donate_priority h p).
Proof. apply keeps_donate. Qed.
#[export] Hint Resolve keeps_donation : keeps.
Lemma keeps_acquire l : keeps kernel_ok (acquire l).
Proof. unfold acquire. keeps_go. by apply keeps_sch, keeps_field. Qed.
Lemma keeps_acquired l : keeps kernel_ok (acquired l).
Proof. unfold acquired. keeps_go. by apply keeps_sch, keeps_field. Qed.
Lemma keeps_try_acquire l : keeps kernel_ok (try_acquire l).
Proof. unfold try_acquire. keeps_go. Qed.
Lemma keeps_release l : keeps kernel_ok (release l).
Proof. unfold release. keeps_go. Qed.
#[export] Hint Resolve keeps_acquire keeps_acquired keeps_try_acquire keeps_release : keeps.
Lemma keeps_wait c l box : keeps kernel_ok (wait c l box).
Proof. unfold wait. keeps_go. Qed.
Lemma keeps_signal_loop i ws b p : keeps kernel_ok (signal_loop i ws b p).
Proof. revert i b p; induction ws; simpl; keeps_go. Qed.
#[export] Hint Resolve keeps_signal_loop : keeps.
Lemma keeps_signal c l : keeps kernel_ok (signal c l).
Proof. unfold signal. keeps_go. Qed.
Lemma keeps_broadcast_loop c : keeps kernel_ok (broadcast_loop c).
Proof. unfold broadcast_loop. keeps_go. Qed.
#[export] Hint Resolve keeps_wait keeps_signal keeps_broadcast_loop : keeps.
Lemma keeps_broadcast c l : keeps kernel_ok (broadcast c l).
Proof. unfold broadcast. keeps_go. Qed.
Lemma keeps_ticks : keeps kernel_ok ticks.
Proof. apply keeps_gets. Qed.
Lemma keeps_timer f g : keeps kernel_ok (modify (fun k => with_timer (f k) (g k) k)).
Proof. by apply keeps_modify. Qed.
#[export] Hint Resolve keeps_broadcast keeps_ticks keeps_timer : keeps.
Lemma keeps_sleep n : keeps kernel_ok (timer_sleep n).
Proof.
  unfold timer_sleep. keeps_go. apply keeps_sch. keeps_go.
Qed.
Lemma keeps_wake l now : keeps kernel_ok (wake_loop l now).
Proof. induction l; simpl; keeps_go. Qed.
#[export] Hint Resolve keeps_sleep keeps_wake : keeps.
Lemma keeps_wake_sleeping : keeps kernel_ok wake_sleeping_threads.
Proof. unfold wake_sleeping_threads. keeps_go. Qed.
#[export] Hint Resolve keeps_wake_sleeping : keeps.
Lemma keeps_timer_interrupt : keeps kernel_ok timer_interrupt.
Proof. unfold timer_interrupt. keeps_go. Qed.
Lemma keeps_external h : keeps kernel_ok h -> keeps kernel_ok (external_interrupt h).
Proof. intros Hh. unfold external_interrupt. keeps_go; by apply keeps_sch, keeps_core. Qed.

Lemma keeps_frame f : keeps kernel_ok (exec_frame f).
Proof.
  destruct f; simpl; keeps_go; by apply keeps_modify.
Qed.

#[export] Instance call_is_create_dec c :
  Decision (exists page nm pri, c = CCreate page nm pri).
Proof.
  destruct c as [ | | | | | | | | | | | | |page nm pri]; try (right; by intros (? & ? & ? & ?)).
  left. by exists page, nm, pri.
Defined.

Lemma call_ok c k :
  kernel_ok k ->
  (forall page nm pri, c = CCreate page nm pri -> threads (sched k) !! page = None) ->
  wlp (exec_call c) k (fun _ => kernel_ok).
Proof.
  intros Hk Hc. destruct (decide (exists page nm pri, c = CCreate page nm pri)) as [Hcr|Hcr].
  - destruct Hcr as (page & nm & pri & ->). apply wlp_bind, wlp_zoom.
    eapply wlp_mono; [apply create_keeps; [exact Hk|by eapply Hc]|done].
  - revert k Hk Hc. cut (keeps kernel_ok (exec_call c)); [by auto|].
    destruct c; simpl; keeps_go. destruct Hcr. by do 3 eexists.
Qed.

(** ** The state machine *)

(** A thread in its own code makes a call or returns; suspended code goes on; or, with
    interrupts enabled, the timer interrupts whatever runs. *)
Inductive step : Kernel -> Kernel -> Prop :=
| step_call k c k' :
    top_frame k = Some KBody ->
    (forall page nm pri, c = CCreate page nm pri -> threads (sched k) !! page = None) ->
    exec_call c k = Ok tt k' -> step k k'
| step_return k : top_frame k = Some KBody -> step k (pop_frame k)
| step_resume k k' : top_frame k <> Some KBody -> resume k = Ok tt k' -> step k k'
| step_timer k k' :
    level (sched k) = true -> external_interrupt timer_interrupt k = Ok tt k' -> step k k'.

Lemma wlp_run {S A} (m : M S A) s (Q : A -> S -> Prop) a s' : wlp m s Q -> m s = Ok a s' -> Q a s'.
Proof. unfold wlp. by intros H E; rewrite E in H. Qed.

Lemma pop_ok k : kernel_ok k -> kernel_ok (pop_frame k).
Proof. intros Hk. refine (proj1 (sched_ok_proper _ _ _) Hk). done. Qed.

Lemma step_ok k k' : kernel_ok k -> step k k' -> kernel_ok k'.
Proof.
  intros Hk Hs. destruct Hs as [k c k' _ Hc E|k _|k k' _ E|k k' _ E].
  - revert E. apply (wlp_run _ _ (fun _ => kernel_ok)). by apply call_ok.
  - by apply pop_ok.
  - revert E. apply (wlp_run _ _ (fun _ => kernel_ok)). unfold resume, wlp.
    pose proof (fun f => keeps_frame f (pop_frame k) (pop_ok k Hk)) as Hf. unfold wlp in Hf.
    destruct (top_frame k) as [[]|]; try done; apply Hf.
  - revert E. apply (wlp_run _ _ (fun _ => kernel_ok)). by apply keeps_external; [apply keeps_timer_interrupt|].
Qed.

(** ** The claims *)

(** The globals before [thread::init]. *)
Definition boot_sched : Sched :=
  mkSched ∅ [] [] 0 0 0 1 0 false false false 0 0 ∅.

(** [thread::init] on the boot stack page [t], then the [activate] of the TSS set-up. *)
Definition boot (t : Z) (page : Thread) : M Sched unit := init t page ;; activate.

Lemma boot_ok t page : t <> 0 -> wp (boot t page) boot_sched (fun _ k => sched_ok k /\ current k = t).
Proof.
  intros Ht. unfold boot, init. apply wp_bind. do 4 apply wp_bind, wp_modify.
  apply wp_bind. unfold allocate_tid. apply wp_bind, wp_gets, wp_bind, wp_i32_add; [done|].
  apply wp_bind, wp_modify, wp_ret. apply wp_bind. eapply wp_upd_thread.
  { simpl. apply lookup_insert_eq. }
  do 2 apply wp_bind, wp_modify. apply wp_modify. unfold activate. apply wp_bind, wp_gets.
  apply wp_bind. eapply wp_deref. { simpl. apply lookup_insert_eq. }
  apply wp_modify. split; [|done].
  set (k := with_mmu _ _ _). set (th := set_tid _ _) in k.
  assert (forall x s, has_status k x s -> x = t /\ s = Running) as Hst.
  { intros x s (th' & Hx & <-). simpl in Hx. destruct (decide (x = t)) as [->|Hn].
    - rewrite lookup_insert_eq in Hx. by injection Hx as <-.
    - by rewrite !lookup_insert_ne, lookup_empty in Hx by done. }
  split; split; simpl.
  - by intros x [? _]%Hst.
  - by intros x ?%elem_of_nil.
  - constructor.
  - by intros x [_ ?]%Hst.
  - by intros x [_ ?]%Hst.
  - intros x ->%list_elem_of_singleton. rewrite lookup_insert_eq. by eexists.
  - by rewrite !lookup_insert_ne, lookup_empty.
  - exists th. by rewrite lookup_insert_eq.
  - done.
Qed.

(** C3: the scheduler invariant.  Start from the boot state and let threads make any calls to
    the kernel (semaphores, locks, condition variables, yield, sleep, exit, create, priority
    changes), resume suspended code, and take timer interrupts, in any order.  In every state
    reached, exactly one thread is Running, the current one; the ready list holds exactly the
    Ready threads (except possibly the idle thread), each once; a dead thread is gone; the list
    of all threads has no dangling pointer; and the CPU uses the current thread's page
    directory and kernel stack. *)
Theorem scheduler_invariant (t : Z) (page : Thread) (s : Sched) (k k' : Kernel) :
  t <> 0 -> boot t page boot_sched = Ok tt s -> sched k = s -> rtc step k k' ->
  sched_ok (sched k').
Proof.
  intros Ht Hb Hs Hr. change (kernel_ok k').
  assert (kernel_ok k) as Hk.
  { unfold kernel_ok. rewrite Hs. pose proof (boot_ok t page Ht) as H. unfold wp in H.
    rewrite Hb in H. apply H. }
  clear Hs Hb. induction Hr as [|x y z Hxy _ IH]; [done|]. apply IH. by eapply step_ok.
Qed.

Definition demo_kernel : Kernel :=
  mkKernel (match boot 0x1000 zero_thread boot_sched with Ok _ s => s | _ => boot_sched end)
    (<[0x500 := mkSema 1 []]> ∅) ∅ ∅ 0 [].

Lemma scheduler_invariant_witness : exists k', step demo_kernel k' /\ sched_ok (sched k').
Proof.
  destruct (exec_call (CDown 0x500) demo_kernel) as [[] k'| | |] eqn:E;
    [|by vm_compute in E..].
  assert (step demo_kernel k') as Hs by (apply (step_call _ (CDown 0x500)); [by vm_compute|done|exact E]).
  exists k'. split; [exact Hs|].
  apply (scheduler_invariant 0x1000 zero_thread (sched demo_kernel) demo_kernel k').
  - done.
  - by vm_compute.
  - done.
  - apply (rtc_l _ _ k'); [exact Hs|apply rtc_refl].
Defined.
