(* ===== verification/SchedTotal.v ===== *)
(** Total correctness of the scheduler's entry points: which thread runs next, what [up] wakes,
    how the sleep queue is served, and how priority donation and signals change threads. *)
From S2P Require Import Prelude Inode Memory Thread Sync SchedProofs Machine.

(** Every thread has its canary and a machine-integer priority. *)
Definition threads_good (k : Sched) : Prop :=
  forall t th, threads k !! t = Some th -> magic th = THREAD_MAGIC /\ i32_min <= priority th.

Definition pri_of (k : Sched) (t : Z) : Z :=
  match threads k !! t with Some th => priority th | None => 0 end.

Lemma wp_priorities ts k (Q : list Z -> Sched -> Prop) :
  (forall t, t ∈ ts -> is_Some (threads k !! t)) -> Q (pri_of k <$> ts) k -> wp (priorities ts) k Q.
Proof.
  revert Q; induction ts as [|t ts IH]; intros Q Hts HQ; simpl; [done|].
  destruct (Hts t ltac:(left)) as [th Ht]. apply wp_bind. eapply wp_deref; [exact Ht|].
  apply wp_bind, IH; [intros x Hx; apply Hts; by right|]. apply wp_ret.
  unfold pri_of in HQ. cbn [fmap list_fmap] in HQ. by rewrite Ht in HQ.
Qed.

Lemma pris_min k ts : threads_good k -> Forall (fun p => i32_min <= p) (pri_of k <$> ts).
Proof.
  intros Hg. apply Forall_fmap, Forall_true. intros t. simpl. unfold pri_of.
  destruct (threads k !! t) eqn:E; [by apply (Hg t)|done].
Qed.

(** The thread chosen from a queue [q]: highest priority, first come first served. *)
Definition chosen (k : Sched) (q : list Z) (t : Z) (rest : list Z) : Prop :=
  exists i, q !! i = Some t /\ rest = remove_at i q /\
    forall j x, q !! j = Some x -> pri_of k x <= pri_of k t /\ ((j < i)%nat -> pri_of k x < pri_of k t).

Lemma best_chosen k q :
  q <> [] -> threads_good k ->
  let i := best_index (pri_of k <$> q) in
  exists t, q !! i = Some t /\ chosen k q t (remove_at i q).
Proof.
  intros Hq Hg i. destruct (best_index_spec (pri_of k <$> q)) as (p & Hp & Hm).
  { by destruct q. } { by apply pris_min. }
  fold i in Hp, Hm. apply list_lookup_fmap_Some in Hp as (t & -> & Ht). exists t. split; [done|].
  exists i. split_and!; [done|done|]. intros j x Hx. apply Hm. by rewrite list_lookup_fmap, Hx.
Qed.

Lemma wp_next k (Q : Z -> Sched -> Prop) :
  READY_LIST k <> [] -> threads_good k -> (forall t, t ∈ READY_LIST k -> is_Some (threads k !! t)) ->
  (forall t rest, chosen k (READY_LIST k) t rest -> Q t (with_ready rest k)) ->
  wp next_thread_to_run k Q.
Proof.
  intros Hne Hg Hts HQ. unfold next_thread_to_run. apply wp_bind, wp_gets.
  destruct (best_chosen k (READY_LIST k) Hne Hg) as (t & Ht & Hc).
  destruct (READY_LIST k) as [|t0 l] eqn:E; [done|]. rewrite <- E in *.
  apply wp_bind, wp_priorities; [done|]. cbv zeta. rewrite Ht.
  apply wp_bind, wp_modify, wp_ret. by apply HQ.
Qed.

(** [schedule] of a thread that is not dying: it switches to the chosen thread. *)
Lemma wp_schedule k c (Q : unit -> Sched -> Prop) :
  level k = false -> threads k !! 0 = None -> threads k !! current k = Some c -> status c <> Running -> status c <> Dying ->
  threads_good k -> READY_LIST k <> [] -> (forall t, t ∈ READY_LIST k -> is_Some (threads k !! t)) ->
  (forall t rest th k', chosen k (READY_LIST k) t rest -> threads k !! t = Some th ->
     k' = with_mmu (pagedir th) (t + PGSIZE) (with_threads (<[t := set_status Running th]> (threads k))
            (with_current t (with_ticks 0 (with_ready rest k)))) -> Q tt k') ->
  wp schedule k Q.
Proof.
  intros Hl H0 Hc Hs Hd Hg Hne Hts HQ. unfold schedule. apply wp_bind, wp_gets, wp_bind, wp_next; try done.
  intros t rest Hch. destruct (Hts t) as [th Hth].
  { destruct Hch as (i & Hi & _). by eapply list_elem_of_lookup_2. }
  apply wp_bind, wp_gets, wp_bind, wp_assert; [by simpl; rewrite Hl|].
  apply wp_bind. eapply wp_deref; [exact Hc|]. apply wp_bind, wp_assert; [by rewrite bool_decide_false|].
  assert (t <> 0) as Ht0 by congruence.
  apply wp_bind. unfold check_thread. apply wp_bind, wp_assert; [by rewrite (proj2 (Z.eqb_neq t 0))|].
  apply wp_bind. eapply wp_deref; [exact Hth|]. apply wp_assert; [apply Z.eqb_eq, (Hg t th Hth)|].
  apply wp_bind, wp_modify.
  assert (forall prev k2, threads k2 = threads k -> current k2 = t ->
    with_current t k2 = with_current t (with_ticks 0 (with_ready rest k)) ->
    prev = 0 \/ (prev = current k /\ prev <> t) -> wp (schedule_tail prev) k2 Q) as Htail.
  { intros prev k2 E1 E2 E3 Hp. unfold schedule_tail. apply wp_bind, wp_gets. rewrite E2.
    apply wp_bind. eapply wp_upd_thread; [by rewrite E1|]. rewrite E1.
    apply wp_bind. unfold activate. apply wp_bind, wp_gets. simpl. rewrite E2. apply wp_bind.
    eapply wp_deref; [simpl; apply lookup_insert_eq|]. apply wp_modify.
    assert (k2 = with_current t (with_ticks 0 (with_ready rest k))) as Ek by (rewrite <- E3; destruct k2; simpl in *; by subst).
    set (k3 := with_mmu _ _ _).
    assert (Q tt k3) as HQ3 by (apply (HQ t rest th); [done|done|]; unfold k3; by rewrite Ek).
    destruct (Z.eqb_spec prev 0); [by apply wp_ret|]. destruct Hp as [?|[-> Hpt]]; [done|].
    apply wp_bind. eapply (wp_deref _ _ c).
    { simpl. rewrite lookup_insert_ne by done. exact Hc. }
    apply wp_bind, wp_gets. rewrite bool_decide_false by done. by apply wp_ret. }
  destruct (Z.eqb_spec (current k) t) as [E|E]; simpl.
  - apply Htail; try done. by left.
  - apply wp_bind, wp_modify. apply Htail; try done. by right.
Qed.

(** C34: priority scheduling.  When a thread other than the idle thread yields, the thread
    that runs next has the highest priority among the ready threads and the yielding thread;
    among equals it is the one queued first, with the yielding thread last; the others keep
    their order, and the yielding thread will restore its interrupt level when it runs
    again. *)
Theorem yield_runs_highest (k : Sched) :
  sched_ok k -> threads_good k -> current k <> IDLE_THREAD k ->
  wp yield_current k (fun _ k' =>
    chosen k (READY_LIST k ++ [current k]) (current k') (READY_LIST k') /\
    has_status k' (current k') Running /\
    konts k' !! current k = Some (KSetLevel (level k) :: default [] (konts k !! current k))).
Proof.
  intros [Hi Hr] Hg Hid. destruct (r_cur _ Hr) as (c & Hc & Hcs & _).
  unfold yield_current. apply wp_bind. change (wp intr_disable k ?Q) with (Q (level k) (with_level false k)).
  cbv beta. apply wp_bind, wp_gets, wp_bind, wp_gets. simpl.
  apply wp_bind. eapply wp_upd_thread; [simpl; exact Hc|].
  rewrite (proj2 (Z.eqb_neq _ _) Hid). simpl. apply wp_bind, wp_modify, wp_bind, wp_modify.
  set (k1 := with_konts _ _).
  assert (forall t, pri_of k1 t = pri_of k t) as Hpri.
  { intros t. unfold pri_of. simpl. destruct (decide (t = current k)) as [->|].
    - by rewrite lookup_insert_eq, Hc.
    - by rewrite lookup_insert_ne. }
  eapply (wp_schedule k1 (set_status Ready c)); simpl; try done.
  - rewrite lookup_insert_ne; [apply (i_null _ _ Hi)|].
    intros E. rewrite E, (i_null _ _ Hi) in Hc. done.
  - apply lookup_insert_eq.
  - intros t th. simpl. destruct (decide (t = current k)) as [->|].
    + rewrite lookup_insert_eq. intros [= <-]. exact (Hg _ _ Hc).
    + rewrite lookup_insert_ne by done. apply Hg.
  - by destruct (READY_LIST k).
  - intros t Hin. rewrite lookup_insert_is_Some. destruct (decide (current k = t)); [by left|right].
    split; [done|]. apply elem_of_app in Hin as [Hin|Hin].
    + destruct (i_ready _ _ Hi t Hin) as (th & ? & _). by exists th.
    + apply list_elem_of_singleton in Hin. congruence.
  - intros t rest th k' (i & Hti & -> & Hmax) Hth ->. simpl. split_and!.
    + exists i. split_and!; [done|done|]. intros j x Hx. rewrite <- !Hpri. by apply Hmax.
    + exists (set_status Running th). simpl. by rewrite lookup_insert_eq.
    + apply lookup_insert_eq.
Qed.

Lemma demo_sched_ok : sched_ok (sched demo_kernel).
Proof.
  pose proof (boot_ok 0x1000 zero_thread ltac:(done)) as H. unfold wp in H.
  destruct (boot 0x1000 zero_thread boot_sched) as [[] s| | |] eqn:E; [|done..].
  unfold demo_kernel. cbn [sched]. rewrite E. apply H.
Qed.

Lemma yield_runs_highest_witness :
  wp yield_current (sched demo_kernel) (fun _ k' => has_status k' (current k') Running).
Proof.
  eapply wp_mono; [apply (yield_runs_highest (sched demo_kernel))|].
  - exact demo_sched_ok.
  - intros t th Ht. vm_compute in Ht |- *.
    destruct t as [|p|p]; try done.
    do 13 (destruct p as [p|p|]; try done); injection Ht as <-; done.
  - done.
  - by intros [] k' (_ & ? & _).
Defined.

(** ** Semaphores *)

(** [up] with a waiter, up to the point where the waiter is woken. *)
Lemma wp_up_waiter s k x (Q : unit -> Kernel -> Prop) :
  semas k !! s = Some x -> waiters x <> [] -> threads_good (sched k) ->
  (forall t, t ∈ waiters x -> is_Some (threads (sched k) !! t)) ->
  (forall w rest, chosen (sched k) (waiters x) w rest ->
     wp (sch (push_kont (KUp s (level (sched k))) ;; unblock w))
       (with_semas (<[s := mkSema (value x) rest]> (semas k)) (with_sched (with_level false (sched k)) k)) Q) ->
  wp (up s) k Q.
Proof.
  intros Hs Hne Hg Hts HQ. unfold up. apply wp_bind, wp_zoom.
  change (wp intr_disable (sched k) ?Q) with (Q (level (sched k)) (with_level false (sched k))). cbv beta.
  apply wp_bind. unfold get_sema, wp at 1. cbn [semas with_sched]. rewrite Hs.
  destruct (best_chosen (sched k) (waiters x) Hne Hg) as (w & Hw & Hc).
  destruct (waiters x) as [|w0 ws] eqn:E; [done|]. rewrite <- E in *.
  apply wp_bind, wp_zoom, wp_priorities; [done|].
  change (pri_of (sched (with_sched (with_level false (sched k)) k))) with (pri_of (sched k)).
  rewrite Hw.
  apply wp_bind, wp_modify. by apply HQ.
Qed.

(** [Semaphore::up] works when the woken thread does not preempt.  If the waiter it picks
    has no higher priority than the running thread, or [up] is called from an interrupt
    handler, then [up] removes from the queue the waiter of highest priority (first come first
    served), makes it Ready at the end of the ready list, and, once its last frame has run,
    has added one to the value and restored the interrupt level, with the caller still
    running. *)
Theorem up_wakes_waiter (s : Z) (k : Kernel) (x : Semaphore) :
  kernel_ok k -> threads_good (sched k) -> semas k !! s = Some x -> waiters x <> [] ->
  (forall t, t ∈ waiters x -> has_status (sched k) t Blocked) -> value x + 1 < u32_lim ->
  (forall t, t ∈ waiters x -> pri_of (sched k) t <= pri_of (sched k) (current (sched k))) \/
    IN_EXTERNAL_INTR (sched k) = true ->
  wp (up s ;; resume) k (fun _ k' => exists w rest,
    chosen (sched k) (waiters x) w rest /\ semas k' !! s = Some (mkSema (value x + 1) rest) /\
    READY_LIST (sched k') = READY_LIST (sched k) ++ [w] /\ has_status (sched k') w Ready /\
    current (sched k') = current (sched k) /\ level (sched k') = level (sched k)).
Proof.
  intros Hk Hg Hs Hne Hb Hv Hpre. apply wp_bind. eapply wp_up_waiter; [exact Hs|exact Hne|exact Hg|..].
  { intros t Ht. destruct (Hb t Ht) as (th & ? & _). by exists th. }
  intros w rest Hc. assert (w ∈ waiters x) as Hw.
  { destruct Hc as (i & Hi & _). by eapply list_elem_of_lookup_2. }
  destruct (Hb w Hw) as (th & Hth & Hst). destruct Hk as [Hi Hr].
  destruct (r_cur _ Hr) as (c & Hcur & Hcs & _).
  assert (w <> current (sched k)) as Hwc by congruence.
  set (sk := sched k) in *. apply wp_zoom. simpl. apply wp_bind, wp_modify.
  unfold unblock. apply wp_bind.
  change (wp intr_disable ?k ?Q) with (Q (level k) (with_level false k)). cbv beta.
  apply wp_bind. eapply wp_deref; [simpl; exact Hth|].
  apply wp_bind, wp_assert; [by apply bool_decide_eq_true|].
  apply wp_bind. eapply wp_upd_thread; [simpl; exact Hth|]. apply wp_bind, wp_modify.
  set (k1 := with_ready _ _).
  assert (forall (P : unit -> Sched -> Prop), P tt (with_level false k1) ->
    wp (let! ic := intr_context in
        if ic then intr_set_level false ;; ret tt
        else let! cur := running_thread in let! c := deref cur in
             if priority c <? priority th then intr_set_level false ;; yield_current
             else intr_set_level false ;; ret tt) k1 P) as Hstay.
  { intros P HP. apply wp_bind, wp_gets. destruct (IN_EXTERNAL_INTR k1) eqn:Ei; [done|].
    apply wp_bind, wp_gets. apply wp_bind. eapply wp_deref.
    { simpl. rewrite lookup_insert_ne by done. exact Hcur. }
    destruct Hpre as [Hp|Hp]; [|by simpl in Ei; congruence].
    pose proof (Hp w Hw) as Hle. unfold pri_of in Hle. rewrite Hth, Hcur in Hle.
    rewrite (proj2 (Z.ltb_ge _ _) Hle). done. }
  apply Hstay. unfold resume, wp, top_frame. cbn [sched with_sched with_semas].
  unfold k1. simpl. rewrite lookup_insert_eq. simpl. unfold up_tail, bind, get_sema. simpl.
  rewrite lookup_insert_eq. simpl. unfold u32_add. rewrite (proj2 (Z.ltb_lt _ _) Hv).
  unfold ret, sch, zoom, set_sema, modify. simpl.
  assert (forall b (kk : Sched), intr_set_level b kk = Ok (level kk) (with_level b kk)) as Hsl by by intros [].
  rewrite Hsl. exists w, rest. simpl. rewrite lookup_insert_eq. split_and!; try done.
  exists (set_status Ready th). simpl. by rewrite lookup_insert_eq.
Qed.

(** ** Executable runs of the machine *)
Inductive event : Set := ECall (c : call) | EReturn | EResume | ETimer.

Definition in_body (k : Kernel) : bool :=
  match top_frame k with Some KBody => true | _ => false end.
Definition fresh_page (c : call) (k : Kernel) : bool :=
  match c with
  | CCreate page _ _ => bool_decide (threads (sched k) !! page = None)
  | _ => true
  end.
Definition exec_event (e : event) : M Kernel unit :=
  fun k => match e with
  | ECall c => if in_body k && fresh_page c k then exec_call c k else Panic "not in thread code"
  | EReturn => if in_body k then Ok tt (pop_frame k) else Panic "not in thread code"
  | EResume => if in_body k then Panic "in thread code" else resume k
  | ETimer => if level (sched k) then external_interrupt timer_interrupt k
              else Panic "interrupts are off"
  end.
Fixpoint run (es : list event) : M Kernel unit :=
  match es with [] => ret tt | e :: es' => exec_event e ;; run es' end.

Lemma exec_event_step e k k' : exec_event e k = Ok tt k' -> step k k'.
Proof.
  unfold exec_event, in_body. destruct e as [c| | |].
  - destruct (top_frame k) as [[]|] eqn:E; try done. simpl. destruct (fresh_page c k) eqn:Hf; [|done].
    intros Hx. apply (step_call k c); [done| |done]. intros page nm pri ->. simpl in Hf.
    by apply bool_decide_eq_true in Hf.
  - destruct (top_frame k) as [[]|] eqn:E; try done. intros [= <-]. by apply step_return.
  - intros Hx. apply step_resume; [|by destruct (top_frame k) as [[]|]].
    intros E. by rewrite E in Hx.
  - destruct (level (sched k)) eqn:E; [|done]. by apply step_timer.
Qed.

Lemma run_ok es k k' : kernel_ok k -> run es k = Ok tt k' -> kernel_ok k'.
Proof.
  revert k; induction es as [|e es IH]; intros k Hk; simpl; [by intros [= <-]|].
  unfold bind. destruct (exec_event e k) as [[] k1| | |] eqn:E; try done.
  apply IH. eapply step_ok; [exact Hk|]. by eapply exec_event_step.
Qed.

Definition run_from (es : list event) (k : Kernel) : Kernel :=
  match run es k with Ok _ k' => k' | _ => k end.

(** The boot kernel with a semaphore at 0x600 (value 0) and a lock at 0x700. *)
Definition demo_sync : Kernel :=
  with_holders (<[0x700 := 0]> ∅)
    (with_semas (<[0x600 := mkSema 0 []]> (<[0x700 := mkSema 1 []]> ∅)) demo_kernel).

Lemma demo_sync_ok : kernel_ok demo_sync.
Proof. exact demo_sched_ok. Qed.

(** Main creates a thread of its own priority, which waits on the semaphore. *)
Definition demo_wait : list event :=
  [ECall (CCreate 0x2000 [119] 31); ECall CYield; EResume; ECall (CDown 0x600); EResume].
Definition demo_waiting : Kernel := run_from demo_wait demo_sync.

Lemma demo_waiting_ok : kernel_ok demo_waiting.
Proof.
  unfold demo_waiting, run_from. destruct (run demo_wait demo_sync) as [[] k'| | |] eqn:E;
    [|exact demo_sync_ok..]. by apply (run_ok demo_wait demo_sync); [exact demo_sync_ok|].
Qed.

(** A property of every thread of a concrete table. *)
Lemma map_all_check (P : Thread -> bool) (m : gmap Z Thread) :
  forallb (fun x => P x.2) (map_to_list m) = true -> forall t th, m !! t = Some th -> P th = true.
Proof.
  intros H t th Ht. rewrite forallb_forall in H. apply (H (t, th)).
  by apply list_elem_of_In, elem_of_map_to_list.
Qed.

Definition good_thread (th : Thread) : bool :=
  (magic th =? THREAD_MAGIC) && (i32_min <=? priority th).

Lemma check_threads_good k :
  forallb (fun x => good_thread x.2) (map_to_list (threads k)) = true -> threads_good k.
Proof.
  intros H t th Ht. pose proof (map_all_check good_thread _ H t th Ht) as Hg.
  apply andb_true_iff in Hg as [?%Z.eqb_eq ?%Z.leb_le]. done.
Qed.

Lemma up_wakes_waiter_witness :
  wp (up 0x600 ;; resume) demo_waiting (fun _ k' =>
    semas k' !! 0x600 = Some (mkSema 1 []) /\ READY_LIST (sched k') = [0x2000]).
Proof.
  eapply wp_mono.
  - apply (up_wakes_waiter 0x600 demo_waiting (mkSema 0 [0x2000])).
    + exact demo_waiting_ok.
    + apply check_threads_good. by vm_compute.
    + by vm_compute.
    + done.
    + intros t ->%list_elem_of_singleton. vm_compute. by eexists.
    + done.
    + left. intros t ->%list_elem_of_singleton. by vm_compute.
  - intros [] k' (w & rest & (i & Hi & -> & _) & Hs & Hr & _).
    assert (READY_LIST (sched demo_waiting) = []) as E by by vm_compute.
    rewrite Hs, Hr, E. clear -Hi. cbn [waiters value] in *.
    destruct i as [|[|i]]; simpl in Hi; [|done..]. injection Hi as <-. done.
Defined.

(** ** A wakeup that is lost *)

(** [unblock] of a thread that is more important than the running one, when no other is ready:
    the caller is queued and the woken thread runs. *)
Lemma wp_unblock_preempts k w cw c (Q : unit -> Sched -> Prop) :
  level k = false -> IN_EXTERNAL_INTR k = false -> READY_LIST k = [] -> current k <> IDLE_THREAD k ->
  threads k !! 0 = None -> threads_good k -> w <> current k ->
  threads k !! w = Some cw -> status cw = Blocked -> threads k !! current k = Some c -> priority c < priority cw ->
  (forall k', current k' = w -> READY_LIST k' = [current k] -> level k' = false ->
     threads k' = <[w := set_status Running cw]> (<[current k := set_status Ready c]> (threads k)) ->
     konts k' = <[current k := KSetLevel false :: default [] (konts k !! current k)]> (konts k) -> Q tt k') ->
  wp (unblock w) k Q.
Proof.
  intros Hl Hi Hr Hid H0 Hg Hne Hw Hb Hc Hp HQ. unfold unblock. apply wp_bind.
  change (wp intr_disable k ?Q) with (Q (level k) (with_level false k)). cbv beta.
  apply wp_bind. eapply wp_deref; [exact Hw|]. apply wp_bind, wp_assert; [by apply bool_decide_eq_true|].
  apply wp_bind. eapply wp_upd_thread; [exact Hw|]. apply wp_bind, wp_modify, wp_bind, wp_gets. simpl. rewrite Hi, Hl.
  apply wp_bind, wp_gets. simpl. apply wp_bind. eapply wp_deref; [simpl; by rewrite lookup_insert_ne|].
  rewrite (proj2 (Z.ltb_lt _ _) Hp). apply wp_bind, wp_bind, wp_gets, wp_bind, wp_modify, wp_ret.
  unfold yield_current. apply wp_bind.
  match goal with |- wp intr_disable ?x _ => change (wp intr_disable x ?Q) with (Q (level x) (with_level false x)) end.
  cbv beta. apply wp_bind, wp_gets, wp_bind, wp_gets. simpl.
  apply wp_bind. eapply wp_upd_thread; [simpl; by rewrite lookup_insert_ne|].
  rewrite (proj2 (Z.eqb_neq _ _) Hid), Hr. simpl. apply wp_bind, wp_modify, wp_bind, wp_modify. set (k1 := with_konts _ _).
  assert (w <> 0) as Hw0 by congruence. assert (current k <> 0) as Hc0 by congruence.
  eapply (wp_schedule k1 (set_status Ready c)); simpl; try done.
  - by rewrite !lookup_insert_ne by done.
  - apply lookup_insert_eq.
  - intros t th. simpl. rewrite !lookup_insert. repeat case_decide; [intros [= <-]; exact (Hg _ c Hc)|intros [= <-]; exact (Hg _ cw Hw)|apply Hg].
  - intros t [->|[->|?%elem_of_nil]%elem_of_cons]%elem_of_cons; [| |done].
    + rewrite lookup_insert_ne, lookup_insert_eq by done. by eexists.
    + rewrite lookup_insert_eq. by eexists.
  - intros t rest th k' (i & Ht & -> & Hmax) Hth ->.
    assert (i = 0%nat) as ->.
    { destruct i as [|[|i]]; [done| |by destruct i]. injection Ht as <-. destruct (Hmax 0%nat w eq_refl) as [Hle _]. exfalso.
      unfold pri_of in Hle. simpl in Hle. rewrite lookup_insert_eq, (lookup_insert_ne _ (current k) w), lookup_insert_eq in Hle by done. simpl in Hle. lia. }
    injection Ht as <-. rewrite lookup_insert_ne, lookup_insert_eq in Hth by done. injection Hth as <-. apply HQ; try done.
    simpl. apply map_eq. intros x. rewrite !lookup_insert. by repeat case_decide.
Qed.

(** The thread goes on in the loop of [down], finds the value still 0 and waits again. *)
Lemma wp_waits_again k s ws old fs cw c cur (Q : unit -> Kernel -> Prop) :
  semas k !! s = Some (mkSema 0 ws) -> level (sched k) = false -> READY_LIST (sched k) = [cur] ->
  threads (sched k) !! 0 = None -> threads_good (sched k) -> cur <> current (sched k) ->
  threads (sched k) !! current (sched k) = Some cw -> threads (sched k) !! cur = Some c ->
  konts (sched k) !! current (sched k) = Some (KDown s old :: fs) ->
  (forall k', semas k' = <[s := mkSema 0 (ws ++ [current (sched k)])]> (semas k) ->
     current (sched k') = cur -> READY_LIST (sched k') = [] ->
     has_status (sched k') (current (sched k)) Blocked -> konts (sched k') !! cur = konts (sched k) !! cur -> Q tt k') ->
  wp resume k Q.
Proof.
  intros Hs Hl Hr H0 Hg Hne Hw Hc Hk HQ. set (w := current (sched k)) in *.
  unfold resume, wp at 1, top_frame. fold w. rewrite Hk. change (wp (exec_frame (KDown s old)) (pop_frame k) Q). simpl exec_frame.
  unfold down_loop. apply wp_bind. unfold get_sema, wp at 1. simpl. rewrite Hs. simpl.
  apply wp_bind, wp_zoom, wp_gets, wp_bind, wp_modify, wp_zoom, wp_bind, wp_modify. simpl.
  unfold block. apply wp_bind, wp_gets, wp_bind, wp_assert; [simpl; by rewrite Hl|]. apply wp_bind, wp_gets, wp_bind.
  eapply wp_upd_thread; [simpl; exact Hw|]. set (k1 := with_threads _ _).
  assert (w <> 0) as Hw0 by congruence.
  eapply (wp_schedule k1 (set_status Blocked cw)); simpl; try done.
  - by rewrite lookup_insert_ne.
  - apply lookup_insert_eq.
  - intros t th. simpl. rewrite lookup_insert. case_decide; [intros [= <-]; exact (Hg _ cw Hw)|apply Hg].
  - by rewrite Hr.
  - intros t. rewrite Hr. intros ->%list_elem_of_singleton. rewrite lookup_insert_ne by done. by eexists.
  - rewrite Hr. intros t rest th k' (i & Ht & -> & _) Hth ->. destruct i as [|i]; [|by destruct i]. injection Ht as <-.
    apply HQ; try done.
    + exists (set_status Blocked cw). simpl. rewrite lookup_insert_ne by done. by rewrite lookup_insert_eq.
    + simpl. rewrite lookup_insert_ne by done. by rewrite lookup_alter_ne by done.
Qed.

(** C39: [Semaphore::up] loses the wakeup of a waiter that is more important than its caller.  In a
    state of the scheduler that satisfies its invariant, outside of interrupt handlers, with no other
    thread ready, let the semaphore's value be 0 and let the waiter that [up] picks (of those in
    the queue the highest priority, first come first served) be blocked in [down], with a
    priority above the caller's.  [up] wakes it before it increments the value, and the woken
    thread runs at once; it finds the value still 0 and waits again; then the caller goes on and
    increments the value.  In the end the caller runs, the value is 1, and the thread is blocked
    in the queue although nobody is left to wake it: no thread is ready. *)
Theorem up_loses_wakeup (s : Z) (k : Kernel) (ws rest : list Z) (w : Z) (old : bool) (fs : list frame) :
  kernel_ok k -> threads_good (sched k) -> IN_EXTERNAL_INTR (sched k) = false ->
  current (sched k) <> IDLE_THREAD (sched k) -> READY_LIST (sched k) = [] ->
  semas k !! s = Some (mkSema 0 ws) -> (forall t, t ∈ ws -> has_status (sched k) t Blocked) ->
  chosen (sched k) ws w rest -> pri_of (sched k) (current (sched k)) < pri_of (sched k) w ->
  konts (sched k) !! w = Some (KDown s old :: fs) ->
  wp (up s ;; resume ;; resume ;; resume) k (fun _ k' =>
    current (sched k') = current (sched k) /\ READY_LIST (sched k') = [] /\
    semas k' !! s = Some (mkSema 1 (rest ++ [w])) /\ has_status (sched k') w Blocked).
Proof.
  intros [Hi Hr] Hg Hin Hid Hrl Hs Hb Hch Hp Hk. destruct (r_cur _ Hr) as (c & Hc & Hcs & _). set (cur := current (sched k)) in *.
  apply wp_bind. eapply wp_up_waiter; [exact Hs| |exact Hg| |].
  { destruct Hch as (i & Hx & _). by destruct ws. }
  { intros t Ht. destruct (Hb t Ht) as (th & ? & _). by exists th. }
  simpl. intros w' rest' Hch'.
  assert (w' = w /\ rest' = rest) as [-> ->].
  { destruct Hch as (i & Hx & -> & Hm), Hch' as (j & Hy & -> & Hm'). destruct (Nat.lt_trichotomy i j) as [Hlt|[->|Hlt]].
    - destruct (Hm' i w Hx) as [_ H1], (Hm j w' Hy) as [H2 _]. specialize (H1 Hlt). lia.
    - split; [congruence|done].
    - destruct (Hm j w' Hy) as [_ H1], (Hm' i w Hx) as [H2 _]. specialize (H1 Hlt). lia. }
  assert (w ∈ ws) as Hws by (destruct Hch as (i & Hx & _); by eapply list_elem_of_lookup_2).
  destruct (Hb w Hws) as (cw & Hw & Hbw). assert (w <> cur) as Hne by congruence.
  apply wp_zoom, wp_bind, wp_modify. simpl.
  assert (priority c < priority cw) as Hlt by (unfold pri_of in Hp; by rewrite Hc, Hw in Hp).
  eapply wp_unblock_preempts; simpl; try done; [apply (i_null _ _ Hi)|]. fold cur.
  intros k2 E1 E2 E3 E4 E5. rewrite lookup_insert_eq in E5. simpl in E5.
  assert (w <> 0 /\ cur <> 0) as [Hw0 Hc0] by (pose proof (i_null _ _ Hi); split; congruence).
  apply wp_bind. eapply (wp_waits_again _ s rest old fs (set_status Running cw) (set_status Ready c) cur); simpl; rewrite ?E1, ?E4, ?E5; try done.
  - apply lookup_insert_eq.
  - by rewrite !lookup_insert_ne by (done || congruence); apply (i_null _ _ Hi).
  - intros t th. rewrite E4, !lookup_insert. repeat case_decide; [intros [= <-]; exact (Hg _ cw Hw)|intros [= <-]; exact (Hg _ c Hc)|apply Hg].
  - apply lookup_insert_eq.
  - rewrite lookup_insert_ne by done. apply lookup_insert_eq.
  - rewrite !lookup_insert_ne by congruence. exact Hk.
  - intros k3 F1 F2 F3 F4 F5. rewrite lookup_insert_eq in F5.
    assert (semas k3 !! s = Some (mkSema 0 (rest ++ [w]))) as Hs3 by (rewrite F1; apply lookup_insert_eq).
    clear -F2 F3 F4 F5 Hs3.
    unfold wp, bind, resume at 1, top_frame. rewrite F2, F5. simpl.
    unfold resume, top_frame. simpl. rewrite F2, lookup_alter_eq, F5. simpl.
    unfold up_tail, bind, get_sema. simpl. rewrite Hs3. simpl.
    assert (forall b (kk : Sched), intr_set_level b kk = Ok (level kk) (with_level b kk)) as Hsl by by intros [].
    unfold sch, zoom. rewrite Hsl. simpl. split_and!; [done|done|apply lookup_insert_eq|exact F4].
Qed.

(** A thread of priority 41 waits on the semaphore; main, of priority 31, runs. *)
Definition demo_urgent : Kernel :=
  run_from [ECall (CCreate 0x2000 [104; 105] 41); EResume; ECall (CDown 0x600); EResume] demo_sync.

Lemma demo_urgent_ok : kernel_ok demo_urgent.
Proof.
  unfold demo_urgent, run_from. destruct (run _ demo_sync) as [[] k'| | |] eqn:E; [|exact demo_sync_ok..].
  by eapply (run_ok _ demo_sync); [exact demo_sync_ok|exact E].
Qed.

Lemma up_loses_wakeup_witness :
  wp (up 0x600 ;; resume ;; resume ;; resume) demo_urgent (fun _ k' =>
    semas k' !! 0x600 = Some (mkSema 1 [0x2000]) /\ has_status (sched k') 0x2000 Blocked /\ READY_LIST (sched k') = []).
Proof.
  eapply wp_mono.
  - apply (up_loses_wakeup 0x600 demo_urgent [0x2000] [] 0x2000 true [KBody; KExit]).
    + exact demo_urgent_ok.
    + apply check_threads_good. by vm_compute.
    + by vm_compute.
    + by vm_compute.
    + by vm_compute.
    + by vm_compute.
    + intros t ->%list_elem_of_singleton. vm_compute. by eexists.
    + exists 0%nat. split_and!; [done|done|]. intros [|j] y Hy; [|by destruct j]. injection Hy as <-. split; lia.
    + by vm_compute.
    + by vm_compute.
  - intros [] k' (_ & H1 & H2 & H3). done.
Defined.

(** The same from the start, with a lock.  Main (priority 31)
    holds the lock at 0x700; a thread of priority 41 is created, tries to acquire the lock,
    donates its priority to main and blocks.  Main releases the lock.  [up] calls [unblock]
    before it increments the value, [unblock] switches to the woken thread because its priority
    is higher, that thread finds the value still 0 and waits again.  When main goes on it sets
    the value to 1.  In the end nobody holds the lock and its value is 1, but the thread is
    still Blocked in its queue and the ready list is empty. *)
Example release_loses_wakeup :
  match run [ECall (CAcquire 0x700); EResume;          (* main takes the lock *)
             ECall (CCreate 0x2000 [104; 105] 41);     (* the new thread preempts main *)
             EResume;                                  (* it enters its function *)
             ECall (CAcquire 0x700);                   (* donates, blocks; main runs again *)
             EResume; ECall (CRelease 0x700);          (* main releases; the thread runs *)
             EResume;                                  (* ... and blocks again; main runs *)
             EResume; EResume]                         (* main finishes [up] *)
            demo_sync with
  | Ok _ k' =>
      current (sched k') = 0x1000 /\ top_frame k' = Some KBody /\
      holders k' !! 0x700 = Some 0 /\
      semas k' !! 0x700 = Some (mkSema 1 [0x2000]) /\
      (status <$> threads (sched k') !! 0x2000) = Some Blocked /\
      READY_LIST (sched k') = []
  | _ => False
  end.
Proof. vm_compute. by repeat split. Qed.
