(* ===== verification/TimerProofs.v ===== *)
(** The sleep queue (src/devices/timer.rs), priority donation and signals
    (src/thread/mod.rs). *)
From S2P Require Import Prelude FreeMap Inode Memory Thread Sync SchedProofs Machine SchedTotal.

(** ** The sleep queue *)
Definition sleep_sorted (l : list SleepEntry) : Prop :=
  forall i j a b, (i <= j)%nat -> l !! i = Some a -> l !! j = Some b -> wakeup_tick a <= wakeup_tick b.

Lemma sleep_sorted_cons e l :
  sleep_sorted (e :: l) <-> sleep_sorted l /\ forall x, x ∈ l -> wakeup_tick e <= wakeup_tick x.
Proof.
  split.
  - intros H. split.
    + intros i j a b Hij Ha Hb. apply (H (S i) (S j)); [lia|done|done].
    + intros x [j Hj]%list_elem_of_lookup. apply (H 0%nat (S j)); [lia|done|done].
  - intros [Hl He] [|i] [|j] a b Hij Ha Hb; simpl in *; try lia.
    + injection Ha as <-. injection Hb as <-. lia.
    + injection Ha as <-. apply He. by eapply list_elem_of_lookup_2.
    + apply (Hl i j); [lia|done|done].
Qed.

(** Insertion, as a recursion. *)
Lemma sleep_insert_cons e x l :
  sleep_insert e (x :: l) =
    if wakeup_tick e <? wakeup_tick x then e :: x :: l else x :: sleep_insert e l.
Proof.
  unfold sleep_insert. simpl. destruct (wakeup_tick e <? wakeup_tick x); simpl; [done|].
  by destruct (find_index _ l).
Qed.

Lemma elem_sleep_insert e l x : x ∈ sleep_insert e l <-> x = e \/ x ∈ l.
Proof.
  induction l as [|y l IH].
  - unfold sleep_insert. simpl. rewrite list_elem_of_singleton, elem_of_nil. tauto.
  - rewrite sleep_insert_cons. case_match; rewrite !elem_of_cons; [done|]. rewrite IH. tauto.
Qed.

Lemma sleep_insert_sorted e l : sleep_sorted l -> sleep_sorted (sleep_insert e l).
Proof.
  induction l as [|x l IH]; intros Hl.
  - apply sleep_sorted_cons. split; [done|]. by intros x ?%elem_of_nil.
  - rewrite sleep_insert_cons. destruct (Z.ltb_spec (wakeup_tick e) (wakeup_tick x)).
    + apply sleep_sorted_cons. split; [done|]. apply sleep_sorted_cons in Hl as [Hl Hx].
      intros y [->|Hy]%elem_of_cons; [lia|]. specialize (Hx y Hy). lia.
    + apply sleep_sorted_cons in Hl as [Hl Hx]. apply sleep_sorted_cons. split; [by apply IH|].
      intros y [->|Hy]%elem_sleep_insert; [lia|by apply Hx].
Qed.

(** The entries that are due, and the rest. *)
Definition due (now : Z) (e : SleepEntry) : bool := wakeup_tick e <=? now.

Lemma sorted_split now l : sleep_sorted l ->
  exists d r, l = d ++ r /\ Forall (fun e => due now e = true) d /\ Forall (fun e => due now e = false) r.
Proof.
  induction l as [|e l IH]; intros Hs; [by exists [], []|].
  apply sleep_sorted_cons in Hs as [Hs He]. destruct (due now e) eqn:E.
  - destruct (IH Hs) as (d & r & -> & Hd & Hr). exists (e :: d), r. by repeat constructor.
  - exists [], (e :: l). split_and!; [done|constructor|]. constructor; [done|].
    apply Forall_forall. intros x Hx. specialize (He x Hx). unfold due in *.
    apply Z.leb_gt in E. apply Z.leb_gt. lia.
Qed.

(** [unblock] inside an interrupt handler: the thread becomes ready, nothing else happens. *)
Lemma wp_unblock_intr t th k (Q : unit -> Sched -> Prop) :
  IN_EXTERNAL_INTR k = true -> level k = false -> threads k !! t = Some th -> status th = Blocked ->
  Q tt (with_ready (READY_LIST k ++ [t]) (with_threads (<[t := set_status Ready th]> (threads k)) k)) ->
  wp (unblock t) k Q.
Proof.
  intros Hi Hl Ht Hs HQ. unfold unblock. apply wp_bind.
  change (wp intr_disable k ?Q) with (Q (level k) (with_level false k)). cbv beta.
  apply wp_bind. eapply wp_deref; [exact Ht|]. apply wp_bind, wp_assert; [by apply bool_decide_eq_true|].
  apply wp_bind. eapply wp_upd_thread; [exact Ht|]. apply wp_bind, wp_modify, wp_bind, wp_gets.
  simpl. rewrite Hi, Hl. apply wp_bind, wp_bind, wp_gets, wp_bind, wp_modify. do 2 apply wp_ret.
  destruct k; simpl in *. by subst.
Qed.

Lemma wp_wake_loop d r now k :
  IN_EXTERNAL_INTR (sched k) = true -> level (sched k) = false ->
  Forall (fun e => due now e = true) d -> Forall (fun e => due now e = false) r ->
  NoDup (thread <$> d) -> (forall e, e ∈ d -> has_status (sched k) (thread e) Blocked) ->
  wp (wake_loop (d ++ r) now) (with_timer (TICKS k) (d ++ r) k) (fun _ k' =>
    SLEEP_LIST k' = r /\ TICKS k' = TICKS k /\ current (sched k') = current (sched k) /\
    READY_LIST (sched k') = READY_LIST (sched k) ++ (thread <$> d) /\
    (forall e, e ∈ d -> has_status (sched k') (thread e) Ready) /\
    (forall t, t ∉ thread <$> d -> threads (sched k') !! t = threads (sched k) !! t)).
Proof.
  intros Hi Hl Hd Hr Hnd Hb. revert k Hi Hl Hb. induction d as [|e d IH]; intros k Hi Hl Hb.
  - simpl. assert (wake_loop r now = ret tt) as ->.
    { destruct r as [|x r]; [done|]. apply Forall_cons in Hr as [Hx _]. simpl.
      unfold due in Hx. apply Z.leb_gt in Hx. by rewrite (proj2 (Z.ltb_lt _ _) Hx). }
    apply wp_ret. simpl. rewrite app_nil_r. split_and!; try done. by intros e ?%elem_of_nil.
  - apply Forall_cons in Hd as [He Hd]. cbn [fmap list_fmap] in *. apply NoDup_cons in Hnd as [Hn Hnd].
    simpl. unfold due in He. apply Z.leb_le in He. rewrite (proj2 (Z.ltb_ge _ _) He).
    apply wp_bind, wp_modify, wp_bind, wp_zoom.
    destruct (Hb e ltac:(left)) as (th & Hth & Hs).
    eapply wp_unblock_intr; [exact Hi|exact Hl|exact Hth|exact Hs|].
    set (k1 := with_sched _ _).
    assert (k1 = with_timer (TICKS k1) (d ++ r) k1) as -> by done.
    assert (forall x, x <> thread e -> threads (sched k1) !! x = threads (sched k) !! x) as Hne
      by (intros x Hx; simpl; by rewrite lookup_insert_ne).
    eapply wp_mono; [apply (IH Hd Hnd k1); try done|].
    + intros x Hx. assert (thread x <> thread e) as Hte.
      { intros E. apply Hn. rewrite <- E. by apply list_elem_of_fmap_2. }
      destruct (Hb x ltac:(by right)) as (thx & Hthx & Hsx). exists thx. by rewrite Hne.
    + intros [] k' (H1 & H2 & H3 & H4 & H5 & H6). split_and!; try done.
      * rewrite H4. simpl. by rewrite <- app_assoc.
      * intros x [->|Hx]%elem_of_cons; [|by apply H5].
        exists (set_status Ready th). rewrite H6 by done. simpl. by rewrite lookup_insert_eq.
      * intros t Ht. rewrite H6 by (intros ?; apply Ht; by right). apply Hne.
        intros ->. apply Ht. left.
Qed.

(** Sleeping threads wake on time.  In the timer interrupt, with the sleep list sorted and
    holding distinct Blocked threads, [wake_sleeping_threads] removes exactly the entries whose
    time has come, makes exactly those threads Ready and queues them in order of wake-up time,
    and leaves every other thread and every later entry alone; [timer_sleep]'s insertion keeps
    the list sorted and adds exactly the new entry. *)
Theorem sleep_queue_correct (k : Kernel) (e0 : SleepEntry) :
  IN_EXTERNAL_INTR (sched k) = true -> level (sched k) = false ->
  sleep_sorted (SLEEP_LIST k) -> NoDup (thread <$> SLEEP_LIST k) ->
  (forall e, e ∈ SLEEP_LIST k -> has_status (sched k) (thread e) Blocked) ->
  wp wake_sleeping_threads k (fun _ k' => exists d,
    SLEEP_LIST k = d ++ SLEEP_LIST k' /\
    Forall (fun e => wakeup_tick e <= TICKS k) d /\
    Forall (fun e => TICKS k < wakeup_tick e) (SLEEP_LIST k') /\
    READY_LIST (sched k') = READY_LIST (sched k) ++ (thread <$> d) /\
    (forall e, e ∈ d -> has_status (sched k') (thread e) Ready) /\
    (forall t, t ∉ thread <$> d -> threads (sched k') !! t = threads (sched k) !! t)) /\
  sleep_sorted (sleep_insert e0 (SLEEP_LIST k)) /\
  (forall x, x ∈ sleep_insert e0 (SLEEP_LIST k) <-> x = e0 \/ x ∈ SLEEP_LIST k).
Proof.
  intros Hi Hl Hs Hnd Hb. split; [|split; [by apply sleep_insert_sorted|apply elem_sleep_insert]].
  destruct (sorted_split (TICKS k) _ Hs) as (d & r & E & Hd & Hr).
  unfold wake_sleeping_threads. apply wp_bind, wp_gets, wp_bind, wp_gets.
  assert (k = with_timer (TICKS k) (d ++ r) k) as Ek by (rewrite <- E; by destruct k).
  rewrite E in *. rewrite Ek at 2. rewrite fmap_app in Hnd. apply NoDup_app in Hnd as (Hnd & _ & _).
  eapply wp_mono; [apply (wp_wake_loop d r (TICKS k) k); try done|].
  { intros e He. apply Hb, elem_of_app. by left. }
  intros [] k' (H1 & _ & _ & H4 & H5 & H6). exists d. rewrite H1. split_and!; try done.
  - eapply Forall_impl; [exact Hd|]. intros x. apply Z.leb_le.
  - eapply Forall_impl; [exact Hr|]. intros x. apply Z.leb_gt.
Qed.

(** The waiting thread of the demonstration, asleep until tick 5 instead, at tick 7. *)
Definition demo_asleep : Kernel :=
  with_sched (with_intr true false (with_level false (sched demo_waiting)))
    (with_timer 7 [mkSleep 5 0x2000] demo_waiting).

Lemma sleep_queue_correct_witness :
  wp wake_sleeping_threads demo_asleep (fun _ k' =>
    exists d, [mkSleep 5 0x2000] = d ++ SLEEP_LIST k').
Proof.
  eapply wp_mono.
  - apply (sleep_queue_correct demo_asleep (mkSleep 6 0x4000)).
    + done.
    + done.
    + intros [|i] [|j] a b Hij Ha Hb; try by destruct i. injection Ha as <-. injection Hb as <-. done.
      by destruct j.
    + apply NoDup_singleton.
    + intros e ->%list_elem_of_singleton. vm_compute. by eexists.
  - intros [] k' (d & Hd & _). by exists d.
Defined.

(** ** Priority donation *)

(** Every thread that waits on a lock waits on one that exists, held by nobody or a thread. *)
Definition chain_ok (k : Kernel) : Prop :=
  forall t th, threads (sched k) !! t = Some th -> waiting_on_lock th <> 0 ->
    exists h, holders k !! waiting_on_lock th = Some h /\ (h = 0 \/ is_Some (threads (sched k) !! h)).

(** The holder of the lock that [t] waits for; 0 when there is none. *)
Definition next_holder (k : Kernel) (t : Z) : Z :=
  match threads (sched k) !! t with
  | Some th => if waiting_on_lock th =? 0 then 0 else default 0 (holders k !! waiting_on_lock th)
  | None => 0
  end.

(** The holder that comes [i] places behind [h] in the chain of holders. *)
Definition holder_at (k : Kernel) (h : Z) (i : nat) : Z := Nat.iter i (next_holder k) h.

(** Within [n] places, [t] is behind [h], and from [h] to [t] all priorities are below [pri]. *)
Definition receives (n : nat) (k : Kernel) (h pri t : Z) : Prop :=
  exists i, (i < n)%nat /\ holder_at k h i = t /\
    forall j, (j <= i)%nat -> holder_at k h j <> 0 /\ pri_of (sched k) (holder_at k h j) < pri.

(** [t] with the effective priority [pri]. *)
Definition promote (pri t : Z) (k : Kernel) : Kernel :=
  with_sched (with_threads (alter (fun th => set_prio pri (original_priority th) th) t (threads (sched k))) (sched k)) k.

Lemma holder_at_succ k h i : holder_at k h (S i) = holder_at k (next_holder k h) i.
Proof. unfold holder_at. by rewrite Nat.iter_succ_r. Qed.

Lemma next_promote pri t k x : next_holder (promote pri t k) x = next_holder k x.
Proof.
  unfold next_holder, promote. simpl. destruct (decide (x = t)) as [->|]; [|by rewrite lookup_alter_ne].
  rewrite lookup_alter_eq. by destruct (threads (sched k) !! t).
Qed.

Lemma holder_at_promote pri t k h i : holder_at (promote pri t k) h i = holder_at k h i.
Proof. unfold holder_at. induction i as [|i IH]; [done|]. simpl. by rewrite IH, next_promote. Qed.

Lemma pri_promote pri t k x : is_Some (threads (sched k) !! t) ->
  pri_of (sched (promote pri t k)) x = if decide (x = t) then pri else pri_of (sched k) x.
Proof.
  intros [th Ht]. unfold pri_of, promote. simpl. case_decide as Hx; [subst x|by rewrite lookup_alter_ne].
  by rewrite lookup_alter_eq, Ht.
Qed.

Lemma chain_ok_promote pri t k : chain_ok k -> chain_ok (promote pri t k).
Proof.
  intros Hc x th. unfold promote. simpl. rewrite lookup_alter. intros Hx Hw.
  assert (exists th0, threads (sched k) !! x = Some th0 /\ waiting_on_lock th = waiting_on_lock th0) as (th0 & H0 & Ew).
  { case_decide as E; [|by exists th]. subst x. destruct (threads (sched k) !! t) as [th0|]; [|done]. injection Hx as <-. by exists th0. }
  rewrite Ew in *. destruct (Hc x th0 H0 Hw) as (h & Hh & Hs). exists h. split; [done|].
  destruct Hs as [?|Hs]; [by left|right]. rewrite lookup_alter. destruct (decide (t = h)) as [<-|]; [|exact Hs]. by apply fmap_is_Some.
Qed.

(** The chain behind [h], when [h] has been served.  Around a cycle it ends at [h]. *)
Lemma receives_step n k h pri t :
  h <> 0 -> is_Some (threads (sched k) !! h) -> pri_of (sched k) h < pri ->
  receives (S n) k h pri t <-> t = h \/ receives n (promote pri h k) (next_holder k h) pri t.
Proof.
  intros Hz Hs Hp. set (k1 := promote pri h k).
  assert (forall i, holder_at k1 (next_holder k h) i = holder_at k h (S i)) as Eh.
  { intros i. unfold k1. by rewrite holder_at_promote, holder_at_succ. }
  split.
  - intros (i & Hi & Ht & Hj). revert Hi Ht Hj. induction (lt_wf i) as [i _ IH]. intros Hi Ht Hj.
    destruct i as [|i]; [by left|].
    destruct (decide (h ∈ (fun j => holder_at k h (S j)) <$> seq 0 (S i))) as [Hin|Hout].
    + apply list_elem_of_fmap in Hin as (j & Ej & Hin%elem_of_seq). apply (IH (i - j)%nat); [lia|lia| |].
      * rewrite <- Ht. unfold holder_at in *. rewrite Ej at 1. rewrite <- Nat.iter_add. f_equal. lia.
      * intros m Hm. apply Hj. lia.
    + right. exists i. split_and!; [lia|by rewrite Eh|]. intros j Hji. rewrite Eh. destruct (Hj (S j) ltac:(lia)) as [Hj0 Hj1].
      split; [done|]. unfold k1. rewrite pri_promote by done. case_decide as E; [|done]. exfalso. apply Hout, list_elem_of_fmap.
      exists j. split; [done|apply elem_of_seq; lia].
  - intros [->|(i & Hi & Ht & Hj)].
    + exists 0%nat. split_and!; [lia|done|]. intros j Hj. by replace j with 0%nat by lia.
    + exists (S i). split_and!; [lia|by rewrite <- Eh|]. intros [|j] Hji; [done|]. rewrite <- Eh.
      destruct (Hj j ltac:(lia)) as [H0 H1]. split; [done|]. unfold k1 in H1. rewrite pri_promote in H1 by done. case_decide; [lia|done].
Qed.

(** [k'] is [k] with the priority [pri] for the threads of [R]. *)
Definition promoted (R : Z -> Prop) (pri : Z) (k k' : Kernel) : Prop :=
  k' = with_sched (with_threads (threads (sched k')) (sched k)) k /\
  forall t, (R t -> threads (sched k') !! t = (fun th => set_prio pri (original_priority th) th) <$> threads (sched k) !! t) /\
            (~ R t -> threads (sched k') !! t = threads (sched k) !! t).

Lemma promoted_none (R : Z -> Prop) pri k : (forall t, ~ R t) -> promoted R pri k k.
Proof. intros H. split; [by destruct k as [[]]|]. intros t. split; [by intros ?%H|done]. Qed.

Lemma wp_donate n : forall k h pri,
  chain_ok k -> h = 0 \/ is_Some (threads (sched k) !! h) ->
  wp (donate_loop n h pri) k (fun _ k' => promoted (receives n k h pri) pri k k').
Proof.
  induction n as [|n IH]; intros k h pri Hc Ht; cbn [donate_loop].
  { apply wp_ret, promoted_none. intros t (i & Hi & _). lia. }
  destruct (Z.eqb_spec h 0) as [->|Hz].
  { apply wp_ret, promoted_none. intros t (i & Hi & _ & Hj). by destruct (Hj 0%nat ltac:(lia)). }
  destruct Ht as [?|[th Hth]]; [done|]. apply wp_bind, wp_zoom. eapply wp_deref; [exact Hth|].
  assert (with_sched (sched k) k = k) as -> by by destruct k.
  assert (pri_of (sched k) h = priority th) as Ep by (unfold pri_of; by rewrite Hth).
  destruct (Z.ltb_spec (priority th) pri) as [Hlt|Hge].
  2:{ apply wp_ret, promoted_none. intros t (i & Hi & _ & Hj). destruct (Hj 0%nat ltac:(lia)) as [_ H]. simpl in H. lia. }
  apply wp_bind, wp_zoom. eapply wp_upd_thread; [exact Hth|].
  match goal with |- wp _ ?x _ => assert (x = promote pri h k) as -> end.
  { unfold promote. by rewrite alter_alt, Hth. }
  assert (wp (donate_loop n (next_holder k h) pri) (promote pri h k)
    (fun _ k' => promoted (receives (S n) k h pri) pri k k')) as Hrest.
  { eapply wp_mono.
    - apply IH; [by apply chain_ok_promote|]. unfold next_holder. rewrite Hth. destruct (Z.eqb_spec (waiting_on_lock th) 0) as [|Hw]; [by left|].
      destruct (Hc h th Hth Hw) as (h' & -> & Hh'). simpl. destruct Hh' as [?|?]; [by left|right].
      unfold promote. simpl. rewrite lookup_alter. destruct (decide (h = h')) as [<-|]; [|done]. by apply fmap_is_Some.
    - intros [] k' [E H]. split; [rewrite E; by destruct k as [[]]|]. intros t. destruct (H t) as [H1 H2].
      assert (is_Some (threads (sched k) !! h)) as Hsome by (by eexists).
      rewrite (receives_step n k h pri t Hz Hsome) by lia. unfold promote in H1, H2. simpl in H1, H2. rewrite lookup_alter in H1, H2.
      assert (~ receives n (promote pri h k) (next_holder k h) pri h) as Hself.
      { intros (i & _ & Ei & Hj). destruct (Hj i ltac:(lia)) as [_ Hp]. rewrite Ei, pri_promote, decide_True in Hp by done. lia. }
      split.
      + intros [->|Hr].
        * rewrite (H2 Hself). by rewrite decide_True.
        * rewrite (H1 Hr). case_decide; [subst|done]. by rewrite Hth.
      + intros Hn. rewrite H2 by tauto. apply decide_False. intros ->. by apply Hn; left. }
  destruct (Z.eqb_spec (waiting_on_lock th) 0) as [Hw|Hw]; simpl negb; cbv iota.
  - apply wp_ret. unfold next_holder in Hrest. rewrite Hth, Hw in Hrest. simpl in Hrest.
    by destruct n; cbn [donate_loop] in Hrest; [|rewrite Z.eqb_refl in Hrest].
  - destruct (Hc h th Hth Hw) as (h' & Hh & _). apply wp_bind. unfold holder_raw, wp at 1. simpl. rewrite Hh.
    unfold next_holder in Hrest. rewrite Hth, (proj2 (Z.eqb_neq _ _) Hw), Hh in Hrest. exact Hrest.
Qed.

(** Nobody who waits for a lock, [d] apart, has a higher priority than its holder. *)
Definition honoured_but (d : Z) (k : Kernel) : Prop :=
  forall t, t <> d -> next_holder k t <> 0 -> pri_of (sched k) t <= pri_of (sched k) (next_holder k t).
Definition honoured (k : Kernel) : Prop :=
  forall t, next_holder k t <> 0 -> pri_of (sched k) t <= pri_of (sched k) (next_holder k t).

#[export] Instance receives_dec n k h pri t : Decision (receives n k h pri t).
Proof.
  refine (cast_if (decide (Exists (fun i => holder_at k h i = t /\
    Forall (fun j => holder_at k h j <> 0 /\ pri_of (sched k) (holder_at k h j) < pri) (seq 0 (S i))) (seq 0 n))));
    rewrite Exists_exists in *.
  - destruct e as (i & Hi%elem_of_seq & Ht & Hj). rewrite Forall_forall in Hj. exists i. split_and!; [lia|done|].
    intros j Hji. apply Hj, elem_of_seq. lia.
  - intros (i & Hi & Ht & Hj). destruct n0. exists i. split_and!; [apply elem_of_seq; lia|done|].
    apply Forall_forall. intros j [_ Hji]%elem_of_seq. apply Hj. lia.
Defined.

Section donated.
Context (k k' : Kernel) (h pri : Z) (Hc : chain_ok k) (Hp : promoted (receives 8 k h pri) pri k k').

Lemma promoted_next t : next_holder k' t = next_holder k t.
Proof.
  destruct Hp as [E H]. destruct (H t) as [H1 H2]. unfold next_holder. assert (holders k' = holders k) as -> by (by rewrite E).
  destruct (decide (receives 8 k h pri t)) as [Hr|Hr]; [rewrite H1 by done|by rewrite H2].
  by destruct (threads (sched k) !! t).
Qed.

Lemma promoted_pri t : is_Some (threads (sched k) !! t) ->
  pri_of (sched k') t = if decide (receives 8 k h pri t) then pri else pri_of (sched k) t.
Proof.
  intros [th Ht]. destruct Hp as [_ H]. destruct (H t) as [H1 H2]. unfold pri_of. case_decide as Hr; [rewrite H1 by done|by rewrite H2].
  by rewrite Ht.
Qed.

Lemma promoted_le t : is_Some (threads (sched k) !! t) -> pri_of (sched k) t <= pri_of (sched k') t.
Proof.
  intros Hs. rewrite promoted_pri by done. case_decide as Hr; [|lia]. destruct Hr as (i & _ & <- & Hj).
  destruct (Hj i ltac:(lia)). lia.
Qed.

(** The end of the chain is reached within eight places. *)
Definition reached : Prop := exists n, (n <= 8)%nat /\ (holder_at k h n = 0 \/ pri <= pri_of (sched k) (holder_at k h n)).

Lemma next_exists t : next_holder k t <> 0 -> is_Some (threads (sched k) !! t) /\ is_Some (threads (sched k) !! next_holder k t).
Proof.
  unfold next_holder. destruct (threads (sched k) !! t) as [th|] eqn:Et; [|done]. destruct (Z.eqb_spec (waiting_on_lock th) 0) as [|Hw]; [done|].
  destruct (Hc t th Et Hw) as (x & -> & [->|Hx]); [done|]. by split; [eexists|].
Qed.

(** Whoever waits for the next holder of the chain. *)
Lemma chain_served i : (i < 8)%nat \/ reached -> (i <= 8)%nat ->
  (forall j, (j < i)%nat -> holder_at k h j <> 0 /\ pri_of (sched k) (holder_at k h j) < pri) ->
  holder_at k h i <> 0 -> is_Some (threads (sched k) !! holder_at k h i) -> pri <= pri_of (sched k') (holder_at k h i).
Proof.
  intros Hi Hi8 Hj Hz Hs. destruct (decide (pri <= pri_of (sched k) (holder_at k h i))) as [Hle|Hlt].
  { pose proof (promoted_le _ Hs). lia. }
  assert (i < 8)%nat as Hlt8.
  { destruct Hi as [?|(n & Hn & He)]; [done|]. destruct (decide (i < 8)%nat); [done|]. assert (i = 8)%nat as -> by lia.
    destruct (decide (n < 8)%nat) as [Hn8|]; [destruct (Hj n Hn8), He; [done|lia]|]. assert (n = 8)%nat as -> by lia. destruct He; [done|lia]. }
  rewrite promoted_pri, decide_True; [done| |done]. exists i. split_and!; [done|done|]. intros j Hji.
  destruct (decide (j = i)) as [->|]; [split; [done|lia]|apply Hj; lia].
Qed.

Lemma donation_honours d :
  honoured_but d k -> next_holder k d = h -> pri_of (sched k) d = pri -> reached -> honoured k'.
Proof.
  intros Hon Hd Hpd Hre t. rewrite promoted_next. intros Hz. destruct (next_exists t Hz) as [Ht Hn].
  rewrite (promoted_pri t Ht). case_decide as Hr.
  - destruct Hr as (i & Hi & Ei & Hj). assert (next_holder k t = holder_at k h (S i)) as En by (by rewrite <- Ei).
    rewrite En in *. apply chain_served; [by right|lia| |done|done]. intros j Hji. apply Hj. lia.
  - destruct (decide (t = d)) as [->|Hne].
    + rewrite Hpd. rewrite Hd in *. apply (chain_served 0); [left; lia|lia|lia|done|done].
    + pose proof (Hon t Hne Hz). pose proof (promoted_le _ Hn). lia.
Qed.
End donated.

(** C37: priority donation, through nested locks.  Every lock that a thread waits for exists and is
    held by nobody or by a thread.  Donating the priority [pri] to the holder [h] of a lock
    always returns, also around a cycle of locks, and gives exactly these threads exactly the
    effective priority [pri]: [h], the holder of the lock that [h] waits for, the holder of the
    lock that this one waits for, and so on, for at most eight threads and up to the first
    that has at least [pri] already; no other thread and nothing else changes.  So if, apart from the
    donor, no thread had a higher priority than the holder of the lock it waits for, then this holds
    afterwards for all threads, the donor included, provided that the chain ends within eight
    places. *)
Theorem donation_nested (k : Kernel) (h pri : Z) :
  chain_ok k -> h = 0 \/ is_Some (threads (sched k) !! h) ->
  wp (donate_priority h pri) k (fun _ k' =>
    promoted (receives 8 k h pri) pri k k' /\
    forall d, honoured_but d k -> next_holder k d = h -> pri_of (sched k) d = pri -> reached k h pri -> honoured k').
Proof.
  intros Hc Ht. eapply wp_mono; [by apply wp_donate|]. intros [] k' Hp. split; [done|]. intros d. by apply donation_honours.
Qed.

(** A thread of priority 50 waits for the lock 0x710 of a second one, which waits for the lock
    0x700 of the first. *)
Definition nested_threads : gmap Z Thread :=
  match threads (sched demo_sync) !! 0x1000 with
  | Some th => <[0x1000 := th]> (<[0x2000 := set_waiting 0x700 th]> {[0x4000 := set_waiting 0x710 (set_prio 50 50 th)]})
  | None => ∅
  end.
Definition demo_nested : Kernel :=
  with_holders (<[0x700 := 0x1000]> {[0x710 := 0x2000]}) (with_sched (with_threads nested_threads (sched demo_sync)) demo_sync).

Lemma nested_are t : is_Some (nested_threads !! t) -> t = 0x1000 \/ t = 0x2000 \/ t = 0x4000.
Proof.
  unfold nested_threads. destruct (threads (sched demo_sync) !! 0x1000); [|by rewrite lookup_empty; intros [? ?]].
  rewrite !lookup_insert_is_Some, lookup_singleton_is_Some. lia.
Qed.

Lemma demo_chain_ok : chain_ok demo_nested.
Proof.
  intros t th Ht. destruct (nested_are t) as [->|[->| ->]]; [by eexists|..]; vm_compute in Ht; injection Ht as <-; vm_compute; [done|..];
    intros _; eexists; (split; [reflexivity|right; by eexists]).
Qed.

Lemma donation_nested_witness :
  wp (donate_priority 0x2000 50) demo_nested (fun _ k' =>
    pri_of (sched k') 0x2000 = 50 /\ pri_of (sched k') 0x1000 = 50 /\ honoured k').
Proof.
  eapply wp_mono; [apply (donation_nested demo_nested 0x2000 50 demo_chain_ok)|].
  - right. vm_compute. by eexists.
  - intros [] k' [[_ Hp] Hh]. split_and!.
    + destruct (Hp 0x2000) as [H _]. unfold pri_of. rewrite H; [by vm_compute|]. exists 0%nat. split_and!; [lia|done|].
      intros j Hj. by replace j with 0%nat by lia.
    + destruct (Hp 0x1000) as [H _]. unfold pri_of. rewrite H; [by vm_compute|]. exists 1%nat. split_and!; [lia|done|].
      intros [|[|j]] Hj; [by vm_compute|by vm_compute|lia].
    + apply (Hh 0x4000).
      * intros t Hne Hz. destruct (next_exists demo_nested demo_chain_ok t Hz) as [Ht _].
        destruct (nested_are t Ht) as [->|[->| ->]]; [by vm_compute in Hz|by vm_compute|done].
      * by vm_compute.
      * by vm_compute.
      * exists 2%nat. split; [lia|]. left. by vm_compute.
Defined.

(** ** Signals *)

(** Thread [t] is the process [id]. *)
Definition is_process (k : Sched) (id t : Z) : bool :=
  match threads k !! t with
  | Some th => (tid th =? id) && negb (pagedir th =? 0)
  | None => false
  end.

(** The default action of [sig] on [th] is to kill it. *)
Definition kills (sig : Z) (th : Thread) : bool :=
  (sig =? SIGKILL) || (negb (Z.testbit (sig_ignore th) sig) && negb (sig =? SIGCHLD)).

Definition signalled (sig t : Z) (th : Thread) (k : Sched) : Sched :=
  if kills sig th then with_threads (<[t := set_killed th]> (threads k)) k else k.

Lemma wp_deliver t sig k th (Q : unit -> Sched -> Prop) :
  threads k !! t = Some th -> 0 < sig <= 31 -> Q tt (signalled sig t th k) -> wp (deliver_signal t sig) k Q.
Proof.
  intros Ht Hs HQ. unfold deliver_signal, signalled, kills in *.
  destruct (sig =? SIGKILL); simpl in *; [by eapply wp_upd_thread|].
  apply wp_bind. eapply wp_deref; [exact Ht|]. rewrite FreeMap.land_bit by lia.
  destruct (Z.testbit (sig_ignore th) sig); simpl in *; [by apply wp_ret|].
  destruct (sig =? SIGCHLD); simpl in *; [by apply wp_ret|]. by eapply wp_upd_thread.
Qed.

(** The search loop of [send_signal]. *)
Lemma wp_find_process l id sig k (Q : option bool -> Sched -> Prop) :
  0 < sig <= 31 -> (forall t, t ∈ l -> is_Some (threads k !! t)) ->
  (forall t th, List.find (is_process k id) l = Some t -> threads k !! t = Some th ->
     Q (Some true) (signalled sig t th k)) ->
  (List.find (is_process k id) l = None -> Q None k) ->
  wp (for_ret l (fun t => let! th := deref t in
        if (tid th =? id) && negb (pagedir th =? 0)
        then deliver_signal t sig ;; ret (Some true) else ret None)) k Q.
Proof.
  intros Hs. induction l as [|t l IH]; intros Hl HS HN; simpl; [by apply wp_ret, HN|].
  destruct (Hl t ltac:(left)) as [th Ht]. apply wp_bind, wp_bind. eapply wp_deref; [exact Ht|].
  assert (is_process k id t = (tid th =? id) && negb (pagedir th =? 0)) as E
    by (unfold is_process; by rewrite Ht).
  simpl in HS, HN. rewrite E in HS, HN.
  destruct ((tid th =? id) && negb (pagedir th =? 0)).
  - apply wp_bind. eapply wp_deliver; [exact Ht|done|]. do 2 apply wp_ret. by apply (HS t th).
  - apply wp_ret. apply IH; [|done|done]. intros x Hx. apply Hl. by right.
Qed.

(** Signals.  [send_signal] reports whether a process with the given id exists; the first
    such process on the list is marked killed exactly when the signal is SIGKILL, or is neither
    ignored by it nor SIGCHLD; no other thread and no other field changes, and the interrupt
    level is restored.  In particular SIGKILL cannot be ignored. *)
Theorem send_signal_correct (k : Sched) (id sig : Z) :
  sched_ok k -> 0 < sig <= 31 ->
  wp (send_signal id sig) k (fun found k' =>
    match List.find (is_process k id) (ALL_LIST k) with
    | None => found = false /\ k' = k
    | Some t => found = true /\ exists th, threads k !! t = Some th /\ k' = signalled sig t th k
    end).
Proof.
  intros [Hi _] Hs. unfold send_signal.
  rewrite (proj2 (Z.eqb_neq sig 0)), (proj2 (Z.ltb_ge 31 sig)) by lia. simpl.
  apply wp_bind. change (wp intr_disable k ?Q) with (Q (level k) (with_level false k)). cbv beta.
  assert (forall b (kk : Sched), intr_set_level b kk = Ok (level kk) (with_level b kk)) as Hsl by by intros [].
  assert (forall t th, with_level (level k) (signalled sig t th (with_level false k)) = signalled sig t th k) as Hlv.
  { intros t th. unfold signalled. destruct (kills sig th); by destruct k. }
  apply wp_bind. unfold scan_all. apply wp_bind, wp_gets. apply wp_find_process; [done|apply Hi|..].
  - intros t th Hf Ht. simpl in Ht. change (is_process (with_level false k)) with (is_process k) in Hf.
    simpl in Hf. rewrite Hf. unfold wp, bind. rewrite Hsl, Hlv. simpl. split; [done|]. by exists th.
  - intros Hf. change (is_process (with_level false k)) with (is_process k) in Hf. simpl in Hf. rewrite Hf.
    unfold wp, bind. rewrite Hsl. simpl. split; [done|]. by destruct k.
Qed.

Lemma send_signal_correct_witness :
  wp (send_signal 1 SIGKILL) (sched demo_kernel) (fun found k' => found = false /\ k' = sched demo_kernel).
Proof.
  eapply wp_mono; [apply (send_signal_correct (sched demo_kernel) 1 SIGKILL)|].
  - exact demo_sched_ok.
  - done.
  - intros found k'.
    assert (List.find (is_process (sched demo_kernel) 1) (ALL_LIST (sched demo_kernel)) = None) as ->
      by by vm_compute.
    done.
Defined.
