(* ===== verification/Pipe.v ===== *)
(** Pipes (src/pipe.rs): a ring buffer of 512 bytes with counted read and write ends.

    The pipe's lock makes the code between two waits atomic, so [write] and [read] are modelled
    in segments: a segment runs from taking the lock to giving it up, which is either the end of
    the call or a wait on a condition variable, after which the same loop goes on.  The signals
    sent to the condition variables are recorded in [signals]. *)
From S2P Require Import Prelude.

Definition PIPE_SIZE : Z := 512.

Inductive cond : Set := NotEmpty | NotFull.

Record Pipe := mkPipe {
  p_buf : list Z;
  nread : Z;
  nwrite : Z;
  read_open : bool;
  write_open : bool;
  read_refcnt : Z;
  write_refcnt : Z;
  signals : list cond;
}.

(** [Pipe::new] *)
Definition new : Pipe := mkPipe (zeros PIPE_SIZE) 0 0 true true 1 1 [].

Definition with_buf (b : list Z) (p : Pipe) : Pipe :=
  mkPipe b (nread p) (nwrite p) (read_open p) (write_open p) (read_refcnt p) (write_refcnt p)
    (signals p).
Definition with_counts (r w : Z) (p : Pipe) : Pipe :=
  mkPipe (p_buf p) r w (read_open p) (write_open p) (read_refcnt p) (write_refcnt p) (signals p).
Definition with_read_end (o : bool) (n : Z) (p : Pipe) : Pipe :=
  mkPipe (p_buf p) (nread p) (nwrite p) o (write_open p) n (write_refcnt p) (signals p).
Definition with_write_end (o : bool) (n : Z) (p : Pipe) : Pipe :=
  mkPipe (p_buf p) (nread p) (nwrite p) (read_open p) o (read_refcnt p) n (signals p).

Definition signal (c : cond) : M Pipe unit :=
  modify (fun p => mkPipe (p_buf p) (nread p) (nwrite p) (read_open p) (write_open p)
                     (read_refcnt p) (write_refcnt p) (signals p ++ [c])).

(** How a segment ends: the call returns ([sigpipe]: SIGPIPE was sent to the caller), or it
    waits with [written] bytes done. *)
Inductive wres : Set := WDone (r : Z) (sigpipe : bool) | WWait (written : Z).
Inductive rres : Set := RDone (r : Z) (buf : list Z) | RWait.

(** The batch copy of [write]. *)
Definition put_bytes (data : list Z) (written n : Z) : M Pipe unit :=
  for_each (range 0 n) (fun i =>
    let! p := gets (fun p => p) in
    let! b := index data (written + i) in
    let! k := u32_add (nwrite p) i in
    let! buf := index_set (p_buf p) (k mod PIPE_SIZE) b in
    modify (with_buf buf)).

(** The outer loop of [write]; a turn that does not end the segment writes at least a byte. *)
Fixpoint write_loop (fuel : nat) (data : list Z) (written : Z) : M Pipe wres :=
  let len := Z.of_nat (List.length data) in
  if written <? len then
    match fuel with
    | O => fun _ => OutOfFuel
    | S fuel' =>
        let! p := gets (fun p => p) in
        let! lim := u32_add (nread p) PIPE_SIZE in
        if nwrite p =? lim then
          if negb (read_open p) then
            if written =? 0 then ret (WDone (-1) true) else ret (WDone (as_i32 written) false)
          else
            signal NotEmpty ;;
            ret (WWait written)
        else
          let! used := u32_sub (nwrite p) (nread p) in
          let! space := u32_sub PIPE_SIZE used in
          let n := Z.min (len - written) space in
          put_bytes data written n ;;
          let! w := u32_add (nwrite p) n in
          modify (with_counts (nread p) w) ;;
          write_loop fuel' data (written + n)
    end
  else
    signal NotEmpty ;;
    ret (WDone (as_i32 written) false).

(** A segment of [write], from the start ([written] = 0) or after a wait. *)
Definition write (data : list Z) (written : Z) : M Pipe wres :=
  write_loop (S (List.length data)) data written.

(** The batch copy of [read]. *)
Fixpoint get_bytes (idxs : list Z) (buf : list Z) : M Pipe (list Z) :=
  match idxs with
  | [] => ret buf
  | i :: idxs' =>
      let! p := gets (fun p => p) in
      let! k := u32_add (nread p) i in
      let! b := index (p_buf p) (k mod PIPE_SIZE) in
      let! buf := index_set buf i b in
      get_bytes idxs' buf
  end.

Definition read (buf : list Z) : M Pipe rres :=
  let! p := gets (fun p => p) in
  if nread p =? nwrite p then
    if negb (write_open p) then ret (RDone 0 buf) else ret RWait
  else
    let! available := u32_sub (nwrite p) (nread p) in
    let n := Z.min (Z.of_nat (List.length buf)) available in
    let! buf := get_bytes (range 0 n) buf in
    let! r := u32_add (nread p) n in
    modify (with_counts r (nwrite p)) ;;
    signal NotFull ;;
    ret (RDone (as_i32 n) buf).

Definition ref_read : M Pipe unit :=
  let! p := gets (fun p => p) in
  let! n := u32_add (read_refcnt p) 1 in
  modify (with_read_end (read_open p) n).

Definition ref_write : M Pipe unit :=
  let! p := gets (fun p => p) in
  let! n := u32_add (write_refcnt p) 1 in
  modify (with_write_end (write_open p) n).

(** [both_closed] *)
Definition both_closed (p : Pipe) : bool := negb (read_open p) && negb (write_open p).

Definition close_read : M Pipe bool :=
  let! p := gets (fun p => p) in
  let! n := u32_sub (read_refcnt p) 1 in
  modify (with_read_end (read_open p) n) ;;
  (if n =? 0 then modify (with_read_end false n) ;; signal NotFull else ret tt) ;;
  gets both_closed.

Definition close_write : M Pipe bool :=
  let! p := gets (fun p => p) in
  let! n := u32_sub (write_refcnt p) 1 in
  modify (with_write_end (write_open p) n) ;;
  (if n =? 0 then modify (with_write_end false n) ;; signal NotEmpty else ret tt) ;;
  gets both_closed.

(** ** The registry: [PIPES] and [NEXT_PIPE_ID] *)
Record Pipes := mkPipes { PIPES : gmap Z Pipe; NEXT_PIPE_ID : Z }.

Definition init_pipes : M Pipes unit := modify (fun ps => mkPipes ∅ (NEXT_PIPE_ID ps)).

Definition create_pipe : M Pipes Z :=
  let! id := gets NEXT_PIPE_ID in
  let! nxt := u32_add id 1 in
  modify (fun ps => mkPipes (<[id := new]> (PIPES ps)) nxt) ;;
  ret id.

(** Running code on the pipe [get_pipe] returns, if there is one. *)
Definition with_pipe {A} (id : Z) (m : M Pipe A) : M Pipes (option A) :=
  fun ps => match PIPES ps !! id with
            | None => Ok None ps
            | Some p =>
                match m p with
                | Ok a p' => Ok (Some a) (mkPipes (<[id := p']> (PIPES ps)) (NEXT_PIPE_ID ps))
                | Panic w => Panic w
                | UB w => UB w
                | OutOfFuel => OutOfFuel
                end
            end.

Definition destroy_pipe (id : Z) : M Pipes unit :=
  modify (fun ps => mkPipes (delete id (PIPES ps)) (NEXT_PIPE_ID ps)).

(** ** The bytes in a pipe *)
Record pipe_ok (p : Pipe) : Prop := {
  po_len : List.length (p_buf p) = Z.to_nat PIPE_SIZE;
  po_read : 0 <= nread p;
  po_used : nread p <= nwrite p <= nread p + PIPE_SIZE;
  po_ropen : read_open p = negb (read_refcnt p =? 0);
  po_wopen : write_open p = negb (write_refcnt p =? 0);
  po_rcnt : 0 <= read_refcnt p;
  po_wcnt : 0 <= write_refcnt p;
}.

Definition pending (p : Pipe) : list Z :=
  (fun i => byte_at (p_buf p) (i mod PIPE_SIZE)) <$> seqZ (nread p) (nwrite p - nread p).

Lemma new_ok : pipe_ok new.
Proof. by split. Qed.

(** The copy stores [data[written .. written+n]] behind the pending bytes. *)
Lemma wp_put_bytes data written n p (Q : unit -> Pipe -> Prop) :
  pipe_ok p -> 0 <= n <= PIPE_SIZE - (nwrite p - nread p) -> 0 <= written ->
  written + n <= Z.of_nat (List.length data) -> nwrite p + n < u32_lim ->
  (forall b, List.length b = List.length (p_buf p) ->
     (forall j, nread p <= j < nwrite p -> byte_at b (j mod PIPE_SIZE) = byte_at (p_buf p) (j mod PIPE_SIZE)) ->
     (forall i, 0 <= i < n -> byte_at b ((nwrite p + i) mod PIPE_SIZE) = byte_at data (written + i)) ->
     Q tt (with_buf b p)) ->
  wp (put_bytes data written n) p Q.
Proof.
  intros Hp Hn Hw Hd Hlim HQ. unfold put_bytes.
  apply (wp_for_range (fun i p' => exists b, p' = with_buf b p /\ List.length b = List.length (p_buf p) /\
    (forall j, nread p <= j < nwrite p -> byte_at b (j mod PIPE_SIZE) = byte_at (p_buf p) (j mod PIPE_SIZE)) /\
    (forall k, 0 <= k < i -> byte_at b ((nwrite p + k) mod PIPE_SIZE) = byte_at data (written + k)))); [lia|..].
  - exists (p_buf p). split_and!; try done; [by destruct p|lia].
  - intros i p' Hi (b & -> & Hl & Hold & Hnew). apply wp_bind, wp_gets.
    apply wp_bind. eapply (wp_index _ _ (byte_at data (written + i))); [lia| |].
    { apply byte_at_lookup. lia. }
    apply wp_bind, wp_u32_add; [simpl; lia|]. simpl.
    pose proof (Z.mod_pos_bound (nwrite p + i) PIPE_SIZE ltac:(done)) as Hm.
    pose proof (po_len _ Hp) as Hpl. pose proof (po_used _ Hp) as Hpu.
    assert (forall j, nread p <= j < nwrite p + i -> j mod PIPE_SIZE <> (nwrite p + i) mod PIPE_SIZE) as Hne.
    { intros j Hj E. unfold PIPE_SIZE in *. Z.div_mod_to_equations. lia. }
    apply wp_bind, wp_index_set; [rewrite Hl, Hpl; unfold PIPE_SIZE in *; lia|].
    apply wp_modify. eexists. split; [done|]. rewrite length_insert. split_and!; [done|..].
    + intros j Hj. rewrite byte_at_insert by (rewrite ?Hl, ?Hpl; unfold PIPE_SIZE in *; Z.div_mod_to_equations; lia).
      rewrite decide_False by (apply Hne; lia). by apply Hold.
    + intros k Hk. rewrite byte_at_insert by (rewrite ?Hl, ?Hpl; unfold PIPE_SIZE in *; Z.div_mod_to_equations; lia).
      destruct (decide (k = i)) as [->|]; [by rewrite decide_True|].
      rewrite decide_False by (apply Hne; pose proof (po_used _ Hp); lia). apply Hnew. lia.
  - intros p' (b & -> & Hl & Hold & Hnew). by apply HQ.
Qed.

Lemma pending_length p : pipe_ok p -> Z.of_nat (List.length (pending p)) = nwrite p - nread p.
Proof. intros []. unfold pending. rewrite length_fmap, length_seqZ. lia. Qed.

(** Bytes appended behind the pending ones. *)
Lemma pending_app p b n data written :
  pipe_ok p -> 0 <= n -> 0 <= written -> written + n <= Z.of_nat (List.length data) ->
  (forall j, nread p <= j < nwrite p -> byte_at b (j mod PIPE_SIZE) = byte_at (p_buf p) (j mod PIPE_SIZE)) ->
  (forall i, 0 <= i < n -> byte_at b ((nwrite p + i) mod PIPE_SIZE) = byte_at data (written + i)) ->
  pending (with_counts (nread p) (nwrite p + n) (with_buf b p)) = pending p ++ slice written n data.
Proof.
  intros [] Hn Hw Hd Hold Hnew. unfold pending. simpl.
  replace (nwrite p + n - nread p) with ((nwrite p - nread p) + n) by lia.
  rewrite seqZ_app by lia. rewrite fmap_app. f_equal.
  - apply list_fmap_ext. intros i j Hj. apply lookup_seqZ in Hj as [-> Hj]. apply Hold. lia.
  - apply list_eq. intros i. rewrite list_lookup_fmap.
    destruct (decide (Z.of_nat i < n)) as [Hi|Hi].
    + rewrite lookup_seqZ_lt by lia. simpl. rewrite lookup_slice by lia.
      replace (nread p + (nwrite p - nread p) + Z.of_nat i) with (nwrite p + Z.of_nat i) by lia.
      rewrite Hnew by lia. pose proof (byte_at_lookup data (written + Z.of_nat i) ltac:(lia)) as E.
      rewrite <- E. f_equal. lia.
    + rewrite lookup_seqZ_ge by lia. simpl. symmetry. apply lookup_ge_None_2.
      rewrite slice_length; lia.
Qed.

(** The ends of the pipe are as before. *)
Definition same_ends (p p' : Pipe) : Prop :=
  read_open p' = read_open p /\ write_open p' = write_open p /\
  read_refcnt p' = read_refcnt p /\ write_refcnt p' = write_refcnt p.

(** What a segment of [write] does, from [written] bytes done to [m]. *)
Definition write_post (data : list Z) (written : Z) (p : Pipe) (r : wres) (p' : Pipe) : Prop :=
  let len := Z.of_nat (List.length data) in
  pipe_ok p' /\ nread p' = nread p /\ same_ends p p' /\
  exists m, written <= m <= len /\ pending p' = pending p ++ slice written (m - written) data /\
    match r with
    | WDone x sp =>
        (m = len /\ x = len /\ sp = false) \/
        (m < len /\ read_open p = false /\ nwrite p' = nread p' + PIPE_SIZE /\
           x = (if m =? 0 then -1 else m) /\ sp = (m =? 0))
    | WWait w => w = m /\ m < len /\ read_open p = true /\ nwrite p' = nread p' + PIPE_SIZE
    end.

Lemma wp_signal c p (Q : unit -> Pipe -> Prop) :
  (forall p', pending p' = pending p -> pipe_ok p -> pipe_ok p' -> nread p' = nread p -> nwrite p' = nwrite p ->
     same_ends p p' -> Q tt p') ->
  pipe_ok p -> wp (signal c) p Q.
Proof. intros HQ Hp. apply wp_modify, HQ; try done. by destruct Hp. Qed.

Lemma wp_pipe_write_loop fuel : forall data written p,
  pipe_ok p -> 0 <= written <= Z.of_nat (List.length data) -> Z.of_nat (List.length data) <= i32_max ->
  nread p + PIPE_SIZE < u32_lim -> Z.of_nat (List.length data) - written < Z.of_nat fuel ->
  wp (write_loop fuel data written) p (write_post data written p).
Proof.
  induction fuel as [|fuel IH]; intros data written p Hp Hw Hl31 Hlim Hf; [lia|]. simpl.
  set (len := Z.of_nat (List.length data)) in *. pose proof (po_used _ Hp) as Hu.
  pose proof (po_read _ Hp) as Hr0.
  assert (forall r p', pipe_ok p' -> pending p' = pending p -> nread p' = nread p ->
    nwrite p' = nwrite p -> same_ends p p' ->
    match r with
    | WDone x sp =>
        (written = len /\ x = len /\ sp = false) \/
        (written < len /\ read_open p = false /\ nwrite p' = nread p' + PIPE_SIZE /\
           x = (if written =? 0 then -1 else written) /\ sp = (written =? 0))
    | WWait w => w = written /\ written < len /\ read_open p = true /\ nwrite p' = nread p' + PIPE_SIZE
    end -> write_post data written p r p') as Hstop.
  { intros r p' Hp' Hpe Hr Hwr Hse Hres. unfold write_post. fold len. split_and!; try done.
    exists written. rewrite Z.sub_diag, slice_nil, app_nil_r. split_and!; try done; lia. }
  destruct (Z.ltb_spec written len) as [Hlt|Hge].
  2:{ apply wp_bind, wp_signal; [|done]. intros p' Hpe _ Hp' Hr Hwr Hse. apply wp_ret, Hstop; try done.
      rewrite as_i32_small by lia. left. split_and!; lia || done. }
  apply wp_bind, wp_gets, wp_bind, wp_u32_add; [lia|].
  destruct (Z.eqb_spec (nwrite p) (nread p + PIPE_SIZE)) as [Hfull|Hnf].
  - destruct (read_open p) eqn:Ero; simpl.
    + apply wp_bind, wp_signal; [|done]. intros p' Hpe _ Hp' Hr Hwr Hse.
      apply wp_ret, Hstop; try done. split_and!; congruence || done.
    + destruct (Z.eqb_spec written 0) as [E|E]; apply wp_ret, Hstop; try done; right;
        rewrite ?as_i32_small by lia; by split_and!.
  - apply wp_bind, wp_u32_sub; [lia|]. apply wp_bind, wp_u32_sub; [unfold PIPE_SIZE in *; lia|].
    set (n := Z.min _ _). assert (0 < n <= PIPE_SIZE - (nwrite p - nread p) /\ n <= len - written) as [Hn1 Hn2] by lia.
    apply wp_bind, wp_put_bytes; [done|lia|lia|fold len; lia|lia|].
    intros b Hbl Hold Hnew. apply wp_bind, wp_u32_add; [lia|].
    apply wp_bind, wp_modify. set (p1 := with_counts _ _ _).
    assert (pipe_ok p1) as Hp1.
    { destruct Hp. split; simpl; try done; [congruence|lia]. }
    assert (pending p1 = pending p ++ slice written n data) as Hpe
      by (apply pending_app; try done; fold len; lia).
    eapply wp_mono; [apply (IH data (written + n) p1); try done; fold len; lia|].
    intros r p' (Hp' & Hr & Hse & m & Hm & Hpe' & Hres). unfold write_post. fold len in Hm, Hres |- *.
    split_and!; try done. exists m. split_and!; [lia|lia| |done].
    rewrite Hpe', Hpe, <- app_assoc. f_equal.
    replace (m - written) with (n + (m - (written + n))) by lia. by rewrite slice_split by lia.
Qed.

(** ** Reading *)
Lemma wp_get_bytes n p buf (Q : list Z -> Pipe -> Prop) :
  pipe_ok p -> 0 <= n <= Z.of_nat (List.length buf) -> nread p + n < u32_lim ->
  (forall buf', List.length buf' = List.length buf ->
     (forall k, 0 <= k -> byte_at buf' k =
        if decide (k < n) then byte_at (p_buf p) ((nread p + k) mod PIPE_SIZE) else byte_at buf k) ->
     Q buf' p) ->
  wp (get_bytes (range 0 n) buf) p Q.
Proof.
  intros Hp Hn Hlim HQ.
  assert (forall lo buf', 0 <= lo <= n -> List.length buf' = List.length buf ->
    (forall k, 0 <= k -> byte_at buf' k =
        if decide (k < lo) then byte_at (p_buf p) ((nread p + k) mod PIPE_SIZE) else byte_at buf k) ->
    wp (get_bytes (range lo n) buf') p Q) as H.
  2:{ apply H; [lia|done|]. intros k Hk. by rewrite decide_False by lia. }
  intros lo buf' Hlo. revert buf'. pattern lo.
  apply (range_ind _ lo n); [|intros i Hi IH|lia]; intros buf' Hl Hb.
  - rewrite range_nil by lia. simpl. by apply wp_ret, HQ.
  - rewrite range_cons by lia. simpl. apply wp_bind, wp_gets, wp_bind, wp_u32_add; [lia|].
    pose proof (Z.mod_pos_bound (nread p + i) PIPE_SIZE ltac:(done)).
    apply wp_bind. eapply wp_index; [lia|apply byte_at_lookup; rewrite (po_len _ Hp); unfold PIPE_SIZE in *; lia|].
    apply wp_bind, wp_index_set; [rewrite Hl; lia|]. apply IH; [by rewrite length_insert|].
    intros k Hk. rewrite byte_at_insert by (rewrite ?Hl; lia). rewrite Hb by done.
    repeat case_decide; try done; try lia. by subst.
Qed.

(** [read] hands over the oldest bytes. *)
Definition read_post (buf : list Z) (p : Pipe) (r : rres) (p' : Pipe) : Prop :=
  pipe_ok p' /\ nwrite p' = nwrite p /\ same_ends p p' /\
  match r with
  | RWait => p' = p /\ pending p = [] /\ write_open p = true
  | RDone n got =>
      (n = 0 /\ got = buf /\ p' = p /\ pending p = [] /\ write_open p = false) \/
      (pending p <> [] /\
       n = Z.min (Z.of_nat (List.length buf)) (Z.of_nat (List.length (pending p))) /\
       got = take (Z.to_nat n) (pending p) ++ drop (Z.to_nat n) buf /\
       pending p' = drop (Z.to_nat n) (pending p))
  end.

Lemma wp_read buf p :
  pipe_ok p -> Z.of_nat (List.length buf) <= i32_max -> nread p + PIPE_SIZE < u32_lim ->
  wp (read buf) p (read_post buf p).
Proof.
  intros Hp Hl31 Hlim. pose proof (pending_length p Hp) as Hpl. pose proof (po_used _ Hp) as Hu.
  unfold read. apply wp_bind, wp_gets. destruct (Z.eqb_spec (nread p) (nwrite p)) as [E|E].
  { assert (pending p = []) as Hnil by (apply nil_length_inv; lia).
    destruct (write_open p) eqn:Ew; apply wp_ret; unfold read_post; split_and!; try done. left.
    by split_and!. }
  apply wp_bind, wp_u32_sub; [lia|]. cbv zeta. rewrite <- Hpl.
  set (n := Z.min (Z.of_nat (List.length buf)) (Z.of_nat (List.length (pending p)))).
  apply wp_bind, wp_get_bytes; [done|lia|unfold PIPE_SIZE in *; lia|]. intros got Hgl Hgb.
  apply wp_bind, wp_u32_add; [unfold PIPE_SIZE in *; lia|]. apply wp_bind, wp_modify.
  set (p1 := with_counts _ _ p).
  assert (pipe_ok p1) as Hp1 by (destruct Hp; split; simpl; try done; lia).
  apply wp_bind, wp_signal; [|done]. intros p' Hpe _ Hp' Hr Hwr Hse. apply wp_ret.
  unfold read_post. split_and!; try done. right. rewrite as_i32_small by lia.
  assert (pending p1 = drop (Z.to_nat n) (pending p)) as Hd.
  { unfold pending. simpl. apply list_eq. intros i. rewrite lookup_drop, !list_lookup_fmap.
    destruct (decide (Z.of_nat i < nwrite p - (nread p + n))).
    - rewrite !lookup_seqZ_lt by lia. simpl. do 3 f_equal. lia.
    - rewrite !lookup_seqZ_ge by lia. done. }
  split_and!; [|done| |by rewrite Hpe].
  - intros Hnil. rewrite Hnil in Hpl. simpl in Hpl. lia.
  - apply list_eq. intros i. destruct (decide (i < List.length buf)%nat) as [Hi|Hi].
    + rewrite <- (Nat2Z.id i) at 1. rewrite byte_at_lookup by lia. rewrite Hgb by lia. case_decide.
      * rewrite lookup_app_l by (rewrite length_take; lia). rewrite lookup_take_lt by lia.
        unfold pending. rewrite list_lookup_fmap, lookup_seqZ_lt by lia. done.
      * rewrite lookup_app_r by (rewrite length_take; lia). rewrite length_take, Nat.min_l by lia.
        rewrite lookup_drop. rewrite <- byte_at_lookup by lia. f_equal. lia.
    + rewrite !lookup_ge_None_2; [done|rewrite length_app, length_take, length_drop; lia|lia].
Qed.

(** ** Traces: segments of any number of readers and writers, one after another *)
Inductive op : Set :=
| OWrite (data : list Z) (written : Z)
| ORead (len : Z)
| ORefRead | ORefWrite | OCloseRead | OCloseWrite.

(** The bytes a segment took in and the bytes it gave out, as its caller sees them. *)
Definition accepted (data : list Z) (written : Z) (r : wres) : list Z :=
  match r with
  | WDone x _ => if x <? 0 then [] else slice written (x - written) data
  | WWait w => slice written (w - written) data
  end.
Definition delivered (r : rres) : list Z :=
  match r with RDone n buf => take (Z.to_nat n) buf | RWait => [] end.

Definition run_op (o : op) : M Pipe (list Z * list Z) :=
  match o with
  | OWrite data written => let! r := write data written in ret (accepted data written r, [])
  | ORead len => let! r := read (zeros len) in ret ([], delivered r)
  | ORefRead => ref_read ;; ret ([], [])
  | ORefWrite => ref_write ;; ret ([], [])
  | OCloseRead => let! _ := close_read in ret ([], [])
  | OCloseWrite => let! _ := close_write in ret ([], [])
  end.

Fixpoint run_ops (os : list op) : M Pipe (list Z * list Z) :=
  match os with
  | [] => ret ([], [])
  | o :: os' =>
      let! (i, x) := run_op o in
      let! (ins, outs) := run_ops os' in
      ret (i ++ ins, x ++ outs)
  end.

(** What the callers keep to: a buffer has at most [i32::MAX] bytes, a resumed write has made
    progress within its data, an end is duplicated
    and closed through a reference to it ([r], [w]: the references now),
    and fewer than [lim] bytes are offered. *)
Fixpoint callers_ok (r w lim : Z) (os : list op) : bool :=
  match os with
  | [] => true
  | OWrite data written :: os' =>
      let len := Z.of_nat (List.length data) in
      (0 <=? written) && (written <=? len) && (len <=? i32_max) && (len <? lim) &&
      callers_ok r w (lim - len) os'
  | ORead len :: os' => (0 <=? len) && (len <=? i32_max) && callers_ok r w lim os'
  | ORefRead :: os' => (0 <? r) && (r + 1 <? u32_lim) && callers_ok (r + 1) w lim os'
  | ORefWrite :: os' => (0 <? w) && (w + 1 <? u32_lim) && callers_ok r (w + 1) lim os'
  | OCloseRead :: os' => (0 <? r) && callers_ok (r - 1) w lim os'
  | OCloseWrite :: os' => (0 <? w) && callers_ok r (w - 1) lim os'
  end.

(** Changing the references of one end; [f] is [ref_read], [close_read] and their twins. *)
Definition ends_only (p p' : Pipe) : Prop :=
  pipe_ok p' /\ pending p' = pending p /\ nread p' = nread p /\ nwrite p' = nwrite p.

Lemma wp_ref_read p (Q : unit -> Pipe -> Prop) :
  pipe_ok p -> 0 < read_refcnt p -> read_refcnt p + 1 < u32_lim ->
  (forall p', ends_only p p' -> read_refcnt p' = read_refcnt p + 1 -> write_refcnt p' = write_refcnt p -> Q tt p') ->
  wp ref_read p Q.
Proof.
  intros [] Hpos Hlim HQ. unfold ref_read. apply wp_bind, wp_gets, wp_bind, wp_u32_add; [done|].
  apply wp_modify, HQ; try done. split_and!; try done. split; simpl; try done; [|lia].
  rewrite po_ropen0. zbool; lia || done.
Qed.

Lemma wp_ref_write p (Q : unit -> Pipe -> Prop) :
  pipe_ok p -> 0 < write_refcnt p -> write_refcnt p + 1 < u32_lim ->
  (forall p', ends_only p p' -> read_refcnt p' = read_refcnt p -> write_refcnt p' = write_refcnt p + 1 -> Q tt p') ->
  wp ref_write p Q.
Proof.
  intros [] Hpos Hlim HQ. unfold ref_write. apply wp_bind, wp_gets, wp_bind, wp_u32_add; [done|].
  apply wp_modify, HQ; try done. split_and!; try done. split; simpl; try done; [|lia].
  rewrite po_wopen0. zbool; lia || done.
Qed.

(** Closing returns [true] when it leaves both ends without references. *)
Lemma wp_close_read p (Q : bool -> Pipe -> Prop) :
  pipe_ok p -> 0 < read_refcnt p ->
  (forall b p', ends_only p p' -> read_refcnt p' = read_refcnt p - 1 -> write_refcnt p' = write_refcnt p ->
     b = (read_refcnt p' =? 0) && (write_refcnt p' =? 0) -> Q b p') ->
  wp close_read p Q.
Proof.
  intros [] Hpos HQ. unfold close_read. apply wp_bind, wp_gets, wp_bind, wp_u32_sub; [lia|].
  apply wp_bind, wp_modify. destruct (Z.eqb_spec (read_refcnt p - 1) 0) as [E|E].
  - apply wp_bind, wp_bind, wp_modify, wp_modify, wp_gets. apply HQ; try done.
    + split_and!; try done. split; simpl; try done; rewrite ?E; done || lia.
    + unfold both_closed. simpl. by rewrite po_wopen0, negb_involutive, E.
  - apply wp_bind, wp_ret, wp_gets. apply HQ; try done.
    + split_and!; try done. split; simpl; try done; [|lia]. rewrite po_ropen0. zbool; lia || done.
    + unfold both_closed. simpl. rewrite po_ropen0, po_wopen0, !negb_involutive. zbool; lia || done.
Qed.

Lemma wp_close_write p (Q : bool -> Pipe -> Prop) :
  pipe_ok p -> 0 < write_refcnt p ->
  (forall b p', ends_only p p' -> read_refcnt p' = read_refcnt p -> write_refcnt p' = write_refcnt p - 1 ->
     b = (read_refcnt p' =? 0) && (write_refcnt p' =? 0) -> Q b p') ->
  wp close_write p Q.
Proof.
  intros [] Hpos HQ. unfold close_write. apply wp_bind, wp_gets, wp_bind, wp_u32_sub; [lia|].
  apply wp_bind, wp_modify. destruct (Z.eqb_spec (write_refcnt p - 1) 0) as [E|E].
  - apply wp_bind, wp_bind, wp_modify, wp_modify, wp_gets. apply HQ; try done.
    + split_and!; try done. split; simpl; try done; rewrite ?E; done || lia.
    + unfold both_closed. simpl. by rewrite po_ropen0, negb_involutive, E.
  - apply wp_bind, wp_ret, wp_gets. apply HQ; try done.
    + split_and!; try done. split; simpl; try done; [|lia]. rewrite po_wopen0. zbool; lia || done.
    + unfold both_closed. simpl. rewrite po_ropen0, po_wopen0, !negb_involutive. zbool; lia || done.
Qed.

(** One operation: it runs, and the bytes it takes in follow the pending ones while the bytes it
    gives out come from their front. *)
Definition op_post (p : Pipe) (lim : Z) (os : list op) (io : list Z * list Z) (p' : Pipe) : Prop :=
  pipe_ok p' /\ pending p ++ io.1 = io.2 ++ pending p' /\
  exists lim', 0 <= lim' /\ nwrite p' + lim' <= nwrite p + lim /\
    callers_ok (read_refcnt p') (write_refcnt p') lim' os = true.

Lemma op_post_ends p p' lim os :
  ends_only p p' -> 0 <= lim -> callers_ok (read_refcnt p') (write_refcnt p') lim os = true ->
  op_post p lim os ([], []) p'.
Proof.
  intros (Hp' & Hpe & _ & Hw) Hlim Hc. split_and!; [done|by rewrite Hpe, app_nil_r|].
  exists lim. split_and!; [done|lia|done].
Qed.

Lemma wp_run_write data written os p lim :
  pipe_ok p -> nwrite p + lim + PIPE_SIZE < u32_lim ->
  callers_ok (read_refcnt p) (write_refcnt p) lim (OWrite data written :: os) = true ->
  wp (run_op (OWrite data written)) p (op_post p lim os).
Proof.
  intros Hp Hlim Hc. simpl in Hc. pose proof (po_used _ Hp) as Hu.
  apply andb_true_iff in Hc as [Hc1 Hc]. repeat (apply andb_true_iff in Hc1 as [Hc1 ?]). zbool; try done.
  simpl. apply wp_bind. eapply wp_mono; [apply wp_pipe_write_loop; try done; lia|].
  intros r p' (Hp' & Hr & (_ & _ & Er & Ew) & m & Hm & Hpe & Hres). apply wp_ret.
  assert (accepted data written r = slice written (m - written) data) as Ha.
  { unfold accepted. destruct r as [x sp|w]; [|by destruct Hres as [-> _]].
    destruct Hres as [(-> & -> & _)|(_ & _ & _ & -> & _)].
    - rewrite (proj2 (Z.ltb_ge _ _)) by lia. done.
    - zbool; try lia; try done. subst. by replace written with 0 by lia. }
  split_and!; [done|simpl; by rewrite Ha, Hpe|].
  pose proof (pending_length _ Hp') as Hl. rewrite Hpe, length_app, slice_length in Hl by lia.
  pose proof (pending_length _ Hp).
  exists (lim - Z.of_nat (List.length data)). split_and!; [lia|lia|]. by rewrite Er, Ew.
Qed.

Lemma wp_run_read len os p lim :
  pipe_ok p -> nwrite p + lim + PIPE_SIZE < u32_lim -> 0 <= lim ->
  callers_ok (read_refcnt p) (write_refcnt p) lim (ORead len :: os) = true ->
  wp (run_op (ORead len)) p (op_post p lim os).
Proof.
  intros Hp Hlim Hl0 Hc. simpl in Hc. pose proof (po_used _ Hp) as Hu.
  apply andb_true_iff in Hc as [Hc1 Hc]. zbool; try done.
  simpl. apply wp_bind. eapply wp_mono; [apply wp_read; [done|rewrite zeros_length; lia|lia]|].
  intros r p' (Hp' & Hw & (_ & _ & Er & Ew) & Hres). apply wp_ret. split_and!; [done| |].
  - simpl. rewrite app_nil_r. destruct r as [n got|]; simpl.
    + destruct Hres as [(-> & _ & -> & _ & _)|(Hne & Hn & -> & Hpe)]; [done|].
      rewrite take_app_le by (rewrite length_take; lia). rewrite take_take, Nat.min_id, Hpe.
      by rewrite take_drop.
    + by destruct Hres as [-> _].
  - exists lim. rewrite Er, Ew. split_and!; [done|lia|done].
Qed.

Lemma wp_run_op o os p lim :
  pipe_ok p -> nwrite p + lim + PIPE_SIZE < u32_lim -> 0 <= lim ->
  callers_ok (read_refcnt p) (write_refcnt p) lim (o :: os) = true ->
  wp (run_op o) p (op_post p lim os).
Proof.
  intros Hp Hlim Hl0 Hc. destruct o.
  - by apply wp_run_write.
  - by apply wp_run_read.
  - simpl in *. zbool; try done. apply wp_bind, wp_ref_read; [done..|]. intros p' He Er Ew.
    apply wp_ret, op_post_ends; try done. by rewrite Er, Ew.
  - simpl in *. zbool; try done. apply wp_bind, wp_ref_write; [done..|]. intros p' He Er Ew.
    apply wp_ret, op_post_ends; try done. by rewrite Er, Ew.
  - simpl in *. zbool; try done. apply wp_bind, wp_close_read; [done..|]. intros b p' He Er Ew _.
    apply wp_ret, op_post_ends; try done. by rewrite Er, Ew.
  - simpl in *. zbool; try done. apply wp_bind, wp_close_write; [done..|]. intros b p' He Er Ew _.
    apply wp_ret, op_post_ends; try done. by rewrite Er, Ew.
Qed.

Lemma wp_run_ops os : forall p lim,
  pipe_ok p -> nwrite p + lim + PIPE_SIZE < u32_lim -> 0 <= lim ->
  callers_ok (read_refcnt p) (write_refcnt p) lim os = true ->
  wp (run_ops os) p (fun io p' => pipe_ok p' /\ pending p ++ io.1 = io.2 ++ pending p').
Proof.
  induction os as [|o os IH]; intros p lim Hp Hlim Hl0 Hc; cbn [run_ops].
  { apply wp_ret. split; [done|]. by rewrite app_nil_r. }
  apply wp_bind. eapply wp_mono; [by eapply wp_run_op|].
  intros [i x] p1 (Hp1 & Heq & lim' & Hl' & Hle & Hc'). simpl in Heq.
  apply wp_bind. eapply wp_mono; [apply (IH p1 lim'); try done; lia|].
  intros [ins outs] p' [Hp' Heq']. simpl in Heq'. apply wp_ret. split; [done|]. simpl.
  by rewrite app_assoc, Heq, <- app_assoc, Heq', app_assoc.
Qed.

(** C32: a pipe is a first-in first-out channel.  Take a new pipe and any sequence of write and
    read segments (fresh calls and calls resumed after a wait), duplications and closes, by any
    number of readers and writers, in which an end is duplicated and closed through a reference,
    no buffer exceeds [i32::MAX] bytes and fewer than 2^32 - 1024 bytes are offered in all.  None
    of them panics, and the bytes the writers were told are written are, in order, the bytes the
    readers received followed by the at most 512 bytes still in the ring. *)
Theorem pipe_fifo os :
  callers_ok 1 1 (u32_lim - 2 * PIPE_SIZE) os = true ->
  exists ins outs p',
    run_ops os new = Ok (ins, outs) p' /\
    ins = outs ++ pending p' /\ Z.of_nat (List.length (pending p')) <= PIPE_SIZE.
Proof.
  intros Hc. pose proof (wp_run_ops os new (u32_lim - 2 * PIPE_SIZE) new_ok ltac:(done) ltac:(done) Hc) as H.
  apply wp_ok in H as ([ins outs] & p' & Hrun & Hp' & Heq). exists ins, outs, p'.
  split_and!; [done|done|]. rewrite pending_length by done. pose proof (po_used _ Hp'). lia.
Qed.

(** Two writers and a reader; the second writer fills the ring, waits and is resumed. *)
Definition demo_ops : list op :=
  [OWrite [1; 2; 3] 0; ORefWrite; OWrite (replicate 600 7) 0; ORead 100; OCloseWrite;
   OWrite (replicate 600 7) 509; ORead 600; OCloseWrite; ORead 10].

Lemma pipe_fifo_witness :
  exists ins outs p', run_ops demo_ops new = Ok (ins, outs) p' /\
    ins = outs ++ pending p' /\ Z.of_nat (List.length (pending p')) <= PIPE_SIZE.
Proof. apply (pipe_fifo demo_ops). reflexivity. Defined.

(** When the calls block, end and fail.  On a well-formed pipe that has carried fewer than
    2^32 - 512 bytes, [read] into a nonempty buffer waits exactly when the ring is empty and a
    writer remains, and returns 0 exactly when the ring is empty and no writer remains (EOF);
    a fresh [write] of at least one byte waits exactly when the data does not fit and a reader
    remains, returns -1 with SIGPIPE exactly when the ring is full and no reader remains, and
    otherwise reports the bytes it stored: all of them, or what fitted when no reader remains. *)
Theorem pipe_blocking p buf data :
  pipe_ok p -> nread p + PIPE_SIZE < u32_lim ->
  0 < Z.of_nat (List.length buf) <= i32_max -> 0 < Z.of_nat (List.length data) <= i32_max ->
  let space := PIPE_SIZE - Z.of_nat (List.length (pending p)) in
  let len := Z.of_nat (List.length data) in
  (exists r p', read buf p = Ok r p' /\
     (r = RWait <-> pending p = [] /\ 0 < write_refcnt p) /\
     ((exists b, r = RDone 0 b) <-> pending p = [] /\ write_refcnt p = 0)) /\
  (exists r p', write data 0 p = Ok r p' /\
     r = (if len <=? space then WDone len false
          else if 0 <? read_refcnt p then WWait space
          else if space =? 0 then WDone (-1) true else WDone space false)).
Proof.
  intros Hp Hlim Hb Hd space len. pose proof (pending_length _ Hp) as Hpl. pose proof (po_used _ Hp) as Hu.
  pose proof (po_ropen _ Hp) as Hro. pose proof (po_wopen _ Hp) as Hwo.
  pose proof (po_rcnt _ Hp). pose proof (po_wcnt _ Hp). split.
  - pose proof (wp_read buf p Hp ltac:(lia) Hlim) as Hrd. apply wp_ok in Hrd as (r & p' & Hrun & _ & _ & _ & Hres).
    exists r, p'. split; [done|]. destruct r as [n got|].
    + destruct Hres as [(-> & _ & _ & Hnil & Hwc)|(Hne & Hn & _)].
      * rewrite Hwo in Hwc. clear Hro Hwo. zbool; try done.
        split; split; [done|lia|done|]. intros _. by eexists.
      * assert (0 < n). { destruct (pending p); [done|]. simpl in *. lia. }
        split; split; [done|by intros []|intros [b [=]]; lia|by intros []].
    + destruct Hres as (_ & Hnil & Hwc). rewrite Hwo in Hwc. clear Hro Hwo. zbool; try done.
      split; split; [split; [done|lia]|done|by intros []|lia].
  - pose proof (wp_pipe_write_loop (S (List.length data)) data 0 p Hp ltac:(lia) ltac:(lia) Hlim ltac:(lia)) as Hwr.
    apply wp_ok in Hwr as (r & p' & Hrun & Hp' & Hr & _ & m & Hm & Hpe & Hres).
    exists r, p'. split; [done|]. pose proof (pending_length _ Hp') as Hpl'. pose proof (po_used _ Hp') as Hu'.
    rewrite Hpe, length_app, slice_length in Hpl' by lia. unfold space, len in *.
    destruct r as [x sp|w].
    + destruct Hres as [(-> & -> & ->)|(Hlt & Hrc & Hfull & -> & ->)].
      * rewrite (proj2 (Z.leb_le _ _)) by lia. done.
      * rewrite Hro in Hrc. clear Hro Hwo. zbool; try done; try lia. f_equal. lia.
    + destruct Hres as (-> & Hlt & Hrc & Hfull). rewrite Hro in Hrc. clear Hro Hwo. zbool; try done; try lia. f_equal. lia.
Qed.

Lemma pipe_blocking_witness :
  exists r p', write [5] 0 new = Ok r p' /\ r = WDone 1 false.
Proof.
  destruct (pipe_blocking new [0] [5]) as [_ H]; [apply new_ok|done|done|done|exact H].
Defined.

(** A write to a pipe whose last reader is gone, with space left in the ring, does not fail:
    it stores the bytes and reports them as written, and no SIGPIPE is sent. *)
Theorem write_without_reader :
  (let! both := close_read in
   let! r := write [104; 105] 0 in
   ret (both, r)) new
  = Ok (false, WDone 2 false)
       (mkPipe (splice 0 [104; 105] (zeros PIPE_SIZE)) 0 2 false true 0 1 [NotFull; NotEmpty]).
Proof. vm_compute. reflexivity. Qed.

(** The byte counters are not reduced modulo the ring size, so a pipe stops working after
    about 4 GiB: once 2^32 - 512 bytes have been read, any write of data panics on overflow. *)
Theorem pipe_counter_overflow p data :
  nread p >= u32_lim - PIPE_SIZE -> data <> [] ->
  exists why, write data 0 p = Panic why.
Proof.
  intros Hr Hd. destruct data as [|b data]; [done|]. exists "attempt to add with overflow"%string.
  unfold write, write_loop. rewrite (proj2 (Z.ltb_lt _ _)) by (simpl; lia).
  unfold bind, gets, u32_add. by rewrite (proj2 (Z.ltb_ge _ _)) by lia.
Qed.

Lemma pipe_counter_overflow_witness :
  exists why, write [1] 0 (with_counts (u32_lim - 512) (u32_lim - 512) new) = Panic why.
Proof. apply pipe_counter_overflow; [unfold PIPE_SIZE, u32_lim; simpl; lia|done]. Defined.
