(* ===== verification/Fd.v ===== *)
(** File descriptors (the FD table of src/userprog/process.rs, and the pipe system call of
    src/userprog/syscall.rs): per-process tables of files, pipe ends and devices, and the
    references they hold on pipes. *)
From S2P Require Import Prelude Block Bio FreeMap Inode InodeProofs File Pipe.

(** What descriptors refer to: the file system and the pipes. *)
Record Objects (D : Type) := mkObjects { o_fs : FS D; o_pipes : Pipes }.
Arguments mkObjects {D}.
Arguments o_fs {D}.
Arguments o_pipes {D}.

Inductive FdKind : Set :=
| FileDesc (f : File)
| PipeRead (id : Z)
| PipeWrite (id : Z)
| Console
| DevNull
| DevZero.

#[export] Instance File_eq_dec : EqDecision File.
Proof. solve_decision. Defined.
#[export] Instance FdKind_eq_dec : EqDecision FdKind.
Proof. solve_decision. Defined.

(** [struct FdTable]: its [files]. *)
Abbreviation FdTable := (list (option FdKind)).

(** [FdTable::new] *)
Definition new : FdTable := [Some Console; Some Console; Some Console].

Definition alloc_fd (t : FdTable) (kind : FdKind) : Z * FdTable :=
  match find_index (fun s => bool_decide (s = None)) t with
  | Some i => (as_i32 (Z.of_nat i), <[i := Some kind]> t)
  | None => (as_i32 (Z.of_nat (List.length t)), t ++ [Some kind])
  end.

Definition open (t : FdTable) (f : File) : Z * FdTable := alloc_fd t (FileDesc f).
Definition open_pipe_read (t : FdTable) (id : Z) : Z * FdTable := alloc_fd t (PipeRead id).
Definition open_pipe_write (t : FdTable) (id : Z) : Z * FdTable := alloc_fd t (PipeWrite id).
Definition alloc_dev (t : FdTable) (kind : FdKind) : Z * FdTable := alloc_fd t kind.

(** [fd < 0 || (fd as usize) >= self.files.len()] *)
Definition bad_fd (t : FdTable) (fd : Z) : bool := (fd <? 0) || (Z.of_nat (List.length t) <=? fd).

Definition slot (t : FdTable) (fd : Z) : option FdKind := mjoin (t !! Z.to_nat fd).

Definition get (t : FdTable) (fd : Z) : option File :=
  if bad_fd t fd then None
  else match slot t fd with Some (FileDesc f) => Some f | _ => None end.

Definition get_kind (t : FdTable) (fd : Z) : option FdKind :=
  if bad_fd t fd then None else slot t fd.

Section fd.
Context {D : Type} `{!BlockOps D}.

Definition files {A} (m : M (FS D) A) : M (Objects D) A :=
  zoom o_fs (fun fs o => mkObjects fs (o_pipes o)) m.
Definition pipes {A} (m : M Pipes A) : M (Objects D) A :=
  zoom o_pipes (fun ps o => mkObjects (o_fs o) ps) m.

Definition close_kind (kind : FdKind) : M (Objects D) unit :=
  match kind with
  | FileDesc f => files (close_file f)
  | PipeRead id =>
      let! r := pipes (with_pipe id close_read) in
      match r with
      | Some true => pipes (destroy_pipe id)
      | _ => ret tt
      end
  | PipeWrite id =>
      let! r := pipes (with_pipe id close_write) in
      match r with
      | Some true => pipes (destroy_pipe id)
      | _ => ret tt
      end
  | Console | DevNull | DevZero => ret tt
  end.

Definition close (t : FdTable) (fd : Z) : M (Objects D) (bool * FdTable) :=
  if bad_fd t fd then ret (false, t)
  else match slot t fd with
       | Some kind => close_kind kind ;; ret (true, <[Z.to_nat fd := None]> t)
       | None => ret (false, t)
       end.

Fixpoint close_all (t : FdTable) : M (Objects D) FdTable :=
  match t with
  | [] => ret []
  | s :: t' =>
      (match s with Some kind => close_kind kind | None => ret tt end) ;;
      let! t' := close_all t' in
      ret (None :: t')
  end.

(** A second handle on the same file, at the same position. *)
Definition reopen_file (f : File) : M (Objects D) (option File) :=
  let! nf := files (open_with_mode (f_sector f) (f_mode f)) in
  ret (match nf with Some nf => Some (seek nf (f_pos f)) | None => None end).

Definition dup (t : FdTable) (fd : Z) : M (Objects D) (Z * FdTable) :=
  if bad_fd t fd then ret (-1, t)
  else match slot t fd with
       | Some Console => ret (alloc_fd t Console)
       | Some (FileDesc f) =>
           let! nf := reopen_file f in
           match nf with
           | Some nf => ret (alloc_fd t (FileDesc nf))
           | None => ret (-1, t)
           end
       | Some (PipeRead id) =>
           let! _ := pipes (with_pipe id ref_read) in
           ret (alloc_fd t (PipeRead id))
       | Some (PipeWrite id) =>
           let! _ := pipes (with_pipe id ref_write) in
           ret (alloc_fd t (PipeWrite id))
       | Some DevNull => ret (alloc_fd t DevNull)
       | Some DevZero => ret (alloc_fd t DevZero)
       | None => ret (-1, t)
       end.

(** The entry of the child's table for an entry of the parent's. *)
Definition clone_kind (s : option FdKind) : M (Objects D) (option FdKind) :=
  match s with
  | Some (FileDesc f) =>
      let! nf := reopen_file f in
      ret (FileDesc <$> nf)
  | Some (PipeRead id) => let! _ := pipes (with_pipe id ref_read) in ret (Some (PipeRead id))
  | Some (PipeWrite id) => let! _ := pipes (with_pipe id ref_write) in ret (Some (PipeWrite id))
  | Some Console => ret (Some Console)
  | Some DevNull => ret (Some DevNull)
  | Some DevZero => ret (Some DevZero)
  | None => ret None
  end.

Fixpoint clone_slots (parent : FdTable) : M (Objects D) FdTable :=
  match parent with
  | [] => ret []
  | s :: parent' =>
      let! c := clone_kind s in
      let! rest := clone_slots parent' in
      ret (c :: rest)
  end.

(** [None]: the parent's table pointer is null. *)
Definition clone_fd_table (parent : option FdTable) : M (Objects D) FdTable :=
  match parent with
  | None => ret new
  | Some parent => clone_slots parent
  end.

(** [SYS_PIPE]: the two descriptors. *)
Definition sys_pipe (t : FdTable) : M (Objects D) (Z * Z * FdTable) :=
  let! id := pipes create_pipe in
  let (rfd, t) := open_pipe_read t id in
  let (wfd, t) := open_pipe_write t id in
  ret (rfd, wfd, t).

End fd.

(** ** The lowest descriptor *)
Lemma get_kind_lookup t fd : get_kind t fd = if fd <? 0 then None else mjoin (t !! Z.to_nat fd).
Proof.
  unfold get_kind, bad_fd, slot. destruct (Z.ltb_spec fd 0); [done|]. simpl.
  destruct (Z.leb_spec (Z.of_nat (List.length t)) fd); [|done].
  by rewrite lookup_ge_None_2 by lia.
Qed.

(** The slot an allocation takes. *)
Definition free_slot (t : FdTable) (i : nat) : Prop :=
  (i <= List.length t)%nat /\ mjoin (t !! i) = None /\
  forall j, (j < i)%nat -> exists k, t !! j = Some (Some k).

Lemma alloc_fd_spec t kind fd t' :
  Z.of_nat (List.length t) <= i32_max -> alloc_fd t kind = (fd, t') ->
  exists i, fd = Z.of_nat i /\ free_slot t i /\
    forall j, mjoin (t' !! j) = if decide (j = i) then Some kind else mjoin (t !! j).
Proof.
  intros Hlen. unfold alloc_fd. destruct (find_index _ t) as [i|] eqn:E; intros [= <- <-].
  - apply find_index_Some in E as [(x & Hx & Hd) Hlt]. apply bool_decide_eq_true in Hd as ->.
    pose proof (lookup_lt_Some _ _ _ Hx) as Hi. exists i. rewrite as_i32_small by lia.
    split_and!; [done| |].
    + split_and!; [lia|by rewrite Hx|]. intros j Hj.
      destruct (lookup_lt_is_Some_2 t j ltac:(lia)) as [y Hy]. specialize (Hlt j y Hj Hy).
      destruct y as [k|]; [by exists k|done].
    + intros j. case_decide as Ej; [subst; by rewrite list_lookup_insert_eq by lia|].
      by rewrite list_lookup_insert_ne by done.
  - pose proof (proj1 (find_index_None _ _) E) as Hn. exists (List.length t). rewrite as_i32_small by lia.
    split_and!; [done| |].
    + split_and!; [lia|by rewrite lookup_ge_None_2|]. intros j Hj.
      destruct (lookup_lt_is_Some_2 t j Hj) as [[k|] Hy]; [by exists k|]. by specialize (Hn j _ Hy).
    + intros j. case_decide as Ej; [subst; by rewrite lookup_app_r, Nat.sub_diag|].
      destruct (decide (j < List.length t)%nat); [by rewrite lookup_app_l|].
      rewrite (lookup_ge_None_2 t) by lia. rewrite lookup_ge_None_2; [done|]. rewrite length_app. simpl. lia.
Qed.

(** A new descriptor is the lowest one not in use: the returned number named nothing, every
    lower number is in use, and only that number changes its meaning. *)
Theorem fd_lowest t kind fd t' :
  Z.of_nat (List.length t) <= i32_max -> alloc_fd t kind = (fd, t') ->
  0 <= fd /\ get_kind t fd = None /\ (forall j, 0 <= j < fd -> get_kind t j <> None) /\
  (forall j, get_kind t' j = if decide (j = fd) then Some kind else get_kind t j).
Proof.
  intros Hlen H. apply alloc_fd_spec in H as (i & -> & (Hi & Hfree & Hlow) & Hnew); [|done].
  split_and!; [lia| | |].
  - rewrite get_kind_lookup, (proj2 (Z.ltb_ge _ _)) by lia. by rewrite Nat2Z.id.
  - intros j Hj. rewrite get_kind_lookup, (proj2 (Z.ltb_ge _ _)) by lia.
    destruct (Hlow (Z.to_nat j) ltac:(lia)) as [k ->]. done.
  - intros j. rewrite !get_kind_lookup. destruct (Z.ltb_spec j 0); [by rewrite decide_False by lia|].
    rewrite Hnew. repeat case_decide; try done; lia.
Qed.

Lemma fd_lowest_witness :
  get_kind [Some Console; None; Some Console] 1 = None /\
  alloc_fd [Some Console; None; Some Console] DevNull = (1, [Some Console; Some DevNull; Some Console]).
Proof.
  split; [|reflexivity].
  apply (fd_lowest [Some Console; None; Some Console] DevNull 1 [Some Console; Some DevNull; Some Console]);
    [unfold i32_max; simpl; lia|reflexivity].
Defined.

(** ** References *)
Definition is_kind (k : FdKind) (s : option FdKind) : Z := if decide (s = Some k) then 1 else 0.

(** How many slots of a table, and of all tables, hold [k]. *)
Fixpoint refs (k : FdKind) (t : FdTable) : Z :=
  match t with [] => 0 | s :: t' => is_kind k s + refs k t' end.
Fixpoint total (k : FdKind) (ts : list FdTable) : Z :=
  match ts with [] => 0 | t :: ts' => refs k t + total k ts' end.

Lemma is_kind_nonneg k s : 0 <= is_kind k s.
Proof. unfold is_kind. case_decide; lia. Qed.

Lemma refs_nonneg k t : 0 <= refs k t.
Proof. induction t as [|s t IH]; simpl; [lia|]. pose proof (is_kind_nonneg k s). lia. Qed.

Lemma total_nonneg k ts : 0 <= total k ts.
Proof. induction ts as [|t ts IH]; simpl; [lia|]. pose proof (refs_nonneg k t). lia. Qed.

Lemma refs_app k t1 t2 : refs k (t1 ++ t2) = refs k t1 + refs k t2.
Proof. induction t1; simpl; lia. Qed.

Lemma refs_insert k t i s s' :
  t !! i = Some s -> refs k (<[i := s']> t) = refs k t - is_kind k s + is_kind k s'.
Proof.
  revert i. induction t as [|x t IH]; intros [|i] H; simplify_eq/=; [lia|].
  rewrite IH by done. lia.
Qed.

Lemma total_insert k ts i t t' :
  ts !! i = Some t -> total k (<[i := t']> ts) = total k ts - refs k t + refs k t'.
Proof.
  revert i. induction ts as [|x ts IH]; intros [|i] H; simplify_eq/=; [lia|].
  rewrite IH by done. lia.
Qed.

Lemma total_app k ts1 ts2 : total k (ts1 ++ ts2) = total k ts1 + total k ts2.
Proof. induction ts1; simpl; lia. Qed.

Lemma total_ge k ts i t : ts !! i = Some t -> refs k t <= total k ts.
Proof.
  revert i. induction ts as [|x ts IH]; intros [|i] H; simplify_eq/=.
  - pose proof (total_nonneg k ts). lia.
  - pose proof (refs_nonneg k x). specialize (IH _ H). lia.
Qed.

Lemma refs_ge k t i : t !! i = Some (Some k) -> 1 <= refs k t.
Proof.
  revert i. induction t as [|x t IH]; intros [|i] H; simplify_eq/=.
  - pose proof (refs_nonneg k t). unfold is_kind. rewrite decide_True by done. lia.
  - pose proof (is_kind_nonneg k x). specialize (IH _ H). lia.
Qed.

Lemma alloc_fd_refs k t kind : refs k (alloc_fd t kind).2 = refs k t + is_kind k (Some kind).
Proof.
  unfold alloc_fd. destruct (find_index _ t) as [i|] eqn:E; simpl.
  - apply find_index_Some in E as [(x & Hx & Hd) _]. apply bool_decide_eq_true in Hd as ->.
    rewrite (refs_insert _ _ _ _ _ Hx). unfold is_kind at 1. rewrite decide_False by done. lia.
  - rewrite refs_app. simpl. lia.
Qed.

(** ** The references on pipes are the descriptors that name them

    [cnt k] is the number of references of kind [k] that exist. *)
Definition pipes_inv (cnt : FdKind -> Z) (ps : Pipes) : Prop :=
  (forall k, 0 <= cnt k) /\
  (forall id p, PIPES ps !! id = Some p ->
     pipe_ok p /\ read_refcnt p = cnt (PipeRead id) /\ write_refcnt p = cnt (PipeWrite id) /\
     0 < cnt (PipeRead id) + cnt (PipeWrite id)) /\
  (forall id, PIPES ps !! id = None -> cnt (PipeRead id) = 0 /\ cnt (PipeWrite id) = 0) /\
  (forall id, is_Some (PIPES ps !! id) -> id < NEXT_PIPE_ID ps).

(** One reference more or less. *)
Definition bump (k : FdKind) (d : Z) (cnt : FdKind -> Z) : FdKind -> Z :=
  fun k' => cnt k' + (if decide (k' = k) then d else 0).

Lemma pipes_inv_ext cnt cnt' ps : (forall k, cnt k = cnt' k) -> pipes_inv cnt ps -> pipes_inv cnt' ps.
Proof.
  intros E (H0 & H1 & H2 & H3). split_and!; [intros k; by rewrite <- E| | |done].
  - intros id p Hp. rewrite <- !E. by apply H1.
  - intros id Hp. rewrite <- !E. by apply H2.
Qed.

(** [with_pipe] on a pipe that exists. *)
Lemma wp_with_pipe {A} id (m : M Pipe A) ps p (Q : option A -> Pipes -> Prop) :
  PIPES ps !! id = Some p ->
  wp m p (fun a p' => Q (Some a) (mkPipes (<[id := p']> (PIPES ps)) (NEXT_PIPE_ID ps))) ->
  wp (with_pipe id m) ps Q.
Proof. intros Hp H. unfold wp, with_pipe. rewrite Hp. by unfold wp in H; destruct (m p). Qed.

(** Replacing a pipe by one whose references changed as [cnt] did. *)
Lemma pipes_inv_upd cnt cnt' ps id p p' :
  pipes_inv cnt ps -> PIPES ps !! id = Some p -> pipe_ok p' -> (forall k, 0 <= cnt' k) ->
  (forall id', id' <> id -> cnt' (PipeRead id') = cnt (PipeRead id') /\ cnt' (PipeWrite id') = cnt (PipeWrite id')) ->
  read_refcnt p' = cnt' (PipeRead id) -> write_refcnt p' = cnt' (PipeWrite id) ->
  0 < cnt' (PipeRead id) + cnt' (PipeWrite id) ->
  pipes_inv cnt' (mkPipes (<[id := p']> (PIPES ps)) (NEXT_PIPE_ID ps)).
Proof.
  intros (H0 & H1 & H2 & H3) Hp Hok Hnn Hoth Hr Hw Hpos. split_and!; simpl.
  - done.
  - intros id' q. rewrite lookup_insert_Some. intros [[<- <-]|[Hne Hq]]; [done|].
    destruct (Hoth id') as [-> ->]; [done|]. by apply H1.
  - intros id'. rewrite lookup_insert_None. intros [Hq Hne].
    destruct (Hoth id') as [-> ->]; [done|]. by apply H2.
  - intros id'. rewrite lookup_insert_is_Some. intros [<-|[_ ?]]; apply H3; [by exists p|done].
Qed.

(** Removing a pipe that lost its last reference. *)
Lemma pipes_inv_destroy cnt cnt' ps id :
  pipes_inv cnt ps -> (forall k, 0 <= cnt' k) ->
  (forall id', id' <> id -> cnt' (PipeRead id') = cnt (PipeRead id') /\ cnt' (PipeWrite id') = cnt (PipeWrite id')) ->
  cnt' (PipeRead id) = 0 -> cnt' (PipeWrite id) = 0 ->
  forall p, pipes_inv cnt' (mkPipes (delete id (<[id := p]> (PIPES ps))) (NEXT_PIPE_ID ps)).
Proof.
  intros (H0 & H1 & H2 & H3) Hnn Hoth Hr Hw p. rewrite delete_insert_eq. split_and!; simpl.
  - done.
  - intros id' q. rewrite lookup_delete_Some. intros [Hne Hq].
    destruct (Hoth id') as [-> ->]; [done|]. by apply H1.
  - intros id'. rewrite lookup_delete_None. intros [<-|Hq]; [done|].
    destruct (decide (id' = id)) as [->|]; [done|].
    destruct (Hoth id') as [-> ->]; [done|]. by apply H2.
  - intros id'. rewrite lookup_delete_is_Some. intros [_ ?]. by apply H3.
Qed.

Lemma bump_other k d cnt k' : k' <> k -> bump k d cnt k' = cnt k'.
Proof. intros H. unfold bump. rewrite decide_False by done. lia. Qed.
Lemma bump_same k d cnt : bump k d cnt k = cnt k + d.
Proof. unfold bump. by rewrite decide_True. Qed.

(** The registry after an end's reference changed. *)
Ltac bump_solve :=
  rewrite ?bump_same, ?bump_other by (congruence || done); try lia; try done.

Lemma bump_nonneg k d cnt : (forall k', 0 <= cnt k') -> 0 <= cnt k + d -> forall k', 0 <= bump k d cnt k'.
Proof. intros H Hd k'. unfold bump. specialize (H k'). case_decide; subst; lia. Qed.

Section refs.
Context {D : Type} `{!BlockOps D}.

Lemma pipes_inv_some cnt ps id :
  pipes_inv cnt ps -> 0 < cnt (PipeRead id) \/ 0 < cnt (PipeWrite id) ->
  exists p, PIPES ps !! id = Some p /\ pipe_ok p /\ read_refcnt p = cnt (PipeRead id) /\
    write_refcnt p = cnt (PipeWrite id).
Proof.
  intros (_ & H1 & H2 & _) Hc. destruct (PIPES ps !! id) as [p|] eqn:E.
  - destruct (H1 id p E) as (? & ? & ? & ?). by exists p.
  - destruct (H2 id E). lia.
Qed.

Definition pipe_kind (k : FdKind) : option Z :=
  match k with PipeRead id | PipeWrite id => Some id | _ => None end.

Lemma bump_others k id d cnt :
  pipe_kind k = Some id -> forall id', id' <> id ->
  bump k d cnt (PipeRead id') = cnt (PipeRead id') /\ bump k d cnt (PipeWrite id') = cnt (PipeWrite id').
Proof. intros Hk id' Hne. split; apply bump_other; intros <-; simplify_eq/=. Qed.

(** Giving up a reference on a pipe never fails: it is counted, and the pipe is removed when it
    was the last one. *)
Lemma wp_close_pipe cnt k id o (Q : unit -> Objects D -> Prop) :
  pipe_kind k = Some id -> pipes_inv cnt (o_pipes o) -> 1 <= cnt k ->
  (forall ps', pipes_inv (bump k (-1) cnt) ps' -> Q tt (mkObjects (o_fs o) ps')) ->
  wp (close_kind k) o Q.
Proof.
  intros Hk Hinv Hc HQ. pose proof (proj1 Hinv) as Hnn.
  pose proof (bump_nonneg k (-1) cnt Hnn ltac:(lia)) as Hnn'.
  destruct k as [f|id'|id'| | |]; simplify_eq/=;
    destruct (pipes_inv_some cnt (o_pipes o) id Hinv ltac:(lia)) as (p & Hp & Hok & Hr & Hw);
    apply wp_bind, wp_zoom; eapply wp_with_pipe; try done;
    [apply wp_close_read; [done|lia|]|apply wp_close_write; [done|lia|]];
    intros b p' (Hp' & _) Hr' Hw' ->.
  all: pose proof (Hnn (PipeRead id)); pose proof (Hnn (PipeWrite id)).
  all: destruct (Z.eqb_spec (read_refcnt p') 0); destruct (Z.eqb_spec (write_refcnt p') 0); simpl.
  all: first [apply wp_zoom, wp_modify, HQ; simpl; eapply pipes_inv_destroy; try done; bump_solve
             |apply wp_ret, HQ; eapply pipes_inv_upd; try done; bump_solve].
  all: try (apply bump_others; done).
Qed.

(** Taking another reference. *)
Lemma wp_ref_pipe cnt k id (m : M Pipe unit) o (Q : option unit -> Objects D -> Prop) :
  (k = PipeRead id /\ m = ref_read) \/ (k = PipeWrite id /\ m = ref_write) ->
  pipes_inv cnt (o_pipes o) -> 1 <= cnt k -> cnt k + 1 < u32_lim ->
  (forall ps', pipes_inv (bump k 1 cnt) ps' -> Q (Some tt) (mkObjects (o_fs o) ps')) ->
  wp (pipes (with_pipe id m)) o Q.
Proof.
  intros Hk Hinv Hc Hlim HQ. pose proof (proj1 Hinv) as Hnn.
  pose proof (bump_nonneg k 1 cnt Hnn ltac:(lia)) as Hnn'.
  destruct Hk as [[-> ->]|[-> ->]];
    destruct (pipes_inv_some cnt (o_pipes o) id Hinv ltac:(lia)) as (p & Hp & Hok & Hr & Hw);
    apply wp_zoom; eapply wp_with_pipe; try done;
    [apply wp_ref_read; [done|lia|lia|]|apply wp_ref_write; [done|lia|lia|]];
    intros p' (Hp' & _) Hr' Hw'; apply HQ; simpl.
  all: pose proof (Hnn (PipeRead id)); pose proof (Hnn (PipeWrite id)).
  all: eapply pipes_inv_upd; try done; bump_solve; try (apply bump_others; done).
Qed.

(** A new pipe comes with one reference to each end. *)
Lemma wp_create_pipe cnt o (Q : Z -> Objects D -> Prop) :
  pipes_inv cnt (o_pipes o) -> NEXT_PIPE_ID (o_pipes o) + 1 < u32_lim ->
  (forall id ps', PIPES (o_pipes o) !! id = None ->
     pipes_inv (bump (PipeRead id) 1 (bump (PipeWrite id) 1 cnt)) ps' -> Q id (mkObjects (o_fs o) ps')) ->
  wp (pipes create_pipe) o Q.
Proof.
  intros (H0 & H1 & H2 & H3) Hlim HQ. apply wp_zoom. unfold create_pipe. wp_steps.
  apply wp_u32_add; [done|]. wp_steps. set (id := NEXT_PIPE_ID (o_pipes o)) in *.
  assert (PIPES (o_pipes o) !! id = None) as Hfresh.
  { destruct (PIPES (o_pipes o) !! id) eqn:E; [|done]. specialize (H3 id ltac:(by eexists)). lia. }
  apply HQ; [done|]. destruct (H2 id Hfresh). split_and!; simpl.
  - intros k. specialize (H0 k). unfold bump. repeat case_decide; lia.
  - intros id' p. rewrite lookup_insert_Some. intros [[<- <-]|[Hne Hp]].
    + unfold bump. repeat (case_decide; try congruence). split_and!; [apply new_ok|simpl; lia..].
    + rewrite !bump_other by congruence. by apply H1.
  - intros id'. rewrite lookup_insert_None. intros [Hp Hne]. rewrite !bump_other by congruence. by apply H2.
  - intros id'. rewrite lookup_insert_is_Some. intros [<-|[_ Hs]]; [lia|]. specialize (H3 _ Hs). lia.
Qed.

(** Partial-correctness forms: an overflow of a counter stops the machine. *)
Lemma wlp_ref_pipe cnt k id (m : M Pipe unit) o (Q : option unit -> Objects D -> Prop) :
  (k = PipeRead id /\ m = ref_read) \/ (k = PipeWrite id /\ m = ref_write) ->
  pipes_inv cnt (o_pipes o) -> 1 <= cnt k ->
  (forall ps', pipes_inv (bump k 1 cnt) ps' -> Q (Some tt) (mkObjects (o_fs o) ps')) ->
  wlp (pipes (with_pipe id m)) o Q.
Proof.
  intros Hk Hinv Hc HQ. destruct (decide (cnt k + 1 < u32_lim)); [by eapply wp_wlp, wp_ref_pipe|].
  destruct Hk as [[-> ->]|[-> ->]];
    destruct (pipes_inv_some cnt (o_pipes o) id Hinv ltac:(lia)) as (p & Hp & _ & Hr & Hw);
    unfold wlp, pipes, zoom, with_pipe, ref_read, ref_write, bind, gets, u32_add;
    rewrite Hp, ?Hr, ?Hw, (proj2 (Z.ltb_ge _ _)) by lia; done.
Qed.

Lemma wlp_create_pipe cnt o (Q : Z -> Objects D -> Prop) :
  pipes_inv cnt (o_pipes o) ->
  (forall id ps', pipes_inv (bump (PipeRead id) 1 (bump (PipeWrite id) 1 cnt)) ps' ->
     Q id (mkObjects (o_fs o) ps')) ->
  wlp (pipes create_pipe) o Q.
Proof.
  intros Hinv HQ. destruct (decide (NEXT_PIPE_ID (o_pipes o) + 1 < u32_lim)).
  - eapply wp_wlp, wp_create_pipe; [done|done|]. eauto.
  - unfold wlp, pipes, zoom, create_pipe, bind, gets, u32_add. by rewrite (proj2 (Z.ltb_ge _ _)) by lia.
Qed.

(** File operations leave the pipes alone. *)
Lemma wlp_files {A} (m : M (FS D) A) o (Q : A -> Objects D -> Prop) :
  (forall a fs, Q a (mkObjects fs (o_pipes o))) -> wlp (files m) o Q.
Proof. intros HQ. apply wlp_zoom. unfold wlp. by destruct (m (o_fs o)). Qed.

Lemma bump_file cnt k d ps : pipe_kind k = None -> pipes_inv cnt ps -> 0 <= cnt k + d -> pipes_inv (bump k d cnt) ps.
Proof.
  intros Hk (H0 & H1 & H2 & H3) Hd. split_and!; [by apply bump_nonneg| | |done];
    intros id; rewrite !bump_other by (by intros <-); [apply H1|apply H2].
Qed.

Lemma wlp_close_kind cnt k o (Q : unit -> Objects D -> Prop) :
  pipes_inv cnt (o_pipes o) -> 1 <= cnt k ->
  (forall o', pipes_inv (bump k (-1) cnt) (o_pipes o') -> Q tt o') -> wlp (close_kind k) o Q.
Proof.
  intros Hinv Hc HQ. destruct (pipe_kind k) as [id|] eqn:Hk.
  - eapply wp_wlp, wp_close_pipe; eauto.
  - assert (pipes_inv (bump k (-1) cnt) (o_pipes o)) by (apply bump_file; [done|done|lia]).
    destruct k; simplify_eq/=; [|by apply wlp_ret, HQ..]. apply wlp_files. intros [] fs. by apply HQ.
Qed.

(** [cnt] counts at least the descriptors of table [t]. *)
Lemma wlp_close_all t : forall cnt o (Q : FdTable -> Objects D -> Prop),
  pipes_inv cnt (o_pipes o) -> (forall k, refs k t <= cnt k) ->
  (forall t' o', (forall k, refs k t' = 0) -> pipes_inv (fun k => cnt k - refs k t) (o_pipes o') -> Q t' o') ->
  wlp (close_all t) o Q.
Proof.
  induction t as [|s t IH]; intros cnt o Q Hinv Hle HQ; simpl in *.
  { apply wlp_ret, HQ; [done|]. eapply pipes_inv_ext; [|done]. intros k. lia. }
  assert (forall o', pipes_inv (fun k => cnt k - is_kind k s) (o_pipes o') ->
    wlp (let! t' := close_all t in ret (None :: t')) o' Q) as Hrest.
  { intros o' Hinv'. apply wlp_bind. eapply (IH _ _ _ Hinv'); [intros k; specialize (Hle k); lia|].
    intros t' o'' Ht' Hinv''. apply wlp_ret, HQ.
    - intros k. simpl. rewrite Ht'. done.
    - eapply pipes_inv_ext; [|done]. intros k. simpl. lia. }
  apply wlp_bind. destruct s as [k|].
  - apply (wlp_close_kind cnt); [done| |].
    { specialize (Hle k). unfold is_kind in Hle. rewrite decide_True in Hle by done.
      pose proof (refs_nonneg k t). lia. }
    intros o' Hinv'. apply Hrest. eapply pipes_inv_ext; [|done]. intros k'. unfold bump, is_kind.
    repeat case_decide; simplify_eq; lia.
  - apply wlp_ret, Hrest. eapply pipes_inv_ext; [|done]. intros k. unfold is_kind. simpl. lia.
Qed.

Lemma wlp_reopen_file f o (Q : option File -> Objects D -> Prop) :
  (forall nf fs, Q nf (mkObjects fs (o_pipes o))) -> wlp (reopen_file f) o Q.
Proof. intros HQ. apply wlp_bind, wlp_files. intros a fs. by apply wlp_ret. Qed.

(** What [dup] and [clone_fd_table] do to one slot: a new reference of the same kind, or none. *)
Definition cloned (cnt : FdKind -> Z) (c : option FdKind) (o' : Objects D) : Prop :=
  pipes_inv (fun k => cnt k + is_kind k c) (o_pipes o').

Lemma wlp_clone_kind cnt s o (Q : option FdKind -> Objects D -> Prop) :
  pipes_inv cnt (o_pipes o) -> (forall k, s = Some k -> 1 <= cnt k) ->
  (forall c o', cloned cnt c o' -> Q c o') -> wlp (clone_kind s) o Q.
Proof.
  intros Hinv Hc HQ.
  assert (forall c o', (forall k, c = Some k -> pipe_kind k = None) -> o_pipes o' = o_pipes o -> Q c o') as Hplain.
  { intros c o' Hck Ho. apply HQ. red. rewrite Ho. destruct c as [k|].
    - eapply pipes_inv_ext, (bump_file cnt k 1); [|by apply Hck|done|pose proof (proj1 Hinv k); lia].
      intros k'. unfold bump, is_kind. repeat case_decide; simplify_eq; lia.
    - eapply pipes_inv_ext; [|done]. intros k. unfold is_kind. simpl. lia. }
  assert (forall k ps', pipes_inv (bump k 1 cnt) ps' -> Q (Some k) (mkObjects (o_fs o) ps')) as Hpipe.
  { intros k ps' Hi. apply HQ. eapply pipes_inv_ext; [|done]. intros k'. unfold bump, is_kind.
    repeat case_decide; simplify_eq; lia. }
  destruct s as [[f|id|id| | |]|]; simpl.
  - apply wlp_bind, wlp_reopen_file. intros nf fs. apply wlp_ret, Hplain; [|done].
    intros k. by destruct nf; intros [= <-].
  - apply wlp_bind. eapply (wlp_ref_pipe _ (PipeRead id)); eauto.
    intros ps' Hi. by apply wlp_ret, Hpipe.
  - apply wlp_bind. eapply (wlp_ref_pipe _ (PipeWrite id)); eauto.
    intros ps' Hi. by apply wlp_ret, Hpipe.
  - apply wlp_ret, Hplain; [|done]. by intros k [= <-].
  - apply wlp_ret, Hplain; [|done]. by intros k [= <-].
  - apply wlp_ret, Hplain; [|done]. by intros k [= <-].
  - by apply wlp_ret, Hplain.
Qed.

Lemma wlp_clone_slots t : forall cnt o (Q : FdTable -> Objects D -> Prop),
  pipes_inv cnt (o_pipes o) -> (forall k, 0 < refs k t -> 1 <= cnt k) ->
  (forall t' o', pipes_inv (fun k => cnt k + refs k t') (o_pipes o') -> Q t' o') ->
  wlp (clone_slots t) o Q.
Proof.
  induction t as [|s t IH]; intros cnt o Q Hinv Hle HQ; simpl in *.
  { apply wlp_ret, HQ. eapply pipes_inv_ext; [|done]. intros k. simpl. lia. }
  apply wlp_bind. apply (wlp_clone_kind cnt); [done| |].
  { intros k ->. apply Hle. unfold is_kind. rewrite decide_True by done. pose proof (refs_nonneg k t). lia. }
  intros c o' Hinv'. apply wlp_bind. eapply (IH _ _ _ Hinv').
  { intros k Hk. pose proof (is_kind_nonneg k s). pose proof (is_kind_nonneg k c). specialize (Hle k ltac:(lia)). lia. }
  intros t' o'' Hinv''. apply wlp_ret, HQ. eapply pipes_inv_ext; [|done]. intros k. simpl. lia.
Qed.
End refs.

(** ** All processes *)
Section system.
Context {D : Type} `{!BlockOps D}.

(** The tables of all processes, and what they refer to.  A step is one call by one process; file
    I/O changes the file system in any way, and pipe I/O runs a segment of [read] or [write]. *)
Inductive fd_step : list FdTable * Objects D -> list FdTable * Objects D -> Prop :=
| step_start ts o :
    fd_step (ts, o) (ts ++ [new], o)
| step_fork ts i t t' o o' :
    ts !! i = Some t -> clone_fd_table (Some t) o = Ok t' o' -> fd_step (ts, o) (ts ++ [t'], o')
| step_exit ts i t t' o o' :
    ts !! i = Some t -> close_all t o = Ok t' o' -> fd_step (ts, o) (<[i := t']> ts, o')
| step_pipe ts i t rfd wfd t' o o' :
    ts !! i = Some t -> sys_pipe t o = Ok (rfd, wfd, t') o' -> fd_step (ts, o) (<[i := t']> ts, o')
| step_dup ts i t fd r t' o o' :
    ts !! i = Some t -> dup t fd o = Ok (r, t') o' -> fd_step (ts, o) (<[i := t']> ts, o')
| step_close ts i t fd r t' o o' :
    ts !! i = Some t -> close t fd o = Ok (r, t') o' -> fd_step (ts, o) (<[i := t']> ts, o')
| step_open ts i t kind fd t' fs o :
    ts !! i = Some t -> pipe_kind kind = None -> alloc_fd t kind = (fd, t') ->
    fd_step (ts, o) (<[i := t']> ts, mkObjects fs (o_pipes o))
| step_io ts i t fd f f' fs o :
    ts !! i = Some t -> get_kind t fd = Some (FileDesc f) ->
    fd_step (ts, o) (<[i := <[Z.to_nat fd := Some (FileDesc f')]> t]> ts, mkObjects fs (o_pipes o))
| step_read ts i t fd id buf r p p' o :
    ts !! i = Some t -> get_kind t fd = Some (PipeRead id) -> PIPES (o_pipes o) !! id = Some p ->
    Z.of_nat (List.length buf) <= i32_max -> nread p + PIPE_SIZE < u32_lim ->
    read buf p = Ok r p' ->
    fd_step (ts, o) (ts, mkObjects (o_fs o) (mkPipes (<[id := p']> (PIPES (o_pipes o))) (NEXT_PIPE_ID (o_pipes o))))
| step_write ts i t fd id data written r p p' o :
    ts !! i = Some t -> get_kind t fd = Some (PipeWrite id) -> PIPES (o_pipes o) !! id = Some p ->
    0 <= written <= Z.of_nat (List.length data) -> Z.of_nat (List.length data) <= i32_max ->
    nread p + PIPE_SIZE < u32_lim -> write data written p = Ok r p' ->
    fd_step (ts, o) (ts, mkObjects (o_fs o) (mkPipes (<[id := p']> (PIPES (o_pipes o))) (NEXT_PIPE_ID (o_pipes o)))).

Definition world_ok (w : list FdTable * Objects D) : Prop :=
  pipes_inv (fun k => total k w.1) (o_pipes w.2).

Lemma wlp_Ok {A} (m : M (Objects D) A) o a o' (Q : A -> Objects D -> Prop) :
  wlp m o Q -> m o = Ok a o' -> Q a o'.
Proof. unfold wlp. intros H E. by rewrite E in H. Qed.

Lemma get_kind_refs t fd k : get_kind t fd = Some k -> t !! Z.to_nat fd = Some (Some k).
Proof.
  rewrite get_kind_lookup. destruct (fd <? 0); [done|]. by destruct (t !! Z.to_nat fd) as [[]|]; intros [= ->].
Qed.

(** A table replaced by one with other references. *)
Lemma world_table ts i t t' o (d : FdKind -> Z) :
  ts !! i = Some t -> (forall k, refs k t' = refs k t + d k) ->
  pipes_inv (fun k => total k ts + d k) (o_pipes o) -> world_ok (<[i := t']> ts, o).
Proof.
  intros Hi Ht Hinv. red. eapply pipes_inv_ext; [|done]. intros k. simpl.
  rewrite (total_insert k ts i t t' Hi), Ht. lia.
Qed.

Lemma held ts i t fd k : ts !! i = Some t -> t !! fd = Some (Some k) -> 1 <= total k ts.
Proof. intros Hi Ht. pose proof (refs_ge k t fd Ht). pose proof (total_ge k ts i t Hi). lia. Qed.

Lemma wlp_dup ts i t fd o :
  world_ok (ts, o) -> ts !! i = Some t ->
  wlp (dup t fd) o (fun r o' => world_ok (<[i := r.2]> ts, o')).
Proof.
  intros Hw Hi.
  assert (forall c o', cloned (fun k => total k ts) c o' -> forall kind, c = Some kind ->
    world_ok (<[i := (alloc_fd t kind).2]> ts, o')) as Hgo.
  { intros c o' Hc kind ->. eapply (world_table _ _ _ _ _ (fun k => is_kind k (Some kind))); [done| |done].
    intros k. apply alloc_fd_refs. }
  assert (world_ok (<[i := t]> ts, o)) as Hsame by (by rewrite list_insert_id).
  unfold dup. destruct (bad_fd t fd); [by apply wlp_ret|].
  destruct (slot t fd) as [k|] eqn:Hs; [|by apply wlp_ret].
  assert (t !! Z.to_nat fd = Some (Some k)) as Hl.
  { unfold slot in Hs. by destruct (t !! Z.to_nat fd) as [[]|]; simplify_eq/=. }
  pose proof (held _ _ _ _ _ Hi Hl) as Hheld.
  pose proof (wlp_clone_kind (fun k => total k ts) (Some k) o
    (fun c o' => forall kind, c = Some kind -> world_ok (<[i := (alloc_fd t kind).2]> ts, o')) Hw
    ltac:(by intros ? [= <-]) Hgo) as Hcl.
  destruct k as [f|id|id| | |]; simpl in Hcl |- *; unfold wlp, bind, ret in *.
  - destruct (reopen_file f o) as [[nf|] o'| | |] eqn:E; simpl in *; try done; [by apply Hcl|].
    assert (o_pipes o' = o_pipes o) as Ep.
    { apply (wlp_Ok _ _ _ _ (fun _ o' => o_pipes o' = o_pipes o)) in E; [done|]. by apply wlp_reopen_file. }
    red. simpl. rewrite Ep. by rewrite list_insert_id.
  - destruct (pipes _ o); try done. by apply Hcl.
  - destruct (pipes _ o); try done. by apply Hcl.
  - by apply Hcl.
  - by apply Hcl.
  - by apply Hcl.
Qed.

Lemma wlp_close ts i t fd o :
  world_ok (ts, o) -> ts !! i = Some t ->
  wlp (close t fd) o (fun r o' => world_ok (<[i := r.2]> ts, o')).
Proof.
  intros Hw Hi. assert (world_ok (<[i := t]> ts, o)) as Hsame by (by rewrite list_insert_id).
  unfold close. destruct (bad_fd t fd); [by apply wlp_ret|].
  destruct (slot t fd) as [k|] eqn:Hs; [|by apply wlp_ret].
  assert (t !! Z.to_nat fd = Some (Some k)) as Hl.
  { unfold slot in Hs. by destruct (t !! Z.to_nat fd) as [[]|]; simplify_eq/=. }
  apply wlp_bind, (wlp_close_kind (fun k => total k ts)); [done|by eapply held|].
  intros o' Hinv. apply wlp_ret. simpl.
  eapply (world_table _ _ _ _ _ (fun k' => if decide (k' = k) then -1 else 0)); [done| |done].
  intros k'. rewrite (refs_insert _ _ _ _ _ Hl). unfold is_kind. repeat case_decide; simplify_eq; lia.
Qed.

(** Pipe I/O keeps the ends. *)
Lemma world_pipe ts o id p p' :
  world_ok (ts, o) -> PIPES (o_pipes o) !! id = Some p -> pipe_ok p' -> same_ends p p' ->
  world_ok (ts, mkObjects (o_fs o) (mkPipes (<[id := p']> (PIPES (o_pipes o))) (NEXT_PIPE_ID (o_pipes o)))).
Proof.
  intros Hw Hp Hp' (_ & _ & Hr & Hwr). pose proof Hw as (Hnn & H1 & _). destruct (H1 id p Hp) as (_ & E1 & E2 & E3).
  eapply pipes_inv_upd; try done; simpl in *; congruence.
Qed.

(** Only the counts of pipe ends matter. *)
Lemma world_same ts ts' o o' :
  o_pipes o' = o_pipes o ->
  (forall k id, pipe_kind k = Some id -> total k ts' = total k ts) -> world_ok (ts, o) -> world_ok (ts', o').
Proof.
  intros Eo E (H0 & H1 & H2 & H3). unfold world_ok. simpl. rewrite Eo. split_and!; [intros k; apply total_nonneg| | |done].
  - intros id p Hp. rewrite !(E _ id) by done. by apply H1.
  - intros id Hp. rewrite !(E _ id) by done. by apply H2.
Qed.

Lemma fd_step_ok w w' : fd_step w w' -> world_ok w -> world_ok w'.
Proof.
  intros Hst Hw. destruct Hst as [ts o|ts i t t' o o' Hi E|ts i t t' o o' Hi E|ts i t rfd wfd t' o o' Hi E
    |ts i t fd r t' o o' Hi E|ts i t fd r t' o o' Hi E|ts i t kind fd t' fs o Hi Hk E
    |ts i t fd f f' fs o Hi Hk|ts i t fd id buf r p p' o Hi Hk Hp Hl Hlim E
    |ts i t fd id data written r p p' o Hi Hk Hp Hwr Hl Hlim E].
  - eapply world_same; [done| |exact Hw]. intros k id Hk. rewrite total_app.
    destruct k; simplify_eq/=; unfold is_kind; simpl; lia.
  - eapply (wlp_Ok _ _ _ _ (fun t' o' => world_ok (ts ++ [t'], o'))); [|exact E].
    eapply wlp_clone_slots; [exact Hw| |].
    { intros k Hk. simpl. pose proof (total_ge k ts i t Hi). lia. }
    intros t1 o1 Hinv. eapply pipes_inv_ext; [|exact Hinv]. intros k. simpl. rewrite total_app. simpl. lia.
  - eapply (wlp_Ok _ _ _ _ (fun t' o' => world_ok (<[i:=t']> ts, o'))); [|exact E].
    eapply wlp_close_all; [exact Hw|intros k; by eapply total_ge|].
    intros t1 o1 Ht1 Hinv. eapply (world_table _ _ _ _ _ (fun k => - refs k t)); [done|intros k; rewrite Ht1; lia|].
    eapply pipes_inv_ext; [|exact Hinv]. intros k. simpl. lia.
  - eapply (wlp_Ok _ _ _ _ (fun r o' => world_ok (<[i:=r.2]> ts, o'))) in E; [exact E|].
    apply wlp_bind. eapply wlp_create_pipe; [exact Hw|]. intros id ps' Hinv.
    destruct (open_pipe_read t id) as [r1 t1] eqn:E1. destruct (open_pipe_write t1 id) as [r2 t2] eqn:E2.
    apply wlp_ret. simpl. eapply (world_table _ _ _ _ _
      (fun k => is_kind k (Some (PipeRead id)) + is_kind k (Some (PipeWrite id)))); [done| |].
    + intros k. apply (f_equal snd) in E1. apply (f_equal snd) in E2. simpl in E1, E2. subst t1 t2.
      unfold open_pipe_read, open_pipe_write. rewrite !alloc_fd_refs. lia.
    + eapply pipes_inv_ext; [|exact Hinv]. intros k. unfold bump, is_kind. simpl. repeat case_decide; simplify_eq; lia.
  - by eapply (wlp_Ok _ _ (r, t') _ (fun r o' => world_ok (<[i:=r.2]> ts, o'))); [eapply wlp_dup|].
  - by eapply (wlp_Ok _ _ (r, t') _ (fun r o' => world_ok (<[i:=r.2]> ts, o'))); [eapply wlp_close|].
  - apply (f_equal snd) in E. simpl in E. subst t'. eapply world_same; [done| |exact Hw].
    intros k id Hk'. rewrite (total_insert _ _ _ _ _ Hi), alloc_fd_refs. unfold is_kind.
    rewrite decide_False by congruence. simpl. lia.
  - apply get_kind_refs in Hk. eapply world_same; [done| |exact Hw].
    intros k id Hk'. rewrite (total_insert _ _ _ _ _ Hi), (refs_insert _ _ _ _ _ Hk). unfold is_kind.
    rewrite !decide_False by (by intros [= <-]). simpl. lia.
  - pose proof Hw as (_ & H1 & _). destruct (H1 id p Hp) as [Hok _].
    pose proof (wp_read buf p Hok Hl Hlim) as Hrd. unfold wp in Hrd. rewrite E in Hrd.
    destruct Hrd as (Hp' & _ & Hse & _). by eapply world_pipe.
  - pose proof Hw as (_ & H1 & _). destruct (H1 id p Hp) as [Hok _].
    pose proof (wp_pipe_write_loop (S (List.length data)) data written p Hok Hwr Hl Hlim ltac:(lia)) as Hrd.
    unfold wp in Hrd. unfold write in E. rewrite E in Hrd. destruct Hrd as (Hp' & _ & Hse & _). by eapply world_pipe.
Qed.

(** C4: in every reachable state of all processes' tables (starting without processes or pipes
    and taking any sequence of process starts, forks, exits, pipe, dup, close, open and I/O
    calls), the two reference counts of a pipe are exactly the numbers of descriptors, in all
    processes, that name its ends; an end is open exactly when such a descriptor exists, a pipe
    with no descriptor is gone, and a descriptor never names a pipe that is gone. *)
Theorem pipe_refs_counted (fs : FS D) next ts o :
  rtc fd_step ([], mkObjects fs (mkPipes ∅ next)) (ts, o) ->
  forall id, match PIPES (o_pipes o) !! id with
  | Some p =>
      read_refcnt p = total (PipeRead id) ts /\ write_refcnt p = total (PipeWrite id) ts /\
      (read_open p = true <-> 0 < total (PipeRead id) ts) /\
      (write_open p = true <-> 0 < total (PipeWrite id) ts) /\
      0 < total (PipeRead id) ts + total (PipeWrite id) ts
  | None => total (PipeRead id) ts = 0 /\ total (PipeWrite id) ts = 0
  end.
Proof.
  intros Hr.
  assert (world_ok (ts, o)) as (Hnn & H1 & H2 & _).
  { refine (rtc_ind_r (R := fd_step) world_ok _ _ _ _ Hr); [|intros ? ? _ Hst Hok; by eapply fd_step_ok].
    split_and!; simpl; [lia|by intros id p ?%lookup_empty_Some|done|by intros id [? ?%lookup_empty_Some]]. }
  intros id. destruct (PIPES (o_pipes o) !! id) as [p|] eqn:E; [|by apply H2].
  destruct (H1 id p E) as (Hok & Hrc & Hwc & Hpos). simpl in *.
  pose proof (Hnn (PipeRead id)). pose proof (Hnn (PipeWrite id)).
  rewrite (po_ropen _ Hok), (po_wopen _ Hok), Hrc, Hwc. split_and!; try done; zbool; split; done || lia.
Qed.

(** Closing a pipe descriptor never fails.  In a state where every pipe's counts are those
    of the descriptors, closing descriptor [fd] of process [i], which names an end of pipe [id],
    returns true, and the pipe disappears exactly when no other descriptor of any process names
    either of its ends. *)
Theorem close_pipe_fd ts o i t fd k id :
  world_ok (ts, o) -> ts !! i = Some t -> get_kind t fd = Some k -> pipe_kind k = Some id ->
  exists o', close t fd o = Ok (true, <[Z.to_nat fd := None]> t) o' /\
    (PIPES (o_pipes o') !! id = None <-> total (PipeRead id) ts + total (PipeWrite id) ts = 1).
Proof.
  intros Hw Hi Hk Hpk. pose proof (get_kind_refs _ _ _ Hk) as Hl. pose proof (held _ _ _ _ _ Hi Hl) as Hh.
  assert (wp (close_kind k) o (fun _ o' => pipes_inv (bump k (-1) (fun k => total k ts)) (o_pipes o'))) as Hc.
  { by eapply wp_close_pipe. }
  apply wp_ok in Hc as ([] & o' & Hrun & Hnn & H1 & H2 & _). exists o'. split.
  - unfold get_kind in Hk. unfold close. destruct (bad_fd t fd); [done|]. rewrite Hk. unfold bind. by rewrite Hrun.
  - assert (bump k (-1) (fun k => total k ts) (PipeRead id) + bump k (-1) (fun k => total k ts) (PipeWrite id)
            = total (PipeRead id) ts + total (PipeWrite id) ts - 1) as E.
    { unfold bump. destruct k; simplify_eq/=; repeat case_decide; simplify_eq; lia. }
    destruct (PIPES (o_pipes o') !! id) as [p|] eqn:Ep.
    + destruct (H1 id p Ep) as (_ & _ & _ & ?). split; [done|lia].
    + destruct (H2 id Ep). split; [lia|done].
Qed.

End system.

(** A process opens a pipe and forks; both tables name both ends. *)
Definition demo_objects : Objects RamDisk := mkObjects demo_fs (mkPipes ∅ 1).
Definition piped : FdTable := new ++ [Some (PipeRead 1); Some (PipeWrite 1)].

Definition demo_piped : Objects RamDisk := mkObjects demo_fs (mkPipes {[ 1 := Pipe.new ]} 2).
Definition demo_forked : Objects RamDisk :=
  mkObjects demo_fs (mkPipes {[ 1 := with_write_end true 2 (with_read_end true 2 Pipe.new) ]} 2).

Lemma demo_trace : rtc fd_step ([], demo_objects) ([piped; piped], demo_forked).
Proof.
  eapply rtc_l; [apply step_start|].
  apply (rtc_l _ _ ([piped], demo_piped)).
  { apply (step_pipe [new] 0 new 3 4 piped); [reflexivity|vm_compute; reflexivity]. }
  apply rtc_once, (step_fork [piped] 0 piped piped); [reflexivity|vm_compute; reflexivity].
Qed.

Lemma pipe_refs_counted_witness :
  exists p, PIPES (o_pipes demo_forked) !! 1 = Some p /\ read_refcnt p = 2 /\ write_refcnt p = 2.
Proof.
  pose proof (pipe_refs_counted demo_fs 1 _ _ demo_trace 1) as H.
  eexists. split; [reflexivity|]. split; [exact (proj1 H)|exact (proj1 (proj2 H))].
Defined.

Lemma close_pipe_fd_witness :
  exists o', close piped 3 demo_piped = Ok (true, <[3%nat := None]> piped) o' /\
    (PIPES (o_pipes o') !! 1 = None <-> total (PipeRead 1) [piped] + total (PipeWrite 1) [piped] = 1).
Proof.
  apply (close_pipe_fd [piped] demo_piped 0 piped 3 (PipeRead 1) 1); [|reflexivity..].
  apply (fd_step_ok ([new], demo_objects));
    [apply (step_pipe [new] 0 new 3 4 piped); [reflexivity|vm_compute; reflexivity]|].
  split_and!; simpl.
  - intros k. unfold is_kind. repeat case_decide; lia.
  - by intros id p ?%lookup_empty_Some.
  - done.
  - by intros id [? ?%lookup_empty_Some].
Defined.
