(* ===== verification/Malloc.v ===== *)
(** The kernel heap (src/mem/malloc.rs): a first-fit free list threaded through the free blocks
    of a region of pages, with large requests passed on to the page allocator. *)
From S2P Require Import Prelude Memory Palloc.

Definition HEAP_INIT_PAGES : Z := 256.

(** [size_of::<FreeBlock>()] and [align_of::<FreeBlock>()] on i686. *)
Definition FB_SIZE : Z := 8.
Definition FB_ALIGN : Z := 4.

(** The page allocator's state with the memory, and the heap's variables. *)
Record Heap := mkHeap {
  h_pa : Palloc;
  HEAP_START : Z;
  HEAP_SIZE : Z;
  FREE_LIST : Z;
  HEAP_INITIALISED : bool;
}.

Record Layout := mkLayout { l_size : Z; l_align : Z }.

Definition with_pa (pa : Palloc) (h : Heap) : Heap :=
  mkHeap pa (HEAP_START h) (HEAP_SIZE h) (FREE_LIST h) (HEAP_INITIALISED h).
Definition with_list (a : Z) (h : Heap) : Heap :=
  mkHeap (h_pa h) (HEAP_START h) (HEAP_SIZE h) a (HEAP_INITIALISED h).
Definition on_pa {A} (m : M Palloc A) : M Heap A := zoom h_pa with_pa m.
Definition h_mem (h : Heap) : Mem := p_mem (h_pa h).

(** The fields of the [FreeBlock] at [b]. *)
Definition load (a : Z) : M Heap Z := gets (fun h => read_u32 (h_mem h) a).
Definition put (a v : Z) : M Heap unit :=
  modify (fun h => with_pa (with_mem (write_u32 a v (h_mem h)) (h_pa h)) h).
Definition size_of (b : Z) : Z := b.
Definition next_of (b : Z) : Z := b + 4.

Definition init : M Heap unit :=
  let! pages := on_pa (get_multiple (Z.lor ASSERT ZERO) HEAP_INIT_PAGES) in
  assert (negb (pages =? 0)) "malloc::init: failed to allocate heap" ;;
  let! n := u32_mul HEAP_INIT_PAGES PGSIZE in
  modify (fun h => mkHeap (h_pa h) pages n (FREE_LIST h) (HEAP_INITIALISED h)) ;;
  put (size_of pages) n ;;
  put (next_of pages) 0 ;;
  modify (fun h => mkHeap (h_pa h) (HEAP_START h) (HEAP_SIZE h) pages true).

Definition align_up {S} (val align : Z) : M S Z :=
  let! a := u32_add val align in
  let! a := u32_sub a 1 in
  let! mask := u32_sub align 1 in
  ret (Z.land a (not_w 32 mask)).

(** The alignment and the size of the block that serves a layout. *)
Definition block_align (l : Layout) : Z := Z.max (l_align l) FB_ALIGN.
Definition block_size (l : Layout) : M Heap Z := align_up (Z.max (l_size l) FB_SIZE) (block_align l).

(** The link that leads to the current block: [FREE_LIST], or the previous block's [next]. *)
Definition set_link (prev v : Z) : M Heap unit :=
  if prev =? 0 then modify (with_list v) else put (next_of prev) v.

(** The search of [alloc]; every turn follows one link of the list. *)
Fixpoint first_fit (fuel : nat) (size align prev cur : Z) : M Heap Z :=
  if cur =? 0 then ret 0
  else
    match fuel with
    | O => fun _ => OutOfFuel
    | S fuel' =>
        let! data_start := align_up cur align in
        let! padding := u32_sub data_start cur in
        let! needed := u32_add size padding in
        let! csize := load (size_of cur) in
        if needed <=? csize then
          let! remaining := u32_sub csize needed in
          (if FB_SIZE <=? remaining then
             let! new_block := u32_add cur needed in
             put (size_of new_block) remaining ;;
             let! nxt := load (next_of cur) in
             put (next_of new_block) nxt ;;
             set_link prev new_block
           else
             let! nxt := load (next_of cur) in
             set_link prev nxt) ;;
          ret data_start
        else
          let! nxt := load (next_of cur) in
          first_fit fuel' size align cur nxt
    end.

(** [alloc]; the free list has at most [HEAP_SIZE / 8] blocks. *)
Definition alloc (l : Layout) : M Heap Z :=
  let! ready := gets HEAP_INITIALISED in
  if negb ready then on_pa (get_multiple ZERO (div_ceil (l_size l) PGSIZE))
  else
    let align := block_align l in
    let! size := block_size l in
    if PGSIZE <=? size then on_pa (get_multiple ZERO (div_ceil size PGSIZE))
    else
      let! cur := gets FREE_LIST in
      let! n := gets HEAP_SIZE in
      first_fit (S (Z.to_nat (n / FB_SIZE))) size align 0 cur.

Definition dealloc (ptr : Z) (l : Layout) : M Heap unit :=
  if ptr =? 0 then ret tt
  else
    let! size := block_size l in
    if PGSIZE <=? size then on_pa (free_multiple ptr (div_ceil size PGSIZE))
    else
      put (size_of ptr) size ;;
      let! head := gets FREE_LIST in
      put (next_of ptr) head ;;
      modify (with_list ptr).

(** ** Alignment *)
Definition pow2 (a : Z) : Prop := exists k, 0 <= k < 32 /\ a = 2 ^ k.

Lemma pow2_pos a : pow2 a -> 0 < a.
Proof. intros (k & Hk & ->). apply Z.pow_pos_nonneg; lia. Qed.

Lemma wp_align_up {S} val align (s : S) (Q : Z -> S -> Prop) :
  pow2 align -> 0 <= val -> val + align < u32_lim ->
  (forall r, val <= r < val + align -> r mod align = 0 -> Q r s) -> wp (align_up val align) s Q.
Proof.
  intros Hp Hv Hlim HQ. pose proof (pow2_pos _ Hp) as H0. destruct Hp as (k & Hk & Ek). unfold align_up.
  apply wp_bind, wp_u32_add; [done|]. apply wp_bind, wp_u32_sub; [lia|]. apply wp_bind, wp_u32_sub; [lia|].
  apply wp_ret. replace (align - 1) with (Z.ones k) by (rewrite Z.ones_equiv, Ek; lia).
  rewrite land_not_ones by (unfold in_u32; lia). rewrite <- Ek.
  pose proof (Z.mod_pos_bound (val + align - 1) align H0). apply HQ; [lia|].
  rewrite Zminus_mod_idemp_r, Z.sub_diag. apply Z.mod_0_l. lia.
Qed.

(** ** The heap's invariant *)
Record block := mkBlock { b_start : Z; b_size : Z }.
Definition b_end (b : block) : Z := b_start b + b_size b.
Definition inside (b : block) (x : Z) : Prop := b_start b <= x < b_end b.
Definition apart (b c : block) : Prop := b_end b <= b_start c \/ b_end c <= b_start b.

(** The free list from [a], which ends in a link to [z]. *)
Fixpoint chain (m : Mem) (a : Z) (l : list block) (z : Z) : Prop :=
  match l with
  | [] => a = z
  | b :: l' => a = b_start b /\ read_u32 m a = b_size b /\ chain m (read_u32 m (a + 4)) l' z
  end.

Definition block_ok (h : Heap) (b : block) : Prop :=
  HEAP_START h <= b_start b /\ b_end b <= HEAP_START h + HEAP_SIZE h /\ FB_SIZE <= b_size b /\
  b_start b mod FB_ALIGN = 0 /\ b_size b mod FB_ALIGN = 0.

Fixpoint all_apart (l : list block) : Prop :=
  match l with [] => True | b :: l' => Forall (apart b) l' /\ all_apart l' end.

(** The pages of the heap are handed out by the page allocator, and not its bitmaps. *)
Definition region_ok (h : Heap) : Prop :=
  0 < HEAP_START h /\ HEAP_START h + HEAP_SIZE h + PGSIZE < u32_lim /\ 0 <= HEAP_SIZE h /\
  forall x, HEAP_START h <= x < HEAP_START h + HEAP_SIZE h ->
    ~ in_bitmaps (h_pa h) x /\ live (h_pa h) (x - x mod PGSIZE) = true.

(** [free]: the free list.  [used]: the blocks handed out and not given back. *)
Record heap_ok (h : Heap) (free used : list block) : Prop := {
  ho_init : HEAP_INITIALISED h = true;
  ho_pa : pa_ok (h_pa h);
  ho_region : region_ok h;
  ho_chain : chain (h_mem h) (FREE_LIST h) free 0;
  ho_blocks : Forall (block_ok h) (free ++ used);
  ho_apart : all_apart (free ++ used);
}.

Lemma apart_sym b c : apart b c -> apart c b.
Proof. unfold apart. lia. Qed.

Lemma all_apart_app l1 l2 :
  all_apart (l1 ++ l2) <-> all_apart l1 /\ all_apart l2 /\ Forall (fun b => Forall (apart b) l2) l1.
Proof.
  induction l1 as [|b l1 IH]; simpl.
  - split; [|by intros (_ & ? & _)]. intros H. by repeat split.
  - rewrite IH, Forall_app, Forall_cons. tauto.
Qed.

Lemma all_apart_perm l1 l2 : l1 ≡ₚ l2 -> all_apart l1 -> all_apart l2.
Proof.
  induction 1 as [|b l1 l2 Hp IH|b c l|l1 l2 l3 _ IH1 _ IH2]; simpl; [done| |..].
  - intros [Hf Ha]. split; [by rewrite <- Hp|auto].
  - rewrite !Forall_cons. intros [[Hbc Hb] [Hc Ha]]. auto using apart_sym.
  - auto.
Qed.

(** Writing outside the headers leaves the list alone. *)
Lemma chain_frame m m' a l z :
  Forall (fun b => forall x, b_start b <= x < b_start b + 8 -> m' x = m x) l ->
  chain m a l z -> chain m' a l z.
Proof.
  revert a. induction l as [|b l IH]; intros a Hf; simpl; [done|].
  apply Forall_cons in Hf as [Hb Hf]. intros (-> & Hs & Hc).
  rewrite !(read_u32_frame m m') by (intros; apply Hb; lia). split_and!; [done|done|]. by apply IH.
Qed.

Lemma chain_app m a l1 l2 z :
  chain m a (l1 ++ l2) z <-> exists c, chain m a l1 c /\ chain m c l2 z.
Proof.
  revert a. induction l1 as [|b l1 IH]; intros a; simpl.
  - split; [by exists a|]. by intros (c & -> & ?).
  - rewrite IH. split; [intros (? & ? & c & ? & ?); by exists c|].
    intros (c & (? & ? & ?) & ?). eauto.
Qed.

(** A change inside the heap only: the variables but [FREE_LIST] stay, and the bytes outside [P]. *)
Record touched (P : Z -> Prop) (h h' : Heap) : Prop := {
  to_start : HEAP_START h' = HEAP_START h;
  to_size : HEAP_SIZE h' = HEAP_SIZE h;
  to_init : HEAP_INITIALISED h' = HEAP_INITIALISED h;
  to_kernel : KERNEL_POOL (h_pa h') = KERNEL_POOL (h_pa h);
  to_user : USER_POOL (h_pa h') = USER_POOL (h_pa h);
  to_mem : forall x, ~ P x -> h_mem h' x = h_mem h x;
}.

Lemma touched_refl P h : touched P h h.
Proof. by split. Qed.

Lemma touched_trans P h1 h2 h3 : touched P h1 h2 -> touched P h2 h3 -> touched P h1 h3.
Proof.
  intros [] []. split; try congruence. intros x Hx. rewrite to_mem1 by done. auto.
Qed.

Lemma touched_mono (P Q : Z -> Prop) h h' : (forall x, P x -> Q x) -> touched P h h' -> touched Q h h'.
Proof. intros HPQ []. split; try done. intros x Hx. apply to_mem0. auto. Qed.

Lemma touched_put P h a v :
  (forall x, a <= x < a + 4 -> P x) ->
  touched P h (with_pa (with_mem (write_u32 a v (h_mem h)) (h_pa h)) h).
Proof. intros HP. split; try done. intros x Hx. apply write_u32_frame. auto. Qed.

Definition in_heap (h : Heap) (x : Z) : Prop := HEAP_START h <= x < HEAP_START h + HEAP_SIZE h.

(** Such a change keeps the page allocator and the region. *)
Lemma touched_region P h h' :
  touched P h h' -> (forall x, P x -> in_heap h x) -> pa_ok (h_pa h) -> region_ok h ->
  pa_ok (h_pa h') /\ region_ok h'.
Proof.
  intros [] HP Hpa (H0 & Hlim & Hsz & Hx). pose proof Hpa as [Hk Hu Hd].
  assert (forall a, live (h_pa h') a = live (h_pa h) a) as Hl.
  { apply live_frame; try done. intros x Hb. apply to_mem0. intros Hp.
    by destruct (Hx x (HP x Hp)). }
  split; [split; congruence|]. unfold region_ok. rewrite to_start0, to_size0. split_and!; try done.
  intros x Hin. rewrite Hl. destruct (Hx x Hin). split; [|done].
  unfold in_bitmaps in *. by rewrite to_kernel0, to_user0.
Qed.

Lemma block_ok_touched P h h' b : touched P h h' -> block_ok h b -> block_ok h' b.
Proof. intros [] (?&?&?&?&?). unfold block_ok. by rewrite to_start0, to_size0. Qed.

(** ** Links *)
Definition prev_of (pre : list block) : Z :=
  match last pre with Some p => b_start p | None => 0 end.

(** Redirecting the link behind [pre]. *)
Lemma wp_set_link pre c v h (Q : unit -> Heap -> Prop) :
  chain (h_mem h) (FREE_LIST h) pre c -> all_apart pre -> in_u32 v ->
  Forall (fun b => 0 < b_start b /\ FB_SIZE <= b_size b) pre ->
  (forall h', touched (fun x => exists b, b ∈ pre /\ inside b x) h h' ->
     chain (h_mem h') (FREE_LIST h') pre v -> Q tt h') ->
  wp (set_link (prev_of pre) v) h Q.
Proof.
  intros Hc Hap Hv Hf HQ. unfold set_link, prev_of.
  destruct pre as [|p pre _] using rev_ind; simpl.
  { apply wp_modify, HQ; [by split|done]. }
  rewrite last_snoc. apply Forall_app in Hf as [Hf Hp]. apply Forall_cons in Hp as [[Hp0 Hp8] _].
  unfold FB_SIZE in *. rewrite (proj2 (Z.eqb_neq _ _)) by lia.
  apply chain_app in Hc as (a & Hpre & -> & Hs & Hn). simpl in Hn.
  apply all_apart_app in Hap as (_ & _ & Hap).
  apply wp_modify, HQ.
  - apply touched_put. intros x Hx. exists p. unfold next_of in Hx. unfold inside, b_end. split; [|lia].
    apply elem_of_app. right. by apply list_elem_of_singleton.
  - apply chain_app. exists (b_start p). unfold h_mem. simpl. split.
    + eapply chain_frame; [|exact Hpre]. apply Forall_forall. intros b Hb x Hx. apply write_u32_frame.
      rewrite Forall_forall in Hap, Hf. specialize (Hap b Hb). apply Forall_cons in Hap as [Hap _].
      specialize (Hf b Hb). unfold next_of, apart, b_end in *. lia.
    + unfold next_of. rewrite read_write_u32_ne by lia. rewrite read_write_u32 by done. done.
Qed.

(** ** Carving a block out of a free one *)
Definition sub (b c : block) : Prop := b_start c <= b_start b /\ b_end b <= b_end c.

Lemma sub_apart b c l : sub b c -> Forall (apart c) l -> Forall (apart b) l.
Proof. intros [H1 H2] H. eapply Forall_impl; [exact H|]. unfold apart. intros d. lia. Qed.

Lemma all_apart_carve pre b rest used nf r :
  all_apart ((pre ++ b :: rest) ++ used) -> Forall (fun c => sub c b) (r :: nf) -> all_apart (r :: nf) ->
  all_apart ((pre ++ nf ++ rest) ++ r :: used).
Proof.
  intros Ha Hsub Hnew.
  apply (all_apart_perm _ (b :: pre ++ rest ++ used)) in Ha.
  2:{ solve_Permutation. }
  destruct Ha as [Hb Ha].
  apply (all_apart_perm ((r :: nf) ++ pre ++ rest ++ used)).
  { solve_Permutation. }
  apply all_apart_app. split_and!; [done|done|]. eapply Forall_impl; [exact Hsub|].
  intros c Hc. exact (sub_apart c b _ Hc Hb).
Qed.

Definition free_byte (free : list block) (x : Z) : Prop := exists b, b ∈ free /\ inside b x.

Lemma heap_ok_carve h h' pre b rest used nf r :
  heap_ok h (pre ++ b :: rest) used -> touched (free_byte (pre ++ b :: rest)) h h' ->
  chain (h_mem h') (FREE_LIST h') (pre ++ nf ++ rest) 0 ->
  Forall (fun c => sub c b /\ FB_SIZE <= b_size c /\ b_start c mod FB_ALIGN = 0 /\ b_size c mod FB_ALIGN = 0)
    (r :: nf) ->
  all_apart (r :: nf) -> heap_ok h' (pre ++ nf ++ rest) (r :: used).
Proof.
  intros [Hi Hpa Hreg Hc Hb Ha] Ht Hch Hnew Hnap.
  assert (block_ok h b) as Hbk.
  { rewrite !Forall_app, Forall_cons in Hb. tauto. }
  assert (forall x, free_byte (pre ++ b :: rest) x -> in_heap h x) as Hin.
  { intros x (d & Hd & Hx). rewrite Forall_app in Hb. destruct Hb as [Hb _].
    rewrite Forall_forall in Hb. destruct (Hb d Hd) as (?&?&_). unfold inside, in_heap in *. lia. }
  destruct (touched_region _ _ _ Ht Hin Hpa Hreg) as [Hpa' Hreg'].
  split; try done.
  - rewrite (to_init _ _ _ Ht). done.
  - assert (Forall (block_ok h) (r :: nf)) as Hnb.
    { eapply Forall_impl; [exact Hnew|]. intros c ([? ?] & ? & ? & ?).
      destruct Hbk as (?&?&?&?&?). unfold block_ok. split_and!; try done; lia. }
    apply Forall_cons in Hnb as [Hnr Hnb].
    eapply Forall_impl; [|intros c; by eapply block_ok_touched].
    rewrite !Forall_app, !Forall_cons in *. tauto.
  - eapply all_apart_carve; try done. eapply Forall_impl; [exact Hnew|]. by intros c [? _].
Qed.

(** A free block has no aligned room for [size] bytes. *)
Definition no_room (size align : Z) (b : block) : Prop :=
  forall a, b_start b <= a -> a mod align = 0 -> b_end b < a + size.

Definition fit_post (size align : Z) (h : Heap) (free used : list block) (r : Z) (h' : Heap) : Prop :=
  (r = 0 /\ h' = h /\ Forall (no_room size align) free) \/
  (0 < r /\ r mod align = 0 /\ touched (free_byte free) h h' /\
   exists free', heap_ok h' free' (mkBlock r size :: used)).

Lemma aligned_above val align r a :
  0 < align -> r < val + align -> r mod align = 0 -> val <= a -> a mod align = 0 -> r <= a.
Proof.
  intros H0 Hr Hm Ha Hma. apply Z.mod_divide in Hm as [k ->], Hma as [j ->]; [|lia..].
  destruct (decide (k <= j)); nia.
Qed.

Section fit.
Context (size align : Z) (Hpow : pow2 align) (Hal4 : align mod FB_ALIGN = 0)
  (Hsize : FB_SIZE <= size < PGSIZE) (Hmul : size mod align = 0).

Lemma align_bounds : 0 < align <= size.
Proof.
  pose proof (pow2_pos _ Hpow) as H0. split; [done|]. apply Z.mod_divide in Hmul as [k Hk]; [|lia].
  assert (8 <= size) by apply Hsize. assert (1 <= k) by nia. nia.
Qed.

Lemma aligned_4 a : a mod align = 0 -> a mod FB_ALIGN = 0.
Proof.
  pose proof align_bounds. intros Ha. apply Z.mod_divide in Ha as [k ->]; [|lia].
  rewrite Z.mul_mod, Hal4, Z.mul_0_r by done. done.
Qed.

Lemma mod4_sub a b : a mod FB_ALIGN = 0 -> b mod FB_ALIGN = 0 -> (a - b) mod FB_ALIGN = 0.
Proof. intros Ha Hb. rewrite Zminus_mod, Ha, Hb. done. Qed.
Lemma mod4_add a b : a mod FB_ALIGN = 0 -> b mod FB_ALIGN = 0 -> (a + b) mod FB_ALIGN = 0.
Proof. intros Ha Hb. rewrite Zplus_mod, Ha, Hb. done. Qed.

(** The search has passed over [pre] and stands at [b]: it splits [b] or takes it whole. *)
Lemma wp_take pre b rest used h data :
  heap_ok h (pre ++ b :: rest) used ->
  chain (h_mem h) (FREE_LIST h) pre (b_start b) -> chain (h_mem h) (b_start b) (b :: rest) 0 ->
  b_start b <= data -> data mod align = 0 -> data + size <= b_end b ->
  wp ((if FB_SIZE <=? b_end b - (data + size) then
         let! new_block := u32_add (b_start b) (size + (data - b_start b)) in
         put (size_of new_block) (b_end b - (data + size)) ;;
         let! nxt := load (next_of (b_start b)) in
         put (next_of new_block) nxt ;;
         set_link (prev_of pre) new_block
       else
         let! nxt := load (next_of (b_start b)) in
         set_link (prev_of pre) nxt) ;;
      ret data) h (fit_post size align h (pre ++ b :: rest) used).
Proof.
  intros Hok Hpre Hcur Hd Hda Hfit. pose proof align_bounds as Hab. unfold FB_SIZE in Hsize.
  pose proof Hok as [Hi Hpa Hreg Hc Hb Ha]. destruct Hreg as (Hst & Hlim & _ & _).
  destruct Hcur as (_ & Hbs & Hrest). fold (next_of (b_start b)) in Hrest.
  set (nxt := read_u32 (h_mem h) (next_of (b_start b))) in *.
  apply all_apart_app in Ha as (Ha & _ & _). apply all_apart_app in Ha as (Hap & [Hbr _] & Hpb).
  rewrite Forall_app in Hb. destruct Hb as [Hb _]. rewrite Forall_app, Forall_cons in Hb.
  destruct Hb as (Hbp & Hbb & Hbrest).
  assert (in_u32 nxt) as Hnx.
  { destruct rest as [|c rest']; simpl in Hrest; [by rewrite Hrest|]. destruct Hrest as (-> & _).
    apply Forall_cons in Hbrest as [(?&?&?&_) _]. unfold in_u32, b_end, PGSIZE, FB_SIZE in *. lia. }
  assert (Forall (fun b => 0 < b_start b /\ FB_SIZE <= b_size b) pre) as Hpp.
  { eapply Forall_impl; [exact Hbp|]. intros c (?&?&?&_). split; lia. }
  assert (forall c, c ∈ pre -> apart c b) as Hpb'.
  { intros c Hc'. rewrite Forall_forall in Hpb. specialize (Hpb c Hc'). by apply Forall_cons in Hpb as [? _]. }
  assert (forall c d, c ∈ pre -> d ∈ rest -> apart c d) as Hpr.
  { intros c d Hc' Hd'. rewrite Forall_forall in Hpb. specialize (Hpb c Hc').
    apply Forall_cons in Hpb as [_ Hpb]. rewrite Forall_forall in Hpb. auto. }
  destruct Hbb as (Hb1 & Hb2 & Hb3 & Hb4 & Hb5). unfold b_end in *.
  assert (forall x, inside b x -> free_byte (pre ++ b :: rest) x) as Hfb.
  { intros x Hx. exists b. split; [|done]. apply elem_of_app. right. by left. }
  assert (forall x, free_byte pre x -> free_byte (pre ++ b :: rest) x) as Hfp.
  { intros x (c & Hc' & Hx). exists c. split; [|done]. apply elem_of_app. by left. }
  pose proof (mod4_sub _ _ (mod4_add _ _ Hb4 Hb5) (mod4_add _ _ (aligned_4 _ Hda) (aligned_4 _ Hmul))) as Hrem.
  remember (b_start b + b_size b - (data + size)) as rem eqn:Erem.
  assert (sub (mkBlock data size) b) as Hsub by (unfold sub, b_end; simpl; lia).
  destruct (Z.leb_spec FB_SIZE rem) as [Hbig|Hsmall]; unfold FB_SIZE in *.
  - apply wp_bind, wp_bind, wp_u32_add; [unfold PGSIZE in *; lia|].
    replace (b_start b + (size + (data - b_start b))) with (data + size) by lia.
    remember (data + size) as nb eqn:Enb. apply wp_bind, wp_modify, wp_bind, wp_gets, wp_bind, wp_modify.
    unfold size_of. set (h1 := with_pa _ h).
    assert (read_u32 (h_mem h1) (next_of (b_start b)) = nxt) as ->
      by (unfold nxt, h1, h_mem; simpl; unfold next_of; apply read_write_u32_ne; lia).
    set (h2 := with_pa _ h1).
    assert (touched (inside (mkBlock nb rem)) h h2) as Ht2.
    { apply (touched_trans _ _ h1); apply touched_put; unfold inside, b_end, next_of; simpl; lia. }
    assert (chain (h_mem h2) nb (mkBlock nb rem :: rest) 0) as Hc2.
    { assert (read_u32 (h_mem h2) nb = rem /\ read_u32 (h_mem h2) (nb + 4) = nxt) as [E1 E2].
      { unfold h2, h1, h_mem, next_of. simpl. split; [rewrite read_write_u32_ne by lia|];
          apply read_write_u32; [unfold in_u32, PGSIZE in *; lia|done]. }
      split_and!; [done|done|]. rewrite E2. eapply chain_frame; [|exact Hrest].
      apply Forall_forall. intros c Hc' x Hx. apply (to_mem _ _ _ Ht2). intros Hin.
      rewrite Forall_forall in Hbr, Hbrest. specialize (Hbr c Hc'). specialize (Hbrest c Hc').
      unfold apart, inside, block_ok, b_end, FB_SIZE in *. simpl in *. lia. }
    assert (chain (h_mem h2) (FREE_LIST h2) pre (b_start b)) as Hp2.
    { eapply chain_frame; [|exact Hpre]. apply Forall_forall. intros c Hc' x Hx. apply (to_mem _ _ _ Ht2).
      intros Hin. specialize (Hpb' c Hc'). rewrite Forall_forall in Hpp. specialize (Hpp c Hc').
      unfold apart, inside, b_end in *. simpl in *. lia. }
    eapply wp_set_link; [exact Hp2|done|unfold in_u32, PGSIZE in *; lia|done|].
    intros h' Ht' Hp'. apply wp_ret. right. split_and!; [lia|done| |].
    + apply (touched_trans _ _ h2); [|by eapply touched_mono].
      eapply touched_mono; [|exact Ht2]. intros x Hx. apply Hfb. unfold inside, b_end in *. simpl in *. lia.
    + exists (pre ++ [mkBlock nb rem] ++ rest). eapply heap_ok_carve; [exact Hok| | | |].
      * apply (touched_trans _ _ h2); [|by eapply touched_mono].
        eapply touched_mono; [|exact Ht2]. intros x Hx. apply Hfb. unfold inside, b_end in *. simpl in *. lia.
      * apply chain_app. exists nb. split; [done|]. eapply chain_frame; [|exact Hc2].
        apply Forall_forall. intros c Hc' x Hx. apply (to_mem _ _ _ Ht'). intros (d & Hd' & Hdx).
        apply elem_of_cons in Hc' as [->|Hc'].
        -- specialize (Hpb' d Hd'). unfold apart, inside, b_end in *. simpl in *. lia.
        -- specialize (Hpr d c Hd' Hc'). rewrite Forall_forall in Hbrest. specialize (Hbrest c Hc').
           unfold apart, inside, block_ok, b_end, FB_SIZE in *. simpl in *. lia.
      * assert (nb mod FB_ALIGN = 0) by (rewrite Enb; apply mod4_add; by apply aligned_4).
        rewrite !Forall_cons, Forall_nil. unfold sub, b_end, FB_SIZE. simpl.
        split_and!; try done; try lia; by apply aligned_4.
      * simpl. rewrite Forall_cons, Forall_nil. unfold apart, b_end. simpl. split_and!; try done. lia.
  - apply wp_bind, wp_bind, wp_gets. fold nxt.
    eapply wp_set_link; [exact Hpre|done|done|done|]. intros h' Ht' Hp'. apply wp_ret. right.
    assert (touched (free_byte (pre ++ b :: rest)) h h') as Ht by (by eapply touched_mono).
    split_and!; [lia|done|done|]. exists (pre ++ [] ++ rest). eapply heap_ok_carve; [exact Hok|done| | |].
    + apply chain_app. exists nxt. split; [done|]. eapply chain_frame; [|exact Hrest].
      apply Forall_forall. intros c Hc' x Hx. apply (to_mem _ _ _ Ht'). intros (d & Hd' & Hdx).
      specialize (Hpr d c Hd' Hc'). rewrite Forall_forall in Hbrest. specialize (Hbrest c Hc').
      unfold apart, inside, block_ok, b_end, FB_SIZE in *. simpl in *. lia.
    + rewrite Forall_cons, Forall_nil. unfold FB_SIZE. simpl.
      split_and!; try done; try lia; by apply aligned_4.
    + simpl. by rewrite Forall_nil.
Qed.

(** The whole search. *)
Lemma wp_first_fit fuel : forall pre rest used h,
  heap_ok h (pre ++ rest) used -> (List.length rest <= fuel)%nat ->
  Forall (no_room size align) pre ->
  forall cur, chain (h_mem h) (FREE_LIST h) pre cur -> chain (h_mem h) cur rest 0 ->
  wp (first_fit fuel size align (prev_of pre) cur) h (fit_post size align h (pre ++ rest) used).
Proof.
  pose proof align_bounds as Hab.
  induction fuel as [|fuel IH]; intros pre [|b rest] used h Hok Hf Hno cur Hpre Hcur; try (simpl in Hf; lia).
  1,2: simpl in Hcur; subst cur; apply wp_ret; left; by rewrite app_nil_r.
  pose proof Hcur as (-> & Hbs & Hrest). pose proof (ho_blocks _ _ _ Hok) as Hb.
  rewrite !Forall_app, Forall_cons in Hb. destruct Hb as ((Hbp & (H1 & H2 & H3 & H4 & H5) & Hbr) & _).
  destruct (ho_region _ _ _ Hok) as (Hst & Hlim & _). unfold b_end, FB_SIZE, PGSIZE in *.
  simpl. rewrite (proj2 (Z.eqb_neq _ _)) by lia.
  apply wp_bind, wp_align_up; [done|lia|lia|]. intros data Hd Hda.
  apply wp_bind, wp_u32_sub; [lia|]. apply wp_bind, wp_u32_add; [unfold u32_lim; lia|].
  apply wp_bind, wp_gets. change (size_of (b_start b)) with (b_start b). rewrite Hbs.
  destruct (Z.leb_spec (size + (data - b_start b)) (b_size b)) as [Hfit|Hno'].
  - apply wp_bind, wp_u32_sub; [lia|].
    replace (b_size b - (size + (data - b_start b))) with (b_end b - (data + size)) by (unfold b_end; lia).
    apply wp_take; try done; unfold b_end; lia.
  - apply wp_bind, wp_gets.
    replace (b_start b) with (prev_of (pre ++ [b])) at 1 by (unfold prev_of; by rewrite last_snoc).
    replace (pre ++ b :: rest) with ((pre ++ [b]) ++ rest) by (by rewrite <- app_assoc).
    apply IH; [by rewrite <- app_assoc|simpl in Hf; lia| | |done].
    + apply Forall_app. split; [done|]. rewrite Forall_cons, Forall_nil. split; [|done].
      intros a Ha Hm. pose proof (aligned_above (b_start b) align data a ltac:(lia) ltac:(lia) Hda Ha Hm).
      unfold b_end. lia.
    + apply chain_app. by exists (b_start b).
Qed.
End fit.

(** The free list is short enough for the search's fuel. *)
Lemma free_length h free used :
  heap_ok h free used -> Z.of_nat (List.length free) <= HEAP_SIZE h / FB_SIZE + 1.
Proof.
  intros Hok. pose proof (ho_blocks _ _ _ Hok) as Hb. apply Forall_app in Hb as [Hb _].
  pose proof (ho_apart _ _ _ Hok) as Ha. apply all_apart_app in Ha as (Ha & _ & _).
  destruct (ho_region _ _ _ Hok) as (Hst & _ & Hsz & _). clear Hok. unfold FB_SIZE in *.
  set (f := fun b => b_start b / 8).
  assert (NoDup (f <$> free)) as Hnd.
  { clear Hst Hsz. induction free as [|b free IH]; [constructor|]. simpl in Ha. destruct Ha as [Hab Ha].
    apply Forall_cons in Hb as [Hb Hbs]. simpl. constructor; [|by apply IH].
    intros (c & Hc & Hin)%list_elem_of_fmap. rewrite Forall_forall in Hab, Hbs.
    specialize (Hab c Hin). destruct (Hbs c Hin) as (_ & _ & ? & _). destruct Hb as (_ & _ & ? & _).
    unfold apart, b_end, f, FB_SIZE in *. Z.div_mod_to_equations. lia. }
  assert (f <$> free ⊆+ seqZ (HEAP_START h / 8) (HEAP_SIZE h / 8 + 1)) as Hsub.
  { apply NoDup_submseteq; [done|]. intros x (b & -> & Hin)%list_elem_of_fmap. apply elem_of_seqZ.
    rewrite Forall_forall in Hb. destruct (Hb b Hin) as (? & ? & ? & _).
    unfold f, b_end, FB_SIZE in *. Z.div_mod_to_equations. lia. }
  apply submseteq_length in Hsub. rewrite length_fmap, length_seqZ in Hsub.
  assert (0 <= HEAP_SIZE h / 8) by (apply Z.div_pos; lia). lia.
Qed.

(** Sizes of layouts. *)
Record layout_ok (l : Layout) : Prop := {
  lo_size : 0 <= l_size l;
  lo_pow : pow2 (l_align l);
  lo_max : l_size l + l_align l <= i32_max + 1;
}.

Lemma block_align_ok l : layout_ok l -> pow2 (block_align l) /\ block_align l mod FB_ALIGN = 0 /\
  l_align l <= block_align l /\ block_align l mod l_align l = 0.
Proof.
  intros [_ (k & Hk & E) _]. unfold block_align, FB_ALIGN. destruct (decide (2 <= k)) as [H2|H2].
  - assert (l_align l = 4 * 2 ^ (k - 2)) as E4.
    { rewrite E. replace k with (2 + (k - 2)) at 1 by lia. rewrite Z.pow_add_r by lia. done. }
    assert (1 <= 2 ^ (k - 2)) by (pose proof (Z.pow_pos_nonneg 2 (k - 2)); lia).
    rewrite Z.max_l by lia. split_and!; [by exists k|rewrite E4, Z.mul_comm; by apply Z.mod_mul|lia|].
    apply Z.mod_same. lia.
  - assert (k = 0 \/ k = 1) as [-> | ->] by lia; rewrite E; split_and!; try done; by exists 2.
Qed.

(** The bytes set aside for a layout: its size, at least 8, rounded up to its alignment. *)
Definition rounded (l : Layout) : Z :=
  let s := Z.max (l_size l) FB_SIZE in s + (- s) mod block_align l.

Lemma rounded_bounds l : layout_ok l ->
  Z.max (l_size l) FB_SIZE <= rounded l < Z.max (l_size l) FB_SIZE + block_align l /\
  rounded l mod block_align l = 0.
Proof.
  intros Hl. destruct (block_align_ok l Hl) as (Hp & _). pose proof (pow2_pos _ Hp) as H0.
  unfold rounded. set (s := Z.max _ _). pose proof (Z.mod_pos_bound (- s) (block_align l) H0). split; [lia|].
  rewrite Zplus_mod_idemp_r. by replace (s + - s) with 0 by lia.
Qed.

Lemma wp_block_size l h (Q : Z -> Heap -> Prop) : layout_ok l -> Q (rounded l) h -> wp (block_size l) h Q.
Proof.
  intros Hl HQ. destruct (rounded_bounds l Hl) as [Hr1 Hr2]. destruct (block_align_ok l Hl) as (Hp & _).
  pose proof (pow2_pos _ Hp). destruct Hl as [H0 Hp' Hm]. pose proof (pow2_pos _ Hp').
  apply wp_align_up; [done|unfold FB_SIZE; lia| |].
  { unfold block_align, FB_SIZE, FB_ALIGN, i32_max, u32_lim in *. lia. }
  intros r Hr Hrm. replace r with (rounded l); [done|].
  apply Z.mod_divide in Hrm as [j ->], Hr2 as [k E]; [|lia..]. rewrite E. rewrite E in Hr1.
  assert (j < k + 1) by nia. assert (k < j + 1) by nia. f_equal. lia.
Qed.

(** The page allocator may work on other pages. *)
Lemma heap_ok_pa h free used pa' :
  heap_ok h free used -> pa_ok pa' ->
  KERNEL_POOL pa' = KERNEL_POOL (h_pa h) /\ USER_POOL pa' = USER_POOL (h_pa h) ->
  (forall x, in_heap h x -> live pa' (x - x mod PGSIZE) = true /\ p_mem pa' x = h_mem h x) ->
  heap_ok (with_pa pa' h) free used.
Proof.
  intros [Hi Hpa (Hst & Hlim & Hsz & Hreg) Hc Hb Ha] Hpa' [Ek Eu] Hx. split; try done.
  - unfold region_ok. simpl. split_and!; try done. intros x Hin. split; [|by apply Hx].
    unfold in_bitmaps. rewrite Ek, Eu. by apply Hreg.
  - eapply chain_frame; [|exact Hc]. apply Forall_app in Hb as [Hb _]. eapply Forall_impl; [exact Hb|].
    intros b (?&?&?&_) x Hbx. apply Hx. unfold in_heap, b_end, FB_SIZE in *. lia.
Qed.

(** Fresh pages do not overlap the heap. *)
Lemma got_outside_heap h free used flags cnt p pa' x :
  heap_ok h free used -> got flags cnt (h_pa h) p pa' -> in_heap h x -> ~ (p <= x < p + cnt * PGSIZE).
Proof.
  intros Hok Hg Hin Hx. destruct (ho_region _ _ _ Hok) as (_ & _ & _ & Hreg). destruct (Hreg x Hin) as [_ Hl].
  destruct (got_pos _ _ _ _ _ Hg) as [Hp Hpm].
  rewrite (got_fresh _ _ _ _ _ Hg) in Hl; [done|]. unfold is_page.
  rewrite !andb_true_iff, Z.leb_le, Z.ltb_lt, Z.eqb_eq. unfold PGSIZE in *.
  Z.div_mod_to_equations. lia.
Qed.

Lemma heap_ok_got h free used cnt p pa' :
  heap_ok h free used -> got ZERO cnt (h_pa h) p pa' -> heap_ok (with_pa pa' h) free used.
Proof.
  intros Hok Hg. eapply heap_ok_pa; [done|by destruct Hg|by destruct Hg|]. intros x Hin.
  pose proof (got_outside_heap _ _ _ _ _ _ _ _ Hok Hg Hin) as Hout.
  destruct (ho_region _ _ _ Hok) as (_ & _ & _ & Hreg). destruct (Hreg x Hin) as [Hnb Hl].
  rewrite (got_live _ _ _ _ _ Hg), Hl, orb_true_r. split; [done|]. by apply (got_frame _ _ _ _ _ Hg).
Qed.

(** What [alloc] promises for a pointer [r]; [used] are the blocks of the heap that are live. *)
Definition alloc_post (l : Layout) (h : Heap) (free used : list block) (r : Z) (h' : Heap) : Prop :=
  let size := rounded l in
  (r = 0 /\ h' = h /\
     if PGSIZE <=? size then exhausted ZERO (div_ceil size PGSIZE) (h_pa h)
     else Forall (no_room size (block_align l)) free) \/
  (0 < r /\ (l_align l <= PGSIZE -> r mod l_align l = 0) /\ l_size l <= size /\
   (forall b, b ∈ used -> apart (mkBlock r size) b) /\
   (forall b x, b ∈ used -> inside b x -> h_mem h' x = h_mem h x) /\
   if PGSIZE <=? size then
     heap_ok h' free used /\ got ZERO (div_ceil size PGSIZE) (h_pa h) r (h_pa h')
   else exists free', heap_ok h' free' (mkBlock r size :: used)).

Lemma mod_align l r : layout_ok l -> r mod block_align l = 0 -> r mod l_align l = 0.
Proof.
  intros Hl Hr. destruct (block_align_ok l Hl) as (Hp & _ & _ & Hm). pose proof (pow2_pos _ Hp).
  pose proof (pow2_pos _ (lo_pow _ Hl)).
  apply Z.mod_divide in Hr as [k ->]; [|lia]. rewrite Z.mul_mod, Hm, Z.mul_0_r by lia. apply Z.mod_0_l. lia.
Qed.

Lemma page_align l r : layout_ok l -> r mod PGSIZE = 0 -> l_align l <= PGSIZE -> r mod l_align l = 0.
Proof.
  intros [_ (k & Hk & E) _] Hr Hle. rewrite E in *.
  assert (k <= 12) as H12. { apply (Z.pow_le_mono_r_iff 2); [lia..|]. exact Hle. }
  assert (PGSIZE = 2 ^ (12 - k) * 2 ^ k) as Ep.
  { rewrite <- Z.pow_add_r by lia. by replace (12 - k + k) with 12 by lia. }
  apply Z.mod_divide in Hr as [j ->]; [|done]. rewrite Ep, Z.mul_assoc. apply Z.mod_mul.
  pose proof (Z.pow_pos_nonneg 2 k ltac:(lia) ltac:(lia)). lia.
Qed.

Lemma heap_bytes h free used b x : heap_ok h free used -> b ∈ used -> inside b x -> in_heap h x.
Proof.
  intros Hok Hb Hx. pose proof (ho_blocks _ _ _ Hok) as Hf. apply Forall_app in Hf as [_ Hf].
  rewrite Forall_forall in Hf. destruct (Hf b Hb) as (?&?&_). unfold inside, in_heap, b_end in *. lia.
Qed.

(** A used block is apart from the free ones, and from a new one. *)
Lemma used_not_free h free used b x : heap_ok h free used -> b ∈ used -> inside b x -> ~ free_byte free x.
Proof.
  intros Hok Hb Hx (c & Hc & Hcx). pose proof (ho_apart _ _ _ Hok) as Ha.
  apply all_apart_app in Ha as (_ & _ & Ha). rewrite Forall_forall in Ha. specialize (Ha c Hc).
  rewrite Forall_forall in Ha. specialize (Ha b Hb). unfold apart, inside in *. lia.
Qed.

(** C31: the heap never hands out memory that is in use.  On a well-formed heap with live blocks
    [used], for any legal layout, [alloc] terminates without a fault and returns null only when
    there is no room: no free block has an aligned place for the rounded size (or, from a page
    on, no run of pages is free).  Otherwise it returns a pointer with the requested alignment
    (up to a page) to at least the requested bytes, apart from every live block; the contents of
    all live blocks are unchanged, and the heap is well formed with the new block live. *)
Theorem alloc_correct h free used l :
  heap_ok h free used -> layout_ok l -> wp (alloc l) h (alloc_post l h free used).
Proof.
  intros Hok Hl. unfold alloc. apply wp_bind, wp_gets. rewrite (ho_init _ _ _ Hok). cbn [negb].
  apply wp_bind, wp_block_size; [done|]. destruct (rounded_bounds l Hl) as [Hr Hrm].
  destruct (block_align_ok l Hl) as (Hp & H4 & Hale & _). pose proof (pow2_pos _ Hp) as Hpos.
  pose proof (lo_size _ Hl). unfold alloc_post. destruct (Z.leb_spec PGSIZE (rounded l)) as [Hbig|Hsmall].
  - set (cnt := div_ceil (rounded l) PGSIZE).
    assert (0 < cnt < 2 ^ 20 /\ rounded l <= cnt * PGSIZE) as [Hcnt Hcov].
    { pose proof (lo_max _ Hl) as Hm. pose proof (pow2_pos _ (lo_pow _ Hl)) as Hap. pose proof (lo_size _ Hl) as Hs0.
      clear - Hm Hap Hs0 Hr Hbig. unfold cnt, div_ceil, block_align, FB_SIZE, FB_ALIGN, PGSIZE, i32_max in *.
      Z.div_mod_to_equations. lia. }
    pose proof (get_multiple_spec ZERO cnt (h_pa h) (ho_pa _ _ _ Hok) Hcnt) as Hg.
    unfold wp, on_pa, zoom. destruct (get_multiple ZERO cnt (h_pa h)) as [r pa'|w| |]; try done.
    2:{ by destruct Hg as [Hf _]. }
    destruct Hg as [(-> & -> & Hex)|Hg].
    { left. split_and!; [done|by destruct h|done]. }
    right. pose proof (got_pos _ _ _ _ _ Hg) as [Hr0 Hrp]. split_and!.
    + done.
    + intros Hle. by apply page_align.
    + lia.
    + intros b Hb. pose proof (ho_blocks _ _ _ Hok) as Hf. apply Forall_app in Hf as [_ Hf].
      rewrite Forall_forall in Hf. destruct (Hf b Hb) as (Hb1 & Hb2 & Hb3 & _).
      unfold apart, b_end, FB_SIZE in *. simpl.
      destruct (decide (r + rounded l <= b_start b)) as [|Hn1]; [by left|right].
      destruct (decide (b_start b + b_size b <= r)) as [|Hn2]; [done|]. exfalso.
      apply (got_outside_heap h free used ZERO cnt r pa' (Z.max r (b_start b)) Hok Hg); unfold in_heap; lia.
    + intros b x Hb Hx. pose proof (heap_bytes _ _ _ _ _ Hok Hb Hx) as Hin.
      apply (got_frame _ _ _ _ _ Hg).
      * by apply (proj2 (proj2 (proj2 (ho_region _ _ _ Hok)))).
      * intros _. by apply (got_outside_heap h free used ZERO cnt r pa' x Hok Hg).
    + by eapply heap_ok_got.
    + done.
  - apply wp_bind, wp_gets, wp_bind, wp_gets.
    pose proof (free_length h free used Hok) as Hlen.
    assert (0 <= HEAP_SIZE h / FB_SIZE) by (apply Z.div_pos; [apply (ho_region _ _ _ Hok)|done]).
    eapply wp_mono.
    + apply (wp_first_fit (rounded l) (block_align l) Hp H4 ltac:(lia) Hrm _ [] free used h Hok);
        [lia|done|done|apply (ho_chain _ _ _ Hok)].
    + intros r h' [(-> & -> & Hno)|(Hr0 & Hra & Ht & free' & Hok')]; [left; done|].
      right. split_and!; [done|intros _; by apply mod_align|lia| | |by exists free'].
      * intros b Hb. pose proof (ho_apart _ _ _ Hok') as Ha. apply all_apart_app in Ha as (_ & [Ha _] & _).
        rewrite Forall_forall in Ha. by apply Ha.
      * intros b x Hb Hx. apply (to_mem _ _ _ Ht). by eapply used_not_free.
Qed.

(** Giving a block back.  For a live block that was allocated for layout [l], [dealloc]
    ends without a fault, puts the whole block at the head of the free list, leaves the heap well
    formed with the remaining blocks live, and does not touch their contents. *)
Theorem dealloc_correct h free used1 used2 r l :
  heap_ok h free (used1 ++ mkBlock r (rounded l) :: used2) -> layout_ok l -> rounded l < PGSIZE ->
  wp (dealloc r l) h (fun _ h' =>
    heap_ok h' (mkBlock r (rounded l) :: free) (used1 ++ used2) /\
    forall b x, b ∈ used1 ++ used2 -> inside b x -> h_mem h' x = h_mem h x).
Proof.
  intros Hok Hl Hs. set (b := mkBlock r (rounded l)) in *. destruct (rounded_bounds l Hl) as [Hr Hrm].
  pose proof Hok as [Hi Hpa Hreg Hc Hb Ha]. pose proof Hreg as (Hst & Hlim & _ & _).
  assert (block_ok h b) as (Hb1 & Hb2 & Hb3 & Hb4 & Hb5).
  { rewrite !Forall_app, Forall_cons in Hb. tauto. }
  apply (all_apart_perm _ (b :: free ++ used1 ++ used2)) in Ha; [|solve_Permutation].
  destruct Ha as [Hba Ha]. unfold b_end in Hb2. simpl in *. unfold FB_SIZE in *.
  unfold dealloc. rewrite (proj2 (Z.eqb_neq _ _)) by lia.
  apply wp_bind, wp_block_size; [done|]. rewrite (proj2 (Z.leb_gt _ _)) by done.
  apply wp_bind, wp_modify, wp_bind, wp_gets, wp_bind, wp_modify, wp_modify.
  set (h1 := with_pa _ h). set (h2 := with_pa _ h1). set (h' := with_list r h2).
  assert (touched (inside b) h h') as Ht.
  { apply (touched_trans _ _ h2); [|by split]. apply (touched_trans _ _ h1); apply touched_put;
      unfold inside, b_end, size_of, next_of; simpl; lia. }
  assert (forall c x, c ∈ free ++ used1 ++ used2 -> inside c x -> h_mem h' x = h_mem h x) as Hkeep.
  { intros c x Hc' Hx. apply (to_mem _ _ _ Ht). intros Hbx. rewrite Forall_forall in Hba.
    specialize (Hba c Hc'). unfold apart, inside in *. lia. }
  assert (in_u32 (FREE_LIST h)) as Hfl.
  { destruct free as [|c free']; simpl in Hc; [by rewrite Hc|]. destruct Hc as (-> & _).
    rewrite Forall_app, Forall_cons in Hb. destruct Hb as (((?&?&?&_) & _) & _).
    unfold in_u32, b_end, PGSIZE, FB_SIZE in *. lia. }
  destruct (touched_region _ _ _ Ht) as [Hpa' Hreg']; [|done|done|].
  { intros x Hx. unfold inside, in_heap, b_end in *. simpl in *. lia. }
  split; [|intros c x Hc' Hx; apply (Hkeep c x); [apply elem_of_app; by right|done]].
  split; try done.
  - assert (read_u32 (h_mem h') r = rounded l /\ read_u32 (h_mem h') (r + 4) = FREE_LIST h) as [E1 E2].
    { unfold h', h2, h1, h_mem, size_of, next_of. simpl. split; [rewrite read_write_u32_ne by lia|];
        apply read_write_u32; [unfold in_u32, PGSIZE, u32_lim in *; lia|done]. }
    simpl. split_and!; [done|done|]. rewrite E2. eapply chain_frame; [|exact Hc].
    apply Forall_forall. intros c Hc' x Hx. apply (Hkeep c x); [apply elem_of_app; by left|].
    rewrite !Forall_app in Hb. destruct Hb as [Hb _]. rewrite Forall_forall in Hb.
    destruct (Hb c Hc') as (_&_&?&_). unfold inside, b_end, FB_SIZE in *. lia.
  - eapply Forall_impl; [|intros c; by eapply block_ok_touched].
    rewrite !Forall_app, Forall_cons in Hb. simpl. rewrite Forall_cons, !Forall_app. tauto.
Qed.

(** The heap at boot.  [init] either panics because the kernel pool has no 256 free pages in
    a row, or leaves a well-formed heap whose only free block is the whole megabyte. *)
Theorem heap_init h :
  pa_ok (h_pa h) -> pool_end (KERNEL_POOL (h_pa h)) + PGSIZE < u32_lim ->
  match init h with
  | Ok _ h' => heap_ok h' [mkBlock (HEAP_START h') (HEAP_INIT_PAGES * PGSIZE)] []
  | Panic _ => exhausted (Z.lor ASSERT ZERO) HEAP_INIT_PAGES (h_pa h)
  | _ => False
  end.
Proof.
  intros Hpa Hend. pose proof (get_multiple_spec (Z.lor ASSERT ZERO) HEAP_INIT_PAGES (h_pa h) Hpa ltac:(done)) as Hg.
  unfold init, bind at 1, on_pa, zoom. destruct (get_multiple _ _ (h_pa h)) as [p pa'|w| |]; try done.
  2:{ by destruct Hg. }
  destruct Hg as [(-> & -> & Hex)|Hg]; [exact Hex|].
  pose proof (got_pos _ _ _ _ _ Hg) as [Hp0 Hpm]. destruct (got_pool _ _ _ _ _ Hg) as [Hb He].
  change (pool_of (Z.lor ASSERT ZERO) (h_pa h)) with (KERNEL_POOL (h_pa h)) in *.
  unfold bind, assert. rewrite (proj2 (Z.eqb_neq p 0)) by lia. unfold ret, u32_mul, put, modify, h_mem. simpl.
  set (h' := mkHeap _ _ _ _ _).
  change (256 * 4096) with (HEAP_INIT_PAGES * PGSIZE) in *. set (n := HEAP_INIT_PAGES * PGSIZE) in *.
  assert (n = 1048576) as En by done.
  assert (forall x, in_heap h' x -> ~ in_bitmaps pa' x /\ live pa' (x - x mod PGSIZE) = true) as Hheap.
  { unfold in_heap. simpl. intros x Hx. split.
    - destruct (got_ok _ _ _ _ _ Hg) as [Hk Hu Hd]. destruct (got_pools _ _ _ _ _ Hg) as [Ek Eu].
      rewrite Ek in *. rewrite Eu in *. unfold in_bitmaps. rewrite Ek, Eu.
      pose proof (po_fit _ Hk). pose proof (byte_cnt_nonneg _ (po_cnt _ Hk)). lia.
    - rewrite (got_live _ _ _ _ _ Hg). apply orb_true_iff. left. unfold is_page.
      rewrite !andb_true_iff, Z.leb_le, Z.ltb_lt, Z.eqb_eq. fold n. unfold PGSIZE in *.
      Z.div_mod_to_equations. lia. }
  assert (touched (in_heap h') (with_pa pa' h') h') as Ht.
  { split; try done. intros x Hx. unfold h_mem, h', in_heap, size_of, next_of in *. simpl in *.
    rewrite !write_u32_frame by lia. done. }
  destruct (touched_region _ _ _ Ht) as [Hpa' Hreg']; [done|by destruct Hg| |].
  { unfold region_ok. simpl. split_and!; [done|unfold PGSIZE in *; lia|lia|]. exact Hheap. }
  split; try done.
  - unfold chain, h_mem, h', size_of, next_of. cbn [h_pa p_mem with_mem FREE_LIST b_start b_size].
    rewrite (read_write_u32_ne _ (p + 4) 0 p) by lia. by rewrite !read_write_u32.
  - rewrite Forall_app, Forall_cons. split_and!; try done. unfold block_ok, b_end, FB_SIZE, FB_ALIGN. simpl.
    split_and!; try lia; [|done]. unfold PGSIZE in *. Z.div_mod_to_equations. lia.
Qed.

(** A heap of one page (page 2 of [demo_pa]'s kernel pool), with [n] bytes handed out. *)
Definition demo_heap (n : Z) : Heap :=
  let s := 0xC0103000 in
  mkHeap (with_mem (write_u32 (s + n + 4) 0 (write_u32 (s + n) (4096 - n) (p_mem demo_pa))) demo_pa)
    s 4096 (s + n) true.

Lemma demo_heap_ok n used :
  (n = 0 /\ used = []) \/ (n = 128 /\ used = [mkBlock 0xC0103000 128]) ->
  heap_ok (demo_heap n) [mkBlock (0xC0103000 + n) (4096 - n)] used.
Proof.
  intros Hn. assert (0 <= n <= 128) as Hn' by (destruct Hn as [[-> _]|[-> _]]; lia).
  assert (touched (in_heap (demo_heap n)) (with_pa demo_pa (demo_heap n)) (demo_heap n)) as Ht.
  { split; try done. intros x Hx. unfold h_mem, in_heap in *. simpl in *. rewrite !write_u32_frame by lia. done. }
  destruct (touched_region _ _ _ Ht) as [Hpa' Hreg']; [done|apply demo_pa_ok| |].
  { split_and!; try done. unfold in_bitmaps. simpl. intros x Hx. split; [lia|].
    replace (x - x mod PGSIZE) with 0xC0103000 by (unfold PGSIZE; Z.div_mod_to_equations; lia). by vm_compute. }
  destruct Hn as [[-> ->]|[-> ->]]; (split; [done|done|done|by vm_compute| |]).
  - rewrite Forall_app, !Forall_cons, Forall_nil. by repeat split.
  - simpl. by rewrite Forall_nil.
  - rewrite Forall_app, !Forall_cons, Forall_nil. by repeat split.
  - simpl. rewrite Forall_cons, !Forall_nil. repeat split. by right.
Qed.

Lemma demo_layout : layout_ok (mkLayout 128 4).
Proof. split; [done|by exists 2|done]. Qed.

Lemma alloc_correct_witness :
  wp (alloc (mkLayout 128 4)) (demo_heap 0) (fun r h' => r = 0xC0103000 /\
    alloc_post (mkLayout 128 4) (demo_heap 0) [mkBlock 0xC0103000 4096] [] r h').
Proof.
  pose proof (alloc_correct (demo_heap 0) [mkBlock 0xC0103000 4096] [] (mkLayout 128 4)
    (demo_heap_ok 0 [] ltac:(by left)) demo_layout) as H.
  apply wp_ok in H as (r & h' & E & Hp). apply wp_ok. exists r, h'. split; [exact E|]. split; [|exact Hp].
  assert ((match alloc (mkLayout 128 4) (demo_heap 0) with Ok r _ => r | _ => 0 end) = 0xC0103000) as Hr
    by (vm_compute; reflexivity).
  rewrite E in Hr. exact Hr.
Defined.

Lemma dealloc_correct_witness :
  wp (dealloc 0xC0103000 (mkLayout 128 4)) (demo_heap 128) (fun _ h' =>
    heap_ok h' [mkBlock 0xC0103000 128; mkBlock 0xC0103080 3968] []).
Proof.
  eapply wp_mono.
  - apply (dealloc_correct (demo_heap 128) [mkBlock 0xC0103080 3968] [] [] 0xC0103000 (mkLayout 128 4));
      [apply (demo_heap_ok 128 [mkBlock 0xC0103000 128]); by right|exact demo_layout|done].
  - intros [] h' [H _]. exact H.
Defined.

Lemma heap_init_witness :
  match init (mkHeap demo_pa 0 0 0 false) with
  | Ok _ h' => heap_ok h' [mkBlock (HEAP_START h') (HEAP_INIT_PAGES * PGSIZE)] []
  | Panic _ => exhausted (Z.lor ASSERT ZERO) HEAP_INIT_PAGES demo_pa
  | _ => False
  end.
Proof. apply (heap_init (mkHeap demo_pa 0 0 0 false)); [exact demo_pa_ok|done]. Defined.
