(* ===== verification/Pagedir.v ===== *)
(** Page tables (src/userprog/pagedir.rs): two-level x86 tables in pages of the page allocator,
    one page directory per process, and their isolation from each other. *)
From S2P Require Import Prelude Memory Palloc.

(** Flags of page-table entries (src/mem/vaddr.rs). *)
Definition PTE_P : Z := 0x1.
Definition PTE_W : Z := 0x2.
Definition PTE_U : Z := 0x4.
Definition PTE_A : Z := 0x20.
Definition PTE_D : Z := 0x40.
Definition PTE_ADDR : Z := 0xFFFFF000.

(** The page allocator with the memory, the kernel's page directory ([INIT_PAGE_DIR]), the CR3
    register, and the pages invalidated in the TLB, latest first. *)
Record Paging := mkPaging {
  pg_pa : Palloc;
  INIT_PAGE_DIR : Z;
  cr3 : Z;
  invlpg : list Z;
}.

Definition with_pa (pa : Palloc) (s : Paging) : Paging := mkPaging pa (INIT_PAGE_DIR s) (cr3 s) (invlpg s).
Definition on_pa {A} (m : M Palloc A) : M Paging A := zoom pg_pa with_pa m.
Definition mem (s : Paging) : Mem := p_mem (pg_pa s).
Definition load (a : Z) : M Paging Z := gets (fun s => read_u32 (mem s) a).
Definition put (a v : Z) : M Paging unit :=
  modify (fun s => with_pa (with_mem (write_u32 a v (mem s)) (pg_pa s)) s).
Definition invalidate (upage : Z) : M Paging unit :=
  modify (fun s => mkPaging (pg_pa s) (INIT_PAGE_DIR s) (cr3 s) (upage :: invlpg s)).

(** [copy_nonoverlapping(src, dst, 1024)] of words. *)
Definition copy_page (src dst : Z) (m : Mem) : Mem :=
  fun x => if decide (dst <= x < dst + PGSIZE) then m (src + (x - dst)) else m x.

Definition create : M Paging Z :=
  let! pd := on_pa (get_page ZERO) in
  if pd =? 0 then ret pd
  else
    let! init_pd := gets INIT_PAGE_DIR in
    modify (fun s => with_pa (with_mem (copy_page init_pd pd (mem s)) (pg_pa s)) s) ;;
    ret pd.

Definition activate (pd : Z) : M Paging unit :=
  let! init_pd := gets INIT_PAGE_DIR in
  let! phys := vtop (if pd =? 0 then init_pd else pd) in
  modify (fun s => mkPaging (pg_pa s) (INIT_PAGE_DIR s) phys (invlpg s)).

Definition pde_idx (vaddr : Z) : Z := Z.shiftr vaddr 22.
Definition pte_idx (vaddr : Z) : Z := Z.land (Z.shiftr vaddr 12) 0x3FF.

(** [lookup]: the address of the page-table entry, or null. *)
Definition lookup (pd vaddr : Z) (create : bool) : M Paging Z :=
  let pde := pd + 4 * pde_idx vaddr in
  let entry :=
    let! v := load pde in
    let! pt_phys := ret (Z.land v PTE_ADDR) in
    let! pt := ptov pt_phys in
    ret (pt + 4 * pte_idx vaddr) in
  let! v := load pde in
  if v =? 0 then
    if negb create then ret 0
    else
      let! pt := on_pa (get_page ZERO) in
      if pt =? 0 then ret 0
      else
        let! phys := vtop pt in
        put pde (Z.lor (Z.lor (Z.lor phys PTE_P) PTE_W) PTE_U) ;;
        entry
  else entry.

Definition set_page (pd upage kpage : Z) (writable : bool) : M Paging bool :=
  assert (upage <? PHYS_BASE) "debug_assert: upage < PHYS_BASE" ;;
  assert (pg_ofs upage =? 0) "debug_assert: pg_ofs(upage) == 0" ;;
  assert (pg_ofs kpage =? 0) "debug_assert: pg_ofs(kpage) == 0" ;;
  let! pte := lookup pd upage true in
  if pte =? 0 then ret false
  else
    let flags := Z.lor (Z.lor PTE_P PTE_U) (if writable then PTE_W else 0) in
    let! phys := vtop kpage in
    put pte (Z.lor phys flags) ;;
    ret true.

Definition get_page (pd uaddr : Z) : M Paging Z :=
  let! pte_ptr := lookup pd uaddr false in
  if pte_ptr =? 0 then ret 0
  else
    let! pte := load pte_ptr in
    if Z.land pte PTE_P =? 0 then ret 0
    else
      let! page := ptov (Z.land pte PTE_ADDR) in
      u32_add page (pg_ofs uaddr).

Definition clear_page (pd upage : Z) : M Paging unit :=
  let! pte_ptr := lookup pd upage false in
  if negb (pte_ptr =? 0) then put pte_ptr 0 ;; invalidate upage else ret tt.

Definition is_accessed (pd upage : Z) : M Paging bool :=
  let! pte_ptr := lookup pd upage false in
  if pte_ptr =? 0 then ret false
  else let! pte := load pte_ptr in ret (negb (Z.land pte PTE_A =? 0)).

Definition set_accessed (pd upage : Z) (val : bool) : M Paging unit :=
  let! pte_ptr := lookup pd upage false in
  if pte_ptr =? 0 then ret tt
  else
    let! pte := load pte_ptr in
    put pte_ptr (if val then Z.lor pte PTE_A else Z.land pte (not_w 32 PTE_A)) ;;
    invalidate upage.

Definition is_dirty (pd upage : Z) : M Paging bool :=
  let! pte_ptr := lookup pd upage false in
  if pte_ptr =? 0 then ret false
  else let! pte := load pte_ptr in ret (negb (Z.land pte PTE_D =? 0)).

(** ** The address space a directory describes *)
Definition pde (s : Paging) (pd i : Z) : Z := read_u32 (mem s) (pd + 4 * i).
Definition table (s : Paging) (pd i : Z) : Z := PHYS_BASE + Z.land (pde s pd i) PTE_ADDR.
Definition pte_at (s : Paging) (pd va : Z) : Z := table s pd (pde_idx va) + 4 * pte_idx va.

(** The page-table entry the processor finds for [va], if there is one and it is present. *)
Definition mapping (s : Paging) (pd va : Z) : option Z :=
  if pde s pd (pde_idx va) =? 0 then None
  else
    let pte := read_u32 (mem s) (pte_at s pd va) in
    if Z.land pte PTE_P =? 0 then None else Some pte.

(** A directory: an allocated page; its tables are other allocated pages, one per entry. *)
Record pd_ok (s : Paging) (pd : Z) : Prop := {
  pd_live : live (pg_pa s) pd = true;
  pd_tables : forall i, 0 <= i < 1024 -> pde s pd i <> 0 ->
    live (pg_pa s) (table s pd i) = true /\ table s pd i <> pd;
  pd_inj : forall i j, 0 <= i < 1024 -> 0 <= j < 1024 -> pde s pd i <> 0 -> pde s pd j <> 0 ->
    table s pd i = table s pd j -> i = j;
}.

(** The pages [pd] uses for the user half of its address space are not used by [pd']. *)
Definition isolated (s : Paging) (pd pd' : Z) : Prop :=
  pd <> pd' /\ (forall j, 0 <= j < 1024 -> pde s pd' j <> 0 -> table s pd' j <> pd) /\
  forall i, 0 <= i < 768 -> pde s pd i <> 0 ->
    table s pd i <> pd' /\
    forall j, 0 <= j < 1024 -> pde s pd' j <> 0 -> table s pd i <> table s pd' j.

(** ** Pages *)
Lemma live_page st a :
  pa_ok st -> live st a = true ->
  0 < a /\ a mod PGSIZE = 0 /\ a + PGSIZE <= u32_lim /\ forall x, a <= x < a + PGSIZE -> ~ in_bitmaps st x.
Proof.
  intros [Hk Hu Hd]. pose proof (po_fit _ Hk). pose proof (po_fit _ Hu).
  pose proof (po_bits _ Hk). pose proof (po_bits _ Hu). pose proof (po_end _ Hk). pose proof (po_end _ Hu).
  pose proof (byte_cnt_nonneg _ (po_cnt _ Hk)). pose proof (byte_cnt_nonneg _ (po_cnt _ Hu)).
  pose proof (po_cnt _ Hk). pose proof (po_cnt _ Hu).
  unfold live. rewrite orb_true_iff. unfold page_bit. rewrite !andb_true_iff.
  intros [[Hin _]|[Hin _]]; apply page_index in Hin as [Hi Ha]; try done;
    (split_and!; [unfold PGSIZE in *; lia| | |]).
  1,4: pose proof (po_align _ Hk); pose proof (po_align _ Hu); rewrite Ha; unfold PGSIZE in *;
    Z.div_mod_to_equations; lia.
  all: unfold in_bitmaps, pool_end, PGSIZE in *; lia.
Qed.

Lemma pages_apart a b x y :
  a mod PGSIZE = 0 -> b mod PGSIZE = 0 -> a <> b ->
  a <= x < a + PGSIZE -> b <= y < b + PGSIZE -> x <> y.
Proof. unfold PGSIZE. intros. Z.div_mod_to_equations. lia. Qed.

(** ** Indices *)
Lemma pde_idx_div va : pde_idx va = va / 2 ^ 22.
Proof. unfold pde_idx. by rewrite Z.shiftr_div_pow2. Qed.
Lemma pte_idx_mod va : pte_idx va = (va / PGSIZE) mod 1024.
Proof.
  unfold pte_idx. rewrite Z.shiftr_div_pow2 by lia. change 0x3FF with (Z.ones 10). by rewrite Z.land_ones.
Qed.

Lemma pde_idx_range va : in_u32 va -> 0 <= pde_idx va < 1024.
Proof. rewrite pde_idx_div. unfold in_u32, u32_lim. intros. Z.div_mod_to_equations. lia. Qed.
Lemma pde_idx_user va : 0 <= va < PHYS_BASE -> 0 <= pde_idx va < 768.
Proof. rewrite pde_idx_div. unfold PHYS_BASE. intros. Z.div_mod_to_equations. lia. Qed.
Lemma pte_idx_range va : 0 <= pte_idx va < 1024.
Proof. rewrite pte_idx_mod. by apply Z.mod_pos_bound. Qed.

Lemma same_page va va' : va / PGSIZE = va' / PGSIZE <-> pde_idx va = pde_idx va' /\ pte_idx va = pte_idx va'.
Proof. rewrite !pde_idx_div, !pte_idx_mod. unfold PGSIZE. Z.div_mod_to_equations. lia. Qed.

(** ** Entries *)
Lemma land_page a g : a mod PGSIZE = 0 -> 0 <= g < PGSIZE -> Z.land a g = 0.
Proof.
  intros Hm Hg. apply Z.bits_inj'. intros n Hn. rewrite Z.land_spec, Z.bits_0.
  destruct (decide (n < 12)).
  - assert (Z.testbit a n = false) as ->; [|done].
    apply Z.mod_divide in Hm as [k ->]; [|done]. by apply (Z.mul_pow2_bits_low k 12).
  - rewrite andb_comm. assert (Z.testbit g n = false) as ->; [|done].
    destruct (decide (g = 0)) as [->|]; [by rewrite Z.testbit_0_l|].
    apply Z.bits_above_log2; [lia|]. apply Z.log2_lt_pow2; [lia|].
    assert (2 ^ 12 <= 2 ^ n) by (apply Z.pow_le_mono_r; lia). unfold PGSIZE in Hg. lia.
Qed.

Lemma lor_page a f : a mod PGSIZE = 0 -> 0 <= f < PGSIZE -> Z.lor a f = a + f.
Proof.
  intros Ha Hf. pose proof (land_page a f Ha Hf). rewrite <- Z.lxor_lor by done. by rewrite Z.add_nocarry_lxor.
Qed.

Lemma entry_addr a f : 0 <= a < u32_lim -> a mod PGSIZE = 0 -> 0 <= f < PGSIZE -> Z.land (Z.lor a f) PTE_ADDR = a.
Proof.
  intros Ha Hm Hf. rewrite lor_page by done. change PTE_ADDR with (not_w 32 PGMASK). rewrite land_not_pgmask.
  - unfold PGSIZE in *. Z.div_mod_to_equations. lia.
  - unfold in_u32, u32_lim, PGSIZE in *. Z.div_mod_to_equations. lia.
Qed.

Lemma entry_flags a f g : a mod PGSIZE = 0 -> 0 <= g < PGSIZE -> Z.land (Z.lor a f) g = Z.land f g.
Proof. intros Ha Hg. by rewrite Z.land_lor_distr_l, land_page. Qed.

(** ** [lookup] *)
Section pd.
Context (pd : Z).

(** The entry of an existing table; also the tail of [lookup]. *)
Lemma wp_entry va s (Q : Z -> Paging -> Prop) :
  pa_ok (pg_pa s) -> pd_ok s pd -> in_u32 va -> pde s pd (pde_idx va) <> 0 -> Q (pte_at s pd va) s ->
  wp (let! v := load (pd + 4 * pde_idx va) in
      let! pt_phys := ret (Z.land v PTE_ADDR) in
      let! pt := ptov pt_phys in
      ret (pt + 4 * pte_idx va)) s Q.
Proof.
  intros Hpa Hok Hva Hn HQ. destruct (pd_tables _ _ Hok _ (pde_idx_range va Hva) Hn) as [Hl _].
  destruct (live_page _ _ Hpa Hl) as (_ & _ & Hlim & _). unfold pte_at, table, pde in *.
  apply wp_bind, wp_gets, wp_bind, wp_ret, wp_bind, wp_ptov; [unfold PGSIZE in *; lia|].
  apply wp_ret. rewrite (Z.add_comm _ PHYS_BASE). exact HQ.
Qed.

Lemma wp_pte_lookup va s (Q : Z -> Paging -> Prop) :
  pa_ok (pg_pa s) -> pd_ok s pd -> in_u32 va ->
  Q (if pde s pd (pde_idx va) =? 0 then 0 else pte_at s pd va) s -> wp (lookup pd va false) s Q.
Proof.
  intros Hpa Hok Hva HQ. unfold lookup. apply wp_bind, wp_gets. fold (pde s pd (pde_idx va)).
  destruct (Z.eqb_spec (pde s pd (pde_idx va)) 0) as [E|E]; [by apply wp_ret|]. by apply wp_entry.
Qed.

(** What [lookup] does when it may add a table. *)
Record grown (i : Z) (s s' : Paging) : Prop := {
  gr_pa : pa_ok (pg_pa s');
  gr_pd : pd_ok s' pd;
  gr_pde : pde s' pd i <> 0;
  gr_live : forall a, live (pg_pa s) a = true -> live (pg_pa s') a = true;
  gr_mem : forall a x, live (pg_pa s) a = true -> a <= x < a + PGSIZE -> a <> pd -> mem s' x = mem s x;
  gr_others : forall j, 0 <= j < 1024 -> j <> i -> pde s' pd j = pde s pd j;
  gr_new : pde s pd i = 0 -> live (pg_pa s) (table s' pd i) = false /\
    forall x, table s' pd i <= x < table s' pd i + PGSIZE -> mem s' x = 0;
  gr_old : pde s pd i <> 0 -> s' = s;
  gr_pools : KERNEL_POOL (pg_pa s') = KERNEL_POOL (pg_pa s) /\ USER_POOL (pg_pa s') = USER_POOL (pg_pa s);
  gr_kernel : pde s pd i = 0 -> in_pool (KERNEL_POOL (pg_pa s)) (table s' pd i) = true;
  gr_added : forall a, live (pg_pa s') a = true -> live (pg_pa s) a = true \/ a = table s' pd i;
}.

(** The state after a new table was allocated and linked. *)
Lemma grown_new i s pa' pt :
  pa_ok (pg_pa s) -> pd_ok s pd -> 0 <= i < 1024 -> pde s pd i = 0 -> PHYS_BASE <= pt ->
  got ZERO 1 (pg_pa s) pt pa' ->
  grown i s (with_pa (with_mem (write_u32 (pd + 4 * i) (Z.lor (pt - PHYS_BASE) 7) (p_mem pa')) pa') s).
Proof.
  intros Hpa Hok Hi E0 Hpk Hg. set (s' := with_pa _ s).
  pose proof (got_pos _ _ _ _ _ Hg) as [Hpt0 Hptm]. pose proof (got_ok _ _ _ _ _ Hg) as Hpa1.
  destruct (got_pools _ _ _ _ _ Hg) as [Ek Eu].
  pose proof (pd_live _ _ Hok) as Hpl. destruct (live_page _ _ Hpa Hpl) as (Hpd0 & Hpdm & Hpdl & Hpdb).
  assert (live pa' pt = true /\ live (pg_pa s) pt = false) as [Hptl Hptf].
  { assert (is_page pt 1 pt = true) as Hip.
    { unfold is_page. rewrite !andb_true_iff, Z.leb_le, Z.ltb_lt, Z.eqb_eq. unfold PGSIZE in *. lia. }
    rewrite (got_live _ _ _ _ _ Hg), Hip. split; [done|]. by apply (got_fresh _ _ _ _ _ Hg). }
  assert (pt <> pd) as Hne by congruence.
  assert (forall a, live (pg_pa s) a = true -> live pa' a = true) as Hlv.
  { intros a Ha. by rewrite (got_live _ _ _ _ _ Hg), Ha, orb_true_r. }
  destruct (live_page _ _ Hpa1 Hptl) as (_ & _ & Hptlim & _).
  destruct (live_page _ _ Hpa1 (Hlv _ Hpl)) as (_ & _ & _ & Hpdb1).
  (* memory *)
  assert (forall x, ~ (pd + 4 * i <= x < pd + 4 * i + 4) -> mem s' x = p_mem pa' x) as Hm1.
  { intros x Hx. by apply write_u32_frame. }
  assert (forall a x, live (pg_pa s) a = true -> a <= x < a + PGSIZE -> p_mem pa' x = mem s x) as Hm2.
  { intros a x Ha Hx. destruct (live_page _ _ Hpa Ha) as (_ & Ham & _ & Hab).
    apply (got_frame _ _ _ _ _ Hg); [by apply Hab|]. intros _ Hin.
    apply (pages_apart a pt x x); try done; try congruence; lia. }
  assert (forall a, live (pg_pa s') a = live pa' a) as Hl'.
  { apply live_frame; try done. intros x Hb. apply Hm1. intros Hx. apply (Hpdb1 x); [unfold PGSIZE; lia|done]. }
  assert (forall j, 0 <= j < 1024 -> j <> i -> pde s' pd j = pde s pd j) as Hoth.
  { intros j Hj Hji. apply read_u32_frame. intros x Hx. rewrite Hm1 by lia. apply (Hm2 pd); [done|unfold PGSIZE; lia]. }
  assert (0 <= pt - PHYS_BASE < u32_lim /\ (pt - PHYS_BASE) mod PGSIZE = 0) as [Hph Hphm].
  { unfold PHYS_BASE, PGSIZE, u32_lim in *. split; [lia|]. Z.div_mod_to_equations. lia. }
  assert (Z.lor (pt - PHYS_BASE) 7 = pt - PHYS_BASE + 7) as Hlor by (apply lor_page; done).
  assert (pde s' pd i = Z.lor (pt - PHYS_BASE) 7) as Enew.
  { apply read_write_u32. rewrite Hlor. unfold in_u32, PGSIZE, u32_lim, PHYS_BASE in *. lia. }
  assert (table s' pd i = pt) as Et.
  { unfold table. rewrite Enew, entry_addr by done. lia. }
  assert (forall j, 0 <= j < 1024 -> j <> i -> pde s pd j <> 0 -> table s' pd j = table s pd j) as Hto.
  { intros j Hj Hji _. unfold table. by rewrite Hoth. }
  split.
  - destruct Hpa1. split; simpl; congruence.
  - split.
    + rewrite Hl'. by apply Hlv.
    + intros j Hj. destruct (decide (j = i)) as [->|Hji]; [rewrite Et, Hl'; done|].
      rewrite Hoth by done. intros Hn. rewrite Hto, Hl' by done.
      destruct (pd_tables _ _ Hok j Hj Hn). split; [by apply Hlv|done].
    + intros j k Hj Hk. destruct (decide (j = i)) as [->|Hji], (decide (k = i)) as [->|Hki]; try done.
      * rewrite (Hoth k) by done. intros _ Hn. rewrite Et, Hto by done. intros E.
        destruct (pd_tables _ _ Hok k Hk Hn). congruence.
      * rewrite (Hoth j) by done. intros Hn _. rewrite Et, Hto by done. intros E.
        destruct (pd_tables _ _ Hok j Hj Hn). congruence.
      * rewrite !Hoth by done. intros Hn1 Hn2. rewrite !Hto by done. by apply (pd_inj _ _ Hok).
  - rewrite Enew, Hlor. lia.
  - intros a Ha. rewrite Hl'. by apply Hlv.
  - intros a x Ha Hx Hapd. destruct (live_page _ _ Hpa Ha) as (_ & Ham & _ & _).
    rewrite Hm1; [by apply (Hm2 a)|]. intros Hin. apply (pages_apart a pd x x); try done. unfold PGSIZE. lia.
  - exact Hoth.
  - intros _. rewrite Et. split; [done|]. intros x Hx. rewrite Hm1.
    + apply (got_zero _ _ _ _ _ Hg); [done|]. lia.
    + intros Hin. apply (pages_apart pt pd x x); try done. unfold PGSIZE. lia.
  - done.
  - done.
  - intros _. rewrite Et. pose proof (got_pool _ _ _ _ _ Hg) as [Hb He]. change (pool_of ZERO (pg_pa s)) with (KERNEL_POOL (pg_pa s)) in *.
    unfold in_pool. rewrite !andb_true_iff, Z.leb_le, Z.ltb_lt, Z.eqb_eq. unfold PGSIZE in *. lia.
  - intros a. rewrite Hl', (got_live _ _ _ _ _ Hg), Et. intros [Hip|Ha]%orb_true_iff; [right|by left].
    revert Hip. unfold is_page. rewrite !andb_true_iff, Z.leb_le, Z.ltb_lt, Z.eqb_eq. unfold PGSIZE in *. Z.div_mod_to_equations. lia.
Qed.

Lemma grown_refl i s : pa_ok (pg_pa s) -> pd_ok s pd -> pde s pd i <> 0 -> grown i s s.
Proof. intros. split; try done. by left. Qed.

Lemma wp_lookup_create va s (Q : Z -> Paging -> Prop) :
  pa_ok (pg_pa s) -> pd_ok s pd -> in_u32 va -> PHYS_BASE <= base (KERNEL_POOL (pg_pa s)) ->
  (pde s pd (pde_idx va) = 0 -> exhausted ZERO 1 (pg_pa s) -> Q 0 s) ->
  (forall s', grown (pde_idx va) s s' -> Q (pte_at s' pd va) s') ->
  wp (lookup pd va true) s Q.
Proof.
  intros Hpa Hok Hva Hbase Hno HQ. unfold lookup. apply wp_bind, wp_gets. fold (pde s pd (pde_idx va)).
  destruct (Z.eqb_spec (pde s pd (pde_idx va)) 0) as [E|E].
  2:{ apply wp_entry; try done. by apply HQ, grown_refl. }
  pose proof (get_multiple_spec ZERO 1 (pg_pa s) Hpa ltac:(done)) as Hg. simpl.
  unfold wp, bind at 1, on_pa, zoom, Palloc.get_page.
  destruct (get_multiple ZERO 1 (pg_pa s)) as [pt pa'|w| |]; try done.
  2:{ by destruct Hg. }
  destruct Hg as [(-> & -> & Hex)|Hg].
  { simpl. replace (with_pa (pg_pa s) s) with s by (by destruct s). by apply Hno. }
  pose proof (got_pos _ _ _ _ _ Hg) as [Hpt0 _]. rewrite (proj2 (Z.eqb_neq pt 0)) by lia.
  assert (PHYS_BASE <= pt) as Hpk by (destruct (got_pool _ _ _ _ _ Hg); unfold pool_of in *; simpl in *; lia).
  pose proof (grown_new (pde_idx va) s pa' pt Hpa Hok (pde_idx_range va Hva) E Hpk Hg) as Hgr.
  change (wp (let! phys := vtop pt in
              put (pd + 4 * pde_idx va) (Z.lor (Z.lor (Z.lor phys PTE_P) PTE_W) PTE_U) ;;
              let! v := load (pd + 4 * pde_idx va) in
              let! pt_phys := ret (Z.land v PTE_ADDR) in
              let! pt := ptov pt_phys in
              ret (pt + 4 * pte_idx va)) (with_pa pa' s) Q).
  apply wp_bind, wp_vtop; [done|]. rewrite <- !Z.lor_assoc. change (Z.lor PTE_P (Z.lor PTE_W PTE_U)) with 7.
  apply wp_bind, wp_modify.
  apply wp_entry; [apply Hgr|apply Hgr|done|apply Hgr|]. by apply HQ.
Qed.

(** A new table maps nothing yet. *)
Lemma mapping_grown i s s' va :
  pd_ok s pd -> pa_ok (pg_pa s) -> in_u32 va -> grown i s s' -> mapping s' pd va = mapping s pd va.
Proof.
  intros Hok Hpa Hva Hg. unfold mapping, pte_at. pose proof (pde_idx_range va Hva) as Hi.
  pose proof (pte_idx_range va) as Hj. destruct (decide (pde_idx va = i)) as [Ei|Hne].
  - destruct (Z.eqb_spec (pde s pd (pde_idx va)) 0) as [E|E].
    + rewrite Ei in *. destruct (gr_new _ _ _ Hg E) as [_ Hz].
      rewrite (proj2 (Z.eqb_neq _ _)) by apply (gr_pde _ _ _ Hg).
      assert (read_u32 (mem s') (table s' pd i + 4 * pte_idx va) = 0) as ->; [|done].
      unfold read_u32. rewrite !Hz by (unfold PGSIZE; lia). done.
    + rewrite Ei in E. rewrite (gr_old _ _ _ Hg E). by rewrite (proj2 (Z.eqb_neq _ _)) by (by rewrite Ei).
  - unfold table. rewrite (gr_others _ _ _ Hg) by done.
    destruct (Z.eqb_spec (pde s pd (pde_idx va)) 0) as [E|E]; [done|].
    fold (table s pd (pde_idx va)). destruct (pd_tables _ _ Hok _ Hi E) as [Hl Hn].
    rewrite (read_u32_frame (mem s) (mem s')); [done|]. intros x Hx.
    apply (gr_mem _ _ _ Hg _ _ Hl); [unfold PGSIZE; lia|done].
Qed.

(** ** Writing an entry *)
Definition put_pte (s : Paging) (va v : Z) : Paging :=
  with_pa (with_mem (write_u32 (pte_at s pd va) v (mem s)) (pg_pa s)) s.

Section put.
Context (s : Paging) (va v : Z) (Hpa : pa_ok (pg_pa s)) (Hok : pd_ok s pd) (Hva : in_u32 va)
  (Hv : in_u32 v) (Hn : pde s pd (pde_idx va) <> 0).

Lemma put_mem a x : live (pg_pa s) a = true -> a <> table s pd (pde_idx va) ->
  a <= x < a + PGSIZE -> mem (put_pte s va v) x = mem s x.
Proof.
  intros Ha Hne Hx. destruct (pd_tables _ _ Hok _ (pde_idx_range va Hva) Hn) as [Hl _].
  destruct (live_page _ _ Hpa Hl) as (_ & Hlm & _). destruct (live_page _ _ Hpa Ha) as (_ & Ham & _).
  apply write_u32_frame. intros Hin. pose proof (pte_idx_range va). unfold pte_at in Hin.
  apply (pages_apart a (table s pd (pde_idx va)) x x); try done. unfold PGSIZE. lia.
Qed.

Lemma put_live a : live (pg_pa (put_pte s va v)) a = live (pg_pa s) a.
Proof.
  destruct (pd_tables _ _ Hok _ (pde_idx_range va Hva) Hn) as [Hl _].
  destruct (live_page _ _ Hpa Hl) as (_ & _ & _ & Hb). pose proof (pte_idx_range va).
  revert a. apply live_frame; try done. intros x Hx. apply write_u32_frame. intros Hin.
  apply (Hb x); [unfold pte_at, PGSIZE in *; lia|done].
Qed.

Lemma put_pde i : 0 <= i < 1024 -> pde (put_pte s va v) pd i = pde s pd i.
Proof.
  intros Hi. destruct (pd_tables _ _ Hok _ (pde_idx_range va Hva) Hn) as [_ Hne].
  apply read_u32_frame. intros x Hx. apply (put_mem pd); [apply Hok|congruence|unfold PGSIZE; lia].
Qed.

Lemma put_ok : pa_ok (pg_pa (put_pte s va v)) /\ pd_ok (put_pte s va v) pd.
Proof.
  split; [by destruct Hpa|]. pose proof put_pde as Hpde. split.
  - rewrite put_live. apply Hok.
  - intros i Hi. unfold table. rewrite put_live, Hpde by done. by apply (pd_tables _ _ Hok).
  - intros i j Hi Hj. unfold table. rewrite !Hpde by done. by apply (pd_inj _ _ Hok).
Qed.

Lemma put_mapping va' : in_u32 va' ->
  mapping (put_pte s va v) pd va' =
    if decide (va / PGSIZE = va' / PGSIZE) then (if Z.land v PTE_P =? 0 then None else Some v)
    else mapping s pd va'.
Proof.
  intros Hva'. unfold mapping, pte_at, table. pose proof (pde_idx_range va' Hva') as Hi.
  rewrite put_pde by done. fold (table s pd (pde_idx va')). pose proof (pte_idx_range va) as Hj.
  pose proof (pte_idx_range va') as Hj'. case_decide as Hs; rewrite same_page in Hs.
  - destruct Hs as [E1 E2]. rewrite <- E1, <- E2. rewrite (proj2 (Z.eqb_neq _ _)) by done.
    unfold put_pte, mem. simpl. fold (pte_at s pd va). by rewrite read_write_u32.
  - destruct (Z.eqb_spec (pde s pd (pde_idx va')) 0) as [E|E]; [done|].
    rewrite (read_u32_frame (mem s)); [done|]. intros x Hx.
    destruct (pd_tables _ _ Hok _ Hi E) as [Hl _].
    destruct (decide (pde_idx va = pde_idx va')) as [Ei|Hne].
    + apply write_u32_frame. unfold pte_at. rewrite Ei. intros Hin. apply Hs. split; [done|]. lia.
    + apply (put_mem (table s pd (pde_idx va'))); [done| |unfold PGSIZE; lia].
      intros Et. apply Hne. symmetry. apply (pd_inj _ _ Hok); try done. by apply pde_idx_range.
Qed.

(** Another directory does not see it. *)
Lemma put_isolated pd' va' :
  pd_ok s pd' -> in_u32 va' -> pde_idx va < 768 -> isolated s pd pd' ->
  mapping (put_pte s va v) pd' va' = mapping s pd' va'.
Proof.
  intros Hok' Hva' Hu (Hne & _ & Hiso). pose proof (pde_idx_range va Hva) as Hi0.
  destruct (Hiso (pde_idx va) ltac:(lia) Hn) as [Ht Htab]. pose proof (pde_idx_range va' Hva') as Hi.
  pose proof (pte_idx_range va') as Hj. unfold mapping, pte_at, table.
  assert (pde (put_pte s va v) pd' (pde_idx va') = pde s pd' (pde_idx va')) as Ep.
  { apply read_u32_frame. intros x Hx. apply (put_mem pd'); [apply Hok'|congruence|unfold PGSIZE; lia]. }
  rewrite Ep. destruct (Z.eqb_spec (pde s pd' (pde_idx va')) 0) as [E|E]; [done|].
  rewrite (read_u32_frame (mem s)); [done|]. intros x Hx. fold (table s pd' (pde_idx va')) in Hx.
  destruct (pd_tables _ _ Hok' _ Hi E) as [Hl _]. apply (put_mem (table s pd' (pde_idx va'))); [done| |unfold PGSIZE; lia].
  specialize (Htab _ Hi E). congruence.
Qed.
End put.
End pd.

(** ** The operations *)

(** The entry that maps a user page to kernel page [kpage]. *)
Definition user_pte (kpage : Z) (writable : bool) : Z :=
  Z.lor (kpage - PHYS_BASE) (Z.lor (Z.lor PTE_P PTE_U) (if writable then PTE_W else 0)).

Definition kernel_page (kpage : Z) : Prop := PHYS_BASE <= kpage < u32_lim /\ kpage mod PGSIZE = 0.

(** Where the kernel's own pages are: in the direct map. *)
Definition paging_ok (s : Paging) : Prop :=
  pa_ok (pg_pa s) /\ PHYS_BASE <= base (KERNEL_POOL (pg_pa s)).

Lemma user_pte_ok kpage w : kernel_page kpage ->
  in_u32 (user_pte kpage w) /\ Z.land (user_pte kpage w) PTE_ADDR = kpage - PHYS_BASE /\
  (forall g, 0 <= g < PGSIZE -> Z.land (user_pte kpage w) g =
     Z.land (if w then Z.lor (Z.lor PTE_P PTE_U) PTE_W else Z.lor PTE_P PTE_U) g).
Proof.
  intros [Hk Hm]. unfold user_pte. set (f := Z.lor (Z.lor PTE_P PTE_U) _).
  assert ((kpage - PHYS_BASE) mod PGSIZE = 0) as Hm'
    by (unfold PHYS_BASE, PGSIZE in *; Z.div_mod_to_equations; lia).
  assert (0 <= f < PGSIZE) as Hf by (unfold f; by destruct w).
  split_and!.
  - rewrite lor_page by done. unfold in_u32, PHYS_BASE, PGSIZE, u32_lim in *. lia.
  - apply entry_addr; [unfold PHYS_BASE, u32_lim in *; lia|done..].
  - intros g Hg. rewrite entry_flags by done. unfold f. by destruct w.
Qed.

(** [set_page], as its callers see it. *)
Lemma wp_set_page pd upage kpage w s (Q : bool -> Paging -> Prop) :
  paging_ok s -> pd_ok s pd -> 0 <= upage < PHYS_BASE -> upage mod PGSIZE = 0 -> kernel_page kpage ->
  (pde s pd (pde_idx upage) = 0 -> exhausted ZERO 1 (pg_pa s) -> Q false s) ->
  (forall s1, grown pd (pde_idx upage) s s1 -> Q true (put_pte pd s1 upage (user_pte kpage w))) ->
  wp (set_page pd upage kpage w) s Q.
Proof.
  intros [Hpa Hb] Hok Hu Hum [Hk Hkm] Hno HQ. unfold set_page, pg_ofs.
  assert (in_u32 upage) as Hva by (unfold in_u32, PHYS_BASE, u32_lim in *; lia).
  apply wp_bind, wp_assert; [apply Z.ltb_lt; lia|].
  apply wp_bind, wp_assert; [by rewrite land_pgmask, Hum|]. apply wp_bind, wp_assert; [by rewrite land_pgmask, Hkm|].
  apply wp_bind, wp_lookup_create; [done..|intros E0 Hex; by apply wp_ret, Hno|].
  intros s1 Hg. pose proof (gr_pd _ _ _ _ Hg) as Hok1.
  destruct (pd_tables _ _ Hok1 _ (pde_idx_range upage Hva) (gr_pde _ _ _ _ Hg)) as [Hl _].
  destruct (live_page _ _ (gr_pa _ _ _ _ Hg) Hl) as (Hpos & _). pose proof (pte_idx_range upage).
  rewrite (proj2 (Z.eqb_neq _ _)) by (unfold pte_at; lia).
  apply wp_bind, wp_vtop; [lia|]. apply wp_bind, wp_modify, wp_ret. by apply HQ.
Qed.

(** Mapping a page changes the translation of that page and of no other.  For a well-formed
    directory, [set_page] either reports failure and changes nothing, because no page is left for
    a page table, or every address of user page [upage] translates to the frame of [kpage] with
    the user bit set and write permission exactly as asked, every other address translates as
    before, and the directory stays well formed. *)
Theorem set_page_correct pd upage kpage w s :
  paging_ok s -> pd_ok s pd -> 0 <= upage < PHYS_BASE -> upage mod PGSIZE = 0 -> kernel_page kpage ->
  wp (set_page pd upage kpage w) s (fun ok s' =>
    (ok = false /\ s' = s /\ exhausted ZERO 1 (pg_pa s)) \/
    (ok = true /\ pa_ok (pg_pa s') /\ pd_ok s' pd /\
     exists pte, Z.land pte PTE_ADDR = kpage - PHYS_BASE /\ Z.land pte PTE_U <> 0 /\
       (Z.land pte PTE_W <> 0 <-> w = true) /\
       forall va, in_u32 va -> mapping s' pd va =
         if decide (upage / PGSIZE = va / PGSIZE) then Some pte else mapping s pd va)).
Proof.
  intros Hs Hok Hu Hum Hk. destruct (user_pte_ok kpage w Hk) as (Hin & Haddr & Hbits).
  assert (in_u32 upage) as Hva by (unfold in_u32, PHYS_BASE, u32_lim in *; lia).
  apply wp_set_page; [done..|by left|]. intros s1 Hg. right. split; [done|].
  destruct (put_ok pd s1 upage (user_pte kpage w)) as [Hpa' Hpd'];
    [apply (gr_pa _ _ _ _ Hg)|apply (gr_pd _ _ _ _ Hg)|done|apply (gr_pde _ _ _ _ Hg)|].
  split_and!; [done|done|]. exists (user_pte kpage w). split_and!; [done| | |].
  - rewrite Hbits by done. destruct w; discriminate.
  - rewrite Hbits by done. destruct w; split; done || discriminate.
  - intros va Hva'. rewrite put_mapping;
      [|apply (gr_pa _ _ _ _ Hg)|apply (gr_pd _ _ _ _ Hg)|done|done|apply (gr_pde _ _ _ _ Hg)|done].
    rewrite Hbits by done. rewrite (mapping_grown pd _ s s1 va Hok (proj1 Hs) Hva' Hg). by destruct w.
Qed.

(** The directory [pd'] of another process while [pd] gets a new table. *)
Lemma mapping_grown_other pd pd' i s s1 :
  pa_ok (pg_pa s) -> pd_ok s pd' -> isolated s pd pd' -> grown pd i s s1 -> 0 <= i < 768 ->
  (forall j, 0 <= j < 1024 -> pde s1 pd' j = pde s pd' j) /\
  (forall va, in_u32 va -> mapping s1 pd' va = mapping s pd' va) /\ pd_ok s1 pd' /\ isolated s1 pd pd'.
Proof.
  intros Hpa Hok' (Hne & Htp & Hiso) Hg Hi.
  assert (forall j, 0 <= j < 1024 -> pde s1 pd' j = pde s pd' j) as Hp.
  { intros j Hj. apply read_u32_frame. intros x Hx. apply (gr_mem _ _ _ _ Hg pd'); [apply Hok'|unfold PGSIZE; lia|congruence]. }
  assert (forall j, 0 <= j < 1024 -> table s1 pd' j = table s pd' j) as Ht by (intros j Hj; unfold table; by rewrite Hp).
  split_and!; [done| | |].
  - intros va Hva. unfold mapping, pte_at. pose proof (pde_idx_range va Hva) as Hj. rewrite Hp, Ht by done.
    destruct (Z.eqb_spec (pde s pd' (pde_idx va)) 0) as [E|E]; [done|].
    destruct (pd_tables _ _ Hok' _ Hj E) as [Hl _]. pose proof (pte_idx_range va).
    rewrite (read_u32_frame (mem s)); [done|]. intros x Hx.
    apply (gr_mem _ _ _ _ Hg _ _ Hl); [unfold PGSIZE; lia|by apply Htp].
  - split.
    + apply (gr_live _ _ _ _ Hg), Hok'.
    + intros j Hj. rewrite Hp, Ht by done. intros E. destruct (pd_tables _ _ Hok' j Hj E).
      split; [by apply (gr_live _ _ _ _ Hg)|done].
    + intros j k Hj Hk. rewrite !Hp, !Ht by done. by apply (pd_inj _ _ Hok').
  - split_and!; [done|intros j Hj; rewrite Hp, Ht by done; by apply Htp|].
    intros j Hj Hn. destruct (decide (j = i)) as [->|Hji].
    + destruct (decide (pde s pd i = 0)) as [E|E].
      * destruct (gr_new _ _ _ _ Hg E) as [Hfresh _]. split.
        -- intros Et. rewrite Et in Hfresh. rewrite (pd_live _ _ Hok') in Hfresh. done.
        -- intros k Hk. rewrite Hp, Ht by done. intros Ek Et. rewrite Et in Hfresh.
           destruct (pd_tables _ _ Hok' k Hk Ek). congruence.
      * rewrite (gr_old _ _ _ _ Hg E) in *. by apply Hiso.
    + unfold table. rewrite (gr_others _ _ _ _ Hg) in * by lia. fold (table s pd j).
      destruct (Hiso j Hj Hn) as [H1 H2]. split; [done|]. intros k Hk. rewrite Hp by done. by apply H2.
Qed.

(** Address spaces are isolated.  If the user half of [pd] uses no page that directory [pd']
    uses, then mapping any user page in [pd] leaves every translation of [pd'] as it was, and the
    two directories stay isolated and well formed. *)
Theorem set_page_isolated pd pd' upage kpage w s :
  paging_ok s -> pd_ok s pd -> pd_ok s pd' -> isolated s pd pd' ->
  0 <= upage < PHYS_BASE -> upage mod PGSIZE = 0 -> kernel_page kpage ->
  wp (set_page pd upage kpage w) s (fun _ s' =>
    pd_ok s' pd' /\ isolated s' pd pd' /\ forall va, in_u32 va -> mapping s' pd' va = mapping s pd' va).
Proof.
  intros Hs Hok Hok' Hiso Hu Hum Hk. destruct (user_pte_ok kpage w Hk) as (Hin & _).
  assert (in_u32 upage) as Hva by (unfold in_u32, PHYS_BASE, u32_lim in *; lia).
  apply wp_set_page; [done..|done|]. intros s1 Hg.
  destruct (mapping_grown_other pd pd' _ s s1 (proj1 Hs) Hok' Hiso Hg (pde_idx_user upage Hu)) as (Hp1 & Hm1 & Hok1 & Hiso1).
  pose proof (gr_pa _ _ _ _ Hg) as Ga. pose proof (gr_pd _ _ _ _ Hg) as Gd. pose proof (gr_pde _ _ _ _ Hg) as Ge.
  pose proof (pde_idx_user upage Hu) as Hidx. set (v := user_pte kpage w) in *.
  destruct Hiso1 as (Hne & Htp & Hi1). destruct (Hi1 _ Hidx Ge) as [Htne _].
  assert (forall i, 0 <= i < 1024 -> pde (put_pte pd s1 upage v) pd' i = pde s1 pd' i) as Hp2.
  { intros i Hi. apply read_u32_frame. intros x Hx. apply (put_mem pd s1 upage v Ga Gd Hva Ge pd'); [apply Hok1|congruence|].
    unfold PGSIZE. lia. }
  split_and!.
  - split.
    + rewrite put_live by done. apply Hok1.
    + intros i Hi. unfold table. rewrite put_live, Hp2 by done. by apply (pd_tables _ _ Hok1).
    + intros i j Hi Hj. unfold table. rewrite !Hp2 by done. by apply (pd_inj _ _ Hok1).
  - split_and!; [done|intros j Hj; unfold table; rewrite Hp2 by done; by apply Htp|].
    intros i Hi. unfold table. rewrite put_pde by (done || lia). intros Hn. destruct (Hi1 i Hi Hn) as [H1 H2].
    split; [done|]. intros j Hj. rewrite Hp2 by done. by apply H2.
  - intros va Hva'. rewrite (put_isolated pd s1 upage v Ga Gd Hva Ge pd' va Hok1 Hva' ltac:(lia)); [by apply Hm1|].
    by split_and!.
Qed.

(** [get_page] reads the translation. *)
Lemma wp_get_page pd va s (Q : Z -> Paging -> Prop) :
  pa_ok (pg_pa s) -> pd_ok s pd -> in_u32 va ->
  match mapping s pd va with
  | None => Q 0 s
  | Some pte => PHYS_BASE + Z.land pte PTE_ADDR + PGSIZE <= u32_lim /\
      Q (PHYS_BASE + Z.land pte PTE_ADDR + va mod PGSIZE) s
  end -> wp (get_page pd va) s Q.
Proof.
  intros Hpa Hok Hva HQ. unfold get_page, mapping in *. apply wp_bind, wp_pte_lookup; try done.
  destruct (Z.eqb_spec (pde s pd (pde_idx va)) 0) as [E|E]; [by apply wp_ret|].
  destruct (pd_tables _ _ Hok _ (pde_idx_range va Hva) E) as [Hl _].
  destruct (live_page _ _ Hpa Hl) as (Hpos & _). pose proof (pte_idx_range va).
  rewrite (proj2 (Z.eqb_neq _ _)) by (unfold pte_at; lia). apply wp_bind, wp_gets. simpl in HQ.
  destruct (Z.land (read_u32 (mem s) (pte_at s pd va)) PTE_P =? 0); [by apply wp_ret|].
  destruct HQ as [Hlim HQ]. unfold PGSIZE in Hlim. pose proof (Z.mod_pos_bound va PGSIZE ltac:(done)).
  apply wp_bind, wp_ptov; [lia|]. unfold pg_ofs. rewrite land_pgmask.
  apply wp_u32_add; [unfold PGSIZE in *; lia|]. by rewrite (Z.add_comm _ PHYS_BASE).
Qed.

(** The state after the TLB entry of a page was invalidated. *)
Definition invalidated (upage : Z) (s : Paging) : Paging :=
  mkPaging (pg_pa s) (INIT_PAGE_DIR s) (cr3 s) (upage :: invlpg s).

Lemma mapping_invalidated u s pd va : mapping (invalidated u s) pd va = mapping s pd va.
Proof. done. Qed.

Lemma pd_ok_invalidated u s pd : pd_ok s pd -> pd_ok (invalidated u s) pd.
Proof. intros [H1 H2 H3]. split; [exact H1|exact H2|exact H3]. Qed.

Lemma wp_clear_page pd upage s (Q : unit -> Paging -> Prop) :
  pa_ok (pg_pa s) -> pd_ok s pd -> in_u32 upage ->
  Q tt (if pde s pd (pde_idx upage) =? 0 then s else invalidated upage (put_pte pd s upage 0)) ->
  wp (clear_page pd upage) s Q.
Proof.
  intros Hpa Hok Hva HQ. unfold clear_page. apply wp_bind, wp_pte_lookup; try done.
  destruct (Z.eqb_spec (pde s pd (pde_idx upage)) 0) as [E|E]; [by apply wp_ret|].
  destruct (pd_tables _ _ Hok _ (pde_idx_range upage Hva) E) as [Hl _].
  destruct (live_page _ _ Hpa Hl) as (Hpos & _). pose proof (pte_idx_range upage).
  rewrite (proj2 (Z.eqb_neq _ _)) by (unfold pte_at; lia). by apply wp_bind, wp_modify, wp_modify.
Qed.

(** What was mapped is found, until it is cleared.  After [set_page] succeeded,
    [get_page] of any address in the user page returns the same offset in the kernel page; after
    [clear_page] it returns null, the page's TLB entry has been invalidated, and all other pages
    of the address space translate as they did at the start. *)
Theorem page_roundtrip pd upage kpage w ofs s :
  paging_ok s -> pd_ok s pd -> 0 <= upage < PHYS_BASE -> upage mod PGSIZE = 0 -> kernel_page kpage ->
  0 <= ofs < PGSIZE ->
  wp (let! ok := set_page pd upage kpage w in
      if ok then
        let! found := get_page pd (upage + ofs) in
        clear_page pd upage ;;
        let! cleared := get_page pd (upage + ofs) in
        ret (Some (found, cleared))
      else ret None) s
    (fun r s' => match r with
     | None => s' = s
     | Some (found, cleared) =>
         found = kpage + ofs /\ cleared = 0 /\ upage ∈ invlpg s' /\
         forall va, in_u32 va -> va / PGSIZE <> upage / PGSIZE -> mapping s' pd va = mapping s pd va
     end).
Proof.
  intros Hs Hok Hu Hum Hk Hofs. destruct (user_pte_ok kpage w Hk) as (Hin & Haddr & Hbits).
  assert (in_u32 upage) as Hva by (unfold in_u32, PHYS_BASE, u32_lim in *; lia).
  assert ((upage + ofs) / PGSIZE = upage / PGSIZE /\ (upage + ofs) mod PGSIZE = ofs /\ in_u32 (upage + ofs)) as (Hdiv & Hmod & Hva2)
    by (unfold in_u32, PHYS_BASE, PGSIZE, u32_lim in *; Z.div_mod_to_equations; lia).
  destruct Hk as [Hk Hkm].
  assert (kpage + PGSIZE <= u32_lim) as Hkl by (unfold PGSIZE, u32_lim in *; Z.div_mod_to_equations; lia).
  apply wp_bind, wp_set_page; [done..|by intros _ _; apply wp_ret|]. intros s1 Hg.
  pose proof (gr_pa _ _ _ _ Hg) as Ga. pose proof (gr_pd _ _ _ _ Hg) as Gd. pose proof (gr_pde _ _ _ _ Hg) as Ge.
  set (s2 := put_pte pd s1 upage (user_pte kpage w)).
  destruct (put_ok pd s1 upage (user_pte kpage w) Ga Gd Hva Ge) as [Ga2 Gd2]. fold s2 in Ga2, Gd2.
  assert (pde s2 pd (pde_idx upage) <> 0) as Ge2 by (unfold s2; rewrite put_pde by (done || by apply pde_idx_range); done).
  apply wp_bind, wp_get_page; [done..|]. unfold s2 at 1. rewrite put_mapping by done. rewrite decide_True by done.
  rewrite (Hbits PTE_P) by done.
  replace (Z.land (if w then _ else _) PTE_P =? 0) with false by (by destruct w).
  rewrite Haddr. split; [lia|]. apply wp_bind, wp_clear_page; [done..|]. rewrite (proj2 (Z.eqb_neq _ _)) by done.
  destruct (put_ok pd s2 upage 0 Ga2 Gd2 Hva Ge2) as [Ga3 Gd3].
  set (s3 := invalidated upage (put_pte pd s2 upage 0)).
  assert (forall va, in_u32 va -> mapping s3 pd va = if decide (upage / PGSIZE = va / PGSIZE) then None else mapping s2 pd va) as Hm3.
  { intros va Hva'. unfold s3. rewrite mapping_invalidated, (put_mapping pd s2 upage 0) by done. done. }
  apply wp_bind, wp_get_page; [exact Ga3|exact (pd_ok_invalidated _ _ _ Gd3)|done|]. rewrite Hm3 by done. rewrite decide_True by done.
  apply wp_ret. split_and!; [lia|done|by left|]. intros va Hva' Hne. rewrite Hm3 by done.
  rewrite decide_False by congruence. unfold s2. rewrite put_mapping by done. rewrite decide_False by congruence.
  apply (mapping_grown pd _ s s1 va Hok (proj1 Hs) Hva' Hg).
Qed.

(** Setting or clearing a flag keeps a word a word. *)
Lemma in_u32_bits a : 0 <= a -> in_u32 a <-> forall n, 32 <= n -> Z.testbit a n = false.
Proof.
  intros Ha. unfold in_u32, u32_lim. rewrite <- (Z.bounded_iff_bits_nonneg 32 a) by lia. lia.
Qed.

Lemma in_u32_lor a b : in_u32 a -> in_u32 b -> in_u32 (Z.lor a b).
Proof.
  intros Ha Hb. assert (0 <= Z.lor a b) by (apply Z.lor_nonneg; split; [exact (proj1 Ha)|exact (proj1 Hb)]).
  apply in_u32_bits; [done|]. intros n Hn. rewrite Z.lor_spec.
  by rewrite (proj1 (in_u32_bits a (proj1 Ha)) Ha), (proj1 (in_u32_bits b (proj1 Hb)) Hb).
Qed.

Lemma in_u32_land a b : in_u32 a -> 0 <= b -> in_u32 (Z.land a b).
Proof.
  intros Ha Hb. assert (0 <= Z.land a b) by (apply Z.land_nonneg; right; exact Hb).
  apply in_u32_bits; [done|]. intros n Hn. rewrite Z.land_spec.
  by rewrite (proj1 (in_u32_bits a (proj1 Ha)) Ha).
Qed.

Lemma accessed_word pte (val : bool) : in_u32 pte ->
  let v := if val then Z.lor pte PTE_A else Z.land pte (not_w 32 PTE_A) in
  in_u32 v /\ Z.land v PTE_P = Z.land pte PTE_P /\ negb (Z.land v PTE_A =? 0) = val /\
  Z.land v (not_w 32 PTE_A) = Z.land pte (not_w 32 PTE_A).
Proof.
  intros Hp. destruct val; split_and!.
  - by apply in_u32_lor.
  - rewrite Z.land_lor_distr_l. by rewrite Z.lor_0_r.
  - rewrite Z.land_lor_distr_l, Z.land_diag. apply negb_true_iff, Z.eqb_neq. intros E.
    apply Z.lor_eq_0_iff in E as [_ E]. done.
  - rewrite Z.land_lor_distr_l. by rewrite Z.lor_0_r.
  - by apply in_u32_land.
  - by rewrite <- Z.land_assoc.
  - rewrite <- Z.land_assoc. by rewrite Z.land_0_r.
  - by rewrite <- Z.land_assoc.
Qed.

(** The accessed bit.  On a page that has an entry, [set_accessed] with [true] or [false]
    makes [is_accessed] answer exactly that, keeps the frame, the permissions and the dirty bit,
    and changes no other page of the address space. *)
Theorem accessed_bit pd upage (val : bool) s pte :
  pa_ok (pg_pa s) -> pd_ok s pd -> in_u32 upage -> in_u32 pte -> mapping s pd upage = Some pte ->
  wp (set_accessed pd upage val ;; is_accessed pd upage) s (fun r s' =>
    r = val /\
    (exists pte', mapping s' pd upage = Some pte' /\ Z.land pte' (not_w 32 PTE_A) = Z.land pte (not_w 32 PTE_A)) /\
    forall va, in_u32 va -> va / PGSIZE <> upage / PGSIZE -> mapping s' pd va = mapping s pd va).
Proof.
  intros Hpa Hok Hva Hpte Hmap.
  assert (pde s pd (pde_idx upage) <> 0 /\ read_u32 (mem s) (pte_at s pd upage) = pte /\ Z.land pte PTE_P <> 0) as (Hn & Er & Hp).
  { unfold mapping in Hmap. destruct (Z.eqb_spec (pde s pd (pde_idx upage)) 0); [done|].
    destruct (Z.eqb_spec (Z.land (read_u32 (mem s) (pte_at s pd upage)) PTE_P) 0); [done|]. by simplify_eq. }
  assert (0 < pte_at s pd upage) as Hpos.
  { destruct (pd_tables _ _ Hok _ (pde_idx_range upage Hva) Hn) as [Hl _].
    destruct (live_page _ _ Hpa Hl) as (Hpos & _). pose proof (pte_idx_range upage). unfold pte_at. lia. }
  destruct (accessed_word pte val Hpte) as (Hv & HvP & HvA & Hvr).
  set (v := if val then _ else _) in *. set (s1 := put_pte pd s upage v). set (s2 := invalidated upage s1).
  destruct (put_ok pd s upage v Hpa Hok Hva Hn) as [Hpa1 Hok1].
  assert (pde s1 pd (pde_idx upage) <> 0) as Hn1 by (unfold s1; rewrite put_pde by (done || by apply pde_idx_range); done).
  assert (pte_at s1 pd upage = pte_at s pd upage) as Ea.
  { unfold pte_at, table, s1. by rewrite put_pde by (done || by apply pde_idx_range). }
  assert (read_u32 (mem s1) (pte_at s pd upage) = v) as Er1 by (by apply read_write_u32).
  unfold set_accessed. apply wp_bind, wp_bind, wp_pte_lookup; [done..|].
  rewrite (proj2 (Z.eqb_neq (pde s pd (pde_idx upage)) 0) Hn).
  rewrite (proj2 (Z.eqb_neq _ _)) by lia. apply wp_bind, wp_gets. rewrite Er. fold v.
  apply wp_bind, wp_modify, wp_modify.
  match goal with |- wp _ ?st ?Q => change (wp (is_accessed pd upage) s2 Q) end.
  unfold is_accessed. apply wp_bind, wp_pte_lookup; [exact Hpa1|exact (pd_ok_invalidated _ _ _ Hok1)|done|].
  assert (pde s2 pd (pde_idx upage) <> 0) as Hn2 by exact Hn1.
  assert (pte_at s2 pd upage = pte_at s pd upage) as Ea2 by exact Ea.
  rewrite (proj2 (Z.eqb_neq (pde s2 pd (pde_idx upage)) 0) Hn2), Ea2, (proj2 (Z.eqb_neq _ _)) by lia.
  apply wp_bind, wp_gets, wp_ret. change (mem s2) with (mem s1). rewrite Er1. split_and!; [done| |].
  - exists v. split; [|done]. unfold s2, s1. rewrite mapping_invalidated, put_mapping by done.
    rewrite decide_True by done. rewrite HvP. by rewrite (proj2 (Z.eqb_neq _ _) Hp).
  - intros va Hva' Hne. unfold s2, s1. rewrite mapping_invalidated, put_mapping by done.
    by rewrite decide_False by congruence.
Qed.

(** Two empty directories, in pages 0 and 2 of [demo_pa]'s kernel pool. *)
Definition demo_paging : Paging := mkPaging demo_pa 0xC0101000 0 [].
Definition demo_pd : Z := 0xC0101000.
Definition demo_pd' : Z := 0xC0103000.

Lemma demo_paging_ok : paging_ok demo_paging.
Proof. split; [apply demo_pa_ok|done]. Qed.

Lemma demo_pde pd i : (pd = demo_pd \/ pd = demo_pd') -> 0 <= i < 1024 -> pde demo_paging pd i = 0.
Proof.
  intros Hpd Hi. unfold pde, read_u32, mem. simpl.
  rewrite !decide_False by (unfold demo_pd, demo_pd' in Hpd; lia). done.
Qed.

Lemma demo_pd_ok pd : (pd = demo_pd \/ pd = demo_pd') -> pd_ok demo_paging pd.
Proof.
  intros Hpd. split.
  - destruct Hpd as [-> | ->]; by vm_compute.
  - intros i Hi. by rewrite demo_pde.
  - intros i j Hi Hj. by rewrite demo_pde.
Qed.

Lemma demo_isolated : isolated demo_paging demo_pd demo_pd'.
Proof.
  split; [done|]. split; intros i Hi; rewrite demo_pde by (auto || lia); done.
Qed.

Definition demo_upage : Z := 0x08048000.
Definition demo_kpage : Z := 0xC0200000.

Lemma set_page_correct_witness :
  wp (set_page demo_pd demo_upage demo_kpage true) demo_paging (fun ok s' =>
    ok = false \/ (ok = true /\ mapping s' demo_pd demo_upage <> None /\ mapping s' demo_pd 0 = None)).
Proof.
  eapply wp_mono.
  - apply (set_page_correct demo_pd demo_upage demo_kpage true demo_paging);
      [apply demo_paging_ok|apply demo_pd_ok; by left|done..].
  - intros ok s' [(-> & _)|(-> & _ & _ & pte & _ & _ & _ & Hm)]; [by left|right]. split; [done|].
    rewrite !Hm by done. split; [by rewrite decide_True|]. rewrite decide_False by done.
    unfold mapping. rewrite demo_pde by (by left || done). done.
Defined.

Lemma set_page_isolated_witness :
  wp (set_page demo_pd demo_upage demo_kpage true) demo_paging (fun _ s' =>
    pd_ok s' demo_pd' /\ isolated s' demo_pd demo_pd' /\
    forall va, in_u32 va -> mapping s' demo_pd' va = mapping demo_paging demo_pd' va).
Proof.
  apply (set_page_isolated demo_pd demo_pd' demo_upage demo_kpage true demo_paging);
    [apply demo_paging_ok|apply demo_pd_ok; by left|apply demo_pd_ok; by right|apply demo_isolated|done..].
Defined.

Lemma page_roundtrip_witness :
  wp (let! ok := set_page demo_pd demo_upage demo_kpage false in
      if ok then
        let! found := get_page demo_pd (demo_upage + 12) in
        clear_page demo_pd demo_upage ;;
        let! cleared := get_page demo_pd (demo_upage + 12) in
        ret (Some (found, cleared))
      else ret None) demo_paging
    (fun r s' => match r with
     | None => s' = demo_paging
     | Some (found, cleared) =>
         found = demo_kpage + 12 /\ cleared = 0 /\ demo_upage ∈ invlpg s' /\
         forall va, in_u32 va -> va / PGSIZE <> demo_upage / PGSIZE ->
           mapping s' demo_pd va = mapping demo_paging demo_pd va
     end).
Proof.
  apply (page_roundtrip demo_pd demo_upage demo_kpage false 12 demo_paging);
    [apply demo_paging_ok|apply demo_pd_ok; by left|done..].
Defined.

(** [demo_paging] with one page mapped: a table in the page of [demo_pd'], and an entry in it. *)
Definition demo_mapped : Paging :=
  mkPaging (with_mem (write_u32 (demo_pd' + 4 * pte_idx demo_upage) 0x00200067
    (write_u32 (demo_pd + 4 * pde_idx demo_upage) 0x00103007 (p_mem demo_pa))) demo_pa) demo_pd 0 [].

Lemma demo_mapped_pde i : 0 <= i < 1024 -> i <> pde_idx demo_upage -> pde demo_mapped demo_pd i = 0.
Proof.
  intros Hi Hne. unfold pde, mem. simpl. change (demo_pd' + 4 * pte_idx demo_upage) with 0xC0103120.
  change (demo_pd + 4 * pde_idx demo_upage) with 0xC0101080. change (pde_idx demo_upage) with 32 in Hne.
  unfold demo_pd. rewrite !read_write_u32_ne by lia. unfold read_u32. simpl.
  rewrite !decide_False by lia. done.
Qed.

Lemma demo_mapped_ok : pa_ok (pg_pa demo_mapped) /\ pd_ok demo_mapped demo_pd.
Proof.
  split; [by repeat split; vm_compute|].
  assert (forall i, 0 <= i < 1024 -> pde demo_mapped demo_pd i <> 0 -> i = pde_idx demo_upage) as H.
  { intros i Hi Hn. destruct (decide (i = pde_idx demo_upage)); [done|]. by rewrite demo_mapped_pde in Hn. }
  split.
  - by vm_compute.
  - intros i Hi Hn. rewrite (H i Hi Hn). split; [by vm_compute|]. vm_compute. done.
  - intros i j Hi Hj Hn Hm _. by rewrite (H i Hi Hn), (H j Hj Hm).
Qed.

Lemma accessed_bit_witness :
  wp (set_accessed demo_pd demo_upage false ;; is_accessed demo_pd demo_upage) demo_mapped
    (fun r s' => r = false).
Proof.
  eapply wp_mono.
  - apply (accessed_bit demo_pd demo_upage false demo_mapped 0x00200067);
      [apply demo_mapped_ok|apply demo_mapped_ok|done|done|vm_compute; reflexivity].
  - intros r s' [-> _]. reflexivity.
Defined.
