(* ===== verification/Log.v ===== *)
(** The write-ahead log (src/filesys/log.rs): transactions that record sector numbers, their
    commit through a log area, and recovery.  The log talks to the device directly, not through
    the buffer cache, and its lock is seen from one thread. *)
From S2P Require Import Prelude Block Bio.

Definition LOGSIZE : Z := 10.

Record LogHeader := mkHeader { h_n : Z; h_sectors : list Z }.

Record Log := mkLog {
  start : Z;
  l_size : Z;
  outstanding : Z;
  committing : bool;
  header : LogHeader;
}.

(** The devices, and [LOG]. *)
Record LogState (D : Type) := mkLogState { lg_bio : BioState D; LOG : option Log }.
Arguments mkLogState {D}.
Arguments lg_bio {D}.
Arguments LOG {D}.

Section log.
Context {D : Type} `{!BlockOps D}.

Definition log : M (LogState D) Log :=
  let! l := gets LOG in
  match l with Some l => ret l | None => panic "static not initialised" end.
Definition set_log (l : Log) : M (LogState D) unit :=
  modify (fun st => mkLogState (lg_bio st) (Some l)).
Definition set_header (h : LogHeader) : M (LogState D) unit :=
  let! l := log in
  set_log (mkLog (start l) (l_size l) (outstanding l) (committing l) h).
Definition set_outstanding (n : Z) : M (LogState D) unit :=
  let! l := log in
  set_log (mkLog (start l) (l_size l) n (committing l) (header l)).

(** [if let Some(dev) = block::get_role(FileSys) { dev.read(sector, &mut buf) }] and the write. *)
Definition dev_read (sector : Z) (buf : list Z) : M (LogState D) (list Z) :=
  zoom lg_bio (fun b st => mkLogState b (LOG st)) (read_sector sector buf).
Definition dev_write (sector : Z) (buf : list Z) : M (LogState D) unit :=
  zoom lg_bio (fun b st => mkLogState b (LOG st)) (write_sector sector buf).

(** The header in a sector: the count, then ten sector numbers. *)
Definition header_bytes (h : LogHeader) : list Z :=
  splice 0 (le_bytes (h_n h) ++ mjoin (le_bytes <$> h_sectors h)) sector_buf.

Definition write_head : M (LogState D) unit :=
  let! l := log in
  dev_write (start l) (header_bytes (header l)).

(** [*ptr.add(k)] *)
Definition word (k : Z) (buf : list Z) : Z := le_word (slice (4 * k) 4 buf).

Definition read_head : M (LogState D) unit :=
  let! l := log in
  let! buf := dev_read (start l) sector_buf in
  let n := word 0 buf in
  let firsts := (fun i => word (1 + i) buf) <$> range 0 (Z.min n LOGSIZE) in
  set_header (mkHeader n (splice 0 firsts (h_sectors (header l)))).

(** One turn of [write_log] and of [install_trans]; the buffer is kept from turn to turn. *)
Definition log_one (i : Z) (buf : list Z) : M (LogState D) (list Z) :=
  let! l := log in
  let! dst_sector := u32_add (start l + 1) i in
  let! src_sector := index (h_sectors (header l)) i in
  let! buf := dev_read src_sector buf in
  dev_write dst_sector buf ;;
  ret buf.
Definition install_one (i : Z) (buf : list Z) : M (LogState D) (list Z) :=
  let! l := log in
  let! src_sector := u32_add (start l + 1) i in
  let! dst_sector := index (h_sectors (header l)) i in
  let! buf := dev_read src_sector buf in
  dev_write dst_sector buf ;;
  ret buf.

Fixpoint copy_loop (f : Z -> list Z -> M (LogState D) (list Z)) (is_ : list Z) (buf : list Z) : M (LogState D) unit :=
  match is_ with
  | [] => ret tt
  | i :: is' => let! buf := f i buf in copy_loop f is' buf
  end.

Definition write_log : M (LogState D) unit :=
  let! l := log in
  copy_loop log_one (range 0 (h_n (header l))) sector_buf.

Definition install_trans : M (LogState D) unit :=
  let! l := log in
  copy_loop install_one (range 0 (h_n (header l))) sector_buf.

Definition clear_n : M (LogState D) unit :=
  let! l := log in
  set_header (mkHeader 0 (h_sectors (header l))).

Definition commit : M (LogState D) unit :=
  let! l := log in
  if h_n (header l) =? 0 then ret tt
  else
    write_log ;;
    write_head ;;
    install_trans ;;
    clear_n ;;
    write_head.

Definition recover : M (LogState D) unit :=
  read_head ;;
  let! l := log in
  if 0 <? h_n (header l) then
    install_trans ;;
    clear_n ;;
    write_head
  else ret tt.

Definition init (log_start log_size : Z) : M (LogState D) unit :=
  set_log (mkLog log_start log_size 0 false (mkHeader 0 (replicate 10 0))) ;;
  recover.

Definition begin_op : M (LogState D) unit :=
  let! l := log in
  let! n := i32_add (outstanding l) 1 in
  set_outstanding n.

Definition end_op : M (LogState D) unit :=
  let! l := log in
  let! n := i32_sub (outstanding l) 1 in
  set_outstanding n ;;
  if n =? 0 then commit else ret tt.

Definition log_write (sector : Z) : M (LogState D) unit :=
  let! l := log in
  let n := h_n (header l) in
  if LOGSIZE <=? n then panic "log: transaction too large"
  else
    if bool_decide (sector ∈ take (Z.to_nat n) (h_sectors (header l))) then ret tt
    else
      let! ss := index_set (h_sectors (header l)) n sector in
      set_header (mkHeader (n + 1) ss).
End log.

(** ** The header on disk *)
Definition header_ok (h : LogHeader) : Prop :=
  0 <= h_n h < u32_lim /\ List.length (h_sectors h) = Z.to_nat LOGSIZE /\ Forall in_u32 (h_sectors h).

Lemma words_length l : List.length (mjoin (le_bytes <$> l)) = (4 * List.length l)%nat.
Proof.
  induction l as [|x l IH]; [done|]. change (mjoin (le_bytes <$> x :: l)) with (le_bytes x ++ mjoin (le_bytes <$> l)).
  rewrite length_app, IH. simpl. lia.
Qed.

Lemma header_bytes_ok h : header_ok h -> List.length (header_bytes h) = 512%nat /\ Forall in_u8 (header_bytes h).
Proof.
  intros (Hn & Hl & Hs). unfold header_bytes. split.
  - rewrite splice_length; [done|lia|]. rewrite length_app, words_length, Hl. done.
  - apply Forall_splice; [|apply zeros_u8]. apply Forall_app. split; [apply le_bytes_u8|].
    clear. induction (h_sectors h) as [|x l IH]; [constructor|]. apply Forall_app. split; [apply le_bytes_u8|done].
Qed.

(** The word at [k] of the header sector. *)
Lemma header_word_0 h : header_ok h -> word 0 (header_bytes h) = h_n h.
Proof.
  intros (Hn & _). unfold word, header_bytes, splice, slice. simpl. by apply (le_word_bytes (h_n h) []).
Qed.

Lemma words_slice l : forall i x rest, l !! i = Some x ->
  take 4 (drop (4 * i) (mjoin (le_bytes <$> l) ++ rest)) = le_bytes x.
Proof.
  induction l as [|y l IH]; intros i x rest Hi; [done|]. destruct i as [|i]; simplify_eq/=; [done|].
  replace (i + S (i + S (i + S (i + 0))))%nat with (3 + 4 * i)%nat by lia. simpl. by apply IH.
Qed.

Lemma header_word_S h i x : header_ok h -> h_sectors h !! i = Some x ->
  word (1 + Z.of_nat i) (header_bytes h) = x.
Proof.
  intros (_ & Hl & Hs) Hi. unfold word, header_bytes, splice, slice. rewrite app_nil_l.
  replace (Z.to_nat (4 * (1 + Z.of_nat i))) with (4 + 4 * i)%nat by lia.
  change (Z.to_nat 4) with 4%nat. rewrite <- app_assoc. cbn [app le_bytes drop Nat.add].
  rewrite (words_slice _ _ x) by done. rewrite <- (app_nil_r (le_bytes x)). apply le_word_bytes.
  by eapply Forall_lookup_1 in Hi.
Qed.

(** ** Disk images *)
Definition image := Z -> list Z.
Definition upd (s : Z) (d : list Z) (v : image) : image := fun t => if decide (t = s) then d else v t.

(** The image after [install_trans] from slot [i] on, and after [write_log]. *)
Fixpoint installed (st i : Z) (ds : list Z) (v : image) : image :=
  match ds with [] => v | d :: ds' => installed st (i + 1) ds' (upd d (v (st + 1 + i)) v) end.
Fixpoint logged (st i : Z) (ds : list Z) (v : image) : image :=
  match ds with [] => v | d :: ds' => logged st (i + 1) ds' (upd (st + 1 + i) (v d) v) end.

(** The log slot that supplies sector [s] in the end. *)
Fixpoint source (st i : Z) (ds : list Z) (s : Z) : option Z :=
  match ds with
  | [] => None
  | d :: ds' =>
      match source st (i + 1) ds' s with
      | Some a => Some a
      | None => if decide (s = d) then Some (st + 1 + i) else None
      end
  end.

Definition replay (st : Z) (ds : list Z) (v : image) (s : Z) : list Z :=
  match source st 0 ds s with Some a => v a | None => v s end.

(** No destination lies in the slots from [i] on. *)
Definition outside (st i n : Z) (ds : list Z) : Prop := Forall (fun d => ~ (st + 1 + i <= d < st + 1 + n)) ds.

Lemma source_range st ds : forall i s a, source st i ds s = Some a ->
  st + 1 + i <= a < st + 1 + i + Z.of_nat (List.length ds).
Proof.
  induction ds as [|d ds IH]; intros i s a H; [done|]. simpl in *.
  destruct (source st (i + 1) ds s) eqn:E; [apply IH in E; simplify_eq; lia|]. case_decide; simplify_eq. lia.
Qed.

Lemma source_None st ds : forall i s, source st i ds s = None <-> s ∉ ds.
Proof.
  induction ds as [|d ds IH]; intros i s; simpl.
  { split; [|done]. intros _ H. by apply elem_of_nil in H. }
  rewrite elem_of_cons. destruct (source st (i + 1) ds s) eqn:E.
  - split; [done|]. intros H. exfalso. assert (s ∉ ds) as Hs by tauto. apply (IH (i + 1)) in Hs. congruence.
  - apply IH in E. case_decide; [split; [done|tauto]|tauto].
Qed.

Lemma installed_eq st ds : forall i v s, outside st i (i + Z.of_nat (List.length ds)) ds ->
  installed st i ds v s = match source st i ds s with Some a => v a | None => v s end.
Proof.
  induction ds as [|d ds IH]; intros i v s Ho; [done|]. simpl. apply Forall_cons in Ho as [Hd Ho].
  rewrite IH. 2:{ eapply Forall_impl; [exact Ho|]. simpl. lia. }
  simpl in Hd. destruct (source st (i + 1) ds s) as [a|] eqn:E.
  - apply source_range in E. unfold upd. rewrite decide_False by lia. done.
  - unfold upd. by case_decide.
Qed.

Lemma installed_ext st ds : forall i v w, (forall s, v s = w s) -> forall s, installed st i ds v s = installed st i ds w s.
Proof.
  induction ds as [|d ds IH]; intros i v w H s; simpl; [done|]. apply IH. intros t. unfold upd. by rewrite !H.
Qed.

(** Installing what is there already changes nothing. *)
Lemma installed_same st ds : forall i v, (forall j d, ds !! j = Some d -> v (st + 1 + i + Z.of_nat j) = v d) ->
  forall s, installed st i ds v s = v s.
Proof.
  induction ds as [|d ds IH]; intros i v H s; simpl; [done|].
  assert (forall t, upd d (v (st + 1 + i)) v t = v t) as Hu.
  { intros t. unfold upd. case_decide; [|done]. subst. specialize (H 0%nat d eq_refl).
    by replace (st + 1 + i + Z.of_nat 0) with (st + 1 + i) in H by lia. }
  rewrite (installed_ext st ds (i + 1) _ v Hu). apply IH. intros j e Hj.
  specialize (H (S j) e Hj). by replace (st + 1 + i + Z.of_nat (S j)) with (st + 1 + (i + 1) + Z.of_nat j) in H by lia.
Qed.

Lemma logged_spec st ds : forall i v n, i + Z.of_nat (List.length ds) = n -> outside st i n ds ->
  (forall s, ~ (st + 1 + i <= s < st + 1 + n) -> logged st i ds v s = v s) /\
  (forall j d, ds !! j = Some d -> logged st i ds v (st + 1 + i + Z.of_nat j) = v d).
Proof.
  induction ds as [|d ds IH]; intros i v n Hn Ho; simpl; [done|]. apply Forall_cons in Ho as [Hd Ho].
  simpl in Hn. destruct (IH (i + 1) (upd (st + 1 + i) (v d) v) n) as [H1 H2]; [lia| |].
  { eapply Forall_impl; [exact Ho|]. simpl. lia. }
  split.
  - intros s Hs. rewrite H1 by lia. unfold upd. by rewrite decide_False by lia.
  - intros [|j] e Hj; simplify_eq/=.
    + replace (st + 1 + i + Z.of_nat 0) with (st + 1 + i) by lia. rewrite H1 by lia. unfold upd. by rewrite decide_True.
    + replace (st + 1 + i + Z.of_nat (S j)) with (st + 1 + (i + 1) + Z.of_nat j) by lia. rewrite (H2 j e Hj).
      unfold upd. rewrite decide_False; [done|]. rewrite Forall_forall in Ho.
      specialize (Ho e). apply list_elem_of_lookup_2 in Hj as He. specialize (Ho He). lia.
Qed.

(** Replaying the log after part of it was installed. *)
Lemma installed_again st ds k v s : outside st 0 (Z.of_nat (List.length ds)) ds ->
  installed st 0 ds (installed st 0 (take k ds) v) s = installed st 0 ds v s.
Proof.
  intros Ho.
  assert (outside st 0 (0 + Z.of_nat (List.length (take k ds))) (take k ds)) as Hok.
  { apply Forall_take. eapply Forall_impl; [exact Ho|]. simpl. intros x. rewrite length_take. lia. }
  assert (forall t, t ∉ ds -> installed st 0 (take k ds) v t = v t) as Hkeep.
  { intros t Ht. rewrite installed_eq by done.
    assert (source st 0 (take k ds) t = None) as ->; [|done]. apply source_None. intros Hin. apply Ht.
    by apply elem_of_take in Hin as (j & Hj & _); eapply list_elem_of_lookup_2. }
  rewrite !(installed_eq st ds 0) by (by rewrite Z.add_0_l).
  destruct (source st 0 ds s) as [a|] eqn:E.
  - apply source_range in E. apply Hkeep. intros Hin. unfold outside in Ho. rewrite Forall_forall in Ho. specialize (Ho a Hin). lia.
  - apply source_None in E. by apply Hkeep.
Qed.

(** ** Running the log *)
Section run.
Context {D : Type} `{!BlockOps D, !BlockLaws D}.

(** The log [l] in memory, and a device of [n] sectors with contents [v]. *)
Record at_ (n : Z) (l : Log) (v : image) (st : LogState D) : Prop := {
  at_log : LOG st = Some l;
  at_dev : is_Some (fs_dev (lg_bio st));
  at_size : fs_size (lg_bio st) = n;
  at_view : forall s, view (lg_bio st) s = v s;
}.

Lemma at_ext n l v w st : (forall s, v s = w s) -> at_ n l v st -> at_ n l w st.
Proof. intros H []. split; try done. intros s. by rewrite <- H. Qed.

Lemma view_ok (b : BioState D) s : is_Some (fs_dev b) ->
  List.length (view b s) = Z.to_nat BLOCK_SECTOR_SIZE /\ Forall in_u8 (view b s).
Proof.
  intros [d Hd]. unfold view. rewrite Hd. simpl. split; [apply ops_read_length|apply ops_read_bytes].
Qed.

Lemma at_sane n l v st s : at_ n l v st -> List.length (v s) = Z.to_nat BLOCK_SECTOR_SIZE /\ Forall in_u8 (v s).
Proof. intros []. rewrite <- at_view0. by apply view_ok. Qed.

Lemma wp_log n l v st (Q : Log -> LogState D -> Prop) : at_ n l v st -> Q l st -> wp log st Q.
Proof. intros [] HQ. unfold log. wp_steps. rewrite at_log0. by apply wp_ret. Qed.

Lemma wp_set_header n l v st h (Q : unit -> LogState D -> Prop) :
  at_ n l v st ->
  (forall st', at_ n (mkLog (start l) (l_size l) (outstanding l) (committing l) h) v st' -> Q tt st') ->
  wp (set_header h) st Q.
Proof. intros Ha HQ. apply wp_bind. eapply wp_log; [done|]. apply wp_modify, HQ. by destruct Ha. Qed.

Lemma wp_log_read n l v st s buf (Q : list Z -> LogState D -> Prop) :
  at_ n l v st -> s < n -> (forall st', at_ n l v st' -> Q (v s) st') -> wp (dev_read s buf) st Q.
Proof.
  intros [] Hs HQ. apply wp_zoom, wp_read_sector; [done|lia|]. intros b _ [Hsz Hv] Hd. rewrite at_view0.
  apply HQ. split; simpl; try done; [lia|]. intros t. by rewrite Hv.
Qed.

Lemma wp_log_write n l v st s d (Q : unit -> LogState D -> Prop) :
  at_ n l v st -> s < n -> List.length d = Z.to_nat BLOCK_SECTOR_SIZE -> Forall in_u8 d ->
  (forall st', at_ n l (upd s d v) st' -> Q tt st') -> wp (dev_write s d) st Q.
Proof.
  intros [] Hs Hl H8 HQ. apply wp_zoom, wp_write_sector; [done|lia|done|done|]. intros b _ [Hsz Hv] Hd.
  apply HQ. split; simpl; try done; [lia|]. intros t. rewrite Hv. unfold upd. by rewrite at_view0.
Qed.

(** Where the log lies: header and slots on the device, every destination on it too. *)
Definition fits (n st cnt : Z) (ds : list Z) : Prop :=
  0 <= st /\ st + 1 + cnt <= n /\ n < u32_lim /\ Forall (fun d => d < n) ds.

Lemma wp_copy_loop (f : Z -> list Z -> M (LogState D) (list Z)) (g : Z -> list Z -> image -> image)
    n l ds0 cnt :
  (forall i ds v, g i ds v = match ds with [] => v | d :: ds' => g (i + 1) ds' (g i [d] v) end) ->
  (forall i d v st buf (Q : list Z -> LogState D -> Prop), 0 <= i < cnt -> ds0 !! Z.to_nat i = Some d ->
     at_ n l v st -> (forall b st', at_ n l (g i [d] v) st' -> Q b st') -> wp (f i buf) st Q) ->
  Z.of_nat (List.length ds0) = cnt ->
  forall ds pre v st buf (Q : unit -> LogState D -> Prop), ds0 = pre ++ ds -> at_ n l v st ->
  (forall st', at_ n l (g (Z.of_nat (List.length pre)) ds v) st' -> Q tt st') ->
  wp (copy_loop f (range (Z.of_nat (List.length pre)) cnt) buf) st Q.
Proof.
  intros Hg Hf Hc. induction ds as [|d ds IH]; intros pre v st buf Q E Ha HQ.
  - rewrite app_nil_r in E. subst pre. rewrite range_nil by lia. apply wp_ret, HQ. by rewrite Hg.
  - assert (List.length ds0 = List.length pre + S (List.length ds))%nat as Hl by (subst; by rewrite length_app).
    rewrite range_cons by lia. simpl. apply wp_bind. eapply (Hf _ d); [lia| |exact Ha|].
    { rewrite Nat2Z.id, E, lookup_app_r, Nat.sub_diag by lia. done. }
    intros b st' Ha'. replace (Z.of_nat (List.length pre) + 1) with (Z.of_nat (List.length (pre ++ [d])))
      by (rewrite length_app; simpl; lia).
    eapply (IH (pre ++ [d])); [by rewrite <- app_assoc|exact Ha'|]. intros st'' Ha''. apply HQ.
    rewrite Hg. rewrite length_app in Ha''. simpl in Ha''.
    by replace (Z.of_nat (List.length pre) + 1) with (Z.of_nat (List.length pre + 1)) by lia.
Qed.

Section loops.
Context (n : Z) (l : Log) (cnt : Z) (Hcnt : 0 <= cnt)
  (Hlen : Z.to_nat cnt = List.length (take (Z.to_nat cnt) (h_sectors (header l))))
  (Hfit : fits n (start l) cnt (take (Z.to_nat cnt) (h_sectors (header l)))).
Let ds : list Z := take (Z.to_nat cnt) (h_sectors (header l)).

Lemma slot_facts i d : 0 <= i < cnt -> ds !! Z.to_nat i = Some d ->
  h_sectors (header l) !! Z.to_nat i = Some d /\ d < n /\ start l + 1 + i < n /\ start l + 1 + i < u32_lim.
Proof.
  intros Hi Hd. destruct Hfit as (H0 & Hs & Hn & Hds).
  split; [by unfold ds in Hd; rewrite lookup_take_lt in Hd by lia|].
  split; [exact (Forall_lookup_1 _ _ _ _ Hds Hd)|lia].
Qed.

Lemma wp_install st v buf (Q : unit -> LogState D -> Prop) :
  at_ n l v st -> (forall st', at_ n l (installed (start l) 0 ds v) st' -> Q tt st') ->
  wp (copy_loop install_one (range 0 cnt) buf) st Q.
Proof.
  intros Ha HQ.
  apply (wp_copy_loop install_one (installed (start l)) n l ds cnt) with (ds := ds) (pre := []) (v := v);
    [by intros i [|]| |unfold ds; lia|done|done|done].
  clear Q HQ st v Ha buf. intros i d v st buf Q Hi Hd Ha HQ. destruct (slot_facts i d Hi Hd) as (Hl & Hdn & Hsn & Hlim).
  apply wp_bind. eapply wp_log; [done|]. apply wp_bind, wp_u32_add; [done|].
  apply wp_bind. apply (wp_index _ _ d); [lia|done|]. apply wp_bind. eapply wp_log_read; [exact Ha|done|]. intros st1 Ha1.
  destruct (at_sane _ _ _ _ (start l + 1 + i) Ha1). apply wp_bind. eapply wp_log_write; [exact Ha1|done..|].
  intros st2 Ha2. by apply wp_ret, HQ.
Qed.

Lemma wp_write_log_loop st v buf (Q : unit -> LogState D -> Prop) :
  at_ n l v st -> (forall st', at_ n l (logged (start l) 0 ds v) st' -> Q tt st') ->
  wp (copy_loop log_one (range 0 cnt) buf) st Q.
Proof.
  intros Ha HQ.
  apply (wp_copy_loop log_one (logged (start l)) n l ds cnt) with (ds := ds) (pre := []) (v := v);
    [by intros i [|]| |unfold ds; lia|done|done|done].
  clear Q HQ st v Ha buf. intros i d v st buf Q Hi Hd Ha HQ. destruct (slot_facts i d Hi Hd) as (Hl & Hdn & Hsn & Hlim).
  apply wp_bind. eapply wp_log; [done|]. apply wp_bind, wp_u32_add; [done|].
  apply wp_bind. apply (wp_index _ _ d); [lia|done|]. apply wp_bind. eapply wp_log_read; [exact Ha|done|]. intros st1 Ha1.
  destruct (at_sane _ _ _ _ d Ha1). apply wp_bind. eapply wp_log_write; [exact Ha1|done..|].
  intros st2 Ha2. by apply wp_ret, HQ.
Qed.
End loops.

Lemma wp_write_head n l v st (Q : unit -> LogState D -> Prop) :
  at_ n l v st -> start l < n -> header_ok (header l) ->
  (forall st', at_ n l (upd (start l) (header_bytes (header l)) v) st' -> Q tt st') -> wp write_head st Q.
Proof.
  intros Ha Hs Hh HQ. destruct (header_bytes_ok _ Hh). apply wp_bind. eapply wp_log; [done|].
  by eapply wp_log_write.
Qed.

(** A commit moves no data.  When [commit] runs on a transaction of up to ten sectors
    that lie outside the log area, every sector outside that area has at the end exactly the
    contents it had at the start: the log area is filled by reading the home locations, so what
    is logged, and installed, is what was on the disk already. *)
Theorem commit_moves_no_data n l v (st : LogState D) :
  at_ n l v st -> header_ok (header l) -> h_n (header l) <= LOGSIZE ->
  fits n (start l) (h_n (header l)) (take (Z.to_nat (h_n (header l))) (h_sectors (header l))) ->
  outside (start l) (-1) (h_n (header l)) (take (Z.to_nat (h_n (header l))) (h_sectors (header l))) ->
  wp commit st (fun _ st' =>
    forall s, ~ (start l <= s <= start l + h_n (header l)) -> view (lg_bio st') s = view (lg_bio st) s).
Proof.
  intros Ha Hh Hn10 Hfit Hout. set (cnt := h_n (header l)) in *. pose proof Hh as (Hn & Hlen & Hs32).
  unfold commit. apply wp_bind. eapply wp_log; [exact Ha|]. fold cnt. destruct (Z.eqb_spec cnt 0) as [E|E]; [by apply wp_ret|].
  set (ds := take (Z.to_nat cnt) (h_sectors (header l))) in *.
  assert (List.length ds = Z.to_nat cnt) as Hdl by (unfold ds; rewrite length_take, Hlen; unfold LOGSIZE in *; lia).
  assert (Z.to_nat cnt = List.length (take (Z.to_nat cnt) (h_sectors (header l)))) as Hl' by (by fold ds).
  assert (start l < n) as Hst by (destruct Hfit; lia).
  assert (outside (start l) 0 cnt ds) as Hout0 by (eapply Forall_impl; [exact Hout|]; simpl; lia).
  apply wp_bind. unfold write_log. apply wp_bind. eapply wp_log; [exact Ha|]. fold cnt.
  eapply (wp_write_log_loop n l cnt); [lia|done|done|exact Ha|]. intros st1 Ha1. fold ds in Ha1.
  apply wp_bind. eapply wp_write_head; [exact Ha1|done|done|]. intros st2 Ha2.
  set (v1 := logged (start l) 0 ds v) in *. set (v2 := upd (start l) (header_bytes (header l)) v1) in *.
  apply wp_bind. unfold install_trans. apply wp_bind. eapply wp_log; [exact Ha2|]. fold cnt.
  eapply (wp_install n l cnt); [lia|done|done|exact Ha2|]. intros st3 Ha3. fold ds in Ha3.
  apply wp_bind. unfold clear_n. apply wp_bind. eapply wp_log; [exact Ha3|].
  eapply wp_set_header; [exact Ha3|]. intros st4 Ha4.
  eapply wp_write_head; [exact Ha4|done|by split_and!|]. intros st5 Ha5 s Hs. simpl in Ha5.
  rewrite (at_view _ _ _ _ Ha5), (at_view _ _ _ _ Ha). unfold upd at 1. rewrite decide_False by lia.
  destruct (logged_spec (start l) ds 0 v cnt ltac:(lia) Hout0) as [L1 L2]. fold v1 in L1, L2.
  rewrite installed_same.
  - unfold v2, upd. rewrite decide_False by lia. apply L1. lia.
  - intros j d Hj. unfold v2, upd. pose proof (lookup_lt_Some _ _ _ Hj). rewrite decide_False by lia.
    rewrite (L2 j d Hj). unfold outside in Hout. rewrite Forall_forall in Hout.
    specialize (Hout d ltac:(by eapply list_elem_of_lookup_2)). rewrite decide_False by lia. symmetry. apply L1. lia.
Qed.

(** ** Recovery *)
Lemma read_firsts h : header_ok h -> h_n h <= LOGSIZE ->
  (fun i => word (1 + i) (header_bytes h)) <$> range 0 (Z.min (h_n h) LOGSIZE) = take (Z.to_nat (h_n h)) (h_sectors h).
Proof.
  intros Hh Hn. pose proof Hh as (Hn0 & Hl & _). unfold LOGSIZE in *. rewrite Z.min_l by lia. apply list_eq. intros i.
  rewrite list_lookup_fmap. unfold range. destruct (decide (Z.of_nat i < h_n h)).
  - rewrite lookup_seqZ_lt by lia. simpl. rewrite lookup_take_lt by lia.
    destruct (lookup_lt_is_Some_2 (h_sectors h) i ltac:(lia)) as [x Hx]. rewrite Hx. f_equal.
    replace (0 + Z.of_nat i) with (Z.of_nat i) by lia. by apply header_word_S.
  - rewrite lookup_seqZ_ge by lia. simpl. by rewrite lookup_take_ge by lia.
Qed.

(** The log as [init] sets it up, and after [read_head] of a disk with header [h]. *)
Definition fresh (log_start log_size : Z) : Log :=
  mkLog log_start log_size 0 false (mkHeader 0 (replicate 10 0)).
Definition found (log_start log_size : Z) (h : LogHeader) : Log :=
  mkLog log_start log_size 0 false
    (mkHeader (h_n h) (splice 0 (take (Z.to_nat (h_n h)) (h_sectors h)) (replicate 10 0))).

Lemma found_ok a b h : header_ok h -> h_n h <= LOGSIZE ->
  header_ok (header (found a b h)) /\
  take (Z.to_nat (h_n h)) (h_sectors (header (found a b h))) = take (Z.to_nat (h_n h)) (h_sectors h).
Proof.
  intros (Hn & Hl & Hs) Hn10. unfold LOGSIZE in *.
  assert (List.length (take (Z.to_nat (h_n h)) (h_sectors h)) = Z.to_nat (h_n h)) as Ht by (rewrite length_take; lia).
  simpl. split.
  - split_and!; simpl; [lia|lia|rewrite splice_length; [done|lia|rewrite Ht; simpl; lia]|].
    apply Forall_splice; [by apply Forall_take|by repeat constructor].
  - unfold splice. simpl. rewrite take_app_length' by done. done.
Qed.

Lemma wp_read_head a b n v h st (Q : unit -> LogState D -> Prop) :
  at_ n (fresh a b) v st -> a < n -> v a = header_bytes h -> header_ok h -> h_n h <= LOGSIZE ->
  (forall st', at_ n (found a b h) v st' -> Q tt st') -> wp read_head st Q.
Proof.
  intros Ha Hn Hv Hh Hn10 HQ. apply wp_bind. eapply wp_log; [exact Ha|]. apply wp_bind.
  eapply wp_log_read; [exact Ha|done|]. intros st1 Ha1. simpl start. rewrite Hv. cbv zeta.
  rewrite header_word_0, read_firsts by done. eapply wp_set_header; [exact Ha1|]. intros st2 Ha2. by apply HQ.
Qed.

(** A recovery that is cut off after [k] sectors were installed, and the next boot. *)
Definition crash_and_recover (k log_start log_size : Z) : M (LogState D) unit :=
  set_log (fresh log_start log_size) ;;
  read_head ;;
  copy_loop install_one (range 0 k) sector_buf ;;
  init log_start log_size.

Lemma wp_init a b n v h st (Q : unit -> LogState D -> Prop) :
  is_Some (fs_dev (lg_bio st)) -> fs_size (lg_bio st) = n -> (forall s, view (lg_bio st) s = v s) ->
  v a = header_bytes h -> header_ok h -> h_n h <= LOGSIZE ->
  fits n a (h_n h) (take (Z.to_nat (h_n h)) (h_sectors h)) ->
  (forall st', (forall s, s <> a -> view (lg_bio st') s = installed a 0 (take (Z.to_nat (h_n h)) (h_sectors h)) v s) ->
     word 0 (view (lg_bio st') a) = 0 -> Q tt st') ->
  wp (init a b) st Q.
Proof.
  intros Hd Hsz Hview Hv Hh Hn10 Hfit HQ. destruct (found_ok a b h Hh Hn10) as [Hfh Hft].
  pose proof Hh as (Hn & Hl & _). assert (a < n) as Han by (destruct Hfit; lia).
  apply wp_bind, wp_modify. unfold recover. apply wp_bind. eapply (wp_read_head a b n v h); try done.
  intros st1 Ha1. apply wp_bind. eapply wp_log; [exact Ha1|]. cbn [header found h_n].
  destruct (Z.ltb_spec 0 (h_n h)) as [Hpos|H0].
  2:{ assert (h_n h = 0) as E by lia. apply wp_ret, HQ.
      - intros s _. rewrite (at_view _ _ _ _ Ha1), E. done.
      - rewrite (at_view _ _ _ _ Ha1), Hv. by rewrite header_word_0. }
  apply wp_bind. unfold install_trans. apply wp_bind. eapply wp_log; [exact Ha1|].
  eapply (wp_install n (found a b h) (h_n h)); [lia|rewrite Hft, length_take; unfold LOGSIZE in *; lia|by rewrite Hft|exact Ha1|].
  intros st2 Ha2. rewrite Hft in Ha2. cbn [start found] in Ha2.
  apply wp_bind. unfold clear_n. apply wp_bind. eapply wp_log; [exact Ha2|]. eapply wp_set_header; [exact Ha2|].
  intros st3 Ha3. destruct Hfh as (Hf1 & Hf2 & Hf3).
  eapply wp_write_head; [exact Ha3|done|by split_and!|]. intros st4 Ha4. apply HQ.
  - intros s Hs. rewrite (at_view _ _ _ _ Ha4). unfold upd. by rewrite decide_False by done.
  - rewrite (at_view _ _ _ _ Ha4). unfold upd. rewrite decide_True by done. by rewrite header_word_0.
Qed.

(** Recovery is idempotent and correct.  Let the disk hold a committed header [h] of at
    most ten destination sectors outside the log area.  If a first recovery is cut off by a crash
    after installing any number [k] of them, and the machine boots again, then every sector but
    the header ends with the contents of the last log slot naming it, or unchanged if none does
    -- the same as after one undisturbed recovery -- and the header on disk is cleared. *)
Theorem recovery_idempotent a b n h k (st : LogState D) :
  is_Some (fs_dev (lg_bio st)) -> fs_size (lg_bio st) = n ->
  view (lg_bio st) a = header_bytes h -> header_ok h -> h_n h <= LOGSIZE ->
  fits n a (h_n h) (take (Z.to_nat (h_n h)) (h_sectors h)) ->
  outside a (-1) (h_n h) (take (Z.to_nat (h_n h)) (h_sectors h)) -> 0 <= k <= h_n h ->
  wp (crash_and_recover k a b) st (fun _ st' =>
    (forall s, s <> a -> view (lg_bio st') s = replay a (take (Z.to_nat (h_n h)) (h_sectors h)) (view (lg_bio st)) s) /\
    word 0 (view (lg_bio st') a) = 0).
Proof.
  intros Hd Hsz Hv Hh Hn10 Hfit Hout Hk. destruct (found_ok a b h Hh Hn10) as [Hfh Hft].
  pose proof Hh as (Hn & Hl & _). set (ds := take (Z.to_nat (h_n h)) (h_sectors h)) in *.
  assert (List.length ds = Z.to_nat (h_n h)) as Hdl by (unfold ds; rewrite length_take; unfold LOGSIZE in *; lia).
  set (v := view (lg_bio st)) in *. assert (a < n) as Han by (destruct Hfit; lia).
  assert (take (Z.to_nat k) (h_sectors (header (found a b h))) = take (Z.to_nat k) ds) as Htk.
  { rewrite <- Hft, take_take, Nat.min_l by lia. done. }
  apply wp_bind, wp_modify. apply wp_bind. eapply (wp_read_head a b n v h); try done. intros st1 Ha1.
  apply wp_bind. eapply (wp_install n (found a b h) k); [lia|rewrite Htk, length_take; lia| |exact Ha1|].
  { rewrite Htk. destruct Hfit as (? & ? & ? & Hf). split_and!; try done; [simpl; lia|]. by apply Forall_take. }
  intros st2 Ha2. rewrite Htk in Ha2. cbn [start found] in Ha2.
  assert (outside a 0 (Z.of_nat (List.length ds)) ds) as Hout0 by (eapply Forall_impl; [exact Hout|]; simpl; lia).
  assert (outside a 0 (0 + Z.of_nat (List.length (take (Z.to_nat k) ds))) (take (Z.to_nat k) ds)) as Houtk.
  { apply Forall_take. eapply Forall_impl; [exact Hout|]. simpl. intros x. rewrite length_take. lia. }
  eapply (wp_init a b n _ h); [apply Ha2|apply Ha2|apply Ha2| |done|done|done|].
  - rewrite installed_eq by done. assert (source a 0 (take (Z.to_nat k) ds) a = None) as ->; [|done].
    apply source_None. intros Hin. apply elem_of_take in Hin as (j & Hj & _).
    unfold outside in Hout. rewrite Forall_forall in Hout. specialize (Hout a ltac:(by eapply list_elem_of_lookup_2)). lia.
  - intros st' Hv' Hw. split; [|done]. intros s Hs. rewrite Hv' by done. fold ds. rewrite installed_again by done.
    rewrite installed_eq by (by rewrite Z.add_0_l). done.
Qed.
End run.

(** ** A header that counts too many sectors *)
Section bad_header.
Context {D : Type} `{!BlockOps D}.

(** [m] panics, or ends in [Q]. *)
Definition or_panic {A} (m : M (LogState D) A) (st : LogState D) (Q : A -> LogState D -> Prop) : Prop :=
  match m st with Ok a st' => Q a st' | Panic _ => True | _ => False end.

Lemma or_panic_bind {A B} (m : M (LogState D) A) (k : A -> M (LogState D) B) st Q :
  or_panic m st (fun a st' => or_panic (k a) st' Q) -> or_panic (bind m k) st Q.
Proof. unfold or_panic, bind. by destruct (m st). Qed.

Lemma or_panic_read s buf st (Q : list Z -> LogState D -> Prop) :
  (forall d st', LOG st' = LOG st -> Q d st') -> or_panic (dev_read s buf) st Q.
Proof.
  intros HQ. unfold or_panic, dev_read, read_sector, zoom, bind, get_role, gets. simpl.
  destruct (role_dev FileSys (bio_reg (lg_bio st))) as [idx|]; [|by apply HQ]. unfold on_dev. simpl.
  destruct (DEVICES (bio_reg (lg_bio st)) !! idx); [|done].
  unfold Block.read, bind, gets, assert. destruct (_ <? _); [|done]. by apply HQ.
Qed.

Lemma or_panic_write s buf st (Q : unit -> LogState D -> Prop) :
  (forall st', LOG st' = LOG st -> Q tt st') -> or_panic (dev_write s buf) st Q.
Proof.
  intros HQ. unfold or_panic, dev_write, write_sector, zoom, bind, get_role, gets. simpl.
  destruct (role_dev FileSys (bio_reg (lg_bio st))) as [idx|]; [|by apply HQ]. unfold on_dev. simpl.
  destruct (DEVICES (bio_reg (lg_bio st)) !! idx); [|done].
  unfold Block.write, bind, gets, assert. destruct (_ <? _); [|done]. by apply HQ.
Qed.

(** Installing more slots than the header has room for runs off its end. *)
Lemma install_overrun l n : List.length (h_sectors (header l)) = Z.to_nat LOGSIZE -> LOGSIZE < n ->
  forall i, 0 <= i <= LOGSIZE -> forall buf st, LOG st = Some l ->
  exists w, copy_loop (D := D) install_one (range i n) buf st = Panic w.
Proof.
  intros Hl Hn i Hi. pattern i. apply (range_ind _ i LOGSIZE); [| |lia].
  - intros buf st HL. rewrite range_cons by lia. unfold copy_loop, install_one, bind at 1, bind at 1, log, bind at 1, gets.
    rewrite HL. unfold ret at 1, bind at 1, u32_add. destruct (_ <? _); [|by eexists].
    unfold ret at 1, bind at 1, index. rewrite lookup_ge_None_2 by (rewrite Hl; done). by eexists.
  - intros j Hj IH buf st HL. rewrite range_cons by lia. cbn [copy_loop].
    assert (or_panic (install_one j buf) st (fun _ st' => LOG st' = Some l)) as H.
    { unfold install_one. apply or_panic_bind. unfold or_panic at 1, log, bind, gets. rewrite HL. unfold ret at 1.
      apply or_panic_bind. unfold or_panic at 1, u32_add. destruct (_ <? _); [|done]. unfold ret at 1.
      apply or_panic_bind. unfold or_panic at 1, index. destruct (j <? 0); [done|].
      destruct (h_sectors (header l) !! Z.to_nat j); [|done]. unfold ret at 1.
      apply or_panic_bind, or_panic_read. intros d st1 E1. apply or_panic_bind, or_panic_write. intros st2 E2.
      unfold or_panic, ret. congruence. }
    unfold or_panic in H. unfold bind. destruct (install_one j buf st) as [b st'|w| |]; [by apply IH|by eexists|done..].
Qed.

(** The count in the header on disk is not checked.  If the first word of the log header
    sector is greater than ten (an unformatted or damaged sector), [init] panics the kernel at
    boot: at the latest when it indexes the ten-entry sector table with 10. *)
Theorem recover_bad_header a b (st : LogState D) :
  is_Some (fs_dev (lg_bio st)) -> a < fs_size (lg_bio st) -> LOGSIZE < word 0 (view (lg_bio st) a) ->
  exists w, init a b st = Panic w.
Proof.
  intros Hd Ha Hn. set (n := word 0 (view (lg_bio st) a)) in *.
  set (st0 := mkLogState (lg_bio st) (Some (fresh a b))).
  assert (wp read_head st0 (fun _ st' => exists l,
    LOG st' = Some l /\ h_n (header l) = n /\ List.length (h_sectors (header l)) = Z.to_nat LOGSIZE)) as Hrd.
  { apply wp_bind, wp_bind, wp_gets, wp_ret, wp_bind, wp_zoom, wp_read_sector; [done|done|].
    intros bio' _ _ _. apply wp_bind, wp_bind, wp_gets, wp_ret, wp_modify.
    eexists. split_and!; [done|done|]. simpl. rewrite splice_length; [done|lia|].
    rewrite length_fmap. unfold range. rewrite length_seqZ. simpl. unfold LOGSIZE. lia. }
  apply wp_ok in Hrd as ([] & st1 & Erd & l & HL & En & Hlen).
  assert (exists w, recover st0 = Panic w) as [w Hw]; [|by exists w].
  unfold recover, bind at 1. rewrite Erd. unfold bind at 1, log at 1, bind at 1, gets at 1. rewrite HL.
  unfold ret at 1. rewrite En, (proj2 (Z.ltb_lt _ _)) by (unfold LOGSIZE in *; lia).
  destruct (install_overrun l n Hlen Hn 0 ltac:(done) sector_buf st1 HL) as [w Hw]. exists w.
  unfold bind at 1, install_trans, bind at 1, log at 1, bind at 1, gets at 1. rewrite HL. unfold ret at 1.
  by rewrite En, Hw.
Qed.
End bad_header.

(** A disk of 16 sectors with the log at sector 10, committed with sectors 3, 4 and 3 again. *)
Definition demo_hdr : LogHeader := mkHeader 3 [3; 4; 3; 0; 0; 0; 0; 0; 0; 0].
Definition demo_log_disk (hdr : list Z) : RamDisk :=
  {[ 10 := hdr; 11 := replicate 512 7; 12 := replicate 512 8; 13 := replicate 512 9 ]}.
Definition demo_bio_log (hdr : list Z) : BioState RamDisk :=
  mkBio (mkRegistry [mkDevice [104; 100; 97; 0] Raw 16 (demo_log_disk hdr) 0 0] [Some 0%nat; None; None; None])
    (mkBCache false []).
Definition demo_log (hdr : list Z) : LogState RamDisk := mkLogState (demo_bio_log hdr) None.

Lemma recovery_idempotent_witness :
  wp (crash_and_recover 2 10 6) (demo_log (header_bytes demo_hdr)) (fun _ st' =>
    view (lg_bio st') 3 = replicate 512 9 /\ view (lg_bio st') 4 = replicate 512 8).
Proof.
  eapply wp_mono.
  - apply (recovery_idempotent 10 6 16 demo_hdr 2 (demo_log (header_bytes demo_hdr)));
      [by eexists|reflexivity|vm_compute; reflexivity|repeat split; repeat constructor; done|done| | |done].
    + split_and!; try done. repeat constructor.
    + repeat constructor; simpl; lia.
  - intros [] st' [H _]. rewrite !H by done. split; vm_compute; reflexivity.
Defined.

Lemma recover_bad_header_witness :
  exists w, init 10 6 (demo_log (replicate 512 255)) = Panic w.
Proof. apply recover_bad_header; [by eexists|done|by vm_compute]. Defined.

Lemma commit_moves_no_data_witness :
  wp commit (mkLogState (demo_bio_log (zeros 512)) (Some (mkLog 10 6 0 false demo_hdr))) (fun _ st' =>
    view (lg_bio st') 3 = zeros 512).
Proof.
  eapply wp_mono.
  - apply (commit_moves_no_data 16 (mkLog 10 6 0 false demo_hdr) (view (demo_bio_log (zeros 512))));
      [by split|repeat split; repeat constructor; done|done| |].
    + split_and!; try done. repeat constructor.
    + repeat constructor; simpl; lia.
  - intros [] st' H. rewrite H by (simpl; lia). vm_compute. reflexivity.
Defined.
