(* ===== verification/Swap.v ===== *)
(** Swap space (src/vm/swap.rs): page-sized slots of eight sectors on the swap device. *)
From S2P Require Import Prelude Block Memory.

Definition SECTORS_PER_PAGE : Z := PGSIZE / BLOCK_SECTOR_SIZE.

(** The devices, memory, and [SWAP_BITMAP] with [SWAP_SLOT_COUNT]. *)
Record SwapState (D : Type) := mkSwap {
  sw_reg : Registry D;
  sw_mem : Mem;
  SWAP_BITMAP : option (list bool);
  SWAP_SLOT_COUNT : Z;
}.
Arguments mkSwap {D}.
Arguments sw_reg {D}.
Arguments sw_mem {D}.
Arguments SWAP_BITMAP {D}.
Arguments SWAP_SLOT_COUNT {D}.

(** [n] bytes of memory from [a], and a copy of bytes into memory. *)
Definition load_bytes (m : Mem) (a n : Z) : list Z := (fun i => m (a + i)) <$> range 0 n.
Definition store_bytes (a : Z) (l : list Z) (m : Mem) : Mem :=
  fun x => if decide (a <= x < a + Z.of_nat (List.length l)) then byte_at l (x - a) else m x.

Section swap.
Context {D : Type} `{!BlockOps D}.

Definition with_bitmap (bm : list bool) (st : SwapState D) : SwapState D :=
  mkSwap (sw_reg st) (sw_mem st) (Some bm) (SWAP_SLOT_COUNT st).
Definition on_reg {A} (m : M (Registry D) A) : M (SwapState D) A :=
  zoom sw_reg (fun r st => mkSwap r (sw_mem st) (SWAP_BITMAP st) (SWAP_SLOT_COUNT st)) m.

Definition init : M (SwapState D) bool :=
  let! dev := on_reg (get_role Swap) in
  match dev with
  | Some idx =>
      let! d := gets (fun st => DEVICES (sw_reg st) !! idx) in
      let slot_count := from_option dev_size 0 d / SECTORS_PER_PAGE in
      modify (fun st => mkSwap (sw_reg st) (sw_mem st) (Some (replicate (Z.to_nat slot_count) false)) slot_count) ;;
      ret true
  | None =>
      modify (with_bitmap []) ;;
      ret false
  end.

Definition alloc_slot : M (SwapState D) (option Z) :=
  let! bm := gets SWAP_BITMAP in
  match bm with
  | None => ret None
  | Some bm =>
      match find_index negb bm with
      | Some i => modify (with_bitmap (<[i := true]> bm)) ;; ret (Some (Z.of_nat i))
      | None => ret None
      end
  end.

Definition free_slot (slot : Z) : M (SwapState D) unit :=
  let! bm := gets SWAP_BITMAP in
  match bm with
  | None => ret tt
  | Some bm =>
      if slot <? Z.of_nat (List.length bm) then modify (with_bitmap (<[Z.to_nat slot := false]> bm)) else ret tt
  end.

Definition free_slot_public (slot : Z) : M (SwapState D) unit := free_slot slot.

Definition swap_out (kpage : Z) : M (SwapState D) (option Z) :=
  let! slot := alloc_slot in
  match slot with
  | None => ret None
  | Some slot =>
      let! dev := on_reg (get_role Swap) in
      match dev with
      | None => ret None
      | Some dev =>
          let! base_sector := u32_mul slot SECTORS_PER_PAGE in
          for_each (range 0 SECTORS_PER_PAGE) (fun i =>
            let offset := i * BLOCK_SECTOR_SIZE in
            let! sector := u32_add base_sector i in
            let! buf := gets (fun st => load_bytes (sw_mem st) (kpage + offset) BLOCK_SECTOR_SIZE) in
            on_reg (on_dev dev (Block.write sector buf))) ;;
          ret (Some slot)
      end
  end.

Definition swap_in (slot kpage : Z) : M (SwapState D) unit :=
  let! dev := on_reg (get_role Swap) in
  match dev with
  | None => panic "swap_in: no swap device"
  | Some dev =>
      let! base_sector := u32_mul slot SECTORS_PER_PAGE in
      for_each (range 0 SECTORS_PER_PAGE) (fun i =>
        let offset := i * BLOCK_SECTOR_SIZE in
        let! sector := u32_add base_sector i in
        let! buf := on_reg (on_dev dev (Block.read sector)) in
        modify (fun st => mkSwap (sw_reg st) (store_bytes (kpage + offset) buf (sw_mem st))
                            (SWAP_BITMAP st) (SWAP_SLOT_COUNT st))) ;;
      free_slot slot
  end.

(** ** The swap device *)
Definition sw_dev (st : SwapState D) : option (BlockDevice D) :=
  role_dev Swap (sw_reg st) ≫= fun i => DEVICES (sw_reg st) !! i.
Definition sector (st : SwapState D) (s : Z) : list Z := from_option (fun d => ops_read (dev_ops d) s) [] (sw_dev st).

(** Byte [k] of a slot. *)
Definition slot_byte (st : SwapState D) (slot k : Z) : Z :=
  byte_at (sector st (slot * SECTORS_PER_PAGE + k / BLOCK_SECTOR_SIZE)) (k mod BLOCK_SECTOR_SIZE).

Record swap_ok (bm : list bool) (st : SwapState D) : Prop := {
  so_bitmap : SWAP_BITMAP st = Some bm;
  so_dev : exists d, sw_dev st = Some d /\ Z.of_nat (List.length bm) * SECTORS_PER_PAGE <= dev_size d /\ dev_size d < u32_lim;
}.

(** The bytes of a page. *)
Definition page_u8 (m : Mem) (kpage : Z) : Prop := forall k, 0 <= k < PGSIZE -> in_u8 (m (kpage + k)).

Definition dev_at (idx : nat) (n : Z) (st : SwapState D) : Prop :=
  role_dev Swap (sw_reg st) = Some idx /\ exists d, DEVICES (sw_reg st) !! idx = Some d /\ dev_size d = n.

(** The devices that do not have the role [role] are the same. *)
Definition same_others (role : BlockType) (r r' : Registry D) : Prop :=
  ROLES r' = ROLES r /\ List.length (DEVICES r') = List.length (DEVICES r) /\
  forall j, role_dev role r <> Some j -> DEVICES r' !! j = DEVICES r !! j.

#[export] Instance same_others_preorder role : PreOrder (same_others role).
Proof.
  split; [done|]. intros r1 r2 r3 (Hr1 & Hl1 & H1) (Hr2 & Hl2 & H2).
  split_and!; [congruence|congruence|]. intros j Hj. rewrite H2, H1; [done|done|].
  unfold role_dev in *. by rewrite Hr1, Hl1.
Qed.

Lemma same_others_role role role' r r' : same_others role r r' -> role_dev role' r' = role_dev role' r.
Proof. intros (Hr & Hl & _). unfold role_dev. by rewrite Hr, Hl. Qed.

(** The device of another role is the same one, unchanged. *)
Lemma same_others_dev role role' r r' :
  same_others role r r' -> role_dev role r <> role_dev role' r ->
  (role_dev role' r' ≫= fun i => DEVICES r' !! i) = (role_dev role' r ≫= fun i => DEVICES r !! i).
Proof.
  intros Hs Hne. rewrite (same_others_role _ _ _ _ Hs). destruct (role_dev role' r) as [i|]; [|done].
  by apply Hs.
Qed.

(** Everything but the sectors. *)
Definition same_rest (st st' : SwapState D) : Prop :=
  sw_mem st' = sw_mem st /\ SWAP_BITMAP st' = SWAP_BITMAP st /\ SWAP_SLOT_COUNT st' = SWAP_SLOT_COUNT st /\
  same_others Swap (sw_reg st) (sw_reg st').

#[export] Instance same_rest_trans : Transitive same_rest.
Proof. intros a b c (?&?&?&?) (?&?&?&?). split_and!; [congruence..|]. by etrans. Qed.

Lemma same_rest_upd st idx n d :
  dev_at idx n st ->
  same_rest st (mkSwap (mkRegistry (<[idx := d]> (DEVICES (sw_reg st))) (ROLES (sw_reg st)))
    (sw_mem st) (SWAP_BITMAP st) (SWAP_SLOT_COUNT st)).
Proof.
  intros [Hr _]. split_and!; try done. split_and!; simpl; [done|by rewrite length_insert|].
  intros j Hj. rewrite list_lookup_insert_ne; [done|]. congruence.
Qed.

Lemma dev_at_update idx n r st (d d' : BlockDevice D) :
  dev_at idx n st -> DEVICES (sw_reg st) !! idx = Some d -> dev_size d' = n ->
  r = mkRegistry (<[idx := d']> (DEVICES (sw_reg st))) (ROLES (sw_reg st)) ->
  let st' := mkSwap r (sw_mem st) (SWAP_BITMAP st) (SWAP_SLOT_COUNT st) in
  dev_at idx n st' /\ sw_dev st' = Some d'.
Proof.
  intros [Hr _] Hd Hs ->. simpl. pose proof (lookup_lt_Some _ _ _ Hd) as Hlt.
  assert (role_dev Swap (mkRegistry (<[idx := d']> (DEVICES (sw_reg st))) (ROLES (sw_reg st))) = Some idx) as Hr'.
  { revert Hr. unfold role_dev. simpl. by rewrite length_insert. }
  split.
  - split; [done|]. exists d'. simpl. by rewrite list_lookup_insert_eq.
  - unfold sw_dev. simpl. rewrite Hr'. simpl. by rewrite list_lookup_insert_eq.
Qed.

Lemma wp_swap_read idx n st s (Q : list Z -> SwapState D -> Prop) :
  dev_at idx n st -> s < n ->
  (forall st', dev_at idx n st' -> same_rest st st' -> (forall t, sector st' t = sector st t) -> Q (sector st s) st') ->
  wp (on_reg (on_dev idx (Block.read s))) st Q.
Proof.
  intros Hat Hs HQ. pose proof Hat as [Hr (d & Hd & Hn)].
  assert (sw_dev st = Some d) as Hsw by (unfold sw_dev; by rewrite Hr).
  unfold wp, on_reg, zoom, on_dev. rewrite Hd. unfold Block.read, bind, gets, id, assert.
  rewrite (proj2 (Z.ltb_lt _ _)) by lia. simpl.
  destruct (dev_at_update idx n _ st d (mkDevice (dev_name d) (dev_type d) (dev_size d) (dev_ops d) (dev_read_cnt d + 1) (dev_write_cnt d)) Hat Hd Hn eq_refl) as [Hat' Hsw'].
  assert (ops_read (dev_ops d) s = sector st s) as -> by (unfold sector; by rewrite Hsw).
  apply HQ; [done|by eapply same_rest_upd|]. intros t. unfold sector. by rewrite Hsw, Hsw'.
Qed.

Lemma wp_swap_write `{!BlockLaws D} idx n st s b (Q : unit -> SwapState D -> Prop) :
  dev_at idx n st -> s < n -> List.length b = Z.to_nat BLOCK_SECTOR_SIZE -> Forall in_u8 b ->
  (forall st', dev_at idx n st' -> same_rest st st' ->
     (forall t, sector st' t = if decide (t = s) then b else sector st t) -> Q tt st') ->
  wp (on_reg (on_dev idx (Block.write s b))) st Q.
Proof.
  intros Hat Hs Hl H8 HQ. pose proof Hat as [Hr (d & Hd & Hn)].
  assert (sw_dev st = Some d) as Hsw by (unfold sw_dev; by rewrite Hr).
  unfold wp, on_reg, zoom, on_dev. rewrite Hd. unfold Block.write, bind, gets, id, assert.
  rewrite (proj2 (Z.ltb_lt _ _)) by lia. simpl.
  destruct (dev_at_update idx n _ st d (mkDevice (dev_name d) (dev_type d) (dev_size d) (ops_write (dev_ops d) s b) (dev_read_cnt d) (dev_write_cnt d + 1)) Hat Hd Hn eq_refl) as [Hat' Hsw'].
  apply HQ; [done|by eapply same_rest_upd|]. intros t. unfold sector. rewrite Hsw, Hsw'. simpl.
  case_decide; [subst; by apply ops_read_write|by apply ops_read_write_ne].
Qed.

Lemma load_bytes_ok m a n : (forall k, 0 <= k < n -> in_u8 (m (a + k))) -> 0 <= n ->
  List.length (load_bytes m a n) = Z.to_nat n /\ Forall in_u8 (load_bytes m a n).
Proof.
  intros Hm Hn. unfold load_bytes, range. split.
  - rewrite length_fmap, length_seqZ. lia.
  - apply Forall_fmap, Forall_forall. intros k Hk%elem_of_seqZ. apply Hm. lia.
Qed.

Lemma load_bytes_at m a n k : 0 <= k < n -> byte_at (load_bytes m a n) k = m (a + k).
Proof.
  intros Hk. unfold byte_at, load_bytes, range. rewrite list_lookup_fmap, lookup_seqZ_lt by lia.
  simpl. f_equal. lia.
Qed.

Context `{!BlockLaws D}.

(** Slots do not share sectors. *)
Lemma slot_sector slot slot' k i :
  slot' <> slot -> 0 <= k < PGSIZE -> 0 <= i < 8 ->
  slot' * SECTORS_PER_PAGE + k / BLOCK_SECTOR_SIZE <> slot * SECTORS_PER_PAGE + i.
Proof.
  unfold SECTORS_PER_PAGE, PGSIZE, BLOCK_SECTOR_SIZE. intros Hs Hk Hi.
  change (4096 / 512) with 8. Z.div_mod_to_equations. lia.
Qed.

Lemma sw_dev_at st d : sw_dev st = Some d -> exists idx, dev_at idx (dev_size d) st.
Proof. unfold sw_dev. intros (idx & ? & ?)%bind_Some. exists idx. split; [done|]. by exists d. Qed.

Lemma dev_at_dev idx n st : dev_at idx n st -> exists d, sw_dev st = Some d /\ dev_size d = n.
Proof. intros [Hr (d & Hd & Hn)]. exists d. unfold sw_dev. by rewrite Hr. Qed.

(** What swapping a page out does. *)
Lemma wp_swap_out bm st kpage (Q : option Z -> SwapState D -> Prop) :
  swap_ok bm st -> page_u8 (sw_mem st) kpage ->
  (Forall (fun u => u = true) bm -> Q None st) ->
  (forall i st', find_index negb bm = Some i -> swap_ok (<[i := true]> bm) st' -> sw_mem st' = sw_mem st ->
     SWAP_SLOT_COUNT st' = SWAP_SLOT_COUNT st -> same_others Swap (sw_reg st) (sw_reg st') ->
     (forall k, 0 <= k < PGSIZE -> slot_byte st' (Z.of_nat i) k = sw_mem st (kpage + k)) ->
     (forall s k, s <> Z.of_nat i -> 0 <= k < PGSIZE -> slot_byte st' s k = slot_byte st s k) ->
     Q (Some (Z.of_nat i)) st') ->
  wp (swap_out kpage) st Q.
Proof.
  intros [Hb (d & Hd & Hsz & Hlim)] Hm Hnone HQ. destruct (sw_dev_at _ _ Hd) as [idx Hat].
  unfold swap_out. apply wp_bind. unfold alloc_slot. apply wp_bind, wp_gets. rewrite Hb.
  destruct (find_index negb bm) as [i|] eqn:E.
  2:{ apply wp_ret, wp_ret, Hnone. rewrite find_index_None in E. apply Forall_lookup_2. intros j x Hj.
      specialize (E j x Hj). by destruct x. }
  apply find_index_Some in E as Ei. destruct Ei as [(x & Hx & _) _]. pose proof (lookup_lt_Some _ _ _ Hx) as Hlt.
  change SECTORS_PER_PAGE with 8 in *.
  apply wp_bind, wp_modify, wp_ret. set (st1 := with_bitmap _ st).
  apply wp_bind, wp_zoom, wp_gets. replace (role_dev Swap (sw_reg st1)) with (Some idx) by (by destruct Hat).
  apply wp_bind, wp_u32_mul; [lia|]. apply wp_bind.
  apply (wp_for_range (fun j st' => dev_at idx (dev_size d) st' /\ same_rest st1 st' /\
    forall s, sector st' s = if decide (Z.of_nat i * 8 <= s < Z.of_nat i * 8 + j)
      then load_bytes (sw_mem st) (kpage + (s - Z.of_nat i * 8) * 512) 512 else sector st s)); [done|..].
  - split_and!; [done|done|]. intros s. by rewrite decide_False by lia.
  - intros j st' Hj (Hat' & Hsr & Hs). apply wp_bind, wp_u32_add; [lia|]. apply wp_bind, wp_gets.
    pose proof Hsr as (Em & _). change (sw_mem st1) with (sw_mem st) in Em. rewrite Em.
    destruct (load_bytes_ok (sw_mem st) (kpage + j * BLOCK_SECTOR_SIZE) BLOCK_SECTOR_SIZE) as [??]; [|done|].
    { intros k Hk. replace (kpage + j * BLOCK_SECTOR_SIZE + k) with (kpage + (j * BLOCK_SECTOR_SIZE + k)) by lia.
      apply Hm. unfold BLOCK_SECTOR_SIZE, PGSIZE in *. lia. }
    eapply wp_swap_write; [exact Hat'|lia|done|done|]. intros st2 Hat2 Hsr2 Hs2. split_and!; [done| |].
    + by etrans.
    + intros s. rewrite Hs2, Hs. destruct (decide (s = Z.of_nat i * 8 + j)) as [->|].
      * rewrite decide_True by lia. f_equal. unfold BLOCK_SECTOR_SIZE. lia.
      * repeat case_decide; done || lia.
  - intros st' (Hat' & (Em & Eb & Ec & Er) & Hs). apply wp_ret, HQ; [done| |done|done|done| |].
    + destruct (dev_at_dev _ _ _ Hat') as (d' & Hd' & Hn'). split; [by rewrite Eb|exists d'].
      rewrite length_insert, Hn'. done.
    + intros k Hk. unfold slot_byte. rewrite Hs. change SECTORS_PER_PAGE with 8. unfold PGSIZE, BLOCK_SECTOR_SIZE in *.
      rewrite decide_True by (Z.div_mod_to_equations; lia). rewrite load_bytes_at by (apply Z.mod_pos_bound; lia).
      f_equal. Z.div_mod_to_equations. lia.
    + intros s k Hne Hk. unfold slot_byte. rewrite Hs. pose proof (slot_sector (Z.of_nat i) s k) as Hss.
      change SECTORS_PER_PAGE with 8 in *. rewrite decide_False; [done|]. intros Hin.
      apply (Hss (s * 8 + k / BLOCK_SECTOR_SIZE - Z.of_nat i * 8)); try done; lia.
Qed.

Lemma store_bytes_at a l m x :
  store_bytes a l m x = if decide (a <= x < a + Z.of_nat (List.length l)) then byte_at l (x - a) else m x.
Proof. done. Qed.

Lemma sector_ok st s : is_Some (sw_dev st) -> List.length (sector st s) = 512%nat /\ Forall in_u8 (sector st s).
Proof. intros [d Hd]. unfold sector. rewrite Hd. simpl. split; [apply ops_read_length|apply ops_read_bytes]. Qed.

Lemma byte_at_u8 l k : Forall in_u8 l -> in_u8 (byte_at l k).
Proof.
  intros H. unfold byte_at. destruct (l !! Z.to_nat k) eqn:E; [|unfold in_u8; simpl; lia].
  simpl. exact (Forall_lookup_1 _ _ _ _ H E).
Qed.

Lemma slot_byte_u8 st slot k : is_Some (sw_dev st) -> in_u8 (slot_byte st slot k).
Proof. intros H. by apply byte_at_u8, sector_ok. Qed.

(** What swapping a page in does. *)
Lemma wp_swap_in bm st slot kpage (Q : unit -> SwapState D -> Prop) :
  swap_ok bm st -> 0 <= slot < Z.of_nat (List.length bm) ->
  (forall st', swap_ok (<[Z.to_nat slot := false]> bm) st' ->
     SWAP_SLOT_COUNT st' = SWAP_SLOT_COUNT st -> same_others Swap (sw_reg st) (sw_reg st') ->
     (forall x, sw_mem st' x = if decide (kpage <= x < kpage + PGSIZE) then slot_byte st slot (x - kpage) else sw_mem st x) ->
     (forall s k, slot_byte st' s k = slot_byte st s k) -> Q tt st') ->
  wp (swap_in slot kpage) st Q.
Proof.
  intros [Hb (d & Hd & Hsz & Hlim)] Hslot HQ. destruct (sw_dev_at _ _ Hd) as [idx Hat].
  unfold swap_in. change SECTORS_PER_PAGE with 8 in *.
  apply wp_bind, wp_zoom, wp_gets. replace (role_dev Swap (sw_reg st)) with (Some idx) by (by destruct Hat).
  apply wp_bind, wp_u32_mul; [lia|]. apply wp_bind.
  apply (wp_for_range (fun j st' => dev_at idx (dev_size d) st' /\ SWAP_BITMAP st' = Some bm /\
    (forall s, sector st' s = sector st s) /\ SWAP_SLOT_COUNT st' = SWAP_SLOT_COUNT st /\
    same_others Swap (sw_reg st) (sw_reg st') /\
    forall x, sw_mem st' x = if decide (kpage <= x < kpage + j * 512) then slot_byte st slot (x - kpage) else sw_mem st x)); [done|..].
  - split_and!; try done. intros x. by rewrite decide_False by lia.
  - intros j st' Hj (Hat' & Hb' & Hs & Hc' & Ho' & Hx). apply wp_bind, wp_u32_add; [lia|].
    apply wp_bind. eapply wp_swap_read; [exact Hat'|lia|]. intros st2 Hat2 (Em2 & Eb2 & Ec2 & Ho2) Hs2. apply wp_modify.
    destruct (dev_at_dev _ _ _ Hat') as (d' & Hd' & _).
    destruct (sector_ok st' (slot * 8 + j) ltac:(by exists d')) as [Hl H8].
    split_and!; simpl; [|congruence|intros s; unfold sector; change (sw_dev (mkSwap _ _ _ _)) with (sw_dev st2); fold (sector st2 s); by rewrite Hs2|congruence|by etrans|].
    + destruct Hat2. split; done.
    + intros x. rewrite store_bytes_at, Hl, Em2, Hx. unfold BLOCK_SECTOR_SIZE.
      destruct (decide (kpage + j * 512 <= x < kpage + j * 512 + Z.of_nat 512)) as [Hin|Hout].
      * rewrite (decide_True (P := kpage <= x < kpage + (j + 1) * 512)) by lia.
        unfold slot_byte. change SECTORS_PER_PAGE with 8. unfold BLOCK_SECTOR_SIZE. rewrite Hs.
        replace ((x - kpage) / 512) with j by (Z.div_mod_to_equations; lia).
        f_equal. Z.div_mod_to_equations; lia.
      * repeat case_decide; done || lia.
  - intros st' (Hat' & Hb' & Hs & Hc' & Ho' & Hx). unfold free_slot. apply wp_bind, wp_gets. rewrite Hb'.
    rewrite (proj2 (Z.ltb_lt _ _)) by lia. apply wp_modify, HQ.
    + destruct (dev_at_dev _ _ _ Hat') as (d' & Hd' & Hn'). split; [done|exists d'].
      rewrite length_insert, Hn'. done.
    + done.
    + done.
    + intros x. apply Hx.
    + intros s k. unfold slot_byte. change (sector (with_bitmap _ st')) with (sector st'). by rewrite Hs.
Qed.

(** A page survives being swapped out and in.  On a well-formed swap area, page [k1] is
    written to a slot that was free, while a second page [k2] goes to another slot; reading the
    first slot back into any frame [k3] restores exactly the bytes of [k1], touches no byte
    outside the frame, leaves the second page's slot intact, and makes the first slot free again.
    This fails only when fewer than two slots are free. *)
Theorem swap_roundtrip bm st k1 k2 k3 :
  swap_ok bm st -> page_u8 (sw_mem st) k1 -> page_u8 (sw_mem st) k2 ->
  wp (let! s1 := swap_out k1 in
      let! s2 := swap_out k2 in
      match s1, s2 with
      | Some s1, Some s2 => swap_in s1 k3 ;; ret (Some (s1, s2))
      | _, _ => ret None
      end) st
    (fun r st' => match r with
     | None => forall i j, bm !! i = Some false -> bm !! j = Some false -> i = j
     | Some (s1, s2) =>
         bm !! Z.to_nat s1 = Some false /\ bm !! Z.to_nat s2 = Some false /\ s1 <> s2 /\
         (forall k, 0 <= k < PGSIZE -> sw_mem st' (k3 + k) = sw_mem st (k1 + k)) /\
         (forall x, ~ (k3 <= x < k3 + PGSIZE) -> sw_mem st' x = sw_mem st x) /\
         (forall k, 0 <= k < PGSIZE -> slot_byte st' s2 k = sw_mem st (k2 + k)) /\
         SWAP_BITMAP st' = Some (<[Z.to_nat s2 := true]> bm)
     end).
Proof.
  intros Hok H8 H8'. apply wp_bind, (wp_swap_out bm); [done|done|..].
  { intros Hall. apply wp_bind, (wp_swap_out bm); [done|done|intros _|intros i st' Hi].
    - apply wp_ret. intros i j Hi. discriminate (Forall_lookup_1 _ _ _ _ Hall Hi).
    - apply find_index_Some in Hi as [(x & Hx & Hn) _]. destruct x; [done|].
      discriminate (Forall_lookup_1 _ _ _ _ Hall Hx). }
  intros i st1 Hi Hok1 Hm1 _ _ Hsl1 _. apply find_index_Some in Hi as [(x & Hx & Hnx) Hfirst]. destruct x; [done|].
  pose proof (lookup_lt_Some _ _ _ Hx) as Hilt.
  apply wp_bind, (wp_swap_out (<[i := true]> bm)); [done|by rewrite Hm1|..].
  { intros Hall. apply wp_ret.
    assert (forall a, bm !! a = Some false -> a = i) as Hu.
    { intros a Ha. destruct (decide (a = i)); [done|]. assert (<[i := true]> bm !! a = Some false) as Ha'
        by (by rewrite list_lookup_insert_ne by done). discriminate (Forall_lookup_1 _ _ _ _ Hall Ha'). }
    intros a b Ha Hb. by rewrite (Hu a Ha), (Hu b Hb). }
  intros j st2 Hj Hok2 Hm2 _ _ Hsl2 Hoth. apply find_index_Some in Hj as [(y & Hy & Hny) _]. destruct y; [done|].
  assert (j <> i) as Hji. { intros ->. by rewrite list_lookup_insert_eq in Hy. }
  rewrite list_lookup_insert_ne in Hy by done. pose proof (lookup_lt_Some _ _ _ Hy) as Hjlt.
  apply wp_bind, (wp_swap_in (<[j := true]> (<[i := true]> bm))); [done|rewrite !length_insert; lia|].
  intros st3 Hok3 _ _ Hm3 Hsl3. apply wp_ret. rewrite !Nat2Z.id in *. split_and!; [done|done|lia| | | |].
  - intros k Hk. rewrite Hm3, decide_True by lia. replace (k3 + k - k3) with k by lia.
    rewrite Hoth by lia. by rewrite Hsl1.
  - intros x Hx'. rewrite Hm3, decide_False by done. by rewrite Hm2, Hm1.
  - intros k Hk. rewrite Hsl3, Hsl2 by done. by rewrite Hm1.
  - rewrite (so_bitmap _ _ Hok3). f_equal. rewrite list_insert_insert_ne by done. f_equal.
    rewrite list_insert_insert_eq. by apply list_insert_id.
Qed.
End swap.

(** A swap device of four slots. *)
Definition demo_swap : SwapState RamDisk :=
  mkSwap (mkRegistry [mkDevice [104; 100; 98; 0] Swap 32 (∅ : gmap Z (list Z)) 0 0] [None; None; Some 0%nat; None])
    (fun x => x mod 256) (Some [false; true; false; false]) 4.

Lemma swap_roundtrip_witness :
  wp (let! s1 := swap_out 0xC0200000 in
      let! s2 := swap_out 0xC0201000 in
      match s1, s2 with
      | Some s1, Some s2 => swap_in s1 0xC0300000 ;; ret (Some (s1, s2))
      | _, _ => ret None
      end) demo_swap
    (fun r st' => exists s1 s2, r = Some (s1, s2) /\ s1 <> s2 /\
       forall k, 0 <= k < PGSIZE -> sw_mem st' (0xC0300000 + k) = (0xC0200000 + k) mod 256).
Proof.
  assert (swap_ok [false; true; false; false] demo_swap) as Hok.
  { split; [reflexivity|eexists; split_and!; [reflexivity|done|done]]. }
  assert (forall a, page_u8 (sw_mem demo_swap) a) as H8.
  { intros a k _. unfold in_u8. simpl. apply Z.mod_pos_bound. lia. }
  eapply wp_mono;
    [exact (swap_roundtrip [false; true; false; false] demo_swap 0xC0200000 0xC0201000 0xC0300000 Hok (H8 _) (H8 _))|].
  intros [[s1 s2]|] st' Hr.
  - destruct Hr as (_ & _ & Hne & Hk & _). exists s1, s2. split_and!; [done|done|exact Hk].
  - by specialize (Hr 0%nat 2%nat eq_refl eq_refl).
Defined.
