(* ===== verification/Vm.v ===== *)
(** Demand paging (src/vm/page.rs, src/vm/frame.rs, src/userprog/exception.rs and the table of
    supplementary page tables of src/userprog/process.rs): where the data of every user page is,
    the frames that hold the pages in memory, clock eviction, and the page fault handler. *)
From S2P Require Import Prelude Btree Block Bio FreeMap Inode Memory Palloc Thread Pagedir Swap.

(** ** The supplementary page table (src/vm/page.rs) *)
Inductive PageLocation : Set :=
| InMemory
| InSwap (slot : Z)
| OnDisk
| Zero.

Inductive PageType : Set := Binary | File | Anonymous.

Record SptEntry := mkSpt {
  vaddr : Z;
  location : PageLocation;
  page_type : PageType;
  e_writable : bool;
  inode_sector : Z;
  file_offset : Z;
  read_bytes : Z;
  page_ofs : Z;
}.

#[export] Instance PageLocation_eq_dec : EqDecision PageLocation.
Proof. solve_decision. Defined.
#[export] Instance PageType_eq_dec : EqDecision PageType.
Proof. solve_decision. Defined.
#[export] Instance SptEntry_eq_dec : EqDecision SptEntry.
Proof. solve_decision. Defined.

Definition set_location (l : PageLocation) (e : SptEntry) : SptEntry :=
  mkSpt (vaddr e) l (page_type e) (e_writable e) (inode_sector e) (file_offset e) (read_bytes e) (page_ofs e).

(** [struct SupplementaryPageTable]: its [entries], by page. *)
Abbreviation SPT := (gmap Z SptEntry).

(** [vaddr & !(PGSIZE - 1)] *)
Definition page_of (va : Z) : Z := Z.land va (not_w 32 (PGSIZE - 1)).

Definition spt_new : SPT := ∅.
Definition spt_insert (entry : SptEntry) (t : SPT) : SPT := <[vaddr entry := entry]> t.
Definition spt_find (va : Z) (t : SPT) : option SptEntry := t !! page_of va.
(** A write through the reference [find_mut] returns. *)
Definition spt_update (va : Z) (f : SptEntry -> SptEntry) (t : SPT) : SPT := alter f (page_of va) t.
Definition spt_remove (va : Z) (t : SPT) : option SptEntry * SPT := (t !! page_of va, delete (page_of va) t).

(** ** Frames (src/vm/frame.rs) *)
Record FrameEntry := mkFrame {
  kpage : Z;
  upage : Z;
  owner_tid : Z;
  pinned : bool;
}.

#[export] Instance FrameEntry_eq_dec : EqDecision FrameEntry.
Proof. solve_decision. Defined.

Definition set_pinned (b : bool) (e : FrameEntry) : FrameEntry := mkFrame (kpage e) (upage e) (owner_tid e) b.
Definition set_owner (t : Z) (e : FrameEntry) : FrameEntry := mkFrame (kpage e) (upage e) t (pinned e).

(** Memory and page tables, the file system (its registry also holds the swap device), the
    threads, the statics of swap.rs and frame.rs, and [SPT_TABLE] of process.rs, which maps a
    thread to the table its pointer refers to; a missing entry is the null pointer. *)
Record VM (D : Type) := mkVM {
  vm_pg : Paging;
  vm_fs : FS D;
  vm_sched : Sched;
  vm_bitmap : option (list bool);
  vm_slots : Z;
  FRAME_TABLE : option (list FrameEntry);
  KPAGE_INDEX : option (gmap Z Z);
  CLOCK_HAND : Z;
  SWAP_MAP : option (gmap (Z * Z) Z);
  SPT_TABLE : gmap Z SPT;
}.
Arguments mkVM {D}.
Arguments vm_pg {D}.
Arguments vm_fs {D}.
Arguments vm_sched {D}.
Arguments vm_bitmap {D}.
Arguments vm_slots {D}.
Arguments FRAME_TABLE {D}.
Arguments KPAGE_INDEX {D}.
Arguments CLOCK_HAND {D}.
Arguments SWAP_MAP {D}.
Arguments SPT_TABLE {D}.

Section vm.
Context {D : Type} `{!BlockOps D}.

Definition with_pg (x : Paging) (v : VM D) : VM D :=
  mkVM x (vm_fs v) (vm_sched v) (vm_bitmap v) (vm_slots v) (FRAME_TABLE v) (KPAGE_INDEX v) (CLOCK_HAND v) (SWAP_MAP v) (SPT_TABLE v).
Definition with_fs (x : FS D) (v : VM D) : VM D :=
  mkVM (vm_pg v) x (vm_sched v) (vm_bitmap v) (vm_slots v) (FRAME_TABLE v) (KPAGE_INDEX v) (CLOCK_HAND v) (SWAP_MAP v) (SPT_TABLE v).
Definition with_sched (x : Sched) (v : VM D) : VM D :=
  mkVM (vm_pg v) (vm_fs v) x (vm_bitmap v) (vm_slots v) (FRAME_TABLE v) (KPAGE_INDEX v) (CLOCK_HAND v) (SWAP_MAP v) (SPT_TABLE v).
Definition with_frames (x : list FrameEntry) (v : VM D) : VM D :=
  mkVM (vm_pg v) (vm_fs v) (vm_sched v) (vm_bitmap v) (vm_slots v) (Some x) (KPAGE_INDEX v) (CLOCK_HAND v) (SWAP_MAP v) (SPT_TABLE v).
Definition with_index (x : gmap Z Z) (v : VM D) : VM D :=
  mkVM (vm_pg v) (vm_fs v) (vm_sched v) (vm_bitmap v) (vm_slots v) (FRAME_TABLE v) (Some x) (CLOCK_HAND v) (SWAP_MAP v) (SPT_TABLE v).
Definition with_clock (x : Z) (v : VM D) : VM D :=
  mkVM (vm_pg v) (vm_fs v) (vm_sched v) (vm_bitmap v) (vm_slots v) (FRAME_TABLE v) (KPAGE_INDEX v) x (SWAP_MAP v) (SPT_TABLE v).
Definition with_swap_map (x : gmap (Z * Z) Z) (v : VM D) : VM D :=
  mkVM (vm_pg v) (vm_fs v) (vm_sched v) (vm_bitmap v) (vm_slots v) (FRAME_TABLE v) (KPAGE_INDEX v) (CLOCK_HAND v) (Some x) (SPT_TABLE v).
Definition with_spts (x : gmap Z SPT) (v : VM D) : VM D :=
  mkVM (vm_pg v) (vm_fs v) (vm_sched v) (vm_bitmap v) (vm_slots v) (FRAME_TABLE v) (KPAGE_INDEX v) (CLOCK_HAND v) (SWAP_MAP v) x.

Definition pg {A} (m : M Paging A) : M (VM D) A := zoom vm_pg with_pg m.
Definition fs {A} (m : M (FS D) A) : M (VM D) A := zoom vm_fs with_fs m.
Definition threads_do {A} (m : M Sched A) : M (VM D) A := zoom vm_sched with_sched m.

(** Swapping uses the registry of devices, the memory and the slot bitmap. *)
Definition swap_view (v : VM D) : SwapState D :=
  mkSwap (bio_reg (fs_bio (vm_fs v))) (mem (vm_pg v)) (vm_bitmap v) (vm_slots v).
Definition with_swap (w : SwapState D) (v : VM D) : VM D :=
  let f := vm_fs v in
  mkVM (with_pa (with_mem (sw_mem w) (pg_pa (vm_pg v))) (vm_pg v))
    (mkFS (mkBio (sw_reg w) (bio_cache (fs_bio f))) (fs_fm f) (fs_inodes f))
    (vm_sched v) (SWAP_BITMAP w) (SWAP_SLOT_COUNT w)
    (FRAME_TABLE v) (KPAGE_INDEX v) (CLOCK_HAND v) (SWAP_MAP v) (SPT_TABLE v).
Definition swap {A} (m : M (SwapState D) A) : M (VM D) A := zoom swap_view with_swap m.

(** A write to memory through a kernel pointer. *)
Definition poke (f : Mem -> Mem) : M (VM D) unit :=
  pg (modify (fun s => with_pa (with_mem (f (mem s)) (pg_pa s)) s)).

(** [write_bytes(kpage, 0, PGSIZE)] *)
Definition zero_page (kp : Z) : M (VM D) unit := poke (store_bytes kp (zeros PGSIZE)).

(** *** process.rs: the table of supplementary page tables *)
Definition set_spt (tid : Z) (t : SPT) : M (VM D) unit := modify (fun v => with_spts (<[tid := t]> (SPT_TABLE v)) v).
Definition get_spt (tid : Z) : M (VM D) (option SPT) := gets (fun v => SPT_TABLE v !! tid).
Definition remove_spt (tid : Z) : M (VM D) (option SPT) :=
  let! t := get_spt tid in
  modify (fun v => with_spts (delete tid (SPT_TABLE v)) v) ;;
  ret t.
(** A write to the table of [tid] through its pointer. *)
Definition in_spt (tid : Z) (f : SPT -> SPT) : M (VM D) unit :=
  modify (fun v => with_spts (alter f tid (SPT_TABLE v)) v).

(** [SupplementaryPageTable::destroy]: returns the emptied table. *)
Definition destroy (t : SPT) : M (VM D) SPT :=
  for_each (btree_iter t) (fun kv =>
    match location (snd kv) with
    | InSwap slot => swap (free_slot_public slot)
    | _ => ret tt
    end) ;;
  ret spt_new.

(** *** frame.rs *)
Definition init : M (VM D) unit :=
  modify (fun v => with_swap_map ∅ (with_index ∅ (with_frames [] v))).

Definition register_frame (kp up tid : Z) : M (VM D) unit :=
  let entry := mkFrame kp up tid false in
  let! ft := gets FRAME_TABLE in
  match ft with
  | None => ret tt
  | Some ft =>
      let idx := Z.of_nat (List.length ft) in
      modify (with_frames (ft ++ [entry])) ;;
      let! ix := gets KPAGE_INDEX in
      match ix with
      | None => ret tt
      | Some ix => modify (with_index (<[kp := idx]> ix))
      end
  end.

(** [for (i, entry) in ft.iter().enumerate().skip(hand) { idx_map.insert(...) }] *)
Fixpoint reindex (i : Z) (ft : list FrameEntry) (ix : gmap Z Z) : gmap Z Z :=
  match ft with
  | [] => ix
  | e :: ft' => reindex (i + 1) ft' (<[kpage e := i]> ix)
  end.

(** The victim of [evict_frame]: its page is unmapped and its entry leaves the tables. *)
Definition drop_victim (ft : list FrameEntry) (hand pd kp up : Z) : M (VM D) unit :=
  pg (clear_page pd up) ;;
  let! ix := gets KPAGE_INDEX in
  (match ix with None => ret tt | Some ix => modify (with_index (delete kp ix)) end) ;;
  let ft := delete (Z.to_nat hand) ft in
  modify (with_frames ft) ;;
  let! ix := gets KPAGE_INDEX in
  (match ix with
   | None => ret tt
   | Some ix => modify (with_index (reindex hand (drop (Z.to_nat hand) ft) ix))
   end) ;;
  let! clock := gets CLOCK_HAND in
  if 0 <? clock then modify (with_clock (clock - 1)) else ret tt.

(** Where the page of a clean victim is reloaded from. *)
Definition reload_location (e : SptEntry) : PageLocation :=
  match page_type e with
  | Binary => if 0 <? read_bytes e then OnDisk else Zero
  | _ => Zero
  end.

(** One turn of the clock: [Some kpage] when the frame under the hand was evicted. *)
Definition evict_turn (ft : list FrameEntry) (len : Z) : M (VM D) (option Z) :=
  let! clock := gets CLOCK_HAND in
  let hand := clock mod len in
  modify (with_clock ((clock + 1) mod u32_lim)) ;;
  let! entry := index ft hand in
  if pinned entry then ret None
  else
    let! pd := threads_do (get_pagedir_by_tid (owner_tid entry)) in
    if pd =? 0 then ret None
    else
      let! acc := pg (is_accessed pd (upage entry)) in
      if acc then pg (set_accessed pd (upage entry) false) ;; ret None
      else
        let kp := kpage entry in
        let up := upage entry in
        let! dirty := pg (is_dirty pd up) in
        let! owner_spt := get_spt (owner_tid entry) in
        let spt_entry := owner_spt ≫= spt_find up in
        let need_swap :=
          match spt_entry with
          | Some e => if bool_decide (page_type e = Binary) && negb dirty && (0 <? read_bytes e) then false else dirty
          | None => dirty
          end in
        if need_swap then
          let! slot := swap (swap_out kp) in
          match slot with
          | None => ret None
          | Some slot =>
              match owner_spt with
              | Some _ => in_spt (owner_tid entry) (spt_update up (set_location (InSwap slot)))
              | None =>
                  let! m := gets SWAP_MAP in
                  match m with
                  | Some m => modify (with_swap_map (<[(owner_tid entry, up) := slot]> m))
                  | None => ret tt
                  end
              end ;;
              drop_victim ft hand pd kp up ;;
              ret (Some kp)
          end
        else
          in_spt (owner_tid entry) (spt_update up (fun e => set_location (reload_location e) e)) ;;
          drop_victim ft hand pd kp up ;;
          ret (Some kp).

Definition evict_frame : M (VM D) (option Z) :=
  let! ft := gets FRAME_TABLE in
  match ft with
  | None => ret None
  | Some ft =>
      let len := Z.of_nat (List.length ft) in
      if len =? 0 then ret None
      else
        let! bound := u32_mul 2 len in
        for_ret (range 0 bound) (fun _ => evict_turn ft len)
  end.

Definition alloc_frame (up tid : Z) : M (VM D) Z :=
  let! kp := pg (on_pa (Palloc.get_page (Z.lor USER ZERO))) in
  if negb (kp =? 0) then register_frame kp up tid ;; ret kp
  else
    let! victim := evict_frame in
    match victim with
    | Some kp => zero_page kp ;; register_frame kp up tid ;; ret kp
    | None => ret 0
    end.

Definition get_swap_slot (tid up : Z) : M (VM D) (option Z) :=
  gets (fun v => SWAP_MAP v ≫= fun m => m !! (tid, up)).
Definition remove_swap_entry (tid up : Z) : M (VM D) unit :=
  let! m := gets SWAP_MAP in
  match m with Some m => modify (with_swap_map (delete (tid, up) m)) | None => ret tt end.

(** [Vec::swap_remove] *)
Definition swap_remove (i : nat) (ft : list FrameEntry) : list FrameEntry :=
  match last ft with
  | None => ft
  | Some e => take (List.length ft - 1) (<[i := e]> ft)
  end.

Definition free_frame (kp : Z) : M (VM D) unit :=
  let! ft := gets FRAME_TABLE in
  let! ix := gets KPAGE_INDEX in
  (match ft, ix with
   | Some ft, Some ix =>
       match ix !! kp with
       | None => ret tt
       | Some idx =>
           let! _ := index ft idx in
           let ft := swap_remove (Z.to_nat idx) ft in
           modify (with_frames ft) ;;
           modify (with_index (delete kp ix)) ;;
           if idx <? Z.of_nat (List.length ft) then
             let! e := index ft idx in
             modify (with_index (<[kpage e := idx]> (delete kp ix)))
           else ret tt
       end
   | _, _ => ret tt
   end) ;;
  pg (on_pa (free_page kp)).

(** [ft.iter_mut().find(|e| e.owner_tid == tid && e.upage == upage)] *)
Definition maps_page (tid up : Z) (e : FrameEntry) : bool := (owner_tid e =? tid) && (upage e =? up).
Definition mark_upage (b : bool) (tid up : Z) : M (VM D) unit :=
  let! ft := gets FRAME_TABLE in
  match ft with
  | None => ret tt
  | Some ft =>
      match find_index (maps_page tid up) ft with
      | Some i => modify (with_frames (alter (set_pinned b) i ft))
      | None => ret tt
      end
  end.
Definition pin_upage (tid up : Z) : M (VM D) unit := mark_upage true tid up.
Definition unpin_upage (tid up : Z) : M (VM D) unit := mark_upage false tid up.

Definition fix_owner_tid (placeholder real_tid : Z) : M (VM D) unit :=
  let! ft := gets FRAME_TABLE in
  match ft with
  | None => ret tt
  | Some ft =>
      modify (with_frames ((fun e => if owner_tid e =? placeholder then set_owner real_tid e else e) <$> ft))
  end.

(** ** Loading a page (src/vm/page.rs) *)

(** The entry a reference of [find_mut] points to. *)
Definition spt_entry (tid page : Z) : M (VM D) SptEntry :=
  let! t := get_spt tid in
  match t ≫= spt_find page with
  | Some e => ret e
  | None => ub "dangling reference to a page table entry"
  end.

(** The common end of the branches of [load_page]. *)
Definition install_frame (pd page kp tid : Z) : M (VM D) bool :=
  let! entry := spt_entry tid page in
  let! ok := pg (set_page pd page kp (e_writable entry)) in
  if ok then in_spt tid (spt_update page (set_location InMemory)) ;; ret true
  else free_frame kp ;; ret false.

(** [entry] is the entry of [page] in the table of [tid]. *)
Definition load_page (pd page tid : Z) : M (VM D) bool :=
  let! entry := spt_entry tid page in
  match location entry with
  | OnDisk =>
      let! kp := alloc_frame page tid in
      if kp =? 0 then ret false
      else
        zero_page kp ;;
        let! entry := spt_entry tid page in
        (if 0 <? read_bytes entry then
           let! dst := u32_add kp (page_ofs entry) in
           let! buf := gets (fun v => load_bytes (mem (vm_pg v)) dst (read_bytes entry)) in
           let! r := fs (read_at (inode_sector entry) buf (as_i32 (read_bytes entry)) (as_i32 (file_offset entry))) in
           poke (store_bytes dst (snd r))
         else ret tt) ;;
        install_frame pd page kp tid
  | InSwap slot =>
      let! kp := alloc_frame page tid in
      if kp =? 0 then ret false
      else
        swap (swap_in slot kp) ;;
        install_frame pd page kp tid
  | Zero =>
      let! kp := alloc_frame page tid in
      if kp =? 0 then ret false
      else install_frame pd page kp tid
  | InMemory => ret true
  end.

(** ** The page fault handler (src/userprog/exception.rs) *)

(** [Handled]: the instruction is restarted. [Kill]: the handler calls
    [process::exit_with_status(-1)] and [thread::exit()]. *)
Inductive fault_result : Set := Handled | Kill.

Definition stack_entry (page : Z) : SptEntry := mkSpt page InMemory Anonymous true 0 0 0 0.

(** The current thread's page directory and id. *)
Definition current_space : M (VM D) (Z * Z) :=
  threads_do (let! t := running_thread in let! th := deref t in ret (pagedir th, tid th)).

(** Demand paging via the supplementary page table; [None] is the fall through to the next part. *)
Definition fault_spt (fault_page : Z) (write : bool) : M (VM D) (option fault_result) :=
  let! r := current_space in
  let '(pd, tid) := r in
  let! spt := get_spt tid in
  match spt with
  | Some t =>
      if pd =? 0 then ret None
      else
        match spt_find fault_page t with
        | Some entry =>
            if write && negb (e_writable entry) then ret (Some Kill)
            else
              let! ok := load_page pd fault_page tid in
              ret (if ok then Some Handled else None)
        | None => ret None
        end
  | None => ret None
  end.

Definition USER_STACK_MAX : Z := 8 * 1024 * 1024.

Definition fault_stack (fault esp : Z) : M (VM D) (option fault_result) :=
  let stack_limit := PHYS_BASE - USER_STACK_MAX in
  if (stack_limit <=? fault) && (fault <? PHYS_BASE) && ((esp - 32) mod u32_lim <=? fault) then
    let page := Z.land fault (not_w 32 PGMASK) in
    let! r := current_space in
    let '(pd, tid) := r in
    if pd =? 0 then ret None
    else
      let! kp := alloc_frame page tid in
      if kp =? 0 then ret None
      else
        let! ok := pg (set_page pd page kp true) in
        if ok then in_spt tid (spt_insert (stack_entry page)) ;; ret (Some Handled)
        else free_frame kp ;; ret None
  else ret None.

Definition fault_swap (fault_page : Z) : M (VM D) (option fault_result) :=
  let! r := current_space in
  let '(pd, tid) := r in
  if pd =? 0 then ret None
  else
    let! slot := get_swap_slot tid fault_page in
    match slot with
    | None => ret None
    | Some slot =>
        let! kp := alloc_frame fault_page tid in
        if kp =? 0 then ret None
        else
          swap (swap_in slot kp) ;;
          let! ok := pg (set_page pd fault_page kp true) in
          if ok then remove_swap_entry tid fault_page ;; ret (Some Handled)
          else free_frame kp ;; ret None
    end.

Definition page_fault (cr2 error_code esp : Z) : M (VM D) fault_result :=
  let not_present := Z.land error_code 0x1 =? 0 in
  let write := negb (Z.land error_code 0x2 =? 0) in
  let user := negb (Z.land error_code 0x4 =? 0) in
  let fault_page := Z.land cr2 (not_w 32 PGMASK) in
  let attempt (m : M (VM D) (option fault_result)) (k : M (VM D) fault_result) : M (VM D) fault_result :=
    if user && not_present then
      let! r := m in match r with Some res => ret res | None => k end
    else k in
  threads_do intr_enable ;;
  attempt (fault_spt fault_page write)
    (attempt (fault_stack cr2 esp)
      (attempt (fault_swap fault_page)
        (if user then ret Kill else panic "Kernel page fault"))).

Definition SEL_UCSEG : Z := 0x1B.

(** [kill], the handler of the other exceptions. *)
Definition kill (cs : Z) : M (VM D) fault_result :=
  if cs =? SEL_UCSEG then ret Kill else panic "Kernel exception".

End vm.
