(* ===== verification/Elf.v ===== *)
(** Programs on disk (src/userprog/process.rs): the ELF headers the loader reads, the segments
    and the supplementary page table entries it makes of them, and the words of a command line. *)
From S2P Require Import Prelude Utf8 Memory Vm.

(** ** Headers *)
Record Elf32Ehdr := mkEhdr {
  e_ident : list Z;
  e_type : Z;
  e_machine : Z;
  e_version : Z;
  e_entry : Z;
  e_phoff : Z;
  e_shoff : Z;
  e_flags : Z;
  e_ehsize : Z;
  e_phentsize : Z;
  e_phnum : Z;
  e_shentsize : Z;
  e_shnum : Z;
  e_shstrndx : Z;
}.

Record Elf32Phdr := mkPhdr {
  p_type : Z;
  p_offset : Z;
  p_vaddr : Z;
  p_paddr : Z;
  p_filesz : Z;
  p_memsz : Z;
  p_flags : Z;
  p_align : Z;
}.

Definition PT_LOAD : Z := 1.
Definition PF_W : Z := 2.
Definition ELF_MAGIC : list Z := [0x7f; 69; 76; 70].

(** [size_of::<Elf32Ehdr>()] and [size_of::<Elf32Phdr>()]; both structs are [repr(C)]. *)
Definition ehdr_size : Z := 52.
Definition phdr_size : Z := 32.

Definition u16_at (d : list Z) (off : Z) : Z := byte_at d off + 256 * byte_at d (off + 1).
Definition u32_at (d : list Z) (off : Z) : Z := le_word (slice off 4 d).

(** [copy_nonoverlapping] of the first bytes of the file into the struct. *)
Definition read_ehdr (d : list Z) : Elf32Ehdr :=
  mkEhdr (take 16 d) (u16_at d 16) (u16_at d 18) (u32_at d 20) (u32_at d 24) (u32_at d 28) (u32_at d 32)
    (u32_at d 36) (u16_at d 40) (u16_at d 42) (u16_at d 44) (u16_at d 46) (u16_at d 48) (u16_at d 50).

Definition read_phdr (d : list Z) (off : Z) : Elf32Phdr :=
  mkPhdr (u32_at d off) (u32_at d (off + 4)) (u32_at d (off + 8)) (u32_at d (off + 12)) (u32_at d (off + 16))
    (u32_at d (off + 20)) (u32_at d (off + 24)) (u32_at d (off + 28)).

(** The checks on the header; [e_ident[4]] is the class and [e_ident[5]] the byte order. *)
Definition valid_ehdr (h : Elf32Ehdr) : bool :=
  bool_decide (slice 0 4 (e_ident h) = ELF_MAGIC) && (byte_at (e_ident h) 4 =? 1) && (byte_at (e_ident h) 5 =? 1)
  && (e_type h =? 2) && (e_machine h =? 3).

(** ** Segments *)
Record SegInfo := mkSeg {
  seg_vaddr : Z;
  seg_filesz : Z;
  seg_memsz : Z;
  seg_off : Z;
  seg_writable : bool;
}.

Definition seg_of (p : Elf32Phdr) : SegInfo :=
  mkSeg (p_vaddr p) (p_filesz p) (p_memsz p) (p_offset p) (negb (Z.land (p_flags p) PF_W =? 0)).

Section code.
Context {S : Type}.

(** The loop over the program headers: [false] is [success = false; break]. *)
Fixpoint read_segments (d : list Z) (h : Elf32Ehdr) (idxs : list Z) (segments : list SegInfo) : M S (bool * list SegInfo) :=
  match idxs with
  | [] => ret (true, segments)
  | i :: idxs' =>
      let! m := u32_mul i (e_phentsize h) in
      let! off := u32_add (e_phoff h) m in
      let! stop := u32_add off phdr_size in
      if Z.of_nat (List.length d) <? stop then ret (false, segments)
      else
        let phdr := read_phdr d off in
        if negb (p_type phdr =? PT_LOAD) then read_segments d h idxs' segments
        else if PHYS_BASE <=? p_vaddr phdr then ret (false, segments)
        else if p_memsz phdr <? p_filesz phdr then ret (false, segments)
        else read_segments d h idxs' (segments ++ [seg_of phdr])
  end.

(** [iter().map(...)] with a body that may panic. *)
Fixpoint map_m {A B} (f : A -> M S B) (l : list A) : M S (list B) :=
  match l with
  | [] => ret []
  | x :: l' => let! y := f x in let! ys := map_m f l' in ret (y :: ys)
  end.

(** [iter().any(...)] *)
Fixpoint any_m {A} (f : A -> M S bool) (l : list A) : M S bool :=
  match l with
  | [] => ret false
  | x :: l' => let! b := f x in if b then ret true else any_m f l'
  end.

(** [min().unwrap()] and [max().unwrap()] *)
Definition min_of (l : list Z) : M S Z :=
  match l with [] => panic "called `Option::unwrap()` on a `None` value" | x :: l' => ret (foldr Z.min x l') end.
Definition max_of (l : list Z) : M S Z :=
  match l with [] => panic "called `Option::unwrap()` on a `None` value" | x :: l' => ret (foldr Z.max x l') end.

(** The address range of the program: lowest address, its offset in the file, end of the memory
    and end of the file's bytes. *)
Record layout := mkLayout { load_base_vaddr : Z; load_base_foff : Z; load_end_vaddr : Z; load_end_file : Z }.

Definition read_layout (segments : list SegInfo) : M S layout :=
  let! lo := min_of (seg_vaddr <$> segments) in
  let! foff :=
    match List.find (fun s => seg_vaddr s =? lo) segments with
    | Some s => ret (seg_off s)
    | None => panic "called `Option::unwrap()` on a `None` value"
    end in
  let! ends := map_m (fun s => u32_add (seg_vaddr s) (seg_memsz s)) segments in
  let! stop := max_of ends in
  let! file_ends := map_m (fun s => u32_add (seg_vaddr s) (seg_filesz s)) segments in
  let! file_stop := max_of file_ends in
  ret (mkLayout lo foff stop file_stop).

(** The entry for the page at [page]. *)
Definition page_entry (segments : list SegInfo) (l : layout) (sector page : Z) : M S SptEntry :=
  let! page_end := u32_add page PGSIZE in
  let file_start := Z.max page (load_base_vaddr l) in
  let file_end := Z.min page_end (load_end_file l) in
  let! part :=
    if file_start <? file_end then
      let! rb := u32_sub file_end file_start in
      let! po := u32_sub file_start page in
      let! d := u32_sub file_start (load_base_vaddr l) in
      let! fo := u32_add (load_base_foff l) d in
      ret (rb, po, fo)
    else ret (0, 0, 0) in
  let '(read_bytes, page_ofs, file_offset) := part in
  let! writable :=
    any_m (fun s =>
      let! seg_end := u32_add (seg_vaddr s) (seg_memsz s) in
      ret ((seg_vaddr s <? page_end) && (page <? seg_end) && seg_writable s)) segments in
  ret (mkSpt page (if 0 <? read_bytes then OnDisk else Zero) Binary writable sector file_offset read_bytes page_ofs).
End code.

(** ** Command lines *)

(** The length of the white space character at the head of a string, 0 if there is none: the
    characters of Unicode's White_Space in UTF-8. *)
Definition ws_len (s : list Z) : nat :=
  match s with
  | [] => 0%nat
  | b0 :: s1 =>
      if in_range 9 13 b0 || (b0 =? 32) then 1%nat
      else match s1 with
      | [] => 0%nat
      | b1 :: s2 =>
          if (b0 =? 0xC2) && ((b1 =? 0x85) || (b1 =? 0xA0)) then 2%nat
          else match s2 with
          | [] => 0%nat
          | b2 :: _ =>
              if ((b0 =? 0xE1) && (b1 =? 0x9A) && (b2 =? 0x80))
                 || ((b0 =? 0xE2) && (b1 =? 0x80) && (in_range 0x80 0x8A b2 || (b2 =? 0xA8) || (b2 =? 0xA9) || (b2 =? 0xAF)))
                 || ((b0 =? 0xE2) && (b1 =? 0x81) && (b2 =? 0x9F))
                 || ((b0 =? 0xE3) && (b1 =? 0x80) && (b2 =? 0x80))
              then 3%nat else 0%nat
          end
      end
  end.

(** [skip] bytes of a white space character are still to be passed; [word] was read so far. *)
Fixpoint split_ws (skip : nat) (word s : list Z) : list (list Z) :=
  match s with
  | [] => if bool_decide (word = []) then [] else [word]
  | c :: s' =>
      match skip with
      | S k => split_ws k word s'
      | O =>
          match ws_len s with
          | O => split_ws 0 (word ++ [c]) s'
          | S k => if bool_decide (word = []) then split_ws k [] s' else word :: split_ws k [] s'
          end
      end
  end.

(** [str::split_whitespace] *)
Definition split_whitespace (s : list Z) : list (list Z) := split_ws 0 [] s.
