(* ===== verification/Spaces.v ===== *)
(** Address spaces side by side: the page directories of all processes, their separation, and
    the effect of page-table updates and of writes to user frames on all of them. *)
From S2P Require Import Prelude Memory Palloc Pagedir Swap.

(** Pages [a] that a directory consists of. *)
Definition uses (s : Paging) (pd a : Z) : Prop :=
  a = pd \/ exists i, 0 <= i < 1024 /\ pde s pd i <> 0 /\ a = table s pd i.

(** A directory whose pages come from the kernel pool and hold bytes. *)
Record space (s : Paging) (pd : Z) : Prop := {
  sp_ok : pd_ok s pd;
  sp_kernel : forall a, uses s pd a -> in_pool (KERNEL_POOL (pg_pa s)) a = true;
  sp_u8 : forall i, 0 <= i < 1024 -> pde s pd i <> 0 -> page_u8 (mem s) (table s pd i);
}.

(** The pools are in the direct map. *)
Record pools_ok (s : Paging) : Prop := {
  pl_paging : paging_ok s;
  pl_user : PHYS_BASE <= base (USER_POOL (pg_pa s));
}.

(** The directories of all processes; [P] maps a thread to its directory, or to 0. *)
Record spaces (s : Paging) (P : Z -> Z) : Prop := {
  ss_pools : pools_ok s;
  ss_space : forall t, P t <> 0 -> space s (P t);
  ss_iso : forall t t', t <> t' -> P t <> 0 -> P t' <> 0 -> isolated s (P t) (P t');
}.

Definition same_pools (s s' : Paging) : Prop :=
  KERNEL_POOL (pg_pa s') = KERNEL_POOL (pg_pa s) /\ USER_POOL (pg_pa s') = USER_POOL (pg_pa s).

(** Allocated pages outside [X] stay allocated and keep their bytes. *)
Definition same_pages (X : Z -> Prop) (s s' : Paging) : Prop :=
  same_pools s s' /\
  forall a, live (pg_pa s) a = true -> ~ X a ->
    live (pg_pa s') a = true /\ forall x, a <= x < a + PGSIZE -> mem s' x = mem s x.

Lemma same_pages_refl X s : same_pages X s s.
Proof. by split. Qed.

Lemma same_pages_trans X s1 s2 s3 : same_pages X s1 s2 -> same_pages X s2 s3 -> same_pages X s1 s3.
Proof.
  intros [[Hk1 Hu1] H1] [[Hk2 Hu2] H2]. split; [split; congruence|]. intros a Ha HX.
  destruct (H1 a Ha HX) as [Hl1 Hm1]. destruct (H2 a Hl1 HX) as [Hl2 Hm2]. split; [done|].
  intros x Hx. by rewrite Hm2, Hm1.
Qed.

Lemma same_pages_weaken (X Y : Z -> Prop) s s' :
  (forall a, X a -> Y a) -> same_pages X s s' -> same_pages Y s s'.
Proof. intros HXY [Hp H]. split; [done|]. intros a Ha HY. apply H; [done|]. by intros HX%HXY. Qed.

Lemma pools_ok_same s s' : same_pools s s' -> pools_ok s -> pools_ok s'.
Proof. intros [Ek Eu] [[Hpa Hb] Hu]. split; [split; [destruct Hpa; split|]|]; by rewrite ?Ek, ?Eu. Qed.

(** The pools do not overlap. *)
Lemma pool_apart s a b :
  pa_ok (pg_pa s) -> in_pool (KERNEL_POOL (pg_pa s)) a = true -> in_pool (USER_POOL (pg_pa s)) b = true -> a <> b.
Proof.
  intros [Hk Hu Hd]. unfold in_pool. rewrite !andb_true_iff, !Z.leb_le, !Z.ltb_lt.
  pose proof (po_fit _ Hu). pose proof (byte_cnt_nonneg _ (po_cnt _ Hu)). lia.
Qed.

Lemma uses_live s pd a : pd_ok s pd -> uses s pd a -> live (pg_pa s) a = true.
Proof. intros Hok [-> | (i & Hi & Hn & ->)]; [apply Hok|by apply (pd_tables _ _ Hok)]. Qed.

(** ** Changes outside a directory *)
Section frame.
Context (X : Z -> Prop) (s s' : Paging) (pd : Z).
Context (Hsp : space s pd) (Hs : same_pages X s s') (HX : forall a, uses s pd a -> ~ X a).

Lemma frame_pde i : 0 <= i < 1024 -> pde s' pd i = pde s pd i.
Proof.
  intros Hi. destruct (proj2 Hs pd (pd_live _ _ (sp_ok _ _ Hsp))) as [_ Hm]; [apply HX; by left|].
  apply read_u32_frame. intros x Hx. apply Hm. unfold PGSIZE. lia.
Qed.

Lemma frame_table i : 0 <= i < 1024 -> table s' pd i = table s pd i.
Proof. intros Hi. unfold table. by rewrite frame_pde. Qed.

Lemma frame_uses a : uses s' pd a <-> uses s pd a.
Proof.
  unfold uses. split; (intros [|(i & Hi & Hn & ->)]; [by left|right; exists i; split; [done|]]).
  - rewrite frame_pde in Hn by done. by rewrite frame_table.
  - rewrite frame_pde by done. by rewrite frame_table.
Qed.

Lemma frame_word va : in_u32 va -> pde s pd (pde_idx va) <> 0 ->
  read_u32 (mem s') (pte_at s' pd va) = read_u32 (mem s) (pte_at s pd va).
Proof.
  intros Hva E. pose proof (pde_idx_range va Hva) as Hi. unfold pte_at. rewrite frame_table by done.
  destruct (pd_tables _ _ (sp_ok _ _ Hsp) _ Hi E) as [Hl _].
  destruct (proj2 Hs _ Hl) as [_ Hm]; [apply HX; right; by exists (pde_idx va)|].
  apply read_u32_frame. intros x Hx. apply Hm. pose proof (pte_idx_range va). unfold PGSIZE. lia.
Qed.

Lemma frame_mapping va : in_u32 va -> mapping s' pd va = mapping s pd va.
Proof.
  intros Hva. unfold mapping. rewrite frame_pde by by apply pde_idx_range.
  destruct (Z.eqb_spec (pde s pd (pde_idx va)) 0) as [E|E]; [done|]. by rewrite frame_word.
Qed.

Lemma frame_space : space s' pd.
Proof.
  destruct Hs as [[Ek Eu] H]. split.
  - split.
    + apply H; [apply Hsp|apply HX; by left].
    + intros i Hi. rewrite frame_pde, frame_table by done. intros Hn.
      destruct (pd_tables _ _ (sp_ok _ _ Hsp) i Hi Hn) as [Hl Hne]. split; [|done].
      apply H; [done|]. apply HX. right. by exists i.
    + intros i j Hi Hj. rewrite !frame_pde, !frame_table by done. by apply (pd_inj _ _ (sp_ok _ _ Hsp)).
  - intros a Ha. rewrite Ek. apply (sp_kernel _ _ Hsp). by apply frame_uses.
  - intros i Hi. rewrite frame_pde, frame_table by done. intros Hn k Hk.
    destruct (pd_tables _ _ (sp_ok _ _ Hsp) i Hi Hn) as [Hl _].
    destruct (H _ Hl) as [_ Hm]; [apply HX; right; by exists i|]. rewrite Hm by lia. by apply (sp_u8 _ _ Hsp).
Qed.
End frame.

Lemma isolated_pdes s s' pd pd' :
  (forall i, 0 <= i < 1024 -> pde s' pd i = pde s pd i) -> (forall i, 0 <= i < 1024 -> pde s' pd' i = pde s pd' i) ->
  isolated s pd pd' -> isolated s' pd pd'.
Proof.
  intros H H' (Hne & Ht & Hiso). split_and!; [done| |].
  - intros j Hj. unfold table. rewrite H' by done. by apply Ht.
  - intros i Hi. unfold table. rewrite H by lia. intros Hn. destruct (Hiso i Hi Hn) as [H1 H2]. split; [done|].
    intros j Hj. rewrite H' by done. by apply H2.
Qed.

(** A change that spares every directory. *)
Lemma spaces_frame X s s' P :
  spaces s P -> same_pages X s s' -> (forall t a, P t <> 0 -> uses s (P t) a -> ~ X a) ->
  spaces s' P /\ forall t va, P t <> 0 -> in_u32 va -> mapping s' (P t) va = mapping s (P t) va.
Proof.
  intros [Hp Hsp Hiso] Hs HX. split; [split|].
  - by apply (pools_ok_same s); [apply Hs|].
  - intros t Ht. eapply frame_space; [by apply Hsp|done|]. intros a. by apply HX.
  - intros t t' Hne Ht Ht'. eapply isolated_pdes; [| |by apply Hiso].
    + intros i Hi. eapply frame_pde; [by apply Hsp|done|by intros a; apply HX|done].
    + intros i Hi. eapply frame_pde; [by apply Hsp|done|by intros a; apply HX|done].
  - intros t va Ht Hva. eapply frame_mapping; [by apply Hsp|done|by intros a; apply HX|done].
Qed.

(** A change confined to pages of the user pool. *)
Lemma spaces_user s s' P :
  spaces s P -> same_pages (fun a => in_pool (USER_POOL (pg_pa s)) a = true) s s' ->
  spaces s' P /\ forall t va, P t <> 0 -> in_u32 va -> mapping s' (P t) va = mapping s (P t) va.
Proof.
  intros Hss Hs. eapply spaces_frame; [done|done|]. intros t a Ht Hu Ha.
  apply (pool_apart s a a); try done; [apply Hss|]. by apply (sp_kernel _ _ (ss_space _ _ Hss t Ht)).
Qed.

(** ** Pages that belong to no process *)

(** Pages that a directory has for itself: its own and the tables of the user half. *)
Definition owns (s : Paging) (pd a : Z) : Prop :=
  a = pd \/ exists i, 0 <= i < 768 /\ pde s pd i <> 0 /\ a = table s pd i.

(** A page of the kernel pool that is in use and not owned by a directory of [P]. *)
Definition bystander (s : Paging) (P : Z -> Z) (a : Z) : Prop :=
  in_pool (KERNEL_POOL (pg_pa s)) a = true /\ live (pg_pa s) a = true /\ forall t, P t <> 0 -> ~ owns s (P t) a.

Definition spared (P : Z -> Z) (s s' : Paging) : Prop :=
  forall a, bystander s P a -> bystander s' P a /\ (forall x, a <= x < a + PGSIZE -> mem s' x = mem s x) /\
    forall t, P t <> 0 -> uses s' (P t) a -> uses s (P t) a.

Lemma spared_refl P s : spared P s s.
Proof. by intros a Ha. Qed.

Lemma spared_trans P s1 s2 s3 : spared P s1 s2 -> spared P s2 s3 -> spared P s1 s3.
Proof.
  intros H1 H2 a Ha. destruct (H1 a Ha) as (Ha2 & E1 & U1). destruct (H2 a Ha2) as (Ha3 & E2 & U2).
  split_and!; [done| |auto]. intros x Hx. by rewrite E2, E1.
Qed.

Lemma owns_uses s pd a : owns s pd a -> uses s pd a.
Proof. intros [->|(i & Hi & Hn & ->)]; [by left|]. right. exists i. split; [lia|done]. Qed.

Lemma spared_same X s s' P :
  same_pages X s s' -> (forall a, bystander s P a -> ~ X a) ->
  (forall t a, P t <> 0 -> uses s' (P t) a -> live (pg_pa s) a = true -> uses s (P t) a) ->
  (forall t a, P t <> 0 -> owns s' (P t) a -> live (pg_pa s) a = true -> owns s (P t) a) -> spared P s s'.
Proof.
  intros [[Ek _] H] HX Hu Ho a Ha. pose proof Ha as (Hin & Hl & Hno). destruct (H a Hl (HX a Ha)) as [Hl' Hm].
  split_and!; [|done|intros t Ht ?; by apply Hu]. split_and!; [by rewrite Ek|done|]. intros t Ht Hx. by apply (Hno t), Ho.
Qed.

Lemma uses_pdes s s' pd a : (forall i, 0 <= i < 1024 -> pde s' pd i = pde s pd i) ->
  (uses s' pd a -> uses s pd a) /\ (owns s' pd a -> owns s pd a).
Proof.
  intros Hp. split; (intros [->|(i & Hi & Hn & ->)]; [by left|]);
    right; exists i; unfold table in *; rewrite Hp in Hn |- * by lia; done.
Qed.

(** A change that leaves every directory as it is. *)
Lemma spared_pdes X s s' P :
  same_pages X s s' -> (forall a, bystander s P a -> ~ X a) ->
  (forall t i, P t <> 0 -> 0 <= i < 1024 -> pde s' (P t) i = pde s (P t) i) -> spared P s s'.
Proof.
  intros Hs HX Hp. eapply spared_same; [exact Hs|exact HX|..]; intros t a Ht Ha _;
    (eapply (uses_pdes s s'); [|exact Ha]); intros i Hi; by apply Hp.
Qed.

(** A change of the user pool spares them. *)
Lemma spared_user s s' P :
  spaces s P -> same_pages (fun a => in_pool (USER_POOL (pg_pa s)) a = true) s s' -> spared P s s'.
Proof.
  intros Hss Hs. assert (forall a, in_pool (KERNEL_POOL (pg_pa s)) a = true -> in_pool (USER_POOL (pg_pa s)) a <> true) as Hap.
  { intros a Hk Hu. apply (pool_apart s a a); try done. apply Hss. }
  eapply spared_pdes; [exact Hs|intros a (Hk & _); by apply Hap|]. intros t i Ht Hi.
  eapply frame_pde; [by apply (ss_space _ _ Hss)|exact Hs| |done]. intros b Hb.
  by apply Hap, (sp_kernel _ _ (ss_space _ _ Hss t Ht)).
Qed.

(** Moreover no page of the kernel pool is allocated. *)
Record calm (P : Z -> Z) (s s' : Paging) : Prop := {
  cm_spared : spared P s s';
  cm_free : forall a, in_pool (KERNEL_POOL (pg_pa s)) a = true -> live (pg_pa s) a = false -> live (pg_pa s') a = false;
  cm_pools : same_pools s s';
}.

Lemma calm_refl P s : calm P s s.
Proof. split; [apply spared_refl|done|done]. Qed.

Lemma calm_trans P s1 s2 s3 : calm P s1 s2 -> calm P s2 s3 -> calm P s1 s3.
Proof.
  intros [S1 F1 [K1 U1]] [S2 F2 [K2 U2]]. split; [by eapply spared_trans| |split; congruence].
  intros a Ha Hl. apply F2; [by rewrite K1|by apply F1].
Qed.

(** ** Updates of one entry *)

(** The effect of storing the word [w] as the entry of [va] for thread [t]. *)
Record pte_upd (P : Z -> Z) (t va w : Z) (s s' : Paging) : Prop := {
  pu_spaces : spaces s' P;
  pu_user : same_pages (fun a => in_pool (KERNEL_POOL (pg_pa s)) a = true) s s';
  pu_map : forall t' va', P t' <> 0 -> in_u32 va' -> mapping s' (P t') va' =
    if decide (t' = t /\ va' / PGSIZE = va / PGSIZE)
    then (if Z.land w PTE_P =? 0 then None else Some w) else mapping s (P t') va';
  pu_pde : forall t' i, P t' <> 0 -> 0 <= i < 1024 -> pde s (P t') i <> 0 -> pde s' (P t') i <> 0;
  pu_spared : spared P s s';
}.

Lemma write_u32_u8 m a v x : in_u8 (m x) -> in_u8 (write_u32 a v m x).
Proof. intros H. unfold write_u32. case_decide; [|done]. apply byte_at_u8, le_bytes_u8. Qed.

Lemma isolated_uses s pd pd' i a :
  isolated s pd pd' -> 0 <= i < 768 -> pde s pd i <> 0 -> uses s pd' a -> a <> table s pd i.
Proof.
  intros (Hne & Ht & Hiso) Hi Hn. destruct (Hiso i Hi Hn) as [H1 H2].
  intros [-> | (j & Hj & Hm & ->)]; [congruence|]. intros E. by apply (H2 j Hj Hm).
Qed.

Lemma user_va va : 0 <= va < PHYS_BASE -> in_u32 va.
Proof. unfold in_u32, PHYS_BASE, u32_lim. lia. Qed.

Section update.
Context (P : Z -> Z) (t va w : Z) (s : Paging).
Context (Hss : spaces s P) (Ht : P t <> 0) (Hva : 0 <= va < PHYS_BASE) (Hw : in_u32 w).
Context (Hn : pde s (P t) (pde_idx va) <> 0).

Let pd : Z := P t.
Let T : Z := table s pd (pde_idx va).

Lemma put_same_pages : same_pages (fun a => a = T) s (put_pte pd s va w).
Proof.
  pose proof (ss_space _ _ Hss t Ht) as [Hok _ _]. pose proof (pl_paging _ (ss_pools _ _ Hss)) as [Hpa _].
  split; [done|]. intros a Ha Hne. rewrite put_live by (done || by apply user_va). split; [done|].
  intros x Hx. by apply (put_mem pd s va w Hpa Hok (user_va va Hva) Hn a).
Qed.

Lemma put_space : space (put_pte pd s va w) pd.
Proof.
  pose proof (ss_space _ _ Hss t Ht) as [Hok Hk H8]. pose proof (pl_paging _ (ss_pools _ _ Hss)) as [Hpa _].
  destruct (put_ok pd s va w Hpa Hok (user_va va Hva) Hn) as [_ Hok']. pose proof (put_pde pd s va w Hpa Hok (user_va va Hva) Hn) as Hp.
  split; [done| |].
  - intros a [-> | (i & Hi & Hi' & ->)]; [apply Hk; by left|]. apply Hk. right. exists i.
    unfold table in *. rewrite Hp in Hi' |- * by done. done.
  - intros i Hi. unfold table. rewrite Hp by done. intros Hi' k Hk'. apply write_u32_u8. by apply H8.
Qed.

Lemma put_upd : pte_upd P t va w s (put_pte pd s va w).
Proof.
  pose proof (ss_space _ _ Hss t Ht) as Hsp. pose proof (pl_paging _ (ss_pools _ _ Hss)) as [Hpa _].
  pose proof (put_pde pd s va w Hpa (sp_ok _ _ Hsp) (user_va va Hva) Hn) as Hp.
  pose proof (pde_idx_user va Hva) as Hidx.
  assert (forall t', t' <> t -> P t' <> 0 -> forall a, uses s (P t') a -> a <> T) as Hsep.
  { intros t' Hne Ht' a Ha. eapply isolated_uses; [by apply (ss_iso _ _ Hss t t')|done|done|done]. }
  assert (forall t' i, P t' <> 0 -> 0 <= i < 1024 -> pde (put_pte pd s va w) (P t') i = pde s (P t') i) as Hpde.
  { intros t' i Ht' Hi. destruct (decide (t' = t)) as [->|Hne]; [by apply Hp|].
    eapply frame_pde; [by apply (ss_space _ _ Hss)|apply put_same_pages|by apply Hsep|done]. }
  split.
  - split; [apply (pools_ok_same s); [done|apply Hss]| |].
    + intros t' Ht'. destruct (decide (t' = t)) as [->|Hne]; [apply put_space|].
      eapply frame_space; [by apply (ss_space _ _ Hss)|apply put_same_pages|by apply Hsep].
    + intros t1 t2 Hne H1 H2. eapply isolated_pdes; [intros; by apply Hpde..|]. by apply (ss_iso _ _ Hss).
  - eapply same_pages_weaken; [|apply put_same_pages]. intros a ->. apply (sp_kernel _ _ Hsp).
    right. exists (pde_idx va). split; [lia|done].
  - intros t' va' Ht' Hva'. destruct (decide (t' = t)) as [->|Hne].
    + fold pd. rewrite (put_mapping pd s va w Hpa (sp_ok _ _ Hsp) (user_va va Hva) Hw Hn va' Hva').
      destruct (decide (va / PGSIZE = va' / PGSIZE)) as [E|E]; [by rewrite decide_True by done|].
      by rewrite decide_False by (intros [_ ?]; congruence).
    + rewrite decide_False by (intros [? _]; done).
      eapply frame_mapping; [by apply (ss_space _ _ Hss)|apply put_same_pages|by apply Hsep|done].
  - intros t' i Ht' Hi. by rewrite Hpde.
  - eapply spared_pdes; [apply put_same_pages| |done].
    intros a (_ & _ & Hno) ->. apply (Hno t Ht). right. by exists (pde_idx va).
Qed.

Lemma put_invalidated : pte_upd P t va w s (invalidated va (put_pte pd s va w)).
Proof.
  destruct put_upd as [[Hp Hsp Hiso] Hsame Hmap Hpde Hspa]. split; [split; [|intros t' Ht'|exact Hiso]|exact Hsame|exact Hmap|exact Hpde|exact Hspa].
  { destruct Hp as [? Hu]. split; [done|exact Hu]. }
  destruct (Hsp t' Ht') as [Hok Hk H8]. split; [by apply pd_ok_invalidated|exact Hk|exact H8].
Qed.

Lemma put_calm : calm P s (invalidated va (put_pte pd s va w)).
Proof.
  pose proof (ss_space _ _ Hss t Ht) as [Hok _ _]. pose proof (pl_paging _ (ss_pools _ _ Hss)) as [Hpa _].
  split; [apply put_invalidated| |done]. intros a _ Hl.
  change (live (pg_pa (put_pte pd s va w)) a = false). by rewrite put_live by (done || by apply user_va).
Qed.
End update.

(** Adding a table, as [set_page] may do. *)
Section grow.
Context (P : Z -> Z) (t i : Z) (s s1 : Paging).
Context (Hss : spaces s P) (Ht : P t <> 0) (Hi : 0 <= i < 768) (Hg : grown (P t) i s s1).

Let pd : Z := P t.

Lemma grown_same_pages : same_pages (fun a => a = pd) s s1.
Proof.
  split; [apply (gr_pools _ _ _ _ Hg)|]. intros a Ha Hne. split; [by apply (gr_live _ _ _ _ Hg)|].
  intros x Hx. by apply (gr_mem _ _ _ _ Hg a).
Qed.

Lemma grown_others t' : t' <> t -> P t' <> 0 -> forall a, uses s (P t') a -> a <> pd.
Proof.
  intros Hne Ht' a. destruct (ss_iso _ _ Hss t t') as (Hpd & Htab & _); [done..|].
  intros [-> | (j & Hj & Hn & ->)]; [done|by apply Htab].
Qed.

(** The table that is new is in the kernel pool and no directory used it. *)
Lemma grown_fresh a t' : pde s pd i = 0 -> a = table s1 pd i -> P t' <> 0 -> ~ uses s (P t') a.
Proof.
  intros E -> Ht' Hu. destruct (gr_new _ _ _ _ Hg E) as [Hf _].
  rewrite (uses_live s (P t') _) in Hf; [done|by apply (ss_space _ _ Hss)|done].
Qed.

Lemma grown_uses a : uses s1 pd a -> uses s pd a \/ (pde s pd i = 0 /\ a = table s1 pd i).
Proof.
  intros [-> | (j & Hj & Hn & ->)]; [left; by left|].
  destruct (decide (pde s pd i = 0)) as [E|E].
  - destruct (decide (j = i)) as [->|Hne]; [by right|]. left. right. exists j.
    unfold table. rewrite (gr_others _ _ _ _ Hg) in * by done. done.
  - left. right. exists j. rewrite (gr_old _ _ _ _ Hg E) in *. done.
Qed.

Lemma grown_space : space s1 pd.
Proof.
  pose proof (ss_space _ _ Hss t Ht) as [Hok Hk H8]. destruct (gr_pools _ _ _ _ Hg) as [Ek _]. split; [apply Hg| |].
  - intros a Ha. rewrite Ek. destruct (grown_uses a Ha) as [Hu|[E ->]]; [by apply Hk|by apply (gr_kernel _ _ _ _ Hg)].
  - intros j Hj Hn k Hk'. destruct (decide (pde s pd i = 0)) as [E|E].
    2:{ rewrite (gr_old _ _ _ _ Hg E) in *. by apply H8. }
    destruct (decide (j = i)) as [->|Hne].
    + destruct (gr_new _ _ _ _ Hg E) as [_ Hz]. fold pd in Hz. rewrite Hz by lia. unfold in_u8. lia.
    + pose proof (gr_others _ _ _ _ Hg j Hj Hne) as Ej. fold pd in Ej. rewrite Ej in Hn.
      assert (table s1 pd j = table s pd j) as -> by (unfold table; by rewrite Ej).
      destruct (pd_tables _ _ Hok j Hj Hn) as [Hl Hne'].
      rewrite (gr_mem _ _ _ _ Hg _ _ Hl); [by apply H8|unfold pd; lia|done].
Qed.

Lemma grown_iso t1 t2 : t1 <> t2 -> P t1 <> 0 -> P t2 <> 0 -> isolated s1 (P t1) (P t2).
Proof.
  intros Hne H1 H2.
  assert (forall t', t' <> t -> P t' <> 0 -> forall j, 0 <= j < 1024 -> pde s1 (P t') j = pde s (P t') j) as Hoth.
  { intros t' Hne' Ht' j Hj. eapply frame_pde; [by apply (ss_space _ _ Hss)|apply grown_same_pages|by apply grown_others|done]. }
  pose proof (pl_paging _ (ss_pools _ _ Hss)) as [Hpa _].
  destruct (decide (t1 = t)) as [->|N1]; [|destruct (decide (t2 = t)) as [->|N2]].
  - eapply mapping_grown_other; [done|by apply (ss_space _ _ Hss)|by apply (ss_iso _ _ Hss)|done|done].
  - (* the user tables of [t1] are not used by the grown directory *)
    destruct (ss_iso _ _ Hss t1 t) as (Hpd & Htab & Hiso); [done..|]. split_and!; [done| |].
    + intros j Hj Hn E. assert (uses s1 pd (P t1)) as [Hu|[E0 Ea]]%grown_uses by (right; by exists j).
      * destruct Hu as [|(j' & Hj' & Hn' & Hu)]; [done|]. by apply (Htab j' Hj' Hn').
      * eapply grown_fresh; [done|done|exact H1|]. by left.
    + intros j Hj. assert (table s1 (P t1) j = table s (P t1) j) as -> by (unfold table; by rewrite Hoth by (done || lia)).
      rewrite (Hoth t1) by (done || lia). intros Hn.
      assert (forall a, uses s1 pd a -> table s (P t1) j <> a) as Hsep.
      { intros a [Hu|[E0 Ea]]%grown_uses.
        - intros <-. by apply (isolated_uses s (P t1) pd j (table s (P t1) j)).
        - intros <-. eapply grown_fresh; [done|done|exact H1|]. right. exists j. split; [lia|done]. }
      split.
      * apply Hsep. by left.
      * intros k Hk Hk'. apply Hsep. right. by exists k.
  - eapply isolated_pdes; [intros; by apply Hoth..|]. by apply (ss_iso _ _ Hss).
Qed.

Lemma grown_spaces : spaces s1 P /\ forall t' va, P t' <> 0 -> in_u32 va -> mapping s1 (P t') va = mapping s (P t') va.
Proof.
  split; [split|].
  - apply (pools_ok_same s); [apply (gr_pools _ _ _ _ Hg)|apply Hss].
  - intros t' Ht'. destruct (decide (t' = t)) as [->|Hne]; [apply grown_space|].
    eapply frame_space; [by apply (ss_space _ _ Hss)|apply grown_same_pages|by apply grown_others].
  - intros t1 t2. apply grown_iso.
  - intros t' va Ht' Hva. destruct (decide (t' = t)) as [->|Hne].
    + eapply mapping_grown; [by apply (ss_space _ _ Hss)|apply Hss|done|done].
    + eapply frame_mapping; [by apply (ss_space _ _ Hss)|apply grown_same_pages|by apply grown_others|done].
Qed.

Lemma grown_spared : spared P s s1.
Proof.
  assert (forall t' a, t' <> t -> P t' <> 0 -> (uses s1 (P t') a -> uses s (P t') a) /\ (owns s1 (P t') a -> owns s (P t') a)) as Hoth.
  { intros t' a Hne Ht'. apply uses_pdes. intros j Hj.
    eapply frame_pde; [by apply (ss_space _ _ Hss)|apply grown_same_pages|by apply grown_others|done]. }
  eapply spared_same; [apply grown_same_pages|intros a (_ & _ & Hno) ->; apply (Hno t Ht); by left|..];
    intros t' a Ht' Ha Hl; (destruct (decide (t' = t)) as [->|Hne]; [|by apply Hoth]).
  - destruct (grown_uses a Ha) as [?|[E ->]]; [done|]. destruct (gr_new _ _ _ _ Hg E) as [Hf _]. fold pd in Hf. congruence.
  - destruct Ha as [->|(j & Hj & Hn & ->)]; [by left|]. destruct (decide (j = i)) as [->|Hne].
    + destruct (decide (pde s pd i = 0)) as [E|E].
      { destruct (gr_new _ _ _ _ Hg E) as [Hf _]. fold pd in Hl, Hf. congruence. }
      right. exists i. by rewrite (gr_old _ _ _ _ Hg E).
    + right. exists j. unfold table in *. rewrite (gr_others _ _ _ _ Hg) in Hn |- * by (done || lia). done.
Qed.
End grow.

(** *** The operations of pagedir.rs on one of several address spaces *)

(** The word the processor would find, 0 when there is no table. *)
Definition pte_word (s : Paging) (pd va : Z) : Z :=
  if pde s pd (pde_idx va) =? 0 then 0 else read_u32 (mem s) (pte_at s pd va).

Lemma mapping_word s pd va :
  mapping s pd va = if Z.land (pte_word s pd va) PTE_P =? 0 then None else Some (pte_word s pd va).
Proof. unfold mapping, pte_word. by destruct (pde s pd (pde_idx va) =? 0). Qed.

Lemma pte_word_u32 s pd va : space s pd -> in_u32 va -> in_u32 (pte_word s pd va).
Proof.
  intros Hsp Hva. unfold pte_word. destruct (Z.eqb_spec (pde s pd (pde_idx va)) 0) as [E|E]; [done|].
  pose proof (sp_u8 _ _ Hsp _ (pde_idx_range va Hva) E) as H8. pose proof (pte_idx_range va). unfold pte_at, read_u32.
  set (a := table s pd (pde_idx va)) in *.
  assert (forall j, 0 <= j < 4 -> in_u8 (mem s (a + 4 * pte_idx va + j))) as Hb.
  { intros j Hj. replace (a + 4 * pte_idx va + j) with (a + (4 * pte_idx va + j)) by lia. apply H8. unfold PGSIZE. lia. }
  pose proof (Hb 0 ltac:(lia)) as H0. rewrite Z.add_0_r in H0.
  pose proof (Hb 1 ltac:(lia)). pose proof (Hb 2 ltac:(lia)). pose proof (Hb 3 ltac:(lia)).
  unfold le_word, in_u32, in_u8, u32_lim in *. simpl. lia.
Qed.

Section ops.
Context (P : Z -> Z) (t va : Z) (s : Paging).
Context (Hss : spaces s P) (Ht : P t <> 0) (Hva : 0 <= va < PHYS_BASE).

Let Hsp : space s (P t) := ss_space _ _ Hss t Ht.
Let Hpa : pa_ok (pg_pa s) := proj1 (pl_paging _ (ss_pools _ _ Hss)).

Lemma pte_at_pos : pde s (P t) (pde_idx va) <> 0 -> (pte_at s (P t) va =? 0) = false.
Proof.
  intros E. destruct (pd_tables _ _ (sp_ok _ _ Hsp) _ (pde_idx_range va (user_va va Hva)) E) as [Hl _].
  destruct (live_page _ _ Hpa Hl) as (Hpos & _). pose proof (pte_idx_range va). apply Z.eqb_neq. unfold pte_at. lia.
Qed.

(** Both flag tests: [lookup] followed by a test of the word. *)
Lemma wp_pte_flag flag (Q : bool -> Paging -> Prop) :
  Q (negb (Z.land (pte_word s (P t) va) flag =? 0)) s ->
  wp (let! pte_ptr := lookup (P t) va false in
      if pte_ptr =? 0 then ret false
      else let! pte := load pte_ptr in ret (negb (Z.land pte flag =? 0))) s Q.
Proof.
  intros HQ. apply wp_bind, wp_pte_lookup; [done|apply Hsp|by apply user_va|]. unfold pte_word in HQ.
  destruct (Z.eqb_spec (pde s (P t) (pde_idx va)) 0) as [E|E]; [by apply wp_ret|].
  rewrite pte_at_pos by done. by apply wp_bind, wp_gets, wp_ret.
Qed.

Lemma wp_is_accessed (Q : bool -> Paging -> Prop) :
  Q (negb (Z.land (pte_word s (P t) va) PTE_A =? 0)) s -> wp (is_accessed (P t) va) s Q.
Proof. apply wp_pte_flag. Qed.

Lemma wp_is_dirty (Q : bool -> Paging -> Prop) :
  Q (negb (Z.land (pte_word s (P t) va) PTE_D =? 0)) s -> wp (is_dirty (P t) va) s Q.
Proof. apply wp_pte_flag. Qed.

Definition accessed_value (val : bool) (pte : Z) : Z :=
  if val then Z.lor pte PTE_A else Z.land pte (not_w 32 PTE_A).

Lemma wp_set_accessed val (Q : unit -> Paging -> Prop) :
  (pde s (P t) (pde_idx va) = 0 -> Q tt s) ->
  (forall s', pte_upd P t va (accessed_value val (pte_word s (P t) va)) s s' -> calm P s s' -> Q tt s') ->
  wp (set_accessed (P t) va val) s Q.
Proof.
  intros H0 HQ. pose proof (pte_word_u32 s (P t) va Hsp (user_va va Hva)) as Hw.
  unfold set_accessed. apply wp_bind, wp_pte_lookup; [done|apply Hsp|by apply user_va|]. unfold pte_word in *.
  destruct (Z.eqb_spec (pde s (P t) (pde_idx va)) 0) as [E|E]; [by apply wp_ret, H0|].
  rewrite pte_at_pos by done. apply wp_bind, wp_gets, wp_bind, wp_modify, wp_modify.
  pose proof (accessed_word _ val Hw) as [Hin _]. apply HQ; [by apply put_invalidated|by apply put_calm].
Qed.

Lemma wp_clear_page_spaces (Q : unit -> Paging -> Prop) :
  (forall s', pte_upd P t va 0 s s' -> calm P s s' -> Q tt s') -> wp (clear_page (P t) va) s Q.
Proof.
  intros HQ. apply wp_clear_page; [done|apply Hsp|by apply user_va|].
  destruct (Z.eqb_spec (pde s (P t) (pde_idx va)) 0) as [E|E]; [|apply HQ; [by apply put_invalidated|by apply put_calm]].
  apply HQ; [|apply calm_refl]. split; [done|apply same_pages_refl| |done|apply spared_refl]. intros t' va' Ht' Hva'. case_decide as Hd; [|done].
  destruct Hd as [-> [Ei _]%same_page]. unfold mapping. by rewrite Ei, E.
Qed.

Lemma wp_set_page_spaces kpage w (Q : bool -> Paging -> Prop) :
  va mod PGSIZE = 0 -> kernel_page kpage ->
  (pde s (P t) (pde_idx va) = 0 -> exhausted ZERO 1 (pg_pa s) -> Q false s) ->
  (forall s', pte_upd P t va (user_pte kpage w) s s' -> pde s' (P t) (pde_idx va) <> 0 -> Q true s') ->
  wp (set_page (P t) va kpage w) s Q.
Proof.
  intros Hal Hk H0 HQ. destruct (user_pte_ok kpage w Hk) as (Hin & _).
  apply wp_set_page; [apply Hss|apply Hsp|done|done|done|done|]. intros s1 Hg.
  pose proof (pde_idx_user va Hva) as Hidx.
  destruct (grown_spaces P t (pde_idx va) s s1 Hss Ht Hidx Hg) as [Hss1 Hm1].
  pose proof (gr_pde _ _ _ _ Hg) as Hn1. pose proof (gr_pools _ _ _ _ Hg) as [Ek Eu].
  destruct (put_upd P t va (user_pte kpage w) s1 Hss1 Ht Hva Hin Hn1) as [Hss2 Hu2 Hm2 Hp2 Hsp2].
  apply HQ; [|apply Hp2; [done|lia|done]]. split; [done| | | |].
  - eapply same_pages_trans; [|rewrite Ek in Hu2; exact Hu2].
    eapply same_pages_weaken; [|by apply (grown_same_pages P t (pde_idx va))].
    intros a ->. apply (sp_kernel _ _ Hsp). by left.
  - intros t' va' Ht' Hva'. rewrite Hm2 by done. by rewrite Hm1.
  - intros t' i Ht' Hi Hn. apply Hp2; [done|done|]. destruct (decide (t' = t)) as [->|Hne].
    + destruct (decide (i = pde_idx va)) as [->|Hne]; [done|]. by rewrite (gr_others _ _ _ _ Hg).
    + erewrite frame_pde; [done|by apply (ss_space _ _ Hss)|by apply (grown_same_pages P t (pde_idx va))|by apply (grown_others P t s Hss Ht)|done].
  - eapply spared_trans; [by apply (grown_spared P t (pde_idx va) s s1)|exact Hsp2].
Qed.
End ops.
