(* ===== verification/NewSpace.v ===== *)
(** A new address space: what [create] of src/userprog/pagedir.rs makes of the kernel's directory,
    and that it can join the directories of the other processes. *)
From S2P Require Import Prelude Memory Palloc Pagedir Swap Spaces.

(** The kernel's directory: no user half, and tables that no process owns. *)
Record kernel_dir (s : Paging) (P : Z -> Z) : Prop := {
  kd_page : bystander s P (INIT_PAGE_DIR s);
  kd_user : forall i, 0 <= i < 768 -> pde s (INIT_PAGE_DIR s) i = 0;
  kd_tables : forall i, 768 <= i < 1024 -> pde s (INIT_PAGE_DIR s) i <> 0 ->
    bystander s P (table s (INIT_PAGE_DIR s) i) /\ page_u8 (mem s) (table s (INIT_PAGE_DIR s) i);
  kd_inj : forall i j, 768 <= i < 1024 -> 768 <= j < 1024 -> pde s (INIT_PAGE_DIR s) i <> 0 ->
    pde s (INIT_PAGE_DIR s) j <> 0 -> table s (INIT_PAGE_DIR s) i = table s (INIT_PAGE_DIR s) j -> i = j;
}.

(** A directory that no process has yet: its user half is empty. *)
Record newborn (s : Paging) (P : Z -> Z) (pd : Z) : Prop := {
  nb_space : space s pd;
  nb_page : bystander s P pd;
  nb_apart : forall t, P t <> 0 -> ~ uses s (P t) pd;
  nb_user : forall i, 0 <= i < 768 -> pde s pd i = 0;
  nb_tables : forall i, 0 <= i < 1024 -> pde s pd i <> 0 -> bystander s P (table s pd i);
}.

(** [P] with the directory [pd] for [t]. *)
Definition join (t pd : Z) (P : Z -> Z) : Z -> Z := fun u => if decide (u = t) then pd else P u.

Section newborn.
Context (s s' : Paging) (P : Z -> Z) (pd : Z) (Hn : newborn s P pd).

Section kept.
Context (Hs : spared P s s') (Hpool : same_pools s s').

Lemma newborn_pde i : 0 <= i < 1024 -> pde s' pd i = pde s pd i.
Proof.
  intros Hi. apply read_u32_frame. intros x Hx. apply (Hs pd (nb_page _ _ _ Hn)). unfold PGSIZE. lia.
Qed.

Lemma newborn_spared : newborn s' P pd.
Proof.
  pose proof (nb_space _ _ _ Hn) as [[Hl Ht Hj] Hk H8]. destruct Hpool as [Ek _].
  assert (forall i, 0 <= i < 1024 -> table s' pd i = table s pd i) as Etab by (intros; unfold table; by rewrite newborn_pde).
  split.
  - split; [split|..].
    + by apply (Hs pd (nb_page _ _ _ Hn)).
    + intros i Hi. rewrite newborn_pde, Etab by done. intros Hne. split; [|by apply Ht].
      by apply (Hs _ (nb_tables _ _ _ Hn i Hi Hne)).
    + intros i j Hi Hij. rewrite !newborn_pde, !Etab by done. by apply Hj.
    + intros a [->|(i & Hi & Hne & ->)]; rewrite Ek; [apply Hk; by left|].
      rewrite newborn_pde in Hne by done. rewrite Etab by done. apply Hk. right. by exists i.
    + intros i Hi. rewrite newborn_pde, Etab by done. intros Hne k Hk'.
      rewrite (proj1 (proj2 (Hs _ (nb_tables _ _ _ Hn i Hi Hne)))) by lia. by apply H8.
  - by apply (Hs pd (nb_page _ _ _ Hn)).
  - intros t Htt Hu. apply (nb_apart _ _ _ Hn t Htt). by apply (Hs pd (nb_page _ _ _ Hn)).
  - intros i Hi. rewrite newborn_pde by lia. by apply (nb_user _ _ _ Hn).
  - intros i Hi. rewrite newborn_pde, Etab by done. intros Hne. by apply (Hs _ (nb_tables _ _ _ Hn i Hi Hne)).
Qed.
End kept.

Lemma newborn_unmapped va : 0 <= va < PHYS_BASE -> mapping s pd va = None.
Proof. intros Hva. unfold mapping. by rewrite (nb_user _ _ _ Hn) by by apply pde_idx_user. Qed.

Lemma newborn_spaces t : spaces s P -> P t = 0 -> spaces s (join t pd P).
Proof.
  intros [Hp Hsp Hiso] H0. pose proof (nb_page _ _ _ Hn) as (_ & _ & Hno).
  assert (forall u, P u <> 0 -> isolated s pd (P u) /\ isolated s (P u) pd) as Hi.
  { intros u Hu. split; split_and!.
    - intros ->. by apply (nb_apart _ _ _ Hn u); [|left].
    - intros j Hj Hne E. apply (nb_apart _ _ _ Hn u Hu). right. by exists j.
    - intros i Hi. rewrite (nb_user _ _ _ Hn) by done. done.
    - intros <-. by apply (nb_apart _ _ _ Hn u); [|left].
    - intros j Hj Hne E. destruct (nb_tables _ _ _ Hn j Hj Hne) as (_ & _ & Hown). apply (Hown u Hu). by left.
    - intros i Hi Hne. split.
      + intros E. apply (nb_apart _ _ _ Hn u Hu). right. exists i. split; [lia|done].
      + intros j Hj Hnj E. destruct (nb_tables _ _ _ Hn j Hj Hnj) as (_ & _ & Hown). apply (Hown u Hu). right. by exists i. }
  unfold join. split; [done| |].
  - intros u. case_decide; [intros _; apply Hn|apply Hsp].
  - intros t1 t2 Hne. do 2 case_decide; [congruence|intros ? ?; by apply Hi..|by apply Hiso].
Qed.
End newborn.

(** ** [create] *)
Section create.
Context (s : Paging) (P : Z -> Z) (Hss : spaces s P) (Hkd : kernel_dir s P).

Let init : Z := INIT_PAGE_DIR s.

Section made.
Context (pd : Z) (pa' : Palloc) (Hg : got ZERO 1 (pg_pa s) pd pa').

Let s1 : Paging := with_pa pa' s.
Let s' : Paging := with_pa (with_mem (copy_page init pd (mem s1)) (pg_pa s1)) s1.

Let Hpa : pa_ok (pg_pa s) := proj1 (pl_paging _ (ss_pools _ _ Hss)).

Lemma pd_mod : pd mod PGSIZE = 0.
Proof. apply (got_pos _ _ _ _ _ Hg). Qed.

Lemma pd_fresh : live (pg_pa s) pd = false.
Proof. apply (got_fresh _ _ _ _ _ Hg). unfold is_page. rewrite !andb_true_iff, Z.leb_le, Z.ltb_lt, Z.eqb_eq. pose proof pd_mod. unfold PGSIZE in *. lia. Qed.

Lemma pd_kernel : in_pool (KERNEL_POOL (pg_pa s)) pd = true.
Proof.
  destruct (got_pool _ _ _ _ _ Hg) as [Hb He]. change (pool_of ZERO (pg_pa s)) with (KERNEL_POOL (pg_pa s)) in *.
  unfold in_pool. rewrite !andb_true_iff, Z.leb_le, Z.ltb_lt, Z.eqb_eq. pose proof pd_mod. unfold PGSIZE in *. lia.
Qed.

(** A page in use in [s] is not the new one. *)
Lemma live_apart a : live (pg_pa s) a = true -> a <> pd /\ a mod PGSIZE = 0.
Proof.
  intros Ha. destruct (live_page _ _ Hpa Ha) as (_ & Hm & _). split; [|done]. intros ->. rewrite pd_fresh in Ha. done.
Qed.

Lemma made_live a : live (pg_pa s') a = is_page pd 1 a || live (pg_pa s) a.
Proof.
  rewrite <- (got_live _ _ _ _ _ Hg). apply live_frame; [apply (got_ok _ _ _ _ _ Hg)|done..|].
  intros x Hx. simpl. unfold copy_page. rewrite decide_False; [done|]. intros Hin.
  pose proof (got_live _ _ _ _ _ Hg pd) as Hl. rewrite pd_fresh, orb_false_r in Hl.
  assert (is_page pd 1 pd = true) as E.
  { unfold is_page. rewrite !andb_true_iff, Z.leb_le, Z.ltb_lt, Z.eqb_eq. pose proof pd_mod. unfold PGSIZE in *. lia. }
  rewrite E in Hl. destruct (live_page _ _ (got_ok _ _ _ _ _ Hg) Hl) as (_ & _ & _ & Hb). by apply (Hb x).
Qed.

Lemma made_out a x : live (pg_pa s) a = true -> a <= x < a + PGSIZE -> ~ (pd <= x < pd + PGSIZE) /\ p_mem pa' x = mem s x.
Proof.
  intros Ha Hx. destruct (live_apart a Ha) as [Hne Hm]. destruct (live_page _ _ Hpa Ha) as (_ & _ & _ & Hb).
  assert (~ (pd <= x < pd + PGSIZE)) as Hout by (intros Hin; by apply (pages_apart a pd x x); try done; apply pd_mod).
  split; [done|]. apply (got_frame _ _ _ _ _ Hg); [by apply Hb|done].
Qed.

Lemma made_mem a x : live (pg_pa s) a = true -> a <= x < a + PGSIZE -> mem s' x = mem s x.
Proof.
  intros Ha Hx. destruct (made_out a x Ha Hx) as [Hout E]. rewrite <- E.
  unfold mem. simpl. unfold copy_page. by rewrite decide_False.
Qed.

Lemma made_same : same_pages (fun _ => False) s s'.
Proof.
  split; [apply (got_pools _ _ _ _ _ Hg)|]. intros a Ha _. split; [by rewrite made_live, Ha, orb_true_r|].
  intros x. by apply made_mem.
Qed.

Lemma made_pde i : 0 <= i < 1024 -> pde s' pd i = pde s init i.
Proof.
  intros Hi. destruct (kd_page _ _ Hkd) as (_ & Hl & _). fold init in Hl. unfold pde, read_u32.
  assert (forall k, 0 <= k < 4 -> mem s' (pd + 4 * i + k) = mem s (init + 4 * i + k)) as E.
  { intros k Hk. unfold mem at 1. simpl. unfold copy_page. rewrite decide_True by (unfold PGSIZE; lia).
    replace (init + (pd + 4 * i + k - pd)) with (init + 4 * i + k) by lia.
    apply (made_out init); [done|unfold PGSIZE; lia]. }
  pose proof (E 0 ltac:(lia)) as E0. rewrite !Z.add_0_r in E0. rewrite E0, !E by lia. done.
Qed.

Lemma made_table i : 0 <= i < 1024 -> table s' pd i = table s init i.
Proof. intros Hi. unfold table. by rewrite made_pde. Qed.

Lemma made_spaces : spaces s' P /\ forall t va, P t <> 0 -> in_u32 va -> mapping s' (P t) va = mapping s (P t) va.
Proof. apply (spaces_frame (fun _ => False)); [done|apply made_same|tauto]. Qed.

Lemma made_pdes t i : P t <> 0 -> 0 <= i < 1024 -> pde s' (P t) i = pde s (P t) i.
Proof. intros Ht Hi. eapply frame_pde; [by apply (ss_space _ _ Hss)|apply made_same|tauto|done]. Qed.

Lemma made_spared : spared P s s'.
Proof. eapply spared_pdes; [apply made_same|tauto|intros; by apply made_pdes]. Qed.

Lemma made_newborn : newborn s' P pd.
Proof.
  destruct (got_pools _ _ _ _ _ Hg) as [Ek _].
  assert (live (pg_pa s') pd = true) as Hl.
  { rewrite made_live. unfold is_page. rewrite (proj2 (Z.leb_le _ _)), (proj2 (Z.ltb_lt _ _)), (proj2 (Z.eqb_eq _ _)); [done|apply pd_mod|unfold PGSIZE; lia|lia]. }
  assert (forall t, P t <> 0 -> ~ uses s' (P t) pd) as Hapart.
  { intros t Ht Hu. apply (uses_pdes s s') in Hu; [|intros; by apply made_pdes].
    apply (uses_live s) in Hu; [|by apply (ss_space _ _ Hss)]. rewrite pd_fresh in Hu. done. }
  assert (forall i, 0 <= i < 1024 -> pde s' pd i <> 0 -> bystander s' P (table s' pd i) /\ page_u8 (mem s') (table s' pd i) /\ 768 <= i) as Htab.
  { intros i Hi. rewrite made_pde, made_table by done. intros Hne. destruct (decide (i < 768)); [by rewrite (kd_user _ _ Hkd) in Hne by lia|].
    destruct (kd_tables _ _ Hkd i) as [Hb H8]; [lia|done|]. fold init in Hb, H8. split_and!; [by apply made_spared| |lia].
    intros k Hk. rewrite (proj1 (proj2 (made_spared _ Hb))) by lia. by apply H8. }
  assert (bystander s' P pd) as Hby.
  { split_and!; [simpl; rewrite Ek; apply pd_kernel|done|]. intros t Ht Ho. apply (Hapart t Ht). by apply owns_uses. }
  split; [split; [split|..]|..]; try done.
  - intros i Hi Hne. destruct (Htab i Hi Hne) as ((_ & ? & _) & _). split; [done|]. rewrite made_table by done.
    rewrite made_pde in Hne by done. destruct (kd_tables _ _ Hkd i) as [(_ & Hlt & _) _]; [|done|].
    { destruct (decide (i < 768)); [by rewrite (kd_user _ _ Hkd) in Hne by lia|lia]. }
    fold init in Hlt. by apply live_apart.
  - intros i j Hi Hj Hni Hnj. destruct (Htab i Hi Hni) as (_ & _ & ?). destruct (Htab j Hj Hnj) as (_ & _ & ?).
    rewrite !made_table by done. rewrite made_pde in Hni, Hnj by done. apply (kd_inj _ _ Hkd); (done || lia).
  - intros a [->|(i & Hi & Hne & ->)]; [apply Hby|]. by destruct (Htab i Hi Hne) as ((? & _) & _).
  - intros i Hi Hne. by apply (Htab i Hi Hne).
  - intros i Hi. rewrite made_pde by lia. by apply (kd_user _ _ Hkd).
  - intros i Hi Hne. by apply (Htab i Hi Hne).
Qed.

Lemma made_kernel_dir : kernel_dir s' P.
Proof.
  pose proof made_spared as Hsp. assert (forall i, 0 <= i < 1024 -> pde s' init i = pde s init i) as Ep.
  { intros i Hi. apply read_u32_frame. intros x Hx. apply (Hsp init (kd_page _ _ Hkd)). unfold PGSIZE. lia. }
  assert (forall i, 0 <= i < 1024 -> table s' init i = table s init i) as Et by (intros; unfold table; by rewrite Ep).
  split; change (INIT_PAGE_DIR s') with init.
  - apply Hsp, Hkd.
  - intros i Hi. rewrite Ep by lia. by apply (kd_user _ _ Hkd).
  - intros i Hi. rewrite Ep, Et by lia. intros Hne. destruct (kd_tables _ _ Hkd i Hi Hne) as [Hb H8]. split; [by apply Hsp|].
    intros k Hk. fold init in Hb, H8 |- *. rewrite (proj1 (proj2 (Hsp _ Hb))) by lia. by apply H8.
  - intros i j Hi Hj. rewrite !Ep, !Et by lia. by apply (kd_inj _ _ Hkd).
Qed.
End made.

(** What the new directory does to the rest. *)
Record created (pd : Z) (s' : Paging) : Prop := {
  cr_spaces : spaces s' P;
  cr_newborn : newborn s' P pd;
  cr_kernel : kernel_dir s' P;
  cr_same : same_pages (fun _ => False) s s';
  cr_map : forall t va, P t <> 0 -> in_u32 va -> mapping s' (P t) va = mapping s (P t) va;
  cr_pdes : forall t i, P t <> 0 -> 0 <= i < 1024 -> pde s' (P t) i = pde s (P t) i;
  cr_live : forall a, live (pg_pa s') a = is_page pd 1 a || live (pg_pa s) a;
}.

Lemma wp_create_pd (Q : Z -> Paging -> Prop) :
  (exhausted ZERO 1 (pg_pa s) -> Q 0 s) -> (forall pd s', pd <> 0 -> created pd s' -> Q pd s') -> wp create s Q.
Proof.
  intros H0 HQ. pose proof (proj1 (pl_paging _ (ss_pools _ _ Hss))) as Hpa.
  pose proof (get_multiple_spec ZERO 1 (pg_pa s) Hpa ltac:(done)) as Hg.
  unfold create. apply wp_bind. unfold wp at 1, on_pa, zoom, Palloc.get_page.
  destruct (get_multiple ZERO 1 (pg_pa s)) as [pd pa'|w| |]; try done; [|by destruct Hg].
  destruct Hg as [(-> & -> & Hex)|Hg].
  - replace (with_pa (pg_pa s) s) with s by (by destruct s). by apply wp_ret, H0.
  - destruct (got_pos _ _ _ _ _ Hg) as [Hpos _]. rewrite (proj2 (Z.eqb_neq _ _)) by lia.
    apply wp_bind, wp_gets, wp_bind, wp_modify, wp_ret, HQ; [lia|]. destruct (made_spaces pd pa' Hg) as [Hs Hm].
    split; [done|by apply made_newborn|by apply made_kernel_dir|by apply made_same|done|by apply made_pdes|by apply made_live].
Qed.
End create.
