(* ===== verification/FrameTable.v ===== *)
(** The frame table and its index (src/vm/frame.rs): [KPAGE_INDEX] is the inverse of
    [FRAME_TABLE] after every operation on them. *)
From S2P Require Import Prelude Block Bio FreeMap Inode Memory Palloc Thread Pagedir Swap Vm.

(** [ix] maps the page of every entry of [ft] to the entry's position, and nothing else. *)
Definition ix_ok (ft : list FrameEntry) (ix : gmap Z Z) : Prop :=
  forall k i, ix !! k = Some i <-> 0 <= i /\ kpage <$> ft !! Z.to_nat i = Some k.

Lemma ix_ok_unique ft ix i j e e' :
  ix_ok ft ix -> ft !! i = Some e -> ft !! j = Some e' -> kpage e = kpage e' -> i = j.
Proof.
  intros Hix Hi Hj E.
  assert (ix !! kpage e = Some (Z.of_nat i)) as H1 by (apply Hix; rewrite Nat2Z.id, Hi; split; [lia|done]).
  assert (ix !! kpage e = Some (Z.of_nat j)) as H2
    by (apply Hix; rewrite Nat2Z.id, Hj, E; split; [lia|done]).
  rewrite H1 in H2. simplify_eq. lia.
Qed.

Lemma ix_ok_nodup ft ix : ix_ok ft ix -> NoDup (kpage <$> ft).
Proof.
  intros Hix. apply NoDup_alt. intros i j k. rewrite !list_lookup_fmap.
  intros (e & He & ->)%fmap_Some (e' & He' & Ek)%fmap_Some. eapply ix_ok_unique; eauto.
Qed.

Lemma ix_ok_app ft ix e :
  ix_ok ft ix -> kpage e ∉ kpage <$> ft -> ix_ok (ft ++ [e]) (<[kpage e := Z.of_nat (List.length ft)]> ix).
Proof.
  intros Hix Hnew k i. destruct (decide (k = kpage e)) as [->|Hne].
  - rewrite lookup_insert_eq. split.
    + intros [= <-]. split; [lia|]. by rewrite Nat2Z.id, list_lookup_middle.
    + intros [Hi Hl]. destruct (decide (Z.to_nat i < List.length ft)%nat) as [Hlt|Hge].
      * rewrite lookup_app_l in Hl by done. destruct Hnew. apply list_elem_of_lookup. exists (Z.to_nat i).
        by rewrite list_lookup_fmap.
      * rewrite lookup_app_r in Hl by lia. apply fmap_Some in Hl as (x & Hx & _).
        apply list_lookup_singleton_Some in Hx as [Hx _]. f_equal. lia.
  - rewrite lookup_insert_ne by done. rewrite (Hix k i). split; intros [Hi Hl]; (split; [done|]).
    + apply fmap_Some in Hl as (x & Hx & ->). by rewrite (lookup_app_l_Some _ _ _ _ Hx).
    + apply fmap_Some in Hl as (x & Hx & ->). apply lookup_app_Some in Hx as [->|[_ Hx]]; [done|].
      apply list_lookup_singleton_Some in Hx as [_ <-]. done.
Qed.

Lemma reindex_other ft : forall i ix k, k ∉ kpage <$> ft -> reindex i ft ix !! k = ix !! k.
Proof.
  induction ft as [|e ft IH]; intros i ix k Hk; [done|]. simpl in *. apply not_elem_of_cons in Hk as [Hne Hk].
  rewrite IH by done. by rewrite lookup_insert_ne.
Qed.

Lemma reindex_at ft : forall i ix j e,
  NoDup (kpage <$> ft) -> ft !! j = Some e -> reindex i ft ix !! kpage e = Some (i + Z.of_nat j).
Proof.
  induction ft as [|x ft IH]; intros i ix j e Hnd Hj; [done|]. simpl in *. apply NoDup_cons in Hnd as [Hx Hnd].
  destruct j as [|j].
  - injection Hj as ->. rewrite reindex_other by done. rewrite lookup_insert_eq. f_equal. lia.
  - simpl in Hj. rewrite (IH (i + 1) _ j e Hnd Hj). f_equal. lia.
Qed.

(** Removing entry [h] and reindexing the entries after it. *)
Lemma ix_ok_delete ft ix h e :
  ix_ok ft ix -> ft !! h = Some e ->
  let ft' := delete h ft in
  ix_ok ft' (reindex (Z.of_nat h) (drop h ft') (delete (kpage e) ix)).
Proof.
  intros Hix He ft'. pose proof (ix_ok_nodup _ _ Hix) as Hnd. pose proof (lookup_lt_Some _ _ _ He) as Hlt.
  assert (NoDup (kpage <$> drop h ft')) as Hnd'.
  { eapply sublist_NoDup; [exact Hnd|]. apply fmap_sublist. etrans; [apply sublist_drop|apply sublist_delete]. }
  assert (forall j x, ft' !! j = Some x <-> ft !! (if decide (j < h)%nat then j else S j) = Some x) as Hd.
  { intros j x. unfold ft'. destruct (decide (j < h)%nat); [by rewrite list_lookup_delete_lt|].
    by rewrite list_lookup_delete_ge by lia. }
  intros k i. destruct (decide (k ∈ kpage <$> drop h ft')) as [Hin|Hout].
  - apply list_elem_of_fmap in Hin as (x & -> & (j & Hj)%list_elem_of_lookup).
    rewrite (reindex_at _ _ _ j x) by done. rewrite lookup_drop in Hj. split.
    + intros [= <-]. split; [lia|]. replace (Z.to_nat _) with (h + j)%nat by lia. by rewrite Hj.
    + intros [Hi Hl]. apply fmap_Some in Hl as (y & Hy & Ey). f_equal.
      apply Hd in Hj, Hy. pose proof (ix_ok_unique _ _ _ _ _ _ Hix Hj Hy Ey). repeat case_decide; lia.
  - rewrite reindex_other by done. rewrite lookup_delete_Some, (Hix k i). split.
    + intros (Hne & Hi & Hl). split; [done|]. apply fmap_Some in Hl as (x & Hx & ->).
      assert (Z.to_nat i < h)%nat as Hlh.
      { destruct (decide (Z.to_nat i < h)%nat); [done|]. destruct (decide (Z.to_nat i = h)); [congruence|].
        destruct Hout. apply list_elem_of_fmap. exists x. split; [done|]. apply list_elem_of_lookup.
        exists (Z.to_nat i - h - 1)%nat. rewrite lookup_drop. apply Hd. rewrite decide_False by lia.
        by replace (S (h + (Z.to_nat i - h - 1)))%nat with (Z.to_nat i) by lia. }
      assert (ft' !! Z.to_nat i = Some x) as -> by (apply Hd; by rewrite decide_True by done). done.
    + intros (Hi & Hl). apply fmap_Some in Hl as (x & Hx & ->). pose proof Hx as Hx'. apply Hd in Hx'.
      destruct (decide (Z.to_nat i < h)%nat) as [Hlh|Hge].
      * split_and!; [|done|by rewrite Hx']. intros E. pose proof (ix_ok_unique _ _ _ _ _ _ Hix He Hx' E). lia.
      * destruct Hout. apply list_elem_of_fmap. exists x. split; [done|]. apply list_elem_of_lookup.
        exists (Z.to_nat i - h)%nat. rewrite lookup_drop. by replace (h + (Z.to_nat i - h))%nat with (Z.to_nat i) by lia.
Qed.

Lemma swap_remove_lookup i ft j :
  (i < List.length ft)%nat ->
  swap_remove i ft !! j =
    if decide (S j < List.length ft)%nat then (if decide (j = i) then last ft else ft !! j) else None.
Proof.
  intros Hi. unfold swap_remove. destruct (last ft) as [e|] eqn:E.
  2:{ apply last_None in E as ->. simpl in Hi. lia. }
  destruct (decide (S j < List.length ft)%nat).
  - rewrite lookup_take_lt by lia. destruct (decide (j = i)) as [->|]; [by rewrite list_lookup_insert_eq|].
    by rewrite list_lookup_insert_ne by done.
  - by rewrite lookup_take_ge by lia.
Qed.

(** [Vec::swap_remove], with the moved entry indexed again. *)
Lemma ix_ok_swap_remove ft ix i e :
  ix_ok ft ix -> ft !! i = Some e ->
  let ft' := swap_remove i ft in
  ix_ok ft' (match ft' !! i with
             | Some x => <[kpage x := Z.of_nat i]> (delete (kpage e) ix)
             | None => delete (kpage e) ix
             end).
Proof.
  intros Hix He ft'. pose proof (lookup_lt_Some _ _ _ He) as Hlt.
  assert (forall j x, ft' !! j = Some x <-> (S j < List.length ft)%nat /\ ft !! (if decide (j = i) then (List.length ft - 1)%nat else j) = Some x) as Hl.
  { intros j x. unfold ft'. rewrite swap_remove_lookup by done. rewrite last_lookup, <- Nat.sub_1_r.
    destruct (decide (S j < List.length ft)%nat); [|split; [done|by intros [? _]]]. case_decide; (split; [done|by intros [_ ?]]). }
  intros k z. destruct (ft' !! i) as [x|] eqn:Ex.
  - pose proof Ex as Ex'. apply Hl in Ex' as [Hin Hx]. rewrite decide_True in Hx by done.
    destruct (decide (k = kpage x)) as [->|Hne].
    + rewrite lookup_insert_eq. split.
      * intros [= <-]. split; [lia|]. by rewrite Nat2Z.id, Ex.
      * intros [Hz (y & Hy & Ey)%fmap_Some]. apply Hl in Hy as [Hzl Hy].
        pose proof (ix_ok_unique _ _ _ _ _ _ Hix Hx Hy Ey). case_decide; [f_equal|]; lia.
    + rewrite lookup_insert_ne, lookup_delete_Some, (Hix k z) by done. split.
      * intros (Hke & Hz & (y & Hy & ->)%fmap_Some). split; [done|].
        assert (Z.to_nat z <> i) as Hzi by congruence. pose proof (lookup_lt_Some _ _ _ Hy) as Hyl.
        assert (Z.to_nat z <> List.length ft - 1)%nat as Hzl by congruence.
        assert (ft' !! Z.to_nat z = Some y) as ->; [|done]. apply Hl. rewrite decide_False by done. split; [lia|done].
      * intros (Hz & (y & Hy & ->)%fmap_Some). pose proof Hy as Hy'. apply Hl in Hy' as [Hzl Hy'].
        case_decide as Hzi; [exfalso; congruence|]. split_and!; [|done|by rewrite Hy'].
        intros E. pose proof (ix_ok_unique _ _ _ _ _ _ Hix He Hy' E). lia.
  - assert (i = List.length ft - 1)%nat as Hil.
    { destruct (decide (S i < List.length ft)%nat); [|lia].
      destruct (lookup_lt_is_Some_2 ft (List.length ft - 1)) as [y Hy]; [lia|].
      assert (ft' !! i = Some y) as E; [apply Hl; by rewrite decide_True by done|congruence]. }
    rewrite lookup_delete_Some, (Hix k z). split.
    + intros (Hke & Hz & (y & Hy & ->)%fmap_Some). split; [done|]. pose proof (lookup_lt_Some _ _ _ Hy) as Hyl.
      assert (Z.to_nat z <> i) as Hzi by congruence.
      assert (ft' !! Z.to_nat z = Some y) as ->; [|done]. apply Hl. rewrite decide_False by done. split; [lia|done].
    + intros (Hz & (y & Hy & ->)%fmap_Some). apply Hl in Hy as [Hzl Hy]. rewrite decide_False in Hy by lia.
      split_and!; [|done|by rewrite Hy]. intros E. pose proof (ix_ok_unique _ _ _ _ _ _ Hix He Hy E). lia.
Qed.

(** Marking entries does not move them. *)
Lemma ix_ok_kpages ft ft' ix : kpage <$> ft' = kpage <$> ft -> ix_ok ft ix -> ix_ok ft' ix.
Proof. intros E Hix k i. by rewrite (Hix k i), <- !list_lookup_fmap, E. Qed.

Lemma ix_ok_empty : ix_ok [] ∅.
Proof. intros k i. rewrite lookup_empty, lookup_nil. by split; [|intros [_ ?]]. Qed.
