(* ===== verification/VmMem.v ===== *)
(** Frames and address spaces together: which frame backs which page, and how the operations on
    memory and page tables keep that relation. *)
From S2P Require Import Prelude Memory Palloc Thread Pagedir Swap Spaces Vm FrameTable.

(** ** The directory of a thread *)
Definition has_tid (k : Sched) (id t : Z) : bool := from_option (fun th => tid th =? id) false (threads k !! t).

(** The page directory [get_pagedir_by_tid] finds, 0 if there is none. *)
Definition pd_of (k : Sched) (id : Z) : Z :=
  from_option (fun t => from_option pagedir 0 (threads k !! t)) 0 (List.find (has_tid k id) (ALL_LIST k)).

Lemma wp_get_pagedir_by_tid id k (Q : Z -> Sched -> Prop) :
  (forall t, t ∈ ALL_LIST k -> is_Some (threads k !! t)) -> Q (pd_of k id) k -> wp (get_pagedir_by_tid id) k Q.
Proof.
  intros Hall HQ. unfold get_pagedir_by_tid, scan_all, pd_of in *. apply wp_bind, wp_bind, wp_gets.
  revert Hall HQ. generalize (ALL_LIST k) as l. induction l as [|t l IH]; intros Hall HQ; [by apply wp_ret, wp_ret|].
  destruct (Hall t) as [th Hth]; [by left|]. simpl in *.
  assert (deref t k = Ok th k) as Ed by (unfold deref; by rewrite Hth).
  apply wp_bind, wp_bind. unfold wp at 1. rewrite Ed. simpl. apply wp_ret.
  assert (has_tid k id t = (tid th =? id)) as Eh by (unfold has_tid; by rewrite Hth). rewrite Eh in HQ.
  destruct (tid th =? id).
  - apply wp_ret, wp_ret. simpl in HQ. by rewrite Hth in HQ.
  - apply IH; [|done]. intros t' Ht'. apply Hall. by right.
Qed.

(** ** Frames *)

(** The kernel address of the frame an entry points to. *)
Definition frame_addr (pte : Z) : Z := PHYS_BASE + Z.land pte PTE_ADDR.

Definition user_page (va : Z) : Prop := 0 <= va < PHYS_BASE /\ va mod PGSIZE = 0.

(** A page of the user pool that is in use. *)
Definition user_frame (s : Paging) (a : Z) : Prop :=
  in_pool (USER_POOL (pg_pa s)) a = true /\ live (pg_pa s) a = true.

Record frame_ok (s : Paging) (e : FrameEntry) : Prop := {
  fr_user : user_frame s (kpage e);
  fr_u8 : page_u8 (mem s) (kpage e);
  fr_page : user_page (upage e);
}.

(** Every user mapping of every process is backed by the frame entry of that process and page. *)
Definition backed (s : Paging) (P : Z -> Z) (ft : list FrameEntry) : Prop :=
  forall t va pte, P t <> 0 -> user_page va -> mapping s (P t) va = Some pte ->
    exists e, e ∈ ft /\ kpage e = frame_addr pte /\ upage e = va /\ owner_tid e = t.

Record mem_ok (s : Paging) (P : Z -> Z) (ft : list FrameEntry) : Prop := {
  mo_spaces : spaces s P;
  mo_frames : forall e, e ∈ ft -> frame_ok s e;
  mo_backed : backed s P ft;
}.

Lemma user_page_u32 va : user_page va -> in_u32 va.
Proof. intros [? _]. by apply user_va. Qed.

Lemma user_page_eq va va' : user_page va -> user_page va' -> va / PGSIZE = va' / PGSIZE -> va = va'.
Proof. unfold user_page, PGSIZE. intros [_ ?] [_ ?] ?. Z.div_mod_to_equations. lia. Qed.

Lemma user_frame_kernel_page s a : pools_ok s -> user_frame s a -> kernel_page a.
Proof.
  intros [[Hpa _] Hu] [Hin Hl]. destruct (live_page _ _ Hpa Hl) as (_ & Hm & Hlim & _).
  unfold in_pool in Hin. rewrite !andb_true_iff, Z.leb_le in Hin. split; [|done]. unfold PGSIZE in *. lia.
Qed.

Lemma user_frame_addr s a w : pools_ok s -> user_frame s a -> frame_addr (user_pte a w) = a.
Proof.
  intros Hp Ha. destruct (user_pte_ok a w (user_frame_kernel_page _ _ Hp Ha)) as (_ & E & _).
  unfold frame_addr. rewrite E. lia.
Qed.

(** *** Changes of memory that keep the user pages outside [X] *)
Lemma frame_ok_same X s s' e : same_pages X s s' -> ~ X (kpage e) -> frame_ok s e -> frame_ok s' e.
Proof.
  intros [[_ Eu] H] HX [[Hin Hl] H8 Hp]. destruct (H _ Hl HX) as [Hl' Hm]. split; [split; [by rewrite Eu|done]| |done].
  intros k Hk. rewrite Hm by lia. by apply H8.
Qed.

Lemma kernel_not_user s e : pools_ok s -> frame_ok s e -> in_pool (KERNEL_POOL (pg_pa s)) (kpage e) <> true.
Proof. intros [[Hpa _] _] [[Hin _] _ _] Hk. by apply (pool_apart s (kpage e) (kpage e)). Qed.

(** A new entry for a page of a process that is not present, or that a frame of the table backs. *)
Lemma mem_ok_upd s s' P ft t va w :
  mem_ok s P ft -> user_page va -> pte_upd P t va w s s' ->
  (Z.land w PTE_P <> 0 -> exists e, e ∈ ft /\ kpage e = frame_addr w /\ upage e = va /\ owner_tid e = t) ->
  mem_ok s' P ft.
Proof.
  intros [Hs Hf Hb] Hva Hu Hw. split.
  - apply (pu_spaces _ _ _ _ _ _ Hu).
  - intros e He. eapply frame_ok_same; [apply (pu_user _ _ _ _ _ _ Hu)| |by apply Hf].
    apply kernel_not_user; [apply Hs|by apply Hf].
  - intros t' va' pte Ht' Hva'. rewrite (pu_map _ _ _ _ _ _ Hu) by (done || by apply user_page_u32).
    case_decide as Hd; [|by apply Hb]. destruct Hd as [-> Hd]. apply user_page_eq in Hd as ->; [|done..].
    destruct (Z.eqb_spec (Z.land w PTE_P) 0); [done|]. intros [= <-]. by apply Hw.
Qed.

(** A change of one page of the user pool. *)
Lemma mem_ok_user s s' P ft kp :
  mem_ok s P ft -> same_pages (fun a => a = kp) s s' -> in_pool (USER_POOL (pg_pa s)) kp = true ->
  (forall e, e ∈ ft -> kpage e = kp -> frame_ok s' e) ->
  mem_ok s' P ft /\ forall t va, P t <> 0 -> in_u32 va -> mapping s' (P t) va = mapping s (P t) va.
Proof.
  intros [Hs Hf Hb] Hsame Hkp Hfx.
  destruct (spaces_user s s' P Hs) as [Hs' Hm]; [by eapply same_pages_weaken; [|done]; intros a ->|].
  split; [split|done].
  - done.
  - intros e He. destruct (decide (kpage e = kp)); [by apply Hfx|]. eapply frame_ok_same; [done|done|by apply Hf].
  - intros t va pte Ht Hva. rewrite Hm by (done || by apply user_page_u32). by apply Hb.
Qed.

Lemma mem_ok_app s P ft e : mem_ok s P ft -> frame_ok s e -> mem_ok s P (ft ++ [e]).
Proof.
  intros [Hs Hf Hb] He. split; [done| |].
  - intros x [Hx| ->%list_elem_of_singleton]%elem_of_app; [by apply Hf|done].
  - intros t va pte Ht Hva Hm. destruct (Hb t va pte Ht Hva Hm) as (x & Hx & ?). exists x.
    split; [apply elem_of_app; by left|done].
Qed.

(** Dropping an entry that backs no mapping. *)
Lemma mem_ok_drop s P ft ft' :
  mem_ok s P ft -> (forall e, e ∈ ft' -> e ∈ ft) ->
  (forall e, e ∈ ft -> e ∈ ft' \/ forall t va pte, P t <> 0 -> user_page va ->
     mapping s (P t) va = Some pte -> frame_addr pte <> kpage e) ->
  mem_ok s P ft'.
Proof.
  intros [Hs Hf Hb] Hsub Hkeep. split; [done| |].
  - intros e He. by apply Hf, Hsub.
  - intros t va pte Ht Hva Hm. destruct (Hb t va pte Ht Hva Hm) as (e & He & Ek & Eu).
    destruct (Hkeep e He) as [He'|Hno]; [by exists e|]. by destruct (Hno t va pte Ht Hva Hm).
Qed.

(** *** Writes to a frame *)
Lemma poke_same_pages s kp m :
  pools_ok s -> user_frame s kp -> (forall x, ~ (kp <= x < kp + PGSIZE) -> m x = mem s x) ->
  same_pages (fun a => a = kp) s (with_pa (with_mem m (pg_pa s)) s).
Proof.
  intros [[Hpa _] _] [Hin Hl] Hf. destruct (live_page _ _ Hpa Hl) as (_ & Hm & _ & Hb).
  split; [done|]. intros a Ha Hne. split.
  - transitivity (live (pg_pa s) a); [|done]. apply live_frame; [done..|].
    intros x Hx. apply Hf. intros Hin'. by apply (Hb x).
  - intros x Hx. apply Hf. intros Hin'. destruct (live_page _ _ Hpa Ha) as (_ & Ham & _).
    by apply (pages_apart a kp x x).
Qed.

Lemma poke_live s kp m a :
  pools_ok s -> user_frame s kp -> (forall x, ~ (kp <= x < kp + PGSIZE) -> m x = mem s x) ->
  live (pg_pa (with_pa (with_mem m (pg_pa s)) s)) a = live (pg_pa s) a.
Proof.
  intros [[Hpa _] _] [_ Hl] Hf. destruct (live_page _ _ Hpa Hl) as (_ & _ & _ & Hb).
  apply live_frame; [done..|]. intros x Hx. apply Hf. intros Hin'. by apply (Hb x).
Qed.

Lemma poke_user_frame s kp m a :
  pools_ok s -> user_frame s kp -> (forall x, ~ (kp <= x < kp + PGSIZE) -> m x = mem s x) ->
  user_frame s a -> user_frame (with_pa (with_mem m (pg_pa s)) s) a.
Proof.
  intros Hp Hkp Hf [Hia Hla]. split; [done|]. by rewrite (poke_live s kp).
Qed.

(** *** The page allocator *)
Lemma got_same_pages s flags kp pa' :
  pa_ok (pg_pa s) -> got flags 1 (pg_pa s) kp pa' -> same_pages (fun _ => False) s (with_pa pa' s).
Proof.
  intros Hpa Hg. split; [apply (got_pools _ _ _ _ _ Hg)|]. intros a Ha _. split.
  - simpl. by rewrite (got_live _ _ _ _ _ Hg), Ha, orb_true_r.
  - intros x Hx. destruct (live_page _ _ Hpa Ha) as (_ & Ham & _ & Hb). destruct (got_pos _ _ _ _ _ Hg) as [_ Hkm].
    apply (got_frame _ _ _ _ _ Hg); [by apply Hb|]. intros _ Hin.
    apply (pages_apart a kp x x); try done. intros ->.
    rewrite (got_fresh _ _ _ _ _ Hg) in Ha; [done|]. unfold is_page.
    rewrite !andb_true_iff, Z.leb_le, Z.ltb_lt, Z.eqb_eq. unfold PGSIZE in *. lia.
Qed.

Lemma is_page_self kp : kp mod PGSIZE = 0 -> is_page kp 1 kp = true.
Proof. intros H. unfold is_page. rewrite !andb_true_iff, Z.leb_le, Z.ltb_lt, Z.eqb_eq. unfold PGSIZE in *. lia. Qed.

Lemma is_page_one kp a : a mod PGSIZE = 0 -> kp mod PGSIZE = 0 -> is_page kp 1 a = true -> a = kp.
Proof.
  unfold is_page. rewrite !andb_true_iff, Z.leb_le, Z.ltb_lt, Z.eqb_eq. unfold PGSIZE. intros ??. Z.div_mod_to_equations. lia.
Qed.

Lemma in_pool_mod p a : in_pool p a = true -> a mod PGSIZE = 0.
Proof. unfold in_pool. rewrite !andb_true_iff, Z.eqb_eq. tauto. Qed.

Lemma got_user_frame s flags kp pa' :
  contains flags USER = true -> got flags 1 (pg_pa s) kp pa' ->
  user_frame (with_pa pa' s) kp /\ live (pg_pa s) kp = false.
Proof.
  intros Hfl Hg. destruct (got_pos _ _ _ _ _ Hg) as [_ Hkm]. pose proof (got_pool _ _ _ _ _ Hg) as [Hb He].
  unfold pool_of in Hb, He. rewrite Hfl in Hb, He. destruct (got_pools _ _ _ _ _ Hg) as [_ Eu].
  split; [split|]; simpl.
  - rewrite Eu. unfold in_pool. rewrite !andb_true_iff, Z.leb_le, Z.ltb_lt, Z.eqb_eq. unfold PGSIZE in *. lia.
  - by rewrite (got_live _ _ _ _ _ Hg), is_page_self.
  - apply (got_fresh _ _ _ _ _ Hg). by apply is_page_self.
Qed.

(** [get_page] for a zeroed user page. *)
Lemma wp_get_user_page s (Q : Z -> Paging -> Prop) :
  pa_ok (pg_pa s) ->
  (exhausted (Z.lor USER ZERO) 1 (pg_pa s) -> Q 0 s) ->
  (forall kp s', kp <> 0 -> same_pages (fun _ => False) s s' -> user_frame s' kp -> live (pg_pa s) kp = false ->
     (forall k, 0 <= k < PGSIZE -> mem s' (kp + k) = 0) ->
     (forall a, live (pg_pa s') a = is_page kp 1 a || live (pg_pa s) a) -> Q kp s') ->
  wp (on_pa (Palloc.get_page (Z.lor USER ZERO))) s Q.
Proof.
  intros Hpa H0 HQ. pose proof (get_multiple_spec (Z.lor USER ZERO) 1 (pg_pa s) Hpa ltac:(done)) as Hg.
  unfold wp, on_pa, zoom, Palloc.get_page. destruct (get_multiple (Z.lor USER ZERO) 1 (pg_pa s)) as [kp pa'|w| |]; try done.
  2:{ by destruct Hg. }
  destruct Hg as [(-> & -> & Hex)|Hg].
  - replace (with_pa (pg_pa s) s) with s by (by destruct s). by apply H0.
  - destruct (got_user_frame s (Z.lor USER ZERO) kp pa' eq_refl Hg) as [Hu Hf]. apply HQ; [|by eapply got_same_pages|done|done| |apply (got_live _ _ _ _ _ Hg)].
    + pose proof (got_pos _ _ _ _ _ Hg). lia.
    + intros k Hk. apply (got_zero _ _ _ _ _ Hg); [done|]. unfold PGSIZE in *. lia.
Qed.

(** [free_page] of a page of either pool. *)
Lemma wp_free_pool_page flags s kp (Q : unit -> Paging -> Prop) :
  pa_ok (pg_pa s) -> in_pool (pool_of flags (pg_pa s)) kp = true ->
  (forall s', same_pages (fun a => a = kp) s s' -> live (pg_pa s') kp = false -> INIT_PAGE_DIR s' = INIT_PAGE_DIR s -> Q tt s') ->
  wp (on_pa (free_page kp)) s Q.
Proof.
  intros Hpa Hin HQ. pose proof Hin as Hm%in_pool_mod.
  pose proof Hin as Hin'. unfold in_pool in Hin'. rewrite !andb_true_iff, Z.leb_le, Z.ltb_lt in Hin'.
  unfold on_pa, free_page. apply wp_zoom. eapply wp_mono; [apply (wp_free_multiple flags kp 1)|].
  - done.
  - done.
  - lia.
  - done.
  - pose proof (po_align _ (pool_of_ok flags _ Hpa)). unfold pool_end, PGSIZE in *. Z.div_mod_to_equations. lia.
  - intros [] pa' (Hpa' & Hlv & Hmem & Ek & Eu). apply HQ.
    + split; [done|]. intros a Ha Hne. destruct (live_page _ _ Hpa Ha) as (_ & Ham & _ & Hb). split.
      * simpl. rewrite Hlv, Ha, andb_true_r. destruct (is_page kp 1 a) eqn:E; [|done]. by apply is_page_one in E.
      * intros x Hx. apply Hmem. by apply Hb.
    + simpl. by rewrite Hlv, is_page_self.
    + done.
Qed.

Lemma wp_free_user_page s kp (Q : unit -> Paging -> Prop) :
  pa_ok (pg_pa s) -> user_frame s kp ->
  (forall s', same_pages (fun a => a = kp) s s' -> live (pg_pa s') kp = false -> Q tt s') ->
  wp (on_pa (free_page kp)) s Q.
Proof. intros Hpa [Hin _] HQ. apply (wp_free_pool_page USER); [done|done|]. intros s' ?? _. by apply HQ. Qed.
