(* ===== verification/VmDisk.v ===== *)
(** The file system and the swap area on their devices: each leaves the other's device alone. *)
From S2P Require Import Prelude Block Bio FreeMap Inode InodeOps FileMap InodeProofs Memory Swap SchedProofs.

Section disk.
Context {D : Type} `{!BlockOps D}.

(** *** File-system reads touch only the file-system device *)
Definition fs_only (r : Registry D) (st : BioState D) : Prop := same_others FileSys r (bio_reg st).

Lemma keeps_on_dev {A} r idx (m : M (BlockDevice D) A) :
  keeps (fun r' => same_others FileSys r r' /\ role_dev FileSys r' = Some idx) (on_dev idx m).
Proof.
  intros r' [Hs Hr]. unfold wlp, on_dev. destruct (DEVICES r' !! idx) as [d|] eqn:Hd; [|done].
  destruct (m d) as [a d'|w| |]; try done. split.
  - etrans; [exact Hs|]. split_and!; simpl; [done|by rewrite length_insert|].
    intros j Hj. rewrite list_lookup_insert_ne; [done|]. congruence.
  - unfold role_dev in *. simpl. by rewrite length_insert.
Qed.

Lemma keeps_dev_io {A} r (m : M (BlockDevice D) A) (x : A) :
  keeps (fs_only r) (let! dev := zoom bio_reg with_reg (get_role FileSys) in
    match dev with Some idx => zoom bio_reg with_reg (on_dev idx m) | None => ret x end).
Proof.
  intros st Hst. apply wlp_bind, wlp_zoom, wlp_gets. change (bio_reg _) with (bio_reg st).
  destruct (role_dev FileSys (bio_reg st)) as [idx|] eqn:E; [|by apply wlp_ret].
  apply wlp_zoom. eapply wlp_mono; [by apply (keeps_on_dev r)|]. by intros a r' [? _].
Qed.

Lemma keeps_cache r (f : BioState D -> BioState D) : (forall st, bio_reg (f st) = bio_reg st) -> keeps (fs_only r) (modify f).
Proof. intros H. apply keeps_modify. intros st. unfold fs_only. by rewrite H. Qed.

Lemma keeps_read_sector r s d : keeps (fs_only r) (read_sector s d).
Proof. apply keeps_dev_io. Qed.
Lemma keeps_write_sector r s d : keeps (fs_only r) (write_sector s d).
Proof. apply keeps_dev_io. Qed.
Lemma keeps_lock_acquire r : keeps (fs_only r) lock_acquire.
Proof. unfold lock_acquire. keeps_go. by apply keeps_cache. Qed.
Lemma keeps_lock_release r : keeps (fs_only r) lock_release.
Proof. unfold lock_release. keeps_go. by apply keeps_cache. Qed.
Lemma keeps_put_buf r i b : keeps (fs_only r) (put_buf i b).
Proof. by apply keeps_cache. Qed.
Lemma keeps_get_buf r i : keeps (fs_only r) (get_buf i).
Proof. unfold get_buf. keeps_go. Qed.
#[local] Hint Resolve keeps_read_sector keeps_write_sector keeps_lock_acquire keeps_lock_release
  keeps_put_buf keeps_get_buf : keeps.
Lemma keeps_bread r s : keeps (fs_only r) (bread s).
Proof. unfold bread. keeps_go. Qed.
Lemma keeps_brelse r i : keeps (fs_only r) (brelse i).
Proof. unfold brelse. keeps_go. Qed.
#[local] Hint Resolve keeps_bread keeps_brelse : keeps.
Lemma keeps_read_through r s : keeps (fs_only r) (read_through s).
Proof. unfold read_through, buf_get. keeps_go. Qed.

Definition files_only (r : Registry D) (fs : FS D) : Prop := fs_only r (fs_bio fs).
Lemma keeps_bio_read r s : keeps (files_only r) (bio (read_through s)).
Proof. by apply (keeps_zoom _ (fs_only r)); [| |apply keeps_read_through]. Qed.
Lemma keeps_ub {A} r w : keeps (files_only r) (ub (A := A) w).
Proof. by intros fs Hfs. Qed.
Lemma keeps_i32_sub r a b : keeps (files_only r) (i32_sub a b).
Proof. intros fs Hfs. apply keeps_if; [apply keeps_ret|apply keeps_panic|done]. Qed.
Lemma keeps_index {A} r (l : list A) i : keeps (files_only r) (index l i).
Proof. unfold index. keeps_go. Qed.
#[local] Hint Resolve keeps_bio_read keeps_ub keeps_i32_sub keeps_index : keeps.

Lemma keeps_read_inode r s : keeps (files_only r) (read_inode_disk s).
Proof. unfold read_inode_disk. keeps_go. Qed.
Lemma keeps_get_block r d i : keeps (files_only r) (get_block_sector_disk d i).
Proof. unfold get_block_sector_disk, ptr_read. keeps_go. Qed.
#[local] Hint Resolve keeps_read_inode keeps_get_block : keeps.
Lemma keeps_read_loop r fuel : forall disk len size n off pos buf,
  keeps (files_only r) (read_loop fuel disk len size n off pos buf).
Proof.
  induction fuel as [|fuel IH]; intros; simpl; [case_match; [by intros fs Hfs|keeps_go]|].
  unfold copy_into. keeps_go.
Qed.
#[local] Hint Resolve keeps_read_loop : keeps.
Lemma keeps_read_at r s buf size off : keeps (files_only r) (read_at s buf size off).
Proof. unfold read_at, length. keeps_go. Qed.

(** *** What the file system is does not depend on other devices *)
Lemma fs_same_dev `{!BlockLaws D} (fs fs' : FS D) :
  fs_dev (fs_bio fs') = fs_dev (fs_bio fs) -> bio_cache (fs_bio fs') = bio_cache (fs_bio fs) ->
  fs_fm fs' = fs_fm fs -> fs_inodes fs' = fs_inodes fs ->
  fs_ok fs -> fs_ok fs' /\ abs fs' = abs fs.
Proof.
  intros Hd Hc Hf Hi [[B1 B2 B3 B4 B5 B6 B7] Hm Hs Hl].
  assert (view (fs_bio fs') = view (fs_bio fs)) as Ev by (unfold view; by rewrite Hd).
  assert (bufs (fs_bio fs') = bufs (fs_bio fs)) as Eb by (unfold bufs; by rewrite Hc).
  split.
  - split; [split; rewrite ?Eb, ?Ev, ?Hd, ?Hc; done|by rewrite Hf| |by rewrite Hf].
    unfold fs_size in *. by rewrite Hd, Hf.
  - unfold abs. by rewrite Ev, Hf, Hi.
Qed.
End disk.
