(* ===== verification/VmInv.v ===== *)
(** The invariant of demand paging: frames, page tables, supplementary page tables, swap slots and
    files agree; and the abstract view of it, the contents of every user page. *)
From S2P Require Import Prelude Btree Block Bio FreeMap Inode InodeLayout FileMap InodeOps InodeProofs Memory Palloc Thread Pagedir Swap Spaces Vm FrameTable VmMem VmDisk.

Section inv.
Context {D : Type} `{!BlockOps D, !BlockLaws D}.
Implicit Types (v : VM D) (e : FrameEntry) (se : SptEntry).

Definition pds v : Z -> Z := pd_of (vm_sched v).
Definition frames v : list FrameEntry := default [] (FRAME_TABLE v).
Definition slots v : list bool := default [] (vm_bitmap v).
Definition reg v : Registry D := bio_reg (fs_bio (vm_fs v)).
Definition spt_at v (t page : Z) : option SptEntry := SPT_TABLE v !! t ≫= fun spt => spt !! page.

(** Who refers to a swap slot: the table entry of a page, or [SWAP_MAP]. *)
Definition holds v (h : (Z * Z) + (Z * Z)) (s : Z) : Prop :=
  match h with
  | inl (t, page) => exists se, spt_at v t page = Some se /\ location se = InSwap s
  | inr k => (SWAP_MAP v ≫= fun m => m !! k) = Some s
  end.

(** An entry describes a user page, its part of a file fits the page, and the page table for a
    page in swap exists. *)
Record spt_ok v (t page : Z) se : Prop := {
  se_page : user_page page;
  se_range : 0 <= page_ofs se /\ 0 <= read_bytes se /\ page_ofs se + read_bytes se <= PGSIZE;
  se_file : 0 < read_bytes se -> file_at (abs (vm_fs v)) (inode_sector se) /\ 0 <= file_offset se <= i32_max;
  se_table : forall s, location se = InSwap s -> pds v t <> 0 -> pde (vm_pg v) (pds v t) (pde_idx page) <> 0;
}.

Record vm_ok v : Prop := {
  vo_mem : mem_ok (vm_pg v) (pds v) (frames v);
  vo_all : forall t, t ∈ ALL_LIST (vm_sched v) -> is_Some (threads (vm_sched v) !! t);
  vo_cur : exists th, threads (vm_sched v) !! current (vm_sched v) = Some th /\
    List.find (has_tid (vm_sched v) (tid th)) (ALL_LIST (vm_sched v)) = Some (current (vm_sched v));
  vo_ft : FRAME_TABLE v = Some (frames v);
  vo_ix : exists ix, KPAGE_INDEX v = Some ix /\ ix_ok (frames v) ix;
  vo_clock : in_u32 (CLOCK_HAND v);
  vo_swap : swap_ok (slots v) (swap_view v);
  vo_fs : fs_ok (vm_fs v);
  vo_roles : role_dev Swap (reg v) <> role_dev FileSys (reg v);
  vo_map : is_Some (SWAP_MAP v);
  vo_spt : forall t page se, spt_at v t page = Some se -> spt_ok v t page se;
  vo_slots : forall h s, holds v h s -> 0 <= s /\ slots v !! Z.to_nat s = Some true;
  vo_own : forall h h' s, holds v h s -> holds v h' s -> h = h';
}.

(** Every frame of a process is mapped at its page. *)
Definition settled v : Prop :=
  forall e, e ∈ frames v -> pds v (owner_tid e) <> 0 ->
    exists pte, mapping (vm_pg v) (pds v (owner_tid e)) (upage e) = Some pte /\ frame_addr pte = kpage e.

(** ** The contents of user pages *)

(** Byte [k] of the page as the entry's file gives it, with zeros around the file's bytes. *)
Definition backing_byte v se (k : Z) : Z :=
  let n := Z.min (read_bytes se) (flen (abs (vm_fs v)) (inode_sector se) - file_offset se) in
  if decide (page_ofs se <= k < page_ofs se + n)
  then contents (abs (vm_fs v)) (inode_sector se) (file_offset se + (k - page_ofs se)) else 0.

(** Byte [k] of page [page] of thread [t]: in memory when the page is mapped, else where its entry says. *)
Definition content v (t page k : Z) : option Z :=
  match mapping (vm_pg v) (pds v t) page with
  | Some pte => Some (mem (vm_pg v) (frame_addr pte + k))
  | None =>
      se ← spt_at v t page;
      match location se with
      | InSwap s => Some (slot_byte (swap_view v) s k)
      | OnDisk => Some (backing_byte v se k)
      | Zero => Some 0
      | InMemory => None
      end
  end.

Definition content_same v v' : Prop :=
  forall t page k, pds v t <> 0 -> user_page page -> 0 <= k < PGSIZE -> content v' t page k = content v t page k.

(** What a clean page is reloaded with. *)
Definition reload_byte v se (k : Z) : Z :=
  match reload_location se with OnDisk => backing_byte v se k | _ => 0 end.

(** A page whose entry has the dirty bit clear holds what it would be reloaded with. *)
Definition faithful v e : Prop :=
  exists se, spt_at v (owner_tid e) (upage e) = Some se /\
    forall pte, mapping (vm_pg v) (pds v (owner_tid e)) (upage e) = Some pte -> Z.land pte PTE_D = 0 ->
      forall k, 0 <= k < PGSIZE -> mem (vm_pg v) (kpage e + k) = reload_byte v se k.

Definition sound v : Prop :=
  forall e, e ∈ frames v -> pds v (owner_tid e) <> 0 -> pinned e = false -> faithful v e.

(** Page [page] of [t] loses nothing when a frame is wanted: the user pool has one to give, so that
    none is taken away, or the page's own frame, if it can be taken, is faithful. *)
Definition unharmed v (t page : Z) : Prop :=
  ~ exhausted (Z.lor USER ZERO) 1 (pg_pa (vm_pg v)) \/
  forall e, e ∈ frames v -> owner_tid e = t -> upage e = page -> pinned e = false -> faithful v e.

Definition harmless v v' : Prop :=
  forall t page k, pds v t <> 0 -> user_page page -> 0 <= k < PGSIZE -> unharmed v t page ->
    content v' t page k = content v t page k.

Lemma sound_unharmed v t page : sound v -> pds v t <> 0 -> unharmed v t page.
Proof. intros Hs Ht. right. intros e He <- _. by apply Hs. Qed.

(** A page that is not mapped has no frame. *)
Lemma unmapped_unharmed v t page :
  settled v -> pds v t <> 0 -> mapping (vm_pg v) (pds v t) page = None -> unharmed v t page.
Proof. intros Hset Ht Hno. right. intros e He <- <- _. destruct (Hset e He Ht) as (pte & Hm & _). congruence. Qed.

(** ** Facts *)

(** The running thread's directory. *)
Lemma pds_current v th : vm_ok v -> threads (vm_sched v) !! current (vm_sched v) = Some th -> pds v (tid th) = pagedir th.
Proof.
  intros Hok Hth. destruct (vo_cur _ Hok) as (th' & Hth' & Hf). assert (th' = th) as -> by congruence.
  unfold pds, pd_of. rewrite Hf. simpl. by rewrite Hth.
Qed.

Lemma page_of_user page : user_page page -> page_of page = page.
Proof.
  intros Hp. pose proof (user_page_u32 _ Hp). destruct Hp as [_ Hm]. unfold page_of. change (PGSIZE - 1) with PGMASK.
  rewrite land_not_pgmask by done. lia.
Qed.

(** Two frames of one process at one page are the same entry. *)
Lemma frame_unique v i j e e' :
  vm_ok v -> settled v -> frames v !! i = Some e -> frames v !! j = Some e' ->
  owner_tid e = owner_tid e' -> upage e = upage e' -> pds v (owner_tid e) <> 0 -> i = j.
Proof.
  intros Hok Hset Hi Hj Eo Eu Hpd. destruct (vo_ix _ Hok) as (ix & _ & Hix).
  destruct (Hset e) as (pte & Hm & Ha); [by eapply list_elem_of_lookup_2|done|].
  destruct (Hset e') as (pte' & Hm' & Ha'); [by eapply list_elem_of_lookup_2|by rewrite <- Eo|].
  rewrite <- Eo, <- Eu in Hm'. eapply ix_ok_unique; [done|done|done|]. congruence.
Qed.

(** A mapped page is in a user frame. *)
Lemma mapped_frame v t va pte :
  vm_ok v -> pds v t <> 0 -> user_page va -> mapping (vm_pg v) (pds v t) va = Some pte ->
  user_frame (vm_pg v) (frame_addr pte).
Proof.
  intros Hok Ht Hva Hm. destruct (mo_backed _ _ _ (vo_mem _ Hok) t va pte Ht Hva Hm) as (e & He & <- & _).
  by apply (mo_frames _ _ _ (vo_mem _ Hok) e He).
Qed.

(** *** Changes that do not show in the contents *)

(** The entries agree but for the accessed bit. *)
Definition but_accessed (o : option Z) : option Z := (fun pte => Z.land pte (not_w 32 PTE_A)) <$> o.

Record same_view v v' : Prop := {
  sv_sched : vm_sched v' = vm_sched v;
  sv_frames : frames v' = frames v;
  sv_map : forall t va, pds v t <> 0 -> user_page va ->
    but_accessed (mapping (vm_pg v') (pds v t) va) = but_accessed (mapping (vm_pg v) (pds v t) va);
  sv_mem : forall a, user_frame (vm_pg v) a ->
    user_frame (vm_pg v') a /\ forall x, a <= x < a + PGSIZE -> mem (vm_pg v') x = mem (vm_pg v) x;
  sv_pde : forall t i, pds v t <> 0 -> 0 <= i < 1024 -> pde (vm_pg v) (pds v t) i <> 0 -> pde (vm_pg v') (pds v t) i <> 0;
  sv_spt : SPT_TABLE v' = SPT_TABLE v;
  sv_swap_map : SWAP_MAP v' = SWAP_MAP v;
  sv_slot : forall h s k, holds v h s -> 0 <= k < PGSIZE -> slot_byte (swap_view v') s k = slot_byte (swap_view v) s k;
  sv_abs : abs (vm_fs v') = abs (vm_fs v);
  sv_calm : calm (pds v) (vm_pg v) (vm_pg v');
}.

Lemma sv_refl v : same_view v v.
Proof. by split. Qed.

Lemma sv_pds v v' : same_view v v' -> pds v' = pds v.
Proof. intros H. unfold pds. by rewrite (sv_sched _ _ H). Qed.
Lemma sv_entry v v' t page : same_view v v' -> spt_at v' t page = spt_at v t page.
Proof. intros H. unfold spt_at. by rewrite (sv_spt _ _ H). Qed.
Lemma sv_file v v' se k : same_view v v' -> backing_byte v' se k = backing_byte v se k.
Proof. intros H. unfold backing_byte. by rewrite (sv_abs _ _ H). Qed.

Lemma sv_holds v v' h s : same_view v v' -> holds v' h s <-> holds v h s.
Proof. intros H. unfold holds, spt_at. by rewrite (sv_spt _ _ H), (sv_swap_map _ _ H). Qed.

Lemma sv_trans v1 v2 v3 : same_view v1 v2 -> same_view v2 v3 -> same_view v1 v3.
Proof.
  intros H1 H2. split.
  - rewrite (sv_sched _ _ H2). apply H1.
  - rewrite (sv_frames _ _ H2). apply H1.
  - intros t va Ht Hva. pose proof (sv_map _ _ H2 t va) as E. rewrite (sv_pds _ _ H1) in E.
    rewrite E by done. by apply H1.
  - intros a Ha. destruct (sv_mem _ _ H1 a Ha) as [Ha2 E1]. destruct (sv_mem _ _ H2 a Ha2) as [Ha3 E2].
    split; [done|]. intros x Hx. by rewrite E2, E1.
  - intros t i Ht Hi Hn. pose proof (sv_pde _ _ H2 t i) as E. rewrite (sv_pds _ _ H1) in E.
    apply E; [done|done|]. by apply (sv_pde _ _ H1).
  - rewrite (sv_spt _ _ H2). apply H1.
  - rewrite (sv_swap_map _ _ H2). apply H1.
  - intros h s k Hh Hk. rewrite (sv_slot _ _ H2 h) by (done || by apply (sv_holds v1)). by apply (sv_slot _ _ H1 h).
  - rewrite (sv_abs _ _ H2). apply H1.
  - eapply calm_trans; [apply H1|]. rewrite <- (sv_pds _ _ H1). apply H2.
Qed.

Lemma but_accessed_bits o o' pte' : but_accessed o' = but_accessed o -> o' = Some pte' ->
  exists pte, o = Some pte /\ frame_addr pte' = frame_addr pte /\ Z.land pte' PTE_D = Z.land pte PTE_D.
Proof.
  intros E ->. destruct o as [pte|]; [|done]. exists pte. injection E as E.
  assert (forall m, Z.land (not_w 32 PTE_A) m = m -> Z.land pte' m = Z.land pte m) as H.
  { intros m Hm. by rewrite <- Hm, !Z.land_assoc, E. }
  unfold frame_addr. by rewrite !H by reflexivity.
Qed.

Lemma sv_mapping v v' t va pte' :
  same_view v v' -> pds v t <> 0 -> user_page va -> mapping (vm_pg v') (pds v t) va = Some pte' ->
  exists pte, mapping (vm_pg v) (pds v t) va = Some pte /\ frame_addr pte' = frame_addr pte /\ Z.land pte' PTE_D = Z.land pte PTE_D.
Proof. intros Hv Ht Hva. apply but_accessed_bits. by apply Hv. Qed.

Lemma sv_mapping_back v v' t va pte :
  same_view v v' -> pds v t <> 0 -> user_page va -> mapping (vm_pg v) (pds v t) va = Some pte ->
  exists pte', mapping (vm_pg v') (pds v t) va = Some pte' /\ frame_addr pte = frame_addr pte' /\ Z.land pte PTE_D = Z.land pte' PTE_D.
Proof. intros Hv Ht Hva. apply but_accessed_bits. symmetry. by apply Hv. Qed.

Lemma sv_content v v' : vm_ok v -> same_view v v' -> content_same v v'.
Proof.
  intros Hok Hv t page k Ht Hp Hk. unfold content. rewrite (sv_pds _ _ Hv).
  destruct (mapping (vm_pg v') (pds v t) page) as [pte'|] eqn:E.
  - destruct (sv_mapping v v' t page pte' Hv Ht Hp E) as (pte & Hm & Ea & _). rewrite Hm, Ea. f_equal.
    apply (sv_mem _ _ Hv (frame_addr pte)); [by eapply mapped_frame|lia].
  - destruct (mapping (vm_pg v) (pds v t) page) as [pte|] eqn:E'.
    { destruct (sv_mapping_back v v' t page pte Hv Ht Hp E') as (pte' & Hm & _). congruence. }
    rewrite (sv_entry _ _ _ _ Hv). destruct (spt_at v t page) as [se|] eqn:Es; [|done]. simpl.
    destruct (location se) as [|s| |] eqn:El; [done| |by rewrite (sv_file _ _ _ _ Hv)|done].
    f_equal. apply (sv_slot _ _ Hv (inl (t, page))); [by exists se|done].
Qed.

Lemma sv_settled v v' : vm_ok v -> same_view v v' -> settled v -> settled v'.
Proof.
  intros Hok Hv Hset e. rewrite (sv_frames _ _ Hv), (sv_pds _ _ Hv). intros He Hpd.
  destruct (Hset e He Hpd) as (pte & Hm & Ha).
  destruct (sv_mapping_back v v' (owner_tid e) (upage e) pte Hv Hpd) as (pte' & Hm' & Ea & _); [|done|].
  - by apply (mo_frames _ _ _ (vo_mem _ Hok) e He).
  - exists pte'. split; [done|congruence].
Qed.

Lemma sv_faithful v v' e : vm_ok v -> same_view v v' -> e ∈ frames v -> pds v (owner_tid e) <> 0 -> faithful v e -> faithful v' e.
Proof.
  intros Hok Hv He Hpd (se & Hse & Hb). pose proof (mo_frames _ _ _ (vo_mem _ Hok) e He) as Hf.
  exists se. rewrite (sv_entry _ _ _ _ Hv). split; [done|].
  intros pte' Hm HD k Hk. rewrite (sv_pds _ _ Hv) in Hm.
  destruct (sv_mapping v v' (owner_tid e) (upage e) pte' Hv Hpd (fr_page _ _ Hf) Hm) as (pte & Hm0 & _ & Ed).
  destruct (sv_mem _ _ Hv (kpage e) (fr_user _ _ Hf)) as [_ Hmem]. rewrite Hmem by lia. rewrite (Hb pte Hm0) by (congruence || done).
  unfold reload_byte. destruct (reload_location se); try done. by rewrite (sv_file _ _ _ _ Hv).
Qed.

Lemma sv_sound v v' : vm_ok v -> same_view v v' -> sound v -> sound v'.
Proof.
  intros Hok Hv Hs e. rewrite (sv_frames _ _ Hv), (sv_pds _ _ Hv). intros He Hpd Hpin.
  by apply (sv_faithful v), Hs.
Qed.
End inv.
