(* ===== verification/VmEvict.v ===== *)
(** Clock eviction (src/vm/frame.rs): which frame it takes, what it does with the page, and that
    every page keeps its contents. *)
From S2P Require Import Prelude Btree Block Bio FreeMap Inode InodeLayout FileMap InodeOps InodeProofs Memory Palloc Thread Pagedir Swap Spaces Vm FrameTable VmMem VmDisk VmInv.

Section evict.
Context {D : Type} `{!BlockOps D, !BlockLaws D}.
Implicit Types (v : VM D) (e : FrameEntry) (se : SptEntry).

(** *** Parts of the state that change alone *)
Lemma spt_ok_ext v v' t page se :
  spt_ok v t page se -> abs (vm_fs v') = abs (vm_fs v) -> vm_sched v' = vm_sched v ->
  (pds v t <> 0 -> pde (vm_pg v) (pds v t) (pde_idx page) <> 0 -> pde (vm_pg v') (pds v t) (pde_idx page) <> 0) ->
  spt_ok v' t page se.
Proof.
  intros [Hp Hr Hf Ht] Ea Es Hd. assert (pds v' = pds v) as Ep by (unfold pds; by rewrite Es).
  split; [done|done|by rewrite Ea|]. intros s Hs. rewrite Ep. intros Hpd. apply Hd; [done|by apply (Ht s)].
Qed.

Lemma vm_ok_clock v c : vm_ok v -> in_u32 c -> vm_ok (with_clock c v) /\ same_view v (with_clock c v).
Proof.
  intros [Mm Ma Mc Mf Mi Mcl Msw Mfs Mr Mmap Mspt Msl Mown] Hc. split; split; try done. intros t page se Hse. apply (spt_ok_ext v); [by apply Mspt|done..].
Qed.

Lemma vm_ok_pg v s :
  vm_ok v -> mem_ok s (pds v) (frames v) ->
  (forall t i, pds v t <> 0 -> 0 <= i < 1024 -> pde (vm_pg v) (pds v t) i <> 0 -> pde s (pds v t) i <> 0) ->
  vm_ok (with_pg s v).
Proof.
  intros [Mm Ma Mc Mf Mi Mcl Msw Mfs Mr Mmap Mspt Msl Mown] Hm Hp. split; try done; [by destruct Msw; split|].
  intros t page se Hse. pose proof (Mspt t page se Hse) as Hs. apply (spt_ok_ext v); [done..|].
  intros Hpd. apply Hp; [done|]. apply pde_idx_range, user_page_u32, Hs.
Qed.

Lemma pte_upd_view v t va w s :
  vm_ok v -> user_page va -> pte_upd (pds v) t va w (vm_pg v) s -> calm (pds v) (vm_pg v) s -> pds v t <> 0 ->
  but_accessed (if Z.land w PTE_P =? 0 then None else Some w) = but_accessed (mapping (vm_pg v) (pds v t) va) ->
  same_view v (with_pg s v).
Proof.
  intros Hok Hva Hu Hcm Ht Hw. split; try done.
  - intros t' va' Ht' Hva'. simpl. rewrite (pu_map _ _ _ _ _ _ Hu) by (done || by apply user_page_u32).
    case_decide as Hd; [|done]. destruct Hd as [-> Hd]. apply user_page_eq in Hd as ->; done.
  - intros a [Hin Hl]. destruct (pu_user _ _ _ _ _ _ Hu) as [[_ Eu] H]. destruct (H a Hl) as [Hl' Hm].
    + intros Hk. apply (pool_apart (vm_pg v) a a); try done. apply (mo_spaces _ _ _ (vo_mem _ Hok)).
    + split; [split; [simpl; by rewrite Eu|done]|done].
  - intros t' i Ht' Hi. by apply (pu_pde _ _ _ _ _ _ Hu).
Qed.

(** Changing the accessed bit. *)
Lemma change_accessed v t va val s :
  vm_ok v -> user_page va -> pds v t <> 0 ->
  pte_upd (pds v) t va (accessed_value val (pte_word (vm_pg v) (pds v t) va)) (vm_pg v) s ->
  calm (pds v) (vm_pg v) s -> vm_ok (with_pg s v) /\ same_view v (with_pg s v).
Proof.
  intros Hok Hva Ht Hu Hcm. pose proof (vo_mem _ Hok) as Hm. set (w := pte_word (vm_pg v) (pds v t) va) in *.
  assert (in_u32 w) as Hw by (apply pte_word_u32; [by apply (ss_space _ _ (mo_spaces _ _ _ Hm))|by apply user_page_u32]).
  destruct (accessed_word w val Hw) as (_ & HP & _ & HA). fold (accessed_value val w) in HP, HA.
  assert (mapping (vm_pg v) (pds v t) va = if Z.land w PTE_P =? 0 then None else Some w) as Em by apply mapping_word.
  split.
  - apply vm_ok_pg; [done| |intros; by eapply (pu_pde _ _ _ _ _ _ Hu)].
    eapply mem_ok_upd; [done|done|exact Hu|]. rewrite HP. intros Hne.
    destruct (mo_backed _ _ _ Hm t va w Ht Hva) as (e & He & Ek & ?).
    { rewrite Em. by rewrite (proj2 (Z.eqb_neq _ _) Hne). }
    exists e. split; [done|]. split; [|done]. rewrite Ek. unfold frame_addr.
    assert (Z.land (not_w 32 PTE_A) PTE_ADDR = PTE_ADDR) as Ea by reflexivity.
    by rewrite <- Ea, !Z.land_assoc, HA.
  - eapply pte_upd_view; [done|done|exact Hu|done|done|]. rewrite Em, HP. destruct (Z.land w PTE_P =? 0); [done|].
    change (Some (Z.land (accessed_value val w) (not_w 32 PTE_A)) = Some (Z.land w (not_w 32 PTE_A))). by rewrite HA.
Qed.

(** *** Saving a page *)
Record saved (kp : Z) (i : nat) v v' : Prop := {
  sd_ok : vm_ok v';
  sd_view : same_view v v';
  sd_pg : vm_pg v' = vm_pg v;
  sd_free : slots v !! i = Some false;
  sd_slots : slots v' = <[i := true]> (slots v);
  sd_bytes : forall k, 0 <= k < PGSIZE -> slot_byte (swap_view v') (Z.of_nat i) k = mem (vm_pg v) (kp + k);
}.

Lemma slot_fresh v i h : vm_ok v -> slots v !! i = Some false -> ~ holds v h (Z.of_nat i).
Proof. intros Hok Hi Hh. destruct (vo_slots _ Hok h _ Hh) as [_ Hs]. rewrite Nat2Z.id in Hs. congruence. Qed.

Lemma with_swap_view v : with_swap (swap_view v) v = v.
Proof. by destruct v as [[[] ? ? ?] [[] ? ?] ? ? ? ? ? ? ? ?]. Qed.

(** The state after an operation on the swap area that leaves the file system's device alone. *)
Lemma vm_ok_swap v w bm :
  vm_ok v -> swap_ok bm w -> sw_mem w = mem (vm_pg v) -> same_others Swap (reg v) (sw_reg w) ->
  (forall h s, holds v h s -> bm !! Z.to_nat s = Some true) ->
  (forall h s k, holds v h s -> 0 <= k < PGSIZE -> slot_byte w s k = slot_byte (swap_view v) s k) ->
  vm_pg (with_swap w v) = vm_pg v /\ vm_ok (with_swap w v) /\ same_view v (with_swap w v).
Proof.
  intros Hok Hsw Hm Hoth Hbm Hby.
  assert (vm_pg (with_swap w v) = vm_pg v) as Epg.
  { simpl. rewrite Hm. unfold mem. by destruct (vm_pg v) as [[] ? ? ?]. }
  assert (slots (with_swap w v) = bm) as Esl by (unfold slots; simpl; by rewrite (so_bitmap _ _ Hsw)).
  assert (fs_ok (vm_fs (with_swap w v)) /\ abs (vm_fs (with_swap w v)) = abs (vm_fs v)) as [Hfs Eabs].
  { apply fs_same_dev; [|done..|apply Hok]. apply (same_others_dev Swap FileSys); [done|apply Hok]. }
  assert (swap_view (with_swap w v) = w) as Ew by (unfold swap_view; simpl; by destruct w).
  split; [done|]. split.
  - destruct Hok as [Mm Ma Mc Mf Mi Mcl _ _ Mr Mmap Mspt Msl Mown]. split; try done.
    + by rewrite Epg.
    + rewrite Esl. by rewrite Ew.
    + unfold reg. simpl. by rewrite !(same_others_role _ _ _ _ Hoth).
    + intros t page se Hse. apply (spt_ok_ext v); [by apply Mspt|done|done|by rewrite Epg].
    + intros h s Hh. rewrite Esl. split; [by apply (Msl h s)|by apply (Hbm h s)].
  - split; try done.
    + intros t va _ _. by rewrite Epg.
    + intros a Ha. by rewrite Epg.
    + intros t i _ _. by rewrite Epg.
    + rewrite Epg. apply calm_refl.
Qed.

Lemma wp_save v kp (Q : option Z -> VM D -> Prop) :
  vm_ok v -> page_u8 (mem (vm_pg v)) kp -> (Forall (fun used => used = true) (slots v) -> Q None v) ->
  (forall i v', saved kp i v v' -> Q (Some (Z.of_nat i)) v') -> wp (swap (swap_out kp)) v Q.
Proof.
  intros Hok H8 Hno HQ. apply wp_zoom, (wp_swap_out (slots v)); [apply Hok|done|by rewrite with_swap_view|].
  intros i w Hi Hsw Hm Hc Hoth Hby Hrest. apply find_index_Some in Hi as [(b & Hb & Hf) _]. destruct b; [done|].
  destruct (vm_ok_swap v w (<[i := true]> (slots v)) Hok Hsw Hm Hoth) as (Epg & Hok' & Hv).
  - intros h s Hh. destruct (vo_slots _ Hok h s Hh) as [Hs0 Hs]. rewrite list_lookup_insert_ne; [done|congruence].
  - intros h s k Hh Hk. apply Hrest; [|done]. intros ->. by apply (slot_fresh v i h).
  - apply HQ. split; [done|done|done|done|unfold slots; simpl; by rewrite (so_bitmap _ _ Hsw)|].
    exact Hby.
Qed.
(** *** Recording where a page went *)
Definition relocate (t up : Z) (l : SptEntry -> PageLocation) v : VM D :=
  with_spts (alter (spt_update up (fun se => set_location (l se) se)) t (SPT_TABLE v)) v.

Lemma spt_at_relocate t up l v t' page :
  user_page up ->
  spt_at (relocate t up l v) t' page =
    if decide (t' = t /\ page = up) then (fun se => set_location (l se) se) <$> spt_at v t' page else spt_at v t' page.
Proof.
  intros Hup. unfold spt_at, relocate, spt_update. simpl. rewrite page_of_user by done.
  destruct (decide (t' = t)) as [->|Hne].
  - rewrite lookup_alter_eq. destruct (SPT_TABLE v !! t) as [spt|]; simpl; [|by case_decide].
    destruct (decide (page = up)) as [->|Hne]; [rewrite lookup_alter_eq, decide_True by done; done|].
    rewrite lookup_alter_ne, decide_False by (done || by intros [_ ?]). done.
  - rewrite lookup_alter_ne, decide_False by (done || by intros [? _]). done.
Qed.

Definition free_slot_for v (t up s : Z) : Prop :=
  0 <= s /\ slots v !! Z.to_nat s = Some true /\ (forall h, ~ holds v h s) /\
  (pds v t <> 0 -> pde (vm_pg v) (pds v t) (pde_idx up) <> 0).

Lemma holds_relocate t up l v h s :
  user_page up -> holds (relocate t up l v) h s ->
  holds v h s \/ (h = inl (t, up) /\ exists se, spt_at v t up = Some se /\ l se = InSwap s).
Proof.
  intros Hup. destruct h as [[t' page]|k]; [|by left]. intros (se & Hse & Hl).
  rewrite spt_at_relocate in Hse by done. case_decide as Hd; [|left; by exists se].
  destruct Hd as [-> ->]. apply fmap_Some in Hse as (se0 & Hse0 & ->). right. split; [done|by exists se0].
Qed.

Lemma vm_ok_relocate t up l v :
  vm_ok v -> user_page up ->
  (forall s se, spt_at v t up = Some se -> l se = InSwap s -> free_slot_for v t up s) -> vm_ok (relocate t up l v).
Proof.
  intros [Mm Ma Mc Mf Mi Mcl Msw Mfs Mr Mmap Mspt Msl Mown] Hup Hl. split; try done.
  - intros t' page se. rewrite spt_at_relocate by done. case_decide as Hd.
    + destruct Hd as [-> ->]. intros (se0 & Hse0 & ->)%fmap_Some. destruct (Mspt _ _ _ Hse0) as [Hp Hr Hf Ht].
      split; [done|done|done|]. intros s Hs. by apply (Hl s se0).
    + intros Hse. apply (spt_ok_ext v); [by apply Mspt|done..].
  - intros h s [Hh|(_ & se & Hse & Hs)]%holds_relocate; [by apply (Msl h)| |done].
    destruct (Hl s se Hse Hs) as (? & ? & _). done.
  - intros h h' s H1%holds_relocate H2%holds_relocate; [|done..].
    destruct H1 as [H1|(-> & se & Hse & Hs)], H2 as [H2|(-> & se' & Hse' & Hs')]; [by apply (Mown _ _ s)| | |done].
    + destruct (Hl s se' Hse' Hs') as (_ & _ & Hno & _). by destruct (Hno h).
    + destruct (Hl s se Hse Hs) as (_ & _ & Hno & _). by destruct (Hno h').
Qed.

Lemma vm_ok_swap_map t up s m v :
  vm_ok v -> SWAP_MAP v = Some m -> free_slot_for v t up s -> vm_ok (with_swap_map (<[(t, up) := s]> m) v).
Proof.
  intros [Mm Ma Mc Mf Mi Mcl Msw Mfs Mr Mmap Mspt Msl Mown] Em (Hs0 & Hs & Hno & _).
  assert (forall h x, holds (with_swap_map (<[(t, up) := s]> m) v) h x -> holds v h x \/ (h = inr (t, up) /\ x = s)) as Hh.
  { intros [[t' page]|k] x; [by left|]. simpl. rewrite Em. simpl.
    intros [[<- <-]|[Hne Hx]]%lookup_insert_Some; [by right|by left]. }
  split; try done.
  - intros t' page se Hse. apply (spt_ok_ext v); [by apply Mspt|done..].
  - intros h x [Hx|[_ ->]]%Hh; [by apply (Msl h)|done].
  - intros h h' x H1%Hh H2%Hh. destruct H1 as [H1|[-> ->]], H2 as [H2|[-> Ex]]; [by apply (Mown _ _ x)| | |done].
    + subst. by destruct (Hno h).
    + by destruct (Hno h').
Qed.

(** *** Taking the frame *)
Record dropped (h : nat) e v v' : Prop := {
  dr_ok : vm_ok v';
  dr_frames : frames v' = delete h (frames v);
  dr_sched : vm_sched v' = vm_sched v;
  dr_upd : pte_upd (pds v) (owner_tid e) (upage e) 0 (vm_pg v) (vm_pg v');
  dr_calm : calm (pds v) (vm_pg v) (vm_pg v');
  dr_fs : vm_fs v' = vm_fs v;
  dr_bits : vm_bitmap v' = vm_bitmap v /\ vm_slots v' = vm_slots v;
  dr_spt : SPT_TABLE v' = SPT_TABLE v /\ SWAP_MAP v' = SWAP_MAP v;
}.

Lemma elem_of_delete_list {A} (l : list A) h x y :
  l !! h = Some x -> y ∈ l -> y ∈ delete h l \/ y = x.
Proof.
  intros Hx [i Hi]%list_elem_of_lookup. destruct (decide (i = h)) as [->|Hne]; [right; congruence|].
  left. apply list_elem_of_lookup. destruct (decide (i < h)%nat).
  - exists i. by rewrite list_lookup_delete_lt.
  - exists (i - 1)%nat. rewrite list_lookup_delete_ge by lia. by replace (S (i - 1)) with i by lia.
Qed.

(** Without its mapping, the victim's frame backs no page. *)
Lemma mem_ok_dropped v s h e ix :
  vm_ok v -> KPAGE_INDEX v = Some ix -> ix_ok (frames v) ix -> frames v !! h = Some e -> pds v (owner_tid e) <> 0 ->
  pte_upd (pds v) (owner_tid e) (upage e) 0 (vm_pg v) s -> mem_ok s (pds v) (delete h (frames v)).
Proof.
  intros Hok _ Hix He Hpd Hu. pose proof (vo_mem _ Hok) as Hm.
  assert (e ∈ frames v) as Hin by (by eapply list_elem_of_lookup_2).
  pose proof (fr_page _ _ (mo_frames _ _ _ Hm e Hin)) as Hup.
  apply (mem_ok_drop s _ (frames v)); [by eapply mem_ok_upd; [done|done|exact Hu|]| |].
  - intros x (i & Hi)%list_elem_of_lookup. rewrite list_lookup_delete in Hi. by eapply list_elem_of_lookup_2.
  - intros x Hx. destruct (elem_of_delete_list _ _ _ _ He Hx) as [Hx'| ->]; [by left|right].
    intros t va pte Ht Hva. rewrite (pu_map _ _ _ _ _ _ Hu) by (done || by apply user_page_u32).
    case_decide as Hd; [done|]. intros Hmap Ea.
    destruct (mo_backed _ _ _ Hm t va pte Ht Hva Hmap) as (x & (j & Hj)%list_elem_of_lookup & Ek & Eu & Eo).
    assert (j = h) as -> by (eapply ix_ok_unique; [done|done|done|congruence]).
    simplify_eq. by destruct Hd.
Qed.

Lemma wp_drop_victim v (h : nat) e (Q : unit -> VM D -> Prop) :
  vm_ok v -> frames v !! h = Some e -> pds v (owner_tid e) <> 0 ->
  (forall v', dropped h e v v' -> Q tt v') ->
  wp (drop_victim (frames v) (Z.of_nat h) (pds v (owner_tid e)) (kpage e) (upage e)) v Q.
Proof.
  intros Hok He Hpd HQ. pose proof (vo_mem _ Hok) as Hm. destruct (vo_ix _ Hok) as (ix & Eix & Hix).
  assert (e ∈ frames v) as Hin by (by eapply list_elem_of_lookup_2).
  pose proof (fr_page _ _ (mo_frames _ _ _ Hm e Hin)) as Hup.
  unfold drop_victim. apply wp_bind, wp_zoom, wp_clear_page_spaces; [apply Hm|done|apply Hup|]. intros s Hu Hcm.
  apply wp_bind, wp_gets. change (KPAGE_INDEX (with_pg s v)) with (KPAGE_INDEX v). rewrite Eix.
  apply wp_bind, wp_modify, wp_bind, wp_modify, wp_bind, wp_gets. rewrite !Nat2Z.id. simpl.
  apply wp_bind, wp_modify, wp_bind, wp_gets. simpl.
  set (ix' := reindex _ _ _). set (ft' := delete h (frames v)) in *.
  assert (ix_ok ft' ix') as Hix' by (by apply ix_ok_delete).
  pose proof (mem_ok_dropped v s h e ix Hok Eix Hix He Hpd Hu) as Hm'. fold ft' in Hm'.
  assert (forall c, in_u32 c -> dropped h e v (with_clock c (with_index ix' (with_frames ft' (with_pg s v))))) as Hd.
  { intros c Hc. split; try done. destruct Hok as [Mm Ma Mc Mf Mi Mcl Msw Mfs Mr Mmap Mspt Msl Mown]. split; try done.
    - by exists ix'.
    - by destruct Msw; split.
    - intros t page se Hse. apply (spt_ok_ext v); [by apply Mspt|done|done|]. intros Ht.
      apply (pu_pde _ _ _ _ _ _ Hu); [done|]. apply pde_idx_range, user_page_u32, (Mspt t page se Hse). }
  pose proof (vo_clock _ Hok) as Hc. destruct (Z.ltb_spec 0 (CLOCK_HAND v)).
  - apply wp_modify, HQ, Hd. unfold in_u32 in *. lia.
  - apply wp_ret, HQ. specialize (Hd (CLOCK_HAND v) Hc). by destruct v.
Qed.

(** ** One turn of the clock *)

(** Frame [e] at position [h] of the table was taken, and its page saved or marked for reloading. *)
Record evicted (h : nat) e v v' : Prop := {
  ev_ok : vm_ok v';
  ev_at : frames v !! h = Some e;
  ev_pin : pinned e = false;
  ev_pd : pds v (owner_tid e) <> 0;
  ev_clear : Z.land (pte_word (vm_pg v) (pds v (owner_tid e)) (upage e)) PTE_A = 0;
  ev_frames : frames v' = delete h (frames v);
  ev_sched : vm_sched v' = vm_sched v;
  ev_upd : pte_upd (pds v) (owner_tid e) (upage e) 0 (vm_pg v) (vm_pg v');
  ev_calm : calm (pds v) (vm_pg v) (vm_pg v');
  ev_spt : forall t page, ~ (t = owner_tid e /\ page = upage e) -> spt_at v' t page = spt_at v t page;
  ev_tables : forall t, t <> owner_tid e -> SPT_TABLE v' !! t = SPT_TABLE v !! t;
  ev_slot : forall x s k, holds v x s -> 0 <= k < PGSIZE -> slot_byte (swap_view v') s k = slot_byte (swap_view v) s k;
  ev_abs : abs (vm_fs v') = abs (vm_fs v);
  ev_loc : forall se, spt_at v (owner_tid e) (upage e) = Some se -> exists l,
    spt_at v' (owner_tid e) (upage e) = Some (set_location l se) /\
    if Z.land (pte_word (vm_pg v) (pds v (owner_tid e)) (upage e)) PTE_D =? 0 then l = reload_location se
    else exists s, l = InSwap s /\ forall k, 0 <= k < PGSIZE -> slot_byte (swap_view v') s k = mem (vm_pg v) (kpage e + k);
}.

Lemma with_pg_id v : with_pg (vm_pg v) v = v.
Proof. by destruct v. Qed.
Lemma with_sched_id v : with_sched (vm_sched v) v = v.
Proof. by destruct v. Qed.

(** The end of both branches, from the state [v1] in which the page's place is recorded. *)
Lemma wp_take_victim v v1 (h : nat) e (Q : option Z -> VM D -> Prop) :
  vm_ok v1 -> frames v1 = frames v -> vm_sched v1 = vm_sched v -> vm_pg v1 = vm_pg v -> abs (vm_fs v1) = abs (vm_fs v) ->
  frames v !! h = Some e -> pinned e = false -> pds v (owner_tid e) <> 0 ->
  Z.land (pte_word (vm_pg v) (pds v (owner_tid e)) (upage e)) PTE_A = 0 ->
  (forall t page, ~ (t = owner_tid e /\ page = upage e) -> spt_at v1 t page = spt_at v t page) ->
  (forall t, t <> owner_tid e -> SPT_TABLE v1 !! t = SPT_TABLE v !! t) ->
  (forall x s k, holds v x s -> 0 <= k < PGSIZE -> slot_byte (swap_view v1) s k = slot_byte (swap_view v) s k) ->
  (forall se, spt_at v (owner_tid e) (upage e) = Some se -> exists l,
    spt_at v1 (owner_tid e) (upage e) = Some (set_location l se) /\
    if Z.land (pte_word (vm_pg v) (pds v (owner_tid e)) (upage e)) PTE_D =? 0 then l = reload_location se
    else exists s, l = InSwap s /\ forall k, 0 <= k < PGSIZE -> slot_byte (swap_view v1) s k = mem (vm_pg v) (kpage e + k)) ->
  (forall v', evicted h e v v' -> Q (Some (kpage e)) v') ->
  wp (drop_victim (frames v) (Z.of_nat h) (pds v (owner_tid e)) (kpage e) (upage e) ;; ret (Some (kpage e))) v1 Q.
Proof.
  intros Hok1 Ef Es Ep Ea He Hpin Hpd HA Hspt Htab Hslot Hloc HQ.
  assert (pds v1 = pds v) as Epd by (unfold pds; by rewrite Es).
  apply wp_bind. rewrite <- Ef, <- Epd. apply wp_drop_victim; [done|by rewrite Ef|by rewrite Epd|].
  intros v' [Dok Df Ds Du Dcm Dfs [Db Dc] [Dspt Dmap]]. apply wp_ret, HQ.
  assert (forall t page, spt_at v' t page = spt_at v1 t page) as Esp by (intros; unfold spt_at; by rewrite Dspt).
  assert (forall s k, slot_byte (swap_view v') s k = slot_byte (swap_view v1) s k) as Esl.
  { intros s k. unfold slot_byte, sector, sw_dev, swap_view. simpl. by rewrite Dfs. }
  split; try done.
  - by rewrite Df, Ef.
  - congruence.
  - by rewrite <- Epd, <- Ep.
  - by rewrite <- Epd, <- Ep.
  - intros t page Hne. rewrite Esp. by apply Hspt.
  - intros t Hne. rewrite Dspt. by apply Htab.
  - intros x s k Hh Hk. rewrite Esl. by apply (Hslot x).
  - by rewrite Dfs.
  - intros se Hse. destruct (Hloc se Hse) as (l & Hl & Hd). exists l. rewrite Esp. split; [done|].
    destruct (_ =? 0); [done|]. destruct Hd as (s & -> & Hs). exists s. split; [done|].
    intros k Hk. rewrite Esl. by apply Hs.
Qed.

Lemma same_view_evicted v v1 h e v' : vm_ok v -> same_view v v1 -> vm_pg v1 = vm_pg v -> evicted h e v1 v' -> evicted h e v v'.
Proof.
  intros Hok Hv Ep [E1 E2 E3 E4 E5 E6 E7 E8 Ecm E9 Etab E10 E11 E12].
  rewrite (sv_pds _ _ Hv), Ep, (sv_frames _ _ Hv) in *. split; try done.
  - rewrite E7. apply Hv.
  - intros t page Hne. rewrite E9 by done. by apply sv_entry.
  - intros t Hne. rewrite Etab by done. by rewrite (sv_spt _ _ Hv).
  - intros x s k Hh Hk. rewrite (E10 x) by (done || by apply (sv_holds v)). by apply (sv_slot _ _ Hv x).
  - rewrite E11. apply Hv.
  - intros se Hse. rewrite <- (sv_entry _ _ _ _ Hv) in Hse. by apply E12.
Qed.
(** A word with a flag set comes from a page table. *)
Lemma flag_table s pd va f : Z.land (pte_word s pd va) f <> 0 -> pde s pd (pde_idx va) <> 0.
Proof. unfold pte_word. by destruct (Z.eqb_spec (pde s pd (pde_idx va)) 0). Qed.

(** The choice of the source is the dirty bit. *)
Lemma need_swap_dirty (o : option SptEntry) (d : bool) :
  match o with
  | Some se => if bool_decide (page_type se = Binary) && negb d && (0 <? read_bytes se) then false else d
  | None => d
  end = d.
Proof. destruct o as [se|]; [|done]. by destruct (bool_decide _), d, (0 <? _). Qed.

Section turn.
Context (v : VM D) (h : nat) (e : FrameEntry) (Q : option Z -> VM D -> Prop).
Context (Hok : vm_ok v) (He : frames v !! h = Some e) (Hpin : pinned e = false) (Hpd : pds v (owner_tid e) <> 0).
Context (HA : Z.land (pte_word (vm_pg v) (pds v (owner_tid e)) (upage e)) PTE_A = 0).
Context (HQ : forall v', evicted h e v v' -> Q (Some (kpage e)) v').

Let word : Z := pte_word (vm_pg v) (pds v (owner_tid e)) (upage e).
Let take : M (VM D) (option Z) :=
  drop_victim (frames v) (Z.of_nat h) (pds v (owner_tid e)) (kpage e) (upage e) ;; ret (Some (kpage e)).

Lemma victim_ok : frame_ok (vm_pg v) e.
Proof. apply (mo_frames _ _ _ (vo_mem _ Hok)). by eapply list_elem_of_lookup_2. Qed.

(** A clean page. *)
Lemma wp_take_clean :
  Z.land word PTE_D = 0 ->
  wp (in_spt (owner_tid e) (spt_update (upage e) (fun se => set_location (reload_location se) se)) ;; take) v Q.
Proof.
  intros HD. pose proof (fr_page _ _ victim_ok) as Hup. apply wp_bind, wp_modify.
  change (wp take (relocate (owner_tid e) (upage e) reload_location v) Q).
  apply wp_take_victim; try done.
  - apply vm_ok_relocate; [done|done|]. intros s se _. unfold reload_location. by repeat case_match.
  - intros t page Hne. rewrite spt_at_relocate by done. by rewrite decide_False.
  - intros t Hne. by apply lookup_alter_ne.
  - intros se Hse. exists (reload_location se). rewrite spt_at_relocate, decide_True by done. rewrite Hse.
    split; [done|]. fold word. by rewrite HD.
Qed.

(** A dirty page that was saved in slot [i]; [rec] records the slot. *)
Lemma wp_take_dirty i v1 v2 :
  Z.land word PTE_D <> 0 -> saved (kpage e) i v v1 -> vm_ok v2 ->
  v2 = relocate (owner_tid e) (upage e) (fun _ => InSwap (Z.of_nat i)) v1 \/
  (SPT_TABLE v !! owner_tid e = None /\ exists m, v2 = with_swap_map m v1) ->
  wp take v2 Q.
Proof.
  intros HD [Sok Sv Sp Sfree Ssl Sby] Hok2 Hv2. pose proof (fr_page _ _ victim_ok) as Hup.
  assert (frames v2 = frames v1 /\ vm_sched v2 = vm_sched v1 /\ vm_pg v2 = vm_pg v1 /\ vm_fs v2 = vm_fs v1 /\
    swap_view v2 = swap_view v1) as (Ef & Es & Ep & Efs & Ew).
  { destruct Hv2 as [->|(_ & m & ->)]; done. }
  apply wp_take_victim; try done.
  - rewrite Ef. apply Sv.
  - rewrite Es. apply Sv.
  - by rewrite Ep.
  - rewrite Efs. apply Sv.
  - intros t page Hne. rewrite <- (sv_entry _ _ _ _ Sv). destruct Hv2 as [->|(_ & m & ->)]; [|done].
    rewrite spt_at_relocate by done. by rewrite decide_False.
  - intros t Hne. rewrite <- (sv_spt _ _ Sv). destruct Hv2 as [->|(_ & m & ->)]; [|done]. by apply lookup_alter_ne.
  - intros x s k Hh Hk. rewrite Ew. by apply (sv_slot _ _ Sv x).
  - intros se Hse. exists (InSwap (Z.of_nat i)). fold word. rewrite (proj2 (Z.eqb_neq _ _) HD). split.
    + destruct Hv2 as [->|(Hno & _)]; [|unfold spt_at in Hse; by rewrite Hno in Hse].
      rewrite spt_at_relocate, decide_True by done. by rewrite (sv_entry _ _ _ _ Sv), Hse.
    + exists (Z.of_nat i). split; [done|]. rewrite Ew. exact Sby.
Qed.

Lemma saved_slot_for i v1 :
  Z.land word PTE_D <> 0 -> saved (kpage e) i v v1 -> free_slot_for v1 (owner_tid e) (upage e) (Z.of_nat i).
Proof.
  intros HD [Sok Sv Sp Sfree Ssl Sby]. split_and!; [lia| | |].
  - rewrite Ssl, Nat2Z.id, list_lookup_insert_eq; [done|]. by eapply lookup_lt_Some.
  - intros x Hx%(sv_holds v); [|done]. by apply (slot_fresh v i x).
  - intros _. rewrite (sv_pds _ _ Sv), Sp. by eapply flag_table.
Qed.
End turn.

(** The accessed bit of the page of a frame is clear. *)
Definition acc_clear v e : Prop :=
  forall pte, mapping (vm_pg v) (pds v (owner_tid e)) (upage e) = Some pte -> Z.land pte PTE_A = 0.

(** The hand moved on without a victim. *)
Record turned v v' : Prop := {
  tu_ok : vm_ok v';
  tu_view : same_view v v';
  tu_clock : CLOCK_HAND v' = (CLOCK_HAND v + 1) mod u32_lim;
  tu_bits : vm_bitmap v' = vm_bitmap v;
  tu_acc : forall e, e ∈ frames v -> pds v (owner_tid e) <> 0 -> acc_clear v e -> acc_clear v' e;
  tu_hand : forall e, settled v -> frames v !! Z.to_nat (CLOCK_HAND v mod Z.of_nat (List.length (frames v))) = Some e ->
    pinned e = true \/ pds v (owner_tid e) = 0 \/ (~ acc_clear v e /\ acc_clear v' e) \/ Forall (fun used => used = true) (slots v);
}.

(** The turn that clears an accessed bit. *)
Lemma turned_clear v v1 e s :
  vm_ok v1 -> same_view v v1 -> vm_pg v1 = vm_pg v -> CLOCK_HAND v1 = (CLOCK_HAND v + 1) mod u32_lim -> vm_bitmap v1 = vm_bitmap v ->
  frames v !! Z.to_nat (CLOCK_HAND v mod Z.of_nat (List.length (frames v))) = Some e ->
  pds v1 (owner_tid e) <> 0 -> user_page (upage e) ->
  Z.land (pte_word (vm_pg v1) (pds v1 (owner_tid e)) (upage e)) PTE_A <> 0 ->
  pte_upd (pds v1) (owner_tid e) (upage e) (accessed_value false (pte_word (vm_pg v1) (pds v1 (owner_tid e)) (upage e))) (vm_pg v1) s ->
  calm (pds v1) (vm_pg v1) s -> turned v (with_pg s v1).
Proof.
  intros Hok1 Hv Ep Ec Eb He Hpd Hup HA Hu Hcm. destruct (change_accessed v1 (owner_tid e) (upage e) false s Hok1 Hup Hpd Hu Hcm) as [Hok2 Hv2].
  pose proof (sv_pds _ _ Hv) as Epd. set (word := pte_word _ _ _) in *.
  assert (Z.land (accessed_value false word) PTE_A = 0) as Hclr.
  { unfold accessed_value. by rewrite <- Z.land_assoc, Z.land_0_r. }
  assert (forall x, user_page (upage x) -> pds v (owner_tid x) <> 0 ->
    acc_clear v x \/ (owner_tid x = owner_tid e /\ upage x = upage e) -> acc_clear (with_pg s v1) x) as Hacc.
  { intros x Hxp Hx Hor pte. change (pds (with_pg s v1)) with (pds v1). simpl.
    rewrite (pu_map _ _ _ _ _ _ Hu); [|by rewrite Epd|by apply user_page_u32]. case_decide as Hd.
    - destruct (_ =? 0); [done|]. by intros [= <-].
    - rewrite Ep, Epd. destruct Hor as [Hor|[E1 E2]]; [apply Hor|]. destruct Hd. by rewrite E1, E2. }
  split; try done.
  - by eapply sv_trans.
  - intros x Hx Hxp Hc. apply Hacc; [|done|by left]. rewrite <- (sv_frames _ _ Hv) in Hx.
    by apply (mo_frames _ _ _ (vo_mem _ Hok1) x Hx).
  - intros x Hset Hx. rewrite He in Hx. injection Hx as <-. right. right. left. split.
    + intros Hc. destruct (Hset e) as (pte & Hm & _); [by eapply list_elem_of_lookup_2|by rewrite <- Epd|].
      pose proof (Hc pte Hm) as H0. rewrite mapping_word in Hm. rewrite <- Ep, <- Epd in Hm. fold word in Hm.
      destruct (_ =? 0); [done|]. simplify_eq.
    + apply Hacc; [done|by rewrite <- Epd|by right].
Qed.

Lemma wp_evict_turn v (Q : option Z -> VM D -> Prop) :
  vm_ok v -> frames v <> [] ->
  (forall v', turned v v' -> Q None v') ->
  (forall h e v', evicted h e v v' -> Q (Some (kpage e)) v') ->
  wp (evict_turn (frames v) (Z.of_nat (List.length (frames v)))) v Q.
Proof.
  intros Hok Hne Hnone Hsome. set (len := Z.of_nat (List.length (frames v))).
  assert (0 < len) as Hlen by (unfold len; destruct (frames v); [done|simpl; lia]).
  unfold evict_turn. apply wp_bind, wp_gets, wp_bind, wp_modify. set (v1 := with_clock _ v).
  destruct (vm_ok_clock v ((CLOCK_HAND v + 1) mod u32_lim) Hok) as [Hok1 Hv1]; [by apply Z.mod_pos_bound|].
  fold v1 in Hok1, Hv1. set (hand := CLOCK_HAND v mod len). pose proof (Z.mod_pos_bound (CLOCK_HAND v) len Hlen) as Hh.
  fold hand in Hh. destruct (lookup_lt_is_Some_2 (frames v) (Z.to_nat hand)) as [e He]; [unfold len in *; lia|].
  apply wp_bind, (wp_index _ _ e); [lia|done|]. cbv zeta.
  assert (pinned e = true \/ pds v (owner_tid e) = 0 \/ Forall (fun used => used = true) (slots v) -> turned v v1) as Hstay.
  { intros Hor. split; try done. intros x _ Hx. fold len hand in Hx. rewrite He in Hx. injection Hx as <-. tauto. }
  destruct (pinned e) eqn:Hpin; [by apply wp_ret, Hnone, Hstay; left|].
  apply wp_bind, wp_zoom, wp_get_pagedir_by_tid; [apply Hok1|]. rewrite with_sched_id. fold (pds v1).
  destruct (Z.eqb_spec (pds v1 (owner_tid e)) 0) as [|Hpd]; [by apply wp_ret, Hnone, Hstay; right; left|].
  pose proof (victim_ok v1 (Z.to_nat hand) e Hok1 He) as [_ _ Hup]. pose proof (mo_spaces _ _ _ (vo_mem _ Hok1)) as Hss.
  set (word := pte_word (vm_pg v1) (pds v1 (owner_tid e)) (upage e)).
  apply wp_bind, wp_zoom, wp_is_accessed; [done|done|apply Hup|]. rewrite with_pg_id. fold word.
  destruct (Z.eqb_spec (Z.land word PTE_A) 0) as [HA|HA].
  2:{ simpl. apply wp_bind, wp_zoom, wp_set_accessed; [done|done|apply Hup|intros E; by destruct (flag_table _ _ _ _ HA)|].
      intros s Hu Hcm. apply wp_ret, Hnone. by eapply turned_clear. }
  simpl. apply wp_bind, wp_zoom, wp_is_dirty; [done|done|apply Hup|]. rewrite with_pg_id. fold word.
  apply wp_bind, wp_gets. change (SPT_TABLE v1) with (SPT_TABLE v). rewrite need_swap_dirty.
  replace hand with (Z.of_nat (Z.to_nat hand)) by lia. change (frames v) with (frames v1).
  assert (forall v', evicted (Z.to_nat hand) e v1 v' -> Q (Some (kpage e)) v') as Hsome1.
  { intros v' Hev. apply (Hsome (Z.to_nat hand)). by eapply same_view_evicted. }
  destruct (Z.eqb_spec (Z.land word PTE_D) 0) as [HD|HD]; simpl; [by apply wp_take_clean|].
  apply wp_bind, wp_save; [done|by apply (victim_ok v1 (Z.to_nat hand))|by intros Hfull; apply Hnone, Hstay; right; right|]. intros i v2 Hsv.
  pose proof (saved_slot_for v1 e Hok1 i v2 HD Hsv) as Hfree.
  destruct (SPT_TABLE v !! owner_tid e) as [spt|] eqn:Espt.
  - apply wp_bind, wp_modify.
    eapply (wp_take_dirty v1 (Z.to_nat hand) e Q Hok1 He Hpin Hpd HA Hsome1 i v2); [done|done| |by left].
    apply vm_ok_relocate; [apply Hsv|done|]. by intros s se _ [= <-].
  - destruct (vo_map _ (sd_ok _ _ _ _ Hsv)) as [m Em]. apply wp_bind, wp_bind, wp_gets. rewrite Em.
    apply wp_modify.
    eapply (wp_take_dirty v1 (Z.to_nat hand) e Q Hok1 He Hpin Hpd HA Hsome1 i v2); [done|done| |right].
    + apply vm_ok_swap_map; [apply Hsv|done|done].
    + split; [done|]. by eexists.
Qed.

(** ** The scan *)

(** Frames are distinct pages of the user pool, so two turns of the clock are few. *)
Lemma frames_bound v : vm_ok v -> 2 * Z.of_nat (List.length (frames v)) < u32_lim.
Proof.
  intros Hok. destruct (vo_ix _ Hok) as (ix & _ & Hix). pose proof (mo_spaces _ _ _ (vo_mem _ Hok)) as [[[Hpa _] Hub] _ _].
  set (p := USER_POOL (pg_pa (vm_pg v))) in *. pose proof (pa_user _ Hpa : pool_ok p) as Hp.
  set (pages := (fun i => base p + i * PGSIZE) <$> seqZ 0 (bit_cnt (bitmap p))).
  assert (List.length (kpage <$> frames v) <= List.length pages)%nat as Hle.
  { apply submseteq_length, NoDup_submseteq; [by eapply ix_ok_nodup|].
    intros k (e & -> & He)%list_elem_of_fmap. destruct (mo_frames _ _ _ (vo_mem _ Hok) e He) as [[Hin _] _ _].
    apply page_index in Hin as [Hi Ha]; [|done]. fold p in Hi, Ha. apply list_elem_of_fmap.
    exists ((kpage e - base p) / PGSIZE). split; [done|]. apply elem_of_seqZ. lia. }
  unfold pages in Hle. rewrite !length_fmap, length_seqZ in Hle. pose proof (po_end _ Hp) as He. pose proof (po_cnt _ Hp).
  unfold pool_end, PGSIZE, PHYS_BASE, u32_lim in *. lia.
Qed.

(** There is a frame that may be taken, and room for its page in swap. *)
Definition can_evict v : Prop :=
  (exists e, e ∈ frames v /\ pinned e = false /\ pds v (owner_tid e) <> 0) /\ (exists i, slots v !! i = Some false) /\
  CLOCK_HAND v + 2 * Z.of_nat (List.length (frames v)) < u32_lim.

(** After [j] turns without a victim: frame [e] was passed with its bit cleared once its first turn
    [j1] is over, and its second turn has not come. *)
Record scanned v e (j1 j : Z) v' : Prop := {
  sc_view : same_view v v';
  sc_clock : CLOCK_HAND v' = CLOCK_HAND v + j;
  sc_bits : vm_bitmap v' = vm_bitmap v;
  sc_clear : j1 < j -> acc_clear v' e;
  sc_end : j <= j1 + Z.of_nat (List.length (frames v));
}.

Lemma scanned_step v e (h : nat) j1 j v1 v' :
  vm_ok v -> settled v -> can_evict v -> frames v !! h = Some e -> pinned e = false -> pds v (owner_tid e) <> 0 ->
  j1 = (Z.of_nat h - CLOCK_HAND v) mod Z.of_nat (List.length (frames v)) ->
  0 <= j < 2 * Z.of_nat (List.length (frames v)) -> scanned v e j1 j v1 -> turned v1 v' -> scanned v e j1 (j + 1) v'.
Proof.
  intros Hok Hset (_ & (i & Hi) & Hlim) He Hpin Hpd Hj1 Hj [Sv Sc Sb Sa Se] [Tok Tv Tc Tb Ta Th].
  set (len := Z.of_nat (List.length (frames v))) in *. pose proof (lookup_lt_Some _ _ _ He) as Hlt.
  pose proof (vo_clock _ Hok) as Hc. pose proof (Z.mod_pos_bound (Z.of_nat h - CLOCK_HAND v) len ltac:(lia)) as Hb1.
  assert (e ∈ frames v) as Hin by (by eapply list_elem_of_lookup_2).
  rewrite (sv_frames _ _ Sv), (sv_pds _ _ Sv), Sc in *. fold len in Th.
  assert ((CLOCK_HAND v + j) mod len = Z.of_nat h -> ~ acc_clear v1 e /\ acc_clear v' e) as Hhand.
  { intros E. destruct (Th e) as [?|[?|[?|Hf]]]; [by apply (sv_settled v)|by rewrite E, Nat2Z.id|congruence|done|done|].
    unfold slots in Hf, Hi. rewrite Sb in Hf. discriminate (Forall_lookup_1 _ _ _ _ Hf Hi). }
  assert ((CLOCK_HAND v + j1) mod len = Z.of_nat h) as Ej1.
  { rewrite Hj1, Zplus_mod_idemp_r. replace (CLOCK_HAND v + (Z.of_nat h - CLOCK_HAND v)) with (Z.of_nat h) by lia. apply Z.mod_small. lia. }
  split.
  - by eapply sv_trans.
  - rewrite Tc, Z.mod_small; unfold in_u32, u32_lim in *; lia.
  - congruence.
  - intros Hlt1. destruct (decide (j1 = j)) as [->|Hne]; [by apply Hhand|]. apply Ta; [done|done|]. apply Sa. lia.
  - destruct (decide (j = j1 + len)) as [->|Hne]; [|lia]. exfalso. destruct Hhand as [Hno _]; [|apply Hno, Sa; lia].
    rewrite <- Ej1, Z.add_assoc, <- Z.add_mod_idemp_r, Z_mod_same_full, Z.add_0_r by lia. done.
Qed.

Lemma wp_evict_frame v (Q : option Z -> VM D -> Prop) :
  vm_ok v ->
  (forall v', vm_ok v' -> same_view v v' -> (settled v -> ~ can_evict v) -> Q None v') ->
  (forall v1 h e v', vm_ok v1 -> same_view v v1 -> evicted h e v1 v' -> Q (Some (kpage e)) v') ->
  wp evict_frame v Q.
Proof.
  intros Hok Hnone Hsome. unfold evict_frame. apply wp_bind, wp_gets. rewrite (vo_ft _ Hok).
  set (len := Z.of_nat (List.length (frames v))).
  destruct (Z.eqb_spec len 0) as [E|E].
  { apply wp_ret, Hnone; [done|apply sv_refl|]. intros _ ((e & He & _) & _).
    apply list_elem_of_lookup in He as [i Hi%lookup_lt_Some]. lia. }
  pose proof (frames_bound v Hok). apply wp_bind, wp_u32_mul; [done|].
  set (scan j v' := vm_ok v' /\ same_view v v' /\ forall h e, settled v -> can_evict v -> frames v !! h = Some e -> pinned e = false ->
    pds v (owner_tid e) <> 0 -> scanned v e ((Z.of_nat h - CLOCK_HAND v) mod len) j v').
  assert (0 < len) as Hlen by lia.
  apply (wp_for_ret_range scan); [lia| | |].
  - split_and!; [done|apply sv_refl|]. intros h e Hset Hcan He Hpin Hpd.
    pose proof (Z.mod_pos_bound (Z.of_nat h - CLOCK_HAND v) len Hlen).
    split; [apply sv_refl|lia|done|lia|lia].
  - intros j v1 Hj (Hok1 & Hv1 & Hsc). unfold len. rewrite <- (sv_frames _ _ Hv1). apply wp_evict_turn; [done| | |].
    + rewrite (sv_frames _ _ Hv1). by destruct (frames v).
    + intros v' Ht. split_and!; [apply Ht|eapply sv_trans; [done|apply Ht]|]. intros h e Hset Hcan He Hpin Hpd.
      eapply scanned_step; [done..|exact Hj|by apply Hsc|done].
    + intros h e v' Hev. by eapply Hsome.
  - intros v' (Hok' & Hv' & Hsc). apply Hnone; [done|done|]. intros Hset Hcan.
    pose proof Hcan as ((e & (h & He)%list_elem_of_lookup & Hpin & Hpd) & _).
    destruct (Hsc h e Hset Hcan He Hpin Hpd) as [_ _ _ _ Hend].
    pose proof (Z.mod_pos_bound (Z.of_nat h - CLOCK_HAND v) len Hlen). fold len in Hend. lia.
Qed.

(** ** Contents *)
Section contents.
Context (h : nat) (e : FrameEntry) (v v' : VM D).
Context (Hok : vm_ok v) (Hset : settled v) (Hev : evicted h e v v').

Let Hm : mem_ok (vm_pg v) (pds v) (frames v) := vo_mem _ Hok.

Lemma evicted_pds : pds v' = pds v.
Proof. unfold pds. by rewrite (ev_sched _ _ _ _ Hev). Qed.

Lemma evicted_page : frame_ok (vm_pg v) e.
Proof. by eapply victim_ok; [|apply (ev_at _ _ _ _ Hev)]. Qed.

Lemma evicted_mem a : user_frame (vm_pg v) a ->
  user_frame (vm_pg v') a /\ forall x, a <= x < a + PGSIZE -> mem (vm_pg v') x = mem (vm_pg v) x.
Proof.
  intros [Hin Hl]. destruct (pu_user _ _ _ _ _ _ (ev_upd _ _ _ _ Hev)) as [[_ Eu] H]. destruct (H a Hl) as [Hl' Hx].
  - intros Hk. apply (pool_apart (vm_pg v) a a); try done. apply (mo_spaces _ _ _ Hm).
  - split; [split; [by rewrite Eu|done]|done].
Qed.

Lemma evicted_mapping t va : pds v t <> 0 -> user_page va ->
  mapping (vm_pg v') (pds v t) va = if decide (t = owner_tid e /\ va = upage e) then None else mapping (vm_pg v) (pds v t) va.
Proof.
  intros Ht Hva. rewrite (pu_map _ _ _ _ _ _ (ev_upd _ _ _ _ Hev)) by (done || by apply user_page_u32).
  pose proof (fr_page _ _ evicted_page) as Hup.
  destruct (decide (t = owner_tid e /\ va = upage e)) as [[-> ->]|Hne]; [by rewrite decide_True by done|].
  rewrite decide_False; [done|]. intros [-> Hd%user_page_eq]; [|done..]. by destruct Hne.
Qed.

Lemma evicted_byte t page k :
  pds v t <> 0 -> user_page page -> 0 <= k < PGSIZE ->
  (forall x, x ∈ frames v -> owner_tid x = t -> upage x = page -> pinned x = false -> faithful v x) ->
  content v' t page k = content v t page k.
Proof.
  intros Ht Hp Hk Hs. unfold content. rewrite evicted_pds, evicted_mapping by done.
  case_decide as Hd.
  - destruct Hd as [-> ->].
    destruct (Hset e) as (pte & Hmap & Ha); [by eapply list_elem_of_lookup_2, (ev_at _ _ _ _ Hev)|done|].
    destruct (Hs e) as (se & Hse & Hb); [by eapply list_elem_of_lookup_2, (ev_at _ _ _ _ Hev)|done|done|apply Hev|].
    destruct (ev_loc _ _ _ _ Hev se Hse) as (l & Hl & Hd). rewrite Hl, Hmap, Ha. simpl.
    assert (pte = pte_word (vm_pg v) (pds v (owner_tid e)) (upage e)) as Ew.
    { rewrite mapping_word in Hmap. by destruct (_ =? 0) in Hmap; simplify_eq. }
    rewrite <- Ew in Hd. destruct (Z.eqb_spec (Z.land pte PTE_D) 0) as [HD|HD].
    + rewrite (Hb pte Hmap HD k Hk), Hd. unfold reload_byte.
      assert (forall x, backing_byte v' (set_location x se) k = backing_byte v se k) as Ef
        by (intros x; unfold backing_byte; simpl; by rewrite (ev_abs _ _ _ _ Hev)).
      unfold reload_location. by repeat case_match; rewrite ?Ef.
    + destruct Hd as (s & -> & Hsl). f_equal. by apply Hsl.
  - rewrite (ev_spt _ _ _ _ Hev) by done. destruct (mapping (vm_pg v) (pds v t) page) as [pte|] eqn:Em.
    + f_equal. destruct (evicted_mem (frame_addr pte)) as [_ H]; [by eapply mapped_frame|]. apply H. lia.
    + destruct (spt_at v t page) as [se|] eqn:Es; [|done]. simpl. destruct (location se) as [|s| |] eqn:El; try done.
      * f_equal. apply (ev_slot _ _ _ _ Hev (inl (t, page))); [by exists se|done].
      * unfold backing_byte. by rewrite (ev_abs _ _ _ _ Hev).
Qed.

(** A clean page is taken without being saved. *)
Lemma evicted_clean t page pte se k :
  pds v t <> 0 -> user_page page -> mapping (vm_pg v) (pds v t) page = Some pte -> Z.land pte PTE_D = 0 ->
  spt_at v t page = Some se -> mapping (vm_pg v') (pds v t) page = None ->
  content v' t page k = Some (reload_byte v se k).
Proof.
  intros Ht Hp Hmap HD Hse. rewrite evicted_mapping by done. case_decide as Hd; [|congruence]. intros _. destruct Hd as [-> ->].
  destruct (ev_loc _ _ _ _ Hev se Hse) as (l & Hl & Hd).
  assert (pte = pte_word (vm_pg v) (pds v (owner_tid e)) (upage e)) as Ew.
  { rewrite mapping_word in Hmap. by destruct (_ =? 0) in Hmap; simplify_eq. }
  rewrite <- Ew, HD in Hd. simpl in Hd. subst l. unfold content. rewrite evicted_pds, evicted_mapping, decide_True, Hl by done. simpl.
  unfold reload_byte, reload_location, backing_byte. simpl. rewrite (ev_abs _ _ _ _ Hev). by repeat case_match.
Qed.

Lemma evicted_content : sound v -> content_same v v'.
Proof. intros Hs t page k Ht Hp Hk. apply evicted_byte; [done..|]. intros x Hx <- _. by apply Hs. Qed.

(** The other frames. *)
Lemma evicted_other x : x ∈ frames v' -> pds v (owner_tid x) <> 0 ->
  x ∈ frames v /\ ~ (owner_tid x = owner_tid e /\ upage x = upage e).
Proof.
  rewrite (ev_frames _ _ _ _ Hev). intros (i & Hi)%list_elem_of_lookup Hx. rewrite list_lookup_delete in Hi.
  split; [by eapply list_elem_of_lookup_2|]. intros [Eo Eu].
  pose proof (frame_unique v _ _ _ _ Hok Hset Hi (ev_at _ _ _ _ Hev) Eo Eu Hx). case_decide; lia.
Qed.

Lemma evicted_settled : settled v'.
Proof.
  intros x Hx. rewrite evicted_pds. intros Hpd. destruct (evicted_other x Hx Hpd) as [Hx0 Hne].
  rewrite evicted_mapping; [|done|by apply (mo_frames _ _ _ Hm x Hx0)]. rewrite decide_False by done. by apply Hset.
Qed.

Lemma evicted_sound : sound v -> sound v'.
Proof.
  intros Hs x Hx. rewrite evicted_pds. intros Hpd Hp. destruct (evicted_other x Hx Hpd) as [Hx0 Hne].
  pose proof (mo_frames _ _ _ Hm x Hx0) as Hf.
  destruct (Hs x Hx0 Hpd Hp) as (se & Hse & Hb). exists se. rewrite (ev_spt _ _ _ _ Hev) by done. split; [done|].
  intros pte. rewrite evicted_pds, evicted_mapping, decide_False by (done || apply Hf). intros Hmap HD k Hk.
  destruct (evicted_mem (kpage x) (fr_user _ _ Hf)) as [_ H]. rewrite H by lia. rewrite (Hb pte Hmap HD k Hk).
  unfold reload_byte, backing_byte. by rewrite (ev_abs _ _ _ _ Hev).
Qed.

(** The frame that was taken backs no page any more. *)
Lemma evicted_unmapped t va pte : pds v t <> 0 -> user_page va ->
  mapping (vm_pg v') (pds v t) va = Some pte -> frame_addr pte <> kpage e.
Proof.
  intros Ht Hva. rewrite evicted_mapping by done. case_decide as Hd; [done|]. intros Hmap Ea.
  destruct (mo_backed _ _ _ Hm t va pte Ht Hva Hmap) as (x & (j & Hj)%list_elem_of_lookup & Ek & Eu & Eo).
  destruct (vo_ix _ Hok) as (ix & _ & Hix).
  assert (j = h) as -> by (eapply ix_ok_unique; [done|done|apply (ev_at _ _ _ _ Hev)|congruence]).
  rewrite (ev_at _ _ _ _ Hev) in Hj. simplify_eq. by destruct Hd.
Qed.

Lemma evicted_gone x : x ∈ frames v' -> kpage x <> kpage e.
Proof.
  rewrite (ev_frames _ _ _ _ Hev). intros (i & Hi)%list_elem_of_lookup E. rewrite list_lookup_delete in Hi.
  destruct (vo_ix _ Hok) as (ix & _ & Hix).
  pose proof (ix_ok_unique _ _ _ _ _ _ Hix Hi (ev_at _ _ _ _ Hev) E). case_decide; lia.
Qed.
End contents.
End evict.
