(* ===== verification/VmLoad.v ===== *)
(** Allocating frames and loading pages (src/vm/frame.rs, src/vm/page.rs): the page faulted in
    holds what the supplementary page table promised, and every other page keeps its contents. *)
From S2P Require Import Prelude Btree Block Bio FreeMap Inode InodeLayout FileMap InodeOps InodeProofs Memory Palloc Thread Pagedir Swap SchedProofs Spaces Vm FrameTable VmMem VmDisk VmInv VmEvict.

Section load.
Context {D : Type} `{!BlockOps D, !BlockLaws D}.
Implicit Types (v u : VM D) (e : FrameEntry) (se : SptEntry).

(** [frames] without the one at [kp]. *)
Definition settled_but (kp : Z) v : Prop :=
  forall e, e ∈ frames v -> kpage e <> kp -> pds v (owner_tid e) <> 0 ->
    exists pte, mapping (vm_pg v) (pds v (owner_tid e)) (upage e) = Some pte /\ frame_addr pte = kpage e.
Definition sound_but (kp : Z) v : Prop :=
  forall e, e ∈ frames v -> kpage e <> kp -> pds v (owner_tid e) <> 0 -> pinned e = false -> faithful v e.

Definition new_frame (kp up tid : Z) : FrameEntry := mkFrame kp up tid false.

(** From [v], page [kp] was set aside for page [up] of [tid]; it backs no page yet. *)
Record holding (up tid kp : Z) v u : Prop := {
  ho_ok : vm_ok u;
  ho_sched : vm_sched u = vm_sched v;
  ho_frame : user_frame (vm_pg u) kp;
  ho_sub : forall x, x ∈ frames u -> x ∈ frames v \/ x = new_frame kp up tid;
  ho_only : forall x, x ∈ frames u -> kpage x = kp -> x = new_frame kp up tid;
  ho_free : forall t va pte, pds v t <> 0 -> user_page va -> mapping (vm_pg u) (pds v t) va = Some pte -> frame_addr pte <> kp;
  ho_settled : settled v -> settled_but kp u;
  ho_byte : settled v -> harmless v u;
  ho_sound : settled v -> sound v -> sound_but kp u;
  ho_pde : forall t i, pds v t <> 0 -> 0 <= i < 1024 -> pde (vm_pg v) (pds v t) i <> 0 -> pde (vm_pg u) (pds v t) i <> 0;
  ho_abs : abs (vm_fs u) = abs (vm_fs v);
  ho_keep : settled v -> forall t page, pds v t <> 0 -> user_page page -> mapping (vm_pg v) (pds v t) page = None ->
    mapping (vm_pg u) (pds v t) page = None /\ spt_at u t page = spt_at v t page;
  ho_tables : forall t, pds v t = 0 -> SPT_TABLE u !! t = SPT_TABLE v !! t;
  ho_calm : calm (pds v) (vm_pg v) (vm_pg u);
}.

Lemma ho_content up tid kp v u : holding up tid kp v u -> settled v -> sound v -> content_same v u /\ sound_but kp u.
Proof.
  intros H Hset Hs. split; [|by apply (ho_sound _ _ _ _ _ H)]. intros t page k Ht Hp Hk.
  apply (ho_byte _ _ _ _ _ H); [done..|by apply sound_unharmed].
Qed.

Lemma ho_pds up tid kp v u : holding up tid kp v u -> pds u = pds v.
Proof. intros H. unfold pds. by rewrite (ho_sched _ _ _ _ _ H). Qed.

(** *** Changes of the page that is set aside *)
Lemma holding_mem up tid kp v u s :
  holding up tid kp v u -> same_pages (fun a => a = kp) (vm_pg u) s -> user_frame s kp -> page_u8 (mem s) kp ->
  (forall a, live (pg_pa s) a = live (pg_pa (vm_pg u)) a) -> holding up tid kp v (with_pg s u).
Proof.
  intros H Hs Hu8 H8 Hlv. pose proof (ho_ok _ _ _ _ _ H) as Hok. pose proof (vo_mem _ Hok) as Hm.
  destruct (mem_ok_user (vm_pg u) s (pds u) (frames u) kp Hm Hs) as [Hm' Hmap].
  { apply (ho_frame _ _ _ _ _ H). }
  { intros e He E. split; [by rewrite E|by rewrite E|]. by apply (mo_frames _ _ _ Hm e He). }
  pose proof (ho_pds _ _ _ _ _ H) as Ep.
  assert (forall t va, pds v t <> 0 -> user_page va -> mapping s (pds v t) va = mapping (vm_pg u) (pds v t) va) as Hmap'.
  { intros t va Ht Hva. rewrite <- Ep in *. apply Hmap; [done|by apply user_page_u32]. }
  assert (forall a x, user_frame (vm_pg u) a -> a <> kp -> a <= x < a + PGSIZE -> mem s x = mem (vm_pg u) x) as Hmem.
  { intros a x [_ Hl] Hne Hx. by apply (proj2 (proj2 Hs a Hl Hne)). }
  assert (forall t i, pds u t <> 0 -> 0 <= i < 1024 -> pde s (pds u t) i = pde (vm_pg u) (pds u t) i) as Hpds.
  { intros t i Ht Hi. apply (frame_pde (fun a => a = kp) (vm_pg u) s); [|exact Hs| |done].
    - by apply (ss_space _ _ (mo_spaces _ _ _ Hm)).
    - intros a Ha ->. apply (pool_apart (vm_pg u) kp kp); [apply (mo_spaces _ _ _ Hm)| |apply (ho_frame _ _ _ _ _ H)|done].
      by apply (sp_kernel _ _ (ss_space _ _ (mo_spaces _ _ _ Hm) t Ht)). }
  destruct H as [_ Hsch Hfr Hsub Honly Hfree Hset Hcon Hsnd Hpde Habs Hkeep Htab Hcm]. split; try done.
  - apply vm_ok_pg; [done|done|]. intros t i Ht Hi. by rewrite Hpds.
  - intros t va pte Ht Hva. simpl. rewrite Hmap' by done. by apply Hfree.
  - intros Hsv e He Hne Hpd. change (pds (with_pg s u)) with (pds u) in *. destruct (Hset Hsv e He Hne Hpd) as (pte & Hp & Ha).
    exists pte. simpl. rewrite Ep in *. rewrite Hmap'; [done|done|]. by apply (mo_frames _ _ _ Hm e He).
  - intros Hsv t page k Ht Hp Hk Hun. rewrite <- (Hcon Hsv t page k Ht Hp Hk Hun). unfold content. change (pds (with_pg s u)) with (pds u).
    rewrite Ep. simpl. rewrite Hmap' by done. destruct (mapping (vm_pg u) (pds v t) page) as [pte|] eqn:E; [|done].
    f_equal. apply (Hmem (frame_addr pte)); [|by eapply Hfree|lia]. by eapply mapped_frame; rewrite ?Ep.
  - intros Hsv Hsd e He Hne Hpd Hpin. change (pds (with_pg s u)) with (pds u) in *.
    destruct (Hsnd Hsv Hsd e He Hne Hpd Hpin) as (se & Hse & Hb).
    exists se. split; [done|]. intros pte. change (pds (with_pg s u)) with (pds u). simpl. rewrite Ep in *.
    pose proof (mo_frames _ _ _ Hm e He) as Hf. rewrite Hmap' by (done || apply Hf). intros Hp HD k Hk.
    rewrite (Hmem (kpage e)) by (done || apply Hf || lia). by apply Hb with pte.
  - intros t i Ht Hi Hn. simpl. rewrite <- Ep in *. rewrite Hpds by done. by apply Hpde.
  - intros Hsv t page Ht Hp Hno. simpl. rewrite Hmap' by done. by apply Hkeep.
  - eapply calm_trans; [exact Hcm|]. split; [|intros a _ ?; simpl; by rewrite Hlv|apply Hs].
    rewrite <- Ep. apply spared_user; [apply Hm|]. eapply same_pages_weaken; [|exact Hs]. intros a ->. apply Hfr.
Qed.

(** *** Registering it *)
Lemma holding_register up tid kp v u ix :
  holding up tid kp v u -> user_page up -> page_u8 (mem (vm_pg u)) kp -> kp ∉ kpage <$> frames u ->
  KPAGE_INDEX u = Some ix -> ix_ok (frames u) ix ->
  holding up tid kp v
    (with_index (<[kp := Z.of_nat (List.length (frames u))]> ix) (with_frames (frames u ++ [new_frame kp up tid]) u)).
Proof.
  intros [Hok Hsch Hfr Hsub Honly Hfree Hset Hcon Hsnd Hpde Habs Hkeep Htab Hcm] Hup H8 Hnew Hi Hix. set (u' := with_index _ _).
  assert (frames u' = frames u ++ [new_frame kp up tid]) as Ef by done.
  assert (forall x, x ∈ frames u' -> x ∈ frames u \/ x = new_frame kp up tid) as Hin.
  { intros x. rewrite Ef, elem_of_app, list_elem_of_singleton. done. }
  split; try done.
  - destruct Hok as [Mm Ma Mc Mf Mi Mcl Msw Mfs Mr Mmap Mspt Msl Mown]. split; try done.
    + apply mem_ok_app; [done|]. by split.
    + eexists. split; [done|]. by apply (ix_ok_app (frames u) ix (new_frame kp up tid)).
    + intros t page se Hse. apply (spt_ok_ext u); [by apply Mspt|done..].
  - intros x [Hx| ->]%Hin; [by apply Hsub|by right].
  - intros x [Hx| ->]%Hin E; [by apply Honly|done].
  - intros Hsv e [He| ->]%Hin Hne; [by apply Hset|done].
  - intros Hsv Hsd e [He| ->]%Hin Hne; [by apply Hsnd|done].
Qed.

Lemma wp_register up tid kp v u (Q : unit -> VM D -> Prop) :
  holding up tid kp v u -> user_page up -> page_u8 (mem (vm_pg u)) kp -> kp ∉ kpage <$> frames u ->
  (forall u', holding up tid kp v u' -> vm_pg u' = vm_pg u -> new_frame kp up tid ∈ frames u' -> Q tt u') ->
  wp (register_frame kp up tid) u Q.
Proof.
  intros H Hup H8 Hnew HQ. destruct (vo_ix _ (ho_ok _ _ _ _ _ H)) as (ix & Ei & Hix).
  unfold register_frame. apply wp_bind, wp_gets. rewrite (vo_ft _ (ho_ok _ _ _ _ _ H)).
  apply wp_bind, wp_modify, wp_bind, wp_gets. simpl. rewrite Ei. apply wp_modify, HQ.
  - by apply holding_register.
  - done.
  - apply elem_of_app. right. by apply list_elem_of_singleton.
Qed.

(** *** [alloc_frame] *)
Lemma unmapped_new v u kp :
  vm_ok u -> pds u = pds v -> kp ∉ kpage <$> frames u ->
  forall t va pte, pds v t <> 0 -> user_page va -> mapping (vm_pg u) (pds v t) va = Some pte -> frame_addr pte <> kp.
Proof.
  intros Hok Ep Hnew t va pte Ht Hva Hm E. rewrite <- Ep in *.
  destruct (mo_backed _ _ _ (vo_mem _ Hok) t va pte Ht Hva Hm) as (e & He & Ek & _).
  apply Hnew, list_elem_of_fmap. exists e. split; [congruence|done].
Qed.

Lemma sv_unmapped v u t page :
  same_view v u -> pds v t <> 0 -> user_page page -> mapping (vm_pg v) (pds v t) page = None ->
  mapping (vm_pg u) (pds v t) page = None.
Proof.
  intros Hv Ht Hp Hno. destruct (mapping (vm_pg u) (pds v t) page) as [pte|] eqn:E; [|done].
  destruct (sv_mapping v u t page pte Hv Ht Hp E) as (pte0 & H0 & _). congruence.
Qed.

Lemma holding_view up tid kp v u :
  vm_ok v -> vm_ok u -> same_view v u -> user_frame (vm_pg u) kp -> kp ∉ kpage <$> frames u -> holding up tid kp v u.
Proof.
  intros Hokv Hok Hv Hfr Hnew.
  assert (forall x, x ∈ frames u -> kpage x <> kp) as Hne.
  { intros x Hx E. apply Hnew, list_elem_of_fmap. by exists x. }
  split; try done.
  - apply Hv.
  - intros x. rewrite (sv_frames _ _ Hv). by left.
  - intros x Hx E. by destruct (Hne x Hx).
  - apply unmapped_new; [done|by apply sv_pds|done].
  - intros Hsv e He _. by apply (sv_settled v u).
  - intros Hsv t page k Ht Hp Hk _. by apply sv_content.
  - intros Hsv Hsd e He _. by apply (sv_sound v u).
  - apply Hv.
  - apply Hv.
  - intros Hsv t page Ht Hp Hno. split; [by apply (sv_unmapped v)|by apply sv_entry].
  - intros t _. by rewrite (sv_spt _ _ Hv).
  - apply Hv.
Qed.

(** A page from the allocator. *)
Lemma holding_got up tid kp v s :
  vm_ok v -> same_pages (fun _ => False) (vm_pg v) s -> user_frame s kp -> live (pg_pa (vm_pg v)) kp = false ->
  (forall a, live (pg_pa s) a = is_page kp 1 a || live (pg_pa (vm_pg v)) a) ->
  holding up tid kp v (with_pg s v) /\ kp ∉ kpage <$> frames v.
Proof.
  intros Hok Hs Hu Hl Hlv. pose proof (vo_mem _ Hok) as Hm.
  assert (forall e, e ∈ frames v -> kpage e <> kp) as Hne.
  { intros e He E. destruct (fr_user _ _ (mo_frames _ _ _ Hm e He)) as [_ Hl']. congruence. }
  destruct (mem_ok_user (vm_pg v) s (pds v) (frames v) kp Hm) as [Hm' Hmap].
  { eapply same_pages_weaken; [|exact Hs]. done. }
  { destruct Hs as [[_ Eu] _]. rewrite <- Eu. apply Hu. }
  { intros e He E. by destruct (Hne e He). }
  assert (kp ∉ kpage <$> frames v) as Hnew.
  { intros (e & -> & He)%list_elem_of_fmap. by apply (Hne e He). }
  assert (forall t i, pds v t <> 0 -> 0 <= i < 1024 -> pde s (pds v t) i = pde (vm_pg v) (pds v t) i) as Hpds.
  { intros t i Ht Hi. apply (frame_pde (fun _ => False) (vm_pg v) s); [|exact Hs|tauto|done].
    by apply (ss_space _ _ (mo_spaces _ _ _ Hm)). }
  split; [|done]. apply holding_view; try done.
  - apply vm_ok_pg; [done|done|]. intros t i Ht Hi. by rewrite Hpds.
  - split; try done.
    + intros t va Ht Hva. simpl. rewrite Hmap; [done|done|by apply user_page_u32].
    + intros a [Hin Hla]. destruct Hs as [[_ Eu] H]. destruct (H a Hla) as [Hl' Hx]; [tauto|].
      split; [split; [simpl; by rewrite Eu|done]|done].
    + intros t i Ht Hi. simpl. by rewrite Hpds.
    + split; [apply spared_user; [apply Hm|]; by eapply same_pages_weaken; [|exact Hs]| |apply Hs].
      intros a Ha Hla. simpl. rewrite Hlv, Hla, orb_false_r. apply not_true_iff_false. intros Hpg.
      pose proof (proj1 (pl_paging _ (ss_pools _ _ (mo_spaces _ _ _ Hm)))) as Hpa.
      destruct Hu as [Hkp _]. destruct Hs as [[_ Eu] _]. rewrite Eu in Hkp. apply is_page_one in Hpg; [|by eapply in_pool_mod..].
      by apply (pool_apart (vm_pg v) a kp).
Qed.

(** A page from another process. *)
Lemma holding_evicted up tid v v1 h e u :
  vm_ok v -> vm_ok v1 -> exhausted (Z.lor USER ZERO) 1 (pg_pa (vm_pg v)) -> same_view v v1 -> evicted h e v1 u ->
  holding up tid (kpage e) v u /\ kpage e ∉ kpage <$> frames u.
Proof.
  intros Hok Hok1 Hex Hv Hev. pose proof (ev_ok _ _ _ _ Hev) as Hoku. pose proof (sv_pds _ _ Hv) as Ep.
  assert (kpage e ∉ kpage <$> frames u) as Hnew.
  { intros (x & E & Hx)%list_elem_of_fmap. by apply (evicted_gone h e v1 u Hok1 Hev x). }
  assert (pds u = pds v) as Epu by (rewrite (evicted_pds h e v1 u Hev); done).
  split; [|done]. split; try done.
  - rewrite (ev_sched _ _ _ _ Hev). apply Hv.
  - by apply (evicted_mem h e v1 u Hok1 Hev), (evicted_page h e v1 u Hok1 Hev).
  - intros x. rewrite (ev_frames _ _ _ _ Hev), (sv_frames _ _ Hv). intros (i & Hi)%list_elem_of_lookup.
    rewrite list_lookup_delete in Hi. left. by eapply list_elem_of_lookup_2.
  - intros x Hx E. destruct Hnew. apply list_elem_of_fmap. by exists x.
  - by apply unmapped_new.
  - intros Hsv x Hx _. apply (evicted_settled h e v1 u); [done|by apply (sv_settled v)|done|done].
  - intros Hsv t page k Ht Hp Hk [?|Hun]; [done|]. pose proof (sv_settled v v1 Hok Hv Hsv) as Hs1.
    rewrite <- (sv_content v v1 Hok Hv t page k Ht Hp Hk).
    apply (evicted_byte h e v1 u); [done|done|done|by rewrite Ep|done|done|].
    intros x. rewrite (sv_frames _ _ Hv). intros Hx Eo Eu Hpin. apply (sv_faithful v); [done|done|done|congruence|by apply Hun].
  - intros Hsv Hsd x Hx _. apply (evicted_sound h e v1 u); [done|by apply (sv_settled v)|done|by apply (sv_sound v)|done].
  - intros t i Ht Hi Hn. pose proof (pu_pde _ _ _ _ _ _ (ev_upd _ _ _ _ Hev) t i) as E. rewrite Ep in E.
    apply E; [done|done|]. by apply (sv_pde _ _ Hv).
  - rewrite (ev_abs _ _ _ _ Hev). apply Hv.
  - intros Hsv t page Ht Hp Hno. pose proof (sv_unmapped v v1 t page Hv Ht Hp Hno) as Hno1.
    assert (~ (t = owner_tid e /\ page = upage e)) as Hne.
    { intros [-> ->]. pose proof (sv_settled v v1 Hok Hv Hsv) as Hs1.
      destruct (Hs1 e) as (pte & Hm & _); [by eapply list_elem_of_lookup_2, (ev_at _ _ _ _ Hev)|by rewrite Ep|].
      rewrite Ep in Hm. congruence. }
    rewrite <- Ep in *. rewrite (evicted_mapping h e v1 u Hok1 Hev t page Ht Hp). rewrite decide_False by done.
    split; [done|]. rewrite (ev_spt _ _ _ _ Hev) by done. by apply sv_entry.
  - intros t Ht. rewrite (ev_tables _ _ _ _ Hev), (sv_spt _ _ Hv); [done|]. intros ->.
    apply (ev_pd _ _ _ _ Hev). by rewrite Ep.
  - eapply calm_trans; [apply Hv|]. rewrite <- Ep. apply (ev_calm _ _ _ _ Hev).
Qed.

Lemma store_bytes_outside kp l m x :
  List.length l = Z.to_nat PGSIZE -> ~ (kp <= x < kp + PGSIZE) -> store_bytes kp l m x = m x.
Proof. intros Hl Hx. rewrite store_bytes_at, decide_False; [done|]. unfold PGSIZE in *. lia. Qed.

(** A write of bytes inside the page that is set aside. *)
Lemma holding_poke up tid kp v u f :
  holding up tid kp v u -> (forall m x, ~ (kp <= x < kp + PGSIZE) -> f m x = m x) ->
  page_u8 (f (mem (vm_pg u))) kp ->
  holding up tid kp v (with_pg (with_pa (with_mem (f (mem (vm_pg u))) (pg_pa (vm_pg u))) (vm_pg u)) u).
Proof.
  intros H Hf H8. pose proof (ss_pools _ _ (mo_spaces _ _ _ (vo_mem _ (ho_ok _ _ _ _ _ H)))) as Hp.
  pose proof (ho_frame _ _ _ _ _ H) as Hu.
  apply holding_mem; [done|apply poke_same_pages; auto|apply (poke_user_frame (vm_pg u) kp); auto|done|].
  intros a. apply (poke_live (vm_pg u) kp); auto.
Qed.

Definition zeroed u (kp : Z) : Prop := forall k, 0 <= k < PGSIZE -> mem (vm_pg u) (kp + k) = 0.

Lemma zeroed_u8 u kp : zeroed u kp -> page_u8 (mem (vm_pg u)) kp.
Proof. intros Hz k Hk. rewrite Hz by done. unfold in_u8. lia. Qed.

Lemma wp_zero_page up tid kp v u (Q : unit -> VM D -> Prop) :
  holding up tid kp v u ->
  (forall u', holding up tid kp v u' -> zeroed u' kp -> frames u' = frames u -> Q tt u') -> wp (zero_page kp) u Q.
Proof.
  intros H HQ. apply wp_zoom, wp_modify.
  assert (forall k, 0 <= k < PGSIZE -> store_bytes kp (zeros PGSIZE) (mem (vm_pg u)) (kp + k) = 0) as Hz.
  { intros k Hk. rewrite store_bytes_at, decide_True by (rewrite zeros_length; lia). apply byte_at_zeros. }
  apply HQ; [|exact Hz|done]. apply (holding_poke _ _ _ _ _ (store_bytes kp (zeros PGSIZE))); [done| |].
  - intros m x. apply store_bytes_outside. by rewrite zeros_length.
  - intros k Hk. rewrite Hz by done. unfold in_u8. lia.
Qed.

Lemma wp_alloc_frame up tid v (Q : Z -> VM D -> Prop) :
  vm_ok v -> user_page up ->
  (forall v', vm_ok v' -> same_view v v' ->
     (settled v -> exhausted (Z.lor USER ZERO) 1 (pg_pa (vm_pg v)) /\ ~ can_evict v) -> Q 0 v') ->
  (forall kp u, kp <> 0 -> holding up tid kp v u -> zeroed u kp -> new_frame kp up tid ∈ frames u -> Q kp u) ->
  wp (alloc_frame up tid) v Q.
Proof.
  intros Hok Hup H0 HQ. unfold alloc_frame. apply wp_bind, wp_zoom, wp_get_user_page; [apply (mo_spaces _ _ _ (vo_mem _ Hok))| |].
  - intros Hex. rewrite with_pg_id. apply wp_bind, wp_evict_frame; [done|intros v' ?? Hno; apply wp_ret, H0; auto|].
    intros v1 h e u Hok1 Hv Hev. destruct (holding_evicted up tid v v1 h e u Hok Hok1 Hex Hv Hev) as [Hh Hnew].
    apply wp_bind, (wp_zero_page _ _ _ _ _ _ Hh). intros u1 Hh1 Hz1 Ef1.
    apply wp_bind, (wp_register _ _ _ _ _ _ Hh1); [done|by apply zeroed_u8|by rewrite Ef1|].
    intros u2 Hh2 Ep Hin. apply wp_ret, HQ; [|done| |done].
    + destruct (live_page (pg_pa (vm_pg u)) (kpage e)) as (Hpos & _); [|apply (ho_frame _ _ _ _ _ Hh)|lia].
      apply (mo_spaces _ _ _ (vo_mem _ (ev_ok _ _ _ _ Hev))).
    + intros k Hk. rewrite Ep. by apply Hz1.
  - intros kp s Hkp Hs Hu Hl Hz Hlv. rewrite (proj2 (Z.eqb_neq _ _) Hkp). simpl.
    destruct (holding_got up tid kp v s Hok Hs Hu Hl Hlv) as [Hh Hnew].
    apply wp_bind, (wp_register _ _ _ _ _ _ Hh); [done| |done|].
    + by apply (zeroed_u8 (with_pg s v)).
    + intros u Hhu Ep Hin. apply wp_ret, HQ; [done|done| |done]. intros k Hk. rewrite Ep. by apply Hz.
Qed.
End load.
