(* ===== verification/VmFault.v ===== *)
(** Loading a page and handling a page fault (src/vm/page.rs, src/userprog/exception.rs). *)
From S2P Require Import Prelude Btree Block Bio FreeMap Inode InodeLayout FileMap InodeOps InodeProofs Memory Palloc Thread Pagedir Swap SchedProofs Spaces Vm FrameTable VmMem VmDisk VmInv VmEvict VmLoad.

Section fault.
Context {D : Type} `{!BlockOps D, !BlockLaws D}.
Implicit Types (v u : VM D) (e : FrameEntry) (se : SptEntry).

(** *** Releasing a frame that backs no page *)
Record freed e u u' : Prop := {
  fd_ok : vm_ok u';
  fd_sched : vm_sched u' = vm_sched u;
  fd_frames : forall x, x ∈ frames u' -> x ∈ frames u /\ kpage x <> kpage e;
  fd_map : forall t va, pds u t <> 0 -> user_page va -> mapping (vm_pg u') (pds u t) va = mapping (vm_pg u) (pds u t) va;
  fd_mem : forall a, user_frame (vm_pg u) a -> a <> kpage e -> forall x, a <= x < a + PGSIZE -> mem (vm_pg u') x = mem (vm_pg u) x;
  fd_spt : SPT_TABLE u' = SPT_TABLE u /\ SWAP_MAP u' = SWAP_MAP u;
  fd_disk : vm_fs u' = vm_fs u /\ vm_bitmap u' = vm_bitmap u;
  fd_live : live (pg_pa (vm_pg u')) (kpage e) = false;
  fd_pages : same_pages (fun a => a = kpage e) (vm_pg u) (vm_pg u');
  fd_spared : spared (pds u) (vm_pg u) (vm_pg u') /\ same_pools (vm_pg u) (vm_pg u');
}.

Lemma swap_remove_elem ft ix i e x :
  ix_ok ft ix -> ft !! i = Some e -> x ∈ swap_remove i ft <-> x ∈ ft /\ kpage x <> kpage e.
Proof.
  intros Hix He. pose proof (lookup_lt_Some _ _ _ He) as Hlt. rewrite !list_elem_of_lookup.
  assert (last ft = ft !! (List.length ft - 1)%nat) as El by (rewrite last_lookup; f_equal; lia). split.
  - intros (j & Hj). rewrite swap_remove_lookup in Hj by done. case_decide; [|done]. case_decide as Hji.
    + rewrite El in Hj. split; [by eexists|]. intros E. pose proof (ix_ok_unique _ _ _ _ _ _ Hix Hj He E). lia.
    + split; [by exists j|]. intros E. by pose proof (ix_ok_unique _ _ _ _ _ _ Hix Hj He E).
  - intros [(j & Hj) Hne]. assert (j <> i) as Hji by congruence. pose proof (lookup_lt_Some _ _ _ Hj).
    destruct (decide (S j < List.length ft)%nat).
    + exists j. rewrite swap_remove_lookup by done. by rewrite decide_True, decide_False by done.
    + exists i. rewrite swap_remove_lookup by done. rewrite decide_True, decide_True by (done || lia).
      rewrite El. by replace (List.length ft - 1)%nat with j by lia.
Qed.

Lemma freed_ok u h e ix s ix' :
  vm_ok u -> frames u !! h = Some e -> KPAGE_INDEX u = Some ix -> ix_ok (frames u) ix ->
  ix_ok (swap_remove h (frames u)) ix' ->
  (forall t va pte, pds u t <> 0 -> user_page va -> mapping (vm_pg u) (pds u t) va = Some pte -> frame_addr pte <> kpage e) ->
  same_pages (fun a => a = kpage e) (vm_pg u) s -> live (pg_pa s) (kpage e) = false ->
  freed e u (with_pg s (with_index ix' (with_frames (swap_remove h (frames u)) u))).
Proof.
  intros Hok He Ei Hix Hix' Hfree Hs Hl. pose proof (vo_mem _ Hok) as Hm.
  set (ft' := swap_remove h (frames u)) in *.
  assert (forall x, x ∈ ft' <-> x ∈ frames u /\ kpage x <> kpage e) as Hin by (intros x; by eapply swap_remove_elem).
  assert (e ∈ frames u) as Hein by (by eapply list_elem_of_lookup_2).
  pose proof (mo_frames _ _ _ Hm e Hein) as Hfe.
  assert (mem_ok (vm_pg u) (pds u) ft') as Hm1.
  { apply (mem_ok_drop _ _ (frames u)); [done|by intros x [? _]%Hin|]. intros x Hx.
    destruct (decide (kpage x = kpage e)) as [E|Hne]; [right; rewrite E; exact Hfree|left; by apply Hin]. }
  destruct (mem_ok_user (vm_pg u) s (pds u) ft' (kpage e) Hm1 Hs) as [Hm2 Hmap]; [apply Hfe|by intros x [_ ?]%Hin|].
  split; try done.
  - destruct Hok as [Mm Ma Mc Mf Mi Mcl Msw Mfs Mr Mmap Mspt Msl Mown]. split; try done.
    + by exists ix'.
    + by destruct Msw; split.
    + intros t page se Hse. apply (spt_ok_ext u); [by apply Mspt|done|done|]. intros Ht. simpl.
      rewrite (frame_pde (fun a => a = kpage e) (vm_pg u) s); [done| |exact Hs| |].
      * by apply (ss_space _ _ (mo_spaces _ _ _ Hm)).
      * intros a Ha ->. apply (pool_apart (vm_pg u) (kpage e) (kpage e)); [apply (mo_spaces _ _ _ Hm)| |apply Hfe|done].
        by apply (sp_kernel _ _ (ss_space _ _ (mo_spaces _ _ _ Hm) t Ht)).
      * apply pde_idx_range, user_page_u32, (Mspt t page se Hse).
  - intros x Hx. by apply Hin.
  - intros t va Ht Hva. apply Hmap; [done|by apply user_page_u32].
  - intros a [_ Ha] Hne x Hx. by apply (proj2 (proj2 Hs a Ha Hne)).
  - split; [|apply Hs]. apply spared_user; [apply Hm|]. eapply same_pages_weaken; [|exact Hs]. intros a ->. apply Hfe.
Qed.

Lemma wp_free_frame u h e (Q : unit -> VM D -> Prop) :
  vm_ok u -> frames u !! h = Some e ->
  (forall t va pte, pds u t <> 0 -> user_page va -> mapping (vm_pg u) (pds u t) va = Some pte -> frame_addr pte <> kpage e) ->
  (forall u', freed e u u' -> Q tt u') -> wp (free_frame (kpage e)) u Q.
Proof.
  intros Hok He Hfree HQ. destruct (vo_ix _ Hok) as (ix & Ei & Hix).
  pose proof (ix_ok_swap_remove _ _ _ _ Hix He) as Hix'. cbv zeta in Hix'.
  set (ft' := swap_remove h (frames u)) in *.
  assert (ix !! kpage e = Some (Z.of_nat h)) as Hk.
  { apply Hix. rewrite Nat2Z.id, He. split; [lia|done]. }
  assert (forall ix', ix_ok ft' ix' ->
    wp (pg (on_pa (free_page (kpage e)))) (with_index ix' (with_frames ft' u)) Q) as Hend.
  { intros ix' Hi'. apply wp_zoom, wp_free_user_page; [apply (mo_spaces _ _ _ (vo_mem _ Hok))| |].
    - apply (mo_frames _ _ _ (vo_mem _ Hok)). by eapply list_elem_of_lookup_2.
    - intros s Hs Hl. apply HQ. by eapply freed_ok. }
  unfold free_frame. apply wp_bind, wp_gets, wp_bind, wp_gets, wp_bind. rewrite (vo_ft _ Hok), Ei, Hk.
  apply wp_bind, (wp_index _ _ e); [lia|by rewrite Nat2Z.id|]. rewrite Nat2Z.id. fold ft'. cbv zeta.
  apply wp_bind, wp_modify, wp_bind, wp_modify.
  destruct (Z.ltb_spec (Z.of_nat h) (Z.of_nat (List.length ft'))) as [Hlt|Hge].
  - destruct (lookup_lt_is_Some_2 ft' h) as [x Hx]; [lia|]. rewrite Hx in Hix'.
    apply wp_bind, (wp_index _ _ x); [lia|by rewrite Nat2Z.id|]. apply wp_modify.
    specialize (Hend _ Hix'). by destruct u.
  - rewrite lookup_ge_None_2 in Hix' by lia. apply wp_ret. by apply Hend.
Qed.

(** *** Installing a filled frame *)
Lemma wp_spt_entry tid page u se (Q : SptEntry -> VM D -> Prop) :
  user_page page -> spt_at u tid page = Some se -> Q se u -> wp (spt_entry tid page) u Q.
Proof.
  intros Hp Hse HQ. unfold spt_entry. apply wp_bind, wp_gets.
  assert ((SPT_TABLE u !! tid ≫= spt_find page) = Some se) as ->; [|by apply wp_ret].
  unfold spt_at, spt_find in *. by rewrite page_of_user.
Qed.

Definition present (t page : Z) u : VM D := relocate t page (fun _ => InMemory) u.

(** From [u0], in which [kp] is set aside, the frame was filled; the entry of the page is still the old one. *)
Record filled (page tid kp : Z) u0 u : Prop := {
  fl_ok : vm_ok (present tid page u);
  fl_sched : vm_sched u = vm_sched u0;
  fl_frames : frames u = frames u0;
  fl_map : forall t va, pds u0 t <> 0 -> user_page va -> mapping (vm_pg u) (pds u0 t) va = mapping (vm_pg u0) (pds u0 t) va;
  fl_mem : forall a, user_frame (vm_pg u0) a -> user_frame (vm_pg u) a /\
    (a <> kp -> forall x, a <= x < a + PGSIZE -> mem (vm_pg u) x = mem (vm_pg u0) x);
  fl_spt : SPT_TABLE u = SPT_TABLE u0;
  fl_slot : forall h s k, holds u0 h s -> 0 <= k < PGSIZE -> slot_byte (swap_view u) s k = slot_byte (swap_view u0) s k;
  fl_abs : abs (vm_fs u) = abs (vm_fs u0);
}.

Section install.
Context (v u0 u : VM D) (page tid kp : Z) (se : SptEntry).
Context (Hv : vm_ok v) (Hp : user_page page) (Hpd : pds v tid <> 0) (Hno : mapping (vm_pg v) (pds v tid) page = None).
Context (Hset : settled v) (Hse : spt_at v tid page = Some se).
Context (Hh : holding page tid kp v u0) (Hin : new_frame kp page tid ∈ frames u0) (Hfl : filled page tid kp u0 u).

Let P : Z -> Z := pds v.
Let E0 : pds u0 = P := ho_pds _ _ _ _ _ Hh.

Lemma filled_pds : pds u = P.
Proof. unfold pds at 1. rewrite (fl_sched _ _ _ _ _ Hfl). exact E0. Qed.

Lemma filled_entry : spt_at u tid page = Some se.
Proof.
  destruct (ho_keep _ _ _ _ _ Hh Hset tid page Hpd Hp Hno) as [_ E]. unfold spt_at in *.
  by rewrite (fl_spt _ _ _ _ _ Hfl), E.
Qed.

Lemma filled_frame : user_frame (vm_pg u) kp.
Proof. apply (fl_mem _ _ _ _ _ Hfl), Hh. Qed.

(** The state after the page was mapped. *)
Section mapped.
Context (w : bool) (s : Paging) (Hu : pte_upd P tid page (user_pte kp w) (vm_pg u) s).
Let F : VM D := with_pg s (present tid page u).

Lemma installed_ok : vm_ok F.
Proof.
  pose proof (fl_ok _ _ _ _ _ Hfl) as Hok. pose proof (vo_mem _ Hok) as Hm.
  assert (pds (present tid page u) = P) as Ep by (unfold pds; simpl; apply filled_pds).
  rewrite <- Ep in Hu. apply vm_ok_pg; [done| |intros; by eapply (pu_pde _ _ _ _ _ _ Hu)].
  eapply mem_ok_upd; [exact Hm|done|exact Hu|]. intros _. exists (new_frame kp page tid). split_and!; try done.
  - change (frames (present tid page u)) with (frames u). by rewrite (fl_frames _ _ _ _ _ Hfl).
  - simpl. rewrite (user_frame_addr (vm_pg u)); [done|apply (mo_spaces _ _ _ Hm)|apply filled_frame].
Qed.

Lemma installed_pds : pds F = P.
Proof. apply filled_pds. Qed.

Lemma installed_map t va : P t <> 0 -> user_page va ->
  mapping (vm_pg F) (P t) va =
    if decide (t = tid /\ va = page) then Some (user_pte kp w) else mapping (vm_pg u0) (P t) va.
Proof.
  intros Ht Hva. simpl. rewrite (pu_map _ _ _ _ _ _ Hu) by (done || by apply user_page_u32).
  destruct (decide (t = tid /\ va = page)) as [[-> ->]|Hne].
  - rewrite decide_True by done.
    destruct (user_pte_ok kp w) as (_ & _ & Hbits).
    { eapply user_frame_kernel_page; [|apply filled_frame]. apply (mo_spaces _ _ _ (vo_mem _ (fl_ok _ _ _ _ _ Hfl))). }
    rewrite Hbits by done. by destruct w.
  - rewrite decide_False by (intros [-> Hd%user_page_eq]; [by destruct Hne|done..]).
    rewrite <- E0 in *. by apply (fl_map _ _ _ _ _ Hfl).
Qed.

Lemma installed_mem a : user_frame (vm_pg u0) a ->
  (forall x, a <= x < a + PGSIZE -> mem (vm_pg F) x = mem (vm_pg u) x) /\
  (a <> kp -> forall x, a <= x < a + PGSIZE -> mem (vm_pg F) x = mem (vm_pg u0) x).
Proof.
  intros Ha. destruct (fl_mem _ _ _ _ _ Hfl a Ha) as [[Hi Hl] Hx].
  assert (forall x, a <= x < a + PGSIZE -> mem (vm_pg F) x = mem (vm_pg u) x) as H1.
  { apply (proj2 (pu_user _ _ _ _ _ _ Hu) a Hl). intros Hk. apply (pool_apart (vm_pg u) a a); try done.
    apply (mo_spaces _ _ _ (vo_mem _ (fl_ok _ _ _ _ _ Hfl))). }
  split; [done|]. intros Hne x Hr. rewrite H1 by done. by apply Hx.
Qed.

Lemma installed_spt t p : ~ (t = tid /\ p = page) -> spt_at F t p = spt_at u0 t p.
Proof.
  intros Hne. change (spt_at F t p) with (spt_at (present tid page u) t p). unfold present.
  rewrite spt_at_relocate, decide_False by done. unfold spt_at. by rewrite (fl_spt _ _ _ _ _ Hfl).
Qed.

Lemma installed_settled : settled F.
Proof.
  intros e He. rewrite installed_pds. intros Ht. change (frames F) with (frames u) in He.
  rewrite (fl_frames _ _ _ _ _ Hfl) in He. pose proof (mo_frames _ _ _ (vo_mem _ (ho_ok _ _ _ _ _ Hh)) e He) as Hf.
  rewrite installed_map by (done || apply Hf).
  assert (frame_addr (user_pte kp w) = kp) as Ea.
  { eapply user_frame_addr; [|apply filled_frame]. apply (mo_spaces _ _ _ (vo_mem _ (fl_ok _ _ _ _ _ Hfl))). }
  destruct (decide (kpage e = kp)) as [Ek|Hne].
  - rewrite (ho_only _ _ _ _ _ Hh e He Ek). rewrite decide_True by done. by eexists.
  - destruct (ho_settled _ _ _ _ _ Hh Hset e He Hne) as (pte & Hm & Ha); [by rewrite E0|]. rewrite E0 in Hm.
    rewrite decide_False; [by exists pte|]. intros [E1 E2]. rewrite E1, E2 in Hm.
    destruct (ho_keep _ _ _ _ _ Hh Hset tid page Hpd Hp Hno) as [Hn _]. unfold P in Hm. congruence.
Qed.

(** When the frame was filled with the contents of the page, nothing has changed. *)
Lemma installed_byte t p k :
  (forall k, 0 <= k < PGSIZE -> content v tid page k = Some (mem (vm_pg u) (kp + k))) ->
  pds v t <> 0 -> user_page p -> 0 <= k < PGSIZE -> unharmed v t p -> content F t p k = content v t p k.
Proof.
  intros Hb Ht Hpp Hk Hun. pose proof (ho_byte _ _ _ _ _ Hh Hset t p k Ht Hpp Hk Hun) as Hc.
  unfold content at 1. rewrite installed_pds, installed_map by done. case_decide as Hd.
  - destruct Hd as [-> ->]. rewrite Hb by done. f_equal.
    rewrite (user_frame_addr (vm_pg u)); [|apply (mo_spaces _ _ _ (vo_mem _ (fl_ok _ _ _ _ _ Hfl)))|apply filled_frame].
    apply (installed_mem kp (ho_frame _ _ _ _ _ Hh)). lia.
  - rewrite <- Hc. unfold content. rewrite E0. rewrite installed_spt by done.
    destruct (mapping (vm_pg u0) (P t) p) as [pte|] eqn:Em.
    + f_equal. apply (installed_mem (frame_addr pte)); [| |lia].
      * eapply mapped_frame; [apply Hh|by rewrite E0|done|by rewrite E0].
      * by apply (ho_free _ _ _ _ _ Hh t p).
    + destruct (spt_at u0 t p) as [x|] eqn:Ex; [|done]. simpl. destruct (location x) as [|sl| |] eqn:El; try done.
      * f_equal. rewrite <- (fl_slot _ _ _ _ _ Hfl (inl (t, p)) sl k); [done|by exists x|done].
      * unfold backing_byte. change (abs (vm_fs F)) with (abs (vm_fs u)). by rewrite (fl_abs _ _ _ _ _ Hfl).
Qed.

(** When it was filled with what a reload gives, clean frames stay faithful. *)
Lemma installed_sound :
  sound v -> (forall k, 0 <= k < PGSIZE -> mem (vm_pg u) (kp + k) = reload_byte v se k) -> abs (vm_fs u0) = abs (vm_fs v) -> sound F.
Proof.
  intros Hs Hb Eabs e He. rewrite installed_pds. intros Ht Hpin. change (frames F) with (frames u) in He.
  rewrite (fl_frames _ _ _ _ _ Hfl) in He. pose proof (mo_frames _ _ _ (vo_mem _ (ho_ok _ _ _ _ _ Hh)) e He) as Hf.
  assert (forall x k, reload_byte F x k = reload_byte u0 x k) as Er.
  { intros x k. unfold reload_byte, backing_byte. change (abs (vm_fs F)) with (abs (vm_fs u)). by rewrite (fl_abs _ _ _ _ _ Hfl). }
  destruct (decide (kpage e = kp)) as [Ek|Hne].
  - pose proof (ho_only _ _ _ _ _ Hh e He Ek) as ->. exists (set_location InMemory se). split.
    + change (spt_at F) with (spt_at (present tid page u)). unfold present. simpl.
      rewrite spt_at_relocate, decide_True by done. by rewrite filled_entry.
    + intros pte _ _ k Hk. simpl. change (mem s (kp + k)) with (mem (vm_pg F) (kp + k)).
      rewrite (proj1 (installed_mem kp (ho_frame _ _ _ _ _ Hh))) by lia.
      rewrite Hb, Er by done. unfold reload_byte, backing_byte, reload_location. simpl. by rewrite Eabs.
  - destruct (ho_content _ _ _ _ _ Hh Hset Hs) as [_ Hsb].
    destruct (Hsb e He Hne) as (x & Hx & Hxb); [by rewrite E0|done|].
    destruct (ho_settled _ _ _ _ _ Hh Hset e He Hne) as (pte0 & Hm0 & _); [by rewrite E0|]. rewrite E0 in Hm0.
    assert (~ (owner_tid e = tid /\ upage e = page)) as Hd.
    { intros [E1 E2]. rewrite E1, E2 in Hm0. destruct (ho_keep _ _ _ _ _ Hh Hset tid page Hpd Hp Hno) as [Hn _]. unfold P in Hm0. congruence. }
    exists x. rewrite installed_spt by done. split; [done|]. intros pte. rewrite installed_pds, installed_map by (done || apply Hf).
    rewrite decide_False by done. intros Hm HD k Hk. rewrite (proj2 (installed_mem (kpage e) (fr_user _ _ Hf))) by (done || lia).
    rewrite Er. apply (Hxb pte); [by rewrite E0|done|done].
Qed.
End mapped.
End install.

(** *** What loading a page does *)
Record load_post (page tid : Z) se v (ok : bool) v' : Prop := {
  lp_ok : vm_ok v';
  lp_sched : vm_sched v' = vm_sched v;
  lp_settled : settled v';
  lp_byte : harmless v v';
  lp_entry : ok = true -> spt_at v' tid page = Some (set_location InMemory se) /\ abs (vm_fs v') = abs (vm_fs v);
  lp_sound : sound v -> (ok = true -> location se = reload_location se) -> sound v';
  lp_mapped : ok = true -> exists pte, mapping (vm_pg v') (pds v tid) page = Some pte /\
    (Z.land pte PTE_W <> 0 <-> e_writable se = true) /\ Z.land pte PTE_D = 0;
  lp_fail : ok = false -> pde (vm_pg v) (pds v tid) (pde_idx page) = 0 \/
    (exhausted (Z.lor USER ZERO) 1 (pg_pa (vm_pg v)) /\ ~ can_evict v);
}.

Lemma load_post_view page tid se v v' :
  vm_ok v -> settled v -> vm_ok v' -> same_view v v' ->
  (settled v -> exhausted (Z.lor USER ZERO) 1 (pg_pa (vm_pg v)) /\ ~ can_evict v) -> load_post page tid se v false v'.
Proof.
  intros Hok Hset Hok' Hv Hf. split; try done.
  - apply Hv.
  - by apply (sv_settled v).
  - intros t p k Ht Hp Hk _. by apply sv_content.
  - intros Hs _. by apply (sv_sound v).
  - intros _. right. by apply Hf.
Qed.

(** *** Steps that no process sees *)
Record kept v v' : Prop := {
  ke_ok : vm_ok v';
  ke_sched : vm_sched v' = vm_sched v;
  ke_abs : abs (vm_fs v') = abs (vm_fs v);
  ke_settled : settled v -> settled v';
  ke_content : settled v -> sound v -> content_same v v' /\ sound v';
}.

(** Giving the frame back. *)
Lemma kept_freed v page tid u0 u kp G :
  holding page tid kp v u0 -> filled page tid kp u0 u -> freed (new_frame kp page tid) u G ->
  kept v G /\ (settled v -> harmless v G).
Proof.
  intros Hh Hfl Hfd. pose proof (ho_pds _ _ _ _ _ Hh) as E0. pose proof (ho_ok _ _ _ _ _ Hh) as Hok0.
  assert (pds u = pds v) as Eu by (unfold pds; rewrite (fl_sched _ _ _ _ _ Hfl); apply E0).
  assert (pds G = pds v) as EG by (unfold pds; rewrite (fd_sched _ _ _ Hfd); apply Eu).
  assert (forall t va, pds v t <> 0 -> user_page va -> mapping (vm_pg G) (pds v t) va = mapping (vm_pg u0) (pds v t) va) as Hmap.
  { intros t va Ht Hva. rewrite <- Eu. rewrite (fd_map _ _ _ Hfd) by (done || by rewrite Eu). rewrite Eu, <- E0.
    apply (fl_map _ _ _ _ _ Hfl); [by rewrite E0|done]. }
  assert (forall a x, user_frame (vm_pg u0) a -> a <> kp -> a <= x < a + PGSIZE -> mem (vm_pg G) x = mem (vm_pg u0) x) as Hmem.
  { intros a x Ha Hne Hx. destruct (fl_mem _ _ _ _ _ Hfl a Ha) as [Ha' Hm].
    rewrite (fd_mem _ _ _ Hfd a) by done. by apply Hm. }
  destruct (fd_spt _ _ _ Hfd) as [Espt _]. destruct (fd_disk _ _ _ Hfd) as [Efs _].
  assert (forall t p, spt_at G t p = spt_at u0 t p) as Esp by (intros; unfold spt_at; by rewrite Espt, (fl_spt _ _ _ _ _ Hfl)).
  assert (abs (vm_fs G) = abs (vm_fs u0)) as Eabs by (rewrite Efs; apply Hfl).
  assert (forall x, x ∈ frames G -> x ∈ frames u0 /\ kpage x <> kp) as Hfr.
  { intros x [Hx Hne]%(fd_frames _ _ _ Hfd). by rewrite (fl_frames _ _ _ _ _ Hfl) in Hx. }
  assert (settled v -> harmless v G) as Hbyte.
  { intros Hset t p k Ht Hpp Hk Hun. rewrite <- (ho_byte _ _ _ _ _ Hh Hset t p k Ht Hpp Hk Hun).
    unfold content. rewrite EG, E0, Hmap, Esp by done. destruct (mapping (vm_pg u0) (pds v t) p) as [pte|] eqn:Em.
    - f_equal. apply (Hmem (frame_addr pte)); [|by apply (ho_free _ _ _ _ _ Hh t p)|lia]. eapply mapped_frame; rewrite ?E0; done.
    - destruct (spt_at u0 t p) as [x|] eqn:Ex; [|done]. simpl. destruct (location x) as [|sl| |] eqn:El; try done.
      + f_equal. rewrite <- (fl_slot _ _ _ _ _ Hfl (inl (t, p)) sl k); [|by exists x|done].
        unfold slot_byte, sector, sw_dev, swap_view. simpl. by rewrite Efs.
      + unfold backing_byte. by rewrite Eabs. }
  split; [|done]. split; [apply Hfd| | | |].
  - rewrite (fd_sched _ _ _ Hfd), (fl_sched _ _ _ _ _ Hfl). apply Hh.
  - rewrite Eabs. apply Hh.
  - intros Hset e [He Hne]%Hfr. rewrite EG. intros Ht. pose proof (mo_frames _ _ _ (vo_mem _ Hok0) e He) as Hf.
    rewrite Hmap by (done || apply Hf). rewrite <- E0 in *. by apply (ho_settled _ _ _ _ _ Hh).
  - intros Hset Hs. split.
    + intros t p k Ht Hpp Hk. apply Hbyte; [done..|by apply sound_unharmed].
    + intros e [He Hne]%Hfr. rewrite EG. intros Ht Hpin. pose proof (mo_frames _ _ _ (vo_mem _ Hok0) e He) as Hf.
      destruct (proj2 (ho_content _ _ _ _ _ Hh Hset Hs) e He Hne) as (x & Hx & Hb); [by rewrite E0|done|].
      exists x. rewrite Esp. split; [done|]. rewrite EG. intros pte. rewrite Hmap by (done || apply Hf). intros Hm HD k Hk.
      rewrite (Hmem (kpage e)) by (done || apply Hf || lia). unfold reload_byte, backing_byte. rewrite Eabs.
      apply (Hb pte); [by rewrite E0|done|done].
Qed.

Section load_page.
Context (v : VM D) (page tid : Z) (se : SptEntry).
Context (Hv : vm_ok v) (Hp : user_page page) (Hpd : pds v tid <> 0) (Hno : mapping (vm_pg v) (pds v tid) page = None).
Context (Hset : settled v) (Hse : spt_at v tid page = Some se).

(** Giving the frame back. *)
Lemma load_post_freed u0 u kp G :
  holding page tid kp v u0 -> filled page tid kp u0 u -> freed (new_frame kp page tid) u G ->
  pde (vm_pg v) (pds v tid) (pde_idx page) = 0 -> load_post page tid se v false G.
Proof.
  intros Hh Hfl Hfd Hpde0. destruct (kept_freed v page tid u0 u kp G Hh Hfl Hfd) as [[Ko Ks Ka Kt Kc] Kb].
  split; [done|done|by apply Kt|by apply Kb|done|intros Hs _; by apply Kc|done|by left].
Qed.

Lemma wp_install_frame u0 u kp (Q : bool -> VM D -> Prop) :
  holding page tid kp v u0 -> new_frame kp page tid ∈ frames u0 -> filled page tid kp u0 u ->
  (pde (vm_pg u) (pds v tid) (pde_idx page) = 0 -> vm_ok u /\ pde (vm_pg v) (pds v tid) (pde_idx page) = 0) ->
  (forall k, 0 <= k < PGSIZE -> content v tid page k = Some (mem (vm_pg u) (kp + k))) ->
  (location se = reload_location se -> forall k, 0 <= k < PGSIZE -> mem (vm_pg u) (kp + k) = reload_byte v se k) ->
  (forall ok v', load_post page tid se v ok v' -> Q ok v') ->
  wp (install_frame (pds v tid) page kp tid) u Q.
Proof.
  intros Hh Hin Hfl Hfail Hb Hr HQ. pose proof (ho_abs _ _ _ _ _ Hh) as Eabs. pose proof (filled_frame v u0 u page tid kp Hh Hfl) as Huf.
  pose proof (filled_pds v u0 u page tid kp Hh Hfl) as Ep.
  pose proof (mo_spaces _ _ _ (vo_mem _ (fl_ok _ _ _ _ _ Hfl))) as Hss. change (vm_pg (present tid page u)) with (vm_pg u) in Hss.
  change (pds (present tid page u)) with (pds u) in Hss. rewrite Ep in Hss.
  pose proof (user_frame_kernel_page _ _ (ss_pools _ _ Hss) Huf) as Hkp.
  unfold install_frame. apply wp_bind, (wp_spt_entry _ _ _ se); [done|by eapply filled_entry|].
  apply wp_bind, wp_zoom, wp_set_page_spaces; [done|done|apply Hp|apply Hp|done|..].
  - intros E _. rewrite with_pg_id. destruct (Hfail E) as [Hok Hpde0].
    assert (new_frame kp page tid ∈ frames u) as (h & Hx)%list_elem_of_lookup by (by rewrite (fl_frames _ _ _ _ _ Hfl)).
    apply wp_bind, (wp_free_frame u h (new_frame kp page tid)); [done|done| |].
    + intros t va pte Ht Hva Hm. rewrite Ep in *. apply (ho_free _ _ _ _ _ Hh t va pte); [done|done|].
      rewrite <- Hm. pose proof (ho_pds _ _ _ _ _ Hh) as E0. rewrite <- E0 in *. symmetry. by apply (fl_map _ _ _ _ _ Hfl).
    + intros G Hfd. apply wp_ret, HQ. by eapply load_post_freed.
  - intros s Hu _. apply wp_bind, wp_modify, wp_ret, HQ.
    match goal with |- load_post _ _ _ _ _ ?x => change x with (with_pg s (present tid page u)) end.
    split.
    + by eapply installed_ok.
    + simpl. rewrite (fl_sched _ _ _ _ _ Hfl). apply Hh.
    + by eapply installed_settled.
    + intros t p k Ht Hpp Hk Hun. by eapply installed_byte.
    + intros _. split; [|simpl; by rewrite (fl_abs _ _ _ _ _ Hfl)]. change (spt_at (with_pg s (present tid page u))) with (spt_at (present tid page u)).
      unfold present. rewrite spt_at_relocate, decide_True by done. by erewrite filled_entry.
    + intros Hs Hl. eapply installed_sound; try done. by apply Hr, Hl.
    + intros _. exists (user_pte kp (e_writable se)).
      rewrite (installed_map v u0 u page tid kp Hp Hh Hfl (e_writable se) s Hu tid page) by done.
      rewrite decide_True by done. destruct (user_pte_ok kp (e_writable se) Hkp) as (_ & _ & Hbits).
      split; [done|]. rewrite !Hbits by done. by destruct (e_writable se).
    + done.
Qed.
End load_page.

(** *** The frame is filled *)
Lemma present_ok tid page u : vm_ok u -> user_page page -> vm_ok (present tid page u).
Proof. intros Hok Hp. by apply vm_ok_relocate. Qed.

Lemma filled_refl page tid kp u : vm_ok u -> user_page page -> filled page tid kp u u.
Proof. intros Hok Hp. split; try done. by apply present_ok. Qed.

(** A file-system operation that only reads. *)
Lemma holding_fs page tid kp v u f :
  holding page tid kp v u -> fs_ok f -> abs f = abs (vm_fs u) -> same_others FileSys (reg u) (bio_reg (fs_bio f)) ->
  holding page tid kp v (with_fs f u).
Proof.
  intros [Hok Hsch Hfr Hsub Honly Hfree Hset Hcon Hsnd Hpde Habs Hkeep] Hf Ea Ho.
  assert (forall s k, slot_byte (swap_view (with_fs f u)) s k = slot_byte (swap_view u) s k) as Esl.
  { intros s k. unfold slot_byte, sector. f_equal. unfold sw_dev, swap_view. simpl.
    rewrite (same_others_dev FileSys Swap (reg u)); [done|done|]. symmetry. apply Hok. }
  assert (forall x k, backing_byte (with_fs f u) x k = backing_byte u x k) as Efb by (intros; unfold backing_byte; simpl; by rewrite Ea).
  split; try done.
  - destruct Hok as [Mm Ma Mc Mf Mi Mcl Msw Mfs Mr Mmap Mspt Msl Mown]. split; try done.
    + destruct Msw as [Sb (d & Sd & Sz)]. split; [done|]. exists d. split; [|done]. rewrite <- Sd.
      unfold sw_dev, swap_view. simpl. apply (same_others_dev FileSys Swap (reg u)); [done|]. symmetry. done.
    + unfold reg. simpl. by rewrite !(same_others_role _ _ _ _ Ho).
    + intros t p x Hx. apply (spt_ok_ext u); [by apply Mspt|done..].
  - intros Hsv t p k Ht Hpp Hk Hun. rewrite <- (Hcon Hsv t p k Ht Hpp Hk Hun). unfold content.
    change (pds (with_fs f u)) with (pds u). change (vm_pg (with_fs f u)) with (vm_pg u).
    change (spt_at (with_fs f u)) with (spt_at u). destruct (mapping _ _ _); [done|].
    destruct (spt_at u t p) as [x|]; [|done]. simpl. destruct (location x); try done; by rewrite ?Esl, ?Efb.
  - intros Hsv Hsd e He Hne Hpd Hpin. destruct (Hsnd Hsv Hsd e He Hne Hpd Hpin) as (x & Hx & Hb). exists x. split; [done|].
    intros pte Hm HD k Hk. change (vm_pg (with_fs f u)) with (vm_pg u). rewrite (Hb pte Hm HD k Hk). unfold reload_byte. by rewrite Efb.
  - simpl. by rewrite Ea.
Qed.

Section branches.
Context (v : VM D) (page tid : Z) (se : SptEntry).
Context (Hv : vm_ok v) (Hp : user_page page) (Hpd : pds v tid <> 0) (Hno : mapping (vm_pg v) (pds v tid) page = None).
Context (Hset : settled v) (Hse : spt_at v tid page = Some se).

(** The contents of the page, once its frame is set aside. *)
Lemma holding_content u kp k :
  holding page tid kp v u -> 0 <= k < PGSIZE ->
  content v tid page k =
    match location se with
    | InSwap s => Some (slot_byte (swap_view u) s k)
    | OnDisk => Some (backing_byte u se k)
    | Zero => Some 0
    | InMemory => None
    end.
Proof.
  intros Hh Hk. rewrite <- (ho_byte _ _ _ _ _ Hh Hset tid page k Hpd Hp Hk (unmapped_unharmed v tid page Hset Hpd Hno)).
  destruct (ho_keep _ _ _ _ _ Hh Hset tid page Hpd Hp Hno) as [Hm Hsp]. unfold content.
  rewrite (ho_pds _ _ _ _ _ Hh), Hm, Hsp, Hse. done.
Qed.

(** The frame of a page of zeros, or of a file, is filled while it is set aside. *)
Lemma wp_install_held u kp (Q : bool -> VM D -> Prop) :
  holding page tid kp v u -> new_frame kp page tid ∈ frames u ->
  (location se = Zero /\ zeroed u kp \/ location se = OnDisk /\ forall k, 0 <= k < PGSIZE -> mem (vm_pg u) (kp + k) = backing_byte u se k) ->
  (forall ok v', load_post page tid se v ok v' -> Q ok v') ->
  wp (install_frame (pds v tid) page kp tid) u Q.
Proof.
  intros Hh Hin Hb HQ. pose proof (ho_ok _ _ _ _ _ Hh) as Hok. eapply wp_install_frame; try done.
  - by apply filled_refl.
  - intros E. split; [done|]. destruct (decide (pde (vm_pg v) (pds v tid) (pde_idx page) = 0)); [done|].
    destruct (ho_pde _ _ _ _ _ Hh tid (pde_idx page)); try done. by apply pde_idx_range, user_page_u32.
  - intros k Hk. rewrite (holding_content u kp k Hh Hk). destruct Hb as [[-> Hz]|[-> Hf]]; [by rewrite Hz|by rewrite Hf].
  - intros Hl k Hk. unfold reload_byte. rewrite <- Hl. destruct Hb as [[-> Hz]|[-> Hf]]; [by apply Hz|].
    rewrite Hf by done. unfold backing_byte. by rewrite (ho_abs _ _ _ _ _ Hh).
Qed.

(** Reading the file's part of the page. *)
Lemma wp_fill_file u kp (Q : unit -> VM D -> Prop) :
  holding page tid kp v u -> zeroed u kp -> new_frame kp page tid ∈ frames u -> location se = OnDisk -> 0 < read_bytes se ->
  (forall u', holding page tid kp v u' -> new_frame kp page tid ∈ frames u' ->
     (forall k, 0 <= k < PGSIZE -> mem (vm_pg u') (kp + k) = backing_byte u' se k) -> Q tt u') ->
  wp (let! dst := u32_add kp (page_ofs se) in
      let! buf := gets (fun v => load_bytes (mem (vm_pg v)) dst (read_bytes se)) in
      let! r := fs (read_at (inode_sector se) buf (as_i32 (read_bytes se)) (as_i32 (file_offset se))) in
      poke (store_bytes dst (snd r))) u Q.
Proof.
  intros Hh Hz Hin Hl Hrb HQ. pose proof (ho_ok _ _ _ _ _ Hh) as Hok.
  destruct (vo_spt _ Hv tid page se Hse) as [_ [Hpo [Hrb0 Hfit]] Hfile _]. destruct (Hfile Hrb) as [Hfa [Hfo Hfm]].
  destruct (live_page (pg_pa (vm_pg u)) kp) as (Hkp & Hal & Hlim & _); [apply (mo_spaces _ _ _ (vo_mem _ Hok))|apply Hh|].
  apply wp_bind, wp_u32_add; [unfold PGSIZE in *; lia|]. apply wp_bind, wp_gets.
  set (buf := load_bytes _ _ _).
  assert (List.length buf = Z.to_nat (read_bytes se)) as Hlen by (unfold buf, load_bytes, range; rewrite length_fmap, length_seqZ; lia).
  assert (forall k, 0 <= k < read_bytes se -> byte_at buf k = 0) as Hbuf.
  { intros k Hk. unfold buf. rewrite load_bytes_at by done.
    replace (kp + page_ofs se + k) with (kp + (page_ofs se + k)) by lia. apply Hz. lia. }
  rewrite (as_i32_small (read_bytes se)), (as_i32_small (file_offset se)) by (unfold PGSIZE, i32_max in *; lia).
  apply wp_bind, wp_zoom. rewrite <- (ho_abs _ _ _ _ _ Hh) in Hfa.
  eapply wp_mono; [apply wp_wlp_conj; [apply wp_read_at|apply (keeps_read_at (reg u))]|].
  - apply Hok.
  - done.
  - rewrite Hlen. lia.
  - unfold PGSIZE, i32_max in *. lia.
  - done.
  - unfold files_only, fs_only. reflexivity.
  - intros [n out] f [(Hf & Ea & Hn & Hol & Hob) Ho]. simpl in *.
    pose proof (holding_fs page tid kp v u f Hh Hf Ea Ho) as Hh1. apply wp_zoom, wp_modify.
    set (dst := kp + page_ofs se) in *.
    assert (forall m k, 0 <= k < PGSIZE -> store_bytes dst out m (kp + k) =
      if decide (page_ofs se <= k < page_ofs se + read_bytes se) then byte_at out (k - page_ofs se) else m (kp + k)) as Hst.
    { intros m k Hk. rewrite store_bytes_at, Hol, Hlen. unfold dst. case_decide; case_decide; try lia; try done. f_equal. lia. }
    assert (forall k, 0 <= k < PGSIZE -> store_bytes dst out (mem (vm_pg u)) (kp + k) = backing_byte u se k) as Hfin.
    { intros k Hk. rewrite Hst by done. unfold backing_byte. case_decide as Hd1.
      - rewrite Hob by lia. rewrite Hn. case_decide as Hd2.
        + rewrite decide_True by lia. done.
        + rewrite decide_False by lia. apply Hbuf. lia.
      - rewrite decide_False by lia. by apply Hz. }
    apply HQ.
    + apply (holding_poke page tid kp v (with_fs f u) (store_bytes dst out)); [done| |].
      * intros m x Hx. rewrite store_bytes_at, Hol, Hlen. apply decide_False. unfold dst, PGSIZE in *. lia.
      * intros k Hk. simpl. rewrite Hfin by done. unfold backing_byte. case_decide; [|unfold in_u8; lia].
        apply contents_u8, Hok.
    + done.
    + intros k Hk. transitivity (backing_byte u se k); [exact (Hfin k Hk)|]. unfold backing_byte. simpl. by rewrite Ea.
Qed.

(** Reading the page back from swap. *)
Lemma wp_fill_swap u kp slot (Q : unit -> VM D -> Prop) :
  holding page tid kp v u -> location se = InSwap slot ->
  (forall u', filled page tid kp u u' ->
     (forall k, 0 <= k < PGSIZE -> mem (vm_pg u') (kp + k) = slot_byte (swap_view u) slot k) ->
     pde (vm_pg u') (pds v tid) (pde_idx page) <> 0 -> Q tt u') ->
  wp (swap (swap_in slot kp)) u Q.
Proof.
  intros Hh Hl HQ. pose proof (ho_ok _ _ _ _ _ Hh) as Hok. pose proof (ho_pds _ _ _ _ _ Hh) as Ep.
  destruct (ho_keep _ _ _ _ _ Hh Hset tid page Hpd Hp Hno) as [_ Hsp]. rewrite Hse in Hsp.
  assert (holds u (inl (tid, page)) slot) as Hhold by (by exists se).
  destruct (vo_slots _ Hok _ _ Hhold) as [Hs0 Hbit]. pose proof (lookup_lt_Some _ _ _ Hbit) as Hlt.
  destruct (so_dev _ _ (vo_swap _ Hok)) as (d & Hd & _).
  apply wp_zoom, (wp_swap_in (slots u)); [apply Hok|lia|]. intros w Hsw _ Hoth Hm Hsl.
  set (s := with_pa (with_mem (sw_mem w) (pg_pa (vm_pg u))) (vm_pg u)).
  assert (forall k, 0 <= k < PGSIZE -> sw_mem w (kp + k) = slot_byte (swap_view u) slot k) as Hkp.
  { intros k Hk. rewrite Hm, decide_True by lia. f_equal. lia. }
  assert (forall x, ~ (kp <= x < kp + PGSIZE) -> sw_mem w x = mem (vm_pg u) x) as Hf0.
  { intros x Hx. by rewrite Hm, decide_False. }
  pose proof (ss_pools _ _ (mo_spaces _ _ _ (vo_mem _ Hok))) as Hpools. pose proof (ho_frame _ _ _ _ _ Hh) as Hfr.
  pose proof (poke_same_pages (vm_pg u) kp _ Hpools Hfr Hf0 : same_pages _ _ s) as Hsame.
  pose proof (poke_user_frame (vm_pg u) kp _ kp Hpools Hfr Hf0 Hfr : user_frame s kp) as Hfr'.
  assert (page_u8 (mem s) kp) as H8.
  { intros k Hk. change (in_u8 (sw_mem w (kp + k))). rewrite Hkp by done. apply slot_byte_u8. by exists d. }
  pose proof (holding_mem _ _ _ _ _ _ Hh Hsame Hfr' H8 (fun a => poke_live (vm_pg u) kp _ a Hpools Hfr Hf0)) as Hh1. pose proof (ho_ok _ _ _ _ _ Hh1) as Hok1.
  set (R := present tid page (with_pg s u)). pose proof (present_ok tid page _ Hok1 Hp : vm_ok R) as HokR.
  assert (forall h x, holds R h x -> holds u h x /\ x <> slot) as HR.
  { intros h x Hx. destruct (holds_relocate _ _ _ _ _ _ Hp Hx) as [Hx'|(_ & ? & _ & ?)]; [|done].
    split; [done|]. intros ->. pose proof (vo_own _ Hok _ _ _ Hhold Hx') as <-.
    destruct Hx as (x & Hxe & Hxl). unfold R, present in Hxe. rewrite spt_at_relocate, decide_True in Hxe by done.
    apply fmap_Some in Hxe as (y & _ & ->). done. }
  destruct (vm_ok_swap R w (<[Z.to_nat slot := false]> (slots u)) HokR Hsw eq_refl Hoth) as (Epg & Hok2 & _).
  { intros h x Hx. destruct (HR h x Hx) as [Hxu Hne]. destruct (vo_slots _ Hok h x Hxu) as [Hx0 Hxb].
    rewrite list_lookup_insert_ne; [done|lia]. }
  { intros h x k Hx Hk. rewrite Hsl. done. }
  assert (forall t va, pds u t <> 0 -> user_page va -> mapping s (pds u t) va = mapping (vm_pg u) (pds u t) va) as Hmap.
  { intros t va Ht Hva. eapply (mem_ok_user (vm_pg u) s (pds u) (frames u) kp (vo_mem _ Hok) Hsame); [apply Hfr| |done|by apply user_page_u32].
    intros e He E. split; [by rewrite E|by rewrite E|]. by apply (mo_frames _ _ _ (vo_mem _ Hok) e He). }
  apply HQ; [split|..]; try done.
  - intros a Ha. split; [|].
    + exact (poke_user_frame (vm_pg u) kp _ a Hpools Hfr Hf0 Ha).
    + intros Hne x Hx. by apply (proj2 (proj2 Hsame a (proj2 Ha) Hne)).
  - intros h x k Hx Hk. exact (Hsl x k).
  - apply (same_others_dev Swap FileSys) in Hoth as Edev; [|apply Hok].
    by apply (fs_same_dev (vm_fs u) (vm_fs (with_swap w u))); [exact Edev|done..|apply Hok].
  - rewrite <- Ep. pose proof (vo_spt _ Hok1 tid page se) as Hx. destruct Hx as [_ _ _ Ht]; [exact Hsp|].
    apply (Ht slot Hl). change (pds (with_pg s u)) with (pds u). by rewrite Ep.
Qed.

(** [load_page] *)
Lemma wp_load_page (Q : bool -> VM D -> Prop) :
  location se <> InMemory -> (forall ok v', load_post page tid se v ok v' -> Q ok v') ->
  wp (load_page (pds v tid) page tid) v Q.
Proof.
  intros Hmem HQ.
  assert (forall v', vm_ok v' -> same_view v v' ->
    (settled v -> exhausted (Z.lor USER ZERO) 1 (pg_pa (vm_pg v)) /\ ~ can_evict v) -> Q false v') as Hfail
    by (intros; by apply HQ, load_post_view).
  assert (forall u kp, holding page tid kp v u -> spt_at u tid page = Some se) as Hent.
  { intros u kp Hh. destruct (ho_keep _ _ _ _ _ Hh Hset tid page Hpd Hp Hno) as [_ ->]. done. }
  unfold load_page. apply wp_bind, (wp_spt_entry _ _ _ se); [done|done|].
  destruct (location se) as [|slot| |] eqn:El; [done|..].
  all: apply wp_bind, wp_alloc_frame; [done|done|by intros; apply wp_ret, Hfail|].
  all: intros kp u Hkp Hh Hz Hin; rewrite (proj2 (Z.eqb_neq _ _) Hkp).
  - apply wp_bind, (wp_fill_swap _ _ _ _ Hh El). intros u' Hfl Hb Hpde. eapply wp_install_frame; try done.
    + intros k Hk. by rewrite (holding_content u kp k Hh Hk), El, Hb.
    + intros E. rewrite El in E. unfold reload_location in E. by repeat case_match.
  - apply wp_bind, (wp_zero_page _ _ _ _ _ _ Hh). intros u1 Hh1 Hz1 Ef1. rewrite <- Ef1 in Hin.
    apply wp_bind, (wp_spt_entry _ _ _ se); [done|by eapply Hent|]. apply wp_bind.
    destruct (Z.ltb_spec 0 (read_bytes se)) as [Hrb|Hrb].
    + apply (wp_fill_file u1 kp); [done..|]. intros u2 Hh2 Hin2 Hb2. eapply wp_install_held; try done. by right.
    + apply wp_ret. eapply wp_install_held; try done. right. split; [done|]. intros k Hk. rewrite Hz1 by done.
      unfold backing_byte. rewrite decide_False; [done|]. lia.
  - eapply wp_install_held; try done. by left.
Qed.
End branches.

(** *** Interrupts on, as the handler begins *)
Definition interruptible v : VM D := with_sched (with_level true (vm_sched v)) v.

Lemma interruptible_view v : vm_ok v -> vm_ok (interruptible v) /\ pds (interruptible v) = pds v.
Proof.
  intros [Mm Ma Mc Mf Mi Mcl Msw Mfs Mr Mmap Mspt Msl Mown]. split; [|done]. split; try done.
  intros t page se Hse. by destruct (Mspt t page se Hse); split.
Qed.

Lemma wp_enable v (Q : bool -> VM D -> Prop) :
  Q (level (vm_sched v)) (interruptible v) -> wp (threads_do intr_enable) v Q.
Proof. done. Qed.

(** The current process. *)
Lemma wp_current v th (Q : Z * Z -> VM D -> Prop) :
  threads (vm_sched v) !! current (vm_sched v) = Some th -> Q (pagedir th, tid th) v -> wp current_space v Q.
Proof.
  intros Hth HQ. unfold current_space, wp, threads_do, zoom, bind, running_thread, gets, deref. rewrite Hth. simpl.
  by rewrite with_sched_id.
Qed.

(** *** Growing the stack *)
Definition grow (t page : Z) v : VM D := with_spts (alter (spt_insert (stack_entry page)) t (SPT_TABLE v)) v.

Lemma spt_at_grow t page v t' p :
  spt_at (grow t page v) t' p =
    if decide (t' = t /\ p = page /\ is_Some (SPT_TABLE v !! t)) then Some (stack_entry page) else spt_at v t' p.
Proof.
  unfold spt_at, grow, spt_insert. simpl. destruct (decide (t' = t)) as [->|Hne].
  - rewrite lookup_alter_eq. destruct (SPT_TABLE v !! t) as [spt|]; simpl.
    + destruct (decide (p = page)) as [->|Hp]; [by rewrite lookup_insert_eq, decide_True by (done || by eexists)|].
      by rewrite lookup_insert_ne, decide_False by (done || by intros (_ & ? & _)).
    + by rewrite decide_False by (intros (_ & _ & [? ?]); done).
  - rewrite lookup_alter_ne by done. by rewrite decide_False by (by intros (? & _)).
Qed.

Lemma vm_ok_grow t page v : vm_ok v -> user_page page -> vm_ok (grow t page v).
Proof.
  intros [Mm Ma Mc Mf Mi Mcl Msw Mfs Mr Mmap Mspt Msl Mown] Hp.
  assert (forall h s, holds (grow t page v) h s -> holds v h s) as Hh.
  { intros [[t' p]|k] s; [|done]. intros (se & Hse & Hl). rewrite spt_at_grow in Hse.
    case_decide; [by simplify_eq|by exists se]. }
  split; try done.
  - intros t' p se. rewrite spt_at_grow. case_decide as Hd.
    + destruct Hd as (-> & -> & _). intros [= <-]. split; [done|simpl; unfold PGSIZE; lia|simpl; lia|done].
    + intros Hse. apply (spt_ok_ext v); [by apply Mspt|done..].
  - intros h s Hx%Hh. by apply (Msl h).
  - intros h h' s H1%Hh H2%Hh. by apply (Mown h h' s).
Qed.

Lemma wp_fault_stack v th page fault esp (Q : option fault_result -> VM D -> Prop) :
  vm_ok v -> settled v ->
  threads (vm_sched v) !! current (vm_sched v) = Some th -> pagedir th <> 0 ->
  PHYS_BASE - USER_STACK_MAX <= fault < PHYS_BASE -> (esp - 32) mod u32_lim <= fault -> page = fault - fault mod PGSIZE ->
  mapping (vm_pg v) (pagedir th) page = None ->
  (forall v', vm_ok v' -> settled v' ->
     pde (vm_pg v) (pagedir th) (pde_idx page) = 0 \/ (exhausted (Z.lor USER ZERO) 1 (pg_pa (vm_pg v)) /\ ~ can_evict v) ->
     Q None v') ->
  (forall v', vm_ok v' -> settled v' -> (exists pte, mapping (vm_pg v') (pagedir th) page = Some pte /\ Z.land pte PTE_W <> 0) ->
     (forall k, 0 <= k < PGSIZE -> content v' (tid th) page k = Some 0) ->
     (forall t p k, ~ (t = tid th /\ p = page) -> pds v t <> 0 -> user_page p -> 0 <= k < PGSIZE -> unharmed v t p ->
        content v' t p k = content v t p k) -> Q (Some Handled) v') ->
  wp (fault_stack fault esp) v Q.
Proof.
  intros Hok Hset Hth Hpd0 Hwin Hesp -> Hno Hfail HQ. unfold fault_stack. set (page := fault - fault mod PGSIZE) in *.
  assert (user_page page) as Hp by (unfold user_page, page, USER_STACK_MAX, PHYS_BASE, PGSIZE in *; Z.div_mod_to_equations; lia).
  rewrite (proj2 (Z.leb_le _ _)), (proj2 (Z.ltb_lt _ _)), (proj2 (Z.leb_le _ _)) by lia. simpl.
  rewrite land_not_pgmask by (unfold in_u32, u32_lim, PHYS_BASE in *; unfold USER_STACK_MAX in *; lia). fold page.
  apply wp_bind, (wp_current v th); [done|]. rewrite (proj2 (Z.eqb_neq _ _) Hpd0).
  pose proof (pds_current v th Hok Hth) as Epd. rewrite <- Epd in *.
  apply wp_bind, wp_alloc_frame; [done|done| |].
  { intros v' Hok' Hv' Hf. apply wp_ret, Hfail; [done|by apply (sv_settled v)|right; by apply Hf]. }
  intros kp u Hkp Hh Hz Hin. rewrite (proj2 (Z.eqb_neq _ _) Hkp). pose proof (ho_ok _ _ _ _ _ Hh) as Hoku.
  pose proof (filled_refl page (tid th) kp u Hoku Hp) as Hfl. pose proof (ho_pds _ _ _ _ _ Hh) as Ep.
  pose proof (mo_spaces _ _ _ (vo_mem _ Hoku)) as Hss. rewrite Ep in Hss.
  pose proof (user_frame_kernel_page _ _ (ss_pools _ _ Hss) (ho_frame _ _ _ _ _ Hh)) as Hkk.
  apply wp_bind, wp_zoom, wp_set_page_spaces; [done|done|apply Hp|apply Hp|done|..].
  - intros E _. rewrite with_pg_id. pose proof Hin as (h & Hx)%list_elem_of_lookup.
    apply wp_bind, (wp_free_frame u h (new_frame kp page (tid th))); [done|done| |].
    + intros t va pte Ht Hva Hm. rewrite Ep in *. by apply (ho_free _ _ _ _ _ Hh t va pte).
    + intros G Hfd. apply wp_ret.
      assert (pde (vm_pg v) (pds v (tid th)) (pde_idx page) = 0) as E0.
      { destruct (decide (pde (vm_pg v) (pds v (tid th)) (pde_idx page) = 0)); [done|].
        destruct (ho_pde _ _ _ _ _ Hh (tid th) (pde_idx page)); try done. by apply pde_idx_range, user_page_u32. }
      assert (load_post page (tid th) (stack_entry page) v false G) as [Lok _ Lset _ _ _ _ _] by (by eapply load_post_freed).
      apply Hfail; [done|done|by left].
  - intros s Hu _. set (F := with_pg s (present (tid th) page u)).
    assert (vm_ok F) as HokF by (by eapply installed_ok). assert (settled F) as HsetF by (by eapply installed_settled).
    apply wp_bind, wp_modify, wp_ret.
    match goal with |- Q _ ?x => change x with (grow (tid th) page (with_pg s u)) end.
    assert (vm_ok (with_pg s u)) as Hok1.
    { apply vm_ok_pg; [done|exact (vo_mem _ HokF)|]. intros t i Ht Hi. rewrite Ep in *. by apply (pu_pde _ _ _ _ _ _ Hu). }
    pose proof (installed_map v u u page (tid th) kp Hp Hh Hfl true s Hu) as Hmap.
    pose proof (installed_mem v u u page (tid th) kp Hfl true s Hu) as Hmem.
    change (vm_pg F) with s in *. change (vm_pg (with_pg s (present (tid th) page u))) with s in *.
    assert (frame_addr (user_pte kp true) = kp) as Ea by (eapply user_frame_addr; [apply Hss|apply Hh]).
    destruct (user_pte_ok kp true Hkk) as (_ & _ & Hbits).
    apply HQ.
    + by apply vm_ok_grow.
    + exact HsetF.
    + exists (user_pte kp true). change (vm_pg (grow (tid th) page (with_pg s u))) with s.
      rewrite Hmap, decide_True by done. split; [done|]. by rewrite Hbits.
    + intros k Hk. unfold content. change (vm_pg (grow (tid th) page (with_pg s u))) with s.
      change (pds (grow (tid th) page (with_pg s u))) with (pds u). rewrite Ep, Hmap, decide_True by done. f_equal.
      rewrite Ea. rewrite (proj1 (Hmem kp (ho_frame _ _ _ _ _ Hh))) by lia. by apply Hz.
    + intros t p k Hne Ht Hpp Hk Hun. rewrite <- (ho_byte _ _ _ _ _ Hh Hset t p k Ht Hpp Hk Hun). unfold content.
      change (vm_pg (grow (tid th) page (with_pg s u))) with s. change (pds (grow (tid th) page (with_pg s u))) with (pds u).
      rewrite Ep, Hmap, decide_False by done. rewrite spt_at_grow, decide_False by (intros (-> & -> & _); by destruct Hne).
      destruct (mapping (vm_pg u) (pds v t) p) as [pte|] eqn:Em; [|done]. f_equal.
      apply (Hmem (frame_addr pte)); [|by apply (ho_free _ _ _ _ _ Hh t p)|lia]. eapply mapped_frame; rewrite ?Ep; done.
Qed.
End fault.
