(* ===== verification/VmDemo.v ===== *)
(** A small machine with one process: a page in memory, a page in swap, and a page not yet loaded. *)
From S2P Require Import Prelude Btree Block Bio FreeMap Inode InodeLayout FileMap InodeOps InodeAlloc InodeProofs Memory Palloc Thread Pagedir Swap SchedProofs Spaces Vm FrameTable VmMem VmDisk VmInv VmEvict VmLoad VmFault.

Definition page_a : Z := 0x08048000.
Definition page_b : Z := 0x08049000.
Definition page_c : Z := 0x0804A000.
Definition frame_a : Z := 0xC0106000.
Definition proc_pd : Z := 0xC0101000.
Definition proc_pt : Z := 0xC0103000.
Definition stack_pt : Z := 0xC0102000.

(** What the first page begins with: the words of a call [write(1, buf, 2)], the buffer, and the words of [read(2, page, 4)]. *)
Definition page_text : list Z :=
  [6; 0; 0; 0; 1; 0; 0; 0; 0x10; 0x80; 0x04; 0x08; 2; 0; 0; 0; 104; 105; 5; 0; 0; 0; 2; 0; 0; 0; 0; 0x80; 0x04; 0x08; 4; 0; 0; 0].

(** The directory and its two tables (the one for the stack is empty), and the frame of the first page. *)
Definition vm_mem : Mem :=
  write_u32 (proc_pt + 4 * pte_idx page_a) 0x00106067 (write_u32 (proc_pd + 4 * pde_idx page_a) 0x00103007
    (write_u32 (proc_pd + 4 * 767) 0x00102007
    (fun x => if decide (x = 0xC0100000) then 7 else if decide (x = 0xC0105000) then 1 
       else if decide (frame_a <= x < frame_a + 34) then byte_at page_text (x - frame_a) else 0))).

Definition vm_paging : Paging := mkPaging (with_mem vm_mem demo_pa) proc_pd 0x00101000 [].

Definition proc_thread : Thread :=
  mkThread 3 Running [115; 104] 0xC0300F00 31 31 proc_pd 1 0 1 0x08050000 1 false 3 0 0 0.
Definition vm_threads : Sched :=
  mkSched (<[0xC0300000 := proc_thread]> ∅) [] [0xC0300000] 0 0xC0300000 0 4 0xC0300000 false false false 0x00101000 0xC0301000 ∅.

(** The file system of one file and, as device 1, a swap area of four slots; the first is in use. *)
Definition vm_files : FS RamDisk :=
  mkFS (mkBio (mkRegistry (DEVICES (bio_reg (fs_bio demo_fs)) ++ [mkDevice [104; 100; 98; 0] Raw 32 (<[0 := [7]]> ∅) 0 0])
                 [Some 0%nat; None; Some 1%nat; None])
          (bio_cache (fs_bio demo_fs))) (fs_fm demo_fs) (fs_inodes demo_fs).

Definition anon (page : Z) (l : PageLocation) : SptEntry := mkSpt page l Anonymous true 0 0 0 0.

Definition demo_vm : VM RamDisk :=
  mkVM vm_paging vm_files vm_threads (Some [true; false; false; false]) 4
    (Some [mkFrame frame_a page_a 3 true]) (Some (<[frame_a := 0]> ∅)) 0 (Some ∅)
    (<[3 := <[page_a := anon page_a InMemory]> (<[page_b := anon page_b (InSwap 0)]> (<[page_c := anon page_c Zero]> ∅))]> ∅).

Lemma vm_pds t : pds demo_vm t = if decide (t = 3) then proc_pd else 0.
Proof.
  assert (threads (vm_sched demo_vm) !! 0xC0300000 = Some proc_thread) as Et by (vm_compute; reflexivity).
  unfold pds, pd_of. change (ALL_LIST (vm_sched demo_vm)) with [0xC0300000]. cbn [List.find]. unfold has_tid.
  rewrite Et. cbn [from_option]. change (tid proc_thread) with 3.
  destruct (Z.eqb_spec 3 t) as [<-|Hne]; [|by rewrite decide_False by congruence].
  rewrite decide_True by done. cbn [from_option]. by rewrite Et.
Qed.

Lemma vm_mem_zero x : ~ (proc_pt + 0x120 <= x < proc_pt + 0x124) -> ~ (proc_pd + 0x80 <= x < proc_pd + 0x84) ->
  ~ (proc_pd + 0xBFC <= x < proc_pd + 0xC00) -> x <> 0xC0100000 -> x <> 0xC0105000 ->
  ~ (frame_a <= x < frame_a + 34) -> vm_mem x = 0.
Proof.
  intros H1 H2 H0 H3 H4 H5. unfold vm_mem. rewrite write_u32_frame by exact H1. rewrite write_u32_frame by exact H2.
  rewrite write_u32_frame by exact H0.
  by rewrite !decide_False.
Qed.

Lemma vm_mem_text i : 0 <= i < 34 -> vm_mem (frame_a + i) = byte_at page_text i.
Proof.
  intros Hi. unfold vm_mem. assert (pte_idx page_a = 0x48 /\ pde_idx page_a = 32) as [-> ->] by done.
  rewrite !write_u32_frame by (unfold proc_pt, proc_pd, frame_a; lia). unfold frame_a.
  rewrite !decide_False by lia. rewrite decide_True by lia. f_equal. lia.
Qed.

Lemma vm_pde i : 0 <= i < 1024 -> i <> 32 -> i <> 767 -> pde vm_paging proc_pd i = 0.
Proof.
  intros Hi Hne Hne'. unfold pde. change (mem vm_paging) with vm_mem. unfold read_u32.
  rewrite !vm_mem_zero by (unfold proc_pd, proc_pt, frame_a; lia). done.
Qed.

Lemma vm_pde_32 : pde vm_paging proc_pd 32 = 0x00103007.
Proof. vm_compute. reflexivity. Qed.

Lemma vm_pde_767 : pde vm_paging proc_pd 767 = 0x00102007.
Proof. vm_compute. reflexivity. Qed.

Lemma vm_pte_stack i : 0 <= i < 1024 -> read_u32 vm_mem (stack_pt + 4 * i) = 0.
Proof.
  intros Hi. unfold read_u32. rewrite !vm_mem_zero by (unfold proc_pd, proc_pt, stack_pt, frame_a; lia). done.
Qed.

Lemma vm_pte i : 0 <= i < 1024 -> i <> 0x48 -> read_u32 vm_mem (proc_pt + 4 * i) = 0.
Proof.
  intros Hi Hne. unfold read_u32. rewrite !vm_mem_zero by (unfold proc_pd, proc_pt, frame_a; lia). done.
Qed.

Lemma vm_uses a : uses vm_paging proc_pd a -> a = proc_pd \/ a = proc_pt \/ a = stack_pt.
Proof.
  intros [-> | (i & Hi & Hn & ->)]; [by left|]. destruct (decide (i = 32)) as [->|Hne]; [right; left; by vm_compute|].
  destruct (decide (i = 767)) as [->|Hne']; [right; right; by vm_compute|]. by rewrite vm_pde in Hn.
Qed.

Lemma vm_mem_u8 x : in_u8 (vm_mem x).
Proof. unfold vm_mem. do 3 apply write_u32_u8. repeat case_decide; try (apply byte_at_u8; unfold page_text; repeat constructor; done); done. Qed.

Lemma vm_space : space vm_paging proc_pd.
Proof.
  assert (forall i, 0 <= i < 1024 -> pde vm_paging proc_pd i <> 0 -> i = 32 \/ i = 767) as H.
  { intros i Hi Hn. destruct (decide (i = 32)); [by left|]. destruct (decide (i = 767)); [by right|]. by rewrite vm_pde in Hn. }
  split.
  - split.
    + by vm_compute.
    + intros i Hi Hn. destruct (H i Hi Hn) as [-> | ->]; split; vm_compute; done.
    + intros i j Hi Hj Hni Hnj. destruct (H i Hi Hni) as [-> | ->], (H j Hj Hnj) as [-> | ->]; done || by vm_compute.
  - intros a [-> | [-> | ->]]%vm_uses; by vm_compute.
  - intros i Hi Hn k Hk. apply vm_mem_u8.
Qed.

Lemma vm_mapping va : user_page va ->
  mapping vm_paging proc_pd va = if decide (va = page_a) then Some 0x00106067 else None.
Proof.
  intros Hva. case_decide as E; [subst; by vm_compute|]. unfold mapping.
  destruct (decide (pde_idx va = 32)) as [Ei|Ei].
  2:{ destruct (decide (pde_idx va = 767)) as [Es|Es].
      - rewrite Es, vm_pde_767. change (0x00102007 =? 0) with false. cbv iota. unfold pte_at, table. rewrite Es, vm_pde_767.
        change (PHYS_BASE + Z.land 0x00102007 PTE_ADDR) with stack_pt. change (mem vm_paging) with vm_mem.
        rewrite vm_pte_stack; [done|apply pte_idx_range].
      - by rewrite vm_pde; [|apply pde_idx_range, user_page_u32| |]. }
  rewrite Ei, vm_pde_32. change (0x00103007 =? 0) with false. cbv iota. unfold pte_at, table. rewrite Ei, vm_pde_32.
  change (PHYS_BASE + Z.land 0x00103007 PTE_ADDR) with proc_pt. change (mem vm_paging) with vm_mem.
  rewrite vm_pte; [done|apply pte_idx_range|]. intros Ej. apply E, user_page_eq; [done|by vm_compute|].
  apply same_page. by rewrite Ei, Ej.
Qed.

Lemma vm_spt_at t page se : spt_at demo_vm t page = Some se ->
  t = 3 /\ (page = page_a /\ se = anon page_a InMemory \/ page = page_b /\ se = anon page_b (InSwap 0) \/ page = page_c /\ se = anon page_c Zero).
Proof.
  unfold spt_at. simpl. intros (spt & [[<- <-]|[_ ?]]%lookup_insert_Some & Hs)%bind_Some; [|done]. split; [done|].
  repeat (apply lookup_insert_Some in Hs as [[<- <-]|[_ Hs]]; [tauto|]). by rewrite lookup_empty in Hs.
Qed.

Lemma vm_user page : page = page_a \/ page = page_b \/ page = page_c -> user_page page.
Proof. intros [-> | [-> | ->]]; by vm_compute. Qed.

Lemma vm_files_ok : fs_ok vm_files /\ abs vm_files = abs demo_fs.
Proof. apply (fs_same_dev demo_fs vm_files); [reflexivity..|exact demo_fs_ok]. Qed.

Lemma vm_holds h s : holds demo_vm h s -> h = inl (3, page_b) /\ s = 0.
Proof.
  destruct h as [[t page]|k]; [|done]. intros (se & Hse & Hl).
  apply vm_spt_at in Hse as (-> & [[-> ->]|[[-> ->]|[-> ->]]]); try done. by injection Hl as <-.
Qed.

Lemma demo_vm_ok : vm_ok demo_vm.
Proof.
  assert (frame_ok vm_paging (mkFrame frame_a page_a 3 true)) as Hfr.
  { split; [split; by vm_compute| |apply vm_user; by left]. intros k Hk. apply vm_mem_u8. }
  split.
  - split.
    + split; [by repeat split; vm_compute| |].
      * intros t. rewrite vm_pds. case_decide; [intros _; exact vm_space|done].
      * intros t t' Hne. rewrite !vm_pds. by repeat case_decide; subst.
    + intros e ->%list_elem_of_singleton. exact Hfr.
    + intros t va pte Ht Hva. rewrite vm_pds in *. case_decide; [subst|done]. rewrite vm_mapping by done.
      case_decide; [subst|done]. intros [= <-]. exists (mkFrame frame_a page_a 3 true). split; [by left|done].
  - intros t ->%list_elem_of_singleton. by eexists.
  - exists proc_thread. by split.
  - done.
  - exists (<[frame_a := 0]> ∅). split; [done|]. intros k i. rewrite lookup_insert_Some, lookup_empty. split.
    + by intros [[<- <-]|[_ ?]].
    + intros [Hi (e & He & ->)%fmap_Some]. apply list_lookup_singleton_Some in He as [Hz <-]. left. split; [done|lia].
  - done.
  - split; [done|]. eexists. split_and!; [reflexivity|done|done].
  - apply vm_files_ok.
  - done.
  - by eexists.
  - intros t page se Hse. pose proof Hse as (-> & Hor)%vm_spt_at.
    assert (user_page page) as Hp by (apply vm_user; tauto).
    assert (page_ofs se = 0 /\ read_bytes se = 0) as [E1 E2] by (destruct Hor as [[_ ->]|[[_ ->]|[_ ->]]]; done).
    split; [done|unfold PGSIZE; lia|lia|].
    intros s Hs _. destruct Hor as [[-> ->]|[[-> ->]|[-> ->]]]; try done.
  - by intros h s [_ ->]%vm_holds.
  - by intros h h' s [-> _]%vm_holds [-> _]%vm_holds.
Qed.

Lemma demo_vm_settled : settled demo_vm.
Proof.
  intros e ->%list_elem_of_singleton. intros _. exists 0x00106067. split; [|done].
  rewrite vm_pds. apply vm_mapping, vm_user. by left.
Qed.

Lemma demo_vm_sound : sound demo_vm.
Proof. by intros e ->%list_elem_of_singleton. Qed.

(** There is a free frame. *)
Lemma demo_vm_room : ~ exhausted (Z.lor USER ZERO) 1 (pg_pa (vm_pg demo_vm)).
Proof.
  intros Hex. destruct (Hex 0xC0107000) as (a & Ha & Hl); [done|done|done|].
  apply is_page_one in Ha as ->; [|destruct (live_page _ _ (proj1 (pl_paging _ (ss_pools _ _ (mo_spaces _ _ _ (vo_mem _ demo_vm_ok))))) Hl) as (_ & ? & _); done|done].
  by vm_compute in Hl.
Qed.

Lemma demo_unmapped page : user_page page -> page <> page_a -> mapping (vm_pg demo_vm) proc_pd page = None.
Proof. intros Hp Hne. rewrite vm_mapping by done. by rewrite decide_False. Qed.
