(* ===== verification/VmClaims.v ===== *)
(** What demand paging promises a process, and where the code breaks the promise. *)
From S2P Require Import Prelude Btree Block Bio FreeMap Inode InodeLayout FileMap InodeOps InodeProofs Memory Palloc Thread Pagedir Swap SchedProofs Spaces Vm FrameTable VmMem VmDisk VmInv VmEvict VmLoad VmFault VmDemo.

Section claims.
Context {D : Type} `{!BlockOps D, !BlockLaws D}.
Implicit Types (v : VM D).

(** C11: eviction is safe and, when it can be, successful.  From a state in which the frame table,
    its index, the page tables, the supplementary page tables and the swap slots agree
    ([vm_ok]) and every frame of a process is mapped at its page ([settled]), [evict_frame]
    terminates without a panic and keeps all of that.  The frame it takes was not pinned; no
    page of any process is mapped to it afterwards and the frame table has no entry for it.
    It gives up only when no frame of a process is unpinned, or the swap area is full, or the
    clock hand is about to wrap around.  If every unpinned page whose dirty bit is clear still
    holds what it would be reloaded with ([sound]), every page of every process keeps its
    contents, wherever they now are. *)
Theorem evict_frame_correct v :
  vm_ok v -> settled v ->
  wp evict_frame v (fun r v' =>
    vm_ok v' /\ settled v' /\ (sound v -> content_same v v') /\
    match r with
    | None => ~ can_evict v
    | Some kp =>
        (exists e, e ∈ frames v /\ kpage e = kp /\ pinned e = false) /\ (forall e, e ∈ frames v' -> kpage e <> kp) /\
        forall t va pte, pds v t <> 0 -> user_page va -> mapping (vm_pg v') (pds v t) va = Some pte -> frame_addr pte <> kp
    end).
Proof.
  intros Hok Hset. apply wp_evict_frame; [done| |].
  - intros v' Hok' Hv Hno. split_and!; [done|by apply (sv_settled v)|intros _; by apply sv_content|by apply Hno].
  - intros v1 h e v' Hok1 Hv Hev. pose proof (sv_settled v v1 Hok Hv Hset) as Hset1. pose proof (sv_pds _ _ Hv) as Ep.
    split_and!; [apply Hev|by eapply evicted_settled| | | |].
    + intros Hs t page k Ht Hp Hk. rewrite <- (sv_content v v1 Hok Hv t page k Ht Hp Hk).
      apply (evicted_content h e v1 v'); [done|done|done|by apply (sv_sound v)|by rewrite Ep|done|done].
    + exists e. split_and!; [|done|apply Hev]. rewrite <- (sv_frames _ _ Hv). eapply list_elem_of_lookup_2, Hev.
    + intros x Hx. by eapply evicted_gone.
    + intros t va pte. rewrite <- Ep. by apply (evicted_unmapped h e v1 v').
Qed.

(** C12: loading a page is transparent.  Take a state in which the frame table, its index, the page
    tables, the supplementary page tables and the swap slots agree ([vm_ok]) and every frame of a
    process is mapped at its page ([settled]).  For a page of a process that is not mapped and
    whose entry says it is in swap, in a file, or zero, [load_page] terminates without a panic
    and keeps both invariants.  The page itself has the contents it had before, whether it
    succeeds or not: the bytes of the swap slot, of the file with zeros around them, or zeros.  When it
    succeeds the page is mapped, writable exactly as its entry says.  Every other page of every process has
    the contents it had before, if the user pool had a free frame, so that none was evicted, or
    else if that page is not held in an unpinned frame, or has an entry and is dirty or holds
    what the entry would reload it with; a page for which none of this is true can be lost to
    the eviction, and nothing is claimed of it.  [load_page] fails only when there is neither a
    free frame nor one to evict, or when a page table is missing. *)
Theorem load_page_correct v (page tid : Z) (se : SptEntry) :
  vm_ok v -> settled v -> user_page page -> pds v tid <> 0 ->
  mapping (vm_pg v) (pds v tid) page = None -> spt_at v tid page = Some se -> location se <> InMemory ->
  wp (load_page (pds v tid) page tid) v (fun ok v' =>
    vm_ok v' /\ settled v' /\ harmless v v' /\
    (forall k, 0 <= k < PGSIZE -> content v' tid page k = content v tid page k) /\
    if ok then exists pte, mapping (vm_pg v') (pds v tid) page = Some pte /\ (Z.land pte PTE_W <> 0 <-> e_writable se = true)
    else pde (vm_pg v) (pds v tid) (pde_idx page) = 0 \/ (exhausted (Z.lor USER ZERO) 1 (pg_pa (vm_pg v)) /\ ~ can_evict v)).
Proof.
  intros Hok Hset Hp Hpd Hno Hse Hl. eapply wp_load_page; [done..|].
  intros ok v' [Lok _ Lset Lc _ _ Lm Lf]. split_and!; [done|done|done| |].
  - intros k Hk. apply Lc; [done..|by apply unmapped_unharmed].
  - destruct ok; [|by apply Lf]. destruct (Lm eq_refl) as (pte & Hm & Hw & _). by exists pte.
Qed.

(** The page fault handler up to the first part that concerns a user access to a missing page. *)
Lemma fault_enter cr2 ec esp v :
  Z.land ec 0x4 <> 0 -> Z.land ec 0x1 = 0 ->
  forall Q, wp (let! r := fault_spt (Z.land cr2 (not_w 32 PGMASK)) (negb (Z.land ec 0x2 =? 0)) in
        match r with
        | Some res => ret res
        | None =>
            let! r := fault_stack cr2 esp in
            match r with
            | Some res => ret res
            | None =>
                let! r := fault_swap (Z.land cr2 (not_w 32 PGMASK)) in
                match r with Some res => ret res | None => ret Kill end
            end
        end) (interruptible v) Q -> wp (page_fault cr2 ec esp) v Q.
Proof.
  intros Hu Hp Q HQ. unfold page_fault. rewrite Hp. rewrite (proj2 (Z.eqb_neq _ _) Hu). simpl.
  apply wp_bind, wp_enable. exact HQ.
Qed.

Lemma fault_page_user cr2 : 0 <= cr2 < PHYS_BASE ->
  Z.land cr2 (not_w 32 PGMASK) = cr2 - cr2 mod PGSIZE /\ user_page (cr2 - cr2 mod PGSIZE).
Proof.
  intros Hc. split; [apply land_not_pgmask; by apply user_va|].
  unfold user_page, PHYS_BASE, PGSIZE in *. Z.div_mod_to_equations. lia.
Qed.

Lemma page_of_page a : 0 <= a < u32_lim -> page_of (a - a mod PGSIZE) = a - a mod PGSIZE.
Proof.
  intros Ha. unfold page_of. change (PGSIZE - 1) with PGMASK. rewrite land_not_pgmask.
  - unfold PGSIZE. Z.div_mod_to_equations. lia.
  - unfold in_u32, PGSIZE, u32_lim in *. Z.div_mod_to_equations. lia.
Qed.

(** The first part: the entry of the page decides. *)
Lemma wp_fault_spt v th page write (Q : option fault_result -> VM D -> Prop) :
  threads (vm_sched v) !! current (vm_sched v) = Some th -> page_of page = page ->
  (pagedir th = 0 \/ spt_at v (tid th) page = None -> Q None v) ->
  (forall se, spt_at v (tid th) page = Some se -> pagedir th <> 0 ->
     if write && negb (e_writable se) then Q (Some Kill) v
     else wp (load_page (pagedir th) page (tid th)) v (fun ok v' => Q (if ok then Some Handled else None) v')) ->
  wp (fault_spt page write) v Q.
Proof.
  intros Hth Hp Hnone Hsome. unfold fault_spt. apply wp_bind, (wp_current _ th); [done|]. apply wp_bind, wp_gets.
  unfold spt_at in *. destruct (SPT_TABLE v !! tid th) as [spt|]; [|apply wp_ret, Hnone; by right]. simpl in *.
  destruct (Z.eqb_spec (pagedir th) 0) as [E|E]; [apply wp_ret, Hnone; by left|]. unfold spt_find. rewrite Hp.
  destruct (spt !! page) as [se|]; [|apply wp_ret, Hnone; by right]. specialize (Hsome se eq_refl E).
  destruct (write && negb (e_writable se)); [by apply wp_ret|]. apply wp_bind.
  eapply wp_mono; [exact Hsome|]. intros ok v' Hq. by apply wp_ret.
Qed.

(** C13: a fault on a page the process owns is repaired.  Let the tables of virtual memory agree
    ([vm_ok]) and every frame of a process be mapped at its page ([settled]).  For a user access
    to a page that is not present, with an entry in the supplementary page table that is not
    resident and allows the access, a page table for the page, and a frame that is free or can be
    evicted, the handler returns to the instruction, with both invariants kept, the page mapped as
    its entry says, and the contents of the page the ones it had in swap, in its file, or zeros.
    Every other page of every process keeps its contents if the user pool had a free frame, and
    otherwise at least those that are not in an unpinned frame, or have an entry and are dirty or
    hold what the entry would reload them with; the rest can be lost to the eviction. *)
Theorem page_fault_handled v (th : Thread) (cr2 error_code esp : Z) (se : SptEntry) :
  let page := cr2 - cr2 mod PGSIZE in
  vm_ok v -> settled v ->
  threads (vm_sched v) !! current (vm_sched v) = Some th -> pagedir th <> 0 ->
  Z.land error_code 0x4 <> 0 -> Z.land error_code 0x1 = 0 -> 0 <= cr2 < PHYS_BASE ->
  mapping (vm_pg v) (pagedir th) page = None -> spt_at v (tid th) page = Some se -> location se <> InMemory ->
  (Z.land error_code 0x2 <> 0 -> e_writable se = true) ->
  pde (vm_pg v) (pagedir th) (pde_idx page) <> 0 ->
  ~ exhausted (Z.lor USER ZERO) 1 (pg_pa (vm_pg v)) \/ can_evict v ->
  wp (page_fault cr2 error_code esp) v (fun r v' =>
    r = Handled /\ vm_ok v' /\ settled v' /\ harmless v v' /\
    (forall k, 0 <= k < PGSIZE -> content v' (tid th) page k = content v (tid th) page k) /\
    exists pte, mapping (vm_pg v') (pagedir th) page = Some pte /\ (Z.land pte PTE_W <> 0 <-> e_writable se = true)).
Proof.
  intros page Hok Hset Hth Hpd0 Hu Hnp Hc Hno Hse Hl Hw Hpde Hroom.
  pose proof (pds_current v th Hok Hth) as Epd.
  destruct (interruptible_view v Hok) as [Hok1 Ep1]. destruct (fault_page_user cr2 Hc) as [Ea Hp]. fold page in Ea, Hp.
  change (spt_at v) with (spt_at (interruptible v)) in Hse.
  apply fault_enter; [done|done|]. rewrite Ea. apply wp_bind, (wp_fault_spt _ th); [done|by apply page_of_user| |].
  { intros [?|E]; [done|]. congruence. }
  intros se' Hse' _. assert (se' = se) as -> by congruence.
  assert (negb (Z.land error_code 0x2 =? 0) && negb (e_writable se) = false) as ->.
  { destruct (Z.eqb_spec (Z.land error_code 0x2) 0) as [|E]; [done|]. by rewrite Hw. }
  rewrite <- Epd in *. change (pds v) with (pds (interruptible v)) in *.
  apply (wp_load_page (interruptible v) page (tid th) se); try done.
  intros ok v' [Lok _ Lset Lc _ _ Lm Lf]. destruct ok.
  - apply wp_ret. split_and!; [done|done|done|exact Lc| |destruct (Lm eq_refl) as (pte & Hm & Hww & _); by exists pte].
    intros k Hk. apply Lc; [done..|by apply unmapped_unharmed].
  - exfalso. destruct (Lf eq_refl) as [?|[Hex Hcan]]; [done|]. destruct Hroom as [Hr|Hr]; [by apply Hr|by apply Hcan].
Qed.

(** C17: faults that cannot be repaired.  A fault in kernel mode panics.  In user mode the process
    is killed, and nothing but the interrupt flag has changed, when the page is present (a
    protection violation), when the access is a write and the page's entry is read-only, and
    when the page has no entry and no swap slot and the address is outside the stack: below
    the 8 MB limit, above the user half, or more than 32 bytes below the stack pointer. *)
Theorem page_fault_errors v (th : Thread) (cr2 error_code esp : Z) :
  threads (vm_sched v) !! current (vm_sched v) = Some th -> 0 <= cr2 < u32_lim ->
  (Z.land error_code 0x4 = 0 -> page_fault cr2 error_code esp v = Panic "Kernel page fault") /\
  (Z.land error_code 0x4 <> 0 -> Z.land error_code 0x1 <> 0 -> page_fault cr2 error_code esp v = Ok Kill (interruptible v)) /\
  (Z.land error_code 0x4 <> 0 -> Z.land error_code 0x1 = 0 ->
   let page := cr2 - cr2 mod PGSIZE in
   (forall se, spt_at v (tid th) page = Some se -> pagedir th <> 0 -> Z.land error_code 0x2 <> 0 -> e_writable se = false ->
      page_fault cr2 error_code esp v = Ok Kill (interruptible v)) /\
   (spt_at v (tid th) page = None -> (SWAP_MAP v ≫= fun m => m !! (tid th, page)) = None ->
    ~ (PHYS_BASE - USER_STACK_MAX <= cr2 < PHYS_BASE /\ (esp - 32) mod u32_lim <= cr2) ->
    page_fault cr2 error_code esp v = Ok Kill (interruptible v))).
Proof.
  intros Hth Hc. assert (Z.land cr2 (not_w 32 PGMASK) = cr2 - cr2 mod PGSIZE) as Ea by (by apply land_not_pgmask).
  assert (wp (page_fault cr2 error_code esp) v (fun r v' => r = Kill /\ v' = interruptible v) ->
    page_fault cr2 error_code esp v = Ok Kill (interruptible v)) as Hwp.
  { unfold wp. destruct (page_fault cr2 error_code esp v); try done. by intros [-> ->]. }
  split_and!.
  - intros E. unfold page_fault. by rewrite E.
  - intros E1 E2. unfold page_fault. rewrite (proj2 (Z.eqb_neq _ _) E1), (proj2 (Z.eqb_neq _ _) E2). reflexivity.
  - intros Hu Hp page. pose proof (page_of_page cr2 Hc : page_of page = page) as Epg. split.
    + intros se Hse Hpd Hw Hro. apply Hwp, fault_enter; [done|done|]. rewrite Ea. fold page.
      apply wp_bind, (wp_fault_spt _ th); [done|done| |].
      * intros [?|E]; [done|]. change (spt_at (interruptible v)) with (spt_at v) in E. congruence.
      * intros se' E _. change (spt_at (interruptible v)) with (spt_at v) in E. rewrite Hse in E. injection E as <-.
        rewrite (proj2 (Z.eqb_neq _ _) Hw), Hro. by apply wp_ret.
    + intros Hse Hsm Hst. apply Hwp, fault_enter; [done|done|]. rewrite Ea. fold page.
      apply wp_bind, (wp_fault_spt _ th); [done|done| |].
      2:{ intros se E. change (spt_at (interruptible v)) with (spt_at v) in E. congruence. }
      intros _. apply wp_bind. unfold fault_stack.
      assert ((PHYS_BASE - USER_STACK_MAX <=? cr2) && (cr2 <? PHYS_BASE) && ((esp - 32) mod u32_lim <=? cr2) = false) as ->.
      { apply not_true_iff_false. rewrite !andb_true_iff, !Z.leb_le, Z.ltb_lt. intros ?. apply Hst. lia. }
      apply wp_ret, wp_bind. unfold fault_swap. apply wp_bind, (wp_current _ th); [done|].
      destruct (_ =? 0); [by apply wp_ret, wp_ret|]. apply wp_bind, wp_gets.
      change (SWAP_MAP (interruptible v)) with (SWAP_MAP v). rewrite Hsm. by apply wp_ret, wp_ret.
Qed.

(** C16: the stack grows.  Let the tables of virtual memory agree ([vm_ok]) and every frame of a
    process be mapped at its page ([settled]).  A user access to a missing page of the 8 MB below
    the kernel, at or above 32 bytes below the stack pointer, on a page without an entry, is
    repaired when there is a page table and a frame that is free or can be evicted: the handler
    returns, with both invariants kept and a writable page of zeros mapped there.  Every other page of every process
    keeps its contents if the user pool had a free frame, and otherwise at least those that are
    not in an unpinned frame, or have an entry and are dirty or hold what the entry would reload
    them with; the rest can be lost to the eviction that supplies the frame. *)
Theorem stack_grows v (th : Thread) (cr2 error_code esp : Z) :
  let page := cr2 - cr2 mod PGSIZE in
  vm_ok v -> settled v ->
  threads (vm_sched v) !! current (vm_sched v) = Some th -> pagedir th <> 0 ->
  Z.land error_code 0x4 <> 0 -> Z.land error_code 0x1 = 0 ->
  PHYS_BASE - USER_STACK_MAX <= cr2 < PHYS_BASE -> (esp - 32) mod u32_lim <= cr2 ->
  mapping (vm_pg v) (pagedir th) page = None -> spt_at v (tid th) page = None ->
  pde (vm_pg v) (pagedir th) (pde_idx page) <> 0 ->
  ~ exhausted (Z.lor USER ZERO) 1 (pg_pa (vm_pg v)) \/ can_evict v ->
  wp (page_fault cr2 error_code esp) v (fun r v' =>
    r = Handled /\ vm_ok v' /\ settled v' /\
    (exists pte, mapping (vm_pg v') (pagedir th) page = Some pte /\ Z.land pte PTE_W <> 0) /\
    (forall k, 0 <= k < PGSIZE -> content v' (tid th) page k = Some 0) /\
    forall t p k, ~ (t = tid th /\ p = page) -> pds v t <> 0 -> user_page p -> 0 <= k < PGSIZE -> unharmed v t p ->
      content v' t p k = content v t p k).
Proof.
  intros page Hok Hset Hth Hpd0 Hu Hnp Hwin Hesp Hno Hse Hpde Hroom.
  match goal with |- wp _ _ (fun r v' => r = Handled /\ @?R v') => set (grew := R) end.
  destruct (interruptible_view v Hok) as [Hok1 Ep1].
  destruct (fault_page_user cr2) as [Ea Hp]; [unfold USER_STACK_MAX, PHYS_BASE in *; lia|]. fold page in Ea, Hp.
  apply fault_enter; [done|done|]. rewrite Ea.
  assert (wp (fault_stack cr2 esp) (interruptible v) (fun r v' => r = Some Handled /\ grew v')) as Hstk.
  { apply (wp_fault_stack (interruptible v) th page); try done.
    intros v' _ _ [?|[Hex Hcan]]; [done|]. destruct Hroom as [Hr|Hr]; [by destruct Hr|by destruct Hcan]. }
  apply wp_bind, (wp_fault_spt _ th); [done|by apply page_of_user| |].
  - intros _. apply wp_bind. eapply wp_mono; [exact Hstk|]. intros r v' [-> Hr]. by apply wp_ret.
  - intros se E. change (spt_at (interruptible v)) with (spt_at v) in E. congruence.
Qed.
End claims.

Lemma evict_frame_correct_witness :
  wp evict_frame demo_vm (fun r v' => vm_ok v' /\ (sound demo_vm -> content_same demo_vm v') /\
    forall kp, r = Some kp -> kp <> frame_a).
Proof.
  eapply wp_mono; [apply (evict_frame_correct demo_vm); [exact demo_vm_ok|exact demo_vm_settled]|].
  intros r v' (Hok & _ & Hc & Hr). split_and!; [done|done|]. intros kp -> ->.
  destruct Hr as ((e & He%list_elem_of_singleton & _ & Hp) & _). by subst e.
Defined.

Lemma load_page_correct_witness :
  wp (load_page (pds demo_vm 3) page_b 3) demo_vm (fun ok v' =>
    vm_ok v' /\ settled v' /\ harmless demo_vm v' /\ content v' 3 page_b 0 = Some 7).
Proof.
  eapply wp_mono.
  - apply (load_page_correct demo_vm page_b 3 (anon page_b (InSwap 0)));
      [exact demo_vm_ok|exact demo_vm_settled|apply vm_user; auto|by rewrite vm_pds| |done|done].
    rewrite vm_pds. apply demo_unmapped; [apply vm_user; auto|done].
  - intros ok v' (Hok & Hset & Hh & Hc & _). split_and!; [done|done|done|]. rewrite Hc by done. vm_compute. reflexivity.
Defined.

Lemma page_fault_handled_witness :
  wp (page_fault (page_b + 16) 6 0xBFFFFF00) demo_vm (fun r v' =>
    r = Handled /\ content v' 3 page_b 0 = Some 7 /\ content v' 3 page_a 0 = Some 6 /\
    exists pte, mapping (vm_pg v') proc_pd page_b = Some pte).
Proof.
  eapply wp_mono.
  - apply (page_fault_handled demo_vm proc_thread (page_b + 16) 6 0xBFFFFF00 (anon page_b (InSwap 0)));
      [exact demo_vm_ok|exact demo_vm_settled|done|done|done|done|done| |done|done|done| |left; exact demo_vm_room].
    + apply demo_unmapped; [apply vm_user; auto|done].
    + vm_compute. done.
  - intros r v' (-> & _ & _ & Hh & Hc & pte & Hm & _). split_and!; [done| | |by exists pte].
    + change (content v' (tid proc_thread) (page_b + 16 - (page_b + 16) mod PGSIZE) 0 = Some 7).
      rewrite Hc by done. vm_compute. reflexivity.
    + rewrite Hh; [vm_compute; reflexivity|by rewrite vm_pds|apply vm_user; auto|done|left; exact demo_vm_room].
Defined.

Lemma page_fault_errors_witness :
  page_fault 0x1000 4 0xBFFFFF00 demo_vm = Ok Kill (interruptible demo_vm) /\
  page_fault 0x1000 0 0xBFFFFF00 demo_vm = Panic "Kernel page fault".
Proof.
  destruct (page_fault_errors demo_vm proc_thread 0x1000 4 0xBFFFFF00) as (_ & _ & H); [done|done|].
  destruct (page_fault_errors demo_vm proc_thread 0x1000 0 0xBFFFFF00) as (H0 & _); [done|done|].
  split; [|by apply H0]. apply H; [done|done|done|done|]. unfold USER_STACK_MAX, PHYS_BASE. lia.
Defined.

Lemma stack_grows_witness :
  wp (page_fault 0xBFFFFFE0 6 0xC0000000) demo_vm (fun r v' =>
    r = Handled /\ content v' 3 0xBFFFF000 0 = Some 0 /\ content v' 3 page_a 0 = Some 6).
Proof.
  assert (user_page 0xBFFFF000) as Hp by (by vm_compute).
  eapply wp_mono.
  - apply (stack_grows demo_vm proc_thread 0xBFFFFFE0 6 0xC0000000);
      [exact demo_vm_ok|exact demo_vm_settled|done|done|done|done|done|done| |done| |left; exact demo_vm_room].
    + by apply demo_unmapped.
    + vm_compute. done.
  - intros r v' (-> & _ & _ & _ & Hz & Hc). split_and!; [done|by apply Hz|].
    rewrite Hc; [vm_compute; reflexivity|by intros [_ ?]|by rewrite vm_pds|apply vm_user; auto|done|left; exact demo_vm_room].
Defined.

(** A page that was swapped out and read back is lost at its next eviction. *)
Section reload.
Context {D : Type} `{!BlockOps D, !BlockLaws D}.

(** C40: a page that was swapped out and read back is lost at its next eviction.  In a state in which
    the tables agree ([vm_ok]) and the frames are mapped ([settled]), let a page be in swap.
    [load_page] brings it back with its contents.  If [evict_frame], run next, takes that page's
    frame, it does so without saving it, since the page-table entry made by [load_page] is not
    dirty: whatever the slot held, the page is afterwards what its entry says of a page that was
    never changed, zeros or the bytes of its file. *)
Theorem reload_then_evict_loses_data (v : VM D) (page tid slot : Z) (se : SptEntry) :
  vm_ok v -> settled v -> user_page page -> pds v tid <> 0 ->
  mapping (vm_pg v) (pds v tid) page = None -> spt_at v tid page = Some se -> location se = InSwap slot ->
  wp (load_page (pds v tid) page tid) v (fun ok v1 => ok = true ->
    (forall k, 0 <= k < PGSIZE -> content v1 tid page k = Some (slot_byte (swap_view v) slot k)) /\
    wp evict_frame v1 (fun r v2 => mapping (vm_pg v2) (pds v tid) page = None ->
      forall k, 0 <= k < PGSIZE -> content v2 tid page k = Some (reload_byte v se k))).
Proof.
  intros Hok Hset Hp Hpd Hno Hse Hl. eapply wp_load_page; [done..|by rewrite Hl|].
  intros [|] v1 [Lok Lsch Lset Lc Le _ Lm _] E; [clear E|done]. destruct (Le eq_refl) as [He Ea], (Lm eq_refl) as (pte & Hm & _ & HD).
  assert (pds v1 = pds v) as Ep by (unfold pds; by rewrite Lsch).
  assert (forall k, reload_byte v1 (set_location InMemory se) k = reload_byte v se k) as Er.
  { intros k. unfold reload_byte, backing_byte, reload_location. simpl. by rewrite Ea. }
  split.
  - intros k Hk. rewrite Lc; [|done..|by apply unmapped_unharmed]. unfold content. by rewrite Hno, Hse; simpl; rewrite Hl.
  - apply wp_evict_frame; [done|..].
    + intros v2 _ Hv _ Hgone. destruct (sv_mapping_back v1 v2 tid page pte Hv) as (pte' & Hm' & _); rewrite ?Ep in *; [done..|]. congruence.
    + intros w h e v2 Hokw Hv Hev Hgone k Hk. pose proof (sv_pds _ _ Hv) as Epw. rewrite <- Er.
      destruct (sv_mapping_back v1 w tid page pte Hv) as (pte' & Hm' & _ & Ed); rewrite ?Ep; [done..|]. rewrite Ep in Hm'.
      rewrite (evicted_clean h e w v2 Hokw Hev tid page pte' (set_location InMemory se) k); rewrite ?Epw, ?Ep; try done.
      * f_equal. unfold reload_byte. destruct (reload_location _); [done|done|by apply sv_file|done].
      * congruence.
      * by rewrite (sv_entry _ _ _ _ Hv).
Qed.
End reload.

(** The demonstration's page has a 7 in its slot, and a 0 in the end. *)
Lemma reload_then_evict_loses_data_witness :
  content demo_vm 3 page_b 0 = Some 7 /\
  exists v1 v2 kp, load_page (pds demo_vm 3) page_b 3 demo_vm = Ok true v1 /\ evict_frame v1 = Ok (Some kp) v2 /\
    content v1 3 page_b 0 = Some 7 /\ content v2 3 page_b 0 = Some 0.
Proof.
  split; [vm_compute; reflexivity|].
  assert (match load_page (pds demo_vm 3) page_b 3 demo_vm with
          | Ok ok v1 => ok = true /\ match evict_frame v1 with
                                    | Ok (Some _) v2 => mapping (vm_pg v2) (pds demo_vm 3) page_b = None
                                    | _ => False
                                    end
          | _ => False
          end) as R by (vm_compute; done).
  pose proof (reload_then_evict_loses_data demo_vm page_b 3 0 (anon page_b (InSwap 0)) demo_vm_ok demo_vm_settled
    ltac:(apply vm_user; auto) ltac:(by rewrite vm_pds)
    ltac:(rewrite vm_pds; apply demo_unmapped; [apply vm_user; auto|done]) eq_refl eq_refl) as H.
  unfold wp at 1 in H. destruct (load_page (pds demo_vm 3) page_b 3 demo_vm) as [ok v1| | |]; [|done..].
  destruct R as [-> R], (H eq_refl) as [H1 H2]. unfold wp in H2.
  destruct (evict_frame v1) as [[kp|] v2| | |] eqn:E; [|done..]. exists v1, v2, kp. split_and!; [done|done| |].
  - rewrite H1 by done. vm_compute. reflexivity.
  - rewrite H2 by done. vm_compute. reflexivity.
Defined.
