(* ===== verification/ElfProofs.v ===== *)
(** What the loader makes of a well-formed program: its segments, and for every page an entry
    that describes the bytes of the segments. *)
From S2P Require Import Prelude Utf8 Memory Swap Vm Elf.

(** ** Loops of pure bodies *)
Section loops.
Context {S : Type}.

Lemma wp_map_m {A B} (f : A -> M S B) (g : A -> B) l (s : S) (Q : list B -> S -> Prop) :
  (forall x, x ∈ l -> f x s = Ok (g x) s) -> Q (g <$> l) s -> wp (map_m f l) s Q.
Proof.
  revert Q. induction l as [|x l IH]; intros Q Hf HQ; simpl; [done|].
  apply wp_bind. unfold wp at 1. rewrite Hf by (by left). apply wp_bind, IH; [|by apply wp_ret]. intros y Hy. apply Hf. by right.
Qed.

Lemma wp_any_m {A} (f : A -> M S bool) (g : A -> bool) l (s : S) (Q : bool -> S -> Prop) :
  (forall x, x ∈ l -> f x s = Ok (g x) s) -> Q (existsb g l) s -> wp (any_m f l) s Q.
Proof.
  induction l as [|x l IH]; intros Hf HQ; simpl in *; [done|].
  apply wp_bind. unfold wp at 1. rewrite Hf by (by left). destruct (g x); [by apply wp_ret|].
  apply IH; [|done]. intros y Hy. apply Hf. by right.
Qed.

Lemma u32_add_ok a b (s : S) : a + b < u32_lim -> u32_add a b s = Ok (a + b) s.
Proof. intros H. unfold u32_add. by rewrite (proj2 (Z.ltb_lt _ _) H). Qed.
End loops.

Lemma foldr_max x l : (forall y, y ∈ x :: l -> y <= foldr Z.max x l) /\ foldr Z.max x l ∈ x :: l.
Proof.
  induction l as [|y l [IH1 IH2]]; simpl; [split; [by intros y ->%list_elem_of_singleton|by left]|].
  split.
  - intros z Hz. assert (z = y \/ z ∈ x :: l) as [->|Hz'] by (rewrite !elem_of_cons in *; tauto); [lia|]. specialize (IH1 z Hz'). lia.
  - destruct (Z.max_spec y (foldr Z.max x l)) as [[_ ->]|[_ ->]]; rewrite !elem_of_cons in *; tauto.
Qed.

Lemma foldr_min x l : (forall y, y ∈ x :: l -> foldr Z.min x l <= y) /\ foldr Z.min x l ∈ x :: l.
Proof.
  induction l as [|y l [IH1 IH2]]; simpl; [split; [by intros y ->%list_elem_of_singleton|by left]|].
  split.
  - intros z Hz. assert (z = y \/ z ∈ x :: l) as [->|Hz'] by (rewrite !elem_of_cons in *; tauto); [lia|]. specialize (IH1 z Hz'). lia.
  - destruct (Z.min_spec y (foldr Z.min x l)) as [[_ ->]|[_ ->]]; rewrite !elem_of_cons in *; tauto.
Qed.

Lemma wp_max_of {S} l (s : S) (Q : Z -> S -> Prop) :
  l <> [] -> (forall m, m ∈ l -> (forall y, y ∈ l -> y <= m) -> Q m s) -> wp (max_of l) s Q.
Proof. intros Hne HQ. destruct l as [|x l]; [done|]. destruct (foldr_max x l). apply wp_ret. by apply HQ. Qed.

Lemma wp_min_of {S} l (s : S) (Q : Z -> S -> Prop) :
  l <> [] -> (forall m, m ∈ l -> (forall y, y ∈ l -> m <= y) -> Q m s) -> wp (min_of l) s Q.
Proof. intros Hne HQ. destruct l as [|x l]; [done|]. destruct (foldr_min x l). apply wp_ret. by apply HQ. Qed.

(** ** Headers and segments *)
Definition phdrs (d : list Z) : list Elf32Phdr :=
  let h := read_ehdr d in (fun i => read_phdr d (e_phoff h + i * e_phentsize h)) <$> range 0 (e_phnum h).
Definition is_load (p : Elf32Phdr) : bool := p_type p =? PT_LOAD.
Definition loads (d : list Z) : list SegInfo := seg_of <$> List.filter is_load (phdrs d).

(** A file that passes the loader's checks. *)
Record elf_ok (d : list Z) : Prop := {
  ek_u8 : Forall in_u8 d;
  ek_len : ehdr_size <= Z.of_nat (List.length d) <= i32_max;
  ek_valid : valid_ehdr (read_ehdr d) = true;
  ek_phdrs : forall i, 0 <= i < e_phnum (read_ehdr d) ->
    e_phoff (read_ehdr d) + i * e_phentsize (read_ehdr d) + phdr_size <= Z.of_nat (List.length d);
  ek_loads : forall p, p ∈ phdrs d -> p_type p = PT_LOAD -> p_vaddr p < PHYS_BASE /\ p_filesz p <= p_memsz p;
}.

Lemma u16_at_range d off : Forall in_u8 d -> 0 <= u16_at d off < 65536.
Proof.
  intros H8. unfold u16_at. pose proof (byte_at_u8 d off H8). pose proof (byte_at_u8 d (off + 1) H8). unfold in_u8 in *. lia.
Qed.

Lemma le_word_range l : Forall in_u8 l -> 0 <= le_word l < u32_lim.
Proof.
  intros H8. unfold le_word, u32_lim. destruct l as [|b0 [|b1 [|b2 [|b3 l]]]]; try lia.
  repeat (apply Forall_cons in H8 as [? H8]). unfold in_u8 in *. lia.
Qed.

Lemma u32_at_range d off : Forall in_u8 d -> 0 <= u32_at d off < u32_lim.
Proof. intros H8. apply le_word_range. by apply Forall_slice. Qed.

Lemma wp_read_segments {S} d (s : S) (Q : bool * list SegInfo -> S -> Prop) :
  elf_ok d -> Q (true, loads d) s -> wp (read_segments d (read_ehdr d) (range 0 (e_phnum (read_ehdr d))) []) s Q.
Proof.
  intros [H8 Hlen _ Hph Hld] HQ. set (h := read_ehdr d) in *. unfold loads, phdrs in *. fold h in HQ, Hld.
  assert (0 <= e_phoff h /\ 0 <= e_phentsize h) as [H1 H2].
  { split; [apply (u32_at_range d 28 H8)|apply (u16_at_range d 42 H8)]. }
  assert (forall i, i ∈ range 0 (e_phnum h) -> 0 <= i < e_phnum h) as Hr by (intros i; by rewrite elem_of_range).
  change (Q (true, [] ++ (seg_of <$> List.filter is_load ((fun i => read_phdr d (e_phoff h + i * e_phentsize h)) <$> range 0 (e_phnum h)))) s) in HQ.
  revert HQ Hr Hld. generalize (range 0 (e_phnum h)) as l. generalize (@nil SegInfo) as acc. intros acc l. revert acc.
  induction l as [|i l IH]; intros acc HQ Hr Hld; [by rewrite app_nil_r in HQ|]. cbn [read_segments].
  specialize (Hph i (Hr i ltac:(by left))). assert (0 <= i) by (specialize (Hr i ltac:(by left)); lia).
  assert (Z.of_nat (List.length d) < u32_lim) by (unfold i32_max, u32_lim in *; lia). unfold phdr_size in *.
  apply wp_bind, wp_u32_mul; [lia|]. apply wp_bind, wp_u32_add; [lia|]. apply wp_bind, wp_u32_add; [lia|].
  rewrite (proj2 (Z.ltb_ge _ _)) by lia. rewrite fmap_cons in HQ, Hld. set (p := read_phdr d _) in *. cbn [List.filter] in HQ. unfold is_load at 1 in HQ.
  assert (forall q, q ∈ ((fun i => read_phdr d (e_phoff h + i * e_phentsize h)) <$> l) -> p_type q = PT_LOAD -> p_vaddr q < PHYS_BASE /\ p_filesz q <= p_memsz q) as Hld'.
  { intros q Hq. apply Hld. by right. }
  destruct (Z.eqb_spec (p_type p) PT_LOAD) as [E|E]; simpl negb; cbv iota.
  - destruct (Hld p) as [Hv Hm]; [by left|done|]. rewrite (proj2 (Z.leb_gt _ _)), (proj2 (Z.ltb_ge _ _)) by lia.
    apply IH; [|by intros ??; apply Hr; right|done]. rewrite fmap_cons in HQ. by rewrite <- app_assoc.
  - apply IH; [done|by intros ??; apply Hr; right|done].
Qed.

(** Sizes and addresses of a segment are words. *)
Record seg_ok (s : SegInfo) : Prop := {
  so_vaddr : 0 <= seg_vaddr s < PHYS_BASE;
  so_sizes : 0 <= seg_filesz s <= seg_memsz s;
  so_off : 0 <= seg_off s;
}.

Lemma phdr_range d off : Forall in_u8 d ->
  0 <= p_vaddr (read_phdr d off) /\ 0 <= p_filesz (read_phdr d off) /\ 0 <= p_offset (read_phdr d off).
Proof. intros H8. split_and!; apply (u32_at_range d _ H8). Qed.

Lemma loads_ok d s : elf_ok d -> s ∈ loads d -> seg_ok s.
Proof.
  intros Hd (p & -> & Hp)%list_elem_of_fmap. apply list_elem_of_In, filter_In in Hp as [Hp%list_elem_of_In Ht%Z.eqb_eq].
  destruct (ek_loads _ Hd p Hp Ht) as [Hv Hm]. apply list_elem_of_fmap in Hp as (i & -> & _).
  destruct (phdr_range d (e_phoff (read_ehdr d) + i * e_phentsize (read_ehdr d)) (ek_u8 _ Hd)) as (? & ? & ?). by split.
Qed.

(** ** The range of the program and the entries of its pages *)
Record layout_ok (segs : list SegInfo) (l : layout) : Prop := {
  lo_base : exists s, s ∈ segs /\ seg_vaddr s = load_base_vaddr l /\ seg_off s = load_base_foff l;
  lo_low : forall s, s ∈ segs -> load_base_vaddr l <= seg_vaddr s;
  lo_end : exists s, s ∈ segs /\ seg_vaddr s + seg_memsz s = load_end_vaddr l;
  lo_high : forall s, s ∈ segs -> seg_vaddr s + seg_memsz s <= load_end_vaddr l;
  lo_fend : exists s, s ∈ segs /\ seg_vaddr s + seg_filesz s = load_end_file l;
  lo_fhigh : forall s, s ∈ segs -> seg_vaddr s + seg_filesz s <= load_end_file l;
}.

Lemma wp_ends {S} (f : SegInfo -> Z) segs (s : S) (Q : Z -> S -> Prop) :
  segs <> [] -> (forall x, x ∈ segs -> seg_vaddr x + f x < u32_lim) ->
  (forall m, (exists x, x ∈ segs /\ seg_vaddr x + f x = m) -> (forall x, x ∈ segs -> seg_vaddr x + f x <= m) -> Q m s) ->
  wp (let! ends := map_m (fun x => u32_add (seg_vaddr x) (f x)) segs in max_of ends) s Q.
Proof.
  intros Hne Hlim HQ. apply wp_bind, (wp_map_m _ (fun x => seg_vaddr x + f x)).
  - intros x Hx. apply u32_add_ok. by apply Hlim.
  - apply wp_max_of; [by destruct segs|]. intros m (x & -> & Hx)%list_elem_of_fmap Hm.
    apply HQ; [by exists x|]. intros y Hy. apply Hm, list_elem_of_fmap. by exists y.
Qed.

Lemma wp_read_layout {S} segs (s : S) (Q : layout -> S -> Prop) :
  segs <> [] -> (forall x, x ∈ segs -> seg_ok x /\ seg_vaddr x + seg_memsz x < u32_lim) ->
  (forall l, layout_ok segs l -> Q l s) -> wp (read_layout segs) s Q.
Proof.
  intros Hne Hok HQ. unfold read_layout. apply wp_bind, wp_min_of; [by destruct segs|]. intros lo (x0 & -> & Hx0)%list_elem_of_fmap Hlo.
  destruct (List.find (fun y => seg_vaddr y =? seg_vaddr x0) segs) as [x1|] eqn:Ef.
  2:{ apply list_elem_of_In in Hx0. by pose proof (find_none _ _ Ef x0 Hx0) as E%Z.eqb_neq. }
  apply find_some in Ef as [Hx1%list_elem_of_In E1%Z.eqb_eq]. apply wp_bind, wp_ret.
  apply wp_bind_assoc, wp_bind, wp_ends; [done|intros; by apply Hok|]. intros stop He1 He2.
  apply wp_bind_assoc, wp_bind, wp_ends; [done|intros x Hx; destruct (Hok x Hx) as [[_ ? _] ?]; lia|]. intros fstop Hf1 Hf2.
  apply wp_ret, HQ. split; simpl; try done; [by exists x1|].
  intros x Hx. apply Hlo, list_elem_of_fmap. by exists x.
Qed.

(** The entry of [page], as [page_entry] computes it. *)
Definition entry_of (segs : list SegInfo) (l : layout) (sector page : Z) : SptEntry :=
  let fs := Z.max page (load_base_vaddr l) in
  let fe := Z.min (page + PGSIZE) (load_end_file l) in
  let some := fs <? fe in
  mkSpt page (if some then OnDisk else Zero) Binary
    (existsb (fun s => (seg_vaddr s <? page + PGSIZE) && (page <? seg_vaddr s + seg_memsz s) && seg_writable s) segs)
    sector (if some then load_base_foff l + (fs - load_base_vaddr l) else 0) (if some then fe - fs else 0) (if some then fs - page else 0).

Lemma wp_page_entry {S} segs l sector page (s : S) (Q : SptEntry -> S -> Prop) :
  (forall x, x ∈ segs -> seg_vaddr x + seg_memsz x < u32_lim) -> 0 <= page -> page + PGSIZE < u32_lim ->
  (forall a, load_base_vaddr l <= a < load_end_file l -> load_base_foff l + (a - load_base_vaddr l) < u32_lim) ->
  Q (entry_of segs l sector page) s -> wp (page_entry segs l sector page) s Q.
Proof.
  intros Hlim Hp0 Hp Hfo HQ. unfold page_entry, entry_of in *. apply wp_bind, wp_u32_add; [done|].
  set (fs := Z.max page (load_base_vaddr l)) in *. set (fe := Z.min (page + PGSIZE) (load_end_file l)) in *.
  apply wp_bind. set (w := existsb _ segs) in *.
  assert (forall rb po fo, Q (mkSpt page (if 0 <? rb then OnDisk else Zero) Binary w sector fo rb po) s ->
    wp (let '(read_bytes, page_ofs, file_offset) := (rb, po, fo) in
        let! writable := any_m (fun x => let! seg_end := u32_add (seg_vaddr x) (seg_memsz x) in
          ret ((seg_vaddr x <? page + PGSIZE) && (page <? seg_end) && seg_writable x)) segs in
        ret (mkSpt page (if 0 <? read_bytes then OnDisk else Zero) Binary writable sector file_offset read_bytes page_ofs)) s Q) as Hend.
  { intros rb po fo HQ'. apply wp_bind, (wp_any_m _ (fun s => (seg_vaddr s <? page + PGSIZE) && (page <? seg_vaddr s + seg_memsz s) && seg_writable s)).
    - intros x Hx. unfold bind. by rewrite u32_add_ok by by apply Hlim.
    - by apply wp_ret. }
  destruct (Z.ltb_spec fs fe) as [Hlt|Hge].
  - apply wp_bind, wp_u32_sub; [lia|]. apply wp_bind, wp_u32_sub; [lia|]. apply wp_bind, wp_u32_sub; [lia|].
    apply wp_bind, wp_u32_add; [apply Hfo; lia|]. apply wp_ret, Hend. by rewrite (proj2 (Z.ltb_lt _ _)) by lia.
  - apply wp_ret, Hend. done.
Qed.

(** ** The bytes of a segment *)

(** What the segment puts at [va]: bytes of the file, then zeros. *)
Definition segment_byte (d : list Z) (s : SegInfo) (va : Z) : Z :=
  if va <? seg_vaddr s + seg_filesz s then byte_at d (seg_off s + (va - seg_vaddr s)) else 0.

(** Segments that the loader's single range of file bytes describes: inside the file, all at the
    same distance from their addresses, and with zeros only behind the last byte of the file. *)
Record image_ok (d : list Z) (segs : list SegInfo) (limit : Z) : Prop := {
  im_limit : forall s, s ∈ segs -> seg_vaddr s + seg_memsz s <= limit;
  im_file : forall s, s ∈ segs -> seg_off s + seg_filesz s <= Z.of_nat (List.length d);
  im_shift : forall s s', s ∈ segs -> s' ∈ segs -> seg_off s - seg_vaddr s = seg_off s' - seg_vaddr s';
  im_zeros : forall s s', s ∈ segs -> s' ∈ segs -> seg_filesz s < seg_memsz s ->
    seg_vaddr s' + seg_filesz s' <= seg_vaddr s + seg_filesz s;
}.

(** Byte [k] of the page of [entry_of], given the file. *)
Definition entry_byte (d : list Z) (se : SptEntry) (k : Z) : Z :=
  if decide (page_ofs se <= k < page_ofs se + Z.min (read_bytes se) (Z.of_nat (List.length d) - file_offset se))
  then byte_at d (file_offset se + (k - page_ofs se)) else 0.

Lemma entry_of_byte d segs l limit sector page s k :
  image_ok d segs limit -> layout_ok segs l -> s ∈ segs -> seg_ok s -> 0 <= k < PGSIZE ->
  seg_vaddr s <= page + k < seg_vaddr s + seg_memsz s ->
  entry_byte d (entry_of segs l sector page) k = segment_byte d s (page + k).
Proof.
  intros Him Hl Hs [Hv Hz Ho] Hk Hin. unfold entry_byte, entry_of, segment_byte. simpl.
  destruct (lo_base _ _ Hl) as (s0 & Hs0 & Ev0 & Eo0). pose proof (im_shift _ _ _ Him s s0 Hs Hs0) as Esh.
  pose proof (lo_low _ _ Hl s Hs). pose proof (lo_fhigh _ _ Hl s Hs). pose proof (im_file _ _ _ Him s Hs).
  set (fs := Z.max page (load_base_vaddr l)). set (fe := Z.min (page + PGSIZE) (load_end_file l)).
  destruct (Z.ltb_spec (page + k) (seg_vaddr s + seg_filesz s)) as [Hf|Hb].
  - rewrite (proj2 (Z.ltb_lt fs fe)) by lia. rewrite decide_True by lia. f_equal. lia.
  - destruct (lo_fend _ _ Hl) as (s1 & Hs1 & E1). pose proof (im_zeros _ _ _ Him s s1 Hs Hs1 ltac:(lia)).
    destruct (Z.ltb_spec fs fe); [|by rewrite decide_False by lia]. rewrite decide_False by lia. done.
Qed.
