(* ===== verification/Loader.v ===== *)
(** Loading a program (src/userprog/process.rs, with [destroy] of src/userprog/pagedir.rs): a new
    address space with the entries of the program's pages and a stack that holds its arguments. *)
From S2P Require Import Prelude Btree Block Bio FreeMap Inode Memory Palloc Thread Pagedir Swap Vm Elf.

Definition set_pagedir (x : Z) (t : Thread) : Thread :=
  mkThread (tid t) (status t) (name t) (stack t) (priority t) (original_priority t) x (fd_table t)
    (waiting_on_lock t) (cwd_sector t) (brk t) (parent_tid t) (killed t) (pgid t) (sig_pending t) (sig_ignore t) (magic t).
Definition set_brk (x : Z) (t : Thread) : Thread :=
  mkThread (tid t) (status t) (name t) (stack t) (priority t) (original_priority t) (pagedir t) (fd_table t)
    (waiting_on_lock t) (cwd_sector t) x (parent_tid t) (killed t) (pgid t) (sig_pending t) (sig_ignore t) (magic t).

Section loader.
Context {D : Type} `{!BlockOps D}.

(** The fields of the current thread, through [running_thread()]. *)
Definition self : M (VM D) Thread := threads_do (let! t := running_thread in deref t).
Definition set_self (f : Thread -> Thread) : M (VM D) unit :=
  threads_do (let! t := running_thread in upd_thread t f).

(** *** pagedir.rs *)
Definition free_table (pt : Z) : M (VM D) unit :=
  for_each (range 0 1024) (fun j =>
    let! pte := pg (load (pt + 4 * j)) in
    if Z.land pte PTE_P =? 0 then ret tt
    else let! page := ptov (Z.land pte PTE_ADDR) in free_frame page) ;;
  pg (on_pa (free_page pt)).

Definition destroy_pd (pd : Z) : M (VM D) unit :=
  if pd =? 0 then ret tt
  else
    let phys_base_pde := Z.shiftr PHYS_BASE 22 in
    for_each (range 0 phys_base_pde) (fun i =>
      let! pde := pg (load (pd + 4 * i)) in
      if Z.land pde PTE_P =? 0 then ret tt
      else let! pt := ptov (Z.land pde PTE_ADDR) in free_table pt) ;;
    pg (on_pa (free_page pd)).

(** *** The initial stack *)
Definition install_page (pd upage kpage : Z) (writable : bool) : M (VM D) bool :=
  let! k := pg (get_page pd upage) in
  if negb (k =? 0) then ret false else pg (set_page pd upage kpage writable).

Definition write_stack_word (kpage offset value : Z) : M (VM D) unit :=
  poke (write_u32 (kpage + offset) value).

(** [for arg in args.iter().rev()]: the strings with their terminators, downwards from [str_ptr]
    in user space and [kstr_ptr] in the frame; returns the stack pointer and [arg_addrs]. *)
Fixpoint push_strings (args : list (list Z)) (str_ptr kstr_ptr : Z) (arg_addrs : list Z) : M (VM D) (Z * list Z) :=
  match args with
  | [] => ret (str_ptr, arg_addrs)
  | arg :: args' =>
      let n := Z.of_nat (List.length arg) in
      let! len := u32_add n 1 in
      let! str_ptr := u32_sub str_ptr len in
      let kstr_ptr := kstr_ptr - len in
      poke (store_bytes kstr_ptr arg) ;;
      poke (store_bytes (kstr_ptr + n) [0]) ;;
      push_strings args' str_ptr kstr_ptr (arg_addrs ++ [str_ptr])
  end.

(** [sp -= 4; write_stack_word(kpage, sp - upage, value)] *)
Definition push_word (kpage upage sp value : Z) : M (VM D) Z :=
  let! sp := u32_sub sp 4 in
  let! off := u32_sub sp upage in
  write_stack_word kpage off value ;;
  ret sp.

(** [for i in (0..argc).rev()]: the addresses of the arguments. *)
Fixpoint push_words (kpage upage : Z) (sp : Z) (words : list Z) : M (VM D) Z :=
  match words with
  | [] => ret sp
  | w :: words' => let! sp := push_word kpage upage sp w in push_words kpage upage sp words'
  end.

(** The first part of [setup_stack]: a frame mapped at [upage], [None] when there is no memory. *)
Definition stack_page (pd upage : Z) : M (VM D) (option Z) :=
  let! t := self in
  let! kpage := alloc_frame upage (tid t) in
  if kpage =? 0 then ret None
  else
    let! ok := install_page pd upage kpage true in
    if negb ok then free_frame kpage ;; ret None else ret (Some kpage).

(** The rest: the strings from the top, [argv], its address, [argc] and a return address. *)
Definition write_args (kpage upage : Z) (args : list (list Z)) : M (VM D) Z :=
  let argc := Z.of_nat (List.length args) in
  let! kend := u32_add kpage PGSIZE in
  let! r := push_strings (rev args) PHYS_BASE kend [] in
  let '(str_ptr, addrs) := r in
  let arg_addrs := rev addrs in
  let str_ptr := Z.land str_ptr (not_w 32 3) in
  let! sp := push_word kpage upage str_ptr 0 in
  let! sp := push_words kpage upage sp (rev arg_addrs) in
  let argv_addr := sp in
  let! sp := push_word kpage upage sp argv_addr in
  let! sp := push_word kpage upage sp argc in
  push_word kpage upage sp 0.

Definition setup_stack (pd : Z) (cmdline : list Z) : M (VM D) (option Z) :=
  let upage := PHYS_BASE - PGSIZE in
  let! k := stack_page pd upage in
  match k with
  | None => ret None
  | Some kpage =>
      let args := split_whitespace cmdline in
      let! sp := write_args kpage upage args in
      ret (Some sp)
  end.

(** *** The program *)

(** [while page < load_end_vaddr] *)
Fixpoint map_pages (fuel : nat) (tid : Z) (segments : list SegInfo) (l : layout) (sector page : Z) : M (VM D) unit :=
  match fuel with
  | O => fun _ => OutOfFuel
  | S fuel' =>
      if page <? load_end_vaddr l then
        let! t := get_spt tid in
        (match t ≫= spt_find page with
         | Some _ => ret tt
         | None => let! e := page_entry segments l sector page in in_spt tid (spt_insert e)
         end) ;;
        let! page := u32_add page PGSIZE in
        map_pages fuel' tid segments l sector page
      else ret tt
  end.

(** The new address space of [tid]: parsed headers, entries, stack.  [None] for the stack
    pointer is the failure of either. *)
Definition build_image (ehdr : Elf32Ehdr) (elf_data cmdline : list Z) (inode_sector pd tid : Z)
    : M (VM D) (list SegInfo * option Z) :=
  let! r := read_segments elf_data ehdr (range 0 (e_phnum ehdr)) [] in
  let '(success, segments) := r in
  (if success && negb (bool_decide (segments = [])) then
     let! l := read_layout segments in
     let page := Z.land (load_base_vaddr l) (not_w 32 PGMASK) in
     map_pages (Z.to_nat (load_end_vaddr l / PGSIZE + 2)) tid segments l inode_sector page
   else ret tt) ;;
  let! esp := if success then setup_stack pd cmdline else ret None in
  (match esp with
   | Some _ => in_spt tid (spt_insert (stack_entry (PHYS_BASE - PGSIZE)))
   | None => ret tt
   end) ;;
  ret (segments, esp).

(** The heap break: [pg_round_up(end)], when there are segments. *)
Definition init_brk (segments : list SegInfo) : M (VM D) unit :=
  if bool_decide (segments = []) then ret tt
  else
    let! ends := map_m (fun s => u32_add (seg_vaddr s) (seg_memsz s)) segments in
    let! stop := max_of ends in
    let! top := pg_round_up stop in
    set_self (set_brk top).

Definition load_demand_paged (elf_data cmdline : list Z) (inode_sector : Z) : M (VM D) (option (Z * Z)) :=
  if Z.of_nat (List.length elf_data) <? ehdr_size then ret None
  else
    let ehdr := read_ehdr elf_data in
    if negb (valid_ehdr ehdr) then ret None
    else
      let! pd := pg create in
      if pd =? 0 then ret None
      else
        let! t := self in
        set_spt (tid t) spt_new ;;
        pg (activate pd) ;;
        let! r := build_image ehdr elf_data cmdline inode_sector pd (tid t) in
        let '(segments, esp) := r in
        pg (activate (pagedir t)) ;;
        match esp with
        | Some esp =>
            set_self (set_pagedir pd) ;;
            init_brk segments ;;
            ret (Some (e_entry ehdr, esp))
        | None =>
            let! spt := remove_spt (tid t) in
            (match spt with Some spt => let! _ := destroy spt in ret tt | None => ret tt end) ;;
            destroy_pd pd ;;
            ret None
        end.
End loader.
