(* ===== verification/Adopt.v ===== *)
(** Changes of the machine while a program is loaded: supplementary page tables of a thread without
    a directory, the thread taking a directory over, and writes to a page of its own. *)
From S2P Require Import Prelude Btree Block Bio FreeMap Inode InodeLayout FileMap InodeOps InodeProofs Memory Palloc Thread Pagedir Swap SchedProofs Spaces NewSpace Vm FrameTable VmMem VmDisk VmInv VmEvict VmLoad VmFault Elf Loader.

Section adopt.
Context {D : Type} `{!BlockOps D, !BlockLaws D}.
Implicit Types (v u : VM D) (e : FrameEntry) (se : SptEntry).

Lemma kept_refl v : vm_ok v -> kept v v.
Proof. by split. Qed.

Lemma kept_view v v' : vm_ok v -> vm_ok v' -> same_view v v' -> kept v v'.
Proof.
  intros Hok Hok' Hv. split; [done|apply Hv|apply Hv|by apply (sv_settled v)|].
  intros _ Hs. split; [by apply sv_content|by apply (sv_sound v)].
Qed.

Lemma kept_pds v v' : kept v v' -> pds v' = pds v.
Proof. intros H. unfold pds. by rewrite (ke_sched _ _ H). Qed.

Lemma kept_trans v1 v2 v3 : kept v1 v2 -> kept v2 v3 -> kept v1 v3.
Proof.
  intros H1 H2. pose proof (kept_pds _ _ H1) as Ep. destruct H1 as [O1 S1 A1 T1 C1], H2 as [O2 S2 A2 T2 C2].
  split; [done|congruence|congruence|auto|]. intros Hset Hs. destruct (C1 Hset Hs) as [C1' D1].
  destruct (C2 (T1 Hset) D1) as [C2' D2]. split; [|done]. intros t p k Ht Hp Hk.
  rewrite C2' by (done || by rewrite Ep). by apply C1'.
Qed.

(** A change of memory that keeps user mappings and user frames. *)
Lemma kept_pg v s :
  vm_ok v -> mem_ok s (pds v) (frames v) ->
  (forall t va, pds v t <> 0 -> user_page va -> mapping s (pds v t) va = mapping (vm_pg v) (pds v t) va) ->
  (forall a x, user_frame (vm_pg v) a -> a <= x < a + PGSIZE -> mem s x = mem (vm_pg v) x) ->
  (forall t i, pds v t <> 0 -> 0 <= i < 1024 -> pde (vm_pg v) (pds v t) i <> 0 -> pde s (pds v t) i <> 0) ->
  kept v (with_pg s v).
Proof.
  intros Hok Hm Hmap Hmem Hpde. pose proof (vo_mem _ Hok) as Hm0. split; try done; [by apply vm_ok_pg| |intros _ Hs; split].
  2:{ intros t p k Ht Hp Hk. unfold content. change (pds (with_pg s v)) with (pds v). simpl. rewrite Hmap by done.
    destruct (mapping (vm_pg v) (pds v t) p) as [pte|] eqn:E; [|done]. f_equal. apply (Hmem (frame_addr pte)); [|lia].
    by eapply mapped_frame. }
  - intros Hset e He Hpd. change (pds (with_pg s v)) with (pds v) in *. simpl.
    rewrite Hmap; [by apply Hset|done|]. by apply (mo_frames _ _ _ Hm0 e He).
  - intros e He Hpd Hpin. destruct (Hs e He Hpd Hpin) as (se & Hse & Hb). exists se. split; [done|]. intros pte.
    change (pds (with_pg s v)) with (pds v) in *. simpl. pose proof (mo_frames _ _ _ Hm0 e He) as Hf.
    rewrite Hmap by (done || apply Hf). intros Hp HD k Hk. rewrite (Hmem (kpage e)) by (done || apply Hf || lia). by apply Hb with pte.
Qed.

(** *** The table of one thread *)
Definition set_table (tid : Z) (t : SPT) v : VM D := with_spts (<[tid := t]> (SPT_TABLE v)) v.

(** Entries that do not refer to swap. *)
Definition table_ok v (tid : Z) (t : SPT) : Prop :=
  forall page se, t !! page = Some se -> spt_ok v tid page se /\ forall s, location se <> InSwap s.

Lemma set_table_at tid t v t' p : spt_at (set_table tid t v) t' p = if decide (t' = tid) then t !! p else spt_at v t' p.
Proof.
  unfold spt_at, set_table. simpl. destruct (decide (t' = tid)) as [->|Hne]; [by rewrite lookup_insert_eq|by rewrite lookup_insert_ne].
Qed.

Lemma vm_ok_set_table v tid t : vm_ok v -> table_ok v tid t -> vm_ok (set_table tid t v).
Proof.
  intros [Mm Ma Mc Mf Mi Mcl Msw Mfs Mr Mmap Mspt Msl Mown] Ht.
  assert (forall h s, holds (set_table tid t v) h s -> holds v h s) as Hh.
  { intros [[t' p]|k] s; [|done]. intros (se & Hse & Hl). rewrite set_table_at in Hse.
    case_decide; [by destruct (proj2 (Ht p se Hse) s)|by exists se]. }
  split; try done.
  - intros t' p se. rewrite set_table_at. intros Hse. apply (spt_ok_ext v); [|done..].
    case_decide; [subst t'; by apply (Ht p se)|by apply Mspt].
  - intros h s Hx%Hh. by apply (Msl h).
  - intros h h' s H1%Hh H2%Hh. by apply (Mown h h' s).
Qed.

Lemma kept_set_table v tid t : vm_ok v -> table_ok v tid t -> pds v tid = 0 -> kept v (set_table tid t v).
Proof.
  intros Hok Ht H0. split; try done; [by apply vm_ok_set_table|]. intros _ Hs. split.
  - intros t' p k Ht' _ _. unfold content. rewrite set_table_at, decide_False by congruence. done.
  - intros e He Hpd Hpin. destruct (Hs e He Hpd Hpin) as (se & Hse & Hb). exists se.
    rewrite set_table_at, decide_False; [done|]. intros E. change (pds (set_table tid t v)) with (pds v) in Hpd. congruence.
Qed.

(** *** Taking over a directory *)
Definition adopt (pd : Z) v : VM D :=
  with_sched (with_threads (alter (set_pagedir pd) (current (vm_sched v)) (threads (vm_sched v))) (vm_sched v)) v.

Lemma has_tid_adopt pd k id t :
  has_tid (with_threads (alter (set_pagedir pd) (current k) (threads k)) k) id t = has_tid k id t.
Proof.
  unfold has_tid. simpl. destruct (decide (t = current k)) as [->|Hne]; [|by rewrite lookup_alter_ne].
  rewrite lookup_alter_eq. by destruct (threads k !! current k).
Qed.

Lemma find_ext {A} (f g : A -> bool) l : (forall x, f x = g x) -> List.find f l = List.find g l.
Proof. intros E. induction l as [|x l IH]; simpl; [done|]. by rewrite E, IH. Qed.

Lemma pds_adopt pd v th id :
  vm_ok v -> threads (vm_sched v) !! current (vm_sched v) = Some th -> pds (adopt pd v) id = join (tid th) pd (pds v) id.
Proof.
  intros Hok Hth. destruct (vo_cur _ Hok) as (th' & Hth' & Hf). assert (th' = th) as -> by congruence.
  unfold pds, pd_of, adopt. simpl. rewrite (find_ext _ (has_tid (vm_sched v) id)) by (intros; apply has_tid_adopt).
  unfold join. case_decide as Hd.
  - subst id. rewrite Hf. simpl. rewrite lookup_alter_eq, Hth. done.
  - destruct (List.find (has_tid (vm_sched v) id) (ALL_LIST (vm_sched v))) as [t|] eqn:E; [|done]. simpl.
    rewrite lookup_alter_ne; [done|]. intros <-. apply find_some in E as [_ E]. unfold has_tid in E. rewrite Hth in E.
    simpl in E. apply Z.eqb_eq in E. congruence.
Qed.

Lemma spaces_ext s P P' : (forall t, P' t = P t) -> spaces s P -> spaces s P'.
Proof.
  intros E [Hp Hs Hi]. split; [done| |].
  - intros t. rewrite E. apply Hs.
  - intros t t' Hne. rewrite !E. by apply Hi.
Qed.

Lemma mem_ok_ext s P P' ft : (forall t, P' t = P t) -> mem_ok s P ft -> mem_ok s P' ft.
Proof.
  intros E [Hs Hf Hb]. split; [by eapply spaces_ext|done|]. intros t va pte. rewrite E. apply Hb.
Qed.

Lemma vm_ok_adopt v th pd :
  vm_ok v -> threads (vm_sched v) !! current (vm_sched v) = Some th -> pds v (tid th) = 0 ->
  mem_ok (vm_pg v) (join (tid th) pd (pds v)) (frames v) ->
  (forall page se s, spt_at v (tid th) page = Some se -> location se <> InSwap s) -> vm_ok (adopt pd v).
Proof.
  intros Hok Hth H0 Hm Hno. pose proof (pds_adopt pd v th) as Ep.
  assert (forall id, pds (adopt pd v) id = join (tid th) pd (pds v) id) as Ep' by (intros; by apply Ep). clear Ep.
  destruct (vo_cur _ Hok) as (th' & Hth' & Hf). assert (th' = th) as -> by congruence.
  destruct Hok as [Mm Ma Mc Mf Mi Mcl Msw Mfs Mr Mmap Mspt Msl Mown]. split; try done.
  - by eapply mem_ok_ext.
  - intros t Ht. simpl. rewrite lookup_alter_is_Some. by apply Ma.
  - exists (set_pagedir pd th). simpl. rewrite lookup_alter_eq, Hth. split; [done|].
    rewrite <- Hf. apply find_ext. intros t. apply has_tid_adopt.
  - intros t page se Hse. destruct (Mspt t page se Hse) as [Hp Hr Hfi Ht]. split; [done..|].
    intros s Hs. rewrite Ep'. unfold join. case_decide as Hd; [subst t; by destruct (Hno page se s)|by apply (Ht s)].
Qed.

(** *** Writing to a page through its frame *)
Definition poked (f : Mem -> Mem) v : VM D :=
  with_pg (with_pa (with_mem (f (mem (vm_pg v))) (pg_pa (vm_pg v))) (vm_pg v)) v.

Record written e v v' : Prop := {
  wr_ok : vm_ok v';
  wr_sched : vm_sched v' = vm_sched v;
  wr_frames : frames v' = frames v;
  wr_spt : SPT_TABLE v' = SPT_TABLE v;
  wr_abs : abs (vm_fs v') = abs (vm_fs v);
  wr_map : forall t va, pds v t <> 0 -> in_u32 va -> mapping (vm_pg v') (pds v t) va = mapping (vm_pg v) (pds v t) va;
  wr_settled : settled v -> settled v';
  wr_content : forall t p k, pds v t <> 0 -> user_page p -> 0 <= k < PGSIZE -> ~ (t = owner_tid e /\ p = upage e) ->
    content v' t p k = content v t p k;
}.

(** A page mapped to the frame of [e] is the page of [e]. *)
Lemma frame_of v e t va pte :
  vm_ok v -> e ∈ frames v -> pds v t <> 0 -> user_page va -> mapping (vm_pg v) (pds v t) va = Some pte ->
  frame_addr pte = kpage e -> t = owner_tid e /\ va = upage e.
Proof.
  intros Hok (i & Hi)%list_elem_of_lookup Ht Hva Hm Ea. destruct (vo_ix _ Hok) as (ix & _ & Hix).
  destruct (mo_backed _ _ _ (vo_mem _ Hok) t va pte Ht Hva Hm) as (x & (j & Hj)%list_elem_of_lookup & Ek & Eu & Eo).
  assert (j = i) as -> by (eapply ix_ok_unique; [done|done|done|congruence]). by simplify_eq.
Qed.

Lemma poke_written v e f :
  vm_ok v -> e ∈ frames v -> (forall m x, ~ (kpage e <= x < kpage e + PGSIZE) -> f m x = m x) ->
  page_u8 (f (mem (vm_pg v))) (kpage e) -> written e v (poked f v).
Proof.
  intros Hok He Hf H8. pose proof (vo_mem _ Hok) as Hm. pose proof (mo_frames _ _ _ Hm e He) as Hfe.
  pose proof (ss_pools _ _ (mo_spaces _ _ _ Hm)) as Hp. pose proof (fr_user _ _ Hfe) as Hu.
  set (s := with_pa (with_mem (f (mem (vm_pg v))) (pg_pa (vm_pg v))) (vm_pg v)).
  pose proof (poke_same_pages (vm_pg v) (kpage e) _ Hp Hu (Hf (mem (vm_pg v))) : same_pages _ _ s) as Hs.
  destruct (mem_ok_user (vm_pg v) s (pds v) (frames v) (kpage e) Hm Hs) as [Hm' Hmap]; [apply Hu| |].
  { intros x Hx E. split; [rewrite E; apply (poke_user_frame (vm_pg v) (kpage e)); auto|by rewrite E|]. by apply (mo_frames _ _ _ Hm x Hx). }
  assert (forall t i, pds v t <> 0 -> 0 <= i < 1024 -> pde s (pds v t) i = pde (vm_pg v) (pds v t) i) as Hpd.
  { intros t i Ht Hi. apply (frame_pde (fun a => a = kpage e) (vm_pg v) s); [|exact Hs| |done].
    - by apply (ss_space _ _ (mo_spaces _ _ _ Hm)).
    - intros a Ha ->. apply (pool_apart (vm_pg v) (kpage e) (kpage e)); [apply (mo_spaces _ _ _ Hm)| |apply Hu|done].
      by apply (sp_kernel _ _ (ss_space _ _ (mo_spaces _ _ _ Hm) t Ht)). }
  split; try done.
  - apply vm_ok_pg; [done|done|]. intros t i Ht Hi. by rewrite Hpd.
  - intros Hset x Hx Hxp. change (pds (poked f v)) with (pds v) in *. change (vm_pg (poked f v)) with s. rewrite Hmap; [by apply Hset|done|].
    apply user_page_u32. by apply (mo_frames _ _ _ Hm x Hx).
  - intros t p k Ht Hpg Hk Hne. unfold content. change (pds (poked f v)) with (pds v). change (vm_pg (poked f v)) with s.
    rewrite Hmap by (done || by apply user_page_u32). destruct (mapping (vm_pg v) (pds v t) p) as [pte|] eqn:E; [|done].
    f_equal. assert (frame_addr pte <> kpage e) as Hfa by (intros Ea; by destruct Hne; eapply frame_of).
    destruct (mapped_frame v t p pte Hok Ht Hpg E) as [_ Hl]. apply (proj2 (proj2 Hs _ Hl Hfa)). lia.
Qed.
End adopt.
