(* ===== verification/LoaderStack.v ===== *)
(** The initial stack of a program: the page mapped for it and the arguments written to it. *)
From S2P Require Import Prelude Btree Block Bio FreeMap Inode InodeLayout FileMap InodeOps InodeProofs Memory Palloc Thread Pagedir Swap SchedProofs Spaces NewSpace Vm FrameTable VmMem VmDisk VmInv VmEvict VmLoad VmFault Elf Loader Adopt.

Abbreviation STACK := (PHYS_BASE - PGSIZE).

Lemma stack_user_page : user_page STACK.
Proof. by vm_compute. Qed.

(** ** The page *)
Section page.
Context {D : Type} `{!BlockOps D, !BlockLaws D}.
Implicit Types (u : VM D) (e : FrameEntry) (se : SptEntry).
Context (v : VM D) (th : Thread) (pd : Z).
Context (Hok : vm_ok v) (Hset : settled v) (Hsound : sound v).
Context (Hth : threads (vm_sched v) !! current (vm_sched v) = Some th) (Hpd0 : pds v (tid th) = 0).
Context (Hborn : newborn (vm_pg v) (pds v) pd).
Context (Hfresh : forall e, e ∈ frames v -> owner_tid e <> tid th).
Context (Htab : forall page se s, spt_at v (tid th) page = Some se -> location se <> InSwap s).

Let P : Z -> Z := pds v.
Let P' : Z -> Z := join (tid th) pd (pds v).

(** From [v], the stack page of the new directory is in frame [kp]. *)
Record staged (kp : Z) u : Prop := {
  sg_ok : vm_ok (adopt pd u);
  sg_settled : settled (adopt pd u);
  sg_sched : vm_sched u = vm_sched v;
  sg_content : forall t p k, pds v t <> 0 -> user_page p -> 0 <= k < PGSIZE -> content (adopt pd u) t p k = content v t p k;
  sg_map : forall va, user_page va -> mapping (vm_pg u) pd va = if decide (va = STACK) then Some (user_pte kp true) else None;
  sg_frame : new_frame kp STACK (tid th) ∈ frames u;
  sg_table : SPT_TABLE u !! tid th = SPT_TABLE v !! tid th;
  sg_abs : abs (vm_fs u) = abs (vm_fs v);
}.

Lemma joined t : P t <> 0 -> t <> tid th /\ P' t = P t.
Proof. intros Ht. assert (t <> tid th) as Hne by (unfold P in Ht; congruence). split; [done|]. unfold P', join. by rewrite decide_False. Qed.

Lemma joined_self : P' (tid th) = pd.
Proof. unfold P', join. by rewrite decide_True. Qed.

Lemma born_pd : pd <> 0.
Proof.
  destruct (live_page (pg_pa (vm_pg v)) pd) as (Hpos & _); [|apply (sp_ok _ _ (nb_space _ _ _ Hborn))|lia].
  apply (mo_spaces _ _ _ (vo_mem _ Hok)).
Qed.

Lemma unjoin s ft : mem_ok s P' ft -> mem_ok s P ft.
Proof.
  intros [[Hp Hsp Hi] Hf Hb]. split; [split; [done| |]|done|].
  - intros t Ht. destruct (joined t Ht) as [_ <-]. apply Hsp. by rewrite (proj2 (joined t Ht)).
  - intros t t' Hne Ht Ht'. rewrite <- (proj2 (joined t Ht)), <- (proj2 (joined t' Ht')).
    apply Hi; [done|by rewrite (proj2 (joined t Ht))|by rewrite (proj2 (joined t' Ht'))].
  - intros t va pte Ht. rewrite <- (proj2 (joined t Ht)). apply Hb. by rewrite (proj2 (joined t Ht)).
Qed.

Section installed.
Context (u : VM D) (kp : Z) (Hh : holding STACK (tid th) kp v u) (Hin : new_frame kp STACK (tid th) ∈ frames u).

Let Epu : pds u = P := ho_pds _ _ _ _ _ Hh.

Lemma held_newborn : newborn (vm_pg u) P pd.
Proof. destruct (ho_calm _ _ _ _ _ Hh) as [Hs _ Hp]. by eapply newborn_spared. Qed.

Lemma held_mem_ok : mem_ok (vm_pg u) P' (frames u).
Proof.
  pose proof (vo_mem _ (ho_ok _ _ _ _ _ Hh)) as [Hs Hf Hb]. rewrite Epu in *. split; [|done|].
  - apply (newborn_spaces _ _ _ held_newborn); done.
  - intros t va pte. unfold P', join. case_decide; [|apply Hb].
    intros _ Hva. rewrite (newborn_unmapped _ _ _ held_newborn); [done|apply Hva].
Qed.

Context (s : Paging) (Hu : pte_upd P' (tid th) STACK (user_pte kp true) (vm_pg u) s).

Lemma installed_mapping t va : P t <> 0 -> in_u32 va -> mapping s (P t) va = mapping (vm_pg u) (P t) va.
Proof.
  intros Ht Hva. destruct (joined t Ht) as [Hne E]. rewrite <- E. rewrite (pu_map _ _ _ _ _ _ Hu) by (done || by rewrite E).
  by rewrite decide_False by (by intros [? _]).
Qed.

Lemma installed_bytes a x : user_frame (vm_pg u) a -> a <= x < a + PGSIZE -> mem s x = mem (vm_pg u) x.
Proof.
  intros [Hia Hl] Hx. destruct (pu_user _ _ _ _ _ _ Hu) as [_ H]. apply (H a Hl); [|done]. intros Hk.
  apply (pool_apart (vm_pg u) a a); try done. apply (mo_spaces _ _ _ (vo_mem _ (ho_ok _ _ _ _ _ Hh))).
Qed.

Lemma staged_mem_ok : mem_ok s P' (frames u).
Proof.
  eapply mem_ok_upd; [apply held_mem_ok|apply stack_user_page|exact Hu|]. intros _. exists (new_frame kp STACK (tid th)).
  split; [done|]. split; [|done]. symmetry. apply (user_frame_addr (vm_pg u)); [|apply (ho_frame _ _ _ _ _ Hh)].
  apply (mo_spaces _ _ _ held_mem_ok).
Qed.

Lemma staged_pg_ok : vm_ok (with_pg s u).
Proof.
  apply vm_ok_pg; [apply Hh|rewrite Epu; apply unjoin, staged_mem_ok|]. rewrite Epu. intros t i Ht Hi Hn.
  pose proof (proj2 (joined t Ht)) as E. rewrite <- E in Hn |- *. apply (pu_pde _ _ _ _ _ _ Hu); [by rewrite E|done|done].
Qed.

Lemma staged_ok : vm_ok (adopt pd (with_pg s u)).
Proof.
  apply (vm_ok_adopt _ th); [apply staged_pg_ok|simpl; by rewrite (ho_sched _ _ _ _ _ Hh)| | |].
  - change (pds u (tid th) = 0). by rewrite Epu.
  - change (mem_ok s (join (tid th) pd (pds u)) (frames u)). rewrite Epu. apply staged_mem_ok.
  - intros page se sl. change (spt_at u (tid th) page = Some se -> location se <> InSwap sl).
    unfold spt_at. rewrite (ho_tables _ _ _ _ _ Hh) by done. apply Htab.
Qed.

Lemma staged_pds t : pds (adopt pd (with_pg s u)) t = P' t.
Proof.
  rewrite (pds_adopt pd (with_pg s u) th) by (apply staged_pg_ok || (simpl; by rewrite (ho_sched _ _ _ _ _ Hh))).
  change (pds (with_pg s u)) with (pds u). by rewrite Epu.
Qed.

Lemma staged_install : staged kp (with_pg s u).
Proof.
  pose proof (ho_ok _ _ _ _ _ Hh) as Hoku. pose proof (vo_mem _ Hoku) as Hmu. rewrite Epu in Hmu.
  destruct (ho_content _ _ _ _ _ Hh Hset Hsound) as [Hcu _]. pose proof (ho_settled _ _ _ _ _ Hh Hset) as Hsu.
  split; try done; [apply staged_ok|..].
  - intros e He. rewrite staged_pds. change (vm_pg (adopt pd (with_pg s u))) with s. change (frames (adopt pd (with_pg s u))) with (frames u) in He.
    destruct (ho_sub _ _ _ _ _ Hh e He) as [Hv|Ee].
    + pose proof (Hfresh e Hv) as Hne. unfold P', join. rewrite decide_False by done. fold P. intros Ht.
      rewrite installed_mapping; [|done|apply user_page_u32; by apply (mo_frames _ _ _ Hmu e He)]. rewrite <- Epu in *.
      apply Hsu; [done| |done]. intros Ek. pose proof (ho_only _ _ _ _ _ Hh e He Ek) as E. by rewrite E in Hne.
    + subst e. simpl. intros _. rewrite (pu_map _ _ _ _ _ _ Hu); [|rewrite joined_self; apply born_pd|by vm_compute].
      rewrite decide_True by done. pose proof (user_frame_kernel_page _ _ (ss_pools _ _ (mo_spaces _ _ _ held_mem_ok)) (ho_frame _ _ _ _ _ Hh)) as Hk.
      destruct (user_pte_ok kp true Hk) as (_ & Ha & Hb). exists (user_pte kp true). rewrite Hb by done. split; [done|].
      unfold frame_addr. rewrite Ha. lia.
  - simpl. apply Hh.
  - intros t p k Ht Hp Hk. rewrite <- (Hcu t p k Ht Hp Hk). unfold content. rewrite staged_pds, Epu, (proj2 (joined t Ht)).
    change (vm_pg (adopt pd (with_pg s u))) with s. rewrite installed_mapping by (done || by apply user_page_u32).
    fold P. destruct (mapping (vm_pg u) (P t) p) as [pte|] eqn:E; [|done]. f_equal.
    apply (installed_bytes (frame_addr pte)); [|lia]. eapply mapped_frame; rewrite ?Epu; done.
  - intros va Hva. change (vm_pg (with_pg s u)) with s. rewrite <- joined_self.
    rewrite (pu_map _ _ _ _ _ _ Hu); [|rewrite joined_self; apply born_pd|by apply user_page_u32]. rewrite joined_self.
    pose proof (user_frame_kernel_page _ _ (ss_pools _ _ (mo_spaces _ _ _ held_mem_ok)) (ho_frame _ _ _ _ _ Hh)) as Hk.
    destruct (user_pte_ok kp true Hk) as (_ & _ & Hb). rewrite Hb by done.
    destruct (decide (va = STACK)) as [->|Hne]; [by rewrite decide_True|].
    rewrite decide_False; [by apply (newborn_unmapped _ _ _ held_newborn), Hva|].
    intros [_ E]. by apply user_page_eq in E; [|done|apply stack_user_page].
  - apply (ho_tables _ _ _ _ _ Hh). done.
  - apply Hh.
Qed.
End installed.

Lemma staged_adopted kp u t : staged kp u -> pds (adopt pd u) t = P' t.
Proof.
  intros Hs. unfold P'. rewrite <- (pds_adopt pd v th t Hok Hth). unfold pds, adopt. simpl. by rewrite (sg_sched _ _ Hs).
Qed.

(** *** Writing to it *)
Lemma staged_poke kp u f :
  staged kp u -> (forall m x, ~ (kp <= x < kp + PGSIZE) -> f m x = m x) -> page_u8 (f (mem (vm_pg u))) kp -> staged kp (poked f u).
Proof.
  intros Hs Hf H8. pose proof (sg_ok _ _ Hs) as Hoka.
  destruct (poke_written (adopt pd u) (new_frame kp STACK (tid th)) f Hoka (sg_frame _ _ Hs) Hf H8) as [Wok Wsc Wfr Wspt Wabs Wmap Wset Wcon].
  change (poked f (adopt pd u)) with (adopt pd (poked f u)) in *.
  assert (forall t, pds (adopt pd u) t = P' t) as Epa by (intros; by eapply staged_adopted).
  destruct Hs as [So Sse Ssc Sco Sma Sfr Sta Sab]. split; try done.
  - by apply Wset.
  - intros t p k Ht Hp Hk. rewrite Wcon; [by apply Sco|by rewrite Epa, (proj2 (joined t Ht))|done|done|].
    intros [E _]. simpl in E. by destruct (joined t Ht).
  - intros va Hva. rewrite <- Sma by done. pose proof (Wmap (tid th) va) as E. rewrite Epa, joined_self in E.
    apply E; [apply born_pd|by apply user_page_u32].
Qed.
End page.
