(* ===== verification/LoaderArgs.v ===== *)
(** The arguments on the initial stack: what [setup_stack] of src/userprog/process.rs writes into
    the frame, and that it reads back as C expects. *)
From S2P Require Import Prelude Btree Block Bio FreeMap Inode Memory Palloc Thread Pagedir Swap Vm VmMem Elf Loader Adopt LoaderStack.

(** Bytes of a list of strings with their terminators. *)
Fixpoint size (strs : list (list Z)) : Z :=
  match strs with [] => 0 | s :: strs' => Z.of_nat (List.length s) + 1 + size strs' end.

(** Where strings pushed one after another below [sp] begin. *)
Fixpoint places (strs : list (list Z)) (sp : Z) : list Z :=
  match strs with
  | [] => []
  | s :: strs' => let p := sp - (Z.of_nat (List.length s) + 1) in p :: places strs' p
  end.

Lemma size_nonneg strs : 0 <= size strs.
Proof. induction strs; simpl; lia. Qed.

Lemma size_app a b : size (a ++ b) = size a + size b.
Proof. induction a as [|x a IH]; simpl; [lia|]. rewrite IH. lia. Qed.

Lemma size_rev strs : size (rev strs) = size strs.
Proof. induction strs as [|x l IH]; simpl; [done|]. rewrite size_app, IH. simpl. lia. Qed.

Lemma places_length strs : forall sp, List.length (places strs sp) = List.length strs.
Proof. induction strs; intros; simpl; auto. Qed.

Lemma places_range strs : forall sp p, p ∈ places strs sp -> sp - size strs <= p < sp.
Proof.
  induction strs as [|s strs IH]; intros sp p; simpl; [by intros ?%not_elem_of_nil|]. pose proof (size_nonneg strs).
  intros [->|Hp]%elem_of_cons; [lia|]. apply IH in Hp. lia.
Qed.

Lemma places_end strs : forall sp i s p, strs !! i = Some s -> places strs sp !! i = Some p -> p + Z.of_nat (List.length s) < sp.
Proof.
  induction strs as [|x strs IH]; intros sp [|i] s p; simpl; [done|done| |].
  - intros [= ->] [= <-]. lia.
  - intros Hs Hp. specialize (IH _ i s p Hs Hp). lia.
Qed.

Section write.
Context {D : Type} `{!BlockOps D}.
Context (kp : Z) (I : VM D -> Prop).
Context (HI : forall u f, I u -> (forall m x, ~ (kp <= x < kp + PGSIZE) -> f m x = m x) -> page_u8 (f (mem (vm_pg u))) kp -> I (poked f u)).
Context (HI8 : forall u, I u -> page_u8 (mem (vm_pg u)) kp).

(** The kernel's address of the stack byte at [a]. *)
Definition kaddr (a : Z) : Z := kp + (a - STACK).

Definition string_at (m : Mem) (a : Z) (s : list Z) : Prop :=
  (forall j, 0 <= j < Z.of_nat (List.length s) -> m (kaddr a + j) = byte_at s j) /\ m (kaddr a + Z.of_nat (List.length s)) = 0.

(** The frame outside of the addresses from [lo] to [hi] is unchanged. *)
Definition outside (lo hi : Z) (u u' : VM D) : Prop :=
  forall x, ~ (kaddr lo <= x < kaddr hi) -> mem (vm_pg u') x = mem (vm_pg u) x.

Lemma wp_poke_in a n f u (Q : unit -> VM D -> Prop) :
  I u -> STACK <= a -> a + n <= PHYS_BASE -> (forall m x, ~ (kaddr a <= x < kaddr a + n) -> f m x = m x) ->
  (forall x, kaddr a <= x < kaddr a + n -> in_u8 (f (mem (vm_pg u)) x)) ->
  (forall u', I u' -> outside a (a + n) u u' -> mem (vm_pg u') = f (mem (vm_pg u)) -> Q tt u') -> wp (poke f) u Q.
Proof.
  intros Hu Ha Hn Hf H8 HQ. apply wp_zoom, wp_modify. unfold kaddr in *. apply (HQ (poked f u)); [|intros x Hx; apply Hf; unfold kaddr in *; lia|done].
  apply HI; [done|intros m x Hx; apply Hf; unfold PHYS_BASE, PGSIZE in *; lia|]. intros k Hk.
  destruct (decide (kp + (a - STACK) <= kp + k < kp + (a - STACK) + n)) as [Hin|Hout]; [by apply H8|].
  rewrite Hf by done. by apply HI8.
Qed.

Lemma outside_trans lo hi lo' hi' u1 u2 u3 :
  lo' <= lo -> hi <= hi' -> outside lo hi u1 u2 -> outside lo' hi' u2 u3 -> outside lo' hi' u1 u3.
Proof. intros ?? H1 H2 x Hx. unfold outside, kaddr in *. rewrite H2 by done. apply H1. lia. Qed.

Lemma outside_string lo hi u u' a s :
  outside lo hi u u' -> hi <= a -> string_at (mem (vm_pg u)) a s -> string_at (mem (vm_pg u')) a s.
Proof. intros Ho Ha [H1 H2]. unfold outside, string_at, kaddr in *. split; [intros j Hj|]; rewrite Ho by lia; [by apply H1|done]. Qed.

Lemma wp_push_strings strs : forall sp acc u (Q : Z * list Z -> VM D -> Prop),
  I u -> Forall (Forall in_u8) strs -> STACK <= sp - size strs -> sp <= PHYS_BASE ->
  (forall u', I u' -> outside (sp - size strs) sp u u' ->
     (forall i s p, strs !! i = Some s -> places strs sp !! i = Some p -> string_at (mem (vm_pg u')) p s) ->
     Q (sp - size strs, acc ++ places strs sp) u') ->
  wp (push_strings strs sp (kaddr sp) acc) u Q.
Proof.
  induction strs as [|s strs IH]; intros sp acc u Q Hu H8 Hlo Hhi HQ; simpl.
  { apply wp_ret. simpl in HQ. rewrite Z.sub_0_r, app_nil_r in HQ. by apply HQ. }
  apply Forall_cons in H8 as [Hs8 H8]. simpl in Hlo, HQ. pose proof (size_nonneg strs) as Hnn.
  set (n := Z.of_nat (List.length s)) in *. set (p := sp - (n + 1)) in *.
  apply wp_bind, wp_u32_add; [unfold PHYS_BASE, PGSIZE, u32_lim in *; lia|]. apply wp_bind, wp_u32_sub; [unfold PHYS_BASE, PGSIZE in *; lia|].
  fold p. replace (kaddr sp - (n + 1)) with (kaddr p) by (unfold kaddr, p; lia).
  apply wp_bind, (wp_poke_in p n); [done|lia|lia| | |].
  { intros m x Hx. rewrite store_bytes_at, decide_False; [done|]. done. }
  { intros x Hx. rewrite store_bytes_at, decide_True by done. apply byte_at_u8. done. }
  intros u1 Hu1 Ho1 E1. apply wp_bind, (wp_poke_in (p + n) 1); [done|lia|lia| | |].
  { intros m x Hx. rewrite store_bytes_at, decide_False; [done|]. unfold kaddr in *. simpl. lia. }
  { intros x Hx. rewrite store_bytes_at, decide_True by (unfold kaddr in *; simpl; lia). apply byte_at_u8. by constructor. }
  intros u2 Hu2 Ho2 E2. apply IH; [done|done|lia|lia|]. intros u3 Hu3 Ho3 Hstr.
  assert (string_at (mem (vm_pg u2)) p s) as Hp.
  { rewrite E2. split; fold n.
    - intros j Hj. rewrite store_bytes_at, decide_False by (unfold kaddr; simpl; lia).
      rewrite E1, store_bytes_at, decide_True by (fold n; unfold kaddr; lia). f_equal. lia.
    - rewrite store_bytes_at, decide_True by (unfold kaddr; simpl; lia). unfold kaddr. by replace (_ - _) with 0 by lia. }
  replace (sp - (n + 1 + size strs)) with (p - size strs) in * by (unfold p; lia).
  rewrite <- app_assoc. apply HQ; [done| |].
  - intros x Hx. unfold outside, kaddr in *. rewrite Ho3, Ho2, Ho1 by lia. done.
  - intros [|i] s' p'; simpl.
    + intros [= <-] [= <-]. by eapply outside_string.
    + apply Hstr.
Qed.

(** Words pushed one after another below [sp]. *)
Definition word_at (m : Mem) (a w : Z) : Prop := read_u32 m (kaddr a) = w.

Lemma outside_word lo hi u u' a w : outside lo hi u u' -> hi <= a \/ a + 4 <= lo -> word_at (mem (vm_pg u)) a w -> word_at (mem (vm_pg u')) a w.
Proof.
  intros Ho Ha <-. unfold word_at. apply read_u32_frame. intros x Hx. apply Ho. unfold kaddr in *. lia.
Qed.

Lemma wp_push_word sp w u (Q : Z -> VM D -> Prop) :
  I u -> in_u32 w -> STACK + 4 <= sp -> sp <= PHYS_BASE ->
  (forall u', I u' -> outside (sp - 4) sp u u' -> word_at (mem (vm_pg u')) (sp - 4) w -> Q (sp - 4) u') ->
  wp (push_word kp STACK sp w) u Q.
Proof.
  intros Hu Hw Hlo Hhi HQ. unfold push_word. apply wp_bind, wp_u32_sub; [unfold PHYS_BASE, PGSIZE in *; lia|].
  apply wp_bind, wp_u32_sub; [lia|]. apply wp_bind. fold (kaddr (sp - 4)).
  apply (wp_poke_in (sp - 4) 4); [done|lia|lia| | |].
  - intros m x Hx. by apply write_u32_frame.
  - intros x Hx. unfold write_u32, kaddr in *. rewrite decide_True by lia. apply byte_at_u8, le_bytes_u8.
  - intros u' Hu' Ho E. apply wp_ret, HQ; [done|by replace sp with (sp - 4 + 4) at 2 by lia|].
    unfold word_at. rewrite E. by apply read_write_u32.
Qed.

Lemma wp_push_words ws : forall sp u (Q : Z -> VM D -> Prop),
  I u -> Forall in_u32 ws -> STACK + 4 * Z.of_nat (List.length ws) <= sp -> sp <= PHYS_BASE ->
  (forall u', I u' -> outside (sp - 4 * Z.of_nat (List.length ws)) sp u u' ->
     (forall i w, ws !! i = Some w -> word_at (mem (vm_pg u')) (sp - 4 * (Z.of_nat i + 1)) w) ->
     Q (sp - 4 * Z.of_nat (List.length ws)) u') ->
  wp (push_words kp STACK sp ws) u Q.
Proof.
  induction ws as [|w ws IH]; intros sp u Q Hu Hw Hlo Hhi HQ; simpl.
  { apply wp_ret. simpl in HQ. rewrite Z.sub_0_r in HQ. by apply HQ. }
  apply Forall_cons in Hw as [Hw Hws]. cbn [List.length] in Hlo, HQ. rewrite Nat2Z.inj_succ in Hlo, HQ.
  set (n := Z.of_nat (List.length ws)) in *.
  apply wp_bind, wp_push_word; [done|done|lia|lia|]. intros u1 Hu1 Ho1 H1.
  apply IH; [done|done|fold n; lia|lia|]. fold n. intros u2 Hu2 Ho2 H2.
  replace (sp - 4 * Z.succ n) with (sp - 4 - 4 * n) in HQ by lia. apply HQ; [done| |].
  - intros x Hx. unfold outside, kaddr in *. rewrite Ho2, Ho1 by lia. done.
  - intros [|i] w'; simpl.
    + intros [= <-]. replace (sp - 4 * (0 + 1)) with (sp - 4) by lia. eapply outside_word; [done|by left; lia|done].
    + intros Hi. replace (sp - 4 * (Z.of_nat (S i) + 1)) with (sp - 4 - 4 * (Z.of_nat i + 1)) by lia. by apply H2.
Qed.
End write.
