(* ===== verification/LoaderSetup.v ===== *)
(** [setup_stack] of src/userprog/process.rs: it maps one page and writes the arguments to it, or
    fails for lack of memory, or panics when the arguments are too long. *)
From S2P Require Import Prelude Utf8 Btree Block Bio FreeMap Inode InodeLayout FileMap InodeOps InodeProofs Memory Palloc Thread Pagedir Swap SchedProofs Spaces NewSpace Vm FrameTable VmMem VmDisk VmInv VmEvict VmLoad VmFault Elf Loader Adopt LoaderStack LoaderArgs.

(** The words and strings of the stack that [main(argc, argv)] finds, as read by [W] and [B]:
    a return address, [argc], [argv], the pointers and the strings they point to. *)
Record argv_layout (W B : Z -> option Z) (args : list (list Z)) (esp : Z) : Prop := {
  al_align : esp mod 4 = 0;
  al_ret : W esp = Some 0;
  al_argc : W (esp + 4) = Some (Z.of_nat (List.length args));
  al_argv : W (esp + 8) = Some (esp + 12);
  al_null : W (esp + 12 + 4 * Z.of_nat (List.length args)) = Some 0;
  al_args : forall i s, args !! i = Some s -> exists p, W (esp + 12 + 4 * Z.of_nat i) = Some p /\
    esp <= p /\ p + Z.of_nat (List.length s) < PHYS_BASE /\
    (forall j, 0 <= j < Z.of_nat (List.length s) -> B (p + j) = Some (byte_at s j)) /\ B (p + Z.of_nat (List.length s)) = Some 0;
}.

(** Bytes of the strings, rounded to words. *)
Definition string_bytes (args : list (list Z)) : Z := 4 * ((size args + 3) / 4).
Definition stack_bytes (args : list (list Z)) : Z := string_bytes args + 4 * (Z.of_nat (List.length args) + 4).
Definition fits (args : list (list Z)) : Prop := stack_bytes args <= PGSIZE.

Lemma string_bytes_bound args : size args <= string_bytes args <= size args + 3.
Proof. unfold string_bytes. Z.div_mod_to_equations. lia. Qed.

Lemma align_down a : in_u32 a -> Z.land a (not_w 32 3) = a - a mod 4.
Proof. intros Ha. apply (land_not_ones a 2 Ha). lia. Qed.

Lemma stack_pointer args : 0 <= PHYS_BASE - size args ->
  Z.land (PHYS_BASE - size args) (not_w 32 3) = PHYS_BASE - string_bytes args.
Proof.
  intros H0. pose proof (size_nonneg args). rewrite align_down by (unfold in_u32, PHYS_BASE, u32_lim in *; lia).
  unfold string_bytes, PHYS_BASE in *. Z.div_mod_to_equations. lia.
Qed.

(** *** The words of a command line are parts of it *)
Lemma split_ws_u8 s : forall skip word, Forall in_u8 s -> Forall in_u8 word -> Forall (Forall in_u8) (split_ws skip word s).
Proof.
  induction s as [|c s IH]; intros skip word Hs Hw; cbn [split_ws].
  - case_bool_decide; [done|by repeat constructor].
  - apply Forall_cons in Hs as [Hc Hs]. destruct skip as [|k]; [|by apply IH]. destruct (ws_len (c :: s)) as [|k].
    + apply IH; [done|]. apply Forall_app. split; [done|by constructor].
    + case_bool_decide; [by apply IH|]. constructor; [done|]. by apply IH.
Qed.

Lemma lookup_rev {A} (l : list A) i x : l !! i = Some x -> rev l !! (List.length l - S i)%nat = Some x.
Proof.
  intros Hi. pose proof (lookup_lt_Some _ _ _ Hi). rewrite rev_alt. apply reverse_lookup_Some.
  split; [|lia]. by replace (_ - _)%nat with i by lia.
Qed.

Section write_args.
Context {D : Type} `{!BlockOps D}.
Context (kp : Z) (I : VM D -> Prop).
Context (HI : forall u f, I u -> (forall m x, ~ (kp <= x < kp + PGSIZE) -> f m x = m x) -> page_u8 (f (mem (vm_pg u))) kp -> I (poked f u)).
Context (HI8 : forall u, I u -> page_u8 (mem (vm_pg u)) kp).

Definition kernel_word (u : VM D) (a : Z) : option Z := Some (read_u32 (mem (vm_pg u)) (kaddr kp a)).
Definition kernel_byte (u : VM D) (a : Z) : option Z := Some (mem (vm_pg u) (kaddr kp a)).

Lemma wp_write_args args u (Q : Z -> VM D -> Prop) :
  I u -> 0 <= kp -> kp + PGSIZE < u32_lim -> Forall (Forall in_u8) args -> fits args ->
  (forall u', I u' -> argv_layout (kernel_word u') (kernel_byte u') args (PHYS_BASE - stack_bytes args) ->
     Q (PHYS_BASE - stack_bytes args) u') ->
  wp (write_args kp STACK args) u Q.
Proof.
  intros Hu Hkp0 Hkp H8 Hfit HQ. unfold fits, stack_bytes in *. pose proof (string_bytes_bound args) as Hsb. pose proof (size_nonneg args) as Hsz.
  set (n := Z.of_nat (List.length args)) in *. set (sb := string_bytes args) in *.
  assert (PHYS_BASE = 0xC0000000 /\ PGSIZE = 4096 /\ u32_lim = 4294967296) as (EP & EG & EL) by done.
  set (ps := places (rev args) PHYS_BASE). assert (List.length ps = List.length args) as Hps by (unfold ps; by rewrite places_length, length_rev).
  assert (forall p, p ∈ ps -> PHYS_BASE - size args <= p < PHYS_BASE) as Hpr.
  { intros p Hp%places_range. by rewrite size_rev in Hp. }
  unfold write_args. apply wp_bind, wp_u32_add; [done|].
  replace (kp + PGSIZE) with (kaddr kp PHYS_BASE) by (unfold kaddr; lia).
  apply wp_bind, (wp_push_strings kp I HI HI8); [done|by apply Forall_rev|rewrite size_rev; lia|lia|].
  fold ps. rewrite size_rev. simpl. intros u1 Hu1 _ Hstr. rewrite stack_pointer by lia. fold sb.
  apply wp_bind, (wp_push_word kp I HI HI8); [done|done|lia|lia|]. intros u2 Hu2 Ho2 Hnull.
  rewrite rev_involutive. apply wp_bind, (wp_push_words kp I HI HI8); [done| |rewrite Hps; fold n; lia|lia|].
  { apply Forall_forall. intros p Hp%Hpr. unfold in_u32. lia. }
  rewrite Hps. fold n. intros u3 Hu3 Ho3 Hws. set (argv := PHYS_BASE - sb - 4 - 4 * n) in *.
  apply wp_bind, (wp_push_word kp I HI HI8); [done|unfold in_u32; lia|lia|lia|]. intros u4 Hu4 Ho4 Hargv.
  apply wp_bind, (wp_push_word kp I HI HI8); [done|unfold in_u32; lia|lia|lia|]. intros u5 Hu5 Ho5 Hargc.
  apply (wp_push_word kp I HI HI8); [done|done|lia|lia|]. intros u6 Hu6 Ho6 Hret.
  replace (argv - 4 - 4 - 4) with (PHYS_BASE - (sb + 4 * (n + 4))) by (unfold argv; lia).
  assert (forall a w, word_at kp (mem (vm_pg u3)) a w -> argv <= a -> word_at kp (mem (vm_pg u6)) a w) as Hlast.
  { intros a w Hw Ha. eapply outside_word; [exact Ho6|left; lia|]. eapply outside_word; [exact Ho5|left; lia|].
    eapply outside_word; [exact Ho4|left; lia|done]. }
  assert (forall a s, string_at kp (mem (vm_pg u1)) a s -> PHYS_BASE - sb <= a -> string_at kp (mem (vm_pg u6)) a s) as Hend.
  { intros a s Hs Ha. eapply outside_string; [exact Ho6|lia|]. eapply outside_string; [exact Ho5|lia|].
    eapply outside_string; [exact Ho4|lia|]. eapply outside_string; [exact Ho3|lia|]. eapply outside_string; [exact Ho2|lia|done]. }
  apply HQ; [done|]. split; fold n; unfold kernel_word.
  - unfold sb, string_bytes. rewrite EP. Z.div_mod_to_equations. lia.
  - f_equal. replace (PHYS_BASE - (sb + 4 * (n + 4))) with (argv - 4 - 4 - 4) by (unfold argv; lia). exact Hret.
  - f_equal. replace (PHYS_BASE - (sb + 4 * (n + 4)) + 4) with (argv - 4 - 4) by (unfold argv; lia).
    eapply (outside_word kp); [exact Ho6|left; lia|done].
  - f_equal. replace (PHYS_BASE - (sb + 4 * (n + 4)) + 8) with (argv - 4) by (unfold argv; lia).
    replace (PHYS_BASE - (sb + 4 * (n + 4)) + 12) with argv by (unfold argv; lia).
    eapply (outside_word kp); [exact Ho6|left; lia|]. eapply (outside_word kp); [exact Ho5|left; lia|done].
  - f_equal. replace (PHYS_BASE - (sb + 4 * (n + 4)) + 12 + 4 * n) with (PHYS_BASE - sb - 4) by lia.
    apply Hlast; [|lia]. eapply outside_word; [exact Ho3|left; lia|done].
  - intros i s Hi. pose proof (lookup_lt_Some _ _ _ Hi) as Hlt. set (j := (List.length args - S i)%nat).
    pose proof (lookup_rev args i s Hi) as Hr. fold j in Hr.
    destruct (lookup_lt_is_Some_2 ps j) as [p Hp]; [lia|]. exists p. split_and!.
    + f_equal. replace (PHYS_BASE - (sb + 4 * (n + 4)) + 12 + 4 * Z.of_nat i) with (PHYS_BASE - sb - 4 - 4 * (Z.of_nat j + 1)) by lia.
      apply Hlast; [by apply Hws|lia].
    + pose proof (Hpr p (list_elem_of_lookup_2 _ _ _ Hp)). lia.
    + by eapply (places_end (rev args)).
    + intros k Hk. unfold kernel_byte, kaddr. f_equal. replace (kp + (p + k - STACK)) with (kaddr kp p + k) by (unfold kaddr; lia).
      by apply (Hend p s (Hstr j s p Hr Hp) ltac:(pose proof (Hpr p (list_elem_of_lookup_2 _ _ _ Hp)); lia)).
    + unfold kernel_byte. f_equal. replace (kaddr kp (p + _)) with (kaddr kp p + Z.of_nat (List.length s)) by (unfold kaddr; lia).
      apply (Hend p s (Hstr j s p Hr Hp)). pose proof (Hpr p (list_elem_of_lookup_2 _ _ _ Hp)). lia.
Qed.

End write_args.

(** *** Arguments that do not fit *)

(** [m] ends in a panic or in a result that satisfies [R]. *)
Definition ends {S A} (m : M S A) (s : S) (R : A -> Prop) : Prop :=
  match m s with Ok a _ => R a | Panic _ => True | _ => False end.

Lemma ends_bind {S A B} (m : M S A) (k : A -> M S B) s (R : B -> Prop) :
  ends m s (fun a => forall s', ends (k a) s' R) -> ends (bind m k) s R.
Proof. unfold ends, bind. destruct (m s); try done. intros H. apply H. Qed.

Lemma ends_add {S} a b (s : S) (R : Z -> Prop) : R (a + b) -> ends (u32_add a b) s R.
Proof. intros H. unfold ends, u32_add. by destruct (_ <? _). Qed.

Lemma ends_sub {S} a b (s : S) (R : Z -> Prop) : (b <= a -> R (a - b)) -> ends (u32_sub a b) s R.
Proof. intros H. unfold ends, u32_sub. destruct (Z.leb_spec b a); [by apply H|done]. Qed.

Section overflow.
Context {D : Type} `{!BlockOps D}.
Implicit Types u : VM D.

Lemma ends_push_strings strs : forall sp k acc u (R : Z * list Z -> Prop),
  0 <= sp -> (0 <= sp - size strs -> R (sp - size strs, acc ++ places strs sp)) -> ends (push_strings strs sp k acc) u R.
Proof.
  induction strs as [|s strs IH]; intros sp k acc u R Hsp HR; simpl.
  { simpl in HR. rewrite Z.sub_0_r, app_nil_r in HR. by apply HR. }
  apply ends_bind, ends_add. intros u1. apply ends_bind, ends_sub. intros Hle u2.
  apply ends_bind. intros u3. apply ends_bind. intros u4. apply IH; [lia|]. intros H0. rewrite <- app_assoc. simpl in HR.
  replace (sp - (Z.of_nat (List.length s) + 1) - size strs) with (sp - (Z.of_nat (List.length s) + 1 + size strs)) in * by lia.
  by apply HR.
Qed.

Lemma ends_push_word kp sp w u (R : Z -> Prop) : (STACK <= sp - 4 -> R (sp - 4)) -> ends (push_word kp STACK sp w) u R.
Proof.
  intros HR. unfold push_word. apply ends_bind, ends_sub. intros _ u1. apply ends_bind, ends_sub. intros Hle u2.
  apply ends_bind. intros u3. by apply HR.
Qed.

Lemma ends_push_words kp ws : forall sp u (R : Z -> Prop),
  R (sp - 4 * Z.of_nat (List.length ws)) -> ends (push_words kp STACK sp ws) u R.
Proof.
  induction ws as [|w ws IH]; intros sp u R HR; simpl.
  { simpl in HR. by rewrite Z.sub_0_r in HR. }
  cbn [List.length] in HR. apply ends_bind, ends_push_word. intros _ u1. apply IH.
  by replace (sp - 4 - 4 * Z.of_nat (List.length ws)) with (sp - 4 * Z.of_nat (S (List.length ws))) by lia.
Qed.

Lemma ends_write_args kp args u : ends (write_args kp STACK args) u (fun _ => fits args).
Proof.
  unfold write_args. apply ends_bind, ends_add. intros u1. apply ends_bind, ends_push_strings; [done|]. rewrite size_rev.
  intros H0 u2. cbn [app]. rewrite stack_pointer by done. apply ends_bind, ends_push_word. intros _ u3.
  rewrite rev_involutive. apply ends_bind, ends_push_words. rewrite places_length, length_rev. intros u4.
  apply ends_bind, ends_push_word. intros _ u5. apply ends_bind, ends_push_word. intros _ u6. apply ends_push_word. intros Hlast.
  unfold fits, stack_bytes. lia.
Qed.

(** The panic. *)
Lemma write_args_panics kp args u : ~ fits args -> exists w, write_args kp STACK args u = Panic w.
Proof.
  intros Hno. pose proof (ends_write_args kp args u) as H. unfold ends in H.
  destruct (write_args kp STACK args u) as [r u'|w| |]; [done|by exists w|done|done].
Qed.
End overflow.

(** *** The whole function *)
Lemma calm_exhausted P s s' : calm P s s' -> exhausted ZERO 1 (pg_pa s') -> exhausted ZERO 1 (pg_pa s).
Proof.
  intros [_ Hf [Ek _]] Hex p. change (pool_of ZERO (pg_pa s)) with (KERNEL_POOL (pg_pa s)). intros Hb Hm He.
  destruct (Hex p) as (a & Ha & Hl); change (pool_of ZERO (pg_pa s')) with (KERNEL_POOL (pg_pa s')) in *; rewrite ?Ek; try done.
  exists a. split; [done|]. destruct (live (pg_pa s) a) eqn:E; [done|]. rewrite Hf in Hl; [done| |done].
  unfold is_page in Ha. rewrite !andb_true_iff, Z.leb_le, Z.ltb_lt, Z.eqb_eq in Ha.
  unfold in_pool. rewrite !andb_true_iff, Z.leb_le, Z.ltb_lt, Z.eqb_eq. lia.
Qed.

Section setup.
Context {D : Type} `{!BlockOps D, !BlockLaws D}.
Context (v : VM D) (th : Thread) (pd : Z).
Context (Hok : vm_ok v) (Hset : settled v) (Hsound : sound v).
Context (Hth : threads (vm_sched v) !! current (vm_sched v) = Some th) (Hpd0 : pds v (tid th) = 0).
Context (Hborn : newborn (vm_pg v) (pds v) pd).
Context (Hfresh : forall e, e ∈ frames v -> owner_tid e <> tid th).
Context (Htab : forall page se s, spt_at v (tid th) page = Some se -> location se <> InSwap s).

Lemma wp_self (u : VM D) x (Q : Thread -> VM D -> Prop) :
  threads (vm_sched u) !! current (vm_sched u) = Some x -> Q x u -> wp self u Q.
Proof.
  intros Hx HQ. unfold self, wp, threads_do, zoom, bind, running_thread, gets, deref. rewrite Hx. simpl. by rewrite with_sched_id.
Qed.

Lemma staged_u8 kp u : staged v th pd kp u -> page_u8 (mem (vm_pg u)) kp.
Proof. intros Hs. apply (mo_frames _ _ _ (vo_mem _ (sg_ok _ _ _ _ _ Hs)) _ (sg_frame _ _ _ _ _ Hs)). Qed.

Lemma staged_addr kp u : staged v th pd kp u -> PHYS_BASE <= kp /\ kp + PGSIZE < u32_lim.
Proof.
  intros Hs. pose proof (vo_mem _ (sg_ok _ _ _ _ _ Hs)) as Hm.
  destruct (mo_frames _ _ _ Hm _ (sg_frame _ _ _ _ _ Hs)) as [Hu _ _].
  pose proof (ss_pools _ _ (mo_spaces _ _ _ Hm)) as Hp. destruct (user_frame_kernel_page _ _ Hp Hu) as [Hlo _]. split; [apply Hlo|].
  pose proof (pa_user _ (proj1 (pl_paging _ Hp))) as Hpo. destruct Hu as [Hin _]. apply page_index in Hin as [Hi Ha]; [|done].
  pose proof (po_end _ Hpo). change (kpage (new_frame kp STACK (tid th))) with kp in *. unfold pool_end, PGSIZE in *. lia.
Qed.

(** No frame for the stack, or no page for its table. *)
Definition no_stack_memory (w : VM D) : Prop :=
  (exhausted (Z.lor USER ZERO) 1 (pg_pa (vm_pg w)) /\ ~ can_evict w) \/ exhausted ZERO 1 (pg_pa (vm_pg w)).

(** The state after a failure: nothing has happened. *)
Record unstaged (w : VM D) : Prop := {
  us_kept : kept v w;
  us_born : newborn (vm_pg w) (pds v) pd;
  us_table : SPT_TABLE w !! tid th = SPT_TABLE v !! tid th;
}.

(** The page is mapped, or there was no memory. *)
Lemma wp_stack_page (Q : option Z -> VM D -> Prop) :
  (forall w, unstaged w -> no_stack_memory v -> Q None w) -> (forall kp u, staged v th pd kp u -> Q (Some kp) u) ->
  wp (stack_page pd STACK) v Q.
Proof.
  intros Hnone Hsome. unfold stack_page. apply wp_bind, (wp_self _ th); [done|]. apply wp_bind, wp_alloc_frame; [done|apply stack_user_page|..].
  - intros w Hokw Hv Hex. apply wp_ret, Hnone; [|left; by apply Hex]. split; [by apply kept_view| |by rewrite (sv_spt _ _ Hv)].
    destruct (sv_calm _ _ Hv) as [Hs _ Hp]. by eapply newborn_spared.
  - intros kp u Hkp Hh Hz Hin. rewrite (proj2 (Z.eqb_neq _ _) Hkp). pose proof (ho_pds _ _ _ _ _ Hh) as Ep.
    pose proof (held_newborn v th pd Hborn u kp Hh) as Hbu. pose proof (held_mem_ok v th pd Hpd0 Hborn u kp Hh) as Hmu.
    pose proof (mo_spaces _ _ _ Hmu) as Hss. pose proof (joined_self v th pd) as Ej.
    unfold install_page. apply wp_bind, wp_bind, wp_zoom, wp_get_page; [apply Hss|apply Hbu|by vm_compute|].
    rewrite (newborn_unmapped _ _ _ Hbu) by by vm_compute. rewrite with_pg_id. simpl negb. cbv iota.
    apply wp_zoom. pose proof (wp_set_page_spaces (join (tid th) pd (pds v)) (tid th) STACK (vm_pg u) Hss) as Hset_page.
    rewrite Ej in Hset_page. apply Hset_page; [by eapply born_pd|apply stack_user_page|apply stack_user_page| | |].
    + eapply user_frame_kernel_page; [apply Hss|apply Hh].
    + intros _ Hex. rewrite with_pg_id. apply list_elem_of_lookup in Hin as (h & Hx).
      apply wp_bind, (wp_free_frame u h (new_frame kp STACK (tid th))); [apply Hh|done| |].
      { rewrite Ep. apply Hh. }
      intros G Hfd. apply wp_ret, Hnone; [|right; eapply calm_exhausted; [apply Hh|done]]. destruct (fd_spared _ _ _ Hfd) as [Hs Hp]. rewrite Ep in Hs.
      split; [|by eapply newborn_spared|].
      * eapply kept_freed; [exact Hh|apply filled_refl; [apply Hh|apply stack_user_page]|exact Hfd].
      * destruct (fd_spt _ _ _ Hfd) as [-> _]. by apply (ho_tables _ _ _ _ _ Hh).
    + intros s Hu _. apply wp_ret, Hsome. by apply staged_install.
Qed.

Lemma wp_setup_stack cmdline (Q : option Z -> VM D -> Prop) :
  Forall in_u8 cmdline -> fits (split_whitespace cmdline) ->
  (forall w, unstaged w -> no_stack_memory v -> Q None w) ->
  (forall kp u, staged v th pd kp u ->
     argv_layout (kernel_word kp u) (kernel_byte kp u) (split_whitespace cmdline) (PHYS_BASE - stack_bytes (split_whitespace cmdline)) ->
     Q (Some (PHYS_BASE - stack_bytes (split_whitespace cmdline))) u) ->
  wp (setup_stack pd cmdline) v Q.
Proof.
  intros H8 Hfit Hnone Hsome. unfold setup_stack. apply wp_bind, wp_stack_page; [intros w Hw Hex; apply wp_ret; by apply Hnone|].
  intros kp u Hs. destruct (staged_addr kp u Hs) as [Hlo Hhi].
  apply wp_bind, (wp_write_args kp (staged v th pd kp)); [|apply staged_u8|done|unfold PHYS_BASE in *; lia|done| |done|].
  - intros u' f. by apply staged_poke.
  - by apply split_ws_u8.
  - intros u' Hs' Hl. apply wp_ret. by apply (Hsome kp).
Qed.

(** Arguments that are too long panic the kernel. *)
Lemma setup_stack_panics cmdline :
  ~ fits (split_whitespace cmdline) -> ~ no_stack_memory v -> exists w, setup_stack pd cmdline v = Panic w.
Proof.
  intros Hno Hmem. assert (wp (stack_page pd STACK) v (fun r _ => is_Some r)) as (r & u & E & [kp ->])%wp_ok.
  { apply wp_stack_page; [done|by eexists]. }
  destruct (write_args_panics kp (split_whitespace cmdline) u Hno) as [w Hw]. exists w.
  unfold setup_stack, bind. by rewrite E, Hw.
Qed.
End setup.
