(* ===== verification/LoadProgram.v ===== *)
(** [load_demand_paged] of src/userprog/process.rs as a whole: the address space a program gets is the one its
    headers describe, and a failure leaves no trace. *)
From S2P Require Import Prelude Utf8 Btree Block Bio FreeMap Inode InodeLayout FileMap InodeOps InodeProofs Memory Palloc Thread Pagedir Swap SchedProofs Spaces NewSpace Vm FrameTable VmMem VmDisk VmInv VmEvict VmLoad VmFault Elf ElfProofs Loader Adopt LoaderStack LoaderArgs LoaderSetup.

(** *** The kernel's directory stays where it is *)
Section init_dir.
Context {D : Type} `{!BlockOps D}.

Definition init_at (i : Z) (s : Paging) : Prop := INIT_PAGE_DIR s = i.
Definition vm_init_at (i : Z) (v : VM D) : Prop := init_at i (vm_pg v).

Lemma keeps_on_pa {A} i (m : M Palloc A) : keeps (init_at i) (on_pa m).
Proof. intros s Hs. apply wlp_zoom. unfold wlp. by destruct (m (pg_pa s)). Qed.
Lemma keeps_put i a w : keeps (init_at i) (put a w).
Proof. by apply keeps_modify. Qed.
Lemma keeps_invalidate i a : keeps (init_at i) (invalidate a).
Proof. by apply keeps_modify. Qed.
Lemma keeps_load i a : keeps (init_at i) (load a).
Proof. apply keeps_gets. Qed.
Lemma keeps_ptov {S} (I : S -> Prop) a : keeps I (ptov a).
Proof. unfold ptov. keeps_go. Qed.
Lemma keeps_vtop {S} (I : S -> Prop) a : keeps I (vtop a).
Proof. unfold vtop. keeps_go. Qed.
#[local] Hint Resolve keeps_on_pa keeps_put keeps_invalidate keeps_load keeps_ptov keeps_vtop : keeps.
Lemma keeps_lookup i pd va c : keeps (init_at i) (lookup pd va c).
Proof. unfold lookup. keeps_go. Qed.
#[local] Hint Resolve keeps_lookup : keeps.
Lemma keeps_set_page i pd u k w : keeps (init_at i) (set_page pd u k w).
Proof. unfold set_page. keeps_go. Qed.
Lemma keeps_get_page i pd u : keeps (init_at i) (get_page pd u).
Proof. unfold get_page. keeps_go. Qed.
Lemma keeps_clear_page i pd u : keeps (init_at i) (clear_page pd u).
Proof. unfold clear_page. keeps_go. Qed.
Lemma keeps_is_accessed i pd u : keeps (init_at i) (is_accessed pd u).
Proof. unfold is_accessed. keeps_go. Qed.
Lemma keeps_set_accessed i pd u b : keeps (init_at i) (set_accessed pd u b).
Proof. unfold set_accessed. keeps_go. Qed.
Lemma keeps_is_dirty i pd u : keeps (init_at i) (is_dirty pd u).
Proof. unfold is_dirty. keeps_go. Qed.

Lemma keeps_pg {A} i (m : M Paging A) : keeps (init_at i) m -> keeps (vm_init_at i) (pg m).
Proof. intros Hm. by apply (keeps_zoom _ (init_at i)). Qed.
#[local] Hint Resolve keeps_pg keeps_set_page keeps_get_page keeps_clear_page keeps_is_accessed keeps_set_accessed keeps_is_dirty : keeps.

Lemma keeps_other {A} i (proj : VM D -> A) (upd : A -> VM D -> VM D) {B} (m : M A B) :
  (forall x v, INIT_PAGE_DIR (vm_pg (upd x v)) = INIT_PAGE_DIR (vm_pg v)) -> keeps (vm_init_at i) (zoom proj upd m).
Proof. intros H v Hv. apply wlp_zoom. unfold wlp. destruct (m (proj v)); try done. unfold vm_init_at, init_at. by rewrite H. Qed.
Lemma keeps_threads_do {A} i (m : M Sched A) : keeps (vm_init_at i) (threads_do m).
Proof. by apply keeps_other. Qed.
Lemma keeps_swap {A} i (m : M (SwapState D) A) : keeps (vm_init_at i) (swap m).
Proof. by apply keeps_other. Qed.
Lemma keeps_vm_modify i (f : VM D -> VM D) : (forall v, vm_pg (f v) = vm_pg v) -> keeps (vm_init_at i) (modify f).
Proof. intros H. apply keeps_modify. intros v. unfold vm_init_at. by rewrite H. Qed.
Lemma keeps_vm_index {A} i (l : list A) k : keeps (vm_init_at i) (index l k).
Proof. unfold index. keeps_go. Qed.
Lemma keeps_vm_mul i a b : keeps (vm_init_at i) (u32_mul a b).
Proof. unfold u32_mul. keeps_go. Qed.
#[local] Hint Resolve keeps_threads_do keeps_swap keeps_vm_index keeps_vm_mul keeps_for_ret : keeps.
#[local] Hint Extern 1 (keeps (vm_init_at _) (modify _)) => (by apply keeps_vm_modify) : keeps.

Lemma keeps_poke i f : keeps (vm_init_at i) (poke f).
Proof. apply keeps_pg. by apply keeps_modify. Qed.
#[local] Hint Resolve keeps_poke : keeps.
Lemma keeps_in_spt i t f : keeps (vm_init_at i) (in_spt t f).
Proof. by apply keeps_vm_modify. Qed.
#[local] Hint Resolve keeps_in_spt : keeps.
Lemma keeps_evict_turn i ft n : keeps (vm_init_at i) (evict_turn ft n).
Proof. unfold evict_turn, get_spt, drop_victim. keeps_go. Qed.
#[local] Hint Resolve keeps_evict_turn : keeps.
Lemma keeps_evict_frame i : keeps (vm_init_at i) evict_frame.
Proof. unfold evict_frame. keeps_go. Qed.
#[local] Hint Resolve keeps_evict_frame : keeps.
Lemma keeps_alloc_frame i u t : keeps (vm_init_at i) (alloc_frame u t).
Proof. unfold alloc_frame, register_frame, zero_page. keeps_go. Qed.
Lemma keeps_free_frame i k : keeps (vm_init_at i) (free_frame k).
Proof. unfold free_frame. keeps_go. Qed.
#[local] Hint Resolve keeps_alloc_frame keeps_free_frame : keeps.
Lemma keeps_stack_page i pd u : keeps (vm_init_at i) (stack_page pd u).
Proof. unfold stack_page, self, install_page. keeps_go. Qed.
Lemma keeps_push_strings i strs : forall sp k acc, keeps (vm_init_at i) (push_strings strs sp k acc).
Proof. induction strs as [|s strs IH]; intros; simpl; keeps_go. Qed.
Lemma keeps_push_word i k u sp w : keeps (vm_init_at i) (push_word k u sp w).
Proof. unfold push_word, write_stack_word. keeps_go. Qed.
#[local] Hint Resolve keeps_stack_page keeps_push_strings keeps_push_word : keeps.
Lemma keeps_push_words i k u ws : forall sp, keeps (vm_init_at i) (push_words k u sp ws).
Proof. induction ws as [|w ws IH]; intros; simpl; keeps_go. Qed.
#[local] Hint Resolve keeps_push_words : keeps.
Lemma keeps_setup_stack i pd c : keeps (vm_init_at i) (setup_stack pd c).
Proof. unfold setup_stack, write_args. keeps_go. Qed.
End init_dir.

Section tables.
Context {D : Type} `{!BlockOps D, !BlockLaws D}.
Implicit Types v : VM D.

Lemma set_table_twice tid t t' v : set_table tid t' (set_table tid t v) = set_table tid t' v.
Proof. unfold set_table. simpl. by rewrite insert_insert_eq. Qed.

Lemma wp_in_spt tid f t v (Q : unit -> VM D -> Prop) :
  SPT_TABLE v !! tid = Some t -> Q tt (set_table tid (f t) v) -> wp (in_spt tid f) v Q.
Proof.
  intros Ht HQ. apply wp_modify. unfold set_table in HQ. replace (alter f tid (SPT_TABLE v)) with (<[tid := f t]> (SPT_TABLE v)); [done|].
  apply map_eq. intros i. destruct (decide (i = tid)) as [->|Hne]; [by rewrite lookup_insert_eq, lookup_alter_eq, Ht|].
  by rewrite lookup_insert_ne, lookup_alter_ne.
Qed.

(** The pages from [lo] below [hi]. *)
Definition page_in (lo hi p : Z) : Prop := lo <= p < hi /\ p mod PGSIZE = 0.
#[global] Instance page_in_dec lo hi p : Decision (page_in lo hi p).
Proof. unfold page_in. apply _. Defined.

Lemma wp_map_pages fuel : forall tid segs l sector page t v (Q : unit -> VM D -> Prop),
  SPT_TABLE v !! tid = Some t -> 0 <= page -> page mod PGSIZE = 0 -> load_end_vaddr l + PGSIZE < u32_lim ->
  (Z.to_nat ((load_end_vaddr l - page) / PGSIZE + 1) < fuel)%nat ->
  (forall x, x ∈ segs -> seg_vaddr x + seg_memsz x < u32_lim) ->
  (forall a, load_base_vaddr l <= a < load_end_file l -> load_base_foff l + (a - load_base_vaddr l) < u32_lim) ->
  (forall p, page <= p -> t !! p = None) ->
  (forall t', (forall p, t' !! p = if decide (page_in page (load_end_vaddr l) p) then Some (entry_of segs l sector p) else t !! p) ->
     Q tt (set_table tid t' v)) ->
  wp (map_pages fuel tid segs l sector page) v Q.
Proof.
  induction fuel as [|fuel IH]; intros tid segs l sector page t v Q Ht Hp0 Hpm Hlim Hfuel Hseg Hfo Hnone HQ; [lia|]. simpl.
  destruct (Z.ltb_spec page (load_end_vaddr l)) as [Hlt|Hge].
  - apply wp_bind, wp_gets. rewrite Ht. simpl. unfold spt_find, page_of. change (PGSIZE - 1) with PGMASK.
    rewrite land_not_pgmask by (unfold in_u32, PGSIZE in *; lia). rewrite Hpm, Z.sub_0_r, Hnone by lia.
    apply wp_bind, wp_bind, wp_page_entry; [done|done|lia|done|]. apply (wp_in_spt _ _ t); [done|].
    apply wp_bind, wp_u32_add; [lia|]. set (e := entry_of segs l sector page).
    assert (spt_insert e t = <[page := e]> t) as Ei by done. rewrite Ei.
    apply (IH _ _ _ _ _ (<[page := e]> t)); [simpl; apply lookup_insert_eq|unfold PGSIZE; lia| |done| |done|done| |].
    + unfold PGSIZE in *. Z.div_mod_to_equations. lia.
    + replace (load_end_vaddr l - (page + PGSIZE)) with (load_end_vaddr l - page + -1 * PGSIZE) by lia.
      rewrite Z.div_add by done. assert (0 <= (load_end_vaddr l - page) / PGSIZE) by (apply Z.div_pos; unfold PGSIZE; lia). lia.
    + intros p Hp. unfold PGSIZE in *. rewrite lookup_insert_ne by lia. apply Hnone. lia.
    + intros t' Ht'. rewrite set_table_twice. apply HQ. intros p. rewrite Ht'. unfold page_in. destruct (decide (p = page)) as [->|Hne].
      * rewrite decide_False by (unfold PGSIZE; lia). rewrite decide_True by lia. apply lookup_insert_eq.
      * rewrite lookup_insert_ne by done. destruct (decide (page <= p < load_end_vaddr l /\ p mod PGSIZE = 0)) as [[Hr Hm]|Hno].
        -- rewrite decide_True; [done|]. split; [|done]. unfold PGSIZE in *. Z.div_mod_to_equations. lia.
        -- rewrite decide_False; [done|]. intros [Hr Hm]. apply Hno. split; [|done]. unfold PGSIZE in *. lia.
  - apply wp_ret. replace v with (set_table tid t v) by (unfold set_table; rewrite insert_id by done; by destruct v).
    apply HQ. intros p. rewrite decide_False; [done|]. unfold page_in. lia.
Qed.
End tables.

(** ** What a program sees of its memory *)
Section user_memory.
Context {D : Type} `{!BlockOps D}.

Definition user_byte (v : VM D) (t va : Z) : option Z := content v t (va - va mod PGSIZE) (va mod PGSIZE).
Definition user_word (v : VM D) (t va : Z) : option Z :=
  b0 ← user_byte v t va; b1 ← user_byte v t (va + 1); b2 ← user_byte v t (va + 2); b3 ← user_byte v t (va + 3);
  Some (le_word [b0; b1; b2; b3]).
End user_memory.

Section steps.
Context {D : Type} `{!BlockOps D, !BlockLaws D}.
Implicit Types v u : VM D.

(** *** The directory register *)
Definition with_cr3 (c : Z) v : VM D :=
  with_pg (mkPaging (pg_pa (vm_pg v)) (INIT_PAGE_DIR (vm_pg v)) c (invlpg (vm_pg v))) v.

Lemma mem_ok_cr3 s c il P ft : mem_ok s P ft -> mem_ok (mkPaging (pg_pa s) (INIT_PAGE_DIR s) c il) P ft.
Proof.
  intros [[[Hpg Hu] Hsp Hi] Hf Hb]. split; [split; [split; [exact Hpg|exact Hu]| |exact Hi]| |exact Hb].
  - intros t Ht. destruct (Hsp t Ht) as [[H1 H2 H3] H4 H5]. split; [split; [exact H1|exact H2|exact H3]|exact H4|exact H5].
  - intros e He. destruct (Hf e He) as [H1 H2 H3]. split; [exact H1|exact H2|exact H3].
Qed.

Lemma newborn_cr3 s c il P pd : newborn s P pd -> newborn (mkPaging (pg_pa s) (INIT_PAGE_DIR s) c il) P pd.
Proof.
  intros [[[H1 H2 H3] H4 H5] H6 H7 H8 H9].
  split; [split; [split; [exact H1|exact H2|exact H3]|exact H4|exact H5]|exact H6|exact H7|exact H8|exact H9].
Qed.

Lemma vm_ok_cr3 v c : vm_ok v -> vm_ok (with_cr3 c v).
Proof. intros Hok. apply vm_ok_pg; [done|apply mem_ok_cr3, Hok|done]. Qed.

Lemma kept_cr3 v c : vm_ok v -> kept v (with_cr3 c v).
Proof. intros Hok. apply kept_pg; [done|apply mem_ok_cr3, Hok|done|done|done]. Qed.

Lemma wp_activate pd v (Q : unit -> VM D -> Prop) :
  PHYS_BASE <= (if pd =? 0 then INIT_PAGE_DIR (vm_pg v) else pd) -> (forall c, Q tt (with_cr3 c v)) -> wp (pg (activate pd)) v Q.
Proof.
  intros Hk HQ. apply wp_zoom. unfold activate. apply wp_bind, wp_gets, wp_bind, wp_vtop; [done|]. apply wp_modify. apply HQ.
Qed.

Lemma pool_kernel_addr (s : Paging) a : paging_ok s -> in_pool (KERNEL_POOL (pg_pa s)) a = true -> PHYS_BASE <= a.
Proof. intros [_ Hb]. unfold in_pool. rewrite !andb_true_iff, Z.leb_le. lia. Qed.

(** *** The heap break *)
Definition with_brk (b : Z) v : VM D :=
  with_sched (with_threads (alter (set_brk b) (current (vm_sched v)) (threads (vm_sched v))) (vm_sched v)) v.

Lemma has_tid_brk b k id t : has_tid (with_threads (alter (set_brk b) (current k) (threads k)) k) id t = has_tid k id t.
Proof.
  unfold has_tid. simpl. destruct (decide (t = current k)) as [->|Hne]; [|by rewrite lookup_alter_ne].
  rewrite lookup_alter_eq. by destruct (threads k !! current k).
Qed.

Lemma pds_brk b v t : pds (with_brk b v) t = pds v t.
Proof.
  unfold pds, pd_of. simpl. rewrite (find_ext _ (has_tid (vm_sched v) t)) by (intros; apply has_tid_brk).
  destruct (List.find _ _) as [x|]; [|done]. simpl. destruct (decide (x = current (vm_sched v))) as [->|Hne]; [|by rewrite lookup_alter_ne].
  rewrite lookup_alter_eq. by destruct (threads (vm_sched v) !! current (vm_sched v)).
Qed.

Lemma vm_ok_brk b v : vm_ok v -> vm_ok (with_brk b v).
Proof.
  intros [Mm Ma Mc Mf Mi Mcl Msw Mfs Mr Mmap Mspt Msl Mown]. split; try done.
  - eapply mem_ok_ext; [apply pds_brk|done].
  - intros t Ht. simpl. rewrite lookup_alter_is_Some. by apply Ma.
  - destruct Mc as (th & Hth & Hf). exists (set_brk b th). simpl. rewrite lookup_alter_eq, Hth. split; [done|].
    rewrite <- Hf. apply find_ext. intros t. apply has_tid_brk.
  - intros t page se Hse. destruct (Mspt t page se Hse) as [Hp Hr Hfi Ht]. split; [done..|]. intros s Hs. rewrite pds_brk. by apply (Ht s).
Qed.

Lemma content_brk b v t p k : content (with_brk b v) t p k = content v t p k.
Proof. unfold content. by rewrite pds_brk. Qed.

Lemma settled_brk b v : settled v -> settled (with_brk b v).
Proof. intros Hs e He. rewrite pds_brk. by apply Hs. Qed.

Lemma wp_set_self f v th (Q : unit -> VM D -> Prop) :
  threads (vm_sched v) !! current (vm_sched v) = Some th ->
  Q tt (with_sched (with_threads (alter f (current (vm_sched v)) (threads (vm_sched v))) (vm_sched v)) v) -> wp (set_self f) v Q.
Proof.
  intros Hth HQ. unfold set_self, wp, threads_do, zoom, bind, running_thread, gets, upd_thread, bind, deref, modify. by rewrite Hth.
Qed.

(** *** Giving back a directory without pages *)
Lemma wp_destroy_newborn v pd (Q : unit -> VM D -> Prop) :
  vm_ok v -> newborn (vm_pg v) (pds v) pd -> (forall w, kept v w -> SPT_TABLE w = SPT_TABLE v -> Q tt w) -> wp (destroy_pd pd) v Q.
Proof.
  intros Hok Hn HQ. pose proof (vo_mem _ Hok) as Hm. pose proof (mo_spaces _ _ _ Hm) as Hss.
  assert (pa_ok (pg_pa (vm_pg v))) as Hpa by apply Hss.
  destruct (live_page (pg_pa (vm_pg v)) pd Hpa) as (Hpos & _); [apply Hn|].
  unfold destroy_pd. rewrite (proj2 (Z.eqb_neq _ _)) by lia. apply wp_bind. change (Z.shiftr PHYS_BASE 22) with 768.
  apply (wp_for_range (fun _ w => w = v)); [done|done| |].
  - intros i w Hi ->. apply wp_bind, wp_zoom, wp_gets. rewrite with_pg_id. change (read_u32 (mem (vm_pg v)) (pd + 4 * i)) with (pde (vm_pg v) pd i).
    rewrite (nb_user _ _ _ Hn) by done. by apply wp_ret.
  - intros w ->. apply wp_zoom, (wp_free_pool_page ZERO); [done|apply (proj1 (nb_page _ _ _ Hn))|]. intros s Hs Hl _. apply HQ; [|done].
    assert (forall t a, pds v t <> 0 -> uses (vm_pg v) (pds v t) a -> a <> pd) as Hap.
    { intros t a Ht Ha ->. by apply (nb_apart _ _ _ Hn t Ht). }
    destruct (spaces_frame _ _ s (pds v) Hss Hs Hap) as [Hss' Hmap].
    assert (forall e, e ∈ frames v -> kpage e <> pd) as Hne.
    { intros e He E. apply (kernel_not_user (vm_pg v) e); [apply Hss|by apply Hm|]. rewrite E. apply (proj1 (nb_page _ _ _ Hn)). }
    apply kept_pg; [done| | | |].
    + destruct Hm as [_ Hf Hb]. split; [done| |].
      * intros e He. eapply frame_ok_same; [exact Hs|by apply Hne|by apply Hf].
      * intros t va pte Ht Hva. rewrite Hmap by (done || by apply user_page_u32). by apply Hb.
    + intros t va Ht Hva. apply Hmap; [done|by apply user_page_u32].
    + intros a x [Hin Hla] Hx. apply (proj2 Hs a Hla); [|done]. intros ->.
      apply (pool_apart (vm_pg v) pd pd); try done. apply (proj1 (nb_page _ _ _ Hn)).
    + intros t i Ht Hi. rewrite (frame_pde (fun a => a = pd) (vm_pg v) s); [done|by apply (ss_space _ _ Hss)|exact Hs|by intros a; apply Hap|done].
Qed.

(** ** The entries of the program's pages *)

(** Sector [sector] holds the file [d]. *)
Record file_is v (sector : Z) (d : list Z) : Prop := {
  fi_at : file_at (abs (vm_fs v)) sector;
  fi_len : flen (abs (vm_fs v)) sector = Z.of_nat (List.length d);
  fi_bytes : forall o, 0 <= o < Z.of_nat (List.length d) -> contents (abs (vm_fs v)) sector o = byte_at d o;
}.

(** The table the loader makes: an entry for every page from the first to the last segment. *)
Definition image_table (d : list Z) (sector : Z) (t : SPT) : Prop :=
  if decide (loads d = []) then t = ∅
  else exists l, layout_ok (loads d) l /\ forall p, t !! p =
    if decide (page_in (load_base_vaddr l - load_base_vaddr l mod PGSIZE) (load_end_vaddr l) p)
    then Some (entry_of (loads d) l sector p) else None.

Section image.
Context (d : list Z) (Hd : elf_ok d) (Him : image_ok d (loads d) STACK).

Lemma layout_range l : layout_ok (loads d) l ->
  0 <= load_base_vaddr l <= load_end_vaddr l /\ load_end_vaddr l <= STACK /\ 0 <= load_base_foff l /\
  forall a, load_base_vaddr l <= a < load_end_file l -> 0 <= load_base_foff l + (a - load_base_vaddr l) < Z.of_nat (List.length d).
Proof.
  intros Hl. destruct (lo_base _ _ Hl) as (s0 & Hs0 & Ev & Eo). destruct (loads_ok d s0 Hd Hs0) as [Hv Hz Ho].
  destruct (lo_end _ _ Hl) as (s1 & Hs1 & E1). pose proof (im_limit _ _ _ Him s1 Hs1). pose proof (lo_high _ _ Hl s0 Hs0).
  split_and!; [lia..|]. intros a Ha. destruct (lo_fend _ _ Hl) as (s2 & Hs2 & E2).
  pose proof (im_shift _ _ _ Him s0 s2 Hs0 Hs2). pose proof (im_file _ _ _ Him s2 Hs2). lia.
Qed.

Lemma image_entries t sector page se : image_table d sector t -> t !! page = Some se ->
  exists l, layout_ok (loads d) l /\ se = entry_of (loads d) l sector page /\ user_page page /\ page + PGSIZE <= PHYS_BASE /\ page < STACK.
Proof.
  unfold image_table. case_decide as Hne; [by intros ->|]. intros (l & Hl & Ht). rewrite Ht. case_decide as Hp; [|done].
  intros [= <-]. exists l. destruct Hp as [Hp Hm]. destruct (layout_range l Hl) as (H1 & H2 & _).
  split_and!; [done|done| |unfold PGSIZE, PHYS_BASE in *; lia|lia]. split; [|done]. unfold PGSIZE, PHYS_BASE in *. Z.div_mod_to_equations. lia.
Qed.

Lemma image_table_ok v tid t sector : image_table d sector t -> file_is v sector d -> table_ok v tid t.
Proof.
  intros Ht [Hfa Hfl Hfb] page se Hse. destruct (image_entries t sector page se Ht Hse) as (l & Hl & -> & Hp & Htop & _).
  destruct (layout_range l Hl) as (H1 & H2 & H3 & H4). unfold entry_of. set (fs := Z.max _ _). set (fe := Z.min _ _). simpl.
  assert (forall s, (if fs <? fe then OnDisk else Zero) <> InSwap s) as Hno by (intros s; by destruct (fs <? fe)).
  split; [|done]. split; simpl; [done| | |intros s E; by destruct (Hno s)]; destruct (Z.ltb_spec fs fe); (try (unfold PGSIZE in *; lia)).
  intros _. split; [done|]. pose proof (H4 fs ltac:(lia)). pose proof (ek_len _ Hd). lia.
Qed.

Lemma wp_image v tid sector (Q : unit -> VM D -> Prop) :
  SPT_TABLE v !! tid = Some ∅ -> (forall t, image_table d sector t -> Q tt (set_table tid t v)) ->
  wp (if true && negb (bool_decide (loads d = [])) then
        let! l := read_layout (loads d) in
        let page := Z.land (load_base_vaddr l) (not_w 32 PGMASK) in
        map_pages (Z.to_nat (load_end_vaddr l / PGSIZE + 2)) tid (loads d) l sector page
      else ret tt) v Q.
Proof.
  intros Ht HQ. case_bool_decide as Hne; simpl.
  { apply wp_ret. replace v with (set_table tid ∅ v) by (unfold set_table; rewrite insert_id by done; by destruct v).
    apply HQ. unfold image_table. by rewrite decide_True. }
  assert (forall x, x ∈ loads d -> seg_ok x /\ seg_vaddr x + seg_memsz x < u32_lim) as Hsegs.
  { intros x Hx. split; [by apply (loads_ok d)|]. pose proof (im_limit _ _ _ Him x Hx). unfold PHYS_BASE, PGSIZE, u32_lim in *. lia. }
  apply wp_bind, wp_read_layout; [done|done|]. intros l Hl. destruct (layout_range l Hl) as (H1 & H2 & H3 & H4).
  assert (PHYS_BASE = 0xC0000000 /\ PGSIZE = 4096 /\ u32_lim = 4294967296) as (EP & EG & EL) by done.
  rewrite land_not_pgmask by (unfold in_u32; lia). set (p0 := load_base_vaddr l - load_base_vaddr l mod PGSIZE).
  assert (0 <= p0 <= load_base_vaddr l /\ p0 mod PGSIZE = 0) as [Hp0 Hm0] by (unfold p0; rewrite EG; Z.div_mod_to_equations; lia).
  apply (wp_map_pages _ _ _ _ _ _ ∅); [done|lia|done|lia| |by intros; apply Hsegs| |by intros; apply lookup_empty|].
  - assert (0 <= (load_end_vaddr l - p0) / PGSIZE <= load_end_vaddr l / PGSIZE); [|lia].
    split; [apply Z.div_pos; lia|apply Z.div_le_mono; lia].
  - intros a Ha. specialize (H4 a Ha). pose proof (ek_len _ Hd). unfold i32_max in *. lia.
  - intros t' Ht'. apply HQ. unfold image_table. rewrite decide_False by done. by exists l.
Qed.
End image.
End steps.
