(* ===== verification/LoadDemand.v ===== *)
(** What [load_demand_paged] of src/userprog/process.rs promises: the program and its arguments are
    in memory as the file and the command line say, or there was no memory and nothing happened. *)
From S2P Require Import Prelude Utf8 Btree Block Bio FreeMap Inode InodeLayout FileMap InodeOps InodeProofs Memory Palloc Thread Pagedir Swap SchedProofs Spaces NewSpace Vm FrameTable VmMem VmDisk VmInv VmEvict VmLoad VmFault Elf ElfProofs Loader Adopt LoaderStack LoaderArgs LoaderSetup LoadProgram.

(** ** The address space it builds *)
(** The layout of the arguments depends on the stack page only. *)
Lemma argv_layout_ext (W B W' B' : Z -> option Z) args esp :
  (forall a, STACK <= a -> a + 4 <= PHYS_BASE -> W' a = W a) -> (forall a, STACK <= a < PHYS_BASE -> B' a = B a) ->
  STACK <= esp -> esp + 4 * (Z.of_nat (List.length args) + 4) <= PHYS_BASE ->
  argv_layout W B args esp -> argv_layout W' B' args esp.
Proof.
  intros HW HB Hlo Hhi [Ha Hr Hc Hv Hn Hs]. split; rewrite ?HW by lia; try done.
  intros i s Hi. pose proof (lookup_lt_Some _ _ _ Hi). destruct (Hs i s Hi) as (p & Hp & H1 & H2 & H3 & H4). exists p.
  rewrite HW by lia. split_and!; try done.
  - intros j Hj. rewrite HB by lia. by apply H3.
  - rewrite HB by lia. done.
Qed.

Section program.
Context {D : Type} `{!BlockOps D, !BlockLaws D}.
Context (v : VM D) (th : Thread) (pd : Z) (d cmdline : list Z) (sector : Z).
Context (Hok : vm_ok v) (Hset : settled v) (Hsound : sound v).
Context (Hth : threads (vm_sched v) !! current (vm_sched v) = Some th) (Hpd0 : pds v (tid th) = 0).
Context (Hborn : newborn (vm_pg v) (pds v) pd).
Context (Hfresh : forall e, e ∈ frames v -> owner_tid e <> tid th).
Context (Hempty : SPT_TABLE v !! tid th = Some ∅) (Hfile : file_is v sector d).
Context (Hd : elf_ok d) (Him : image_ok d (loads d) STACK).
Context (H8 : Forall in_u8 cmdline) (Hfit : fits (split_whitespace cmdline)).

Let args : list (list Z) := split_whitespace cmdline.
Let esp : Z := PHYS_BASE - stack_bytes args.

(** *** The image *)
Section table.
Context (t : SPT) (Ht : image_table d sector t).

Let v4 : VM D := set_table (tid th) t v.

Lemma imaged_kept : kept v v4.
Proof. apply kept_set_table; [done|by apply (image_table_ok d Hd Him _ _ _ sector)|done]. Qed.

Lemma imaged_no_swap page se s : spt_at v4 (tid th) page = Some se -> location se <> InSwap s.
Proof.
  unfold v4. rewrite set_table_at, decide_True by done. intros Hse. by eapply (image_table_ok d Hd Him).
Qed.
End table.

Lemma wp_build_image (Q : list SegInfo * option Z -> VM D -> Prop) :
  (forall t w, image_table d sector t -> unstaged (set_table (tid th) t v) th pd w -> no_stack_memory v ->
     INIT_PAGE_DIR (vm_pg w) = INIT_PAGE_DIR (vm_pg v) -> Q (loads d, None) w) ->
  (forall t kp u, image_table d sector t -> staged (set_table (tid th) t v) th pd kp u ->
     argv_layout (kernel_word kp u) (kernel_byte kp u) args esp -> INIT_PAGE_DIR (vm_pg u) = INIT_PAGE_DIR (vm_pg v) ->
     Q (loads d, Some esp) (set_table (tid th) (<[STACK := stack_entry STACK]> t) u)) ->
  wp (build_image (read_ehdr d) d cmdline sector pd (tid th)) v Q.
Proof.
  intros Hnone Hsome. unfold build_image. apply wp_bind, wp_read_segments; [done|]. apply wp_bind, (wp_image d Hd Him); [done|].
  intros t Ht. pose proof (imaged_kept t Ht) as Hk. destruct (ke_content _ _ Hk Hset Hsound) as [_ Hs4]. apply wp_bind.
  set (v4 := set_table (tid th) t v) in *.
  assert (wp (setup_stack pd cmdline) v4 (fun r w => match r with
    | None => unstaged v4 th pd w /\ no_stack_memory v
    | Some e => e = esp /\ exists kp, staged v4 th pd kp w /\ argv_layout (kernel_word kp w) (kernel_byte kp w) args esp end)) as Hwp.
  { apply (wp_setup_stack v4 th pd); try done; [apply Hk|by intros p se s; apply imaged_no_swap|].
    intros kp u Hu Hl. split; [done|]. by exists kp. }
  eapply wp_mono; [apply wp_wlp_conj; [exact Hwp|apply (keeps_setup_stack (INIT_PAGE_DIR (vm_pg v))); done]|].
  intros [e|] w [Hw Hi]; simpl in Hw.
  - destruct Hw as [-> (kp & Hsg & Hl)]. apply wp_bind, (wp_in_spt _ _ t).
    { rewrite (sg_table _ _ _ _ _ Hsg). apply lookup_insert_eq. }
    apply wp_ret. by apply (Hsome t kp w).
  - destruct Hw as [Hu Hm]. apply wp_bind, wp_ret, wp_ret. by apply (Hnone t).
Qed.

(** *** Success *)

(** Byte [va] of every segment is where the program expects it; bytes behind the file's are zero. *)
Definition program_in (w : VM D) (id : Z) : Prop :=
  forall s va, s ∈ loads d -> seg_vaddr s <= va < seg_vaddr s + seg_memsz s -> user_byte w id va = Some (segment_byte d s va).

(** The pages of the image: writable when they touch a writable segment. *)
Definition pages_in (w : VM D) (id : Z) : Prop :=
  forall page se, spt_at w id page = Some se -> page <> STACK ->
    e_writable se = true <-> exists s, s ∈ loads d /\ seg_writable s = true /\ seg_vaddr s < page + PGSIZE /\ page < seg_vaddr s + seg_memsz s.

Section success.
Context (t : SPT) (kp : Z) (u : VM D) (c : Z).
Context (Ht : image_table d sector t) (Hs : staged (set_table (tid th) t v) th pd kp u).
Context (Hl : argv_layout (kernel_word kp u) (kernel_byte kp u) args esp).

Let t' : SPT := <[STACK := stack_entry STACK]> t.
Let w : VM D := adopt pd (with_cr3 c (set_table (tid th) t' u)).

Lemma run_table_ok : table_ok (adopt pd u) (tid th) t'.
Proof.
  intros page se. unfold t'. destruct (decide (page = STACK)) as [->|Hne].
  - rewrite lookup_insert_eq. intros [= <-]. split; [|done]. split; [apply stack_user_page|by vm_compute|done|done].
  - rewrite lookup_insert_ne by done. apply (image_table_ok d Hd Him _ _ _ sector Ht).
    destruct Hfile as [F1 F2 F3]. pose proof (sg_abs _ _ _ _ _ Hs) as Ea. simpl in Ea.
    split; change (abs (vm_fs (adopt pd u))) with (abs (vm_fs u)); rewrite Ea; done.
Qed.

Lemma run_vm_ok : vm_ok w.
Proof.
  change (vm_ok (with_cr3 c (set_table (tid th) t' (adopt pd u)))). apply vm_ok_cr3, vm_ok_set_table; [apply Hs|apply run_table_ok].
Qed.

Lemma run_settled : settled w.
Proof. exact (sg_settled _ _ _ _ _ Hs). Qed.

Lemma run_pds id : pds w id = join (tid th) pd (pds v) id.
Proof. exact (staged_adopted _ _ _ (ke_ok _ _ (imaged_kept t Ht)) Hth kp u id Hs). Qed.

Lemma run_others : content_same v w.
Proof.
  intros id p k Hid Hp Hk. assert (id <> tid th) as Hne by congruence.
  transitivity (content (adopt pd u) id p k).
  - unfold content. change (spt_at w id p) with (spt_at (set_table (tid th) t' u) id p). by rewrite set_table_at, decide_False.
  - rewrite (sg_content _ _ _ _ _ Hs) by done. unfold content. by rewrite set_table_at, decide_False.
Qed.

Lemma run_entry p : spt_at w (tid th) p = t' !! p.
Proof. change (spt_at (set_table (tid th) t' u) (tid th) p = t' !! p). by rewrite set_table_at, decide_True. Qed.

Lemma run_mapping p : user_page p -> mapping (vm_pg w) (pds w (tid th)) p = if decide (p = STACK) then Some (user_pte kp true) else None.
Proof. intros Hp. rewrite run_pds. unfold join. rewrite decide_True by done. exact (sg_map _ _ _ _ _ Hs p Hp). Qed.

Lemma run_stack_byte a : STACK <= a < PHYS_BASE -> user_byte w (tid th) a = kernel_byte kp u a.
Proof.
  intros Ha. assert (a - a mod PGSIZE = STACK /\ a mod PGSIZE = a - STACK) as [E1 E2].
  { unfold PHYS_BASE, PGSIZE in *. Z.div_mod_to_equations. lia. }
  unfold user_byte, content, kernel_byte. rewrite E1, E2, run_mapping, decide_True by (done || apply stack_user_page). f_equal.
  change (mem (vm_pg w)) with (mem (vm_pg u)). unfold kaddr. f_equal. f_equal. unfold frame_addr.
  destruct (user_pte_ok kp true) as (_ & -> & _); [|lia].
  pose proof (vo_mem _ (sg_ok _ _ _ _ _ Hs)) as Hm. eapply (user_frame_kernel_page (vm_pg u)); [apply (mo_spaces _ _ _ Hm)|].
  apply (mo_frames _ _ _ Hm _ (sg_frame _ _ _ _ _ Hs)).
Qed.

Lemma run_argv : argv_layout (user_word w (tid th)) (user_byte w (tid th)) args esp.
Proof.
  unfold fits in Hfit. fold args in Hfit. pose proof (string_bytes_bound args). pose proof (size_nonneg args).
  refine (argv_layout_ext _ _ _ _ _ _ _ _ _ _ Hl).
  - intros a Ha Hb. unfold user_word. rewrite !run_stack_byte by lia. unfold kernel_byte, kernel_word, read_u32. simpl.
    unfold kaddr. by replace (a + 1 - STACK) with (a - STACK + 1) by lia; replace (a + 2 - STACK) with (a - STACK + 2) by lia;
      replace (a + 3 - STACK) with (a - STACK + 3) by lia; rewrite !Z.add_assoc.
  - apply run_stack_byte.
  - unfold esp. lia.
  - unfold esp, stack_bytes in *. lia.
Qed.

Lemma run_program : program_in w (tid th).
Proof.
  intros s va Hseg Hva. set (p := va - va mod PGSIZE). destruct (loads_ok d s Hd Hseg) as [Hv Hz _].
  assert (loads d <> []) as Hne by (intros E; rewrite E in Hseg; by apply not_elem_of_nil in Hseg).
  pose proof (im_limit _ _ _ Him s Hseg) as Hlim. pose proof Ht as Ht0. unfold image_table in Ht0. rewrite decide_False in Ht0 by done.
  destruct Ht0 as (l & Hlay & Hent). pose proof (lo_low _ _ Hlay s Hseg). pose proof (lo_high _ _ Hlay s Hseg).
  assert (page_in (load_base_vaddr l - load_base_vaddr l mod PGSIZE) (load_end_vaddr l) p /\ 0 <= p <= va /\ va - p < PGSIZE) as (Hpin & Hple & Hk).
  { unfold p, page_in, PGSIZE. Z.div_mod_to_equations. lia. }
  assert (t !! p = Some (entry_of (loads d) l sector p)) as Hse by (by rewrite Hent, decide_True).
  assert (p <> STACK) as Hps by lia.
  destruct (image_entries d Hd Him t sector p _ Ht Hse) as (_ & _ & _ & Hp & _).
  unfold user_byte. fold p. replace (va mod PGSIZE) with (va - p) by (unfold p; lia). unfold content.
  rewrite run_mapping, decide_False, run_entry by done. unfold t'. rewrite lookup_insert_ne, Hse by done. simpl.
  transitivity (Some (entry_byte d (entry_of (loads d) l sector p) (va - p))).
  2:{ f_equal. replace va with (p + (va - p)) at 2 by lia. eapply entry_of_byte; [done|done|done|by apply (loads_ok d s Hd Hseg)|lia|lia]. }
  pose proof (sg_abs _ _ _ _ _ Hs) as Ea. simpl in Ea. destruct Hfile as [_ F2 F3].
  unfold entry_byte, backing_byte. change (abs (vm_fs w)) with (abs (vm_fs u)). rewrite Ea. simpl. rewrite F2.
  destruct (Z.ltb_spec (Z.max p (load_base_vaddr l)) (Z.min (p + PGSIZE) (load_end_file l))) as [Hlt|Hge]; [|by rewrite decide_False by lia].
  f_equal. case_decide as Hin; [|done]. apply F3. destruct (layout_range d Hd Him l Hlay) as (_ & _ & _ & Hr).
  pose proof (Hr (Z.max p (load_base_vaddr l)) ltac:(lia)). lia.
Qed.

Lemma run_pages : pages_in w (tid th).
Proof.
  intros page se. rewrite run_entry. unfold t'. intros Hse Hne. rewrite lookup_insert_ne in Hse by done.
  destruct (image_entries d Hd Him t sector page se Ht Hse) as (l & _ & -> & _). unfold entry_of. simpl.
  rewrite existsb_exists. setoid_rewrite andb_true_iff. setoid_rewrite andb_true_iff. setoid_rewrite Z.ltb_lt.
  setoid_rewrite <- list_elem_of_In. naive_solver.
Qed.
End success.
End program.

(** ** Free pages *)
Lemma page_alone p a : p mod PGSIZE = 0 -> is_page p 1 a = true -> a = p.
Proof. intros Hp Ha. apply is_page_one; [|done..]. unfold is_page in Ha. rewrite !andb_true_iff, Z.eqb_eq in Ha. tauto. Qed.

Lemma exhausted_live st p : pa_ok st -> exhausted ZERO 1 st -> in_pool (KERNEL_POOL st) p = true -> live st p = true.
Proof.
  intros [Hk _ _] Hex Hp. assert (p mod PGSIZE = 0 /\ base (KERNEL_POOL st) <= p) as [Hm Hb].
  { unfold in_pool in Hp. rewrite !andb_true_iff, Z.leb_le, Z.eqb_eq in Hp. lia. }
  destruct (page_index _ _ Hk Hp) as [Hi Ha]. destruct (Hex p) as (a & Hpa & Hl); [done|done| |].
  - change (pool_of ZERO st) with (KERNEL_POOL st). unfold pool_end, PGSIZE in *. lia.
  - by apply page_alone in Hpa as ->.
Qed.

(** ** Panics *)
Definition panics {S A} (m : M S A) (s : S) : Prop := exists msg, m s = Panic msg.

Lemma panics_now {S A B} (m : M S A) (k : A -> M S B) s : panics m s -> panics (bind m k) s.
Proof. intros [w E]. exists w. unfold bind. by rewrite E. Qed.

Lemma panics_later {S A B} (m : M S A) (k : A -> M S B) s : wp m s (fun a s' => panics (k a) s') -> panics (bind m k) s.
Proof. unfold wp, panics, bind. by destruct (m s). Qed.

Section load.
Context {D : Type} `{!BlockOps D, !BlockLaws D}.
Implicit Types v w : VM D.

(** No memory for a program: no frame for the stack page, or at most one free page for the directory
    and the table of the stack. *)
Definition no_program_memory v : Prop :=
  let pa := pg_pa (vm_pg v) in
  (exhausted (Z.lor USER ZERO) 1 pa /\ ~ can_evict v) \/
  exists q, forall p, in_pool (KERNEL_POOL pa) p = true -> p = q \/ live pa p = true.

Lemma kept_remove_spt v id : vm_ok v -> pds v id = 0 -> kept v (with_spts (delete id (SPT_TABLE v)) v).
Proof.
  intros Hok H0. set (w := with_spts _ v).
  assert (forall t p, spt_at w t p = if decide (t = id) then None else spt_at v t p) as Hat.
  { intros t p. unfold spt_at, w. simpl. destruct (decide (t = id)) as [->|Hne]; [by rewrite lookup_delete_eq|by rewrite lookup_delete_ne]. }
  assert (forall h s, holds w h s -> holds v h s) as Hh.
  { intros [[t p]|k] s; [|done]. intros (se & Hse & Hl). rewrite Hat in Hse. case_decide; [done|by exists se]. }
  split; try done.
  - destruct Hok as [Mm Ma Mc Mf Mi Mcl Msw Mfs Mr Mmap Mspt Msl Mown]. split; try done.
    + intros t p se. rewrite Hat. case_decide; [done|]. intros Hse. apply (spt_ok_ext v); [|done..]. by apply Mspt.
    + intros h s Hx%Hh. by apply (Msl h).
    + intros h h' s H1%Hh H2%Hh. by apply (Mown h h' s).
  - intros _ Hs. split.
    + intros t p k Ht _ _. unfold content. rewrite Hat, decide_False by congruence. done.
    + intros e He Hpd Hpin. destruct (Hs e He Hpd Hpin) as (se & Hse & Hb). exists se.
      rewrite Hat, decide_False; [done|]. intros E. change (pds w) with (pds v) in Hpd. congruence.
Qed.

Lemma wp_destroy_table (t : SPT) w (Q : SPT -> VM D -> Prop) :
  (forall page se s, t !! page = Some se -> location se <> InSwap s) -> Q ∅ w -> wp (destroy t) w Q.
Proof.
  intros Hno HQ. unfold destroy. apply wp_bind, (wp_for_each (fun _ w' => w' = w)); [done| |intros ? ->; by apply wp_ret].
  intros pre [page se] post w' E ->. assert ((page, se) ∈ btree_iter t) as Hin%elem_of_btree_iter.
  { rewrite E. apply elem_of_app. right. by left. }
  simpl. destruct (location se) as [|s| |] eqn:El; try by apply wp_ret. by destruct (Hno page se s).
Qed.

Section created.
Context (v : VM D) (pd : Z) (s : Paging) (Hok : vm_ok v) (Hc : created (vm_pg v) (pds v) pd s).

Lemma created_kept : kept v (with_pg s v).
Proof.
  pose proof (vo_mem _ Hok) as [Hss Hf Hb]. apply kept_pg; [done|split| | |].
  - apply Hc.
  - intros e He. apply (frame_ok_same (fun _ => False) (vm_pg v)); [apply (cr_same _ _ _ _ Hc)|tauto|by apply Hf].
  - intros t va pte Ht Hva. rewrite (cr_map _ _ _ _ Hc) by (done || by apply user_page_u32). by apply Hb.
  - intros t va Ht Hva. apply (cr_map _ _ _ _ Hc); [done|by apply user_page_u32].
  - intros a x [_ Hl] Hx. apply (proj2 (cr_same _ _ _ _ Hc) a Hl); [tauto|done].
  - intros t i Ht Hi. by rewrite (cr_pdes _ _ _ _ Hc).
Qed.

Lemma created_memory : no_stack_memory (with_pg s v) -> no_program_memory v.
Proof.
  pose proof (proj1 (cr_same _ _ _ _ Hc)) as [Ek Eu]. pose proof (nb_page _ _ _ (cr_newborn _ _ _ _ Hc)) as (Hin & Hlive & _).
  pose proof (ss_pools _ _ (cr_spaces _ _ _ _ Hc)) as [[Hpa _] _].
  assert (pd mod PGSIZE = 0) as Hm by (by destruct (live_page _ _ Hpa Hlive) as (_ & ? & _)).
  intros [[Hex Hev]|Hex]; [left|right].
  - split; [|done]. intros p. change (pool_of (Z.lor USER ZERO) (pg_pa (vm_pg v))) with (USER_POOL (pg_pa (vm_pg v))). intros Hb Hpm He.
    destruct (Hex p) as (a & Ha & Hl); [change (pool_of (Z.lor USER ZERO) (pg_pa (vm_pg (with_pg s v)))) with (USER_POOL (pg_pa s)); rewrite ?Eu; done..|].
    exists a. split; [done|]. simpl in Hl. rewrite (cr_live _ _ _ _ Hc) in Hl. apply orb_true_iff in Hl as [Hl|Hl]; [|done].
    apply page_alone in Hl as ->; [|done]. apply page_alone in Ha as ->; [|done]. exfalso.
    apply (pool_apart s p p); [apply Hpa|done| |done]. rewrite Eu. unfold in_pool. rewrite !andb_true_iff, Z.leb_le, Z.ltb_lt, Z.eqb_eq. unfold PGSIZE in *. lia.
  - exists pd. intros p Hp. simpl in Hex. rewrite <- Ek in Hp. pose proof (exhausted_live _ p Hpa Hex Hp) as Hl.
    rewrite (cr_live _ _ _ _ Hc) in Hl. apply orb_true_iff in Hl as [Hl|Hl]; [left|by right]. by apply page_alone in Hl.
Qed.
End created.

(** ** The loaded program *)

(** From [v] to [w], thread [th] has got the program [d] with the arguments [args]. *)
Record loaded v th (d : list Z) (args : list (list Z)) w (entry esp : Z) : Prop := {
  ld_entry : entry = e_entry (read_ehdr d);
  ld_program : program_in d w (tid th);
  ld_pages : pages_in d w (tid th);
  ld_argv : argv_layout (user_word w (tid th)) (user_byte w (tid th)) args esp;
  ld_thread : exists th', threads (vm_sched w) !! current (vm_sched w) = Some th' /\ tid th' = tid th /\
    pagedir th' <> 0 /\ pagedir th' = pds w (tid th) /\
    (loads d <> [] -> brk th' mod PGSIZE = 0 /\ (forall s, s ∈ loads d -> seg_vaddr s + seg_memsz s <= brk th') /\
       exists s, s ∈ loads d /\ brk th' < seg_vaddr s + seg_memsz s + PGSIZE);
}.

(** A machine on which [th] can load the program [d] from [sector] with the command line [cmdline]. *)
Record loadable v th (d cmdline : list Z) (sector : Z) : Prop := {
  lb_ok : vm_ok v;
  lb_settled : settled v;
  lb_sound : sound v;
  lb_kernel : kernel_dir (vm_pg v) (pds v);
  lb_thread : threads (vm_sched v) !! current (vm_sched v) = Some th;
  lb_none : pagedir th = 0;
  lb_fresh : forall e, e ∈ frames v -> owner_tid e <> tid th;
  lb_file : file_is v sector d;
  lb_elf : elf_ok d;
  lb_image : image_ok d (loads d) STACK;
  lb_u8 : Forall in_u8 cmdline;
}.

Section run.
Context (v : VM D) (th : Thread) (d cmdline : list Z) (sector : Z) (Hlb : loadable v th d cmdline sector).

Lemma no_dir : pds v (tid th) = 0.
Proof. rewrite (pds_current v th (lb_ok _ _ _ _ _ Hlb) (lb_thread _ _ _ _ _ Hlb)). apply (lb_none _ _ _ _ _ Hlb). Qed.

(** The state in which the image is built. *)
Section begun.
Context (pd c : Z) (s : Paging) (Hc : created (vm_pg v) (pds v) pd s).

Let w : VM D := with_cr3 c (set_table (tid th) ∅ (with_pg s v)).

Lemma begun_kept : kept v w.
Proof.
  pose proof (created_kept v pd s (lb_ok _ _ _ _ _ Hlb) Hc) as H1.
  eapply kept_trans; [exact H1|]. assert (kept (with_pg s v) (set_table (tid th) ∅ (with_pg s v))) as H2.
  { apply kept_set_table; [apply H1|by intros ??|exact no_dir]. }
  eapply kept_trans; [exact H2|]. apply kept_cr3, H2.
Qed.

Lemma begun_newborn : newborn (vm_pg w) (pds w) pd.
Proof. apply newborn_cr3. exact (cr_newborn _ _ _ _ Hc). Qed.

Lemma begun_init : PHYS_BASE <= INIT_PAGE_DIR (vm_pg w) /\ PHYS_BASE <= pd.
Proof.
  pose proof (ss_pools _ _ (cr_spaces _ _ _ _ Hc)) as Hp. split; apply (pool_kernel_addr s); try apply Hp.
  - apply (proj1 (kd_page _ _ (cr_kernel _ _ _ _ Hc))).
  - apply (proj1 (nb_page _ _ _ (cr_newborn _ _ _ _ Hc))).
Qed.

Lemma begun_file : file_is w sector d.
Proof. destruct (lb_file _ _ _ _ _ Hlb) as [F1 F2 F3]. by split. Qed.

Lemma begun_table : SPT_TABLE w !! tid th = Some ∅.
Proof. apply lookup_insert_eq. Qed.
End begun.

(** The failure: everything goes back. *)
Lemma wp_load_fails pd t w0 w (Q : option (Z * Z) -> VM D -> Prop) :
  kept v w0 -> pds w0 (tid th) = 0 -> image_table d sector t -> file_is w0 sector d -> unstaged (set_table (tid th) t w0) th pd w ->
  (forall w', kept v w' -> Q None w') ->
  wp (let! spt := remove_spt (tid th) in
      (match spt with Some spt => let! _ := destroy spt in ret tt | None => ret tt end) ;;
      destroy_pd pd ;; ret None) w Q.
Proof.
  intros Hk H0 Ht Hf [Uk Ub Ut] HQ.
  assert (kept w0 (set_table (tid th) t w0)) as H1 by (apply kept_set_table; [apply Hk|by eapply (image_table_ok d (lb_elf _ _ _ _ _ Hlb) (lb_image _ _ _ _ _ Hlb))|done]).
  assert (pds w = pds w0) as Ep by exact (kept_pds _ _ Uk).
  assert (kept w (with_spts (delete (tid th) (SPT_TABLE w)) w)) as H2 by (apply kept_remove_spt; [apply Uk|by rewrite Ep]).
  unfold remove_spt. apply wp_bind, wp_bind, wp_gets, wp_bind, wp_modify, wp_ret. rewrite Ut.
  replace (SPT_TABLE (set_table (tid th) t w0) !! tid th) with (Some t) by (symmetry; apply lookup_insert_eq). cbv iota.
  apply wp_bind, wp_bind, wp_destroy_table.
  { intros page se sl Hse. by eapply (image_table_ok d (lb_elf _ _ _ _ _ Hlb) (lb_image _ _ _ _ _ Hlb) w0 (tid th) t sector). }
  apply wp_ret. apply wp_bind, wp_destroy_newborn; [apply H2| |].
  - change (newborn (vm_pg w) (pds w) pd). by rewrite Ep.
  - intros w' Hw' _. apply wp_ret, HQ. do 4 (eapply kept_trans; [eassumption|]). done.
Qed.

Lemma unstaged_cr3 w0 pd w c : unstaged w0 th pd w -> unstaged w0 th pd (with_cr3 c w).
Proof.
  intros [Uk Ub Ut]. split; [|by apply newborn_cr3|done]. eapply kept_trans; [exact Uk|]. apply kept_cr3, Uk.
Qed.

(** The heap break, behind the last segment. *)
Lemma wp_init_brk w th' (Q : unit -> VM D -> Prop) :
  threads (vm_sched w) !! current (vm_sched w) = Some th' -> (loads d = [] -> Q tt w) ->
  (forall b, loads d <> [] -> b mod PGSIZE = 0 -> (forall x, x ∈ loads d -> seg_vaddr x + seg_memsz x <= b) ->
     (exists x, x ∈ loads d /\ b < seg_vaddr x + seg_memsz x + PGSIZE) -> Q tt (with_brk b w)) ->
  wp (init_brk (loads d)) w Q.
Proof.
  intros Hth' H0 HQ. unfold init_brk. case_bool_decide as Hne; [by apply wp_ret, H0|].
  assert (forall x, x ∈ loads d -> 0 <= seg_vaddr x + seg_memsz x <= STACK) as Hx.
  { intros x Hx. pose proof (im_limit _ _ _ (lb_image _ _ _ _ _ Hlb) x Hx). destruct (loads_ok d x (lb_elf _ _ _ _ _ Hlb) Hx). lia. }
  apply wp_bind_assoc, wp_bind, wp_ends; [done|intros x Hin; specialize (Hx x Hin); unfold PHYS_BASE, PGSIZE, u32_lim in *; lia|].
  intros m (x & Hin & Em) Hm. specialize (Hx x Hin).
  apply wp_bind, wp_pg_round_up; [lia|unfold PHYS_BASE, PGSIZE, u32_lim in *; lia|]. intros b Hb Hbm.
  apply (wp_set_self _ _ th'); [done|]. apply HQ; [done|done| |exists x; split; [done|lia]].
  intros y Hy. specialize (Hm y Hy). lia.
Qed.

Lemma user_byte_brk b w id a : user_byte (with_brk b w) id a = user_byte w id a.
Proof. apply content_brk. Qed.

Lemma user_word_brk b w id a : user_word (with_brk b w) id a = user_word w id a.
Proof. unfold user_word. by rewrite !user_byte_brk. Qed.

Lemma argv_layout_brk b w id args esp :
  argv_layout (user_word w id) (user_byte w id) args esp -> argv_layout (user_word (with_brk b w) id) (user_byte (with_brk b w) id) args esp.
Proof.
  intros [A1 A2 A3 A4 A5 A6]. split; rewrite ?user_word_brk; try done. intros i x Hi.
  destruct (A6 i x Hi) as (p & E & H1 & H2 & H3 & H4). exists p. rewrite user_word_brk. split_and!; try done.
  - intros j Hj. rewrite user_byte_brk. by apply H3.
  - by rewrite user_byte_brk.
Qed.

(** The success: the thread takes the directory over. *)
Lemma wp_load_succeeds w t pd kp u c (Q : option (Z * Z) -> VM D -> Prop) :
  let args := split_whitespace cmdline in let esp := PHYS_BASE - stack_bytes args in
  vm_ok w -> pds w = pds v -> vm_sched w = vm_sched v -> file_is w sector d -> newborn (vm_pg w) (pds w) pd -> pd <> 0 -> fits args ->
  image_table d sector t -> staged (set_table (tid th) t w) th pd kp u -> argv_layout (kernel_word kp u) (kernel_byte kp u) args esp ->
  (forall x, vm_ok x -> settled x -> content_same w x -> loaded v th d args x (e_entry (read_ehdr d)) esp -> Q (Some (e_entry (read_ehdr d), esp)) x) ->
  wp (set_self (set_pagedir pd) ;; init_brk (loads d) ;; ret (Some (e_entry (read_ehdr d), esp)))
    (with_cr3 c (set_table (tid th) (<[STACK := stack_entry STACK]> t) u)) Q.
Proof.
  intros args esp Hok Ep Es Hf Hb Hpd Hfit Ht Hs Hl HQ. set (t' := <[STACK := _]> t).
  pose proof (lb_elf _ _ _ _ _ Hlb) as Le. pose proof (lb_image _ _ _ _ _ Hlb) as Li. pose proof (lb_thread _ _ _ _ _ Hlb) as Lth.
  assert (threads (vm_sched w) !! current (vm_sched w) = Some th) as Hth by (by rewrite Es).
  assert (pds w (tid th) = 0) as H0 by (rewrite Ep; exact no_dir).
  assert (threads (vm_sched u) !! current (vm_sched u) = Some th) as Hthu by (rewrite (sg_sched _ _ _ _ _ Hs); exact Hth).
  apply wp_bind, (wp_set_self _ _ th); [exact Hthu|]. set (x := with_cr3 c _). change (with_sched _ x) with (adopt pd x).
  pose proof (run_vm_ok w th pd d sector Hf Le Li t kp u c Ht Hs : vm_ok (adopt pd x)) as Rok.
  pose proof (run_settled w th pd t kp u c Hs : settled (adopt pd x)) as Rset.
  pose proof (run_others w th pd H0 t kp u c Hs : content_same w (adopt pd x)) as Roth.
  pose proof (run_program w th pd d cmdline sector Hok Hth H0 Hf Le Li t kp u c Ht Hs : program_in d (adopt pd x) (tid th)) as Rprog.
  pose proof (run_pages th pd d sector Le Li t u c Ht : pages_in d (adopt pd x) (tid th)) as Rpages.
  pose proof (run_argv w th pd d cmdline sector Hok Hth H0 Hf Le Li Hfit t kp u c Ht Hs Hl : argv_layout (user_word (adopt pd x) (tid th)) (user_byte (adopt pd x) (tid th)) args esp) as Rargv.
  pose proof (run_pds w th pd d sector Hok Hth H0 Hf Le Li t kp u c Ht Hs (tid th) : pds (adopt pd x) (tid th) = _) as Rpds.
  unfold join in Rpds. rewrite decide_True in Rpds by done.
  assert (threads (vm_sched (adopt pd x)) !! current (vm_sched (adopt pd x)) = Some (set_pagedir pd th)) as Rth.
  { simpl. by rewrite lookup_alter_eq, Hthu. }
  apply wp_bind, (wp_init_brk _ (set_pagedir pd th)); [exact Rth|..].
  - intros Hno. apply wp_ret, HQ; try done. split; try done. exists (set_pagedir pd th). by split_and!.
  - intros b Hne Hbm Hb1 Hb2. apply wp_ret, HQ; [by apply vm_ok_brk|by apply settled_brk| |].
    + intros id p k Hid Hp Hk. rewrite content_brk. by apply Roth.
    + split; [done| |exact Rpages|by apply argv_layout_brk|].
      * intros s va Hseg Hva. rewrite user_byte_brk. by apply Rprog.
      * exists (set_brk b (set_pagedir pd th)). rewrite pds_brk, Rpds. split; [|by split_and!].
        change (alter (set_brk b) (current (vm_sched (adopt pd x))) (threads (vm_sched (adopt pd x))) !! current (vm_sched (adopt pd x)) = Some (set_brk b (set_pagedir pd th))).
        by rewrite lookup_alter_eq, Rth.
Qed.

Lemma wp_load_demand_paged (Q : option (Z * Z) -> VM D -> Prop) :
  fits (split_whitespace cmdline) -> (forall w, kept v w -> no_program_memory v -> Q None w) ->
  (forall w entry esp, vm_ok w -> settled w -> content_same v w -> loaded v th d (split_whitespace cmdline) w entry esp -> Q (Some (entry, esp)) w) ->
  wp (load_demand_paged d cmdline sector) v Q.
Proof.
  intros Hfit Hnone Hsome. destruct Hlb as [Lo Lset Ls Lk Lth L0 Lfr Lf Le Li L8]. unfold load_demand_paged.
  rewrite (proj2 (Z.ltb_ge _ _)) by apply Le. rewrite (ek_valid _ Le). simpl negb. cbv iota.
  apply wp_bind, wp_zoom, (wp_create_pd _ (pds v)); [apply Lo|done|..].
  { intros Hex. rewrite with_pg_id. apply wp_ret, Hnone; [by apply kept_refl|]. right. exists 0. intros p Hp. right.
    apply exhausted_live; [|done..]. apply (mo_spaces _ _ _ (vo_mem _ Lo)). }
  intros pd s Hpd Hc. rewrite (proj2 (Z.eqb_neq _ _) Hpd). apply wp_bind, (wp_self _ th); [done|]. apply wp_bind, wp_modify.
  destruct (begun_init pd 0 s Hc) as [Hi Hpb]. apply wp_bind, wp_activate; [by rewrite (proj2 (Z.eqb_neq _ _) Hpd)|].
  intros c. change (with_spts _ _) with (set_table (tid th) ∅ (with_pg s v)). pose proof (begun_kept pd c s Hc) as Hk.
  pose proof (begun_newborn pd c s Hc) as Hb. pose proof (begun_file c s) as Hf. pose proof (begun_table c s) as Ht0.
  set (w := with_cr3 c (set_table (tid th) ∅ (with_pg s v))) in *. destruct (ke_content _ _ Hk Lset Ls) as [_ Hsw].
  apply wp_bind, (wp_build_image w th pd d cmdline sector); try done; [apply Hk|by apply (ke_settled _ _ Hk)|exact no_dir|..].
  - intros t w' Ht Hu Hm Hi'. apply wp_bind, wp_activate; [rewrite L0; simpl; by rewrite Hi'|]. intros c'.
    eapply wp_load_fails; [exact Hk|exact no_dir|done|done|by apply unstaged_cr3|]. intros w'' Hw''. apply Hnone; [done|].
    by eapply created_memory.
  - intros t kp u Ht Hs Hl Hi'. apply wp_bind, wp_activate; [rewrite L0; simpl; by rewrite Hi'|]. intros c'.
    eapply (wp_load_succeeds w); try done; [apply Hk|]. intros. eapply Hsome; try done.
    intros id p k Hid Hp Hk'. etransitivity; [|by apply (ke_content _ _ Hk Lset Ls)]. auto.
Qed.

(** ** Arguments that do not fit *)
Lemma wp_load_panics : ~ fits (split_whitespace cmdline) -> ~ no_program_memory v -> panics (load_demand_paged d cmdline sector) v.
Proof.
  intros Hfit Hmem. destruct Hlb as [Lo Lset Ls Lk Lth L0 Lfr Lf Le Li L8]. unfold load_demand_paged.
  rewrite (proj2 (Z.ltb_ge _ _)) by apply Le. rewrite (ek_valid _ Le). simpl negb. cbv iota.
  apply panics_later, wp_zoom, (wp_create_pd _ (pds v)); [apply Lo|done|..].
  { intros Hex. destruct Hmem. right. exists 0. intros p Hp. right.
    apply exhausted_live; [|done..]. apply (mo_spaces _ _ _ (vo_mem _ Lo)). }
  intros pd s Hpd Hc. rewrite (proj2 (Z.eqb_neq _ _) Hpd). apply panics_later, (wp_self _ th); [done|]. apply panics_later, wp_modify.
  destruct (begun_init pd 0 s Hc) as [Hi Hpb]. apply panics_later, wp_activate; [by rewrite (proj2 (Z.eqb_neq _ _) Hpd)|].
  intros c. change (with_spts _ _) with (set_table (tid th) ∅ (with_pg s v)). pose proof (begun_kept pd c s Hc) as Hk.
  pose proof (begun_newborn pd c s Hc) as Hb. pose proof (begun_file c s) as Hf. pose proof (begun_table c s) as Ht0.
  set (w := with_cr3 c (set_table (tid th) ∅ (with_pg s v))) in *.
  apply panics_now. unfold build_image. apply panics_later, wp_read_segments; [done|]. apply panics_later, (wp_image d Le Li); [done|].
  intros t Ht. pose proof (imaged_kept w th d sector (ke_ok _ _ Hk) no_dir Hf Le Li t Ht) as Hk4. apply panics_now.
  destruct (ke_content _ _ Hk Lset Ls) as [_ Hsw]. destruct (ke_content _ _ Hk4 (ke_settled _ _ Hk Lset) Hsw) as [_ Hs4].
  eapply (setup_stack_panics _ th); try done; [apply Hk4|by apply (ke_settled _ _ Hk4), (ke_settled _ _ Hk)|exact no_dir|by intros; eapply (imaged_no_swap w th d sector)|].
  intros Hno. apply Hmem. by eapply created_memory.
Qed.
End run.
End load.
