(* ===== verification/LoadClaims.v ===== *)
(** Claims about the program loader, with a small program on the disk of a small machine. *)
From S2P Require Import Prelude Utf8 Btree Block Bio FreeMap Inode InodeLayout FileMap InodeOps InodeWrite InodeProofs Memory Palloc Thread Pagedir Swap SchedProofs Spaces NewSpace Vm FrameTable VmMem VmDisk VmInv VmEvict VmLoad VmFault VmDemo Elf ElfProofs Loader Adopt LoaderStack LoaderArgs LoaderSetup LoadProgram LoadDemand.

(** ** A machine without processes *)

(** The kernel's directory is the only page in use; it is empty. *)
Definition boot_pa : Palloc :=
  with_mem (fun x => if decide (x = 0xC0100000) then 1 else 0) demo_pa.
Definition boot_paging : Paging := mkPaging boot_pa 0xC0101000 0x00101000 [].

Definition loader_thread : Thread := mkThread 3 Running [115; 104] 0xC0300F00 31 31 0 0 0 1 0 1 false 3 0 0 0.
Definition boot_threads : Sched :=
  mkSched (<[0xC0300000 := loader_thread]> ∅) [] [0xC0300000] 0 0xC0300000 0 4 0xC0300000 false false false 0x00101000 0xC0301000 ∅.

(** A program of one segment: the file's 88 bytes at 0x08048000, the last four of them code, and
    twelve zeros. *)
Definition demo_elf : list Z :=
  [0x7f; 69; 76; 70; 1; 1; 1; 0] ++ zeros 8 ++ [2; 0; 3; 0] ++ le_bytes 1 ++ le_bytes 0x08048054 ++ le_bytes 52 ++ le_bytes 0 ++
  le_bytes 0 ++ [52; 0; 32; 0; 1; 0; 0; 0; 0; 0; 0; 0] ++
  le_bytes 1 ++ le_bytes 0 ++ le_bytes 0x08048000 ++ le_bytes 0x08048000 ++ le_bytes 88 ++ le_bytes 100 ++ le_bytes 7 ++ le_bytes 4096 ++
  [0x90; 0x90; 0xCD; 0x30].

Definition written_files : outcome (FS RamDisk) Z := write_at 4 demo_elf 88 0 vm_files.
Definition elf_files : FS RamDisk := match written_files with Ok _ fs => fs | _ => vm_files end.

Definition boot_vm : VM RamDisk :=
  mkVM boot_paging elf_files boot_threads (Some [false; false; false; false]) 4 (Some []) (Some ∅) 0 (Some ∅) ∅.

Lemma demo_elf_u8 : Forall in_u8 demo_elf.
Proof. repeat (constructor; [by vm_compute|]). constructor. Qed.

Lemma elf_files_ok : fs_ok elf_files /\ write_result (abs vm_files) 4 demo_elf 88 0 88 (abs elf_files).
Proof.
  destruct vm_files_ok as [Hok Ea].
  assert (wp (write_at 4 demo_elf 88 0) vm_files (fun n fs => fs_ok fs /\ write_result (abs vm_files) 4 demo_elf 88 0 n (abs fs))) as Hw.
  { apply wp_write_at; rewrite ?Ea; try done; [apply demo_file; by left|exact demo_elf_u8]. }
  assert (match written_files with Ok n _ => n | _ => 0 end = 88) as En by (vm_compute; reflexivity).
  unfold wp, elf_files in *. fold written_files in Hw. destruct written_files as [n fs|w| |]; try done. by subst n.
Qed.

Lemma boot_pds t : pds boot_vm t = 0.
Proof.
  assert (threads (vm_sched boot_vm) !! 0xC0300000 = Some loader_thread) as Et by (vm_compute; reflexivity).
  unfold pds, pd_of. change (ALL_LIST (vm_sched boot_vm)) with [0xC0300000]. cbn [List.find]. unfold has_tid.
  rewrite Et. cbn [from_option]. change (tid loader_thread) with 3.
  destruct (Z.eqb_spec 3 t) as [<-|Hne]; [|done]. cbn [from_option]. by rewrite Et.
Qed.

Lemma boot_vm_ok : vm_ok boot_vm.
Proof.
  assert (forall h s, ~ holds boot_vm h s) as Hno.
  { intros [[t page]|k] s; [|done]. by intros (se & Hse & _). }
  split.
  - split; [|by intros e ?%not_elem_of_nil|by intros t va pte; rewrite boot_pds].
    split; [by repeat split; vm_compute|by intros t; rewrite boot_pds|]. intros t t' _. by rewrite boot_pds.
  - intros t ->%list_elem_of_singleton. by eexists.
  - exists loader_thread. by split.
  - done.
  - exists ∅. split; [done|]. intros k i. rewrite lookup_empty. split; [done|]. by intros [_ ?].
  - done.
  - split; [done|]. eexists. split_and!; [vm_compute; reflexivity|vm_compute; done|vm_compute; done].
  - apply elf_files_ok.
  - by vm_compute.
  - by eexists.
  - by intros t page se ?.
  - by intros h s ?%Hno.
  - by intros h h' s ?%Hno.
Qed.

Lemma boot_loadable cmdline : Forall in_u8 cmdline -> loadable boot_vm loader_thread demo_elf cmdline 4.
Proof.
  intros H8. destruct elf_files_ok as [_ Hw].
  assert (forall i, 0 <= i < 1024 -> pde boot_paging 0xC0101000 i = 0) as Hpde.
  { intros i Hi. unfold pde, read_u32. change (mem boot_paging) with (p_mem boot_pa). simpl. by rewrite !decide_False by lia. }
  assert (loads demo_elf = [mkSeg 0x08048000 88 100 0 true]) as El by (vm_compute; reflexivity).
  split.
  - exact boot_vm_ok.
  - by intros e ?%not_elem_of_nil.
  - by intros e ?%not_elem_of_nil.
  - split; change (vm_pg boot_vm) with boot_paging; change (INIT_PAGE_DIR boot_paging) with 0xC0101000.
    + split_and!; [by vm_compute|by vm_compute|]. intros t. by rewrite boot_pds.
    + intros i Hi. apply Hpde. lia.
    + intros i Hi. by rewrite Hpde by lia.
    + intros i j Hi Hj. by rewrite Hpde by lia.
  - reflexivity.
  - reflexivity.
  - by intros e ?%not_elem_of_nil.
  - split; [apply Hw| |].
    + change (abs (vm_fs boot_vm)) with (abs elf_files). rewrite (wr_len _ _ _ _ _ _ _ Hw).
      rewrite (proj2 vm_files_ok). unfold flen. by rewrite (demo_inode 4) by auto.
    + change (Z.of_nat (List.length demo_elf)) with 88. intros o Ho. change (abs (vm_fs boot_vm)) with (abs elf_files).
      rewrite (wr_bytes _ _ _ _ _ _ _ Hw) by (unfold MAX_BYTES; unfold_sizes; lia). rewrite decide_True by lia. by rewrite Z.sub_0_r.
  - split; [exact demo_elf_u8|by vm_compute|by vm_compute| |].
    + change (e_phnum (read_ehdr demo_elf)) with 1. intros i Hi. assert (i = 0) as -> by lia. by vm_compute.
    + intros p. change (phdrs demo_elf) with [read_phdr demo_elf 52]. intros ->%list_elem_of_singleton _. by vm_compute.
  - rewrite El. split; [intros s ->%list_elem_of_singleton; by vm_compute|intros s ->%list_elem_of_singleton; by vm_compute|..];
      intros s s' ->%list_elem_of_singleton ->%list_elem_of_singleton; by vm_compute.
  - exact H8.
Qed.

(** The machine has free memory. *)
Lemma boot_room : ~ no_program_memory boot_vm.
Proof.
  pose proof (proj1 (pl_paging _ (ss_pools _ _ (mo_spaces _ _ _ (vo_mem _ boot_vm_ok))))) as Hpa.
  intros [[Hex _]|[q Hq]].
  - destruct (Hex 0xC0107000) as (a & Ha & Hl); [done|done|done|].
    apply page_alone in Ha as ->; [|done]. by vm_compute in Hl.
  - destruct (Hq 0xC0102000) as [E|H]; [done| |by vm_compute in H]. destruct (Hq 0xC0103000) as [E'|H]; [done| |by vm_compute in H]. congruence.
Qed.

(** C14: [load_demand_paged] puts the program in memory.  Let the tables of virtual memory agree
    ([vm_ok]), every frame of a process be mapped at its page ([settled]), every unpinned page
    whose dirty bit is clear hold what it would be reloaded with ([sound], which is not
    re-established by every operation of the kernel), the kernel's directory be in order, and
    the running thread have neither a directory nor frames.  Let the file be an ELF file that
    passes the loader's checks, whose segments share one file offset, lie below the stack's page
    and, in their file parts, inside the file, with zeros only behind the last file part; and let
    the command line's words, with [argc] and [argv], fit into one page (longer ones make the
    kernel panic).  Then [load_demand_paged] always returns, without a panic.  On success the
    entry point is the header's; every byte of every segment reads as the file's byte, or as zero
    behind the file's part; a page is writable exactly when it touches a writable segment; the
    stack holds the words of the command line as C's [argc] and [argv]; the thread has a
    directory of its own and a heap break that is the end of the program, rounded up to a page.
    It fails only when no user frame is free or can be evicted, or at most one page of the
    kernel's pool is free, and then no thread has changed.  In both cases the contents of all
    other processes are the same and the invariants of virtual memory hold. *)
Theorem load_program_correct {D : Type} `{!BlockOps D, !BlockLaws D} (v : VM D) (th : Thread) (d cmdline : list Z) (sector : Z) :
  loadable v th d cmdline sector -> fits (split_whitespace cmdline) ->
  wp (load_demand_paged d cmdline sector) v (fun r v' =>
    vm_ok v' /\ settled v' /\ content_same v v' /\
    match r with
    | Some (entry, esp) => loaded v th d (split_whitespace cmdline) v' entry esp
    | None => no_program_memory v /\ vm_sched v' = vm_sched v /\ sound v'
    end).
Proof.
  intros Hlb Hfit. apply (wp_load_demand_paged v th d cmdline sector Hlb); [done| |by intros].
  intros w [Ko Ks _ Kset Kc] Hm. destruct (Kc (lb_settled _ _ _ _ _ Hlb) (lb_sound _ _ _ _ _ Hlb)). split_and!; try done.
  by apply Kset, Hlb.
Qed.

(** The program [demo_elf] run as "sh -c": the code and the second argument are where they should be. *)
Lemma load_program_correct_witness :
  wp (load_demand_paged demo_elf [115; 104; 32; 45; 99] 4) boot_vm (fun r v' =>
    exists esp, r = Some (0x08048054, esp) /\ user_byte v' 3 0x08048056 = Some 0xCD /\ user_byte v' 3 0x08048060 = Some 0 /\
      exists p, user_word v' 3 (esp + 16) = Some p /\ user_byte v' 3 p = Some 45 /\ user_byte v' 3 (p + 2) = Some 0).
Proof.
  eapply wp_mono.
  - apply (load_program_correct boot_vm loader_thread demo_elf [115; 104; 32; 45; 99] 4); [|by vm_compute].
    apply boot_loadable. repeat (constructor; [done|]). constructor.
  - intros [[entry esp]|] v' (_ & _ & _ & Hr); [|destruct boot_room; apply Hr]. destruct Hr as [-> Hp _ Ha _]. exists esp.
    assert (mkSeg 0x08048000 88 100 0 true ∈ loads demo_elf) as Hin by (vm_compute; left).
    split_and!; [done|rewrite (Hp _ _ Hin); by vm_compute|rewrite (Hp _ _ Hin); by vm_compute|].
    destruct (al_args _ _ _ _ Ha 1%nat [45; 99]) as (p & E & _ & _ & Hb & H0); [vm_compute; reflexivity|]. exists p.
    split_and!; [by replace (esp + 16) with (esp + 12 + 4 * Z.of_nat 1) by lia| |exact H0].
    specialize (Hb 0 ltac:(done)). by rewrite Z.add_0_r in Hb.
Defined.

(** Arguments that do not fit one page panic the kernel.  When memory suffices, a command line
    whose words with their terminators, pointers and the four words of [argc] and [argv] take more than
    4096 bytes makes [load_demand_paged] panic instead of failing. *)
Theorem long_arguments_panic {D : Type} `{!BlockOps D, !BlockLaws D} (v : VM D) (th : Thread) (d cmdline : list Z) (sector : Z) :
  loadable v th d cmdline sector -> ~ fits (split_whitespace cmdline) -> ~ no_program_memory v ->
  exists msg, load_demand_paged d cmdline sector v = Panic msg.
Proof. exact (wp_load_panics v th d cmdline sector). Qed.

(** A program with one argument of 4096 bytes. *)
Lemma long_arguments_panic_witness : exists msg, load_demand_paged demo_elf (replicate 4096 120) 4 boot_vm = Panic msg.
Proof.
  apply (long_arguments_panic boot_vm loader_thread demo_elf (replicate 4096 120) 4);
    [apply boot_loadable; by apply Forall_replicate|by vm_compute|exact boot_room].
Defined.
