(* ===== verification/Input.v ===== *)
(** Console input (src/devices/input.rs): the line discipline between the keyboard interrupt and
    the readers, and its refinement of a line editor on byte lists. *)
From stdpp Require Import pretty.
From S2P Require Import Prelude Memory Thread Sync SchedProofs Machine SchedTotal TimerProofs.

Definition BUF_SIZE : Z := 128.
Definition CTRL_C : Z := 0x03.
Definition CTRL_D : Z := 0x04.
Definition CTRL_U : Z := 0x15.
Definition CTRL_Z : Z := 0x1A.
Definition CTRL_BACKSLASH : Z := 0x1C.
Definition BACKSPACE : Z := 0x08.
Definition DEL : Z := 0x7F.
Definition NEWLINE : Z := 10.
Definition CR : Z := 13.
Definition SIGQUIT : Z := 3.

Record InputBuffer := mkInput {
  i_buf : list Z;
  i_r : Z;
  i_w : Z;
  i_e : Z;
  i_raw : bool;
}.

(** [INPUT], the scheduler the signals go to, and the bytes printed. *)
Record Console := mkConsole { INPUT : InputBuffer; c_sched : Sched; printed : list Z }.

Definition empty_input : InputBuffer := mkInput (zeros BUF_SIZE) 0 0 0 false.

Definition with_input (i : InputBuffer) (c : Console) : Console := mkConsole i (c_sched c) (printed c).
Definition set_e (e : Z) (i : InputBuffer) : InputBuffer := mkInput (i_buf i) (i_r i) (i_w i) e (i_raw i).
Definition set_w (w : Z) (i : InputBuffer) : InputBuffer := mkInput (i_buf i) (i_r i) w (i_e i) (i_raw i).
Definition set_r (r : Z) (i : InputBuffer) : InputBuffer := mkInput (i_buf i) r (i_w i) (i_e i) (i_raw i).
Definition set_buf (b : list Z) (i : InputBuffer) : InputBuffer := mkInput b (i_r i) (i_w i) (i_e i) (i_raw i).

Definition input : M Console InputBuffer := gets INPUT.
Definition upd_input (f : InputBuffer -> InputBuffer) : M Console unit := modify (fun c => with_input (f (INPUT c)) c).
(** The bytes of a string literal, and of a number as [{}] prints it. *)
Definition str (s : string) : list Z := (fun c => Z.of_N (Ascii.N_of_ascii c)) <$> String.list_ascii_of_string s.
Definition dec (n : Z) : list Z := str (pretty n).

Definition kprint (s : list Z) : M Console unit := modify (fun c => mkConsole (INPUT c) (c_sched c) (printed c ++ s)).
Definition on_sched {A} (m : M Sched A) : M Console A :=
  zoom c_sched (fun k c => mkConsole (INPUT c) k (printed c)) m.

Definition set_raw (raw : bool) : M Console bool :=
  let! i := input in
  upd_input (fun i => mkInput (i_buf i) (i_r i) (i_w i) (i_e i) raw) ;;
  ret (i_raw i).
Definition is_raw : M Console bool := let! i := input in ret (i_raw i).

Definition echo_backspace : M Console unit := kprint [8; 32; 8].

(** [INPUT.e.wrapping_sub(INPUT.r) < BUF_SIZE] *)
Definition has_room (i : InputBuffer) : bool := as_u32 (i_e i - i_r i) <? BUF_SIZE.

(** [INPUT.buf[INPUT.e % BUF_SIZE] = c; INPUT.e += 1] *)
Definition push (c : Z) : M Console unit :=
  let! i := input in
  let! b := index_set (i_buf i) (i_e i mod BUF_SIZE) c in
  upd_input (set_buf b) ;;
  let! e := u32_add (i_e i) 1 in
  upd_input (set_e e).

Definition commit_line : M Console unit := upd_input (fun i => set_w (i_e i) i).

Definition putc_raw (c : Z) : M Console unit :=
  let! i := input in
  if has_room i then
    push c ;;
    if i_raw i then commit_line else ret tt
  else ret tt.

(** [^C] and [^\]: a signal to the foreground process group, and the line is dropped. *)
Definition interrupt_line (sig : Z) : M Console unit :=
  let! pg := on_sched foreground_pgid in
  (if 0 <? pg then on_sched (send_signal_pgid pg sig) else ret tt) ;;
  upd_input (fun i => set_e (i_w i) i).

(** The loop of [^U]: every turn lowers [e] towards [w]. *)
Fixpoint kill_loop (fuel : nat) : M Console unit :=
  match fuel with
  | O => fun _ => OutOfFuel
  | S fuel' =>
      let! i := input in
      if i_e i =? i_w i then ret tt
      else
        let! k := u32_sub (i_e i) 1 in
        let! b := index (i_buf i) (k mod BUF_SIZE) in
        if b =? NEWLINE then ret tt
        else
          upd_input (set_e k) ;;
          echo_backspace ;;
          kill_loop fuel'
  end.

(** A byte as a [char], in UTF-8. *)
Definition char_of (b : Z) : list Z := if b <? 128 then [b] else [192 + b / 64; 128 + b mod 64].

Definition putc (c : Z) : M Console unit :=
  let! i := input in
  if i_raw i then
    if has_room i then push c ;; commit_line else ret tt
  else if c =? CTRL_C then
    kprint [94; 67; 10] ;;
    interrupt_line SIGINT
  else if c =? CTRL_BACKSLASH then
    kprint [94; 92; 10] ;;
    interrupt_line SIGQUIT
  else if c =? CTRL_Z then kprint [94; 90; 10]
  else if c =? CTRL_U then kill_loop (S (Z.to_nat BUF_SIZE))
  else if (c =? BACKSPACE) || (c =? DEL) then
    if negb (i_e i =? i_w i) then
      let! e := u32_sub (i_e i) 1 in
      upd_input (set_e e) ;;
      echo_backspace
    else ret tt
  else if negb (c =? 0) && has_room i then
    let c := if c =? CR then NEWLINE else c in
    push c ;;
    (if c =? CTRL_D then kprint [94; 68] else kprint (char_of c)) ;;
    let! i := input in
    if (c =? NEWLINE) || (c =? CTRL_D) then commit_line
    else
      let! lim := u32_add (i_r i) BUF_SIZE in
      if i_e i =? lim then commit_line else ret tt
  else ret tt.

(** One turn of [getc]'s loop: a byte, or [None] when the caller goes on to check [killed] and
    yields. *)
Definition getc_once : M Console (option Z) :=
  let! i := input in
  if negb (i_r i =? i_w i) then
    let! c := index (i_buf i) (i_r i mod BUF_SIZE) in
    let! r := u32_add (i_r i) 1 in
    upd_input (set_r r) ;;
    ret (Some c)
  else ret None.

Definition full : M Console bool := let! i := input in ret (negb (has_room i)).
Definition has_data : M Console bool := let! i := input in ret (negb (i_r i =? i_w i)).

(** ** A line editor *)

(** The bytes ready for readers, and the line being edited. *)
Record editor := mkEditor { ready : list Z; line : list Z }.

Definition at_ring (b : list Z) (lo hi : Z) : list Z := (fun k => byte_at b (k mod BUF_SIZE)) <$> range lo hi.
Definition abs (i : InputBuffer) : editor :=
  mkEditor (at_ring (i_buf i) (i_r i) (i_w i)) (at_ring (i_buf i) (i_w i) (i_e i)).

Record input_ok (i : InputBuffer) : Prop := {
  io_len : List.length (i_buf i) = Z.to_nat BUF_SIZE;
  io_r : 0 <= i_r i;
  io_w : i_r i <= i_w i <= i_e i;
  io_e : i_e i <= i_r i + BUF_SIZE;
}.

Definition room (d : editor) : bool := Z.of_nat (List.length (ready d) + List.length (line d)) <? BUF_SIZE.

Definition type_raw (raw : bool) (c : Z) (d : editor) : editor :=
  if room d then
    if raw then mkEditor (ready d ++ line d ++ [c]) [] else mkEditor (ready d) (line d ++ [c])
  else d.

(** A line up to its last newline. *)
Fixpoint to_newline (l : list Z) : list Z :=
  match l with
  | [] => []
  | x :: l' => if x =? NEWLINE then l else to_newline l'
  end.
Definition kill_line (l : list Z) : list Z := rev (to_newline (rev l)).

Definition type (c : Z) (d : editor) : editor :=
  if (c =? CTRL_C) || (c =? CTRL_BACKSLASH) then mkEditor (ready d) []
  else if c =? CTRL_Z then d
  else if c =? CTRL_U then mkEditor (ready d) (kill_line (line d))
  else if (c =? BACKSPACE) || (c =? DEL) then mkEditor (ready d) (take (List.length (line d) - 1) (line d))
  else if negb (c =? 0) && room d then
    let c := if c =? CR then NEWLINE else c in
    let d' := mkEditor (ready d) (line d ++ [c]) in
    if (c =? NEWLINE) || (c =? CTRL_D) || negb (room d') then mkEditor (ready d ++ line d ++ [c]) [] else d'
  else d.

(** ** The ring *)
Lemma at_ring_length b lo hi : lo <= hi -> Z.of_nat (List.length (at_ring b lo hi)) = hi - lo.
Proof. intros H. unfold at_ring, range. rewrite length_fmap, length_seqZ. lia. Qed.

Lemma at_ring_nil b lo : at_ring b lo lo = [].
Proof. unfold at_ring. by rewrite range_nil by lia. Qed.

Lemma at_ring_app b lo mid hi : lo <= mid <= hi -> at_ring b lo hi = at_ring b lo mid ++ at_ring b mid hi.
Proof.
  intros H. unfold at_ring, range. replace (hi - lo) with ((mid - lo) + (hi - mid)) by lia.
  rewrite seqZ_app, fmap_app by lia. do 3 f_equal. lia.
Qed.

Lemma at_ring_cons b lo hi : lo < hi -> at_ring b lo hi = byte_at b (lo mod BUF_SIZE) :: at_ring b (lo + 1) hi.
Proof. intros H. unfold at_ring. by rewrite range_cons. Qed.

Lemma at_ring_snoc b lo hi : lo < hi -> at_ring b lo hi = at_ring b lo (hi - 1) ++ [byte_at b ((hi - 1) mod BUF_SIZE)].
Proof.
  intros H. rewrite (at_ring_app b lo (hi - 1) hi) by lia. f_equal.
  rewrite at_ring_cons by lia. replace (hi - 1 + 1) with hi by lia. by rewrite at_ring_nil.
Qed.

Lemma at_ring_insert b lo hi e c :
  List.length b = Z.to_nat BUF_SIZE -> e - BUF_SIZE < lo -> 0 <= lo -> hi <= e ->
  at_ring (<[Z.to_nat (e mod BUF_SIZE) := c]> b) lo hi = at_ring b lo hi.
Proof.
  intros Hb Hlo H0 Hhi. unfold at_ring, range. apply list_fmap_ext. intros i j Hj.
  apply lookup_seqZ in Hj as [-> Hj]. unfold BUF_SIZE in *.
  rewrite byte_at_insert by (Z.div_mod_to_equations; lia).
  apply decide_False. intros E. Z.div_mod_to_equations. lia.
Qed.

Lemma at_ring_take b lo hi : lo <= hi - 1 ->
  take (List.length (at_ring b lo hi) - 1) (at_ring b lo hi) = at_ring b lo (hi - 1).
Proof.
  intros H. rewrite (at_ring_snoc b lo hi), length_app by lia. simpl. rewrite take_app_le by lia.
  apply take_ge. lia.
Qed.

Lemma has_room_room i : input_ok i -> i_e i < u32_lim -> has_room i = room (abs i).
Proof.
  intros [Hl Hr Hw He] Hlim. unfold has_room, room, abs. simpl.
  rewrite as_u32_small by lia. rewrite Nat2Z.inj_add, !at_ring_length by lia. f_equal. lia.
Qed.

(** ** The operations on the editor *)
Definition pushed (c : Z) (i : InputBuffer) : InputBuffer :=
  set_e (i_e i + 1) (set_buf (<[Z.to_nat (i_e i mod BUF_SIZE) := c]> (i_buf i)) i).
Definition committed (i : InputBuffer) : InputBuffer := set_w (i_e i) i.

Lemma wp_push c con (Q : unit -> Console -> Prop) :
  input_ok (INPUT con) -> i_e (INPUT con) + 1 < u32_lim ->
  Q tt (with_input (pushed c (INPUT con)) con) -> wp (push c) con Q.
Proof.
  intros [Hl Hr Hw He] Hlim HQ. unfold push. apply wp_bind, wp_gets.
  pose proof (Z.mod_pos_bound (i_e (INPUT con)) BUF_SIZE ltac:(done)) as Hm.
  apply wp_bind, wp_index_set; [rewrite Hl; unfold BUF_SIZE in *; lia|].
  apply wp_bind, wp_modify. apply wp_bind, wp_u32_add; [lia|]. by apply wp_modify.
Qed.

Lemma pushed_ok c i : input_ok i -> i_e i < i_r i + BUF_SIZE -> input_ok (pushed c i).
Proof.
  intros [Hl Hr Hw He] H. split; simpl; [by rewrite length_insert|done|lia|lia].
Qed.

Lemma pushed_abs c i : input_ok i -> i_e i < i_r i + BUF_SIZE ->
  abs (pushed c i) = mkEditor (ready (abs i)) (line (abs i) ++ [c]).
Proof.
  intros [Hl Hr Hw He] H. unfold abs. simpl. f_equal.
  - apply at_ring_insert; [done|lia..].
  - rewrite at_ring_snoc by lia. replace (i_e i + 1 - 1) with (i_e i) by lia.
    rewrite at_ring_insert by (done || lia). do 2 f_equal.
    pose proof (Z.mod_pos_bound (i_e i) BUF_SIZE ltac:(done)).
    rewrite byte_at_insert by (rewrite ?Hl; unfold BUF_SIZE in *; lia). by rewrite decide_True.
Qed.

Lemma committed_ok i : input_ok i -> input_ok (committed i).
Proof. intros []. split; simpl; try done; lia. Qed.

Lemma committed_abs i : input_ok i -> abs (committed i) = mkEditor (ready (abs i) ++ line (abs i)) [].
Proof. intros []. unfold abs. simpl. by rewrite at_ring_nil, <- at_ring_app by lia. Qed.

Lemma dropped_ok i e : input_ok i -> i_w i <= e <= i_e i -> input_ok (set_e e i).
Proof. intros [] H. split; simpl; try done; lia. Qed.

(** What an operation leaves alone: the reader's index, the mode, the scheduler. *)
Definition kept (con con' : Console) : Prop :=
  i_r (INPUT con') = i_r (INPUT con) /\ i_raw (INPUT con') = i_raw (INPUT con) /\ c_sched con' = c_sched con.

Definition becomes (con : Console) (d : editor) (con' : Console) : Prop :=
  input_ok (INPUT con') /\ kept con con' /\ abs (INPUT con') = d.

Lemma room_true con : input_ok (INPUT con) -> i_e (INPUT con) < u32_lim -> room (abs (INPUT con)) = true ->
  i_e (INPUT con) < i_r (INPUT con) + BUF_SIZE.
Proof.
  intros Hi Hlim E. rewrite <- has_room_room in E by done. destruct Hi. unfold has_room in E.
  rewrite as_u32_small in E by lia. lia.
Qed.

Lemma wp_push_commit c con (Q : unit -> Console -> Prop) :
  input_ok (INPUT con) -> i_r (INPUT con) + 2 * BUF_SIZE < u32_lim ->
  i_e (INPUT con) < i_r (INPUT con) + BUF_SIZE ->
  (forall con', becomes con (mkEditor (ready (abs (INPUT con)) ++ line (abs (INPUT con)) ++ [c]) []) con' -> Q tt con') ->
  wp (push c ;; commit_line) con Q.
Proof.
  intros Hi Hlim Hr HQ. pose proof Hi as []. unfold BUF_SIZE in *.
  apply wp_bind, wp_push; [done|lia|]. apply wp_modify. apply HQ.
  split_and!; [by apply committed_ok, pushed_ok|done|].
  transitivity (abs (committed (pushed c (INPUT con)))); [done|].
  rewrite committed_abs by by apply pushed_ok. by rewrite pushed_abs, <- ?app_assoc.
Qed.

Lemma wp_putc_raw c con :
  input_ok (INPUT con) -> i_r (INPUT con) + 2 * BUF_SIZE < u32_lim ->
  wp (putc_raw c) con (fun _ con' => becomes con (type_raw (i_raw (INPUT con)) c (abs (INPUT con))) con').
Proof.
  intros Hi Hlim. pose proof Hi as []. unfold BUF_SIZE in *. unfold putc_raw. apply wp_bind, wp_gets.
  assert (i_e (INPUT con) < u32_lim) as He by lia.
  rewrite has_room_room by done. unfold type_raw. destruct (room _) eqn:E; [|by apply wp_ret].
  apply room_true in E; [|done|done]. unfold BUF_SIZE in *. destruct (i_raw (INPUT con)) eqn:Er.
  - by apply wp_push_commit.
  - apply wp_bind, wp_push; [done|lia|]. apply wp_ret.
    split_and!; [by apply pushed_ok|done|]. by apply pushed_abs.
Qed.

Lemma kill_line_snoc l x : kill_line (l ++ [x]) = if x =? NEWLINE then l ++ [x] else kill_line l.
Proof.
  unfold kill_line. rewrite rev_app_distr. simpl. destruct (x =? NEWLINE); [|done].
  simpl. by rewrite rev_involutive.
Qed.

Lemma becomes_trans con1 con2 d con3 : kept con1 con2 -> becomes con2 d con3 -> becomes con1 d con3.
Proof. intros (? & ? & ?) (? & (? & ? & ?) & ?). split_and!; [done| |done]. split_and!; congruence. Qed.

Lemma wp_kill_loop fuel : forall con,
  input_ok (INPUT con) -> i_e (INPUT con) - i_w (INPUT con) < Z.of_nat fuel ->
  wp (kill_loop fuel) con (fun _ con' =>
    becomes con (mkEditor (ready (abs (INPUT con))) (kill_line (line (abs (INPUT con))))) con').
Proof.
  induction fuel as [|fuel IH]; intros con Hi Hf; pose proof Hi as []; [lia|].
  cbn [kill_loop]. apply wp_bind, wp_gets. destruct (i_e (INPUT con) =? i_w (INPUT con)) eqn:E.
  { apply wp_ret. split_and!; [done|done|]. unfold abs. simpl. apply Z.eqb_eq in E. by rewrite E, at_ring_nil. }
  apply Z.eqb_neq in E. apply wp_bind, wp_u32_sub; [lia|].
  pose proof (Z.mod_pos_bound (i_e (INPUT con) - 1) BUF_SIZE ltac:(done)) as Hm.
  apply wp_bind. eapply wp_index; [lia|apply byte_at_lookup; unfold BUF_SIZE in *; lia|].
  assert (line (abs (INPUT con)) = line (abs (set_e (i_e (INPUT con) - 1) (INPUT con))) ++
    [byte_at (i_buf (INPUT con)) ((i_e (INPUT con) - 1) mod BUF_SIZE)]) as El
    by (simpl; apply at_ring_snoc; lia).
  rewrite El, kill_line_snoc. destruct (_ =? NEWLINE).
  { apply wp_ret. rewrite <- El. by split_and!. }
  apply wp_bind, wp_modify. apply wp_bind, wp_modify.
  eapply wp_mono; [apply IH; [apply dropped_ok; [done|lia]|simpl; lia]|].
  intros [] con' H. by eapply becomes_trans, H.
Qed.

Lemma wp_backspace con :
  input_ok (INPUT con) ->
  wp (if negb (i_e (INPUT con) =? i_w (INPUT con)) then
        let! e := u32_sub (i_e (INPUT con)) 1 in
        upd_input (set_e e) ;; echo_backspace
      else ret tt) con (fun _ con' =>
    becomes con (mkEditor (ready (abs (INPUT con)))
      (take (List.length (line (abs (INPUT con))) - 1) (line (abs (INPUT con))))) con').
Proof.
  intros Hi. pose proof Hi as []. destruct (i_e (INPUT con) =? i_w (INPUT con)) eqn:E; simpl.
  { apply wp_ret. split_and!; [done|done|]. unfold abs. simpl. apply Z.eqb_eq in E. by rewrite E, at_ring_nil. }
  apply Z.eqb_neq in E. apply wp_bind, wp_u32_sub; [lia|]. apply wp_bind, wp_modify, wp_modify.
  split_and!; [apply dropped_ok; [done|lia]|done|]. unfold abs. simpl. f_equal.
  symmetry. apply at_ring_take. lia.
Qed.

(** ** Signals to a process group *)
Definition in_group (pg : Z) (th : Thread) : bool := negb (pagedir th =? 0) && (pgid th =? pg).

(** The members of the group among the threads [l] that the signal kills are marked killed. *)
Definition group_signalled (l : list Z) (pg sig : Z) (k : Sched) : Sched :=
  with_threads (map_imap (fun t th =>
    Some (if bool_decide (t ∈ l) && in_group pg th && kills sig th then set_killed th else th)) (threads k)) k.

Lemma group_signalled_cons t l pg sig k th :
  threads k !! t = Some th ->
  group_signalled (t :: l) pg sig k =
  group_signalled l pg sig
    (with_threads (<[t := if in_group pg th && kills sig th then set_killed th else th]> (threads k)) k).
Proof.
  intros Ht. unfold group_signalled. destruct k as [ths]. unfold with_threads. simpl in *. f_equal.
  apply map_eq. intros x. rewrite !map_lookup_imap. destruct (decide (x = t)) as [->|Hx].
  - rewrite lookup_insert_eq, Ht. simpl. rewrite bool_decide_true by left. simpl.
    destruct (in_group pg th && kills sig th) eqn:E; simpl.
    + by destruct (_ && _ && _).
    + rewrite <- andb_assoc, E, andb_false_r. done.
  - rewrite lookup_insert_ne by done. destruct (ths !! x); simpl; [|done].
    by rewrite (bool_decide_ext (x ∈ t :: l) (x ∈ l)) by (rewrite elem_of_cons; split; [by intros [->|]|by right]).
Qed.

Lemma wp_signal_group l pg sig : forall k (Q : option unit -> Sched -> Prop),
  0 < sig <= 31 -> (forall t, t ∈ l -> is_Some (threads k !! t)) ->
  Q None (group_signalled l pg sig k) ->
  wp (for_ret l (fun t => let! th := deref t in
        (if in_group pg th then deliver_signal t sig else ret tt) ;; ret None)) k Q.
Proof.
  induction l as [|t l IH]; intros k Q Hs Hl HQ; simpl.
  { apply wp_ret. assert (group_signalled [] pg sig k = k) as E; [|by rewrite <- E].
    unfold group_signalled. destruct k. unfold with_threads. simpl. f_equal.
    apply map_eq. intros t. rewrite map_lookup_imap. by destruct (_ !! t). }
  destruct (Hl t ltac:(left)) as [th Ht]. apply wp_bind, wp_bind. eapply wp_deref; [exact Ht|].
  apply wp_bind.
  set (th1 := if in_group pg th && kills sig th then set_killed th else th).
  set (k1 := with_threads (<[t := th1]> (threads k)) k).
  assert (wp (if in_group pg th then deliver_signal t sig else ret tt) k (fun _ k' => k' = k1)) as Hw.
  { subst k1 th1. assert (with_threads (<[t := th]> (threads k)) k = k) as Hk
      by (rewrite insert_id by done; by destruct k).
    destruct (in_group pg th); simpl; [|by apply wp_ret].
    eapply wp_deliver; [exact Ht|done|]. unfold signalled. by destruct (kills sig th). }
  eapply wp_mono; [exact Hw|]. intros [] ? ->. apply wp_ret. apply IH; [done| |].
  - intros x Hx. apply lookup_insert_is_Some'. right. apply Hl. by right.
  - by rewrite group_signalled_cons with (th := th) in HQ.
Qed.

Definition foreground (k : Sched) : Z :=
  let '(fg, _, _) := fold_left fg_step (omap (fun t => threads k !! t) (ALL_LIST k)) (-1, -1, -1) in
  if fg <? 0 then 0 else fg.

Lemma wp_derefs l k (Q : list Thread -> Sched -> Prop) :
  (forall t, t ∈ l -> is_Some (threads k !! t)) ->
  Q (omap (fun t => threads k !! t) l) k -> wp (derefs l) k Q.
Proof.
  revert Q. induction l as [|t l IH]; intros Q Hl HQ; simpl; [by apply wp_ret|].
  destruct (Hl t ltac:(left)) as [th Ht]. simpl in HQ. rewrite Ht in HQ.
  apply wp_bind. eapply wp_deref; [exact Ht|]. apply wp_bind, IH; [|by apply wp_ret].
  intros x Hx. apply Hl. by right.
Qed.

Lemma intr_set_level_ok b k : intr_set_level b k = Ok (level k) (with_level b k).
Proof. by destruct b. Qed.

Lemma wp_foreground k (Q : Z -> Sched -> Prop) :
  (forall t, t ∈ ALL_LIST k -> is_Some (threads k !! t)) ->
  Q (foreground k) k -> wp foreground_pgid k Q.
Proof.
  intros Hl HQ. unfold foreground_pgid. apply wp_bind.
  change (wp intr_disable k ?P) with (P (level k) (with_level false k)). cbv beta.
  apply wp_bind, wp_gets, wp_bind, wp_derefs; [done|]. simpl. unfold foreground in HQ.
  destruct (fold_left _ _ _) as [[fg ?] ?].
  unfold wp, bind. rewrite intr_set_level_ok. by destruct k.
Qed.

Lemma wp_send_pgid k pg sig (Q : unit -> Sched -> Prop) :
  0 < sig <= 31 -> (forall t, t ∈ ALL_LIST k -> is_Some (threads k !! t)) ->
  Q tt (group_signalled (ALL_LIST k) pg sig k) -> wp (send_signal_pgid pg sig) k Q.
Proof.
  intros Hs Hl HQ. unfold send_signal_pgid.
  rewrite (proj2 (Z.eqb_neq sig 0)), (proj2 (Z.ltb_ge 31 sig)) by lia. simpl. apply wp_bind.
  change (wp intr_disable k ?P) with (P (level k) (with_level false k)). cbv beta.
  apply wp_bind. unfold scan_all. apply wp_bind, wp_gets. apply wp_signal_group; [done|done|].
  unfold wp, bind. rewrite intr_set_level_ok. by destruct k.
Qed.

(** What the scheduler is after [c] is typed. *)
Definition signalled_by (c : Z) (k : Sched) : Sched :=
  let sig := if c =? CTRL_C then SIGINT else SIGQUIT in
  if ((c =? CTRL_C) || (c =? CTRL_BACKSLASH)) && (0 <? foreground k)
  then group_signalled (ALL_LIST k) (foreground k) sig k else k.

Definition typed (c : Z) (con con' : Console) : Prop :=
  let i := INPUT con in
  input_ok (INPUT con') /\ i_r (INPUT con') = i_r i /\ i_raw (INPUT con') = i_raw i /\
  abs (INPUT con') = (if i_raw i then type_raw true c (abs i) else type c (abs i)) /\
  c_sched con' = (if i_raw i then c_sched con else signalled_by c (c_sched con)).

Lemma wp_interrupt_line con sig (Q : unit -> Console -> Prop) :
  0 < sig <= 31 -> input_ok (INPUT con) -> sched_ok (c_sched con) ->
  (forall con', input_ok (INPUT con') -> i_r (INPUT con') = i_r (INPUT con) ->
     i_raw (INPUT con') = i_raw (INPUT con) -> abs (INPUT con') = mkEditor (ready (abs (INPUT con))) [] ->
     c_sched con' = (if 0 <? foreground (c_sched con)
       then group_signalled (ALL_LIST (c_sched con)) (foreground (c_sched con)) sig (c_sched con)
       else c_sched con) -> Q tt con') ->
  wp (interrupt_line sig) con Q.
Proof.
  intros Hs Hi [Hk _] HQ. unfold interrupt_line. pose proof (i_all _ _ Hk) as Ha. pose proof Hi as [].
  assert (forall k, input_ok (set_e (i_w (INPUT con)) (INPUT con)) /\
    abs (INPUT (with_input (set_e (i_w (INPUT con)) (INPUT con)) k)) = mkEditor (ready (abs (INPUT con))) []) as Hd.
  { intros k. split; [apply dropped_ok; [done|lia]|]. unfold abs. simpl. by rewrite at_ring_nil. }
  destruct (Hd con) as [Hd1 Hd2].
  apply wp_bind, wp_zoom, wp_foreground; [done|]. apply wp_bind. destruct (0 <? _) eqn:E.
  - apply wp_zoom, wp_send_pgid; [done|done|]. apply wp_modify. by apply HQ.
  - apply wp_ret, wp_modify. apply HQ; try done.
Qed.

(** The branch of [putc] that stores a byte of the line. *)
Lemma wp_store c con :
  input_ok (INPUT con) -> i_r (INPUT con) + 2 * BUF_SIZE < u32_lim ->
  i_e (INPUT con) < i_r (INPUT con) + BUF_SIZE ->
  wp (push c ;;
      (if c =? CTRL_D then kprint [94; 68] else kprint (char_of c)) ;;
      let! i := input in
      if (c =? NEWLINE) || (c =? CTRL_D) then commit_line
      else
        let! lim := u32_add (i_r i) BUF_SIZE in
        if i_e i =? lim then commit_line else ret tt) con (fun _ con' =>
    let d := abs (INPUT con) in
    let d' := mkEditor (ready d) (line d ++ [c]) in
    becomes con (if (c =? NEWLINE) || (c =? CTRL_D) || negb (room d')
      then mkEditor (ready d ++ line d ++ [c]) [] else d') con').
Proof.
  intros Hi Hlim Hr. pose proof Hi as []. apply wp_bind, wp_push; [done|unfold BUF_SIZE in *; lia|].
  pose proof (pushed_ok c _ Hi Hr) as Hp. pose proof (pushed_abs c _ Hi Hr) as Ha.
  assert (room (mkEditor (ready (abs (INPUT con))) (line (abs (INPUT con)) ++ [c])) =
    negb (i_e (INPUT con) + 1 =? i_r (INPUT con) + BUF_SIZE)) as Er.
  { rewrite <- Ha, <- has_room_room by (try done; simpl; unfold BUF_SIZE in *; lia). unfold has_room. simpl.
    rewrite as_u32_small by (unfold BUF_SIZE in *; lia). zbool; lia. }
  assert (abs (committed (pushed c (INPUT con))) =
    mkEditor (ready (abs (INPUT con)) ++ line (abs (INPUT con)) ++ [c]) []) as Hc
    by by rewrite committed_abs, Ha by done.
  pose proof (committed_ok _ Hp) as Hcok.
  apply wp_bind. assert (forall s Q, Q tt (mkConsole (pushed c (INPUT con)) (c_sched con) (printed con ++ s)) ->
    wp (kprint s) (with_input (pushed c (INPUT con)) con) Q) as Hk by (intros; by apply wp_modify).
  cbv zeta. rewrite Er, negb_involutive.
  destruct (c =? CTRL_D) eqn:Ed; apply Hk; apply wp_bind, wp_gets; cbn [INPUT].
  - rewrite orb_true_r. simpl. apply wp_modify. by split_and!.
  - rewrite orb_false_r. destruct (c =? NEWLINE); simpl orb; [apply wp_modify; by split_and!|].
    apply wp_bind, wp_u32_add; [simpl; unfold BUF_SIZE in *; lia|].
    cbn [pushed set_e set_buf i_e i_r]. destruct (_ =? _); [apply wp_modify|apply wp_ret]; by split_and!.
Qed.

Lemma wp_putc (c : Z) (con : Console) :
  input_ok (INPUT con) -> i_r (INPUT con) + 2 * BUF_SIZE < u32_lim -> sched_ok (c_sched con) ->
  wp (putc c) con (fun _ con' => typed c con con').
Proof.
  intros Hi Hlim Hk. pose proof Hi as []. unfold putc. apply wp_bind, wp_gets.
  rewrite has_room_room by (try done; unfold BUF_SIZE in *; lia).
  assert (forall d con', becomes con d con' -> input_ok (INPUT con') /\ i_r (INPUT con') = i_r (INPUT con) /\
    i_raw (INPUT con') = i_raw (INPUT con) /\ abs (INPUT con') = d /\ c_sched con' = c_sched con) as Hb
    by (intros d con' (? & (? & ? & ?) & ?); done).
  assert (room (abs (INPUT con)) = true -> i_e (INPUT con) < i_r (INPUT con) + BUF_SIZE) as Hroom
    by (apply room_true; [done|unfold BUF_SIZE in *; lia]).
  unfold typed. destruct (i_raw (INPUT con)) eqn:Er.
  { unfold type_raw. destruct (room _); [|apply wp_ret; by split_and!].
    apply wp_push_commit; [done|done|by apply Hroom|]. intros con' H. apply Hb, H. }
  unfold signalled_by, type. destruct (c =? CTRL_C) eqn:Ec.
  { apply wp_bind, wp_modify, wp_interrupt_line; [done|done|done|].
    intros con' ? ? ? ? ?. split_and!; try done. by rewrite <- Er. }
  destruct (c =? CTRL_BACKSLASH) eqn:Eb.
  { apply wp_bind, wp_modify, wp_interrupt_line; [done|done|done|].
    intros con' ? ? ? ? ?. split_and!; try done. by rewrite <- Er. }
  simpl orb. simpl andb. cbv iota. destruct (c =? CTRL_Z) eqn:Ez; [apply wp_modify; by split_and!|].
  destruct (c =? CTRL_U).
  { eapply wp_mono; [apply wp_kill_loop; [done|unfold BUF_SIZE in *; lia]|]. intros [] con' H. apply Hb, H. }
  destruct ((c =? BACKSPACE) || (c =? DEL)).
  { eapply wp_mono; [by apply wp_backspace|]. intros [] con' H. apply Hb, H. }
  destruct (negb (c =? 0)); simpl andb; [|apply wp_ret; by split_and!].
  destruct (room (abs (INPUT con))); [|apply wp_ret; by split_and!]. cbv iota.
  eapply wp_mono; [apply wp_store; [done|done|by apply Hroom]|]. intros [] con' H. apply Hb, H.
Qed.

(** C35: the console's line discipline.  Whatever byte the keyboard interrupt hands to [putc], the
    ring buffer goes on to represent the bytes ready for readers and the line being edited, and
    they change as a line editor's do: in raw mode the byte is delivered at once; in cooked mode
    backspace drops the last byte of the line, ^U drops it back to its last newline, a carriage
    return becomes a newline, a newline, ^D or a full buffer makes the line ready, NUL is ignored,
    and ^C and ^\ drop the line and mark the members of the foreground process group that do not
    ignore the signal as killed.  No byte already ready for readers is lost, reordered or
    overwritten, and the only thing that changes in the scheduler is those marks. *)
Theorem putc_edits_line (c : Z) (con : Console) :
  input_ok (INPUT con) -> i_r (INPUT con) + 2 * BUF_SIZE < u32_lim -> sched_ok (c_sched con) ->
  wp (putc c) con (fun _ con' => typed c con con').
Proof. apply wp_putc. Qed.

Definition demo_console : Console := mkConsole empty_input (sched demo_kernel) [].

Lemma empty_input_ok : input_ok empty_input.
Proof. by split. Qed.

Lemma putc_edits_line_witness :
  wp (putc 13) demo_console (fun _ con' => typed 13 demo_console con') /\
  type 13 (abs empty_input) = mkEditor [NEWLINE] [].
Proof.
  split; [|done]. apply (putc_edits_line 13 demo_console); [exact empty_input_ok|done|exact demo_sched_ok].
Defined.

Lemma wp_getc_once con (Q : option Z -> Console -> Prop) :
  input_ok (INPUT con) -> i_w (INPUT con) < u32_lim ->
  (ready (abs (INPUT con)) = [] -> Q None con) ->
  (forall x rest, ready (abs (INPUT con)) = x :: rest ->
     let i := set_r (i_r (INPUT con) + 1) (INPUT con) in
     input_ok i -> abs i = mkEditor rest (line (abs (INPUT con))) -> Q (Some x) (with_input i con)) ->
  wp getc_once con Q.
Proof.
  intros [Hl Hr Hw He] Hlim Hnone Hsome. unfold getc_once. apply wp_bind, wp_gets. unfold abs in *. simpl in *.
  destruct (Z.eqb_spec (i_r (INPUT con)) (i_w (INPUT con))) as [E|E]; simpl.
  { apply wp_ret, Hnone. by rewrite E, at_ring_nil. }
  pose proof (Z.mod_pos_bound (i_r (INPUT con)) BUF_SIZE ltac:(done)) as Hm.
  apply wp_bind. eapply wp_index; [lia|apply byte_at_lookup; unfold BUF_SIZE in *; lia|].
  apply wp_bind, wp_u32_add; [unfold BUF_SIZE in *; lia|]. apply wp_bind, wp_modify, wp_ret.
  eapply Hsome; [rewrite at_ring_cons by lia; reflexivity| |done]. split; simpl; try done; lia.
Qed.

(** The reader's side.  [getc] takes the oldest ready byte and leaves the line being edited
    alone, and finds nothing exactly when no byte is ready; [has_data] tells which; bytes put by
    [putc_raw] (escape sequences) come behind everything typed before, and are dropped when the
    buffer is full. *)
Theorem getc_takes_oldest (con : Console) (c : Z) :
  input_ok (INPUT con) -> i_r (INPUT con) + 2 * BUF_SIZE < u32_lim ->
  let d := abs (INPUT con) in
  wp getc_once con (fun r con' =>
    match ready d with
    | [] => r = None /\ con' = con
    | x :: rest => r = Some x /\ input_ok (INPUT con') /\ abs (INPUT con') = mkEditor rest (line d)
    end) /\
  has_data con = Ok (match ready d with [] => false | _ => true end) con /\
  wp (putc_raw c) con (fun _ con' => becomes con (type_raw (i_raw (INPUT con)) c d) con').
Proof.
  intros Hi Hlim d. split_and!; [| |by apply wp_putc_raw]; subst d; pose proof Hi as [Hl Hr Hw He].
  - apply wp_getc_once; [done|lia| |].
    + by intros ->.
    + intros x rest -> i Hi' Ha. done.
  - unfold has_data, bind, input, gets. simpl. destruct (i_r (INPUT con) =? i_w (INPUT con)) eqn:E.
    + apply Z.eqb_eq in E. by rewrite E, at_ring_nil.
    + apply Z.eqb_neq in E. by rewrite at_ring_cons by lia.
Qed.

Lemma getc_takes_oldest_witness : wp getc_once demo_console (fun r con' => r = None /\ con' = demo_console).
Proof. apply (getc_takes_oldest demo_console 0); [exact empty_input_ok|done]. Defined.

(** Arrow keys in cooked mode.  Escape sequences are stored without ever making the line
    ready, so 43 of them (the last one cut short) fill the buffer, and the Enter key typed next
    is dropped: the reader still has nothing to read. *)
Theorem arrow_keys_fill_the_line :
  exists con, (for_each (concat (replicate 43 [27; 91; 65])) putc_raw ;; putc 13) demo_console = Ok tt con /\
    List.length (line (abs (INPUT con))) = 128%nat /\ has_data con = Ok false con.
Proof. eexists. split; [vm_compute; reflexivity|]. split; by vm_compute. Qed.
