(* ===== verification/Keyboard.v ===== *)
(** The PS/2 keyboard driver (src/devices/keyboard.rs): scan codes of set 1, the modifier keys and
    the characters handed to the console. *)
From Stdlib Require Import Ascii.
From S2P Require Import Prelude Memory Thread Sync SchedProofs Machine SchedTotal TimerProofs Input.

(** The modifier flags, with the console the characters go to. *)
Record Keyboard := mkKbd {
  LEFT_SHIFT : bool;
  RIGHT_SHIFT : bool;
  LEFT_CTRL : bool;
  RIGHT_CTRL : bool;
  CAPS_LOCK : bool;
  E0_PENDING : bool;
  console : Console;
}.

Definition set_left_shift (b : bool) (k : Keyboard) : Keyboard :=
  mkKbd b (RIGHT_SHIFT k) (LEFT_CTRL k) (RIGHT_CTRL k) (CAPS_LOCK k) (E0_PENDING k) (console k).
Definition set_right_shift (b : bool) (k : Keyboard) : Keyboard :=
  mkKbd (LEFT_SHIFT k) b (LEFT_CTRL k) (RIGHT_CTRL k) (CAPS_LOCK k) (E0_PENDING k) (console k).
Definition set_left_ctrl (b : bool) (k : Keyboard) : Keyboard :=
  mkKbd (LEFT_SHIFT k) (RIGHT_SHIFT k) b (RIGHT_CTRL k) (CAPS_LOCK k) (E0_PENDING k) (console k).
Definition set_right_ctrl (b : bool) (k : Keyboard) : Keyboard :=
  mkKbd (LEFT_SHIFT k) (RIGHT_SHIFT k) (LEFT_CTRL k) b (CAPS_LOCK k) (E0_PENDING k) (console k).
Definition set_caps (b : bool) (k : Keyboard) : Keyboard :=
  mkKbd (LEFT_SHIFT k) (RIGHT_SHIFT k) (LEFT_CTRL k) (RIGHT_CTRL k) b (E0_PENDING k) (console k).
Definition set_e0 (b : bool) (k : Keyboard) : Keyboard :=
  mkKbd (LEFT_SHIFT k) (RIGHT_SHIFT k) (LEFT_CTRL k) (RIGHT_CTRL k) (CAPS_LOCK k) b (console k).

Definition with_console (c : Console) (k : Keyboard) : Keyboard :=
  mkKbd (LEFT_SHIFT k) (RIGHT_SHIFT k) (LEFT_CTRL k) (RIGHT_CTRL k) (CAPS_LOCK k) (E0_PENDING k) c.

Definition on_console {A} (m : M Console A) : M Keyboard A := zoom console with_console m.

(** The assignments that fill [SCANCODE_MAP], row by row. *)
Definition QUOTE : ascii := ascii_of_nat 34.
Definition BS : ascii := ascii_of_nat 8.
Definition TAB : ascii := ascii_of_nat 9.
Definition ENTER : ascii := ascii_of_nat 13.
Definition ESC : ascii := ascii_of_nat 27.

Definition map_entries : list (Z * ascii * ascii) :=
  (* Row 1: number row *)
  [(0x02, "1", "!"); (0x03, "2", "@"); (0x04, "3", "#"); (0x05, "4", "$"); (0x06, "5", "%");
   (0x07, "6", "^"); (0x08, "7", "&"); (0x09, "8", "*"); (0x0A, "9", "("); (0x0B, "0", ")");
   (0x0C, "-", "_"); (0x0D, "=", "+"); (0x0E, BS, BS); (0x0F, TAB, TAB);
   (* Row 2: QWERTY *)
   (0x10, "q", "Q"); (0x11, "w", "W"); (0x12, "e", "E"); (0x13, "r", "R"); (0x14, "t", "T");
   (0x15, "y", "Y"); (0x16, "u", "U"); (0x17, "i", "I"); (0x18, "o", "O"); (0x19, "p", "P");
   (0x1A, "[", "{"); (0x1B, "]", "}"); (0x1C, ENTER, ENTER);
   (* Row 3: ASDF *)
   (0x1E, "a", "A"); (0x1F, "s", "S"); (0x20, "d", "D"); (0x21, "f", "F"); (0x22, "g", "G");
   (0x23, "h", "H"); (0x24, "j", "J"); (0x25, "k", "K"); (0x26, "l", "L"); (0x27, ";", ":");
   (0x28, "'", QUOTE); (0x29, "`", "~");
   (* Row 4: ZXCV *)
   (0x2B, "\", "|"); (0x2C, "z", "Z"); (0x2D, "x", "X"); (0x2E, "c", "C"); (0x2F, "v", "V");
   (0x30, "b", "B"); (0x31, "n", "N"); (0x32, "m", "M"); (0x33, ",", "<"); (0x34, ".", ">");
   (0x35, "/", "?");
   (0x39, " ", " ");
   (0x01, ESC, ESC)]%char.

Definition code_of (a : ascii) : Z := Z.of_N (N_of_ascii a).

Definition SCANCODE_MAP : list (Z * Z) :=
  fold_left (fun m '(i, u, s) => <[Z.to_nat i := (code_of u, code_of s)]> m) map_entries
    (replicate 128 (0, 0)).

Definition SC_LEFT_SHIFT : Z := 0x2A.
Definition SC_RIGHT_SHIFT : Z := 0x36.
Definition SC_LEFT_CTRL : Z := 0x1D.
Definition SC_CAPS_LOCK : Z := 0x3A.
Definition E0_UP : Z := 0x48.
Definition E0_DOWN : Z := 0x50.
Definition E0_LEFT : Z := 0x4B.
Definition E0_RIGHT : Z := 0x4D.
Definition E0_HOME : Z := 0x47.
Definition E0_END : Z := 0x4F.
Definition E0_PGUP : Z := 0x49.
Definition E0_PGDN : Z := 0x51.
Definition E0_DELETE : Z := 0x53.
Definition E0_INSERT : Z := 0x52.

Definition emit_escape (seq : list Z) : M Keyboard unit :=
  for_each seq (fun b => on_console (putc_raw b)).

(** The sequences of the extended keys. *)
Definition escape_of (scancode : Z) : list Z :=
  if scancode =? E0_UP then [27; 91; 65]
  else if scancode =? E0_DOWN then [27; 91; 66]
  else if scancode =? E0_RIGHT then [27; 91; 67]
  else if scancode =? E0_LEFT then [27; 91; 68]
  else if scancode =? E0_HOME then [27; 91; 72]
  else if scancode =? E0_END then [27; 91; 70]
  else if scancode =? E0_PGUP then [27; 91; 53; 126]
  else if scancode =? E0_PGDN then [27; 91; 54; 126]
  else if scancode =? E0_DELETE then [27; 91; 51; 126]
  else if scancode =? E0_INSERT then [27; 91; 50; 126]
  else [].

Definition is_ascii_lowercase (c : Z) : bool := (97 <=? c) && (c <=? 122).
Definition to_ascii_lowercase (c : Z) : Z := if (65 <=? c) && (c <=? 90) then c + 32 else c.

(** The end of the handler: a key that may have a character. *)
Definition type_key (scancode : Z) : M Keyboard unit :=
  if scancode <? 128 then
    let! entry := index SCANCODE_MAP scancode in
    let '(unshifted, shifted) := entry in
    if unshifted =? 0 then ret tt
    else
      let! k := gets (fun k => k) in
      let shift := LEFT_SHIFT k || RIGHT_SHIFT k in
      let ctrl := LEFT_CTRL k || RIGHT_CTRL k in
      let base := to_ascii_lowercase unshifted in
      if ctrl && ((97 <=? base) && (base <=? 122)) then on_console (putc (base - 97 + 1))
      else
        let is_letter := is_ascii_lowercase unshifted in
        let use_shifted := if is_letter then xorb shift (CAPS_LOCK k) else shift in
        let ch := if use_shifted then shifted else unshifted in
        on_console (putc ch)
  else ret tt.

(** The handler, on the byte [code] read from the data port. *)
Definition keyboard_interrupt (code : Z) : M Keyboard unit :=
  if code =? 0xE0 then modify (set_e0 true)
  else
    let is_release := negb (Z.land code 0x80 =? 0) in
    let scancode := Z.land code 0x7F in
    let! was_e0 := gets E0_PENDING in
    modify (set_e0 false) ;;
    if was_e0 && (scancode =? SC_LEFT_CTRL) then modify (set_right_ctrl (negb is_release))
    else if negb was_e0 && (scancode =? SC_LEFT_SHIFT) then modify (set_left_shift (negb is_release))
    else if negb was_e0 && (scancode =? SC_RIGHT_SHIFT) then modify (set_right_shift (negb is_release))
    else if negb was_e0 && (scancode =? SC_LEFT_CTRL) then modify (set_left_ctrl (negb is_release))
    else if negb was_e0 && ((scancode =? SC_CAPS_LOCK) && negb is_release)
    then modify (fun k => set_caps (negb (CAPS_LOCK k)) k)
    else if is_release then ret tt
    else if was_e0 then emit_escape (escape_of scancode)
    else type_key scancode.

(** ** The US layout *)

(** A row of keys: its first scan code, and the characters on its keys without and with shift. *)
Record row := mkRow { r_first : Z; r_plain : string; r_shifted : string }.

Definition us_layout : list row :=
  [mkRow 0x02 "1234567890-=" "!@#$%^&*()_+";
   mkRow 0x10 "qwertyuiop[]" "QWERTYUIOP{}";
   mkRow 0x1E "asdfghjkl;'`" (String.append "ASDFGHJKL:" (String QUOTE "~"));
   mkRow 0x2B "\zxcvbnm,./" "|ZXCVBNM<>?";
   mkRow 0x39 " " " "].

(** The position of a character in a row's string. *)
Fixpoint position (c : Z) (s : string) (i : Z) : option Z :=
  match s with
  | EmptyString => None
  | String a s' => if code_of a =? c then Some i else position c s' (i + 1)
  end.

(** The key with character [c], and whether shift is needed with caps lock off. *)
Fixpoint find_key (c : Z) (rows : list row) : option (Z * bool) :=
  match rows with
  | [] => None
  | r :: rows' =>
      match position c (r_plain r) (r_first r), position c (r_shifted r) (r_first r) with
      | Some sc, _ => Some (sc, false)
      | None, Some sc => Some (sc, true)
      | None, None => find_key c rows'
      end
  end.

Definition is_letter (c : Z) : bool := (65 <=? c) && (c <=? 90) || is_ascii_lowercase c.

(** What a typist does for character [c]: the key pressed and released, with the left shift key
    held around it when the character needs it; caps lock inverts the shift of letters. *)
Definition keystrokes (caps : bool) (c : Z) : list Z :=
  match find_key c us_layout with
  | None => []
  | Some (sc, shift) =>
      if xorb shift (caps && is_letter c)
      then [SC_LEFT_SHIFT; sc; sc + 0x80; SC_LEFT_SHIFT + 0x80]
      else [sc; sc + 0x80]
  end.

Definition printable (c : Z) : bool := (32 <=? c) && (c <=? 126).

(** No key held down and no prefix pending. *)
Record hands_off (k : Keyboard) : Prop := {
  ho_ls : LEFT_SHIFT k = false;
  ho_rs : RIGHT_SHIFT k = false;
  ho_lc : LEFT_CTRL k = false;
  ho_rc : RIGHT_CTRL k = false;
  ho_e0 : E0_PENDING k = false;
}.

Definition modifier (sc : Z) : bool :=
  (sc =? SC_LEFT_SHIFT) || (sc =? SC_RIGHT_SHIFT) || (sc =? SC_LEFT_CTRL) || (sc =? SC_CAPS_LOCK).

(** The character a key gives without control keys, as the table has it. *)
Definition key_gives (caps shift : bool) (sc c : Z) : bool :=
  match SCANCODE_MAP !! Z.to_nat sc with
  | Some (u, s) =>
      negb (u =? 0) &&
      ((if (if is_ascii_lowercase u then xorb shift caps else shift) then s else u) =? c)
  | None => false
  end.

Definition layout_check (caps : bool) (c : Z) : bool :=
  match find_key c us_layout with
  | None => false
  | Some (sc, shift) =>
      (0 <? sc) && (sc <? 0x60) && negb (modifier sc) && key_gives caps (xorb shift (caps && is_letter c)) sc c
  end.

(** The table agrees with the layout on every printable character. *)
Lemma layout_checks caps c : printable c = true -> layout_check caps c = true.
Proof.
  intros H. assert (forallb (layout_check caps) (range 32 127) = true) as Hall by by destruct caps; vm_compute.
  rewrite forallb_forall in Hall. apply Hall. apply list_elem_of_In, elem_of_range.
  unfold printable in H. lia.
Qed.

Lemma land_7f sc : 0 <= sc < 128 -> Z.land sc 0x7F = sc /\ Z.land sc 0x80 = 0.
Proof.
  intros H. change 0x7F with (Z.ones 7). rewrite Z.land_ones, Z.mod_small by lia. split; [done|].
  apply Z.bits_inj'. intros i Hi. change 0x80 with (2 ^ 7). rewrite Z.land_spec, Z.pow2_bits_eqb, Z.bits_0 by lia.
  destruct (Z.eqb_spec 7 i) as [<-|]; [|by rewrite andb_false_r].
  rewrite Z.bits_above_log2; [done|lia|]. destruct (decide (sc = 0)) as [->|]; [done|].
  apply Z.log2_lt_pow2; lia.
Qed.

Lemma land_release sc : 0 <= sc < 128 -> Z.land (sc + 0x80) 0x7F = sc /\ Z.land (sc + 0x80) 0x80 <> 0.
Proof.
  intros H. change 0x7F with (Z.ones 7). rewrite Z.land_ones by lia. split.
  { replace (sc + 128) with (sc + 1 * 2 ^ 7) by lia. rewrite Z.mod_add by lia. apply Z.mod_small. lia. }
  intros E. apply (f_equal (fun z => Z.testbit z 7)) in E. rewrite Z.land_spec, Z.bits_0 in E.
  change (Z.testbit 0x80 7) with true in E. rewrite andb_true_r in E.
  apply Z.testbit_false in E; [|lia]. replace ((sc + 128) / 2 ^ 7) with 1 in E; [done|].
  apply Z.div_unique_pos with sc; lia.
Qed.

Lemma press_key sc k : 0 <= sc < 128 -> modifier sc = false -> E0_PENDING k = false ->
  keyboard_interrupt sc k = type_key sc (set_e0 false k).
Proof.
  intros Hs Hm He. destruct (land_7f sc Hs) as [E1 E2]. unfold keyboard_interrupt.
  rewrite (proj2 (Z.eqb_neq sc 0xE0)) by lia. rewrite E1, E2. unfold bind, gets, modify. rewrite He. simpl.
  unfold modifier in Hm. repeat (apply orb_false_iff in Hm as [Hm ?]).
  rewrite Hm. do 3 (match goal with H : (sc =? _) = false |- _ => rewrite H; clear H end). done.
Qed.

Lemma release_key sc k : 0 <= sc < 0x60 -> modifier sc = false -> E0_PENDING k = false ->
  keyboard_interrupt (sc + 0x80) k = Ok tt (set_e0 false k).
Proof.
  intros Hs Hm He. destruct (land_release sc ltac:(lia)) as [E1 E2]. unfold keyboard_interrupt.
  rewrite (proj2 (Z.eqb_neq (sc + 0x80) 0xE0)) by lia. rewrite E1, (proj2 (Z.eqb_neq _ _) E2).
  unfold bind, gets, modify. rewrite He. simpl.
  unfold modifier in Hm. repeat (apply orb_false_iff in Hm as [Hm ?]).
  rewrite Hm. do 3 (match goal with H : (sc =? _) = false |- _ => rewrite H; clear H end). done.
Qed.

Lemma wp_type_key sc c k (Q : unit -> Keyboard -> Prop) :
  0 <= sc < 128 -> LEFT_CTRL k = false -> RIGHT_CTRL k = false ->
  key_gives (CAPS_LOCK k) (LEFT_SHIFT k || RIGHT_SHIFT k) sc c = true ->
  wp (putc c) (console k) (fun _ con => Q tt (with_console con k)) -> wp (type_key sc) k Q.
Proof.
  intros Hs Hlc Hrc Hg HQ. unfold key_gives in Hg. unfold type_key.
  destruct (SCANCODE_MAP !! Z.to_nat sc) as [[u s]|] eqn:E; [|done].
  rewrite (proj2 (Z.ltb_lt sc 128)) by lia. apply andb_true_iff in Hg as [Hu Hg]. apply Z.eqb_eq in Hg.
  apply wp_bind. eapply wp_index; [lia|exact E|]. apply negb_true_iff in Hu. cbv beta iota. rewrite Hu.
  apply wp_bind, wp_gets. rewrite Hlc, Hrc. cbn [orb andb]. rewrite Hg. apply wp_zoom.
  eapply wp_mono; [exact HQ|]. by intros [].
Qed.

Lemma wp_eq {S A} (m m' : M S A) s s' Q : m s = m' s' -> wp m' s' Q -> wp m s Q.
Proof. unfold wp. by intros ->. Qed.

Lemma wp_codes_cons code codes k (Q : unit -> Keyboard -> Prop) :
  wp (keyboard_interrupt code) k (fun _ k' => wp (for_each codes keyboard_interrupt) k' Q) ->
  wp (for_each (code :: codes) keyboard_interrupt) k Q.
Proof. apply wp_bind. Qed.

(** A key pressed and released, with the modifiers as they are. *)
Lemma wp_stroke sc c codes k (Q : unit -> Keyboard -> Prop) :
  0 <= sc < 0x60 -> modifier sc = false -> LEFT_CTRL k = false -> RIGHT_CTRL k = false -> E0_PENDING k = false ->
  key_gives (CAPS_LOCK k) (LEFT_SHIFT k || RIGHT_SHIFT k) sc c = true ->
  wp (putc c) (console k) (fun _ con => wp (for_each codes keyboard_interrupt) (with_console con k) Q) ->
  wp (for_each (sc :: sc + 0x80 :: codes) keyboard_interrupt) k Q.
Proof.
  intros Hs Hm Hlc Hrc He0 Hg HQ. destruct k as [ls rs lc rc caps e0 con]. simpl in *. subst.
  apply wp_bind. eapply wp_eq; [by apply press_key; [lia|..]|].
  apply wp_type_key with c; [lia|done..|]. eapply wp_mono; [exact HQ|]. intros [] con' HQ'.
  apply wp_bind. eapply (wp_eq _ (ret tt)); [by apply release_key|]. by apply wp_ret.
Qed.

(** The codes of a character hand that character to the console, and leave the keyboard as it was. *)
Lemma wp_keystrokes c codes k (Q : unit -> Keyboard -> Prop) :
  hands_off k -> printable c = true ->
  wp (putc c) (console k) (fun _ con => wp (for_each codes keyboard_interrupt) (with_console con k) Q) ->
  wp (for_each (keystrokes (CAPS_LOCK k) c ++ codes) keyboard_interrupt) k Q.
Proof.
  intros [Hls Hrs Hlc Hrc He0] Hp HQ. pose proof (layout_checks (CAPS_LOCK k) c Hp) as Hc.
  unfold layout_check in Hc. unfold keystrokes. destruct (find_key c us_layout) as [[sc sh]|]; [|done].
  apply andb_true_iff in Hc as [Hc Hg]. apply andb_true_iff in Hc as [Hc Hm]. apply negb_true_iff in Hm.
  assert (0 <= sc < 0x60) as Hs by lia. destruct k as [ls rs lc rc caps e0 con]. simpl in *. subst.
  destruct (xorb sh (caps && is_letter c)); cbn [app]; [|by apply wp_stroke with c].
  apply wp_codes_cons. eapply (wp_eq _ (ret tt) _ (mkKbd true false false false caps false con)); [done|].
  by apply wp_ret, wp_stroke with c.
Qed.

Lemma type_printable c d :
  printable c = true -> Z.of_nat (List.length (ready d) + List.length (line d)) + 1 < BUF_SIZE ->
  type c d = mkEditor (ready d) (line d ++ [c]).
Proof.
  unfold printable. intros Hp Hr. unfold type, CTRL_C, CTRL_BACKSLASH, CTRL_Z, CTRL_U, BACKSPACE, DEL, CR, NEWLINE, CTRL_D.
  repeat (rewrite (proj2 (Z.eqb_neq c _)) by lia). cbn [orb negb andb]. unfold room. cbn [ready line].
  rewrite length_app, !(proj2 (Z.ltb_lt _ _)) by (simpl; lia). done.
Qed.

(** Typing a string of printable characters. *)
Lemma wp_type_string s codes : forall k (Q : unit -> Keyboard -> Prop),
  let con := console k in
  let d := abs (INPUT con) in
  hands_off k -> forallb printable s = true -> input_ok (INPUT con) ->
  i_r (INPUT con) + 2 * BUF_SIZE < u32_lim -> i_raw (INPUT con) = false -> sched_ok (c_sched con) ->
  Z.of_nat (List.length (ready d) + List.length (line d) + List.length s) < BUF_SIZE ->
  (forall con', becomes con (mkEditor (ready d) (line d ++ s)) con' ->
     wp (for_each codes keyboard_interrupt) (with_console con' k) Q) ->
  wp (for_each (concat (keystrokes (CAPS_LOCK k) <$> s) ++ codes) keyboard_interrupt) k Q.
Proof.
  induction s as [|c s IH]; intros k Q con d Hh Hp Hi Hlim Hraw Hk Hlen HQ.
  { specialize (HQ con). rewrite app_nil_r in HQ. subst con d.
    assert (with_console (console k) k = k) as E by by destruct k. rewrite E in HQ. by apply HQ. }
  apply andb_true_iff in Hp as [Hc Hp]. rewrite fmap_cons. cbn [concat]. rewrite <- app_assoc.
  apply wp_keystrokes; [done|done|]. eapply wp_mono; [by apply wp_putc|].
  intros [] con' (Hi' & Er & Eraw & Ea & Es). fold con in Er, Eraw, Ea, Es. rewrite Hraw in Eraw, Ea, Es.
  cbn [List.length] in Hlen. rewrite type_printable in Ea; [fold d in Ea|done|fold d; lia].
  assert (signalled_by c (c_sched con) = c_sched con) as Esig.
  { unfold signalled_by, CTRL_C, CTRL_BACKSLASH. unfold printable in Hc.
    by repeat (rewrite (proj2 (Z.eqb_neq c _)) by lia). }
  rewrite Esig in Es. change (CAPS_LOCK k) with (CAPS_LOCK (with_console con' k)).
  apply IH; cbn [console with_console]; [by destruct Hh|done|done|by rewrite Er|done|by rewrite Es| |].
  - rewrite Ea. cbn [ready line]. rewrite length_app. cbn [List.length]. lia.
  - intros con'' (Hi'' & (? & ? & ?) & Ea''). rewrite Ea in Ea''. cbn [ready line] in Ea''. rewrite <- app_assoc in Ea''.
    change (with_console con'' (with_console con' k)) with (with_console con'' k). apply HQ.
    split_and!; [done| |done]. split_and!; congruence.
Qed.

(** From scan codes to a line.  Start with no key held down and the console in cooked mode, and
    let a typist enter any string of printable ASCII characters that fits in the buffer, using the
    shift key as the US layout and the caps lock state demand, and then press Enter.  The keyboard
    handler, run on the resulting scan codes one interrupt at a time, makes exactly that line,
    ended by a newline, ready for readers behind what was there before; no key remains held down,
    caps lock stays as it was, and no signal is sent. *)
Theorem typed_line_is_ready (s : list Z) (k : Keyboard) :
  let con := console k in
  let d := abs (INPUT con) in
  hands_off k -> forallb printable s = true -> input_ok (INPUT con) ->
  i_r (INPUT con) + 2 * BUF_SIZE < u32_lim -> i_raw (INPUT con) = false -> sched_ok (c_sched con) ->
  Z.of_nat (List.length (ready d) + List.length (line d) + List.length s) < BUF_SIZE ->
  wp (for_each (concat (keystrokes (CAPS_LOCK k) <$> s) ++ [0x1C; 0x1C + 0x80]) keyboard_interrupt) k (fun _ k' =>
    abs (INPUT (console k')) = mkEditor (ready d ++ line d ++ s ++ [NEWLINE]) [] /\
    input_ok (INPUT (console k')) /\ hands_off k' /\ CAPS_LOCK k' = CAPS_LOCK k /\
    c_sched (console k') = c_sched con).
Proof.
  intros con d Hh Hp Hi Hlim Hraw Hk Hlen. apply wp_type_string; [done..|].
  intros con' (Hi' & (Er & Eraw & Es) & Ea). fold con in Er, Eraw, Es, Ea. fold d in Ea.
  apply (wp_stroke 0x1C 13); try (by destruct Hh).
  { destruct Hh as [Hls Hrs _ _ _]. cbn [LEFT_SHIFT RIGHT_SHIFT CAPS_LOCK with_console]. rewrite Hls, Hrs.
    destruct (CAPS_LOCK k); by vm_compute. }
  eapply wp_mono; [apply wp_putc; cbn [console with_console]; [done|by rewrite Er|by rewrite Es]|].
  cbn [console with_console].
  intros [] con'' (Hi'' & _ & _ & Ea'' & Es''). rewrite Eraw, Hraw in Ea'', Es''. apply wp_ret.
  cbn [console with_console]. split_and!; [|done|by destruct Hh|done|by rewrite Es'', Es].
  rewrite Ea'', Ea. unfold type. cbn [ready line Z.eqb orb andb negb CTRL_C].
  change (13 =? CTRL_C) with false. change (13 =? CTRL_BACKSLASH) with false. change (13 =? CTRL_Z) with false.
  change (13 =? CTRL_U) with false. change (13 =? BACKSPACE) with false. change (13 =? DEL) with false.
  cbn [orb andb negb]. unfold room at 1. cbn [ready line]. rewrite length_app.
  rewrite (proj2 (Z.ltb_lt _ _)) by lia. simpl. by rewrite <- app_assoc.
Qed.

Definition demo_keyboard : Keyboard := mkKbd false false false false true false demo_console.

Lemma typed_line_is_ready_witness :
  wp (for_each (concat (keystrokes true <$> [76; 115; 32; 126]) ++ [0x1C; 0x9C]) keyboard_interrupt) demo_keyboard
    (fun _ k' => abs (INPUT (console k')) = mkEditor [76; 115; 32; 126; 10] []).
Proof.
  eapply wp_mono.
  - apply (typed_line_is_ready [76; 115; 32; 126] demo_keyboard);
      [done|done|exact empty_input_ok|done|done|exact demo_sched_ok|done].
  - by intros [] k' [H _].
Defined.
