(* ===== verification/Vga.v ===== *)
(** The text screen (src/devices/vga.rs): the frame buffer in memory, the cursor, and the state
    machine of the escape sequences. *)
From S2P Require Import Prelude Utf8 Memory.

Definition COL_CNT : Z := 80.
Definition ROW_CNT : Z := 25.
Definition DEFAULT_ATTR : Z := 0x07.
Definition VGA_BUFFER : Z := 0xC00B8000.

Definition ANSI_TO_VGA : list Z := [0; 4; 2; 6; 1; 5; 3; 7].

Inductive EscState : Set := Normal | Esc | Csi | CsiQuestion.

Definition MAX_PARAMS : Z := 8.

Record Writer := mkWriter {
  col : Z;
  row : Z;
  attr : Z;
  default_attr : Z;
  state : EscState;
  params : list Z;
  param_idx : Z;
  saved_row : Z;
  saved_col : Z;
}.

(** The frame buffer as part of memory, and the writes to I/O ports, oldest first. *)
Record Vga := mkVga { WRITER : Writer; fb : Mem; ports : list (Z * Z) }.

Definition set_col (x : Z) (w : Writer) : Writer :=
  mkWriter x (row w) (attr w) (default_attr w) (state w) (params w) (param_idx w) (saved_row w) (saved_col w).
Definition set_row (x : Z) (w : Writer) : Writer :=
  mkWriter (col w) x (attr w) (default_attr w) (state w) (params w) (param_idx w) (saved_row w) (saved_col w).
Definition set_attr (x : Z) (w : Writer) : Writer :=
  mkWriter (col w) (row w) x (default_attr w) (state w) (params w) (param_idx w) (saved_row w) (saved_col w).
Definition set_default_attr (x : Z) (w : Writer) : Writer :=
  mkWriter (col w) (row w) (attr w) x (state w) (params w) (param_idx w) (saved_row w) (saved_col w).
Definition set_state (x : EscState) (w : Writer) : Writer :=
  mkWriter (col w) (row w) (attr w) (default_attr w) x (params w) (param_idx w) (saved_row w) (saved_col w).
Definition set_params (ps : list Z) (i : Z) (w : Writer) : Writer :=
  mkWriter (col w) (row w) (attr w) (default_attr w) (state w) ps i (saved_row w) (saved_col w).
Definition set_saved (r c : Z) (w : Writer) : Writer :=
  mkWriter (col w) (row w) (attr w) (default_attr w) (state w) (params w) (param_idx w) r c.

Definition get {A} (f : Writer -> A) : M Vga A := gets (fun v => f (WRITER v)).
Definition upd (f : Writer -> Writer) : M Vga unit := modify (fun v => mkVga (f (WRITER v)) (fb v) (ports v)).
Definition on_fb (f : Mem -> Mem) : M Vga unit := modify (fun v => mkVga (WRITER v) (f (fb v)) (ports v)).

(** [write_volatile] of one byte *)
Definition poke (a b : Z) (m : Mem) : Mem := fun x => if decide (x = a) then b else m x.

(** ** The frame buffer *)
Definition write_cell (row col ch attr : Z) : M Vga unit :=
  if (ROW_CNT <=? row) || (COL_CNT <=? col) then ret tt
  else
    let! o := u32_mul row COL_CNT in
    let! o := u32_add o col in
    let! offset := u32_mul o 2 in
    on_fb (poke (VGA_BUFFER + offset) ch) ;;
    let! offset := u32_add offset 1 in
    on_fb (poke (VGA_BUFFER + offset) attr).

Definition clear_row (row : Z) : M Vga unit :=
  for_each (range 0 COL_CNT) (fun x => let! a := get attr in write_cell row x 32 a).

(** [core::ptr::copy(base.add(row_bytes), base, row_bytes * (ROW_CNT - 1))] *)
Definition scroll : M Vga unit :=
  let row_bytes := COL_CNT * 2 in
  on_fb (fun m x => if decide (VGA_BUFFER <= x < VGA_BUFFER + row_bytes * (ROW_CNT - 1)) then m (x + row_bytes) else m x).

Definition newline : M Vga unit :=
  upd (set_col 0) ;;
  let! r := get row in
  let! r := u32_add r 1 in
  upd (set_row r) ;;
  (if ROW_CNT <=? r then scroll ;; upd (set_row (ROW_CNT - 1)) else ret tt) ;;
  let! r := get row in
  clear_row r.

Definition erase_line_from (row start stop : Z) : M Vga unit :=
  for_each (range start (Z.min stop COL_CNT)) (fun x => let! a := get attr in write_cell row x 32 a).

(** ** Commands *)
Definition param (idx dflt : Z) : M Vga Z :=
  let! pi := get param_idx in
  let! ps := get params in
  if idx <=? pi then
    let! p := index ps idx in
    if negb (p =? 0) then ret p else ret dflt
  else ret dflt.

(** [a.saturating_sub(b)] *)
Definition sat_sub (a b : Z) : Z := Z.max 0 (a - b).

Definition cursor_up : M Vga unit :=
  let! n := param 0 1 in
  upd (fun w => set_row (sat_sub (row w) n) w).
Definition cursor_down : M Vga unit :=
  let! n := param 0 1 in
  let! r := get row in
  let! r := u32_add r n in
  upd (set_row (Z.min r (ROW_CNT - 1))).
Definition cursor_forward : M Vga unit :=
  let! n := param 0 1 in
  let! c := get col in
  let! c := u32_add c n in
  upd (set_col (Z.min c (COL_CNT - 1))).
Definition cursor_back : M Vga unit :=
  let! n := param 0 1 in
  upd (fun w => set_col (sat_sub (col w) n) w).

Definition cursor_position : M Vga unit :=
  let! r := param 0 1 in
  let! c := param 1 1 in
  upd (set_row (Z.min (sat_sub r 1) (ROW_CNT - 1))) ;;
  upd (set_col (Z.min (sat_sub c 1) (COL_CNT - 1))).

Definition erase_display : M Vga unit :=
  let! p := param 0 0 in
  let! r := get row in
  let! c := get col in
  if p =? 0 then
    erase_line_from r c COL_CNT ;;
    let! r1 := u32_add r 1 in
    for_each (range r1 ROW_CNT) clear_row
  else if p =? 1 then
    for_each (range 0 r) clear_row ;;
    let! c1 := u32_add c 1 in
    erase_line_from r 0 c1
  else if (p =? 2) || (p =? 3) then
    for_each (range 0 ROW_CNT) clear_row ;;
    upd (set_row 0) ;;
    upd (set_col 0)
  else ret tt.

Definition erase_line : M Vga unit :=
  let! p := param 0 0 in
  let! r := get row in
  let! c := get col in
  if p =? 0 then erase_line_from r c COL_CNT
  else if p =? 1 then let! c1 := u32_add c 1 in erase_line_from r 0 c1
  else if p =? 2 then clear_row r
  else ret tt.

(** One parameter of SGR: the new attribute. *)
Definition sgr_code (code : Z) (a dflt : Z) : M Vga Z :=
  if code =? 0 then ret dflt
  else if code =? 1 then ret (Z.lor a 0x08)
  else if code =? 2 then ret (Z.land a (not_w 8 0x08))
  else if code =? 4 then ret a
  else if code =? 7 then
    let fg := Z.land a 0x0F in
    let bg := Z.land (Z.shiftr a 4) 0x07 in
    ret (Z.lor (Z.shiftl fg 4) bg)
  else if code =? 22 then ret (Z.land a (not_w 8 0x08))
  else if code =? 27 then ret dflt
  else if in_range 30 37 code then
    let! color := index ANSI_TO_VGA (code - 30) in
    ret (Z.lor (Z.land a 0xF8) color)
  else if code =? 39 then ret (Z.lor (Z.land a 0xF8) (Z.land dflt 0x07))
  else if in_range 40 47 code then
    let! color := index ANSI_TO_VGA (code - 40) in
    ret (Z.lor (Z.land a 0x8F) (Z.shiftl color 4))
  else if code =? 49 then ret (Z.lor (Z.land a 0x8F) (Z.land dflt 0x70))
  else if in_range 90 97 code then
    let! color := index ANSI_TO_VGA (code - 90) in
    ret (Z.lor (Z.land a 0xF0) (Z.lor color 0x08))
  else if in_range 100 107 code then
    let! color := index ANSI_TO_VGA (code - 100) in
    ret (Z.lor (Z.lor (Z.land a 0x0F) (Z.shiftl color 4)) 0x80)
  else ret a.

Definition sgr : M Vga unit :=
  let! pi := get param_idx in
  let! ps := get params in
  let! count := u32_add pi 1 in
  let! p0 := index ps 0 in
  if (count =? 1) && (p0 =? 0) && (pi =? 0) then upd (fun w => set_attr (default_attr w) w)
  else
    for_each (range 0 count) (fun i =>
      let! code := index ps i in
      let! w := get id in
      let! a := sgr_code code (attr w) (default_attr w) in
      upd (set_attr a)).

Definition save_cursor : M Vga unit := upd (fun w => set_saved (row w) (col w) w).
Definition restore_cursor : M Vga unit := upd (fun w => set_col (saved_col w) (set_row (saved_row w) w)).

(** ** Bytes *)
Definition normal_byte (byte : Z) : M Vga unit :=
  if byte =? 0x1B then upd (set_state Esc)
  else if byte =? 0x08 then
    let! c := get col in
    if 0 <? c then
      let! c := u32_sub c 1 in
      upd (set_col c) ;;
      let! w := get id in
      write_cell (row w) (col w) 32 (attr w)
    else ret tt
  else if byte =? 10 then newline
  else if byte =? 13 then upd (set_col 0)
  else if byte =? 9 then
    let! c := get col in
    let! c := u32_add c 8 in
    let c := Z.land c (not_w 32 7) in
    upd (set_col c) ;;
    if COL_CNT <=? c then newline else ret tt
  else if byte =? 0x07 then ret tt
  else
    let! c := get col in
    (if COL_CNT <=? c then newline else ret tt) ;;
    let! w := get id in
    write_cell (row w) (col w) byte (attr w) ;;
    let! c := get col in
    let! c := u32_add c 1 in
    upd (set_col c).

Definition esc_byte (byte : Z) : M Vga unit :=
  if byte =? 91 then
    upd (set_state Csi) ;;
    upd (set_params (zeros MAX_PARAMS) 0)
  else if byte =? 99 then
    upd (set_attr DEFAULT_ATTR) ;;
    upd (set_default_attr DEFAULT_ATTR) ;;
    upd (set_state Normal)
  else upd (set_state Normal).

(** The final bytes of a sequence. *)
Definition csi_final (byte : Z) : M Vga unit :=
  if byte =? 65 then cursor_up
  else if byte =? 66 then cursor_down
  else if byte =? 67 then cursor_forward
  else if byte =? 68 then cursor_back
  else if (byte =? 72) || (byte =? 102) then cursor_position
  else if byte =? 74 then erase_display
  else if byte =? 75 then erase_line
  else if byte =? 109 then sgr
  else if byte =? 115 then save_cursor
  else if byte =? 117 then restore_cursor
  else ret tt.

Definition csi_byte (byte : Z) : M Vga unit :=
  if byte =? 63 then upd (set_state CsiQuestion)
  else if in_range 48 57 byte then
    let! pi := get param_idx in
    let! ps := get params in
    if pi <? MAX_PARAMS then
      let! p := index ps pi in
      let p := Z.min 65535 (Z.min 65535 (p * 10) + (byte - 48)) in
      let! ps := index_set ps pi p in
      upd (set_params ps pi)
    else ret tt
  else if byte =? 59 then
    let! pi := get param_idx in
    let! ps := get params in
    if pi <? MAX_PARAMS - 1 then
      let! pi := u32_add pi 1 in
      upd (set_params ps pi)
    else ret tt
  else csi_final byte ;; upd (set_state Normal).

(** [Writer::write_byte] *)
Definition writer_byte (byte : Z) : M Vga unit :=
  let! st := get state in
  match st with
  | Normal => normal_byte byte
  | Esc => esc_byte byte
  | Csi | CsiQuestion => csi_byte byte
  end.

Definition out_u8 (port x : Z) : M Vga unit := modify (fun v => mkVga (WRITER v) (fb v) (ports v ++ [(port, x)])).

Definition move_cursor : M Vga unit :=
  let! r := get row in
  let! c := get col in
  let! p := u32_mul r COL_CNT in
  let! p := u32_add p c in
  let pos := p mod 65536 in
  out_u8 0x3D4 0x0E ;;
  out_u8 0x3D5 (Z.shiftr pos 8 mod 256) ;;
  out_u8 0x3D4 0x0F ;;
  out_u8 0x3D5 (pos mod 256).

(** [fmt::Write::write_str] *)
Definition write_str (s : list Z) : M Vga unit :=
  for_each s writer_byte ;;
  move_cursor.

Definition clear : M Vga unit :=
  upd (set_attr DEFAULT_ATTR) ;;
  upd (set_col 0) ;;
  upd (set_row 0) ;;
  for_each (range 0 ROW_CNT) clear_row ;;
  move_cursor.

(** The function [write_byte] of the module. *)
Definition write_byte (byte : Z) : M Vga unit :=
  writer_byte byte ;;
  move_cursor.
