(* ===== verification/VgaProofs.v ===== *)
(** The screen is a terminal: the driver's frame buffer, cursor and escape-sequence automaton
    implement a grid of cells with commands, and it never writes outside the frame buffer. *)
From S2P Require Import Prelude Utf8 Memory Vga.

(** ** A terminal *)

(** Text, an escape character, or the parameters of a control sequence read so far. *)
Inductive reading : Set := Text | Escape | Sequence (ps : list Z).

Record Term := mkTerm {
  t_row : Z;
  t_col : Z;
  t_attr : Z;
  t_dflt : Z;
  t_saved : Z * Z;
  t_read : reading;
  cell : Z -> Z -> Z * Z;
}.
Definition at_pos (r c : Z) (t : Term) : Term := mkTerm r c (t_attr t) (t_dflt t) (t_saved t) (t_read t) (cell t).
Definition in_color (a : Z) (t : Term) : Term := mkTerm (t_row t) (t_col t) a (t_dflt t) (t_saved t) (t_read t) (cell t).
Definition to_read (x : reading) (t : Term) : Term := mkTerm (t_row t) (t_col t) (t_attr t) (t_dflt t) (t_saved t) x (cell t).
Definition draw (g : Z -> Z -> Z * Z) (t : Term) : Term :=
  mkTerm (t_row t) (t_col t) (t_attr t) (t_dflt t) (t_saved t) (t_read t) g.

Definition put_cell (r c : Z) (x : Z * Z) (g : Z -> Z -> Z * Z) : Z -> Z -> Z * Z :=
  fun r' c' => if decide (r' = r /\ c' = c) then x else g r' c'.
(** The cells that satisfy [p] become blanks. *)
Definition erase (p : Z -> Z -> bool) (t : Term) : Term :=
  draw (fun r c => if p r c then (32, t_attr t) else cell t r c) t.

Definition new_line (t : Term) : Term :=
  let last := t_row t =? 24 in
  let g := if last then fun r c => if r <? 24 then cell t (r + 1) c else cell t r c else cell t in
  let r := if last then 24 else t_row t + 1 in
  erase (fun r' _ => r' =? r) (at_pos r 0 (draw g t)).

(** Parameter [i], where a missing or zero one stands for [d]. *)
Definition arg (ps : list Z) (i : nat) (d : Z) : Z :=
  match ps !! i with Some p => if p =? 0 then d else p | None => d end.

#[local] Arguments arg : simpl never.

Definition ansi (i : Z) : Z := default 0 (ANSI_TO_VGA !! Z.to_nat i).

Definition color (d a code : Z) : Z :=
  if (code =? 0) || (code =? 27) then d
  else if code =? 1 then Z.lor a 8
  else if (code =? 2) || (code =? 22) then Z.land a 0xF7
  else if code =? 7 then Z.lor (Z.shiftl (Z.land a 15) 4) (Z.land (Z.shiftr a 4) 7)
  else if in_range 30 37 code then Z.lor (Z.land a 0xF8) (ansi (code - 30))
  else if code =? 39 then Z.lor (Z.land a 0xF8) (Z.land d 7)
  else if in_range 40 47 code then Z.lor (Z.land a 0x8F) (Z.shiftl (ansi (code - 40)) 4)
  else if code =? 49 then Z.lor (Z.land a 0x8F) (Z.land d 0x70)
  else if in_range 90 97 code then Z.lor (Z.land a 0xF0) (Z.lor (ansi (code - 90)) 8)
  else if in_range 100 107 code then Z.lor (Z.lor (Z.land a 15) (Z.shiftl (ansi (code - 100)) 4)) 0x80
  else a.

Definition command (b : Z) (ps : list Z) (t : Term) : Term :=
  let n := arg ps 0 1 in
  let r := t_row t in
  let c := t_col t in
  if b =? 65 then at_pos (Z.max 0 (r - n)) c t
  else if b =? 66 then at_pos (Z.min 24 (r + n)) c t
  else if b =? 67 then at_pos r (Z.min 79 (c + n)) t
  else if b =? 68 then at_pos r (Z.max 0 (c - n)) t
  else if (b =? 72) || (b =? 102) then at_pos (Z.min 24 (Z.max 0 (n - 1))) (Z.min 79 (Z.max 0 (arg ps 1 1 - 1))) t
  else if b =? 74 then
    let p := arg ps 0 0 in
    if p =? 0 then erase (fun r' c' => (r <? r') || (r' =? r) && (c <=? c')) t
    else if p =? 1 then erase (fun r' c' => (r' <? r) || (r' =? r) && (c' <=? c)) t
    else if (p =? 2) || (p =? 3) then at_pos 0 0 (erase (fun _ _ => true) t)
    else t
  else if b =? 75 then
    let p := arg ps 0 0 in
    if p =? 0 then erase (fun r' c' => (r' =? r) && (c <=? c')) t
    else if p =? 1 then erase (fun r' c' => (r' =? r) && (c' <=? c)) t
    else if p =? 2 then erase (fun r' _ => r' =? r) t
    else t
  else if b =? 109 then in_color (foldl (color (t_dflt t)) (t_attr t) ps) t
  else if b =? 115 then mkTerm r c (t_attr t) (t_dflt t) (r, c) (t_read t) (cell t)
  else if b =? 117 then at_pos (t_saved t).1 (t_saved t).2 t
  else t.

(** A digit of the last parameter, which saturates; at most eight parameters are kept. *)
Definition digit (ps : list Z) (d : Z) : list Z :=
  alter (fun p => Z.min 65535 (Z.min 65535 (p * 10) + d)) (pred (List.length ps)) ps.
Definition next_param (ps : list Z) : list Z := if (List.length ps <? 8)%nat then ps ++ [0] else ps.

Definition term_step (t : Term) (b : Z) : Term :=
  match t_read t with
  | Text =>
      if b =? 27 then to_read Escape t
      else if b =? 8 then
        if 0 <? t_col t then draw (put_cell (t_row t) (t_col t - 1) (32, t_attr t) (cell t)) (at_pos (t_row t) (t_col t - 1) t) else t
      else if b =? 10 then new_line t
      else if b =? 13 then at_pos (t_row t) 0 t
      else if b =? 9 then
        let c := 8 * (t_col t / 8) + 8 in if c <? 80 then at_pos (t_row t) c t else new_line t
      else if b =? 7 then t
      else
        let u := if t_col t <? 80 then t else new_line t in
        at_pos (t_row u) (t_col u + 1) (draw (put_cell (t_row u) (t_col u) (b, t_attr u) (cell u)) u)
  | Escape =>
      if b =? 91 then to_read (Sequence [0]) t
      else if b =? 99 then mkTerm (t_row t) (t_col t) 7 7 (t_saved t) Text (cell t)
      else to_read Text t
  | Sequence ps =>
      if b =? 63 then t
      else if in_range 48 57 b then to_read (Sequence (digit ps (b - 48))) t
      else if b =? 59 then to_read (Sequence (next_param ps)) t
      else to_read Text (command b ps t)
  end.

(** ** The frame buffer as a grid *)
Definition in_grid (r c : Z) : Prop := 0 <= r < 25 /\ 0 <= c < 80.
Definition address (r c : Z) : Z := VGA_BUFFER + (r * 80 + c) * 2.
Definition cells (v : Vga) (r c : Z) : Z * Z := (fb v (address r c), fb v (address r c + 1)).

(** Memory outside the frame buffer. *)
Definition elsewhere (v v' : Vga) : Prop :=
  forall x, ~ (VGA_BUFFER <= x < VGA_BUFFER + 4000) -> fb v' x = fb v x.

(** From [v] to [v'] only the picture changes, to [g]. *)
Record paints (g : Z -> Z -> Z * Z) (v v' : Vga) : Prop := {
  pa_writer : WRITER v' = WRITER v;
  pa_ports : ports v' = ports v;
  pa_outside : elsewhere v v';
  pa_cells : forall r c, in_grid r c -> cells v' r c = g r c;
}.

Lemma paints_refl v : paints (cells v) v v.
Proof. by split. Qed.

Lemma paints_ext g g' v v' : (forall r c, in_grid r c -> g' r c = g r c) -> paints g v v' -> paints g' v v'.
Proof. intros E [W P O C]. split; try done. intros r c Hg. rewrite E by done. by apply C. Qed.

Lemma paints_trans g g' v1 v2 v3 : paints g v1 v2 -> paints g' v2 v3 -> paints g' v1 v3.
Proof. intros [W1 P1 O1 _] [W2 P2 O2 C2]. split; [congruence|congruence| |done]. intros x Hx. by rewrite O2, O1. Qed.

(** The cells that satisfy [p] become blanks of colour [a]. *)
Definition blank (p : Z -> Z -> bool) (a : Z) (g : Z -> Z -> Z * Z) : Z -> Z -> Z * Z :=
  fun r c => if p r c then (32, a) else g r c.

Lemma paints_blank p1 p2 a v v1 v2 :
  paints (blank p1 a (cells v)) v v1 -> paints (blank p2 a (cells v1)) v1 v2 -> paints (blank (fun r c => p1 r c || p2 r c) a (cells v)) v v2.
Proof.
  intros H1 H2. eapply paints_ext; [|by eapply paints_trans]. intros r c Hg. unfold blank. rewrite (pa_cells _ _ _ H1) by done. unfold blank.
  by destruct (p1 r c), (p2 r c).
Qed.

Lemma wp_write_cell r c ch a v (Q : unit -> Vga -> Prop) :
  in_grid r c -> (forall v', paints (put_cell r c (ch, a) (cells v)) v v' -> Q tt v') -> wp (write_cell r c ch a) v Q.
Proof.
  intros [Hr Hc] HQ. unfold write_cell, ROW_CNT, COL_CNT. rewrite (proj2 (Z.leb_gt _ _)), (proj2 (Z.leb_gt _ _)) by lia. simpl.
  apply wp_bind, wp_u32_mul; [unfold u32_lim; lia|]. apply wp_bind, wp_u32_add; [unfold u32_lim; lia|].
  apply wp_bind, wp_u32_mul; [unfold u32_lim; lia|]. apply wp_bind, wp_modify. apply wp_bind, wp_u32_add; [unfold u32_lim; lia|].
  apply wp_modify. apply HQ. split; simpl; try done.
  - intros x Hx. unfold poke. simpl. unfold VGA_BUFFER in *. by rewrite !decide_False by lia.
  - intros r' c' [Hr' Hc']. unfold cells, put_cell, poke, address. simpl. destruct (decide (r' = r /\ c' = c)) as [[-> ->]|Hne].
    + f_equal; [rewrite decide_False by lia; by rewrite decide_True by lia|by rewrite decide_True by lia].
    + f_equal; by rewrite !decide_False by lia.
Qed.

Lemma wp_erase_line_from r lo hi v (Q : unit -> Vga -> Prop) :
  0 <= r < 25 -> 0 <= lo <= Z.min hi 80 ->
  (forall v', paints (blank (fun r' c' => (r' =? r) && (lo <=? c') && (c' <? hi)) (attr (WRITER v)) (cells v)) v v' -> Q tt v') ->
  wp (erase_line_from r lo hi) v Q.
Proof.
  intros Hr Hlo HQ. unfold erase_line_from, COL_CNT. set (a := attr (WRITER v)).
  apply (wp_for_range (fun x => paints (blank (fun r' c' => (r' =? r) && (lo <=? c') && (c' <? x)) a (cells v)) v)); [lia| | |].
  - eapply paints_ext, paints_refl. intros r' c' _. unfold blank. destruct (Z.leb_spec lo c'), (Z.ltb_spec c' lo); try lia; by rewrite ?andb_false_r.
  - intros x v1 Hx H1. apply wp_bind, wp_gets. apply wp_write_cell; [split; lia|]. intros v2 H2.
    pose proof (pa_writer _ _ _ H1) as EW. eapply paints_ext; [|eapply paints_trans; [exact H1|exact H2]].
    intros r' c' Hg. unfold put_cell, blank. rewrite (pa_cells _ _ _ H1) by done. unfold blank. rewrite EW. fold a.
    destruct (decide (r' = r /\ c' = x)) as [[-> ->]|Hne].
    + by rewrite Z.eqb_refl, (proj2 (Z.leb_le lo x)), (proj2 (Z.ltb_lt x (x + 1))) by lia.
    + destruct (Z.eqb_spec r' r) as [->|]; [|done]. assert (c' <> x) by tauto. simpl.
      by replace (c' <? x + 1) with (c' <? x) by (destruct (Z.ltb_spec c' x), (Z.ltb_spec c' (x + 1)); done || lia).
  - intros v' H'. apply HQ. eapply paints_ext; [|exact H']. intros r' c' [_ Hc']. unfold blank.
    by replace (c' <? Z.min hi 80) with (c' <? hi) by (destruct (Z.ltb_spec c' hi), (Z.ltb_spec c' (Z.min hi 80)); done || lia).
Qed.

Lemma clear_row_erase r : clear_row r = erase_line_from r 0 COL_CNT.
Proof. done. Qed.

Lemma wp_clear_row r v (Q : unit -> Vga -> Prop) :
  0 <= r < 25 -> (forall v', paints (blank (fun r' _ => r' =? r) (attr (WRITER v)) (cells v)) v v' -> Q tt v') -> wp (clear_row r) v Q.
Proof.
  intros Hr HQ. rewrite clear_row_erase. apply wp_erase_line_from; [done|unfold COL_CNT; lia|]. intros v' H'. apply HQ.
  eapply paints_ext; [|exact H']. intros r' c' [_ Hc]. unfold blank, COL_CNT.
  by rewrite (proj2 (Z.leb_le 0 c')), (proj2 (Z.ltb_lt c' 80)), !andb_true_r by lia.
Qed.

Lemma wp_clear_rows lo hi v (Q : unit -> Vga -> Prop) :
  0 <= lo <= hi -> hi <= 25 ->
  (forall v', paints (blank (fun r' _ => (lo <=? r') && (r' <? hi)) (attr (WRITER v)) (cells v)) v v' -> Q tt v') ->
  wp (for_each (range lo hi) clear_row) v Q.
Proof.
  intros Hlo Hhi HQ. set (a := attr (WRITER v)).
  apply (wp_for_range (fun x => paints (blank (fun r' _ => (lo <=? r') && (r' <? x)) a (cells v)) v)); [lia| | |done].
  - eapply paints_ext, paints_refl. intros r' c' _. unfold blank. destruct (Z.leb_spec lo r'), (Z.ltb_spec r' lo); try lia; done.
  - intros x v1 Hx H1. apply wp_clear_row; [lia|]. intros v2 H2. pose proof (pa_writer _ _ _ H1) as EW.
    eapply paints_ext; [|eapply paints_trans; [exact H1|exact H2]]. intros r' c' Hg. unfold blank. rewrite (pa_cells _ _ _ H1) by done.
    rewrite EW. fold a. unfold blank. destruct (Z.eqb_spec r' x) as [->|Hne].
    + by rewrite (proj2 (Z.leb_le lo x)), (proj2 (Z.ltb_lt x (x + 1))) by lia.
    + by replace (r' <? x + 1) with (r' <? x) by (destruct (Z.ltb_spec r' x), (Z.ltb_spec r' (x + 1)); done || lia).
Qed.

(** Comparisons on both sides of an equation of booleans. *)
Ltac grid_bool :=
  repeat match goal with
  | |- context [?a =? ?b] => destruct (Z.eqb_spec a b)
  | |- context [?a <=? ?b] => destruct (Z.leb_spec a b)
  | |- context [?a <? ?b] => destruct (Z.ltb_spec a b)
  end; simpl; done || lia.

(** ** The driver implements the terminal *)

(** How the state of the automaton and the array of parameters represent what was read. *)
Definition reads (w : Writer) (x : reading) : Prop :=
  match x with
  | Text => state w = Normal
  | Escape => state w = Esc
  | Sequence ps => (state w = Csi \/ state w = CsiQuestion) /\ (1 <= List.length ps <= 8)%nat /\
      param_idx w = Z.of_nat (List.length ps) - 1 /\ params w = ps ++ replicate (8 - List.length ps) 0 /\ Forall (fun p => 0 <= p < 65536) ps
  end.

Record shows (v : Vga) (t : Term) : Prop := {
  sh_row : row (WRITER v) = t_row t /\ 0 <= t_row t < 25;
  sh_col : col (WRITER v) = t_col t /\ 0 <= t_col t <= 80;
  sh_attr : attr (WRITER v) = t_attr t;
  sh_dflt : default_attr (WRITER v) = t_dflt t;
  sh_saved : (saved_row (WRITER v), saved_col (WRITER v)) = t_saved t /\ 0 <= (t_saved t).1 < 25 /\ 0 <= (t_saved t).2 <= 80;
  sh_read : reads (WRITER v) (t_read t);
  sh_cells : forall r c, in_grid r c -> cells v r c = cell t r c;
}.

(** The rest of the machine. *)
Record quiet (v v' : Vga) : Prop := { qu_outside : elsewhere v v'; qu_ports : ports v' = ports v }.

Lemma quiet_refl v : quiet v v.
Proof. by split. Qed.
Lemma quiet_trans v1 v2 v3 : quiet v1 v2 -> quiet v2 v3 -> quiet v1 v3.
Proof. intros [O1 P1] [O2 P2]. split; [|congruence]. intros x Hx. by rewrite O2, O1. Qed.
Lemma paints_quiet g v v' : paints g v v' -> quiet v v'.
Proof. by intros []. Qed.

Lemma shows_paints g v v' t :
  shows v t -> paints g v v' -> shows v' (draw g t).
Proof. intros [] [W P O C]. split; try (rewrite W; done). done. Qed.

Lemma shows_ext v t g : shows v t -> (forall r c, in_grid r c -> g r c = cell t r c) -> shows v (draw g t).
Proof. intros [] E. split; try done. intros r c Hg. simpl. rewrite E by done. auto. Qed.

(** The writer changes, the picture does not. *)
Definition wr (f : Writer -> Writer) (v : Vga) : Vga := mkVga (f (WRITER v)) (fb v) (ports v).

Lemma wp_upd f v (Q : unit -> Vga -> Prop) : Q tt (wr f v) -> wp (upd f) v Q.
Proof. done. Qed.
Lemma wp_get {A} (f : Writer -> A) v (Q : A -> Vga -> Prop) : Q (f (WRITER v)) v -> wp (get f) v Q.
Proof. done. Qed.
Lemma quiet_wr f v : quiet v (wr f v).
Proof. done. Qed.
Lemma quiet_wr_l f v v' : quiet (wr f v) v' -> quiet v v'.
Proof. intros [O P]. by split. Qed.

Lemma shows_pos v t r c :
  shows v t -> 0 <= r < 25 -> 0 <= c <= 80 -> shows (wr (fun w => set_col c (set_row r w)) v) (at_pos r c t).
Proof. intros [] Hr Hc. by split. Qed.

Lemma shows_color v t a : shows v t -> shows (wr (set_attr a) v) (in_color a t).
Proof. intros []. by split. Qed.

Lemma shows_erase v v' t p q :
  shows v t -> paints (blank p (attr (WRITER v)) (cells v)) v v' -> (forall r c, in_grid r c -> q r c = p r c) -> shows v' (erase q t).
Proof.
  intros Hs Hp Hq. rewrite (sh_attr _ _ Hs) in Hp. eapply shows_paints in Hp; [|exact Hs]. eapply shows_ext in Hp; [exact Hp|].
  intros r c Hg. simpl. unfold blank. by rewrite Hq, (sh_cells _ _ Hs r c Hg).
Qed.

(** What an operation does to the machine when it does [f] to the terminal. *)
Definition implements (m : M Vga unit) (f : Term -> Term) : Prop :=
  forall v t, shows v t -> wp m v (fun _ v' => shows v' (f t) /\ quiet v v').

Lemma scrolled v (t : Term) :
  shows v t -> exists v', scroll v = Ok tt v' /\ paints (fun r c => if r <? 24 then cell t (r + 1) c else cell t r c) v v'.
Proof.
  intros Hs. eexists. split; [reflexivity|]. split; try done.
  - intros x Hx. simpl. unfold COL_CNT, ROW_CNT, VGA_BUFFER in *. by rewrite decide_False by lia.
  - intros r c [Hr Hc]. unfold cells. simpl. unfold COL_CNT, ROW_CNT. unfold address. destruct (Z.ltb_spec r 24).
    + rewrite <- (sh_cells _ _ Hs) by (split; lia). rewrite !decide_True by (unfold VGA_BUFFER; lia). unfold cells, address. f_equal; f_equal; lia.
    + rewrite <- (sh_cells _ _ Hs) by (split; lia). by rewrite !decide_False by (unfold VGA_BUFFER; lia).
Qed.

Lemma newline_implements : implements newline new_line.
Proof.
  intros v t Hs. destruct (sh_row _ _ Hs) as [Er Hr]. unfold newline, new_line, ROW_CNT.
  apply wp_bind, wp_upd. apply wp_bind, wp_get. cbn [WRITER wr row set_col]. rewrite Er.
  apply wp_bind, wp_u32_add; [unfold u32_lim; lia|]. apply wp_bind, wp_upd. set (v1 := wr _ (wr _ v)).
  destruct (Z.eqb_spec (t_row t) 24) as [E24|Hne].
  - rewrite E24. simpl Z.leb. cbv iota. apply wp_bind, wp_bind.
    assert (shows (wr (fun w => set_col 0 (set_row 24 w)) v) (at_pos 24 0 t)) as H0 by (apply shows_pos; [done|lia|lia]).
    destruct (scrolled _ _ H0) as (v2 & E2 & [W2 P2 O2 C2]).
    assert (scroll v1 = Ok tt (wr (set_row 25) v2)) as E1.
    { injection E2 as <-. unfold v1. by rewrite E24. }
    unfold wp at 1. rewrite E1. apply wp_upd, wp_bind, wp_get.
    set (v3 := wr _ (wr _ v2)). change (row (WRITER v3)) with 24.
    assert (shows v3 (at_pos 24 0 (draw (fun r c => if r <? 24 then cell t (r + 1) c else cell t r c) t))) as H3.
    { destruct H0. split; try done; simpl in *; by rewrite ?W2 in *. }
    apply wp_clear_row; [lia|]. intros v4 H4. split.
    + eapply shows_erase; [exact H3|exact H4|done].
    + apply paints_quiet in H4. eapply quiet_trans; [|exact H4]. by split.
  - rewrite (proj2 (Z.leb_gt _ _)) by lia. cbv iota. apply wp_bind, wp_ret, wp_bind, wp_get. change (row (WRITER v1)) with (t_row t + 1).
    assert (shows v1 (at_pos (t_row t + 1) 0 t)) as H1 by (apply (shows_pos v t); [done|lia|lia]).
    apply wp_clear_row; [lia|]. intros v4 H4. split.
    + eapply shows_erase; [exact H1|exact H4|done].
    + apply paints_quiet in H4. eapply quiet_trans; [|exact H4]. by split.
Qed.

(** *** Parameters *)
Lemma wp_param v t ps (k : nat) i d (Q : Z -> Vga -> Prop) :
  shows v t -> t_read t = Sequence ps -> i = Z.of_nat k -> Q (arg ps k d) v -> wp (param i d) v Q.
Proof.
  intros Hs Er -> HQ. pose proof (sh_read _ _ Hs) as Hr. rewrite Er in Hr. destruct Hr as (_ & Hl & Ei & Ep & _).
  unfold param. apply wp_bind, wp_get, wp_bind, wp_get. rewrite Ei, Ep. unfold arg in HQ. destruct (Z.leb_spec (Z.of_nat k) (Z.of_nat (List.length ps) - 1)).
  - destruct (lookup_lt_is_Some_2 ps k) as [p Hp]; [lia|]. rewrite Hp in HQ.
    apply wp_bind, (wp_index _ _ p); [lia|rewrite Nat2Z.id; by apply lookup_app_l_Some|]. by destruct (p =? 0).
  - rewrite lookup_ge_None_2 in HQ by lia. done.
Qed.

Lemma arg_range v t ps i d : shows v t -> t_read t = Sequence ps -> 0 <= d < 65536 -> 0 <= arg ps i d < 65536.
Proof.
  intros Hs Er Hd. pose proof (sh_read _ _ Hs) as Hr. rewrite Er in Hr. destruct Hr as (_ & _ & _ & _ & HF).
  unfold arg. destruct (ps !! i) as [p|] eqn:Hp; [|done]. destruct (p =? 0); [done|]. by apply (Forall_lookup_1 _ _ _ _ HF Hp).
Qed.

(** A command of a sequence with the parameters [ps]. *)
Definition commands (b : Z) : Prop :=
  forall v t ps, shows v t -> t_read t = Sequence ps -> wp (csi_final b) v (fun _ v' => shows v' (command b ps t) /\ quiet v v').

Lemma cursor_commands b : b ∈ [65; 66; 67; 68; 72; 102; 115; 117] -> commands b.
Proof.
  intros Hb v t ps Hs Er. destruct (sh_row _ _ Hs) as [E1 H1]. destruct (sh_col _ _ Hs) as [E2 H2].
  destruct (sh_saved _ _ Hs) as [E3 H3]. pose proof (arg_range v t ps 0 1 Hs Er ltac:(lia)) as Hn. pose proof (arg_range v t ps 1 1 Hs Er ltac:(lia)) as Hm.
  assert (forall r c f, f (WRITER v) = set_col c (set_row r (WRITER v)) -> 0 <= r < 25 -> 0 <= c <= 80 ->
            shows (wr f v) (at_pos r c t) /\ quiet v (wr f v)) as Hpos.
  { intros r c f Ef Hr Hc. split; [|apply quiet_wr]. pose proof (shows_pos v t r c Hs Hr Hc) as Hx. unfold wr in *. by rewrite Ef. }
  assert (forall w, set_col (col w) (set_row (row w) w) = w) as Hid by (by intros []).
  unfold csi_final, command. repeat (apply elem_of_cons in Hb as [->|Hb]); try (by apply not_elem_of_nil in Hb); simpl.
  - apply wp_bind, (wp_param v t ps 0); [done..|]. apply wp_upd, Hpos; [|lia|lia]. simpl. rewrite <- E2, <- E1. by destruct (WRITER v).
  - apply wp_bind, (wp_param v t ps 0); [done..|]. apply wp_bind, wp_get, wp_bind, wp_u32_add; [unfold u32_lim; simpl; lia|].
    apply wp_upd, Hpos; [|simpl; unfold ROW_CNT; lia|lia]. simpl. rewrite <- E2, E1, Z.min_comm. by destruct (WRITER v).
  - apply wp_bind, (wp_param v t ps 0); [done..|]. apply wp_bind, wp_get, wp_bind, wp_u32_add; [unfold u32_lim; simpl; lia|].
    apply wp_upd, Hpos; [|lia|simpl; unfold COL_CNT; lia]. simpl. rewrite <- E1, E2, Z.min_comm. by destruct (WRITER v).
  - apply wp_bind, (wp_param v t ps 0); [done..|]. apply wp_upd, Hpos; [|lia|lia]. simpl. rewrite <- E2, <- E1. by destruct (WRITER v).
  - apply wp_bind, (wp_param v t ps 0); [done..|]. apply wp_bind, (wp_param v t ps 1); [done..|]. apply wp_bind, wp_upd, wp_upd.
    unfold sat_sub, ROW_CNT, COL_CNT.
    pose proof (Hpos (Z.min 24 (Z.max 0 (arg ps 0 1 - 1))) (Z.min 79 (Z.max 0 (arg ps 1 1 - 1))) (fun w => set_col (Z.min 79 (Z.max 0 (arg ps 1 1 - 1))) (set_row (Z.min 24 (Z.max 0 (arg ps 0 1 - 1))) w))) as HQ.
    rewrite !(Z.min_comm _ (_ - 1)). apply HQ; [done|lia|lia].
  - apply wp_bind, (wp_param v t ps 0); [done..|]. apply wp_bind, (wp_param v t ps 1); [done..|]. apply wp_bind, wp_upd, wp_upd.
    unfold sat_sub, ROW_CNT, COL_CNT.
    pose proof (Hpos (Z.min 24 (Z.max 0 (arg ps 0 1 - 1))) (Z.min 79 (Z.max 0 (arg ps 1 1 - 1))) (fun w => set_col (Z.min 79 (Z.max 0 (arg ps 1 1 - 1))) (set_row (Z.min 24 (Z.max 0 (arg ps 0 1 - 1))) w))) as HQ.
    rewrite !(Z.min_comm _ (_ - 1)). apply HQ; [done|lia|lia].
  - apply wp_upd. split; [|done]. destruct Hs. split; simpl; try done. by rewrite E1, E2.
  - apply wp_upd, Hpos; [|lia|lia]. rewrite <- E3. done.
Qed.

Lemma erase_commands b : b ∈ [74; 75] -> commands b.
Proof.
  intros Hb v t ps Hs Er. destruct (sh_row _ _ Hs) as [E1 H1]. destruct (sh_col _ _ Hs) as [E2 H2].
  assert (forall p q v', paints (blank p (attr (WRITER v)) (cells v)) v v' -> (forall r c, in_grid r c -> q r c = p r c) ->
            shows v' (erase q t) /\ quiet v v') as He.
  { intros p q v' Hp Hq. split; [by eapply shows_erase|by eapply paints_quiet]. }
  unfold csi_final, command. repeat (apply elem_of_cons in Hb as [->|Hb]); try (by apply not_elem_of_nil in Hb); simpl.
  - unfold erase_display, COL_CNT, ROW_CNT. apply wp_bind, (wp_param v t ps 0); [done..|]. apply wp_bind, wp_get, wp_bind, wp_get. rewrite E1, E2.
    destruct (arg ps 0 0 =? 0); [|destruct (arg ps 0 0 =? 1); [|destruct ((arg ps 0 0 =? 2) || (arg ps 0 0 =? 3)); [|by apply wp_ret]]].
    + apply wp_bind, wp_erase_line_from; [done|lia|]. intros v1 Hp1. apply wp_bind, wp_u32_add; [unfold u32_lim; lia|].
      apply wp_clear_rows; [lia|lia|]. intros v2 Hp2. rewrite (pa_writer _ _ _ Hp1) in Hp2.
      eapply He; [by eapply paints_blank|]. intros r c [Hr Hc]. cbv beta. grid_bool.
    + apply wp_bind, wp_clear_rows; [lia|lia|]. intros v1 Hp1. apply wp_bind, wp_u32_add; [unfold u32_lim; lia|].
      apply wp_erase_line_from; [done|lia|]. intros v2 Hp2. rewrite (pa_writer _ _ _ Hp1) in Hp2.
      eapply He; [by eapply paints_blank|]. intros r c [Hr Hc]. cbv beta. grid_bool.
    + apply wp_bind, wp_clear_rows; [lia|lia|]. intros v1 Hp1. apply wp_bind, wp_upd, wp_upd. split.
      * apply (shows_pos v1 (erase (fun _ _ => true) t)); [|lia|lia]. eapply He; [exact Hp1|]. intros r c [Hr Hc]. grid_bool.
      * apply paints_quiet in Hp1. eapply quiet_trans; [exact Hp1|done].
  - unfold erase_line, COL_CNT, ROW_CNT. apply wp_bind, (wp_param v t ps 0); [done..|]. apply wp_bind, wp_get, wp_bind, wp_get. rewrite E1, E2.
    destruct (arg ps 0 0 =? 0); [|destruct (arg ps 0 0 =? 1); [|destruct (arg ps 0 0 =? 2); [|by apply wp_ret]]].
    + apply wp_erase_line_from; [done|lia|]. intros v1 Hp1. eapply He; [exact Hp1|]. intros r c [Hr Hc]. grid_bool.
    + apply wp_bind, wp_u32_add; [unfold u32_lim; lia|]. apply wp_erase_line_from; [done|lia|].
      intros v1 Hp1. eapply He; [exact Hp1|]. intros r c [Hr Hc]. grid_bool.
    + apply wp_clear_row; [done|]. intros v1 Hp1. by eapply He.
Qed.

(** *** Colours *)
Lemma sgr_code_color code a d v : sgr_code code a d v = Ok (color d a code) v.
Proof.
  assert (forall lo (f : Z -> Z), in_range lo (lo + 7) code = true ->
            bind (index ANSI_TO_VGA (code - lo)) (fun x => ret (f x)) v = Ok (f (ansi (code - lo))) v) as Hi.
  { intros lo f. unfold in_range. rewrite andb_true_iff, !Z.leb_le. intros Hr. unfold bind, index, ansi. rewrite (proj2 (Z.ltb_ge _ 0)) by lia.
    by destruct (lookup_lt_is_Some_2 ANSI_TO_VGA (Z.to_nat (code - lo))) as [x ->]; [simpl; lia|]. }
  unfold sgr_code, color.
  destruct (Z.eqb_spec code 0) as [->|H0]; [done|]. destruct (Z.eqb_spec code 1) as [->|H1]; [done|].
  destruct (Z.eqb_spec code 2) as [->|H2]; [done|]. destruct (Z.eqb_spec code 4) as [->|H4]; [done|].
  destruct (Z.eqb_spec code 7) as [->|H7]; [done|]. destruct (Z.eqb_spec code 22) as [->|H22]; [done|].
  destruct (Z.eqb_spec code 27) as [->|H27]; [done|]. cbn [orb].
  destruct (in_range 30 37 code) eqn:R30; [by apply (Hi 30 (fun x => Z.lor (Z.land a 0xF8) x))|].
  destruct (code =? 39); [done|].
  destruct (in_range 40 47 code) eqn:R40; [by apply (Hi 40 (fun x => Z.lor (Z.land a 0x8F) (Z.shiftl x 4)))|].
  destruct (code =? 49); [done|].
  destruct (in_range 90 97 code) eqn:R90; [by apply (Hi 90 (fun x => Z.lor (Z.land a 0xF0) (Z.lor x 8)))|].
  destruct (in_range 100 107 code) eqn:R100; [by apply (Hi 100 (fun x => Z.lor (Z.lor (Z.land a 15) (Z.shiftl x 4)) 0x80))|done].
Qed.

Lemma sgr_commands : commands 109.
Proof.
  intros v t ps Hs Er. pose proof (sh_read _ _ Hs) as Hr. rewrite Er in Hr. destruct Hr as (_ & Hl & Ei & Ep & _).
  change (csi_final 109) with sgr. change (command 109 ps t) with (in_color (foldl (color (t_dflt t)) (t_attr t) ps) t).
  unfold sgr. apply wp_bind, wp_get, wp_bind, wp_get. rewrite Ei, Ep. apply wp_bind, wp_u32_add; [unfold u32_lim; lia|].
  destruct ps as [|p0 ps]; [simpl in Hl; lia|]. set (qs := (p0 :: ps) ++ replicate (8 - List.length (p0 :: ps)) 0).
  apply wp_bind, (wp_index _ _ p0); [lia|done|]. set (n := Z.of_nat (List.length (p0 :: ps)) - 1 + 1).
  assert (n = Z.of_nat (List.length (p0 :: ps))) as En by (unfold n; lia).
  destruct ((n =? 1) && (p0 =? 0) && (Z.of_nat (List.length (p0 :: ps)) - 1 =? 0)) eqn:E0.
  - rewrite !andb_true_iff, !Z.eqb_eq in E0. destruct E0 as [[E0 ->] _]. destruct ps; [|simpl in *; lia].
    apply wp_upd. split; [|done]. pose proof (shows_color v t (default_attr (WRITER v)) Hs) as Hx. rewrite (sh_dflt _ _ Hs) in Hx at 2. exact Hx.
  - apply (wp_for_range (fun i v' => shows v' (in_color (foldl (color (t_dflt t)) (t_attr t) (take (Z.to_nat i) (p0 :: ps))) t) /\ quiet v v')); [lia| | |].
    + split; [|done]. destruct Hs. by split.
    + intros i v1 Hi [Hs1 Hq1]. destruct (lookup_lt_is_Some_2 (p0 :: ps) (Z.to_nat i)) as [p Hp]; [lia|].
      apply wp_bind, (wp_index _ _ p); [lia|by apply lookup_app_l_Some|]. apply wp_bind, wp_get, wp_bind. unfold wp at 1. rewrite sgr_code_color.
      apply wp_upd. split; [|eapply quiet_trans; [exact Hq1|done]]. change (id (WRITER v1)) with (WRITER v1).
      rewrite (sh_attr _ _ Hs1), (sh_dflt _ _ Hs1). replace (Z.to_nat (i + 1)) with (S (Z.to_nat i)) by lia.
      rewrite (take_S_r _ _ _ Hp), foldl_app. exact (shows_color v1 _ _ Hs1).
    + intros v'. rewrite En, Nat2Z.id, take_ge by lia. done.
Qed.

(** *** Bytes *)
Lemma other_commands b : (forall x, x ∈ [65; 66; 67; 68; 72; 102; 74; 75; 109; 115; 117] -> b <> x) -> commands b.
Proof.
  intros Hb v t ps Hs Er. assert (forall x, x ∈ [65; 66; 67; 68; 72; 102; 74; 75; 109; 115; 117] -> (b =? x) = false) as E.
  { intros x Hx. apply Z.eqb_neq. by apply Hb. }
  unfold csi_final, command. rewrite !E by (repeat first [left | right]). by apply wp_ret.
Qed.

Lemma all_commands b : commands b.
Proof.
  destruct (decide (b ∈ [65; 66; 67; 68; 72; 102; 115; 117])) as [H|H1]; [by apply cursor_commands|].
  destruct (decide (b ∈ [74; 75])) as [H|H2]; [by apply erase_commands|].
  destruct (decide (b = 109)) as [->|H3]; [apply sgr_commands|]. apply other_commands. intros x Hx ->. set_solver.
Qed.

Lemma shows_reads v t f x :
  shows v t -> (forall w, col (f w) = col w /\ row (f w) = row w /\ attr (f w) = attr w /\ default_attr (f w) = default_attr w /\
    saved_row (f w) = saved_row w /\ saved_col (f w) = saved_col w) -> reads (f (WRITER v)) x -> shows (wr f v) (to_read x t).
Proof.
  intros [] Hf Hr. destruct (Hf (WRITER v)) as (E1 & E2 & E3 & E4 & E5 & E6). split; simpl; rewrite ?E1, ?E2, ?E3, ?E4, ?E5, ?E6; done.
Qed.

Lemma command_read b ps t : t_read (command b ps t) = t_read t.
Proof. unfold command, erase. by repeat case_match. Qed.

Lemma csi_implements v t ps b :
  shows v t -> t_read t = Sequence ps -> wp (csi_byte b) v (fun _ v' => shows v' (term_step t b) /\ quiet v v').
Proof.
  intros Hs Er. pose proof (sh_read _ _ Hs) as Hr. rewrite Er in Hr. destruct Hr as (Hst & Hl & Ei & Ep & HF). unfold csi_byte, term_step. rewrite Er.
  destruct (b =? 63).
  { apply wp_upd. split; [|done]. replace t with (to_read (Sequence ps) t) by (destruct t; simpl in *; by subst).
    apply shows_reads; [done|done|]. by split; [right|]. }
  destruct (in_range 48 57 b) eqn:Hd.
  { apply wp_bind, wp_get, wp_bind, wp_get. rewrite Ei, Ep. unfold MAX_PARAMS. rewrite (proj2 (Z.ltb_lt _ _)) by lia.
    destruct (lookup_lt_is_Some_2 ps (pred (List.length ps))) as [p Hp]; [lia|].
    apply wp_bind, (wp_index _ _ p); [lia|apply lookup_app_l_Some; by replace (Z.to_nat _) with (pred (List.length ps)) by lia|].
    apply wp_bind, wp_index_set; [rewrite length_app; lia|]. apply wp_upd. split; [|done]. apply shows_reads; [done|done|].
    assert (digit ps (b - 48) = <[pred (List.length ps) := Z.min 65535 (Z.min 65535 (p * 10) + (b - 48))]> ps) as ->.
    { unfold digit. apply list_eq. intros i. destruct (decide (i = pred (List.length ps))) as [->|Hne].
      - rewrite list_lookup_alter, decide_True by done. rewrite Hp, list_lookup_insert_eq by lia. done.
      - rewrite list_lookup_alter, decide_False by done. by rewrite list_lookup_insert_ne by done. }
    replace (Z.to_nat (Z.of_nat (List.length ps) - 1)) with (pred (List.length ps)) by lia.
    rewrite insert_app_l by lia. split_and!; simpl; rewrite ?length_insert; try (done || lia).
    apply Forall_insert; [done|]. pose proof (Forall_lookup_1 _ _ _ _ HF Hp). unfold in_range in Hd. rewrite andb_true_iff, !Z.leb_le in Hd. simpl in *. lia. }
  destruct (b =? 59).
  { apply wp_bind, wp_get, wp_bind, wp_get. rewrite Ei, Ep. unfold MAX_PARAMS, next_param.
    destruct (Nat.ltb_spec (List.length ps) 8).
    - rewrite (proj2 (Z.ltb_lt _ _)) by lia. apply wp_bind, wp_u32_add; [unfold u32_lim; lia|]. apply wp_upd. split; [|done].
      apply shows_reads; [done|done|]. split_and!; simpl; rewrite ?length_app; simpl; [done|lia|lia|lia| |].
      + rewrite <- app_assoc. f_equal. by replace (8 - List.length ps)%nat with (S (8 - (List.length ps + 1))) by lia.
      + apply Forall_app. split; [done|]. by repeat constructor.
    - rewrite (proj2 (Z.ltb_ge _ _)) by lia. apply wp_ret. split; [|done].
      by replace (to_read (Sequence ps) t) with t by (destruct t; simpl in *; by subst). }
  apply wp_bind. eapply wp_mono; [by apply all_commands|]. intros _ v1 [Hs1 Hq1]. apply wp_upd.
  split; [|eapply quiet_trans; [exact Hq1|done]]. by apply shows_reads.
Qed.

Lemma normal_implements v t b :
  shows v t -> t_read t = Text -> wp (normal_byte b) v (fun _ v' => shows v' (term_step t b) /\ quiet v v').
Proof.
  intros Hs Er. destruct (sh_row _ _ Hs) as [E1 H1]. destruct (sh_col _ _ Hs) as [E2 H2]. unfold normal_byte, term_step. rewrite Er.
  assert (forall f c, f (WRITER v) = set_col c (WRITER v) -> 0 <= c <= 80 -> shows (wr f v) (at_pos (t_row t) c t)) as Hpos.
  { intros f c Ef Hc. pose proof (shows_pos v t (t_row t) c Hs H1 Hc) as Hx. unfold wr in *. rewrite Ef. rewrite <- E1 in Hx at 1. by destruct (WRITER v). }
  destruct (b =? 27); [apply wp_upd; split; [by apply shows_reads|done]|].
  destruct (b =? 8).
  { apply wp_bind, wp_get. rewrite E2. destruct (Z.ltb_spec 0 (t_col t)); [|by apply wp_ret].
    apply wp_bind, wp_u32_sub; [lia|]. apply wp_bind, wp_upd, wp_bind, wp_get. set (v1 := wr _ v).
    assert (shows v1 (at_pos (t_row t) (t_col t - 1) t)) as Hs1 by (apply Hpos; [done|lia]).
    change (id (WRITER v1)) with (WRITER v1). rewrite (proj1 (sh_row _ _ Hs1)), (proj1 (sh_col _ _ Hs1)), (sh_attr _ _ Hs1). simpl.
    apply wp_write_cell; [split; lia|]. intros v2 Hp. split; [|by apply paints_quiet in Hp; apply (quiet_wr_l (set_col (t_col t - 1)))].
    eapply shows_paints in Hp; [|exact Hs1]. eapply shows_ext in Hp; [exact Hp|]. intros r c Hg. unfold put_cell. simpl.
    case_decide; [done|]. by rewrite (sh_cells _ _ Hs1). }
  destruct (b =? 10); [by apply newline_implements|].
  destruct (b =? 13); [apply wp_upd; split; [apply Hpos; [done|lia]|done]|].
  destruct (b =? 9).
  { apply wp_bind, wp_get. rewrite E2. apply wp_bind, wp_u32_add; [unfold u32_lim; lia|].
    change (not_w 32 7) with (not_w 32 (Z.ones 3)). rewrite (land_not_ones (t_col t + 8) 3) by (unfold in_u32, u32_lim; lia). change (2 ^ 3) with 8.
    replace (t_col t + 8 - (t_col t + 8) mod 8) with (8 * (t_col t / 8) + 8) by (Z.div_mod_to_equations; lia).
    set (c := 8 * (t_col t / 8) + 8). assert (0 <= c) by (unfold c; Z.div_mod_to_equations; lia).
    apply wp_bind, wp_upd. unfold COL_CNT. destruct (Z.ltb_spec c 80).
    - rewrite (proj2 (Z.leb_gt _ _)) by lia. apply wp_ret. split; [apply Hpos; [done|lia]|done].
    - rewrite (proj2 (Z.leb_le _ _)) by lia. exact (newline_implements v t Hs). }
  destruct (b =? 7); [by apply wp_ret|]. apply wp_bind, wp_get. rewrite E2. unfold COL_CNT.
  set (u := if t_col t <? 80 then t else new_line t). apply wp_bind.
  assert (wp (if 80 <=? t_col t then newline else ret tt) v (fun _ v' => shows v' u /\ quiet v v' /\ t_col u < 80)) as Hwp.
  { unfold u. destruct (Z.leb_spec 80 (t_col t)) as [Hge|Hlt].
    - rewrite (proj2 (Z.ltb_ge _ _)) by lia. eapply wp_mono; [by apply newline_implements|]. by intros _ v' [Hn Hq].
    - rewrite (proj2 (Z.ltb_lt _ _)) by lia. by apply wp_ret. }
  eapply wp_mono; [exact Hwp|]. clearbody u. clear Hwp Hpos. intros _ v1 (Hs1 & Hq1 & Hc). apply wp_bind, wp_get. change (id (WRITER v1)) with (WRITER v1).
  rewrite (proj1 (sh_row _ _ Hs1)), (proj1 (sh_col _ _ Hs1)), (sh_attr _ _ Hs1). pose proof (proj2 (sh_row _ _ Hs1)). pose proof (proj2 (sh_col _ _ Hs1)).
  apply wp_bind, wp_write_cell; [split; lia|]. intros v2 Hp. apply wp_bind, wp_get. rewrite (pa_writer _ _ _ Hp), (proj1 (sh_col _ _ Hs1)).
  apply wp_bind, wp_u32_add; [unfold u32_lim; lia|]. apply wp_upd. pose proof (paints_quiet _ _ _ Hp) as Hq2.
  split; [|eapply quiet_trans; [exact Hq1|eapply quiet_trans; [exact Hq2|done]]].
  eapply shows_paints in Hp; [|exact Hs1].
  pose proof (shows_ext _ _ (put_cell (t_row u) (t_col u) (b, t_attr u) (cell u)) Hp) as Hs2. simpl in Hs2.
  assert (shows v2 (draw (put_cell (t_row u) (t_col u) (b, t_attr u) (cell u)) u)) as Hs3.
  { apply Hs2. intros r c Hg. unfold put_cell. case_decide; [done|]. by rewrite (sh_cells _ _ Hs1). }
  pose proof (shows_pos _ _ (t_row u) (t_col u + 1) Hs3 ltac:(done) ltac:(lia)) as Hx. unfold wr in *. simpl in Hx.
  rewrite <- (proj1 (sh_row _ _ Hs3)) in Hx at 1. by destruct (WRITER v2).
Qed.

Lemma escape_implements v t b :
  shows v t -> t_read t = Escape -> wp (esc_byte b) v (fun _ v' => shows v' (term_step t b) /\ quiet v v').
Proof.
  intros Hs Er. unfold esc_byte, term_step. rewrite Er. destruct (b =? 91); [|destruct (b =? 99)].
  - apply wp_bind, wp_upd, wp_upd. split; [|done]. apply (shows_reads v t (fun w => set_params (zeros MAX_PARAMS) 0 (set_state Csi w))); [done|done|].
    split_and!; try done; [by left|simpl; lia|by repeat constructor].
  - apply wp_bind, wp_upd, wp_bind, wp_upd, wp_upd. split; [|done]. destruct Hs. by split.
  - apply wp_upd. split; [by apply shows_reads|done].
Qed.

Lemma byte_implements b : implements (writer_byte b) (fun t => term_step t b).
Proof.
  intros v t Hs. unfold writer_byte. apply wp_bind, wp_get. pose proof (sh_read _ _ Hs) as Hr.
  destruct (t_read t) as [| |ps] eqn:Er; simpl in Hr.
  - rewrite Hr. by apply normal_implements.
  - rewrite Hr. by apply escape_implements.
  - destruct Hr as [[-> | ->] _]; by apply (csi_implements v t ps).
Qed.

Lemma bytes_implement s : implements (for_each s writer_byte) (fun t => foldl term_step t s).
Proof.
  induction s as [|b s IH]; intros v t Hs; simpl; [by apply wp_ret|].
  apply wp_bind. eapply wp_mono; [by apply byte_implements|]. intros _ v1 [Hs1 Hq1].
  eapply wp_mono; [by apply IH|]. intros _ v2 [Hs2 Hq2]. split; [done|by eapply quiet_trans].
Qed.

(** The hardware cursor is the two registers 14 and 15 of the display controller. *)
Definition cursor_writes (pos : Z) : list (Z * Z) := [(0x3D4, 14); (0x3D5, pos / 256); (0x3D4, 15); (0x3D5, pos mod 256)].

Lemma wp_move_cursor v t (Q : unit -> Vga -> Prop) :
  shows v t -> Q tt (mkVga (WRITER v) (fb v) (ports v ++ cursor_writes (t_row t * 80 + t_col t))) -> wp move_cursor v Q.
Proof.
  intros Hs HQ. destruct (sh_row _ _ Hs) as [E1 H1]. destruct (sh_col _ _ Hs) as [E2 H2]. unfold move_cursor, COL_CNT.
  apply wp_bind, wp_get, wp_bind, wp_get. rewrite E1, E2. apply wp_bind, wp_u32_mul; [unfold u32_lim; lia|].
  apply wp_bind, wp_u32_add; [unfold u32_lim; lia|]. rewrite (Z.mod_small _ 65536) by lia. rewrite Z.shiftr_div_pow2 by lia. change (2 ^ 8) with 256.
  rewrite (Z.mod_small (_ / _)) by (Z.div_mod_to_equations; lia). do 3 apply wp_bind, wp_modify. apply wp_modify. simpl.
  by rewrite <- !app_assoc.
Qed.

(** ** Sequences that programs send *)

(** The decimal digits of a number below 65536, without leading zeros. *)
Fixpoint digits (fuel : nat) (n : Z) : list Z :=
  match fuel with
  | O => []
  | S fuel' => if n <? 10 then [48 + n] else digits fuel' (n / 10) ++ [48 + n mod 10]
  end.
Definition decimal (n : Z) : list Z := digits 5 n.

(** Escape, a left bracket, the parameters separated by semicolons, and the final byte. *)
Fixpoint join_params (ps : list Z) : list Z :=
  match ps with [] => [] | [p] => decimal p | p :: ps' => decimal p ++ [59] ++ join_params ps' end.
Definition csi (ps : list Z) (b : Z) : list Z := [27; 91] ++ join_params ps ++ [b].

Lemma digit_step t ps d : t_read t = Sequence ps -> 0 <= d < 10 -> term_step t (48 + d) = to_read (Sequence (digit ps d)) t.
Proof.
  intros Er Hd. unfold term_step. rewrite Er. rewrite (proj2 (Z.eqb_neq _ _)) by lia. unfold in_range.
  rewrite (proj2 (Z.leb_le _ _)), (proj2 (Z.leb_le _ _)) by lia. simpl. by replace (48 + d - 48) with d by lia.
Qed.

Lemma digit_last ps p d : 0 <= p -> 0 <= d -> p * 10 + d < 65536 -> digit (ps ++ [p]) d = ps ++ [p * 10 + d].
Proof.
  intros Hp Hd Hlt. unfold digit. rewrite length_app. simpl. replace (pred (List.length ps + 1)) with (List.length ps + 0)%nat by lia.
  rewrite alter_app_r. simpl. do 2 f_equal. lia.
Qed.

Lemma read_twice x y t : to_read x (to_read y t) = to_read x t.
Proof. done. Qed.

Lemma digits_read fuel : forall n t ps, t_read t = Sequence (ps ++ [0]) -> 0 <= n < 65536 -> n < 10 ^ Z.of_nat fuel ->
  foldl term_step t (digits fuel n) = to_read (Sequence (ps ++ [n])) t.
Proof.
  induction fuel as [|fuel IH]; intros n t ps Er Hn Hf.
  { simpl in *. assert (n = 0) as -> by lia. destruct t. simpl in *. by subst. }
  cbn [digits]. destruct (Z.ltb_spec n 10) as [Hs|Hs].
  - simpl. rewrite (digit_step t (ps ++ [0])) by (done || lia). by rewrite digit_last by lia.
  - rewrite foldl_app, (IH (n / 10) t ps Er); [|Z.div_mod_to_equations; lia|].
    + simpl. rewrite (digit_step _ (ps ++ [n / 10])); [|done|Z.div_mod_to_equations; lia].
      rewrite digit_last by (Z.div_mod_to_equations; lia). rewrite read_twice. do 4 f_equal. Z.div_mod_to_equations. lia.
    + rewrite Nat2Z.inj_succ, Z.pow_succ_r in Hf by lia. Z.div_mod_to_equations. lia.
Qed.

Lemma params_read qs : forall ps t, t_read t = Sequence (ps ++ [0]) -> Forall (fun p => 0 <= p < 65536) qs -> qs <> [] ->
  (List.length ps + List.length qs <= 8)%nat -> foldl term_step t (join_params qs) = to_read (Sequence (ps ++ qs)) t.
Proof.
  induction qs as [|q qs IH]; intros ps t Er HF Hne Hl; [done|]. apply Forall_cons in HF as [Hq HF]. unfold decimal in *.
  destruct qs as [|q' qs]; [simpl; by apply digits_read; [done|done|lia]|]. change (join_params (q :: q' :: qs)) with (digits 5 q ++ [59] ++ join_params (q' :: qs)).
  rewrite !foldl_app, (digits_read 5 q t ps) by (done || simpl; lia). simpl foldl at 2. set (t1 := term_step _ 59).
  assert (t1 = to_read (Sequence ((ps ++ [q]) ++ [0])) t) as ->.
  { unfold t1, term_step. simpl. unfold next_param. rewrite length_app. simpl. simpl in Hl.
    rewrite (proj2 (Nat.ltb_lt _ _)) by lia. done. }
  rewrite (IH (ps ++ [q])); [|done|done|done|rewrite length_app; simpl in *; lia]. rewrite read_twice. do 2 f_equal. by rewrite <- app_assoc.
Qed.

(** A sequence with its parameters runs its command. *)
Lemma csi_read t ps b :
  t_read t = Text -> Forall (fun p => 0 <= p < 65536) ps -> (1 <= List.length ps <= 8)%nat -> in_range 64 126 b = true ->
  foldl term_step t (csi ps b) = to_read Text (command b ps (to_read (Sequence ps) t)).
Proof.
  intros Er HF Hl Hb. unfold csi. rewrite !foldl_app. simpl foldl at 3.
  assert (term_step (term_step t 27) 91 = to_read (Sequence ([] ++ [0])) t) as -> by (unfold term_step; rewrite Er; done).
  rewrite (params_read ps []); [|done|done|by destruct ps; [simpl in Hl; lia|]|simpl; lia]. simpl. unfold term_step. simpl.
  unfold in_range in *. rewrite andb_true_iff, !Z.leb_le in Hb. rewrite (proj2 (Z.eqb_neq b 63)), (proj2 (Z.eqb_neq b 59)) by lia.
  rewrite (proj2 (Z.leb_gt b 57)) by lia. by rewrite andb_false_r.
Qed.

(** ** Claims *)

(** A cleared screen. *)
Definition fresh : Vga := mkVga (mkWriter 0 0 DEFAULT_ATTR DEFAULT_ATTR Normal (zeros MAX_PARAMS) 0 0 0) (fun _ => 0) [].
Definition fresh_term : Term := mkTerm 0 0 7 7 (0, 0) Text (fun _ _ => (0, 0)).

Lemma fresh_shows : shows fresh fresh_term.
Proof. by split. Qed.

(** C28: the screen driver is a terminal.  Whatever bytes a program writes, the driver never panics
    and never touches memory outside the 4000 bytes of the frame buffer, and afterwards the frame
    buffer, the cursor, the colours and the reader of escape sequences are those of a reference
    terminal [term_step] (a grid of 25 by 80 cells with text, scrolling, tabulators, and the
    commands for the cursor, erasing and colours) that has read the same bytes; the hardware cursor is
    moved to the terminal's. *)
Theorem screen_is_terminal (s : list Z) (v : Vga) (t : Term) :
  shows v t ->
  wp (write_str s) v (fun _ v' =>
    let t' := foldl term_step t s in
    shows v' t' /\ elsewhere v v' /\ ports v' = ports v ++ cursor_writes (t_row t' * 80 + t_col t')).
Proof.
  intros Hs. unfold write_str. apply wp_bind. eapply wp_mono; [by apply bytes_implement|]. intros _ v1 [Hs1 [Ho Hp]].
  apply (wp_move_cursor _ _ _ Hs1). rewrite Hp. split_and!; [|done|done]. destruct Hs1. by split.
Qed.

(** Two lines and a coloured word; the cells of the second line. *)
Lemma screen_is_terminal_witness :
  wp (write_str ([104; 105; 10] ++ csi [31; 1] 109 ++ [111; 107])) fresh (fun _ v' =>
    cells v' 0 1 = (105, 7) /\ cells v' 1 0 = (111, 12) /\ cells v' 1 1 = (107, 12) /\ cells v' 1 2 = (32, 7) /\
    ports v' = [(0x3D4, 14); (0x3D5, 0); (0x3D4, 15); (0x3D5, 82)]).
Proof.
  eapply wp_mono; [apply (screen_is_terminal _ fresh fresh_term fresh_shows)|]. intros _ v' (Hs & _ & Hp).
  rewrite !(sh_cells _ _ Hs) by (split; lia). rewrite Hp. by vm_compute.
Defined.

(** The escape sequences do what their numbers say.  For any list of one to eight parameters
    below 65536 and any final byte, the bytes of the control sequence (escape, left bracket, the
    decimal parameters separated by semicolons, the final byte) bring the driver to the state of the
    command [b] with exactly these parameters; in particular the final byte H with parameters [r]
    and [c] puts the cursor on row [r] and column [c], counted from one, and leaves the picture alone. *)
Theorem sequences_roundtrip (ps : list Z) (b : Z) (v : Vga) (t : Term) :
  shows v t -> t_read t = Text -> Forall (fun p => 0 <= p < 65536) ps -> (1 <= List.length ps <= 8)%nat -> in_range 64 126 b = true ->
  wp (write_str (csi ps b)) v (fun _ v' =>
    shows v' (to_read Text (command b ps (to_read (Sequence ps) t))) /\
    forall r c, ps = [r; c] -> b = 72 -> 1 <= r <= 25 -> 1 <= c <= 80 ->
      row (WRITER v') = r - 1 /\ col (WRITER v') = c - 1 /\ forall r' c', in_grid r' c' -> cells v' r' c' = cells v r' c').
Proof.
  intros Hs Er HF Hl Hb. unfold write_str. apply wp_bind. eapply wp_mono; [by apply bytes_implement|]. intros _ v1 [Hs1 _].
  rewrite csi_read in Hs1 by done. apply (wp_move_cursor _ _ _ Hs1).
  assert (shows (mkVga (WRITER v1) (fb v1) (ports v1 ++ cursor_writes (t_row (to_read Text (command b ps (to_read (Sequence ps) t))) * 80 +
    t_col (to_read Text (command b ps (to_read (Sequence ps) t)))))) (to_read Text (command b ps (to_read (Sequence ps) t)))) as Hs2 by (destruct Hs1; by split).
  split; [exact Hs2|]. intros r c -> -> Hr Hc. rewrite (proj1 (sh_row _ _ Hs2)), (proj1 (sh_col _ _ Hs2)). simpl. unfold arg. simpl.
  rewrite (proj2 (Z.eqb_neq r 0)), (proj2 (Z.eqb_neq c 0)) by lia. split_and!; [lia|lia|].
  intros r' c' Hg. transitivity (cell t r' c'); [exact (sh_cells _ _ Hs2 r' c' Hg)|symmetry; exact (sh_cells _ _ Hs r' c' Hg)].
Qed.

Lemma sequences_roundtrip_witness :
  wp (write_str (csi [12; 40] 72)) fresh (fun _ v' => row (WRITER v') = 11 /\ col (WRITER v') = 39).
Proof.
  eapply wp_mono; [apply (sequences_roundtrip [12; 40] 72 fresh fresh_term fresh_shows); [done| |simpl; lia|done]|].
  - repeat (constructor; [lia|]). constructor.
  - intros _ v' [_ H]. destruct (H 12 40) as (? & ? & _); [done|done|lia|lia|done].
Defined.
