(* ===== verification/Proc.v ===== *)
(** Parents and children (src/userprog/process.rs): the registry of process states and the
    protocol of [execute], [wait], [wait_any_child] and [exit_with_status].

    A semaphore is its value.  Code that may wait in [down], or give up the processor in [up] or
    in [thread::create], is cut into segments at these points: [Blocks k] is a thread inside
    [down] on the semaphore of [k], and [resume k] is the rest of its code once the value is
    positive.  [Wait.step] interleaves the segments. *)
From S2P Require Import Prelude Btree.

Record ProcessState := mkProc {
  ps_tid : Z;
  parent_tid : Z;
  exit_status : Z;
  exited : bool;
  waited : bool;
  wait_sema : Z;
  load_sema : Z;
  load_success : bool;
  executable_sector : option Z;
}.

(** An entry of the table of mapped files. *)
Record MmapEntry := mkMmap { mapid : Z; mm_fd : Z; mm_sector : Z; uaddr : Z; mm_length : Z }.

Record Procs := mkProcs {
  PROCESS_STATES : gmap Z ProcessState;
  PARENT_WAIT_SEMAS : gmap Z Z;
  MMAP_TABLE : gmap Z (list MmapEntry);
  NEXT_MAPID : Z;
}.
Definition with_states (x : gmap Z ProcessState) (p : Procs) : Procs :=
  mkProcs x (PARENT_WAIT_SEMAS p) (MMAP_TABLE p) (NEXT_MAPID p).
Definition with_semas (x : gmap Z Z) (p : Procs) : Procs :=
  mkProcs (PROCESS_STATES p) x (MMAP_TABLE p) (NEXT_MAPID p).
Definition with_mmaps (x : gmap Z (list MmapEntry)) (n : Z) (p : Procs) : Procs :=
  mkProcs (PROCESS_STATES p) (PARENT_WAIT_SEMAS p) x n.

Definition set_parent (x : Z) (p : ProcessState) : ProcessState :=
  mkProc (ps_tid p) x (exit_status p) (exited p) (waited p) (wait_sema p) (load_sema p) (load_success p) (executable_sector p).
Definition set_exited (st : Z) (p : ProcessState) : ProcessState :=
  mkProc (ps_tid p) (parent_tid p) st true (waited p) (wait_sema p) (load_sema p) (load_success p) (executable_sector p).
Definition set_waited (p : ProcessState) : ProcessState :=
  mkProc (ps_tid p) (parent_tid p) (exit_status p) (exited p) true (wait_sema p) (load_sema p) (load_success p) (executable_sector p).
Definition set_wait_sema (x : Z) (p : ProcessState) : ProcessState :=
  mkProc (ps_tid p) (parent_tid p) (exit_status p) (exited p) (waited p) x (load_sema p) (load_success p) (executable_sector p).
Definition set_load_sema (x : Z) (p : ProcessState) : ProcessState :=
  mkProc (ps_tid p) (parent_tid p) (exit_status p) (exited p) (waited p) (wait_sema p) x (load_success p) (executable_sector p).
Definition set_load_success (x : bool) (p : ProcessState) : ProcessState :=
  mkProc (ps_tid p) (parent_tid p) (exit_status p) (exited p) (waited p) (wait_sema p) (load_sema p) x (executable_sector p).
Definition set_executable (x : option Z) (p : ProcessState) : ProcessState :=
  mkProc (ps_tid p) (parent_tid p) (exit_status p) (exited p) (waited p) (wait_sema p) (load_sema p) (load_success p) x.

Definition lookup_state (tid : Z) : M Procs (option ProcessState) := gets (fun p => PROCESS_STATES p !! tid).
Definition put_state (tid : Z) (x : ProcessState) : M Procs unit :=
  modify (fun p => with_states (<[tid := x]> (PROCESS_STATES p)) p).
Definition remove_state (tid : Z) : M Procs (option ProcessState) :=
  let! x := lookup_state tid in
  modify (fun p => with_states (delete tid (PROCESS_STATES p)) p) ;;
  ret x.
(** [get(&tid).expect(why)] *)
Definition expect_state (tid : Z) (why : string) : M Procs ProcessState :=
  let! x := lookup_state tid in
  match x with Some x => ret x | None => panic why end.

(** [init] *)
Definition init : Procs := mkProcs ∅ ∅ ∅ 1.

(** [if !parent_wait_semas().contains_key(&tid) { insert(tid, Semaphore::new(0)) }] *)
Definition ensure_sema (tid : Z) : M Procs unit :=
  modify (fun p => match PARENT_WAIT_SEMAS p !! tid with
                   | Some _ => p
                   | None => with_semas (<[tid := 0]> (PARENT_WAIT_SEMAS p)) p
                   end).

(** ** Waiting *)

(** A thread inside [down]: on the [wait_sema] of a process, called by [wait] itself or from
    [wait_any_child]; on the semaphore of a parent; on the [load_sema] of a new process. *)
Inductive kont : Set :=
| KWait (tid : Z) (any : bool)
| KAny (parent : Z)
| KExecute (tid : Z).

Inductive answer : Set :=
| Status (st : Z)
| Child (pid st : Z)
| Tid (tid : Z).

Inductive res : Set := Returns (a : answer) | Blocks (k : kont).

(** What [wait] answers with status [st], to its two callers. *)
Definition reply (tid : Z) (any : bool) (st : Z) : answer := if any then Child tid st else Status st.

Definition wait_on (tid : Z) (any : bool) : M Procs res :=
  let! x := lookup_state tid in
  match x with
  | None => ret (Returns (reply tid any (-1)))
  | Some ps =>
      if waited ps then ret (Returns (reply tid any (-1)))
      else
        put_state tid (set_waited ps) ;;
        ret (Blocks (KWait tid any))
  end.
Definition wait (tid : Z) : M Procs res := wait_on tid false.

(** The tail of [wait]: [down] takes the token. *)
Definition waited_for (tid : Z) (any : bool) : M Procs res :=
  let! x := lookup_state tid in
  match x with
  | None => ub "semaphore of a dropped process state"
  | Some ps =>
      let! v := u32_sub (wait_sema ps) 1 in
      put_state tid (set_wait_sema v ps) ;;
      let! y := remove_state tid in
      match y with
      | None => panic "wait: process state vanished during wait"
      | Some ps => ret (Returns (reply tid any (exit_status ps)))
      end
  end.

Definition is_dead_child (parent : Z) (kv : Z * ProcessState) : bool :=
  (parent_tid (snd kv) =? parent) && exited (snd kv) && negb (waited (snd kv)).
Definition is_child (parent : Z) (kv : Z * ProcessState) : bool :=
  (parent_tid (snd kv) =? parent) && negb (waited (snd kv)).

(** One turn of the loop of [wait_any_child]. *)
Definition any_turn (parent : Z) : M Procs res :=
  let! m := gets PROCESS_STATES in
  match List.find (is_dead_child parent) (btree_iter m) with
  | Some (tid, _) => wait_on tid true
  | None =>
      if existsb (is_child parent) (btree_iter m) then ret (Blocks (KAny parent))
      else ret (Returns (Child (-1) (-1)))
  end.

Definition wait_any_child (parent : Z) : M Procs res :=
  ensure_sema parent ;;
  any_turn parent.

(** [parent_wait_semas().get_mut(&parent_tid).unwrap().down()], and the next turn *)
Definition any_woken (parent : Z) : M Procs res :=
  let! s := gets (fun p => PARENT_WAIT_SEMAS p !! parent) in
  match s with
  | None => ub "semaphore of a dropped parent"
  | Some v =>
      let! v := u32_sub v 1 in
      modify (fun p => with_semas (<[parent := v]> (PARENT_WAIT_SEMAS p)) p) ;;
      any_turn parent
  end.

(** ** New processes *)
Definition new_state (tid parent load : Z) (ok : bool) (sector : option Z) : ProcessState :=
  mkProc tid parent (-1) false false 0 load ok sector.

(** [execute] after [thread::create] has returned [tid]. *)
Definition execute_created (tid parent : Z) : M Procs res :=
  put_state tid (new_state tid parent 0 false None) ;;
  ensure_sema parent ;;
  expect_state tid "execute: process state missing after insert" ;;
  ret (Blocks (KExecute tid)).

Definition executed (tid : Z) : M Procs res :=
  let! x := lookup_state tid in
  match x with
  | None => ub "semaphore of a dropped process state"
  | Some ps =>
      let! v := u32_sub (load_sema ps) 1 in
      put_state tid (set_load_sema v ps) ;;
      let! y := lookup_state tid in
      let load_ok := from_option load_success false y in
      if negb load_ok then remove_state tid ;; ret (Returns (Tid (-1)))
      else ret (Returns (Tid tid))
  end.

(** [start_process] tells the parent whether the program could be loaded. *)
Definition signal_load (tid : Z) (ok : bool) : M Procs unit :=
  let! x := lookup_state tid in
  match x with
  | None => ret tt
  | Some ps =>
      let! v := u32_add (load_sema ps) 1 in
      put_state tid (set_load_sema v (set_load_success ok ps))
  end.

(** [fork]: the registry after [thread::create] has returned [tid]. *)
Definition forked (tid parent : Z) : M Procs (option Z) :=
  let! px := lookup_state parent in
  let exec_sector := px ≫= executable_sector in
  put_state tid (new_state tid parent 1 true exec_sector) ;;
  ensure_sema parent ;;
  ret exec_sector.

(** ** Exit: three segments, separated by the two calls of [up]. *)

(** [ps.executable_sector.take()]; the caller re-allows writes and closes the inode. *)
Definition take_executable (tid : Z) : M Procs (option Z) :=
  let! x := lookup_state tid in
  match x with
  | None => ret None
  | Some ps => put_state tid (set_executable None ps) ;; ret (executable_sector ps)
  end.

Definition exit_signal_parent (tid : Z) : M Procs unit :=
  let! x := lookup_state tid in
  match x with
  | None => ret tt
  | Some ps =>
      let! s := gets (fun p => PARENT_WAIT_SEMAS p !! parent_tid ps) in
      match s with
      | None => ret tt
      | Some v =>
          let! v := u32_add v 1 in
          modify (fun p => with_semas (<[parent_tid ps := v]> (PARENT_WAIT_SEMAS p)) p)
      end
  end.

Definition exit_record (tid status : Z) : M Procs unit :=
  let! x := lookup_state tid in
  match x with
  | None => ret tt
  | Some ps =>
      let! v := u32_add (wait_sema ps) 1 in
      put_state tid (set_wait_sema v (set_exited status ps))
  end.

(** A child of the exiting process: removed when it is dead, else given to process 1. *)
Definition orphan (child : Z) : M Procs unit :=
  let! x := lookup_state child in
  if from_option exited false x then remove_state child ;; ret tt
  else match x with
       | Some ps => put_state child (set_parent 1 ps)
       | None => ret tt
       end.

Definition exit_children (tid : Z) : M Procs unit :=
  let! m := gets PROCESS_STATES in
  let children := fst <$> List.filter (fun kv => parent_tid (snd kv) =? tid) (btree_iter m) in
  for_each children orphan ;;
  modify (fun p => with_semas (delete tid (PARENT_WAIT_SEMAS p)) p).

(** ** Files mapped into memory *)
Definition allocate_mapid : M Procs Z :=
  let! id := gets NEXT_MAPID in
  let! n := i32_add id 1 in
  modify (fun p => with_mmaps (MMAP_TABLE p) n p) ;;
  ret id.

Definition add_mmap (tid : Z) (entry : MmapEntry) : M Procs unit :=
  modify (fun p => with_mmaps (<[tid := default [] (MMAP_TABLE p !! tid) ++ [entry]]> (MMAP_TABLE p)) (NEXT_MAPID p) p).

Fixpoint position {A} (f : A -> bool) (l : list A) : option nat :=
  match l with
  | [] => None
  | x :: l' => if f x then Some O else S <$> position f l'
  end.

Definition remove_mmap (tid id : Z) : M Procs (option MmapEntry) :=
  let! t := gets MMAP_TABLE in
  match t !! tid with
  | None => ret None
  | Some entries =>
      match position (fun e => mapid e =? id) entries with
      | None => ret None
      | Some pos =>
          modify (fun p => with_mmaps (<[tid := delete pos entries]> (MMAP_TABLE p)) (NEXT_MAPID p) p) ;;
          ret (entries !! pos)
      end
  end.

Definition mmap_overlaps (tid addr len : Z) : M Procs bool :=
  let! t := gets MMAP_TABLE in
  let! r := for_ret (default [] (t !! tid)) (fun e =>
    let! e_end := u32_add (uaddr e) (mm_length e) in
    let! new_end := u32_add addr len in
    if (addr <? e_end) && (uaddr e <? new_end) then ret (Some true) else ret None) in
  ret (default false r).
