(* ===== verification/Wait.v ===== *)
(** Interleaving of the wait protocol of [Proc]: what threads do between two scheduling points,
    the invariant of runs in which [up] and [thread::create] do not give up the processor, and a
    run in which they do. *)
From S2P Require Import Prelude Btree Proc.

(** ** The system *)
Inductive tstate : Set :=
| Idle
| Loading
| Sleeping (k : kont)
| Dying (st : Z)
| Dead.

(** The registry, the threads, the statuses passed to [exit], and the statuses collected. *)
Record Sys := mkSys {
  reg : Procs;
  ts : gmap Z tstate;
  died : gmap Z Z;
  got : list (Z * Z);
}.

Definition sema_of (k : kont) (p : Procs) : Z :=
  match k with
  | KWait tid _ => from_option wait_sema 0 (PROCESS_STATES p !! tid)
  | KAny parent => default 0 (PARENT_WAIT_SEMAS p !! parent)
  | KExecute tid => from_option load_sema 0 (PROCESS_STATES p !! tid)
  end.

Definition resume (k : kont) : M Procs res :=
  match k with
  | KWait tid any => waited_for tid any
  | KAny parent => any_woken parent
  | KExecute tid => executed tid
  end.

(** The state of a thread whose call ended with [r], and what it collected. *)
Definition after (r : res) : tstate := match r with Returns _ => Idle | Blocks k => Sleeping k end.
Definition collected (k : kont) (r : res) : list (Z * Z) :=
  match k, r with
  | KWait tid _, Returns (Status st) => [(tid, st)]
  | KWait tid _, Returns (Child _ st) => [(tid, st)]
  | _, _ => []
  end.

Definition unused (c : Z) (s : Sys) : Prop := ts s !! c = None /\ died s !! c = None /\ PROCESS_STATES (reg s) !! c = None.

(** The whole of [exit_with_status] as far as the registry goes. *)
Definition exit_all (tid st : Z) : M Procs unit :=
  take_executable tid ;; exit_signal_parent tid ;; exit_record tid st ;; exit_children tid.

(** Steps in which no segment is interrupted by another thread. *)
Inductive step (s : Sys) : Sys -> Prop :=
| step_fork p c x r : ts s !! p = Some Idle -> unused c s -> forked c p (reg s) = Ok x r ->
    step s (mkSys r (<[c := Idle]> (ts s)) (died s) (got s))
| step_execute p c x r : ts s !! p = Some Idle -> unused c s -> execute_created c p (reg s) = Ok x r ->
    step s (mkSys r (<[c := Loading]> (<[p := after x]> (ts s))) (died s) (got s))
| step_load c ok r : ts s !! c = Some Loading -> signal_load c ok (reg s) = Ok tt r ->
    step s (mkSys r (<[c := if ok then Idle else Dead]> (ts s)) (died s) (got s))
| step_wait p c ps x r : ts s !! p = Some Idle -> PROCESS_STATES (reg s) !! c = Some ps -> parent_tid ps = p -> wait c (reg s) = Ok x r ->
    step s (mkSys r (<[p := after x]> (ts s)) (died s) (got s))
| step_wait_any p x r : ts s !! p = Some Idle -> wait_any_child p (reg s) = Ok x r ->
    step s (mkSys r (<[p := after x]> (ts s)) (died s) (got s))
| step_resume p k x r : ts s !! p = Some (Sleeping k) -> 0 < sema_of k (reg s) -> resume k (reg s) = Ok x r ->
    step s (mkSys r (<[p := after x]> (ts s)) (died s) (collected k x ++ got s))
| step_exit p st r : ts s !! p = Some Idle -> exit_all p st (reg s) = Ok tt r ->
    step s (mkSys r (<[p := Dead]> (ts s)) (<[p := st]> (died s)) (got s)).

Definition boot : Sys := mkSys init {[1 := Idle]} ∅ [].

Inductive reachable : Sys -> Prop :=
| reach_boot : reachable boot
| reach_step s s' : reachable s -> step s s' -> reachable s'.

(** ** The invariant *)
Record entry_ok (s : Sys) (c : Z) (ps : ProcessState) : Prop := {
  eo_exited : died s !! c = if exited ps then Some (exit_status ps) else None;
  eo_sema : wait_sema ps = if exited ps then 1 else 0;
  eo_waited : waited ps = true -> exists any, ts s !! parent_tid ps = Some (Sleeping (KWait c any));
}.

Record sys_ok (s : Sys) : Prop := {
  so_entries : forall c ps, PROCESS_STATES (reg s) !! c = Some ps -> entry_ok s c ps;
  so_wait : forall p c any, ts s !! p = Some (Sleeping (KWait c any)) ->
    exists ps, PROCESS_STATES (reg s) !! c = Some ps /\ waited ps = true /\ parent_tid ps = p;
  so_any : forall p q, ts s !! p = Some (Sleeping (KAny q)) -> q = p /\ exists v, PARENT_WAIT_SEMAS (reg s) !! p = Some v /\
    ((exists c ps, PROCESS_STATES (reg s) !! c = Some ps /\ is_dead_child p (c, ps) = true) -> 0 < v);
  so_exec : forall p c, ts s !! p = Some (Sleeping (KExecute c)) -> exists ps, PROCESS_STATES (reg s) !! c = Some ps /\ parent_tid ps = p;
  so_semas : forall p v, PARENT_WAIT_SEMAS (reg s) !! p = Some v -> 0 <= v;
  so_known : forall c, is_Some (died s !! c) -> ts s !! c = Some Dead;
  so_got : forall c st, (c, st) ∈ got s -> died s !! c = Some st /\ PROCESS_STATES (reg s) !! c = None;
  so_once : NoDup (got s).*1;
}.

(** *** What the segments do to the registry *)
Definition ensured (p : Z) (m : gmap Z Z) : gmap Z Z := match m !! p with Some _ => m | None => <[p := 0]> m end.

Lemma ensured_lookup p m q : ensured p m !! q = if decide (q = p) then Some (default 0 (m !! p)) else m !! q.
Proof.
  unfold ensured. destruct (m !! p) as [v|] eqn:E.
  - case_decide; [by subst|done].
  - case_decide as Hd; [subst; by rewrite lookup_insert_eq|by rewrite lookup_insert_ne].
Qed.

Lemma ensure_sema_at p r : ensure_sema p r = Ok tt (with_semas (ensured p (PARENT_WAIT_SEMAS r)) r).
Proof. unfold ensure_sema, modify, ensured. destruct (PARENT_WAIT_SEMAS r !! p); [by destruct r|done]. Qed.

(** The entry of a child of [tid] after [tid] has exited. *)
Definition orphaned (tid : Z) (x : option ProcessState) : option ProcessState :=
  match x with
  | Some ps => if parent_tid ps =? tid then if exited ps then None else Some (set_parent 1 ps) else Some ps
  | None => None
  end.

Lemma wp_exit_children tid r (Q : unit -> Procs -> Prop) :
  (forall m, (forall c, m !! c = orphaned tid (PROCESS_STATES r !! c)) ->
     Q tt (with_semas (delete tid (PARENT_WAIT_SEMAS r)) (with_states m r))) -> wp (exit_children tid) r Q.
Proof.
  intros HQ. unfold exit_children. apply wp_bind, wp_gets. set (m0 := PROCESS_STATES r).
  set (kids := fst <$> List.filter (fun kv => parent_tid (snd kv) =? tid) (btree_iter m0)).
  assert (forall c, c ∈ kids <-> exists ps, m0 !! c = Some ps /\ parent_tid ps = tid) as Hkids.
  { intros c. unfold kids. rewrite list_elem_of_fmap. split.
    - intros ([c' ps] & -> & Hin). apply list_elem_of_In, filter_In in Hin as [Hin%list_elem_of_In Hp%Z.eqb_eq].
      exists ps. split; [by apply elem_of_btree_iter|done].
    - intros (ps & Hps & Hp). exists (c, ps). split; [done|]. apply list_elem_of_In, filter_In. split; [|by apply Z.eqb_eq].
      by apply list_elem_of_In, elem_of_btree_iter. }
  apply wp_bind, (wp_for_each (fun pre r' => exists m, r' = with_states m r /\
    forall c, m !! c = if decide (c ∈ pre) then orphaned tid (m0 !! c) else m0 !! c)).
  - exists m0. split; [by destruct r|]. intros c. by rewrite decide_False by apply not_elem_of_nil.
  - intros pre c post r' E (m & -> & Hm). assert (c ∈ kids) as (ps & Hps & Hp)%Hkids by (rewrite E; set_solver).
    assert (NoDup kids) as Hnd.
    { unfold kids. pose proof (btree_iter_keys m0) as Hk. revert Hk. generalize (btree_iter m0) as l. clear. induction l as [|kv l IH]; simpl; [done|].
      intros [Hni Hnd]%NoDup_cons. destruct (parent_tid kv.2 =? tid); [|by apply IH]. rewrite fmap_cons. apply NoDup_cons. split; [|by apply IH].
      intros (kv' & Ek & Hin)%list_elem_of_fmap. apply Hni. rewrite Ek. apply list_elem_of_fmap. exists kv'. split; [done|].
      apply list_elem_of_In. by apply list_elem_of_In, filter_In in Hin as [? _]. }
    assert (c ∉ pre) as Hni. { rewrite E in Hnd. apply NoDup_app in Hnd as (_ & Hd & _). intros Hc. apply (Hd c Hc). by left. }
    unfold orphan, lookup_state. apply wp_bind, wp_gets. simpl. rewrite Hm, decide_False, Hps by done. simpl. destruct (exited ps) eqn:Ex.
    + unfold remove_state, lookup_state. apply wp_bind, wp_bind, wp_gets, wp_bind, wp_modify, wp_ret, wp_ret.
      exists (delete c m). split; [done|]. intros c'. destruct (decide (c' = c)) as [->|Hne].
      * rewrite lookup_delete_eq, decide_True by set_solver. rewrite Hps. simpl. by rewrite (proj2 (Z.eqb_eq _ _) Hp), Ex.
      * rewrite lookup_delete_ne, Hm by done. destruct (decide (c' ∈ pre)); [by rewrite decide_True by set_solver|by rewrite decide_False by set_solver].
    + apply wp_modify. exists (<[c := set_parent 1 ps]> m). split; [done|]. intros c'. destruct (decide (c' = c)) as [->|Hne].
      * rewrite lookup_insert_eq, decide_True by set_solver. rewrite Hps. simpl. by rewrite (proj2 (Z.eqb_eq _ _) Hp), Ex.
      * rewrite lookup_insert_ne, Hm by done. destruct (decide (c' ∈ pre)); [by rewrite decide_True by set_solver|by rewrite decide_False by set_solver].
  - intros r' (m & -> & Hm). apply wp_modify. apply HQ. intros c. rewrite Hm. case_decide as Hc; [done|].
    fold m0. unfold orphaned. destruct (m0 !! c) as [ps|] eqn:Eps; [|done]. destruct (Z.eqb_spec (parent_tid ps) tid); [|done].
    destruct Hc. apply Hkids. by exists ps.
Qed.

(** The entry of a process that has exited with [st]. *)
Definition finished (st : Z) (ps : ProcessState) : ProcessState :=
  set_wait_sema (wait_sema ps + 1) (set_exited st (set_executable None ps)).

Lemma exit_children_inv tid r r' : exit_children tid r = Ok tt r' ->
  exists m, r' = with_semas (delete tid (PARENT_WAIT_SEMAS r)) (with_states m r) /\ forall c, m !! c = orphaned tid (PROCESS_STATES r !! c).
Proof.
  intros E. assert (wp (exit_children tid) r (fun _ x => exists m, x = with_semas (delete tid (PARENT_WAIT_SEMAS r)) (with_states m r) /\
    forall c, m !! c = orphaned tid (PROCESS_STATES r !! c))) as H by (apply wp_exit_children; intros m Hm; by exists m).
  unfold wp in H. by rewrite E in H.
Qed.

Lemma u32_add_inv {S} a b (s s' : S) x : u32_add a b s = Ok x s' -> x = a + b /\ s' = s.
Proof. unfold u32_add. destruct (_ <? _); [|done]. by intros [= <- <-]. Qed.
Lemma u32_sub_inv {S} a b (s s' : S) x : u32_sub a b s = Ok x s' -> x = a - b /\ s' = s.
Proof. unfold u32_sub. destruct (_ <=? _); [|done]. by intros [= <- <-]. Qed.

Lemma bind_inv {S A B} (m : M S A) (k : A -> M S B) s b s' :
  bind m k s = Ok b s' -> exists a s1, m s = Ok a s1 /\ k a s1 = Ok b s'.
Proof. unfold bind. destruct (m s) as [a s1|w|w|] eqn:E; try done. by exists a, s1. Qed.

Lemma exit_all_inv tid st r r' : exit_all tid st r = Ok tt r' ->
  exists m sm, r' = with_semas (delete tid sm) (with_states m r) /\
    (forall c, m !! c = orphaned tid (if decide (c = tid) then finished st <$> PROCESS_STATES r !! tid else PROCESS_STATES r !! c)) /\
    (forall q, sm !! q = if decide (parent_tid <$> PROCESS_STATES r !! tid = Some q) then Z.succ <$> PARENT_WAIT_SEMAS r !! q else PARENT_WAIT_SEMAS r !! q).
Proof.
  unfold exit_all. intros (x0 & r0 & E0 & (u1 & r1 & E1 & (u2 & r2 & E2 & E3)%bind_inv)%bind_inv)%bind_inv.
  unfold take_executable, exit_signal_parent, exit_record, lookup_state, put_state, gets, modify, ret, bind in E0, E1, E2.
  destruct u1, u2. apply exit_children_inv in E3 as (m & -> & Hm).
  destruct (PROCESS_STATES r !! tid) as [ps|] eqn:Eps.
  2:{ injection E0 as <- <-. rewrite Eps in E1. injection E1 as <-. rewrite Eps in E2. injection E2 as <-.
      exists m, (PARENT_WAIT_SEMAS r). split; [done|]. split; [|done]. intros c. rewrite Hm. case_decide; [by subst; rewrite Eps|done]. }
  injection E0 as <- <-. simpl in E1. rewrite lookup_insert_eq in E1. simpl in E1.
  assert (exists sm, r1 = with_semas sm (with_states (<[tid := set_executable None ps]> (PROCESS_STATES r)) r) /\
    forall q, sm !! q = if decide (Some (parent_tid ps) = Some q) then Z.succ <$> PARENT_WAIT_SEMAS r !! q else PARENT_WAIT_SEMAS r !! q) as (sm & -> & Hsm).
  { destruct (PARENT_WAIT_SEMAS r !! parent_tid ps) as [v|] eqn:Ev.
    - destruct (u32_add v 1 _) as [v' s'|w|w|] eqn:Ea; try done. apply u32_add_inv in Ea as [-> ->]. injection E1 as <-.
      exists (<[parent_tid ps := v + 1]> (PARENT_WAIT_SEMAS r)). split; [done|]. intros q. case_decide as Hd.
      + injection Hd as <-. by rewrite lookup_insert_eq, Ev.
      + by rewrite lookup_insert_ne by congruence.
    - injection E1 as <-. exists (PARENT_WAIT_SEMAS r). split; [by destruct r|]. intros q. case_decide as Hd; [|done].
      injection Hd as <-. by rewrite Ev. }
  simpl in E2. rewrite lookup_insert_eq in E2. simpl in E2.
  destruct (u32_add (wait_sema ps) 1 _) as [v' s'|w|w|] eqn:Ea; try done. apply u32_add_inv in Ea as [-> ->]. injection E2 as <-.
  exists m, sm. split; [done|]. split; [|done]. intros c. rewrite Hm. simpl.
  destruct (decide (c = tid)) as [->|Hne]; [by rewrite lookup_insert_eq|]. by rewrite !lookup_insert_ne by done.
Qed.

(** *** Every step keeps the invariant *)

(** Splits on whether an updated map is read at the updated key. *)
Ltac at_key H a b :=
  destruct (decide (a = b)) as [->|H]; [rewrite ?lookup_insert_eq in *|rewrite ?(lookup_insert_ne _ b a) in * by congruence].

(** A thread that was not waiting for a child goes on or dies. *)
Lemma thread_ok s p x y : sys_ok s -> ts s !! p = Some x -> x <> Dead -> (forall c any, x <> Sleeping (KWait c any)) -> (forall k, y <> Sleeping k) ->
  sys_ok (mkSys (reg s) (<[p := y]> (ts s)) (died s) (got s)).
Proof.
  intros [Oe Ow Oa Ox Os Ok_ Og Oo] Hp Hx Hk Hy. split; simpl; try done.
  - intros c ps Hps. destruct (Oe c ps Hps) as [A B C]. split; [done|done|]. intros Hw. destruct (C Hw) as [any Ha]. exists any. simpl.
    rewrite lookup_insert_ne; [done|]. intros E. rewrite <- E, Hp in Ha. injection Ha as ->. by destruct (Hk c any).
  - intros q c any. at_key Hne q p; [intros [= ->]; by destruct (Hy (KWait c any))|]. apply Ow.
  - intros q q'. at_key Hne q p; [intros [= ->]; by destruct (Hy (KAny q'))|]. apply Oa.
  - intros q c. at_key Hne q p; [intros [= ->]; by destruct (Hy (KExecute c))|]. apply Ox.
  - intros c Hd. rewrite lookup_insert_ne; [by apply Ok_|]. intros ->. rewrite (Ok_ _ Hd) in Hp. by injection Hp as <-.
Qed.

(** An entry changes in the fields that only loading uses. *)
Lemma touched_ok s c ps v b : sys_ok s -> PROCESS_STATES (reg s) !! c = Some ps ->
  sys_ok (mkSys (with_states (<[c := set_load_sema v (set_load_success b ps)]> (PROCESS_STATES (reg s))) (reg s)) (ts s) (died s) (got s)).
Proof.
  intros [Oe Ow Oa Ox Os Ok_ Og Oo] Hc. split; simpl; try done.
  - intros c' ps'. at_key Hne c' c; [intros [= <-]; by destruct (Oe c ps Hc)|]. intros Hps'. by destruct (Oe c' ps' Hps').
  - intros q c' any Hs'. destruct (Ow q c' any Hs') as (ps' & Hps' & H). at_key Hne c' c; [|by exists ps']. eexists. split; [done|]. by simplify_eq.
  - intros q q' Hs'. destruct (Oa q q' Hs') as [-> (w & Hw & Hd)]. split; [done|]. exists w. split; [done|]. intros (c' & ps' & Hps' & Hdead). apply Hd.
    at_key Hne c' c; [|by exists c', ps']. injection Hps' as <-. by exists c, ps.
  - intros q c' Hs'. destruct (Ox q c' Hs') as (ps' & Hps' & H). at_key Hne c' c; [|by exists ps']. eexists. split; [done|]. by simplify_eq.
  - intros c' st Hg. destruct (Og c' st Hg) as [E1 E2]. split; [done|]. rewrite lookup_insert_ne; [done|]. congruence.
Qed.

Lemma load_ok s c ok r : sys_ok s -> ts s !! c = Some Loading -> signal_load c ok (reg s) = Ok tt r ->
  sys_ok (mkSys r (<[c := if ok then Idle else Dead]> (ts s)) (died s) (got s)).
Proof.
  intros Hok Hc E. assert (sys_ok (mkSys r (ts s) (died s) (got s))) as Hr.
  { unfold signal_load, lookup_state, put_state, gets, modify, ret, bind in E. destruct (PROCESS_STATES (reg s) !! c) as [ps|] eqn:Eps.
    - destruct (u32_add _ _ _) as [v s'|w|w|] eqn:Ea; try done. apply u32_add_inv in Ea as [-> ->]. injection E as <-. by apply touched_ok.
    - injection E as <-. by destruct s. }
  apply (thread_ok _ c Loading _ Hr); try done. by destruct ok.
Qed.

Section steps.
Context (s : Sys) (Hok : sys_ok s).

(** A new process. *)
Lemma born_ok c p x load ok sector y :
  ts s !! p = Some Idle -> unused c s -> (forall k, x = Sleeping k -> False) -> (y = Idle \/ y = Sleeping (KExecute c)) ->
  sys_ok (mkSys (with_semas (ensured p (PARENT_WAIT_SEMAS (reg s))) (with_states (<[c := new_state c p load ok sector]> (PROCESS_STATES (reg s))) (reg s)))
    (<[c := x]> (<[p := y]> (ts s))) (died s) (got s)).
Proof.
  intros Hp (Hc1 & Hc2 & Hc3) Hx Hy. assert (p <> c) as Hpc by congruence. destruct Hok as [Oe Ow Oa Ox Os Ok_ Og Oo].
  assert (forall q k, q <> p -> (<[c := x]> (<[p := y]> (ts s))) !! q = Some (Sleeping k) <-> ts s !! q = Some (Sleeping k)) as Hq.
  { intros q k Hqp. at_key Hqc q c; [split; [intros [= E]; by destruct (Hx k)|congruence]|]. by rewrite lookup_insert_ne. }
  assert ((<[c := x]> (<[p := y]> (ts s))) !! p = Some y) as Hyp by (by rewrite lookup_insert_ne, lookup_insert_eq).
  assert (forall q c' any, ts s !! q = Some (Sleeping (KWait c' any)) -> (<[c := x]> (<[p := y]> (ts s))) !! q = Some (Sleeping (KWait c' any))) as Hkeep.
  { intros q c' any H. apply Hq; [congruence|done]. }
  split; simpl.
  - intros c' ps. at_key Hne c' c.
    + intros [= <-]. split; simpl; try done.
    + intros Hps. destruct (Oe c' ps Hps) as [E1 E2 E3]. split; [done|done|]. intros Hw. destruct (E3 Hw) as [any Ha]. exists any. by apply Hkeep.
  - intros q c' any. destruct (decide (q = p)) as [->|Hqp]; [rewrite Hyp; intros [= ->]; by destruct Hy|]. rewrite Hq by done. intros Hs'.
    destruct (Ow q c' any Hs') as (ps & Hps & Hrest). exists ps. rewrite lookup_insert_ne by congruence. done.
  - intros q q' . destruct (decide (q = p)) as [->|Hqp]; [rewrite Hyp; intros [= ->]; by destruct Hy|]. rewrite Hq by done. intros Hs'.
    destruct (Oa q q' Hs') as [-> (v & Hv & Hd)]. split; [done|]. exists v. rewrite ensured_lookup, decide_False by done. split; [done|].
    intros (c' & ps & Hps & Hdead). apply Hd. exists c', ps. split; [|done]. at_key Hne c' c; [|done]. injection Hps as <-. unfold is_dead_child in Hdead. simpl in Hdead. by rewrite andb_false_r in Hdead.
  - intros q c'. destruct (decide (q = p)) as [->|Hqp].
    + rewrite Hyp. intros [= ->]. destruct Hy as [|[= ->]]; [done|]. exists (new_state c p load ok sector). by rewrite lookup_insert_eq.
    + rewrite Hq by done. intros Hs'. destruct (Ox q c' Hs') as (ps & Hps & Hpp). exists ps. rewrite lookup_insert_ne by congruence. done.
  - intros q v. rewrite ensured_lookup. case_decide; [|apply Os]. intros [= <-]. destruct (PARENT_WAIT_SEMAS (reg s) !! p) eqn:E; simpl; [by eapply Os|lia].
  - intros c' Hd. rewrite !lookup_insert_ne; [by apply Ok_| |].
    + intros ->. by rewrite (Ok_ _ Hd) in Hp.
    + intros ->. destruct Hd as [? Hd]. congruence.
  - intros c' st Hg. destruct (Og c' st Hg) as [E1 E2]. split; [done|]. rewrite lookup_insert_ne; [done|]. intros ->. congruence.
  - done.
Qed.

Lemma fork_ok p c x r : ts s !! p = Some Idle -> unused c s -> forked c p (reg s) = Ok x r -> sys_ok (mkSys r (<[c := Idle]> (ts s)) (died s) (got s)).
Proof.
  intros Hp Hc E. unfold forked, lookup_state, put_state, gets, modify, ret, bind in E. rewrite ensure_sema_at in E. injection E as <- <-.
  rewrite <- (insert_id (ts s) p Idle) by done. apply born_ok; [done|done|done|by left].
Qed.

Lemma execute_ok p c x r : ts s !! p = Some Idle -> unused c s -> execute_created c p (reg s) = Ok x r ->
  sys_ok (mkSys r (<[c := Loading]> (<[p := after x]> (ts s))) (died s) (got s)).
Proof.
  intros Hp Hc E. unfold execute_created, expect_state, lookup_state, put_state, gets, modify, ret, bind in E. rewrite ensure_sema_at in E. simpl in E.
  rewrite lookup_insert_eq in E. injection E as <- <-. apply born_ok; [done|done|done|by right].
Qed.

(** A child is marked as waited for. *)
Lemma wait_ok p c ps any x r :
  ts s !! p = Some Idle -> PROCESS_STATES (reg s) !! c = Some ps -> parent_tid ps = p -> wait_on c any (reg s) = Ok x r ->
  sys_ok (mkSys r (<[p := after x]> (ts s)) (died s) (got s)).
Proof.
  intros Hp Hc Hpar E. unfold wait_on, lookup_state, put_state, gets, modify, ret, bind in E. rewrite Hc in E.
  destruct (waited ps) eqn:Ew; injection E as <- <-; simpl.
  { rewrite insert_id by done. by destruct s. }
  destruct Hok as [Oe Ow Oa Ox Os Ok_ Og Oo].
  assert (forall q k, q <> p -> (<[p := Sleeping (KWait c any)]> (ts s)) !! q = Some (Sleeping k) <-> ts s !! q = Some (Sleeping k)) as Hq.
  { intros q k Hne. by rewrite lookup_insert_ne. }
  split; simpl.
  - intros c' ps'. at_key Hne c' c.
    + intros [= <-]. destruct (Oe c ps Hc) as [A B _]. split; simpl; [done|done|]. intros _. exists any. by rewrite Hpar, lookup_insert_eq.
    + intros Hps'. destruct (Oe c' ps' Hps') as [A B C]. split; [done|done|]. intros Hw. destruct (C Hw) as [any' Ha]. exists any'. apply Hq; [congruence|done].
  - intros q c' any'. at_key Hne q p.
    + intros [= <- <-]. exists (set_waited ps). by rewrite lookup_insert_eq.
    + intros Hs'. destruct (Ow q c' any' Hs') as (ps' & Hps' & Hw & Hp'). exists ps'. rewrite lookup_insert_ne; [done|]. intros ->. congruence.
  - intros q q'. at_key Hne q p; [done|]. intros Hs'. destruct (Oa q q' Hs') as [-> (v & Hv & Hd)]. split; [done|]. exists v. split; [done|].
    intros (c' & ps' & Hps' & Hdead). apply Hd. at_key Hne' c' c; [|by exists c', ps']. injection Hps' as <-.
    unfold is_dead_child in Hdead. simpl in Hdead. by rewrite andb_false_r in Hdead.
  - intros q c'. at_key Hne q p; [done|]. intros Hs'. destruct (Ox q c' Hs') as (ps' & Hps' & Hp'). at_key Hne' c' c; [|by exists ps'].
    exists (set_waited ps). split; [done|]. simpl. congruence.
  - done.
  - intros c' Hd. rewrite lookup_insert_ne; [by apply Ok_|]. intros ->. by rewrite (Ok_ _ Hd) in Hp.
  - intros c' st Hg. destruct (Og c' st Hg) as [E1 E2]. split; [done|]. rewrite lookup_insert_ne; [done|]. congruence.
  - done.
Qed.

Lemma turn_ok p x r :
  ts s !! p = Some Idle -> is_Some (PARENT_WAIT_SEMAS (reg s) !! p) -> any_turn p (reg s) = Ok x r ->
  sys_ok (mkSys r (<[p := after x]> (ts s)) (died s) (got s)).
Proof.
  intros Hp [v Hv] E. unfold any_turn, gets, bind in E.
  destruct (List.find (is_dead_child p) (btree_iter (PROCESS_STATES (reg s)))) as [[c ps]|] eqn:Ef.
  { apply find_some in Ef as [Hin%list_elem_of_In Hdead]. apply elem_of_btree_iter in Hin. unfold is_dead_child in Hdead. simpl in Hdead.
    rewrite !andb_true_iff, Z.eqb_eq in Hdead. destruct Hdead as [[Hpar _] _]. exact (wait_ok p c ps true x r Hp Hin Hpar E). }
  destruct (existsb _ _); injection E as <- <-; simpl; [|rewrite insert_id by done; by destruct s].
  destruct Hok as [Oe Ow Oa Ox Os Ok_ Og Oo].
  assert (forall q k, q <> p -> (<[p := Sleeping (KAny p)]> (ts s)) !! q = Some (Sleeping k) <-> ts s !! q = Some (Sleeping k)) as Hq.
  { intros q k Hne. by rewrite lookup_insert_ne. }
  split; simpl; try done.
  - intros c ps Hps. destruct (Oe c ps Hps) as [A B C]. split; [done|done|]. intros Hw. destruct (C Hw) as [any Ha]. exists any. apply Hq; [congruence|done].
  - intros q c any. at_key Hne q p; [done|]. apply Ow.
  - intros q q'. at_key Hne q p; [|apply Oa]. intros [= <-]. split; [done|]. exists v. split; [done|]. intros (c & ps & Hps & Hdead).
    apply elem_of_btree_iter in Hps. by rewrite (Btree.find_none _ _ Ef _ Hps) in Hdead.
  - intros q c. at_key Hne q p; [done|]. apply Ox.
  - intros c Hd. rewrite lookup_insert_ne; [by apply Ok_|]. intros ->. by rewrite (Ok_ _ Hd) in Hp.
Qed.
End steps.

(** A parent makes sure it has a semaphore. *)
Lemma ensure_ok s p : sys_ok s -> sys_ok (mkSys (with_semas (ensured p (PARENT_WAIT_SEMAS (reg s))) (reg s)) (ts s) (died s) (got s)).
Proof.
  intros [Oe Ow Oa Ox Os Ok_ Og Oo]. split; simpl; try done.
  - intros c ps Hps. by destruct (Oe c ps Hps).
  - intros q q' Hs'. destruct (Oa q q' Hs') as [-> (v & Hv & Hd)]. split; [done|]. exists v. rewrite ensured_lookup. split; [|done].
    case_decide; [subst; by rewrite Hv|done].
  - intros q v. rewrite ensured_lookup. case_decide; [|apply Os]. intros [= <-]. destruct (PARENT_WAIT_SEMAS (reg s) !! p) eqn:E; simpl; [by eapply Os|lia].
Qed.

Lemma wait_any_ok s p x r :
  sys_ok s -> ts s !! p = Some Idle -> wait_any_child p (reg s) = Ok x r -> sys_ok (mkSys r (<[p := after x]> (ts s)) (died s) (got s)).
Proof.
  intros Hok Hp E. unfold wait_any_child, bind in E. rewrite ensure_sema_at in E.
  apply (turn_ok _ (ensure_ok s p Hok)); [done| |done]. simpl. rewrite ensured_lookup, decide_True by done. by eexists.
Qed.

(** Taking a token of a parent that is not asleep. *)
Lemma token_ok s p v : sys_ok s -> ts s !! p = Some Idle -> 0 <= v ->
  sys_ok (mkSys (with_semas (<[p := v]> (PARENT_WAIT_SEMAS (reg s))) (reg s)) (ts s) (died s) (got s)).
Proof.
  intros [Oe Ow Oa Ox Os Ok_ Og Oo] Hp Hv. split; simpl; try done.
  - intros c ps Hps. by destruct (Oe c ps Hps).
  - intros q q' Hs'. destruct (Oa q q' Hs') as [-> (w & Hw & Hd)]. split; [done|]. exists w. rewrite lookup_insert_ne by congruence. done.
  - intros q w. at_key Hne q p; [by intros [= <-]|]. apply Os.
Qed.

(** The entry of a child nobody waits for goes away. *)
Lemma removed_ok s c m : sys_ok s -> (forall p any, ts s !! p <> Some (Sleeping (KWait c any))) -> (forall p, ts s !! p <> Some (Sleeping (KExecute c))) ->
  (forall c', m !! c' = if decide (c' = c) then None else PROCESS_STATES (reg s) !! c') ->
  sys_ok (mkSys (with_states m (reg s)) (ts s) (died s) (got s)).
Proof.
  intros [Oe Ow Oa Ox Os Ok_ Og Oo] Hw He Hm. split; simpl; try done.
  - intros c' ps. rewrite Hm. case_decide; [done|]. intros Hps. by destruct (Oe c' ps Hps).
  - intros q c' any Hs'. destruct (Ow q c' any Hs') as (ps & Hps & H). exists ps. rewrite Hm, decide_False; [done|]. intros ->. by apply (Hw q any).
  - intros q q' Hs'. destruct (Oa q q' Hs') as [-> (v & Hv & Hd)]. split; [done|]. exists v. split; [done|]. intros (c' & ps & Hps & Hdead). apply Hd.
    rewrite Hm in Hps. case_decide; [done|]. by exists c', ps.
  - intros q c' Hs'. destruct (Ox q c' Hs') as (ps & Hps & H). exists ps. rewrite Hm, decide_False; [done|]. intros ->. by apply (He q).
  - intros c' st Hg. destruct (Og c' st Hg) as [E1 E2]. split; [done|]. rewrite Hm. by case_decide.
Qed.

Lemma woken_ok s p q x r :
  sys_ok s -> ts s !! p = Some (Sleeping (KAny q)) -> 0 < sema_of (KAny q) (reg s) -> any_woken q (reg s) = Ok x r ->
  sys_ok (mkSys r (<[p := after x]> (ts s)) (died s) (got s)).
Proof.
  intros Hok Hp Hv E. destruct (so_any _ Hok p q Hp) as [-> (v & Hpv & _)]. unfold any_woken, gets, modify, bind in E. simpl in Hv. rewrite Hpv in Hv, E. simpl in Hv.
  destruct (u32_sub v 1 (reg s)) as [v' s'|w|w|] eqn:Es; try done. apply u32_sub_inv in Es as [-> ->].
  pose proof (thread_ok s p _ Idle Hok Hp ltac:(done) ltac:(done) ltac:(done)) as H1.
  apply (token_ok _ p (v - 1)) in H1; [|simpl; by rewrite lookup_insert_eq|lia]. simpl in H1.
  pose proof (turn_ok _ H1 p x r) as H2. simpl in H2. rewrite insert_insert_eq in H2. apply H2; [apply lookup_insert_eq|rewrite lookup_insert_eq; by eexists|done].
Qed.

Lemma executed_ok s p c x r :
  sys_ok s -> ts s !! p = Some (Sleeping (KExecute c)) -> executed c (reg s) = Ok x r -> sys_ok (mkSys r (<[p := after x]> (ts s)) (died s) (got s)).
Proof.
  intros Hok Hp E. destruct (so_exec _ Hok p c Hp) as (ps & Hps & Hpar).
  unfold executed, remove_state, lookup_state, put_state, gets, modify, ret, bind in E. rewrite Hps in E.
  destruct (u32_sub (load_sema ps) 1 (reg s)) as [v s'|w|w|] eqn:Es; try done. apply u32_sub_inv in Es as [-> ->]. simpl in E. rewrite lookup_insert_eq in E. simpl in E.
  pose proof (thread_ok s p _ Idle Hok Hp ltac:(done) ltac:(done) ltac:(done)) as H1.
  pose proof (touched_ok _ c ps (load_sema ps - 1) (load_success ps) H1 Hps) as H2. simpl in H2.
  replace (set_load_success (load_success ps) ps) with ps in H2 by (by destruct ps).
  destruct (load_success ps); simpl in E; injection E as <- <-; [done|]. simpl.
  refine (removed_ok _ c _ H2 _ _ _); simpl.
  - intros q any Hq. at_key Hne q p; [done|]. destruct (so_wait _ Hok q c any Hq) as (ps' & Hps' & Hw & Hp'). congruence.
  - intros q Hq. at_key Hne q p; [done|]. destruct (so_exec _ Hok q c Hq) as (ps' & Hps' & Hp'). congruence.
  - intros c'. case_decide; [subst; apply lookup_delete_eq|by rewrite lookup_delete_ne].
Qed.

Lemma collected_ok s p c any x r :
  sys_ok s -> ts s !! p = Some (Sleeping (KWait c any)) -> 0 < sema_of (KWait c any) (reg s) -> waited_for c any (reg s) = Ok x r ->
  exists st, died s !! c = Some st /\ x = Returns (reply c any st) /\
    sys_ok (mkSys r (<[p := after x]> (ts s)) (died s) (collected (KWait c any) x ++ got s)).
Proof.
  intros Hok Hp Hv E. destruct (so_wait _ Hok p c any Hp) as (ps & Hps & Hw & Hpar). simpl in Hv. rewrite Hps in Hv. simpl in Hv.
  destruct (so_entries _ Hok c ps Hps) as [A B _]. assert (exited ps = true) as Hex by (destruct (exited ps); [done|lia]). rewrite Hex in A.
  unfold waited_for, remove_state, lookup_state, put_state, gets, modify, ret, bind in E. rewrite Hps in E.
  destruct (u32_sub (wait_sema ps) 1 (reg s)) as [v s'|w|w|] eqn:Es; try done. apply u32_sub_inv in Es as [-> ->]. simpl in E. rewrite lookup_insert_eq in E. simpl in E.
  injection E as <- <-. exists (exit_status ps). split; [done|]. split; [done|].
  assert (collected (KWait c any) (Returns (reply c any (exit_status ps))) = [(c, exit_status ps)]) as -> by (by destruct any).
  destruct Hok as [Oe Ow Oa Ox Os Ok_ Og Oo]. rewrite delete_insert_eq.
  split; simpl; try done.
  - intros c' ps'. destruct (decide (c' = c)) as [->|Hne]; [by rewrite lookup_delete_eq|]. rewrite lookup_delete_ne by done. intros Hps'.
    destruct (Oe c' ps' Hps') as [A' B' C']. split; [done|done|]. intros Hw'. destruct (C' Hw') as [any' Ha]. exists any'. simpl. rewrite lookup_insert_ne; [done|].
    intros E. rewrite <- E, Hp in Ha. congruence.
  - intros q c' any'. at_key Hne q p; [done|]. intros Hq. destruct (Ow q c' any' Hq) as (ps' & Hps' & Hw' & Hp'). exists ps'. rewrite lookup_delete_ne; [done|]. congruence.
  - intros q q'. at_key Hne q p; [done|]. intros Hq. destruct (Oa q q' Hq) as [-> (w & Hw' & Hd)]. split; [done|]. exists w. split; [done|]. intros (c' & ps' & Hps' & Hdead).
    apply Hd. exists c', ps'. split; [|done]. by apply lookup_delete_Some in Hps' as [_ ?].
  - intros q c'. at_key Hne q p; [done|]. intros Hq. destruct (Ox q c' Hq) as (ps' & Hps' & Hp'). exists ps'. rewrite lookup_delete_ne; [done|]. congruence.
  - intros c' Hd. rewrite lookup_insert_ne; [by apply Ok_|]. intros ->. by rewrite (Ok_ _ Hd) in Hp.
  - intros c' st [[= -> ->]|Hg]%elem_of_cons; [split; [done|apply lookup_delete_eq]|]. destruct (Og c' st Hg) as [E1 E2]. split; [done|].
    destruct (decide (c' = c)) as [->|Hne]; [apply lookup_delete_eq|by rewrite lookup_delete_ne].
  - apply NoDup_cons. split; [|done]. intros ([c' st] & -> & Hg)%list_elem_of_fmap. destruct (Og _ _ Hg) as [_ E]. simpl in *. congruence.
Qed.


Lemma exit_ok s p st r : sys_ok s -> ts s !! p = Some Idle -> exit_all p st (reg s) = Ok tt r ->
  sys_ok (mkSys r (<[p := Dead]> (ts s)) (<[p := st]> (died s)) (got s)).
Proof.
  intros [Oe Ow Oa Ox Os Ok_ Og Oo] Hp E. apply exit_all_inv in E as (m & sm & -> & Hm & Hsm).
  assert (died s !! p = None) as Hlive.
  { destruct (died s !! p) eqn:Ed; [|done]. rewrite (Ok_ p) in Hp; [done|]. by rewrite Ed. }
  assert (forall c ps, PROCESS_STATES (reg s) !! c = Some ps -> parent_tid ps = p -> waited ps = false) as Hnw.
  { intros c ps Hps Hpar. destruct (waited ps) eqn:Ew; [|done]. destruct (eo_waited _ _ _ (Oe c ps Hps) Ew) as [any Ha]. congruence. }
  assert (forall c ps, m !! c = Some ps -> exists ps0, PROCESS_STATES (reg s) !! c = Some ps0 /\ waited ps = waited ps0 /\
    (parent_tid ps = parent_tid ps0 \/ waited ps0 = false /\ exited ps = false) /\
    (c <> p -> exited ps = exited ps0 /\ exit_status ps = exit_status ps0 /\ wait_sema ps = wait_sema ps0) /\
    (c = p -> exited ps = true /\ exit_status ps = st /\ wait_sema ps = wait_sema ps0 + 1)) as Hback.
  { intros c ps. rewrite Hm. destruct (decide (c = p)) as [->|Hne].
    - destruct (PROCESS_STATES (reg s) !! p) as [ps0|]; [|done]. simpl. destruct (_ =? p); [done|]. intros [= <-]. exists ps0. simpl. naive_solver.
    - destruct (PROCESS_STATES (reg s) !! c) as [ps0|] eqn:Eps; [|done]. simpl. destruct (Z.eqb_spec (parent_tid ps0) p) as [Hpar|]; [|naive_solver].
      destruct (exited ps0) eqn:Ex; [done|]. intros [= <-]. exists ps0. simpl. naive_solver. }
  assert (forall q c ps, q <> p -> PROCESS_STATES (reg s) !! c = Some ps -> parent_tid ps = q ->
    exists ps', m !! c = Some ps' /\ waited ps' = waited ps /\ parent_tid ps' = q) as Hfwd.
  { intros q c ps Hqp Hps Hpar. rewrite Hm. destruct (decide (c = p)) as [->|]; rewrite Hps; simpl; rewrite (proj2 (Z.eqb_neq _ _)) by congruence; by eexists. }
  assert (forall q v, delete p sm !! q = Some v -> 0 <= v) as Hpos.
  { intros q v [_ Hq]%lookup_delete_Some. rewrite Hsm in Hq. case_decide; [|by apply (Os q)]. apply fmap_Some in Hq as (w & Hw & ->). pose proof (Os q w Hw). lia. }
  split; simpl; [| | | |done| | |done].
  - intros c ps Hc. destruct (Hback c ps Hc) as (ps0 & Hps0 & Hw & Hpar & Hno & Hyes). destruct (Oe c ps0 Hps0) as [A B C]. split; simpl.
    + at_key Hne c p; [destruct (Hyes eq_refl) as (-> & -> & _); done|]. by destruct (Hno Hne) as (-> & -> & _).
    + destruct (decide (c = p)) as [->|Hne]; [|destruct (Hno Hne) as (-> & _ & ->); done]. destruct (Hyes eq_refl) as (-> & _ & ->).
      rewrite B. rewrite Hlive in A. by destruct (exited ps0).
    + rewrite Hw. intros Hw0. destruct Hpar as [->|[? _]]; [|congruence]. destruct (C Hw0) as [any Ha]. exists any. rewrite lookup_insert_ne; [done|]. congruence.
  - intros q c any. at_key Hne q p; [done|]. intros Hq. destruct (Ow q c any Hq) as (ps & Hps & Hw & Hpar).
    destruct (Hfwd q c ps Hne Hps Hpar) as (ps' & ? & ? & ?). exists ps'. split; [done|]. split; congruence.
  - intros q q'. at_key Hne q p; [done|]. intros Hq. destruct (Oa q q' Hq) as [-> (v & Hv & Hd)]. split; [done|].
    assert (exists v', delete p sm !! q = Some v' /\ v <= v' /\ (parent_tid <$> PROCESS_STATES (reg s) !! p = Some q -> 0 < v')) as (v' & Hv' & Hle & Hup).
    { rewrite lookup_delete_ne, Hsm, Hv by done. pose proof (Os q v Hv). case_decide; eexists; (split; [done|]); split; try lia; done. }
    exists v'. split; [done|]. intros (c & ps & Hps & Hdead). destruct (Hback c ps Hps) as (ps0 & Hps0 & Hw & Hpar & Hno & Hyes).
    unfold is_dead_child in Hdead. simpl in Hdead. rewrite !andb_true_iff, Z.eqb_eq, negb_true_iff in Hdead. destruct Hdead as [[Hqpar Hex] Hnw'].
    destruct Hpar as [Hpar|[_ ?]]; [|congruence]. destruct (decide (c = p)) as [->|Hcp].
    + apply Hup. rewrite Hps0. simpl. congruence.
    + destruct (Hno Hcp) as (Hex' & _ & _). enough (0 < v) by lia. apply Hd. exists c, ps0. split; [done|]. unfold is_dead_child. simpl.
      rewrite <- Hpar, Hqpar, Z.eqb_refl, <- Hex', Hex, <- Hw, Hnw'. done.
  - intros q c. at_key Hne q p; [done|]. intros Hq. destruct (Ox q c Hq) as (ps & Hps & Hpar).
    destruct (Hfwd q c ps Hne Hps Hpar) as (ps' & ? & _ & ?). by exists ps'.
  - intros c Hd. at_key Hne c p; [done|]. by apply Ok_.
  - intros c st' Hg. destruct (Og c st' Hg) as [E1 E2]. assert (c <> p) by congruence. rewrite lookup_insert_ne by done. split; [done|].
    rewrite Hm, decide_False, E2 by done. done.
Qed.

Lemma proc_step_ok s s' : sys_ok s -> step s s' -> sys_ok s'.
Proof.
  intros Hok Hs. inversion Hs; subst.
  - by eapply fork_ok.
  - by eapply execute_ok.
  - by apply load_ok.
  - by eapply wait_ok.
  - by apply wait_any_ok.
  - destruct k as [c any|q|c]; simpl in *.
    + by destruct (collected_ok s p c any x r) as (st & _ & _ & ?).
    + by eapply woken_ok.
    + by eapply executed_ok.
  - by apply exit_ok.
Qed.

Lemma reachable_ok s : reachable s -> sys_ok s.
Proof.
  induction 1 as [|s s' _ IH Hs]; [|by apply (proc_step_ok s)]. split; simpl; try done.
  - intros p c any [_ ?]%lookup_singleton_Some. done.
  - intros p q [_ ?]%lookup_singleton_Some. done.
  - intros p c [_ ?]%lookup_singleton_Some. done.
  - intros c [st Hst]. by rewrite lookup_empty in Hst.
  - intros c st H. by apply elem_of_nil in H.
  - constructor.
Qed.


(** ** Claims *)

(** Delivery to a sleeper whose child has exited. *)
Lemma delivered s p c any st : sys_ok s -> ts s !! p = Some (Sleeping (KWait c any)) -> died s !! c = Some st ->
  0 < sema_of (KWait c any) (reg s) /\ exists r, resume (KWait c any) (reg s) = Ok (Returns (reply c any st)) r /\ PROCESS_STATES r !! c = None.
Proof.
  intros Hok Hp Hd. destruct (so_wait _ Hok p c any Hp) as (ps & Hps & Hw & Hpar). destruct (so_entries _ Hok c ps Hps) as [A B _].
  rewrite Hd in A. destruct (exited ps) eqn:Ex; [|done]. injection A as ->. simpl. rewrite Hps. simpl. rewrite B. split; [lia|].
  unfold waited_for, remove_state, lookup_state, put_state, gets, modify, ret, bind. rewrite Hps, B. simpl. rewrite lookup_insert_eq.
  eexists. split; [done|]. apply lookup_delete_eq.
Qed.

(** C29: In every state reachable by forks, executions, waits and exits whose segments are not
    interrupted: a status is collected at most once and is the one the child passed to [exit]; a
    thread inside [wait] whose child has exited can always go on, answers that child's status and
    takes the child out of the registry. *)
Theorem statuses_delivered s : reachable s ->
  NoDup (got s).*1 /\
  (forall c st, (c, st) ∈ got s -> died s !! c = Some st /\ PROCESS_STATES (reg s) !! c = None) /\
  (forall p c any st, ts s !! p = Some (Sleeping (KWait c any)) -> died s !! c = Some st ->
     0 < sema_of (KWait c any) (reg s) /\
     exists r, resume (KWait c any) (reg s) = Ok (Returns (reply c any st)) r /\ PROCESS_STATES r !! c = None).
Proof.
  intros Hok%reachable_ok. split; [exact (so_once _ Hok)|]. split; [exact (so_got _ Hok)|]. intros p c any st. by apply delivered.
Qed.

(** The registry after [m]. *)
Definition registry_after {A} (m : M Procs A) (r : Procs) : Procs := match m r with Ok _ r' => r' | _ => r end.

(** Thread 1 forks process 5; the child exits with 7 while its parent waits for any child. *)
Definition demo_forked : Sys := mkSys (registry_after (forked 5 1) init) (<[5 := Idle]> {[1 := Idle]}) ∅ [].
Definition demo_waiting : Sys := mkSys (registry_after (wait_any_child 1) (reg demo_forked)) (<[1 := Sleeping (KAny 1)]> (ts demo_forked)) ∅ [].
Definition demo_exited : Sys := mkSys (registry_after (exit_all 5 7) (reg demo_waiting)) (<[5 := Dead]> (ts demo_waiting)) (<[5 := 7]> ∅) [].
Definition demo_woken : Sys := mkSys (registry_after (any_woken 1) (reg demo_exited)) (<[1 := Sleeping (KWait 5 true)]> (ts demo_exited)) (<[5 := 7]> ∅) [].

Lemma demo_exited_reachable : reachable demo_exited.
Proof.
  apply (reach_step demo_waiting); [|refine (step_exit demo_waiting 5 7 _ _ _); vm_compute; reflexivity].
  apply (reach_step demo_forked); [|refine (step_wait_any demo_forked 1 (Blocks (KAny 1)) _ _ _); vm_compute; reflexivity].
  apply (reach_step boot); [constructor|].
  refine (step_fork boot 1 5 None _ _ _ _); [vm_compute; reflexivity|repeat split; vm_compute; reflexivity|vm_compute; reflexivity].
Qed.

Lemma demo_woken_reachable : reachable demo_woken.
Proof.
  apply (reach_step demo_exited); [apply demo_exited_reachable|].
  refine (step_resume demo_exited 1 (KAny 1) (Blocks (KWait 5 true)) _ _ _ _); vm_compute; reflexivity.
Qed.

Lemma statuses_delivered_witness : reachable demo_woken /\
  exists r, resume (KWait 5 true) (reg demo_woken) = Ok (Returns (Child 5 7)) r.
Proof.
  split; [apply demo_woken_reachable|].
  destruct (statuses_delivered demo_woken demo_woken_reachable) as (_ & _ & H).
  destruct (H 1 5 true 7) as (_ & r & E & _); [vm_compute; reflexivity|vm_compute; reflexivity|]. exists r. exact E.
Defined.

(** C36: In every such reachable state a parent asleep in [wait_any_child] that has an exited child
    nobody waits for is not stuck: its semaphore is positive, the next turn of its loop finds such
    a child, and the call to [wait] answers that child's tid and exit status. *)
Theorem no_lost_wakeup s p q c0 ps0 : reachable s -> ts s !! p = Some (Sleeping (KAny q)) ->
  PROCESS_STATES (reg s) !! c0 = Some ps0 -> is_dead_child p (c0, ps0) = true ->
  q = p /\ 0 < sema_of (KAny p) (reg s) /\
  exists c st r1 r2, any_woken p (reg s) = Ok (Blocks (KWait c true)) r1 /\ 0 < sema_of (KWait c true) r1 /\
    died s !! c = Some st /\ resume (KWait c true) r1 = Ok (Returns (Child c st)) r2.
Proof.
  intros Hok%reachable_ok Hp Hc0 Hd0. destruct (so_any _ Hok p q Hp) as [-> (v & Hv & Hpos)]. split; [done|].
  assert (0 < v) as Hv0 by (apply Hpos; by exists c0, ps0). simpl. rewrite Hv. split; [done|].
  set (r0 := with_semas (<[p := v - 1]> (PARENT_WAIT_SEMAS (reg s))) (reg s)).
  assert (exists c ps, PROCESS_STATES (reg s) !! c = Some ps /\ is_dead_child p (c, ps) = true /\
    any_woken p (reg s) = Ok (Blocks (KWait c true)) (with_states (<[c := set_waited ps]> (PROCESS_STATES (reg s))) r0)) as (c & ps & Hc & Hdead & Hw).
  { unfold any_woken, gets, modify, bind. rewrite Hv. unfold u32_sub. rewrite (proj2 (Z.leb_le _ _)) by lia. simpl. fold r0.
    unfold any_turn, gets, bind. change (PROCESS_STATES r0) with (PROCESS_STATES (reg s)).
    destruct (List.find (is_dead_child p) (btree_iter (PROCESS_STATES (reg s)))) as [[c ps]|] eqn:Ef.
    2:{ apply elem_of_btree_iter in Hc0. by rewrite (Btree.find_none _ _ Ef _ Hc0) in Hd0. }
    apply find_some in Ef as [Hin%list_elem_of_In Hdead]. apply elem_of_btree_iter in Hin. exists c, ps. split; [done|]. split; [done|].
    unfold wait_on, lookup_state, put_state, gets, modify, ret, bind. change (PROCESS_STATES r0) with (PROCESS_STATES (reg s)). rewrite Hin.
    unfold is_dead_child in Hdead. simpl in Hdead. destruct (waited ps); [by rewrite andb_false_r in Hdead|]. done. }
  pose proof (so_entries _ Hok c ps Hc) as [A B _]. unfold is_dead_child in Hdead. simpl in Hdead. rewrite !andb_true_iff in Hdead.
  destruct Hdead as [[_ Hex] _]. rewrite Hex in A, B. exists c, (exit_status ps), (with_states (<[c := set_waited ps]> (PROCESS_STATES (reg s))) r0).
  unfold resume, waited_for, remove_state, lookup_state, put_state, gets, modify, ret, bind, sema_of. simpl. rewrite !lookup_insert_eq. simpl. rewrite B.
  simpl. rewrite !lookup_insert_eq. eexists. done.
Qed.


Lemma no_lost_wakeup_witness : reachable demo_exited /\ 0 < sema_of (KAny 1) (reg demo_exited) /\
  exists c st r1 r2, any_woken 1 (reg demo_exited) = Ok (Blocks (KWait c true)) r1 /\ resume (KWait c true) r1 = Ok (Returns (Child c st)) r2.
Proof.
  split; [apply demo_exited_reachable|].
  destruct (no_lost_wakeup demo_exited 1 1 5 (mkProc 5 1 7 true false 1 1 true None) demo_exited_reachable) as (_ & Hpos & c & st & r1 & r2 & E1 & _ & _ & E2);
    [vm_compute; reflexivity|vm_compute; reflexivity|vm_compute; reflexivity|].
  split; [exact Hpos|]. exists c, st, r1, r2. split; [exact E1|exact E2].
Defined.

(** ** Interrupted exits: the timer may stop an exiting thread after it has signalled its parent
    and before it has recorded that it has exited. *)
Inductive pstep (s : Sys) : Sys -> Prop :=
| pstep_step s' : step s s' -> pstep s s'
| pstep_signal p st r : ts s !! p = Some Idle -> (take_executable p ;; exit_signal_parent p) (reg s) = Ok tt r ->
    pstep s (mkSys r (<[p := Dying st]> (ts s)) (died s) (got s))
| pstep_record p st r : ts s !! p = Some (Dying st) -> (exit_record p st ;; exit_children p) (reg s) = Ok tt r ->
    pstep s (mkSys r (<[p := Dead]> (ts s)) (<[p := st]> (died s)) (got s)).

(** The child of [demo_waiting] is stopped in the middle of its exit; its parent finds no exited
    child and sleeps again. *)
Definition lost_signalled : Sys :=
  mkSys (registry_after (take_executable 5 ;; exit_signal_parent 5) (reg demo_waiting)) (<[5 := Dying 7]> (ts demo_waiting)) ∅ [].
Definition lost_asleep : Sys :=
  mkSys (registry_after (any_woken 1) (reg lost_signalled)) (<[1 := Sleeping (KAny 1)]> (ts lost_signalled)) ∅ [].
Definition lost_final : Sys :=
  mkSys (registry_after (exit_record 5 7 ;; exit_children 5) (reg lost_asleep)) (<[5 := Dead]> (ts lost_asleep)) (<[5 := 7]> ∅) [].

Lemma lost_final_threads p t : ts lost_final !! p = Some t -> t = Dead \/ p = 1 /\ t = Sleeping (KAny 1).
Proof.
  unfold lost_final, lost_asleep, lost_signalled, demo_waiting, demo_forked. simpl. destruct (decide (p = 5)) as [->|H5].
  - rewrite lookup_insert_eq. intros [= <-]. by left.
  - rewrite lookup_insert_ne by done. destruct (decide (p = 1)) as [->|H1].
    + rewrite lookup_insert_eq. intros [= <-]. by right.
    + rewrite !lookup_insert_ne by done. intros [? _]%lookup_singleton_Some. congruence.
Qed.

(** With exits that can be interrupted a wakeup is lost: there is a run in which the parent
    sleeps in [wait_any_child] although its only child has exited and nobody waits for that child,
    the semaphore is zero, and no thread can take a step. *)
Theorem lost_wakeup : exists s, rtc pstep boot s /\
  ts s !! 1 = Some (Sleeping (KAny 1)) /\ sema_of (KAny 1) (reg s) = 0 /\
  (exists ps, PROCESS_STATES (reg s) !! 5 = Some ps /\ is_dead_child 1 (5, ps) = true) /\
  (forall s', ~ pstep s s').
Proof.
  exists lost_final. split; [|split; [vm_compute; reflexivity|split; [vm_compute; reflexivity|split]]].
  - apply (rtc_l _ _ demo_forked).
    { apply pstep_step. refine (step_fork boot 1 5 None _ _ _ _); [vm_compute; reflexivity|repeat split; vm_compute; reflexivity|vm_compute; reflexivity]. }
    apply (rtc_l _ _ demo_waiting).
    { apply pstep_step. refine (step_wait_any demo_forked 1 (Blocks (KAny 1)) _ _ _); vm_compute; reflexivity. }
    apply (rtc_l _ _ lost_signalled); [refine (pstep_signal demo_waiting 5 7 _ _ _); vm_compute; reflexivity|].
    apply (rtc_l _ _ lost_asleep).
    { apply pstep_step. refine (step_resume lost_signalled 1 (KAny 1) (Blocks (KAny 1)) _ _ _ _); vm_compute; reflexivity. }
    apply rtc_once. refine (pstep_record lost_asleep 5 7 _ _ _); vm_compute; reflexivity.
  - exists (mkProc 5 1 7 true false 1 1 true None). split; vm_compute; reflexivity.
  - intros s' Hs. inversion Hs as [s1 Hst|p st r Hp|p st r Hp]; subst; [|by destruct (lost_final_threads _ _ Hp) as [|[_ ?]]..].
    destruct Hst as [p ? ? ? H|p ? ? ? H|p ? ? H|p ? ? ? ? H|p ? ? H|p k ? ? H|p ? ? H]; destruct (lost_final_threads _ _ H) as [Ht|[-> Ht]]; try done.
    injection Ht as ->. by match goal with H : 0 < sema_of _ _ |- _ => vm_compute in H end.
Qed.
