(* ===== verification/Mkdisk.v ===== *)
(** The disk image builder (tools/mkdisk/src/main.rs): a host program that lays out a file
    system of ELF programs in a flat image.  It shares no code with the kernel; its own copies of
    the on-disk structures are modelled here, and MkdiskProofs.v relates them to the kernel's.

    The tool runs on a 64-bit host: [usize] products are checked against 2^64. *)
From S2P Require Import Prelude Utf8.

Definition SECTOR_SIZE : Z := 512.
Definition DIRECT_PTR_CNT : Z := 12.
Definition PTRS_PER_BLOCK : Z := 128.
Definition INODE_MAGIC : Z := 0x494e4f44.
Definition FREE_MAP_SECTOR : Z := 0.
Definition ROOT_DIR_SECTOR : Z := 1.
Definition NAME_MAX : Z := 14.
Definition DIR_ENTRY_SIZE : Z := 20.

Record InodeDisk := mkInodeDisk {
  direct_blocks : list Z;
  indirect_block : Z;
  doubly_indirect_block : Z;
  file_length : Z;
  write_end : Z;
  magic : Z;
  is_dir : Z;
  is_symlink : Z;
  padding : list Z;
}.

Definition inode_new : InodeDisk := mkInodeDisk (zeros DIRECT_PTR_CNT) 0 0 0 0 INODE_MAGIC 0 0 (zeros 442).
Definition with_lengths (n : Z) (i : InodeDisk) : InodeDisk :=
  mkInodeDisk (direct_blocks i) (indirect_block i) (doubly_indirect_block i) n n (magic i) (is_dir i) (is_symlink i) (padding i).
Definition with_dir (x : Z) (i : InodeDisk) : InodeDisk :=
  mkInodeDisk (direct_blocks i) (indirect_block i) (doubly_indirect_block i) (file_length i) (write_end i) (magic i) x (is_symlink i) (padding i).
Definition with_direct (l : list Z) (i : InodeDisk) : InodeDisk :=
  mkInodeDisk l (indirect_block i) (doubly_indirect_block i) (file_length i) (write_end i) (magic i) (is_dir i) (is_symlink i) (padding i).
Definition with_indirect (x : Z) (i : InodeDisk) : InodeDisk :=
  mkInodeDisk (direct_blocks i) x (doubly_indirect_block i) (file_length i) (write_end i) (magic i) (is_dir i) (is_symlink i) (padding i).
Definition with_doubly (x : Z) (i : InodeDisk) : InodeDisk :=
  mkInodeDisk (direct_blocks i) (indirect_block i) x (file_length i) (write_end i) (magic i) (is_dir i) (is_symlink i) (padding i).

(** [InodeDisk::to_bytes]: the [repr(C)] layout. *)
Definition inode_bytes (i : InodeDisk) : list Z :=
  concat (le_bytes <$> direct_blocks i) ++ le_bytes (indirect_block i) ++ le_bytes (doubly_indirect_block i) ++
  le_bytes (as_u32 (file_length i)) ++ le_bytes (as_u32 (write_end i)) ++ le_bytes (magic i) ++
  [is_dir i; is_symlink i] ++ padding i.

Record DirEntry := mkDirEntry { inode_sector : Z; name : list Z; in_use : Z }.

(** [DirEntry::new] and [DirEntry::to_bytes]. *)
Definition entry_new (nm : list Z) (sector : Z) : DirEntry :=
  let len := Nat.min (List.length nm) (Z.to_nat NAME_MAX) in
  mkDirEntry sector (splice 0 (take len nm) (zeros (NAME_MAX + 1))) 1.
Definition entry_bytes (e : DirEntry) : list Z := le_bytes (inode_sector e) ++ name e ++ [in_use e].

Record DiskBuilder := mkBuilder {
  data : list Z;
  sector_count : Z;
  next_free : Z;
  used : list bool;
}.
Definition with_data (x : list Z) (b : DiskBuilder) : DiskBuilder := mkBuilder x (sector_count b) (next_free b) (used b).

(** [for x in xs], with the local variable [acc] that the body updates. *)
Fixpoint for_fold {S A B} (xs : list A) (acc : B) (body : B -> A -> M S B) : M S B :=
  match xs with
  | [] => ret acc
  | x :: xs' => let! acc' := body acc x in for_fold xs' acc' body
  end.

(** [usize] multiplication on the host. *)
Definition usize_mul {S} (a b : Z) : M S Z :=
  if a * b <? 2 ^ 64 then ret (a * b) else panic "attempt to multiply with overflow".

Definition div_ceil (a b : Z) : Z := (a + b - 1) / b.

(** [DiskBuilder::new] *)
Definition new (size_mb : Z) : M DiskBuilder unit :=
  let! kb := usize_mul size_mb 1024 in
  let! bytes := usize_mul kb 1024 in
  let count := as_u32 (bytes / SECTOR_SIZE) in
  let! u := index_set (replicate (Z.to_nat count) false) 0 true in
  let! u := index_set u 1 true in
  modify (fun _ => mkBuilder (zeros (count * SECTOR_SIZE)) count 2 u).

Definition alloc_sector : M DiskBuilder Z :=
  let! s := gets next_free in
  let! u := gets used in
  assert (s <? Z.of_nat (List.length u)) "disk full" ;;
  let! u := index_set u s true in
  modify (fun b => mkBuilder (data b) (sector_count b) (next_free b) u) ;;
  let! n := u32_add s 1 in
  modify (fun b => mkBuilder (data b) (sector_count b) n (used b)) ;;
  ret s.

Definition alloc_sectors (n : Z) : M DiskBuilder Z :=
  let! first := gets next_free in
  for_each (range 0 n) (fun _ => alloc_sector ;; ret tt) ;;
  ret first.

(** [self.data[off..off + bytes.len()].copy_from_slice(bytes)] *)
Definition copy_to (off : Z) (bytes : list Z) : M DiskBuilder unit :=
  let! d := gets data in
  if off + Z.of_nat (List.length bytes) <=? Z.of_nat (List.length d) then
    modify (with_data (splice off bytes d))
  else panic "range end index out of range for slice".

Definition write_sector_bytes (sector : Z) (bytes : list Z) : M DiskBuilder unit :=
  let off := sector * SECTOR_SIZE in
  let len := Nat.min (List.length bytes) (Z.to_nat SECTOR_SIZE) in
  copy_to off (take len bytes).

(** The loop that writes [l] to the consecutive sectors from [first] on. *)
Definition write_data (first n : Z) (l : list Z) : M DiskBuilder unit :=
  for_each (range 0 n) (fun i =>
    let offset := i * SECTOR_SIZE in
    let stop := Z.min (offset + SECTOR_SIZE) (Z.of_nat (List.length l)) in
    let! sector := u32_add first (as_u32 i) in
    copy_to (sector * SECTOR_SIZE) (slice offset (stop - offset) l)).

(** The loop that fills the first [n] direct pointers. *)
Definition link_direct (first n : Z) (i : InodeDisk) : M DiskBuilder InodeDisk :=
  let! l := for_fold (range 0 n) (direct_blocks i) (fun l k =>
    let! s := u32_add first (as_u32 k) in
    index_set l k s) in
  ret (with_direct l i).

(** [block[k * 4..k * 4 + 4].copy_from_slice(&sector.to_le_bytes())] *)
Definition put_ptr (block : list Z) (k sector : Z) : M DiskBuilder (list Z) :=
  if k * 4 + 4 <=? Z.of_nat (List.length block) then ret (splice (k * 4) (le_bytes sector) block)
  else panic "range end index out of range for slice".

(** An index block of [n] pointers, to the sectors from [first + base] on. *)
Definition index_block (first base n : Z) : M DiskBuilder (list Z) :=
  for_fold (range 0 n) (zeros SECTOR_SIZE) (fun block k =>
    let! s := u32_add first (as_u32 (base + k)) in
    put_ptr block k s).

(** One turn of the loop over the inner blocks. *)
Definition inner_block (first n : Z) (outer : list Z) (o : Z) : M DiskBuilder (list Z) :=
  let! inner_sector := alloc_sector in
  let! outer := put_ptr outer o inner_sector in
  let base := DIRECT_PTR_CNT + PTRS_PER_BLOCK + o * PTRS_PER_BLOCK in
  let inner_count := Z.min (n - base) PTRS_PER_BLOCK in
  let! inner := index_block first base inner_count in
  write_sector_bytes inner_sector inner ;;
  ret outer.

(** Returns the inode sector. *)
Definition write_file (file_data : list Z) : M DiskBuilder Z :=
  let! inode_sector := alloc_sector in
  let len := Z.of_nat (List.length file_data) in
  let n := div_ceil len SECTOR_SIZE in
  let! first := alloc_sectors (as_u32 n) in
  write_data first n file_data ;;
  let inode := with_lengths (as_i32 len) inode_new in
  let! inode := link_direct first (Z.min n DIRECT_PTR_CNT) inode in
  let! inode :=
    (if DIRECT_PTR_CNT <? n then
       let! indirect_sector := alloc_sector in
       let! block := index_block first DIRECT_PTR_CNT (Z.min (n - DIRECT_PTR_CNT) PTRS_PER_BLOCK) in
       write_sector_bytes indirect_sector block ;;
       ret (with_indirect indirect_sector inode)
     else ret inode) in
  let! inode :=
    (if DIRECT_PTR_CNT + PTRS_PER_BLOCK <? n then
       let! doubly_sector := alloc_sector in
       let outer_count := div_ceil (n - DIRECT_PTR_CNT - PTRS_PER_BLOCK) PTRS_PER_BLOCK in
       let! outer := for_fold (range 0 outer_count) (zeros SECTOR_SIZE) (inner_block first n) in
       write_sector_bytes doubly_sector outer ;;
       ret (with_doubly doubly_sector inode)
     else ret inode) in
  write_sector_bytes inode_sector (inode_bytes inode) ;;
  ret inode_sector.

(** The bytes of the root directory. *)
Definition dir_data (file_entries : list (list Z * Z)) : list Z :=
  let entries := entry_new [46] ROOT_DIR_SECTOR :: entry_new [46; 46] ROOT_DIR_SECTOR ::
                 ((fun e => entry_new (fst e) (snd e)) <$> file_entries) in
  concat (entry_bytes <$> entries).

Definition write_root_dir (file_entries : list (list Z * Z)) : M DiskBuilder unit :=
  let l := dir_data file_entries in
  let len := Z.of_nat (List.length l) in
  let n := div_ceil len SECTOR_SIZE in
  let! first := alloc_sectors (as_u32 n) in
  write_data first n l ;;
  let inode := with_dir 1 (with_lengths (as_i32 len) inode_new) in
  let! inode := link_direct first (Z.min n DIRECT_PTR_CNT) inode in
  let! inode :=
    (if DIRECT_PTR_CNT <? n then
       let! indirect_sector := alloc_sector in
       let! block := index_block first DIRECT_PTR_CNT (Z.min (n - DIRECT_PTR_CNT) PTRS_PER_BLOCK) in
       write_sector_bytes indirect_sector block ;;
       ret (with_indirect indirect_sector inode)
     else ret inode) in
  write_sector_bytes ROOT_DIR_SECTOR (inode_bytes inode).

(** The loop over [used] that sets the bits of a bitmap of [n] bytes. *)
Definition make_bitmap (n : Z) : M DiskBuilder (list Z) :=
  let! u := gets used in
  for_fold (range 0 (Z.of_nat (List.length u))) (zeros n) (fun bm i =>
    let! is_used := index u i in
    if is_used then
      let! x := index bm (i / 8) in
      index_set bm (i / 8) (Z.lor x (Z.shiftl 1 (i mod 8)))
    else ret bm).

(** Clears the sectors of the bitmap and writes it again. *)
Definition rewrite_data (first n : Z) (l : list Z) : M DiskBuilder unit :=
  for_each (range 0 n) (fun i =>
    let offset := i * SECTOR_SIZE in
    let stop := Z.min (offset + SECTOR_SIZE) (Z.of_nat (List.length l)) in
    let! sector := u32_add first (as_u32 i) in
    copy_to (sector * SECTOR_SIZE) (zeros SECTOR_SIZE) ;;
    copy_to (sector * SECTOR_SIZE) (slice offset (stop - offset) l)).

Definition write_free_map : M DiskBuilder unit :=
  let! count := gets sector_count in
  let bitmap_bytes := (count + 7) / 8 in
  let! bitmap := make_bitmap bitmap_bytes in
  let n := div_ceil (Z.of_nat (List.length bitmap)) SECTOR_SIZE in
  let! first := alloc_sectors (as_u32 n) in
  let! bitmap := make_bitmap bitmap_bytes in
  write_data first n bitmap ;;
  let inode := with_lengths (as_i32 (Z.of_nat (List.length bitmap))) inode_new in
  let inode := with_dir 0 inode in
  let! inode := link_direct first (Z.min n DIRECT_PTR_CNT) inode in
  let! inode :=
    (if DIRECT_PTR_CNT <? n then
       let! indirect_sector := alloc_sector in
       let! bitmap2 := make_bitmap bitmap_bytes in
       rewrite_data first n bitmap2 ;;
       let! block := index_block first DIRECT_PTR_CNT (Z.min (n - DIRECT_PTR_CNT) PTRS_PER_BLOCK) in
       write_sector_bytes indirect_sector block ;;
       ret (with_indirect indirect_sector inode)
     else ret inode) in
  write_sector_bytes FREE_MAP_SECTOR (inode_bytes inode).

(** [&name[..NAME_MAX]] of a longer [str]: a panic inside a character. *)
Definition short_name (nm : list Z) : M DiskBuilder (list Z) :=
  if NAME_MAX <? Z.of_nat (List.length nm) then
    let! b := index nm NAME_MAX in
    if (128 <=? b) && (b <? 192) then panic "byte index is not a char boundary"
    else ret (take (Z.to_nat NAME_MAX) nm)
  else ret nm.

(** [main], from the names and the bytes of the files: the image is [data] of the final state. *)
Definition main (size_mb : Z) (files : list (list Z * list Z)) : M DiskBuilder (list (list Z * Z)) :=
  new size_mb ;;
  let! file_entries := for_fold files [] (fun acc f =>
    let! nm := short_name (fst f) in
    let! s := write_file (snd f) in
    ret (acc ++ [(nm, s)])) in
  write_root_dir file_entries ;;
  write_free_map ;;
  ret file_entries.
