(* ===== verification/MkBuild.v ===== *)
(** What the operations of the image builder do to the sectors of the image. *)
From S2P Require Import Prelude Utf8 FreeMap Mkdisk.

(** ** Loops with a local variable *)
Lemma wp_for_fold {S A B} (xs : list A) (acc : B) (body : B -> A -> M S B) (I : list A -> B -> S -> Prop) s (Q : B -> S -> Prop) :
  I [] acc s ->
  (forall pre x post acc' s', xs = pre ++ x :: post -> I pre acc' s' -> wp (body acc' x) s' (fun acc'' s'' => I (pre ++ [x]) acc'' s'')) ->
  (forall acc' s', I xs acc' s' -> Q acc' s') -> wp (for_fold xs acc body) s Q.
Proof.
  intros H0 Hb HQ. enough (forall pre post acc' s', xs = pre ++ post -> I pre acc' s' -> wp (for_fold post acc' body) s' Q) as H by by apply (H []).
  intros pre post. revert pre. induction post as [|x post IH]; intros pre acc' s' E HI; simpl.
  - apply wp_ret, HQ. by rewrite app_nil_r in E; subst.
  - apply wp_bind. eapply wp_mono; [by apply (Hb pre x post)|]. intros acc'' s'' HI'. apply (IH (pre ++ [x])); [|done].
    by rewrite <- app_assoc.
Qed.

Lemma wp_fold_range {S B} (I : Z -> B -> S -> Prop) lo hi (acc : B) (body : B -> Z -> M S B) s (Q : B -> S -> Prop) :
  lo <= hi -> I lo acc s ->
  (forall i acc' s', lo <= i < hi -> I i acc' s' -> wp (body acc' i) s' (fun acc'' s'' => I (i + 1) acc'' s'')) ->
  (forall acc' s', I hi acc' s' -> Q acc' s') -> wp (for_fold (range lo hi) acc body) s Q.
Proof.
  intros Hle H0 Hb HQ. revert acc s H0 Hb. pattern lo. apply (range_ind _ lo hi); [|intros l Hl IH|done].
  - intros acc s HI _. rewrite range_nil by lia. by apply wp_ret, HQ.
  - intros acc s HI Hb. rewrite (range_cons l) by lia. apply wp_bind. eapply wp_mono; [apply Hb; [lia|done]|].
    intros acc' s' HI'. apply IH; [done|]. intros i acc'' s'' Hi. apply Hb. lia.
Qed.

(** ** The image as an array of sectors *)
Definition sec (b : DiskBuilder) (s : Z) : list Z := slice (s * SECTOR_SIZE) SECTOR_SIZE (data b).

Record build_ok (b : DiskBuilder) : Prop := {
  bo_count : sector_count b + 1 < u32_lim;
  bo_next : 2 <= next_free b <= sector_count b;
  bo_data : Z.of_nat (List.length (data b)) = sector_count b * SECTOR_SIZE;
  bo_u8 : Forall in_u8 (data b);
  bo_used_len : Z.of_nat (List.length (used b)) = sector_count b;
  bo_used : forall i, 0 <= i < sector_count b -> used b !! Z.to_nat i = Some (bool_decide (i < next_free b));
}.

(** [b'] is [b] with the sectors [v] and [nf] as the next free one. *)
Record wrote (b b' : DiskBuilder) (nf : Z) (v : Z -> list Z) : Prop := {
  wr_ok : build_ok b';
  wr_count : sector_count b' = sector_count b;
  wr_next : next_free b' = nf;
  wr_sec : forall t, 0 <= t < sector_count b -> sec b' t = v t;
}.

Lemma wrote_refl b : build_ok b -> wrote b b (next_free b) (sec b).
Proof. by split. Qed.

Lemma wrote_ext b b' nf v v' : wrote b b' nf v -> (forall t, 0 <= t < sector_count b -> v t = v' t) -> wrote b b' nf v'.
Proof. intros [A B C D] H. split; [done..|]. intros t Ht. by rewrite D, H. Qed.

Lemma sec_length b s : build_ok b -> 0 <= s < sector_count b -> List.length (sec b s) = Z.to_nat SECTOR_SIZE.
Proof. intros Hok Hs. pose proof (bo_data _ Hok). unfold sec. rewrite slice_length; unfold SECTOR_SIZE in *; lia. Qed.

Lemma sec_u8 b s : build_ok b -> Forall in_u8 (sec b s).
Proof. intros Hok. apply Forall_slice, Hok. Qed.

(** ** Sectors *)
Lemma wp_alloc_sector b (Q : Z -> DiskBuilder -> Prop) :
  build_ok b -> next_free b < sector_count b -> (forall b', wrote b b' (next_free b + 1) (sec b) -> Q (next_free b) b') -> wp alloc_sector b Q.
Proof.
  intros [H1 H2 H3 H4 H5 H6] Hlt HQ. unfold alloc_sector. apply wp_bind, wp_gets, wp_bind, wp_gets, wp_bind, wp_assert.
  { apply Z.ltb_lt. lia. }
  apply wp_bind, wp_index_set; [lia|]. apply wp_bind, wp_modify. apply wp_bind, wp_u32_add; [unfold u32_lim in *; lia|].
  apply wp_bind, wp_modify, wp_ret, HQ. split; [split|..]; simpl; try done; [lia|by rewrite length_insert|].
  intros i Hi. destruct (decide (i = next_free b)) as [->|Hne].
  - rewrite list_lookup_insert_eq by lia. by rewrite bool_decide_true by lia.
  - rewrite list_lookup_insert_ne by lia. rewrite H6 by lia. f_equal. apply bool_decide_ext. lia.
Qed.

Lemma wp_alloc_sectors n b (Q : Z -> DiskBuilder -> Prop) :
  build_ok b -> 0 <= n -> next_free b + n <= sector_count b ->
  (forall b', wrote b b' (next_free b + n) (sec b) -> Q (next_free b) b') -> wp (alloc_sectors n) b Q.
Proof.
  intros Hok Hn Hlt HQ. unfold alloc_sectors. apply wp_bind, wp_gets, wp_bind.
  apply (wp_for_range (fun i b' => wrote b b' (next_free b + i) (sec b))); [lia|rewrite Z.add_0_r; by apply wrote_refl| |].
  - intros i b' Hi [A B C D]. apply wp_bind, wp_alloc_sector; [done|lia|]. intros b'' [A' B' C' D']. apply wp_ret.
    split; [done|congruence|lia|]. intros t Ht. rewrite D', D; [done|lia|lia].
  - intros b' H. by apply wp_ret, HQ.
Qed.

(** [t] holds [d] instead. *)
Definition upd (t : Z) (d : list Z) (v : Z -> list Z) : Z -> list Z := fun x => if decide (x = t) then d else v x.

Lemma sec_splice b s l t : build_ok b -> 0 <= s < sector_count b -> Z.of_nat (List.length l) <= SECTOR_SIZE -> 0 <= t < sector_count b ->
  slice (t * SECTOR_SIZE) SECTOR_SIZE (splice (s * SECTOR_SIZE) l (data b)) = upd s (splice 0 l (sec b s)) (sec b) t.
Proof.
  intros Hok Hs Hl Ht. pose proof (bo_data _ Hok) as Hd. pose proof (sec_length b s Hok Hs) as Hls. unfold SECTOR_SIZE in *. unfold upd.
  apply list_eq. intros i. destruct (decide (i < 512)%nat) as [Hi|Hi].
  - rewrite lookup_slice by lia. rewrite lookup_splice by lia. destruct (decide (t = s)) as [->|Ets].
    + rewrite lookup_splice by lia. unfold sec, SECTOR_SIZE. rewrite lookup_slice by lia.
      repeat case_decide; try lia; try done. f_equal. lia.
    + unfold sec, SECTOR_SIZE. rewrite lookup_slice by lia. repeat case_decide; try done; exfalso; lia.
  - rewrite !lookup_ge_None_2; [done| |unfold slice; rewrite length_take; lia].
    case_decide; [rewrite splice_length by lia; rewrite Hls; lia|]. rewrite (sec_length b t); [unfold SECTOR_SIZE; lia|done|done].
Qed.

Lemma wp_copy_to s l b (Q : unit -> DiskBuilder -> Prop) :
  build_ok b -> 0 <= s < sector_count b -> Z.of_nat (List.length l) <= SECTOR_SIZE -> Forall in_u8 l ->
  (forall b', wrote b b' (next_free b) (upd s (splice 0 l (sec b s)) (sec b)) -> Q tt b') -> wp (copy_to (s * SECTOR_SIZE) l) b Q.
Proof.
  intros Hok Hs Hl H8 HQ. pose proof Hok as [H1 H2 H3 H4 H5 H6]. unfold copy_to. apply wp_bind, wp_gets.
  rewrite (proj2 (Z.leb_le _ _)) by (unfold SECTOR_SIZE in *; lia). apply wp_modify, HQ. split; [split|..]; simpl; try done.
  - rewrite splice_length; unfold SECTOR_SIZE in *; [done|lia|lia].
  - by apply Forall_splice.
  - intros t Ht. by apply sec_splice.
Qed.

Lemma splice_all {A} (l x : list A) : List.length l = List.length x -> splice 0 l x = l.
Proof. intros E. unfold splice. simpl. rewrite drop_ge by lia. by rewrite app_nil_r. Qed.

Lemma wp_store_sector s l b (Q : unit -> DiskBuilder -> Prop) :
  build_ok b -> 0 <= s < sector_count b -> List.length l = Z.to_nat SECTOR_SIZE -> Forall in_u8 l ->
  (forall b', wrote b b' (next_free b) (upd s l (sec b)) -> Q tt b') -> wp (write_sector_bytes s l) b Q.
Proof.
  intros Hok Hs Hl H8 HQ. unfold write_sector_bytes. rewrite take_ge by lia. apply wp_copy_to; [done|done|unfold SECTOR_SIZE in *; lia|done|].
  intros b' Hw. apply HQ. eapply wrote_ext; [exact Hw|]. intros t Ht. unfold upd. case_decide; [|done].
  apply splice_all. by rewrite sec_length.
Qed.


(** ** Runs of data sectors *)

(** Block [k] of [l]. *)
Definition chunk (l : list Z) (k : Z) : list Z := slice (k * SECTOR_SIZE) SECTOR_SIZE l.

Lemma chunk_stop l i : 0 <= i ->
  slice (i * SECTOR_SIZE) (Z.min (i * SECTOR_SIZE + SECTOR_SIZE) (Z.of_nat (List.length l)) - i * SECTOR_SIZE) l = chunk l i.
Proof.
  intros Hi. unfold chunk, slice, SECTOR_SIZE. destruct (decide (i * 512 + 512 <= Z.of_nat (List.length l))) as [H|H].
  - do 2 f_equal. lia.
  - rewrite !take_ge; [done|rewrite length_drop; lia|rewrite length_drop; lia].
Qed.

Lemma chunk_length l k : Z.of_nat (List.length (chunk l k)) <= SECTOR_SIZE.
Proof. unfold chunk, slice. rewrite length_take. unfold SECTOR_SIZE. lia. Qed.

(** The sectors [first ..] with the blocks of [l] on top of [old]. *)
Definition run_of (first n : Z) (l : list Z) (old : Z -> list Z) (v : Z -> list Z) : Z -> list Z :=
  fun t => if decide (first <= t < first + n) then splice 0 (chunk l (t - first)) (old t) else v t.

Lemma wp_run (body : Z -> Z -> M DiskBuilder unit) old first n l b (Q : unit -> DiskBuilder -> Prop) :
  build_ok b -> 0 <= n -> 0 <= first -> first + n <= sector_count b ->
  (forall i b', 0 <= i < n -> build_ok b' -> sector_count b' = sector_count b -> sec b' (first + i) = sec b (first + i) ->
     wp (body i (first + i)) b' (fun _ b'' => wrote b' b'' (next_free b') (upd (first + i) (splice 0 (chunk l i) (old (first + i))) (sec b')))) ->
  (forall b', wrote b b' (next_free b) (run_of first n l old (sec b)) -> Q tt b') ->
  wp (for_each (range 0 n) (fun i => let! sector := u32_add first (as_u32 i) in body i sector)) b Q.
Proof.
  intros Hok Hn Hf Hle Hb HQ. pose proof (bo_count _ Hok) as Hc.
  apply (wp_for_range (fun i b' => wrote b b' (next_free b) (run_of first i l old (sec b)))); [lia| | |].
  - eapply wrote_ext; [by apply wrote_refl|]. intros t Ht. unfold run_of. by rewrite decide_False by lia.
  - intros i b' Hi [A B C D]. rewrite as_u32_small by (unfold in_u32; lia). apply wp_bind, wp_u32_add; [lia|]. eapply wp_mono.
    { apply Hb; [done|done|done|]. rewrite D by lia. unfold run_of. by rewrite decide_False by lia. }
    intros [] b'' [A' B' C' D']. split; [done|congruence|congruence|]. intros t Ht. rewrite D' by lia. unfold upd, run_of. rewrite D by lia. unfold run_of.
    repeat case_decide; try lia; try done. subst t. by replace (first + i - first) with i by lia.
  - exact HQ.
Qed.

Lemma wp_write_data first n l b (Q : unit -> DiskBuilder -> Prop) :
  build_ok b -> 0 <= n -> 0 <= first -> first + n <= sector_count b -> Forall in_u8 l ->
  (forall b', wrote b b' (next_free b) (run_of first n l (sec b) (sec b)) -> Q tt b') -> wp (write_data first n l) b Q.
Proof.
  intros Hok Hn Hf Hle H8 HQ. unfold write_data.
  apply (wp_run (fun i sector => copy_to (sector * SECTOR_SIZE)
    (slice (i * SECTOR_SIZE) (Z.min (i * SECTOR_SIZE + SECTOR_SIZE) (Z.of_nat (List.length l)) - i * SECTOR_SIZE) l)) (sec b) first n l); [done..| |done].
  intros i b' Hi Hok' Hc Hsec. rewrite chunk_stop by lia. apply wp_copy_to; [done|lia|apply chunk_length|by apply Forall_slice|].
  intros b'' Hw. by rewrite <- Hsec.
Qed.

Lemma wp_rewrite_data first n l b (Q : unit -> DiskBuilder -> Prop) :
  build_ok b -> 0 <= n -> 0 <= first -> first + n <= sector_count b -> Forall in_u8 l ->
  (forall b', wrote b b' (next_free b) (run_of first n l (fun _ => zeros SECTOR_SIZE) (sec b)) -> Q tt b') -> wp (rewrite_data first n l) b Q.
Proof.
  intros Hok Hn Hf Hle H8 HQ. unfold rewrite_data.
  apply (wp_run (fun i sector => copy_to (sector * SECTOR_SIZE) (zeros SECTOR_SIZE) ;; copy_to (sector * SECTOR_SIZE)
    (slice (i * SECTOR_SIZE) (Z.min (i * SECTOR_SIZE + SECTOR_SIZE) (Z.of_nat (List.length l)) - i * SECTOR_SIZE) l)) (fun _ => zeros SECTOR_SIZE) first n l); [done..| |done].
  intros i b' Hi Hok' Hc Hsec. rewrite chunk_stop by lia. apply wp_bind, wp_copy_to; [done|lia|rewrite zeros_length; unfold SECTOR_SIZE; lia|apply zeros_u8|].
  intros b1 [A B C D]. apply wp_copy_to; [done|lia|apply chunk_length|by apply Forall_slice|].
  intros b2 [A' B' C' D']. split; [done|congruence|congruence|]. intros t Ht. rewrite D' by lia. unfold upd.
  assert (sec b1 (first + i) = zeros SECTOR_SIZE) as E1.
  { rewrite D by lia. unfold upd. rewrite decide_True by done. apply splice_all. rewrite zeros_length, (sec_length b'); [done|done|lia]. }
  case_decide; [by rewrite E1|]. rewrite D by lia. unfold upd. by rewrite decide_False.
Qed.

(** ** Pointers *)

(** The words of an index block with [n] pointers, to the sectors from [base] on. *)
Definition ptr_words (base n : Z) (size : Z) : list Z := (fun k => if k <? n then base + k else 0) <$> seqZ 0 size.
Definition ptr_block (base n : Z) : list Z := concat (le_bytes <$> ptr_words base n PTRS_PER_BLOCK).

Lemma ptr_words_length base n size : List.length (ptr_words base n size) = Z.to_nat size.
Proof. unfold ptr_words. by rewrite length_fmap, length_seqZ. Qed.

Lemma ptr_words_lookup base n size k : 0 <= k < size -> ptr_words base n size !! Z.to_nat k = Some (if k <? n then base + k else 0).
Proof. intros Hk. unfold ptr_words. rewrite list_lookup_fmap, lookup_seqZ_lt by lia. simpl. by replace (0 + Z.of_nat (Z.to_nat k)) with k by lia. Qed.

Lemma ptr_words_nil base size : ptr_words base 0 size = zeros size.
Proof.
  apply list_eq. intros i. unfold ptr_words, zeros. rewrite list_lookup_fmap. destruct (decide (i < Z.to_nat size)%nat).
  - rewrite lookup_seqZ_lt, lookup_replicate_2 by lia. simpl. by rewrite (proj2 (Z.ltb_ge _ _)) by lia.
  - rewrite lookup_seqZ_ge by lia. symmetry. apply lookup_ge_None_2. rewrite length_replicate. lia.
Qed.

Lemma ptr_words_step base n size : 0 <= n < size -> <[Z.to_nat n := base + n]> (ptr_words base n size) = ptr_words base (n + 1) size.
Proof.
  intros Hn. apply list_eq. intros i. destruct (decide (i < Z.to_nat size)%nat) as [Hi|Hi].
  - rewrite <- (Nat2Z.id i). rewrite (ptr_words_lookup _ (n + 1)) by lia. destruct (decide (Z.of_nat i = n)) as [E|E].
    + rewrite E, list_lookup_insert_eq by (rewrite ptr_words_length; lia). by rewrite (proj2 (Z.ltb_lt _ _)) by lia.
    + rewrite list_lookup_insert_ne by lia. rewrite ptr_words_lookup by lia. destruct (Z.ltb_spec (Z.of_nat i) n), (Z.ltb_spec (Z.of_nat i) (n + 1)); try done; lia.
  - rewrite !lookup_ge_None_2; [done|rewrite ptr_words_length; lia|rewrite length_insert, ptr_words_length; lia].
Qed.

Lemma concat_words_length ws : List.length (concat (le_bytes <$> ws)) = (4 * List.length ws)%nat.
Proof. induction ws as [|w ws IH]; [done|]. cbn [fmap list_fmap concat]. rewrite length_app, IH, le_bytes_length. simpl. lia. Qed.

Lemma ptr_block_length base n : List.length (ptr_block base n) = Z.to_nat SECTOR_SIZE.
Proof. unfold ptr_block. by rewrite concat_words_length, ptr_words_length. Qed.

Lemma concat_words_u8 ws : Forall in_u8 (concat (le_bytes <$> ws)).
Proof. induction ws; [done|]. cbn [fmap list_fmap concat]. apply Forall_app. auto using le_bytes_u8. Qed.

Lemma ptr_block_nil base : ptr_block base 0 = zeros SECTOR_SIZE.
Proof. unfold ptr_block. by rewrite ptr_words_nil. Qed.

Lemma splice_app_r {A} off (new p l : list A) : 0 <= off ->
  splice (Z.of_nat (List.length p) + off) new (p ++ l) = p ++ splice off new l.
Proof.
  intros Ho. unfold splice. rewrite !Z2Nat.inj_add by lia. rewrite Nat2Z.id, take_app_add, <- app_assoc. do 2 f_equal.
  rewrite <- Nat.add_assoc. by rewrite drop_app_add.
Qed.

Lemma splice_words ws k x : (k < List.length ws)%nat ->
  splice (4 * Z.of_nat k) (le_bytes x) (concat (le_bytes <$> ws)) = concat (le_bytes <$> <[k := x]> ws).
Proof.
  revert k. induction ws as [|w ws IH]; intros k Hk; [simpl in Hk; lia|]. destruct k as [|k]; [done|].
  cbn [fmap list_fmap concat]. simpl in Hk. change (<[S k := x]> (w :: ws)) with (w :: <[k := x]> ws). cbn [fmap list_fmap concat].
  rewrite <- IH by lia. replace (4 * Z.of_nat (S k)) with (Z.of_nat (List.length (le_bytes w)) + 4 * Z.of_nat k) by (rewrite le_bytes_length; lia).
  apply splice_app_r. lia.
Qed.

Lemma ptr_block_step base n : 0 <= n < PTRS_PER_BLOCK -> splice (n * 4) (le_bytes (base + n)) (ptr_block base n) = ptr_block base (n + 1).
Proof.
  intros Hn. unfold ptr_block. rewrite <- (ptr_words_step base n) by done. rewrite <- splice_words by (rewrite ptr_words_length; lia).
  f_equal. lia.
Qed.

Lemma wp_put_ptr block k s b (Q : list Z -> DiskBuilder -> Prop) :
  List.length block = Z.to_nat SECTOR_SIZE -> 0 <= k < PTRS_PER_BLOCK -> Q (splice (k * 4) (le_bytes s) block) b -> wp (put_ptr block k s) b Q.
Proof.
  intros Hl Hk HQ. unfold put_ptr. rewrite Hl, (proj2 (Z.leb_le _ _)) by (unfold SECTOR_SIZE, PTRS_PER_BLOCK in *; lia). by apply wp_ret.
Qed.

Lemma wp_index_block first base n b (Q : list Z -> DiskBuilder -> Prop) :
  0 <= n <= PTRS_PER_BLOCK -> 0 <= first -> 0 <= base -> first + base + n < u32_lim -> Q (ptr_block (first + base) n) b -> wp (index_block first base n) b Q.
Proof.
  intros Hn Hf Hb Hlim HQ. unfold index_block. apply (wp_fold_range (fun k block b' => b' = b /\ block = ptr_block (first + base) k)); [lia|..].
  - split; [done|]. by rewrite ptr_block_nil.
  - intros k block b' Hk [-> ->]. rewrite as_u32_small by (unfold in_u32; lia). apply wp_bind, wp_u32_add; [lia|].
    apply wp_put_ptr; [apply ptr_block_length|lia|]. split; [done|]. rewrite Z.add_assoc. apply ptr_block_step. lia.
  - intros block b' [-> ->]. done.
Qed.

Lemma wp_link_direct first n i b (Q : InodeDisk -> DiskBuilder -> Prop) :
  0 <= n <= DIRECT_PTR_CNT -> 0 <= first -> first + n < u32_lim -> direct_blocks i = zeros DIRECT_PTR_CNT ->
  Q (with_direct (ptr_words first n DIRECT_PTR_CNT) i) b -> wp (link_direct first n i) b Q.
Proof.
  intros Hn Hf Hlim Hz HQ. unfold link_direct. apply wp_bind.
  apply (wp_fold_range (fun k l b' => b' = b /\ l = ptr_words first k DIRECT_PTR_CNT)); [lia|..].
  - split; [done|]. by rewrite ptr_words_nil.
  - intros k l b' Hk [-> ->]. rewrite as_u32_small by (unfold in_u32; lia). apply wp_bind, wp_u32_add; [lia|].
    apply wp_index_set; [rewrite ptr_words_length; unfold DIRECT_PTR_CNT in *; lia|]. split; [done|]. apply ptr_words_step. lia.
  - intros l b' [-> ->]. by apply wp_ret.
Qed.


(** ** Files *)

(** The blocks of [l], the inner index blocks of a file of [n] blocks, and the sectors it takes
    besides its inode. *)
Definition blocks (l : list Z) : Z := div_ceil (Z.of_nat (List.length l)) SECTOR_SIZE.
Definition outer_count (n : Z) : Z := div_ceil (n - DIRECT_PTR_CNT - PTRS_PER_BLOCK) PTRS_PER_BLOCK.
Definition cost (n : Z) : Z :=
  n + (if DIRECT_PTR_CNT <? n then 1 else 0) + (if DIRECT_PTR_CNT + PTRS_PER_BLOCK <? n then 1 + outer_count n else 0).
Definition MAX_BLOCKS : Z := DIRECT_PTR_CNT + PTRS_PER_BLOCK + PTRS_PER_BLOCK * PTRS_PER_BLOCK.

Ltac sizes := unfold MAX_BLOCKS, outer_count, div_ceil, DIRECT_PTR_CNT, PTRS_PER_BLOCK, SECTOR_SIZE in *.

Lemma outer_count_spec n : DIRECT_PTR_CNT + PTRS_PER_BLOCK < n <= MAX_BLOCKS ->
  0 < outer_count n <= PTRS_PER_BLOCK /\
  DIRECT_PTR_CNT + PTRS_PER_BLOCK + (outer_count n - 1) * PTRS_PER_BLOCK < n <= DIRECT_PTR_CNT + PTRS_PER_BLOCK + outer_count n * PTRS_PER_BLOCK.
Proof. sizes. intros. Z.div_mod_to_equations. lia. Qed.

Lemma blocks_nonneg l : 0 <= blocks l.
Proof. unfold blocks. sizes. Z.div_mod_to_equations. lia. Qed.

(** Inner index block [o] of the file whose blocks start at [first]. *)
Definition inner_of (first n o : Z) : list Z :=
  let base := DIRECT_PTR_CNT + PTRS_PER_BLOCK + o * PTRS_PER_BLOCK in
  ptr_block (first + base) (Z.min (n - base) PTRS_PER_BLOCK).

Lemma wp_inner_blocks first n b (Q : list Z -> DiskBuilder -> Prop) :
  build_ok b -> 0 <= first -> DIRECT_PTR_CNT + PTRS_PER_BLOCK < n <= MAX_BLOCKS -> first + n < u32_lim ->
  next_free b + outer_count n <= sector_count b ->
  (forall b', wrote b b' (next_free b + outer_count n)
     (fun t => if decide (next_free b <= t < next_free b + outer_count n) then inner_of first n (t - next_free b) else sec b t) ->
     Q (ptr_block (next_free b) (outer_count n)) b') ->
  wp (for_fold (range 0 (outer_count n)) (zeros SECTOR_SIZE) (inner_block first n)) b Q.
Proof.
  intros Hok Hf Hn Hlim Hroom HQ. destruct (outer_count_spec n Hn) as [Ho Hspan]. set (D := next_free b) in *. set (oc := outer_count n) in *.
  pose proof (bo_next _ Hok) as Hnf. fold D in Hnf.
  apply (wp_fold_range (fun o outer b' => outer = ptr_block D o /\ wrote b b' (D + o)
    (fun t => if decide (D <= t < D + o) then inner_of first n (t - D) else sec b t))); [lia|..].
  - split; [by rewrite ptr_block_nil|]. rewrite Z.add_0_r. eapply wrote_ext; [by apply wrote_refl|]. intros t Ht. by rewrite decide_False by lia.
  - intros o outer b' Hi [-> [A B C E]]. unfold inner_block. apply wp_bind, wp_alloc_sector; [done|lia|]. intros b1 [A1 B1 C1 E1].
    apply wp_bind, wp_put_ptr; [apply ptr_block_length|lia|]. apply wp_bind, wp_index_block; [sizes; lia|done|sizes; lia|sizes; lia|].
    apply wp_bind, wp_store_sector; [done|lia|apply ptr_block_length|apply concat_words_u8|]. intros b2 [A2 B2 C2 E2]. apply wp_ret. split.
    { rewrite C. apply ptr_block_step. lia. }
    split; [done|congruence|lia|]. intros t Ht. rewrite E2 by lia. unfold upd. rewrite C. case_decide as Et.
    + subst t. rewrite decide_True by lia. by replace (D + o - D) with o by lia.
    + rewrite E1, E by lia. repeat case_decide; try done; lia.
  - intros outer b' [-> H]. by apply HQ.
Qed.

(** The inode of a file of [n] blocks and [len] bytes whose sectors start at [first]. *)
Definition inode_for (first n len dir : Z) : InodeDisk :=
  mkInodeDisk (ptr_words first (Z.min n DIRECT_PTR_CNT) DIRECT_PTR_CNT) (if DIRECT_PTR_CNT <? n then first + n else 0)
    (if DIRECT_PTR_CNT + PTRS_PER_BLOCK <? n then first + n + 1 else 0) len len INODE_MAGIC dir 0 (zeros 442).

(** Sector [s] holds the inode of a file with the bytes [l], whose other sectors start at [first]. *)
Record laid_out (v : Z -> list Z) (s first : Z) (l : list Z) (dir : Z) : Prop := {
  lo_inode : v s = inode_bytes (inode_for first (blocks l) (Z.of_nat (List.length l)) dir);
  lo_data : forall k, 0 <= k < blocks l -> exists rest, v (first + k) = chunk l k ++ rest;
  lo_ind : DIRECT_PTR_CNT < blocks l ->
    v (first + blocks l) = ptr_block (first + DIRECT_PTR_CNT) (Z.min (blocks l - DIRECT_PTR_CNT) PTRS_PER_BLOCK);
  lo_dbl : DIRECT_PTR_CNT + PTRS_PER_BLOCK < blocks l -> v (first + blocks l + 1) = ptr_block (first + blocks l + 2) (outer_count (blocks l));
  lo_inner : DIRECT_PTR_CNT + PTRS_PER_BLOCK < blocks l -> forall o, 0 <= o < outer_count (blocks l) ->
    v (first + blocks l + 2 + o) = inner_of first (blocks l) o;
}.

(** It stays there as long as its sectors are not written. *)
Lemma laid_out_frame v v' s first l dir :
  laid_out v s first l dir -> v' s = v s -> (forall t, first <= t < first + cost (blocks l) -> v' t = v t) -> laid_out v' s first l dir.
Proof.
  intros [A B C D E] Hs Hv. assert (0 <= blocks l) as Hb by apply blocks_nonneg.
  assert (forall k, 0 <= k < cost (blocks l) -> v' (first + k) = v (first + k)) as Hk by (intros k Hk; apply Hv; lia).
  unfold cost in Hk. split.
  - by rewrite Hs.
  - intros k Hkb. rewrite Hk; [by apply B|]. destruct (_ <? _), (Z.ltb_spec (DIRECT_PTR_CNT + PTRS_PER_BLOCK) (blocks l)); sizes; Z.div_mod_to_equations; lia.
  - intros Hi. rewrite Hk; [by apply C|]. rewrite (proj2 (Z.ltb_lt _ _) Hi). destruct (Z.ltb_spec (DIRECT_PTR_CNT + PTRS_PER_BLOCK) (blocks l)); sizes; Z.div_mod_to_equations; lia.
  - intros Hi. rewrite <- D by done. rewrite <- !Z.add_assoc. apply Hk. rewrite !(proj2 (Z.ltb_lt _ _)) by (sizes; lia). sizes; Z.div_mod_to_equations; lia.
  - intros Hi o Ho. rewrite <- E by done. rewrite <- !Z.add_assoc. apply Hk. rewrite !(proj2 (Z.ltb_lt _ _)) by (sizes; lia). sizes; Z.div_mod_to_equations; lia.
Qed.

(** The single indirect block. *)
Definition with_ind (n s : Z) (i : InodeDisk) : InodeDisk := if DIRECT_PTR_CNT <? n then with_indirect s i else i.

Lemma wp_link_indirect first n inode b (Q : InodeDisk -> DiskBuilder -> Prop) :
  build_ok b -> 0 <= first -> first + n < u32_lim -> next_free b + (if DIRECT_PTR_CNT <? n then 1 else 0) <= sector_count b ->
  (forall b', wrote b b' (next_free b + (if DIRECT_PTR_CNT <? n then 1 else 0))
     (if DIRECT_PTR_CNT <? n then upd (next_free b) (ptr_block (first + DIRECT_PTR_CNT) (Z.min (n - DIRECT_PTR_CNT) PTRS_PER_BLOCK)) (sec b) else sec b) ->
     Q (with_ind n (next_free b) inode) b') ->
  wp (if DIRECT_PTR_CNT <? n then
        let! indirect_sector := alloc_sector in
        let! block := index_block first DIRECT_PTR_CNT (Z.min (n - DIRECT_PTR_CNT) PTRS_PER_BLOCK) in
        write_sector_bytes indirect_sector block ;;
        ret (with_indirect indirect_sector inode)
      else ret inode) b Q.
Proof.
  intros Hok Hf Hlim Hroom HQ. pose proof (bo_next _ Hok) as Hnf. unfold with_ind in HQ. destruct (Z.ltb_spec DIRECT_PTR_CNT n) as [Hn|Hn].
  - apply wp_bind, wp_alloc_sector; [done|lia|]. intros b1 [A B C D]. apply wp_bind, wp_index_block; [sizes; lia|done|sizes; lia|sizes; lia|].
    apply wp_bind, wp_store_sector; [done|lia|apply ptr_block_length|apply concat_words_u8|]. intros b2 [A2 B2 C2 D2]. apply wp_ret, HQ.
    split; [done|congruence|lia|]. intros t Ht. rewrite D2 by lia. unfold upd. case_decide; [done|]. by apply D.
  - apply wp_ret, HQ. rewrite Z.add_0_r. by apply wrote_refl.
Qed.


(** The doubly indirect block and its inner blocks. *)
Definition with_dbl (n s : Z) (i : InodeDisk) : InodeDisk := if DIRECT_PTR_CNT + PTRS_PER_BLOCK <? n then with_doubly s i else i.
Definition dbl_view (first n D : Z) (v : Z -> list Z) : Z -> list Z :=
  fun t => if decide (t = D) then ptr_block (D + 1) (outer_count n)
           else if decide (D + 1 <= t < D + 1 + outer_count n) then inner_of first n (t - (D + 1)) else v t.

Lemma wp_link_doubly first n inode b (Q : InodeDisk -> DiskBuilder -> Prop) :
  build_ok b -> 0 <= first -> n <= MAX_BLOCKS -> first + n < u32_lim ->
  next_free b + (if DIRECT_PTR_CNT + PTRS_PER_BLOCK <? n then 1 + outer_count n else 0) <= sector_count b ->
  (forall b', wrote b b' (next_free b + (if DIRECT_PTR_CNT + PTRS_PER_BLOCK <? n then 1 + outer_count n else 0))
     (if DIRECT_PTR_CNT + PTRS_PER_BLOCK <? n then dbl_view first n (next_free b) (sec b) else sec b) ->
     Q (with_dbl n (next_free b) inode) b') ->
  wp (if DIRECT_PTR_CNT + PTRS_PER_BLOCK <? n then
        let! doubly_sector := alloc_sector in
        let outer_count := div_ceil (n - DIRECT_PTR_CNT - PTRS_PER_BLOCK) PTRS_PER_BLOCK in
        let! outer := for_fold (range 0 outer_count) (zeros SECTOR_SIZE) (inner_block first n) in
        write_sector_bytes doubly_sector outer ;;
        ret (with_doubly doubly_sector inode)
      else ret inode) b Q.
Proof.
  intros Hok Hf Hmax Hlim Hroom HQ. pose proof (bo_next _ Hok) as Hnf. unfold with_dbl in HQ.
  destruct (Z.ltb_spec (DIRECT_PTR_CNT + PTRS_PER_BLOCK) n) as [Hn|Hn].
  - destruct (outer_count_spec n) as [Ho _]; [lia|]. fold (outer_count n). apply wp_bind, wp_alloc_sector; [done|lia|]. intros b1 [A B C D].
    cbv zeta. apply wp_bind, wp_inner_blocks; [done|done|lia|done|lia|]. intros b2 [A2 B2 C2 D2].
    apply wp_bind, wp_store_sector; [done|lia|apply ptr_block_length|apply concat_words_u8|]. intros b3 [A3 B3 C3 D3]. apply wp_ret, HQ.
    split; [done|congruence|lia|]. intros t Ht. rewrite D3 by lia. unfold upd, dbl_view. rewrite C. case_decide; [done|].
    rewrite D2 by lia. rewrite C. case_decide; [done|]. by apply D.
  - apply wp_ret, HQ. rewrite Z.add_0_r. by apply wrote_refl.
Qed.

Lemma linked_inode first n len dir : 0 <= n ->
  with_dbl n (first + n + (if DIRECT_PTR_CNT <? n then 1 else 0))
    (with_ind n (first + n) (with_direct (ptr_words first (Z.min n DIRECT_PTR_CNT) DIRECT_PTR_CNT) (with_dir dir (with_lengths len inode_new)))) =
  inode_for first n len dir.
Proof.
  intros Hn. unfold with_dbl, with_ind, inode_for.
  destruct (Z.ltb_spec DIRECT_PTR_CNT n), (Z.ltb_spec (DIRECT_PTR_CNT + PTRS_PER_BLOCK) n); try done; sizes; lia.
Qed.

Lemma inode_bytes_length first n len dir : List.length (inode_bytes (inode_for first n len dir)) = Z.to_nat SECTOR_SIZE.
Proof.
  unfold inode_bytes. cbn [direct_blocks indirect_block doubly_indirect_block file_length write_end magic is_dir is_symlink padding inode_for].
  by rewrite !length_app, concat_words_length, ptr_words_length, !le_bytes_length, zeros_length.
Qed.

Lemma inode_bytes_u8 first n len dir : in_u8 dir -> Forall in_u8 (inode_bytes (inode_for first n len dir)).
Proof.
  intros Hd. unfold inode_bytes. cbn [direct_blocks indirect_block doubly_indirect_block file_length write_end magic is_dir is_symlink padding inode_for].
  rewrite !Forall_app. split_and!; try apply le_bytes_u8; try apply concat_words_u8; try apply zeros_u8. by rewrite !Forall_cons.
Qed.

Lemma as_lengths l : blocks l <= MAX_BLOCKS -> as_i32 (Z.of_nat (List.length l)) = Z.of_nat (List.length l) /\ as_u32 (blocks l) = blocks l.
Proof.
  intros H. pose proof (blocks_nonneg l). unfold blocks in *. split.
  - apply as_i32_small. unfold in_i32, i32_min, i32_max. sizes. Z.div_mod_to_equations. lia.
  - apply as_u32_small. unfold in_u32, u32_lim. sizes. lia.
Qed.

(** The common course of [write_file], [write_root_dir] and [write_free_map]. *)
Lemma cost_spec n : 0 <= n ->
  n <= cost n /\ (DIRECT_PTR_CNT < n -> n + 1 <= cost n) /\
  (DIRECT_PTR_CNT + PTRS_PER_BLOCK < n -> 0 < outer_count n /\ cost n = n + 2 + outer_count n).
Proof.
  intros Hn. unfold cost. destruct (Z.ltb_spec DIRECT_PTR_CNT n), (Z.ltb_spec (DIRECT_PTR_CNT + PTRS_PER_BLOCK) n); sizes; Z.div_mod_to_equations; lia.
Qed.

Lemma laid_out_built N old v0 v s first l dir :
  let n := blocks l in
  0 <= s < first -> first + cost n <= N ->
  (forall t, 0 <= t < N -> v t =
     upd s (inode_bytes (inode_for first n (Z.of_nat (List.length l)) dir))
       (if DIRECT_PTR_CNT + PTRS_PER_BLOCK <? n then dbl_view first n (first + n + 1) (
          upd (first + n) (ptr_block (first + DIRECT_PTR_CNT) (Z.min (n - DIRECT_PTR_CNT) PTRS_PER_BLOCK)) (run_of first n l old v0))
        else if DIRECT_PTR_CNT <? n then
          upd (first + n) (ptr_block (first + DIRECT_PTR_CNT) (Z.min (n - DIRECT_PTR_CNT) PTRS_PER_BLOCK)) (run_of first n l old v0)
        else run_of first n l old v0) t) ->
  laid_out v s first l dir.
Proof.
  intros n Hs Hlim Hv. pose proof (blocks_nonneg l) as Hn. fold n in Hn. destruct (cost_spec n Hn) as (Hc1 & Hc2 & Hc3). split; fold n.
  - rewrite Hv by lia. unfold upd at 1. by rewrite decide_True.
  - intros k Hk. exists (drop (List.length (chunk l k)) (old (first + k))). rewrite Hv by lia. unfold upd at 1. rewrite decide_False by lia.
    assert (run_of first n l old v0 (first + k) = chunk l k ++ drop (List.length (chunk l k)) (old (first + k))) as <-.
    { unfold run_of. rewrite decide_True by lia. by replace (first + k - first) with k by lia. }
    unfold dbl_view, upd. repeat case_match; try lia; done.
  - intros Hi. rewrite Hv by lia. unfold upd at 1. rewrite decide_False by lia. rewrite (proj2 (Z.ltb_lt _ _) Hi).
    destruct (_ <? n); unfold dbl_view, upd; [rewrite !(decide_False (P := _ = first + n + 1)) by lia; rewrite decide_False by lia|]; by rewrite decide_True.
  - intros Hi. rewrite Hv by lia. unfold upd at 1. rewrite decide_False by lia. rewrite (proj2 (Z.ltb_lt _ _) Hi). unfold dbl_view. rewrite decide_True by done.
    f_equal. lia.
  - intros Hi o Ho. rewrite Hv by lia. unfold upd at 1. rewrite decide_False by lia. rewrite (proj2 (Z.ltb_lt _ _) Hi). unfold dbl_view.
    rewrite decide_False, decide_True by lia. f_equal. lia.
Qed.


Lemma wp_write_file l b (Q : Z -> DiskBuilder -> Prop) :
  build_ok b -> Forall in_u8 l -> blocks l <= MAX_BLOCKS -> next_free b + 1 + cost (blocks l) <= sector_count b ->
  (forall b', build_ok b' -> sector_count b' = sector_count b -> next_free b' = next_free b + 1 + cost (blocks l) ->
     laid_out (sec b') (next_free b) (next_free b + 1) l 0 -> (forall t, 0 <= t < next_free b -> sec b' t = sec b t) -> Q (next_free b) b') ->
  wp (write_file l) b Q.
Proof.
  intros Hok H8 Hmax Hroom HQ. pose proof (blocks_nonneg l) as Hn. destruct (cost_spec _ Hn) as (Hc1 & Hc2 & Hc3).
  destruct (as_lengths l Hmax) as [Ei Eu]. pose proof (bo_next _ Hok) as Hnf. pose proof (bo_count _ Hok) as Hcnt.
  unfold write_file. fold (blocks l). set (n := blocks l) in *. set (nf := next_free b) in *. rewrite Ei, Eu.
  apply wp_bind, wp_alloc_sector; [done|lia|]. intros b1 [A1 B1 C1 D1]. fold nf in C1 |- *.
  apply wp_bind, wp_alloc_sectors; [done|lia|lia|]. intros b2 [A2 B2 C2 D2]. rewrite C1 in *.
  apply wp_bind, wp_write_data; [done|lia|lia|lia|done|]. intros b3 [A3 B3 C3 D3]. cbv zeta.
  apply wp_bind, wp_link_direct; [sizes; lia|lia|lia|done|]. apply wp_bind, wp_link_indirect; [done|lia|lia|unfold cost in Hroom; repeat case_match; sizes; Z.div_mod_to_equations; lia|].
  intros b4 [A4 B4 C4 D4]. apply wp_bind, wp_link_doubly; [done|lia|done|lia|unfold cost in Hroom; lia|].
  intros b5 [A5 B5 C5 D5].
  assert (next_free b3 = nf + 1 + n) as E3 by lia. rewrite C4, E3.
  change (with_lengths (Z.of_nat (List.length l)) inode_new) with (with_dir 0 (with_lengths (Z.of_nat (List.length l)) inode_new)).
  rewrite linked_inode by done. apply wp_bind, wp_store_sector; [done|lia|apply inode_bytes_length|by apply inode_bytes_u8|].
  intros b6 [A6 B6 C6 D6].
  assert (forall t, 0 <= t < sector_count b -> sec b4 t = (if DIRECT_PTR_CNT <? n then
    upd (nf + 1 + n) (ptr_block (nf + 1 + DIRECT_PTR_CNT) (Z.min (n - DIRECT_PTR_CNT) PTRS_PER_BLOCK)) (run_of (nf + 1) n l (sec b2) (sec b2))
    else run_of (nf + 1) n l (sec b2) (sec b2)) t) as D4'.
  { intros t Ht. rewrite D4, E3 by lia. destruct (DIRECT_PTR_CNT <? n); [|apply D3; lia]. unfold upd. case_decide; [done|]. apply D3. lia. }
  assert (forall t, 0 <= t < sector_count b -> sec b6 t = upd nf (inode_bytes (inode_for (nf + 1) n (Z.of_nat (List.length l)) 0))
    (if DIRECT_PTR_CNT + PTRS_PER_BLOCK <? n then dbl_view (nf + 1) n (nf + 1 + n + 1) (
       upd (nf + 1 + n) (ptr_block (nf + 1 + DIRECT_PTR_CNT) (Z.min (n - DIRECT_PTR_CNT) PTRS_PER_BLOCK)) (run_of (nf + 1) n l (sec b2) (sec b2)))
     else if DIRECT_PTR_CNT <? n then
       upd (nf + 1 + n) (ptr_block (nf + 1 + DIRECT_PTR_CNT) (Z.min (n - DIRECT_PTR_CNT) PTRS_PER_BLOCK)) (run_of (nf + 1) n l (sec b2) (sec b2))
     else run_of (nf + 1) n l (sec b2) (sec b2)) t) as D6'.
  { intros t Ht. rewrite D6 by lia. unfold upd at 1 2. case_decide; [done|]. rewrite D5, C4, E3 by lia.
    destruct (Z.ltb_spec (DIRECT_PTR_CNT + PTRS_PER_BLOCK) n) as [Hd|Hd]; [|apply D4'; lia].
    rewrite (proj2 (Z.ltb_lt DIRECT_PTR_CNT n)) in * by (sizes; lia). unfold dbl_view. repeat case_decide; try done. apply D4'. lia. }
  apply wp_ret, HQ; [done|congruence|unfold cost; lia|..].
  - apply (laid_out_built (sector_count b) (sec b2) (sec b2)); [lia|fold n; lia|exact D6'].
  - intros t Ht. rewrite D6' by lia. rewrite <- D1, <- D2 by lia. unfold upd at 1. rewrite decide_False by lia.
    unfold dbl_view, upd, run_of. repeat case_match; try lia; done.
Qed.

Lemma laid_out_single N old v0 v s first l dir :
  let n := blocks l in
  n <= DIRECT_PTR_CNT + PTRS_PER_BLOCK -> 0 <= s < first -> first + cost n <= N ->
  (forall t, 0 <= t < N -> v t = upd s (inode_bytes (inode_for first n (Z.of_nat (List.length l)) dir))
     (if DIRECT_PTR_CNT <? n then
        upd (first + n) (ptr_block (first + DIRECT_PTR_CNT) (Z.min (n - DIRECT_PTR_CNT) PTRS_PER_BLOCK)) (run_of first n l old v0)
      else run_of first n l old v0) t) ->
  laid_out v s first l dir.
Proof.
  intros n Hn Hs Hc Hv. apply (laid_out_built N old v0); [done|done|]. fold n. by rewrite (proj2 (Z.ltb_ge (DIRECT_PTR_CNT + PTRS_PER_BLOCK) n)).
Qed.

Lemma inode_for_single first n len dir : 0 <= n <= DIRECT_PTR_CNT + PTRS_PER_BLOCK ->
  with_ind n (first + n) (with_direct (ptr_words first (Z.min n DIRECT_PTR_CNT) DIRECT_PTR_CNT) (with_dir dir (with_lengths len inode_new))) = inode_for first n len dir.
Proof.
  intros Hn. rewrite <- linked_inode by lia. unfold with_dbl. by rewrite (proj2 (Z.ltb_ge (DIRECT_PTR_CNT + PTRS_PER_BLOCK) n)) by lia.
Qed.

Lemma cost_single n : n <= DIRECT_PTR_CNT + PTRS_PER_BLOCK -> cost n = n + (if DIRECT_PTR_CNT <? n then 1 else 0).
Proof. intros Hn. unfold cost. rewrite (proj2 (Z.ltb_ge (DIRECT_PTR_CNT + PTRS_PER_BLOCK) n)) by lia. lia. Qed.

Lemma wp_write_root_dir e b (Q : unit -> DiskBuilder -> Prop) :
  let l := dir_data e in
  build_ok b -> Forall in_u8 l -> blocks l <= DIRECT_PTR_CNT + PTRS_PER_BLOCK -> next_free b + cost (blocks l) <= sector_count b ->
  (forall b', build_ok b' -> sector_count b' = sector_count b -> next_free b' = next_free b + cost (blocks l) ->
     laid_out (sec b') ROOT_DIR_SECTOR (next_free b) l 1 -> (forall t, 0 <= t < next_free b -> t <> ROOT_DIR_SECTOR -> sec b' t = sec b t) -> Q tt b') ->
  wp (write_root_dir e) b Q.
Proof.
  intros l Hok H8 Hmax Hroom HQ. pose proof (blocks_nonneg l) as Hn. rewrite cost_single in * by done.
  destruct (as_lengths l) as [Ei Eu]; [sizes; lia|]. pose proof (bo_next _ Hok) as Hnf. pose proof (bo_count _ Hok) as Hcnt.
  unfold write_root_dir. fold l. fold (blocks l). set (n := blocks l) in *. set (nf := next_free b) in *. rewrite Ei, Eu.
  assert (nf + n <= sector_count b) as Hroom' by (destruct (DIRECT_PTR_CNT <? n); lia).
  apply wp_bind, wp_alloc_sectors; [done|lia|lia|]. intros b2 [A2 B2 C2 D2]. fold nf.
  apply wp_bind, wp_write_data; [done|lia|lia|lia|done|]. intros b3 [A3 B3 C3 D3]. cbv zeta.
  apply wp_bind, wp_link_direct; [sizes; lia|lia|lia|done|]. apply wp_bind, wp_link_indirect; [done|lia|lia|lia|].
  intros b4 [A4 B4 C4 D4]. assert (next_free b3 = nf + n) as E3 by lia. rewrite E3 in *. rewrite inode_for_single by lia.
  apply wp_store_sector; [done|unfold ROOT_DIR_SECTOR; lia|apply inode_bytes_length|by apply inode_bytes_u8|].
  intros b6 [A6 B6 C6 D6].
  assert (forall t, 0 <= t < sector_count b -> sec b6 t = upd ROOT_DIR_SECTOR (inode_bytes (inode_for nf n (Z.of_nat (List.length l)) 1))
    (if DIRECT_PTR_CNT <? n then
       upd (nf + n) (ptr_block (nf + DIRECT_PTR_CNT) (Z.min (n - DIRECT_PTR_CNT) PTRS_PER_BLOCK)) (run_of nf n l (sec b2) (sec b2))
     else run_of nf n l (sec b2) (sec b2)) t) as D6'.
  { intros t Ht. rewrite D6 by lia. unfold upd at 1 2. case_decide; [done|]. rewrite D4 by lia.
    destruct (DIRECT_PTR_CNT <? n); [|apply D3; lia]. unfold upd. case_decide; [done|]. apply D3. lia. }
  apply HQ; [done|congruence|lia|..].
  - apply (laid_out_single (sector_count b) (sec b2) (sec b2)); [done|unfold ROOT_DIR_SECTOR; lia|fold n; rewrite cost_single by done; lia|exact D6'].
  - intros t Ht Hne. rewrite D6' by lia. rewrite <- D2 by lia. unfold upd at 1. rewrite decide_False by done.
    unfold upd, run_of. repeat case_match; try lia; done.
Qed.


(** ** The free map *)

(** A bitmap in which the sectors below [nf] are in use. *)
Record bits_ok (count nf : Z) (bm : list Z) : Prop := {
  bt_len : Z.of_nat (List.length bm) = (count + 7) / 8;
  bt_u8 : Forall in_u8 bm;
  bt_used : forall t, 0 <= t -> FreeMap.used bm t = bool_decide (t < nf);
}.

Lemma used_zeros n t : FreeMap.used (zeros n) t = false.
Proof.
  unfold FreeMap.used, zeros. destruct (replicate _ _ !! _) as [x|] eqn:E; [|done]. by apply lookup_replicate in E as [-> _].
Qed.

Lemma wp_make_bitmap b (Q : list Z -> DiskBuilder -> Prop) :
  build_ok b -> (forall bm, bits_ok (sector_count b) (next_free b) bm -> Q bm b) -> wp (make_bitmap ((sector_count b + 7) / 8)) b Q.
Proof.
  intros [H1 H2 H3 H4 H5 H6] HQ. unfold make_bitmap. apply wp_bind, wp_gets. rewrite H5. set (N := (sector_count b + 7) / 8).
  assert (0 <= N) by (apply Z.div_pos; lia).
  apply (wp_fold_range (fun i bm b' => b' = b /\ Z.of_nat (List.length bm) = N /\ Forall in_u8 bm /\
    forall t, 0 <= t -> FreeMap.used bm t = bool_decide (t < i /\ t < next_free b))); [lia|..].
  - split; [done|]. split; [rewrite zeros_length; lia|]. split; [apply zeros_u8|]. intros t Ht. rewrite used_zeros. by rewrite bool_decide_false by lia.
  - intros i bm b' Hi (-> & Hl & H8 & Hu). apply wp_bind, (wp_index _ _ (bool_decide (i < next_free b))); [lia|by apply H6|].
    assert (i / 8 < N) as Hi8 by (unfold N; Z.div_mod_to_equations; lia). assert (0 <= i / 8) by (apply Z.div_pos; lia).
    case_bool_decide as Hlt.
    + destruct (lookup_lt_is_Some_2 bm (Z.to_nat (i / 8))) as [x Hx]; [lia|]. apply wp_bind, (wp_index _ _ x); [done|done|].
      apply wp_index_set; [lia|].
      assert (<[Z.to_nat (i / 8) := Z.lor x (Z.shiftl 1 (i mod 8))]> bm = set_used bm i true) as -> by (unfold set_used; by rewrite Hx).
      split; [done|]. rewrite set_used_length. split; [done|]. split; [by apply set_used_u8|]. intros t Ht. rewrite used_set_used by lia.
      case_decide as Et; [subst; symmetry; apply bool_decide_eq_true; lia|]. rewrite Hu by done. apply bool_decide_ext. lia.
    + apply wp_ret. split; [done|]. split; [done|]. split; [done|]. intros t Ht. rewrite Hu by done. apply bool_decide_ext. lia.
  - intros bm b' (-> & Hl & H8 & Hu). apply HQ. split; [done|done|]. intros t Ht. rewrite Hu by done. apply bool_decide_ext. lia.
Qed.

Lemma run_of_twice first n l1 l2 old old' v t :
  run_of first n l2 old' (run_of first n l1 old v) t = run_of first n l2 old' v t.
Proof. unfold run_of. by case_decide. Qed.

Lemma wp_write_free_map b (Q : unit -> DiskBuilder -> Prop) :
  let n := div_ceil ((sector_count b + 7) / 8) SECTOR_SIZE in
  build_ok b -> n <= DIRECT_PTR_CNT + PTRS_PER_BLOCK -> next_free b + cost n <= sector_count b ->
  (forall b' bm, build_ok b' -> sector_count b' = sector_count b -> next_free b' = next_free b + cost n ->
     bits_ok (sector_count b) (next_free b') bm -> laid_out (sec b') FREE_MAP_SECTOR (next_free b) bm 0 ->
     (forall t, 0 <= t < next_free b -> t <> FREE_MAP_SECTOR -> sec b' t = sec b t) -> Q tt b') ->
  wp write_free_map b Q.
Proof.
  intros n Hok Hmax Hroom HQ. pose proof (bo_next _ Hok) as Hnf. pose proof (bo_count _ Hok) as Hcnt. rewrite cost_single in * by done.
  assert (0 <= n) as Hn by (unfold n; sizes; Z.div_mod_to_equations; lia).
  assert (forall nf bm, bits_ok (sector_count b) nf bm -> blocks bm = n) as Hbl by (intros nf' bm Hbm; unfold blocks; by rewrite (bt_len _ _ _ Hbm)).
  unfold write_free_map. apply wp_bind, wp_gets. cbv zeta. apply wp_bind, wp_make_bitmap; [done|]. intros bm0 Hbm0.
  fold (blocks bm0). rewrite (Hbl _ _ Hbm0). destruct (as_lengths bm0) as [_ Eu]; [rewrite (Hbl _ _ Hbm0); sizes; lia|]. rewrite (Hbl _ _ Hbm0) in Eu. rewrite Eu.
  set (nf := next_free b) in *. assert (nf + n <= sector_count b) as Hroom' by (destruct (DIRECT_PTR_CNT <? n); lia).
  apply wp_bind, wp_alloc_sectors; [done|lia|lia|]. intros b2 [A2 B2 C2 D2]. fold nf. rewrite <- B2.
  apply wp_bind, wp_make_bitmap; [done|]. intros bm1 Hbm1. rewrite B2 in *.
  apply wp_bind, wp_write_data; [done|lia|lia|lia|apply Hbm1|]. intros b3 [A3 B3 C3 D3]. cbv zeta.
  destruct (as_lengths bm1) as [Ei _]; [rewrite (Hbl _ _ Hbm1); sizes; lia|]. rewrite Ei.
  apply wp_bind, wp_link_direct; [sizes; lia|lia|lia|done|].
  assert (forall b5 bm old, build_ok b5 -> sector_count b5 = sector_count b -> next_free b5 = nf + cost n -> bits_ok (sector_count b) (nf + cost n) bm ->
    (forall t, 0 <= t < sector_count b -> sec b5 t = (if DIRECT_PTR_CNT <? n then
       upd (nf + n) (ptr_block (nf + DIRECT_PTR_CNT) (Z.min (n - DIRECT_PTR_CNT) PTRS_PER_BLOCK)) (run_of nf n bm old (sec b2))
     else run_of nf n bm old (sec b2)) t) ->
    wp (write_sector_bytes FREE_MAP_SECTOR (inode_bytes (inode_for nf n (Z.of_nat (List.length bm1)) 0))) b5 Q) as Hfin.
  { intros b5 bm old A5 B5 C5 Hbm D5. rewrite (eq_trans (bt_len _ _ _ Hbm1) (eq_sym (bt_len _ _ _ Hbm))).
    apply wp_store_sector; [done|unfold FREE_MAP_SECTOR; lia|apply inode_bytes_length|by apply inode_bytes_u8|]. intros b6 [A6 B6 C6 D6].
    assert (forall t, 0 <= t < sector_count b -> sec b6 t = upd FREE_MAP_SECTOR (inode_bytes (inode_for nf n (Z.of_nat (List.length bm)) 0))
      (if DIRECT_PTR_CNT <? n then
         upd (nf + n) (ptr_block (nf + DIRECT_PTR_CNT) (Z.min (n - DIRECT_PTR_CNT) PTRS_PER_BLOCK)) (run_of nf n bm old (sec b2))
       else run_of nf n bm old (sec b2)) t) as D6'.
    { intros t Ht. rewrite D6 by lia. unfold upd at 1 2. case_decide; [done|]. apply D5. lia. }
    rewrite cost_single in * by done. apply (HQ b6 bm); [done|congruence|lia|by rewrite C6, C5|..].
    - apply (laid_out_single (sector_count b) old (sec b2)); rewrite ?(Hbl _ _ Hbm); [done|unfold FREE_MAP_SECTOR; lia|rewrite cost_single by done; lia|exact D6'].
    - intros t Ht Hne. rewrite D6' by lia. rewrite <- D2 by lia. unfold upd at 1. rewrite decide_False by done. unfold upd, run_of. repeat case_match; try lia; done. }
  rewrite cost_single in Hfin by done. rewrite <- inode_for_single in Hfin by lia. unfold with_ind in Hfin.
  apply wp_bind. destruct (DIRECT_PTR_CNT <? n) eqn:Hi.
  - apply wp_bind, wp_alloc_sector; [done|lia|]. intros b4 [A4 B4 C4 D4]. assert (sector_count b4 = sector_count b) as Ec by congruence.
    rewrite <- Ec. apply wp_bind, wp_make_bitmap; [done|]. intros bm2 Hbm2. rewrite Ec in Hbm2.
    apply wp_bind, wp_rewrite_data; [done|lia|lia|lia|apply Hbm2|]. intros b5 [A5 B5 C5 D5].
    apply Z.ltb_lt in Hi. apply wp_bind, wp_index_block; [sizes; lia|lia|sizes; lia|sizes; lia|].
    assert (next_free b3 = nf + n) as E3 by lia. rewrite E3 in *.
    apply wp_bind, wp_store_sector; [done|lia|apply ptr_block_length|apply concat_words_u8|]. intros b6 [A6 B6 C6 D6]. apply wp_ret.
    apply (Hfin b6 bm2 (fun _ => zeros SECTOR_SIZE)); [done|congruence|lia|by rewrite C4, <- Z.add_assoc in Hbm2|].
    intros t Ht. rewrite D6 by lia. unfold upd. case_decide; [done|]. rewrite D5 by lia. unfold run_of at 1. rewrite D4, D3 by lia. unfold run_of. by case_decide.
  - apply wp_ret, (Hfin b3 bm1 (sec b2)); [done|congruence|lia|fold nf in C2; by rewrite Z.add_0_r, <- C2|]. intros t Ht. apply D3. lia.
Qed.


(** ** The whole image *)
Lemma wp_new size_mb b (Q : unit -> DiskBuilder -> Prop) :
  1 <= size_mb < 2 ^ 20 ->
  (forall b', build_ok b' -> sector_count b' = 2048 * size_mb -> next_free b' = 2 -> Q tt b') -> wp (new size_mb) b Q.
Proof.
  intros Hs HQ. unfold new, usize_mul. rewrite (proj2 (Z.ltb_lt (size_mb * 1024) _)) by lia. apply wp_bind, wp_ret.
  rewrite (proj2 (Z.ltb_lt (size_mb * 1024 * 1024) _)) by lia. apply wp_bind, wp_ret.
  assert (as_u32 (size_mb * 1024 * 1024 / SECTOR_SIZE) = 2048 * size_mb) as E.
  { replace (size_mb * 1024 * 1024) with (2048 * size_mb * SECTOR_SIZE) by (unfold SECTOR_SIZE; lia). rewrite Z.div_mul by done.
    apply as_u32_small. unfold in_u32, u32_lim. lia. }
  cbv zeta. rewrite E. set (u := replicate (Z.to_nat (2048 * size_mb)) false).
  assert (List.length u = Z.to_nat (2048 * size_mb)) as Hu by apply length_replicate.
  apply wp_bind, wp_index_set; [rewrite Hu; lia|]. apply wp_bind, wp_index_set; [rewrite length_insert, Hu; lia|].
  apply wp_modify, HQ; [|done|done]. split; simpl; try done; [unfold u32_lim; lia|lia|rewrite zeros_length; unfold SECTOR_SIZE; lia|apply zeros_u8|rewrite !length_insert, Hu; lia|].
  intros i Hi. destruct (decide (i = 1)) as [->|H1]; [rewrite list_lookup_insert_eq; [done|rewrite length_insert, Hu; lia]|].
  rewrite list_lookup_insert_ne by lia. destruct (decide (i = 0)) as [->|H0]; [rewrite list_lookup_insert_eq; [done|rewrite Hu; lia]|].
  rewrite list_lookup_insert_ne by lia. unfold u. rewrite lookup_replicate_2 by lia. by rewrite bool_decide_false by lia.
Qed.

(** A file the tool accepts: bytes, not too long, and a name that is not cut inside a character. *)
Record acceptable (f : list Z * list Z) : Prop := {
  ac_bytes : Forall in_u8 f.2;
  ac_size : blocks f.2 <= MAX_BLOCKS;
  ac_name : forall b, f.1 !! Z.to_nat NAME_MAX = Some b -> ~ (128 <= b < 192);
}.

(** Where the files from sector [nf] on are placed, and where they end. *)
Fixpoint placed (nf : Z) (files : list (list Z * list Z)) : list (list Z * Z) :=
  match files with
  | [] => []
  | f :: files' => (take (Z.to_nat NAME_MAX) f.1, nf) :: placed (nf + 1 + cost (blocks f.2)) files'
  end.
Fixpoint placed_end (nf : Z) (files : list (list Z * list Z)) : Z :=
  match files with [] => nf | f :: files' => placed_end (nf + 1 + cost (blocks f.2)) files' end.
Fixpoint files_at (v : Z -> list Z) (nf : Z) (files : list (list Z * list Z)) : Prop :=
  match files with
  | [] => True
  | f :: files' => laid_out v nf (nf + 1) f.2 0 /\ files_at v (nf + 1 + cost (blocks f.2)) files'
  end.

Lemma cost_nonneg l : 0 <= cost (blocks l).
Proof. pose proof (blocks_nonneg l) as H. destruct (cost_spec _ H). lia. Qed.

Lemma placed_end_ge nf files : nf <= placed_end nf files.
Proof. revert nf. induction files as [|f files IH]; intros nf; simpl; [lia|]. pose proof (IH (nf + 1 + cost (blocks f.2))). pose proof (cost_nonneg f.2). lia. Qed.

Lemma files_at_frame v v' nf files : files_at v nf files -> (forall t, nf <= t < placed_end nf files -> v' t = v t) -> files_at v' nf files.
Proof.
  revert nf. induction files as [|f files IH]; intros nf; simpl; [done|]. intros [Hf Hfs] Hv. pose proof (cost_nonneg f.2).
  pose proof (placed_end_ge (nf + 1 + cost (blocks f.2)) files). split.
  - eapply laid_out_frame; [exact Hf|apply Hv; lia|]. intros t Ht. apply Hv. lia.
  - apply IH; [done|]. intros t Ht. apply Hv. lia.
Qed.

Lemma wp_short_name nm b (Q : list Z -> DiskBuilder -> Prop) :
  (forall x, nm !! Z.to_nat NAME_MAX = Some x -> ~ (128 <= x < 192)) -> Q (take (Z.to_nat NAME_MAX) nm) b -> wp (short_name nm) b Q.
Proof.
  intros Hb HQ. unfold short_name. destruct (Z.ltb_spec NAME_MAX (Z.of_nat (List.length nm))) as [Hl|Hl].
  - destruct (lookup_lt_is_Some_2 nm (Z.to_nat NAME_MAX)) as [x Hx]; [unfold NAME_MAX in *; lia|]. apply wp_bind, (wp_index _ _ x); [done|done|].
    specialize (Hb x Hx). destruct ((128 <=? x) && (x <? 192)) eqn:E; [|by apply wp_ret]. apply andb_true_iff in E as [?%Z.leb_le ?%Z.ltb_lt]. lia.
  - apply wp_ret. by rewrite take_ge in HQ by (unfold NAME_MAX in *; lia).
Qed.

Lemma wp_write_files files acc b (Q : list (list Z * Z) -> DiskBuilder -> Prop) :
  build_ok b -> Forall acceptable files -> placed_end (next_free b) files <= sector_count b ->
  (forall b', build_ok b' -> sector_count b' = sector_count b -> next_free b' = placed_end (next_free b) files ->
     files_at (sec b') (next_free b) files -> (forall t, 0 <= t < next_free b -> sec b' t = sec b t) -> Q (acc ++ placed (next_free b) files) b') ->
  wp (for_fold files acc (fun acc f =>
    let! nm := short_name (fst f) in
    let! s := write_file (snd f) in
    ret (acc ++ [(nm, s)]))) b Q.
Proof.
  revert acc b. induction files as [|f files IH]; intros acc b Hok Hacc Hroom HQ; simpl in *.
  { apply wp_ret. specialize (HQ b). rewrite app_nil_r in HQ. by apply HQ. }
  apply Forall_cons in Hacc as [[H8 Hmax Hnm] Hacc]. pose proof (bo_next _ Hok) as Hnf. pose proof (cost_nonneg f.2).
  pose proof (placed_end_ge (next_free b + 1 + cost (blocks f.2)) files).
  apply wp_bind, wp_bind, wp_short_name; [done|]. apply wp_bind, wp_write_file; [done|done|done|lia|].
  intros b1 A1 B1 C1 D1 E1. apply wp_ret. apply IH; [done|done|rewrite C1; lia|]. rewrite C1. intros b2 A2 B2 C2 D2 E2.
  rewrite <- app_assoc. apply HQ; [done|congruence|done| |].
  - split; [|done]. eapply laid_out_frame; [exact D1|apply E2; lia|]. intros t Ht. apply E2. lia.
  - intros t Ht. rewrite E2 by lia. by apply E1.
Qed.

(** The finished image of [count] sectors, the first [nf] of them in use. *)
Record image_of (files : list (list Z * list Z)) (count nf : Z) (v : Z -> list Z) : Prop := {
  im_files : files_at v 2 files;
  im_root : laid_out v ROOT_DIR_SECTOR (placed_end 2 files) (dir_data (placed 2 files)) 1;
  im_map : exists bm, bits_ok count nf bm /\ laid_out v FREE_MAP_SECTOR (placed_end 2 files + cost (blocks (dir_data (placed 2 files)))) bm 0;
}.

(** The sectors an image needs. *)
Definition map_blocks (count : Z) : Z := div_ceil ((count + 7) / 8) SECTOR_SIZE.
Definition needed (count : Z) (files : list (list Z * list Z)) : Z :=
  placed_end 2 files + cost (blocks (dir_data (placed 2 files))) + cost (map_blocks count).

Lemma wp_main size_mb files b0 (Q : list (list Z * Z) -> DiskBuilder -> Prop) :
  let count := 2048 * size_mb in
  1 <= size_mb <= 280 -> Forall acceptable files -> Forall in_u8 (dir_data (placed 2 files)) ->
  blocks (dir_data (placed 2 files)) <= DIRECT_PTR_CNT + PTRS_PER_BLOCK -> needed count files <= count ->
  (forall b, build_ok b -> sector_count b = count -> next_free b = needed count files -> image_of files count (needed count files) (sec b) ->
     Q (placed 2 files) b) ->
  wp (main size_mb files) b0 Q.
Proof.
  intros count Hs Hacc H8 Hdir Hroom HQ. unfold needed in *. set (dc := cost (blocks (dir_data (placed 2 files)))) in *.
  pose proof (cost_nonneg (dir_data (placed 2 files))) as Hdc. fold dc in Hdc. pose proof (placed_end_ge 2 files) as He.
  assert (0 <= map_blocks count <= DIRECT_PTR_CNT + PTRS_PER_BLOCK) as Hmb by (unfold map_blocks, count; sizes; Z.div_mod_to_equations; lia).
  assert (0 <= cost (map_blocks count)) as Hmc by (destruct (cost_spec (map_blocks count)); lia).
  unfold main. apply wp_bind, wp_new; [lia|]. intros b1 A1 B1 C1.
  apply wp_bind, wp_write_files; [done|done|rewrite C1; lia|]. rewrite C1. intros b2 A2 B2 C2 D2 E2. simpl.
  apply wp_bind, wp_write_root_dir; [done|done|done|rewrite C2; fold dc; lia|]. rewrite C2. fold dc. intros b3 A3 B3 C3 D3 E3.
  assert (sector_count b3 = count) as Ec by lia.
  apply wp_bind, wp_write_free_map; [done|rewrite Ec; apply Hmb|rewrite Ec; fold (map_blocks count); lia|]. rewrite Ec. fold (map_blocks count).
  intros b4 bm A4 B4 C4 Hbm D4 E4. apply wp_ret, HQ; [done|congruence|lia|]. split.
  - eapply files_at_frame; [exact D2|]. intros t Ht. rewrite E4, E3 by (unfold ROOT_DIR_SECTOR, FREE_MAP_SECTOR; lia). done.
  - eapply laid_out_frame; [exact D3|apply E4; unfold ROOT_DIR_SECTOR, FREE_MAP_SECTOR; lia|]. fold dc. intros t Ht. apply E4; unfold FREE_MAP_SECTOR; lia.
  - exists bm. rewrite C4, C3 in Hbm. rewrite C3 in D4. done.
Qed.
