(* ===== verification/MkImage.v ===== *)
(** The kernel reads what the image builder wrote: a laid out file is a file in good order for
    the inode layer, with the bytes it was built from. *)
From S2P Require Import Prelude Utf8 Mkdisk MkBuild Block Bio FreeMap Inode InodeLayout FileMap InodeOps InodeAlloc InodeWrite InodeProofs Directory File Filesys DirProofs InodeLife.

(** ** Inodes *)
Definition kernel_inode (first n len dir : Z) : InodeDisk :=
  mkInodeDisk (ptr_words first (Z.min n DIRECT_PTR_CNT) DIRECT_PTR_CNT) (if DIRECT_PTR_CNT <? n then first + n else 0)
    (if DIRECT_PTR_CNT + PTRS_PER_BLOCK <? n then first + n + 1 else 0) len len INODE_MAGIC dir 0 (zeros 442).

Lemma inode_bytes_kernel first n len dir : inode_bytes (inode_for first n len dir) = to_bytes (kernel_inode first n len dir).
Proof. done. Qed.

Lemma ptr_words_u32 base n size : 0 <= base -> base + n <= u32_lim -> Forall in_u32 (ptr_words base n size).
Proof.
  intros Hb Hn. unfold ptr_words. apply Forall_fmap, Forall_seqZ. intros k Hk. simpl. unfold in_u32, u32_lim in *. destruct (Z.ltb_spec k n); lia.
Qed.

Lemma kernel_inode_wf first n len dir : 0 <= first -> 0 <= n -> first + n + 2 <= u32_lim -> in_i32 len -> in_u8 dir -> disk_wf (kernel_inode first n len dir).
Proof.
  intros Hf Hn Hlim Hlen Hdir. unfold u32_lim in *. split; simpl; try done.
  - apply ptr_words_u32; unfold u32_lim; lia.
  - unfold in_u32, u32_lim. case_match; lia.
  - unfold in_u32, u32_lim. case_match; lia.
  - apply zeros_u8.
Qed.

Lemma word_at_ptr_block base n k : 0 <= base -> base + n <= u32_lim -> 0 <= k < PTRS_PER_BLOCK ->
  word_at (ptr_block base n) k = if k <? n then base + k else 0.
Proof.
  intros Hb Hn Hk. unfold ptr_block. rewrite <- (app_nil_r (concat _)). rewrite <- (Z2Nat.id k) at 1 by lia.
  apply word_at_concat; [by apply ptr_words_u32|]. by apply ptr_words_lookup.
Qed.

(** ** The block map *)
Definition slot_of (first n : Z) (sl : slot) : Z :=
  match sl with
  | SData k => if k <? n then first + k else 0
  | SInd => if DIRECT_PTR_CNT <? n then first + n else 0
  | SDbl => if DIRECT_PTR_CNT + PTRS_PER_BLOCK <? n then first + n + 1 else 0
  | SInner o => if (DIRECT_PTR_CNT + PTRS_PER_BLOCK <? n) && (o <? outer_count n) then first + n + 2 + o else 0
  end.

Section laid_out.
Context (v : Z -> list Z) (s first : Z) (l : list Z) (dir : Z).
Context (Hlay : laid_out v s first l dir).
Let n := blocks l.
Context (Hmax : n <= MAX_BLOCKS) (Hfirst : 2 <= first) (Hlim : first + cost n + 2 <= u32_lim) (Hdir : in_u8 dir).
Let d := kernel_inode first n (Z.of_nat (List.length l)) dir.

Lemma laid_len : in_i32 (Z.of_nat (List.length l)) /\ Z.of_nat (List.length l) <= MAX_BYTES.
Proof. unfold n, blocks in Hmax. unfold in_i32, i32_min, i32_max, MAX_BYTES. unfold_sizes. sizes. Z.div_mod_to_equations. lia. Qed.

Lemma laid_wf : disk_wf d.
Proof. pose proof (blocks_nonneg l : 0 <= n) as Hn. destruct (cost_spec n Hn) as [? _]. apply kernel_inode_wf; [lia|done|lia|apply laid_len|done]. Qed.

Lemma laid_inode : of_bytes (v s) = d.
Proof. rewrite (lo_inode _ _ _ _ _ Hlay), inode_bytes_kernel. apply of_to_bytes, laid_wf. Qed.

Lemma laid_inner o : 0 <= o < PTRS_PER_BLOCK -> inner_ptr v d o = slot_of first n (SInner o).
Proof.
  intros Ho. pose proof (blocks_nonneg l : 0 <= n) as Hn. destruct (cost_spec n Hn) as (_ & _ & Hc). unfold inner_ptr. cbn [d kernel_inode doubly_indirect_block slot_of].
  destruct (Z.ltb_spec (DIRECT_PTR_CNT + PTRS_PER_BLOCK) n) as [Hd|Hd]; [|done]. destruct Hc as [Hc1 Hc2]; [done|].
  rewrite (proj2 (Z.eqb_neq _ _)) by lia. pose proof (lo_dbl _ _ _ _ _ Hlay Hd) as E. fold n in E. rewrite E.
  rewrite word_at_ptr_block by lia. simpl. by destruct (o <? outer_count n).
Qed.

Lemma laid_slot sl : slot_ok sl -> slot_ptr v d sl = slot_of first n sl.
Proof.
  intros Hsl. pose proof (blocks_nonneg l : 0 <= n) as Hn. destruct (cost_spec n Hn) as (Hc1 & Hc2 & Hc3).
  destruct sl as [k| | |o]; [|done|done|by apply laid_inner]. cbn [slot_ptr slot_of]. simpl in Hsl.
  destruct (Z.ltb_spec k DIRECT_PTR_CNT) as [Hk|Hk].
  { cbn [d kernel_inode direct_blocks]. unfold byte_at. rewrite ptr_words_lookup by lia. simpl.
    destruct (Z.ltb_spec k (n `min` DIRECT_PTR_CNT)), (Z.ltb_spec k n); try done; lia. }
  destruct (Z.ltb_spec k (DIRECT_PTR_CNT + PTRS_PER_BLOCK)) as [Hk'|Hk'].
  { cbn [d kernel_inode indirect_block]. destruct (Z.ltb_spec DIRECT_PTR_CNT n) as [Hi|Hi]; [|simpl; by rewrite (proj2 (Z.ltb_ge _ _)) by lia].
    rewrite (proj2 (Z.eqb_neq _ _)) by lia. pose proof (lo_ind _ _ _ _ _ Hlay Hi) as E. fold n in E. rewrite E.
    rewrite word_at_ptr_block by (unfold_sizes; sizes; lia). unfold_sizes. sizes.
    destruct (Z.ltb_spec (k - 12) ((n - 12) `min` 128)), (Z.ltb_spec k n); try lia. }
  destruct (dbl_bounds k) as [Ho Hi]; [lia|]. rewrite (laid_inner _ Ho). cbn [slot_of].
  destruct (Z.ltb_spec (DIRECT_PTR_CNT + PTRS_PER_BLOCK) n) as [Hd|Hd]; [|simpl; by rewrite (proj2 (Z.ltb_ge _ _)) by lia]. simpl.
  destruct (outer_count_spec n) as [_ Hspan]; [split; [done|exact Hmax]|].
  pose proof (dbl_split k) as Hk2. set (o := dbl_outer k) in *. set (i := dbl_inner k) in *.
  destruct (Z.ltb_spec o (outer_count n)) as [Hoc|Hoc].
  - rewrite (proj2 (Z.eqb_neq _ _)) by lia. pose proof (lo_inner _ _ _ _ _ Hlay Hd o (conj (proj1 Ho) Hoc)) as E. fold n in E. rewrite E. unfold inner_of.
    rewrite word_at_ptr_block by (unfold_sizes; sizes; lia). unfold_sizes. sizes.
    destruct (Z.ltb_spec i ((n - (12 + 128 + o * 128)) `min` 128)), (Z.ltb_spec k n); try lia.
  - simpl. rewrite (proj2 (Z.ltb_ge _ _)); [done|]. unfold_sizes. sizes. nia.
Qed.

Lemma slot_range sl : slot_of first n sl <> 0 -> slot_ok sl -> first <= slot_of first n sl < first + cost n.
Proof.
  pose proof (blocks_nonneg l : 0 <= n) as Hn. destruct (cost_spec n Hn) as (Hc1 & Hc2 & Hc3).
  destruct sl as [k| | |o]; simpl; intros Hnz Hsl.
  - destruct (Z.ltb_spec k n); lia.
  - destruct (Z.ltb_spec DIRECT_PTR_CNT n) as [Hi|]; [|done]. specialize (Hc2 Hi). lia.
  - destruct (Z.ltb_spec (DIRECT_PTR_CNT + PTRS_PER_BLOCK) n) as [Hi|]; [|done]. specialize (Hc3 Hi). lia.
  - destruct (Z.ltb_spec (DIRECT_PTR_CNT + PTRS_PER_BLOCK) n) as [Hi|]; [|done]. specialize (Hc3 Hi). destruct (Z.ltb_spec o (outer_count n)); [|done]. simpl. lia.
Qed.

Lemma slot_inj a b : slot_ok a -> slot_ok b -> slot_of first n a <> 0 -> slot_of first n a = slot_of first n b -> a = b.
Proof.
  intros Ha Hb. destruct a as [ka| | |oa], b as [kb| | |ob]; simpl in *; repeat case_match;
    rewrite ?andb_true_iff, ?Z.ltb_lt, ?Z.ltb_ge in *; intros; try done; try (f_equal; lia); lia.
Qed.

Lemma laid_file N us : first + cost n <= N -> (forall t, first <= t < first + cost n -> us t = true) ->
  ~ (first <= s < first + cost n) -> file_ok N us v s d.
Proof.
  intros HN Hus Hs. split; [apply laid_wf|..].
  - intros sl Hsl. rewrite laid_slot by done. intros Hnz. pose proof (slot_range sl Hnz Hsl) as Hr. split; [lia|]. split; [by apply Hus|]. intros E. rewrite E in Hr. done.
  - intros a b Ha Hb. rewrite !laid_slot by done. by apply slot_inj.
Qed.

Lemma laid_byte off : 0 <= off < Z.of_nat (List.length l) -> file_byte v d off = byte_at l off.
Proof.
  intros Hoff. unfold file_byte. assert (0 <= off / BLOCK_SECTOR_SIZE < n) as Hk.
  { unfold n, blocks. unfold_sizes. sizes. Z.div_mod_to_equations. lia. }
  rewrite laid_slot by (simpl; lia). simpl. rewrite (proj2 (Z.ltb_lt _ _)) by lia. rewrite (proj2 (Z.eqb_neq _ _)) by lia.
  destruct (lo_data _ _ _ _ _ Hlay (off / BLOCK_SECTOR_SIZE) Hk) as [rest ->].
  pose proof (Z.mod_pos_bound off BLOCK_SECTOR_SIZE ltac:(done)) as Hm.
  assert (Z.to_nat (off mod BLOCK_SECTOR_SIZE) < List.length (chunk l (off / BLOCK_SECTOR_SIZE)))%nat as Hlt.
  { unfold chunk, slice. rewrite length_take, length_drop. unfold_sizes. sizes. Z.div_mod_to_equations. lia. }
  unfold byte_at at 1. rewrite lookup_app_l by done. change (byte_at (chunk l (off / BLOCK_SECTOR_SIZE)) (off mod BLOCK_SECTOR_SIZE) = byte_at l off).
  unfold chunk. rewrite byte_at_slice; [|unfold_sizes; sizes; Z.div_mod_to_equations; lia|unfold_sizes; sizes; lia].
  f_equal. unfold_sizes. sizes. Z.div_mod_to_equations. lia.
Qed.
End laid_out.


(** ** A file of the image, as the kernel sees it *)
Record at_sector (a : afs) (s first : Z) (l : list Z) : Prop := {
  as_file : file_at a s;
  as_len : flen a s = Z.of_nat (List.length l);
  as_bytes : forall off, 0 <= off < Z.of_nat (List.length l) -> contents a s off = byte_at l off;
  as_sectors : forall t, file_sector (a_v a) (inode_of a s) t -> first <= t < first + cost (blocks l);
}.

Section image.
Context (a : afs) (s first : Z) (l : list Z) (dir : Z).
Context (Hlay : laid_out (a_v a) s first l dir).
Context (Hmax : blocks l <= MAX_BLOCKS) (Hfirst : 2 <= first) (Hend : first + cost (blocks l) <= a_n a) (Hlim : a_n a + 2 <= u32_lim) (Hdir : in_u8 dir).
Context (Hs : 0 <= s < a_n a) (Hsep : ~ (first <= s < first + cost (blocks l))).

Lemma image_lim : first + cost (blocks l) + 2 <= u32_lim.
Proof. lia. Qed.

Lemma image_inode : inode_of a s = kernel_inode first (blocks l) (Z.of_nat (List.length l)) dir.
Proof. exact (laid_inode _ _ _ _ _ Hlay Hmax Hfirst image_lim Hdir). Qed.

Lemma image_readable : (forall i, a_in a !! s = Some i -> i_length i = Z.of_nat (List.length l)) -> readable a s.
Proof.
  intros Hin. assert (flen a s = Z.of_nat (List.length l)) as Hfl by (unfold flen; by rewrite image_inode). split.
  - rewrite image_inode. split; [exact (laid_wf _ _ _ Hmax Hfirst image_lim Hdir)|]. intros sl Hsl.
    rewrite (laid_slot _ _ _ _ _ Hlay Hmax Hfirst image_lim) by done. intros Hnz.
    pose proof (slot_range first l Hfirst sl Hnz Hsl). lia.
  - done.
  - rewrite Hfl. split; [lia|]. exact (proj2 (laid_len l Hmax)).
  - intros i Hi. rewrite Hfl. by apply Hin.
Qed.

Lemma image_file : (forall i, a_in a !! s = Some i -> i_length i = Z.of_nat (List.length l)) ->
  (forall t, first <= t < first + cost (blocks l) -> a_u a t = true) -> a_u a s = true -> at_sector a s first l.
Proof.
  intros Hin Hus Hu. destruct (image_readable Hin) as [_ _ Hlen Hc]. split.
  - split; [|done|done|done|done]. unfold fok. rewrite image_inode. exact (laid_file _ _ _ _ _ Hlay Hmax Hfirst image_lim Hdir (a_n a) (a_u a) Hend Hus Hsep).
  - unfold flen. by rewrite image_inode.
  - intros off Hoff. unfold contents, fbyte. rewrite image_inode. exact (laid_byte _ _ _ _ _ Hlay Hmax Hfirst image_lim off Hoff).
  - intros t (sl & Hsl & E & Ht). rewrite image_inode, (laid_slot _ _ _ _ _ Hlay Hmax Hfirst image_lim) in E by done. rewrite <- E in *.
    exact (slot_range first l Hfirst sl Ht Hsl).
Qed.
End image.


(** ** The root directory *)
Definition root_entries (e : list (list Z * Z)) : list (list Z * Z) := (dot_name, ROOT_DIR_SECTOR) :: (dotdot_name, ROOT_DIR_SECTOR) :: e.
Definition entry_of (e : list Z * Z) : list Z := entry_to_bytes (make_entry e.1 e.2).

Lemma dir_data_kernel e : dir_data e = concat (entry_of <$> root_entries e).
Proof. unfold dir_data. cbn [fmap list_fmap concat root_entries]. by rewrite <- !list_fmap_compose. Qed.

(** Records of one size, one after the other. *)
Section records.
Context {A : Type} (f : A -> list Z) (size : Z) (Hsize : 0 < size).

Lemma concat_size xs : Forall (fun x => Z.of_nat (List.length (f x)) = size) xs -> Z.of_nat (List.length (concat (f <$> xs))) = size * Z.of_nat (List.length xs).
Proof. induction 1 as [|x xs Hx _ IH]; [simpl; lia|]. cbn [fmap list_fmap concat]. rewrite length_app. simpl. lia. Qed.

Lemma concat_byte xs i x k : Forall (fun x => Z.of_nat (List.length (f x)) = size) xs -> xs !! i = Some x -> 0 <= k < size ->
  byte_at (concat (f <$> xs)) (size * Z.of_nat i + k) = byte_at (f x) k.
Proof.
  intros H. revert i. induction H as [|y xs Hy Hxs IH]; intros i Hi Hk; [done|]. cbn [fmap list_fmap concat]. unfold byte_at. destruct i as [|i]; simpl in Hi.
  - injection Hi as ->. rewrite lookup_app_l by lia. do 3 f_equal. lia.
  - rewrite lookup_app_r by nia. pose proof (IH i Hi Hk) as E. unfold byte_at in E. rewrite <- E. do 2 f_equal. nia.
Qed.
End records.

(** Names and sectors that fit a directory entry. *)
Definition entry_fits (e : list Z * Z) : Prop := name_ok e.1 /\ in_u32 e.2.

Lemma entry_of_length e : entry_fits e -> Z.of_nat (List.length (entry_of e)) = DIR_ENTRY_SIZE.
Proof. intros [Hn Hs]. unfold entry_of. rewrite entry_to_bytes_length by by apply make_entry_wf. done. Qed.

Lemma root_entries_fit e : Forall entry_fits e -> Forall entry_fits (root_entries e).
Proof.
  intros He. unfold root_entries. rewrite !Forall_cons. split; [|split; [|done]]; (split; [split; [done|repeat apply Forall_cons_2; done]|done]).
Qed.

Lemma dir_data_u8 e : Forall entry_fits e -> Forall in_u8 (dir_data e).
Proof.
  intros He. rewrite dir_data_kernel. pose proof (root_entries_fit e He) as Hr. induction Hr as [|x xs [Hn Hs] _ IH]; [done|].
  cbn [fmap list_fmap concat]. apply Forall_app. split; [by apply entry_to_bytes_u8, make_entry_wf|done].
Qed.

Lemma dir_data_length e : Forall entry_fits e -> Z.of_nat (List.length (dir_data e)) = DIR_ENTRY_SIZE * (Z.of_nat (List.length e) + 2).
Proof.
  intros He. rewrite dir_data_kernel, (concat_size _ DIR_ENTRY_SIZE); [simpl; lia|].
  eapply Forall_impl; [by apply root_entries_fit|]. apply entry_of_length.
Qed.

Section root.
Context (a : afs) (first : Z) (e : list (list Z * Z)) (He : Forall entry_fits e).
Context (Hroot : at_sector a ROOT_DIR_SECTOR first (dir_data e)).

Lemma root_count : dir_count a ROOT_DIR_SECTOR = Z.of_nat (List.length (root_entries e)).
Proof. unfold dir_count. rewrite (as_len _ _ _ _ Hroot), dir_data_length by done. rewrite Z.mul_comm, Z.div_mul by done. simpl. lia. Qed.

Lemma root_entry i x : root_entries e !! i = Some x -> entry_at a ROOT_DIR_SECTOR (Z.of_nat i) = make_entry x.1 x.2.
Proof.
  intros Hi. pose proof (root_entries_fit e He) as Hr. pose proof (Forall_lookup_1 _ _ _ _ Hr Hi) as Hx.
  rewrite <- (bytes_to_entry_to_bytes (make_entry x.1 x.2)) by (by apply make_entry_wf; apply Hx).
  apply entry_at_bytes; [by apply entry_to_bytes_length, make_entry_wf; apply Hx|]. intros k Hk.
  pose proof (lookup_lt_Some _ _ _ Hi) as Hlt. rewrite (as_bytes _ _ _ _ Hroot).
  - rewrite dir_data_kernel. apply (concat_byte entry_of DIR_ENTRY_SIZE); [done| |done|done]. eapply Forall_impl; [exact Hr|]. apply entry_of_length.
  - rewrite dir_data_length by done. unfold DIR_ENTRY_SIZE in *. simpl in Hlt. lia.
Qed.

(** A name is found where its first entry says. *)
Lemma root_finds i nm s : e !! i = Some (nm, s) -> nm <> dot_name -> nm <> dotdot_name ->
  (forall j nm' s', (j < i)%nat -> e !! j = Some (nm', s') -> nm' <> nm) -> finds a ROOT_DIR_SECTOR nm (Some s).
Proof.
  intros Hi Hd Hdd Hfirst. pose proof (root_entries_fit e He) as Hr. pose proof (lookup_lt_Some _ _ _ Hi) as Hlt.
  assert (root_entries e !! S (S i) = Some (nm, s)) as Hi2 by done. pose proof (Forall_lookup_1 _ _ _ _ Hr Hi2) as [Hnm _].
  exists (Z.of_nat (S (S i))). rewrite root_count, (root_entry _ _ Hi2). split; [simpl; lia|]. rewrite name_matches_make by done.
  split; [by apply bool_decide_eq_true|]. split; [done|]. intros j Hj. rewrite <- (Z2Nat.id j) by lia.
  destruct (lookup_lt_is_Some_2 (root_entries e) (Z.to_nat j)) as [[nm' s'] Hj']; [simpl; lia|].
  pose proof (Forall_lookup_1 _ _ _ _ Hr Hj') as [Hnm' _]. rewrite (root_entry _ _ Hj'), name_matches_make by done. apply bool_decide_eq_false. simpl.
  intros <-. destruct (Z.to_nat j) as [|[|j']] eqn:Ej; simpl in Hj'; [congruence|congruence|]. eapply (Hfirst j'); [lia|done|done].
Qed.
End root.


(** ** Mounting the image *)
Section mount.
Context {D : Type} `{!BlockOps D, !BlockLaws D}.

(** A file system whose device holds the [count] sectors [v]. *)
Record holds_image (fs : FS D) (count : Z) (v : Z -> list Z) : Prop := {
  hi_dev : is_Some (fs_dev (fs_bio fs));
  hi_size : fs_size (fs_bio fs) = count;
  hi_view : forall t, 0 <= t < count -> view (fs_bio fs) t = v t;
}.

Record mounted (fs : FS D) (count nf : Z) (v : Z -> list Z) : Prop := {
  mo_ok : fs_ok fs;
  mo_view : forall t, 0 <= t < count -> a_v (abs fs) t = v t;
  mo_size : a_n (abs fs) = count;
  mo_used : forall t, 0 <= t -> a_u (abs fs) t = bool_decide (t < nf);
  mo_open : forall s i, a_in (abs fs) !! s = Some i -> s = FREE_MAP_SECTOR /\ i_length i = flen (abs fs) s;
}.

Lemma wp_fresh_map (fm : FreeMap) count (Q : unit -> FreeMap -> Prop) :
  2 <= count < u32_lim -> (forall fm', fm_ok fm' -> SECTOR_COUNT fm' = count -> Q tt fm') -> wp (FreeMap.init count) fm Q.
Proof.
  intros Hc HQ. change (wp (FreeMap.init count) (mkFreeMap [] 0 (IN_FLUSH fm)) Q).
  eapply wp_mono; [by apply fm_ok_init|]. intros [] fm' (H1 & H2 & _). by apply HQ.
Qed.

Lemma byte_at_ext (x y : list Z) : List.length x = List.length y -> (forall k, 0 <= k < Z.of_nat (List.length x) -> byte_at x k = byte_at y k) -> x = y.
Proof.
  intros Hl Hb. apply list_eq. intros i. destruct (decide (i < List.length x)%nat) as [Hi|Hi].
  - rewrite <- (Nat2Z.id i), !byte_at_lookup by lia. f_equal. apply Hb. lia.
  - rewrite !lookup_ge_None_2 by lia. done.
Qed.

(** The bitmap [bm] in place. *)
Lemma mounted_map fs count nf v bm : fs_ok fs -> 0 <= nf -> bits_ok count nf bm -> List.length (FREE_MAP (fs_fm fs)) = List.length bm -> a_n (abs fs) = count ->
  (forall t, 0 <= t < count -> a_v (abs fs) t = v t) ->
  (forall s i, a_in (abs fs) !! s = Some i -> s = FREE_MAP_SECTOR /\ i_length i = flen (abs fs) s) ->
  mounted (with_fm (with_map bm (fs_fm fs)) fs) count nf v.
Proof.
  intros [A [Bl Bc B8] C E] Hnf Hbm Hl Hn Hv Hi. split; [split|..]; simpl; try done.
  - split; simpl; [by rewrite <- Hl|done|apply Hbm].
  - intros t Ht. unfold is_used. simpl. rewrite (proj2 (Z.leb_le _ _) Ht). simpl. by apply Hbm.
Qed.

Lemma wp_mount fs count nf v bm first (Q : unit -> FS D -> Prop) :
  holds_image fs count v -> 2 <= count -> count + 2 <= u32_lim -> 0 <= nf -> bits_ok count nf bm -> laid_out v FREE_MAP_SECTOR first bm 0 -> blocks bm <= MAX_BLOCKS ->
  2 <= first -> first + cost (blocks bm) <= count ->
  (forall fs', mounted fs' count nf v -> Q tt fs') -> wp (Filesys.init false) fs Q.
Proof.
  intros [[dev Hdev] Hsize Hview] Hc2 Hclim Hnf Hbm Hlay Hmax Hfirst Hend HQ. unfold Filesys.init, filesys_size.
  apply wp_bind. unfold wp at 1. rewrite Hdev. unfold fs_size in Hsize. rewrite Hdev in Hsize. simpl in Hsize. rewrite Hsize.
  unfold Inode.init. apply wp_bind, wp_bind, wp_zoom, wp_modify, wp_modify, wp_bind, wp_zoom, wp_fresh_map; [unfold u32_lim in *; lia|]. intros fm Hfm Hcount.
  set (fs1 := with_fm fm _).
  assert (fs_ok fs1) as Hok1.
  { split; [apply bio_ok_fresh; by eexists|done|unfold fs1, fs_size; simpl; change (from_option dev_size 0 (fs_dev (fs_bio fs)) = SECTOR_COUNT fm); rewrite Hdev; simpl; lia|simpl; rewrite Hcount; unfold u32_lim in *; lia]. }
  assert (a_v (abs fs1) = view (fs_bio fs)) as Hv1 by done. assert (a_n (abs fs1) = count) as Hn1 by done. assert (a_in (abs fs1) = ∅) as Hi1 by done.
  clearbody fs1. unfold fm_open. apply wp_bind, wp_open_new; [done|rewrite Hn1; unfold Inode.FREE_MAP_SECTOR; lia|by rewrite Hi1, lookup_empty|].
  intros fs2 Hok2 Ha2. apply wp_bind, wp_gets.
  assert (a_n (abs fs2) = count) as Hn2 by (by rewrite Ha2). assert (a_v (abs fs2) = view (fs_bio fs)) as Hv2 by (by rewrite Ha2).
  assert (forall fs', fs_ok fs' -> a_n (abs fs') = count -> List.length (FREE_MAP (fs_fm fs')) = List.length bm) as Hml.
  { intros fs' [_ [Hl _ _] _ _] Hn'. rewrite Hl. change (SECTOR_COUNT (fs_fm fs')) with (a_n (abs fs')). rewrite Hn', <- (bt_len _ _ _ Hbm). lia. }
  assert (laid_out (a_v (abs fs2)) Inode.FREE_MAP_SECTOR first bm 0) as Hlay2.
  { rewrite Hv2. eapply laid_out_frame; [exact Hlay|apply Hview; unfold FREE_MAP_SECTOR, Inode.FREE_MAP_SECTOR; lia|]. intros t Ht. apply Hview. lia. }
  assert (first + cost (blocks bm) <= a_n (abs fs2)) as He2 by lia. assert (a_n (abs fs2) + 2 <= u32_lim) as Hlim2 by lia.
  assert (in_u8 0) as H80 by done. assert (0 <= Inode.FREE_MAP_SECTOR < a_n (abs fs2)) as Hr0 by (unfold Inode.FREE_MAP_SECTOR; lia).
  pose proof (image_inode (abs fs2) Inode.FREE_MAP_SECTOR first bm 0 Hlay2 Hmax Hfirst He2 Hlim2 H80) as Hino.
  assert (flen (abs fs2) Inode.FREE_MAP_SECTOR = Z.of_nat (List.length bm)) as Hfl by (unfold flen; by rewrite Hino).
  assert (forall i, a_in (abs fs2) !! Inode.FREE_MAP_SECTOR = Some i -> i_length i = Z.of_nat (List.length bm)) as Hcache.
  { intros i. rewrite Ha2. simpl. rewrite lookup_insert_eq. intros [= <-]. rewrite <- Hfl. unfold flen, inode_of. by rewrite Hv2, <- Hv1. }
  pose proof (image_readable (abs fs2) Inode.FREE_MAP_SECTOR first bm 0 Hlay2 Hmax Hfirst He2 Hlim2 H80 Hr0 Hcache) as Hrd.
  pose proof (proj2 (laid_len bm Hmax)) as Hlb. pose proof MAX_i32 as Hm32. rewrite (Hml fs2 Hok2 Hn2). set (N := Z.of_nat (List.length bm)) in *.
  assert (0 < N) as HN by (unfold N; rewrite (bt_len _ _ _ Hbm); Z.div_mod_to_equations; lia).
  apply wp_bind. eapply wp_mono; [apply (wp_read_readable fs2 Inode.FREE_MAP_SECTOR (zeros N) N 0); [done|done|rewrite zeros_length; lia|lia|lia]|].
  intros [n x] fs3 (Hok3 & Ha3 & Hn & Hl & Hb). cbn [fst snd] in *. rewrite zeros_length in Hl.
  assert (n = N) as -> by lia. rewrite (proj2 (Z.ltb_lt _ _) HN).
  assert (x = bm) as ->.
  { apply byte_at_ext; [lia|]. intros k Hk. rewrite Hb by lia. rewrite decide_True by lia. unfold contents, fbyte. rewrite Hino.
    apply (laid_byte _ _ _ _ _ Hlay2 Hmax Hfirst ltac:(lia)). all: lia. }
  assert (List.length (FREE_MAP (fs_fm fs3)) = List.length bm) as Hml3 by (apply Hml; [done|by rewrite Ha3]).
  apply wp_zoom, wp_modify, HQ. rewrite Hml3. fold N. rewrite Z.min_id.
  assert (slice 0 N bm = bm) as -> by (unfold slice; simpl; apply take_ge; lia). rewrite splice_all by done.
  apply (mounted_map fs3 count nf v bm); try done; [by rewrite Ha3|rewrite Ha3, Hv2; exact Hview|].
  intros s i. rewrite Ha3, Ha2. cbn [a_set_inodes a_in]. rewrite Hi1. intros [-> <-]%lookup_singleton_Some. by split.
Qed.
End mount.


(** ** Claims *)

(** The files a disk image is made of: acceptable to the tool, with distinct names that are
    neither empty slots nor the dot names, and few enough for the indirect block of the root. *)
Record image_files (count : Z) (files : list (list Z * list Z)) : Prop := {
  if_ok : Forall acceptable files;
  if_names : Forall (fun f => Forall (fun b => 0 < b < 256) f.1) files;
  if_distinct : NoDup ((fun f => take (Z.to_nat Mkdisk.NAME_MAX) f.1) <$> files);
  if_dots : dot_name ∉ ((fun f => take (Z.to_nat Mkdisk.NAME_MAX) f.1) <$> files) /\ dotdot_name ∉ ((fun f => take (Z.to_nat Mkdisk.NAME_MAX) f.1) <$> files);
  if_number : Z.of_nat (List.length files) <= 3582;
  if_room : needed count files <= count;
}.

Lemma placed_names nf files : (placed nf files).*1 = (fun f => take (Z.to_nat Mkdisk.NAME_MAX) f.1) <$> files.
Proof. revert nf. induction files as [|f files IH]; intros nf; [done|]. simpl. f_equal. apply IH. Qed.

Lemma placed_length nf files : List.length (placed nf files) = List.length files.
Proof. revert nf. induction files as [|f files IH]; intros nf; simpl; [done|]. by rewrite IH. Qed.

Lemma placed_fit nf files : 0 <= nf -> placed_end nf files <= u32_lim -> Forall (fun f => Forall (fun b => 0 < b < 256) f.1) files -> Forall entry_fits (placed nf files).
Proof.
  revert nf. induction files as [|f files IH]; intros nf Hnf He Hn; [done|]; cbn [placed placed_end] in *. apply Forall_cons in Hn as [Hf Hn].
  pose proof (placed_end_ge (nf + 1 + cost (blocks f.2)) files). pose proof (cost_nonneg f.2). apply Forall_cons. split.
  - split; cbn [fst snd]; [|unfold in_u32; lia]. split; [rewrite length_take; unfold Mkdisk.NAME_MAX, NAME_MAX; lia|by apply Forall_take].
  - apply IH; [lia|done|done].
Qed.

Lemma files_at_lookup v nf files i f : files_at v nf files -> files !! i = Some f ->
  exists s, placed nf files !! i = Some (take (Z.to_nat Mkdisk.NAME_MAX) f.1, s) /\ laid_out v s (s + 1) f.2 0 /\ nf <= s /\ s + 1 + cost (blocks f.2) <= placed_end nf files /\
    forall j s' g, (i < j)%nat -> files !! j = Some g -> placed nf files !! j = Some (take (Z.to_nat Mkdisk.NAME_MAX) g.1, s') -> s + 1 + cost (blocks f.2) <= s'.
Proof.
  revert nf i f. induction files as [|g files IH]; intros nf i f Hat Hi; [done|]. destruct Hat as [Hg Hat]. pose proof (cost_nonneg g.2). destruct i as [|i]; simpl in *.
  - injection Hi as ->. exists nf. split; [done|]. split; [done|]. split; [lia|]. split; [apply placed_end_ge|]. intros [|j] s' g' Hj Hjg Hjp; [lia|]. simpl in *.
    destruct (IH _ j g' Hat Hjg) as (s2 & Hp2 & _ & Hs2 & _). rewrite Hjp in Hp2. injection Hp2 as ->. lia.
  - destruct (IH _ i f Hat Hi) as (s & Hp & Hl & Hs & He & Hj). exists s. split; [done|]. split; [done|]. split; [lia|]. split; [done|].
    intros [|j] s' g' Hlt Hjg Hjp; [lia|]. simpl in *. eapply (Hj j); [lia|done|done].
Qed.

Lemma dir_blocks files : Forall entry_fits (placed 2 files) -> Z.of_nat (List.length files) <= 3582 ->
  blocks (dir_data (placed 2 files)) <= Mkdisk.DIRECT_PTR_CNT + Mkdisk.PTRS_PER_BLOCK.
Proof.
  intros Hfit Hn. unfold blocks. rewrite dir_data_length by done. rewrite placed_length. unfold DIR_ENTRY_SIZE. sizes. Z.div_mod_to_equations. lia.
Qed.

Section mounted.
Context {D : Type} `{!BlockOps D, !BlockLaws D}.
Context (size_mb : Z) (files : list (list Z * list Z)).
Let count := 2048 * size_mb.
Context (Hsize : 1 <= size_mb <= 280) (Hfiles : image_files count files).
Context (v : Z -> list Z) (fs : FS D) (Him : image_of files count (needed count files) v) (Hm : mounted fs count (needed count files) v).

Lemma count_lim : count + 2 <= u32_lim.
Proof. unfold count, u32_lim. lia. Qed.

Lemma image_ends : 2 <= placed_end 2 files /\ placed_end 2 files + cost (blocks (dir_data (placed 2 files))) <= needed count files /\ needed count files <= count.
Proof.
  pose proof (placed_end_ge 2 files). split; [done|]. split; [|apply (if_room _ _ Hfiles)]. unfold needed.
  assert (0 <= map_blocks count) as Hb by (unfold map_blocks, count; sizes; Z.div_mod_to_equations; lia). destruct (cost_spec _ Hb). lia.
Qed.

Lemma entries_fit : Forall entry_fits (placed 2 files).
Proof.
  destruct image_ends as (? & ? & ?). pose proof count_lim. pose proof (cost_nonneg (dir_data (placed 2 files))).
  apply placed_fit; [lia|unfold u32_lim in *; lia|apply (if_names _ _ Hfiles)].
Qed.

(** A file of the image, once mounted. *)
Lemma mounted_file s first l dir : laid_out v s first l dir -> blocks l <= MAX_BLOCKS -> 0 <= s < first -> s <> FREE_MAP_SECTOR -> 2 <= first ->
  first + cost (blocks l) <= needed count files -> in_u8 dir -> at_sector (abs fs) s first l.
Proof.
  intros Hlay Hmax Hs Hs0 Hfirst Hend Hdir. destruct image_ends as (He1 & He2 & He3). pose proof (mo_size _ _ _ _ Hm) as Hn. pose proof count_lim. pose proof (cost_nonneg l).
  apply (image_file (abs fs) s first l dir); try done; try lia.
  - eapply laid_out_frame; [exact Hlay|apply (mo_view _ _ _ _ Hm); lia|]. intros t Ht. apply (mo_view _ _ _ _ Hm). lia.
  - intros i Hi. by destruct (mo_open _ _ _ _ Hm s i Hi).
  - intros t Ht. rewrite (mo_used _ _ _ _ Hm) by lia. apply bool_decide_eq_true. lia.
  - rewrite (mo_used _ _ _ _ Hm) by lia. apply bool_decide_eq_true. lia.
Qed.

Lemma mounted_root : at_sector (abs fs) ROOT_DIR_SECTOR (placed_end 2 files) (dir_data (placed 2 files)).
Proof.
  destruct image_ends as (He1 & He2 & He3). apply (mounted_file _ _ _ 1); [apply Him| |unfold ROOT_DIR_SECTOR; lia|done|done|done|done].
  pose proof (dir_blocks files entries_fit (if_number _ _ Hfiles)). unfold_sizes. sizes. lia.
Qed.

Lemma mounted_files i f : files !! i = Some f -> exists s, placed 2 files !! i = Some (take (Z.to_nat Mkdisk.NAME_MAX) f.1, s) /\ at_sector (abs fs) s (s + 1) f.2 /\
  finds (abs fs) ROOT_DIR_SECTOR (take (Z.to_nat Mkdisk.NAME_MAX) f.1) (Some s) /\
  forall j g s', (i < j)%nat -> files !! j = Some g -> placed 2 files !! j = Some (take (Z.to_nat Mkdisk.NAME_MAX) g.1, s') -> s + 1 + cost (blocks f.2) <= s'.
Proof.
  intros Hi. destruct (files_at_lookup v 2 files i f (im_files _ _ _ _ Him) Hi) as (s & Hp & Hlay & Hs & Hend & Hnext). exists s.
  destruct image_ends as (He1 & He2 & He3). pose proof (cost_nonneg (dir_data (placed 2 files))). split; [done|]. split; [|split].
  - apply (mounted_file _ _ _ 0); [done| |lia|unfold FREE_MAP_SECTOR; lia|lia|lia|done]. apply (Forall_lookup_1 _ _ _ _ (if_ok _ _ Hfiles) Hi).
  - assert (take (Z.to_nat Mkdisk.NAME_MAX) f.1 ∈ (fun f => take (Z.to_nat Mkdisk.NAME_MAX) f.1) <$> files) as Hin.
    { apply list_elem_of_fmap. exists f. split; [done|]. by eapply list_elem_of_lookup_2. }
    destruct (if_dots _ _ Hfiles) as [Hd Hdd]. apply (root_finds _ _ _ entries_fit mounted_root i); [done|intros E; by rewrite E in Hin|intros E; by rewrite E in Hin|].
    intros j nm' s' Hj Hj' ->. assert ((placed 2 files).*1 !! i = Some (take (Z.to_nat Mkdisk.NAME_MAX) f.1)) as E1 by (by rewrite list_lookup_fmap, Hp).
    assert ((placed 2 files).*1 !! j = Some (take (Z.to_nat Mkdisk.NAME_MAX) f.1)) as E2 by (by rewrite list_lookup_fmap, Hj'). rewrite placed_names in E1, E2.
    pose proof (NoDup_lookup _ _ _ _ (if_distinct _ _ Hfiles) E1 E2). lia.
  - intros j g s' Hj. by apply Hnext.
Qed.
End mounted.


(** Reading a whole file. *)
Lemma wp_read_whole {D : Type} `{!BlockOps D, !BlockLaws D} (fs : FS D) s first l (Q : Z * list Z -> FS D -> Prop) :
  fs_ok fs -> at_sector (abs fs) s first l ->
  (forall fs', fs_ok fs' -> abs fs' = abs fs -> Q (Z.of_nat (List.length l), l) fs') ->
  wp (read_at s (zeros (Z.of_nat (List.length l))) (Z.of_nat (List.length l)) 0) fs Q.
Proof.
  intros Hok [Hfa Hlen Hb _] HQ. pose proof (fa_len _ _ Hfa) as Hmax. rewrite Hlen in Hmax. pose proof MAX_i32.
  eapply wp_mono; [apply (wp_read_at fs s); [done|done|rewrite zeros_length; lia|lia|lia]|].
  intros [n x] fs' (Hok' & Ha & Hn & Hl & Hx). cbn [fst snd] in *. rewrite zeros_length in Hl. rewrite Hlen in Hn.
  assert (n = Z.of_nat (List.length l)) as -> by lia. assert (x = l) as ->; [|by apply HQ]. apply byte_at_ext; [lia|]. intros k Hk.
  rewrite Hx by lia. rewrite decide_True by lia. rewrite Hb by lia. f_equal.
Qed.

(** A mounted image: the files are where the entries say, found by name, readable, and apart. *)
Definition serves {D : Type} `{!BlockOps D} (files : list (list Z * list Z)) (entries : list (list Z * Z)) (fs : FS D) : Prop :=
  (forall i nm l, files !! i = Some (nm, l) -> exists s, entries !! i = Some (take (Z.to_nat Mkdisk.NAME_MAX) nm, s) /\
     wp (Directory.lookup (mkDir ROOT_DIR_SECTOR 0) (take (Z.to_nat Mkdisk.NAME_MAX) nm)) fs (fun r fs' => r = Some s /\
       wp (read_at s (zeros (Z.of_nat (List.length l))) (Z.of_nat (List.length l)) 0) fs' (fun r _ => r = (Z.of_nat (List.length l), l)))) /\
  (forall i j nm s nm' s', entries !! i = Some (nm, s) -> entries !! j = Some (nm', s') -> i <> j -> separate (abs fs) s s').

Lemma mounted_serves {D : Type} `{!BlockOps D, !BlockLaws D} size_mb files v (fs : FS D) :
  1 <= size_mb <= 280 -> image_files (2048 * size_mb) files -> image_of files (2048 * size_mb) (needed (2048 * size_mb) files) v ->
  mounted fs (2048 * size_mb) (needed (2048 * size_mb) files) v -> serves files (placed 2 files) fs.
Proof.
  intros Hs Hf Him Hm. pose proof (mounted_files size_mb files Hs Hf v fs Him Hm) as Hfiles. split.
  - intros i nm l Hi. destruct (Hfiles i (nm, l) Hi) as (s & Hp & Hat & Hfind & _). exists s. split; [done|]. simpl in Hat, Hfind.
    apply wp_lookup; [apply Hm|apply (as_file _ _ _ _ (mounted_root size_mb files Hs Hf v fs Him Hm))|]. intros r fs' Hok' Ha Hr. split.
    + destruct r as [t|].
      * destruct Hr as (i1 & Hi1 & Hm1 & -> & Hb1), Hfind as (i2 & Hi2 & Hm2 & -> & Hb2). do 2 f_equal. destruct (Z.lt_trichotomy i1 i2) as [Hlt|[->|Hlt]]; [|done|].
        -- rewrite Hb2 in Hm1 by lia. done.
        -- rewrite Hb1 in Hm2 by lia. done.
      * destruct Hfind as (i2 & Hi2 & Hm2 & _). by rewrite Hr in Hm2.
    + eapply wp_read_whole; [done|by rewrite Ha|]. done.
  - assert (forall i j nm s nm' s', (i < j)%nat -> placed 2 files !! i = Some (nm, s) -> placed 2 files !! j = Some (nm', s') -> separate (abs fs) s s') as Hlt.
    { intros i j nm s nm' s' Hij Hi Hj. destruct (lookup_lt_is_Some_2 files i) as [f Hfi]; [rewrite <- (placed_length 2); by eapply lookup_lt_Some|].
      destruct (lookup_lt_is_Some_2 files j) as [g Hgj]; [rewrite <- (placed_length 2); by eapply lookup_lt_Some|].
      destruct (Hfiles i f Hfi) as (s1 & Hp1 & [_ _ _ Hsec1] & _ & Hnext). destruct (Hfiles j g Hgj) as (s2 & Hp2 & [_ _ _ Hsec2] & _ & _).
      rewrite Hi in Hp1. injection Hp1 as -> ->. rewrite Hj in Hp2. injection Hp2 as -> ->. pose proof (Hnext j g s2 Hij Hgj Hj) as Hle. pose proof (cost_nonneg f.2).
      split; [lia|]. split; [intros H1%Hsec1; lia|]. split; [intros H1%Hsec2; lia|]. intros t H1%Hsec1 H2%Hsec2. lia. }
    intros i j nm s nm' s' Hi Hj Hne. destruct (decide (i < j)%nat) as [H|H]; [by eapply Hlt|].
    destruct (Hlt j i nm' s' nm s) as (A & B & C & E); [lia|done|done|]. split; [done|]. split; [done|]. split; [done|]. intros t H1 H2. by apply (E t).
Qed.

(** The kernel mounts what tools/mkdisk writes.  For an image size that the free map's
    indirect block can cover and files that fit, with distinct names, the tool returns; and every
    kernel whose disk holds the image mounts it into a consistent file system in which each name
    is found in the root directory, its file reads back as exactly the bytes that went in, and no
    two files share a sector. *)
Theorem image_mounts size_mb files : 1 <= size_mb <= 280 -> image_files (2048 * size_mb) files ->
  exists entries b, Mkdisk.main size_mb files (mkBuilder [] 0 0 []) = Ok entries b /\
    forall (D : Type) `{!BlockOps D, !BlockLaws D} (fs : FS D), holds_image fs (2048 * size_mb) (sec b) ->
      wp (Filesys.init false) fs (fun _ fs' => fs_ok fs' /\ serves files entries fs').
Proof.
  intros Hs Hf. apply wp_ok. destruct (image_ends size_mb files Hs Hf) as (He1 & He2 & He3).
  pose proof (entries_fit size_mb files Hs Hf) as Hfit. pose proof (count_lim size_mb Hs) as Hcl.
  apply wp_main; [done|apply Hf|by apply dir_data_u8|by apply dir_blocks, Hf|apply Hf|].
  intros b Hb Hc Hn Him. intros D ops laws fs Hh. destruct (im_map _ _ _ _ Him) as (bm & Hbm & Hlay).
  assert (blocks bm = map_blocks (2048 * size_mb)) as Eb by (unfold blocks; by rewrite (bt_len _ _ _ Hbm)).
  pose proof (cost_nonneg (dir_data (placed 2 files))) as Hdc.
  apply (wp_mount fs (2048 * size_mb) (needed (2048 * size_mb) files) (sec b) bm (placed_end 2 files + cost (blocks (dir_data (placed 2 files)))));
    try done; try lia; [rewrite Eb; unfold map_blocks; unfold_sizes; sizes; Z.div_mod_to_equations; lia|rewrite Eb; unfold needed in He3; lia|].
  intros fs' Hm. split; [apply Hm|]. by eapply mounted_serves.
Qed.


(** The image in a RAM disk. *)
Definition ram_image (b : DiskBuilder) : FS RamDisk :=
  mkFS (mkBio (mkRegistry [mkDevice [104; 100; 97; 0] FileSys (sector_count b)
                 (list_to_map ((fun t => (t, sec b t)) <$> seqZ 0 (sector_count b))) 0 0]
                [Some 0%nat; None; None; None]) (mkBCache false []))
       (mkFreeMap [] 0 false) ∅.

Lemma ram_holds b : build_ok b -> holds_image (ram_image b) (sector_count b) (sec b).
Proof.
  intros Hok. split; [by eexists|done|]. intros t Ht.
  change (sector_image (default [] ((list_to_map ((fun t => (t, sec b t)) <$> seqZ 0 (sector_count b)) : gmap Z (list Z)) !! t)) = sec b t).
  rewrite (elem_of_list_to_map_1 _ t (sec b t)).
  - simpl. apply sector_image_id; [by rewrite (sec_length b t)|by apply sec_u8].
  - rewrite <- list_fmap_compose. rewrite (list_fmap_ext (fst ∘ (fun t => (t, sec b t))) id) by done. rewrite list_fmap_id. apply NoDup_seqZ.
  - apply list_elem_of_fmap. exists t. split; [done|]. by apply elem_of_seqZ.
Qed.

Lemma main_builds size_mb files entries b : 1 <= size_mb <= 280 -> image_files (2048 * size_mb) files ->
  Mkdisk.main size_mb files (mkBuilder [] 0 0 []) = Ok entries b -> build_ok b /\ sector_count b = 2048 * size_mb.
Proof.
  intros Hs Hf E. enough (wp (Mkdisk.main size_mb files) (mkBuilder [] 0 0 []) (fun _ b => build_ok b /\ sector_count b = 2048 * size_mb)) as H
    by (unfold wp in H; by rewrite E in H).
  pose proof (entries_fit size_mb files Hs Hf) as Hfit. apply wp_main; [done|apply Hf|by apply dir_data_u8|by apply dir_blocks, Hf|apply Hf|]. done.
Qed.

Definition demo_files : list (list Z * list Z) := [([105; 110; 105; 116], [1; 2; 3]); ([115; 104], [])].

Lemma demo_image_files : image_files (2048 * 1) demo_files.
Proof.
  split; [| | | |vm_compute; discriminate|vm_compute; discriminate].
  - repeat apply Forall_cons_2; [| |done]; (split; [repeat apply Forall_cons_2; done|vm_compute; discriminate|done]).
  - repeat apply Forall_cons_2; done.
  - by apply (bool_decide_unpack _).
  - split; by apply (bool_decide_unpack _).
Qed.

Lemma image_mounts_witness : exists entries b, Mkdisk.main 1 demo_files (mkBuilder [] 0 0 []) = Ok entries b /\
  wp (Filesys.init false) (ram_image b) (fun _ fs' => fs_ok fs' /\ serves demo_files entries fs').
Proof.
  destruct (image_mounts 1 demo_files ltac:(lia) demo_image_files) as (entries & b & E & H). exists entries, b. split; [exact E|].
  destruct (main_builds 1 demo_files entries b ltac:(lia) demo_image_files E) as [Hb Hc]. apply (H RamDisk _ _). rewrite <- Hc. by apply ram_holds.
Defined.
