(* ===== verification/Process.v ===== *)
(** Processes (the rest of src/userprog/process.rs): the state the system calls work on, the
    release of a process's resources, [fork], [exec] and the start of a program.

    The segments of the wait protocol are in Proc.v.  Here they run one after the other: [up] and
    [thread::create] do not give up the processor. *)
From S2P Require Import Prelude Btree Block Bio FreeMap Inode File Filesys Memory Palloc Thread Pagedir Swap Vm Elf Loader Pipe Fd Input Proc.

(** The frame an interrupt leaves on the kernel stack (src/arch/idt.rs). *)
Record IntrFrame := mkFrameRegs {
  f_edi : Z; f_esi : Z; f_ebp : Z; f_esp_dummy : Z; f_ebx : Z; f_edx : Z; f_ecx : Z; f_eax : Z;
  f_gs : Z; f_fs : Z; f_es : Z; f_ds : Z;
  f_vec_no : Z; f_error_code : Z; f_frame_pointer : Z;
  f_eip : Z; f_cs : Z; f_eflags : Z; f_esp : Z; f_ss : Z;
}.
Definition set_eax (x : Z) (f : IntrFrame) : IntrFrame :=
  mkFrameRegs (f_edi f) (f_esi f) (f_ebp f) (f_esp_dummy f) (f_ebx f) (f_edx f) (f_ecx f) x
    (f_gs f) (f_fs f) (f_es f) (f_ds f) (f_vec_no f) (f_error_code f) (f_frame_pointer f)
    (f_eip f) (f_cs f) (f_eflags f) (f_esp f) (f_ss f).

(** Data passed to the child thread of [fork]. *)
Record ForkArgs := mkForkArgs {
  fa_frame : IntrFrame;
  fa_child_pd : Z;
  fa_child_fdt : Z;
  fa_cwd_sector : Z;
  fa_brk : Z;
}.

(** Memory, threads and files; the process registry; the descriptor tables on the heap, by
    address; the arguments of [fork], by the thread they are for; pipes; the console. *)
Record Kern (D : Type) := mkKern {
  k_vm : VM D;
  k_procs : Procs;
  k_tables : gmap Z FdTable;
  k_forks : gmap Z ForkArgs;
  k_next_box : Z;
  k_pipes : Pipes;
  k_input : InputBuffer;
  k_out : list Z;
  k_ticks : Z;
}.
Arguments mkKern {D}.
Arguments k_vm {D}.
Arguments k_procs {D}.
Arguments k_tables {D}.
Arguments k_forks {D}.
Arguments k_next_box {D}.
Arguments k_pipes {D}.
Arguments k_input {D}.
Arguments k_out {D}.
Arguments k_ticks {D}.

Definition set_fd_table (x : Z) (t : Thread) : Thread :=
  mkThread (tid t) (status t) (name t) (stack t) (priority t) (original_priority t) (pagedir t) x
    (waiting_on_lock t) (cwd_sector t) (brk t) (Thread.parent_tid t) (killed t) (pgid t) (sig_pending t) (sig_ignore t) (Thread.magic t).
Definition set_cwd (x : Z) (t : Thread) : Thread :=
  mkThread (tid t) (status t) (name t) (stack t) (priority t) (original_priority t) (pagedir t) (fd_table t)
    (waiting_on_lock t) x (brk t) (Thread.parent_tid t) (killed t) (pgid t) (sig_pending t) (sig_ignore t) (Thread.magic t).
Definition set_sig_ignore (x : Z) (t : Thread) : Thread :=
  mkThread (tid t) (status t) (name t) (stack t) (priority t) (original_priority t) (pagedir t) (fd_table t)
    (waiting_on_lock t) (cwd_sector t) (brk t) (Thread.parent_tid t) (killed t) (pgid t) (sig_pending t) x (Thread.magic t).
Definition set_name (x : list Z) (t : Thread) : Thread :=
  mkThread (tid t) (status t) x (stack t) (priority t) (original_priority t) (pagedir t) (fd_table t)
    (waiting_on_lock t) (cwd_sector t) (brk t) (Thread.parent_tid t) (killed t) (pgid t) (sig_pending t) (sig_ignore t) (Thread.magic t).

(** [thread::current_name]: the name's bytes before its first NUL. *)
Fixpoint c_str (l : list Z) : list Z :=
  match l with
  | [] => []
  | b :: l' => if b =? 0 then [] else b :: c_str l'
  end.
Definition current_name (t : Thread) : list Z := c_str (name t).

Definition SEL_UDSEG : Z := 0x23.

(** The frame [jump_to_user] pushes for [intr_exit]. *)
Definition jump_to_user (eip esp : Z) : IntrFrame :=
  mkFrameRegs 0 0 0 0 0 0 0 0 0x23 0x23 0x23 0x23 0 0 0 eip 0x1b 0x202 esp 0x23.

Section process.
Context {D : Type} `{!BlockOps D}.

Definition put_vm (x : VM D) (k : Kern D) : Kern D :=
  mkKern x (k_procs k) (k_tables k) (k_forks k) (k_next_box k) (k_pipes k) (k_input k) (k_out k) (k_ticks k).
Definition put_procs (x : Procs) (k : Kern D) : Kern D :=
  mkKern (k_vm k) x (k_tables k) (k_forks k) (k_next_box k) (k_pipes k) (k_input k) (k_out k) (k_ticks k).
Definition put_tables (x : gmap Z FdTable) (n : Z) (k : Kern D) : Kern D :=
  mkKern (k_vm k) (k_procs k) x (k_forks k) n (k_pipes k) (k_input k) (k_out k) (k_ticks k).
Definition put_forks (x : gmap Z ForkArgs) (n : Z) (k : Kern D) : Kern D :=
  mkKern (k_vm k) (k_procs k) (k_tables k) x n (k_pipes k) (k_input k) (k_out k) (k_ticks k).
Definition put_objects (o : Objects D) (k : Kern D) : Kern D :=
  mkKern (with_fs (o_fs o) (k_vm k)) (k_procs k) (k_tables k) (k_forks k) (k_next_box k) (o_pipes o) (k_input k) (k_out k) (k_ticks k).
Definition put_console (c : Input.Console) (k : Kern D) : Kern D :=
  mkKern (with_sched (c_sched c) (k_vm k)) (k_procs k) (k_tables k) (k_forks k) (k_next_box k) (k_pipes k) (INPUT c) (printed c) (k_ticks k).

Definition vm {A} (m : M (VM D) A) : M (Kern D) A := zoom k_vm put_vm m.
Definition procs {A} (m : M Procs A) : M (Kern D) A := zoom k_procs put_procs m.
Definition objects {A} (m : M (Objects D) A) : M (Kern D) A :=
  zoom (fun k => mkObjects (vm_fs (k_vm k)) (k_pipes k)) put_objects m.
Definition console {A} (m : M Input.Console A) : M (Kern D) A :=
  zoom (fun k => mkConsole (k_input k) (vm_sched (k_vm k)) (k_out k)) put_console m.
Definition fsys {A} (m : M (FS D) A) : M (Kern D) A := vm (fs m).
Definition sched_do {A} (m : M Sched A) : M (Kern D) A := vm (threads_do m).

(** [kprintln!] *)
Definition kprintln (l : list Z) : M (Kern D) unit := console (kprint (l ++ [10])).

(** [Box::into_raw(table)] *)
Definition box_table (t : FdTable) : M (Kern D) Z :=
  let! a := gets k_next_box in
  modify (fun k => put_tables (<[a := t]> (k_tables k)) (a + 1) k) ;;
  ret a.
Definition table_at (a : Z) : M (Kern D) FdTable :=
  let! m := gets k_tables in
  match m !! a with Some t => ret t | None => ub "descriptor table of a process that has exited" end.
Definition drop_table (a : Z) : M (Kern D) unit :=
  modify (fun k => put_tables (delete a (k_tables k)) (k_next_box k) k).

(** ** Exit *)

(** One turn of the loop of [munmap_entry], for the page at [cur_addr]. *)
Definition munmap_page (pd : Z) (e : MmapEntry) (offset cur_addr : Z) : M (Kern D) unit :=
  let! kp := vm (pg (Pagedir.get_page pd cur_addr)) in
  if kp =? 0 then ret tt
  else
    let! dirty := vm (pg (is_dirty pd cur_addr)) in
    (if dirty then
       let write_bytes := Z.min (mm_length e - offset) PGSIZE in
       let! buf := gets (fun k => load_bytes (mem (vm_pg (k_vm k))) kp write_bytes) in
       fsys (write_at (mm_sector e) buf (as_i32 write_bytes) (as_i32 offset)) ;;
       ret tt
     else ret tt) ;;
    vm (pg (clear_page pd cur_addr)) ;;
    vm (free_frame (Z.land kp (not_w 32 (PGSIZE - 1)))).

Fixpoint munmap_loop (fuel : nat) (pd : Z) (e : MmapEntry) (offset cur_addr : Z) : M (Kern D) unit :=
  if offset <? mm_length e then
    match fuel with
    | O => fun _ => OutOfFuel
    | S fuel' =>
        munmap_page pd e offset cur_addr ;;
        let! offset := u32_add offset PGSIZE in
        let! cur_addr := u32_add cur_addr PGSIZE in
        munmap_loop fuel' pd e offset cur_addr
    end
  else ret tt.

(** A turn moves a page on, so the pages of the mapping are enough turns. *)
Definition munmap_entry (e : MmapEntry) : M (Kern D) unit :=
  let! t := vm self in
  if pagedir t =? 0 then ret tt
  else munmap_loop (S (Z.to_nat (mm_length e / PGSIZE))) (pagedir t) e 0 (uaddr e).

Definition munmap_all (tid : Z) : M (Kern D) unit :=
  let! table := procs (gets MMAP_TABLE) in
  match table !! tid with
  | None => ret tt
  | Some entries =>
      procs (modify (fun p => with_mmaps (delete tid (MMAP_TABLE p)) (NEXT_MAPID p) p)) ;;
      for_each entries (fun e =>
        munmap_entry e ;;
        fsys (Inode.close (mm_sector e)))
  end.

Definition release_executable (tid : Z) : M (Kern D) unit :=
  let! x := procs (take_executable tid) in
  match x with
  | Some sector => fsys (allow_write sector) ;; fsys (Inode.close sector)
  | None => ret tt
  end.

(** [remove_spt(tid)], and the table's destruction *)
Definition drop_spt (tid : Z) : M (Kern D) unit :=
  let! spt := vm (remove_spt tid) in
  match spt with
  | Some spt => let! _ := vm (destroy spt) in ret tt
  | None => ret tt
  end.

Definition exit_with_status (st : Z) : M (Kern D) unit :=
  let! t := vm self in
  release_executable (tid t) ;;
  munmap_all (tid t) ;;
  procs (exit_signal_parent (tid t)) ;;
  procs (exit_record (tid t) st) ;;
  procs (exit_children (tid t)) ;;
  (if fd_table t =? 0 then ret tt
   else
     let! tab := table_at (fd_table t) in
     objects (close_all tab) ;;
     drop_table (fd_table t) ;;
     vm (set_self (set_fd_table 0))) ;;
  drop_spt (tid t) ;;
  if pagedir t =? 0 then ret tt
  else
    vm (set_self (set_pagedir 0)) ;;
    vm (pg (Pagedir.activate 0)) ;;
    vm (destroy_pd (pagedir t)).

(** ** Fork *)

(** One present page of the parent; [Some false] when there is no room for the copy. *)
Definition copy_user_page (child_pd child_tid upage pte : Z) : M (Kern D) (option bool) :=
  let! src_kva := ptov (Z.land pte PTE_ADDR) in
  let writable := negb (Z.land pte PTE_W =? 0) in
  let! dst := vm (alloc_frame upage child_tid) in
  if dst =? 0 then ret (Some false)
  else
    vm (poke (copy_page src_kva dst)) ;;
    let! ok := vm (pg (set_page child_pd upage dst writable)) in
    if ok then ret None
    else vm (free_frame dst) ;; ret (Some false).

Definition copy_user_pages (parent_pd child_pd child_tid : Z) : M (Kern D) bool :=
  let phys_base_pde := Z.shiftr PHYS_BASE 22 in
  let! r := for_ret (range 0 phys_base_pde) (fun pde_idx =>
    let! pde := vm (pg (load (parent_pd + 4 * pde_idx))) in
    if Z.land pde PTE_P =? 0 then ret None
    else
      let! pt := ptov (Z.land pde PTE_ADDR) in
      for_ret (range 0 1024) (fun pte_idx =>
        let! pte := vm (pg (load (pt + 4 * pte_idx))) in
        if Z.land pte PTE_P =? 0 then ret None
        else copy_user_page child_pd child_tid (Z.lor (Z.shiftl pde_idx 22) (Z.shiftl pte_idx 12)) pte)) in
  ret (default true r).

Definition clone_location (l : PageLocation) : PageLocation :=
  match l with
  | InSwap _ => InMemory
  | other => other
  end.
Definition clone_spt (parent : SPT) : SPT :=
  fold_left (fun child kv => spt_insert (set_location (clone_location (location (snd kv))) (snd kv)) child) (btree_iter parent) spt_new.

(** [thread::create], with the page it allocates. *)
Definition thread_create (nm : list Z) (pri : Z) : M (Kern D) Z :=
  let! page := vm (pg (on_pa (Palloc.get_page ZERO))) in
  sched_do (Thread.create page nm pri).

Definition fork (frame : IntrFrame) : M (Kern D) Z :=
  let! parent := vm self in
  let parent_tid := tid parent in
  if pagedir parent =? 0 then ret (-1)
  else
    let! child_pd := vm (pg Pagedir.create) in
    if child_pd =? 0 then ret (-1)
    else
      let! ok := copy_user_pages (pagedir parent) child_pd (-1) in
      if negb ok then vm (destroy_pd child_pd) ;; ret (-1)
      else
        let! parent_spt := vm (get_spt parent_tid) in
        let child_spt := clone_spt <$> parent_spt in
        let! parent_table := (if fd_table parent =? 0 then ret None else let! t := table_at (fd_table parent) in ret (Some t)) in
        let! child_table := objects (clone_fd_table parent_table) in
        let! child_fdt := box_table child_table in
        let args := mkForkArgs (set_eax 0 frame) child_pd child_fdt (cwd_sector parent) (brk parent) in
        let! child_tid := thread_create (current_name parent) (priority parent) in
        if child_tid =? TID_ERROR then
          let! t := table_at child_fdt in
          objects (close_all t) ;;
          drop_table child_fdt ;;
          (match child_spt with Some spt => let! _ := vm (destroy spt) in ret tt | None => ret tt end) ;;
          vm (destroy_pd child_pd) ;;
          ret (-1)
        else
          modify (fun k => put_forks (<[child_tid := args]> (k_forks k)) (k_next_box k) k) ;;
          vm (fix_owner_tid (-1) child_tid) ;;
          (match child_spt with Some spt => vm (set_spt child_tid spt) | None => ret tt end) ;;
          sched_do (set_thread_parent_info child_tid parent_tid (pgid parent) (sig_ignore parent)) ;;
          let! exec_sector := procs (forked child_tid parent_tid) in
          (match exec_sector with
           | Some sector => let! _ := fsys (Inode.open sector) in fsys (Inode.deny_write sector)
           | None => ret tt
           end) ;;
          ret child_tid.

(** The child, up to the jump to user mode with the frame it returns. *)
Definition fork_child_entry (args : ForkArgs) : M (Kern D) IntrFrame :=
  vm (set_self (fun t => set_brk (fa_brk args) (set_cwd (fa_cwd_sector args) (set_fd_table (fa_child_fdt args) (set_pagedir (fa_child_pd args) t))))) ;;
  vm (pg (Pagedir.activate (fa_child_pd args))) ;;
  ret (fa_frame args).

(** ** Kernel accesses to user memory *)

(** A fault in kernel mode. *)
Definition kernel_fault {A} (va code : Z) : M (VM D) A :=
  let! _ := page_fault va code 0 in
  ub "return to the faulting access".

(** The kernel address of the byte at [va], as the processor finds it: through the tables CR3
    names, with write protection (CR0.WP), setting the accessed and dirty bits. *)
Definition touch (va : Z) (write : bool) : M (VM D) Z :=
  let! phys := pg (gets cr3) in
  let! pd := ptov phys in
  let! m := pg (gets (fun s => mapping s pd va)) in
  match m with
  | None => kernel_fault va (if write then 2 else 0)
  | Some pte =>
      if write && (Z.land pte PTE_W =? 0) then kernel_fault va 3
      else
        let! a := pg (gets (fun s => pte_at s pd va)) in
        pg (put a (Z.lor pte (if write then Z.lor PTE_A PTE_D else PTE_A))) ;;
        let! page := ptov (Z.land pte PTE_ADDR) in
        ret (page + pg_ofs va)
  end.

Definition user_u8 (va : Z) : M (VM D) Z :=
  let! a := touch va false in
  gets (fun v => mem (vm_pg v) a).

Definition user_u32 (va : Z) : M (VM D) Z :=
  let! b0 := user_u8 va in
  let! b1 := user_u8 (va + 1) in
  let! b2 := user_u8 (va + 2) in
  let! b3 := user_u8 (va + 3) in
  ret (le_word [b0; b1; b2; b3]).

Definition put_user_u8 (va b : Z) : M (VM D) unit :=
  let! a := touch va true in
  poke (store a b).

(** [copy_nonoverlapping] to user memory. *)
Fixpoint put_user_bytes (va : Z) (l : list Z) : M (VM D) unit :=
  match l with
  | [] => ret tt
  | b :: l' => put_user_u8 va b ;; put_user_bytes (va + 1) l'
  end.

(** ** Exec *)

(** The loop over the bytes of an argument: at most [n] more. *)
Fixpoint arg_string (n : nat) (sp : Z) (s : list Z) : M (VM D) (list Z) :=
  match n with
  | O => ret s
  | S n' =>
      if PHYS_BASE <=? sp then ret s
      else
        let! byte := user_u8 sp in
        if byte =? 0 then ret s
        else
          let! sp := u32_add sp 1 in
          arg_string n' sp (s ++ char_of byte)
  end.

Fixpoint argv_parts (n : nat) (ptr : Z) (parts : list (list Z)) : M (VM D) (list (list Z)) :=
  match n with
  | O => ret parts
  | S n' =>
      let! stop := u32_add ptr 4 in
      if PHYS_BASE <? stop then ret parts
      else
        let! str_ptr := user_u32 ptr in
        if str_ptr =? 0 then ret parts
        else if PHYS_BASE <=? str_ptr then ret parts
        else
          let! s := arg_string 256 str_ptr [] in
          let! ptr := u32_add ptr 4 in
          argv_parts n' ptr (parts ++ [s])
  end.

(** The loop that joins the parts with spaces. *)
Fixpoint join_spaces (parts : list (list Z)) : list Z :=
  match parts with
  | [] => []
  | [p] => p
  | p :: parts' => p ++ [32] ++ join_spaces parts'
  end.

Definition build_cmdline_from_argv (argv_addr : Z) : M (VM D) (list Z) :=
  let! parts := argv_parts 32 argv_addr [] in
  ret (join_spaces parts).

Definition load (cmdline : list Z) : M (Kern D) (option (Z * Z)) :=
  match split_whitespace cmdline with
  | [] => ret None
  | filename :: _ =>
      let! t := vm self in
      let! f := fsys (Filesys.open (cwd_sector t) filename) in
      match f with
      | None => ret None
      | Some file =>
          let! len := fsys (File.file_length file) in
          let file_len := as_u32 len in
          let file := seek file 0 in
          let! r := fsys (File.read file (zeros file_len) (as_i32 file_len)) in
          let '(n, elf_data, file) := r in
          if as_u32 n <? file_len then fsys (close_file file) ;; ret None
          else
            let! result := vm (load_demand_paged elf_data cmdline (f_sector file)) in
            match result with
            | Some _ =>
                fsys (Inode.deny_write (f_sector file)) ;;
                let! t := vm self in
                procs (let! x := lookup_state (tid t) in
                       match x with
                       | Some ps => put_state (tid t) (set_executable (Some (f_sector file)) ps)
                       | None => ret tt
                       end) ;;
                ret result
            | None => fsys (close_file file) ;; ret None
            end
      end
  end.

(** The part of [path] behind the last slash. *)
Definition last_component (path : list Z) : list Z :=
  fold_left (fun acc b => if b =? 47 then [] else acc ++ [b]) path [].

Definition sys_exec (path : list Z) (argv_addr : Z) (frame : IntrFrame) : M (Kern D) (Z * IntrFrame) :=
  let! t := vm self in
  let old_pd := pagedir t in
  let! cmdline :=
    (if negb (argv_addr =? 0) && (argv_addr <? PHYS_BASE) then vm (build_cmdline_from_argv argv_addr) else ret path) in
  release_executable (tid t) ;;
  drop_spt (tid t) ;;
  vm (set_self (set_pagedir 0)) ;;
  let! result := load cmdline in
  match result with
  | Some (entry, esp) =>
      let! t := vm self in
      let new_pd := pagedir t in
      (if old_pd =? 0 then ret tt
       else vm (pg (Pagedir.activate new_pd)) ;; vm (destroy_pd old_pd)) ;;
      vm (set_self (set_sig_ignore 0)) ;;
      let prog_name := last_component path in
      let len := Nat.min (List.length prog_name) 15 in
      vm (set_self (fun t => set_name (splice 0 (take len prog_name ++ [0]) (name t)) t)) ;;
      ret (0, mkFrameRegs (f_edi frame) (f_esi frame) (f_ebp frame) (f_esp_dummy frame) (f_ebx frame) (f_edx frame) (f_ecx frame) 0
                (f_gs frame) (f_fs frame) SEL_UDSEG SEL_UDSEG (f_vec_no frame) (f_error_code frame) (f_frame_pointer frame)
                entry SEL_UCSEG 0x202 esp SEL_UDSEG)
  | None =>
      vm (set_self (set_pagedir old_pd)) ;;
      (if old_pd =? 0 then ret tt else vm (pg (Pagedir.activate old_pd))) ;;
      ret (-1, frame)
  end.

(** ** Starting a program *)

(** [execute] up to its wait for the child; the command line is passed to [start_process]. *)
Definition execute (cmd_line : list Z) : M (Kern D) res :=
  let prog_name := match split_whitespace cmd_line with w :: _ => w | [] => [] end in
  let! tid' := thread_create prog_name PRI_DEFAULT in
  if tid' =? TID_ERROR then ret (Returns (Tid TID_ERROR))
  else
    let! t := vm self in
    procs (execute_created tid' (tid t)).

(** The new thread, up to the jump to user mode with the frame it returns, or up to its death. *)
Definition start_process (cmd : list Z) : M (Kern D) (option IntrFrame) :=
  let! t := vm self in
  let! r := load cmd in
  match r with
  | Some (entry, esp) =>
      procs (signal_load (tid t) true) ;;
      let! a := box_table Fd.new in
      vm (set_self (set_fd_table a)) ;;
      let! t := vm self in
      vm (pg (Pagedir.activate (pagedir t))) ;;
      ret (Some (jump_to_user entry esp))
  | None =>
      kprintln (str "process: failed to load '" ++ cmd ++ [39]) ;;
      procs (signal_load (tid t) false) ;;
      sched_do Thread.exit ;;
      ret None
  end.
End process.
