(* ===== verification/Syscall.v ===== *)
(** System calls (src/userprog/syscall.rs): validation of user pointers, reads and writes through
    descriptors, and the dispatcher. *)
From S2P Require Import Prelude Btree Block Bio FreeMap Inode File Filesys Memory Palloc Thread Pagedir Swap Vm Elf Loader Pipe Fd Input Proc Process.

Definition O_RDONLY : Z := 0.
Definition O_WRONLY : Z := 1.
Definition O_ACCMODE : Z := 3.
Definition O_CREATE : Z := 0x200.
Definition O_TRUNC : Z := 0x400.
Definition O_APPEND : Z := 0x800.
Definition T_DIR : Z := 1.
Definition T_FILE : Z := 2.
Definition T_DEV : Z := 3.
Definition TIOCRAW : Z := 0x5401.
Definition TIOCPOLL : Z := 0x5402.
Definition SIG_DFL : Z := 0.
Definition SIG_IGN : Z := 1.
Definition SIGPIPE : Z := 13.

(** How a call, or a part of one, ends: with a value, with the death of the process, or asleep:
    for a key after [n] bytes of a line, for a pipe, for a child, for the clock. *)
Inductive waiting : Set :=
| OnConsole (n : Z)
| OnPipeRead (id : Z)
| OnPipeWrite (id written : Z)
| OnChild (k : kont)
| OnTimer (ticks : Z).

Inductive ctl (A : Type) : Type :=
| Val (a : A)
| Exits (st : Z)
| Waits (w : waiting).
Arguments Val {A}.
Arguments Exits {A}.
Arguments Waits {A}.

Section syscall.
Context {D : Type} `{!BlockOps D}.

Definition C (A : Type) : Type := M (Kern D) (ctl A).
Definition give {A} (a : A) : C A := ret (Val a).
Definition seq {A B} (m : C A) (k : A -> C B) : C B :=
  let! r := m in
  match r with
  | Val a => k a
  | Exits st => ret (Exits st)
  | Waits w => ret (Waits w)
  end.
Definition lift {A} (m : M (Kern D) A) : C A := let! a := m in give a.

Local Notation "'do!' x ':=' m 'in' k" := (seq m (fun x => k)) (at level 200, x pattern, m at level 100, k at level 200).
Local Notation "m ,, k" := (seq m (fun _ => k)) (at level 60, right associativity).

(** ** Validation *)
Definition demand_load_page (pd page tid : Z) : M (Kern D) unit :=
  let! spt := vm (get_spt tid) in
  match spt with
  | None => ret tt
  | Some t =>
      match spt_find page t with
      | Some _ => let! _ := vm (load_page pd page tid) in ret tt
      | None => ret tt
      end
  end.

(** The loop over the pages from [page] to [stop]. *)
Fixpoint valid_pages (fuel : nat) (pd tid page stop : Z) : M (Kern D) bool :=
  if page <? stop then
    match fuel with
    | O => fun _ => OutOfFuel
    | S fuel' =>
        let! kp := vm (pg (Pagedir.get_page pd page)) in
        let! spt := vm (get_spt tid) in
        if kp =? 0 then
          if from_option (fun t => bool_decide (is_Some (spt_find page t))) false spt then
            demand_load_page pd page tid ;;
            let! page := u32_add page PGSIZE in
            valid_pages fuel' pd tid page stop
          else
            let stack_limit := PHYS_BASE - USER_STACK_MAX in
            ret ((stack_limit <=? page) && (page <? PHYS_BASE))
        else
          let! page := u32_add page PGSIZE in
          valid_pages fuel' pd tid page stop
    end
  else ret true.

Definition is_valid_user_ptr (addr size : Z) : M (Kern D) bool :=
  if negb ((PGSIZE <=? addr) && (addr <? PHYS_BASE)) || (PHYS_BASE <? as_u32 (addr + size)) then ret false
  else
    let! t := vm self in
    if pagedir t =? 0 then ret true
    else
      let page := Z.land addr (not_w 32 (PGSIZE - 1)) in
      let! stop := u32_add addr size in
      valid_pages (S (Z.to_nat ((stop - page) / PGSIZE))) (pagedir t) (tid t) page stop.

Definition exit_process {A} (st : Z) : C A :=
  let! t := vm self in
  kprintln (current_name t ++ str ": exit(" ++ dec st ++ str ")") ;;
  exit_with_status st ;;
  sched_do Thread.exit ;;
  ret (Exits st).

(** [if !is_valid_user_ptr(addr, size) { exit_process(-1) }] *)
Definition require (addr size : Z) : C unit :=
  let! ok := is_valid_user_ptr addr size in
  if ok then give tt else exit_process (-1).

Definition check_args (args count : Z) : C unit :=
  let stop := args + 4 * (count + 1) in
  require args (stop - args).

Definition validate_user_buffer (addr size : Z) : C unit :=
  if 0 <? size then require addr size else give tt.

(** [*args.add(i)] *)
Definition arg (args i : Z) : C Z := lift (vm (user_u32 (args + 4 * i))).

(** The loop of [read_user_string]; every turn moves a byte on, and the pages end at [PHYS_BASE]. *)
Fixpoint string_loop (fuel : nat) (ptr validated_end : Z) (s : list Z) : C (list Z) :=
  match fuel with
  | O => fun _ => OutOfFuel
  | S fuel' =>
      do! validated_end :=
        (if validated_end <=? ptr then
           do! stop := lift (u32_add (Z.land ptr (not_w 32 (PGSIZE - 1))) PGSIZE) in
           require ptr 1 ,, give stop
         else give validated_end) in
      do! byte := lift (vm (user_u8 ptr)) in
      if byte =? 0 then give s
      else
        do! ptr := lift (u32_add ptr 1) in
        string_loop fuel' ptr validated_end (s ++ char_of byte)
  end.

Definition read_user_string (addr : Z) : C (list Z) :=
  string_loop (S (Z.to_nat (PHYS_BASE - addr))) addr (Z.land addr (not_w 32 (PGSIZE - 1))) [].

(** [if !is_valid_user_ptr(ptr, 1) { exit_process(-1) }; read_user_string(ptr)] *)
Definition path_arg (ptr : Z) : C (list Z) := require ptr 1 ,, read_user_string ptr.

(** The pages that [pin_user_pages] and [unpin_user_pages] go through. *)
Fixpoint each_page (fuel : nat) (f : Z -> M (Kern D) unit) (page stop : Z) : M (Kern D) unit :=
  if page <? stop then
    match fuel with
    | O => fun _ => OutOfFuel
    | S fuel' =>
        f page ;;
        let! page := u32_add page PGSIZE in
        each_page fuel' f page stop
    end
  else ret tt.
Definition user_pages (f : Z -> M (Kern D) unit) (addr size : Z) : M (Kern D) unit :=
  let page := Z.land addr (not_w 32 (PGSIZE - 1)) in
  let! stop := u32_add addr size in
  each_page (S (Z.to_nat ((stop - page) / PGSIZE))) f page stop.
Definition pin_user_pages (tid addr size : Z) : M (Kern D) unit := user_pages (fun page => vm (pin_upage tid page)) addr size.
Definition unpin_user_pages (tid addr size : Z) : M (Kern D) unit := user_pages (fun page => vm (unpin_upage tid page)) addr size.

(** ** Descriptors *)

(** [get_fd_table()], and its update *)
Definition get_fd_table : M (Kern D) FdTable :=
  let! t := vm self in
  assert (negb (fd_table t =? 0)) "get_fd_table: no FD table (kernel thread?)" ;;
  table_at (fd_table t).
Definition put_fd_table (x : FdTable) : M (Kern D) unit :=
  let! t := vm self in
  modify (fun k => put_tables (<[fd_table t := x]> (k_tables k)) (k_next_box k) k).

(** [copy_nonoverlapping] from user memory *)
Definition user_bytes (addr size : Z) : M (Kern D) (list Z) :=
  (fix go (n : nat) (a : Z) : M (Kern D) (list Z) :=
     match n with
     | O => ret []
     | S n' =>
         let! b := vm (user_u8 a) in
         let! l := go n' (a + 1) in
         ret (b :: l)
     end) (Z.to_nat size) addr.

(** The loop of [bounced_write]: [bounce] is the kernel's page, [offset] bytes are done. *)
Fixpoint bounce_out (fuel : nat) (file : File.File) (bounce buf_addr size offset total : Z) : M (Kern D) (Z * File.File) :=
  if offset <? size then
    match fuel with
    | O => fun _ => OutOfFuel
    | S fuel' =>
        let chunk := Z.min (size - offset) PGSIZE in
        let! src := u32_add buf_addr offset in
        let! l := user_bytes src chunk in
        vm (poke (store_bytes bounce l)) ;;
        let! slice := gets (fun k => load_bytes (mem (vm_pg (k_vm k))) bounce chunk) in
        let! r := fsys (File.write file slice (as_i32 chunk)) in
        let '(n, file) := r in
        if n <=? 0 then ret (total, file)
        else
          let! total := i32_add total n in
          let! offset := u32_add offset (as_u32 n) in
          if as_u32 n <? chunk then ret (total, file)
          else bounce_out fuel' file bounce buf_addr size offset total
    end
  else ret (total, file).

Fixpoint bounce_in (fuel : nat) (file : File.File) (bounce buf_addr size offset total : Z) : M (Kern D) (Z * File.File) :=
  if offset <? size then
    match fuel with
    | O => fun _ => OutOfFuel
    | S fuel' =>
        let chunk := Z.min (size - offset) PGSIZE in
        let! slice := gets (fun k => load_bytes (mem (vm_pg (k_vm k))) bounce chunk) in
        let! r := fsys (File.read file slice (as_i32 chunk)) in
        let '(n, l, file) := r in
        vm (poke (store_bytes bounce l)) ;;
        if n <=? 0 then ret (total, file)
        else
          let! dst := u32_add buf_addr offset in
          let! l := gets (fun k => load_bytes (mem (vm_pg (k_vm k))) bounce (as_u32 n)) in
          vm (put_user_bytes dst l) ;;
          let! total := i32_add total n in
          let! offset := u32_add offset (as_u32 n) in
          if as_u32 n <? chunk then ret (total, file)
          else bounce_in fuel' file bounce buf_addr size offset total
    end
  else ret (total, file).

(** [bounced_read] and [bounced_write], which differ in their loops. *)
Definition bounced (loop : nat -> File.File -> Z -> Z -> Z -> Z -> Z -> M (Kern D) (Z * File.File)) (file : File.File) (buf_addr size : Z) : M (Kern D) (Z * File.File) :=
  let! t := vm self in
  let! bounce := vm (pg (on_pa (Palloc.get_page ZERO))) in
  if bounce =? 0 then ret (-1, file)
  else
    pin_user_pages (tid t) buf_addr size ;;
    let! r := loop (S (Z.to_nat size)) file bounce buf_addr size 0 0 in
    unpin_user_pages (tid t) buf_addr size ;;
    vm (pg (on_pa (free_page bounce))) ;;
    ret r.
Definition bounced_read := bounced bounce_in.
Definition bounced_write := bounced bounce_out.

(** The file of descriptor [fd] is moved on. *)
Definition update_file (fd : Z) (file : File.File) : M (Kern D) unit :=
  let! t := get_fd_table in
  put_fd_table (<[Z.to_nat fd := Some (FileDesc file)]> t).

(** [console_write], as far as the console's own record goes. *)
Definition console_write (l : list Z) : M (Kern D) unit := console (kprint l).

Definition sys_write (fd buf_addr size : Z) : C Z :=
  validate_user_buffer buf_addr size ,,
  if fd <? 0 then give (-1)
  else
    do! t := lift get_fd_table in
    match get_kind t fd with
    | Some Fd.Console =>
        do! l := lift (user_bytes buf_addr size) in
        lift (console_write l) ,,
        give (as_i32 size)
    | Some (PipeWrite id) =>
        do! there := lift (gets (fun k => bool_decide (is_Some (PIPES (k_pipes k) !! id)))) in
        do! l := (if there then lift (user_bytes buf_addr size) else give []) in
        do! r := lift (objects (pipes (with_pipe id (Pipe.write l 0)))) in
        match r with
        | None => give (-1)
        | Some (WWait n) => ret (Waits (OnPipeWrite id n))
        | Some (WDone r sigpipe) =>
            (if sigpipe then
               do! t := lift (vm self) in
               lift (let! _ := sched_do (send_signal (tid t) SIGPIPE) in ret tt)
             else give tt) ,,
            give r
        end
    | Some (FileDesc f) =>
        if Z.land (f_mode f) O_ACCMODE =? O_RDONLY then give (-1)
        else
          do! r := lift (bounced_write f buf_addr size) in
          let '(n, f) := r in
          lift (update_file fd f) ,,
          give n
    | Some DevNull | Some DevZero => give (as_i32 size)
    | _ => give (-1)
    end.

(** [input::getc], up to its wait. *)
Definition getc : C (option Z) :=
  do! c := lift (console getc_once) in
  match c with
  | Some c => give (Some c)
  | None =>
      do! t := lift (vm self) in
      if killed t then give (Some 0) else give None
  end.

(** The loops over the user's buffer at a terminal: [n] bytes of it are left, [i] are filled. *)
Fixpoint read_line (n : nat) (buf_addr i : Z) : C Z :=
  match n with
  | O => give i
  | S n' =>
      do! c := getc in
      match c with
      | None => ret (Waits (OnConsole i))
      | Some c =>
          if c =? 0 then give i
          else if c =? 0x04 then give i
          else
            lift (vm (put_user_u8 (buf_addr + i) c)) ,,
            if c =? 10 then give (i + 1) else read_line n' buf_addr (i + 1)
      end
  end.

Definition read_raw (size buf_addr : Z) : C Z :=
  if size <=? 0 then give 0
  else
    do! c := getc in
    match c with
    | None => ret (Waits (OnConsole 0))
    | Some c =>
        if c =? 0 then give 0
        else lift (vm (put_user_u8 buf_addr c)) ,, give 1
    end.

Definition sys_read (fd buf_addr size : Z) : C Z :=
  validate_user_buffer buf_addr size ,,
  if fd <? 0 then give (-1)
  else
    do! t := lift get_fd_table in
    match get_kind t fd with
    | Some Fd.Console =>
        do! raw := lift (console is_raw) in
        if raw then read_raw size buf_addr else read_line (Z.to_nat size) buf_addr 0
    | Some (PipeRead id) =>
        do! r := lift (objects (pipes (with_pipe id (Pipe.read (zeros size))))) in
        match r with
        | None => give (-1)
        | Some RWait => ret (Waits (OnPipeRead id))
        | Some (RDone r l) => lift (vm (put_user_bytes buf_addr (take (Z.to_nat r) l))) ,, give r
        end
    | Some (FileDesc f) =>
        if Z.land (f_mode f) O_ACCMODE =? O_WRONLY then give (-1)
        else
          do! r := lift (bounced_read f buf_addr size) in
          let '(n, f) := r in
          lift (update_file fd f) ,,
          give n
    | Some DevNull => give 0
    | Some DevZero => lift (vm (put_user_bytes buf_addr (zeros size))) ,, give (as_i32 size)
    | _ => give (-1)
    end.

(** ** The calls

    Each arm of the handler reads its words from the caller's stack ([sys_..]) and works on their
    values ([.._call]). *)
Definition minus_one : Z := as_u32 (-1).
Definition status_of (b : bool) : Z := if b then 0 else minus_one.

Definition wait_call (status_ptr : Z) : C Z :=
  do! t := lift (vm self) in
  do! r := lift (procs (wait_any_child (tid t))) in
  match r with
  | Blocks k => ret (Waits (OnChild k))
  | Returns a =>
      let '(child_pid, st) := match a with Child p st => (p, st) | Status st => (-1, st) | Tid p => (p, -1) end in
      do! ok := (if status_ptr =? 0 then give false else lift (is_valid_user_ptr status_ptr 4)) in
      (if ok then lift (vm (put_user_bytes status_ptr (le_bytes (as_u32 st)))) else give tt) ,,
      give (as_u32 child_pid)
  end.
Definition sys_wait (args : Z) : C Z :=
  check_args args 1 ,,
  do! status_ptr := arg args 1 in
  wait_call status_ptr.

Definition pipe_call (fd_ptr : Z) : C Z :=
  validate_user_buffer fd_ptr 8 ,,
  do! t := lift get_fd_table in
  do! r := lift (objects (sys_pipe t)) in
  let '(rfd, wfd, t) := r in
  lift (put_fd_table t) ,,
  lift (vm (put_user_bytes fd_ptr (le_bytes (as_u32 rfd)))) ,,
  lift (vm (put_user_bytes (fd_ptr + 4) (le_bytes (as_u32 wfd)))) ,,
  give 0.
Definition sys_pipe_call (args : Z) : C Z :=
  check_args args 1 ,,
  do! fd_ptr := arg args 1 in
  pipe_call fd_ptr.

(** SYS_READ and SYS_WRITE *)
Definition rw_call (io : Z -> Z -> Z -> C Z) (fd buf size : Z) : C Z :=
  if PHYS_BASE <? size then exit_process (-1)
  else
    do! n := io fd buf size in
    give (as_u32 n).
Definition sys_rw (io : Z -> Z -> Z -> C Z) (args : Z) : C Z :=
  check_args args 3 ,,
  do! fd := arg args 1 in
  do! buf := arg args 2 in
  do! size := arg args 3 in
  rw_call io (as_i32 fd) buf size.

Definition close_call (fd : Z) : C Z :=
  do! t := lift get_fd_table in
  do! r := lift (objects (Fd.close t fd)) in
  let '(ok, t) := r in
  lift (put_fd_table t) ,,
  give (status_of ok).
Definition sys_close (args : Z) : C Z :=
  check_args args 1 ,,
  do! fd := arg args 1 in
  close_call (as_i32 fd).

Definition kill_call (pid sig : Z) : C Z :=
  let sig := if sig =? 0 then SIGKILL else sig in
  if 0 <? pid then
    do! found := lift (sched_do (send_signal pid sig)) in
    give (status_of found)
  else if pid =? 0 then
    do! t := lift (vm self) in
    lift (sched_do (send_signal_pgid (pgid t) sig)) ,,
    give 0
  else if pid =? -1 then give minus_one
  else
    do! pg := lift (i32_sub 0 pid) in
    lift (sched_do (send_signal_pgid pg sig)) ,,
    give 0.
Definition sys_kill (args : Z) : C Z :=
  check_args args 2 ,,
  do! p := arg args 1 in
  do! sig := arg args 2 in
  kill_call (as_i32 p) sig.

Definition exec_call (path_ptr argv_ptr : Z) (frame : IntrFrame) : C IntrFrame :=
  do! path := path_arg path_ptr in
  do! r := lift (sys_exec path argv_ptr frame) in
  let '(result, frame) := r in
  give (if result <? 0 then set_eax minus_one frame else frame).
Definition sys_exec_call (args : Z) (frame : IntrFrame) : C IntrFrame :=
  check_args args 2 ,,
  do! path_ptr := arg args 1 in
  do! argv_ptr := arg args 2 in
  exec_call path_ptr argv_ptr frame.

Definition is_path (path : list Z) (a b : string) : bool := bool_decide (path = str a) || bool_decide (path = str b).

(** A new descriptor for [kind]. *)
Definition new_fd (kind : FdKind) : C Z :=
  do! t := lift get_fd_table in
  let (fd, t) := alloc_fd t kind in
  lift (put_fd_table t) ,,
  give (as_u32 fd).

Definition open_file (path : list Z) (flags : Z) : C Z :=
  do! t := lift (vm self) in
  (if Z.land flags O_CREATE =? 0 then give tt
   else lift (let! _ := fsys (Filesys.create (cwd_sector t) path 0) in ret tt)) ,,
  do! f := lift (fsys (Filesys.open (cwd_sector t) path)) in
  match f with
  | None => give minus_one
  | Some f =>
      let f := mkFile (f_sector f) (f_pos f) (f_deny_write f) (Z.land flags O_ACCMODE) in
      (if Z.land flags O_TRUNC =? 0 then give tt else lift (fsys (truncate (f_sector f)))) ,,
      do! f := (if Z.land flags O_APPEND =? 0 then give f
                else do! len := lift (fsys (File.file_length f)) in give (seek f len)) in
      new_fd (FileDesc f)
  end.

Definition open_call (path_ptr flags : Z) : C Z :=
  do! path := path_arg path_ptr in
  if is_path path "dev/null" "/dev/null" then new_fd DevNull
  else if is_path path "dev/zero" "/dev/zero" then new_fd DevZero
  else if is_path path "dev/console" "/dev/console" || is_path path "dev/tty" "/dev/tty" then new_fd Fd.Console
  else open_file path flags.
Definition sys_open (args : Z) : C Z :=
  check_args args 2 ,,
  do! path_ptr := arg args 1 in
  do! flags := arg args 2 in
  open_call path_ptr (as_i32 flags).

(** UNLINK and MKDIR *)
Definition path_call (op : Z -> list Z -> M (FS D) bool) (path_ptr : Z) : C Z :=
  do! path := path_arg path_ptr in
  do! t := lift (vm self) in
  do! ok := lift (fsys (op (cwd_sector t) path)) in
  give (status_of ok).
Definition sys_path (op : Z -> list Z -> M (FS D) bool) (args : Z) : C Z :=
  check_args args 1 ,,
  do! path_ptr := arg args 1 in
  path_call op path_ptr.

(** The [repr(C)] bytes of [Stat]; the two bytes of padding are not initialised by the code. *)
Definition stat_bytes (file_type dev ino nlink size : Z) : list Z :=
  take 2 (le_bytes file_type) ++ take 2 (le_bytes dev) ++ le_bytes ino ++ take 2 (le_bytes nlink) ++ [0; 0] ++ le_bytes size.

Definition fstat_call (fd st_ptr : Z) : C Z :=
  validate_user_buffer st_ptr 16 ,,
  do! t := lift get_fd_table in
  let is_dev := match get_kind t fd with Some Fd.Console | Some DevNull | Some DevZero => true | _ => false end in
  if is_dev then
    lift (vm (put_user_bytes st_ptr (stat_bytes T_DEV 0 0 1 0))) ,,
    give 0
  else
    match Fd.get t fd with
    | None => give minus_one
    | Some file =>
        let sector := f_sector file in
        do! dir := lift (fsys (is_dir sector)) in
        do! len := lift (fsys (Inode.length sector)) in
        lift (vm (put_user_bytes st_ptr (stat_bytes (if dir then T_DIR else T_FILE) 0 sector 1 (as_u32 len)))) ,,
        give 0
    end.
Definition sys_fstat (args : Z) : C Z :=
  check_args args 2 ,,
  do! fd := arg args 1 in
  do! st_ptr := arg args 2 in
  fstat_call (as_i32 fd) st_ptr.

Definition link_call (old_ptr new_ptr : Z) : C Z :=
  require old_ptr 1 ,,
  require new_ptr 1 ,,
  do! old_path := read_user_string old_ptr in
  do! new_path := read_user_string new_ptr in
  do! t := lift (vm self) in
  do! ok := lift (fsys (link (cwd_sector t) old_path new_path)) in
  give (status_of ok).
Definition sys_link (args : Z) : C Z :=
  check_args args 2 ,,
  do! old_ptr := arg args 1 in
  do! new_ptr := arg args 2 in
  link_call old_ptr new_ptr.

Definition chdir_call (path_ptr : Z) : C Z :=
  do! path := path_arg path_ptr in
  if negb (bool_decide (path = [])) && forallb (fun b => b =? 47) path then
    lift (vm (set_self (set_cwd ROOT_DIR_SECTOR))) ,,
    give 0
  else
    do! t := lift (vm self) in
    do! f := lift (fsys (Filesys.open (cwd_sector t) path)) in
    match f with
    | None => give minus_one
    | Some file =>
        let sector := f_sector file in
        do! dir := lift (fsys (is_dir sector)) in
        (if dir then lift (vm (set_self (set_cwd sector))) else give tt) ,,
        lift (fsys (close_file file)) ,,
        give (status_of dir)
    end.
Definition sys_chdir (args : Z) : C Z :=
  check_args args 1 ,,
  do! path_ptr := arg args 1 in
  chdir_call path_ptr.

Definition dup_call (fd : Z) : C Z :=
  do! t := lift get_fd_table in
  do! r := lift (objects (dup t fd)) in
  let '(fd, t) := r in
  lift (put_fd_table t) ,,
  give (as_u32 fd).
Definition sys_dup (args : Z) : C Z :=
  check_args args 1 ,,
  do! fd := arg args 1 in
  dup_call (as_i32 fd).

(** The loop of [sbrk] over the pages up to the new break; false when memory ran out. *)
Fixpoint grow_heap (fuel : nat) (pd tid page new_brk : Z) : M (Kern D) bool :=
  if page <? new_brk then
    match fuel with
    | O => fun _ => OutOfFuel
    | S fuel' =>
        let! k := vm (pg (Pagedir.get_page pd page)) in
        let! ok :=
          (if k =? 0 then
             let! kpage := vm (alloc_frame page tid) in
             if kpage =? 0 then ret false
             else
               let! _ := vm (pg (set_page pd page kpage true)) in
               ret true
           else ret true) in
        if ok then
          let! page := u32_add page PGSIZE in
          grow_heap fuel' pd tid page new_brk
        else ret false
    end
  else ret true.

Definition sbrk_call (n : Z) : C Z :=
  do! t := lift (vm self) in
  let old_brk := brk t in
  if old_brk =? 0 then give minus_one
  else
    do! new_brk :=
      (if 0 <=? n then lift (u32_add old_brk (as_u32 n))
       else do! m := lift (i32_sub 0 n) in give (Z.max 0 (old_brk - as_u32 m))) in
    if PHYS_BASE <=? new_brk then give minus_one
    else
      do! ok :=
        (if old_brk <? new_brk then
           let page := Z.land old_brk (not_w 32 (PGSIZE - 1)) in
           do! page := (if Z.land old_brk (PGSIZE - 1) =? 0 then give page else lift (u32_add page PGSIZE)) in
           lift (grow_heap (S (Z.to_nat ((new_brk - page) / PGSIZE))) (pagedir t) (tid t) page new_brk)
         else give true) in
      if ok then
        lift (vm (set_self (set_brk new_brk))) ,,
        give old_brk
      else give minus_one.
Definition sys_sbrk (args : Z) : C Z :=
  check_args args 1 ,,
  do! a := arg args 1 in
  sbrk_call (as_i32 a).

(** [timer_sleep] returns at once when there is nothing to wait for. *)
Definition sleep_call (ticks : Z) : C Z :=
  if ticks <=? 0 then give 0 else ret (Waits (OnTimer ticks)).
Definition sys_sleep (args : Z) : C Z :=
  check_args args 1 ,,
  do! ticks := arg args 1 in
  sleep_call ticks.

Definition ioctl_call (fd request a : Z) : C Z :=
  do! t := lift get_fd_table in
  match get_kind t fd with
  | Some Fd.Console =>
      if request =? TIOCRAW then
        do! old := lift (console (set_raw (negb (a =? 0)))) in
        give (Z.b2z old)
      else if request =? TIOCPOLL then
        do! b := lift (console has_data) in
        give (Z.b2z b)
      else give minus_one
  | _ => give minus_one
  end.
Definition sys_ioctl (args : Z) : C Z :=
  check_args args 3 ,,
  do! fd := arg args 1 in
  do! request := arg args 2 in
  do! a := arg args 3 in
  ioctl_call (as_i32 fd) request a.

Definition signal_call (sig handler : Z) : C Z :=
  if (sig =? 0) || (31 <? sig) || (sig =? SIGKILL) then give minus_one
  else
    do! t := lift (vm self) in
    let mask := Z.shiftl 1 sig in
    let old := if Z.land (sig_ignore t) mask =? 0 then SIG_DFL else SIG_IGN in
    lift (vm (set_self (fun t => set_sig_ignore
      (if handler =? SIG_IGN then Z.lor (sig_ignore t) mask else Z.land (sig_ignore t) (not_w 32 mask)) t))) ,,
    give old.
Definition sys_signal (args : Z) : C Z :=
  check_args args 2 ,,
  do! sig := arg args 1 in
  do! handler := arg args 2 in
  signal_call sig handler.

Definition setpgid_call (pid pgid : Z) : C Z :=
  do! t := lift (vm self) in
  let target := if pid =? 0 then tid t else pid in
  do! found := lift (sched_do (set_pgid target pgid)) in
  give (status_of found).
Definition sys_setpgid (args : Z) : C Z :=
  check_args args 2 ,,
  do! p := arg args 1 in
  do! g := arg args 2 in
  setpgid_call (as_i32 p) (as_i32 g).

Definition getpgid_call (pid : Z) : C Z :=
  do! t := lift (vm self) in
  let target := if pid =? 0 then tid t else pid in
  do! g := lift (sched_do (get_pgid target)) in
  give (as_u32 g).
Definition sys_getpgid (args : Z) : C Z :=
  check_args args 1 ,,
  do! p := arg args 1 in
  getpgid_call (as_i32 p).

(** [syscall_handler]: the frame with the answer in eax. *)
Definition syscall_handler (frame : IntrFrame) : C IntrFrame :=
  let esp := f_esp frame in
  let eax (m : C Z) : C IntrFrame := do! x := m in give (set_eax x frame) in
  require esp 4 ,,
  do! syscall_num := arg esp 0 in
  match syscall_num with
  | 1 => do! child_tid := lift (fork frame) in give (set_eax (as_u32 child_tid) frame)
  | 2 =>
      check_args esp 1 ,,
      do! st := arg esp 1 in
      exit_process (as_i32 st)
  | 3 => eax (sys_wait esp)
  | 4 => eax (sys_pipe_call esp)
  | 5 => eax (sys_rw sys_read esp)
  | 6 => eax (sys_rw sys_write esp)
  | 7 => eax (sys_close esp)
  | 8 => eax (sys_kill esp)
  | 9 => sys_exec_call esp frame
  | 10 => eax (sys_open esp)
  | 11 => eax (give minus_one)
  | 12 => eax (sys_path Filesys.remove esp)
  | 13 => eax (sys_fstat esp)
  | 14 => eax (sys_link esp)
  | 15 => eax (sys_path Filesys.mkdir esp)
  | 16 => eax (sys_chdir esp)
  | 17 => eax (sys_dup esp)
  | 18 => eax (do! t := lift (vm self) in give (as_u32 (tid t)))
  | 19 => eax (sys_sbrk esp)
  | 20 => eax (sys_sleep esp)
  | 21 => eax (do! n := lift (gets k_ticks) in give (as_u32 n))
  | 22 => eax (sys_ioctl esp)
  | 23 => eax (sys_signal esp)
  | 24 => eax (sys_setpgid esp)
  | 25 => eax (sys_getpgid esp)
  | _ =>
      lift (kprintln (str "unknown syscall: " ++ dec syscall_num)) ,,
      exit_process (-1)
  end.

(** ** The way back to user mode *)

(** [thread::check_signals] *)
Definition check_signals : C unit :=
  do! t := lift (vm self) in
  if killed t then
    lift (exit_with_status (-1)) ,,
    lift (sched_do Thread.exit) ,,
    ret (Exits (-1))
  else give tt.

(** [intr_handler] for a vector that no device has, with its registered level and handler. *)
Definition internal_interrupt (entry_level : bool) (handler : IntrFrame -> C IntrFrame) (frame : IntrFrame) : C IntrFrame :=
  do! old_level := lift (sched_do (intr_set_level entry_level)) in
  do! frame := handler frame in
  do! _ := lift (sched_do (intr_set_level old_level)) in
  if Z.land (f_cs frame) 3 =? 3 then check_signals ,, give frame else give frame.

(** [int 0x80], registered with interrupts on. *)
Definition syscall_trap : IntrFrame -> C IntrFrame := internal_interrupt true syscall_handler.

(** A process that has been killed does not get back to user mode. *)
Lemma killed_stays lvl handler frame k f' k' :
  internal_interrupt lvl handler frame k = Ok (Val f') k' -> Z.land (f_cs f') 3 = 3 ->
  exists t, threads (vm_sched (k_vm k')) !! current (vm_sched (k_vm k')) = Some t /\ killed t = false.
Proof.
  unfold internal_interrupt, seq, lift, bind. destruct (sched_do _ k) as [old k1| | |]; [|done..]. simpl.
  destruct (handler frame k1) as [[f|st|w] k2| | |]; simpl; try done. destruct (sched_do _ k2) as [l k3| | |]; [|done..]. simpl.
  destruct (Z.eqb_spec (Z.land (f_cs f) 3) 3) as [E|E]; [|intros [= -> ->]; done]. unfold check_signals, seq, lift, bind, vm, zoom.
  unfold self, threads_do, zoom, bind, running_thread, gets, deref.
  destruct (threads (vm_sched (k_vm k3)) !! current (vm_sched (k_vm k3))) as [t|] eqn:Et; simpl; [|done].
  destruct (killed t) eqn:Ek; simpl.
  - by destruct (exit_with_status (-1) _) as [? k4| | |]; simpl; [destruct (sched_do exit k4) as [? k5| | |]|..].
  - intros [= <- <-] _. exists t. simpl. done.
Qed.
End syscall.
