(* ===== verification/UserMem.v ===== *)
(** The kernel's accesses to the memory of the running process: what the processor finds through
    the page tables is what the process sees, reading leaves nothing but accessed bits, and the bytes the kernel
    stores are what the process sees while no other byte of any process changes. *)
From S2P Require Import Prelude Btree Block Bio FreeMap Inode InodeLayout FileMap InodeOps InodeProofs Memory Palloc Thread Pagedir Swap SchedProofs Spaces Vm FrameTable VmMem VmDisk VmInv VmEvict VmLoad VmFault VmClaims Elf Loader Adopt LoadProgram Pipe Fd Input Proc Process.

Section user_mem.
Context {D : Type} `{!BlockOps D, !BlockLaws D}.
Implicit Types v u : VM D.

(** Thread [th] runs in its own address space. *)
Record running v (th : Thread) : Prop := {
  rn_current : threads (vm_sched v) !! current (vm_sched v) = Some th;
  rn_pagedir : pagedir th <> 0;
  rn_cr3 : cr3 (vm_pg v) = pagedir th - PHYS_BASE;
}.

(** Reads by the kernel: the state is sound, and differs in accessed bits at most. *)
Record viewed v v' : Prop := {
  vw_ok : vm_ok v';
  vw_same : same_view v v';
  vw_cr3 : cr3 (vm_pg v') = cr3 (vm_pg v);
  vw_rest : v' = with_pg (vm_pg v') v;
}.

Lemma viewed_refl v : vm_ok v -> viewed v v.
Proof. intros Hok. split; [done|apply sv_refl|done|by destruct v]. Qed.

Lemma viewed_trans v1 v2 v3 : viewed v1 v2 -> viewed v2 v3 -> viewed v1 v3.
Proof.
  intros [H1 H2 H3 E1] [H4 H5 H6 E2]. split; [done|by eapply sv_trans|congruence|]. rewrite E2 at 1. by rewrite E1 at 1.
Qed.

Lemma viewed_running v v' th : viewed v v' -> running v th -> running v' th.
Proof. intros [_ Hs Hc _] [H1 H2 H3]. split; [by rewrite (sv_sched _ _ Hs)|done|congruence]. Qed.

(** The page of [va] is mapped for thread [t]. *)
Definition resident v (t va : Z) : Prop := is_Some (mapping (vm_pg v) (pds v t) (va - va mod PGSIZE)).

Lemma page_user va : 0 <= va < PHYS_BASE -> user_page (va - va mod PGSIZE).
Proof. unfold user_page, PHYS_BASE, PGSIZE in *. intros. Z.div_mod_to_equations. lia. Qed.

Lemma page_idx va : pde_idx (va - va mod PGSIZE) = pde_idx va /\ pte_idx (va - va mod PGSIZE) = pte_idx va.
Proof. apply same_page. unfold PGSIZE. Z.div_mod_to_equations. lia. Qed.

Lemma pte_at_page s pd va : pte_at s pd (va - va mod PGSIZE) = pte_at s pd va.
Proof. unfold pte_at. by destruct (page_idx va) as [-> ->]. Qed.

Lemma mapping_page s pd va : mapping s pd (va - va mod PGSIZE) = mapping s pd va.
Proof. unfold mapping. rewrite pte_at_page. by destruct (page_idx va) as [-> _]. Qed.

Lemma viewed_resident v v' t va : viewed v v' -> pds v t <> 0 -> 0 <= va < PHYS_BASE -> resident v t va -> resident v' t va.
Proof.
  intros [_ Hs _ _] Ht Hva. pose proof (sv_map _ _ Hs t _ Ht (page_user va Hva)) as Hm. unfold resident. rewrite (sv_pds _ _ Hs).
  intros [pte E]. rewrite E in Hm. destruct (mapping (vm_pg v') _ _); [done|discriminate Hm].
Qed.

Lemma viewed_byte v v' t va : vm_ok v -> viewed v v' -> pds v t <> 0 -> 0 <= va < PHYS_BASE -> user_byte v' t va = user_byte v t va.
Proof.
  intros Hok [_ Hs _ _] Ht Hva. apply (sv_content _ _ Hok Hs); [done|by apply page_user|]. apply Z.mod_pos_bound. done.
Qed.

Lemma viewed_mem v v' t page pte k :
  vm_ok v -> viewed v v' -> pds v t <> 0 -> user_page page -> mapping (vm_pg v) (pds v t) page = Some pte -> 0 <= k < PGSIZE ->
  mem (vm_pg v') (frame_addr pte + k) = mem (vm_pg v) (frame_addr pte + k).
Proof.
  intros Hok [_ Hs _ _] Ht Hp Hm Hk. apply (sv_mem _ _ Hs (frame_addr pte)); [by eapply mapped_frame|lia].
Qed.

(** Changing the bits of a mapped page's entry, but not its frame. *)
Section entry.
Context v (t va pte w : Z) (Hok : vm_ok v) (Ht : pds v t <> 0) (Hva : user_page va) (Hm : mapping (vm_pg v) (pds v t) va = Some pte).
Context (Hw : in_u32 w) (Hf : frame_addr w = frame_addr pte).

Let s' : Paging := put_pte (pds v t) (vm_pg v) va w.

Lemma entry_table : pde (vm_pg v) (pds v t) (pde_idx va) <> 0.
Proof. intros E. unfold mapping in Hm. by rewrite E in Hm. Qed.

Lemma entry_upd : pte_upd (pds v) t va w (vm_pg v) s'.
Proof. apply put_upd; [apply (vo_mem _ Hok)|done|apply Hva|done|apply entry_table]. Qed.

Lemma entry_calm : calm (pds v) (vm_pg v) s'.
Proof.
  pose proof (mo_spaces _ _ _ (vo_mem _ Hok)) as Hss. split; [apply entry_upd| |done]. intros a _ Hl.
  unfold s'. rewrite put_live; [done|apply Hss|by apply (ss_space _ _ Hss)|by apply user_page_u32|apply entry_table].
Qed.

Lemma entry_ok : vm_ok (with_pg s' v).
Proof.
  apply vm_ok_pg; [done| |intros; by eapply (pu_pde _ _ _ _ _ _ entry_upd)].
  eapply mem_ok_upd; [apply Hok|done|apply entry_upd|]. intros _.
  destruct (mo_backed _ _ _ (vo_mem _ Hok) t va pte Ht Hva Hm) as (e & He & Ek & ?). exists e. by rewrite Hf.
Qed.

(** When the entry stays present, no contents change. *)
Context (HP : Z.land w PTE_P <> 0).

Lemma entry_mapping t' va' : pds v t' <> 0 -> in_u32 va' ->
  mapping s' (pds v t') va' = if decide (t' = t /\ va' / PGSIZE = va / PGSIZE) then Some w else mapping (vm_pg v) (pds v t') va'.
Proof.
  intros Ht' Hva'. rewrite (pu_map _ _ _ _ _ _ entry_upd) by done. by rewrite (proj2 (Z.eqb_neq _ _) HP).
Qed.

Lemma entry_frames t' p : pds v t' <> 0 -> user_page p ->
  frame_addr <$> mapping s' (pds v t') p = frame_addr <$> mapping (vm_pg v) (pds v t') p.
Proof.
  intros Ht' Hp. rewrite entry_mapping by (done || by apply user_page_u32). case_decide as Hd; [|done].
  destruct Hd as [-> Hd]. apply user_page_eq in Hd as ->; [|done..]. rewrite Hm. simpl. by rewrite Hf.
Qed.

Lemma entry_content t' p k : pds v t' <> 0 -> user_page p -> 0 <= k < PGSIZE -> content (with_pg s' v) t' p k = content v t' p k.
Proof.
  intros Ht' Hp Hk. pose proof (entry_frames t' p Ht' Hp) as E. unfold content. change (pds (with_pg s' v)) with (pds v).
  change (vm_pg (with_pg s' v)) with s'. destruct (mapping s' (pds v t') p) as [x|], (mapping (vm_pg v) (pds v t') p) as [y|] eqn:Ey; try done.
  injection E as E. rewrite E. destruct (mapped_frame v t' p y Hok Ht' Hp Ey) as [Hpool Hl].
  f_equal. apply (proj2 (pu_user _ _ _ _ _ _ entry_upd) _ Hl); [|lia]. intros Hkp.
  apply (pool_apart (vm_pg v) (frame_addr y) (frame_addr y)); try done. apply (mo_spaces _ _ _ (vo_mem _ Hok)).
Qed.
End entry.

Lemma mapping_in_u32 v t va pte : vm_ok v -> pds v t <> 0 -> in_u32 va -> mapping (vm_pg v) (pds v t) va = Some pte -> in_u32 pte /\ Z.land pte PTE_P <> 0.
Proof.
  intros Hok Ht Hva. rewrite mapping_word. destruct (Z.eqb_spec (Z.land (pte_word (vm_pg v) (pds v t) va) PTE_P) 0) as [|Hn]; [done|].
  intros [= <-]. split; [|done]. apply pte_word_u32; [by apply (ss_space _ _ (mo_spaces _ _ _ (vo_mem _ Hok)))|done].
Qed.

(** Setting the accessed bit of a mapped page. *)
Lemma mark_accessed v t va pte :
  vm_ok v -> pds v t <> 0 -> user_page va -> mapping (vm_pg v) (pds v t) va = Some pte ->
  viewed v (with_pg (put_pte (pds v t) (vm_pg v) va (Z.lor pte PTE_A)) v).
Proof.
  intros Hok Ht Hva Hm. destruct (mapping_in_u32 v t va pte Hok Ht (user_page_u32 _ Hva) Hm) as [Hin HP].
  destruct (accessed_word pte true Hin) as (Hin' & HP' & _ & HA). cbv iota in Hin', HP', HA.
  assert (frame_addr (Z.lor pte PTE_A) = frame_addr pte) as Hf.
  { unfold frame_addr. by rewrite Z.land_lor_distr_l, Z.lor_0_r. }
  split; [by eapply entry_ok| |done|done].
  eapply pte_upd_view; [done|done|by eapply entry_upd|by eapply entry_calm|done|].
  rewrite HP', Hm. rewrite (proj2 (Z.eqb_neq _ _) HP). simpl. by rewrite HA.
Qed.

(** The access the page tables allow. *)
Lemma wp_touch v th va w pte (Q : Z -> VM D -> Prop) :
  vm_ok v -> running v th -> 0 <= va < PHYS_BASE -> mapping (vm_pg v) (pds v (tid th)) (va - va mod PGSIZE) = Some pte ->
  w && (Z.land pte PTE_W =? 0) = false ->
  Q (frame_addr pte + va mod PGSIZE)
    (with_pg (put_pte (pds v (tid th)) (vm_pg v) (va - va mod PGSIZE) (Z.lor pte (if w then Z.lor PTE_A PTE_D else PTE_A))) v) ->
  wp (touch va w) v Q.
Proof.
  intros Hok Hrun Hva Hm Hw HQ. pose proof (page_user va Hva) as Hp. destruct Hrun as [Hth Hpd Hcr].
  pose proof (pds_current v th Hok Hth) as Epd. assert (pds v (tid th) <> 0) as Ht by congruence.
  pose proof (mo_spaces _ _ _ (vo_mem _ Hok)) as Hss. pose proof (ss_space _ _ Hss (tid th) Ht) as Hsp.
  destruct (live_page _ _ ltac:(apply Hss) (pd_live _ _ (sp_ok _ _ Hsp))) as (_ & _ & Hlim & _).
  pose proof (mapped_frame v (tid th) _ pte Hok Ht Hp Hm) as [Hpool Hlive].
  destruct (live_page _ _ ltac:(apply Hss) Hlive) as (_ & _ & Hlim' & _).
  unfold touch. apply wp_bind, wp_zoom, wp_gets. rewrite with_pg_id, Hcr. apply wp_bind, wp_ptov; [unfold PGSIZE in *; lia|].
  replace (pagedir th - PHYS_BASE + PHYS_BASE) with (pds v (tid th)) by lia.
  apply wp_bind, wp_zoom, wp_gets. rewrite with_pg_id, <- mapping_page, Hm, Hw.
  apply wp_bind, wp_zoom, wp_gets. rewrite with_pg_id, <- pte_at_page. apply wp_bind, wp_zoom, wp_modify.
  apply wp_bind, wp_ptov; [unfold frame_addr, PGSIZE in *; lia|]. apply wp_ret.
  replace (Z.land pte PTE_ADDR + PHYS_BASE) with (frame_addr pte) by (unfold frame_addr; lia).
  unfold pg_ofs. rewrite land_pgmask. exact HQ.
Qed.

Lemma wp_touch_read v th va (Q : Z -> VM D -> Prop) :
  vm_ok v -> running v th -> 0 <= va < PHYS_BASE -> resident v (tid th) va ->
  (forall v' pte, viewed v v' -> mapping (vm_pg v) (pds v (tid th)) (va - va mod PGSIZE) = Some pte ->
     Q (frame_addr pte + va mod PGSIZE) v') ->
  wp (touch va false) v Q.
Proof.
  intros Hok Hrun Hva [pte Hm] HQ. eapply wp_touch; [done|done|done|exact Hm|done|]. apply HQ; [|done].
  eapply mark_accessed; [done| |by apply page_user|done]. rewrite (pds_current v th Hok) by apply Hrun. apply Hrun.
Qed.

Lemma wp_user_u8 v th va b (Q : Z -> VM D -> Prop) :
  vm_ok v -> running v th -> 0 <= va < PHYS_BASE -> resident v (tid th) va -> user_byte v (tid th) va = Some b ->
  (forall v', viewed v v' -> Q b v') -> wp (user_u8 va) v Q.
Proof.
  intros Hok Hrun Hva Hres Hb HQ. assert (pds v (tid th) <> 0) as Ht.
  { rewrite (pds_current v th Hok) by apply Hrun. apply Hrun. }
  unfold user_u8. apply wp_bind, (wp_touch_read v th); [done..|]. intros v' pte Hv Hm. apply wp_gets.
  unfold user_byte, content in Hb. rewrite Hm in Hb. injection Hb as <-.
  rewrite (viewed_mem v v' (tid th) _ pte _ Hok Hv Ht (page_user va Hva) Hm) by by apply Z.mod_pos_bound. by apply HQ.
Qed.

(** *** A range of user memory *)

(** The bytes [l] of thread [t] from [va] on, all mapped. *)
Record user_range v (t va : Z) (l : list Z) : Prop := {
  ur_range : 0 <= va /\ va + Z.of_nat (List.length l) <= PHYS_BASE;
  ur_resident : forall i, (i < List.length l)%nat -> resident v t (va + Z.of_nat i);
  ur_bytes : forall i b, l !! i = Some b -> user_byte v t (va + Z.of_nat i) = Some b;
}.

Lemma user_range_tail v t va b l : user_range v t va (b :: l) -> user_range v t (va + 1) l.
Proof.
  intros [Hr Hres Hb]. simpl in *. split; [lia| |].
  - intros i Hi. replace (va + 1 + Z.of_nat i) with (va + Z.of_nat (S i)) by lia. apply Hres. lia.
  - intros i x Hx. replace (va + 1 + Z.of_nat i) with (va + Z.of_nat (S i)) by lia. by apply Hb.
Qed.

Lemma user_range_app v t va l1 l2 :
  user_range v t va (l1 ++ l2) -> user_range v t va l1 /\ user_range v t (va + Z.of_nat (List.length l1)) l2.
Proof.
  intros [Hr Hres Hb]. rewrite length_app in *. split; split; try lia.
  - intros i Hi. apply Hres. lia.
  - intros i x Hx. apply Hb. by apply lookup_app_l_Some.
  - intros i Hi. rewrite <- Z.add_assoc, <- Nat2Z.inj_add. apply Hres. lia.
  - intros i x Hx. rewrite <- Z.add_assoc, <- Nat2Z.inj_add. apply Hb. rewrite lookup_app_r by lia. by replace (_ - _)%nat with i by lia.
Qed.

Lemma viewed_range v v' t va l : vm_ok v -> viewed v v' -> pds v t <> 0 -> user_range v t va l -> user_range v' t va l.
Proof.
  intros Hok Hv Ht [Hr Hres Hb]. split; [done| |].
  - intros i Hi. eapply viewed_resident; [done|done|lia|]. by apply Hres.
  - intros i b Hi. pose proof (lookup_lt_Some _ _ _ Hi). rewrite (viewed_byte v v') by (done || lia). by apply Hb.
Qed.

Section read.
Context v th (Hok : vm_ok v) (Hrun : running v th).

Lemma running_pds : pds v (tid th) <> 0.
Proof. rewrite (pds_current v th Hok) by apply Hrun. apply Hrun. Qed.

Lemma wp_range_u8 va b l (Q : Z -> VM D -> Prop) :
  user_range v (tid th) va (b :: l) -> (forall v', viewed v v' -> Q b v') -> wp (user_u8 va) v Q.
Proof.
  intros [Hr Hres Hb] HQ. simpl in *. specialize (Hres 0%nat ltac:(lia)). specialize (Hb 0%nat b eq_refl).
  rewrite Z.add_0_r in *. eapply wp_user_u8; [done|done|lia|done|done|done].
Qed.
End read.

Lemma wp_user_u32 v th va b0 b1 b2 b3 (Q : Z -> VM D -> Prop) :
  vm_ok v -> running v th -> user_range v (tid th) va [b0; b1; b2; b3] ->
  (forall v', viewed v v' -> Q (le_word [b0; b1; b2; b3]) v') -> wp (user_u32 va) v Q.
Proof.
  intros Hok Hrun Hr HQ. pose proof (running_pds v th Hok Hrun) as Ht.
  assert (forall v' va b l, viewed v v' -> user_range v (tid th) va (b :: l) -> forall Q' : Z -> VM D -> Prop,
    (forall u, viewed v u -> Q' b u) -> wp (user_u8 va) v' Q') as Hstep.
  { intros v' a b l Hv Hl Q' HQ'. eapply (wp_range_u8 v' th); [apply Hv|by eapply viewed_running|by eapply viewed_range|].
    intros u Hu. apply HQ'. by eapply viewed_trans. }
  pose proof (user_range_tail _ _ _ _ _ Hr) as H1. pose proof (user_range_tail _ _ _ _ _ H1) as H2.
  pose proof (user_range_tail _ _ _ _ _ H2) as H3. 
  replace (va + 1 + 1 + 1) with (va + 3) in H3 by lia. replace (va + 1 + 1) with (va + 2) in H2 by lia.
  unfold user_u32. apply wp_bind. eapply Hstep; [by apply viewed_refl|done|]. intros v1 Hv1.
  apply wp_bind. eapply Hstep; [done|done|]. intros v2 Hv2. apply wp_bind. eapply Hstep; [done|exact H2|]. intros v3 Hv3.
  apply wp_bind. eapply Hstep; [done|exact H3|]. intros v4 Hv4. apply wp_ret. by apply HQ.
Qed.
End user_mem.

(** ** Writes *)
Section user_store.
Context {D : Type} `{!BlockOps D, !BlockLaws D}.
Implicit Types v u : VM D.

(** The page of [va] is mapped for thread [t] and may be written. *)
Definition writable_at v (t va : Z) : Prop :=
  exists pte, mapping (vm_pg v) (pds v t) (va - va mod PGSIZE) = Some pte /\ Z.land pte PTE_W <> 0.

(** What an entry says of its page, but for the accessed and dirty bits. *)
Definition frame_rights (pte : Z) : Z * Z := (frame_addr pte, Z.land pte PTE_W).

(** Thread [t] has got the bytes [l] at [va]; nothing else has changed but accessed and dirty bits. *)
Record stored v v' (t va : Z) (l : list Z) : Prop := {
  st_ok : vm_ok v';
  st_rest : v' = with_pg (vm_pg v') v;
  st_cr3 : cr3 (vm_pg v') = cr3 (vm_pg v);
  st_map : forall t' p, pds v t' <> 0 -> user_page p ->
    frame_rights <$> mapping (vm_pg v') (pds v t') p = frame_rights <$> mapping (vm_pg v) (pds v t') p;
  st_bytes : forall t' a, pds v t' <> 0 -> 0 <= a < PHYS_BASE ->
    user_byte v' t' a = if decide (t' = t /\ va <= a < va + Z.of_nat (List.length l)) then Some (byte_at l (a - va)) else user_byte v t' a;
}.

Lemma stored_pds v v' t va l : stored v v' t va l -> pds v' = pds v.
Proof. intros H. by rewrite (st_rest _ _ _ _ _ H). Qed.

Lemma stored_nil v t va : vm_ok v -> stored v v t va [].
Proof. intros Hok. split; try done; [by destruct v|]. intros t' a Ht Ha. rewrite decide_False; [done|]. simpl. lia. Qed.

Lemma stored_running v v' t va l th : stored v v' t va l -> running v th -> running v' th.
Proof.
  intros H [H1 H2 H3]. split; [by rewrite (st_rest _ _ _ _ _ H)|done|]. by rewrite (st_cr3 _ _ _ _ _ H).
Qed.

Lemma stored_writable v v' t va l t' a : stored v v' t va l -> pds v t' <> 0 -> 0 <= a < PHYS_BASE -> writable_at v t' a -> writable_at v' t' a.
Proof.
  intros H Ht Ha (pte & Hm & Hw). pose proof (st_map _ _ _ _ _ H t' _ Ht (page_user a Ha)) as E. unfold writable_at.
  rewrite (stored_pds _ _ _ _ _ H). rewrite Hm in E. destruct (mapping (vm_pg v') _ _) as [x|]; [|done].
  injection E as E1 E2. exists x. split; [done|]. by rewrite E2.
Qed.

Lemma stored_app v1 v2 v3 t va l1 l2 :
  stored v1 v2 t va l1 -> stored v2 v3 t (va + Z.of_nat (List.length l1)) l2 -> stored v1 v3 t va (l1 ++ l2).
Proof.
  intros H1 H2. pose proof (stored_pds _ _ _ _ _ H1) as Ep. split.
  - apply H2.
  - rewrite (st_rest _ _ _ _ _ H2) at 1. by rewrite (st_rest _ _ _ _ _ H1) at 1.
  - by rewrite (st_cr3 _ _ _ _ _ H2), (st_cr3 _ _ _ _ _ H1).
  - intros t' p Ht Hp. rewrite <- (st_map _ _ _ _ _ H1) by done. rewrite <- Ep in *. by apply (st_map _ _ _ _ _ H2).
  - intros t' a Ht Ha. rewrite (st_bytes _ _ _ _ _ H2) by (done || by rewrite Ep). rewrite (st_bytes _ _ _ _ _ H1) by done.
    rewrite length_app. destruct (decide (t' = t)) as [->|Hne]; [|by rewrite !decide_False by (by intros [? _])].
    destruct (decide (va <= a < va + Z.of_nat (List.length l1))) as [Hin|Hin].
    + rewrite decide_False, !decide_True by lia. unfold byte_at. by rewrite lookup_app_l by lia.
    + destruct (decide (va + Z.of_nat (List.length l1) <= a < va + Z.of_nat (List.length l1) + Z.of_nat (List.length l2))) as [Hin2|Hin2].
      * rewrite !decide_True by lia. unfold byte_at. rewrite lookup_app_r by lia. do 3 f_equal. lia.
      * by rewrite !decide_False by lia.
Qed.

Lemma stored_cons v1 v2 v3 t va b l : stored v1 v2 t va [b] -> stored v2 v3 t (va + 1) l -> stored v1 v3 t va (b :: l).
Proof. apply (stored_app _ _ _ _ _ [b]). Qed.

(** Reading is storing nothing. *)
Lemma viewed_stored v v' t va : vm_ok v -> viewed v v' -> stored v v' t va [].
Proof.
  intros Hok Hv. split; [apply Hv..| |].
  - intros t' p Ht Hp. pose proof (sv_map _ _ (vw_same _ _ Hv) t' p Ht Hp) as E. unfold but_accessed in E.
    destruct (mapping (vm_pg v') _ _) as [x|], (mapping (vm_pg v) _ _) as [y|]; try done. injection E as E. simpl. f_equal.
    assert (forall m, Z.land (not_w 32 PTE_A) m = m -> Z.land x m = Z.land y m) as H.
    { intros m Em. by rewrite <- Em, !Z.land_assoc, E. }
    unfold frame_rights, frame_addr. by rewrite !H.
  - intros t' a Ht Ha. rewrite decide_False by (simpl; lia). by apply viewed_byte.
Qed.

(** One byte. *)
Section store.
Context v th (va b pte : Z) (Hok : vm_ok v) (Hrun : running v th) (Hva : 0 <= va < PHYS_BASE) (Hb : in_u8 b).
Let t : Z := tid th.
Let page : Z := va - va mod PGSIZE.
Context (Hm : mapping (vm_pg v) (pds v t) page = Some pte) (Hw : Z.land pte PTE_W <> 0).
Let pte' : Z := Z.lor pte (Z.lor PTE_A PTE_D).
Let v1 : VM D := with_pg (put_pte (pds v t) (vm_pg v) page pte') v.
Let v2 : VM D := poked (store (frame_addr pte + va mod PGSIZE) b) v1.

Lemma store_entry : pds v t <> 0 /\ user_page page /\ in_u32 pte' /\ Z.land pte' PTE_P <> 0 /\ frame_rights pte' = frame_rights pte.
Proof.
  assert (pds v t <> 0) as Ht by (by apply running_pds). pose proof (page_user va Hva) as Hp.
  destruct (mapping_in_u32 v t page pte Hok Ht (user_page_u32 _ Hp) Hm) as [Hin HP]. split_and!; [done|done| | |].
  - by apply in_u32_lor.
  - unfold pte'. by rewrite Z.land_lor_distr_l, Z.lor_0_r.
  - unfold frame_rights, frame_addr, pte'. by rewrite !Z.land_lor_distr_l, !Z.lor_0_r.
Qed.

Lemma store_stored : stored v v2 t va [b].
Proof.
  destruct store_entry as (Ht & Hp & Hin & HP & [= Hf HW]).
  pose proof (entry_ok v t page pte pte' Hok Ht Hp Hm Hin Hf : vm_ok v1) as Hok1.
  destruct (mo_backed _ _ _ (vo_mem _ Hok) t page pte Ht Hp Hm) as (e & He & Ek & Eu & Eo).
  pose proof (Z.mod_pos_bound va PGSIZE ltac:(done)) as Hofs.
  assert (written e v1 v2) as Hwr.
  { apply poke_written; [done|done| |].
    - intros m x Hx. unfold store. rewrite decide_False by lia. done.
    - intros k Hk. unfold store. case_decide; [done|]. by apply (fr_u8 _ _ (mo_frames _ _ _ (vo_mem _ Hok1) e He)). }
  assert (mapping (vm_pg v1) (pds v t) page = Some pte') as Em1.
  { change (vm_pg v1) with (put_pte (pds v t) (vm_pg v) page pte').
    by rewrite (entry_mapping v t page pte pte' Hok Ht Hp Hm Hin HP), decide_True by (done || by apply user_page_u32). }
  split.
  - apply Hwr.
  - done.
  - done.
  - intros t' p Ht' Hp'. pose proof (wr_map _ _ _ Hwr t' p Ht' (user_page_u32 _ Hp')) as E. change (pds v1) with (pds v) in E. rewrite E.
    change (vm_pg v1) with (put_pte (pds v t) (vm_pg v) page pte').
    rewrite (entry_mapping v t page pte pte' Hok Ht Hp Hm Hin HP) by (done || by apply user_page_u32).
    case_decide as Hd; [|done]. destruct Hd as [-> Hd]. apply user_page_eq in Hd as ->; [|done..]. rewrite Hm. simpl. unfold frame_rights. congruence.
  - intros t' a Ht' Ha. simpl List.length. unfold user_byte. pose proof (page_user a Ha) as Hpa. pose proof (Z.mod_pos_bound a PGSIZE ltac:(done)) as Hka.
    destruct (decide (t' = t /\ a - a mod PGSIZE = page)) as [[-> Ea]|Hne].
    + rewrite Ea. unfold content. change (pds v2) with (pds v). rewrite Hm.
      pose proof (wr_map _ _ _ Hwr t page Ht (user_page_u32 _ Hp)) as E. change (pds v1) with (pds v) in E. rewrite E, Em1, Hf.
      change (mem (vm_pg v2)) with (store (frame_addr pte + va mod PGSIZE) b (mem (vm_pg v1))). unfold store.
      assert (va = page + va mod PGSIZE) as Eva by (unfold page; lia).
      destruct (decide (a = va)) as [->|Hav]; [rewrite !decide_True by lia; by rewrite Z.sub_diag|].
      rewrite !decide_False by lia.
      pose proof (entry_content v t page pte pte' Hok Ht Hp Hm Hin Hf HP t page (a mod PGSIZE) Ht Hp Hka) as Ec.
      unfold content in Ec. change (with_pg (put_pte (pds v t) (vm_pg v) page pte') v) with v1 in Ec. change (pds v1) with (pds v) in Ec.
      rewrite Hm, Em1, Hf in Ec. exact Ec.
    + rewrite decide_False.
      2:{ intros [-> Hav]. assert (a = va) as -> by lia. by destruct Hne. }
      rewrite (wr_content _ _ _ Hwr); [|done|done|done|by rewrite Eo, Eu].
      exact (entry_content v t page pte pte' Hok Ht Hp Hm Hin Hf HP t' _ _ Ht' Hpa Hka).
Qed.
End store.

Lemma wp_put_user_u8 v th va b (Q : unit -> VM D -> Prop) :
  vm_ok v -> running v th -> 0 <= va < PHYS_BASE -> writable_at v (tid th) va -> in_u8 b ->
  (forall v', stored v v' (tid th) va [b] -> Q tt v') -> wp (put_user_u8 va b) v Q.
Proof.
  intros Hok Hrun Hva (pte & Hm & Hw) Hb HQ. unfold put_user_u8.
  apply wp_bind. eapply wp_touch; [done|done|done|exact Hm|by apply Z.eqb_neq|]. apply wp_zoom, wp_modify.
  apply HQ. by apply store_stored.
Qed.

Lemma wp_put_user_bytes th l : forall v va (Q : unit -> VM D -> Prop),
  vm_ok v -> running v th -> 0 <= va -> va + Z.of_nat (List.length l) <= PHYS_BASE -> Forall in_u8 l ->
  (forall a, va <= a < va + Z.of_nat (List.length l) -> writable_at v (tid th) a) ->
  (forall v', stored v v' (tid th) va l -> Q tt v') -> wp (put_user_bytes va l) v Q.
Proof.
  induction l as [|b l IH]; intros v va Q Hok Hrun Hva Hl H8 Hw HQ; [by apply wp_ret, HQ, stored_nil|].
  apply Forall_cons in H8 as [Hb H8]. simpl List.length in *. simpl. apply wp_bind, (wp_put_user_u8 v th); [done|done|lia|apply Hw; lia|done|].
  intros v1 H1. apply IH; [apply H1|by eapply stored_running|lia|lia|done| |].
  - intros a Ha. eapply stored_writable; [done|by apply running_pds|lia|apply Hw; lia].
  - intros v2 H2. apply HQ. by eapply stored_cons.
Qed.
End user_store.
