(* ===== verification/SysArgs.v ===== *)
(** How system calls reach their arguments: validation of user pointers, words of the caller's
    stack and its buffers, when the pages are mapped. *)
From S2P Require Import Prelude Btree Block Bio FreeMap Inode InodeLayout FileMap InodeOps InodeProofs Memory Palloc Thread Pagedir Swap SchedProofs Spaces Vm FrameTable VmMem VmDisk VmInv VmEvict VmLoad VmFault VmClaims Elf Loader LoaderSetup LoadProgram Pipe Fd Input Proc Process Syscall UserMem.

Section sys_args.
Context {D : Type} `{!BlockOps D, !BlockLaws D}.
Implicit Types (k : Kern D) (v : VM D).

(** ** Running the monad of system calls *)
Lemma wp_seq {A B} (m : C A) (f : A -> C B) k (Q : ctl B -> Kern D -> Prop) :
  wp m k (fun r k' => match r with
                      | Val a => wp (f a) k' Q
                      | Exits st => Q (Exits st) k'
                      | Waits w => Q (Waits w) k'
                      end) -> wp (seq m f) k Q.
Proof.
  intros H. unfold seq. apply wp_bind. eapply wp_mono; [exact H|]. intros [a|st|w] k' HQ; [done|by apply wp_ret..].
Qed.

Lemma wp_give {A} (a : A) k (Q : ctl A -> Kern D -> Prop) : Q (Val a) k -> wp (give a) k Q.
Proof. apply wp_ret. Qed.

Lemma wp_lift {A} (m : M (Kern D) A) k (Q : ctl A -> Kern D -> Prop) : wp m k (fun a k' => Q (Val a) k') -> wp (lift m) k Q.
Proof. intros H. apply wp_bind. eapply wp_mono; [exact H|]. intros a k' HQ. by apply wp_ret. Qed.

Lemma put_vm_id k : put_vm (k_vm k) k = k.
Proof. by destruct k. Qed.

(** A step that only looks. *)
Definition seen k k' : Prop := viewed (k_vm k) (k_vm k') /\ k' = put_vm (k_vm k') k.

Lemma seen_refl k : vm_ok (k_vm k) -> seen k k.
Proof. intros. split; [by apply viewed_refl|by rewrite put_vm_id]. Qed.
Lemma seen_put k v : viewed (k_vm k) v -> seen k (put_vm v k).
Proof. by split. Qed.
Lemma seen_trans k1 k2 k3 : seen k1 k2 -> seen k2 k3 -> seen k1 k3.
Proof.
  intros [H1 E1] [H2 E2]. split; [by eapply viewed_trans|]. rewrite E2 at 1. rewrite E1 at 1. done.
Qed.

(** The caller, and where it stands. *)
Record caller k (th : Thread) : Prop := {
  ca_ok : vm_ok (k_vm k);
  ca_run : running (k_vm k) th;
}.

Lemma seen_caller k k' th : seen k k' -> caller k th -> caller k' th.
Proof. intros [Hv _] [Hok Hrun]. split; [apply Hv|by eapply viewed_running]. Qed.
Lemma seen_range k k' th va l : seen k k' -> caller k th -> user_range (k_vm k) (tid th) va l -> user_range (k_vm k') (tid th) va l.
Proof. intros [Hv _] [Hok Hrun]. eapply viewed_range; [done|done|by apply running_pds]. Qed.

Lemma wp_vm_self k th (Q : Thread -> Kern D -> Prop) : caller k th -> Q th k -> wp (vm self) k Q.
Proof.
  intros [_ [Hth _ _]] HQ. apply wp_zoom, (wp_self _ th); [done|]. by rewrite put_vm_id.
Qed.

(** ** Validation *)
Definition all_resident k (t a b : Z) : Prop := forall va, a <= va < b -> resident (k_vm k) t va.

Lemma wp_valid_pages k th page stop (Q : bool -> Kern D -> Prop) : forall fuel,
  caller k th -> 0 <= page -> page mod PGSIZE = 0 -> stop <= PHYS_BASE ->
  (forall va, page <= va < stop -> va mod PGSIZE = 0 -> resident (k_vm k) (tid th) va) ->
  (stop - page) / PGSIZE < Z.of_nat fuel -> Q true k ->
  wp (valid_pages fuel (pagedir th) (tid th) page stop) k Q.
Proof.
  intros fuel Hc. revert page. induction fuel as [|fuel IH]; intros page Hp Hal Hs Hres Hf HQ; simpl.
  - destruct (Z.ltb_spec page stop); [exfalso|by apply wp_ret]. unfold PGSIZE in *. Z.div_mod_to_equations. lia.
  - destruct (Z.ltb_spec page stop) as [Hlt|]; [|by apply wp_ret].
    destruct (Hres page ltac:(lia) Hal) as [pte Hm]. pose proof (ca_ok _ _ Hc) as Hok.
    pose proof (running_pds _ _ Hok (ca_run _ _ Hc)) as Ht. pose proof (mo_spaces _ _ _ (vo_mem _ Hok)) as Hss.
    rewrite Hal, Z.sub_0_r in Hm. assert (in_u32 page) as Hu by (unfold in_u32, PHYS_BASE, u32_lim in *; lia).
    pose proof (pds_current _ th Hok (rn_current _ _ (ca_run _ _ Hc))) as Epd.
    apply wp_bind, wp_zoom, wp_zoom, wp_get_page; [apply Hss|rewrite <- Epd; by apply (ss_space _ _ Hss)|done|].
    rewrite <- Epd, Hm. split.
    { pose proof (mapped_frame _ _ page pte Hok Ht ltac:(split; [lia|done]) Hm) as [_ Hl].
      destruct (live_page _ _ ltac:(apply Hss) Hl) as (_ & _ & ? & _). done. }
    rewrite with_pg_id, put_vm_id. apply wp_bind, wp_zoom, wp_gets. rewrite put_vm_id, Hal, Z.add_0_r.
    assert (0 < PHYS_BASE + Z.land pte PTE_ADDR) as Hpos.
    { pose proof (mapped_frame _ _ page pte Hok Ht ltac:(split; [lia|done]) Hm) as [_ Hl].
      destruct (live_page _ _ ltac:(apply Hss) Hl) as (? & _). done. }
    rewrite (proj2 (Z.eqb_neq _ _)) by lia. apply wp_bind, wp_u32_add; [unfold PHYS_BASE, PGSIZE, u32_lim in *; lia|].
    rewrite Epd. apply IH; [unfold PGSIZE; lia| |done| | |done].
    + rewrite Z.add_mod, Hal, Z_mod_same_full by done. done.
    + intros va Hva. apply Hres. unfold PGSIZE in *. lia.
    + unfold PGSIZE in *. Z.div_mod_to_equations. lia.
Qed.

(** The walk over the pages of a range of user addresses. *)
Lemma wp_ptr_pages k th addr size (Q : bool -> Kern D -> Prop) :
  caller k th -> PGSIZE <= addr -> 0 < size -> addr + size <= PHYS_BASE ->
  (forall fuel, (addr + size - (addr - addr mod PGSIZE)) / PGSIZE < Z.of_nat fuel ->
     wp (valid_pages fuel (pagedir th) (tid th) (addr - addr mod PGSIZE) (addr + size)) k Q) ->
  wp (is_valid_user_ptr addr size) k Q.
Proof.
  intros Hc Ha Hs Hb HQ. unfold is_valid_user_ptr.
  assert (as_u32 (addr + size) = addr + size) as ->.
  { apply Z.mod_small. unfold PGSIZE, PHYS_BASE, u32_lim in *. lia. }
  rewrite (proj2 (Z.leb_le _ _) Ha), (proj2 (Z.ltb_lt addr PHYS_BASE)), (proj2 (Z.ltb_ge PHYS_BASE _)) by lia. cbn [negb andb orb].
  apply wp_bind, (wp_vm_self _ th); [done|]. rewrite (proj2 (Z.eqb_neq _ _)) by apply Hc.
  apply wp_bind, wp_u32_add; [unfold PHYS_BASE, u32_lim in *; lia|]. change (PGSIZE - 1) with PGMASK.
  rewrite land_not_pgmask by (unfold in_u32, PGSIZE, PHYS_BASE, u32_lim in *; lia).
  apply HQ. unfold PGSIZE in *. Z.div_mod_to_equations. lia.
Qed.

Lemma wp_is_valid_user_ptr k th addr size (Q : bool -> Kern D -> Prop) :
  caller k th -> PGSIZE <= addr -> 0 < size -> addr + size <= PHYS_BASE -> all_resident k (tid th) addr (addr + size) ->
  Q true k -> wp (is_valid_user_ptr addr size) k Q.
Proof.
  intros Hc Ha Hs Hb Hres HQ. apply (wp_ptr_pages _ th); [done..|]. intros fuel Hf.
  apply (wp_valid_pages _ th); [done| | |done| |done|done].
  - unfold PGSIZE in *. Z.div_mod_to_equations. lia.
  - unfold PGSIZE in *. Z.div_mod_to_equations. lia.
  - intros va Hva Hal. destruct (decide (addr <= va)) as [Hle|Hle]; [apply Hres; lia|].
    pose proof (Hres addr ltac:(lia)) as H. unfold resident in *. rewrite Hal, Z.sub_0_r.
    replace va with (addr - addr mod PGSIZE); [done|]. unfold PGSIZE in *. Z.div_mod_to_equations. lia.
Qed.

Lemma range_resident v t va l a b :
  user_range v t va l -> va <= a -> b <= va + Z.of_nat (List.length l) -> forall x, a <= x < b -> resident v t x.
Proof.
  intros [_ Hres _] Ha Hb x Hx. replace x with (va + Z.of_nat (Z.to_nat (x - va))) by lia. apply Hres. lia.
Qed.

Lemma wp_require k th va l addr size (Q : ctl unit -> Kern D -> Prop) :
  caller k th -> user_range (k_vm k) (tid th) va l -> PGSIZE <= addr -> 0 < size -> va <= addr ->
  addr + size <= va + Z.of_nat (List.length l) -> Q (Val tt) k -> wp (require addr size) k Q.
Proof.
  intros Hc Hr Ha Hs H1 H2 HQ. apply wp_bind, (wp_is_valid_user_ptr _ th); [done|done|done| | |by apply wp_ret].
  - pose proof (ur_range _ _ _ _ Hr). lia.
  - intros x Hx. by eapply range_resident.
Qed.

Lemma wp_validate_user_buffer k th va l (Q : ctl unit -> Kern D -> Prop) :
  caller k th -> user_range (k_vm k) (tid th) va l -> PGSIZE <= va -> Q (Val tt) k ->
  wp (validate_user_buffer va (Z.of_nat (List.length l))) k Q.
Proof.
  intros Hc Hr Ha HQ. unfold validate_user_buffer. destruct (Z.ltb_spec 0 (Z.of_nat (List.length l))); [|by apply wp_ret].
  eapply wp_require; [done|done|done|done|lia|lia|done].
Qed.

(** ** Arguments *)

(** The words [ws] on the caller's stack from [esp] on. *)
Definition stack_words k (th : Thread) (esp : Z) (ws : list Z) : Prop :=
  PGSIZE <= esp /\ Forall in_u32 ws /\ user_range (k_vm k) (tid th) esp (ws ≫= le_bytes).

Lemma length_words ws : List.length (ws ≫= le_bytes) = (4 * List.length ws)%nat.
Proof.
  induction ws as [|w ws IH]; [done|]. change ((w :: ws) ≫= le_bytes) with (le_bytes w ++ (ws ≫= le_bytes)).
  rewrite length_app, IH, le_bytes_length. simpl. lia.
Qed.

Lemma stack_words_tail k th esp w ws : stack_words k th esp (w :: ws) -> stack_words k th (esp + 4) ws.
Proof.
  intros (Ha & Hw & Hr). apply Forall_cons in Hw as [_ Hw]. split_and!; [lia|done|].
  change ((w :: ws) ≫= le_bytes) with (le_bytes w ++ (ws ≫= le_bytes)) in Hr. by apply user_range_app in Hr as [_ Hr].
Qed.

Lemma stack_words_drop k th i : forall esp ws,
  (i <= List.length ws)%nat -> stack_words k th esp ws -> stack_words k th (esp + 4 * Z.of_nat i) (drop i ws).
Proof.
  induction i as [|i IH]; intros esp ws Hi H; [by rewrite Z.add_0_r|].
  destruct ws as [|w ws]; simpl in Hi; [lia|]. apply stack_words_tail, IH in H; [|lia].
  by replace (esp + 4 * Z.of_nat (S i)) with (esp + 4 + 4 * Z.of_nat i) by lia.
Qed.

Lemma seen_words k k' th esp ws : seen k k' -> caller k th -> stack_words k th esp ws -> stack_words k' th esp ws.
Proof. intros Hs Hc (Ha & Hw & Hr). split_and!; [done|done|by eapply seen_range]. Qed.

Lemma wp_arg k th esp ws i w (Q : ctl Z -> Kern D -> Prop) :
  caller k th -> stack_words k th esp ws -> ws !! i = Some w ->
  (forall k', seen k k' -> Q (Val w) k') -> wp (arg esp (Z.of_nat i)) k Q.
Proof.
  intros Hc Hws Hi HQ. pose proof (lookup_lt_Some _ _ _ Hi). apply (stack_words_drop k th i) in Hws as (Ha & Hw & Hr); [|lia].
  rewrite (drop_S _ _ _ Hi) in Hw, Hr. apply Forall_cons in Hw as [Hw _].
  change (w :: drop (S i) ws ≫= le_bytes) with (le_bytes w ++ (drop (S i) ws ≫= le_bytes)) in Hr.
  apply user_range_app in Hr as [Hr _]. unfold arg. apply wp_lift, wp_zoom.
  eapply (wp_user_u32 (k_vm k) th); [apply Hc..|exact Hr|]. intros v' Hv.
  assert (le_word (le_bytes w) = w) as Ew by (rewrite <- (app_nil_r (le_bytes w)); by apply le_word_bytes).
  change (le_word _) with (le_word (le_bytes w)). rewrite Ew. by apply HQ, seen_put.
Qed.

(** The same, after other accesses to user memory. *)
Lemma wp_arg_from k k' th esp ws i w (Q : ctl Z -> Kern D -> Prop) :
  seen k k' -> caller k th -> stack_words k th esp ws -> ws !! i = Some w ->
  (forall k2, seen k k2 -> Q (Val w) k2) -> wp (arg esp (Z.of_nat i)) k' Q.
Proof.
  intros Hs Hc Hws Hi HQ. eapply (wp_arg k' th); [by eapply seen_caller|by eapply seen_words|done|].
  intros k2 Hs2. apply HQ. by eapply seen_trans.
Qed.

(** [check_args(args, count)] *)
Lemma wp_check_args k th esp ws (Q : ctl unit -> Kern D -> Prop) :
  caller k th -> stack_words k th esp ws -> (0 < List.length ws)%nat -> Q (Val tt) k ->
  wp (check_args esp (Z.of_nat (List.length ws) - 1)) k Q.
Proof.
  intros Hc (Ha & _ & Hr) Hl HQ. unfold check_args.
  eapply wp_require; [done|exact Hr|done|lia|lia| |done]. rewrite length_words. lia.
Qed.

(** The handler reads the number of the call. *)
Lemma wp_enter {A} k th esp num ws (rest : Z -> C A) (Q : ctl A -> Kern D -> Prop) :
  caller k th -> stack_words k th esp (num :: ws) -> (forall k', seen k k' -> wp (rest num) k' Q) ->
  wp (seq (require esp 4) (fun _ => seq (arg esp 0) rest)) k Q.
Proof.
  intros Hc Hws HQ. pose proof Hws as (Ha & _ & Hr). apply wp_seq.
  eapply wp_require; [done|exact Hr|done|done|lia|rewrite length_words; simpl List.length; lia|].
  apply wp_seq, (wp_arg k th _ (num :: ws) 0 num); [done|exact Hws|done|]. exact HQ.
Qed.

(** The frame with the answer of [read] or [write]. *)
Definition eax_of (frame : IntrFrame) (r : ctl Z) : ctl IntrFrame :=
  match r with Val n => Val (set_eax (as_u32 n) frame) | Exits st => Exits st | Waits w => Waits w end.

Lemma wp_sys_rw k k0 th frame num fd buf size io (Q : ctl IntrFrame -> Kern D -> Prop) :
  seen k k0 -> caller k th -> stack_words k th (f_esp frame) [num; fd; buf; size] -> size <= PHYS_BASE ->
  (forall k', seen k k' -> wp (io (as_i32 fd) buf size) k' (fun r k2 => Q (eax_of frame r) k2)) ->
  wp (seq (sys_rw io (f_esp frame)) (fun x => give (set_eax x frame))) k0 Q.
Proof.
  intros Hs0 Hc Hws Hsz HQ. unfold sys_rw. apply wp_seq, wp_seq.
  change 3 with (Z.of_nat (List.length [num; fd; buf; size]) - 1) at 1.
  eapply wp_check_args; [by eapply seen_caller|by eapply seen_words|simpl; lia|].
  apply wp_seq, (wp_arg_from k k0 th _ [num; fd; buf; size] 1 fd); [done..|]. intros k1 Hs1.
  apply wp_seq, (wp_arg_from k k1 th _ [num; fd; buf; size] 2 buf); [done..|]. intros k2 Hs2.
  apply wp_seq, (wp_arg_from k k2 th _ [num; fd; buf; size] 3 size); [done..|]. intros k3 Hs3.
  unfold rw_call. rewrite (proj2 (Z.ltb_ge _ _)) by done. apply wp_seq. eapply wp_mono; [by apply HQ|].
  intros [n|st|w] k4 H; [by apply wp_ret, wp_ret|done..].
Qed.

(** Copying a buffer from user memory. *)
Lemma wp_user_bytes th l : forall k va (Q : list Z -> Kern D -> Prop),
  caller k th -> user_range (k_vm k) (tid th) va l ->
  (forall k', seen k k' -> Q l k') -> wp (user_bytes va (Z.of_nat (List.length l))) k Q.
Proof.
  unfold user_bytes. rewrite Nat2Z.id. induction l as [|b l IH]; intros k va Q Hc Hr HQ; simpl.
  - apply wp_ret, HQ, seen_refl, Hc.
  - apply wp_bind, wp_zoom. eapply (wp_range_u8 (k_vm k) th); [apply Hc..|exact Hr|]. intros v' Hv.
    pose proof (seen_put k v' Hv) as Hs. apply wp_bind, IH; [by eapply seen_caller| |].
    + eapply seen_range; [done|done|]. by eapply user_range_tail.
    + intros k' Hs'. apply wp_ret, HQ. by eapply seen_trans.
Qed.

(** ** The descriptor table *)
Lemma wp_get_fd_table k th tab (Q : FdTable -> Kern D -> Prop) :
  caller k th -> fd_table th <> 0 -> k_tables k !! fd_table th = Some tab -> Q tab k -> wp get_fd_table k Q.
Proof.
  intros Hc Hf Ht HQ. unfold get_fd_table. apply wp_bind, (wp_vm_self _ th); [done|]. apply wp_bind, wp_assert.
  - by apply negb_true_iff, Z.eqb_neq.
  - unfold table_at. apply wp_bind, wp_gets. rewrite Ht. by apply wp_ret.
Qed.

(** ** Faults of the kernel *)
Definition panics {S A} (m : M S A) (s : S) (why : string) : Prop := m s = Panic why.

Lemma panics_bind {S A B} (m : M S A) (f : A -> M S B) s why :
  wp m s (fun a s' => panics (f a) s' why) -> panics (bind m f) s why.
Proof. unfold panics, wp, bind. by destruct (m s). Qed.

Lemma panics_bind_now {S A B} (m : M S A) (f : A -> M S B) s why : panics m s why -> panics (bind m f) s why.
Proof. unfold panics, bind. by intros ->. Qed.

Lemma panics_zoom {S T A} (get : S -> T) (set : T -> S -> S) (m : M T A) s why : panics m (get s) why -> panics (zoom get set m) s why.
Proof. unfold panics, zoom. by intros ->. Qed.

Lemma panics_seq {A B} (m : C A) (f : A -> C B) k why :
  wp m k (fun r k' => match r with Val a => panics (f a) k' why | _ => False end) -> panics (seq m f) k why.
Proof. intros H. apply panics_bind. eapply wp_mono; [exact H|]. by intros [a|st|w] k' HQ. Qed.

Lemma panics_seq_now {A B} (m : C A) (f : A -> C B) k why : panics m k why -> panics (seq m f) k why.
Proof. apply panics_bind_now. Qed.

Lemma kernel_fault_panics {A} v th va code :
  threads (vm_sched v) !! current (vm_sched v) = Some th -> Z.land code 4 = 0 -> panics (kernel_fault (A := A) va code) v "Kernel page fault".
Proof. intros Hth Hc. apply panics_bind_now. unfold panics, page_fault. by rewrite Hc. Qed.

(** An access the page tables do not allow. *)
Lemma touch_panics v th va w :
  vm_ok v -> running v th ->
  match mapping (vm_pg v) (pagedir th) va with None => True | Some pte => w = true /\ Z.land pte PTE_W = 0 end ->
  panics (touch va w) v "Kernel page fault".
Proof.
  intros Hok Hrun Hm. pose proof (running_pds v th Hok Hrun) as Ht. destruct Hrun as [Hth Hpd Hcr].
  pose proof (pds_current v th Hok Hth) as Epd. pose proof (mo_spaces _ _ _ (vo_mem _ Hok)) as Hss.
  pose proof (ss_space _ _ Hss (tid th) Ht) as Hsp. rewrite Epd in Hsp.
  destruct (live_page _ _ ltac:(apply Hss) (pd_live _ _ (sp_ok _ _ Hsp))) as (_ & _ & Hlim & _).
  unfold touch. apply panics_bind, wp_zoom, wp_gets. rewrite with_pg_id, Hcr. apply panics_bind, wp_ptov; [unfold PGSIZE in *; lia|].
  rewrite Z.sub_add. apply panics_bind, wp_zoom, wp_gets. rewrite with_pg_id.
  destruct (mapping (vm_pg v) (pagedir th) va) as [pte|].
  - destruct Hm as [-> ->]. simpl. by eapply kernel_fault_panics.
  - by eapply kernel_fault_panics; [|destruct w].
Qed.
End sys_args.
