(* ===== verification/SysClaims.v ===== *)
(** What system calls promise their caller, and where user memory stops the kernel. *)
From S2P Require Import Prelude Btree Block Bio FreeMap Inode InodeLayout FileMap InodeOps InodeProofs Memory Palloc Thread Pagedir Swap SchedProofs Spaces Vm FrameTable VmMem VmDisk VmInv VmEvict VmLoad VmFault VmDemo VmClaims Elf Loader LoaderSetup Adopt LoadProgram Pipe Fd Input Proc Process Syscall UserMem SysArgs.

Section claims.
Context {D : Type} `{!BlockOps D, !BlockLaws D}.
Implicit Types (k : Kern D) (v : VM D).

Definition put_out (l : list Z) k : Kern D :=
  mkKern (k_vm k) (k_procs k) (k_tables k) (k_forks k) (k_next_box k) (k_pipes k) (k_input k) l (k_ticks k).

Lemma seen_out k k' : seen k k' -> k' = put_out (k_out k ++ []) (put_vm (k_vm k') k).
Proof. intros [_ E]. rewrite app_nil_r. rewrite E at 1. by destruct k. Qed.

Lemma wp_console_write l k (Q : unit -> Kern D -> Prop) : Q tt (put_out (k_out k ++ l) k) -> wp (console_write l) k Q.
Proof. intros HQ. apply wp_zoom, wp_modify. destruct k as [[] ? ? ? ? ? ? ? ?]. exact HQ. Qed.

Lemma as_u32_i32 x : in_u32 x -> as_u32 (as_i32 x) = x.
Proof.
  unfold in_u32, as_u32, as_i32, u32_lim. intros Hx. rewrite (Z.mod_small x) by done.
  destruct (_ <? _); [by apply Z.mod_small|]. rewrite <- (Z_mod_plus_full _ 1), Z.mod_small; lia.
Qed.

(** The answer of [write] on a descriptor that is neither a file nor a pipe, and what it prints. *)
Definition device_write (kind : option FdKind) (l : list Z) : option (Z * list Z) :=
  match kind with
  | Some Fd.Console => Some (Z.of_nat (List.length l), l)
  | Some DevNull | Some DevZero => Some (Z.of_nat (List.length l), [])
  | Some (PipeRead _) | None => Some (minus_one, [])
  | _ => None
  end.

(** C18: [write] on a device, from the trap to the answer.  The caller's stack holds the number of
    the call and its three arguments, its buffer holds the bytes [l], and the pages of both are
    mapped.  Then the handler ends with the number of bytes in eax; on the console exactly the
    bytes of the buffer are printed, on the null and zero devices nothing is; a descriptor that
    is closed, negative or the read end of a pipe gives -1 and prints nothing.  Nothing else
    changes but the accessed bits of pages: memory of every process, files, descriptors and the
    registry are what they were. *)
Theorem write_device k (th : Thread) (tab : FdTable) (frame : IntrFrame) (fd buf : Z) (l out : list Z) (r : Z) :
  caller k th -> fd_table th <> 0 -> k_tables k !! fd_table th = Some tab ->
  stack_words k th (f_esp frame) [6; fd; buf; Z.of_nat (List.length l)] ->
  PGSIZE <= buf -> user_range (k_vm k) (tid th) buf l ->
  device_write (if as_i32 fd <? 0 then None else get_kind tab (as_i32 fd)) l = Some (r, out) ->
  wp (syscall_handler frame) k (fun res k' =>
    res = Val (set_eax r frame) /\ viewed (k_vm k) (k_vm k') /\ k' = put_out (k_out k ++ out) (put_vm (k_vm k') k)).
Proof.
  intros Hc Hf Htab Hws Hb Hbuf Hdev. pose proof (ur_range _ _ _ _ Hbuf) as Hr.
  assert (in_u32 (Z.of_nat (List.length l))) as Hn by (unfold in_u32, u32_lim, PHYS_BASE, PGSIZE in *; lia).
  apply (wp_enter k th _ 6 [fd; buf; Z.of_nat (List.length l)]); [done..|]. intros k1 Hs1. cbv iota beta.
  eapply (wp_sys_rw k k1 th); [done..|unfold PGSIZE in *; lia|]. intros k2 Hs2. pose proof (seen_caller _ _ _ Hs2 Hc) as Hc2.
  unfold sys_write. apply wp_seq, (wp_validate_user_buffer k2 th); [done|by eapply seen_range|done|].
  assert (forall x, r = as_u32 x -> out = [] -> wp (give x) k2 (fun res k' => eax_of frame res = Val (set_eax r frame) /\
    viewed (k_vm k) (k_vm k') /\ k' = put_out (k_out k ++ out) (put_vm (k_vm k') k))) as Hquiet.
  { intros x -> ->. apply wp_ret. split_and!; [done|apply Hs2|by apply seen_out]. }
  destruct (as_i32 fd <? 0); [injection Hdev as <- <-; by apply Hquiet|].
  apply wp_seq, wp_lift, (wp_get_fd_table k2 th tab); [done|done|by rewrite (proj2 Hs2)|].
  destruct (get_kind tab (as_i32 fd)) as [[| | | | |]|]; try discriminate Hdev; injection Hdev as <- <-;
    try (apply Hquiet; [by rewrite ?as_u32_i32|done]).
  apply wp_seq, wp_lift, (wp_user_bytes th); [done|by eapply seen_range|]. intros k3 Hs3.
  pose proof (seen_trans _ _ _ Hs2 Hs3) as Hs. apply wp_seq, wp_lift, wp_console_write, wp_ret. simpl.
  rewrite as_u32_i32 by done. split_and!; [done|apply Hs|]. rewrite (proj2 Hs) at 1 2. done.
Qed.

(** A page of the stack region that nothing provides passes as valid. *)
Lemma wp_require_gap k th addr size (Q : ctl unit -> Kern D -> Prop) :
  caller k th -> PHYS_BASE - USER_STACK_MAX <= addr - addr mod PGSIZE -> 0 < size -> addr + size <= PHYS_BASE ->
  mapping (vm_pg (k_vm k)) (pagedir th) addr = None -> spt_at (k_vm k) (tid th) (addr - addr mod PGSIZE) = None ->
  Q (Val tt) k -> wp (require addr size) k Q.
Proof.
  intros Hc Ha Hs Hb Hm Hspt HQ. assert (PGSIZE <= addr < PHYS_BASE) as Hr.
  { unfold USER_STACK_MAX, PGSIZE, PHYS_BASE in *. Z.div_mod_to_equations. lia. }
  pose proof (page_user addr ltac:(unfold PGSIZE in *; lia)) as Hp. pose proof (ca_ok _ _ Hc) as Hok.
  pose proof (mo_spaces _ _ _ (vo_mem _ Hok)) as Hss. pose proof (running_pds _ _ Hok (ca_run _ _ Hc)) as Ht.
  pose proof (pds_current _ th Hok (rn_current _ _ (ca_run _ _ Hc))) as Epd.
  apply wp_bind, (wp_ptr_pages _ th); [done|lia|done|done|]. intros [|fuel] Hf.
  { exfalso. unfold PGSIZE in *. Z.div_mod_to_equations. lia. }
  simpl. rewrite (proj2 (Z.ltb_lt _ (addr + size))) by (unfold PGSIZE in *; Z.div_mod_to_equations; lia).
  apply wp_bind, wp_zoom, wp_zoom, wp_get_page; [apply Hss|rewrite <- Epd; by apply (ss_space _ _ Hss)|by apply user_page_u32|].
  rewrite mapping_page, Hm, with_pg_id, put_vm_id. apply wp_bind, wp_zoom, wp_gets. rewrite put_vm_id. simpl.
  assert (from_option (fun t => bool_decide (is_Some (spt_find (addr - addr mod PGSIZE) t))) false (SPT_TABLE (k_vm k) !! tid th) = false) as ->.
  { unfold spt_at in Hspt. destruct (SPT_TABLE (k_vm k) !! tid th) as [spt|]; [|done]. simpl in *. apply bool_decide_eq_false.
    unfold spt_find. rewrite page_of_user by done. rewrite Hspt. by intros [? ?]. }
  rewrite (proj2 (Z.leb_le _ _) Ha), (proj2 (Z.ltb_lt _ PHYS_BASE)) by apply Hp. by apply wp_ret, wp_ret.
Qed.

(** Reads do not change whether a page is writable. *)
Lemma seen_read_only k k' th va pte :
  seen k k' -> caller k th -> 0 <= va < PHYS_BASE -> mapping (vm_pg (k_vm k)) (pagedir th) va = Some pte -> Z.land pte PTE_W = 0 ->
  match mapping (vm_pg (k_vm k')) (pagedir th) va with None => True | Some pte => true = true /\ Z.land pte PTE_W = 0 end.
Proof.
  intros [[_ Hs _ _] _] [Hok Hrun] Hva Hm Hw. pose proof (running_pds _ _ Hok Hrun) as Ht.
  pose proof (sv_map _ _ Hs (tid th) _ Ht (page_user va Hva)) as E. rewrite (pds_current _ th Hok (rn_current _ _ Hrun)) in E.
  rewrite !mapping_page, Hm in E. destruct (mapping (vm_pg (k_vm k')) _ _) as [pte'|]; [|done]. split; [done|]. injection E as E.
  assert (Z.land (not_w 32 PTE_A) PTE_W = PTE_W) as Ew by reflexivity. by rewrite <- Ew, Z.land_assoc, E, <- Z.land_assoc, Ew.
Qed.

(** User memory that stops the kernel.  Two accesses that pass the checks of the system calls
    fault in kernel mode, and the kernel panics.  (1) A system call whose stack pointer is in
    the region reserved for the stack, on a page that is neither mapped nor entered: the stack
    would grow there for the process, but the pointer is accepted without providing the page.
    (2) [read] from the zero device into a mapped page that is not writable, such as the
    program's own text. *)
Theorem user_memory_panics k (th : Thread) (frame : IntrFrame) :
  caller k th ->
  (let page := f_esp frame - f_esp frame mod PGSIZE in
   PHYS_BASE - USER_STACK_MAX <= page -> f_esp frame + 4 <= PHYS_BASE ->
   mapping (vm_pg (k_vm k)) (pagedir th) page = None -> spt_at (k_vm k) (tid th) page = None ->
   syscall_handler frame k = Panic "Kernel page fault") /\
  (forall fd buf size tab pte, fd_table th <> 0 -> k_tables k !! fd_table th = Some tab ->
   stack_words k th (f_esp frame) [5; fd; buf; size] -> 0 <= as_i32 fd -> get_kind tab (as_i32 fd) = Some DevZero ->
   PGSIZE <= buf -> 0 < size -> buf + size <= PHYS_BASE -> all_resident k (tid th) buf (buf + size) ->
   mapping (vm_pg (k_vm k)) (pagedir th) buf = Some pte -> Z.land pte PTE_W = 0 ->
   syscall_handler frame k = Panic "Kernel page fault").
Proof.
  intros Hc. split.
  - intros page Hlo Hhi Hm Hspt. unfold page in Hm. rewrite mapping_page in Hm. change (panics (syscall_handler frame) k "Kernel page fault").
    apply panics_seq. eapply wp_require_gap; [done|done|done|done|done|done|].
    apply panics_seq_now, panics_bind_now, panics_zoom, panics_bind_now, panics_bind_now.
    apply (touch_panics _ th); [apply Hc..|]. rewrite Z.add_0_r. by rewrite Hm.
  - intros fd buf size tab pte Hf Htab Hws Hfd Hk Hb Hsz Hr Hres Hm Hw. change (panics (syscall_handler frame) k "Kernel page fault").
    pose proof Hws as (Ha & _ & Hrg). apply panics_seq. eapply wp_require; [done|exact Hrg|done|done|lia|simpl; lia|].
    apply panics_seq, (wp_arg k th _ [5; fd; buf; size] 0 5); [done..|]. intros k1 Hs1. cbv iota beta.
    apply panics_seq_now, panics_seq. change 3 with (Z.of_nat (List.length [5; fd; buf; size]) - 1).
    eapply wp_check_args; [by eapply seen_caller|by eapply seen_words|simpl; lia|].
    apply panics_seq, (wp_arg_from k k1 th _ [5; fd; buf; size] 1 fd); [done..|]. intros k2 Hs2.
    apply panics_seq, (wp_arg_from k k2 th _ [5; fd; buf; size] 2 buf); [done..|]. intros k3 Hs3.
    apply panics_seq, (wp_arg_from k k3 th _ [5; fd; buf; size] 3 size); [done..|]. intros k4 Hs4.
    pose proof (seen_caller _ _ _ Hs4 Hc) as Hc4. unfold rw_call. rewrite (proj2 (Z.ltb_ge _ _)) by (unfold PGSIZE in *; lia).
    apply panics_seq_now. apply panics_seq. unfold validate_user_buffer. rewrite (proj2 (Z.ltb_lt _ _) Hsz).
    apply wp_bind, (wp_is_valid_user_ptr _ th); [done..| |].
    { intros x Hx. eapply viewed_resident; [apply Hs4|apply running_pds; apply Hc|unfold PGSIZE in *; lia|by apply Hres]. }
    apply wp_ret. rewrite (proj2 (Z.ltb_ge _ _) Hfd). apply panics_seq, wp_lift, (wp_get_fd_table _ th tab); [done|done| |].
    { by rewrite (proj2 Hs4). }
    rewrite Hk. apply panics_seq_now, panics_bind_now, panics_zoom.
    unfold zeros. destruct (Z.to_nat size) as [|n] eqn:En; [lia|]. apply panics_bind_now, panics_bind_now.
    apply (touch_panics _ th); [apply Hc4..|]. by eapply (seen_read_only k); [| |unfold PGSIZE in *; lia| |].
Qed.
End claims.

(** ** Examples *)
Definition demo_table : FdTable := [Some Fd.Console; Some Fd.Console; Some DevZero].
Definition demo_kern (v : VM RamDisk) : Kern RamDisk :=
  mkKern v (mkProcs ∅ ∅ ∅ 1) (<[1 := demo_table]> ∅) ∅ 2 (mkPipes ∅ 1) empty_input [] 0.
Definition user_frame_at (esp : Z) : IntrFrame := set_eax 0 (jump_to_user 0x08048100 esp).

Lemma demo_running : running demo_vm proc_thread.
Proof. by split. Qed.

Lemma demo_resident va : page_a <= va < page_a + PGSIZE -> resident demo_vm 3 va.
Proof.
  intros Hva. assert (va - va mod PGSIZE = page_a) as E by (unfold page_a, PGSIZE in *; Z.div_mod_to_equations; lia).
  unfold resident. rewrite E, vm_pds, decide_True by done. rewrite vm_mapping by (apply vm_user; auto). by rewrite decide_True.
Qed.

Lemma demo_caller : caller (demo_kern demo_vm) proc_thread.
Proof. split; [exact demo_vm_ok|exact demo_running]. Qed.

(** The bytes of the page. *)
Lemma demo_range i l : 0 <= i -> i + Z.of_nat (List.length l) <= 34 -> take (List.length l) (drop (Z.to_nat i) page_text) = l ->
  user_range demo_vm 3 (page_a + i) l.
Proof.
  intros Hi Hl E. split; [unfold page_a, PHYS_BASE; lia| |].
  - intros j Hj. apply demo_resident. unfold PGSIZE. lia.
  - intros j b Hj. pose proof (lookup_lt_Some _ _ _ Hj) as Hlt.
    assert ((page_a + i + Z.of_nat j) mod PGSIZE = i + Z.of_nat j) as Em.
    { unfold page_a, PGSIZE. Z.div_mod_to_equations. lia. }
    unfold user_byte, content. rewrite Em. replace (page_a + i + Z.of_nat j - (i + Z.of_nat j)) with page_a by lia.
    rewrite vm_pds, decide_True by done. rewrite vm_mapping, decide_True by (done || (apply vm_user; auto)). f_equal.
    change (frame_addr 0x00106067) with frame_a. change (vm_mem (frame_a + (i + Z.of_nat j)) = b).
    rewrite vm_mem_text by lia. unfold byte_at. rewrite <- E in Hj. apply lookup_take_Some in Hj as [Hj _]. rewrite lookup_drop in Hj.
    replace (Z.to_nat (i + Z.of_nat j)) with (Z.to_nat i + j)%nat by lia. by rewrite Hj.
Qed.

Lemma demo_words v : user_range v 3 page_a (take 16 page_text) -> stack_words (demo_kern v) proc_thread page_a [6; 1; page_a + 16; 2].
Proof. intros H. split_and!; [done|by repeat constructor|exact H]. Qed.

(** The demonstration process prints "hi". *)
Lemma write_device_witness :
  wp (syscall_handler (user_frame_at page_a)) (demo_kern demo_vm) (fun res k' =>
    res = Val (set_eax 2 (user_frame_at page_a)) /\ k_out k' = [104; 105]).
Proof.
  eapply wp_mono.
  - apply (write_device (demo_kern demo_vm) proc_thread demo_table (user_frame_at page_a) 1 (page_a + 16) [104; 105] [104; 105] 2);
      [exact demo_caller|done|done| |done| |done].
    + apply demo_words. rewrite <- (Z.add_0_r page_a). apply demo_range; [done|done|reflexivity].
    + apply demo_range; [done|done|reflexivity].
  - intros res k' (-> & _ & ->). done.
Defined.

(** The same process with its page read-only. *)
Definition read_only_vm : VM RamDisk := with_pg (put_pte proc_pd vm_paging page_a 0x00106065) demo_vm.

Lemma read_only_ok : vm_ok read_only_vm.
Proof.
  pose proof (vm_pds 3) as Ep. rewrite decide_True in Ep by done.
  eapply (entry_ok demo_vm 3 page_a 0x00106067 0x00106065); [exact demo_vm_ok|by rewrite Ep|apply vm_user; auto| |done|done].
  rewrite Ep. by rewrite vm_mapping, decide_True by (done || (apply vm_user; auto)).
Qed.

Lemma read_only_range : user_range read_only_vm 3 (page_a + 18) (drop 18 page_text).
Proof.
  split; [by vm_compute| |].
  - intros i Hi. simpl in Hi. do 16 (destruct i as [|i]; [by vm_compute; eexists|]). lia.
  - intros i b Hb. do 16 (destruct i as [|i]; [injection Hb as <-; vm_compute; reflexivity|]). discriminate Hb.
Qed.

Lemma user_memory_panics_witness :
  syscall_handler (user_frame_at 0xBFFFE000) (demo_kern demo_vm) = Panic "Kernel page fault" /\
  syscall_handler (user_frame_at (page_a + 18)) (demo_kern read_only_vm) = Panic "Kernel page fault".
Proof.
  split.
  - destruct (user_memory_panics (demo_kern demo_vm) proc_thread (user_frame_at 0xBFFFE000)) as [H _]; [exact demo_caller|].
    apply H; [done|done| |done]. by apply demo_unmapped.
  - destruct (user_memory_panics (demo_kern read_only_vm) proc_thread (user_frame_at (page_a + 18))) as [_ H].
    { split; [exact read_only_ok|by split]. }
    apply (H 2 page_a 4 demo_table 0x00106065); [done|done| |done|done|done|done|done| | |done].
    + split_and!; [done|by repeat constructor|exact read_only_range].
    + intros va Hva. unfold resident. assert (va - va mod PGSIZE = page_a) as E.
      { unfold page_a, PGSIZE in *. Z.div_mod_to_equations. lia. }
      change (k_vm (demo_kern read_only_vm)) with read_only_vm. change (tid proc_thread) with 3. rewrite E. vm_compute. by eexists.
    + vm_compute. reflexivity.
Defined.

(** ** [read] on the terminal, from the trap to the bytes in the caller's memory *)
(** What [read] of at most [n] bytes takes from the bytes [q] that are ready: up to and with a
    newline, up to ^D or a NUL, which are dropped.  The answer: whether the read is complete,
    the bytes delivered, and the bytes left. *)
Fixpoint line_take (n : nat) (q : list Z) : bool * list Z * list Z :=
  match n, q with
  | O, _ => (true, [], q)
  | S _, [] => (false, [], [])
  | S n', c :: q' =>
      if (c =? 0) || (c =? CTRL_D) then (true, [], q')
      else if c =? NEWLINE then (true, [c], q')
      else let '(whole, l, r) := line_take n' q' in (whole, c :: l, r)
  end.

Lemma line_take_length n q : (List.length (line_take n q).1.2 <= n)%nat.
Proof.
  revert q. induction n as [|n IH]; intros [|c q]; simpl; try lia. destruct (_ || _); [simpl; lia|]. destruct (_ =? _); [simpl; lia|].
  specialize (IH q). destruct (line_take n q) as [[whole l] r]. simpl in *. lia.
Qed.

Section read.
Context {D : Type} `{!BlockOps D, !BlockLaws D}.
Implicit Types (k : Kern D) (v : VM D).

Definition put_input (i : InputBuffer) k : Kern D :=
  mkKern (k_vm k) (k_procs k) (k_tables k) (k_forks k) (k_next_box k) (k_pipes k) i (k_out k) (k_ticks k).

(** The console's buffer, as the readers rely on it. *)
Record console_ok k : Prop := {
  co_ok : input_ok (k_input k);
  co_lim : i_w (k_input k) < u32_lim;
  co_bytes : Forall in_u8 (ready (Input.abs (k_input k)));
  co_cooked : i_raw (k_input k) = false;
}.

(** The caller has got [l] at [va], and [q] is ready for the next reader; the rest is as it was. *)
Record delivered k k' (t va : Z) (l q : list Z) : Prop := {
  dl_stored : stored (k_vm k) (k_vm k') t va l;
  dl_ready : Input.abs (k_input k') = mkEditor q (line (Input.abs (k_input k)));
  dl_console : console_ok k';
  dl_rest : k' = put_input (k_input k') (put_vm (k_vm k') k);
}.

Lemma delivered_caller k k' th t va l q : delivered k k' t va l q -> caller k th -> caller k' th.
Proof. intros H [_ Hrun]. split; [apply H|]. eapply stored_running; [apply H|done]. Qed.

(** One byte is taken. *)
Lemma wp_getc k th (Q : ctl (option Z) -> Kern D -> Prop) :
  caller k th -> console_ok k ->
  (ready (Input.abs (k_input k)) = [] -> Q (Val (if killed th then Some 0 else None)) k) ->
  (forall x q k', ready (Input.abs (k_input k)) = x :: q -> in_u8 x -> (forall t va, delivered k k' t va [] q) -> Q (Val (Some x)) k') ->
  wp getc k Q.
Proof.
  intros Hc Hi Hnone Hsome. unfold getc. apply wp_seq, wp_lift, wp_zoom, wp_getc_once; [apply Hi..| |].
  - intros E. replace (put_console _ k) with k by (by destruct k as [[] ? ? ? ? ? ? ? ?]).
    apply wp_seq, wp_lift, (wp_vm_self k th); [done|]. destruct (killed th); by apply wp_ret, Hnone.
  - intros x q E i Hok Ha. cbn [INPUT] in E, i, Ha. apply wp_ret. pose proof (co_bytes _ Hi) as H8. rewrite E in H8. apply Forall_cons in H8 as [Hx H8].
    
    match goal with |- context [put_console ?c k] => replace (put_console c k) with (put_input i k) by (by destruct k as [[] ? ? ? ? ? ? ? ?]) end.
    apply (Hsome x q); [done|done|]. intros t va. split; [apply stored_nil, Hc|exact Ha| |by destruct k].
    split; [exact Hok|apply Hi| |apply Hi]. change (Forall in_u8 (ready (Input.abs i))). by rewrite Ha.
Qed.

Lemma delivered_trans k1 k2 k3 t va l1 l2 q1 q2 :
  delivered k1 k2 t va l1 q1 -> delivered k2 k3 t (va + Z.of_nat (List.length l1)) l2 q2 -> delivered k1 k3 t va (l1 ++ l2) q2.
Proof.
  intros [H1 E1 _ R1] [H2 E2 C2 R2]. split; [by eapply stored_app| |done|].
  - rewrite E2. f_equal. by rewrite E1.
  - rewrite R2 at 1. by rewrite R1 at 1.
Qed.

Lemma wp_read_line th : forall n k buf i (Q : ctl Z -> Kern D -> Prop),
  caller k th -> console_ok k -> 0 <= buf + i -> buf + i + Z.of_nat n <= PHYS_BASE ->
  (forall a, buf + i <= a < buf + i + Z.of_nat n -> writable_at (k_vm k) (tid th) a) ->
  (forall k' whole l q, line_take n (ready (Input.abs (k_input k))) = (whole, l, q) -> delivered k k' (tid th) (buf + i) l q ->
     Q (if whole || killed th then Val (i + Z.of_nat (List.length l)) else Waits (OnConsole (i + Z.of_nat (List.length l)))) k') ->
  wp (read_line n buf i) k Q.
Proof.
  induction n as [|n IH]; intros k buf i Q Hc Hi Hlo Hhi Hw HQ; simpl read_line.
  { apply wp_ret. replace (Val i) with (Val (i + Z.of_nat (List.length (@nil Z)))) by (simpl; f_equal; lia).
    apply (HQ k true [] (ready (Input.abs (k_input k)))); [done|]. split; [apply stored_nil, Hc|by destruct (Input.abs (k_input k))|done|by destruct k]. }
  pose proof (running_pds _ _ (ca_ok _ _ Hc) (ca_run _ _ Hc)) as Ht.
  apply wp_seq, (wp_getc k th); [done|done| |].
  - intros E. specialize (HQ k false [] []). rewrite E in HQ. simpl in HQ. rewrite Z.add_0_r in HQ.
    assert (delivered k k (tid th) (buf + i) [] []) as Hd.
    { split; [apply stored_nil, Hc| |done|by destruct k]. rewrite <- E. by destruct (Input.abs (k_input k)). }
    destruct (killed th); simpl in *; apply wp_ret; by apply HQ.
  - intros x q k1 E Hx Hd. specialize (Hd (tid th) (buf + i)). rewrite E in HQ. simpl in HQ.
    change 0x04 with CTRL_D. change 10 with NEWLINE.
    destruct (Z.eqb_spec x 0) as [->|H0]; [|destruct (Z.eqb_spec x CTRL_D) as [->|H4]; [|simpl in HQ]].
    1, 2: specialize (HQ k1 true [] q eq_refl Hd); simpl in HQ; rewrite Z.add_0_r in HQ; by apply wp_ret.
    pose proof (delivered_caller _ _ _ _ _ _ _ Hd Hc) as Hc1.
    apply wp_seq, wp_lift, wp_zoom, (wp_put_user_u8 _ th); [apply Hc1|apply Hc1|lia| |done|].
    { eapply stored_writable; [apply Hd|done|lia|apply Hw; lia]. }
    intros v2 Hs2. assert (delivered k (put_vm v2 k1) (tid th) (buf + i) [x] q) as Hd2.
    { apply (delivered_trans k k1 _ _ _ [] [x] q q); [done|]. rewrite Z.add_0_r.
      destruct Hd as [_ Ea [O1 O2 O3 O4] _]. split; [exact Hs2| |by split|by destruct k1].
      change (Input.abs (k_input k1) = mkEditor q (line (Input.abs (k_input k1)))). by rewrite Ea. }
    destruct (Z.eqb_spec x NEWLINE) as [->|Hn]; [apply wp_ret; by apply (HQ _ true [NEWLINE] q)|].
    apply IH; [by eapply delivered_caller|apply Hd2|lia|lia| |].
    + intros a Ha. eapply stored_writable; [apply Hd2|done|lia|apply Hw; lia].
    + intros k3 whole l r Hl Hd3. rewrite (dl_ready _ _ _ _ _ _ Hd2) in Hl. simpl in Hl. rewrite Hl in HQ.
      specialize (HQ k3 whole (x :: l) r eq_refl). simpl List.length in HQ.
      replace (i + 1 + Z.of_nat (List.length l)) with (i + Z.of_nat (S (List.length l))) by lia. apply HQ.
      apply (delivered_trans k (put_vm v2 k1) k3 _ _ [x] l q r); [done|].
      rewrite <- Z.add_assoc. exact Hd3.
Qed.

Lemma seen_console k k' : seen k k' -> console_ok k -> console_ok k'.
Proof. intros [_ E] [H1 H2 H3 H4]. rewrite E. by split. Qed.

Lemma seen_delivered k k' th t va : seen k k' -> caller k th -> console_ok k -> delivered k k' t va [] (ready (Input.abs (k_input k))).
Proof.
  intros Hs [Hok _] Hi. pose proof Hs as [Hv E]. split; [by apply viewed_stored| |by eapply seen_console|].
  - rewrite E. change (k_input (put_vm (k_vm k') k)) with (k_input k). by destruct (Input.abs (k_input k)).
  - rewrite E. by destruct k.
Qed.

Lemma writable_resident v t va : writable_at v t va -> resident v t va.
Proof. intros (pte & Hm & _). by exists pte. Qed.

(** C19: [read] from the terminal in line mode, from the trap to the caller's memory.  The stack
    holds the number of the call, a descriptor of the console, and a buffer whose pages are
    mapped writable.  The call delivers what [line_take] takes from the bytes that are ready:
    a line with its newline, or the bytes before ^D, or as many bytes as fit.  They appear in
    the buffer, and no other byte of the memory of any process changes; eax is their number;
    the bytes behind them stay ready, and the line being typed is untouched.  When the line is
    not complete, the bytes so far are in the buffer and the caller waits, unless it has been
    killed, in which case the call returns.  Files, descriptors and the registry do not change. *)
Theorem read_terminal k (th : Thread) (tab : FdTable) (frame : IntrFrame) (fd buf size : Z) :
  caller k th -> console_ok k -> fd_table th <> 0 -> k_tables k !! fd_table th = Some tab ->
  stack_words k th (f_esp frame) [5; fd; buf; size] -> 0 <= as_i32 fd -> get_kind tab (as_i32 fd) = Some Fd.Console ->
  PGSIZE <= buf -> 0 <= size -> buf + size <= PHYS_BASE -> (forall a, buf <= a < buf + size -> writable_at (k_vm k) (tid th) a) ->
  wp (syscall_handler frame) k (fun res k' =>
    let '(whole, l, q) := line_take (Z.to_nat size) (ready (Input.abs (k_input k))) in
    delivered k k' (tid th) buf l q /\
    res = if whole || killed th then Val (set_eax (Z.of_nat (List.length l)) frame) else Waits (OnConsole (Z.of_nat (List.length l)))).
Proof.
  intros Hc Hi Hf Htab Hws Hfd Hk Hb Hsz Hr Hw. pose proof (running_pds _ _ (ca_ok _ _ Hc) (ca_run _ _ Hc)) as Ht.
  apply (wp_enter k th _ 5 [fd; buf; size]); [done..|]. intros k1 Hs1. cbv iota beta.
  eapply (wp_sys_rw k k1 th); [done..|unfold PGSIZE in *; lia|]. intros k2 Hs2. pose proof (seen_caller _ _ _ Hs2 Hc) as Hc2.
  assert (forall a, buf <= a < buf + size -> writable_at (k_vm k2) (tid th) a) as Hw2.
  { intros a Ha. eapply stored_writable; [by apply (viewed_stored _ _ (tid th) 0 (ca_ok _ _ Hc) (proj1 Hs2))|done|unfold PGSIZE in *; lia|by apply Hw]. }
  unfold sys_read. apply wp_seq.
  assert (forall Q : ctl unit -> Kern D -> Prop, Q (Val tt) k2 -> wp (validate_user_buffer buf size) k2 Q) as Hv.
  { intros Q HQ. unfold validate_user_buffer. destruct (Z.ltb_spec 0 size); [|by apply wp_ret].
    apply wp_bind, (wp_is_valid_user_ptr _ th); [done..| |by apply wp_ret]. intros a Ha. by apply writable_resident, Hw2. }
  apply Hv. rewrite (proj2 (Z.ltb_ge _ _) Hfd). apply wp_seq, wp_lift, (wp_get_fd_table _ th tab); [done|done|by rewrite (proj2 Hs2)|].
  rewrite Hk. apply wp_seq, wp_lift, wp_zoom. apply wp_bind, wp_gets, wp_ret.
  replace (put_console _ k2) with k2 by (by destruct k2 as [[] ? ? ? ? ? ? ? ?]). cbn [INPUT].
  rewrite (co_cooked _ (seen_console _ _ Hs2 Hi)). pose proof (seen_delivered _ _ _ (tid th) buf Hs2 Hc Hi) as Hd.
  apply (wp_read_line th); [done|by eapply seen_console|unfold PGSIZE in *; lia|rewrite Z2Nat.id by done; lia| |].
  { intros a Ha. apply Hw2. lia. }
  intros k3 whole l q Hl Hd3. rewrite (dl_ready _ _ _ _ _ _ Hd) in Hl. cbn [ready] in Hl. rewrite Hl. rewrite Z.add_0_r in Hd3.
  split; [by eapply (delivered_trans k k2 k3 _ _ []); [|rewrite Z.add_0_r]|].
  pose proof (line_take_length (Z.to_nat size) (ready (Input.abs (k_input k)))) as Hn. rewrite Hl in Hn. simpl in Hn.
  destruct (whole || killed th); [|done]. simpl. unfold as_u32. rewrite Z.mod_small; [done|]. unfold PHYS_BASE, PGSIZE, u32_lim in *. lia.
Qed.
End read.

(** ** Example *)

(** The terminal holds "hi" and a newline, then an "x". *)
Definition typed_input : InputBuffer := mkInput ([104; 105; 10; 120] ++ zeros 124) 0 4 4 false.

Definition tty_kern : Kern RamDisk :=
  put_input typed_input (put_tables (<[1 := Fd.new]> ∅) 2 (demo_kern demo_vm)).

Lemma read_terminal_witness :
  wp (syscall_handler (user_frame_at (page_a + 18))) tty_kern (fun res k' =>
    res = Val (set_eax 3 (user_frame_at (page_a + 18))) /\
    user_byte (k_vm k') 3 page_a = Some 104 /\ user_byte (k_vm k') 3 (page_a + 2) = Some 10 /\
    ready (Input.abs (k_input k')) = [120]).
Proof.
  eapply wp_mono.
  - apply (read_terminal tty_kern proc_thread Fd.new (user_frame_at (page_a + 18)) 2 page_a 4);
      [split; [exact demo_vm_ok|exact demo_running]| |done|done| |done|done|done|done|done|].
    + split; [by split|done|by repeat constructor|done].
    + split_and!; [done|by repeat constructor|]. apply (demo_range 18); [done|done|reflexivity].
    + intros a Ha. exists 0x00106067. split; [|done].
      assert (a - a mod PGSIZE = page_a) as E by (unfold page_a, PGSIZE in *; Z.div_mod_to_equations; lia). rewrite E.
      change (pds (k_vm tty_kern) (tid proc_thread)) with (pds demo_vm 3). rewrite vm_pds, decide_True by done.
      change (vm_pg _) with vm_paging. by rewrite vm_mapping, decide_True by (done || (apply vm_user; auto)).
  - intros res k' [[[_ _ _ _ Hb] Ha _ _] ->]. pose proof (vm_pds 3) as Ep. rewrite decide_True in Ep by done.
    assert (pds (k_vm tty_kern) 3 <> 0) as Ht by (change (pds demo_vm 3 <> 0); by rewrite Ep).
    split_and!; [done|by rewrite Hb by (done || exact Ht)..|by rewrite Ha].
Defined.
