(* ===== verification/UserHeap.v ===== *)
(** The heap of user programs (user/rxv6-user/src/lib.rs): a first-fit free list sorted by
    address, grown with [sbrk], whose neighbours are merged when a block is given back. *)
From S2P Require Import Prelude Memory Palloc Malloc.

(** [size_of::<BlockHeader>()] *)
Definition HEADER_SIZE : Z := 8.
Definition MIN_BLOCK : Z := HEADER_SIZE + 8.

(** The program's memory, the head of the free list, and the process's break. *)
Record UHeap := mkUHeap { u_mem : Mem; u_head : Z; u_brk : Z }.
Definition with_umem (m : Mem) (h : UHeap) : UHeap := mkUHeap m (u_head h) (u_brk h).
Definition with_head (a : Z) (h : UHeap) : UHeap := mkUHeap (u_mem h) a (u_brk h).
Definition with_brk (b : Z) (h : UHeap) : UHeap := mkUHeap (u_mem h) (u_head h) b.

(** The fields [size] and [next] of the header at [b]. *)
Definition u_load (a : Z) : M UHeap Z := gets (fun h => read_u32 (u_mem h) a).
Definition u_put (a v : Z) : M UHeap unit := modify (fun h => with_umem (write_u32 a v (u_mem h)) h).
Definition size_at (b : Z) : Z := b.
Definition next_at (b : Z) : Z := b + 4.

(** The loop that finds the place of [block]: the blocks before and behind it. *)
Fixpoint find_place (fuel : nat) (block prev cur : Z) : M UHeap (Z * Z) :=
  if negb (cur =? 0) && (cur <? block) then
    match fuel with
    | O => fun _ => OutOfFuel
    | S fuel' =>
        let! nxt := u_load (next_at cur) in
        find_place fuel' block cur nxt
    end
  else ret (prev, cur).

(** Blocks of [MIN_BLOCK] bytes lie below the break: there are not more of them. *)
Definition list_fuel (h : UHeap) : nat := S (Z.to_nat (u_brk h / MIN_BLOCK)).

(** Merging with the next block, or linking to it. *)
Definition link_next (block block_end cur : Z) : M UHeap unit :=
  if negb (cur =? 0) && (block_end =? cur) then
    let! s := u_load (size_at block) in
    let! c := u_load (size_at cur) in
    let! s := u32_add s c in
    u_put (size_at block) s ;;
    let! n := u_load (next_at cur) in
    u_put (next_at block) n
  else u_put (next_at block) cur.

(** Merging with the previous block, or linking from it, or from the head. *)
Definition link_prev (block prev : Z) : M UHeap unit :=
  if negb (prev =? 0) then
    let! s := u_load (size_at prev) in
    let! prev_end := u32_add prev s in
    if prev_end =? block then
      let! s := u_load (size_at prev) in
      let! b := u_load (size_at block) in
      let! s := u32_add s b in
      u_put (size_at prev) s ;;
      let! n := u_load (next_at block) in
      u_put (next_at prev) n
    else u_put (next_at prev) block
  else modify (with_head block).

Definition free_list_insert (block : Z) : M UHeap unit :=
  let! size := u_load (size_at block) in
  let! block_end := u32_add block size in
  let! head := gets u_head in
  let! fuel := gets list_fuel in
  let! place := find_place fuel block 0 head in
  let '(prev, cur) := place in
  link_next block block_end cur ;;
  link_prev block prev.

(** The first-fit search: the pointer for the caller, or [None] when no block is large enough. *)
Fixpoint search (fuel : nat) (total prev cur : Z) : M UHeap (option Z) :=
  if cur =? 0 then ret None
  else
    match fuel with
    | O => fun _ => OutOfFuel
    | S fuel' =>
        let! size := u_load (size_at cur) in
        if total <=? size then
          let! remainder := u32_sub size total in
          if MIN_BLOCK <=? remainder then
            u_put (size_at cur) remainder ;;
            let! new_block := u32_add cur remainder in
            u_put (size_at new_block) total ;;
            u_put (next_at new_block) 0 ;;
            let! p := u32_add new_block HEADER_SIZE in
            ret (Some p)
          else
            let! nxt := u_load (next_at cur) in
            (if prev =? 0 then modify (with_head nxt) else u_put (next_at prev) nxt) ;;
            u_put (next_at cur) 0 ;;
            let! p := u32_add cur HEADER_SIZE in
            ret (Some p)
        else
          let! nxt := u_load (next_at cur) in
          search fuel' total cur nxt
    end.

(** The size of the block for a layout. *)
Definition block_total (l : Layout) : M UHeap Z :=
  let align := Z.max (l_align l) HEADER_SIZE in
  let! t := u32_add HEADER_SIZE align in
  let! t := u32_sub t 1 in
  let! t := u32_add t (l_size l) in
  let! t := u32_add (Z.max t MIN_BLOCK) HEADER_SIZE in
  let! t := u32_sub t 1 in
  ret (Z.land t (not_w 32 (HEADER_SIZE - 1))).

Section heap.
(** Whether the kernel grants [n] more bytes to a process with break [b]. *)
Context (grants : Z -> Z -> bool).

Definition sbrk (n : Z) : M UHeap Z :=
  let! b := gets u_brk in
  if grants b n then modify (with_brk (b + n)) ;; ret (as_i32 b) else ret (-1).

Definition alloc (l : Layout) : M UHeap Z :=
  let! total := block_total l in
  let! head := gets u_head in
  let! fuel := gets list_fuel in
  let! found := search fuel total 0 head in
  match found with
  | Some p => ret p
  | None =>
      let grow := Z.max total 4096 in
      let! base := sbrk (as_i32 grow) in
      if base <? 0 then ret 0
      else
        let block := base in
        u_put (size_at block) grow ;;
        u_put (next_at block) 0 ;;
        (if (total <? grow) && (MIN_BLOCK <=? grow - total) then
           let! remainder_block := u32_add block total in
           u_put (size_at remainder_block) (grow - total) ;;
           u_put (next_at remainder_block) 0 ;;
           free_list_insert remainder_block ;;
           u_put (size_at block) total
         else ret tt) ;;
        u32_add block HEADER_SIZE
  end.

Definition dealloc (ptr : Z) : M UHeap unit :=
  if ptr =? 0 then ret tt
  else
    let! block := u32_sub ptr HEADER_SIZE in
    free_list_insert block.
End heap.

(** ** The invariant *)

(** Blocks in ascending order with a gap between any two. *)
Fixpoint spaced (l : list block) : Prop :=
  match l with
  | [] => True
  | b :: l' => match l' with [] => True | c :: _ => b_end b < b_start c end /\ spaced l'
  end.

Definition ublock_ok (h : UHeap) (b : block) : Prop :=
  0 < b_start b /\ b_start b mod 8 = 0 /\ MIN_BLOCK <= b_size b /\ b_size b mod 8 = 0 /\ b_end b <= u_brk h.

Record uheap_ok (h : UHeap) (free used : list block) : Prop := {
  uo_chain : chain (u_mem h) (u_head h) free 0;
  uo_spaced : spaced free;
  uo_blocks : Forall (ublock_ok h) (free ++ used);
  uo_apart : all_apart (free ++ used);
  uo_sizes : Forall (fun b => read_u32 (u_mem h) (b_start b) = b_size b) used;
  uo_brk : 0 < u_brk h < PHYS_BASE /\ u_brk h mod 8 = 0;
}.

(** ** Lists of blocks *)
Lemma spaced_app l1 l2 :
  spaced (l1 ++ l2) <-> spaced l1 /\ spaced l2 /\
    match last l1, l2 with Some b, c :: _ => b_end b < b_start c | _, _ => True end.
Proof.
  induction l1 as [|b l1 IH]; [simpl; tauto|]. destruct l1 as [|c l1].
  - simpl. destruct l2; tauto.
  - change (spaced ((b :: c :: l1) ++ l2)) with (b_end b < b_start c /\ spaced ((c :: l1) ++ l2)). rewrite IH.
    change (spaced (b :: c :: l1)) with (b_end b < b_start c /\ spaced (c :: l1)). change (last (b :: c :: l1)) with (last (c :: l1)). tauto.
Qed.

(** Spaced blocks are as many as fit below the break. *)
Lemma spaced_length h l : spaced l -> Forall (ublock_ok h) l -> 0 <= u_brk h -> Z.of_nat (List.length l) <= u_brk h / MIN_BLOCK.
Proof.
  intros Hs Hb Hz. assert (forall a, match l with [] => a <= u_brk h | b :: _ => a <= b_start b end -> a + MIN_BLOCK * Z.of_nat (List.length l) <= u_brk h) as H.
  { induction l as [|b l IH]; intros a Ha; simpl List.length; [lia|]. apply Forall_cons in Hb as [(_ & _ & Hm & _ & He) Hb].
    destruct Hs as [Hg Hs]. specialize (IH Hs Hb (a + MIN_BLOCK)).
    assert (a + MIN_BLOCK + MIN_BLOCK * Z.of_nat (List.length l) <= u_brk h); [|lia]. apply IH. unfold b_end in *. destruct l; lia. }
  apply Z.div_le_lower_bound; [done|]. specialize (H 0). apply H. destruct l as [|b l]; [done|].
  apply Forall_cons in Hb as [(? & _) _]. lia.
Qed.

Lemma spaced_after b l : spaced (b :: l) -> Forall (fun c => 0 < b_size c) (b :: l) -> Forall (fun c => b_end b < b_start c) l.
Proof.
  revert b. induction l as [|c l IH]; intros b Hs Hz; [done|]. destruct Hs as [Hb Hs]. apply Forall_cons in Hz as [_ Hz].
  apply Forall_cons. split; [done|]. eapply Forall_impl; [by apply IH|]. apply Forall_cons in Hz as [Hz _]. unfold b_end in *. intros d. lia.
Qed.

(** *** Headers in memory *)
Lemma chain_head m a l : chain m a l 0 -> a = match l with [] => 0 | b :: _ => b_start b end.
Proof. destruct l; [done|]. by intros [? _]. Qed.

(** A new link for the last block of a segment. *)
Lemma chain_relink m a pre p z v :
  chain m a (pre ++ [p]) z -> all_apart (pre ++ [p]) -> Forall (fun b => 8 <= b_size b) (pre ++ [p]) -> in_u32 v ->
  chain (write_u32 (b_start p + 4) v m) a (pre ++ [p]) v.
Proof.
  intros Hc Ha Hz Hv. apply chain_app in Hc as (x & Hpre & -> & Hs & _). apply chain_app. exists (b_start p). split.
  - eapply chain_frame; [|exact Hpre]. apply all_apart_app in Ha as (_ & _ & Ha). apply Forall_app in Hz as [Hz Hp]. apply Forall_cons in Hp as [Hp _].
    rewrite Forall_forall in Ha, Hz |- *. intros b Hb x Hx. specialize (Ha b Hb). apply Forall_cons in Ha as [Ha _]. specialize (Hz b Hb).
    unfold apart, b_end in *. rewrite !write_u32_frame by lia. done.
  - simpl. rewrite read_write_u32_ne by lia. by rewrite read_write_u32.
Qed.

(** *** Merging neighbours *)
Definition joined (b c : block) : block := mkBlock (b_start b) (b_size b + b_size c).

(** [b] with the block that begins where it ends, if the list begins with that. *)
Definition merge_next (b : block) (post : list block) : block * list block :=
  match post with
  | c :: post' => if b_end b =? b_start c then (joined b c, post') else (b, post)
  | [] => (b, [])
  end.

Definition positive (b : block) : Prop := 0 < b_size b.

Lemma apart_joined b c d : b_end b = b_start c -> positive b -> positive c -> positive d -> apart d b -> apart d c -> apart d (joined b c).
Proof. unfold apart, joined, b_end, positive. simpl. lia. Qed.

Lemma all_apart_joined b c l :
  b_end b = b_start c -> Forall positive (b :: c :: l) -> all_apart (b :: c :: l) -> all_apart (joined b c :: l).
Proof.
  intros E Hp [Hb [Hc Ha]]. apply Forall_cons in Hp as [Hpb Hp]. apply Forall_cons in Hp as [Hpc Hp]. apply Forall_cons in Hb as [_ Hb].
  split; [|done]. rewrite Forall_forall in Hb, Hc, Hp |- *. intros d Hd. apply apart_sym, apart_joined; auto using apart_sym.
Qed.

Lemma ublock_joined h b c : b_end b = b_start c -> ublock_ok h b -> ublock_ok h c -> ublock_ok h (joined b c).
Proof.
  unfold ublock_ok, joined, b_end, MIN_BLOCK, HEADER_SIZE. simpl. intros E (?&?&?&?&?) (?&?&?&?&?). split_and!; [done|done|lia| |lia].
  rewrite Z.add_mod by done. by rewrite H2, H7.
Qed.

(** What a set of blocks covers: blocks apart from [l] are apart from [l']. *)
Definition covers (l l' : list block) : Prop := forall d, positive d -> Forall (apart d) l -> Forall (apart d) l'.

(** *** The search for the place *)
Lemma wp_find_place h block : forall post pre fuel cur (Q : Z * Z -> UHeap -> Prop),
  chain (u_mem h) (u_head h) pre cur -> chain (u_mem h) cur post 0 -> Forall (fun b => b_start b < block) pre ->
  Forall (fun b => 0 < b_start b) (pre ++ post) -> (List.length post < fuel)%nat ->
  (forall pre' post', pre ++ post = pre' ++ post' -> Forall (fun b => b_start b < block) pre' ->
     chain (u_mem h) (u_head h) pre' match post' with [] => 0 | c :: _ => b_start c end ->
     chain (u_mem h) match post' with [] => 0 | c :: _ => b_start c end post' 0 ->
     match post' with [] => True | c :: _ => block <= b_start c end ->
     Q (prev_of pre', match post' with [] => 0 | c :: _ => b_start c end) h) ->
  wp (find_place fuel block (prev_of pre) cur) h Q.
Proof.
  induction post as [|c post IH]; intros pre fuel cur Q Hpre Hpost Hlt Hpos Hf HQ.
  - simpl in Hpost. subst cur. destruct fuel; [lia|]. simpl. apply wp_ret. by apply (HQ pre []).
  - destruct fuel as [|fuel]; [simpl in Hf; lia|]. simpl in Hf. simpl find_place. pose proof Hpost as (-> & Hsz & Hrest).
    assert (0 < b_start c) as Hc by (rewrite Forall_app, Forall_cons in Hpos; tauto).
    rewrite (proj2 (Z.eqb_neq _ _)) by lia. simpl negb. simpl andb. destruct (Z.ltb_spec (b_start c) block) as [Hb|Hb].
    2:{ apply wp_ret. by apply (HQ pre (c :: post)). }
    apply wp_bind, wp_gets. replace (b_start c) with (prev_of (pre ++ [c])) at 1 by (unfold prev_of; by rewrite last_snoc).
    apply IH; [|done| |by rewrite <- app_assoc|lia|].
    + apply chain_app. exists (b_start c). split; [done|]. simpl. done.
    + apply Forall_app. split; [done|]. by apply Forall_cons.
    + intros pre' post' E. apply HQ. by rewrite <- E, <- app_assoc.
Qed.

(** *** Linking *)
#[local] Arguments chain : simpl never.

Definition start_of (post : list block) : Z := match post with [] => 0 | c :: _ => b_start c end.

(** The bytes outside [l] keep their values. *)
Definition kept_outside (l : list block) (m m' : Mem) : Prop := forall x, (forall b, b ∈ l -> ~ inside b x) -> m' x = m x.

Lemma kept_outside_mono l l' m m' : (forall b, b ∈ l -> b ∈ l') -> kept_outside l m m' -> kept_outside l' m m'.
Proof. intros Hs H x Hx. apply H. auto. Qed.

Lemma kept_outside_trans l m1 m2 m3 : kept_outside l m1 m2 -> kept_outside l m2 m3 -> kept_outside l m1 m3.
Proof. intros H1 H2 x Hx. by rewrite H2, H1. Qed.

Lemma kept_write b a v m : b_start b <= a -> a + 4 <= b_end b -> kept_outside [b] m (write_u32 a v m).
Proof. intros Ha Hb x Hx. specialize (Hx b ltac:(by left)). unfold inside in Hx. apply write_u32_frame. lia. Qed.

(** Headers of blocks apart from the changed ones. *)
Lemma kept_header l m m' b : kept_outside l m m' -> Forall (apart b) l -> forall x, inside b x -> m' x = m x.
Proof.
  intros Hk Ha x Hx. apply Hk. intros c Hc Hx'. rewrite Forall_forall in Ha. specialize (Ha c Hc). unfold inside, apart in *. lia.
Qed.

Lemma kept_chain l m m' a seg z : kept_outside l m m' -> Forall (fun b => 8 <= b_size b /\ Forall (apart b) l) seg -> chain m a seg z -> chain m' a seg z.
Proof.
  intros Hk Hs. apply chain_frame. eapply Forall_impl; [exact Hs|]. intros b [H8 Ha] x Hx.
  eapply kept_header; [done|done|]. unfold inside, b_end. lia.
Qed.

Lemma chain_intro m a b l z :
  a = b_start b -> read_u32 m a = b_size b -> chain m (read_u32 m (a + 4)) l z -> chain m a (b :: l) z.
Proof. done. Qed.

Lemma block_word h b : ublock_ok h b -> u_brk h < PHYS_BASE -> in_u32 (b_start b) /\ in_u32 (b_size b) /\ 16 <= b_size b /\ 0 < b_start b.
Proof. unfold ublock_ok, b_end, in_u32, MIN_BLOCK, HEADER_SIZE, PHYS_BASE, u32_lim. lia. Qed.

Lemma wp_link_next h b post (Q : unit -> UHeap -> Prop) :
  read_u32 (u_mem h) (b_start b) = b_size b -> chain (u_mem h) (start_of post) post 0 ->
  Forall (ublock_ok h) (b :: post) -> all_apart (b :: post) -> u_brk h < PHYS_BASE ->
  (forall m', kept_outside [b] (u_mem h) m' -> chain m' (b_start b) ((merge_next b post).1 :: (merge_next b post).2) 0 -> Q tt (with_umem m' h)) ->
  wp (link_next (b_start b) (b_end b) (start_of post)) h Q.
Proof.
  intros Hsz Hc Hok Hap Hbrk HQ. apply Forall_cons in Hok as [Hb Hpost]. destruct (block_word h b Hb Hbrk) as (Hub & Hus & H16 & H0).
  destruct Hap as [Hap _]. unfold link_next.
  assert (Forall (fun d => 8 <= b_size d /\ Forall (apart d) [b]) post) as Hpost8.
  { rewrite Forall_forall in Hpost, Hap |- *. intros d Hd. destruct (block_word h d (Hpost d Hd) Hbrk) as (_ & _ & ? & _).
    split; [lia|]. apply Forall_cons. split; [by apply apart_sym, Hap|done]. }
  destruct post as [|c post]; simpl start_of in *.
  { apply wp_modify, HQ; [apply kept_write; unfold next_at, b_end; lia|]. unfold next_at.
    apply chain_intro; [done|by rewrite read_write_u32_ne by lia|]. by rewrite read_write_u32 by (unfold in_u32, u32_lim; lia). }
  apply Forall_cons in Hpost as [Hcok Hpost]. destruct (block_word h c Hcok Hbrk) as (Huc & Hucs & H16c & H0c).
  rewrite (proj2 (Z.eqb_neq _ _)) by lia. simpl negb. simpl andb. simpl merge_next in HQ.
  destruct (Z.eqb_spec (b_end b) (b_start c)) as [E|E]; simpl in HQ.
  2:{ apply wp_modify, HQ; [apply kept_write; unfold next_at, b_end; lia|]. unfold next_at.
      apply chain_intro; [done|by rewrite read_write_u32_ne by lia|]. rewrite read_write_u32 by done.
      apply (kept_chain [b] (u_mem h)); [apply kept_write; unfold b_end; lia|done|exact Hc]. }
  destruct Hc as (_ & Hcs & Hcn). unfold size_at, next_at. apply wp_bind, wp_gets, wp_bind, wp_gets. rewrite Hsz, Hcs.
  assert (in_u32 (b_size b + b_size c)) as Hsum.
  { destruct Hcok as (_ & _ & _ & _ & He). unfold in_u32, b_end, PHYS_BASE, u32_lim in *. lia. }
  apply wp_bind, wp_u32_add; [apply Hsum|]. apply wp_bind, wp_modify. apply wp_bind, wp_gets. apply wp_modify.
  set (n := read_u32 _ (b_start c + 4)). assert (n = read_u32 (u_mem h) (b_start c + 4)) as En.
  { apply read_write_u32_ne. unfold b_end in *. lia. }
  assert (in_u32 n) as Hn.
  { rewrite En. destruct post as [|d post]; [simpl in Hcn; rewrite Hcn; unfold in_u32, u32_lim; lia|]. destruct Hcn as [-> _].
    apply Forall_cons in Hpost as [Hd _]. by destruct (block_word h d Hd Hbrk). }
  assert (kept_outside [b] (u_mem h) (write_u32 (b_start b + 4) n (write_u32 (b_start b) (b_size b + b_size c) (u_mem h)))) as Hk.
  { eapply kept_outside_trans; apply kept_write; unfold b_end; lia. }
  apply (HQ _ Hk). apply chain_intro; [done|rewrite read_write_u32_ne by lia; by rewrite read_write_u32|]. rewrite read_write_u32 by done.
  apply (kept_chain [b] (u_mem h)); [exact Hk|by apply Forall_cons in Hpost8 as [_ ?]|]. rewrite En. exact Hcn.
Qed.

(** The list in front of a block: its last block absorbs [b] when they are neighbours. *)
Lemma wp_link_prev h pre b post c (Q : unit -> UHeap -> Prop) :
  chain (u_mem h) (u_head h) pre c -> chain (u_mem h) (b_start b) (b :: post) 0 ->
  Forall (ublock_ok h) (pre ++ b :: post) -> all_apart (pre ++ b :: post) -> u_brk h < PHYS_BASE ->
  (pre = [] -> Q tt (with_head (b_start b) h)) ->
  (forall pre0 p m', pre = pre0 ++ [p] -> kept_outside [p] (u_mem h) m' ->
     (b_end p = b_start b -> chain m' (u_head h) (pre0 ++ joined p b :: post) 0 -> Q tt (with_umem m' h)) /\
     (b_end p <> b_start b -> chain m' (u_head h) (pre0 ++ p :: b :: post) 0 -> Q tt (with_umem m' h))) ->
  wp (link_prev (b_start b) (prev_of pre)) h Q.
Proof.
  intros Hpre Hc Hok Hap Hbrk Hnil Hsnoc. unfold link_prev. destruct pre as [|p pre _] using rev_ind; [by apply wp_modify, Hnil|].
  unfold prev_of. rewrite last_snoc. rewrite <- app_assoc in Hok, Hap. simpl app in Hok, Hap.
  assert (ublock_ok h p /\ ublock_ok h b) as [Hp Hb].
  { rewrite Forall_app, !Forall_cons in Hok. tauto. }
  destruct (block_word h p Hp Hbrk) as (Hup & Hups & H16 & H0). destruct (block_word h b Hb Hbrk) as (Hub & Hubs & H16b & H0b).
  rewrite (proj2 (Z.eqb_neq _ _)) by lia. simpl negb. cbv iota. unfold size_at, next_at.
  apply chain_app in Hpre as (a & Hpre & (-> & Hps & Hpn)). pose proof Hc as (_ & Hbs & Hbn).
  assert (forall m', kept_outside [p] (u_mem h) m' -> chain m' (u_head h) pre (b_start p) /\ chain m' (b_start b) (b :: post) 0) as Hframe.
  { intros m' Hk. rewrite all_apart_app in Hap. destruct Hap as (_ & [Hpr _] & Hpp).
    assert (forall d, ublock_ok h d -> apart d p -> 8 <= b_size d /\ Forall (apart d) [p]) as Hd.
    { intros d Hd Ha. destruct (block_word h d Hd Hbrk) as (_ & _ & ? & _). split; [lia|]. by apply Forall_cons. }
    rewrite Forall_app, !Forall_cons in Hok. destruct Hok as (Hokp & _ & _ & Hokr). rewrite Forall_forall in Hpp, Hokp, Hokr.
    apply Forall_cons in Hpr as [Hpb Hpr]. rewrite Forall_forall in Hpr. split.
    - eapply kept_chain; [exact Hk| |exact Hpre]. apply Forall_forall. intros d Hdin. apply Hd; [by apply Hokp|].
      specialize (Hpp d Hdin). by apply Forall_cons in Hpp as [? _].
    - eapply kept_chain; [exact Hk| |exact Hc]. apply Forall_cons. split; [by apply Hd, apart_sym|].
      apply Forall_forall. intros d Hdin. apply Hd; [by apply Hokr|by apply apart_sym, Hpr]. }
  assert (b_start p + b_size p < u32_lim) as Hlim.
  { destruct Hp as (_ & _ & _ & _ & He). unfold b_end, PHYS_BASE, u32_lim in *. lia. }
  apply wp_bind, wp_gets. rewrite Hps. apply wp_bind, wp_u32_add; [done|]. fold (b_end p).
  destruct (Z.eqb_spec (b_end p) (b_start b)) as [E|E].
  - apply wp_bind, wp_gets, wp_bind, wp_gets. rewrite Hps, Hbs.
    assert (in_u32 (b_size p + b_size b)) as Hsum.
    { destruct Hb as (_ & _ & _ & _ & He). unfold in_u32, b_end, PHYS_BASE, u32_lim in *. lia. }
    apply wp_bind, wp_u32_add; [apply Hsum|]. apply wp_bind, wp_modify. apply wp_bind, wp_gets. apply wp_modify.
    set (n := read_u32 _ (b_start b + 4)). assert (n = read_u32 (u_mem h) (b_start b + 4)) as En.
    { apply read_write_u32_ne. unfold b_end in *. lia. }
    assert (in_u32 n) as Hn.
    { rewrite En. destruct post as [|d post]; [unfold chain in Hbn; rewrite Hbn; unfold in_u32, u32_lim; lia|]. destruct Hbn as [-> _].
      rewrite Forall_app, !Forall_cons in Hok. destruct Hok as (_ & _ & _ & Hd & _). by destruct (block_word h d Hd Hbrk). }
    assert (kept_outside [p] (u_mem h) (write_u32 (b_start p + 4) n (write_u32 (b_start p) (b_size p + b_size b) (u_mem h)))) as Hk.
    { eapply kept_outside_trans; apply kept_write; unfold b_end; lia. }
    destruct (Hsnoc pre p _ eq_refl Hk) as [HQ _]. apply (HQ E). destruct (Hframe _ Hk) as [Hf1 Hf2].
    apply chain_app. exists (b_start p). split; [done|].
    apply chain_intro; [done|rewrite read_write_u32_ne by lia; by rewrite read_write_u32|]. rewrite read_write_u32 by done.
    destruct Hf2 as (_ & _ & Hf2). rewrite En at 2. erewrite <- (read_u32_frame (u_mem h)); [exact Hf2|].
    intros x Hx. apply Hk. intros d ->%list_elem_of_singleton. unfold inside, b_end in *. lia.
  - apply wp_modify. assert (kept_outside [p] (u_mem h) (write_u32 (b_start p + 4) (b_start b) (u_mem h))) as Hk.
    { apply kept_write; unfold b_end; lia. }
    destruct (Hsnoc pre p _ eq_refl Hk) as [_ HQ]. apply (HQ E). destruct (Hframe _ Hk) as [Hf1 Hf2].
    apply chain_app. exists (b_start p). split; [done|].
    apply chain_intro; [done|by rewrite read_write_u32_ne by lia|]. by rewrite read_write_u32.
Qed.

(** *** Inserting a block *)
Definition sizes (l : list block) : Z := foldr (fun b => Z.add (b_size b)) 0 l.

Lemma sizes_app l1 l2 : sizes (l1 ++ l2) = sizes l1 + sizes l2.
Proof. induction l1 as [|b l1 IH]; simpl; [done|]. rewrite IH. lia. Qed.

#[export] Instance sizes_proper : Proper ((≡ₚ) ==> eq) sizes.
Proof. intros l l'. induction 1; simpl; lia. Qed.

Definition good (h : UHeap) (l : list block) : Prop := Forall (ublock_ok h) l /\ all_apart l.

Lemma good_perm h l l' : l ≡ₚ l' -> good h l -> good h l'.
Proof. intros Hp [H1 H2]. split; [by rewrite <- Hp|by eapply all_apart_perm]. Qed.

Lemma good_positive h l : good h l -> Forall positive l.
Proof. intros [H _]. eapply Forall_impl; [exact H|]. unfold ublock_ok, positive, MIN_BLOCK, HEADER_SIZE. lia. Qed.

Lemma good_join h l1 b c l2 : b_end b = b_start c -> good h (l1 ++ b :: c :: l2) -> good h (l1 ++ joined b c :: l2).
Proof.
  intros E Hg. apply (good_perm _ _ (b :: c :: l1 ++ l2)) in Hg; [|solve_Permutation].
  apply (good_perm _ (joined b c :: l1 ++ l2)); [solve_Permutation|]. pose proof (good_positive _ _ Hg) as Hp. destruct Hg as [Hf Ha].
  split; [|by apply all_apart_joined]. apply Forall_cons in Hf as [Hb Hf]. apply Forall_cons in Hf as [Hc Hf].
  apply Forall_cons. split; [by apply ublock_joined|done].
Qed.

Lemma covers_join l1 b c l2 : b_end b = b_start c -> positive b -> positive c -> covers (l1 ++ b :: c :: l2) (l1 ++ joined b c :: l2).
Proof.
  intros E Hb Hc d Hd. rewrite !Forall_app, !Forall_cons. intros (? & ? & ? & ?). split_and!; auto using apart_joined.
Qed.

Lemma covers_refl l : covers l l.
Proof. by intros d. Qed.
#[local] Hint Resolve covers_refl : core.

(** The list with [b] put between [pre] and [post]. *)
Definition merge_prev (pre : list block) (bp : block * list block) : list block :=
  match last pre with
  | Some p => if b_end p =? b_start bp.1 then take (pred (List.length pre)) pre ++ joined p bp.1 :: bp.2 else pre ++ bp.1 :: bp.2
  | None => bp.1 :: bp.2
  end.
Definition coalesce (pre : list block) (b : block) (post : list block) : list block := merge_prev pre (merge_next b post).

Lemma merge_prev_snoc pre p bp :
  merge_prev (pre ++ [p]) bp = if b_end p =? b_start bp.1 then pre ++ joined p bp.1 :: bp.2 else pre ++ p :: bp.1 :: bp.2.
Proof.
  unfold merge_prev. rewrite last_snoc, length_app. simpl. rewrite Nat.add_1_r. simpl. rewrite take_app_length, <- app_assoc. done.
Qed.

Section coalesce.
Context (h : UHeap) (pre post used : list block) (b : block).
Context (Hg : good h (pre ++ b :: post ++ used)).

Lemma merge_next_facts : let (b', post') := merge_next b post in
  good h (pre ++ b' :: post' ++ used) /\ b_start b' = b_start b /\ sizes (b' :: post') = b_size b + sizes post /\ covers (b :: post) (b' :: post').
Proof.
  pose proof (good_positive _ _ Hg) as Hp. rewrite Forall_app, Forall_cons in Hp. destruct Hp as (_ & Hpb & Hp).
  unfold merge_next. destruct post as [|c post']; [by split_and!|].
  destruct (Z.eqb_spec (b_end b) (b_start c)) as [E|E]; [|by split_and!]. simpl in Hp. apply Forall_cons in Hp as [Hpc _].
  split_and!; [by apply good_join|done|simpl; lia|by apply (covers_join [])].
Qed.

Lemma coalesce_facts :
  good h (coalesce pre b post ++ used) /\ sizes (coalesce pre b post) = b_size b + sizes (pre ++ post) /\ covers (b :: pre ++ post) (coalesce pre b post).
Proof.
  pose proof merge_next_facts as H. unfold coalesce. destruct (merge_next b post) as [b' post']. destruct H as (Hg' & Es & Hsz & Hcov).
  pose proof (good_positive _ _ Hg') as Hp. assert (covers (b :: pre ++ post) (pre ++ b' :: post')) as Hcov'.
  { intros d Hd. rewrite Forall_cons, !Forall_app. intros (Hdb & Hdpre & Hdpost). split; [done|]. apply Hcov; [done|]. by apply Forall_cons. }
  assert (sizes (pre ++ b' :: post') = b_size b + sizes (pre ++ post)) as Hsz' by (rewrite !sizes_app, Hsz; lia).
  assert (good h ((pre ++ b' :: post') ++ used)) as Hg2 by (by rewrite <- app_assoc).
  destruct pre as [|p pre' _] using rev_ind; [by split_and!|]. rewrite merge_prev_snoc. simpl fst. simpl snd.
  rewrite <- !app_assoc in *. simpl app in *. destruct (Z.eqb_spec (b_end p) (b_start b')) as [E|E]; [|split_and!; [by rewrite <- app_assoc|done|done]].
  rewrite !Forall_app, !Forall_cons in Hp. destruct Hp as (_ & Hpp & Hpb & _). split_and!.
  - rewrite <- app_assoc. simpl. by apply good_join.
  - rewrite <- Hsz'. rewrite !sizes_app. simpl. lia.
  - intros d Hd Hf. apply covers_join; [done|done|done|done|]. by apply Hcov'.
Qed.

(** The blocks of [pre] lie below [b], those of [post] above. *)
Context (Hsp : spaced (pre ++ post)) (Hlo : Forall (fun c => b_start c < b_start b) pre)
  (Hhi : match post with [] => True | c :: _ => b_start b <= b_start c end).

Lemma coalesce_spaced : spaced (coalesce pre b post).
Proof.
  pose proof (good_positive _ _ Hg) as Hp. destruct Hg as [_ Hap]. apply spaced_app in Hsp as (Hs1 & Hs2 & _).
  rewrite Forall_app, Forall_cons, Forall_app in Hp. destruct Hp as (Hp1 & Hpb & Hp2 & _).
  rewrite all_apart_app in Hap. simpl in Hap. destruct Hap as (_ & [Hab _] & Hap).
  assert (spaced ((merge_next b post).1 :: (merge_next b post).2) /\ b_start (merge_next b post).1 = b_start b) as [Hsn Es].
  { unfold merge_next. destruct post as [|c post']; [done|]. simpl in Hab. apply Forall_cons in Hab as [Hbc _].
    apply Forall_cons in Hp2 as [Hpc _]. assert (b_end b <= b_start c) as Hle by (unfold apart, positive, b_end in *; lia).
    destruct (Z.eqb_spec (b_end b) (b_start c)) as [E|E]; simpl; [|split; [split; [lia|done]|done]].
    destruct Hs2 as [Hg2 Hs2]. split; [|done]. split; [|done]. destruct post'; [done|]. unfold joined, b_end in *. simpl. lia. }
  unfold coalesce. destruct (merge_next b post) as [b' post']. simpl in Hsn, Es.
  destruct pre as [|p pre' _] using rev_ind; [done|]. rewrite merge_prev_snoc. simpl fst. simpl snd.
  assert (b_end p <= b_start b') as Hle.
  { rewrite !Forall_app, !Forall_cons in Hlo, Hp1, Hap. destruct Hlo as (_ & Hl & _). destruct Hp1 as (_ & Hpp & _).
    destruct Hap as (_ & Hap & _). apply Forall_cons in Hap as [Hap _]. rewrite Es. unfold apart, positive, b_end in *. lia. }
  apply spaced_app in Hs1 as (Hs1 & _ & Hlast). destruct (Z.eqb_spec (b_end p) (b_start b')) as [E|E]; apply spaced_app; split_and!; try done.
  - destruct Hsn as [Hg' Hsn]. split; [|done]. destruct post'; [done|]. unfold joined, b_end in *. simpl. lia.
  - split; [lia|done].
Qed.
End coalesce.

Lemma uheap_good h free used : uheap_ok h free used -> good h (free ++ used).
Proof. intros H. split; apply H. Qed.

Lemma wp_free_list_insert h free used b (Q : unit -> UHeap -> Prop) :
  uheap_ok h free (b :: used) ->
  (forall h' free', uheap_ok h' free' used -> u_brk h' = u_brk h -> kept_outside (b :: free) (u_mem h) (u_mem h') ->
     covers (b :: free) free' -> sizes free' = b_size b + sizes free -> Q tt h') ->
  wp (free_list_insert (b_start b)) h Q.
Proof.
  intros Hok HQ. pose proof (uheap_good _ _ _ Hok) as Hg. pose proof (good_positive _ _ Hg) as Hpos.
  destruct Hok as [Hc Hsp Hbl Hap Hsz [Hbrk Hb8]]. apply Forall_cons in Hsz as [Hsb Hsz].
  assert (ublock_ok h b) as Hb by (rewrite Forall_app, Forall_cons in Hbl; tauto).
  destruct (block_word h b Hb ltac:(lia)) as (Hub & Hus & H16 & H0).
  unfold free_list_insert. apply wp_bind, wp_gets. unfold size_at. rewrite Hsb. apply wp_bind, wp_u32_add.
  { destruct Hb as (_ & _ & _ & _ & He). unfold b_end, PHYS_BASE, u32_lim in *. lia. }
  fold (b_end b). apply wp_bind, wp_gets, wp_bind, wp_gets. apply wp_bind.
  assert (Forall (ublock_ok h) free) as Hfree by (by apply Forall_app in Hbl as [? _]).
  apply (wp_find_place h (b_start b) free []); [done|done|done| | |].
  { eapply Forall_impl; [exact Hfree|]. by intros c (? & _). }
  { pose proof (spaced_length h free Hsp Hfree ltac:(lia)). unfold list_fuel. lia. }
  intros pre post E Hlo Hpre Hpost Hhi. simpl in E. subst free.
  assert (good h (pre ++ b :: post ++ used)) as Hg'.
  { eapply good_perm; [|exact Hg]. rewrite <- app_assoc. solve_Permutation. }
  pose proof (coalesce_facts h pre post used b Hg') as (Hgc & Hszc & Hcov).
  pose proof (coalesce_spaced h pre post used b Hg' Hsp Hlo Hhi) as Hspc.
  pose proof (merge_next_facts h pre post used b Hg') as Hmn.
  assert (forall h', u_brk h' = u_brk h -> kept_outside (b :: pre ++ post) (u_mem h) (u_mem h') ->
    chain (u_mem h') (u_head h') (coalesce pre b post) 0 -> Q tt h') as Hdone.
  { intros h' Eb Hk Hch. apply (HQ h' (coalesce pre b post)); [|done|done|done|done]. destruct Hgc as [Hg1 Hg2]. split; [done|done| |done| |by rewrite Eb].
    - eapply Forall_impl; [exact Hg1|]. intros c. unfold ublock_ok. by rewrite Eb.
    - rewrite all_apart_app in Hap. destruct Hap as (_ & [Hapb _] & Hapf). simpl in Hapb. rewrite !Forall_forall in *. intros c Hcin. rewrite <- (Hsz c Hcin).
      apply read_u32_frame. intros x Hx. apply (kept_header _ _ _ c Hk); [|].
      + apply Forall_cons. split; [by apply apart_sym, Hapb|]. apply Forall_forall. intros d Hd. specialize (Hapf d Hd).
        apply Forall_cons in Hapf as [_ Hapf]. rewrite Forall_forall in Hapf. by apply apart_sym, Hapf.
      + assert (positive c) as Hpc by (apply Hpos; set_solver). assert (ublock_ok h c) as (_ & _ & ? & _) by (apply Hbl; set_solver).
        unfold inside, b_end, MIN_BLOCK, HEADER_SIZE in *. lia. }
  assert (good h (b :: post)) as [Hgb1 Hgb2].
  { apply (good_perm _ _ ((b :: post) ++ pre ++ used)) in Hg'; [|solve_Permutation]. destruct Hg' as [H1 H2].
    apply Forall_app in H1 as [H1 _]. apply all_apart_app in H2 as [H2 _]. done. }
  apply wp_bind, (wp_link_next h b post); [done|done|done|done|lia|]. intros m1 Hk1 Hch1.
  unfold coalesce in *. destruct (merge_next b post) as [b' post']. destruct Hmn as (Hgn & Es & _). simpl fst in Hch1. simpl snd in Hch1.
  assert (good h (pre ++ b' :: post')) as [Hgn1 Hgn2].
  { change (pre ++ b' :: post' ++ used) with (pre ++ (b' :: post') ++ used) in Hgn. rewrite app_assoc in Hgn. destruct Hgn as [H1 H2].
    apply Forall_app in H1 as [H1 _]. apply all_apart_app in H2 as [H2 _]. done. }
  rewrite <- Es. rewrite <- Es in Hch1. apply (wp_link_prev (with_umem m1 h) pre b' post' (start_of post)); [|done|done|done|simpl; lia| |].
  - eapply kept_chain; [exact Hk1| |exact Hpre]. apply Forall_forall. intros d Hd.
    destruct Hg' as [H1 H2]. rewrite Forall_app in H1. destruct H1 as [H1 _]. rewrite all_apart_app in H2. destruct H2 as (_ & _ & H2).
    rewrite Forall_forall in H1, H2. destruct (H1 d Hd) as (_ & _ & ? & _). split; [unfold MIN_BLOCK, HEADER_SIZE in *; lia|].
    specialize (H2 d Hd). apply Forall_cons in H2 as [H2 _]. by apply Forall_cons.
  - intros ->. apply Hdone; [done| |exact Hch1]. eapply kept_outside_mono; [|exact Hk1]. set_solver.
  - intros pre0 p m2 -> Hk2. assert (kept_outside (b :: (pre0 ++ [p]) ++ post) (u_mem h) m2) as Hk.
    { eapply kept_outside_trans; [eapply kept_outside_mono; [|exact Hk1]|eapply kept_outside_mono; [|exact Hk2]]; set_solver. }
    rewrite merge_prev_snoc in *. simpl fst in *. simpl snd in *.
    split; intros E Hch; apply Hdone; try done; simpl; destruct (Z.eqb_spec (b_end p) (b_start b')); done.
Qed.

(** *** Taking a block *)
Lemma kept_sizes h m' free used :
  uheap_ok h free used -> kept_outside free (u_mem h) m' -> Forall (fun b => read_u32 m' (b_start b) = b_size b) used.
Proof.
  intros [_ _ Hbl Hap Hsz _] Hk. rewrite all_apart_app in Hap. destruct Hap as (_ & _ & Hap). rewrite !Forall_forall in *.
  intros c Hc. rewrite <- (Hsz c Hc). apply read_u32_frame. intros x Hx. apply (kept_header _ _ _ c Hk).
  - apply Forall_forall. intros d Hd. specialize (Hap d Hd). rewrite Forall_forall in Hap. by apply apart_sym, Hap.
  - assert (ublock_ok h c) as (_ & _ & ? & _) by (apply Hbl; set_solver). unfold inside, b_end, MIN_BLOCK, HEADER_SIZE in *. lia.
Qed.

Section take.
Context (h : UHeap) (pre post used : list block) (c : block) (Hok : uheap_ok h (pre ++ c :: post) used).

Lemma take_block : ublock_ok h c /\ in_u32 (b_start c) /\ in_u32 (b_size c) /\ 0 < b_start c /\ b_end c < PHYS_BASE.
Proof.
  assert (ublock_ok h c) as Hc by (pose proof (uo_blocks _ _ _ Hok) as H; rewrite !Forall_app, Forall_cons in H; tauto).
  pose proof (uo_brk _ _ _ Hok) as [Hb _]. destruct (block_word h c Hc ltac:(lia)) as (?&?&?&?).
  pose proof Hc as (_ & _ & _ & _ & He). split_and!; try done. lia.
Qed.

(** Blocks of the list that stay keep their headers when only [c] changes. *)
Lemma take_frame m' : kept_outside [c] (u_mem h) m' ->
  (forall a z, chain (u_mem h) a pre z -> chain m' a pre z) /\ (forall a z, chain (u_mem h) a post z -> chain m' a post z).
Proof.
  intros Hk. pose proof (uo_blocks _ _ _ Hok) as Hbl. pose proof (uo_apart _ _ _ Hok) as Hap.
  rewrite !Forall_app, Forall_cons in Hbl. destruct Hbl as ((Hb1 & _ & Hb2) & _). rewrite <- app_assoc in Hap. rewrite all_apart_app in Hap.
  simpl in Hap. destruct Hap as (_ & [Hca _] & Hap). rewrite Forall_app in Hca. destruct Hca as [Hca _].
  split; intros a z; apply (kept_chain [c]); try done; apply Forall_forall; intros d Hd; rewrite !Forall_forall in *.
  - destruct (Hb1 d Hd) as (_ & _ & ? & _). split; [unfold MIN_BLOCK, HEADER_SIZE in *; lia|]. specialize (Hap d Hd). apply Forall_cons in Hap as [? _].
    by intros x ->%list_elem_of_singleton.
  - destruct (Hb2 d Hd) as (_ & _ & ? & _). split; [unfold MIN_BLOCK, HEADER_SIZE in *; lia|].
    intros x ->%list_elem_of_singleton. by apply apart_sym, Hca.
Qed.

Lemma take_whole m' a : kept_outside (pre ++ c :: post) (u_mem h) m' -> read_u32 m' (b_start c) = b_size c -> chain m' a (pre ++ post) 0 ->
  uheap_ok (mkUHeap m' a (u_brk h)) (pre ++ post) (c :: used).
Proof.
  intros Hk Hs Hch. pose proof Hok as [_ Hsp Hbl Hap _ Hbrk]. pose proof (good_positive _ _ (uheap_good _ _ _ Hok)) as Hp. split; [done| | | | |done].
  - apply spaced_app in Hsp as (Hs1 & [Hs2 Hs3] & Hs4). apply spaced_app. split_and!; [done|done|]. destruct (last pre), post; try done.
    rewrite !Forall_app, !Forall_cons in Hp. unfold positive, b_end in *. lia.
  - change (Forall (ublock_ok h) ((pre ++ post) ++ c :: used)). rewrite !Forall_app, !Forall_cons in Hbl. rewrite !Forall_app, !Forall_cons. tauto.
  - eapply all_apart_perm; [|exact Hap]. solve_Permutation.
  - apply Forall_cons. split; [done|]. by apply (kept_sizes h m' _ _ Hok).
Qed.

(** Unlinking [c], when [pre] has been linked to what follows it. *)
Lemma take_linked m1 a1 : kept_outside pre (u_mem h) m1 -> chain m1 a1 pre (read_u32 (u_mem h) (b_start c + 4)) ->
  let m' := write_u32 (b_start c + 4) 0 m1 in
  uheap_ok (mkUHeap m' a1 (u_brk h)) (pre ++ post) (c :: used) /\ kept_outside (pre ++ c :: post) (u_mem h) m'.
Proof.
  intros Hk1 Hch1 m'. destruct take_block as ((_ & _ & H16 & _) & _). unfold MIN_BLOCK, HEADER_SIZE in H16.
  assert (kept_outside [c] m1 m') as Hkc by (apply kept_write; unfold b_end; lia).
  assert (kept_outside (c :: pre) (u_mem h) m') as Hkp.
  { eapply kept_outside_trans; [eapply kept_outside_mono; [|exact Hk1]|eapply kept_outside_mono; [|exact Hkc]]; set_solver. }
  assert (kept_outside (pre ++ c :: post) (u_mem h) m') as Hk by (eapply kept_outside_mono; [|exact Hkp]; set_solver).
  split; [|done]. pose proof (uo_chain _ _ _ Hok) as Hch. apply chain_app in Hch as (x & _ & -> & Hcs & Hcn).
  pose proof (uo_blocks _ _ _ Hok) as Hbl. pose proof (uo_apart _ _ _ Hok) as Hap. rewrite <- app_assoc, all_apart_app in Hap.
  simpl in Hap. destruct Hap as (_ & [Hca _] & Hap). rewrite Forall_app in Hca. destruct Hca as [Hca _].
  rewrite !Forall_app, Forall_cons in Hbl. destruct Hbl as ((Hb1 & _ & Hb2) & _). rewrite !Forall_forall in *.
  assert (forall d, d ∈ pre -> Forall (apart d) (c :: post ++ used)) as Hapd by exact Hap.
  apply take_whole; [done| |].
  - unfold m'. rewrite read_write_u32_ne by lia. rewrite <- Hcs. apply read_u32_frame. intros x Hx. apply Hk1. intros d Hd Hin.
    specialize (Hapd d Hd). apply Forall_cons in Hapd as [Hapd _]. unfold apart, inside, b_end in *. lia.
  - apply chain_app. exists (read_u32 (u_mem h) (b_start c + 4)). split.
    + eapply kept_chain; [exact Hkc| |exact Hch1]. apply Forall_forall. intros d Hd. destruct (Hb1 d Hd) as (_ & _ & ? & _).
      split; [unfold MIN_BLOCK, HEADER_SIZE in *; lia|]. specialize (Hapd d Hd). apply Forall_cons in Hapd as [Hapd _]. by apply Forall_cons.
    + eapply kept_chain; [exact Hkp| |exact Hcn]. apply Forall_forall. intros d Hd. destruct (Hb2 d Hd) as (_ & _ & ? & _).
      split; [unfold MIN_BLOCK, HEADER_SIZE in *; lia|]. apply Forall_cons. split; [by apply apart_sym, Hca|].
      apply Forall_forall. intros e He. specialize (Hapd e He). apply Forall_cons in Hapd as [_ Hapd].
      rewrite Forall_forall in Hapd. apply apart_sym, Hapd. set_solver.
Qed.

(** The end of [c] becomes a block of its own. *)
Context (total : Z) (Ht8 : total mod 8 = 0) (Ht16 : MIN_BLOCK <= total) (Hfit : total <= b_size c).

Lemma take_split m' : MIN_BLOCK <= b_size c - total ->
  kept_outside [c] (u_mem h) m' -> read_u32 m' (b_start c) = b_size c - total -> read_u32 m' (b_start c + 4) = read_u32 (u_mem h) (b_start c + 4) ->
  read_u32 m' (b_start c + (b_size c - total)) = total ->
  uheap_ok (with_umem m' h) (pre ++ mkBlock (b_start c) (b_size c - total) :: post) (mkBlock (b_start c + (b_size c - total)) total :: used).
Proof.
  intros Hr Hk Hs Hn Hnew. destruct take_block as (Hc & _). pose proof Hc as (H0 & H8 & H16 & Hs8 & He). destruct (take_frame m' Hk) as [Hf1 Hf2].
  pose proof Hok as [Hch Hsp Hbl Hap _ Hbrk]. set (r := mkBlock (b_start c + (b_size c - total)) total). set (c' := mkBlock (b_start c) (b_size c - total)).
  assert ((b_size c - total) mod 8 = 0) as Hd8 by (rewrite Zminus_mod, Hs8, Ht8; done).
  assert (Forall (ublock_ok h) [r; c']) as Hnb.
  { unfold r, c', ublock_ok, b_end, MIN_BLOCK, HEADER_SIZE in *. simpl. repeat constructor; simpl; try done; try lia. rewrite Z.add_mod, H8, Hd8 by done. done. }
  split; [| | | | |done].
  - apply chain_app in Hch as (a & Hpre & -> & _ & Hpost). apply chain_app. exists (b_start c). split; [by apply Hf1|].
    apply chain_intro; [done|done|]. change (u_mem (with_umem m' h)) with m'. rewrite Hn. by apply Hf2.
  - apply spaced_app in Hsp as (Hs1 & [Hs2 Hs3] & Hs4). apply spaced_app. split_and!; [done| |by destruct (last pre)].
    split; [|done]. destruct post; [done|]. unfold b_end, MIN_BLOCK, HEADER_SIZE in *. simpl. lia.
  - change (Forall (ublock_ok h) ((pre ++ c' :: post) ++ r :: used)). rewrite !Forall_cons in Hnb. rewrite !Forall_app, !Forall_cons in Hbl. rewrite !Forall_app, !Forall_cons. tauto.
  - apply (all_apart_carve pre c post used [c'] r); [done| |].
    + unfold sub, r, c', b_end, MIN_BLOCK, HEADER_SIZE in *. repeat constructor; simpl; lia.
    + split; [|done]. constructor; [|done]. unfold apart, r, c', b_end. simpl. lia.
  - apply Forall_cons. split; [done|]. apply (kept_sizes h m' _ _ Hok). eapply kept_outside_mono; [|exact Hk]. set_solver.
Qed.
End take.

(** The search takes the first block that is large enough. *)
Lemma wp_search h used total : total mod 8 = 0 -> MIN_BLOCK <= total -> in_u32 total ->
  forall post pre fuel cur (Q : option Z -> UHeap -> Prop),
  uheap_ok h (pre ++ post) used -> chain (u_mem h) (u_head h) pre cur -> chain (u_mem h) cur post 0 ->
  Forall (fun b => b_size b < total) pre -> (List.length post < fuel)%nat ->
  (Forall (fun b => b_size b < total) (pre ++ post) -> Q None h) ->
  (forall h' free' b, uheap_ok h' free' (b :: used) -> u_brk h' = u_brk h -> kept_outside (pre ++ post) (u_mem h) (u_mem h') ->
     total <= b_size b -> sizes free' + b_size b = sizes (pre ++ post) -> Q (Some (b_start b + HEADER_SIZE)) h') ->
  wp (search fuel total (prev_of pre) cur) h Q.
Proof.
  intros Ht8 Ht16 Htu. induction post as [|c post IH]; intros pre fuel cur Q Hok Hpre Hpost Hsm Hf Hnone Hsome.
  { unfold chain in Hpost. subst cur. destruct fuel; simpl; apply wp_ret, Hnone; by rewrite app_nil_r. }
  destruct fuel as [|fuel]; [simpl in Hf; lia|]. simpl in Hf. pose proof Hpost as (-> & Hcs & Hcn). simpl search.
  destruct (take_block h pre post used c Hok) as (Hc & Hu & Hus & H0 & Hend). pose proof Hc as (_ & _ & H16 & _ & _).
  unfold MIN_BLOCK, HEADER_SIZE in H16. rewrite (proj2 (Z.eqb_neq _ _)) by lia. unfold size_at, next_at. apply wp_bind, wp_gets. rewrite Hcs.
  destruct (Z.leb_spec total (b_size c)) as [Hfit|Hfit].
  2:{ apply wp_bind, wp_gets. replace (b_start c) with (prev_of (pre ++ [c])) at 1 by (unfold prev_of; by rewrite last_snoc).
      apply IH; [by rewrite <- app_assoc| |done| |lia| |].
      - apply chain_app. exists (b_start c). split; [done|]. by apply chain_intro.
      - apply Forall_app. split; [done|]. by apply Forall_cons.
      - intros H. apply Hnone. by rewrite <- app_assoc in H.
      - intros h' free' b. rewrite <- app_assoc. apply Hsome. }
  apply wp_bind, wp_u32_sub; [done|]. assert (in_u32 (b_size c - total)) as Hru by (unfold in_u32, MIN_BLOCK, HEADER_SIZE in *; lia).
  assert (b_start c + b_size c < u32_lim) as Hlim by (unfold b_end, PHYS_BASE, u32_lim in *; lia).
  destruct (Z.leb_spec MIN_BLOCK (b_size c - total)) as [Hr|Hr]; unfold MIN_BLOCK, HEADER_SIZE in Hr.
  - (* a part of the block *)
    apply wp_bind, wp_modify, wp_bind, wp_u32_add; [unfold MIN_BLOCK, HEADER_SIZE in *; lia|]. apply wp_bind, wp_modify, wp_bind, wp_modify.
    apply wp_bind, wp_u32_add; [unfold MIN_BLOCK, HEADER_SIZE in *; lia|]. apply wp_ret.
    set (n := b_start c + (b_size c - total)).
    set (m' := write_u32 (n + 4) 0 (write_u32 n total (write_u32 (b_start c) (b_size c - total) (u_mem h)))).
    assert (kept_outside [c] (u_mem h) m') as Hk.
    { unfold m', n, MIN_BLOCK, HEADER_SIZE in *. repeat (eapply kept_outside_trans; [|apply kept_write; unfold b_end; lia]). by intros x. }
    apply (Hsome (with_umem m' h) (pre ++ mkBlock (b_start c) (b_size c - total) :: post) (mkBlock n total)).
    + apply (take_split h pre post used c Hok total Ht8 Ht16 Hfit m'); [done|done|..]; unfold m', n, MIN_BLOCK, HEADER_SIZE in *.
      * rewrite !read_write_u32_ne by lia. by apply read_write_u32.
      * by rewrite !read_write_u32_ne by lia.
      * rewrite read_write_u32_ne by lia. by apply read_write_u32.
    + done.
    + eapply kept_outside_mono; [|exact Hk]. set_solver.
    + simpl. lia.
    + rewrite !sizes_app. simpl. lia.
  - (* the whole block *)
    apply wp_bind, wp_gets. set (nxt := read_u32 (u_mem h) (b_start c + 4)) in *.
    assert (in_u32 nxt) as Hnx.
    { destruct post as [|d post]; [unfold chain in Hcn; rewrite Hcn; unfold in_u32, u32_lim; lia|]. destruct Hcn as [-> _].
      destruct (take_block h (pre ++ [c]) post used d) as (_ & ? & _); [by rewrite <- app_assoc|done]. }
    assert (forall m1 a1, kept_outside pre (u_mem h) m1 -> chain m1 a1 pre nxt -> Q (Some (b_start c + HEADER_SIZE))
      (mkUHeap (write_u32 (b_start c + 4) 0 m1) a1 (u_brk h))) as Hdone.
    { intros m1 a1 Hk1 Hch1. destruct (take_linked h pre post used c Hok m1 a1 Hk1 Hch1) as [Hok' Hk].
      apply (Hsome _ (pre ++ post) c); [done|done|done|done|]. rewrite !sizes_app. simpl. lia. }
    apply wp_bind. destruct pre as [|p pre _] using rev_ind.
    + simpl. apply wp_modify, wp_bind, wp_modify, wp_bind, wp_u32_add; [unfold HEADER_SIZE; lia|]. apply wp_ret. by apply (Hdone (u_mem h) nxt).
    + unfold prev_of. rewrite last_snoc. pose proof (uo_blocks _ _ _ Hok) as Hbl. rewrite <- !app_assoc in Hbl. rewrite Forall_app in Hbl. simpl in Hbl.
      destruct Hbl as [Hbp Hbl]. pose proof Hbl as Hbl'. apply Forall_cons in Hbl' as [(Hp0 & _ & Hp16 & _) _]. rewrite (proj2 (Z.eqb_neq _ _)) by lia.
      apply wp_modify, wp_bind, wp_modify, wp_bind, wp_u32_add; [unfold HEADER_SIZE; lia|]. apply wp_ret.
      apply (Hdone (write_u32 (b_start p + 4) nxt (u_mem h)) (u_head h)).
      * eapply (kept_outside_mono [p]); [set_solver|]. apply kept_write; unfold b_end, MIN_BLOCK, HEADER_SIZE in *; lia.
      * apply (chain_relink _ _ _ _ (b_start c)); [done| | |done].
        -- pose proof (uo_apart _ _ _ Hok) as Hap. rewrite <- app_assoc, all_apart_app in Hap. tauto.
        -- pose proof (uo_blocks _ _ _ Hok) as Hb. rewrite !Forall_app in Hb. destruct Hb as (([Hb Hb'] & _) & _).
           apply Forall_app. split; (eapply Forall_impl; [eassumption|]); intros d (_ & _ & ? & _); unfold MIN_BLOCK, HEADER_SIZE in *; lia.
Qed.

(** ** The operations *)

(** The size of a block that serves [l]: header, padding and payload, in units of eight bytes. *)
Definition total_of (l : Layout) : Z := let t := Z.max (7 + Z.max (l_align l) 8 + l_size l) 16 + 7 in t - t mod 8.

Definition layout_ok (l : Layout) : Prop := 0 <= l_size l /\ 0 < l_align l /\ total_of l <= i32_max.

Lemma total_facts l : layout_ok l -> total_of l mod 8 = 0 /\ MIN_BLOCK <= total_of l /\ HEADER_SIZE + l_size l <= total_of l.
Proof. unfold layout_ok, total_of, MIN_BLOCK, HEADER_SIZE. intros (Hs & Ha & _). Z.div_mod_to_equations. lia. Qed.

Lemma wp_block_total l h (Q : Z -> UHeap -> Prop) : layout_ok l -> Q (total_of l) h -> wp (block_total l) h Q.
Proof.
  intros (Hs & Ha & Ht) HQ. unfold block_total, HEADER_SIZE in *. unfold total_of in Ht. cbv zeta in Ht.
  assert (Z.max (7 + Z.max (l_align l) 8 + l_size l) 16 + 8 < u32_lim) as Hlim by (unfold i32_max, u32_lim in *; Z.div_mod_to_equations; lia).
  apply wp_bind, wp_u32_add; [lia|]. apply wp_bind, wp_u32_sub; [lia|]. apply wp_bind, wp_u32_add; [lia|].
  replace (8 + Z.max (l_align l) 8 - 1 + l_size l) with (7 + Z.max (l_align l) 8 + l_size l) by lia.
  unfold MIN_BLOCK, HEADER_SIZE. apply wp_bind, wp_u32_add; [lia|]. apply wp_bind, wp_u32_sub; [lia|]. apply wp_ret.
  change (8 - 1) with (Z.ones 3). rewrite land_not_ones by (unfold in_u32; lia).
  replace (Z.max (7 + Z.max (l_align l) 8 + l_size l) (8 + 8) + 8 - 1) with (Z.max (7 + Z.max (l_align l) 8 + l_size l) 16 + 7) by lia. exact HQ.
Qed.

Lemma uheap_perm h free used used' : used ≡ₚ used' -> uheap_ok h free used -> uheap_ok h free used'.
Proof.
  intros Hp [H1 H2 H3 H4 H5 H6]. split; try done.
  - by rewrite <- Hp.
  - eapply all_apart_perm; [|exact H4]. by rewrite Hp.
  - by rewrite <- Hp.
Qed.

(** The payload of a block. *)
Definition payload (b : block) (x : Z) : Prop := b_start b + HEADER_SIZE <= x < b_end b.

Lemma kept_payload h m' free used b x :
  uheap_ok h free used -> kept_outside free (u_mem h) m' -> b ∈ used -> payload b x -> m' x = u_mem h x.
Proof.
  intros Hok Hk Hb Hx. apply (kept_header _ _ _ b Hk); [|unfold payload, inside, HEADER_SIZE in *; lia].
  pose proof (uo_apart _ _ _ Hok) as Hap. rewrite all_apart_app in Hap. destruct Hap as (_ & _ & Hap). rewrite Forall_forall in Hap |- *.
  intros d Hd. specialize (Hap d Hd). rewrite Forall_forall in Hap. by apply apart_sym, Hap.
Qed.

(** Handing out a block that is in no list. *)
Lemma adopt_block h free used b m' :
  uheap_ok h free used -> ublock_ok h b -> Forall (apart b) (free ++ used) -> kept_outside [b] (u_mem h) m' -> read_u32 m' (b_start b) = b_size b ->
  uheap_ok (with_umem m' h) free (b :: used).
Proof.
  intros [Hc Hs Hbl Hap Hsz Hbrk] Hb Ha Hk Hm. assert (forall c, c ∈ free ++ used -> 8 <= b_size c /\ Forall (apart c) [b]) as Hc8.
  { intros c Hcin. rewrite Forall_forall in Hbl, Ha. destruct (Hbl c Hcin) as (_ & _ & ? & _). split; [unfold MIN_BLOCK, HEADER_SIZE in *; lia|].
    apply Forall_cons. split; [by apply apart_sym, Ha|done]. }
  split; [|done| | | |done].
  - eapply kept_chain; [exact Hk| |exact Hc]. apply Forall_forall. intros c Hcin. apply Hc8. set_solver.
  - change (Forall (ublock_ok h) (free ++ b :: used)). rewrite Forall_app in Hbl. rewrite Forall_app, Forall_cons. tauto.
  - apply (all_apart_perm (b :: free ++ used)); [solve_Permutation|]. by split.
  - apply Forall_cons. split; [done|]. rewrite Forall_forall in Hsz |- *. intros c Hcin. rewrite <- (Hsz c Hcin).
    destruct (Hc8 c ltac:(set_solver)) as [? Hca]. apply read_u32_frame. intros x Hx. apply (kept_header _ _ _ c Hk Hca). unfold inside, b_end. lia.
Qed.

Section theorems.
(** The kernel's answers: the break stays below the kernel. *)
Context (grants : Z -> Z -> bool) (Hgrants : forall b n, grants b n = true -> b + n < PHYS_BASE).

(** The heap grows by a block [b] and, when there is room behind it, a free one. *)
Section grown.
Context (h : UHeap) (free used : list block) (total : Z) (Hok : uheap_ok h free used).
Context (Ht8 : total mod 8 = 0) (Ht16 : MIN_BLOCK <= total) (Htl : total <= i32_max).
Let grow : Z := Z.max total 4096.
Context (Hg : grants (u_brk h) grow = true) (Hlow : u_brk h <= i32_max).

Lemma grow_facts : grow mod 8 = 0 /\ u_brk h + grow < PHYS_BASE /\ 4096 <= grow /\ total <= grow /\ grow <= i32_max.
Proof.
  pose proof (Hgrants _ _ Hg). unfold grow in *. destruct (Z.max_spec total 4096) as [[? ->]|[? ->]]; unfold i32_max in *; split_and!; lia || done.
Qed.

(** A block of the new room. *)
Lemma new_room_ok m' a b : 
  u_brk h <= b_start b -> b_end b <= u_brk h + grow -> b_start b mod 8 = 0 -> b_size b mod 8 = 0 -> MIN_BLOCK <= b_size b ->
  read_u32 m' (b_start b) = b_size b -> (forall x, x < u_brk h -> m' x = u_mem h x) -> a = u_head h ->
  uheap_ok (mkUHeap m' a (u_brk h + grow)) free (b :: used).
Proof.
  intros H1 H2 H3 H4 H5 H6 H7 ->. pose proof Hok as [Hc Hs Hbl Hap Hsz [Hbrk Hb8]]. destruct grow_facts as (Hg8 & Hg3 & _).
  assert (Forall (fun c => b_end c <= u_brk h /\ 16 <= b_size c) (free ++ used)) as Hlo.
  { eapply Forall_impl; [exact Hbl|]. intros c (_ & _ & ? & _ & ?). unfold MIN_BLOCK, HEADER_SIZE in *. lia. }
  assert (forall c, c ∈ free ++ used -> forall x, b_start c <= x < b_start c + 8 -> m' x = u_mem h x) as Hsame.
  { intros c Hcin x Hx. rewrite Forall_forall in Hlo. destruct (Hlo c Hcin). apply H7. unfold b_end in *. lia. }
  split; simpl.
  - eapply chain_frame; [|exact Hc]. apply Forall_forall. intros c Hcin. apply Hsame. set_solver.
  - done.
  - rewrite Forall_app, Forall_cons. rewrite Forall_app in Hbl. destruct Hbl as [Hb1 Hb2].
    assert (forall c, ublock_ok h c -> ublock_ok (mkUHeap m' (u_head h) (u_brk h + grow)) c) as Hup.
    { unfold ublock_ok. simpl. intros c (?&?&?&?&?). split_and!; try done. unfold grow. lia. }
    split_and!; [eapply Forall_impl; [exact Hb1|exact Hup]| |eapply Forall_impl; [exact Hb2|exact Hup]]. unfold ublock_ok. simpl. split_and!; try done. lia.
  - apply (all_apart_perm (b :: free ++ used)); [solve_Permutation|]. split; [|done]. eapply Forall_impl; [exact Hlo|].
    intros c [? _]. unfold apart. lia.
  - apply Forall_cons. split; [done|]. rewrite Forall_forall in Hsz |- *. intros c Hcin. rewrite <- (Hsz c Hcin).
    apply read_u32_frame. intros x Hx. apply (Hsame c); [set_solver|lia].
  - split; [lia|]. by rewrite Z.add_mod, Hb8, Hg8.
Qed.

(** The part of [alloc] behind the search. *)
Lemma wp_grow (Q : Z -> UHeap -> Prop) :
  (forall h' free' b, uheap_ok h' free' (b :: used) -> (forall x, x < u_brk h -> (forall c, c ∈ free -> ~ inside c x) -> u_mem h' x = u_mem h x) ->
     total <= b_size b -> sizes free' + b_size b = sizes free + grow -> u_brk h' = u_brk h + grow -> Q (b_start b + HEADER_SIZE) h') ->
  wp (let block := u_brk h in
      u_put (size_at block) grow ;;
      u_put (next_at block) 0 ;;
      (if (total <? grow) && (MIN_BLOCK <=? grow - total) then
         let! remainder_block := u32_add block total in
         u_put (size_at remainder_block) (grow - total) ;;
         u_put (next_at remainder_block) 0 ;;
         free_list_insert remainder_block ;;
         u_put (size_at block) total
       else ret tt) ;;
      u32_add block HEADER_SIZE) (mkUHeap (u_mem h) (u_head h) (u_brk h + grow)) Q.
Proof.
  intros HQ. destruct grow_facts as (Hg8 & Hlt & H4k & Htg & Hgl). pose proof (uo_brk _ _ _ Hok) as [Hbrk Hb8].
  unfold size_at, next_at. unfold MIN_BLOCK, HEADER_SIZE in Ht16. apply wp_bind, wp_modify, wp_bind, wp_modify. simpl u_mem.
  assert (in_u32 grow /\ in_u32 total) as [Hug Hut] by (unfold in_u32, i32_max, u32_lim in *; lia).
  destruct ((total <? grow) && (MIN_BLOCK <=? grow - total)) eqn:Ec.
  - apply andb_true_iff in Ec as [_ Hm%Z.leb_le]. unfold MIN_BLOCK, HEADER_SIZE in Hm.
    apply wp_bind, wp_bind, wp_u32_add; [unfold PHYS_BASE, u32_lim in *; lia|]. apply wp_bind, wp_modify, wp_bind, wp_modify. simpl u_mem.
    set (m2 := write_u32 (u_brk h + total + 4) 0 _). set (r := mkBlock (u_brk h + total) (grow - total)).
    assert (forall x, x < u_brk h -> m2 x = u_mem h x) as Hm2 by (intros x Hx; unfold m2; rewrite !write_u32_frame by lia; done).
    apply wp_bind, (wp_free_list_insert _ free used r).
    { apply new_room_ok; unfold r, b_end, MIN_BLOCK, HEADER_SIZE; simpl; try done; try lia.
      - by rewrite Z.add_mod, Hb8, Ht8.
      - by rewrite Zminus_mod, Hg8, Ht8.
      - unfold m2. rewrite read_write_u32_ne by lia. apply read_write_u32. unfold in_u32, i32_max, u32_lim in *. lia. }
    intros h3 free' Hok3 Eb Hk3 Hcov Hsz. simpl in Eb, Hk3. apply wp_modify, wp_u32_add; [unfold HEADER_SIZE, PHYS_BASE, u32_lim in *; lia|].
    set (b := mkBlock (u_brk h) total). set (m4 := write_u32 (u_brk h) total (u_mem h3)).
    assert (Forall (fun c => b_end c <= u_brk h) (free ++ used)) as Hlo.
    { eapply Forall_impl; [apply (uo_blocks _ _ _ Hok)|]. by intros c (_ & _ & _ & _ & ?). }
    rewrite Forall_app in Hlo. destruct Hlo as [Hlof Hlou].
    apply (HQ _ free' b); [| |done|rewrite Hsz; simpl; lia|done].
    + apply (adopt_block h3 free' used b m4 Hok3).
      * unfold ublock_ok, b, b_end, MIN_BLOCK, HEADER_SIZE. simpl. rewrite Eb. split_and!; try done; lia.
      * apply Forall_app. split.
        -- apply Hcov; [unfold positive; simpl; lia|]. apply Forall_cons. split; [unfold apart, r, b, b_end; simpl; lia|].
           eapply Forall_impl; [exact Hlof|]. intros c. unfold apart, b, b_end. simpl. lia.
        -- eapply Forall_impl; [exact Hlou|]. intros c. unfold apart, b, b_end. simpl. lia.
      * apply kept_write; unfold b, b_end; simpl; lia.
      * by apply read_write_u32.
    + intros x Hx Hfx. change (m4 x = u_mem h x). unfold m4. rewrite write_u32_frame by lia. rewrite Hk3; [by apply Hm2|].
      intros c [->|Hc]%elem_of_cons; [unfold inside, r; simpl; lia|by apply Hfx].
  - apply wp_bind, wp_ret, wp_u32_add; [unfold HEADER_SIZE, PHYS_BASE, u32_lim in *; lia|].
    set (m1 := write_u32 (u_brk h + 4) 0 _).
    apply (HQ _ free (mkBlock (u_brk h) grow)); [| |done|done|done].
    + apply new_room_ok; unfold b_end, MIN_BLOCK, HEADER_SIZE; simpl; try done; try lia.
      * unfold m1. rewrite read_write_u32_ne by lia. by apply read_write_u32.
      * intros x Hx. unfold m1. rewrite !write_u32_frame by lia. done.
    + intros x Hx _. change (m1 x = u_mem h x). unfold m1. rewrite !write_u32_frame by lia. done.
Qed.
End grown.

Lemma wp_sbrk n h (Q : Z -> UHeap -> Prop) : u_brk h <= i32_max -> 0 <= u_brk h ->
  (grants (u_brk h) n = false -> Q (-1) h) -> (grants (u_brk h) n = true -> Q (u_brk h) (mkUHeap (u_mem h) (u_head h) (u_brk h + n))) ->
  wp (sbrk grants n) h Q.
Proof.
  intros Hl H0 Hno Hyes. unfold sbrk. apply wp_bind, wp_gets. destruct (grants (u_brk h) n) eqn:E; [|by apply wp_ret, Hno].
  apply wp_bind, wp_modify, wp_ret. rewrite as_i32_small by done. by apply Hyes.
Qed.

(** C25: the heap of user programs hands out memory safely and loses none, in the lower half of the
    address space.  Take a state in which the free list is sorted, its blocks are not adjacent,
    and free and used blocks do not overlap ([uheap_ok]), with the break at most 2^31 - 1, and a
    layout that needs at most 2^31 - 1 bytes with its header (for a higher break or a larger
    request the stub's answer is read as a negative number, and nothing is claimed); the kernel
    grants no break above the user's part of the address space.  [alloc]
    terminates and keeps the invariant.  It returns a block, added to the used ones and therefore
    apart from each of them, with room for the layout's size behind the header and at an address
    divisible by eight; or it returns null, with nothing changed, and then no free block was
    large enough and the kernel refused to move the break.  The payload of every used block keeps
    its bytes.  Free and used blocks together have grown by exactly what the break has moved. *)
Theorem user_alloc_correct (h : UHeap) (free used : list block) (l : Layout) :
  uheap_ok h free used -> layout_ok l -> u_brk h <= i32_max ->
  wp (alloc grants l) h (fun p h' => exists free' used',
    uheap_ok h' free' used' /\ (forall b x, b ∈ used -> payload b x -> u_mem h' x = u_mem h x) /\
    sizes (free' ++ used') = sizes (free ++ used) + (u_brk h' - u_brk h) /\
    ((p = 0 /\ h' = h /\ free' = free /\ used' = used /\ Forall (fun b => b_size b < total_of l) free /\
      grants (u_brk h) (Z.max (total_of l) 4096) = false) \/
     (exists b, used' = b :: used /\ p = b_start b + HEADER_SIZE /\ p + l_size l <= b_end b /\ p mod 8 = 0))).
Proof.
  intros Hok Hl Hlow. pose proof (uo_brk _ _ _ Hok) as [Hbrk _]. destruct (total_facts l Hl) as (Ht8 & Ht16 & Hpay).
  assert (in_u32 (total_of l)) as Hut by (destruct Hl as (_ & _ & ?); unfold in_u32, MIN_BLOCK, HEADER_SIZE, i32_max, u32_lim in *; lia).
  assert (forall h' free' b, uheap_ok h' free' (b :: used) -> b_start b mod 8 = 0) as Hal.
  { intros h' free' b Hok'. pose proof (uo_blocks _ _ _ Hok') as H. rewrite Forall_app, Forall_cons in H. by destruct H as (_ & (_ & ? & _) & _). }
  unfold alloc. apply wp_bind, wp_block_total; [done|]. apply wp_bind, wp_gets, wp_bind, wp_gets, wp_bind.
  apply (wp_search h used (total_of l) Ht8 Ht16 Hut free []); [done|done|apply Hok|done| | |].
  - pose proof (uo_blocks _ _ _ Hok) as Hb. apply Forall_app in Hb as [Hb _].
    pose proof (spaced_length h free (uo_spaced _ _ _ Hok) Hb ltac:(lia)). unfold list_fuel. lia.
  - intros Hsm. assert (as_i32 (Z.max (total_of l) 4096) = Z.max (total_of l) 4096) as ->.
    { destruct Hl as (_ & _ & ?). apply as_i32_small. unfold i32_max in *. lia. }
    apply wp_bind, wp_sbrk; [done|lia| |].
    + intros Hno. apply wp_ret. exists free, used. split_and!; [done|done|lia|]. by left.
    + intros Hyes. rewrite (proj2 (Z.ltb_ge _ _)) by lia. apply (wp_grow h free used (total_of l)); [done|done|done|apply Hl|done|done|].
      intros h' free' b Hok' Hmem Hfit Hsz Eb. exists free', (b :: used). split_and!; [done| | |right; exists b; split_and!].
      * intros c x Hc Hx. assert (ublock_ok h c) as (_ & _ & _ & _ & He).
        { pose proof (uo_blocks _ _ _ Hok) as H. rewrite Forall_app, Forall_forall, Forall_forall in H. by apply H. }
        apply Hmem; [unfold payload in Hx; lia|]. intros d Hd Hin. pose proof (uo_apart _ _ _ Hok) as Hap. rewrite all_apart_app in Hap.
        destruct Hap as (_ & _ & Hap). rewrite Forall_forall in Hap. specialize (Hap d Hd). rewrite Forall_forall in Hap. specialize (Hap c Hc).
        unfold apart, inside, payload, HEADER_SIZE in *. lia.
      * rewrite !sizes_app. simpl. lia.
      * done.
      * done.
      * unfold b_end in *. lia.
      * unfold HEADER_SIZE. rewrite Z.add_mod, (Hal _ _ _ Hok') by done. done.
  - intros h' free' b Hok' Eb Hk Hfit Hsz. apply wp_ret. exists free', (b :: used). split_and!; [done| | |right; exists b; split_and!].
    + intros c x Hc Hx. by eapply kept_payload.
    + simpl in Hsz. rewrite !sizes_app. simpl. lia.
    + done.
    + done.
    + unfold b_end in *. lia.
    + unfold HEADER_SIZE. rewrite Z.add_mod, (Hal _ _ _ Hok') by done. done.
Qed.
End theorems.

(** C26: giving memory back.  [dealloc] of a block that is in use terminates and keeps the
    invariant, with the block among the free ones and merged with the free blocks it touches
    (no two free blocks are adjacent).  The other used blocks keep their payload, the break does
    not move, and no byte is lost. *)
Theorem user_dealloc_correct (h : UHeap) (free used rest : list block) (b : block) :
  uheap_ok h free used -> used ≡ₚ b :: rest ->
  wp (dealloc (b_start b + HEADER_SIZE)) h (fun _ h' => exists free',
    uheap_ok h' free' rest /\ (forall c x, c ∈ rest -> payload c x -> u_mem h' x = u_mem h x) /\
    u_brk h' = u_brk h /\ sizes (free' ++ rest) = sizes (free ++ used)).
Proof.
  intros Hok Hp. pose proof (uheap_perm _ _ _ _ Hp Hok) as Hok'.
  assert (ublock_ok h b) as (H0 & _ & _) by (pose proof (uo_blocks _ _ _ Hok') as H; rewrite Forall_app, Forall_cons in H; tauto).
  unfold dealloc. rewrite (proj2 (Z.eqb_neq _ _)) by (unfold HEADER_SIZE; lia). apply wp_bind, wp_u32_sub; [unfold HEADER_SIZE; lia|].
  replace (b_start b + HEADER_SIZE - HEADER_SIZE) with (b_start b) by lia. apply (wp_free_list_insert h free rest b); [done|].
  intros h' free' Hf Eb Hk Hcov Hsz. exists free'. split_and!; [done| |done|].
  - intros c x Hc Hx. apply (kept_header _ _ _ c Hk); [|unfold payload, inside, HEADER_SIZE in *; lia].
    pose proof (uo_apart _ _ _ Hok') as Hap. rewrite all_apart_app in Hap. destruct Hap as (_ & [Hab _] & Hap). simpl in Hab.
    rewrite Forall_forall in Hab, Hap |- *. intros d [->|Hd]%elem_of_cons; [by apply apart_sym, Hab|].
    specialize (Hap d Hd). apply Forall_cons in Hap as [_ Hap]. rewrite Forall_forall in Hap. by apply apart_sym, Hap.
  - rewrite !sizes_app. rewrite Hp. simpl. lia.
Qed.

(** ** Examples *)

(** A fresh process: an empty heap, and a kernel that always grants. *)
Definition fresh_heap : UHeap := mkUHeap (fun _ => 0) 0 0x08050000.
Definition grant_all (b n : Z) : bool := b + n <? PHYS_BASE.

Lemma fresh_heap_ok : uheap_ok fresh_heap [] [].
Proof. by split. Qed.

Lemma user_alloc_correct_witness :
  wp (alloc grant_all (mkLayout 100 4)) fresh_heap (fun p h' => p <> 0 /\ exists free' used', uheap_ok h' free' used').
Proof.
  eapply wp_mono.
  - apply (user_alloc_correct grant_all ltac:(intros b n; unfold grant_all; apply Z.ltb_lt) fresh_heap [] [] (mkLayout 100 4));
      [exact fresh_heap_ok|by vm_compute|by vm_compute].
  - intros p h' (free' & used' & Hok & _ & _ & [(_ & _ & _ & _ & _ & Hno)|(b & -> & -> & _)]); [discriminate Hno|].
    split; [|by exists free', (b :: [])]. pose proof (uo_blocks _ _ _ Hok) as H. rewrite Forall_app, Forall_cons in H.
    destruct H as (_ & (? & _) & _). unfold HEADER_SIZE. lia.
Defined.

(** One page with a used block of 120 bytes and the rest free. *)
Definition small_heap : UHeap :=
  mkUHeap (write_u32 0x08050078 3976 (write_u32 0x08050000 120 (fun _ => 0))) 0x08050078 0x08051000.

Lemma small_heap_ok : uheap_ok small_heap [mkBlock 0x08050078 3976] [mkBlock 0x08050000 120].
Proof.
  assert (forall b, 0 < b_start b -> b_start b mod 8 = 0 -> 16 <= b_size b -> b_size b mod 8 = 0 -> b_end b <= 0x08051000 -> ublock_ok small_heap b) as Hb by done.
  split.
  - apply chain_intro; [reflexivity|reflexivity|reflexivity].
  - done.
  - apply Forall_cons. split; [by apply Hb|]. apply Forall_cons. split; [by apply Hb|done].
  - split; [|done]. apply Forall_cons. split; [right; done|done].
  - apply Forall_cons. split; [reflexivity|done].
  - done.
Qed.

Lemma user_dealloc_correct_witness :
  wp (dealloc 0x08050008) small_heap (fun _ h' => exists free', uheap_ok h' free' [] /\ sizes (free' ++ []) = 4096).
Proof.
  eapply wp_mono.
  - apply (user_dealloc_correct small_heap [mkBlock 0x08050078 3976] [mkBlock 0x08050000 120] [] (mkBlock 0x08050000 120));
      [exact small_heap_ok|done].
  - intros u h' (free' & Hok & _ & _ & Hs). exists free'. split; [done|]. rewrite Hs. by vm_compute.
Defined.

(** A request for an alignment of 16 bytes is answered with an address that is not a multiple of 16. *)
Example alignment_ignored : wp (alloc grant_all (mkLayout 64 16)) (mkUHeap (fun _ => 0) 0 0x1000) (fun p _ => p mod 16 = 8).
Proof. vm_compute. reflexivity. Qed.
