(* ===== verification/UserLib.v ===== *)
(** The user library's side of system calls (user/rxv6-user/src/syscall.rs and lib.rs): the words
    its stubs push before [int 0x80], the layout of [Stat], and the agreement with the kernel. *)
From S2P Require Import Prelude Btree Block Bio FreeMap Inode InodeLayout FileMap InodeOps InodeProofs Memory Palloc Thread Pagedir Swap SchedProofs Spaces Vm FrameTable VmMem VmDisk VmInv VmEvict VmLoad VmFault VmDemo VmClaims Elf Loader LoaderSetup LoadProgram Pipe Fd Input Proc Process Syscall UserMem SysArgs SysClaims.

Definition SYS_FORK : Z := 1.
Definition SYS_EXIT : Z := 2.
Definition SYS_WAIT : Z := 3.
Definition SYS_PIPE : Z := 4.
Definition SYS_READ : Z := 5.
Definition SYS_WRITE : Z := 6.
Definition SYS_CLOSE : Z := 7.
Definition SYS_KILL : Z := 8.
Definition SYS_EXEC : Z := 9.
Definition SYS_OPEN : Z := 10.
Definition SYS_MKNOD : Z := 11.
Definition SYS_UNLINK : Z := 12.
Definition SYS_FSTAT : Z := 13.
Definition SYS_LINK : Z := 14.
Definition SYS_MKDIR : Z := 15.
Definition SYS_CHDIR : Z := 16.
Definition SYS_DUP : Z := 17.
Definition SYS_GETPID : Z := 18.
Definition SYS_SBRK : Z := 19.
Definition SYS_SLEEP : Z := 20.
Definition SYS_UPTIME : Z := 21.
Definition SYS_IOCTL : Z := 22.
Definition SYS_SIGNAL : Z := 23.
Definition SYS_SETPGID : Z := 24.
Definition SYS_GETPGID : Z := 25.

(** The words on the stack at the trap, from the stack pointer up. *)
Definition syscall0 (num : Z) : list Z := [num].
Definition syscall1 (num arg0 : Z) : list Z := [num; arg0].
Definition syscall2 (num arg0 arg1 : Z) : list Z := [num; arg0; arg1].
Definition syscall3 (num arg0 arg1 arg2 : Z) : list Z := [num; arg0; arg1; arg2].

(** What the stub answers: [eax], as a signed number. *)
Definition answer (frame : IntrFrame) : Z := as_i32 (f_eax frame).

(** A slice: its address and length. *)
Record slice := mkSlice { s_ptr : Z; s_len : Z }.

Definition fork : list Z := syscall0 SYS_FORK.
Definition exit (status : Z) : list Z := syscall1 SYS_EXIT (as_u32 status).
Definition wait (status : Z) : list Z := syscall1 SYS_WAIT status.
Definition pipe (pipefd : Z) : list Z := syscall1 SYS_PIPE pipefd.
Definition read (fd : Z) (buf : slice) : list Z := syscall3 SYS_READ (as_u32 fd) (s_ptr buf) (s_len buf).
Definition write (fd : Z) (buf : slice) : list Z := syscall3 SYS_WRITE (as_u32 fd) (s_ptr buf) (s_len buf).
Definition close (fd : Z) : list Z := syscall1 SYS_CLOSE (as_u32 fd).
Definition kill (pid sig : Z) : list Z := syscall2 SYS_KILL (as_u32 pid) sig.
Definition signal (sig handler : Z) : list Z := syscall2 SYS_SIGNAL sig handler.
Definition setpgid (pid pgid : Z) : list Z := syscall2 SYS_SETPGID (as_u32 pid) (as_u32 pgid).
Definition getpgid (pid : Z) : list Z := syscall1 SYS_GETPGID (as_u32 pid).
Definition exec (path argv : Z) : list Z := syscall2 SYS_EXEC path argv.
Definition open (path flags : Z) : list Z := syscall2 SYS_OPEN path (as_u32 flags).
Definition mknod (path major minor : Z) : list Z := syscall3 SYS_MKNOD path (as_u32 major) (as_u32 minor).
Definition unlink (path : Z) : list Z := syscall1 SYS_UNLINK path.
Definition fstat (fd st : Z) : list Z := syscall2 SYS_FSTAT (as_u32 fd) st.
Definition link (old new : Z) : list Z := syscall2 SYS_LINK old new.
Definition mkdir (path : Z) : list Z := syscall1 SYS_MKDIR path.
Definition chdir (path : Z) : list Z := syscall1 SYS_CHDIR path.
Definition dup (fd : Z) : list Z := syscall1 SYS_DUP (as_u32 fd).
Definition getpid : list Z := syscall0 SYS_GETPID.
Definition sbrk (n : Z) : list Z := syscall1 SYS_SBRK (as_u32 n).
Definition sleep (n : Z) : list Z := syscall1 SYS_SLEEP (as_u32 n).
Definition uptime : list Z := syscall0 SYS_UPTIME.
Definition ioctl (fd request arg : Z) : list Z := syscall3 SYS_IOCTL (as_u32 fd) request arg.
Definition TIOCRAW : Z := 0x5401.
Definition set_raw_mode (raw : bool) : list Z := ioctl 0 TIOCRAW (Z.b2z raw).
Definition TIOCPOLL : Z := 0x5402.
Definition input_ready : list Z := ioctl 0 TIOCPOLL 0.

Definition set_raw_mode_ret (frame : IntrFrame) : bool := negb (answer frame =? 0).
Definition input_ready_ret (frame : IntrFrame) : bool := negb (answer frame =? 0).

Definition O_RDONLY : Z := 0.
Definition O_WRONLY : Z := 1.
Definition O_RDWR : Z := 2.
Definition O_CREATE : Z := 0x200.
Definition O_TRUNC : Z := 0x400.
Definition O_APPEND : Z := 0x800.
Definition SIGHUP : Z := 1.
Definition SIGINT : Z := 2.
Definition SIGQUIT : Z := 3.
Definition SIGKILL : Z := 9.
Definition SIGPIPE : Z := 13.
Definition SIGTERM : Z := 15.
Definition SIGCHLD : Z := 17.
Definition SIG_DFL : Z := 0.
Definition SIG_IGN : Z := 1.

(** [_start]: [rust_main]'s answer is pushed, then the number of [exit]. *)
Definition start_exit (code : Z) : list Z := [2; as_u32 code].

(** [Stdout::write_str] *)
Definition write_str (s : slice) : list Z := write 1 s.

(** [FileType] and [Stat]; the discriminants are the numbers the kernel stores. *)
Inductive FileType : Set := None_ | Dir | File | Dev.
Definition file_type_of (x : Z) : option FileType :=
  match x with 0 => Some None_ | 1 => Some Dir | 2 => Some File | 3 => Some Dev | _ => None end.
Record Stat := mkStat { st_type : FileType; st_dev : Z; st_ino : Z; st_nlink : Z; st_size : Z }.

(** A [Stat] as the program reads it from memory: [repr(C)], with two bytes of padding. *)
Definition stat_of (l : list Z) : option Stat :=
  match l with
  | [t0; t1; d0; d1; i0; i1; i2; i3; n0; n1; _; _; s0; s1; s2; s3] =>
      t ← file_type_of (t0 + 256 * t1);
      Some (mkStat t (d0 + 256 * d1) (le_word [i0; i1; i2; i3]) (n0 + 256 * n1) (le_word [s0; s1; s2; s3]))
  | _ => None
  end.

(** [cstr_to_str]: the length of the string at [ptr], in a memory given as a function. *)
Fixpoint cstr_len (fuel : nat) (m : Mem) (ptr : Z) : option Z :=
  match fuel with
  | O => None
  | S fuel' => if m ptr =? 0 then Some 0 else n ← cstr_len fuel' m (ptr + 1); Some (n + 1)
  end.

Definition cstr_to_str (fuel : nat) (m : Mem) (ptr : Z) : option (list Z) :=
  if ptr =? 0 then Some [] else n ← cstr_len fuel m ptr; Some (map (fun i => m (ptr + Z.of_nat i)) (List.seq 0 (Z.to_nat n))).

(** ** Agreement with the kernel *)
Section agreement.
Context {D : Type} `{!BlockOps D, !BlockLaws D}.
Implicit Types (k : Kern D).

(** What a program can ask for, with the arguments of the library's functions. *)
Inductive request : Set :=
| r_fork | r_exit (status : Z) | r_wait (status : Z) | r_pipe (pipefd : Z)
| r_read (fd : Z) (buf : slice) | r_write (fd : Z) (buf : slice) | r_close (fd : Z)
| r_kill (pid sig : Z) | r_exec (path argv : Z) | r_open (path flags : Z) | r_mknod (path major minor : Z)
| r_unlink (path : Z) | r_fstat (fd st : Z) | r_link (old new : Z) | r_mkdir (path : Z) | r_chdir (path : Z)
| r_dup (fd : Z) | r_getpid | r_sbrk (n : Z) | r_sleep (n : Z) | r_uptime | r_ioctl (fd req arg : Z)
| r_signal (sig handler : Z) | r_setpgid (pid pgid : Z) | r_getpgid (pid : Z).

(** The words that the library's function pushes. *)
Definition pushed (r : request) : list Z :=
  match r with
  | r_fork => fork
  | r_exit st => exit st
  | r_wait p => wait p
  | r_pipe p => pipe p
  | r_read fd buf => read fd buf
  | r_write fd buf => write fd buf
  | r_close fd => close fd
  | r_kill pid sig => kill pid sig
  | r_exec path argv => exec path argv
  | r_open path flags => open path flags
  | r_mknod path a b => mknod path a b
  | r_unlink path => unlink path
  | r_fstat fd st => fstat fd st
  | r_link old new => link old new
  | r_mkdir path => mkdir path
  | r_chdir path => chdir path
  | r_dup fd => dup fd
  | r_getpid => getpid
  | r_sbrk n => sbrk n
  | r_sleep n => sleep n
  | r_uptime => uptime
  | r_ioctl fd req a => ioctl fd req a
  | r_signal sig h => signal sig h
  | r_setpgid pid g => setpgid pid g
  | r_getpgid pid => getpgid pid
  end.

(** The signed arguments are 32-bit numbers. *)
Definition typed (r : request) : Prop :=
  match r with
  | r_exit x | r_read x _ | r_write x _ | r_close x | r_kill x _ | r_open _ x | r_fstat x _ | r_dup x | r_sbrk x
  | r_ioctl x _ _ | r_getpgid x => in_i32 x
  | r_setpgid x y => in_i32 x /\ in_i32 y
  | _ => True
  end.

(** What the kernel has to do for it: its operation, on the program's own arguments. *)
Definition eax (frame : IntrFrame) (m : C (D := D) Z) : C (D := D) IntrFrame := Syscall.seq m (fun x => give (set_eax x frame)).
Definition serve (frame : IntrFrame) (r : request) : C (D := D) IntrFrame :=
  match r with
  | r_fork => Syscall.seq (lift (Process.fork frame)) (fun child_tid => give (set_eax (as_u32 child_tid) frame))
  | r_exit st => exit_process st
  | r_wait p => eax frame (wait_call p)
  | r_pipe p => eax frame (pipe_call p)
  | r_read fd buf => eax frame (rw_call sys_read fd (s_ptr buf) (s_len buf))
  | r_write fd buf => eax frame (rw_call sys_write fd (s_ptr buf) (s_len buf))
  | r_close fd => eax frame (close_call fd)
  | r_kill pid sig => eax frame (kill_call pid sig)
  | r_exec path argv => exec_call path argv frame
  | r_open path flags => eax frame (open_call path flags)
  | r_mknod _ _ _ => eax frame (give minus_one)
  | r_unlink path => eax frame (path_call Filesys.remove path)
  | r_fstat fd st => eax frame (fstat_call fd st)
  | r_link old new => eax frame (link_call old new)
  | r_mkdir path => eax frame (path_call Filesys.mkdir path)
  | r_chdir path => eax frame (chdir_call path)
  | r_dup fd => eax frame (dup_call fd)
  | r_getpid => eax frame (Syscall.seq (lift (vm self)) (fun t => give (as_u32 (tid t))))
  | r_sbrk n => eax frame (sbrk_call n)
  | r_sleep n => eax frame (sleep_call (as_u32 n))
  | r_uptime => eax frame (Syscall.seq (lift (gets k_ticks)) (fun n => give (as_u32 n)))
  | r_ioctl fd req a => eax frame (ioctl_call fd req a)
  | r_signal sig h => eax frame (signal_call sig h)
  | r_setpgid pid g => eax frame (setpgid_call pid g)
  | r_getpgid pid => eax frame (getpgid_call pid)
  end.

(** The two-byte fields. *)
Lemma half_word x : 0 <= x < 65536 -> exists a b, take 2 (le_bytes x) = [a; b] /\ a + 256 * b = x.
Proof. intros Hx. eexists _, _. split; [reflexivity|]. Z.div_mod_to_equations. lia. Qed.

(** The kernel's bytes of a file status, as the program reads them. *)
Lemma stat_bytes_read (file_type dev ino nlink size : Z) (t : FileType) :
  file_type_of file_type = Some t -> 0 <= dev < 65536 -> in_u32 ino -> 0 <= nlink < 65536 -> in_u32 size ->
  stat_of (stat_bytes file_type dev ino nlink size) = Some (mkStat t dev ino nlink size).
Proof.
  intros Ht Hd Hi Hn Hs. unfold stat_bytes.
  assert (0 <= file_type < 65536) as Hf by (destruct file_type as [|[[|[]|]|[|[]|]|]|]; done || lia).
  destruct (half_word _ Hf) as (t0 & t1 & -> & Et), (half_word _ Hd) as (d0 & d1 & -> & Ed), (half_word _ Hn) as (n0 & n1 & -> & En).
  pose proof (le_word_bytes ino [] Hi) as Ei. pose proof (le_word_bytes size [] Hs) as Es.
  rewrite app_nil_r in Ei, Es. unfold le_bytes in *. cbn [app stat_of]. by rewrite Et, Ht, Ed, En, Ei, Es.
Qed.

(** Reading words from the stack only looks. *)
Definition runs {A} k0 k (m : C (D := D) A) (m' : C (D := D) A) : Prop := exists k', seen k0 k' /\ m k = m' k'.

Lemma runs_seq {A B} k0 k (m m' : C (D := D) A) (f : A -> C (D := D) B) :
  runs k0 k m m' -> runs k0 k (Syscall.seq m f) (Syscall.seq m' f).
Proof. intros (k' & Hs & E). exists k'. split; [done|]. unfold Syscall.seq, bind. by rewrite E. Qed.

Lemma runs_require {A} k0 k th esp w ws (m m' : C (D := D) A) :
  seen k0 k -> caller k0 th -> stack_words k0 th esp (w :: ws) -> runs k0 k m m' -> runs k0 k (Syscall.seq (require esp 4) (fun _ => m)) m'.
Proof.
  intros Hs Hc Hws (k' & Hk & E). exists k'. split; [done|]. rewrite <- E. pose proof (seen_words _ _ _ _ _ Hs Hc Hws) as (Ha & _ & Hr).
  assert (wp (require esp 4) k (fun r k' => r = Val tt /\ k' = k)) as H1.
  { eapply wp_require; [by eapply seen_caller|exact Hr|done|done|lia|rewrite length_words; simpl List.length; lia|done]. }
  unfold Syscall.seq, bind, wp in *. destruct (require esp 4 k); try done. by destruct H1 as [-> ->].
Qed.

Lemma runs_check {A} k0 k th esp ws n (m m' : C (D := D) A) :
  seen k0 k -> caller k0 th -> stack_words k0 th esp ws -> n = Z.of_nat (List.length ws) - 1 -> 0 <= n ->
  runs k0 k m m' -> runs k0 k (Syscall.seq (check_args esp n) (fun _ => m)) m'.
Proof.
  intros Hs Hc Hws -> Hn (k' & Hk & E). exists k'. split; [done|]. rewrite <- E.
  assert (wp (check_args esp (Z.of_nat (List.length ws) - 1)) k (fun r k' => r = Val tt /\ k' = k)) as H1.
  { eapply wp_check_args; [by eapply seen_caller|by eapply seen_words|lia|done]. }
  unfold Syscall.seq, bind, wp in *. destruct (check_args esp _ k); try done. by destruct H1 as [-> ->].
Qed.

Lemma runs_arg {A} k0 k th esp ws i w (f : Z -> C (D := D) A) (m' : C (D := D) A) :
  seen k0 k -> caller k0 th -> stack_words k0 th esp ws -> ws !! i = Some w ->
  (forall k1, seen k0 k1 -> runs k0 k1 (f w) m') -> runs k0 k (Syscall.seq (arg esp (Z.of_nat i)) f) m'.
Proof.
  intros Hs Hc Hws Hi Hf.
  assert (wp (arg esp (Z.of_nat i)) k (fun r k1 => r = Val w /\ seen k0 k1)) as H1 by (by eapply wp_arg_from).
  unfold Syscall.seq, bind, wp in *. destruct (arg esp (Z.of_nat i) k) as [r k1| | |] eqn:E; try done. destruct H1 as [-> Hk1].
  destruct (Hf k1 Hk1) as (k' & Hk & E'). exists k'. split; [done|]. by rewrite E, E'.
Qed.

Lemma runs_done {A} k0 k (m : C (D := D) A) : seen k0 k -> runs k0 k m m.
Proof. intros Hs. by exists k. Qed.

End agreement.

(** Where the two sides declare the same constants, they are the same. *)
Example constants_agree :
  [O_RDONLY; O_WRONLY; O_CREATE; O_TRUNC; O_APPEND; SIG_DFL; SIG_IGN; SIGINT; SIGQUIT; SIGKILL; SIGPIPE; SIGCHLD] =
  [Syscall.O_RDONLY; Syscall.O_WRONLY; Syscall.O_CREATE; Syscall.O_TRUNC; Syscall.O_APPEND; Syscall.SIG_DFL; Syscall.SIG_IGN;
   Thread.SIGINT; Input.SIGQUIT; Thread.SIGKILL; Syscall.SIGPIPE; Thread.SIGCHLD].
Proof. reflexivity. Qed.

