(* ===== verification/Ports.v ===== *)
(** I/O ports (arch/port.rs).  The devices behind the ports are a parameter: a type of their state
    and what the [in] and [out] instructions do to it. *)
From S2P Require Import Prelude.

(** The machine's devices, as the [in] and [out] instructions see them. *)
Class PortIO (C : Type) := {
  in8 : Z -> C -> Z * C;
  out8 : Z -> Z -> C -> C;
  in16 : Z -> C -> Z * C;
  out16 : Z -> Z -> C -> C;
  in32 : Z -> C -> Z * C;
  out32 : Z -> Z -> C -> C;
}.

Record Port : Set := mkPort { addr : Z }.

Section ports.
Context {C : Type} `{!PortIO C}.

Definition input (f : Z -> C -> Z * C) (p : Port) : M C Z := fun c => let '(v, c') := f (addr p) c in Ok v c'.
Definition read_u8 (p : Port) : M C Z := input in8 p.
Definition write_u8 (p : Port) (val : Z) : M C unit := modify (out8 (addr p) val).
Definition read_u16 (p : Port) : M C Z := input in16 p.
Definition write_u16 (p : Port) (val : Z) : M C unit := modify (out16 (addr p) val).
Definition read_u32 (p : Port) : M C Z := input in32 p.
Definition write_u32 (p : Port) (val : Z) : M C unit := modify (out32 (addr p) val).

(** Polling a port: whether a value that [stop] accepts was read within [n] turns. *)
Fixpoint poll (n : nat) (p : Port) (stop : Z -> bool) : M C bool :=
  match n with
  | O => ret false
  | S n' => let! v := read_u8 p in if stop v then ret true else poll n' p stop
  end.

Lemma wp_read_u8 p c (Q : Z -> C -> Prop) : Q (in8 (addr p) c).1 (in8 (addr p) c).2 -> wp (read_u8 p) c Q.
Proof. unfold wp, read_u8, input. by destruct (in8 _ _). Qed.
Lemma wp_read_u16 p c (Q : Z -> C -> Prop) : Q (in16 (addr p) c).1 (in16 (addr p) c).2 -> wp (read_u16 p) c Q.
Proof. unfold wp, read_u16, input. by destruct (in16 _ _). Qed.

(** A loop that polls with a measure: [I k c] says that the [k]th read from [c] on is accepted. *)
Lemma wp_poll (I : nat -> C -> Prop) p stop c (Q : bool -> C -> Prop) :
  (forall k c, I (S k) c -> stop (in8 (addr p) c).1 = false /\ I k (in8 (addr p) c).2) ->
  (forall c, I O c -> stop (in8 (addr p) c).1 = true /\ Q true (in8 (addr p) c).2) ->
  forall n k, (k < n)%nat -> I k c -> wp (poll n p stop) c Q.
Proof.
  intros HS HO n. revert c. induction n as [|n IH]; intros c k Hk HI; [lia|]. simpl. apply wp_bind, wp_read_u8. destruct k as [|k].
  - destruct (HO c HI) as [-> HQ]. by apply wp_ret.
  - destruct (HS k c HI) as [-> HI']. by apply (IH _ k); [lia|].
Qed.
End ports.
