(* ===== verification/Idt.v ===== *)
(** The interrupt descriptor table, handler registration and the interrupt controllers
    (arch/idt.rs), the global descriptor table (arch/gdt.rs) and the task state (userprog/tss.rs),
    and what the processor reads from these tables. *)
From S2P Require Import Prelude Memory Ports.

(** ** Segment descriptors: arch/gdt.rs *)
Definition SEL_KCSEG : Z := 0x08.
Definition SEL_KDSEG : Z := 0x10.
Definition SEL_UCSEG : Z := 0x1B.
Definition SEL_UDSEG : Z := 0x23.
Definition SEL_TSS : Z := 0x28.
Definition GDT_COUNT : nat := 6.

Record SegmentDescriptor : Set := mkSeg { seg_low : Z; seg_high : Z }.

Definition seg_null : SegmentDescriptor := mkSeg 0 0.

(** [u32 << n], which drops the bits above 31. *)
Definition shl32 (x n : Z) : Z := as_u32 (Z.shiftl x n).

Definition seg_new (base limit seg_type s dpl present db granularity : Z) : SegmentDescriptor :=
  let low := Z.lor (Z.land limit 0xFFFF) (shl32 (Z.land base 0xFFFF) 16) in
  let high :=
    Z.lor (Z.lor (Z.lor (Z.lor (Z.lor (Z.lor (Z.lor (Z.lor
      (Z.land (Z.shiftr base 16) 0xFF)
      (shl32 (Z.land seg_type 0xF) 8))
      (shl32 (Z.land s 1) 12))
      (shl32 (Z.land dpl 3) 13))
      (shl32 (Z.land present 1) 15))
      (shl32 (Z.land (Z.shiftr limit 16) 0xF) 16))
      (shl32 (Z.land db 1) 22))
      (shl32 (Z.land granularity 1) 23))
      (shl32 (Z.land (Z.shiftr base 24) 0xFF) 24) in
  mkSeg low high.

Definition kernel_code : SegmentDescriptor := seg_new 0 0xFFFFF 0xA 1 0 1 1 1.
Definition kernel_data : SegmentDescriptor := seg_new 0 0xFFFFF 0x2 1 0 1 1 1.
Definition user_code : SegmentDescriptor := seg_new 0 0xFFFFF 0xA 1 3 1 1 1.
Definition user_data : SegmentDescriptor := seg_new 0 0xFFFFF 0x2 1 3 1 1 1.

(** The descriptor [set_tss] stores. *)
Definition tss_descriptor (base limit : Z) : SegmentDescriptor :=
  let low := Z.lor (Z.land limit 0xFFFF) (shl32 (Z.land base 0xFFFF) 16) in
  let high :=
    Z.lor (Z.lor (Z.lor (Z.lor
      (Z.land (Z.shiftr base 16) 0xFF)
      (shl32 0x9 8))
      (shl32 1 15))
      (shl32 (Z.land (Z.shiftr limit 16) 0xF) 16))
      (shl32 (Z.land (Z.shiftr base 24) 0xFF) 24) in
  mkSeg low high.

(** The processor's registers that these files load. *)
Record Cpu := mkCpu {
  GDT : list SegmentDescriptor;
  gdtr_limit : Z;
  seg_cs : Z;
  seg_data : Z;
  task_register : Z;
}.

Definition with_gdt (g : list SegmentDescriptor) (c : Cpu) : Cpu := mkCpu g (gdtr_limit c) (seg_cs c) (seg_data c) (task_register c).

Definition set_tss (base limit : Z) : M Cpu unit :=
  let! g := gets GDT in
  let! g := index_set g 5 (tss_descriptor base limit) in
  modify (with_gdt g).

Definition gdt_init : M Cpu unit :=
  modify (fun c => mkCpu [seg_null; kernel_code; kernel_data; user_code; user_data; seg_null]
                     (Z.of_nat GDT_COUNT * 8 - 1) SEL_KCSEG SEL_KDSEG (task_register c)).

(** ** The task state: userprog/tss.rs *)
(** [struct Tss] is packed: its size and the offsets of the fields that are used. *)
Definition TSS_SIZE : Z := 104.
Definition esp0_at : Z := 4.
Definition ss0_at : Z := 8.
Definition bitmap_at : Z := 102.

Record TssState := mkTssState { tss_cpu : Cpu; TSS_PTR : Z; tss_mem : Mem }.
Definition tss_on_cpu {A} (m : M Cpu A) : M TssState A :=
  zoom tss_cpu (fun c s => mkTssState c (TSS_PTR s) (tss_mem s)) m.
Definition tss_store (f : Mem -> Mem) : M TssState unit :=
  modify (fun s => mkTssState (tss_cpu s) (TSS_PTR s) (f (tss_mem s))).
Definition write_half (a v : Z) (m : Mem) : Mem := store (a + 1) (Z.shiftr v 8 mod 256) (store a (v mod 256) m).

(** [update]: the kernel stack of [running_thread]. *)
Definition tss_update (running_thread : Z) : M TssState unit :=
  let! p := gets TSS_PTR in
  if p =? 0 then ret tt
  else
    let! top := u32_add running_thread PGSIZE in
    tss_store (Memory.write_u32 (p + esp0_at) top).

(** [init], on the zeroed page [tss] that the page allocator gave. *)
Definition tss_init (tss running_thread : Z) : M TssState unit :=
  tss_store (write_half (tss + ss0_at) SEL_KDSEG) ;;
  tss_store (write_half (tss + bitmap_at) 0xDFFF) ;;
  modify (fun s => mkTssState (tss_cpu s) tss (tss_mem s)) ;;
  tss_on_cpu (set_tss tss (TSS_SIZE - 1)) ;;
  tss_on_cpu (modify (fun c => mkCpu (GDT c) (gdtr_limit c) (seg_cs c) (seg_data c) SEL_TSS)) ;;
  tss_update running_thread.

(** ** Interrupts: arch/idt.rs *)
Definition PIC0_CTRL : Port := mkPort 0x20.
Definition PIC0_DATA : Port := mkPort 0x21.
Definition PIC1_CTRL : Port := mkPort 0xA0.
Definition PIC1_DATA : Port := mkPort 0xA1.
Definition PIC_EOI : Z := 0x20.
Definition IRQ_BASE : Z := 0x20.

Inductive GateType : Set := Interrupt | Trap.
Definition gate_code (g : GateType) : Z := match g with Interrupt => 14 | Trap => 15 end.

Record IdtGate : Set := mkGate { gate_low : Z; gate_high : Z }.
Definition gate_null : IdtGate := mkGate 0 0.
Definition gate_new (offset selector dpl : Z) (gate_type : GateType) : IdtGate :=
  mkGate (Z.lor (Z.land offset 0xFFFF) (shl32 selector 16))
    (Z.lor (Z.lor (Z.lor (Z.land offset 0xFFFF0000) (Z.shiftl 1 15)) (shl32 (Z.land dpl 3) 13)) (shl32 (Z.land (gate_code gate_type) 0xF) 8)).

(** The functions the kernel registers. *)
Inductive Handler : Set :=
| timer_interrupt | keyboard_interrupt | serial_interrupt | ide_interrupt_ch0 | ide_interrupt_ch1
| exception_kill | page_fault | syscall_handler.

Record HandlerEntry : Set := mkEntry { handler : option Handler; e_name : string; e_level : bool }.
Definition entry_empty : HandlerEntry := mkEntry None "unknown" false.

Record Idt := mkIdt { HANDLERS : list HandlerEntry; IDT : list IdtGate }.
Definition idt_boot : Idt := mkIdt (replicate 256 entry_empty) (replicate 256 gate_null).
Definition with_handlers (h : list HandlerEntry) (s : Idt) : Idt := mkIdt h (IDT s).
Definition with_idt (g : list IdtGate) (s : Idt) : Idt := mkIdt (HANDLERS s) g.

Section idt.
(** The entry points of the assembly stubs. *)
Context (intr_stubs : list Z).

Definition register_handler (vec_no dpl : Z) (level : bool) (h : Handler) (name : string) : M Idt unit :=
  let! stub_addr := index intr_stubs vec_no in
  let! g := gets IDT in
  let! g := index_set g vec_no (gate_new stub_addr SEL_KCSEG dpl Interrupt) in
  modify (with_idt g) ;;
  let! hs := gets HANDLERS in
  let! hs := index_set hs vec_no (mkEntry (Some h) name level) in
  modify (with_handlers hs).

Definition register_int : Z -> Z -> bool -> Handler -> string -> M Idt unit := register_handler.

(** [irq] is an [u8], as is the sum. *)
Definition register_ext (irq : Z) (h : Handler) (name : string) : M Idt unit :=
  assert (IRQ_BASE + irq <? 256) "attempt to add with overflow" ;;
  let! hs := gets HANDLERS in
  let! hs := index_set hs (IRQ_BASE + irq) (mkEntry (Some h) name false) in
  modify (with_handlers hs).

(** The table [init] builds; [pic_init] is below. *)
Definition build_idt : M Idt unit :=
  for_each (range 0 256) (fun i =>
    let! stub_addr := index intr_stubs i in
    let! g := gets IDT in
    let! g := index_set g i (gate_new stub_addr SEL_KCSEG 0 Interrupt) in
    modify (with_idt g)).
End idt.

Section pic.
Context {C : Type} `{!PortIO C}.

Definition pic_init : M C unit :=
  write_u8 PIC0_CTRL 0x11 ;;
  write_u8 PIC1_CTRL 0x11 ;;
  write_u8 PIC0_DATA IRQ_BASE ;;
  write_u8 PIC1_DATA (IRQ_BASE + 8) ;;
  write_u8 PIC0_DATA 0x04 ;;
  write_u8 PIC1_DATA 0x02 ;;
  write_u8 PIC0_DATA 0x01 ;;
  write_u8 PIC1_DATA 0x01 ;;
  write_u8 PIC0_DATA 0xFF ;;
  write_u8 PIC1_DATA 0xFF.

Definition pic_unmask (irq : Z) : M C unit :=
  if irq <? 8 then
    let! mask := read_u8 PIC0_DATA in
    write_u8 PIC0_DATA (Z.land mask (not_w 8 (Z.shiftl 1 irq)))
  else
    assert (irq - 8 <? 8) "attempt to shift left with overflow" ;;
    let! mask := read_u8 PIC1_DATA in
    write_u8 PIC1_DATA (Z.land mask (not_w 8 (Z.shiftl 1 (irq - 8)))) ;;
    let! master_mask := read_u8 PIC0_DATA in
    write_u8 PIC0_DATA (Z.land master_mask (not_w 8 (Z.shiftl 1 2))).

(** The end of an external interrupt. *)
Definition send_eoi (vec_no : Z) : M C unit :=
  (if IRQ_BASE + 8 <=? vec_no then write_u8 PIC1_CTRL PIC_EOI else ret tt) ;;
  write_u8 PIC0_CTRL PIC_EOI.
End pic.

(** ** The handlers the kernel registers, in the order of [main] *)
Section boot.
Context (intr_stubs : list Z).

(** userprog/exception.rs and userprog/syscall.rs *)
Definition exception_init : M Idt unit :=
  register_int intr_stubs 0 0 true exception_kill "#DE Divide Error" ;;
  register_int intr_stubs 6 0 true exception_kill "#UD Invalid Opcode" ;;
  register_int intr_stubs 13 0 true exception_kill "#GP General Protection" ;;
  register_int intr_stubs 14 0 false page_fault "#PF Page Fault".
Definition syscall_init : M Idt unit := register_int intr_stubs 0x80 3 true syscall_handler "syscall".

(** All of them: [idt::init], the exceptions, the system call, and the devices. *)
Definition boot_handlers : M Idt unit :=
  build_idt intr_stubs ;;
  exception_init ;;
  syscall_init ;;
  register_ext 0 timer_interrupt "8254 Timer" ;;
  register_ext 1 keyboard_interrupt "keyboard" ;;
  register_ext 4 serial_interrupt "serial" ;;
  register_ext 14 ide_interrupt_ch0 "ide0" ;;
  register_ext 15 ide_interrupt_ch1 "ide1".
End boot.

(** ** What the processor reads *)
(** Fields side by side. *)
Lemma lor_shl32 x y n : 0 <= n -> 0 <= x < 2 ^ n -> 0 <= y -> y * 2 ^ n < u32_lim -> Z.lor x (shl32 y n) = x + y * 2 ^ n.
Proof.
  intros Hn Hx Hy Hlt. unfold shl32. rewrite as_u32_small by (rewrite Z.shiftl_mul_pow2 by done; pose proof (Z.pow_pos_nonneg 2 n); nia).
  rewrite Z.shiftl_mul_pow2 by done. rewrite <- (Z.add_lor_land x). cut (Z.land x (y * 2 ^ n) = 0); [lia|].
  apply Z.bits_inj'. intros k Hk. rewrite Z.land_spec, Z.bits_0. destruct (decide (k < n)).
  - rewrite Z.mul_pow2_bits_low by lia. apply andb_false_r.
  - rewrite <- (Z.mod_small x (2 ^ n)) by done. by rewrite Z.mod_pow2_bits_high by lia.
Qed.

Lemma land_ones_mod x k m : 0 <= k -> m = 2 ^ k - 1 -> Z.land x m = x mod 2 ^ k.
Proof. intros Hk ->. rewrite <- Z.land_ones by done. f_equal. rewrite Z.ones_equiv. lia. Qed.

Ltac low_bits :=
  repeat match goal with
  | |- context [Z.land ?x 0xFFFF] => rewrite (land_ones_mod x 16 0xFFFF) by done
  | |- context [Z.land ?x 0xFF] => rewrite (land_ones_mod x 8 0xFF) by done
  | |- context [Z.land ?x 0xF] => rewrite (land_ones_mod x 4 0xF) by done
  | |- context [Z.land ?x 3] => rewrite (land_ones_mod x 2 3) by done
  | |- context [Z.land ?x 1] => rewrite (land_ones_mod x 1 1) by done
  end.

(** ** Segments *)
Definition seg_base (d : SegmentDescriptor) : Z := seg_low d / 2 ^ 16 + 2 ^ 16 * (seg_high d mod 2 ^ 8) + 2 ^ 24 * (seg_high d / 2 ^ 24).
Definition seg_limit (d : SegmentDescriptor) : Z := seg_low d mod 2 ^ 16 + 2 ^ 16 * (seg_high d / 2 ^ 16 mod 16).
Definition field (d : SegmentDescriptor) (at_ width : Z) : Z := seg_high d / 2 ^ at_ mod 2 ^ width.

(** The two words of a descriptor, as sums of their fields. *)
Lemma seg_new_words base limit seg_type s dpl present db granularity :
  in_u32 base -> 0 <= limit < 2 ^ 20 -> 0 <= seg_type < 16 -> 0 <= s < 2 -> 0 <= dpl < 4 -> 0 <= present < 2 -> 0 <= db < 2 -> 0 <= granularity < 2 ->
  seg_low (seg_new base limit seg_type s dpl present db granularity) = limit mod 2 ^ 16 + base mod 2 ^ 16 * 2 ^ 16 /\
  seg_high (seg_new base limit seg_type s dpl present db granularity) =
    base / 2 ^ 16 mod 2 ^ 8 + seg_type * 2 ^ 8 + s * 2 ^ 12 + dpl * 2 ^ 13 + present * 2 ^ 15 + limit / 2 ^ 16 * 2 ^ 16 +
    db * 2 ^ 22 + granularity * 2 ^ 23 + base / 2 ^ 24 * 2 ^ 24.
Proof.
  intros Hb Hl Ht Hs Hd Hp Hdb Hg. unfold in_u32, u32_lim in Hb. unfold seg_new. cbn [seg_low seg_high]. low_bits. rewrite !Z.shiftr_div_pow2 by done.
  rewrite (Z.mod_small seg_type), (Z.mod_small s), (Z.mod_small dpl), (Z.mod_small present), (Z.mod_small db), (Z.mod_small granularity) by (simpl; lia).
  assert (0 <= base mod 2 ^ 16 < 2 ^ 16) by (apply Z.mod_pos_bound; lia). assert (0 <= limit mod 2 ^ 16 < 2 ^ 16) by (apply Z.mod_pos_bound; lia).
  assert (0 <= base / 2 ^ 16 mod 2 ^ 8 < 2 ^ 8) by (apply Z.mod_pos_bound; lia).
  assert (0 <= limit / 2 ^ 16 < 16) by (Z.div_mod_to_equations; lia). assert (0 <= base / 2 ^ 24 < 2 ^ 8) by (Z.div_mod_to_equations; lia).
  rewrite (Z.mod_small (limit / 2 ^ 16)), (Z.mod_small (base / 2 ^ 24)) by (simpl in *; lia).
  split; [by rewrite lor_shl32 by (unfold u32_lim; simpl in *; lia)|].
  rewrite (lor_shl32 _ seg_type 8) by (unfold u32_lim; simpl in *; lia).
  rewrite (lor_shl32 _ s 12) by (unfold u32_lim; simpl in *; lia).
  rewrite (lor_shl32 _ dpl 13) by (unfold u32_lim; simpl in *; lia).
  rewrite (lor_shl32 _ present 15) by (unfold u32_lim; simpl in *; lia).
  rewrite (lor_shl32 _ (limit / 2 ^ 16) 16) by (unfold u32_lim; simpl in *; lia).
  rewrite (lor_shl32 _ db 22) by (unfold u32_lim; simpl in *; lia).
  rewrite (lor_shl32 _ granularity 23) by (unfold u32_lim; simpl in *; lia).
  by rewrite (lor_shl32 _ (base / 2 ^ 24) 24) by (unfold u32_lim; simpl in *; lia).
Qed.

(** A descriptor decodes to what it was made of. *)
Theorem segment_decodes base limit seg_type s dpl present db granularity :
  in_u32 base -> 0 <= limit < 2 ^ 20 -> 0 <= seg_type < 16 -> 0 <= s < 2 -> 0 <= dpl < 4 -> 0 <= present < 2 -> 0 <= db < 2 -> 0 <= granularity < 2 ->
  let d := seg_new base limit seg_type s dpl present db granularity in
  seg_base d = base /\ seg_limit d = limit /\ field d 8 4 = seg_type /\ field d 12 1 = s /\ field d 13 2 = dpl /\ field d 15 1 = present /\
  field d 22 1 = db /\ field d 23 1 = granularity.
Proof.
  intros Hb Hl Ht Hs Hd Hp Hdb Hg. cbv zeta. destruct (seg_new_words _ _ _ _ _ _ _ _ Hb Hl Ht Hs Hd Hp Hdb Hg) as [E1 E2].
  unfold seg_base, seg_limit, field. rewrite E1, E2. unfold in_u32, u32_lim in Hb.
  assert (base / 2 ^ 16 mod 2 ^ 8 = base / 2 ^ 16 - 2 ^ 8 * (base / 2 ^ 24)) as -> by (simpl; Z.div_mod_to_equations; lia).
  assert (0 <= base / 2 ^ 24 < 2 ^ 8) by (Z.div_mod_to_equations; lia). assert (0 <= limit / 2 ^ 16 < 16) by (Z.div_mod_to_equations; lia).
  assert (0 <= base / 2 ^ 16 - 2 ^ 8 * (base / 2 ^ 24) < 2 ^ 8) by (Z.div_mod_to_equations; lia).
  change (2 ^ 8) with 256 in *. change (2 ^ 16) with 65536 in *. change (2 ^ 24) with 16777216 in *. change (2 ^ 12) with 4096.
  change (2 ^ 13) with 8192. change (2 ^ 15) with 32768. change (2 ^ 22) with 4194304. change (2 ^ 23) with 8388608.
  change (2 ^ 4) with 16. change (2 ^ 2) with 4. change (2 ^ 1) with 2. change (2 ^ 20) with 1048576 in *. change (2 ^ 32) with 4294967296 in *.
  clear E1 E2. remember (base / 65536 - 256 * (base / 16777216)) as bm eqn:Ebm. remember (base / 16777216) as bh eqn:Ebh. remember (limit / 65536) as lh eqn:Elh.
  split_and!.
  - assert (base = base mod 65536 + 65536 * bm + 16777216 * bh) as Eb by (Z.div_mod_to_equations; lia).
    assert (0 <= base mod 65536 < 65536) by (apply Z.mod_pos_bound; lia). assert (0 <= limit mod 65536 < 65536) by (apply Z.mod_pos_bound; lia).
    remember (base mod 65536) as bl. remember (limit mod 65536) as ll. clear Heqbl Heqll Ebm Ebh Elh. subst base. Z.div_mod_to_equations. lia.
  - assert (limit = limit mod 65536 + 65536 * lh) as El by (Z.div_mod_to_equations; lia).
    assert (0 <= limit mod 65536 < 65536) by (apply Z.mod_pos_bound; lia).
    remember (base mod 65536) as bl. remember (limit mod 65536) as ll. clear Heqbl Heqll Ebm Ebh Elh. subst limit. Z.div_mod_to_equations. lia.
  - clear Ebm Ebh Elh. Z.div_mod_to_equations. lia.
  - clear Ebm Ebh Elh. Z.div_mod_to_equations. lia.
  - clear Ebm Ebh Elh. Z.div_mod_to_equations. lia.
  - clear Ebm Ebh Elh. Z.div_mod_to_equations. lia.
  - clear Ebm Ebh Elh. Z.div_mod_to_equations. lia.
  - clear Ebm Ebh Elh. Z.div_mod_to_equations. lia.
Qed.

(** The task state's descriptor is one of a system segment. *)
Lemma tss_descriptor_is base limit : 0 <= limit < 2 ^ 16 -> tss_descriptor base limit = seg_new base limit 9 0 0 1 0 0.
Proof. intros Hl. unfold tss_descriptor, seg_new. cbn [Z.land]. change (shl32 0 12) with 0. change (shl32 0 13) with 0. change (shl32 0 22) with 0. change (shl32 0 23) with 0. by rewrite !Z.lor_0_r. Qed.

(** ** Gates *)
Definition gate_offset (g : IdtGate) : Z := gate_low g mod 2 ^ 16 + 2 ^ 16 * (gate_high g / 2 ^ 16).
Definition gate_selector (g : IdtGate) : Z := gate_low g / 2 ^ 16.
Definition gate_type (g : IdtGate) : Z := gate_high g / 2 ^ 8 mod 2 ^ 5.
Definition gate_dpl (g : IdtGate) : Z := gate_high g / 2 ^ 13 mod 2 ^ 2.
Definition gate_present (g : IdtGate) : Z := gate_high g / 2 ^ 15 mod 2.

Lemma land_high_half x : in_u32 x -> Z.land x 0xFFFF0000 = shl32 (x / 2 ^ 16) 16.
Proof.
  unfold in_u32, u32_lim. intros Hx. unfold shl32. rewrite as_u32_small by (rewrite Z.shiftl_mul_pow2 by done; unfold u32_lim; simpl; Z.div_mod_to_equations; lia).
  rewrite <- Z.shiftr_div_pow2 by done. change 0xFFFF0000 with (Z.shiftl (Z.ones 16) 16). apply Z.bits_inj'. intros k Hk.
  rewrite Z.land_spec, !Z.shiftl_spec by done. destruct (decide (k < 16)).
  - rewrite !(Z.testbit_neg_r _ (k - 16)) by lia. apply andb_false_r.
  - rewrite Z.shiftr_spec by lia. replace (k - 16 + 16) with k by lia. destruct (decide (k < 32)).
    + rewrite Z.ones_spec_low by lia. apply andb_true_r.
    + rewrite Z.ones_spec_high by lia. rewrite andb_false_r. rewrite <- (Z.mod_small x (2 ^ 32)) by done. by rewrite Z.mod_pow2_bits_high by lia.
Qed.

Lemma gate_new_words offset selector dpl t :
  in_u32 offset -> 0 <= selector < 2 ^ 16 -> 0 <= dpl < 4 ->
  gate_low (gate_new offset selector dpl t) = offset mod 2 ^ 16 + selector * 2 ^ 16 /\
  gate_high (gate_new offset selector dpl t) = gate_code t * 2 ^ 8 + dpl * 2 ^ 13 + 1 * 2 ^ 15 + offset / 2 ^ 16 * 2 ^ 16.
Proof.
  intros Ho Hs Hd. unfold gate_new. cbn [gate_low gate_high]. rewrite (land_high_half offset Ho). low_bits. unfold in_u32, u32_lim in Ho.
  assert (0 <= offset mod 2 ^ 16 < 2 ^ 16) by (apply Z.mod_pos_bound; lia). assert (0 <= offset / 2 ^ 16 < 2 ^ 16) by (Z.div_mod_to_equations; lia).
  assert (0 <= gate_code t < 16) by (by destruct t). split; [by rewrite lor_shl32 by (unfold u32_lim; simpl in *; lia)|].
  rewrite (Z.mod_small dpl), (Z.mod_small (gate_code t)) by (simpl; lia). change (Z.shiftl 1 15) with (shl32 1 15).
  rewrite Z.lor_comm, (Z.lor_comm (Z.lor _ (shl32 1 15))), Z.lor_assoc, (Z.lor_comm (shl32 (offset / 2 ^ 16) 16)), !Z.lor_assoc.
  rewrite <- (Z.lor_0_l (shl32 (gate_code t) 8)).
  rewrite (lor_shl32 0 (gate_code t) 8) by (unfold u32_lim; simpl in *; lia). rewrite Z.add_0_l.
  rewrite (lor_shl32 _ dpl 13) by (unfold u32_lim; simpl in *; lia).
  rewrite (lor_shl32 _ 1 15) by (unfold u32_lim; simpl in *; lia).
  by rewrite (lor_shl32 _ (offset / 2 ^ 16) 16) by (unfold u32_lim; simpl in *; lia).
Qed.

(** A gate decodes to what it was made of. *)
Theorem gate_decodes offset selector dpl t :
  in_u32 offset -> 0 <= selector < 2 ^ 16 -> 0 <= dpl < 4 ->
  let g := gate_new offset selector dpl t in
  gate_offset g = offset /\ gate_selector g = selector /\ gate_type g = gate_code t /\ gate_dpl g = dpl /\ gate_present g = 1.
Proof.
  intros Ho Hs Hd. cbv zeta. destruct (gate_new_words offset selector dpl t Ho Hs Hd) as [E1 E2].
  unfold gate_offset, gate_selector, gate_type, gate_dpl, gate_present. rewrite E1, E2. clear E1 E2. unfold in_u32, u32_lim in Ho.
  assert (0 <= gate_code t < 16) by (by destruct t). simpl in *. split_and!; Z.div_mod_to_equations; lia.
Qed.

(** ** The table after boot *)
Section boot.
Context (stubs : list Z) (Hlen : length stubs = 256%nat) (Hstubs : Forall in_u32 stubs).

Definition stub_gate (dpl a : Z) : IdtGate := gate_new a SEL_KCSEG dpl Interrupt.

Lemma wp_build_idt (s : Idt) (Q : unit -> Idt -> Prop) :
  length (IDT s) = 256%nat -> Q tt (with_idt (stub_gate 0 <$> stubs) s) -> wp (build_idt stubs) s Q.
Proof.
  intros Hl HQ. apply (wp_for_range (fun i s' => s' = with_idt ((stub_gate 0 <$> take (Z.to_nat i) stubs) ++ drop (Z.to_nat i) (IDT s)) s)); [done|by destruct s| |].
  - intros i s' Hi ->. destruct (lookup_lt_is_Some_2 stubs (Z.to_nat i)) as [a Ha]; [lia|].
    apply wp_bind. eapply wp_index; [lia|exact Ha|]. apply wp_bind, wp_gets, wp_bind, wp_index_set.
    { simpl. rewrite length_app, length_fmap, length_take, length_drop. lia. }
    apply wp_modify. unfold with_idt. simpl. f_equal. replace (Z.to_nat (i + 1)) with (S (Z.to_nat i)) by lia.
    rewrite (take_S_r _ _ _ Ha), fmap_app, <- app_assoc. rewrite insert_app_r_alt by (rewrite length_fmap, length_take; lia).
    rewrite length_fmap, length_take, Nat.min_l, Nat.sub_diag by lia. f_equal.
    destruct (lookup_lt_is_Some_2 (IDT s) (Z.to_nat i)) as [g Hg]; [lia|]. by rewrite (drop_S _ _ _ Hg).
  - intros s' ->. replace (Z.to_nat 256) with 256%nat by done. rewrite take_ge, drop_ge, app_nil_r by lia. done.
Qed.

Lemma wp_register_int v dpl level h name (s : Idt) a (Q : unit -> Idt -> Prop) :
  0 <= v < 256 -> stubs !! Z.to_nat v = Some a -> length (IDT s) = 256%nat -> length (HANDLERS s) = 256%nat ->
  Q tt (mkIdt (<[Z.to_nat v := mkEntry (Some h) name level]> (HANDLERS s)) (<[Z.to_nat v := stub_gate dpl a]> (IDT s))) ->
  wp (register_int stubs v dpl level h name) s Q.
Proof.
  intros Hv Ha Hi Hh HQ. apply wp_bind. eapply wp_index; [lia|exact Ha|].
  apply wp_bind, wp_gets, wp_bind, wp_index_set; [lia|]. apply wp_bind, wp_modify, wp_bind, wp_gets, wp_bind, wp_index_set; [simpl; lia|].
  by apply wp_modify.
Qed.

(** Registering a kernel-only gate again changes the handler only. *)
Lemma wp_register_kernel v level h name (s : Idt) (Q : unit -> Idt -> Prop) :
  0 <= v < 256 -> IDT s = stub_gate 0 <$> stubs -> length (HANDLERS s) = 256%nat ->
  Q tt (with_handlers (<[Z.to_nat v := mkEntry (Some h) name level]> (HANDLERS s)) s) ->
  wp (register_int stubs v 0 level h name) s Q.
Proof.
  intros Hv Ei Hh HQ. destruct (lookup_lt_is_Some_2 stubs (Z.to_nat v)) as [a Ha]; [lia|].
  eapply wp_register_int; [done|exact Ha|by rewrite Ei, length_fmap|done|]. rewrite (list_insert_id (IDT s)); [done|]. by rewrite Ei, list_lookup_fmap, Ha.
Qed.

End boot.

Lemma wp_register_ext irq h name (s : Idt) (Q : unit -> Idt -> Prop) :
  0 <= irq < 16 -> length (HANDLERS s) = 256%nat ->
  Q tt (with_handlers (<[Z.to_nat (IRQ_BASE + irq) := mkEntry (Some h) name false]> (HANDLERS s)) s) -> wp (register_ext irq h name) s Q.
Proof.
  intros Hi Hh HQ. unfold IRQ_BASE in *. apply wp_bind, wp_assert; [unfold IRQ_BASE; lia|]. apply wp_bind, wp_gets, wp_bind, wp_index_set; [unfold IRQ_BASE; lia|].
  by apply wp_modify.
Qed.

(** The handler of each vector. *)
Definition boot_entry (v : Z) : option Handler :=
  if (v =? 0) || (v =? 6) || (v =? 13) then Some exception_kill
  else if v =? 14 then Some page_fault
  else if v =? 0x20 then Some timer_interrupt
  else if v =? 0x21 then Some keyboard_interrupt
  else if v =? 0x24 then Some serial_interrupt
  else if v =? 0x2E then Some ide_interrupt_ch0
  else if v =? 0x2F then Some ide_interrupt_ch1
  else if v =? 0x80 then Some syscall_handler
  else None.

(** C21: user programs enter the kernel through system calls only.  After the kernel has built its
    interrupt table and registered its handlers, each of the 256 gates, read as the processor reads
    it, is present, leads to its assembly stub in the kernel's code segment and turns interrupts
    off; only the gate of vector 0x80 may be used by user programs, all others raise a protection
    fault there; and the handlers are those of the exceptions, the system call and the devices. *)
Theorem only_syscall_gate (stubs : list Z) :
  length stubs = 256%nat -> Forall in_u32 stubs ->
  wp (boot_handlers stubs) idt_boot (fun _ s =>
    length (IDT s) = 256%nat /\
    (forall v g, IDT s !! v = Some g -> stubs !! v = Some (gate_offset g) /\ gate_selector g = SEL_KCSEG /\
       gate_type g = gate_code Interrupt /\ gate_present g = 1 /\ gate_dpl g = (if decide (v = 128%nat) then 3 else 0)) /\
    handler <$> HANDLERS s = boot_entry <$> seqZ 0 256).
Proof.
  intros Hl HF. apply wp_bind, wp_build_idt; [done|done|].
  apply wp_bind, wp_bind, (wp_register_kernel stubs Hl); [done..|].
  apply wp_bind, (wp_register_kernel stubs Hl); [done..|].
  apply wp_bind, (wp_register_kernel stubs Hl); [done..|].
  apply (wp_register_kernel stubs Hl); [done..|]. simpl HANDLERS.
  destruct (lookup_lt_is_Some_2 stubs 128) as [a Ha]; [lia|].
  apply wp_bind. eapply (wp_register_int stubs Hl); [done|exact Ha|simpl; by rewrite length_fmap|done|]. cbn [with_handlers with_idt HANDLERS IDT].
  do 4 (apply wp_bind, wp_register_ext; [done|done|]; cbn [with_handlers HANDLERS IDT]). apply wp_register_ext; [done|done|]. cbn [with_handlers HANDLERS IDT].
  split_and!; [by rewrite length_insert, length_fmap| |by vm_compute].
  intros v g Hg. assert (exists a dpl, stubs !! v = Some a /\ g = stub_gate dpl a /\ dpl = (if decide (v = 128%nat) then 3 else 0)) as (b & dpl & Hb & -> & ->).
  { apply list_lookup_insert_Some in Hg as [(<- & <- & _)|(Hne & Hg)]; [by exists a, 3|].
    rewrite list_lookup_fmap in Hg. destruct (stubs !! v) as [b|] eqn:Eb; [|done]. injection Hg as <-. exists b, 0. rewrite decide_False; [done|]. by intros ->. }
  pose proof (Forall_lookup_1 _ _ _ _ HF Hb) as Hu. unfold stub_gate.
  destruct (gate_decodes b SEL_KCSEG (if decide (v = 128%nat) then 3 else 0) Interrupt Hu) as (-> & -> & -> & -> & ->); [done|by case_decide|done].
Qed.

Lemma only_syscall_gate_witness :
  wp (boot_handlers (seqZ 0xC0100000 256)) idt_boot (fun _ s => gate_dpl <$> IDT s !! 128%nat = Some 3).
Proof.
  eapply wp_mono.
  - apply (only_syscall_gate (seqZ 0xC0100000 256)); [done|]. apply Forall_forall. intros x Hx. apply elem_of_seqZ in Hx. unfold in_u32, u32_lim. lia.
  - intros _ s (Hl & H & _). destruct (lookup_lt_is_Some_2 (IDT s) 128) as [g Hg]; [lia|]. rewrite Hg. simpl. f_equal.
    destruct (H _ _ Hg) as (_ & _ & _ & _ & ->). done.
Defined.

(** ** Segments and stacks *)

(** The segments are flat: base 0 and 4 GB; a selector's descriptor has the privilege the selector asks for. *)
Example flat_segments :
  forallb (fun '(sel, code) =>
    match [seg_null; kernel_code; kernel_data; user_code; user_data; seg_null] !! Z.to_nat (sel / 8) with
    | Some d => (seg_base d =? 0) && (seg_limit d =? 0xFFFFF) && (field d 23 1 =? 1) && (field d 15 1 =? 1) && (field d 12 1 =? 1) &&
                (field d 8 4 =? (if code : bool then 0xA else 0x2)) && (field d 13 2 =? sel mod 4)
    | None => false
    end) [(SEL_KCSEG, true); (SEL_KDSEG, false); (SEL_UCSEG, true); (SEL_UDSEG, false)] = true.
Proof. reflexivity. Qed.

Lemma half_store a v m x : 0 <= v < 2 ^ 16 -> write_half a v m x = if decide (x = a) then v mod 256 else if decide (x = a + 1) then v / 256 else m x.
Proof.
  intros Hv. unfold write_half, store. rewrite Z.shiftr_div_pow2 by done. change (2 ^ 8) with 256.
  rewrite (Z.mod_small (v / 256)) by (simpl in *; Z.div_mod_to_equations; lia). repeat case_decide; try done; lia.
Qed.

(** The task register selects a descriptor of the task state, in which the processor finds the
    kernel stack: the end of the running thread's page, in the kernel's data segment. *)
Theorem kernel_stack_found (s : TssState) (tss th : Z) :
  in_u32 tss -> tss <> 0 -> 0 <= th -> th + PGSIZE < u32_lim ->
  wp (tss_on_cpu gdt_init ;; tss_init tss th) s (fun _ s' => exists d,
    GDT (tss_cpu s') !! Z.to_nat (task_register (tss_cpu s') / 8) = Some d /\
    seg_base d = tss /\ seg_limit d = TSS_SIZE - 1 /\ field d 8 4 = 9 /\ field d 15 1 = 1 /\ field d 12 1 = 0 /\
    Memory.read_u32 (tss_mem s') (tss + esp0_at) = th + PGSIZE /\
    tss_mem s' (tss + ss0_at) + 256 * tss_mem s' (tss + ss0_at + 1) = SEL_KDSEG).
Proof.
  intros Ht Hn Hth Hlt. apply wp_bind, wp_zoom, wp_modify. unfold tss_init. do 3 apply wp_bind, wp_modify.
  apply wp_bind, wp_zoom, wp_bind, wp_gets, wp_bind, wp_index_set; [done|]. apply wp_modify. apply wp_bind, wp_zoom, wp_modify.
  apply wp_bind, wp_gets. cbn [TSS_PTR]. rewrite (proj2 (Z.eqb_neq _ _) Hn). apply wp_bind, wp_u32_add; [unfold PGSIZE in *; lia|].
  apply wp_modify. exists (tss_descriptor tss (TSS_SIZE - 1)). split; [done|]. rewrite tss_descriptor_is by done.
  destruct (segment_decodes tss (TSS_SIZE - 1) 9 0 0 1 0 0) as (-> & -> & -> & -> & _ & -> & _); try done.
  split_and!; try done; cbn [tss_mem].
  - apply read_write_u32. unfold in_u32, PGSIZE in *. lia.
  - rewrite !write_u32_frame by (unfold esp0_at, ss0_at; lia). rewrite !half_store by done. unfold ss0_at, bitmap_at.
    repeat case_decide; try lia. done.
Qed.
