(* ===== verification/Ide.v ===== *)
(** The IDE disk driver (devices/ide.rs): sector transfers by programmed I/O, completion by
    interrupt with a timeout, probing and registration of the disks. *)
From S2P Require Import Prelude Utf8 Block Ports Idt.

Definition REG_DATA : Z := 0.
Definition REG_NSECT : Z := 2.
Definition REG_LBAL : Z := 3.
Definition REG_LBAM : Z := 4.
Definition REG_LBAH : Z := 5.
Definition REG_DEVICE : Z := 6.
Definition REG_STATUS : Z := 7.
Definition REG_COMMAND : Z := 7.
Definition STA_BSY : Z := 0x80.
Definition STA_DRDY : Z := 0x40.
Definition STA_DRQ : Z := 0x08.
Definition CMD_IDENTIFY : Z := 0xEC.
Definition CMD_READ : Z := 0x20.
Definition CMD_WRITE : Z := 0x30.
Definition DEV_MBS : Z := 0xA0.
Definition DEV_LBA : Z := 0x40.
Definition DEV_DEV1 : Z := 0x10.
Definition CHANNEL_CNT : Z := 2.

Record AtaDisk := mkAta { d_name : list Z; d_channel_idx : Z; d_dev_no : Z; is_ata : bool; d_size : Z }.

(** [lock] is true while the running thread holds the channel's lock; of the semaphore
    [completion], on which no thread ever waits, the value is kept. *)
Record Channel := mkChannel {
  ch_name : list Z;
  reg_base : Z;
  irq : Z;
  lock : bool;
  expecting_interrupt : bool;
  completion : Z;
  devices : list AtaDisk;
}.
Definition with_chlock (l : bool) (c : Channel) : Channel :=
  mkChannel (ch_name c) (reg_base c) (irq c) l (expecting_interrupt c) (completion c) (devices c).
Definition with_expecting (e : bool) (c : Channel) : Channel :=
  mkChannel (ch_name c) (reg_base c) (irq c) (lock c) e (completion c) (devices c).
Definition with_completion (n : Z) (c : Channel) : Channel :=
  mkChannel (ch_name c) (reg_base c) (irq c) (lock c) (expecting_interrupt c) n (devices c).
Definition with_devices (d : list AtaDisk) (c : Channel) : Channel :=
  mkChannel (ch_name c) (reg_base c) (irq c) (lock c) (expecting_interrupt c) (completion c) d.

(** What the driver says on the console. *)
Inductive Message : Set :=
| ReadError (sector : Z) | WriteError (sector : Z) | DrqTimeout (sector : Z) | Found (name : string) (size_kb size : Z).

Record IdeBlockOps := mkOps { channel_idx : Z; dev_no : Z }.

(** The rest of the machine while a thread has yielded: the timer ticks that pass and the
    interrupts that arrive; and while it spins for some milliseconds. *)
Class Passing (C : Type) := {
  elapse : C -> (Z * list Z) * C;
  spin : Z -> C -> C;
}.

Record Ide (C : Type) := mkIde {
  CHANNELS : option (list Channel);
  ports : C;
  ticks : Z;
  messages : list Message;
  ide_idt : Idt;
  ide_registry : Registry IdeBlockOps;
}.
Arguments mkIde {C}.
Arguments CHANNELS {C}.
Arguments ports {C}.
Arguments ticks {C}.
Arguments messages {C}.
Arguments ide_idt {C}.
Arguments ide_registry {C}.

Section ide.
Context {C : Type} `{!PortIO C, !Passing C}.

Definition with_channels (l : option (list Channel)) (s : Ide C) : Ide C :=
  mkIde l (ports s) (ticks s) (messages s) (ide_idt s) (ide_registry s).
Definition with_ports (c : C) (s : Ide C) : Ide C :=
  mkIde (CHANNELS s) c (ticks s) (messages s) (ide_idt s) (ide_registry s).
Definition with_ticks (n : Z) (s : Ide C) : Ide C :=
  mkIde (CHANNELS s) (ports s) n (messages s) (ide_idt s) (ide_registry s).
Definition with_ide_idt (i : Idt) (s : Ide C) : Ide C :=
  mkIde (CHANNELS s) (ports s) (ticks s) (messages s) i (ide_registry s).
Definition with_registry (r : Registry IdeBlockOps) (s : Ide C) : Ide C :=
  mkIde (CHANNELS s) (ports s) (ticks s) (messages s) (ide_idt s) r.

Definition io {A} (m : M C A) : M (Ide C) A := zoom ports with_ports m.
Definition say (m : Message) : M (Ide C) unit :=
  modify (fun s => mkIde (CHANNELS s) (ports s) (ticks s) (messages s ++ [m]) (ide_idt s) (ide_registry s)).

(** [&mut channels[i]], where [CHANNELS] is set. *)
Definition get_channel (i : Z) : M (Ide C) Channel :=
  let! l := gets CHANNELS in
  match l with Some l => index l i | None => panic "CHANNELS is none" end.
Definition upd_channel (i : Z) (f : Channel -> Channel) : M (Ide C) unit :=
  let! l := gets CHANNELS in
  match l with
  | Some l => let! c := index l i in let! l := index_set l i (f c) in modify (with_channels (Some l))
  | None => panic "CHANNELS is none"
  end.

(** [if let Some(ref mut channels) = CHANNELS] *)
Definition if_channels {A} (none : A) (m : M (Ide C) A) : M (Ide C) A :=
  let! l := gets CHANNELS in
  match l with Some _ => m | None => ret none end.

Definition reg (base r : Z) : Port := mkPort (base + r).

(** ** Interrupts *)
Definition ide_interrupt (ch_idx : Z) : M (Ide C) unit :=
  if_channels tt (
    let! ch := get_channel ch_idx in
    if expecting_interrupt ch then
      io (read_u8 (reg (reg_base ch) REG_STATUS)) ;;
      upd_channel ch_idx (with_expecting false) ;;
      upd_channel ch_idx (fun c => with_completion (completion c + 1) c)
    else ret tt).

(** An external interrupt that reaches the processor: the handlers of this driver, then the end of
    interrupt; the other handlers do not touch the driver. *)
Definition dispatch (irq : Z) : M (Ide C) unit :=
  let! hs := gets (fun s => HANDLERS (ide_idt s)) in
  let! e := index hs (IRQ_BASE + irq) in
  match handler e with
  | Some ide_interrupt_ch0 => ide_interrupt 0
  | Some ide_interrupt_ch1 => ide_interrupt 1
  | _ => ret tt
  end ;;
  io (send_eoi (IRQ_BASE + irq)).

(** [thread::yield_current], as this thread sees it. *)
Definition yield_current : M (Ide C) unit :=
  let! x := (fun s => let '(x, c) := elapse (ports s) in Ok x (with_ports c s)) in
  let '(dt, irqs) := x in
  modify (fun s => with_ticks (ticks s + dt) s) ;;
  for_each irqs dispatch.

(** ** Waiting *)
Definition wait_not_busy (base : Z) : M (Ide C) unit :=
  io (poll (Z.to_nat 100000) (reg base REG_STATUS) (fun st => (st =? 0xFF) || (Z.land st STA_BSY =? 0))) ;;
  ret tt.

Definition wait_drdy (base : Z) : M (Ide C) bool :=
  io (poll (Z.to_nat 300000) (reg base REG_STATUS) (fun s => (Z.land s STA_BSY =? 0) && negb (Z.land s STA_DRDY =? 0))).

Definition busy_delay_ms (ms : Z) : M (Ide C) unit := io (modify (spin ms)).

(** The loop for [STA_DRQ] in [write] and [init]. *)
Definition wait_drq (base : Z) : M (Ide C) bool :=
  io (poll (Z.to_nat 100000) (reg base REG_STATUS) (fun s => negb (Z.land s STA_DRQ =? 0))).

(** Words move low byte first. *)
Fixpoint insw_loop (n : nat) (port : Port) : M (Ide C) (list Z) :=
  match n with
  | O => ret []
  | S n' =>
      let! w := io (read_u16 port) in
      let! rest := insw_loop n' port in
      ret (w mod 256 :: Z.shiftr w 8 mod 256 :: rest)
  end.
Definition insw (base : Z) : M (Ide C) (list Z) := insw_loop 256 (reg base REG_DATA).

Definition outsw (base : Z) (buf : list Z) : M (Ide C) unit :=
  for_each (range 0 256) (fun i =>
    let! lo := index buf (2 * i) in
    let! hi := index buf (2 * i + 1) in
    io (write_u16 (reg base REG_DATA) (lo + 256 * hi))).

Definition select_sector (base dev_no sector : Z) : M (Ide C) unit :=
  io (write_u8 (reg base REG_NSECT) 1) ;;
  io (write_u8 (reg base REG_LBAL) (Z.land sector 0xFF)) ;;
  io (write_u8 (reg base REG_LBAM) (Z.land (Z.shiftr sector 8) 0xFF)) ;;
  io (write_u8 (reg base REG_LBAH) (Z.land (Z.shiftr sector 16) 0xFF)) ;;
  let dev_bits := Z.lor (Z.lor (Z.lor DEV_MBS DEV_LBA) (if dev_no =? 1 then DEV_DEV1 else 0)) (Z.land (Z.shiftr sector 24) 0x0F) in
  io (write_u8 (reg base REG_DEVICE) dev_bits).

Definition select_device (base dev_no : Z) : M (Ide C) unit :=
  let dev_bits := Z.lor (Z.lor DEV_MBS DEV_LBA) (if dev_no =? 1 then DEV_DEV1 else 0) in
  io (write_u8 (reg base REG_DEVICE) dev_bits) ;;
  for_each (range 0 4) (fun _ => io (read_u8 (reg base REG_STATUS)) ;; ret tt).

Definition issue_command (ch_idx cmd : Z) : M (Ide C) unit :=
  if_channels tt (
    upd_channel ch_idx (with_expecting true) ;;
    let! ch := get_channel ch_idx in
    io (write_u8 (reg (reg_base ch) REG_COMMAND) cmd)).

(** [Semaphore::try_down] *)
Definition try_down (ch_idx : Z) : M (Ide C) bool :=
  let! ch := get_channel ch_idx in
  if 0 <? completion ch then
    upd_channel ch_idx (fun c => with_completion (completion c - 1) c) ;; ret true
  else ret false.

Section waits.
(** The number of turns of the loop in [wait_completion]: the scheduler decides how many times a
    thread can yield within a tick. *)
Context (fuel : nat).

Fixpoint wait_loop (n : nat) (ch_idx deadline : Z) : M (Ide C) bool :=
  match n with
  | O => fun _ => OutOfFuel
  | S n' =>
      let! got := try_down ch_idx in
      if got then ret true
      else
        let! now := gets ticks in
        if deadline <=? now then
          upd_channel ch_idx (with_expecting false) ;;
          ret false
        else
          yield_current ;;
          wait_loop n' ch_idx deadline
  end.

Definition wait_completion (ch_idx : Z) : M (Ide C) bool :=
  let! now := gets ticks in
  let deadline := now + 200 in
  if_channels false (wait_loop fuel ch_idx deadline).

Definition check_status (base : Z) : M (Ide C) bool :=
  let! s := io (read_u8 (reg base REG_STATUS)) in
  ret (Z.land s 0x21 =? 0).

(** ** Transfers *)
Definition lock_acquire (i : Z) : M (Ide C) unit :=
  let! ch := get_channel i in
  assert (negb (lock ch)) "lock already held" ;;
  upd_channel i (with_chlock true).
Definition lock_release (i : Z) : M (Ide C) unit :=
  let! ch := get_channel i in
  assert (lock ch) "lock not held" ;;
  upd_channel i (with_chlock false).

Definition read (self : IdeBlockOps) (sector : Z) (buf : list Z) : M (Ide C) (list Z) :=
  if_channels buf (
    let! ch := get_channel (channel_idx self) in
    let base := reg_base ch in
    lock_acquire (channel_idx self) ;;
    select_sector base (dev_no self) sector ;;
    issue_command (channel_idx self) CMD_READ ;;
    wait_completion (channel_idx self) ;;
    let! ok := check_status base in
    (if ok then ret tt else say (ReadError sector)) ;;
    let! buf := insw base in
    lock_release (channel_idx self) ;;
    ret buf).

Definition write (self : IdeBlockOps) (sector : Z) (buf : list Z) : M (Ide C) unit :=
  if_channels tt (
    let! ch := get_channel (channel_idx self) in
    let base := reg_base ch in
    lock_acquire (channel_idx self) ;;
    select_sector base (dev_no self) sector ;;
    issue_command (channel_idx self) CMD_WRITE ;;
    let! ok := check_status base in
    if negb ok then
      say (WriteError sector) ;;
      lock_release (channel_idx self)
    else
      let! have_drq := wait_drq base in
      if negb have_drq then
        say (DrqTimeout sector) ;;
        lock_release (channel_idx self)
      else
        outsw base buf ;;
        wait_completion (channel_idx self) ;;
        lock_release (channel_idx self)).

(** ** Initialisation *)
Definition hd (c : Z) : list Z := [104; 100; c; 0; 0; 0; 0; 0].
Definition DEV_NAMES : list (list Z) := [hd 97; hd 98; hd 99; hd 100].
Definition CHANNEL_NAMES : list (list Z) := [[105; 100; 101; 48; 0; 0; 0; 0]; [105; 100; 101; 49; 0; 0; 0; 0]].
Definition channel_configs : list (Z * Z * Z) := [(0x1F0, 0x3F6, 14); (0x170, 0x376, 15)].

Definition dev_name_str (ch_idx dev_idx : Z) : string :=
  if (ch_idx =? 0) && (dev_idx =? 0) then "hda"
  else if (ch_idx =? 0) && (dev_idx =? 1) then "hdb"
  else if (ch_idx =? 1) && (dev_idx =? 0) then "hdc"
  else if (ch_idx =? 1) && (dev_idx =? 1) then "hdd"
  else "hd?".
Definition bytes_of (s : string) : list Z := (fun c => Z.of_N (Ascii.N_of_ascii c)) <$> String.list_ascii_of_string s.

Definition new_channel (i : Z) : M (Ide C) Channel :=
  let! cfg := index channel_configs i in
  let '(base, _, irq) := cfg in
  let! nm := index CHANNEL_NAMES i in
  let! n0 := index DEV_NAMES (i * 2) in
  let! n1 := index DEV_NAMES (i * 2 + 1) in
  ret (mkChannel nm base irq false false 0 [mkAta n0 i 0 false 0; mkAta n1 i 1 false 0]).

(** What [init] does with a disk of [size] sectors: it is marked and registered. *)
Definition found_disk (ch_idx dev_no size : Z) : M (Ide C) unit :=
  if_channels tt (
    let! ch := get_channel ch_idx in
    let! disk := index (devices ch) dev_no in
    let! ds := index_set (devices ch) dev_no (mkAta (d_name disk) (d_channel_idx disk) (d_dev_no disk) true size) in
    upd_channel ch_idx (with_devices ds) ;;
    let name_str := dev_name_str ch_idx dev_no in
    say (Found name_str (size * BLOCK_SECTOR_SIZE / 1024) size) ;;
    zoom ide_registry with_registry (register (bytes_of name_str) Raw size (mkOps ch_idx dev_no)) ;;
    ret tt).

(** The size in the answer to IDENTIFY: words 60 and 61. *)
Definition identify_size (id_buf : list Z) : Z :=
  let size_lo := byte_at id_buf 120 + 256 * byte_at id_buf 121 in
  let size_hi := byte_at id_buf 122 + 256 * byte_at id_buf 123 in
  Z.lor (Z.shiftl size_hi 16) size_lo.

Definition probe_device (ch_idx base dev_no : Z) : M (Ide C) unit :=
  select_device base dev_no ;;
  io (write_u8 (reg base REG_NSECT) 0x55) ;;
  io (write_u8 (reg base REG_LBAL) 0xAA) ;;
  let! nsect := io (read_u8 (reg base REG_NSECT)) in
  let! lbal := io (read_u8 (reg base REG_LBAL)) in
  if negb (nsect =? 0x55) || negb (lbal =? 0xAA) then ret tt
  else
    if_channels tt (upd_channel ch_idx (with_expecting true)) ;;
    io (write_u8 (reg base REG_COMMAND) CMD_IDENTIFY) ;;
    let! done := wait_completion ch_idx in
    if negb done then ret tt
    else
      let! ok := check_status base in
      if negb ok then ret tt
      else
        let! have_drq := wait_drq base in
        if negb have_drq then ret tt
        else
          let! id_buf := insw base in
          let size := identify_size id_buf in
          if size =? 0 then ret tt else found_disk ch_idx dev_no size.

Definition probe_channel (ch_idx : Z) : M (Ide C) unit :=
  let! cfg := index channel_configs ch_idx in
  let '(base, ctrl, _) := cfg in
  let ctrl_port := mkPort ctrl in
  io (write_u8 ctrl_port (Z.lor 0x04 0x02)) ;;
  busy_delay_ms 10 ;;
  io (write_u8 ctrl_port 0x02) ;;
  busy_delay_ms 150 ;;
  io (write_u8 ctrl_port 0x00) ;;
  wait_not_busy base ;;
  for_each (range 0 2) (probe_device ch_idx base).

Definition init : M (Ide C) unit :=
  let! c0 := new_channel 0 in
  let! c1 := new_channel 1 in
  modify (with_channels (Some [c0; c1])) ;;
  zoom ide_idt with_ide_idt (register_ext 14 ide_interrupt_ch0 "ide0") ;;
  zoom ide_idt with_ide_idt (register_ext 15 ide_interrupt_ch1 "ide1") ;;
  io (pic_unmask 14) ;;
  io (pic_unmask 15) ;;
  for_each (range 0 CHANNEL_CNT) probe_channel.
End waits.
End ide.
