(* ===== verification/IdeProofs.v ===== *)
(** Transfers of the IDE driver: what the driver relies on from the controller and the disks, and
    the proof that it then reads and writes sectors. *)
From S2P Require Import Prelude Utf8 Block Ports Idt Ide.

(** ** The controller, as the ATA standard describes it *)

(** A channel's transfer.  A list of delays says how many timer ticks pass at each of the next
    yields until the interrupt comes with the last one. *)
Inductive phase : Set :=
| Idle
| Seeking (data delays : list Z)  (* a read is under way *)
| DataIn (data : list Z)          (* these bytes are still to be read *)
| Preparing (sts : list Z)        (* a write was accepted; these are the status bytes until data is taken *)
| DataOut (got : list Z)          (* these bytes have been received *)
| Storing (data delays : list Z). (* the sector is being stored *)

(** A channel's registers. *)
Record regs : Set := mkRegs { nsect : Z; lbal : Z; lbam : Z; lbah : Z; device : Z; ph : phase }.
Definition set_phase (p : phase) (w : regs) : regs := mkRegs (nsect w) (lbal w) (lbam w) (lbah w) (device w) p.
Definition set_reg (r v : Z) (w : regs) : regs :=
  if r =? 2 then mkRegs v (lbal w) (lbam w) (lbah w) (device w) (ph w)
  else if r =? 3 then mkRegs (nsect w) v (lbam w) (lbah w) (device w) (ph w)
  else if r =? 4 then mkRegs (nsect w) (lbal w) v (lbah w) (device w) (ph w)
  else if r =? 5 then mkRegs (nsect w) (lbal w) (lbam w) v (device w) (ph w)
  else mkRegs (nsect w) (lbal w) (lbam w) (lbah w) v (ph w).
Definition lba (w : regs) : Z := lbal w + 2 ^ 8 * lbam w + 2 ^ 16 * lbah w + 2 ^ 24 * (device w mod 16).
Definition slave (w : regs) : bool := Z.testbit (device w) 4.

Definition base_of (i : Z) : Z := if i =? 0 then 0x1F0 else 0x170.
Definition irq_of (i : Z) : Z := 14 + i.
Definition is_channel (i : Z) : Prop := i = 0 \/ i = 1.
Definition sum (l : list Z) : Z := foldr Z.add 0 l.

(** The sectors of the disks: by channel, slave or master, and number. *)
Definition disks : Type := Z -> bool -> Z -> list Z.
Definition put_sector (i : Z) (d : bool) (s : Z) (b : list Z) (m : disks) : disks :=
  fun i' d' s' => if decide (i' = i /\ d' = d /\ s' = s) then b else m i' d' s'.

(** What the driver relies on.  [view] is a channel's state, [medium] the contents of the disks,
    [capacity] their sizes and [patience] bounds the yields until a disk answers, which it does
    within two seconds. *)
Class AtaView (C : Type) := {
  view : C -> Z -> regs;
  medium : C -> disks;
  capacity : Z -> bool -> Z;
  patience : nat;
}.

Section laws.
Context {C : Type} `{!PortIO C, !Passing C, !AtaView C}.

(** [c'] is [c] with channel [i] in state [w] and the disks [m]. *)
Definition moves (c : C) (i : Z) (w : regs) (m : disks) (c' : C) : Prop :=
  (forall j, view c' j = if decide (j = i) then w else view c j) /\ (forall j d s, medium c' j d s = m j d s).
Definition delays_ok (ds : list Z) : Prop :=
  ds <> [] /\ Forall (Z.le 0) ds /\ sum ds < 200 /\ (length ds <= patience)%nat.
(** The registers select an existing sector. *)
Definition selects (i : Z) (w : regs) : Prop :=
  nsect w = 1 /\ Z.testbit (device w) 6 = true /\ 0 <= lba w < capacity i (slave w).
Definition idle_but (c : C) (i : Z) : Prop := forall j, is_channel j -> j <> i -> ph (view c j) = Idle.
Definition is_ide (n : Z) : bool := (n =? 14) || (n =? 15).

(** How a write is accepted: data is taken at once, or after a number of status reads, which the
    driver's polling outlasts, that show the bit BSY; nothing is said of their other bits. *)
Definition accepting (p : phase) : Prop :=
  p = DataOut [] \/ exists sts, p = Preparing sts /\ sts <> [] /\ Z.of_nat (length sts) < 100000 /\
    Forall (fun st => Z.land st STA_BSY <> 0) sts.
(** The next phase, when the status is read. *)
Definition polled (sts : list Z) : phase := match sts with [] => DataOut [] | _ => Preparing sts end.

Class AtaLaws : Prop := {
  medium_sector : forall c i d s, length (medium c i d s) = 512%nat /\ Forall in_u8 (medium c i d s);
  law_register : forall c i r v, is_channel i -> ph (view c i) = Idle -> 2 <= r <= 6 -> in_u8 v ->
    moves c i (set_reg r v (view c i)) (medium c) (out8 (base_of i + r) v c);
  law_read : forall c i, is_channel i -> ph (view c i) = Idle -> selects i (view c i) ->
    exists ds, delays_ok ds /\
      moves c i (set_phase (Seeking (medium c i (slave (view c i)) (lba (view c i))) ds) (view c i)) (medium c)
        (out8 (base_of i + 7) 0x20 c);
  law_write : forall c i, is_channel i -> ph (view c i) = Idle -> selects i (view c i) ->
    exists p, accepting p /\
      moves c i (set_phase p (view c i)) (medium c) (out8 (base_of i + 7) 0x30 c);
  (** Status reads: no error bit is set, of those that are valid. *)
  law_status : forall c i, is_channel i ->
    let st := (in8 (base_of i + 7) c).1 in
    let c' := (in8 (base_of i + 7) c).2 in
    match ph (view c i) with
    | Idle => moves c i (view c i) (medium c) c'
    | DataIn _ => Z.land st 0x21 = 0 /\ moves c i (view c i) (medium c) c'
    | Preparing (x :: sts) => st = x /\ moves c i (set_phase (polled sts) (view c i)) (medium c) c'
    | DataOut _ => Z.land st 0x21 = 0 /\ Z.land st STA_DRQ <> 0 /\ moves c i (view c i) (medium c) c'
    | _ => True
    end;
  law_in : forall c i lo hi rest, is_channel i -> ph (view c i) = DataIn (lo :: hi :: rest) ->
    (in16 (base_of i) c).1 = lo + 256 * hi /\
    moves c i (set_phase (match rest with [] => Idle | _ => DataIn rest end) (view c i)) (medium c) (in16 (base_of i) c).2;
  law_out : forall c i got v, is_channel i -> ph (view c i) = DataOut got -> 0 <= v < 65536 -> (length got < 512)%nat ->
    let got' := got ++ [v mod 256; v / 256] in
    exists ds, delays_ok ds /\
      moves c i (set_phase (if decide (length got' = 512%nat) then Storing got' ds else DataOut got') (view c i)) (medium c)
        (out16 (base_of i) v c);
  (** While a thread has yielded; the other channel is idle. *)
  law_elapse : forall c i, is_channel i -> idle_but c i ->
    let dt := (elapse c).1.1 in
    let irqs := (elapse c).1.2 in
    let c' := (elapse c).2 in
    Forall (fun n => 0 <= n < 16) irqs /\
    match ph (view c i) with
    | Seeking data (d :: ds) => dt = d /\
        List.filter is_ide irqs = (match ds with [] => [irq_of i] | _ => [] end) /\
        moves c i (set_phase (match ds with [] => DataIn data | _ => Seeking data ds end) (view c i)) (medium c) c'
    | Storing data (d :: ds) => length data = 512%nat -> Forall in_u8 data -> dt = d /\
        List.filter is_ide irqs = (match ds with [] => [irq_of i] | _ => [] end) /\
        moves c i (set_phase (match ds with [] => Idle | _ => Storing data ds end) (view c i))
          (match ds with [] => put_sector i (slave (view c i)) (lba (view c i)) data (medium c) | _ => medium c end) c'
    | _ => True
    end;
  law_pic : forall c p v, p = 0x20 \/ p = 0xA0 ->
    (forall i, view (out8 p v c) i = view c i) /\ (forall i d s, medium (out8 p v c) i d s = medium c i d s);
}.
End laws.
Arguments AtaLaws C {_ _ _}.

(** ** The driver *)
Section driver.
Context {C : Type} `{!PortIO C, !Passing C, !AtaView C, !AtaLaws C}.
Implicit Types (s : Ide C) (c : C).

(** The interrupt handlers are those of the driver, and no other vector has them. *)
Definition handlers_ok (hs : list HandlerEntry) : Prop :=
  forall n, 0 <= n < 16 -> exists e, hs !! Z.to_nat (IRQ_BASE + n) = Some e /\
    match handler e with
    | Some ide_interrupt_ch0 => n = 14
    | Some ide_interrupt_ch1 => n = 15
    | _ => is_ide n = false
    end.

(** A channel that nobody uses. *)
Definition quiet (i : Z) (ch : Channel) : Prop :=
  reg_base ch = base_of i /\ lock ch = false /\ expecting_interrupt ch = false /\ completion ch = 0.

(** The driver between two transfers. *)
Definition ide_ok s : Prop :=
  (exists l, CHANNELS s = Some l /\ length l = 2%nat /\ forall i ch, is_channel i -> l !! Z.to_nat i = Some ch -> quiet i ch) /\
  (forall i, is_channel i -> ph (view (ports s) i) = Idle) /\ handlers_ok (HANDLERS (ide_idt s)).

(** A channel in use. *)
Definition in_use (l e : bool) (n : Z) (ch : Channel) : Channel :=
  mkChannel (ch_name ch) (reg_base ch) (irq ch) l e n (devices ch).

(** During a transfer on channel [i] that began in [s0]. *)
Definition working s0 s (i : Z) (w : regs) (m : disks) (l e : bool) (n : Z) : Prop :=
  (exists chs ch, CHANNELS s0 = Some chs /\ chs !! Z.to_nat i = Some ch /\ CHANNELS s = Some (<[Z.to_nat i := in_use l e n ch]> chs)) /\
  messages s = messages s0 /\ ide_idt s = ide_idt s0 /\ ide_registry s = ide_registry s0 /\ moves (ports s0) i w m (ports s).

Lemma moves_trans c c1 c2 i w1 w2 m1 m2 : moves c i w1 m1 c1 -> moves c1 i w2 m2 c2 -> moves c i w2 m2 c2.
Proof.
  intros [V1 _] [V2 M2]. split; [|done]. intros j. rewrite V2. case_decide; [done|]. rewrite V1. by rewrite decide_False.
Qed.
Lemma moves_medium c c1 i w m m' : (forall j d x, m j d x = m' j d x) -> moves c i w m c1 -> moves c i w m' c1.
Proof. intros E [V M]. split; [done|]. intros j d x. rewrite <- E. apply M. Qed.
Lemma moves_view c i w m c' : moves c i w m c' -> view c' i = w.
Proof. intros [V _]. rewrite V. by rewrite decide_True. Qed.

(** A step of the controller during the transfer. *)
Lemma working_step s0 s i w m l e n w' m' c' :
  working s0 s i w m l e n -> moves (ports s) i w' m' c' -> working s0 (with_ports c' s) i w' m' l e n.
Proof. intros (H & ? & ? & ? & Hm) Hm'. split_and!; try done. by eapply moves_trans. Qed.
Lemma working_medium s0 s i w m m' l e n : (forall j d x, m j d x = m' j d x) -> working s0 s i w m l e n -> working s0 s i w m' l e n.
Proof. intros E (H & ? & ? & ? & Hm). split_and!; try done. by eapply moves_medium. Qed.
Lemma working_keep s0 s i w m l e n w' c' :
  working s0 s i w m l e n -> moves (ports s) i w' (medium (ports s)) c' -> working s0 (with_ports c' s) i w' m l e n.
Proof. intros Hw Hm. eapply working_medium; [|by eapply working_step]. by destruct Hw as (_ & _ & _ & _ & [_ M]). Qed.
Lemma working_view s0 s i w m l e n : working s0 s i w m l e n -> view (ports s) i = w.
Proof. intros (_ & _ & _ & _ & Hm). by eapply moves_view. Qed.
Lemma working_ticks s0 s i w m l e n t : working s0 s i w m l e n -> working s0 (with_ticks t s) i w m l e n.
Proof. done. Qed.

(** Ports. *)
Lemma wp_io {A} (f : M C A) s (Q : A -> Ide C -> Prop) : wp f (ports s) (fun a c => Q a (with_ports c s)) -> wp (io f) s Q.
Proof. intros H. by apply wp_zoom. Qed.
Lemma wp_io_read p s (Q : Z -> Ide C -> Prop) :
  Q (in8 (addr p) (ports s)).1 (with_ports (in8 (addr p) (ports s)).2 s) -> wp (io (read_u8 p)) s Q.
Proof. intros H. by apply wp_io, wp_read_u8. Qed.
Lemma wp_io_write p v s (Q : unit -> Ide C -> Prop) : Q tt (with_ports (out8 (addr p) v (ports s)) s) -> wp (io (write_u8 p v)) s Q.
Proof. intros H. by apply wp_io, wp_modify. Qed.

(** The channel of the transfer. *)
Lemma wp_channel s0 s i w m l e n (Q : Channel -> Ide C -> Prop) :
  is_channel i -> ide_ok s0 -> working s0 s i w m l e n ->
  (forall ch, reg_base ch = base_of i -> lock ch = l -> expecting_interrupt ch = e -> completion ch = n -> Q ch s) -> wp (get_channel i) s Q.
Proof.
  intros Hi ((chs & E & Hl & Hq) & _) ((chs' & ch & E' & Hc & Es) & _) HQ. rewrite E in E'. injection E' as <-.
  unfold get_channel. apply wp_bind, wp_gets. rewrite Es. destruct (Hq i ch Hi Hc) as (Hb & _).
  apply (wp_index _ _ (in_use l e n ch)); [destruct Hi; subst; lia| |by apply HQ].
  apply list_lookup_insert_eq. destruct Hi; subst; simpl; lia.
Qed.
Lemma wp_upd_channel s0 s i w m l e n f l' e' n' (Q : unit -> Ide C -> Prop) :
  is_channel i -> ide_ok s0 -> working s0 s i w m l e n ->
  (forall ch, f (in_use l e n ch) = in_use l' e' n' ch) ->
  (forall s', working s0 s' i w m l' e' n' -> ticks s' = ticks s -> Q tt s') -> wp (upd_channel i f) s Q.
Proof.
  intros Hi ((chs & E & Hl & Hq) & _) ((chs' & ch & E' & Hc & Es) & Hm & Hd & Hr & Hv) Hf HQ. rewrite E in E'. injection E' as <-.
  assert (Z.to_nat i < length chs)%nat as Hlt by (destruct Hi; subst; simpl; lia).
  unfold upd_channel. apply wp_bind, wp_gets. rewrite Es. apply wp_bind. eapply wp_index; [destruct Hi; subst; lia|by apply list_lookup_insert_eq|].
  apply wp_bind, wp_index_set; [rewrite length_insert; destruct Hi; subst; simpl in *; lia|].
  apply wp_modify, HQ; [|done]. split_and!; try done. exists chs, ch. split_and!; [done|done|]. simpl. by rewrite list_insert_insert_eq, Hf.
Qed.

(** *** Interrupts and waiting *)
Context (s0 : Ide C) (i : Z) (Hi : is_channel i) (Hok : ide_ok s0).

Lemma pic_moves c p v : p = 0x20 \/ p = 0xA0 -> moves c i (view c i) (medium c) (out8 p v c).
Proof. intros Hp. destruct (law_pic c p v Hp) as [V M]. split; [|done]. intros j. rewrite V. case_decide; congruence. Qed.

Lemma wp_send_eoi v s w m l e n (Q : unit -> Ide C -> Prop) :
  working s0 s i w m l e n -> (forall s', working s0 s' i w m l e n -> ticks s' = ticks s -> Q tt s') -> wp (io (send_eoi v)) s Q.
Proof.
  intros Hw HQ. apply wp_io. unfold send_eoi.
  assert (forall p v s, p = 0x20 \/ p = 0xA0 -> working s0 s i w m l e n -> working s0 (with_ports (out8 p v (ports s)) s) i w m l e n) as Hp.
  { intros p v' s' Hp Hw'. eapply working_keep; [done|]. rewrite <- (working_view _ _ _ _ _ _ _ _ Hw'). by apply pic_moves. }
  apply wp_bind. case_match; [apply wp_modify|apply wp_ret]; apply wp_modify, HQ; try done; [|by apply Hp; auto].
  apply (Hp _ _ (with_ports _ s)); auto.
Qed.

Lemma wp_if_working {A} (x : A) f s w m l e n (Q : A -> Ide C -> Prop) : working s0 s i w m l e n -> wp f s Q -> wp (if_channels x f) s Q.
Proof. intros ((? & ? & _ & _ & E) & _) H. apply wp_bind, wp_gets. by rewrite E. Qed.

(** Reading the status of a channel with no command under way. *)
Lemma wp_status_quiet s w m l e n (Q : Z -> Ide C -> Prop) :
  working s0 s i w m l e n -> match ph w with Idle | DataIn _ => True | _ => False end ->
  (forall v s', working s0 s' i w m l e n -> ticks s' = ticks s -> match ph w with DataIn _ => Z.land v 0x21 = 0 | _ => True end -> Q v s') ->
  wp (io (read_u8 (reg (base_of i) REG_STATUS))) s Q.
Proof.
  intros Hw Hp HQ. pose proof (law_status (ports s) i Hi) as Hl. rewrite (working_view _ _ _ _ _ _ _ _ Hw) in Hl.
  apply wp_io_read, HQ; try done; destruct (ph w); try done; [..|by destruct Hl].
  - by eapply working_keep.
  - destruct Hl. by eapply working_keep.
Qed.

(** An interrupt of another device. *)
Lemma wp_dispatch_other v s w m l e n (Q : unit -> Ide C -> Prop) :
  0 <= v < 16 -> is_ide v = false -> working s0 s i w m l e n ->
  (forall s', working s0 s' i w m l e n -> ticks s' = ticks s -> Q tt s') -> wp (dispatch v) s Q.
Proof.
  intros Hv Ho Hw HQ. destruct Hok as (_ & _ & Hh). destruct (Hh v Hv) as (x & Ex & Hx). unfold dispatch.
  apply wp_bind, wp_gets, wp_bind. destruct Hw as (H1 & H2 & H3 & H4 & H5). rewrite H3.
  eapply wp_index; [unfold IRQ_BASE; lia|exact Ex|]. apply wp_bind.
  destruct (handler x) as [[]|]; try (subst; discriminate Ho); apply wp_ret; eapply wp_send_eoi; done.
Qed.

(** The channel's own interrupt, when the command has completed. *)
Lemma wp_dispatch_mine s w m n (Q : unit -> Ide C -> Prop) :
  working s0 s i w m true true n -> match ph w with Idle | DataIn _ => True | _ => False end ->
  (forall s', working s0 s' i w m true false (n + 1) -> ticks s' = ticks s -> Q tt s') -> wp (dispatch (irq_of i)) s Q.
Proof.
  intros Hw Hp HQ. assert (0 <= irq_of i < 16) as Hv by (destruct Hi; subst; unfold irq_of; lia).
  destruct Hok as (_ & _ & Hh). destruct (Hh _ Hv) as (x & Ex & Hx). unfold dispatch.
  apply wp_bind, wp_gets, wp_bind. pose proof Hw as (_ & _ & H3 & _). rewrite H3.
  eapply wp_index; [unfold IRQ_BASE; lia|exact Ex|]. apply wp_bind.
  assert (handler x = Some (if i =? 0 then ide_interrupt_ch0 else ide_interrupt_ch1)) as ->.
  { destruct Hi; subst; simpl in *; destruct (handler x) as [[]|]; done. }
  assert (match (if i =? 0 then ide_interrupt_ch0 else ide_interrupt_ch1) with ide_interrupt_ch0 => ide_interrupt 0 | ide_interrupt_ch1 => ide_interrupt 1 | _ => ret tt end
    = ide_interrupt i (C := C)) as Ei by (by destruct Hi; subst). simpl in Ei |- *. rewrite Ei.
  unfold ide_interrupt. eapply wp_if_working; [done|]. apply wp_bind. eapply wp_channel; [done..|]. intros ch Hb _ -> _. rewrite Hb.
  apply wp_bind. eapply wp_status_quiet; [done..|]. intros v s1 Hw1 Ht1 _.
  apply wp_bind. eapply (wp_upd_channel _ _ _ _ _ _ _ _ _ true false n); [done|done|exact Hw1|done|]. intros s2 Hw2 Ht2.
  eapply (wp_upd_channel _ _ _ _ _ _ _ _ _ true false (n + 1)); [done|done|exact Hw2|done|]. intros s3 Hw3 Ht3.
  eapply wp_send_eoi; [exact Hw3|]. intros s4 Hw4 Ht4. apply HQ; [done|]. congruence.
Qed.

(** The interrupts that arrive during a yield. *)
Lemma wp_irqs_other irqs s w m l e n (Q : unit -> Ide C -> Prop) :
  Forall (fun n => 0 <= n < 16) irqs -> List.filter is_ide irqs = [] -> working s0 s i w m l e n ->
  (forall s', working s0 s' i w m l e n -> ticks s' = ticks s -> Q tt s') -> wp (for_each irqs dispatch) s Q.
Proof.
  intros HF. revert s. induction HF as [|v irqs Hv HF IH]; intros s Hf Hw HQ; simpl in Hf |- *; [by apply wp_ret, HQ|].
  destruct (is_ide v) eqn:E; [done|]. apply wp_bind. eapply wp_dispatch_other; [done..|]. intros s1 Hw1 Ht1.
  apply IH; [done|done|]. intros s2 Hw2 Ht2. apply HQ; [done|congruence].
Qed.
Lemma wp_irqs_mine irqs s w m n (Q : unit -> Ide C -> Prop) :
  Forall (fun n => 0 <= n < 16) irqs -> List.filter is_ide irqs = [irq_of i] -> working s0 s i w m true true n ->
  match ph w with Idle | DataIn _ => True | _ => False end ->
  (forall s', working s0 s' i w m true false (n + 1) -> ticks s' = ticks s -> Q tt s') -> wp (for_each irqs dispatch) s Q.
Proof.
  intros HF. revert s. induction HF as [|v irqs Hv HF IH]; intros s Hf Hw Hp HQ; simpl in Hf |- *; [done|].
  apply wp_bind. destruct (is_ide v) eqn:E.
  - injection Hf as -> Hf. eapply wp_dispatch_mine; [done..|]. intros s1 Hw1 Ht1.
    eapply wp_irqs_other; [done..|]. intros s2 Hw2 Ht2. apply HQ; [done|congruence].
  - eapply wp_dispatch_other; [done..|]. intros s1 Hw1 Ht1. apply IH; [done..|]. intros s2 Hw2 Ht2. apply HQ; [done|congruence].
Qed.

(** A command under way, the bytes and the delays; where it ends. *)
Definition running (p : phase) (ds : list Z) : Prop :=
  match p with
  | Seeking _ ds' => ds' = ds
  | Storing data ds' => ds' = ds /\ length data = 512%nat /\ Forall in_u8 data
  | _ => False
  end.
Definition later (p : phase) (ds : list Z) : phase :=
  match p with Seeking data _ => Seeking data ds | Storing data _ => Storing data ds | p => p end.
Definition finished (p : phase) : phase := match p with Seeking data _ => DataIn data | Storing _ _ => Idle | p => p end.
Definition finished_disks (w : regs) (m : disks) : disks :=
  match ph w with Storing data _ => put_sector i (slave w) (lba w) data m | _ => m end.

Lemma put_sector_eq d x b m m' : (forall j d x, m j d x = m' j d x) -> forall j d' x', put_sector i d x b m j d' x' = put_sector i d x b m' j d' x'.
Proof. intros E j d' x'. unfold put_sector. by case_decide. Qed.

Lemma idle_others s w m l e n : working s0 s i w m l e n -> idle_but (ports s) i.
Proof. intros (_ & _ & _ & _ & [V _]) j Hj Hne. rewrite V, decide_False by done. by apply Hok. Qed.


Lemma wp_yield_step s w m d d' ds (Q : unit -> Ide C -> Prop) :
  working s0 s i w m true true 0 -> running (ph w) (d :: d' :: ds) ->
  (forall s', working s0 s' i (set_phase (later (ph w) (d' :: ds)) w) m true true 0 -> ticks s' = ticks s + d -> Q tt s') -> wp yield_current s Q.
Proof.
  intros Hw Hr HQ. destruct (law_elapse (ports s) i Hi (idle_others _ _ _ _ _ _ Hw)) as [HF Hl].
  rewrite (working_view _ _ _ _ _ _ _ _ Hw) in Hl. unfold yield_current. apply wp_bind. unfold wp at 1.
  destruct (elapse (ports s)) as [[dt irqs] c'] eqn:E. simpl in HF, Hl. apply wp_bind, wp_modify.
  assert (dt = d /\ List.filter is_ide irqs = [] /\ moves (ports s) i (set_phase (later (ph w) (d' :: ds)) w) (medium (ports s)) c') as (-> & Hf & Hm).
  { destruct (ph w); try done; simpl in Hr; [by subst|]. destruct Hr as (-> & Hlen & Hb). by specialize (Hl Hlen Hb). }
  eapply wp_irqs_other; [done|done|apply working_ticks, working_keep with (1 := Hw) (2 := Hm)|]. intros s' Hw' Ht. by apply HQ.
Qed.

Lemma wp_yield_last s w m d (Q : unit -> Ide C -> Prop) :
  working s0 s i w m true true 0 -> running (ph w) [d] ->
  (forall s', working s0 s' i (set_phase (finished (ph w)) w) (finished_disks w m) true false 1 -> Q tt s') -> wp yield_current s Q.
Proof.
  intros Hw Hr HQ. destruct (law_elapse (ports s) i Hi (idle_others _ _ _ _ _ _ Hw)) as [HF Hl].
  rewrite (working_view _ _ _ _ _ _ _ _ Hw) in Hl. unfold yield_current. apply wp_bind. unfold wp at 1.
  destruct (elapse (ports s)) as [[dt irqs] c'] eqn:E. simpl in HF, Hl. apply wp_bind, wp_modify.
  assert (dt = d /\ List.filter is_ide irqs = [irq_of i] /\
    moves (ports s) i (set_phase (finished (ph w)) w) (finished_disks w (medium (ports s))) c') as (-> & Hf & Hm).
  { unfold finished_disks. destruct (ph w); try done; simpl in Hr; [by subst|]. destruct Hr as (-> & Hlen & Hb). by specialize (Hl Hlen Hb). }
  eapply (wp_irqs_mine irqs (with_ticks _ (with_ports c' s)) (set_phase (finished (ph w)) w) (finished_disks w m) 0).
  - done.
  - done.
  - apply working_ticks. eapply working_medium; [|by eapply working_step].
    destruct Hw as (_ & _ & _ & _ & [_ M]). unfold finished_disks. destruct (ph w); try done. by apply put_sector_eq.
  - by destruct (ph w).
  - intros s' Hw' _. by apply HQ.
Qed.

Lemma wp_try_down_none s w m e (Q : bool -> Ide C -> Prop) :
  working s0 s i w m true e 0 -> Q false s -> wp (try_down i) s Q.
Proof.
  intros Hw HQ. apply wp_bind. eapply wp_channel; [done..|]. intros ch _ _ _ ->. by apply wp_ret.
Qed.

(** The disk answers in time. *)
Lemma wp_wait_loop n ds : forall s w m deadline (Q : bool -> Ide C -> Prop),
  working s0 s i w m true true 0 -> running (ph w) ds -> ds <> [] -> Forall (Z.le 0) ds ->
  ticks s + sum ds < deadline -> (length ds < n)%nat ->
  (forall s', working s0 s' i (set_phase (finished (ph w)) w) (finished_disks w m) true false 0 -> Q true s') ->
  wp (wait_loop n i deadline) s Q.
Proof.
  revert n. induction ds as [|d ds IH]; intros n s w m deadline Q Hw Hr Hne HF Ht Hn HQ; [done|].
  destruct n as [|n]; [simpl in Hn; lia|]. apply Forall_cons in HF as [Hd HF]. simpl in Ht, Hn.
  assert (0 <= sum ds) as Hs by (clear -HF; induction HF; simpl; lia).
  cbn [wait_loop]. apply wp_bind. eapply wp_try_down_none; [done|]. apply wp_bind, wp_gets. rewrite (proj2 (Z.leb_gt _ _)) by lia.
  apply wp_bind. destruct ds as [|d' ds].
  - eapply wp_yield_last; [done|done|]. intros s1 Hw1. destruct n as [|n]; [simpl in Hn; lia|]. cbn [wait_loop].
    apply wp_bind. unfold try_down. apply wp_bind. eapply wp_channel; [done..|]. intros ch _ _ _ ->. cbn [Z.ltb Z.compare].
    apply wp_bind. eapply (wp_upd_channel _ _ _ _ _ _ _ _ _ true false 0); [done|done|exact Hw1|done|]. intros s2 Hw2 _. by apply wp_ret, wp_ret, HQ.
  - eapply wp_yield_step; [done|done|]. intros s1 Hw1 Ht1.
    eapply (IH n s1 (set_phase (later (ph w) (d' :: ds)) w) m); [done| |done|done|simpl in *; lia|simpl in *; lia|].
    + destruct (ph w); try done; simpl in *. by destruct Hr.
    + intros s2 Hw2. apply HQ. revert Hw2. unfold finished_disks. by destruct w as [????? []].
Qed.

Lemma wp_wait_completion fuel ds s w m (Q : bool -> Ide C -> Prop) :
  working s0 s i w m true true 0 -> running (ph w) ds -> delays_ok ds -> (patience < fuel)%nat ->
  (forall s', working s0 s' i (set_phase (finished (ph w)) w) (finished_disks w m) true false 0 -> Q true s') ->
  wp (wait_completion fuel i) s Q.
Proof.
  intros Hw Hr (Hne & HF & Hs & Hl) Hf HQ. apply wp_bind, wp_gets. eapply wp_if_working; [done|].
  eapply wp_wait_loop; [done|done|done|done|lia|lia|done].
Qed.

(** *** The sector's address *)
Definition device_bits (dev_no sector : Z) : Z :=
  Z.lor (Z.lor (Z.lor DEV_MBS DEV_LBA) (if dev_no =? 1 then DEV_DEV1 else 0)) (Z.land (Z.shiftr sector 24) 0x0F).
Definition sel_regs (dev_no sector : Z) : regs :=
  mkRegs 1 (Z.land sector 0xFF) (Z.land (Z.shiftr sector 8) 0xFF) (Z.land (Z.shiftr sector 16) 0xFF) (device_bits dev_no sector) Idle.

Lemma land_low x k : 0 <= k -> Z.land x (2 ^ k - 1) = x mod 2 ^ k.
Proof. intros. rewrite <- Z.land_ones by done. f_equal. rewrite Z.ones_equiv. lia. Qed.

Lemma device_bits_ok dev_no sector : let b := device_bits dev_no sector in
  in_u8 b /\ b mod 16 = Z.shiftr sector 24 mod 16 /\ Z.testbit b 4 = (dev_no =? 1) /\ Z.testbit b 6 = true.
Proof.
  cbv zeta. unfold device_bits. change 15 with (2 ^ 4 - 1). rewrite land_low by done. change (2 ^ 4) with 16.
  assert (Z.shiftr sector 24 mod 16 ∈ seqZ 0 16) as H by (apply elem_of_seqZ; pose proof (Z.mod_pos_bound (Z.shiftr sector 24) 16); lia).
  generalize dependent (Z.shiftr sector 24 mod 16). intros y Hy. destruct (dev_no =? 1);
    repeat (apply elem_of_cons in Hy as [->|Hy]; [by vm_compute|]); by apply not_elem_of_nil in Hy.
Qed.

Lemma sel_regs_lba dev_no sector : lba (sel_regs dev_no sector) = sector mod 2 ^ 28.
Proof.
  destruct (device_bits_ok dev_no sector) as (_ & Hb & _). unfold lba, sel_regs. cbn [lbal lbam lbah device]. rewrite Hb.
  change 255 with (2 ^ 8 - 1). rewrite !land_low, !Z.shiftr_div_pow2 by done. Z.div_mod_to_equations. lia.
Qed.
Lemma sel_regs_slave dev_no sector : slave (sel_regs dev_no sector) = (dev_no =? 1).
Proof. apply (device_bits_ok dev_no sector). Qed.

Lemma wp_set_register r v s w m (Q : unit -> Ide C -> Prop) :
  working s0 s i w m true false 0 -> ph w = Idle -> 2 <= r <= 6 -> in_u8 v ->
  (forall s', working s0 s' i (set_reg r v w) m true false 0 -> Q tt s') -> wp (io (write_u8 (reg (base_of i) r) v)) s Q.
Proof.
  intros Hw Hp Hr Hv HQ. apply wp_io_write, HQ. eapply working_keep; [done|]. pose proof (working_view _ _ _ _ _ _ _ _ Hw) as E.
  rewrite <- E in Hp. pose proof (law_register (ports s) i r v Hi Hp Hr Hv) as H. by rewrite E in H.
Qed.

Lemma wp_select_sector dev_no sector s w m (Q : unit -> Ide C -> Prop) :
  working s0 s i w m true false 0 -> ph w = Idle ->
  (forall s', working s0 s' i (sel_regs dev_no sector) m true false 0 -> Q tt s') -> wp (select_sector (base_of i) dev_no sector) s Q.
Proof.
  intros Hw Hp HQ. assert (forall x, in_u8 (Z.land x 255)) as Hb.
  { intros x. change 255 with (2 ^ 8 - 1). rewrite land_low by done. apply Z.mod_pos_bound. lia. }
  unfold select_sector. apply wp_bind, (wp_set_register _ _ s w m); [done|done|by unfold REG_NSECT|done|]. intros s1 H1.
  apply wp_bind. eapply wp_set_register; [exact H1|done|by unfold REG_LBAL|done|]. intros s2 H2.
  apply wp_bind. eapply wp_set_register; [exact H2|done|by unfold REG_LBAM|done|]. intros s3 H3.
  apply wp_bind. eapply wp_set_register; [exact H3|done|by unfold REG_LBAH|done|]. intros s4 H4.
  eapply wp_set_register; [exact H4|done|by unfold REG_DEVICE|apply (device_bits_ok dev_no sector)|]. intros s5 H5. apply HQ.
  revert H5. by destruct w as [????? p]; simpl in Hp; subst p.
Qed.

(** *** Data *)
Lemma wp_insw_loop n : forall data s w m l e k (Q : list Z -> Ide C -> Prop),
  working s0 s i w m l e k -> ph w = DataIn data -> length data = (2 * S n)%nat -> Forall in_u8 data ->
  (forall s', working s0 s' i (set_phase Idle w) m l e k -> Q data s') -> wp (insw_loop (S n) (reg (base_of i) REG_DATA)) s Q.
Proof.
  induction n as [|n IH]; intros data s w m l e k Q Hw Hp Hl HF HQ; destruct data as [|lo [|hi rest]]; try (simpl in Hl; lia).
  all: apply Forall_cons in HF as [Hlo HF]; apply Forall_cons in HF as [Hhi HF].
  all: pose proof (working_view _ _ _ _ _ _ _ _ Hw) as Ev; pose proof Hp as Hp'; rewrite <- Ev in Hp'.
  all: destruct (law_in (ports s) i lo hi rest Hi Hp') as [Hv Hm]; rewrite Ev in Hm.
  all: assert ((lo + 256 * hi) mod 256 = lo /\ Z.shiftr (lo + 256 * hi) 8 mod 256 = hi) as [E1 E2]
    by (rewrite Z.shiftr_div_pow2 by done; unfold in_u8 in *; split; Z.div_mod_to_equations; lia).
  all: cbn [insw_loop]; apply wp_bind, wp_io, wp_read_u16; simpl addr; rewrite Z.add_0_r, Hv, E1, E2.
  - apply wp_bind, wp_ret, wp_ret. destruct rest; [|simpl in Hl; lia]. apply HQ. by eapply working_keep.
  - destruct rest as [|x rest']; [simpl in Hl; lia|].
    apply wp_bind, (IH (x :: rest') _ (set_phase (DataIn (x :: rest')) w) m l e k); [by eapply working_keep|done|simpl in *; lia|done|].
    intros s' Hw'. by apply wp_ret, HQ.
Qed.

Lemma wp_insw data s w m l e k (Q : list Z -> Ide C -> Prop) :
  working s0 s i w m l e k -> ph w = DataIn data -> length data = 512%nat -> Forall in_u8 data ->
  (forall s', working s0 s' i (set_phase Idle w) m l e k -> Q data s') -> wp (insw (base_of i)) s Q.
Proof. intros. by eapply (wp_insw_loop 255). Qed.

(** The phase when [k] words of [buf] have been sent. *)
Definition sent (buf : list Z) (k : Z) (p : phase) : Prop :=
  if decide (k < 256) then p = DataOut (take (Z.to_nat (2 * k)) buf) else exists ds, delays_ok ds /\ p = Storing buf ds.

Lemma wp_outsw buf s w m l e n (Q : unit -> Ide C -> Prop) :
  working s0 s i w m l e n -> ph w = DataOut [] -> length buf = 512%nat -> Forall in_u8 buf ->
  (forall s' ds, delays_ok ds -> working s0 s' i (set_phase (Storing buf ds) w) m l e n -> Q tt s') -> wp (outsw (base_of i) buf) s Q.
Proof.
  intros Hw Hp Hl HF HQ.
  apply (wp_for_range (fun k s => exists p, working s0 s i (set_phase p w) m l e n /\ sent buf k p)); [done| | |].
  - exists (DataOut []). split; [by destruct w; simpl in *; subst|done].
  - intros k s1 Hk (p & Hw1 & Hs). unfold sent in Hs. rewrite decide_True in Hs by lia. subst p.
    assert (exists lo hi, buf !! Z.to_nat (2 * k) = Some lo /\ buf !! Z.to_nat (2 * k + 1) = Some hi) as (lo & hi & Elo & Ehi).
    { destruct (lookup_lt_is_Some_2 buf (Z.to_nat (2 * k))) as [lo ?]; [lia|].
      destruct (lookup_lt_is_Some_2 buf (Z.to_nat (2 * k + 1))) as [hi ?]; [lia|]. eauto. }
    pose proof (Forall_lookup_1 _ _ _ _ HF Elo) as Hlo. pose proof (Forall_lookup_1 _ _ _ _ HF Ehi) as Hhi. unfold in_u8 in *.
    apply wp_bind. eapply wp_index; [lia|exact Elo|]. apply wp_bind. eapply wp_index; [lia|exact Ehi|]. apply wp_io, wp_modify.
    pose proof (working_view _ _ _ _ _ _ _ _ Hw1) as Ev.
    edestruct (law_out (ports s1) i (take (Z.to_nat (2 * k)) buf) (lo + 256 * hi) Hi) as (ds & Hds & Hm); [by rewrite Ev|lia|rewrite length_take; lia|].
    assert (take (Z.to_nat (2 * k)) buf ++ [(lo + 256 * hi) mod 256; (lo + 256 * hi) / 256] = take (Z.to_nat (2 * (k + 1))) buf) as Eg.
    { replace ((lo + 256 * hi) mod 256) with lo by (Z.div_mod_to_equations; lia). replace ((lo + 256 * hi) / 256) with hi by (Z.div_mod_to_equations; lia).
      replace (Z.to_nat (2 * (k + 1))) with (S (S (Z.to_nat (2 * k)))) by lia. replace (Z.to_nat (2 * k + 1)) with (S (Z.to_nat (2 * k))) in Ehi by lia.
      rewrite (take_S_r _ _ _ Ehi), (take_S_r _ _ _ Elo). by rewrite <- app_assoc. }
    rewrite Eg, Ev in Hm. simpl addr. rewrite Z.add_0_r. unfold sent.
    case_decide as Hk'; rewrite length_take in Hk'; (eexists; split; [eapply working_keep; [exact Hw1|exact Hm]|]).
    + rewrite decide_False by lia. exists ds. split; [done|]. by rewrite take_ge by lia.
    + by rewrite decide_True by lia.
  - intros s1 (p & Hw1 & Hs). unfold sent in Hs. rewrite decide_False in Hs by lia. destruct Hs as (ds & Hds & ->). by apply (HQ s1 ds).
Qed.

(** *** Commands *)
Lemma wp_issue_command cmd s w m p c (Q : unit -> Ide C -> Prop) :
  working s0 s i w m true false 0 -> out8 (base_of i + 7) cmd (ports s) = c -> moves (ports s) i (set_phase p w) (medium (ports s)) c ->
  (forall s', working s0 s' i (set_phase p w) m true true 0 -> ticks s' = ticks s -> Q tt s') -> wp (issue_command i cmd) s Q.
Proof.
  intros Hw Hc Hm HQ. eapply wp_if_working; [done|]. apply wp_bind.
  assert (forall s', working s0 s' i w m true true 0 -> ports s' = ports s -> ticks s' = ticks s ->
    wp (let! ch := get_channel i in io (write_u8 (reg (reg_base ch) REG_COMMAND) cmd)) s' Q) as Hrest.
  { intros s1 Hw1 Ep Et. apply wp_bind. eapply wp_channel; [done..|]. intros ch -> _ _ _. apply wp_io_write, HQ; [|done].
    eapply working_keep; [exact Hw1|]. simpl addr. unfold REG_COMMAND. rewrite Ep, Hc. done. }
  destruct Hok as ((chs & E & Hl & Hq) & _). destruct Hw as ((chs' & ch & E' & Hch & Es) & H2 & H3 & H4 & H5). rewrite E in E'. injection E' as <-.
  assert (Z.to_nat i < length chs)%nat as Hlt by (destruct Hi as [->| ->]; simpl; lia).
  unfold upd_channel. apply wp_bind, wp_gets. rewrite Es. apply wp_bind.
  eapply wp_index; [destruct Hi as [->| ->]; lia|by apply list_lookup_insert_eq|].
  apply wp_bind, wp_index_set; [rewrite length_insert; destruct Hi as [->| ->]; simpl in *; lia|].
  apply wp_modify, Hrest; [|done|done]. split_and!; try done. exists chs, ch. split_and!; [done|done|]. simpl. by rewrite list_insert_insert_eq.
Qed.

Lemma selects_sector dev_no sector : 0 <= sector mod 2 ^ 28 < capacity i (dev_no =? 1) -> selects i (sel_regs dev_no sector).
Proof. intros H. split_and!; [done|apply (device_bits_ok dev_no sector)|..]; rewrite sel_regs_lba, ?sel_regs_slave; apply H. Qed.

Lemma working_start : working s0 s0 i (view (ports s0) i) (medium (ports s0)) false false 0.
Proof.
  destruct Hok as ((chs & E & Hl & Hq) & _). destruct (lookup_lt_is_Some_2 chs (Z.to_nat i)) as [ch Hch]; [destruct Hi as [->| ->]; simpl; lia|].
  destruct (Hq i ch Hi Hch) as (_ & H1 & H2 & H3). split_and!; try done.
  - exists chs, ch. split_and!; [done|done|]. rewrite E. f_equal. symmetry. apply list_insert_id. rewrite Hch. f_equal.
    destruct ch; simpl in *; by subst.
  - split; [|done]. intros j. by case_decide; subst.
Qed.

(** After a transfer. *)
Definition after s (m : disks) : Prop :=
  ide_ok s /\ (forall j d x, medium (ports s) j d x = m j d x) /\
  messages s = messages s0 /\ ide_idt s = ide_idt s0 /\ ide_registry s = ide_registry s0.

Lemma working_end s w m : working s0 s i w m false false 0 -> ph w = Idle -> after s m.
Proof.
  intros ((chs' & ch & E' & Hch & Es) & H2 & H3 & H4 & [V M]) Hp. destruct Hok as ((chs & E & Hl & Hq) & Hv & Hh). rewrite E in E'. injection E' as <-.
  split_and!; try done. split_and!.
  - exists (<[Z.to_nat i := in_use false false 0 ch]> chs). split_and!; [done|by rewrite length_insert|]. intros j ch' Hj Hj'.
    apply list_lookup_insert_Some in Hj' as [(En & <- & _)|(En & Hj')]; [|by apply Hq].
    assert (j = i) as -> by (destruct Hi as [->| ->], Hj as [->| ->]; done). destruct (Hq i ch Hi Hch) as (? & _). done.
  - intros j Hj. rewrite V. case_decide; [done|]. by apply Hv.
  - by rewrite H3.
Qed.

(** A status byte that shows neither ERR, DF nor DRQ. *)
Definition no_flags (st : Z) : Prop := Z.land st 0x21 = 0 /\ Z.land st STA_DRQ = 0.
Definition quietly (p : phase) : Prop := forall sts, p = Preparing sts -> Forall no_flags sts.

Lemma accepting_polled st sts : accepting (Preparing (st :: sts)) -> quietly (Preparing (st :: sts)) ->
  no_flags st /\ accepting (polled sts) /\ quietly (polled sts).
Proof.
  intros [?|(l & E & _ & Hl & Hb)] Hq; [done|]. injection E as <-. specialize (Hq _ eq_refl).
  apply Forall_cons in Hq as [Hst Hq], Hb as [_ Hb]. split; [done|]. destruct sts as [|x sts]; [split; [by left|done]|].
  split; [right; exists (x :: sts); split_and!; simpl in *; [done|done|lia|done]|]. by intros l' [= <-].
Qed.

(** Polling for [STA_DRQ]. *)
Lemma wp_wait_drq s w m l e n (Q : bool -> Ide C -> Prop) :
  working s0 s i w m l e n -> accepting (ph w) -> quietly (ph w) ->
  (forall s', working s0 s' i (set_phase (DataOut []) w) m l e n -> Q true s') -> wp (wait_drq (base_of i)) s Q.
Proof.
  intros Hw Hp Hq HQ. apply wp_io.
  apply (wp_poll (fun k c => exists sts, length sts = k /\ accepting (polled sts) /\ quietly (polled sts) /\
    working s0 (with_ports c s) i (set_phase (polled sts) w) m l e n)) with
    (k := match ph w with Preparing sts => length sts | _ => O end).
  - intros k c ([|x sts] & Hlen & Ha & Hqq & Hw'); [done|]. pose proof (law_status c i Hi) as Hl.
    pose proof (working_view _ _ _ _ _ _ _ _ Hw') as Ev. simpl in Ev. rewrite Ev in Hl. destruct Hl as (Est & Hm).
    destruct (accepting_polled x sts Ha Hqq) as ([_ Hx] & Ha' & Hq').
    simpl addr. unfold REG_STATUS. rewrite Est, Hx. split; [done|]. exists sts. split_and!; [simpl in Hlen; lia|done|done|].
    by apply (working_keep _ _ _ _ _ _ _ _ _ _ Hw') in Hm.
  - intros c (sts & ->%nil_length_inv & _ & _ & Hw'). pose proof (law_status c i Hi) as Hl.
    pose proof (working_view _ _ _ _ _ _ _ _ Hw') as Ev. simpl in Ev. rewrite Ev in Hl.
    destruct Hl as (_ & Hd & Hm). simpl addr. unfold REG_STATUS. rewrite (proj2 (Z.eqb_neq _ _) Hd). split; [done|]. apply HQ.
    by apply (working_keep _ _ _ _ _ _ _ _ _ _ Hw') in Hm.
  - destruct Hp as [->|(sts & -> & _ & ? & _)]; lia.
  - destruct Hp as [Ep|(sts & Ep & Hne & Hb)].
    + exists []. rewrite Ep. split_and!; [done|by left|done|]. destruct s, w; simpl in *; subst. exact Hw.
    + exists sts. rewrite Ep. assert (polled sts = Preparing sts) as -> by (by destruct sts).
      split_and!; [done|right; by exists sts|by rewrite Ep in Hq|]. destruct s, w; simpl in *; subst. exact Hw.
Qed.

Lemma wp_channel_acquire s w m e n (Q : unit -> Ide C -> Prop) :
  working s0 s i w m false e n -> (forall s', working s0 s' i w m true e n -> Q tt s') -> wp (lock_acquire i) s Q.
Proof.
  intros Hw HQ. apply wp_bind. eapply wp_channel; [done..|]. intros ch _ -> _ _. apply wp_bind, wp_assert; [done|].
  eapply (wp_upd_channel _ _ _ _ _ _ _ _ _ true e n); [done|done|exact Hw|done|]. intros s' Hw' _. by apply HQ.
Qed.
Lemma wp_channel_release s w m e n (Q : unit -> Ide C -> Prop) :
  working s0 s i w m true e n -> (forall s', working s0 s' i w m false e n -> Q tt s') -> wp (lock_release i) s Q.
Proof.
  intros Hw HQ. apply wp_bind. eapply wp_channel; [done..|]. intros ch _ -> _ _. apply wp_bind, wp_assert; [done|].
  eapply (wp_upd_channel _ _ _ _ _ _ _ _ _ false e n); [done|done|exact Hw|done|]. intros s' Hw' _. by apply HQ.
Qed.

Context (fuel : nat) (Hfuel : (patience < fuel)%nat).

(** Both transfers begin in the same way. *)
Lemma wp_begin {A} dev sector (rest : M (Ide C) A) (Q : A -> Ide C -> Prop) :
  (forall s, working s0 s i (sel_regs dev sector) (medium (ports s0)) true false 0 -> wp rest s Q) ->
  wp (lock_acquire i ;; select_sector (base_of i) dev sector ;; rest) s0 Q.
Proof.
  intros H. pose proof working_start as Hw. apply wp_bind. eapply wp_channel_acquire; [done|]. intros s1 Hw1.
  apply wp_bind. eapply wp_select_sector; [done|by apply Hok|]. done.
Qed.

Lemma wp_ide_read dev sector buf (Q : list Z -> Ide C -> Prop) :
  0 <= sector mod 2 ^ 28 < capacity i (dev =? 1) ->
  (forall s', after s' (medium (ports s0)) -> Q (medium (ports s0) i (dev =? 1) (sector mod 2 ^ 28)) s') ->
  wp (read fuel (mkOps i dev) sector buf) s0 Q.
Proof.
  intros Hs HQ. pose proof working_start as Hw. unfold read. eapply wp_if_working; [done|]. simpl channel_idx. simpl dev_no.
  apply wp_bind. eapply wp_channel; [done..|]. intros ch -> _ _ _. apply wp_begin. intros s2 Hw2.
  pose proof (working_view _ _ _ _ _ _ _ _ Hw2) as Ev. pose proof (selects_sector dev sector Hs) as Hsel.
  destruct (law_read (ports s2) i Hi) as (ds & Hds & Hm); [by rewrite Ev|by rewrite Ev|]. rewrite Ev in Hm.
  assert (medium (ports s2) i (slave (sel_regs dev sector)) (lba (sel_regs dev sector)) = medium (ports s0) i (dev =? 1) (sector mod 2 ^ 28)) as Ed.
  { destruct Hw2 as (_ & _ & _ & _ & [_ M]). by rewrite M, sel_regs_lba, sel_regs_slave. }
  rewrite Ed in Hm. apply wp_bind. eapply wp_issue_command; [exact Hw2|done|exact Hm|]. intros s3 Hw3 _.
  apply wp_bind. eapply wp_wait_completion; [exact Hw3|done|exact Hds|done|]. intros s4 Hw4.
  apply wp_bind, wp_bind. eapply wp_status_quiet; [exact Hw4|done|]. intros v s5 Hw5 _ Hst. apply wp_ret. simpl in Hst. rewrite Hst.
  apply wp_bind, wp_ret, wp_bind. destruct (medium_sector (ports s0) i (dev =? 1) (sector mod 2 ^ 28)) as [Hl HF].
  eapply wp_insw; [exact Hw5|done|done|done|]. intros s6 Hw6. apply wp_bind. eapply wp_channel_release; [exact Hw6|]. intros s7 Hw7.
  apply wp_ret, HQ. by eapply working_end.
Qed.

(** The status read behind the command. *)
Lemma wp_check_prepared s w m l e n (Q : bool -> Ide C -> Prop) :
  working s0 s i w m l e n -> accepting (ph w) -> quietly (ph w) ->
  (forall s' p, accepting p -> quietly p -> working s0 s' i (set_phase p w) m l e n -> Q true s') ->
  wp (check_status (base_of i)) s Q.
Proof.
  intros Hw Hp Hq HQ. apply wp_bind, wp_io_read, wp_ret. pose proof (law_status (ports s) i Hi) as Hl.
  rewrite (working_view _ _ _ _ _ _ _ _ Hw) in Hl. simpl addr. unfold REG_STATUS.
  pose proof Hp as [Ep|([|x sts] & Ep & Hne & _)]; rewrite Ep in Hl; [| done|].
  - destruct Hl as (-> & _ & Hm). apply (HQ _ (DataOut [])); [by left|done|]. eapply working_keep; [exact Hw|]. destruct w; simpl in *; by subst.
  - destruct Hl as (-> & Hm). rewrite Ep in Hp, Hq. destruct (accepting_polled x sts Hp Hq) as ([-> _] & Ha & Hq').
    by eapply HQ; [exact Ha|exact Hq'|eapply working_keep; [exact Hw|exact Hm]].
Qed.

(** The beginning of a write, to the command. *)
Definition start_write (self : IdeBlockOps) (sector : Z) : M (Ide C) unit :=
  lock_acquire (channel_idx self) ;;
  select_sector (base_of (channel_idx self)) (dev_no self) sector ;;
  issue_command (channel_idx self) CMD_WRITE.

Lemma wp_start_write dev sector :
  0 <= sector mod 2 ^ 28 < capacity i (dev =? 1) ->
  wp (start_write (mkOps i dev) sector) s0 (fun _ s => exists p, accepting p /\ ph (view (ports s) i) = p /\
    working s0 s i (set_phase p (sel_regs dev sector)) (medium (ports s0)) true true 0).
Proof.
  intros Hs. apply wp_begin. intros s2 Hw2.
  pose proof (working_view _ _ _ _ _ _ _ _ Hw2) as Ev. pose proof (selects_sector dev sector Hs) as Hsel.
  destruct (law_write (ports s2) i Hi) as (p & Hp & Hm); [by rewrite Ev|by rewrite Ev|]. rewrite Ev in Hm.
  eapply wp_issue_command; [exact Hw2|done|exact Hm|]. intros s3 Hw3 _. exists p. split_and!; [done| |done].
  by rewrite (working_view _ _ _ _ _ _ _ _ Hw3).
Qed.

(** The status bytes that the controller shows while it is busy with the command. *)
Definition shown (self : IdeBlockOps) (sector : Z) s : list Z :=
  match start_write self sector s with
  | Ok _ s' => match ph (view (ports s') (channel_idx self)) with Preparing sts => sts | _ => [] end
  | _ => []
  end.

Lemma wp_write_from dev sector buf (Q : unit -> Ide C -> Prop) :
  0 <= sector mod 2 ^ 28 < capacity i (dev =? 1) ->
  (forall s p, accepting p -> shown (mkOps i dev) sector s0 = match p with Preparing sts => sts | _ => [] end ->
     working s0 s i (set_phase p (sel_regs dev sector)) (medium (ports s0)) true true 0 ->
     wp (let! ok := check_status (base_of i) in
         if negb ok then say (WriteError sector) ;; lock_release i
         else
           let! have_drq := wait_drq (base_of i) in
           if negb have_drq then say (DrqTimeout sector) ;; lock_release i
           else outsw (base_of i) buf ;; wait_completion fuel i ;; lock_release i) s Q) ->
  wp (write fuel (mkOps i dev) sector buf) s0 Q.
Proof.
  intros Hs HQ. pose proof working_start as Hw. unfold write. eapply wp_if_working; [done|]. simpl channel_idx. simpl dev_no.
  apply wp_bind. eapply wp_channel; [done..|]. intros ch -> _ _ _.
  pose proof (wp_start_write dev sector Hs) as H. apply wp_ok in H as ([] & s & E & p & Ha & Ep & Hws).
  specialize (HQ s p Ha). unfold shown in HQ. rewrite E in HQ. simpl channel_idx in HQ. rewrite Ep in HQ. specialize (HQ eq_refl Hws).
  unfold start_write, bind in E. simpl channel_idx in E. simpl dev_no in E. unfold wp in HQ |- *. unfold bind at 1 2 3.
  destruct (lock_acquire i s0) as [[] s1| | |]; [|done..]. destruct (select_sector (base_of i) dev sector s1) as [[] s2| | |]; [|done..].
  rewrite E. exact HQ.
Qed.

Lemma wp_ide_write dev sector buf (Q : unit -> Ide C -> Prop) :
  0 <= sector mod 2 ^ 28 < capacity i (dev =? 1) -> length buf = 512%nat -> Forall in_u8 buf ->
  Forall no_flags (shown (mkOps i dev) sector s0) ->
  (forall s', after s' (put_sector i (dev =? 1) (sector mod 2 ^ 28) buf (medium (ports s0))) -> Q tt s') ->
  wp (write fuel (mkOps i dev) sector buf) s0 Q.
Proof.
  intros Hs Hlen HF Hq HQ. apply wp_write_from; [done|]. intros s3 p Hp Esh Hw3. rewrite Esh in Hq.
  assert (quietly p) as Hqp by (by intros sts ->).
  apply wp_bind. eapply wp_check_prepared; [exact Hw3|exact Hp|exact Hqp|]. intros s4 p' Hp' Hq' Hw4.
  apply wp_bind. eapply wp_wait_drq; [exact Hw4|exact Hp'|exact Hq'|]. intros s5 Hw5.
  apply wp_bind. eapply wp_outsw; [exact Hw5|done|done|done|]. intros s6 ds Hds Hw6.
  apply wp_bind. eapply wp_wait_completion; [exact Hw6|done|exact Hds|done|]. intros s7 Hw7.
  eapply wp_channel_release; [exact Hw7|]. intros s8 Hw8. apply HQ.
  unfold finished_disks in Hw8. cbn [ph set_phase] in Hw8.
  change (slave (set_phase (Storing buf ds) _)) with (slave (sel_regs dev sector)) in Hw8.
  change (lba (set_phase (Storing buf ds) _)) with (lba (sel_regs dev sector)) in Hw8.
  rewrite sel_regs_lba, sel_regs_slave in Hw8. by apply (working_end _ _ _ Hw8).
Qed.

End driver.

(** ** The driver implements block devices *)
Section refinement.
Context {C : Type} `{!PortIO C, !Passing C, !AtaView C, !AtaLaws C}.
Context {D : Type} `{!BlockOps D, !BlockLaws D}.

Inductive op : Type :=
| Rd (self : IdeBlockOps) (sector : Z)
| Wr (self : IdeBlockOps) (sector : Z) (buf : list Z).

(** A sequence of calls of the driver, and what the reads answer. *)
Fixpoint run_ops (fuel : nat) (l : list op) : M (Ide C) (list (list Z)) :=
  match l with
  | [] => ret []
  | Rd self sector :: l' =>
      let! buf := read fuel self sector sector_buf in
      let! rest := run_ops fuel l' in
      ret (buf :: rest)
  | Wr self sector buf :: l' =>
      write fuel self sector buf ;;
      run_ops fuel l'
  end.

(** The same on four block devices. *)
Definition drives : Type := Z -> bool -> D.
Definition drive_of (self : IdeBlockOps) : Z * bool := (channel_idx self, dev_no self =? 1).
Definition set_drive (k : Z * bool) (x : D) (ds : drives) : drives := fun i d => if decide ((i, d) = k) then x else ds i d.
Fixpoint block_ops (l : list op) (ds : drives) : list (list Z) * drives :=
  match l with
  | [] => ([], ds)
  | Rd self sector :: l' =>
      let '(rs, ds') := block_ops l' ds in
      (ops_read (ds (drive_of self).1 (drive_of self).2) sector :: rs, ds')
  | Wr self sector buf :: l' =>
      block_ops l' (set_drive (drive_of self) (ops_write (ds (drive_of self).1 (drive_of self).2) sector buf) ds)
  end.

Definition self_ok (self : IdeBlockOps) (sector : Z) : Prop :=
  is_channel (channel_idx self) /\ 0 <= sector < capacity (drive_of self).1 (drive_of self).2.
Definition op_ok (o : op) : Prop :=
  match o with
  | Rd self sector => self_ok self sector
  | Wr self sector buf => self_ok self sector /\ length buf = 512%nat /\ Forall in_u8 buf
  end.

(** The devices hold what the disks hold. *)
Definition same_sectors (m : disks) (ds : drives) : Prop :=
  forall i d s, is_channel i -> 0 <= s < capacity i d -> m i d s = ops_read (ds i d) s.

Lemma same_put m ds self sector buf :
  self_ok self sector -> length buf = 512%nat -> Forall in_u8 buf -> same_sectors m ds ->
  same_sectors (put_sector (channel_idx self) (dev_no self =? 1) sector buf m)
    (set_drive (drive_of self) (ops_write (ds (drive_of self).1 (drive_of self).2) sector buf) ds).
Proof.
  intros Hs Hl HF Hm i d s Hi Hsec. unfold put_sector, set_drive, drive_of. simpl. case_decide as Hk.
  - destruct Hk as (-> & -> & ->). rewrite decide_True by done. by rewrite ops_read_write.
  - case_decide as Ek; [|by apply Hm]. injection Ek as -> ->. rewrite ops_read_write_ne; [by apply Hm|]. intros ->. by apply Hk.
Qed.

(** What is known of a run's end. *)
Lemma wp_given {S A} (m : M S A) s (P Q : A -> S -> Prop) :
  wlp m s P -> wp m s (fun a s' => P a s' -> Q a s') -> wp m s Q.
Proof. intros HP HQ. eapply wp_mono; [by apply wp_wlp_conj|]. by intros a s' [H HP']; apply H. Qed.

(** In a run of the calls, no status byte that the controller shows while it is busy with a write
    has one of the bits ERR, DF and DRQ. *)
Fixpoint calm_run (fuel : nat) (l : list op) (s : Ide C) : Prop :=
  match l with
  | [] => True
  | Rd self sector :: l' => wlp (read fuel self sector sector_buf) s (fun _ => calm_run fuel l')
  | Wr self sector buf :: l' =>
      Forall no_flags (shown self sector s) /\ wlp (write fuel self sector buf) s (fun _ => calm_run fuel l')
  end.

(** C20: the driver implements block devices.  Let the controller and the disks work as the ATA
    standard says: registers keep what is written to them, a selected sector is transferred as 256
    words, the interrupt comes within two seconds, and while the bit BSY is set the other bits of
    the status say nothing.  Take any sequence of reads and writes of the driver, of any of the
    four disks and within their sizes, which 28 bits of sector number can express, in whose run
    the status bytes that happen to be shown while a write command is being prepared have the bits
    ERR, DF and DRQ clear; the standard does not promise that, and the driver, which looks at these
    bits without looking at BSY, needs it.  The sequence then runs to its end, answers as block devices that
    start with the disks' contents answer ([BlockLaws], what the file system's proofs rely on),
    leaves the disks with these devices' contents and the driver ready, and says nothing on the
    console. *)
Theorem ide_implements_blocks (s : Ide C) (fuel : nat) (l : list op) (ds : drives) :
  ide_ok s -> (patience < fuel)%nat -> (forall i d, capacity i d <= 2 ^ 28) -> Forall op_ok l -> calm_run fuel l s ->
  same_sectors (medium (ports s)) ds ->
  wp (run_ops fuel l) s (fun rs s' =>
    rs = (block_ops l ds).1 /\ same_sectors (medium (ports s')) (block_ops l ds).2 /\ ide_ok s' /\
    messages s' = messages s /\ ide_registry s' = ide_registry s).
Proof.
  intros Hok Hfuel Hcap HF. revert s Hok ds. induction HF as [|o l Ho HF IH]; intros s Hok ds Hcalm Hm; [by apply wp_ret|].
  assert (forall i d x, 0 <= x < capacity i d -> x mod 2 ^ 28 = x) as Hmod.
  { intros i d x Hx. apply Z.mod_small. specialize (Hcap i d). lia. }
  destruct o as [[i dv] sector|[i dv] sector buf]; cbn [run_ops block_ops calm_run drive_of channel_idx dev_no fst snd] in *.
  - destruct Ho as [Hi Hsec]. cbn [drive_of channel_idx dev_no fst snd] in *. apply wp_bind.
    apply (wp_given _ _ _ _ Hcalm).
    apply (wp_ide_read s i Hi Hok fuel Hfuel); [by rewrite (Hmod _ _ _ Hsec)|]. rewrite (Hmod _ _ _ Hsec). intros s1 (Hok1 & Hm1 & Hmsg & _ & Hreg) Hc1.
    apply wp_bind. eapply wp_mono; [apply (IH s1 Hok1 ds Hc1)|].
    + intros j d x Hj Hx. rewrite Hm1. by apply Hm.
    + intros rs s2 (-> & H2 & H3 & H4 & H5). destruct (block_ops l ds) as [rs ds'] eqn:E. apply wp_ret. simpl in *.
      split_and!; [by rewrite Hm|done|done|congruence|congruence].
  - destruct Ho as ([Hi Hsec] & Hl & Hb), Hcalm as [Hq Hcalm]. cbn [drive_of channel_idx dev_no fst snd] in *. apply wp_bind.
    apply (wp_given _ _ _ _ Hcalm).
    apply (wp_ide_write s i Hi Hok fuel Hfuel); [by rewrite (Hmod _ _ _ Hsec)|done|done|done|].
    rewrite (Hmod _ _ _ Hsec). intros s1 (Hok1 & Hm1 & Hmsg & _ & Hreg) Hc1.
    eapply wp_mono; [apply (IH s1 Hok1 (set_drive (i, dv =? 1) (ops_write (ds i (dv =? 1)) sector buf) ds) Hc1)|].
    + intros j d x Hj Hx. rewrite Hm1. by apply (same_put _ _ (mkOps i dv)).
    + intros rs s2 (-> & H2 & H3 & H4 & H5). split_and!; [done|done|done|congruence|congruence].
Qed.

(** With a message more. *)
Definition told (x : Message) (s : Ide C) : Ide C :=
  mkIde (CHANNELS s) (ports s) (ticks s) (messages s ++ [x]) (ide_idt s) (ide_registry s).
Lemma ide_ok_told x (s : Ide C) : ide_ok s -> ide_ok (told x s).
Proof. done. Qed.
Lemma working_told x s0 (s : Ide C) i w m l e n : working s0 s i w m l e n -> working (told x s0) (told x s) i w m l e n.
Proof. intros (H1 & H2 & H3 & H4 & H5). split_and!; [done|simpl; congruence|done|done|exact H5]. Qed.

(** A write that meets a busy disk can be dropped.  On a controller and disks that work as the
    ATA standard says, let the first status byte after the WRITE command, shown while the bit BSY
    is set, have the bit ERR or DF, which are not valid then.  The driver takes it for an error: [write]
    returns with a message, no disk has changed, the controller still waits for the data, and the
    channel expects the interrupt of the abandoned command. *)
Theorem busy_status_drops_write (s : Ide C) (fuel : nat) (i dev sector : Z) (buf : list Z) (st : Z) (sts : list Z) :
  ide_ok s -> (patience < fuel)%nat -> is_channel i -> 0 <= sector mod 2 ^ 28 < capacity i (dev =? 1) ->
  shown (mkOps i dev) sector s = st :: sts -> Z.land st 0x21 <> 0 ->
  wp (write fuel (mkOps i dev) sector buf) s (fun _ s' =>
    messages s' = messages s ++ [WriteError sector] /\
    (forall j d x, medium (ports s') j d x = medium (ports s) j d x) /\
    ph (view (ports s') i) = polled sts /\
    exists l ch, CHANNELS s' = Some l /\ l !! Z.to_nat i = Some ch /\ lock ch = false /\ expecting_interrupt ch = true).
Proof.
  intros Hok Hfuel Hi Hs Esh Hst. apply wp_write_from; [done|done|done|]. intros s1 p Hp Ep Hw1. rewrite Esh in Ep.
  destruct p as [| | |sts'| |]; try done. subst sts'.
  apply wp_bind, wp_bind, wp_io_read, wp_ret. pose proof (law_status (ports s1) i Hi) as Hl.
  rewrite (working_view _ _ _ _ _ _ _ _ Hw1) in Hl. simpl in Hl. destruct Hl as [Est Hm]. simpl addr. unfold REG_STATUS. rewrite Est, (proj2 (Z.eqb_neq _ _) Hst).
  pose proof (working_keep _ _ _ _ _ _ _ _ _ _ Hw1 Hm) as Hw2. apply wp_bind, wp_modify.
  apply (working_told (WriteError sector)) in Hw2. apply (ide_ok_told (WriteError sector)) in Hok.
  eapply (wp_channel_release (told (WriteError sector) s) i Hi Hok); [exact Hw2|].
  intros s2 ((chs & ch & _ & Hch & E) & Hmsg & _ & _ & [V Md]). split_and!; [by rewrite Hmsg|done|by rewrite V, decide_True|].
  eexists _, _. split; [exact E|]. split; [apply list_lookup_insert_eq; by eapply lookup_lt_Some|done].
Qed.
End refinement.

(** ** A controller with two disks on the first channel *)
(** With [sim_noise], the bit ERR shows up while a write is prepared. *)
Record Sim := mkSim { sim_view : Z -> regs; sim_disk : Z -> bool -> RamDisk; sim_noise : bool }.

Definition sim_capacity (i : Z) (d : bool) : Z := if i =? 0 then (if d then 64 else 100) else 0.
Definition at_channel (i : Z) (w : regs) (v : Z -> regs) : Z -> regs := fun j => if decide (j = i) then w else v j.
Definition move (i : Z) (w : regs) (c : Sim) : Sim := mkSim (at_channel i w (sim_view c)) (sim_disk c) (sim_noise c).

(** The channel and the register of a port. *)
Definition decode (p : Z) : option (Z * Z) :=
  if (0x1F0 <=? p) && (p <? 0x1F8) then Some (0, p - 0x1F0)
  else if (0x170 <=? p) && (p <? 0x178) then Some (1, p - 0x170)
  else None.

(** The answer to IDENTIFY. *)
Definition identify (n : Z) : list Z := replicate 120 0 ++ le_bytes n ++ replicate 388 0.

Definition sim_command (i v : Z) (c : Sim) : Sim :=
  let w := sim_view c i in
  if v =? 0x20 then move i (set_phase (Seeking (ops_read (sim_disk c i (slave w)) (lba w)) [1; 2]) w) c
  else if v =? 0x30 then move i (set_phase (Preparing (replicate 3 (if sim_noise c then 0x81 else 0x80))) w) c
  else if v =? 0xEC then move i (set_phase (Seeking (identify (sim_capacity i (slave w))) [3]) w) c
  else c.

Definition sim_out8 (p v : Z) (c : Sim) : Sim :=
  match decode p with
  | Some (i, r) =>
      if (2 <=? r) && (r <=? 6) then move i (set_reg r v (sim_view c i)) c
      else if r =? 7 then sim_command i v c
      else c
  | None => c
  end.

Definition sim_status (i : Z) (c : Sim) : Z * Sim :=
  let w := sim_view c i in
  match ph w with
  | Idle => (0x40, c)
  | Seeking _ _ | Storing _ _ => (0x80, c)
  | DataIn _ | DataOut _ => (0x48, c)
  | Preparing [] => (0x80, c)
  | Preparing (x :: sts) => (x, move i (set_phase (polled sts) w) c)
  end.

(** An absent disk's registers read as ones. *)
Definition sim_in8 (p : Z) (c : Sim) : Z * Sim :=
  match decode p with
  | Some (i, r) =>
      let w := sim_view c i in
      if r =? 7 then sim_status i c
      else if sim_capacity i (slave w) =? 0 then (0xFF, c)
      else if r =? 2 then (nsect w, c)
      else if r =? 3 then (lbal w, c)
      else (0, c)
  | None => (0xFF, c)
  end.

Definition sim_in16 (p : Z) (c : Sim) : Z * Sim :=
  match decode p with
  | Some (i, 0) =>
      match ph (sim_view c i) with
      | DataIn (lo :: hi :: rest) =>
          (lo + 256 * hi, move i (set_phase (match rest with [] => Idle | _ => DataIn rest end) (sim_view c i)) c)
      | _ => (0, c)
      end
  | _ => (0, c)
  end.

Definition sim_out16 (p v : Z) (c : Sim) : Sim :=
  match decode p with
  | Some (i, 0) =>
      match ph (sim_view c i) with
      | DataOut got =>
          let got' := got ++ [v mod 256; v / 256] in
          move i (set_phase (if decide (length got' = 512%nat) then Storing got' [2] else DataOut got') (sim_view c i)) c
      | _ => c
      end
  | _ => c
  end.

#[export] Instance Sim_ports : PortIO Sim := {
  in8 := sim_in8; out8 := sim_out8; in16 := sim_in16; out16 := sim_out16; in32 := fun _ c => (0, c); out32 := fun _ _ c => c }.

(** A yield moves the channel on which a command is under way, and sees the timer's interrupt. *)
Definition sim_step (i : Z) (c : Sim) : option ((Z * list Z) * Sim) :=
  let w := sim_view c i in
  match ph w with
  | Seeking data (d :: ds) =>
      Some (d, 0 :: (match ds with [] => [irq_of i] | _ => [] end),
        move i (set_phase (match ds with [] => DataIn data | _ => Seeking data ds end) w) c)
  | Storing data (d :: ds) =>
      Some (d, 0 :: (match ds with [] => [irq_of i] | _ => [] end),
        mkSim (at_channel i (set_phase (match ds with [] => Idle | _ => Storing data ds end) w) (sim_view c))
          (match ds with
           | [] => set_drive (i, slave w) (ops_write (sim_disk c i (slave w)) (lba w) data) (sim_disk c)
           | _ => sim_disk c
           end) (sim_noise c))
  | _ => None
  end.
Definition sim_elapse (c : Sim) : (Z * list Z) * Sim :=
  match sim_step 0 c with
  | Some x => x
  | None => match sim_step 1 c with Some x => x | None => (1, [0], c) end
  end.

#[export] Instance Sim_passing : Passing Sim := { elapse := sim_elapse; spin := fun _ c => c }.
#[export] Instance Sim_ata : AtaView Sim := {
  view := sim_view; medium := fun c i d s => ops_read (sim_disk c i d) s; capacity := sim_capacity; patience := 2 }.

Lemma decode_base i r : is_channel i -> 0 <= r < 8 -> decode (base_of i + r) = Some (i, r).
Proof.
  intros [->| ->] Hr; unfold decode, base_of; simpl Z.eqb; cbv iota.
  - rewrite (proj2 (Z.leb_le _ _)), (proj2 (Z.ltb_lt _ _)) by lia. simpl. do 2 f_equal. lia.
  - rewrite (proj2 (Z.leb_gt 0x1F0 _)) by lia. cbn [andb]. rewrite (proj2 (Z.leb_le _ _)), (proj2 (Z.ltb_lt _ _)) by lia. simpl. do 2 f_equal. lia.
Qed.

Lemma move_moves i w c : moves c i w (medium c) (move i w c).
Proof. by split. Qed.
Lemma stay_moves i (c : Sim) : moves c i (view c i) (medium c) c.
Proof. split; [|done]. intros j. by case_decide; subst. Qed.

Lemma sim_step_store i c data d ds c' :
  ph (sim_view c i) = Storing data (d :: ds) -> length data = 512%nat -> Forall in_u8 data -> is_channel i -> sim_step i c = Some c' ->
  moves c i (set_phase (match ds with [] => Idle | _ => Storing data ds end) (view c i))
    (match ds with [] => put_sector i (slave (view c i)) (lba (view c i)) data (medium c) | _ => medium c end) c'.2.
Proof.
  intros Hp Hl HF Hi. unfold sim_step. rewrite Hp. intros [= <-]. cbn [snd]. destruct ds as [|d' ds]; [|by split].
  split; [done|]. intros j e x. unfold put_sector.
  change (ops_read (set_drive (i, slave (sim_view c i)) (ops_write (sim_disk c i (slave (sim_view c i))) (lba (sim_view c i)) data) (sim_disk c) j e) x =
    (if decide (j = i /\ e = slave (sim_view c i) /\ x = lba (sim_view c i)) then data else ops_read (sim_disk c j e) x)).
  unfold set_drive. case_decide as E.
  - injection E as -> ->. case_decide as E'; [destruct E' as (_ & _ & ->); by apply ops_read_write|].
    apply ops_read_write_ne. intros Ex. by apply E'.
  - rewrite decide_False; [done|]. intros (-> & -> & _). by apply E.
Qed.

Lemma sim_irqs c : Forall (fun n => 0 <= n < 16) (elapse c).1.2.
Proof.
  assert (forall i x, is_channel i -> sim_step i c = Some x -> Forall (fun n => 0 <= n < 16) x.1.2) as H.
  { intros i x [->| ->]; unfold sim_step; intros H; repeat case_match; try discriminate H; injection H as <-; repeat constructor; unfold irq_of; lia. }
  simpl. unfold sim_elapse. destruct (sim_step 0 c) eqn:E0; [by eapply H; [left|]|].
  destruct (sim_step 1 c) eqn:E1; [by eapply H; [right|]|]. by repeat constructor.
Qed.

#[export] Instance Sim_laws : AtaLaws Sim.
Proof.
  split.
  - intros c i d s. split; [apply (ops_read_length (D := RamDisk))|apply (ops_read_bytes (D := RamDisk))].
  - intros c i r v Hi Hp Hr Hv. simpl. unfold sim_out8. rewrite decode_base by (done || lia).
    rewrite (proj2 (Z.leb_le _ _)), (proj2 (Z.leb_le _ _)) by lia. apply move_moves.
  - intros c i Hi Hp Hs. exists [1; 2]. split; [split_and!; [done|by repeat constructor|done|simpl; lia]|].
    simpl. unfold sim_out8. rewrite decode_base by (done || lia). apply move_moves.
  - intros c i Hi Hp Hs. exists (Preparing (replicate 3 (if sim_noise c then 0x81 else 0x80))). split.
    { right. eexists. split; [done|]. split_and!; [done|done|]. apply Forall_replicate. by destruct (sim_noise c). }
    simpl. unfold sim_out8. rewrite decode_base by (done || lia). apply move_moves.
  - intros c i Hi. simpl. unfold sim_in8. rewrite decode_base by (done || lia). simpl. unfold sim_status.
    destruct (ph (sim_view c i)) as [| | |[|x sts]| |]; cbn [fst snd]; [apply stay_moves|done| |done|..|done].
    + split; [done|apply stay_moves].
    + split; [done|apply move_moves].
    + split; [done|split; [done|apply stay_moves]].
  - intros c i lo hi rest Hi Hp. simpl in *. unfold sim_in16. rewrite <- (Z.add_0_r (base_of i)), decode_base by (done || lia). rewrite Hp.
    split; [done|apply move_moves].
  - intros c i got v Hi Hp Hv Hg. exists [2]. split; [split_and!; [done|by repeat constructor|done|simpl; lia]|]. simpl in *. unfold sim_out16.
    rewrite <- (Z.add_0_r (base_of i)), decode_base by (done || lia). rewrite Hp. apply move_moves.
  - intros c i Hi Hq.
    assert (match ph (sim_view c i) with Seeking _ (_ :: _) | Storing _ (_ :: _) => Some (elapse c) = sim_step i c | _ => True end) as He.
    { simpl. unfold sim_elapse, sim_step. destruct Hi as [->| ->]; [by destruct (ph (sim_view c 0)) as [|? []| | | |? []]|].
      pose proof (Hq 0 ltac:(by left) ltac:(done)) as H0. simpl in H0. rewrite H0. by destruct (ph (sim_view c 1)) as [|? []| | | |? []]. }
    split; [apply sim_irqs|]. change (elapse c) with (sim_elapse c) in *. change (ph (view c i)) with (ph (sim_view c i)).
    destruct (ph (sim_view c i)) as [|data [|d ds]| | | |data [|d ds]] eqn:Hp; try done.
    + unfold sim_step in He. rewrite Hp in He. injection He as ->. cbn [fst snd]. split_and!; [done| |apply move_moves].
      destruct ds; [|done]. by destruct Hi as [->| ->].
    + intros Hl HF. symmetry in He. pose proof (sim_step_store i c data d ds _ Hp Hl HF Hi He) as Hm.
      unfold sim_step in He. rewrite Hp in He. injection He as He. rewrite <- He in Hm |- *. cbn [fst snd] in Hm |- *. split_and!; [done| |exact Hm].
      destruct ds; [|done]. by destruct Hi as [->| ->].
  - intros c p v [->| ->]; by split.
Qed.

(** Power on: nothing is registered, the disks are empty. *)
Definition sim_boot : Ide Sim :=
  mkIde None (mkSim (fun _ => mkRegs 0 0 0 0 0 Idle) (fun _ _ => ∅) false) 0 [] idt_boot empty_registry.

(** [init] finds the two disks, registers them under their names and sizes, and leaves both channels
    ready. *)
Example init_finds_disks :
  wp (init 5) sim_boot (fun _ s =>
    map (fun d => (take 3 (dev_name d), dev_size d, dev_ops d)) (DEVICES (ide_registry s)) =
      [([104; 100; 97], 100, mkOps 0 0); ([104; 100; 98], 64, mkOps 0 1)] /\
    messages s = [Found "hda" 50 100; Found "hdb" 32 64] /\
    (fun l => map (fun c => (reg_base c, lock c, expecting_interrupt c, completion c)) l) <$> CHANNELS s =
      Some [(0x1F0, false, false, 0); (0x170, false, false, 0)] /\
    ph (view (ports s) 0) = Idle /\ ph (view (ports s) 1) = Idle).
Proof. vm_compute. auto. Qed.

(** The driver after [init]. *)
Definition sim_channels : list Channel :=
  [mkChannel [] 0x1F0 14 false false 0 [mkAta (hd 97) 0 0 true 100; mkAta (hd 98) 0 1 true 64]; mkChannel [] 0x170 15 false false 0 []].
Definition sim_handlers : list HandlerEntry :=
  <[46%nat := mkEntry (Some ide_interrupt_ch0) "ide0" false]> (<[47%nat := mkEntry (Some ide_interrupt_ch1) "ide1" false]> (replicate 256 entry_empty)).
Definition sim_ready : Ide Sim :=
  mkIde (Some sim_channels) (ports sim_boot) 0 [] (mkIdt sim_handlers (replicate 256 gate_null)) empty_registry.

Lemma sim_ready_ok : ide_ok sim_ready.
Proof.
  split_and!.
  - exists sim_channels. split_and!; [done|done|]. intros i ch [->| ->] [= <-]; by split_and!.
  - done.
  - intros n Hn. assert (n ∈ seqZ 0 16) as H by (apply elem_of_seqZ; lia).
    repeat (apply elem_of_cons in H as [->|H]; [eexists; split; [reflexivity|reflexivity]|]). by apply not_elem_of_nil in H.
Qed.

(** A sector written to the master's sector 7 is read back; the slave's is still empty. *)
Lemma ide_implements_blocks_witness :
  wp (run_ops 5 [Wr (mkOps 0 0) 7 (replicate 512 9); Rd (mkOps 0 0) 7; Rd (mkOps 0 1) 7]) sim_ready (fun rs s' =>
    rs = [replicate 512 9; replicate 512 0] /\ messages s' = []).
Proof.
  eapply wp_mono.
  - apply (ide_implements_blocks (D := RamDisk) sim_ready 5 _ (fun _ _ => ∅)).
    + exact sim_ready_ok.
    + simpl. lia.
    + intros i d. simpl. unfold sim_capacity. destruct (i =? 0), d; lia.
    + repeat constructor; simpl; try lia; by apply Forall_replicate.
    + assert (Forall no_flags (shown (mkOps 0 0) 7 sim_ready)) as Hq by (vm_compute; repeat constructor).
      assert (forall s, calm_run 5 [Rd (mkOps 0 0) 7; Rd (mkOps 0 1) 7] s) as Hr.
      { intros s. cbn [calm_run]. unfold wlp. case_match; [|done..]. by case_match. }
      split; [exact Hq|]. unfold wlp. case_match; [apply Hr|done..].
    + done.
  - intros rs s' (-> & _ & _ & -> & _). split; [by vm_compute|done].
Defined.

(** The same with a controller whose status byte has ERR set while it is busy: nothing is written. *)
Definition sim_noisy : Ide Sim :=
  mkIde (Some sim_channels) (mkSim (fun _ => mkRegs 0 0 0 0 0 Idle) (fun _ _ => ∅) true) 0 []
    (mkIdt sim_handlers (replicate 256 gate_null)) empty_registry.

Lemma busy_status_drops_write_witness :
  wp (write 5 (mkOps 0 0) 7 (replicate 512 9)) sim_noisy (fun _ s' =>
    messages s' = [WriteError 7] /\ medium (ports s') 0 false 7 = replicate 512 0).
Proof.
  eapply wp_mono.
  - apply (busy_status_drops_write sim_noisy 5 0 0 7 (replicate 512 9) 0x81 [0x81; 0x81]).
    + destruct sim_ready_ok as (H1 & H2 & H3). by split_and!.
    + simpl. lia.
    + by left.
    + done.
    + vm_compute. reflexivity.
    + done.
  - intros [] s' (-> & Hm & _). split; [done|]. rewrite Hm. vm_compute. reflexivity.
Defined.

(** ** A disk that does not answer *)
Inductive Dead : Set := dead.
#[export] Instance Dead_ports : PortIO Dead := {
  in8 := fun _ c => (0x80, c); out8 := fun _ _ c => c; in16 := fun _ c => (0xFFFF, c); out16 := fun _ _ c => c;
  in32 := fun _ c => (0, c); out32 := fun _ _ c => c }.
#[export] Instance Dead_passing : Passing Dead := { elapse := fun c => ((50, [0]), c); spin := fun _ c => c }.
Definition dead_ready : Ide Dead :=
  mkIde (Some sim_channels) dead 0 [] (mkIdt sim_handlers (replicate 256 gate_null)) empty_registry.

(** A read of a disk that stays busy answers with the bytes of the data port, as if it had
    succeeded, and says nothing. *)
Example dead_disk_read : wp (read 10 (mkOps 0 0) 7 sector_buf) dead_ready (fun buf s =>
  buf = replicate 512 255 /\ messages s = []).
Proof. vm_compute. auto. Qed.

(** A write gives up with a message, and the channel goes on expecting the interrupt of the command:
    when it comes, it completes the next one. *)
Example dead_disk_write : wp (write 10 (mkOps 0 0) 7 sector_buf) dead_ready (fun _ s =>
  messages s = [DrqTimeout 7] /\ (map expecting_interrupt <$> CHANNELS s) = Some [true; false]).
Proof. vm_compute. auto. Qed.
