(* ===== verification/Paging.v ===== *)
(** The kernel's own page tables (mem/paging.rs): physical memory mapped at [PHYS_BASE]. *)
From S2P Require Import Prelude Memory Palloc Pagedir.

Section paging.
(** The addresses of the kernel's code, from the linker. *)
Context (_start_text _end_kernel_text : Z).

(** The loop of [init]: the pages to map, and the current page table. *)
Fixpoint map_ram (pages : list Z) (pd pt : Z) : M Paging unit :=
  match pages with
  | [] => ret tt
  | page :: pages' =>
      let! paddr := u32_mul page PGSIZE in
      let! vaddr := ptov paddr in
      let! e := load (pd + 4 * pde_idx vaddr) in
      let! pt :=
        (if e =? 0 then
           let! pt := on_pa (Palloc.get_page (Z.lor ASSERT ZERO)) in
           let! phys := vtop pt in
           put (pd + 4 * pde_idx vaddr) (Z.lor (Z.lor (Z.lor phys PTE_P) PTE_W) PTE_U) ;;
           ret pt
         else ret pt) in
      let writable := negb ((_start_text <=? vaddr) && (vaddr <? _end_kernel_text)) in
      let flags := Z.lor PTE_P (if writable then PTE_W else 0) in
      put (pt + 4 * pte_idx vaddr) (Z.lor paddr flags) ;;
      map_ram pages' pd pt
  end.

Definition get_ram_pages (boot : BootInfo) : M Paging Z := on_pa (detect_ram_pages boot).

Definition init (boot : BootInfo) : M Paging unit :=
  let! ram_pages := get_ram_pages boot in
  let! pd := on_pa (Palloc.get_page (Z.lor ASSERT ZERO)) in
  map_ram (range 0 ram_pages) pd 0 ;;
  modify (fun s => mkPaging (pg_pa s) pd (cr3 s) (invlpg s)) ;;
  let! pd_phys := vtop pd in
  modify (fun s => mkPaging (pg_pa s) (INIT_PAGE_DIR s) pd_phys (invlpg s)).

Definition page_dir : M Paging Z := gets INIT_PAGE_DIR.

(** ** Free pages *)

(** At least [n] pages of the kernel's pool are free. *)
Definition free_pages (n : nat) (st : Palloc) : Prop :=
  exists l, NoDup l /\ (n <= length l)%nat /\
    forall p, p ∈ l -> base (KERNEL_POOL st) <= p /\ p mod PGSIZE = 0 /\ p + PGSIZE <= pool_end (KERNEL_POOL st) /\ live st p = false.

Lemma page_is_one p a : p mod PGSIZE = 0 -> is_page p 1 a = true -> a = p.
Proof. unfold is_page, PGSIZE. intros Hp [[H1 H2]%andb_true_iff H3]%andb_true_iff. apply Z.leb_le in H1. apply Z.ltb_lt in H2. apply Z.eqb_eq in H3. Z.div_mod_to_equations. lia. Qed.

Lemma free_pages_less n st st' p :
  free_pages (S n) st -> KERNEL_POOL st' = KERNEL_POOL st -> (forall a, live st' a = true -> live st a = true \/ a = p) -> free_pages n st'.
Proof.
  intros (l & Hd & Hl & Hp) Ek Hlive.
  assert (exists l', NoDup l' /\ (n <= length l')%nat /\ p ∉ l' /\ forall x, x ∈ l' -> x ∈ l) as (l' & Hd' & Hl' & Hn & Hsub).
  { destruct (decide (p ∈ l)) as [Hin|Hin]; [|exists l; split_and!; [done|lia|done|done]].
    apply elem_of_Permutation in Hin as [l' E]. exists l'. rewrite E in Hd. apply NoDup_cons in Hd as [Hn Hd].
    apply Permutation_length in E as El. simpl in El. split_and!; [done|lia|done|]. intros x Hx. rewrite E. by right. }
  exists l'. split_and!; [done|done|]. intros q Hq. rewrite Ek. destruct (Hp q (Hsub q Hq)) as (H1 & H2 & H3 & H4). split_and!; try done.
  destruct (live st' q) eqn:E; [|done]. destruct (Hlive q E) as [?| ->]; [congruence|done].
Qed.

Lemma free_pages_same n st st' : free_pages n st -> KERNEL_POOL st' = KERNEL_POOL st -> (forall a, live st' a = live st a) -> free_pages n st'.
Proof. intros (l & Hd & Hl & Hp) Ek Hlive. exists l. split_and!; [done|done|]. intros q Hq. rewrite Ek, Hlive. by apply Hp. Qed.

Lemma wp_get_assert n s (Q : Z -> Paging -> Prop) :
  pa_ok (pg_pa s) -> free_pages (S n) (pg_pa s) -> (forall p pa', got ZERO 1 (pg_pa s) p pa' -> Q p (with_pa pa' s)) ->
  wp (on_pa (Palloc.get_page (Z.lor ASSERT ZERO))) s Q.
Proof.
  intros Hok (l & Hd & Hl & Hp) HQ. apply wp_zoom. assert (~ exhausted ZERO 1 (pg_pa s)) as Hex.
  { destruct l as [|p l]; [simpl in Hl; lia|]. destruct (Hp p) as (Hb & Hm & He & Hlive); [by left|]. intros Hx.
    destruct (Hx p Hb Hm) as (a & Ha & Hla); [unfold pool_of; simpl; lia|]. apply page_is_one in Ha; [congruence|done]. }
  pose proof (get_multiple_spec (Z.lor ASSERT ZERO) 1 (pg_pa s) Hok ltac:(done)) as H. unfold wp, Palloc.get_page.
  destruct (get_multiple (Z.lor ASSERT ZERO) 1 (pg_pa s)) as [p st'| | |]; [|by destruct H|done|done].
  destruct H as [(_ & _ & Hx)|Hg]; [by destruct Hex|]. apply HQ. destruct Hg; by split.
Qed.

(** ** The map *)
Definition writable (va : Z) : bool := negb ((_start_text <=? va) && (va <? _end_kernel_text)).
Definition kernel_pte (page : Z) : Z := Z.lor (page * PGSIZE) (Z.lor PTE_P (if writable (PHYS_BASE + page * PGSIZE) then PTE_W else 0)).
Definition tables (k : Z) : Z := (k + 1023) / 1024.

(** The first [k] pages of memory are mapped; [pt] is the table in use. *)
Record ram_mapped (k : Z) (s : Paging) (pd pt : Z) : Prop := {
  rm_pa : pa_ok (pg_pa s);
  rm_base : PHYS_BASE <= base (KERNEL_POOL (pg_pa s));
  rm_pd : pd_ok s pd;
  rm_pde : forall i, 0 <= i < 1024 -> pde s pd i <> 0 -> 768 <= i < 768 + tables k;
  rm_pt : k mod 1024 <> 0 -> pde s pd (768 + k / 1024) <> 0 /\ pt = table s pd (768 + k / 1024);
  rm_map : forall va, in_u32 va -> mapping s pd va =
    if decide (PHYS_BASE <= va < PHYS_BASE + k * PGSIZE) then Some (kernel_pte ((va - PHYS_BASE) / PGSIZE)) else None;
}.

Lemma kernel_pte_ok page : 0 <= page < 2 ^ 18 ->
  in_u32 (kernel_pte page) /\ Z.land (kernel_pte page) PTE_ADDR = page * PGSIZE /\ Z.land (kernel_pte page) PTE_P = PTE_P /\
  Z.land (kernel_pte page) PTE_U = 0 /\ Z.land (kernel_pte page) PTE_W = (if writable (PHYS_BASE + page * PGSIZE) then PTE_W else 0).
Proof.
  intros Hp. unfold kernel_pte. set (w := writable _).
  assert ((page * PGSIZE) mod PGSIZE = 0) as Hm by (by apply Z.mod_mul).
  set (f := Z.lor PTE_P (if w then PTE_W else 0)). assert (0 <= f < PGSIZE) as Hf by (unfold f; by destruct w).
  split_and!.
  - rewrite lor_page by done. unfold in_u32, PGSIZE, u32_lim in *. lia.
  - apply entry_addr; [unfold PGSIZE, u32_lim; lia|done..].
  - rewrite entry_flags by done. unfold f. by destruct w.
  - rewrite entry_flags by done. unfold f. by destruct w.
  - rewrite entry_flags by done. unfold f. by destruct w.
Qed.

Lemma page_indices k : 0 <= k < 2 ^ 18 ->
  pde_idx (PHYS_BASE + k * PGSIZE) = 768 + k / 1024 /\ pte_idx (PHYS_BASE + k * PGSIZE) = k mod 1024 /\ in_u32 (PHYS_BASE + k * PGSIZE).
Proof. intros Hk. rewrite pde_idx_div, pte_idx_mod. unfold in_u32, u32_lim, PHYS_BASE, PGSIZE in *. split_and!; Z.div_mod_to_equations; lia. Qed.

(** One more page. *)
Lemma put_ram_mapped k s s1 pd pt :
  0 <= k < 2 ^ 18 -> ram_mapped k s pd pt -> grown pd (768 + k / 1024) s s1 ->
  ram_mapped (k + 1) (put_pte pd s1 (PHYS_BASE + k * PGSIZE) (kernel_pte k)) pd (table s1 pd (768 + k / 1024)).
Proof.
  intros Hk H Hg. destruct (page_indices k Hk) as (E1 & E2 & Hva). destruct (kernel_pte_ok k Hk) as (Hv & _ & HP & _).
  assert (0 <= 768 + k / 1024 < 1024) as Hi by (Z.div_mod_to_equations; lia).
  assert (pde s1 pd (pde_idx (PHYS_BASE + k * PGSIZE)) <> 0) as Hn by (rewrite E1; apply Hg).
  pose proof (gr_pa _ _ _ _ Hg) as Hpa. pose proof (gr_pd _ _ _ _ Hg) as Hpd.
  destruct (put_ok pd s1 _ (kernel_pte k) Hpa Hpd Hva Hn) as [Hpa' Hpd']. split; try done.
  - simpl. destruct (gr_pools _ _ _ _ Hg) as [-> _]. apply H.
  - intros i Hii Hne. rewrite put_pde in Hne by done. unfold tables in *. destruct (decide (i = 768 + k / 1024)) as [->|Hd]; [Z.div_mod_to_equations; lia|].
    rewrite (gr_others _ _ _ _ Hg) in Hne by done. pose proof (rm_pde _ _ _ _ H i Hii Hne). unfold tables in *. Z.div_mod_to_equations. lia.
  - intros Hm. assert ((k + 1) / 1024 = k / 1024) as -> by (Z.div_mod_to_equations; lia). rewrite put_pde by done. split; [apply Hg|].
    unfold table. by rewrite put_pde.
  - intros va Hva'. rewrite put_mapping by done. rewrite HP. simpl (PTE_P =? 0). cbv iota.
    rewrite (mapping_grown pd _ s s1) by (done || apply H). rewrite (rm_map _ _ _ _ H va Hva').
    unfold in_u32, u32_lim, PHYS_BASE, PGSIZE in *. repeat case_decide; try done; try (exfalso; Z.div_mod_to_equations; lia).
    f_equal. f_equal. Z.div_mod_to_equations. lia.
Qed.

(** The table for page [k]: the current one, or a new one. *)
Lemma wp_table k ram s pd pt (Q : Z -> Paging -> Prop) :
  0 <= k < ram -> ram <= 2 ^ 18 -> ram_mapped k s pd pt -> free_pages (Z.to_nat (tables ram - tables k)) (pg_pa s) ->
  (forall s1, grown pd (768 + k / 1024) s s1 -> free_pages (Z.to_nat (tables ram - tables (k + 1))) (pg_pa s1) ->
    cr3 s1 = cr3 s -> invlpg s1 = invlpg s -> Q (table s1 pd (768 + k / 1024)) s1) ->
  wp (if pde s pd (768 + k / 1024) =? 0 then
        let! pt := on_pa (Palloc.get_page (Z.lor ASSERT ZERO)) in
        let! phys := vtop pt in
        put (pd + 4 * (768 + k / 1024)) (Z.lor (Z.lor (Z.lor phys PTE_P) PTE_W) PTE_U) ;;
        ret pt
      else ret pt) s Q.
Proof.
  intros Hk Hr H Hf HQ. pose proof (rm_pa _ _ _ _ H) as Hpa. pose proof (rm_pd _ _ _ _ H) as Hpd. pose proof (rm_base _ _ _ _ H) as Hb.
  assert (0 <= 768 + k / 1024 < 1024) as Hi by (Z.div_mod_to_equations; lia). unfold tables in *.
  destruct (Z.eqb_spec (pde s pd (768 + k / 1024)) 0) as [E|E].
  - assert (k mod 1024 = 0) as Hm by (destruct (decide (k mod 1024 = 0)); [done|]; by destruct (rm_pt _ _ _ _ H)).
    assert (Z.to_nat ((ram + 1023) / 1024 - (k + 1023) / 1024) = S (Z.to_nat ((ram + 1023) / 1024 - (k + 1 + 1023) / 1024))) as En by (Z.div_mod_to_equations; lia).
    rewrite En in Hf. apply wp_bind. eapply wp_get_assert; [done|exact Hf|]. intros p pa' Hg.
    assert (PHYS_BASE <= p) as Hpp by (destruct (got_pool _ _ _ _ _ Hg); unfold pool_of in *; simpl in *; lia).
    pose proof (grown_new pd _ s pa' p Hpa Hpd Hi E Hpp Hg) as Hgr.
    apply wp_bind, wp_vtop; [done|]. rewrite <- !Z.lor_assoc. change (Z.lor PTE_P (Z.lor PTE_W PTE_U)) with 7. apply wp_bind, wp_modify, wp_ret.
    destruct (got_pos _ _ _ _ _ Hg) as [_ Hpm]. pose proof (live_page pa' p (got_ok _ _ _ _ _ Hg)) as Hlp.
    destruct Hlp as (_ & _ & Hlim & _). { rewrite (got_live _ _ _ _ _ Hg). unfold is_page. rewrite (proj2 (Z.leb_le _ _)), (proj2 (Z.ltb_lt _ _)), (proj2 (Z.eqb_eq _ _)) by (done || unfold PGSIZE in *; lia). done. }
    set (s1 := with_pa _ s) in Hgr. assert (table s1 pd (768 + k / 1024) = p) as Et.
    { unfold table, pde, mem, s1. simpl. assert (0 <= p - PHYS_BASE < u32_lim) by (unfold PHYS_BASE, PGSIZE, u32_lim in *; lia).
      assert ((p - PHYS_BASE) mod PGSIZE = 0) as Hm' by (unfold PHYS_BASE, PGSIZE in *; Z.div_mod_to_equations; lia).
      rewrite read_write_u32, entry_addr by (done || (rewrite lor_page by done; unfold in_u32, PHYS_BASE, PGSIZE, u32_lim in *; lia)). lia. }
    cut (Q (table s1 pd (768 + k / 1024)) s1); [by rewrite Et|]. apply HQ; [exact Hgr| |done|done]. eapply free_pages_less; [exact Hf|apply Hgr|]. apply Hgr.
  - assert (k mod 1024 <> 0) as Hm. { intros Hm. pose proof (rm_pde _ _ _ _ H _ Hi E). unfold tables in *. Z.div_mod_to_equations. lia. }
    destruct (rm_pt _ _ _ _ H Hm) as [_ ->]. apply wp_ret, HQ; [by apply grown_refl| |done|done].
    eapply free_pages_same; [|done|done]. replace ((k + 1 + 1023) / 1024) with ((k + 1023) / 1024) by (Z.div_mod_to_equations; lia). done.
Qed.

Lemma wp_map_ram ram pd : ram <= 2 ^ 18 -> forall k s pt (Q : unit -> Paging -> Prop),
  0 <= k <= ram -> ram_mapped k s pd pt -> free_pages (Z.to_nat (tables ram - tables k)) (pg_pa s) ->
  (forall s' pt', ram_mapped ram s' pd pt' -> cr3 s' = cr3 s -> invlpg s' = invlpg s -> Q tt s') ->
  wp (map_ram (range k ram) pd pt) s Q.
Proof.
  intros Hr k s pt Q Hk. remember (Z.to_nat (ram - k)) as n eqn:En. revert k s pt Q Hk En. induction n as [|n IH]; intros k s pt Q Hk En H Hf HQ.
  - rewrite range_nil by lia. assert (k = ram) as -> by lia. by apply wp_ret, (HQ s pt).
  - rewrite range_cons by lia. cbn [map_ram]. assert (0 <= k < 2 ^ 18) as Hk' by lia. destruct (page_indices k Hk') as (E1 & E2 & Hva).
    unfold in_u32, PHYS_BASE, PGSIZE in Hva. apply wp_bind, wp_u32_mul; [unfold PGSIZE; lia|]. apply wp_bind, wp_ptov; [unfold PHYS_BASE, PGSIZE in *; lia|].
    rewrite (Z.add_comm (k * PGSIZE)). rewrite E1, E2. apply wp_bind, wp_gets. fold (pde s pd (768 + k / 1024)).
    apply wp_bind. eapply (wp_table k ram); [lia|done|exact H|exact Hf|]. intros s1 Hg Hf1 Hc1 Hi1. apply wp_bind, wp_modify.
    pose proof (put_ram_mapped k s s1 pd pt Hk' H Hg) as H1. fold (writable (PHYS_BASE + k * PGSIZE)). fold (kernel_pte k).
    assert (put_pte pd s1 (PHYS_BASE + k * PGSIZE) (kernel_pte k) =
      with_pa (with_mem (write_u32 (table s1 pd (768 + k / 1024) + 4 * (k mod 1024)) (kernel_pte k) (mem s1)) (pg_pa s1)) s1) as Ep.
    { unfold put_pte, pte_at. by rewrite E1, E2. }
    rewrite <- Ep. apply (IH (k + 1) _ (table s1 pd (768 + k / 1024))); [lia|lia|exact H1| |].
    + eapply free_pages_same; [exact Hf1|done|]. intros a. apply put_live; [apply Hg|apply Hg|apply page_indices; lia|]. rewrite E1. apply Hg.
    + intros s' pt' Hm Hc Hi. apply (HQ s' pt' Hm); [by rewrite Hc|by rewrite Hi].
Qed.

(** A fresh directory maps nothing. *)
Lemma fresh_directory s pd pa' :
  PHYS_BASE <= base (KERNEL_POOL (pg_pa s)) -> got ZERO 1 (pg_pa s) pd pa' -> ram_mapped 0 (with_pa pa' s) pd 0.
Proof.
  intros Hb Hg. assert (forall i, 0 <= i < 1024 -> pde (with_pa pa' s) pd i = 0) as H0.
  { intros i Hi. unfold pde, mem. simpl. assert (forall x, pd <= x < pd + PGSIZE -> p_mem pa' x = 0) as Hz.
    { intros x Hx. apply (got_zero _ _ _ _ _ Hg); [done|lia]. }
    unfold read_u32. rewrite !Hz by (unfold PGSIZE; lia). done. }
  split; try done.
  - apply Hg.
  - simpl. by destruct (got_pools _ _ _ _ _ Hg) as [-> _].
  - split; [|intros i Hi Hn; by rewrite H0 in Hn|intros i j Hi Hj Hn; by rewrite H0 in Hn].
    simpl. rewrite (got_live _ _ _ _ _ Hg). destruct (got_pos _ _ _ _ _ Hg) as [_ Hm].
    unfold is_page. rewrite (proj2 (Z.leb_le _ _)), (proj2 (Z.ltb_lt _ _)), (proj2 (Z.eqb_eq _ _)) by (done || unfold PGSIZE; lia). done.
  - intros i Hi Hn. by rewrite H0 in Hn.
  - intros va Hva. unfold mapping. rewrite H0 by (by apply pde_idx_range). by rewrite decide_False by (unfold PGSIZE; lia).
Qed.

(** C22: the kernel's address space.  When the page allocator has a page for the directory and one
    for each four megabytes of memory, [init] loads a page directory in which the virtual addresses
    from [PHYS_BASE] on map to the [ram] pages of physical memory, in order; the pages of the
    kernel's code can only be read, all others be written, and user programs can access none of
    them; no other address is mapped. *)
Theorem kernel_map_correct (s : Paging) (boot : BootInfo) (ram : Z) :
  pa_ok (pg_pa s) -> PHYS_BASE <= base (KERNEL_POOL (pg_pa s)) -> detect_ram_pages boot (pg_pa s) = Ok ram (pg_pa s) ->
  0 <= ram <= 2 ^ 18 -> free_pages (S (Z.to_nat (tables ram))) (pg_pa s) ->
  wp (init boot) s (fun _ s' =>
    pa_ok (pg_pa s') /\ pd_ok s' (INIT_PAGE_DIR s') /\ cr3 s' = INIT_PAGE_DIR s' - PHYS_BASE /\
    forall va, in_u32 va ->
      if decide (PHYS_BASE <= va < PHYS_BASE + ram * PGSIZE) then exists pte,
        mapping s' (INIT_PAGE_DIR s') va = Some pte /\ Z.land pte PTE_ADDR = va - PHYS_BASE - va mod PGSIZE /\
        Z.land pte PTE_U = 0 /\ (Z.land pte PTE_W <> 0 <-> ~ _start_text <= va - va mod PGSIZE < _end_kernel_text)
      else mapping s' (INIT_PAGE_DIR s') va = None).
Proof.
  intros Hpa Hb Hram Hr Hf. apply wp_bind, wp_zoom. unfold wp. rewrite Hram. fold (with_pa (pg_pa s) s).
  replace (with_pa (pg_pa s) s) with s by (by destruct s). apply wp_bind. eapply wp_get_assert; [done|exact Hf|]. intros pd pa' Hg.
  pose proof (fresh_directory s pd pa' Hb Hg) as H0. apply wp_bind. apply (wp_map_ram ram pd ltac:(lia) 0 _ 0 _ ltac:(lia) H0).
  - change (tables 0) with 0. rewrite Z.sub_0_r. eapply free_pages_less; [exact Hf|apply Hg|]. intros a Ha.
    simpl in Ha. rewrite (got_live _ _ _ _ _ Hg) in Ha. apply orb_true_iff in Ha as [Ha|Ha]; [right|by left].
    apply page_is_one in Ha; [done|apply Hg].
  - intros s' pt' [Ha _ Hp _ _ Hm] _ _. apply wp_bind, wp_modify, wp_bind, wp_vtop.
    { destruct (got_pool _ _ _ _ _ Hg). unfold pool_of in *. simpl in *. lia. }
    apply wp_modify. cbn [INIT_PAGE_DIR cr3 pg_pa]. split_and!; [done|by destruct Hp; split|done|]. intros va Hva.
    set (m := mapping _ pd va). assert (m = mapping s' pd va) as Em by done. clearbody m. rewrite Hm in Em by done. subst m.
    case_decide as Hin; [|done]. exists (kernel_pte ((va - PHYS_BASE) / PGSIZE)).
    assert (0 <= (va - PHYS_BASE) / PGSIZE < 2 ^ 18) as Hk by (unfold in_u32, u32_lim, PHYS_BASE, PGSIZE in *; Z.div_mod_to_equations; lia).
    destruct (kernel_pte_ok _ Hk) as (_ & -> & _ & -> & ->).
    assert (PHYS_BASE + (va - PHYS_BASE) / PGSIZE * PGSIZE = va - va mod PGSIZE) as E by (unfold PHYS_BASE, PGSIZE in *; Z.div_mod_to_equations; lia).
    rewrite E. split_and!; [done|lia|done|]. unfold writable.
    destruct (Z.leb_spec _start_text (va - va mod PGSIZE)), (Z.ltb_spec (va - va mod PGSIZE) _end_kernel_text); simpl; split; (done || lia).
Qed.
End paging.

(** Sixteen pages of memory, whose first page holds code. *)
Lemma kernel_map_correct_witness :
  wp (init PHYS_BASE (PHYS_BASE + 16) (mkBoot 16 0 0xC0100000)) demo_paging (fun _ s' =>
    mapping s' (INIT_PAGE_DIR s') 0x08048000 = None /\
    exists pte, mapping s' (INIT_PAGE_DIR s') (PHYS_BASE + 0x1234) = Some pte /\ Z.land pte PTE_ADDR = 0x1000).
Proof.
  eapply wp_mono.
  - apply (kernel_map_correct PHYS_BASE (PHYS_BASE + 16) demo_paging (mkBoot 16 0 0xC0100000) 16).
    + apply demo_pa_ok.
    + done.
    + done.
    + done.
    + exists [0xC0102000; 0xC0104000]. split_and!; [|vm_compute; lia|].
      * repeat constructor; set_solver.
      * intros p Hp. repeat (apply elem_of_cons in Hp as [->|Hp]; [by vm_compute|]). by apply not_elem_of_nil in Hp.
  - intros _ s' (_ & _ & _ & H). split; [exact (H 0x08048000 ltac:(done))|].
    destruct (H (PHYS_BASE + 0x1234) ltac:(done)) as (pte & Hm & Ha & _). exists pte. split; [exact Hm|]. by rewrite Ha.
Defined.
