(* ===== verification/Serial.v ===== *)
(** The serial port (devices/serial.rs), console output (console.rs) and shutdown
    (devices/shutdown.rs), and what goes over the serial line. *)
From S2P Require Import Prelude Btree Thread Sync SchedTotal VgaProofs Input Ports Idt Vga.

Definition IO_BASE : Z := 0x3F8.
Definition THR : Port := mkPort IO_BASE.
Definition IER : Port := mkPort (IO_BASE + 1).
Definition FCR : Port := mkPort (IO_BASE + 2).
Definition LCR : Port := mkPort (IO_BASE + 3).
Definition MCR : Port := mkPort (IO_BASE + 4).
Definition LSR : Port := mkPort (IO_BASE + 5).
Definition DLL : Port := mkPort IO_BASE.
Definition DLH : Port := mkPort (IO_BASE + 1).
Definition LCR_N81 : Z := 0x03.
Definition LCR_DLAB : Z := 0x80.
Definition MCR_OUT2 : Z := 0x08.
Definition LSR_DR : Z := 0x01.
Definition LSR_THRE : Z := 0x20.
Definition RBR : Port := mkPort IO_BASE.

Section serial.
Context {C : Type} `{!PortIO C}.

Definition init : M C unit :=
  write_u8 IER 0x00 ;;
  write_u8 FCR 0x00 ;;
  let divisor := 12 in
  write_u8 LCR (Z.lor LCR_N81 LCR_DLAB) ;;
  write_u8 DLL (Z.land divisor 0xFF) ;;
  write_u8 DLH (Z.shiftr divisor 8) ;;
  write_u8 LCR LCR_N81 ;;
  write_u8 MCR MCR_OUT2.

(** The loops poll the line without a bound; [fuel] bounds the turns. *)
Context (fuel : nat).

(** [while (LSR.read_u8() & LSR_DR) != 0 { body }] *)
Fixpoint while_data {S} (n : nat) (on : forall A, M C A -> M S A) (body : M S unit) : M S unit :=
  match n with
  | O => fun _ => OutOfFuel
  | S n' =>
      let! v := on Z (read_u8 LSR) in
      if Z.land v LSR_DR =? 0 then ret tt
      else body ;; while_data n' on body
  end.

(** Writing a byte. *)
Fixpoint putc_loop (n : nat) (byte : Z) : M C unit :=
  match n with
  | O => fun _ => OutOfFuel
  | S n' =>
      let! v := read_u8 LSR in
      if Z.land v LSR_THRE =? 0 then putc_loop n' byte
      else write_u8 THR byte
  end.
Definition putc (byte : Z) : M C unit := putc_loop fuel byte.

(** [SerialWriter::write_str] *)
Definition write_str (s : list Z) : M C unit :=
  for_each s (fun byte =>
    (if byte =? 10 then putc 13 else ret tt) ;;
    putc byte).

(** ** Input *)
Record SerialIn := mkSerialIn { si_ports : C; si_console : Console; si_idt : Idt }.
Definition on_ports (A : Type) (m : M C A) : M SerialIn A :=
  zoom si_ports (fun c s => mkSerialIn c (si_console s) (si_idt s)) m.
Definition on_console {A} (m : M Console A) : M SerialIn A :=
  zoom si_console (fun c s => mkSerialIn (si_ports s) c (si_idt s)) m.

Definition init_input : M SerialIn unit :=
  on_ports _ (write_u8 FCR 0x07) ;;
  on_ports _ (write_u8 IER 0x01) ;;
  zoom si_idt (fun i s => mkSerialIn (si_ports s) (si_console s) i) (register_ext 4 Idt.serial_interrupt "serial") ;;
  on_ports _ (pic_unmask 4) ;;
  while_data fuel on_ports (on_ports _ (read_u8 RBR) ;; ret tt).

Definition serial_interrupt : M SerialIn unit :=
  while_data fuel on_ports (
    let! c := on_ports _ (read_u8 RBR) in
    on_console (Input.putc c)).

(** ** Console output: the screen and the serial port *)
Record Out := mkOut { o_vga : Vga; o_ports : C }.
Definition write_fmt (s : list Z) : M Out unit :=
  zoom o_vga (fun v o => mkOut v (o_ports o)) (Vga.write_str s) ;;
  zoom o_ports (fun c o => mkOut (o_vga o) c) (write_str s).

(** ** Shutdown: the writes before the processor halts *)
Definition power_off : M C unit :=
  write_u16 (mkPort 0xB004) 0x2000 ;;
  for_each [83; 104; 117; 116; 100; 111; 119; 110] (fun c => write_u8 (mkPort 0x8900) c) ;;
  write_u8 (mkPort 0x0501) 0x31.

(** One turn of the loop in [reboot]. *)
Definition reboot_turn : M C unit :=
  let! _ := poll fuel (mkPort 0x64) (fun v => Z.land v 0x02 =? 0) in
  write_u8 (mkPort 0x64) 0xFE.
End serial.

(** ** What goes over the line *)
(** The serial controller, as its data sheet describes it: whether the divisor latch is open, the
    line's format, the divisor, the status reads until a byte can be sent, the bytes sent, and those
    received and not yet read. *)
Record uart : Set := mkUart { u_dlab : bool; u_line : Z; u_low : Z; u_high : Z; u_wait : nat; u_sent : list Z; u_recv : list Z }.
Definition set_wait (n : nat) (u : uart) : uart := mkUart (u_dlab u) (u_line u) (u_low u) (u_high u) n (u_sent u) (u_recv u).
Definition set_sent (n : nat) (b : Z) (u : uart) : uart := mkUart (u_dlab u) (u_line u) (u_low u) (u_high u) n (u_sent u ++ [b]) (u_recv u).
Definition set_recv (l : list Z) (u : uart) : uart := mkUart (u_dlab u) (u_line u) (u_low u) (u_high u) (u_wait u) (u_sent u) l.
Definition set_line (v : Z) (u : uart) : uart :=
  mkUart (Z.testbit v 7) (v mod 128) (u_low u) (u_high u) (u_wait u) (u_sent u) (u_recv u).
Definition set_low (v : Z) (u : uart) : uart := mkUart (u_dlab u) (u_line u) v (u_high u) (u_wait u) (u_sent u) (u_recv u).
Definition set_high (v : Z) (u : uart) : uart := mkUart (u_dlab u) (u_line u) (u_low u) v (u_wait u) (u_sent u) (u_recv u).

Class UartView (C : Type) := { uart_of : C -> uart; uart_patience : nat }.

Class UartLaws (C : Type) `{!PortIO C, !UartView C} : Prop := {
  law_lsr : forall c, let v := (in8 (addr LSR) c).1 in
    (Z.land v LSR_THRE = 0 <-> u_wait (uart_of c) <> O) /\ (Z.land v LSR_DR = 0 <-> u_recv (uart_of c) = []) /\
    uart_of (in8 (addr LSR) c).2 = set_wait (pred (u_wait (uart_of c))) (uart_of c);
  law_thr : forall c b, u_dlab (uart_of c) = false -> u_wait (uart_of c) = O ->
    exists n, (n <= uart_patience)%nat /\ uart_of (out8 (addr THR) b c) = set_sent n b (uart_of c);
  law_rbr : forall c b l, u_dlab (uart_of c) = false -> u_recv (uart_of c) = b :: l ->
    (in8 (addr RBR) c).1 = b /\ uart_of (in8 (addr RBR) c).2 = set_recv l (uart_of c);
  law_lcr : forall c v, uart_of (out8 (addr LCR) v c) = set_line v (uart_of c);
  law_dll : forall c v, u_dlab (uart_of c) = true -> uart_of (out8 (addr DLL) v c) = set_low v (uart_of c);
  law_dlh : forall c v, u_dlab (uart_of c) = true -> uart_of (out8 (addr DLH) v c) = set_high v (uart_of c);
  (* A change of the FIFO mode drops the bytes received. *)
  law_fifo : forall c, exists l, (l = u_recv (uart_of c) \/ l = []) /\ uart_of (out8 (addr FCR) 0 c) = set_recv l (uart_of c);
  law_control : forall c p v, p = addr MCR \/ (p = addr IER /\ u_dlab (uart_of c) = false) -> uart_of (out8 p v c) = uart_of c;
}.

(** A terminal on the line expects a carriage return with each line feed. *)
Definition crlf (s : list Z) : list Z := s ≫= (fun b => if b =? 10 then [13; 10] else [b]).

Section proofs.
Context {C : Type} `{!PortIO C, !UartView C, !UartLaws C}.
Context (fuel : nat) (Hfuel : (uart_patience < fuel)%nat).

(** Ready to send, with these bytes sent and pending. *)
Definition line (c : C) (sent recv : list Z) : Prop :=
  u_dlab (uart_of c) = false /\ (u_wait (uart_of c) <= uart_patience)%nat /\ u_sent (uart_of c) = sent /\ u_recv (uart_of c) = recv.

Lemma wp_putc_loop n : forall c b sent recv (Q : unit -> C -> Prop),
  line c sent recv -> (u_wait (uart_of c) < n)%nat -> (forall c', line c' (sent ++ [b]) recv -> Q tt c') -> wp (putc_loop n b) c Q.
Proof.
  induction n as [|n IH]; intros c b sent recv Q (Hd & Hw & Hs & Hr) Hn HQ; [lia|]. cbn [putc_loop].
  apply wp_bind, wp_read_u8. destruct (law_lsr c) as (Ht & _ & E). destruct (Z.eqb_spec (Z.land (in8 (addr LSR) c).1 LSR_THRE) 0) as [Hz|Hz].
  - apply Ht in Hz. apply (IH _ b sent recv); [unfold line; rewrite E; split_and!; simpl; (done || lia)|rewrite E; simpl; lia|done].
  - destruct (u_wait (uart_of c)) eqn:Ew; [|exfalso; apply Hz, Ht; done]. apply wp_modify.
    destruct (law_thr (in8 (addr LSR) c).2 b) as (k & Hk & E'); [by rewrite E|by rewrite E|].
    apply HQ. unfold line; rewrite E', E; split_and!; simpl; try done. by rewrite Hs.
Qed.

Lemma wp_putc_serial c b sent recv (Q : unit -> C -> Prop) :
  line c sent recv -> (forall c', line c' (sent ++ [b]) recv -> Q tt c') -> wp (putc fuel b) c Q.
Proof. intros Hl HQ. pose proof Hl as (_ & ? & _). eapply wp_putc_loop; [exact Hl|lia|done]. Qed.

Lemma wp_serial_str s : forall c sent recv (Q : unit -> C -> Prop),
  line c sent recv -> (forall c', line c' (sent ++ crlf s) recv -> Q tt c') -> wp (write_str fuel s) c Q.
Proof.
  unfold write_str. induction s as [|b s IH]; intros c sent recv Q Hl HQ; simpl.
  { apply wp_ret, HQ. by rewrite app_nil_r. }
  apply wp_bind, wp_bind. unfold crlf in HQ. simpl in HQ. destruct (b =? 10) eqn:E.
  - apply Z.eqb_eq in E as ->. eapply wp_putc_serial; [exact Hl|]. intros c1 Hl1. eapply wp_putc_serial; [exact Hl1|]. intros c2 Hl2.
    eapply IH; [exact Hl2|]. intros c3 Hl3. apply HQ. by rewrite <- !app_assoc in Hl3.
  - apply wp_ret. eapply wp_putc_serial; [exact Hl|]. intros c1 Hl1. eapply IH; [exact Hl1|]. intros c2 Hl2. apply HQ. by rewrite <- app_assoc in Hl2.
Qed.

(** Received bytes reach the line discipline one after the other. *)
Lemma wp_serial_interrupt l : forall n s sent (P : unit -> Console -> Prop),
  line (si_ports s) sent l -> (length l < n)%nat -> wp (for_each l Input.putc) (si_console s) P ->
  wp (while_data n on_ports (let! c := on_ports _ (read_u8 RBR) in on_console (Input.putc c))) s (fun _ s' =>
    P tt (si_console s') /\ line (si_ports s') sent [] /\ si_idt s' = si_idt s).
Proof.
  induction l as [|b l IH]; intros n s sent P (Hd & Hw & Hs & Hr) Hn HP; (destruct n as [|n]; [simpl in Hn; lia|]);
    cbn [while_data]; apply wp_bind, wp_zoom, wp_read_u8; destruct (law_lsr (si_ports s)) as (_ & Ht & E).
  - rewrite (proj2 (Z.eqb_eq _ _) (proj2 Ht Hr)). apply wp_ret. split; [exact HP|]. split; [|done]. cbn [si_ports]. unfold line. rewrite E. split_and!; simpl; (done || lia).
  - rewrite (proj2 (Z.eqb_neq _ _)) by (intros Hz; apply Ht in Hz; congruence).
    apply wp_bind, wp_bind, wp_zoom, wp_read_u8. set (c1 := (in8 (addr LSR) (si_ports s)).2) in *.
    cbn [si_ports si_console si_idt]. destruct (law_rbr c1 b l) as [Eb E2]; [by rewrite E|by rewrite E|]. rewrite Eb. apply wp_zoom. cbn [si_console].
    assert (wp (Input.putc b) (si_console s) (fun _ k => wp (for_each l Input.putc) k P)) as HP'.
    { cbn [for_each] in HP. unfold wp, bind in HP |- *. by destruct (Input.putc b (si_console s)). }
    eapply wp_mono; [exact HP'|]. intros u k Hk. cbv beta in Hk |- *.
    eapply wp_mono; [apply (IH n (mkSerialIn (in8 (addr RBR) c1).2 k (si_idt s)) sent P)|].
    + cbn [si_ports]. unfold line. rewrite E2, E. split_and!; simpl; (done || lia).
    + simpl in Hn. lia.
    + done.
    + done.
Qed.

Lemma wp_serial_init c (Q : unit -> C -> Prop) :
  u_dlab (uart_of c) = false ->
  (forall c' l, uart_of c' = set_line LCR_N81 (set_high 0 (set_low 12 (set_recv l (uart_of c)))) -> Q tt c') -> wp init c Q.
Proof.
  intros Hd HQ. unfold init. do 6 apply wp_bind, wp_modify. destruct (law_fifo (out8 (addr IER) 0 c)) as (l & _ & El).
  apply wp_modify, (HQ _ l).
  rewrite law_control by auto. rewrite law_lcr.
  set (c2 := out8 (addr FCR) 0 (out8 (addr IER) 0 c)). assert (uart_of c2 = set_recv l (uart_of c)) as E2.
  { unfold c2. rewrite El. by rewrite law_control by auto. }
  rewrite law_dlh by (rewrite law_dll; rewrite law_lcr; done). rewrite law_dll by (by rewrite law_lcr). rewrite law_lcr, E2. done.
Qed.

(** C23: console output and input over the serial line.  With a controller that behaves as its data
    sheet says, initialisation sets a line of 8 data bits without parity and a divisor of 12 (9600
    baud); printing a text leaves the screen as the display driver alone would, and sends exactly
    the text, with a carriage return before each line feed, however often the line is busy; and an
    interrupt hands all bytes received to the line discipline, in their order, and leaves none. *)
Theorem serial_console (c : C) (o : Out) (s : SerialIn) (text sent recv : list Z) (v' : Vga) (k' : Console) :
  u_dlab (uart_of c) = false ->
  line (o_ports o) sent recv -> Vga.write_str text (o_vga o) = Ok tt v' ->
  line (si_ports s) sent recv -> (length recv < fuel)%nat -> for_each recv Input.putc (si_console s) = Ok tt k' ->
  wp init c (fun _ c' => u_low (uart_of c') + 256 * u_high (uart_of c') = 115200 / 9600 /\ u_line (uart_of c') = 3 /\ u_dlab (uart_of c') = false) /\
  wp (write_fmt fuel text) o (fun _ o' => o_vga o' = v' /\ line (o_ports o') (sent ++ crlf text) recv) /\
  wp (serial_interrupt fuel) s (fun _ s' => si_console s' = k' /\ line (si_ports s') sent []).
Proof.
  intros Hd Ho Hv Hs Hl Hk. split_and!.
  - apply wp_serial_init; [done|]. intros c' l ->. done.
  - apply wp_bind, wp_zoom, wp_ok. exists tt, v'. split; [exact Hv|]. apply wp_zoom.
    eapply wp_serial_str; [exact Ho|]. intros c' Hl'. done.
  - eapply wp_mono; [apply (wp_serial_interrupt recv fuel s sent (fun _ k => k = k') Hs Hl)|by intros u s' (? & ? & _)].
    unfold wp. by rewrite Hk.
Qed.
End proofs.

(** ** A serial controller *)
Record Line := mkLine { l_uart : uart }.
Definition line_out (p v : Z) (c : Line) : Line :=
  let u := l_uart c in
  mkLine (
    if p =? 0x3F8 then (if u_dlab u then set_low v u else match u_wait u with O => set_sent 2 v u | _ => u end)
    else if p =? 0x3F9 then (if u_dlab u then set_high v u else u)
    else if p =? 0x3FA then (if v =? 0 then set_recv [] u else u)
    else if p =? 0x3FB then set_line v u
    else u).
Definition line_in (p : Z) (c : Line) : Z * Line :=
  let u := l_uart c in
  if p =? 0x3F8 then
    match u_recv u with b :: l => if u_dlab u then (0, c) else (b, mkLine (set_recv l u)) | [] => (0, c) end
  else if p =? 0x3FD then
    (Z.lor (match u_wait u with O => 0x20 | _ => 0 end) (match u_recv u with [] => 0 | _ => 1 end), mkLine (set_wait (pred (u_wait u)) u))
  else (0, c).
#[export] Instance Line_ports : PortIO Line := {
  in8 := line_in; out8 := line_out; in16 := fun _ c => (0, c); out16 := fun _ _ c => c; in32 := fun _ c => (0, c); out32 := fun _ _ c => c }.
#[export] Instance Line_view : UartView Line := { uart_of := l_uart; uart_patience := 2 }.
#[export] Instance Line_laws : UartLaws Line.
Proof.
  split; simpl.
  - intros [u]. unfold line_in. simpl. destruct (u_wait u), (u_recv u); simpl; split_and!; done.
  - intros [u] b Hd Hw. exists 2%nat. split; [lia|]. unfold line_out. simpl in *. by rewrite Hd, Hw.
  - intros [u] b l Hd Hr. unfold line_in. simpl in *. by rewrite Hr, Hd.
  - intros [u] v. done.
  - intros [u] v Hd. unfold line_out. simpl in *. by rewrite Hd.
  - intros [u] v Hd. unfold line_out. simpl in *. by rewrite Hd.
  - intros [u]. exists []. split; [by right|]. done.
  - intros [u] p v [->|[-> Hd]]; unfold line_out; simpl in *; [done|by rewrite Hd].
Qed.

(** Printing a line, and receiving an "a". *)
Definition demo_line (recv : list Z) : Line := mkLine (mkUart false 3 12 0 1 [] recv).
Definition is_ok {S A} (r : outcome S A) : bool := match r with Ok _ _ => true | _ => false end.
Lemma is_ok_unit {S} (r : outcome S unit) : is_ok r = true -> exists s, r = Ok tt s.
Proof. destruct r as [[] s| | |]; try done. by exists s. Qed.

Lemma serial_console_witness :
  exists v' k', wp (write_fmt 5 [104; 10]) (mkOut fresh (demo_line [97])) (fun _ o' =>
      o_vga o' = v' /\ u_sent (uart_of (o_ports o')) = [104; 13; 10]) /\
    wp (serial_interrupt 5) (mkSerialIn (demo_line [97]) demo_console idt_boot) (fun _ s' => si_console s' = k' /\ u_recv (uart_of (si_ports s')) = []).
Proof.
  destruct (is_ok_unit (Vga.write_str [104; 10] fresh) ltac:(by vm_compute)) as [v' Hv].
  destruct (is_ok_unit (for_each [97] Input.putc demo_console) ltac:(by vm_compute)) as [k' Hk].
  exists v', k'. assert (uart_patience (C := Line) < 5)%nat as Hf by (simpl; lia).
  assert (line (demo_line [97]) [] [97]) as Hl by (split_and!; simpl; (reflexivity || lia)).
  pose proof (serial_console (C := Line) 5 Hf (demo_line []) (mkOut fresh (demo_line [97])) (mkSerialIn (demo_line [97]) demo_console idt_boot)
    [104; 10] [] [97] v' k' eq_refl Hl Hv Hl ltac:(simpl; lia) Hk) as (_ & H1 & H2).
  split; [eapply wp_mono; [exact H1|]|eapply wp_mono; [exact H2|]]; intros u o' (Ho & _ & _ & Es & Er); split; assumption.
Defined.
