(* ===== verification/Timer.v ===== *)
(** The timer's hardware side (devices/timer.rs): programming of the interval timer and the
    calibration of busy waiting. *)
From S2P Require Import Prelude Memory Thread Sync Input Ports Idt.

Definition TIMER_FREQ : Z := 100.
Definition PIT_CHANNEL0 : Port := mkPort 0x40.
Definition PIT_COMMAND : Port := mkPort 0x43.

(** ** Initialisation *)
Section init.
Context {C : Type} `{!PortIO C}.

Record TimerBoot := mkTimerBoot { SLEEP_LIST : option (list SleepEntry); tb_ports : C; tb_idt : Idt }.
Definition tb_io {A} (m : M C A) : M TimerBoot A := zoom tb_ports (fun c s => mkTimerBoot (SLEEP_LIST s) c (tb_idt s)) m.

Definition init_sleep_list : M TimerBoot unit := modify (fun s => mkTimerBoot (Some []) (tb_ports s) (tb_idt s)).

Definition init : M TimerBoot unit :=
  init_sleep_list ;;
  let divisor := (1193180 + TIMER_FREQ / 2) / TIMER_FREQ in
  tb_io (write_u8 PIT_COMMAND 0x34) ;;
  tb_io (write_u8 PIT_CHANNEL0 (Z.land divisor 0xFF)) ;;
  tb_io (write_u8 PIT_CHANNEL0 (Z.shiftr divisor 8 mod 256)) ;;
  zoom tb_idt (fun i s => mkTimerBoot (SLEEP_LIST s) (tb_ports s) i) (register_ext 0 Idt.timer_interrupt "8254 Timer") ;;
  tb_io (pic_unmask 0).
End init.

(** ** Calibration *)

(** The passing of time: reading the tick counter, and spinning. *)
Class Clock (C : Type) := {
  read_ticks : C -> Z * C;
  burn : Z -> C -> C;
}.

Section calibrate.
Context {C : Type} `{!Clock C}.

(** The clock, the interrupt level, the static, and what went to the console. *)
Record Calib := mkCalib { cal_clock : C; cal_level : bool; LOOPS_PER_TICK : Z; cal_out : list Z }.
Definition with_clock (c : C) (s : Calib) : Calib := mkCalib c (cal_level s) (LOOPS_PER_TICK s) (cal_out s).
Definition say (l : list Z) : M Calib unit := modify (fun s => mkCalib (cal_clock s) (cal_level s) (LOOPS_PER_TICK s) (cal_out s ++ l)).

Definition ticks : M Calib Z := fun s => let '(n, c) := read_ticks (cal_clock s) in Ok n (with_clock c s).
Definition elapsed (thn : Z) : M Calib Z := let! n := ticks in ret (n - thn).

(** [busy_wait]: one turn of the loop for each of [loops]. *)
Definition busy_wait (loops : Z) : M Calib unit := modify (fun s => with_clock (burn (Z.max 0 loops) (cal_clock s)) s).

(** [while ticks() == start]; [fuel] bounds the reads within a tick. *)
Fixpoint next_tick (fuel : nat) (start : Z) : M Calib unit :=
  match fuel with
  | O => fun _ => OutOfFuel
  | S fuel' => let! n := ticks in if n =? start then next_tick fuel' start else ret tt
  end.

Context (fuel : nat).

Definition too_many_loops (loops : Z) : M Calib bool :=
  let! start := ticks in
  next_tick fuel start ;;
  let! start := ticks in
  busy_wait loops ;;
  let! n := ticks in
  ret (negb (start =? n)).

(** Doubling, while that takes no more than a tick: [loops_per_tick << 1] drops the highest bit. *)
Fixpoint double (n : nat) (loops_per_tick : Z) : M Calib Z :=
  match n with
  | O => fun _ => OutOfFuel
  | S n' =>
      let! t := too_many_loops (as_u32 (Z.shiftl loops_per_tick 1)) in
      if t then ret loops_per_tick else double n' (as_u32 (Z.shiftl loops_per_tick 1))
  end.

Fixpoint refine_bits (n : nat) (high_bit test_bit loops_per_tick : Z) : M Calib Z :=
  match n with
  | O => fun _ => OutOfFuel
  | S n' =>
      if test_bit =? Z.shiftr high_bit 10 then ret loops_per_tick
      else
        let! t := too_many_loops (Z.lor loops_per_tick test_bit) in
        refine_bits n' high_bit (Z.shiftr test_bit 1) (if t then loops_per_tick else Z.lor loops_per_tick test_bit)
  end.

(** Twenty-two doublings reach the highest bit, ten turns of the second loop its end. *)
Definition calibrate : M Calib unit :=
  let! level := gets cal_level in
  assert level "assertion failed: interrupts on" ;;
  say (str "Calibrating timer...  ") ;;
  let! high_bit := double 22 (Z.shiftl 1 10) in
  let! loops := refine_bits 10 high_bit (Z.shiftr high_bit 1) high_bit in
  modify (fun s => mkCalib (cal_clock s) (cal_level s) loops (cal_out s)) ;;
  say (dec (loops * TIMER_FREQ) ++ str " loops/s." ++ [10]).
End calibrate.

(** ** Time *)

(** A loop turn takes a constant time, as does a read of the counter; a tick is [period] of these. *)
Class ClockTime (C : Type) := { time : C -> Z; period : Z }.
Class ClockLaws (C : Type) `{!Clock C, !ClockTime C} : Prop := {
  law_ticks : forall c, (read_ticks c).1 = time c / period /\ time (read_ticks c).2 = time c + 1;
  law_burn : forall c n, 0 <= n -> time (burn n c) = time c + n;
  law_period : 2 < period;
}.

Section proofs.
Context {C : Type} `{!Clock C, !ClockTime C, !ClockLaws C}.
Context (fuel : nat) (Hfuel : period < Z.of_nat fuel).
Implicit Types (s : Calib (C := C)).

(** Waiting changes neither the level nor the console. *)
Definition same s s' : Prop := cal_level s' = cal_level s /\ cal_out s' = cal_out s.

Lemma same_trans s1 s2 s3 : same s1 s2 -> same s2 s3 -> same s1 s3.
Proof. unfold same. intuition congruence. Qed.
Lemma same_clock s c : same s (with_clock c s).
Proof. done. Qed.
#[local] Hint Resolve same_trans same_clock : core.

Lemma wp_ticks s (Q : Z -> Calib -> Prop) :
  (forall s', time (cal_clock s') = time (cal_clock s) + 1 -> same s s' -> Q (time (cal_clock s) / period) s') -> wp ticks s Q.
Proof.
  intros HQ. unfold wp, ticks. destruct (law_ticks (cal_clock s)) as [E1 E2]. destruct (read_ticks (cal_clock s)) as [n c]. simpl in *. subst n.
  by apply HQ.
Qed.

(** The loop ends right behind a tick. *)
Lemma wp_next_tick n : forall s start (Q : unit -> Calib -> Prop),
  start * period <= time (cal_clock s) <= (start + 1) * period -> (start + 1) * period - time (cal_clock s) < Z.of_nat n ->
  (forall s', time (cal_clock s') = (start + 1) * period + 1 -> same s s' -> Q tt s') -> wp (next_tick n start) s Q.
Proof.
  pose proof (law_period (C := C)) as Hp. induction n as [|n IH]; intros s start Q Ht Hn HQ; [lia|]. cbn [next_tick].
  apply wp_bind, wp_ticks. intros s1 E1 L1. destruct (decide (time (cal_clock s) < (start + 1) * period)) as [Hlt|Hge].
  - assert (time (cal_clock s) / period = start) as -> by (symmetry; apply (Z.div_unique _ _ _ (time (cal_clock s) - start * period)); lia).
    rewrite Z.eqb_refl. apply IH; [lia|lia|]. intros s' Es Ls. apply HQ; [done|eauto].
  - assert (time (cal_clock s) = (start + 1) * period) as E by lia.
    rewrite E, Z.div_mul, (proj2 (Z.eqb_neq _ _)) by lia. apply wp_ret, HQ; [lia|done].
Qed.

(** The most loops that fit into a tick. *)
Definition fits : Z := period - 3.

Lemma wp_too_many loops s (Q : bool -> Calib -> Prop) :
  0 <= loops -> (forall s', same s s' -> Q (fits <? loops) s') -> wp (too_many_loops fuel loops) s Q.
Proof.
  intros Hl HQ. pose proof (law_period (C := C)) as Hp. assert (period <> 0) as Hp0 by lia. assert (0 < period) as Hp1 by lia. unfold too_many_loops. apply wp_bind, wp_ticks. intros s1 E1 L1.
  set (t := time (cal_clock s)) in *. pose proof (Z.div_mod t period Hp0). pose proof (Z.mod_pos_bound t period Hp1).
  apply wp_bind, wp_next_tick; [nia|nia|]. intros s2 E2 L2. set (q := t / period + 1) in *.
  apply wp_bind, wp_ticks. intros s3 E3 L3.
  assert (time (cal_clock s2) / period = q) as -> by (rewrite E2; symmetry; apply (Z.div_unique _ _ _ 1); lia).
  apply wp_bind, wp_modify. apply wp_bind, wp_ticks. intros s4 E4 L4. cbn [cal_clock with_clock] in *.
  rewrite law_burn in E4 |- * by lia. rewrite Z.max_r in * by done. rewrite E3, E2. apply wp_ret.
  replace (negb (q =? (q * period + 1 + 1 + loops) / period)) with (fits <? loops).
  { apply HQ. eauto 10. }
  unfold fits. destruct (Z.ltb_spec (period - 3) loops) as [Hlt|Hge]; symmetry.
  - apply negb_true_iff, Z.eqb_neq. intros E. pose proof (Z.div_mod (q * period + 1 + 1 + loops) period Hp0).
    pose proof (Z.mod_pos_bound (q * period + 1 + 1 + loops) period Hp1). nia.
  - apply negb_false_iff, Z.eqb_eq. apply (Z.div_unique _ _ _ (2 + loops)); lia.
Qed.

Lemma wp_double n : forall e s (Q : Z -> Calib -> Prop),
  0 <= e -> 2 ^ e <= fits < 2 ^ 31 -> 31 - e < Z.of_nat n ->
  (forall s' e', same s s' -> e <= e' -> 2 ^ e' <= fits < 2 ^ (e' + 1) -> Q (2 ^ e') s') -> wp (double fuel n (2 ^ e)) s Q.
Proof.
  induction n as [|n IH]; intros e s Q He Hf Hn HQ.
  { assert (e < 31) by (apply (Z.pow_lt_mono_r_iff 2); lia). lia. }
  assert (e < 31) as He' by (apply (Z.pow_lt_mono_r_iff 2); lia). cbn [double].
  assert (as_u32 (Z.shiftl (2 ^ e) 1) = 2 ^ (e + 1)) as ->.
  { rewrite Z.shiftl_mul_pow2, <- Z.pow_add_r by lia. apply as_u32_small. split; [apply Z.pow_nonneg; lia|]. apply Z.pow_lt_mono_r; lia. }
  assert (0 <= 2 ^ (e + 1)) by (apply Z.pow_nonneg; lia). apply wp_bind, wp_too_many; [done|]. intros s1 L1.
  destruct (Z.ltb_spec fits (2 ^ (e + 1))) as [Hlt|Hge].
  - apply wp_ret, HQ; [done|lia|lia].
  - apply IH; [lia|lia|lia|]. intros s2 e' L2 Hle Hf'. apply HQ; [eauto|lia|done].
Qed.

Lemma lor_bit r j : 0 <= j -> r mod 2 ^ (j + 1) = 0 -> Z.lor r (2 ^ j) = r + 2 ^ j.
Proof.
  intros Hj Hm. rewrite <- (Z.add_lor_land r). cut (Z.land r (2 ^ j) = 0); [lia|]. apply Z.bits_inj'. intros k Hk.
  rewrite Z.land_spec, Z.bits_0, Z.pow2_bits_eqb by done. destruct (Z.eqb_spec j k) as [<-|]; [|apply andb_false_r].
  apply Z.mod_divide in Hm as [y ->]; [|apply Z.pow_nonzero; lia]. by rewrite Z.mul_pow2_bits_low by lia.
Qed.

Lemma wp_refine n : forall e j r s (Q : Z -> Calib -> Prop),
  10 <= e -> e - 10 <= j < e -> j - (e - 10) < Z.of_nat n -> 2 ^ e <= r -> r mod 2 ^ (j + 1) = 0 -> r <= fits < r + 2 ^ (j + 1) ->
  (forall s' r', same s s' -> 2 ^ e <= r' -> r' <= fits < r' + 2 ^ (e - 9) -> Q r' s') ->
  wp (refine_bits fuel n (2 ^ e) (2 ^ j) r) s Q.
Proof.
  induction n as [|n IH]; intros e j r s Q He Hj Hn Hr Hm Hf HQ; [lia|]. cbn [refine_bits].
  rewrite Z.shiftr_div_pow2, <- Z.pow_sub_r by lia. destruct (Z.eqb_spec (2 ^ j) (2 ^ (e - 10))) as [E|E].
  { apply Z.pow_inj_r in E; [|lia..]. subst j. replace (e - 10 + 1) with (e - 9) in Hf by lia. by apply wp_ret, HQ. }
  assert (j <> e - 10) by (intros ->; done). assert (0 < 2 ^ j) by (apply Z.pow_pos_nonneg; lia).
  assert (2 ^ (j + 1) = 2 * 2 ^ j) as Ej by (rewrite Z.pow_add_r by lia; lia).
  assert (forall x, x mod 2 ^ (j + 1) = 0 -> x mod 2 ^ j = 0) as Hdiv.
  { intros x Hx. apply Z.mod_divide; [lia|]. apply Z.mod_divide in Hx as [y ->]; [|lia]. exists (2 * y). lia. }
  rewrite lor_bit by (done || lia). assert (0 <= 2 ^ e) by (apply Z.pow_nonneg; lia). apply wp_bind, wp_too_many; [lia|]. intros s1 L1.
  rewrite Z.shiftr_div_pow2 by done. assert (2 ^ j / 2 ^ 1 = 2 ^ (j - 1)) as -> by (rewrite <- Z.pow_sub_r by lia; done).
  destruct (Z.ltb_spec fits (r + 2 ^ j)) as [Hlt|Hge]; (apply (IH e (j - 1)); [lia|lia|lia|lia| | |]); replace (j - 1 + 1) with j by lia.
  - by apply Hdiv.
  - lia.
  - intros s2 r' L2 H2 H3. apply HQ; [eauto|done|done].
  - rewrite Z.add_mod by lia. rewrite (Hdiv r Hm), Z.mod_same by lia. done.
  - lia.
  - intros s2 r' L2 H2 H3. apply HQ; [eauto|done|done].
Qed.

(** C24: calibration.  On a machine where a turn of the waiting loop takes a constant time, and
    a read of the tick counter is taken to cost as much as one turn, [calibrate] ends, and stores a number of loops that takes no longer than a timer tick and is off the largest
    such number by less than one part in 512; what it prints is that number, per second.  The machine is fast enough for 1024 loops and not so
    fast that 2^31 loops fit into a tick. *)
Theorem calibrate_correct s :
  cal_level s = true -> 2 ^ 10 <= fits < 2 ^ 31 ->
  wp (calibrate fuel) s (fun _ s' => LOOPS_PER_TICK s' <= fits /\ 512 * (fits - LOOPS_PER_TICK s') < LOOPS_PER_TICK s' /\
    cal_out s' = cal_out s ++ str "Calibrating timer...  " ++ dec (LOOPS_PER_TICK s' * 100) ++ str " loops/s." ++ [10]).
Proof.
  intros Hl Hf. unfold calibrate. apply wp_bind, wp_gets, wp_bind, wp_assert; [done|]. apply wp_bind, wp_modify.
  apply wp_bind. change (Z.shiftl 1 10) with (2 ^ 10). apply wp_double; [done|done|lia|]. intros s1 e L1 He Hf1.
  apply wp_bind. rewrite Z.shiftr_div_pow2 by done. assert (2 ^ e / 2 ^ 1 = 2 ^ (e - 1)) as -> by (rewrite <- Z.pow_sub_r by lia; done).
  apply (wp_refine 10 e (e - 1)); [done|lia|lia|done| | |]; replace (e - 1 + 1) with e by lia.
  - apply Z.mod_same, Z.pow_nonzero; lia.
  - rewrite Z.pow_add_r in Hf1 by lia. lia.
  - intros s2 r L2 Hr Hf2. apply wp_bind, wp_modify, wp_modify. cbn [LOOPS_PER_TICK cal_out]. split; [lia|].
    assert (512 * 2 ^ (e - 9) = 2 ^ e) by (change 512 with (2 ^ 9); rewrite <- Z.pow_add_r by lia; f_equal; lia).
    split; [lia|]. destruct L1 as [_ L1], L2 as [_ L2]. rewrite L2, L1. simpl cal_out. by rewrite <- !app_assoc.
Qed.
End proofs.

(** A clock whose tick is 1,500 loops. *)
Definition Stopwatch : Set := Z.
#[export] Instance Stopwatch_clock : Clock Stopwatch := { read_ticks c := (c / 1500, c + 1); burn n c := c + n }.
#[export] Instance Stopwatch_time : ClockTime Stopwatch := { time c := c; period := 1500 }.
#[export] Instance Stopwatch_laws : ClockLaws Stopwatch.
Proof. by split. Qed.

Lemma calibrate_correct_witness :
  wp (calibrate 2000) (mkCalib (C := Stopwatch) 7 true 0 []) (fun _ s' =>
    LOOPS_PER_TICK s' <= 1497 /\ 512 * (1497 - LOOPS_PER_TICK s') < LOOPS_PER_TICK s' /\
    cal_out s' = str "Calibrating timer...  " ++ dec (LOOPS_PER_TICK s' * 100) ++ str " loops/s." ++ [10]).
Proof.
  assert (period (C := Stopwatch) < Z.of_nat 2000) as Hf by (by vm_compute).
  apply (calibrate_correct (C := Stopwatch) 2000 Hf (mkCalib (C := Stopwatch) 7 true 0 [])); [done|by vm_compute].
Defined.
