(* ===== verification/Fork.v ===== *)
(** The copy of an address space at [fork] (copy_user_pages of userprog/process.rs): when there is
    a free frame for each of the parent's pages, the child gets private copies of all of them. *)
From S2P Require Import Prelude Btree Block Pipe Fd Input Proc Process SysClaims Bio FreeMap Inode InodeLayout FileMap InodeOps InodeAlloc InodeProofs Memory Palloc Thread Pagedir Swap SchedProofs Spaces NewSpace Vm FrameTable VmMem VmDisk VmInv VmEvict VmLoad VmFault VmDemo Elf Loader Adopt.

(** ** Other directories and free pages while a page is mapped *)
Record beside (P : Z -> Z) (t : Z) (s s' : Paging) : Prop := {
  be_pde : forall t' i, t' <> t -> P t' <> 0 -> 0 <= i < 1024 -> pde s' (P t') i = pde s (P t') i;
  be_free : forall a, in_pool (USER_POOL (pg_pa s)) a = true -> live (pg_pa s) a = false -> live (pg_pa s') a = false;
}.

Lemma wp_set_page_beside P t va s kpage w (Q : bool -> Paging -> Prop) :
  spaces s P -> P t <> 0 -> user_page va -> kernel_page kpage ->
  (pde s (P t) (pde_idx va) = 0 -> exhausted ZERO 1 (pg_pa s) -> Q false s) ->
  (forall s', pte_upd P t va (user_pte kpage w) s s' -> beside P t s s' -> Q true s') ->
  wp (set_page (P t) va kpage w) s Q.
Proof.
  intros Hss Ht [Hva Hal] Hk H0 HQ. pose proof (ss_space _ _ Hss t Ht) as Hsp. pose proof (ss_pools _ _ Hss) as Hp.
  assert (wp (set_page (P t) va kpage w) s (fun b s' => if b then beside P t s s' else True)) as Hb.
  { apply wp_set_page; [apply Hp|apply Hsp|done..|]. intros s1 Hg. pose proof (pde_idx_user va Hva) as Hi.
    destruct (grown_spaces P t (pde_idx va) s s1 Hss Ht Hi Hg) as [Hss1 _]. pose proof (gr_pde _ _ _ _ Hg) as Hn.
    destruct (user_pte_ok kpage w Hk) as (Hin & _). split.
    - intros t' i Hne Ht' Hi'. rewrite (frame_pde (fun a => a = table s1 (P t) (pde_idx va)) s1); [|by apply (ss_space _ _ Hss1)|by apply (put_same_pages P t va _ s1)| |done].
      + eapply frame_pde; [by apply (ss_space _ _ Hss)|by apply (grown_same_pages P t (pde_idx va))|by apply (grown_others P t s Hss Ht)|done].
      + intros a Ha. eapply isolated_uses; [by apply (ss_iso _ _ Hss1 t t')|done|done|done].
    - intros a Ha Hl. rewrite (put_live (P t) s1 va); [|apply Hg|apply Hg|by apply user_va|done].
      destruct (live (pg_pa s1) a) eqn:E; [|done]. destruct (gr_added _ _ _ _ Hg a E) as [?|Ea]; [congruence|].
      destruct (decide (pde s (P t) (pde_idx va) = 0)) as [Ez|Ez].
      + pose proof (gr_kernel _ _ _ _ Hg Ez) as Hker. rewrite <- Ea in Hker. by destruct (pool_apart s a a (proj1 (pl_paging _ Hp)) Hker Ha).
      + rewrite (gr_old _ _ _ _ Hg Ez) in E. congruence. }
  apply wp_ok in Hb as (b & s' & E & Hb).
  assert (wp (set_page (P t) va kpage w) s (fun b s' => (b = true -> beside P t s s') -> Q b s')) as Hw.
  { apply wp_set_page_spaces; [done|done|done|done|done| |]; [by intros ? ? _; apply H0|]. intros s2 Hu _ Hbe. apply HQ; [done|by apply Hbe]. }
  unfold wp in Hw |- *. rewrite E in Hw |- *. apply Hw. by intros ->.
Qed.

Section frames.
Context {D : Type} `{!BlockOps D, !BlockLaws D}.
Implicit Types v u : VM D.

(** [register_frame] *)
Definition registered (kp up tid : Z) v : VM D :=
  with_index (<[kp := Z.of_nat (List.length (frames v))]> (default ∅ (KPAGE_INDEX v)))
    (with_frames (frames v ++ [new_frame kp up tid]) v).

(** Steps that no process sees, whatever its pages hold. *)
Definition intact v v' : Prop := kept v v' /\ (settled v -> content_same v v').

Lemma intact_refl v : vm_ok v -> intact v v.
Proof. intros Hok. by split; [apply kept_refl|]. Qed.

Lemma intact_trans v1 v2 v3 : intact v1 v2 -> intact v2 v3 -> intact v1 v3.
Proof.
  intros [K1 C1] [K2 C2]. split; [by eapply kept_trans|]. intros Hset t p k Ht Hp Hk.
  rewrite (C2 (ke_settled _ _ K1 Hset)) by (done || by rewrite (kept_pds _ _ K1)). by apply C1.
Qed.

(** A frame of a thread without a directory. *)
Lemma kept_registered kp up tid v :
  vm_ok v -> pds v tid = 0 -> frame_ok (vm_pg v) (new_frame kp up tid) -> kp ∉ kpage <$> frames v ->
  kept v (registered kp up tid v).
Proof.
  intros Hok H0 Hf Hnew. assert (frames (registered kp up tid v) = frames v ++ [new_frame kp up tid]) as Ef by done.
  assert (forall x, x ∈ frames (registered kp up tid v) -> pds v (owner_tid x) <> 0 -> x ∈ frames v) as Hin.
  { intros x. rewrite Ef, elem_of_app, list_elem_of_singleton. intros [?| ->] Hx; [done|by destruct Hx]. }
  destruct (vo_ix _ Hok) as (ix & Ei & Hix).
  split; try done.
  - destruct Hok as [Mm Ma Mc Mf Mi Mcl Msw Mfs Mr Mmap Mspt Msl Mown]. split; try done.
    + by apply mem_ok_app.
    + eexists. split; [done|]. rewrite Ei. by apply (ix_ok_app (frames v) ix (new_frame kp up tid)).
    + intros t page se Hse. apply (spt_ok_ext v); [by apply Mspt|done..].
  - intros Hs e He Ht. apply Hs; [by apply Hin|done].
  - intros _ Hs. split; [done|]. intros e He Ht Hp. apply Hs; [by apply Hin|done|done].
Qed.

(** [alloc_frame] when there is a free page. *)
Lemma wp_alloc_free up tid v (Q : Z -> VM D -> Prop) :
  vm_ok v -> ~ exhausted (Z.lor USER ZERO) 1 (pg_pa (vm_pg v)) ->
  (forall kp s, kp <> 0 -> same_pages (fun _ => False) (vm_pg v) s -> user_frame s kp -> live (pg_pa (vm_pg v)) kp = false ->
     (forall k, 0 <= k < PGSIZE -> mem s (kp + k) = 0) ->
     (forall a, live (pg_pa s) a = is_page kp 1 a || live (pg_pa (vm_pg v)) a) -> Q kp (registered kp up tid (with_pg s v))) ->
  wp (alloc_frame up tid) v Q.
Proof.
  intros Hok Hroom HQ. unfold alloc_frame. apply wp_bind, wp_zoom, wp_get_user_page; [apply (mo_spaces _ _ _ (vo_mem _ Hok))|done|].
  intros kp s Hkp Hs Hu Hl Hz Hlv. rewrite (proj2 (Z.eqb_neq _ _) Hkp). simpl negb. cbv iota. destruct (vo_ix _ Hok) as (ix & Ei & _).
  apply wp_bind. unfold register_frame. apply wp_bind, wp_gets. change (FRAME_TABLE (with_pg s v)) with (FRAME_TABLE v). rewrite (vo_ft _ Hok).
  apply wp_bind, wp_modify, wp_bind, wp_gets. change (KPAGE_INDEX (with_frames _ _)) with (KPAGE_INDEX v). rewrite Ei.
  apply wp_modify, wp_ret. specialize (HQ kp s Hkp Hs Hu Hl Hz Hlv). unfold registered in HQ.
  change (KPAGE_INDEX (with_pg s v)) with (KPAGE_INDEX v) in HQ. by rewrite Ei in HQ.
Qed.
End frames.

(** ** The copy *)
Section copy.
Context {D : Type} `{!BlockOps D, !BlockLaws D}.
Context (v0 : VM D) (parent child : Z).
Implicit Types v u : VM D.

Let P : Z -> Z := pds v0.
Let ppd : Z := P parent.
Let J : Z -> Z := join (-1) child P.

(** What [pte'] maps in [v] is a copy of what [pte] maps in [v0], in a frame that was free. *)
Record page_copy v (pte pte' : Z) : Prop := {
  pc_writable : (Z.land pte' PTE_W =? 0) = (Z.land pte PTE_W =? 0);
  pc_bytes : forall k, 0 <= k < PGSIZE -> mem (vm_pg v) (frame_addr pte' + k) = mem (vm_pg v0) (frame_addr pte + k);
  pc_frame : user_frame (vm_pg v) (frame_addr pte');
  pc_new : live (pg_pa (vm_pg v0)) (frame_addr pte') = false;
  pc_clean : Z.land pte' PTE_D = 0;
}.

(** The child's page [va], when the pages below [b] are done. *)
Definition child_page (b : Z) v (va : Z) : Prop :=
  match mapping (vm_pg v0) ppd va with
  | Some pte => if decide (va < b) then exists pte', mapping (vm_pg v) child va = Some pte' /\ page_copy v pte pte'
                else mapping (vm_pg v) child va = None
  | None => mapping (vm_pg v) child va = None
  end.

(** A parent whose tables are present, and a child's directory that is empty and not yet anybody's. *)
Record forkable : Prop := {
  fk_ok : vm_ok v0;
  fk_parent : ppd <> 0;
  fk_none : P (-1) = 0;
  fk_tables : forall i, 0 <= i < 768 -> pde (vm_pg v0) ppd i <> 0 -> Z.land (pde (vm_pg v0) ppd i) PTE_P <> 0;
  fk_child : newborn (vm_pg v0) P child;
}.

(** Free frames [F] for the pages [G]. *)
Definition free_frames v (F : gset Z) : Prop :=
  forall p, p ∈ F -> in_pool (USER_POOL (pg_pa (vm_pg v))) p = true /\ live (pg_pa (vm_pg v)) p = false.
Definition present_pages (G : gset Z) : Prop :=
  forall va, user_page va -> is_Some (mapping (vm_pg v0) ppd va) -> va ∈ G.

Context (Hf : forkable) (G : gset Z) (HG : present_pages G).

Record copied (b : Z) v : Prop := {
  cp_kept : intact v0 v;
  cp_mem : mem_ok (vm_pg v) J (frames v);
  cp_map : forall t va, P t <> 0 -> in_u32 va -> mapping (vm_pg v) (P t) va = mapping (vm_pg v0) (P t) va;
  cp_pde : forall i, 0 <= i < 1024 -> pde (vm_pg v) ppd i = pde (vm_pg v0) ppd i;
  cp_user : forall a, user_frame (vm_pg v0) a -> user_frame (vm_pg v) a /\
    forall x, a <= x < a + PGSIZE -> mem (vm_pg v) x = mem (vm_pg v0) x;
  cp_free : forall a, live (pg_pa (vm_pg v)) a = false -> in_pool (USER_POOL (pg_pa (vm_pg v))) a = true -> live (pg_pa (vm_pg v0)) a = false;
  cp_child : forall va, user_page va -> child_page b v va;
  cp_room : exists F, free_frames v F /\ (size (filter (fun va => (b <= va)%Z) G) <= size F)%nat;
}.

Lemma child_pd : child <> 0.
Proof.
  destruct (live_page (pg_pa (vm_pg v0)) child) as (Hpos & _); [|apply (sp_ok _ _ (nb_space _ _ _ (fk_child Hf)))|lia].
  apply (mo_spaces _ _ _ (vo_mem _ (fk_ok Hf))).
Qed.

Lemma joined_child : J (-1) = child.
Proof. unfold J, join. by rewrite decide_True. Qed.

Lemma joined_other t : P t <> 0 -> t <> -1 /\ J t = P t.
Proof. intros Ht. assert (t <> -1) as Hne by (intros ->; by destruct Ht, Hf). split; [done|]. unfold J, join. by rewrite decide_False. Qed.

(** Without the child's directory and its frames. *)
Lemma mem_ok_others s ft e : mem_ok s J (ft ++ [e]) -> owner_tid e = -1 -> mem_ok s P ft.
Proof.
  intros [[Hp Hsp Hi] Hfr Hb] He. split; [split; [done| |]| |].
  - intros t Ht. destruct (joined_other t Ht) as [_ <-]. apply Hsp. by rewrite (proj2 (joined_other t Ht)).
  - intros t t' Hne Ht Ht'. rewrite <- (proj2 (joined_other t Ht)), <- (proj2 (joined_other t' Ht')).
    apply Hi; [done|by rewrite (proj2 (joined_other t Ht))|by rewrite (proj2 (joined_other t' Ht'))].
  - intros x Hx. apply Hfr, elem_of_app. by left.
  - intros t va pte Ht Hva. destruct (joined_other t Ht) as [Hne E]. rewrite <- E. intros Hm.
    destruct (Hb t va pte) as (x & [Hx| ->%list_elem_of_singleton]%elem_of_app & Hk & Hu & Ho); [by rewrite E|done|done|by exists x|congruence].
Qed.

Lemma copied_pds b v : copied b v -> pds v = P.
Proof. intros H. apply (kept_pds _ _ (proj1 (cp_kept _ _ H))). Qed.

(** Nothing to copy up to [b']. *)
Lemma copied_skip b b' v :
  copied b v -> b <= b' -> (forall va, user_page va -> b <= va < b' -> mapping (vm_pg v0) ppd va = None) -> copied b' v.
Proof.
  intros [Hk Hm Hmap Hpde Hu Hfr Hc (F & HF & Hsz)] Hle Hno. split; try done.
  - intros va Hva. specialize (Hc va Hva). unfold child_page in *. destruct (mapping (vm_pg v0) ppd va) as [pte|] eqn:E; [|done].
    destruct (decide (va < b)) as [Hb|Hb]; [by rewrite decide_True by lia|].
    destruct (decide (va < b')); [|done]. rewrite Hno in E; [done|done|lia].
  - exists F. split; [done|]. etrans; [|exact Hsz]. apply subseteq_size. intros va. rewrite !elem_of_filter. intros [? ?]. split; [lia|done].
Qed.
(** *** One page *)
Section page.
Context (va pte : Z) v (Hc : copied va v) (Hva : user_page va) (Hm : mapping (vm_pg v0) ppd va = Some pte).
Context (kp : Z) (s1 : Paging) (Hs1 : same_pages (fun _ => False) (vm_pg v) s1) (Hkp : user_frame s1 kp).
Context (Hnew : live (pg_pa (vm_pg v)) kp = false) (Hlv : forall a, live (pg_pa s1) a = is_page kp 1 a || live (pg_pa (vm_pg v)) a).

Let src : Z := frame_addr pte.
Let e : FrameEntry := new_frame kp va (-1).
Let s2 : Paging := with_pa (with_mem (copy_page src kp (mem s1)) (pg_pa s1)) s1.

Lemma page_source : user_frame (vm_pg v0) src /\ user_frame (vm_pg v) src /\ page_u8 (mem (vm_pg v)) src.
Proof.
  assert (user_frame (vm_pg v0) src) as H0 by (eapply mapped_frame; [apply Hf|apply Hf|done|done]).
  destruct (cp_user _ _ Hc src H0) as [Hv _]. split_and!; [done|done|].
  destruct (joined_other parent (fk_parent Hf)) as [_ E].
  destruct (mo_backed _ _ _ (cp_mem _ _ Hc) parent va pte) as (x & Hx & Ek & _); rewrite ?E; [apply Hf|done| |].
  - rewrite (cp_map _ _ Hc); [done|apply Hf|by apply user_page_u32].
  - unfold src. rewrite <- Ek. by apply (mo_frames _ _ _ (cp_mem _ _ Hc) x Hx).
Qed.

Lemma page_unlisted x : x ∈ frames v -> kpage x <> kp.
Proof. intros Hx E. destruct (fr_user _ _ (mo_frames _ _ _ (cp_mem _ _ Hc) x Hx)) as [_ Hl]. congruence. Qed.

Lemma page_mem1 : mem_ok s1 J (frames v) /\ forall t a, J t <> 0 -> in_u32 a -> mapping s1 (J t) a = mapping (vm_pg v) (J t) a.
Proof.
  apply (mem_ok_user (vm_pg v) s1 J (frames v) kp); [apply Hc|by eapply same_pages_weaken; [|exact Hs1]| |].
  - destruct Hs1 as [[_ Eu] _]. rewrite <- Eu. apply Hkp.
  - intros x Hx E. by destruct (page_unlisted x Hx).
Qed.

Lemma page_outside x : ~ (kp <= x < kp + PGSIZE) -> copy_page src kp (mem s1) x = mem s1 x.
Proof. intros Hx. unfold copy_page. by rewrite decide_False. Qed.

Lemma page_same2 : same_pages (fun a => a = kp) s1 s2.
Proof. apply poke_same_pages; [apply (mo_spaces _ _ _ (proj1 page_mem1))|done|exact page_outside]. Qed.

Lemma page_bytes2 k : 0 <= k < PGSIZE -> mem s2 (kp + k) = mem (vm_pg v) (src + k).
Proof.
  intros Hk. unfold mem at 1. simpl. unfold copy_page. rewrite decide_True by lia. replace (src + (kp + k - kp)) with (src + k) by lia.
  destruct page_source as (_ & [_ Hl] & _). apply (proj2 (proj2 Hs1 src Hl ltac:(tauto))). lia.
Qed.

Lemma page_frame2 : frame_ok s2 e.
Proof.
  split; [|intros k Hk; simpl kpage; rewrite page_bytes2 by done; by apply page_source|done].
  apply (poke_user_frame s1 kp); [apply (mo_spaces _ _ _ (proj1 page_mem1))|done|exact page_outside|done].
Qed.

Lemma page_mem2 : mem_ok s2 J (frames v ++ [e]) /\ forall t a, J t <> 0 -> in_u32 a -> mapping s2 (J t) a = mapping (vm_pg v) (J t) a.
Proof.
  destruct page_mem1 as [Hm1 Hmap1]. destruct (mem_ok_user s1 s2 J (frames v) kp Hm1 page_same2) as [Hm2 Hmap2]; [apply Hkp| |].
  - intros x Hx E. by destruct (page_unlisted x Hx).
  - split; [apply mem_ok_app; [done|exact page_frame2]|]. intros t a Ht Ha. by rewrite Hmap2, Hmap1.
Qed.

(** A page in use before the copy keeps its bytes. *)
Lemma page_kept2 a : live (pg_pa (vm_pg v)) a = true -> live (pg_pa s2) a = true /\ forall x, a <= x < a + PGSIZE -> mem s2 x = mem (vm_pg v) x.
Proof.
  intros Hl. destruct (proj2 Hs1 a Hl ltac:(tauto)) as [Hl1 Hb1]. destruct (proj2 page_same2 a Hl1) as [Hl2 Hb2]; [intros ->; congruence|].
  split; [done|]. intros x Hx. by rewrite Hb2, Hb1.
Qed.

Lemma page_pde2 t i : J t <> 0 -> 0 <= i < 1024 -> pde s2 (J t) i = pde (vm_pg v) (J t) i.
Proof.
  intros Ht Hi. pose proof (ss_space _ _ (mo_spaces _ _ _ (cp_mem _ _ Hc)) t Ht) as Hsp. apply read_u32_frame. intros x Hx.
  apply (page_kept2 (J t)); [apply Hsp|unfold PGSIZE; lia].
Qed.

Lemma page_pools2 : same_pools (vm_pg v) s2.
Proof. exact (proj1 Hs1). Qed.

Lemma page_live2 a : live (pg_pa s2) a = is_page kp 1 a || live (pg_pa (vm_pg v)) a.
Proof. rewrite <- Hlv. apply (poke_live s1 kp); [apply (mo_spaces _ _ _ (proj1 page_mem1))|done|exact page_outside]. Qed.

(** The page is mapped. *)
Section mapped.
Context (s3 : Paging) (Hup : pte_upd J (-1) va (user_pte kp (negb (Z.land pte PTE_W =? 0))) s2 s3) (Hbe : beside J (-1) s2 s3).

Let w : VM D := registered kp va (-1) (with_pg s3 v).

Lemma page_kernel : kernel_page kp.
Proof. eapply user_frame_kernel_page; [apply (mo_spaces _ _ _ (proj1 page_mem2))|apply (fr_user _ _ page_frame2)]. Qed.

Lemma page_addr b : frame_addr (user_pte kp b) = kp.
Proof. eapply user_frame_addr; [apply (mo_spaces _ _ _ (proj1 page_mem2))|apply (fr_user _ _ page_frame2)]. Qed.

Lemma page_mem3 : mem_ok s3 J (frames v ++ [e]).
Proof.
  eapply mem_ok_upd; [apply page_mem2|done|exact Hup|]. intros _. exists e. split; [apply elem_of_app; right; by apply list_elem_of_singleton|].
  by rewrite page_addr.
Qed.

Lemma page_user3 a : user_frame s2 a -> user_frame s3 a /\ forall x, a <= x < a + PGSIZE -> mem s3 x = mem s2 x.
Proof.
  intros [Hin Hl]. destruct (pu_user _ _ _ _ _ _ Hup) as [[_ Eu] H]. destruct (H a Hl) as [Hl' Hb].
  - intros Hk. by destruct (pool_apart s2 a a (proj1 (pl_paging _ (ss_pools _ _ (mo_spaces _ _ _ (proj1 page_mem2))))) Hk Hin).
  - split; [split; [by rewrite Eu|done]|done].
Qed.

(** A frame in use before the copy. *)
Lemma page_in_use a : user_frame (vm_pg v) a -> user_frame s3 a /\ forall x, a <= x < a + PGSIZE -> mem s3 x = mem (vm_pg v) x.
Proof.
  intros [Hin Hl]. destruct (page_kept2 a Hl) as [Hl2 Hb2]. destruct page_pools2 as [_ Eu].
  destruct (page_user3 a) as [Hu3 Hb3]; [split; [by rewrite Eu|done]|]. split; [done|]. intros x Hx. by rewrite Hb3, Hb2.
Qed.

Lemma page_map3 t a : P t <> 0 -> in_u32 a -> mapping s3 (P t) a = mapping (vm_pg v) (P t) a.
Proof.
  intros Ht Ha. destruct (joined_other t Ht) as [Hne E]. rewrite <- E. rewrite (pu_map _ _ _ _ _ _ Hup) by (done || by rewrite E).
  rewrite decide_False by tauto. apply page_mem2; [by rewrite E|done].
Qed.

Lemma page_pde3 t i : P t <> 0 -> 0 <= i < 1024 -> pde s3 (P t) i = pde (vm_pg v) (P t) i.
Proof.
  intros Ht Hi. destruct (joined_other t Ht) as [Hne E]. rewrite <- E. rewrite (be_pde _ _ _ _ Hbe) by (done || by rewrite E).
  apply page_pde2; [by rewrite E|done].
Qed.

Lemma page_kept : intact v w.
Proof.
  pose proof (copied_pds _ _ Hc) as Ep. pose proof (ke_ok _ _ (proj1 (cp_kept _ _ Hc))) as Hok.
  assert (kept v (with_pg s3 v)) as Hk.
  { apply kept_pg; [done|rewrite Ep; eapply mem_ok_others; [apply page_mem3|done]| | |]; rewrite ?Ep.
    - intros t a Ht Ha. apply page_map3; [done|by apply user_page_u32].
    - intros a x Ha. by apply page_in_use.
    - intros t i Ht Hi. by rewrite page_pde3. }
  split.
  2:{ intros _ t a i Ht Ha Hi. unfold content. change (pds w) with (pds v). change (vm_pg w) with s3. rewrite Ep in *.
    rewrite page_map3 by (done || by apply user_page_u32). change (spt_at w) with (spt_at v).
    destruct (mapping (vm_pg v) (P t) a) as [pt|] eqn:E; [|done]. f_equal. apply (page_in_use (frame_addr pt)); [|lia].
    by eapply mapped_frame; rewrite ?Ep. }
  eapply kept_trans; [exact Hk|]. apply kept_registered; [apply Hk|change (pds v (-1) = 0); rewrite Ep; apply Hf| |].
  - apply (mo_frames _ _ _ page_mem3), elem_of_app. right. by apply list_elem_of_singleton.
  - intros (x & E & Hx)%list_elem_of_fmap. by destruct (page_unlisted x Hx).
Qed.

Lemma page_map_child a : user_page a ->
  mapping s3 child a = if decide (a = va) then Some (user_pte kp (negb (Z.land pte PTE_W =? 0))) else mapping (vm_pg v) child a.
Proof.
  intros Ha. pose proof (user_page_u32 a Ha) as H32. rewrite <- joined_child. assert (J (-1) <> 0) as Hj by (rewrite joined_child; apply child_pd).
  rewrite (pu_map _ _ _ _ _ _ Hup) by done. destruct (user_pte_ok kp (negb (Z.land pte PTE_W =? 0)) page_kernel) as (_ & _ & Hb).
  rewrite Hb by done. destruct (decide (a = va)) as [->|Hne]; [rewrite decide_True by done; by destruct (negb _)|].
  rewrite decide_False; [by apply page_mem2|]. intros [_ E]. by apply Hne, user_page_eq.
Qed.

Lemma page_copied_new : page_copy w pte (user_pte kp (negb (Z.land pte PTE_W =? 0))).
Proof.
  destruct (user_pte_ok kp (negb (Z.land pte PTE_W =? 0)) page_kernel) as (_ & _ & Hb). split; rewrite ?page_addr.
  - rewrite Hb by done. by destruct (Z.land pte PTE_W =? 0).
  - intros k Hk. change (mem (vm_pg w)) with (mem s3). rewrite (proj2 (page_user3 kp (fr_user _ _ page_frame2))) by lia.
    rewrite page_bytes2 by done. apply (proj2 (cp_user _ _ Hc src (proj1 page_source))). lia.
  - apply (page_user3 kp (fr_user _ _ page_frame2)).
  - apply (cp_free _ _ Hc); [done|]. destruct Hs1 as [[_ Eu] _]. rewrite <- Eu. apply Hkp.
  - rewrite Hb by done. by destruct (negb _).
Qed.

Lemma page_copied_old pte0 pte' : page_copy v pte0 pte' -> page_copy w pte0 pte'.
Proof.
  intros [Hw Hb Hu Hn Hcl]. destruct (page_in_use _ Hu) as [Hu3 Hb3]. split; try done. intros k Hk.
  change (mem (vm_pg w)) with (mem s3). rewrite Hb3 by lia. by apply Hb.
Qed.

Lemma page_done : copied (va + PGSIZE) w.
Proof.
  pose proof page_kept as Hkw. destruct Hc as [Hk _ Hmap Hpde Hu Hfr Hch (F & HF & Hsz)]. split.
  - by eapply intact_trans.
  - exact page_mem3.
  - intros t a Ht Ha. change (mapping s3 (P t) a = mapping (vm_pg v0) (P t) a). by rewrite page_map3, Hmap.
  - intros i Hi. change (pde s3 ppd i = pde (vm_pg v0) ppd i). unfold ppd. rewrite page_pde3; [by apply Hpde|apply Hf|done].
  - intros a Ha. destruct (Hu a Ha) as [Hv Hb]. destruct (page_in_use a Hv) as [H3 Hb3]. split; [done|].
    intros x Hx. change (mem (vm_pg w)) with (mem s3). by rewrite Hb3, Hb.
  - intros a Hl Hin. destruct page_pools2 as [_ Eu], (pu_user _ _ _ _ _ _ Hup) as [[_ Eu3] _].
    assert (in_pool (USER_POOL (pg_pa (vm_pg v))) a = true) as Hin' by (change (in_pool (USER_POOL (pg_pa s3)) a = true) in Hin; by rewrite <- Eu, <- Eu3).
    apply Hfr; [|done]. destruct (live (pg_pa (vm_pg v)) a) eqn:E; [|done]. destruct (page_in_use a (conj Hin' E)) as [[_ E3] _].
    change (live (pg_pa s3) a = false) in Hl. congruence.
  - intros a Ha. specialize (Hch a Ha). unfold child_page in *. change (mapping (vm_pg w) child a) with (mapping s3 child a).
    rewrite page_map_child by done. destruct (decide (a = va)) as [->|Hne].
    + rewrite Hm, decide_True by (unfold PGSIZE; lia). eexists. split; [done|exact page_copied_new].
    + destruct (mapping (vm_pg v0) ppd a) as [pte0|]; [|done].
      assert (a < va + PGSIZE <-> a < va) as Hiff.
      { destruct Ha as [_ Ha], Hva as [_ Hva']. unfold PGSIZE in *. Z.div_mod_to_equations. lia. }
      destruct (decide (a < va)) as [Hlt|Hge]; [rewrite decide_True by tauto|by rewrite decide_False by tauto].
      destruct Hch as (pte' & Hp & Hcp). exists pte'. split; [done|by apply page_copied_old].
  - exists (F ∖ {[kp]}). split.
    + intros p [Hp Hne]%elem_of_difference. destruct (HF p Hp) as [Hin Hl]. destruct page_pools2 as [_ Eu].
      assert (in_pool (USER_POOL (pg_pa s2)) p = true) as Hin2 by (by rewrite Eu).
      split; [destruct (pu_user _ _ _ _ _ _ Hup) as [[_ Eu3] _]; simpl; by rewrite Eu3|].
      apply (be_free _ _ _ _ Hbe); [done|]. rewrite page_live2, Hl, orb_false_r. apply not_true_iff_false. intros Hpg.
      apply is_page_one in Hpg; [|by eapply in_pool_mod|by eapply in_pool_mod, Hkp]. by apply Hne, elem_of_singleton.
    + assert (size (F ∖ {[kp]}) + 1 >= size F)%nat as HsF.
      { rewrite size_difference_alt. pose proof (subseteq_size (F ∩ {[kp]}) {[kp]} ltac:(set_solver)) as Hs. rewrite size_singleton in Hs. lia. }
      assert (va ∈ filter (fun x => va <= x) G) as Hin by (apply elem_of_filter; split; [lia|apply HG; [done|by eexists]]).
      assert (size (filter (fun x => (va + PGSIZE <= x)%Z) G) <= size (filter (fun x => (va <= x)%Z) G ∖ {[va]}))%nat as Hle.
      { apply subseteq_size. intros x. rewrite elem_of_difference, !elem_of_filter, elem_of_singleton. unfold PGSIZE.
        intros [? ?]. split_and!; [lia|done|lia]. }
      rewrite size_difference, size_singleton in Hle by set_solver. lia.
Qed.
End mapped.

(** There is no page for the page table: the frame is given back. *)
Lemma page_undone (Q : unit -> VM D -> Prop) :
  ~ exhausted (Z.lor USER ZERO) 1 (pg_pa (vm_pg v)) -> page_u8 (mem s1) kp -> exhausted ZERO 1 (pg_pa s2) -> (forall u, intact v0 u -> exhausted ZERO 1 (pg_pa (vm_pg u)) -> Q tt u) ->
  wp (free_frame kp) (with_pg s2 (registered kp va (-1) (with_pg s1 v))) Q.
Proof.
  intros Hroom H8 Hex HQ. pose proof (ke_ok _ _ (proj1 (cp_kept _ _ Hc))) as Hok. destruct (vo_ix _ Hok) as (ix & Ei & Hix).
  set (u := with_pg s2 (registered kp va (-1) (with_pg s1 v))).
  assert (holding va (-1) kp v u) as Hh.
  { destruct (holding_got va (-1) kp v s1 Hok Hs1 Hkp Hnew Hlv) as [Hh Hnot].
    pose proof (holding_register va (-1) kp v (with_pg s1 v) ix Hh Hva H8 Hnot Ei Hix) as Hr.
    apply (holding_poke _ _ _ _ _ (copy_page src kp)) in Hr; [|intros m x Hx; unfold copy_page; by rewrite decide_False|apply page_frame2].
    unfold u, registered. change (KPAGE_INDEX (with_pg s1 v)) with (KPAGE_INDEX v). by rewrite Ei. }
  apply (wp_free_frame u (List.length (frames v)) e); [apply Hh| | |].
  - change (frames u) with (frames v ++ [e]). by rewrite lookup_app_r, Nat.sub_diag.
  - rewrite (ho_pds _ _ _ _ _ Hh). apply Hh.
  - intros u' Hfd. apply HQ.
    + eapply intact_trans; [apply Hc|].
      destruct (kept_freed v va (-1) u u kp u' Hh) as [Hk Hb]; [apply filled_refl; [apply Hh|done]|exact Hfd|].
      split; [exact Hk|]. intros Hset t p i Ht Hp Hi. by apply (Hb Hset); [..|left].
    + intros p Hlo Hmod Hhi. destruct (fd_pages _ _ _ Hfd) as [[Ek _] Hp].
      change (pool_of ZERO (pg_pa (vm_pg u'))) with (KERNEL_POOL (pg_pa (vm_pg u'))) in *. rewrite Ek in Hlo, Hhi.
      destruct (Hex p Hlo Hmod Hhi) as (a & Ha & Hl). exists a. split; [done|]. apply Hp; [done|]. intros ->.
      destruct (fr_user _ _ page_frame2) as [Hin _]. apply is_page_one in Ha; [|by eapply in_pool_mod|done].
      apply (pool_apart s2 kp kp); [apply (mo_spaces _ _ _ (proj1 page_mem2))| |done|done].
      change (KERNEL_POOL (pg_pa (vm_pg u))) with (KERNEL_POOL (pg_pa s2)) in *. unfold in_pool. change (kpage e) with kp in *. subst p.
      rewrite !andb_true_iff, Z.leb_le, Z.ltb_lt, Z.eqb_eq. unfold PGSIZE in *. lia.
Qed.
End page.

(** A frame is free as long as there are pages to copy. *)
Lemma copied_room va v : copied va v -> user_page va -> is_Some (mapping (vm_pg v0) ppd va) -> ~ exhausted (Z.lor USER ZERO) 1 (pg_pa (vm_pg v)).
Proof.
  intros Hc Hva Hm Hex. destruct (cp_room _ _ Hc) as (F & HF & Hsz).
  assert (va ∈ filter (fun x => va <= x) G) as Hin by (apply elem_of_filter; split; [lia|by apply HG]).
  assert (size F <> 0%nat) as Hne.
  { assert (size ({[va]} : gset Z) <= size (filter (fun x => (va <= x)%Z) G))%nat as H1 by (apply subseteq_size; set_solver).
    rewrite size_singleton in H1. lia. }
  apply size_non_empty_iff, set_choose in Hne as [p Hp]. destruct (HF p Hp) as [Hpool Hl].
  pose proof (proj1 (pl_paging _ (ss_pools _ _ (mo_spaces _ _ _ (cp_mem _ _ Hc))))) as Hpa.
  pose proof (page_index _ p (pa_user _ Hpa) Hpool) as [Hi Ep]. pose proof (in_pool_mod _ _ Hpool) as Hmod.
  destruct (Hex p) as (a & Ha & Hla); change (pool_of (Z.lor USER ZERO) (pg_pa (vm_pg v))) with (USER_POOL (pg_pa (vm_pg v))) in *.
  - unfold PGSIZE in *. lia.
  - done.
  - unfold pool_end, PGSIZE in *. lia.
  - apply is_page_one in Ha; [congruence| |done]. unfold is_page in Ha. rewrite !andb_true_iff, Z.eqb_eq in Ha. apply Ha.
Qed.

Lemma wp_copy_user_page k va pte v (Q : option bool -> Kern D -> Prop) :
  copied va v -> user_page va -> mapping (vm_pg v0) ppd va = Some pte ->
  (forall w, copied (va + PGSIZE) w -> Q None (put_vm w k)) ->
  (forall u, intact v0 u -> exhausted ZERO 1 (pg_pa (vm_pg u)) -> Q (Some false) (put_vm u k)) ->
  wp (copy_user_page child (-1) va pte) (put_vm v k) Q.
Proof.
  intros Hc Hva Hm Hdone Hfail. pose proof (ke_ok _ _ (proj1 (cp_kept _ _ Hc))) as Hok. destruct (page_source va pte v Hc Hva Hm) as (_ & Hu & _).
  destruct (user_frame_kernel_page (vm_pg v) _ (ss_pools _ _ (mo_spaces _ _ _ (cp_mem _ _ Hc))) Hu) as [Hks _]. unfold frame_addr in Hks.
  unfold copy_user_page. apply wp_bind, wp_ptov; [lia|]. rewrite (Z.add_comm _ PHYS_BASE). fold (frame_addr pte).
  apply wp_bind, wp_zoom, wp_alloc_free; [done|by eapply copied_room; [done|done|by eexists]|].
  intros kp s1 Hkp0 Hs1 Hkp Hnew Hz Hlv. rewrite (proj2 (Z.eqb_neq _ _) Hkp0).
  change (k_vm (put_vm v k)) with v in *. apply wp_bind, wp_zoom, wp_zoom, wp_modify.
  set (s2 := with_pa (with_mem (copy_page (frame_addr pte) kp (mem s1)) (pg_pa s1)) s1).
  pose proof (page_mem2 va pte v Hc Hva Hm kp s1 Hs1 Hkp Hnew) as [Hm2 _].
  apply wp_bind, wp_zoom, wp_zoom. rewrite <- joined_child.
  apply (wp_set_page_beside J (-1) va s2); [apply Hm2|rewrite joined_child; by apply child_pd|done| | |].
  - by eapply (page_kernel va pte v Hc Hva Hm kp s1).
  - intros _ Hex. apply wp_bind, wp_zoom.
    apply (page_undone va pte v Hc Hva Hm kp s1 Hs1 Hkp Hnew Hlv); [by eapply copied_room; [done|done|by eexists]|intros i Hi; rewrite Hz by done; unfold in_u8; lia|done|].
    intros u Hu1 Hex1. apply wp_ret. by apply Hfail.
  - intros s3 Hup Hbe. apply wp_ret.
    apply (Hdone (registered kp va (-1) (with_pg s3 v))). by eapply (page_done va pte v Hc Hva Hm kp s1).
Qed.

(** *** All pages *)
Lemma page_index_va i j : 0 <= i < 768 -> 0 <= j < 1024 ->
  let va := i * 2 ^ 22 + j * PGSIZE in
  Z.lor (Z.shiftl i 22) (Z.shiftl j 12) = va /\ user_page va /\ pde_idx va = i /\ pte_idx va = j.
Proof.
  intros Hi Hj va. unfold va, PGSIZE. split_and!.
  - rewrite !Z.shiftl_mul_pow2 by lia. change 4096 with (2 ^ 12). rewrite <- (Z.add_lor_land (i * 2 ^ 22)). cut (Z.land (i * 2 ^ 22) (j * 2 ^ 12) = 0); [lia|].
    apply Z.bits_inj'. intros n Hn. rewrite Z.land_spec, Z.bits_0. destruct (decide (n < 22)).
    + by rewrite Z.mul_pow2_bits_low by lia.
    + rewrite (Z.mul_pow2_bits j) by lia. rewrite (Z.bits_above_log2 j); [apply andb_false_r|lia|].
      destruct (decide (j = 0)) as [->|]; [simpl; lia|]. apply Z.log2_lt_pow2; [lia|]. apply (Z.lt_le_trans _ (2 ^ 10)); [lia|apply Z.pow_le_mono_r; lia].
  - unfold user_page, PHYS_BASE, PGSIZE. Z.div_mod_to_equations. lia.
  - rewrite pde_idx_div. Z.div_mod_to_equations. lia.
  - rewrite pte_idx_mod. unfold PGSIZE. Z.div_mod_to_equations. lia.
Qed.

Lemma copied_start F : free_frames v0 F -> (size G <= size F)%nat -> copied 0 v0.
Proof.
  intros HF Hsz. pose proof (fk_ok Hf) as Hok. pose proof (fk_child Hf) as Hn. destruct (vo_mem _ Hok) as [Hs Hfr Hb]. split; try done.
  - split; [by apply newborn_spaces; [|apply Hs|apply Hf]|done|]. intros t va pte. unfold J, join. case_decide; [|apply Hb].
    intros _ Hva. rewrite (newborn_unmapped _ _ _ Hn); [done|apply Hva].
  - intros va Hva. unfold child_page. rewrite (newborn_unmapped _ _ _ Hn) by apply Hva.
    destruct (mapping (vm_pg v0) ppd va); [|done]. rewrite decide_False; [done|]. destruct Hva. lia.
  - exists F. split; [done|]. etrans; [|exact Hsz]. apply subseteq_size. set_solver.
Qed.

Lemma wp_vm_load k v a (Q : Z -> Kern D -> Prop) : Q (read_u32 (mem (vm_pg v)) a) (put_vm v k) -> wp (vm (pg (load a))) (put_vm v k) Q.
Proof.
  intros HQ. apply wp_zoom, wp_zoom, wp_gets. change (k_vm (put_vm v k)) with v. rewrite with_pg_id. exact HQ.
Qed.

(** The entry the inner loop reads. *)
Lemma copied_entry va v i j : copied va v -> 0 <= i < 768 -> 0 <= j < 1024 -> pde (vm_pg v0) ppd i <> 0 -> va = i * 2 ^ 22 + j * PGSIZE ->
  let w := read_u32 (mem (vm_pg v)) (table (vm_pg v0) ppd i + 4 * j) in
  mapping (vm_pg v0) ppd va = if Z.land w PTE_P =? 0 then None else Some w.
Proof.
  intros Hc Hi Hj Hn -> w. destruct (page_index_va i j Hi Hj) as (_ & Hva & Ei & Ej).
  pose proof (cp_map _ _ Hc parent _ (fk_parent Hf) (user_page_u32 _ Hva)) as E. fold ppd in E. rewrite <- E. unfold mapping, pte_at, table.
  rewrite Ei, Ej, (cp_pde _ _ Hc) by lia. rewrite (proj2 (Z.eqb_neq _ _) Hn). done.
Qed.

Lemma wp_copy_user_pages k v (Q : bool -> Kern D -> Prop) :
  copied 0 v -> (forall w, copied PHYS_BASE w -> Q true (put_vm w k)) ->
  (forall u, intact v0 u -> exhausted ZERO 1 (pg_pa (vm_pg u)) -> Q false (put_vm u k)) ->
  wp (copy_user_pages ppd child (-1)) (put_vm v k) Q.
Proof.
  intros Hc Hdone Hfail. unfold copy_user_pages. change (Z.shiftr PHYS_BASE 22) with 768.
  apply wp_bind, (wp_for_ret_range (fun i s => exists v, s = put_vm v k /\ copied (i * 2 ^ 22) v)); [lia|by exists v| |].
  2:{ intros s (w & -> & Hw). by apply wp_ret, Hdone. }
  clear Hc v. intros i s Hi (v & -> & Hc). apply wp_bind, wp_vm_load. fold (pde (vm_pg v) ppd i). rewrite (cp_pde _ _ Hc) by lia.
  destruct (Z.eqb_spec (Z.land (pde (vm_pg v0) ppd i) PTE_P) 0) as [E|E].
  { apply wp_ret. exists v. split; [done|]. eapply copied_skip; [exact Hc|lia|]. intros va Hva Hr.
    assert (pde_idx va = i) as Ei by (rewrite pde_idx_div; Z.div_mod_to_equations; lia).
    unfold mapping. rewrite Ei. destruct (decide (pde (vm_pg v0) ppd i = 0)) as [->|Hne]; [done|]. by destruct (fk_tables Hf i Hi Hne). }
  assert (pde (vm_pg v0) ppd i <> 0) as Hne by (by intros E0; rewrite E0 in E).
  assert (table (vm_pg v0) ppd i < u32_lim) as Hlt.
  { pose proof (ss_space _ _ (mo_spaces _ _ _ (vo_mem _ (fk_ok Hf))) parent (fk_parent Hf)) as Hsp.
    destruct (pd_tables _ _ (sp_ok _ _ Hsp) i ltac:(lia) Hne) as [Hl _].
    destruct (live_page _ _ (proj1 (pl_paging _ (ss_pools _ _ (mo_spaces _ _ _ (vo_mem _ (fk_ok Hf)))))) Hl) as (_ & _ & Hle & _). unfold PGSIZE in Hle.
    fold P in Hle. fold ppd in Hle. lia. }
  unfold table in Hlt. apply wp_bind, wp_ptov; [lia|]. rewrite (Z.add_comm _ PHYS_BASE). fold (table (vm_pg v0) ppd i).
  apply (wp_for_ret_range (fun j s => exists v, s = put_vm v k /\ copied (i * 2 ^ 22 + j * PGSIZE) v)); [lia| | |].
  - exists v. split; [done|]. by rewrite Z.mul_0_l, Z.add_0_r.
  - clear Hc v. intros j s Hj (v & -> & Hc). apply wp_bind, wp_vm_load. destruct (page_index_va i j Hi Hj) as (Ev & Hva & _).
    rewrite Ev. pose proof (copied_entry _ v i j Hc Hi Hj Hne eq_refl) as Hm. cbv zeta in Hm.
    assert (i * 2 ^ 22 + (j + 1) * PGSIZE = i * 2 ^ 22 + j * PGSIZE + PGSIZE) as Ej by lia. rewrite Ej.
    destruct (Z.land _ PTE_P =? 0).
    + apply wp_ret. exists v. split; [done|]. eapply copied_skip; [exact Hc|unfold PGSIZE; lia|]. intros va [_ Ha] Hr.
      assert (va = i * 2 ^ 22 + j * PGSIZE) as -> by (destruct Hva as [_ Hva]; unfold PGSIZE in *; Z.div_mod_to_equations; lia). done.
    + apply wp_copy_user_page; [done|done|done| |done]. intros w Hw. by exists w.
  - intros s (w & -> & Hw). exists w. split; [done|]. by replace ((i + 1) * 2 ^ 22) with (i * 2 ^ 22 + 1024 * PGSIZE) by (unfold PGSIZE; lia).
Qed.
End copy.

(** ** The theorems *)

(** The child [child] of [v'] has the pages of [parent] in [v], and copies of them. *)
Definition same_space {D} (v v' : VM D) (parent child : Z) : Prop :=
  forall va, user_page va ->
    match mapping (vm_pg v) (pds v parent) va with
    | Some pte => exists pte', mapping (vm_pg v') child va = Some pte' /\ page_copy v v' pte pte'
    | None => mapping (vm_pg v') child va = None
    end.

(** C15: [fork] copies the address space.  Let the tables of virtual memory agree ([vm_ok], part of
    [forkable]), every frame of a process be mapped at its page ([settled]), the parent's page
    tables be present, and the child's directory be new and empty.  When the user pool has a free
    frame for each page that the parent has in memory, [copy_user_pages] returns, and unless the kernel's
    pool has no page left for a page table it succeeds: the child's directory then maps exactly the
    pages that the parent's maps, with the same write permissions and the same bytes, clean, each
    in a frame that was free before and that the frame table has under the placeholder owner; the
    directories of all processes, the child's included, share no page.  Whether it succeeds or
    not, both invariants are kept, and the contents of every process's memory, in frames, in swap
    and in files, are what they were. *)
Theorem fork_copies_memory {D : Type} `{!BlockOps D, !BlockLaws D} (k : Kern D) (parent child : Z) (F G : gset Z) :
  let v := k_vm k in
  forkable v parent child -> settled v ->
  present_pages v parent G -> free_frames v F -> (size G <= size F)%nat ->
  wp (copy_user_pages (pds v parent) child (-1)) k (fun ok k' =>
    let v' := k_vm k' in
    vm_ok v' /\ settled v' /\ content_same v v' /\ k' = put_vm v' k /\
    if ok then same_space v v' parent child /\ mem_ok (vm_pg v') (join (-1) child (pds v)) (frames v')
    else exhausted ZERO 1 (pg_pa (vm_pg v'))).
Proof.
  intros v Hf Hset HG HF Hsz. replace k with (put_vm v k) at 1 by (by destruct k).
  apply (wp_copy_user_pages v parent child Hf G HG); [by eapply copied_start| |].
  - intros w Hw. destruct (cp_kept _ _ _ _ _ _ Hw) as [[Ko _ _ Kset _] Kc].
    split_and!; [done|by apply Kset|by apply Kc|done| |apply Hw].
    intros va Hva. pose proof (cp_child _ _ _ _ _ _ Hw va Hva) as H. unfold child_page in H.
    destruct (mapping (vm_pg v) (pds v parent) va) as [pte|]; [|done]. rewrite decide_True in H; [done|apply Hva].
  - intros u [[Ko _ _ Kset _] Kc] Hex. by split_and!; [done|apply Kset|apply Kc|done|].
Qed.

(** *** The supplementary page table *)

(** Entries are under their own addresses. *)
Definition keyed (t : SPT) : Prop := forall page se, t !! page = Some se -> vaddr se = page.

Definition cloned (se : SptEntry) : SptEntry := set_location (clone_location (location se)) se.

Lemma clone_fold l (acc : SPT) page :
  NoDup l.*1 -> (forall kv, kv ∈ l -> vaddr (snd kv) = fst kv) ->
  fold_left (fun child kv => spt_insert (set_location (clone_location (location (snd kv))) (snd kv)) child) l acc !! page =
  match (list_to_map l : SPT) !! page with Some se => Some (cloned se) | None => acc !! page end.
Proof.
  revert acc. induction l as [|[a se] l IH]; intros acc Hnd Hk; [done|]. apply NoDup_cons in Hnd as [Hni Hnd].
  cbn [fold_left fst snd list_to_map foldr fmap list_fmap] in *. rewrite IH; [|done|intros kv Hkv; apply Hk; by right].
  assert (vaddr se = a) as Ea by (apply (Hk (a, se)); by left). unfold spt_insert. simpl uncurry.
  change (vaddr (set_location _ se)) with (vaddr se). rewrite Ea. destruct (decide (page = a)) as [->|Hne].
  - rewrite lookup_insert_eq. rewrite not_elem_of_list_to_map_1 by done. by rewrite lookup_insert_eq.
  - by rewrite !lookup_insert_ne by done.
Qed.

Lemma clone_lookup t page : keyed t -> clone_spt t !! page = cloned <$> t !! page.
Proof.
  intros Hk. unfold clone_spt. pose proof (btree_iter_keys t) as Hnd.
  rewrite clone_fold; [|done|intros [a se] Hin%elem_of_btree_iter; by apply Hk].
  destruct (t !! page) as [se|] eqn:E.
  - apply elem_of_btree_iter, elem_of_list_to_map_1 in E; [|done]. by rewrite E.
  - rewrite not_elem_of_list_to_map_1; [done|]. intros ([a se] & -> & Hin%elem_of_btree_iter)%list_elem_of_fmap. simpl in E. congruence.
Qed.

(** A page that the parent has in swap is lost: the child's directory does not map it, and the
    child's table says that it is in memory. *)
Lemma swapped_page_lost {D} (v v' : VM D) parent child t page se s :
  same_space v v' parent child -> user_page page -> mapping (vm_pg v) (pds v parent) page = None ->
  keyed t -> t !! page = Some se -> location se = InSwap s ->
  mapping (vm_pg v') child page = None /\ exists se', clone_spt t !! page = Some se' /\ location se' = InMemory.
Proof.
  intros Hs Hp Hm Hk Hse Hl. specialize (Hs page Hp). rewrite Hm in Hs. split; [done|]. rewrite clone_lookup, Hse by done.
  exists (cloned se). split; [done|]. unfold cloned. by rewrite Hl.
Qed.

(** The copies are clean.  Once the page belongs to thread [c], the condition under which eviction
    keeps its contents ([sound]) does not hold if the parent had changed the page. *)
Lemma clean_copy_unsound {D} `{!BlockOps D} (v v' : VM D) c e se pte pte' k :
  page_copy v v' pte pte' -> pds v' c <> 0 -> e ∈ frames v' -> owner_tid e = c -> pinned e = false -> kpage e = frame_addr pte' ->
  mapping (vm_pg v') (pds v' c) (upage e) = Some pte' -> spt_at v' c (upage e) = Some se -> 0 <= k < PGSIZE ->
  reload_byte v' se k <> mem (vm_pg v) (frame_addr pte + k) -> ~ sound v'.
Proof.
  intros Hcp Hpd He <- Hpin Ek Hm Hse Hk Hb Hs. destruct (Hs e He Hpd Hpin) as (se' & Hse' & Hfa). rewrite Hse in Hse'. injection Hse' as <-.
  apply Hb. rewrite <- (pc_bytes _ _ _ _ Hcp k Hk), <- Ek. symmetry. apply (Hfa pte' Hm); [apply Hcp|done].
Qed.

(** *** A parent with one page, and an empty directory for the child *)
Definition fork_mem : Mem := write_u32 (proc_pd + 4 * 767) 0 vm_mem.
Definition fork_paging : Paging := mkPaging (with_mem fork_mem demo_pa) proc_pd 0x00101000 [].
Definition fork_vm : VM RamDisk := with_pg fork_paging demo_vm.

Lemma fork_mem_at x : fork_mem x = if decide (proc_pd + 0xBFC <= x < proc_pd + 0xC00) then 0 else vm_mem x.
Proof.
  unfold fork_mem. case_decide as Hd; [|by rewrite write_u32_frame by (unfold proc_pd in *; lia)].
  assert (x = proc_pd + 0xBFC \/ x = proc_pd + 0xBFD \/ x = proc_pd + 0xBFE \/ x = proc_pd + 0xBFF) as [-> | [-> | [-> | ->]]] by lia; by vm_compute.
Qed.

Lemma fork_mem_frame x : frame_a <= x -> fork_mem x = vm_mem x.
Proof. intros Hx. rewrite fork_mem_at. apply decide_False. unfold frame_a, proc_pd in *. lia. Qed.

Lemma fork_mem_zero pd i : pd = proc_pd /\ i <> 32 \/ pd = stack_pt -> 0 <= i < 1024 -> pde fork_paging pd i = 0.
Proof.
  intros Hp Hi. unfold pde. change (mem fork_paging) with fork_mem. unfold read_u32.
  assert (forall j, 0 <= j < 4 -> fork_mem (pd + 4 * i + j) = 0) as Hz.
  { intros j Hj. rewrite fork_mem_at. case_decide; [done|]. apply vm_mem_zero; destruct Hp as [[-> ?] | ->]; unfold proc_pd, proc_pt, stack_pt, frame_a in *; lia. }
  pose proof (Hz 0 ltac:(lia)) as H0. rewrite Z.add_0_r in H0. by rewrite H0, !Hz by lia.
Qed.

Lemma fork_u8 x : in_u8 (fork_mem x).
Proof. rewrite fork_mem_at. case_decide; [done|apply vm_mem_u8]. Qed.

Lemma fork_space : space fork_paging proc_pd.
Proof.
  assert (forall i, 0 <= i < 1024 -> pde fork_paging proc_pd i <> 0 -> i = 32) as H.
  { intros i Hi Hn. destruct (decide (i = 32)); [done|]. by rewrite fork_mem_zero in Hn by auto. }
  split; [split; [by vm_compute| |]| |].
  - intros i Hi Hn. by rewrite (H i Hi Hn).
  - intros i j Hi Hj Hni Hnj _. by rewrite (H i Hi Hni), (H j Hj Hnj).
  - intros a [->|(i & Hi & Hn & ->)]; [by vm_compute|]. by rewrite (H i Hi Hn).
  - intros i Hi Hn k Hk. apply fork_u8.
Qed.

Lemma fork_mapping va : user_page va -> mapping fork_paging proc_pd va = if decide (va = page_a) then Some 0x00106067 else None.
Proof.
  intros Hva. rewrite <- vm_mapping by done. unfold mapping. destruct (decide (pde_idx va = 32)) as [E|E].
  - unfold pte_at, table. rewrite E. change (pde fork_paging proc_pd 32) with 0x00103007. rewrite vm_pde_32.
    change (PHYS_BASE + Z.land 0x00103007 PTE_ADDR) with proc_pt. change (mem fork_paging) with fork_mem. change (mem vm_paging) with vm_mem.
    pose proof (pte_idx_range va) as Hr. rewrite (read_u32_frame fork_mem vm_mem); [done|].
    intros x Hx. rewrite fork_mem_at. rewrite decide_False; [done|]. unfold proc_pd, proc_pt in *. lia.
  - rewrite fork_mem_zero by (auto || by apply pde_idx_range, user_page_u32). destruct (decide (pde_idx va = 767)) as [E'|E'].
    + rewrite E', vm_pde_767. unfold pte_at, table. rewrite E', vm_pde_767. change (mem vm_paging) with vm_mem.
      change (PHYS_BASE + Z.land 0x00102007 PTE_ADDR) with stack_pt. rewrite vm_pte_stack by apply pte_idx_range. done.
    + by rewrite vm_pde by (done || by apply pde_idx_range, user_page_u32).
Qed.

Lemma fork_vm_ok : vm_ok fork_vm.
Proof.
  destruct demo_vm_ok as [Mm Ma Mc Mf Mi Mcl Msw Mfs Mr Mmap Mspt Msl Mown]. split; try done.
  - change (pds fork_vm) with (pds demo_vm). change (frames fork_vm) with (frames demo_vm). split.
    + split; [by repeat split; vm_compute| |].
      * intros t. rewrite vm_pds. case_decide; [intros _; exact fork_space|done].
      * intros t t' Hne. rewrite !vm_pds. by repeat case_decide; subst.
    + intros e ->%list_elem_of_singleton. split; [split; by vm_compute|intros k Hk; apply fork_u8|by vm_compute].
    + intros t va pte Ht Hva. rewrite vm_pds in *. case_decide; [subst|done]. change (vm_pg fork_vm) with fork_paging.
      rewrite fork_mapping by done. case_decide; [subst|done]. intros [= <-]. exists (mkFrame frame_a page_a 3 true). split; [by left|done].
  - by destruct Msw; split.
  - intros t page se Hse. destruct (Mspt t page se Hse) as [Hp Hr Hfi Ht]. split; [done|done|done|].
    intros s Hs _. apply vm_spt_at in Hse as (-> & [[-> ->]|[[-> ->]|[-> ->]]]); done || by vm_compute.
Qed.

Lemma fork_settled : settled fork_vm.
Proof.
  intros e ->%list_elem_of_singleton. intros _. exists 0x00106067. split; [|done].
  change (pds fork_vm) with (pds demo_vm). rewrite vm_pds. apply fork_mapping. by vm_compute.
Qed.

Lemma fork_forkable : forkable fork_vm 3 stack_pt.
Proof.
  assert (forall i, 0 <= i < 1024 -> pde fork_paging stack_pt i = 0) as Hz by (intros; by apply fork_mem_zero; [right|]).
  assert (forall t, pds fork_vm t = if decide (t = 3) then proc_pd else 0) as Ep by exact vm_pds.
  assert (forall a, uses fork_paging proc_pd a -> a <> stack_pt) as Hu.
  { intros a [->|(i & Hi & Hn & ->)]; [done|]. destruct (decide (i = 32)) as [->|]; [by vm_compute|]. by rewrite fork_mem_zero in Hn by auto. }
  split.
  - exact fork_vm_ok.
  - by rewrite Ep.
  - by rewrite Ep.
  - rewrite Ep. change (if decide (3 = 3) then proc_pd else 0) with proc_pd. intros i Hi Hn.
    destruct (decide (i = 32)) as [->|]; [by vm_compute|]. change (vm_pg fork_vm) with fork_paging in Hn. rewrite fork_mem_zero in Hn by (auto || lia). done.
  - change (vm_pg fork_vm) with fork_paging. split.
    + split; [split; [by vm_compute| |]| |].
      * intros i Hi. by rewrite Hz.
      * intros i j Hi Hj. by rewrite Hz.
      * intros a [->|(i & Hi & Hn & _)]; [by vm_compute|]. by rewrite Hz in Hn.
      * intros i Hi. by rewrite Hz.
    + split_and!; [by vm_compute|by vm_compute|]. intros t. rewrite Ep. case_decide; [|done]. intros _ Ho. by apply (Hu stack_pt (owns_uses _ _ _ Ho)).
    + intros t. rewrite Ep. case_decide; [|done]. intros _ Ho. by apply (Hu _ Ho).
    + intros i Hi. apply Hz. lia.
    + intros i Hi. by rewrite Hz.
Qed.

(** The first bytes of the parent's page in the child. *)
Lemma fork_copies_memory_witness :
  wp (copy_user_pages proc_pd stack_pt (-1)) (demo_kern fork_vm) (fun ok k' => let v' := k_vm k' in
    if ok then exists pte, mapping (vm_pg v') stack_pt page_a = Some pte /\ mem (vm_pg v') (frame_addr pte + 16) = 104 /\
                 (Z.land pte PTE_W =? 0) = false
    else exhausted ZERO 1 (pg_pa (vm_pg v'))).
Proof.
  eapply wp_mono.
  - apply (fork_copies_memory (demo_kern fork_vm) 3 stack_pt {[0xC0107000]} {[page_a]}).
    + exact fork_forkable.
    + exact fork_settled.
    + intros va Hva. change (k_vm (demo_kern fork_vm)) with fork_vm. change (mapping _ _ va) with (mapping fork_paging proc_pd va).
      rewrite fork_mapping by done. case_decide; [set_solver|by intros [? ?]].
    + intros p ->%elem_of_singleton. by vm_compute.
    + done.
  - intros [] k' (_ & _ & _ & _ & H); [|exact H]. destruct H as [Hs _]. specialize (Hs page_a ltac:(by vm_compute)).
    change (mapping (vm_pg (k_vm (demo_kern fork_vm))) (pds (k_vm (demo_kern fork_vm)) 3) page_a) with (Some 0x00106067) in Hs.
    destruct Hs as (pte & Hp & [Hw Hb _ _ _]). exists pte. split_and!; [done|rewrite Hb by done; by vm_compute|by rewrite Hw].
Defined.
