(* ===== verification/Start.v ===== *)
(** The start of the scheduler (thread/mod.rs: start, idle; sync/interrupt_guard.rs): the boot thread
    creates the idle thread, waits for it to run once, and goes on. *)
From S2P Require Import Prelude Memory Thread Sync SchedProofs Machine.

(** ** The code *)

(** [InterruptGuard::new] at the start of a scope, and its [drop] at the end. *)
Definition guarded {A} (m : M Kernel A) : M Kernel A :=
  let! old_level := sch intr_disable in
  let! a := m in
  sch (intr_set_level old_level) ;;
  ret a.

Section start.
(** The address of the static's semaphore. *)
Context (IDLE_SEMA : Z).

(** [idle], up to its loop. *)
Definition idle : M Kernel unit := up IDLE_SEMA.

(** The turn of its loop, up to the switch; [idle_wakes] is the rest of it. *)
Definition idle_turn : M Kernel unit :=
  sch intr_disable ;;
  sch block.
Definition idle_wakes : M Kernel unit := sch (modify (with_level true)).

(** [start], up to the point where [down] lets the idle thread run; the result is [old_pri]. *)
Definition start (page : Z) : M Kernel Z :=
  set_sema IDLE_SEMA (mkSema 0 []) ;;
  let! idle_tid := sch (create page [105; 100; 108; 101] PRI_MIN) in
  let! t := sch (scan_all (fun t th => ret (if tid th =? idle_tid then Some t else None))) in
  (match t with
   | None => panic "idle thread not found"
   | Some t => sch (modify (with_idle t))
   end) ;;
  sch intr_enable ;;
  let! old_pri := sch get_priority in
  sch (set_priority PRI_MIN) ;;
  down IDLE_SEMA ;;
  ret old_pri.
Definition start_end (old_pri : Z) : M Kernel unit := sch (set_priority old_pri).

(** Both threads in the order in which they run when no interrupt comes: the idle thread's entry,
    its signal, the rest of [up], its first [block], the boot thread's [down] and the rest of [start]. *)
Definition handover (page : Z) : M Kernel unit :=
  let! old_pri := start page in
  resume ;; idle ;; resume ;; idle_turn ;; resume ;; start_end old_pri.
End start.

(** ** What it leaves behind *)

(** The scheduler's state when the boot thread runs alone. *)
Definition main_thread (t : Z) (page : Thread) : Thread :=
  set_tid 1 (set_status Running (init_thread t [109; 97; 105; 110] PRI_DEFAULT page)).
Definition booted (t : Z) (page : Thread) : Sched :=
  mkSched {[t := main_thread t page]} [] [t] 0 t 0 2 t false false false 0 (t + PGSIZE) {[t := [KBody]]}.

Lemma boot_booted t page : boot t page boot_sched = Ok tt (booted t page).
Proof.
  assert (wp (boot t page) boot_sched (fun _ s => s = booted t page)) as (u & s & E & ->)%wp_ok; [|by destruct u].
  unfold boot, init. apply wp_bind. do 4 apply wp_bind, wp_modify.
  apply wp_bind. unfold allocate_tid. apply wp_bind, wp_gets, wp_bind, wp_i32_add; [done|].
  apply wp_bind, wp_modify, wp_ret. apply wp_bind. eapply wp_upd_thread; [simpl; apply lookup_insert_eq|].
  do 2 apply wp_bind, wp_modify. apply wp_modify. unfold activate. apply wp_bind, wp_gets.
  apply wp_bind. eapply wp_deref; [simpl; apply lookup_insert_eq|].
  apply wp_modify. unfold booted. simpl. by rewrite insert_insert_eq.
Qed.

(** Symbolic execution: the maps are kept as sequences of insertions. *)
#[local] Arguments insert : simpl never.
#[local] Arguments lookup : simpl never.
#[local] Arguments singletonM : simpl never.
#[local] Arguments alter : simpl never.
#[local] Arguments splice : simpl never.
#[local] Arguments wp : simpl never.

Ltac apart := solve [done | by apply not_eq_sym].
Ltac look := cbn; repeat first
  [rewrite lookup_insert_eq | rewrite lookup_insert_ne by apart | rewrite lookup_alter_eq | rewrite lookup_alter_ne by apart | rewrite lookup_singleton_eq | rewrite lookup_singleton_ne by apart]; reflexivity.
Lemma wp_sema_at s x k (Q : Semaphore -> Kernel -> Prop) : semas k !! s = Some x -> Q x k -> wp (get_sema s) k Q.
Proof. unfold wp, get_sema. by intros ->. Qed.

Lemma wp_resume f k (Q : unit -> Kernel -> Prop) :
  top_frame k = Some f -> f <> KBody -> wp (exec_frame f) (pop_frame k) Q -> wp resume k Q.
Proof. unfold wp, resume. intros -> Hf. by destruct f. Qed.

Ltac conds := repeat match goal with H : (_ =? _) = false |- _ => rewrite H end; rewrite ?Z.eqb_refl;
  change (bool_decide (Blocked = Dying)) with false; change (bool_decide (Ready = Dying)) with false; change (i32_min <? PRI_MIN) with true; change (0 + 1 =? 0) with false; cbn.
Ltac head_of m := lazymatch m with ?f _ => head_of f | _ => m end.
Ltac run_step :=
  lazymatch goal with
  | |- wp (bind _ _) _ _ => apply wp_bind
  | |- wp (zoom _ _ _) _ _ => apply wp_zoom
  | |- wp (modify _) _ _ => apply wp_modify
  | |- wp (gets _) _ _ => apply wp_gets
  | |- wp (ret _) _ _ => apply wp_ret
  | |- wp (deref _) _ _ => eapply wp_deref; [look|]
  | |- wp (upd_thread _ _) _ _ => eapply wp_upd_thread; [look|]
  | |- wp (assert _ _) _ _ => apply wp_assert; [cbn; conds; done|]
  | |- wp (get_sema _) _ _ => eapply wp_sema_at; [look|]
  | |- wp resume _ _ => eapply wp_resume; [unfold top_frame; look|done|]
  | |- wp (u32_add _ _) _ _ => apply wp_u32_add; [done|]
  | |- wp (u32_sub _ _) _ _ => apply wp_u32_sub; [done|]
  | |- wp (i32_add _ _) _ _ => apply wp_i32_add; [done|]
  | |- wp (if _ then _ else _) _ _ => progress (cbn; conds)
  | |- wp (match [?x] !! ?i with _ => _ end) _ _ => change ([x] !! i) with (Some x)
  | |- wp (match _ with _ => _ end) _ _ => progress cbn
  | |- wp ?m _ _ => let h := head_of m in unfold h
  end.
Ltac norm :=
  cbv beta iota delta [with_sched with_semas with_threads with_ready with_all with_idle with_initial with_ticks with_next_tid with_level with_intr
       with_current with_mmu with_konts booted pop_frame sched semas holders conds TICKS SLEEP_LIST threads READY_LIST ALL_LIST
       IDLE_THREAD INITIAL_THREAD THREAD_TICKS NEXT_TID current level IN_EXTERNAL_INTR YIELD_ON_RETURN active_pd esp0 konts].
Ltac run := repeat (run_step; norm; cbn).

(** What holds once [start] has returned. *)
Record started (s t p : Z) (k : Kernel) : Prop := {
  sd_main : exists th, threads (sched k) !! t = Some th /\ status th = Running /\ priority th = PRI_DEFAULT /\ original_priority th = PRI_DEFAULT;
  sd_idle : exists th, threads (sched k) !! p = Some th /\ status th = Blocked /\ priority th = PRI_MIN;
  sd_current : current (sched k) = t;
  sd_idle_thread : IDLE_THREAD (sched k) = p;
  sd_ready : READY_LIST (sched k) = [];
  sd_all : ALL_LIST (sched k) = [t; p];
  sd_level : level (sched k) = true;
  sd_code : konts (sched k) !! t = Some [KBody];
  sd_sema : semas k !! s = Some (mkSema 0 []);
}.

Section handover.
Context (s t p : Z) (page : Thread) (Ht : t <> 0) (Hp : p <> 0) (Hne : p <> t).
Context (se : gmap Z Semaphore) (ho : gmap Z Z) (co : gmap Z (list Z)) (ti : Z) (sl : list SleepEntry).

Let Et : (t =? 0) = false := proj2 (Z.eqb_neq _ _) Ht.
Let Ep : (p =? 0) = false := proj2 (Z.eqb_neq _ _) Hp.
Let Etp : (t =? p) = false := proj2 (Z.eqb_neq _ _) (not_eq_sym Hne).
Let Ept : (p =? t) = false := proj2 (Z.eqb_neq _ _) Hne.

(** The two threads, the second of them being the idle one, and the semaphore. *)
Definition idle_thread : Thread :=
  set_stack (p + PGSIZE - 12 - 4 - 28) (set_tid 2 (init_thread p [105; 100; 108; 101] PRI_MIN zero_thread)).
Definition main_at (st : ThreadStatus) (pri : Z) : Thread := set_status st (set_prio pri pri (main_thread t page)).
Definition idle_at (st : ThreadStatus) : Thread := set_status st idle_thread.
Definition duo (cur : Z) (main idle : Thread) (ready : list Z) (lvl : bool) (km ki : list frame) (x : Semaphore) : Kernel :=
  mkKernel (mkSched (<[t := main]> {[p := idle]}) ready [t; p] p t 0 3 cur lvl false false 0 (cur + PGSIZE)
              (<[t := km]> {[p := ki]})) (<[s := x]> se) ho co ti sl.

Ltac same_map :=
  let i := fresh "i" in apply map_eq; intros i; destruct (decide (i = t)) as [->|]; [|destruct (decide (i = p)) as [->|]];
  repeat first
    [rewrite lookup_insert_eq | rewrite lookup_insert_ne by apart | rewrite lookup_alter_eq | rewrite lookup_alter_ne by apart |
     rewrite lookup_singleton_eq | rewrite lookup_singleton_ne by apart]; reflexivity.
Ltac same_state := unfold duo; norm; f_equal; solve [done | by rewrite ?insert_insert_eq | f_equal; solve [done | same_map]].

(** The states between: after [start], the idle thread's entry, its signal, the rest of [up], its
    [block], the boot thread's [down], and the end of [start]. *)
Definition waiting : list frame := [KDown s true; KBody].
Definition at_entry : Kernel := duo p (main_at Blocked PRI_MIN) (idle_at Running) [] false waiting [KKernelThread] (mkSema 0 [t]).
Definition at_idle : Kernel := duo p (main_at Blocked PRI_MIN) (idle_at Running) [] true waiting [KBody; KExit] (mkSema 0 [t]).
Definition at_signal : Kernel := duo p (main_at Ready PRI_MIN) (idle_at Running) [t] false waiting [KUp s true; KBody; KExit] (mkSema 0 []).
Definition at_loop : Kernel := duo p (main_at Ready PRI_MIN) (idle_at Running) [t] true waiting [KBody; KExit] (mkSema 1 []).
Definition at_switch : Kernel := duo t (main_at Running PRI_MIN) (idle_at Blocked) [] false waiting [KBody; KExit] (mkSema 1 []).
Definition at_main : Kernel := duo t (main_at Running PRI_MIN) (idle_at Blocked) [] true [KBody] [KBody; KExit] (mkSema 0 []).
Definition at_end : Kernel := duo t (main_at Running PRI_DEFAULT) (idle_at Blocked) [] true [KBody] [KBody; KExit] (mkSema 0 []).

Ltac stage := unfold at_entry, at_idle, at_signal, at_loop, at_switch, at_main, at_end, duo; run; same_state.

Lemma start_begins : wp (start s p) (mkKernel (booted t page) se ho co ti sl) (fun old k => old = PRI_DEFAULT /\ k = at_entry).
Proof. unfold start, create. run. split; [done|]. unfold at_entry. same_state. Qed.
Lemma idle_enters : wp resume at_entry (fun _ k => k = at_idle).
Proof. stage. Qed.
Lemma idle_signals : wp (idle s) at_idle (fun _ k => k = at_signal).
Proof. stage. Qed.
Lemma idle_signalled : wp resume at_signal (fun _ k => k = at_loop).
Proof. stage. Qed.
Lemma idle_blocks : wp idle_turn at_loop (fun _ k => k = at_switch).
Proof. stage. Qed.
Lemma main_resumes : wp resume at_switch (fun _ k => k = at_main).
Proof. stage. Qed.
Lemma main_ends : wp (start_end PRI_DEFAULT) at_main (fun _ k => k = at_end).
Proof. stage. Qed.
End handover.

(** C33: the scheduler starts.  From the boot thread alone on its page [t], with [p] the page that the
    allocator hands out for the idle thread, [start] and [idle] run to the point where [start] has
    returned: the boot thread runs again, with its priority back and interrupts on, the idle
    thread is blocked and known to the scheduler, nothing is ready, and the semaphore between the
    two is as new. *)
Theorem start_correct s t p page k :
  t <> 0 -> p <> 0 -> p <> t -> boot t page boot_sched = Ok tt (sched k) ->
  wp (handover s p) k (fun _ k' => started s t p k').
Proof.
  intros Ht Hp Hne Hb. rewrite boot_booted in Hb. injection Hb as Hb. destruct k as [sc se ho co ti sl]. simpl in Hb. subst sc.
  unfold handover. apply wp_bind. eapply wp_mono; [by apply start_begins|]. intros old k [-> ->].
  apply wp_bind. eapply wp_mono; [by apply idle_enters|]. intros _ k ->. apply wp_bind. eapply wp_mono; [by apply idle_signals|]. intros _ k ->.
  apply wp_bind. eapply wp_mono; [by apply idle_signalled|]. intros _ k ->. apply wp_bind. eapply wp_mono; [by apply idle_blocks|]. intros _ k ->.
  apply wp_bind. eapply wp_mono; [by apply main_resumes|]. intros _ k ->. eapply wp_mono; [by apply main_ends|]. intros _ k ->.
  split; try done.
  - eexists. split; [apply lookup_insert_eq|done].
  - eexists. split; [simpl; rewrite lookup_insert_ne by apart; apply lookup_singleton_eq|done].
  - apply lookup_insert_eq.
  - apply lookup_insert_eq.
Qed.

Lemma start_correct_witness :
  wp (handover 0xC0020000 0xC0400000) (mkKernel (booted 0xC0300000 zero_thread) ∅ ∅ ∅ 0 [])
    (fun _ k' => current (sched k') = 0xC0300000 /\ IDLE_THREAD (sched k') = 0xC0400000 /\ level (sched k') = true).
Proof.
  eapply wp_mono; [apply (start_correct 0xC0020000 0xC0300000 0xC0400000 zero_thread); [done|done|done|apply boot_booted]|].
  intros _ k' [_ _ Hc Hi _ _ Hl _ _]. done.
Defined.

(** Without a page for the idle thread the kernel panics. *)
Lemma start_without_memory s t page k :
  boot t page boot_sched = Ok tt (sched k) -> start s 0 k = Panic "idle thread not found".
Proof.
  rewrite boot_booted. intros [= Hb]. unfold start, bind, sch, zoom, set_sema, modify, scan_all, gets. cbn. rewrite <- Hb. cbn.
  unfold deref, bind. cbn. by rewrite lookup_singleton_eq.
Qed.

(** ** Interrupt guards *)

(** A guarded scope runs with interrupts off and ends at the level it began with. *)
Lemma wp_guarded {A} (m : M Kernel A) k (Q : A -> Kernel -> Prop) :
  wp m (with_sched (with_level false (sched k)) k) (fun a k' => Q a (with_sched (with_level (level (sched k)) (sched k')) k')) ->
  wp (guarded m) k Q.
Proof.
  intros Hm. unfold guarded. apply wp_bind, wp_zoom. unfold intr_disable. apply wp_bind, wp_gets, wp_bind, wp_modify, wp_ret.
  apply wp_bind. eapply wp_mono; [exact Hm|]. intros a k' HQ. apply wp_bind, wp_zoom. unfold intr_set_level, intr_enable, intr_disable.
  destruct (level (sched k)); apply wp_bind, wp_gets, wp_bind, wp_modify, wp_ret, wp_ret; exact HQ.
Qed.

(** Reading the tick counter under a guard is reading it. *)
Lemma guarded_ticks k : wp (guarded ticks) k (fun n k' => n = TICKS k /\ k' = k).
Proof. apply wp_guarded, wp_gets. split; [done|]. destruct k as [x]. by destruct x. Qed.
