(* ===== verification/Boot.v ===== *)
(** The second half of the kernel's boot (main.rs): from the registered disks to the first process,
    and what the first process finds on a disk that tools/mkdisk wrote. *)
From S2P Require Import Prelude Mkdisk MkBuild Block Bio Proc Process Filesys FreeMap Inode InodeLayout FileMap InodeOps InodeAlloc InodeProofs Directory File DirProofs InodeLife MkImage Thread Vm VmDemo Loader Input SysClaims.

Section boot.
Context {D : Type} `{!BlockOps D}.

(** The kernel's state and the static that tells [main] that the file system is there. *)
Record Boot := mkBoot { b_kern : Kern D; FS_READY : bool }.
Definition kern {A} (m : M (Kern D) A) : M Boot A := zoom b_kern (fun k b => mkBoot k (FS_READY b)) m.
Definition devices {A} (m : M (Registry D) A) : M Boot A :=
  kern (fsys (zoom fs_bio with_bio (zoom bio_reg with_reg m))).

Definition hda : list Z := str "hda".

(** The disk is given its role; whether there is one. *)
Definition main_role : M Boot bool :=
  let! dev := devices (get_by_name hda) in
  match dev with
  | Some _ => devices (set_role FileSys 0) ;; ret true
  | None => kern (kprintln (str "warning: no disk, filesystem unavailable")) ;; ret false
  end.

(** [main] between the messages "ok" and "warning", up to its polling of [FS_READY]. *)
Definition main_disk : M Boot bool :=
  kern (kprintln (str "cpu, mem, vm, devices: ok")) ;;
  let! disk := main_role in
  if disk then let! _ := kern (thread_create (str "fs-init") PRI_DEFAULT) in ret true
  else ret false.

Definition fs_init_thread : M Boot unit :=
  let! size := kern (fsys (filesys_size "fs-init: no FileSys device")) in
  kern (kprintln (str "fs: " ++ dec size ++ str " sectors")) ;;
  kern (fsys (Filesys.init false)) ;;
  kern (kprintln (str "fs: mounted")) ;;
  modify (fun b => mkBoot (b_kern b) true).

Definition has_fs : M Boot bool := let! dev := devices (get_role FileSys) in ret (bool_decide (is_Some dev)).

(** The launch of "init"; [main] goes on in [main_waits] when [execute] has its answer. *)
Definition main_launch : M Boot (option res) :=
  let! fs := has_fs in
  if fs then let! r := kern (execute (str "init")) in ret (Some r) else ret None.

Definition main_waits (init_tid : Z) : M Boot (option res) :=
  if negb (init_tid =? TID_ERROR) then
    kern (kprintln (str "init: pid " ++ dec init_tid)) ;;
    let! r := kern (procs (wait init_tid)) in
    ret (Some r)
  else kern (kprintln (str "panic: cannot exec init")) ;; ret None.

(** The end, up to [power_off]; [status] is what [wait] answered. *)
Definition main_ends (status : option Z) (fs : bool) : M Boot unit :=
  (match status with Some st => kern (kprintln (str "init exited (" ++ dec st ++ str ")")) | None => ret tt end) ;;
  (if fs then kern (fsys flush_if_safe) ;; kern (fsys (zoom fs_bio with_bio sync)) else ret tt) ;;
  kern (kprintln (str "rxv6: halted")).
End boot.

(** ** A disk written by tools/mkdisk *)
Section mount.
Context {D : Type} `{!BlockOps D, !BlockLaws D}.
Implicit Types s : Boot (D := D).

Definition files_of s : FS D := vm_fs (k_vm (b_kern s)).

(** The file system's state with the first device in its role. *)
Definition in_role (fs : FS D) : FS D :=
  with_bio (with_reg (mkRegistry (DEVICES (bio_reg (fs_bio fs))) (<[0%nat := Some 0%nat]> (ROLES (bio_reg (fs_bio fs))))) (fs_bio fs)) fs.

(** A disk named "hda" is registered, and the first one holds the sectors [v]. *)
Record attached s (count : Z) (v : Z -> list Z) : Prop := {
  at_hda : is_Some (find_index (fun d => bool_decide (name_str d = hda)) (DEVICES (bio_reg (fs_bio (files_of s)))));
  at_image : holds_image (in_role (files_of s)) count v;
}.

#[local] Arguments str : simpl never.
#[local] Arguments dec : simpl never.
#[local] Arguments hda : simpl never.
#[local] Arguments wp : simpl never.
#[local] Arguments find_index : simpl never.

(** What [main_role] leaves. *)
Definition put_files (fs : FS D) s : Boot := mkBoot (put_vm (with_fs fs (k_vm (b_kern s))) (b_kern s)) (FS_READY s).

Lemma wp_main_role s (Q : bool -> Boot -> Prop) :
  is_Some (find_index (fun d => bool_decide (name_str d = hda)) (DEVICES (bio_reg (fs_bio (files_of s))))) ->
  Q true (put_files (in_role (files_of s)) s) -> wp main_role s Q.
Proof.
  destruct s as [[[pgs [[reg ca] fm ino] sc bm sl ft ki ch sm sp] pr ta fo nb pi inp out ti] rd]. unfold files_of. cbn. intros [i Hi] HQ.
  unfold main_role, devices, kern, fsys, vm, fs. apply wp_bind. do 5 apply wp_zoom. unfold get_by_name. apply wp_gets. cbn. rewrite Hi.
  apply wp_bind. do 5 apply wp_zoom. exact HQ.
Qed.

(** The text the two print. *)
Definition mount_text (size : Z) : list Z := str "fs: " ++ dec size ++ str " sectors" ++ [10] ++ str "fs: mounted" ++ [10].
Definition fs_init_done s (fs : FS D) (size : Z) : Boot :=
  mkBoot (put_console (mkConsole (k_input (b_kern s)) (vm_sched (k_vm (b_kern s))) (k_out (b_kern s) ++ mount_text size))
            (put_vm (with_fs fs (k_vm (b_kern s))) (b_kern s))) true.

Lemma wp_fs_init_thread s size (Q : unit -> Boot -> Prop) :
  is_Some (fs_dev (fs_bio (files_of s))) -> fs_size (fs_bio (files_of s)) = size ->
  wp (Filesys.init false) (files_of s) (fun _ fs => Q tt (fs_init_done s fs size)) -> wp fs_init_thread s Q.
Proof.
  destruct s as [[[pgs fsys0 sc bm sl ft ki ch sm sp] pr ta fo nb pi inp out ti] rd]. unfold files_of. cbn. intros [d Hd] Hsz Hi.
  unfold fs_init_thread, kern, fsys, vm, fs. apply wp_bind. do 3 apply wp_zoom. unfold wp at 1, filesys_size. cbn. rewrite Hd. cbn.
  unfold fs_size in Hsz. rewrite Hd in Hsz. simpl in Hsz. rewrite Hsz.
  apply wp_bind. apply wp_zoom. apply wp_zoom. apply wp_modify. cbn. apply wp_bind. do 3 apply wp_zoom. cbn.
  eapply wp_mono; [exact Hi|]. intros [] f HQ. cbn. apply wp_bind. apply wp_zoom. apply wp_zoom. apply wp_modify. cbn. apply wp_modify. cbn.
  revert HQ. unfold fs_init_done, put_console, mount_text. cbn. rewrite <- !app_assoc. done.
Qed.
End mount.

(** C30: the kernel boots from what tools/mkdisk writes.  For an image size that the free map's
    indirect block can cover and files that fit, with distinct names, the tool returns; and every
    kernel that has a disk named hda and whose first disk holds the image mounts it: [main] gives
    the disk its role, the thread it starts reports the disk's size, mounts the file system and
    sets [FS_READY]; the file system is consistent, each name is found in the root directory, its
    file reads back as exactly the bytes that went in, and no two files share a sector. *)
Theorem boot_mounts size_mb files : 1 <= size_mb <= 280 -> image_files (2048 * size_mb) files ->
  exists entries b, Mkdisk.main size_mb files (mkBuilder [] 0 0 []) = Ok entries b /\
    forall (D : Type) `{!BlockOps D, !BlockLaws D} (s : Boot (D := D)), attached s (2048 * size_mb) (sec b) ->
      wp (main_role ;; fs_init_thread) s (fun _ s' =>
        FS_READY s' = true /\ fs_ok (files_of s') /\ serves files entries (files_of s') /\
        k_out (b_kern s') = k_out (b_kern s) ++ mount_text (2048 * size_mb)).
Proof.
  intros Hs Hf. destruct (image_mounts size_mb files Hs Hf) as (entries & b & E & H). exists entries, b. split; [done|].
  intros D ops laws s [Hd Hi]. apply wp_bind, wp_main_role; [done|].
  apply (wp_fs_init_thread _ (2048 * size_mb)); [apply Hi|apply Hi|]. eapply wp_mono; [by apply (H D ops laws)|].
  intros _ fs [Hok Hsv]. by split_and!.
Qed.

(** The image in a RAM disk that has no role yet. *)
Definition raw_disk (b : DiskBuilder) : FS RamDisk :=
  with_bio (with_reg (mkRegistry (DEVICES (bio_reg (fs_bio (ram_image b)))) [None; None; None; None]) (fs_bio (ram_image b))) (ram_image b).
Definition power_on (b : DiskBuilder) : Boot := mkBoot (demo_kern (with_fs (raw_disk b) demo_vm)) false.

Lemma boot_mounts_witness : exists entries b, Mkdisk.main 1 demo_files (mkBuilder [] 0 0 []) = Ok entries b /\
  wp (main_role ;; fs_init_thread) (power_on b) (fun _ s' => FS_READY s' = true /\ fs_ok (files_of s') /\ serves demo_files entries (files_of s')).
Proof.
  destruct (boot_mounts 1 demo_files ltac:(lia) demo_image_files) as (entries & b & E & H). exists entries, b. split; [exact E|].
  destruct (main_builds 1 demo_files entries b ltac:(lia) demo_image_files E) as [Hb Hc].
  eapply wp_mono; [apply (H RamDisk _ _ (power_on b))|].
  - split; [by exists 0%nat|]. rewrite <- Hc. exact (ram_holds b Hb).
  - intros _ s' (H1 & H2 & H3 & _). exact (conj H1 (conj H2 H3)).
Defined.
